(* ===== verification/_CoqProject ===== *)
-Q . S2P
Prelude.v
Memory.v
Strings.v
CompilerRt.v
Stdio.v
Pmm.v
Paging.v
Heap.v
Thread.v
Scheduler.v
Sync.v
Ipc.v
Pipe.v
ThreadManager.v
MsgQueue.v
NetPacket.v
Net.v
Disk.v
Clusters.v
Volume.v
Fat16.v
Fat32.v
Input.v
Devices.v
Services.v
Graphics.v
Ui.v
Users.v
Elf.v
Ata.v
Cursor.v
Ps2.v
Mouse.v
Keyboard.v
