(* ===== verification/Prelude.v ===== *)
(** * KOS kernel: a verification development

    KOS is a 32-bit x86 kernel in C++ ([src/kernel]).  This library translates
    its memory management, processes, communication between threads, network
    stack, FAT16 and FAT32 file systems, windows, keyboard and mouse, user
    accounts and a number of smaller components into executable Rocq definitions, and proves what makes them correct.

    ** The program and the files

    Memory.  At boot [PMM::Init] (memory/pmm.cpp) builds a bitmap of page
    frames, [Paging::Init] (memory/paging.cpp) takes frames for a directory
    and tables that map the first 64 MiB to themselves, and [Heap::Init]
    (memory/heap.cpp) maps pages for the kernel heap, which [new] and all
    later components allocate from.
    - [Memory.v]: memory as a finite map from addresses to bytes, 16- and
      32-bit accesses, [memcpy], [memmove], [memset] and the like.
    - [Pmm.v]: the globals of pmm.cpp are the record [pmm]; one definition per
      method.  The abstract state is the set of free frames.
    - [Paging.v]: the record [paging] is physical memory, a [pmm] and the
      control registers.  The abstract state is the map from pages to entries.
    - [Heap.v]: block headers in memory as a doubly linked list, with the lock
      and the statistics.  The heap needs its pages through the class
      [PageSupply]; [paging_supply] implements it with [Paging.v] and [Pmm.v].
      The abstract state is the list of blocks in address order.
    - [Elf.v]: the program loader (lib/elfloader.cpp) on memory by virtual
      address, through the tables of [Paging.v].

    Libraries.
    - [Strings.v]: lib/string.cpp, lib/libc/string.c and the two tokenizers,
      on byte memory.
    - [CompilerRt.v]: 64-bit division (lib/compiler_rt.cpp).
    - [Stdio.v]: formatted output and input (lib/stdio.cpp) and the ring of
      characters that the keyboard fills; the keys that interrupts bring while
      a function runs are the list [arrivals].

    Processes.  Threads are heap objects linked through their [next] field
    into five ready queues and a list of sleepers; the timer interrupt enters
    the scheduler with the stack pointer of the interrupted thread.
    - [Thread.v]: thread objects, stacks and saved contexts (thread.cpp).
    - [Scheduler.v]: scheduler.cpp; the abstract state is a function from
      priorities to lists of threads and the list of sleepers.
    - [Sync.v]: mutex, semaphore and condition variable (sync.cpp), and the
      interleavings of threads that share a mutex as step relations.
    - [ThreadManager.v]: the registry of threads (thread_manager.cpp).

    Communication.  Pipes and message queues are objects on the heap with
    messages in heap blocks of their own, guarded by mutexes.
    - [Ipc.v]: what the two share; a section per layer (messages, locks,
      linked queues).  [Pipe.v] (pipe.cpp) and [MsgQueue.v]
      (message_queue.cpp) are built on it, with their managers.

    Network.  Drivers hand frames to the receive callback, which updates the
    ARP cache, queues echo replies and passes UDP to the DNS client.
    - [NetPacket.v]: builders and parsers of packets (ipv4_packet.cpp,
      icmp.cpp, udp.cpp, dns.cpp).
    - [Net.v]: the state of the stack and its operations (arp.cpp,
      arp_cache.cpp, nic.cpp, ipv4.cpp, rx_dispatch.cpp, raw_icmp.cpp,
      raw_icmp_shim.cpp, dns.cpp, and lib/syscalls.cpp).

    Files.
    - [Disk.v]: the class [BlockDevice] for drivers/blockdevice.hpp, the class
      [WorkingDevice] of what a file system relies on (a written sector reads
      back, the others keep their bytes, calls within the capacity succeed), a
      disk in memory that implements both, directory entries and short names.
    - [Clusters.v]: the loops over chains of clusters that fs/fat16.cpp and
      fs/fat32.cpp have in common (lookup, entries, contents of files), on the
      class [ClusterOps]; proved against the class [ClusterStore], which says
      what reading, writing and allocating clusters does.
    - [Volume.v]: sectors, clusters and the table on a block device, which the
      two drivers have but for the width of an entry; the class [FatVolume] is
      what a driver adds, [VolumeLaws] what it proves to get a [ClusterStore].
    - [Fat16.v]: fs/fat16.cpp on any block device.
    - [Fat32.v]: fs/fat32.cpp on any block device.
    - [Ata.v]: the disk driver (drivers/ata/ata.cpp) on the ports of a disk
      controller, given by the class [AtaController]; the driver implements
      [WorkingDevice], so the file system runs on it.

    Devices and services.
    - [Input.v]: the ring of input events (input/event_queue.cpp).
    - [Devices.v]: segment descriptors (gdt.cpp), the clock (rtc.cpp) and the
      interval timer (timer.cpp).
    - [Services.v]: the service manager (service_manager.cpp), which reads its
      configuration through the class [Filesystem], implemented by [Fat16.v],
      and runs services through the class [IService].
    - [Users.v]: the user accounts (user_service.cpp), kept in a file reached
      through the class [Filesystem].

    Windows.  The compositor draws into a back buffer, a block of the kernel
    heap, and copies it to the frame buffer the boot loader describes; the
    window framework keeps a table of windows and their order and calls it.
    - [Graphics.v]: framebuffer.cpp, render_backend.cpp and compositor.cpp on
      the memory of [Heap.v] and the mappings of [Paging.v].
    - [Ui.v]: ui/framework.cpp; the abstract state is the list of windows from
      back to front.

    Keyboard and mouse.  Both devices share one controller.  Their drivers take
    its bytes in interrupts or by polling and pass what they decode to handlers
    and to the queue of [Input.v].
    - [Ps2.v]: the controller (drivers/ps2/ps2.cpp) on its ports; the class
      [PS2Device] is the documented behaviour of the chip.
    - [Cursor.v]: the cursor, its scaling and the file of its configuration
      (ui/input.cpp).
    - [Mouse.v]: drivers/mouse/mouse_driver.cpp with both calibrations, and the
      handler of kernel_globals.cpp that moves the cursor.
    - [Keyboard.v]: drivers/keyboard/keyboard_drive.cpp and, behind the class
      [KeyboardEventHandler], console/shellKeyboardHandler.cpp, which fills the
      rings of [Stdio.v] and lib/sysapi.cpp.  The abstract state is a decoder
      of bytes, [decode_byte], and above it a list of keys pressed and released.

    This file holds what all share: machine integers as [Z] with their
    wrap-around ([u8], [u16], [u32], [u64]), the monad [ST] of state with
    [None] for a run that does not return or leaves its buffers, its notations
    and its rules, tactics and the hint database [kos].

    ** What the theorems show

    - Allocators.  [Pmm.AllocFrame_refines], [FreeFrame_refines] and
      [Init_establishes_wf]: the bitmap and its counters implement a set of
      free frames.  [Heap.Alloc_spec], [Free_spec] and [Init_spec]: regions
      handed out are aligned, large enough and apart, and all other live bytes
      are kept; [heap_sessions]: in any session of clients that stay inside
      their regions, what they wrote is there until they free it.
    - Address translation.  [Paging.MapPage_translates],
      [Init_identity_map]: what is mapped afterwards, and that nothing else
      changes.
    - Programs.  [Elf.LoadAndExecute_spec]: a proper program is in place when
      its entry point is called, and nothing else has changed;
      [LoadAndExecute_reads_outside] and [LoadAndExecute_overruns] prove
      defects of the checks.
    - Scheduling.  [Scheduler.scheduler_refines], [Schedule_highest_priority],
      [CreateTask_spec]: linked queues implement FIFO lists by priority, and
      the oldest of the most urgent threads runs; [OnTimerTick_loses_thread],
      [ResumeTask_loops] and [SleepTask_cuts_queue] prove defects of
      preemption, of resuming and of putting another thread to sleep.
    - Synchronisation.  [Sync.mutex_exclusion] for uninterrupted passes, and
      [mutex_race] for what preemption inside [Lock] breaks;
      [semaphore_accounting].
    - Communication.  [Pipe.Write_spec], [Read_spec], [MsgQueue.Send_spec],
      [Receive_spec]: linked messages implement a queue of bytes with headers,
      on every branch, with the memory of others kept.
    - Network.  [NetPacket.parse_dns_response_spec], [build_dns_query_spec],
      [build_ipv4_packet_spec]; [Net.deliver_safe]: no frame makes the stack
      read outside it; [udp_loopback]: what becomes of a packet handed back to
      the sender; [dns_resolve_returns]: with what result and after how many
      polls; [arp_cache_refines], [ring_refines].
    - Files.  [Fat16.WriteFile_ReadFile] and [WriteFile_appends]: files in a
      directory of the root read back as written, other clusters in use are
      kept; [Mount_spec]; [WriteFile_root_size_zero] proves a defect.
      [Fat32.WriteFile_ReadFile_32], [WriteFile_appends_32], [Mkdir_spec],
      [Rename_same_directory], [Rename_moves]: files and directories at any
      depth, with the other names of the directories changed still leading
      where they did; [WriteFile_overwrites] and [Mkdir_in_file] prove defects.
      [Ata.sectors_roundtrip]: sectors the driver writes to a prompt drive read
      back, the others keep their bytes; [flush_while_busy]: to a drive that is
      busy after the last word the driver writes a command regardless;
      [no_device]: an absent drive is an error.
    - Windows.  [Ui.ui_invariant]: every call returns and keeps the tables
      well-formed, and the window in motion in them but for the close that
      removes it; [CloseWindow_spec], [BringToFront_spec], [HitTest_spec],
      [placeWindowMinOverlap_free], [ToggleMaximize_roundtrip].
      [Graphics.FillRect_spec], [Blit_spec], [EndFrame_spec],
      [Initialize_spec]: pixel by pixel what is on the screen, and
      [Ui.RenderAll_bounds]: nothing is written outside the back buffer.
    - Accounts.  [Users.accounts_invariant]: there is always a superuser, and
      how the session changes; [SetPassword_authenticates],
      [Start_roundtrip]; [SetPassword_forgotten] and
      [DelUser_switches_session] prove defects.
    - Text.  [Stdio.vprintf_spec] and [snprintf_spec]: what is printed;
      [scanf_returns] and [print_scan]: a number printed and typed in in time
      is the number read; [snprintf_negative], [snprintf_overflow],
      [vprintf_past_end] and [scanf_no_wait] prove defects.
    - Keyboard and mouse.  [Keyboard.keys_typed]: the keys pressed arrive as
      their characters on either path; [keys_reach_reader]: from the
      controller to the buffer of [scanf]; [keyboard_invariant],
      [app_keys_refine].  [Mouse.packets_arrive]: any bytes have the effect of
      the packets that a reference framing finds in them; [mouse_invariant]: any bytes keep both drivers well-formed.
      [Cursor.cursor_on_screen], [MouseMove_exact], [config_roundtrip].
      [Keyboard.keyboard_Activate] and [Mouse.Activate_spec]: activation ends.
      [Mouse.answer_in_packet], [calibration_mirrors],
      [Keyboard.shift_release_loses_key], [break_split_types],
      [Cursor.config_stale], [Save_ignores_failure] and [MouseMove_overflows]
      prove defects.
    - Smaller components.  Division, string search and splitting, the event
      queue, the clock, descriptors, configuration and ticks of services.

    ** Loops and fuel

    A loop that counts is a [for_loop] or a structural recursion.  A loop over
    a linked structure has as fuel a bound that a well-formed structure cannot
    exceed: [block_fuel] headers that fit in the heap, the number of objects
    in the store for queues, [S (size m)] for a scan for NUL.  Chains of
    clusters take [chain_fuel] = 65536 steps in [Fat16.v], more than there are
    clusters; in [Fat32.v] the fuel is an argument, and any number above the
    number of entries of the table is enough.
    [PHNUM_FUEL] = 65536 exceeds every number of program headers.
    [CLOSE_FUEL] = 17 bounds the recursion over child windows and the climb in
    their order, as there are at most sixteen; [grid_fuel] covers the grid of
    places of a new window.
    [scan_fuel] covers the characters in the ring and those that arrive.
    [flush], which empties the controller, takes the fuel as an argument; more
    than the bytes that wait is enough.  The waits of the controller are
    bounded in the source.
    Polling loops take the fuel as an argument; the theorems give the number
    of passes that is enough, or hold for any fuel that covers the hypotheses
    (one pass for a pipe or queue without waiting).  Running out of fuel is
    [None], and every theorem about a result proves that there is one.

    ** What is not modelled

    The translation look-aside buffer, printing and logging, and hardware
    behind ports: the clock chip, the network card, the disk controller and
    the PS/2 controller are parameters.  The drivers of network cards, graphics
    and USB, interrupt stubs, boot sequence, console, shell, accelerated graphics, the components inside windows, the
    other services and the applications are not translated.  [Yield] changes
    the current thread and does not switch stacks, as in the source, so a
    function that waits sees a change only through the step relations of
    [Sync.v].  Stack buffers are values of the
    function they belong to.  Threads, pipes and similar objects are records
    in stores indexed by their address, next to the byte memory of the heap
    they are allocated in. *)
From stdpp Require Export base numbers list gmap strings.
From Stdlib Require Export ZArith Lia.

#[global] Open Scope Z_scope.

(** * Machine integers *)

Definition u8 (z : Z) : Z := z mod 2 ^ 8.
Definition u16 (z : Z) : Z := z mod 2 ^ 16.
Definition u32 (z : Z) : Z := z mod 2 ^ 32.
Definition u64 (z : Z) : Z := z mod 2 ^ 64.

(** Two's complement reading of a 32-bit pattern ([int32_t]). *)
Definition s32 (z : Z) : Z := (z + 2 ^ 31) mod 2 ^ 32 - 2 ^ 31.

Create HintDb kos.

Lemma u8_range z : 0 <= u8 z < 256.
Proof. apply Z.mod_pos_bound. lia. Qed.
Lemma u16_range z : 0 <= u16 z < 65536.
Proof. apply Z.mod_pos_bound. lia. Qed.
Lemma u32_range z : 0 <= u32 z < 4294967296.
Proof. apply Z.mod_pos_bound. lia. Qed.
Lemma u64_range z : 0 <= u64 z < 18446744073709551616.
Proof. apply Z.mod_pos_bound. lia. Qed.

Lemma u8_small z : 0 <= z < 256 -> u8 z = z.
Proof. intros. apply Z.mod_small. lia. Qed.
Lemma u16_small z : 0 <= z < 65536 -> u16 z = z.
Proof. intros. apply Z.mod_small. lia. Qed.
Lemma u32_small z : 0 <= z < 4294967296 -> u32 z = z.
Proof. intros. apply Z.mod_small. lia. Qed.
Lemma u64_small z : 0 <= z < 18446744073709551616 -> u64 z = z.
Proof. intros. apply Z.mod_small. lia. Qed.

Lemma u32_u32 z : u32 (u32 z) = u32 z.
Proof. apply u32_small, u32_range. Qed.

Lemma shift_or n a b : 0 <= n -> 0 <= b < 2 ^ n -> Z.lor (Z.shiftl a n) b = a * 2 ^ n + b.
Proof.
  intros Hn Hb. rewrite <-Z.shiftl_mul_pow2 by lia. enough (Z.land (Z.shiftl a n) b = 0) by (pose proof (Z.add_lor_land (Z.shiftl a n) b); lia).
  apply Z.bits_inj'. intros i Hi. rewrite Z.land_spec, Z.bits_0, Z.shiftl_spec by lia. destruct (Z.ltb_spec i n).
  - by rewrite Z.testbit_neg_r by lia.
  - replace b with (b mod 2 ^ n) by (by apply Z.mod_small).
    rewrite Z.mod_pow2_bits_high by lia. apply andb_false_r.
Qed.

#[export] Hint Resolve u8_range u16_range u32_range u64_range : kos.

(** [nowrap] removes the truncations whose argument [lia] can bound. *)
Ltac nowrap :=
  repeat match goal with
  | |- context [u32 ?z] => rewrite (u32_small z) by lia
  | |- context [u16 ?z] => rewrite (u16_small z) by lia
  | |- context [u8 ?z] => rewrite (u8_small z) by lia
  | |- context [u64 ?z] => rewrite (u64_small z) by lia
  end.

Tactic Notation "nowrap" "in" hyp(H) :=
  repeat match type of H with
  | context [u32 ?z] => rewrite (u32_small z) in H by lia
  | context [u16 ?z] => rewrite (u16_small z) in H by lia
  | context [u8 ?z] => rewrite (u8_small z) in H by lia
  | context [u64 ?z] => rewrite (u64_small z) in H by lia
  end.

(** Linear arithmetic with division and remainder by numerals. *)
Ltac zdiv :=
  try change (2 ^ 8) with 256 in *; try change (2 ^ 16) with 65536 in *;
  try change (2 ^ 24) with 16777216 in *; try change (2 ^ 32) with 4294967296 in *;
  Z.div_mod_to_equations; lia.

(** Case analysis on the integer comparison of the innermost conditional. *)
Ltac case_zb :=
  match goal with
  | |- context [Z.leb ?a ?b] => destruct (Z.leb_spec a b)
  | |- context [Z.ltb ?a ?b] => destruct (Z.ltb_spec a b)
  | |- context [Z.eqb ?a ?b] => destruct (Z.eqb_spec a b)
  end.

(** * A state monad whose computations may fail to return

    [ST S A] models C++ code that reads and updates a component's globals:
    [None] stands for a run that never returns to its caller (a failed
    [KASSERT], an endless spin) or that leaves the defined behaviour of the
    language (an array index out of range). *)

Definition ST (S A : Type) : Type := S -> option (A * S).

Definition ret {S A} (a : A) : ST S A := fun s => Some (a, s).
Definition bind {S A B} (m : ST S A) (f : A -> ST S B) : ST S B :=
  fun s => match m s with Some (a, s') => f a s' | None => None end.

Declare Scope kos_scope.
Delimit Scope kos_scope with kos.
#[global] Open Scope kos_scope.
Notation "'let!' x := m 'in' k" := (bind m (fun x => k))
  (at level 10, x name, m at level 100, k at level 200) : kos_scope.
Notation "'let!' ' p := m 'in' k" := (bind m (fun x => match x with p => k end))
  (at level 10, p pattern, m at level 100, k at level 200) : kos_scope.
Notation "m1 ;;; m2" := (bind m1 (fun _ => m2))
  (at level 100, right associativity) : kos_scope.

Lemma bind_step {S A B} (m : ST S A) (f : A -> ST S B) s a s' :
  m s = Some (a, s') -> bind m f s = f a s'.
Proof. intros E. unfold bind. by rewrite E. Qed.

(** Inverting a run that returned. *)
Lemma bind_inv {S A B} (m : ST S A) (f : A -> ST S B) s b s'' :
  bind m f s = Some (b, s'') -> exists a s', m s = Some (a, s') /\ f a s' = Some (b, s'').
Proof. unfold bind. destruct (m s) as [[a s']|]; [eauto|done]. Qed.

Lemma bind_assoc {S A B C} (m : ST S A) (f : A -> ST S B) (g : B -> ST S C) s :
  bind (bind m f) g s = bind m (fun a => bind (f a) g) s.
Proof. unfold bind. by destruct (m s) as [[a s']|]. Qed.

Lemma bind_ext {S A B} (m m' : ST S A) (f : A -> ST S B) s : m s = m' s -> bind m f s = bind m' f s.
Proof. intros E. unfold bind. by rewrite E. Qed.

Definition gets {S A} (f : S -> A) : ST S A := fun s => Some (f s, s).
Definition modify {S} (f : S -> S) : ST S unit := fun s => Some (tt, f s).
Definition stuck {S A} : ST S A := fun _ => None.
Lemma gets_step {S A B} (g : S -> A) (f : A -> ST S B) s : bind (gets g) f s = f (g s) s.
Proof. done. Qed.
Lemma modify_step {S B} (g : S -> S) (f : unit -> ST S B) s : bind (modify g) f s = f tt (g s).
Proof. done. Qed.
Lemma ret_step {S A B} (a : A) (f : A -> ST S B) s : bind (ret a) f s = f a s.
Proof. done. Qed.

(** [KASSERT(b)]: panics, hence never returns, when [b] is false. *)
Definition kassert {S} (b : bool) : ST S unit := if b then ret tt else stuck.

(** Run a computation on a part of the state. *)
Definition zoom {S T A} (get : S -> T) (put : T -> S -> S) (m : ST T A) : ST S A :=
  fun s => match m (get s) with
           | Some (a, t) => Some (a, put t s)
           | None => None
           end.

(** [for (f = lo; f < hi; ++f) body(f)] with [n = hi - lo] iterations. *)
Fixpoint for_loop {S} (n : nat) (lo : Z) (body : Z -> ST S unit) : ST S unit :=
  match n with
  | O => ret tt
  | Datatypes.S n' => body lo;;; for_loop n' (lo + 1) body
  end.

(** Total correctness: from a state satisfying [P], the computation returns
    and its result and final state satisfy [Q]. *)
Definition hoare {S A} (P : S -> Prop) (m : ST S A) (Q : A -> S -> Prop) : Prop :=
  forall s, P s -> exists a s', m s = Some (a, s') /\ Q a s'.

Section Hoare.
Context {S : Type}.
Implicit Types (P : S -> Prop).

Lemma hoare_bind {A B} P (m : ST S A) (f : A -> ST S B) R Q :
  hoare P m R -> (forall a, hoare (R a) (f a) Q) -> hoare P (bind m f) Q.
Proof.
  intros Hm Hf s HP. destruct (Hm s HP) as (a & s' & E & HR).
  destruct (Hf a s' HR) as (b & s'' & E' & HQ).
  exists b, s''. split; [|done]. unfold bind. by rewrite E.
Qed.

Lemma hoare_conseq {A} P P' (m : ST S A) (Q Q' : A -> S -> Prop) :
  hoare P' m Q' -> (forall s, P s -> P' s) -> (forall a s, Q' a s -> Q a s) -> hoare P m Q.
Proof. intros H HP HQ s Hs. destruct (H s (HP s Hs)) as (a & s' & ? & ?). eauto. Qed.

(** The loop rule: an invariant indexed by the loop counter. *)
Lemma hoare_for n lo (body : Z -> ST S unit) (I : Z -> S -> Prop) :
  (forall f, lo <= f < lo + Z.of_nat n -> hoare (I f) (body f) (fun _ => I (f + 1))) ->
  hoare (I lo) (for_loop n lo body) (fun _ => I (lo + Z.of_nat n)).
Proof.
  revert lo. induction n as [|n IH]; intros lo Hb.
  - intros s Hs. exists tt, s. split; [done|]. by rewrite Z.add_0_r.
  - cbn [for_loop]. apply (hoare_bind _ _ _ (fun _ => I (lo + 1))); [apply Hb; lia|]. intros ?.
    eapply hoare_conseq; [apply (IH (lo + 1))| done |].
    + intros f Hf. apply Hb. lia.
    + intros ? s. by replace (lo + 1 + Z.of_nat n) with (lo + Z.of_nat (Datatypes.S n)) by lia.
Qed.
End Hoare.

(** * Counting the integers below a bound that satisfy a test *)

Fixpoint count_lt (P : Z -> bool) (n : nat) : Z :=
  match n with
  | O => 0
  | S n' => count_lt P n' + (if P (Z.of_nat n') then 1 else 0)
  end.

Section Count.
Implicit Types (P Q : Z -> bool) (n : nat).

Lemma count_lt_range P n : 0 <= count_lt P n <= Z.of_nat n.
Proof. induction n as [|n IH]; cbn [count_lt]; [lia|]. destruct (P _); lia. Qed.

Lemma count_lt_ext P Q n :
  (forall f, 0 <= f < Z.of_nat n -> P f = Q f) -> count_lt P n = count_lt Q n.
Proof.
  induction n as [|n IH]; intros H; cbn [count_lt]; [done|].
  rewrite IH by (intros; apply H; lia). by rewrite H by lia.
Qed.

(** Changing the test at one point changes the count by the difference there. *)
Lemma count_lt_update P Q n g :
  0 <= g < Z.of_nat n -> (forall f, 0 <= f < Z.of_nat n -> f <> g -> P f = Q f) ->
  count_lt P n + (if Q g then 1 else 0) = count_lt Q n + (if P g then 1 else 0).
Proof.
  induction n as [|n IH]; intros Hg H; [lia|]. cbn [count_lt].
  destruct (decide (g = Z.of_nat n)) as [->|Hne].
  - rewrite (count_lt_ext P Q) by (intros; apply H; lia). lia.
  - rewrite (H (Z.of_nat n)) by lia. specialize (IH ltac:(lia)).
    rewrite <- (Z.add_assoc (count_lt P n)), (Z.add_comm _ (if Q g then 1 else 0)), Z.add_assoc.
    rewrite IH by (intros; apply H; lia). lia.
Qed.

Lemma count_lt_pos P n : 0 < count_lt P n -> exists f, 0 <= f < Z.of_nat n /\ P f = true.
Proof.
  induction n as [|n IH]; cbn [count_lt]; [lia|]. destruct (P (Z.of_nat n)) eqn:E.
  - intros _. exists (Z.of_nat n). split; [lia|done].
  - intros H. destruct IH as (f & ? & ?); [lia|]. exists f. split; [lia|done].
Qed.

Lemma count_lt_zero P n : count_lt P n = 0 -> forall f, 0 <= f < Z.of_nat n -> P f = false.
Proof.
  induction n as [|n IH]; cbn [count_lt]; intros H f Hf; [lia|].
  pose proof (count_lt_range P n). destruct (P (Z.of_nat n)) eqn:E; [lia|].
  destruct (decide (f = Z.of_nat n)) as [->|]; [done|]. apply IH; lia.
Qed.

Lemma count_lt_compl P n : count_lt P n + count_lt (fun f => negb (P f)) n = Z.of_nat n.
Proof. induction n as [|n IH]; cbn [count_lt]; [done|]. destruct (P _); cbn [negb]; lia. Qed.
End Count.

(** A decidable fact about small integers, by evaluating it at each of them. *)
Lemma below_ind n (P : Z -> bool) : forallb P (seqZ 0 (Z.of_nat n)) = true -> forall z, 0 <= z < Z.of_nat n -> P z = true.
Proof. rewrite forallb_forall. intros H z Hz. apply H, list_elem_of_In, elem_of_seqZ. lia. Qed.
