(* ===== verification/Memory.v ===== *)
(** Byte-addressed memory, its little-endian 16- and 32-bit accesses, and the
    memory primitives of [src/kernel/src/lib/libc/string.c] and
    [src/kernel/src/lib/string.cpp]. *)
From S2P Require Import Prelude.

(** A cell holds an 8-bit quantity; cells never written read as 0 (BSS). *)
Abbreviation mem := (gmap Z Z).

Definition read8 (m : mem) (a : Z) : Z := u8 (default 0 (m !! a)).
Definition write8 (m : mem) (a v : Z) : mem := <[a := u8 v]> m.

Definition read16 (m : mem) (a : Z) : Z := read8 m a + 256 * read8 m (a + 1).
Definition write16 (m : mem) (a v : Z) : mem :=
  write8 (write8 m a v) (a + 1) (Z.shiftr v 8).

Definition read32 (m : mem) (a : Z) : Z :=
  read8 m a + 2 ^ 8 * read8 m (a + 1) + 2 ^ 16 * read8 m (a + 2) + 2 ^ 24 * read8 m (a + 3).
Definition write32 (m : mem) (a v : Z) : mem :=
  write8 (write8 (write8 (write8 m a v) (a + 1) (Z.shiftr v 8)) (a + 2) (Z.shiftr v 16))
         (a + 3) (Z.shiftr v 24).

Section Access.
Implicit Types (m : mem) (a b v : Z).

Lemma read8_range m a : 0 <= read8 m a < 256.
Proof. apply u8_range. Qed.

Lemma read32_range m a : 0 <= read32 m a < 4294967296.
Proof.
  unfold read32. pose proof (read8_range m a). pose proof (read8_range m (a + 1)).
  pose proof (read8_range m (a + 2)). pose proof (read8_range m (a + 3)). lia.
Qed.

Lemma read8_write8 m a b v :
  read8 (write8 m a v) b = if decide (a = b) then u8 v else read8 m b.
Proof.
  unfold read8, write8. rewrite lookup_insert. case_decide; [|done]. cbn.
  apply u8_small, u8_range.
Qed.

Lemma read8_write8_eq m a v : read8 (write8 m a v) a = u8 v.
Proof. rewrite read8_write8. by rewrite decide_True. Qed.

Lemma read8_write8_ne m a b v : a <> b -> read8 (write8 m a v) b = read8 m b.
Proof. intros. rewrite read8_write8. by rewrite decide_False. Qed.

Lemma read8_write32_ne m a b v :
  b < a \/ a + 4 <= b -> read8 (write32 m a v) b = read8 m b.
Proof. intros. unfold write32. rewrite !read8_write8_ne by lia. done. Qed.

Lemma read32_write32_eq m a v : read32 (write32 m a v) a = u32 v.
Proof.
  unfold read32, write32. rewrite !read8_write8.
  repeat (first [rewrite decide_True by lia | rewrite decide_False by lia]).
  unfold u8, u32. rewrite !Z.shiftr_div_pow2 by lia. zdiv.
Qed.

Lemma read32_write32_ne m a b v :
  b + 4 <= a \/ a + 4 <= b -> read32 (write32 m a v) b = read32 m b.
Proof. intros. unfold read32. rewrite !read8_write32_ne by lia. done. Qed.

Lemma read32_write8_ne m a b v :
  b + 4 <= a \/ a < b -> read32 (write8 m a v) b = read32 m b.
Proof. intros. unfold read32. rewrite !read8_write8_ne by lia. done. Qed.

Lemma read32_ext m m' a :
  (forall i, a <= i < a + 4 -> read8 m' i = read8 m i) -> read32 m' a = read32 m a.
Proof. intros H. unfold read32. rewrite !H by lia. done. Qed.
End Access.

(** * memcpy, memmove, memset, memcmp, memchr *)

(** [memcpy]: [for (i = 0; i < n; ++i) d[i] = s[i]]. *)
Fixpoint memcpy_loop (n : nat) (i : Z) (m : mem) (dest src : Z) : mem :=
  match n with
  | O => m
  | S n' => memcpy_loop n' (i + 1) (write8 m (dest + i) (read8 m (src + i))) dest src
  end.
Definition memcpy (m : mem) (dest src : Z) (n : nat) : mem := memcpy_loop n 0 m dest src.

(** The backward loop of [memmove]: [for (i = n; i != 0; --i) d[i-1] = s[i-1]]. *)
Fixpoint memmove_back (n : nat) (m : mem) (dest src : Z) : mem :=
  match n with
  | O => m
  | S n' =>
      let i := Z.of_nat n in
      memmove_back n' (write8 m (dest + (i - 1)) (read8 m (src + (i - 1)))) dest src
  end.

Definition memmove (m : mem) (dest src : Z) (n : nat) : mem :=
  if (dest =? src) || (Nat.eqb n 0) then m
  else if dest <? src then memcpy_loop n 0 m dest src
  else memmove_back n m dest src.

(** [memset]: [for (i = 0; i < n; ++i) p[i] = (unsigned char)(c & 0xFF)]. *)
Fixpoint memset_loop (n : nat) (i : Z) (m : mem) (s v : Z) : mem :=
  match n with
  | O => m
  | S n' => memset_loop n' (i + 1) (write8 m (s + i) v) s v
  end.
Definition memset (m : mem) (s c : Z) (n : nat) : mem := memset_loop n 0 m s (Z.land c 255).

(** [memcmp]: difference of the first pair of bytes that differ, or 0. *)
Fixpoint memcmp_loop (n : nat) (i : Z) (m : mem) (a b : Z) : Z :=
  match n with
  | O => 0
  | S n' =>
      if negb (read8 m (a + i) =? read8 m (b + i)) then read8 m (a + i) - read8 m (b + i)
      else memcmp_loop n' (i + 1) m a b
  end.
Definition memcmp (m : mem) (a b : Z) (n : nat) : Z := memcmp_loop n 0 m a b.

(** [memchr]: address of the first byte equal to [c & 0xFF], or 0. *)
Fixpoint memchr_loop (n : nat) (i : Z) (m : mem) (s target : Z) : Z :=
  match n with
  | O => 0
  | S n' => if read8 m (s + i) =? target then s + i else memchr_loop n' (i + 1) m s target
  end.
Definition memchr (m : mem) (s c : Z) (n : nat) : Z := memchr_loop n 0 m s (Z.land c 255).

Section Primitives.
Implicit Types (m : mem).

(** A forward copy is exact when the destination does not overrun the
    source bytes still to be read. *)
Lemma memcpy_loop_spec n : forall i m dest src b,
  0 <= i -> dest <= src \/ src + i + Z.of_nat n <= dest ->
  read8 (memcpy_loop n i m dest src) b =
    if decide (dest + i <= b < dest + i + Z.of_nat n) then read8 m (src + (b - dest))
    else read8 m b.
Proof.
  induction n as [|n IH]; intros i m dest src b Hi Hov; cbn [memcpy_loop].
  - rewrite decide_False by lia. done.
  - rewrite IH by lia. rewrite !read8_write8.
    repeat case_decide; try lia; try done.
    rewrite u8_small by apply read8_range. f_equal. lia.
Qed.

Lemma memmove_back_spec n : forall m dest src b,
  src <= dest ->
  read8 (memmove_back n m dest src) b =
    if decide (dest <= b < dest + Z.of_nat n) then read8 m (src + (b - dest))
    else read8 m b.
Proof.
  induction n as [|n IH]; intros m dest src b Hle; cbn [memmove_back].
  - rewrite decide_False by lia. done.
  - rewrite IH by done. rewrite !read8_write8.
    repeat case_decide; try lia; try done.
    rewrite u8_small by apply read8_range. f_equal. lia.
Qed.

(** [memmove] moves the [n] source bytes to the destination for every
    overlap, and touches nothing else. *)
Lemma memmove_spec m dest src n b :
  read8 (memmove m dest src n) b =
    if decide (dest <= b < dest + Z.of_nat n) then read8 m (src + (b - dest))
    else read8 m b.
Proof.
  unfold memmove. destruct (Z.eqb_spec dest src) as [->|Hne]; cbn.
  { case_decide; [|done]. f_equal. lia. }
  destruct (Nat.eqb_spec n 0) as [->|Hn]; cbn.
  { rewrite decide_False by lia. done. }
  case_zb.
  - rewrite memcpy_loop_spec by lia. by rewrite !Z.add_0_r.
  - by rewrite memmove_back_spec by lia.
Qed.

Lemma memset_loop_spec n : forall i m s v b,
  0 <= v < 256 ->
  read8 (memset_loop n i m s v) b =
    if decide (s + i <= b < s + i + Z.of_nat n) then v else read8 m b.
Proof.
  induction n as [|n IH]; intros i m s v b Hv; cbn [memset_loop].
  - rewrite decide_False by lia. done.
  - rewrite IH by done. rewrite read8_write8.
    repeat case_decide; subst; try lia; try done. apply u8_small. lia.
Qed.
End Primitives.
