(* ===== verification/Strings.v ===== *)
(** C strings: [src/kernel/src/lib/libc/string.c], the class [String] of
    [src/kernel/src/lib/string.cpp], and the tokenizers of
    [src/kernel/src/lib/tokenize.cpp] and [src/kernel/src/libc/tokenize.c].

    A scan for a NUL needs no bound of its own: memory has finitely many cells
    that were ever written and every other cell reads 0, so a loop that runs
    [S (size m)] times has met a NUL.  Functions that write while they scan
    take the same bound and return [None] when it is exceeded, which happens
    only when the destination overruns the source. *)
From S2P Require Import Prelude Memory.

(** The characters at a pointer. *)
Definition str_at (m : mem) (p i : Z) : Z := read8 m (p + i).

(** [while ( *s++ ) len++]. *)
Fixpoint strlen_loop (fuel : nat) (s : Z -> Z) (len : Z) : Z :=
  match fuel with
  | O => len
  | S fuel' => if s len =? 0 then len else strlen_loop fuel' s (len + 1)
  end.
Definition strlen (m : mem) (s : Z) : Z := strlen_loop (S (size m)) (str_at m s) 0.

(** [while ( *a && *a == *b ) a++, b++], then the difference. *)
Fixpoint strcmp_loop (fuel : nat) (a b : Z -> Z) (i : Z) : Z :=
  match fuel with
  | O => 0
  | S fuel' =>
      if negb (a i =? 0) && (a i =? b i) then strcmp_loop fuel' a b (i + 1) else a i - b i
  end.
Definition strcmp (m : mem) (a b : Z) : Z := strcmp_loop (S (size m)) (str_at m a) (str_at m b) 0.

(** [strncmp], and [String::strcmp] with a length. *)
Fixpoint strncmp_loop (len : nat) (a b : Z -> Z) (i : Z) : Z :=
  match len with
  | O => 0
  | S len' =>
      if negb (a i =? b i) || (a i =? 0) || (b i =? 0) then a i - b i
      else strncmp_loop len' a b (i + 1)
  end.
Definition strncmp (m : mem) (a b : Z) (len : nat) : Z := strncmp_loop len (str_at m a) (str_at m b) 0.

(** [while ( *n2 && *h2 == *n2 ) ++h2, ++n2], then [*n2 == 0]. *)
Fixpoint match_here (fuel : nat) (h n : Z -> Z) (i : Z) : bool :=
  match fuel with
  | O => false
  | S fuel' =>
      if negb (n i =? 0) && (h i =? n i) then match_here fuel' h n (i + 1) else n i =? 0
  end.

Fixpoint strstr_loop (fuel : nat) (m : mem) (h n : Z) : Z :=
  match fuel with
  | O => 0
  | S fuel' =>
      if read8 m h =? 0 then 0
      else if (read8 m h =? read8 m n) && match_here (S (size m)) (str_at m h) (str_at m n) 0 then h
      else strstr_loop fuel' m (h + 1) n
  end.

(** [strstr]; the result 0 is the null pointer. *)
Definition strstr (m : mem) (haystack needle : Z) : Z :=
  if (needle =? 0) || (read8 m needle =? 0) then haystack
  else strstr_loop (S (size m)) m haystack needle.

(** [while (!stop( *p )) ++p]. *)
Fixpoint scan_loop (fuel : nat) (stop : Z -> bool) (m : mem) (p : Z) : Z :=
  match fuel with
  | O => p
  | S fuel' => if stop (read8 m p) then p else scan_loop fuel' stop m (p + 1)
  end.
Definition scan (stop : Z -> bool) (m : mem) (p : Z) : Z := scan_loop (S (size m)) stop m p.

(** [for (; room(i) && src[i]; ++i) d[i] = src[i]; d[i] = 0]. *)
Fixpoint copy_loop (fuel : nat) (room : Z -> bool) (i : Z) (m : mem) (d src : Z) : option mem :=
  match fuel with
  | O => None
  | S fuel' =>
      if room i && negb (read8 m (src + i) =? 0)
      then copy_loop fuel' room (i + 1) (write8 m (d + i) (read8 m (src + i))) d src
      else Some (write8 m (d + i) 0)
  end.

Definition strcat (m : mem) (dest src : Z) : option mem :=
  copy_loop (S (size m)) (fun _ => true) 0 m (scan (fun c => c =? 0) m dest) src.
Definition strncat (m : mem) (dest src n : Z) : option mem :=
  copy_loop (S (size m)) (fun i => i <? n) 0 m (scan (fun c => c =? 0) m dest) src.
(** [String::strncpy]: the limit [n - 1] is computed in 32 bits. *)
Definition strncpy (m : mem) (dest src n : Z) : option mem :=
  copy_loop (S (size m)) (fun i => i <? u32 (n - 1)) 0 m dest src.

(** The class [String] repeats the primitives of [string.c]. *)
Definition String_strlen := strlen.
Definition String_strcmp := strcmp.
Definition String_strcmp_u8 := strcmp.
Definition String_strncmp := strncmp.
Definition String_strncmp_const := strncmp.
Definition String_strstr := strstr.
Definition String_strncat := strncat.
Definition String_memmove := memmove.
Definition String_memchr := memchr.
Definition String_memcmp := memcmp.
Definition String_memset := memset.

(** * Tokenizers *)

Definition is_blank (c : Z) : bool := (c =? 32) || (c =? 9).
Definition is_blank_cr (c : Z) : bool := (c =? 32) || (c =? 9) || (c =? 13).
Definition is_csv_end (c : Z) : bool := (c =? 44) || (c =? 10) || (c =? 13).

(** The loop the three tokenizers share: [room] slots are left in [argv],
    whose new entries are returned with the memory. *)
Fixpoint split_loop (room : nat) (term blank : Z -> bool) (m : mem) (p : Z) : list Z * mem :=
  match room with
  | O => ([], m)
  | S room' =>
      if read8 m p =? 0 then ([], m)
      else
        let q := scan (fun c => (c =? 0) || term c) m p in
        if read8 m q =? 0 then ([p], m)
        else
          let m' := write8 m q 0 in
          let '(l, m'') := split_loop room' term blank m' (scan (fun c => negb (blank c)) m' (q + 1)) in
          (p :: l, m'')
  end.

(** [kos::lib::split_args]: the entries of [argv], their number is the result. *)
Definition split_args (m : mem) (line maxArgs : Z) : list Z * mem :=
  split_loop (Z.to_nat maxArgs) is_blank is_blank m (scan (fun c => negb (is_blank c)) m line).

Definition split_csv (m : mem) (buf maxItems : Z) : list Z * mem :=
  if buf =? 0 then ([], m)
  else split_loop (Z.to_nat maxItems) is_csv_end is_blank m (scan (fun c => negb (is_blank_cr c)) m buf).

(** [kos_split_args]; [argv] is not null. *)
Definition kos_split_args (m : mem) (buf maxArgs : Z) : list Z * mem :=
  if (buf =? 0) || (maxArgs <=? 0) then ([], m)
  else split_loop (Z.to_nat maxArgs) is_blank_cr is_blank_cr m (scan (fun c => negb (is_blank_cr c)) m buf).

(** [while (prog[i] && pi < outSize - 1) out[pi++] = prog[i++]], with [k] the
    room left in [out]: the number of characters copied and the memory. *)
Fixpoint path_loop (k : nat) (m : mem) (prog out : Z) : Z * mem :=
  match k with
  | O => (0, m)
  | S k' =>
      if read8 m prog =? 0 then (0, m)
      else let '(i, m') := path_loop k' (write8 m out (read8 m prog)) (prog + 1) (out + 1) in (i + 1, m')
  end.

Definition bytes_at (m : mem) (p : Z) (l : list Z) : mem :=
  snd (fold_left (fun '(a, m) c => (a + 1, write8 m a c)) l (p, m)).

Definition kos_build_prog_path (m : mem) (prog out outSize : Z) : Z * mem :=
  if (prog =? 0) || (out =? 0) || (outSize <=? 0) then (-1, m)
  else if read8 m prog =? 47 then
    let '(pi, m1) := path_loop (Z.to_nat (outSize - 1)) m prog out in
    (pi, write8 m1 (out + pi) 0)
  else if outSize <? 6 then (-1, m)
  else
    let m1 := bytes_at m out [47; 98; 105; 110; 47] in
    let '(i, m2) := path_loop (Z.to_nat (outSize - 1 - 5)) m1 prog (out + 5) in
    let pi := 5 + i in
    let hasExt := (read8 m2 (out + pi - 4) =? 46) && (read8 m2 (out + pi - 3) =? 101) &&
                  (read8 m2 (out + pi - 2) =? 108) && (read8 m2 (out + pi - 1) =? 102) in
    if hasExt then (pi, write8 m2 (out + pi) 0)
    else if outSize <=? pi + 4
    then (-1, write8 m2 (out + (if pi <? outSize then pi else outSize - 1)) 0)
    else (pi + 4, write8 (bytes_at m2 (out + pi) [46; 101; 108; 102]) (out + (pi + 4)) 0).

(** * Strings as lists of characters *)

Fixpoint cstr (m : mem) (p : Z) (s : list Z) : Prop :=
  match s with
  | [] => read8 m p = 0
  | c :: s' => c <> 0 /\ read8 m p = c /\ cstr m (p + 1) s'
  end.

Section Strings.
Implicit Types (m : mem) (s : list Z).

(** Some cell within [size m] of any address was never written. *)
Lemma nul_within m p : exists k : nat, (k <= size m)%nat /\ read8 m (p + Z.of_nat k) = 0.
Proof.
  destruct (decide (Exists (fun k : nat => read8 m (p + Z.of_nat k) = 0) (seq 0 (S (size m))))) as [He|He].
  - apply Exists_exists in He as (k & Hk & E). exists k. apply elem_of_seq in Hk. split; [lia|done].
  - exfalso. rewrite <-Forall_Exists_neg, Forall_forall in He.
    set (l := (fun k => p + Z.of_nat k) <$> seq 0 (S (size m))).
    assert (Hnd : NoDup l) by (apply NoDup_fmap; [intros ???; lia|apply NoDup_seq]).
    assert (Hs : list_to_set l ⊆@{gset Z} dom m).
    { intros a (k & -> & Hk)%elem_of_list_to_set%list_elem_of_fmap. specialize (He k Hk). apply elem_of_dom.
      unfold read8 in He. destruct (m !! (p + Z.of_nat k)) eqn:E; [eauto|done]. }
    apply subseteq_size in Hs. rewrite size_list_to_set, size_dom in Hs by done.
    subst l. rewrite length_fmap, length_seq in Hs. lia.
Qed.

Lemma cstr_exists m p : exists s, cstr m p s.
Proof.
  destruct (nul_within m p) as (k & _ & E). revert p E. induction k as [|k IH]; intros p E.
  - exists []. cbn. by rewrite Z.add_0_r in E.
  - destruct (decide (read8 m p = 0)) as [E0|E0]; [by exists []|].
    destruct (IH (p + 1)) as [s Hs]; [by replace (p + 1 + Z.of_nat k) with (p + Z.of_nat (S k)) by lia|].
    by exists (read8 m p :: s).
Qed.

Lemma cstr_fun m p s s' : cstr m p s -> cstr m p s' -> s = s'.
Proof.
  revert p s'. induction s as [|c s IH]; intros p [|c' s'] H H'; cbn in *; try done.
  - destruct H' as (? & ? & _). congruence.
  - destruct H as (? & ? & _). congruence.
  - destruct H as (? & <- & H), H' as (? & <- & H'). f_equal. by apply (IH (p + 1)).
Qed.

Lemma cstr_nul m p s k : cstr m p s -> (k < length s)%nat -> read8 m (p + Z.of_nat k) <> 0.
Proof.
  revert p k. induction s as [|c s IH]; intros p k H Hk; cbn in *; [lia|]. destruct H as (? & E & H).
  destruct k as [|k]; [rewrite Z.add_0_r; congruence|].
  replace (p + Z.of_nat (S k)) with (p + 1 + Z.of_nat k) by lia. apply IH; [done|lia].
Qed.

Lemma cstr_size m p s : cstr m p s -> (length s <= size m)%nat.
Proof.
  intros H. destruct (nul_within m p) as (k & Hk & E). destruct (decide (k < length s)%nat); [|lia].
  by destruct (cstr_nul m p s k H).
Qed.

Lemma cstr_ext m m' p s :
  (forall a, p <= a <= p + Z.of_nat (length s) -> read8 m' a = read8 m a) -> cstr m p s -> cstr m' p s.
Proof.
  revert p. induction s as [|c s IH]; intros p He H; cbn [cstr length] in *.
  - rewrite He by lia. done.
  - destruct H as (? & ? & H). rewrite He by lia. split_and!; [done..|]. apply IH; [|done]. intros a Ha. apply He. lia.
Qed.

Lemma cstr_app m p s1 s2 : cstr m p (s1 ++ s2) -> cstr m (p + Z.of_nat (length s1)) s2.
Proof.
  revert p. induction s1 as [|c s1 IH]; intros p H; cbn [app cstr length] in *; [by rewrite Z.add_0_r|].
  destruct H as (_ & _ & H). apply IH in H. by replace (p + Z.of_nat (S (length s1))) with (p + 1 + Z.of_nat (length s1)) by lia.
Qed.

Lemma strlen_loop_ok fuel m p i s :
  cstr m (p + i) s -> (length s < fuel)%nat -> strlen_loop fuel (str_at m p) i = i + Z.of_nat (length s).
Proof.
  revert i s. induction fuel as [|fuel IH]; intros i s H Hf; [lia|]. cbn [strlen_loop].
  change (str_at m p i) with (read8 m (p + i)).
  destruct s as [|c s]; cbn [cstr length] in *.
  - rewrite H. cbn. lia.
  - destruct H as (Hc & E & H). rewrite E. destruct (Z.eqb_spec c 0); [done|].
    rewrite (IH _ s); [lia| |lia]. by replace (p + (i + 1)) with (p + i + 1) by lia.
Qed.

Lemma strlen_ok m p s : cstr m p s -> strlen m p = Z.of_nat (length s).
Proof.
  intros H. unfold strlen. rewrite (strlen_loop_ok _ _ _ _ s); [lia|by rewrite Z.add_0_r|]. pose proof (cstr_size _ _ _ H). lia.
Qed.

(** The result of [strcmp] is 0 exactly on equal strings. *)
Lemma strcmp_loop_ok fuel m a b i s t :
  cstr m (a + i) s -> cstr m (b + i) t -> (length s < fuel)%nat ->
  strcmp_loop fuel (str_at m a) (str_at m b) i = 0 <-> s = t.
Proof.
  revert i s t. induction fuel as [|fuel IH]; intros i s t Hs Ht Hf; [lia|]. cbn [strcmp_loop].
  change (str_at m a i) with (read8 m (a + i)). change (str_at m b i) with (read8 m (b + i)).
  destruct s as [|c s], t as [|d t]; cbn [cstr length] in *; try destruct Hs as (Hc & Es & Hs); try destruct Ht as (Hd & Et & Ht);
    rewrite ?Hs, ?Ht, ?Es, ?Et; cbn [Z.eqb negb andb].
  - done.
  - split; [lia|done].
  - destruct (Z.eqb_spec c 0); [done|]. cbn [negb andb]. split; [lia|done].
  - destruct (Z.eqb_spec c 0); [done|]. destruct (Z.eqb_spec c d) as [->|]; cbn [negb andb].
    + rewrite (IH (i + 1) s t); [|by rewrite Z.add_assoc|by rewrite Z.add_assoc|lia]. split; [by intros ->|by intros [= ->]].
    + split; [lia|]. by intros [= ? ?].
Qed.

Lemma strcmp_ok m a b s t : cstr m a s -> cstr m b t -> strcmp m a b = 0 <-> s = t.
Proof.
  intros Hs Ht. apply strcmp_loop_ok; [by rewrite Z.add_0_r|by rewrite Z.add_0_r|]. pose proof (cstr_size _ _ _ Hs). lia.
Qed.
End Strings.

(** * Substring search *)

(** [k] is the first position at which [ns] occurs in [hs]. *)
Definition first_occurrence (ns hs : list Z) (k : nat) : Prop :=
  ns `prefix_of` drop k hs /\ forall j : nat, (j < k)%nat -> ~ ns `prefix_of` drop j hs.

Lemma match_here_ok fuel m h n i hs ns :
  cstr m (h + i) hs -> cstr m (n + i) ns -> (length ns < fuel)%nat ->
  match_here fuel (str_at m h) (str_at m n) i = bool_decide (ns `prefix_of` hs).
Proof.
  revert i hs ns. induction fuel as [|fuel IH]; intros i hs ns Hh Hn Hf; [lia|]. cbn [match_here].
  change (str_at m h i) with (read8 m (h + i)). change (str_at m n i) with (read8 m (n + i)).
  destruct ns as [|d ns]; cbn [cstr length] in *.
  - rewrite Hn. cbn. by rewrite bool_decide_true by apply prefix_nil.
  - destruct Hn as (Hd & En & Hn). rewrite En. destruct (Z.eqb_spec d 0); [done|]. cbn [negb andb].
    destruct hs as [|c hs]; cbn [cstr] in *.
    + rewrite Hh. destruct (Z.eqb_spec 0 d); [lia|]. rewrite bool_decide_false; [done|]. by intros ?%prefix_nil_inv.
    + destruct Hh as (Hc & Eh & Hh). rewrite Eh. destruct (Z.eqb_spec c d) as [->|Hcd].
      * rewrite (IH (i + 1) hs ns); [|by rewrite Z.add_assoc|by rewrite Z.add_assoc|lia].
        apply bool_decide_ext. split; [apply prefix_cons|apply prefix_cons_inv_2].
      * rewrite bool_decide_false; [done|]. intros Hp. by apply prefix_cons_inv_1 in Hp.
Qed.

Lemma strstr_loop_ok fuel m h n hs ns :
  cstr m h hs -> cstr m n ns -> ns <> [] -> (length hs < fuel)%nat ->
  (exists k, strstr_loop fuel m h n = h + Z.of_nat k /\ first_occurrence ns hs k) \/
  (strstr_loop fuel m h n = 0 /\ forall k, ~ ns `prefix_of` drop k hs).
Proof.
  intros Hh Hn Hne. revert h hs Hh. induction fuel as [|fuel IH]; intros h hs Hh Hf; [lia|]. cbn [strstr_loop].
  destruct hs as [|c hs]; cbn [cstr length] in *.
  { rewrite Hh. cbn. right. split; [done|]. intros k. rewrite drop_nil. by intros ?%prefix_nil_inv. }
  pose proof Hh as (Hc & Eh & Hh'). rewrite Eh. destruct (Z.eqb_spec c 0); [done|].
  assert (Hm : (c =? read8 m n) && match_here (S (size m)) (str_at m h) (str_at m n) 0 = bool_decide (ns `prefix_of` c :: hs)).
  { rewrite (match_here_ok _ _ _ _ _ (c :: hs) ns);
      [|by rewrite Z.add_0_r|by rewrite Z.add_0_r|pose proof (cstr_size _ _ _ Hn); lia].
    destruct ns as [|d ns]; [done|]. destruct Hn as (_ & -> & _). destruct (Z.eqb_spec c d) as [->|]; [done|].
    rewrite bool_decide_false; [done|]. intros Hp. by apply prefix_cons_inv_1 in Hp. }
  rewrite Hm. case_bool_decide as Hp.
  - left. exists O. split; [lia|]. split; [done|lia].
  - destruct (IH (h + 1) hs Hh' ltac:(lia)) as [(k & -> & Hk & Hlt)|(-> & Hno)].
    + left. exists (S k). split; [lia|]. split; [done|]. intros [|j] Hj; [done|]. apply Hlt. lia.
    + right. split; [done|]. by intros [|k]; [|apply Hno].
Qed.

(** [strstr] returns the first position at which the needle occurs in the
    haystack, and the null pointer exactly when it occurs nowhere. *)
Theorem strstr_spec m haystack needle hs ns :
  cstr m haystack hs -> cstr m needle ns -> needle <> 0 ->
  (exists k, strstr m haystack needle = haystack + Z.of_nat k /\ first_occurrence ns hs k) \/
  (strstr m haystack needle = 0 /\ forall k, ~ ns `prefix_of` drop k hs).
Proof.
  intros Hh Hn Hnz. unfold strstr. destruct (Z.eqb_spec needle 0); [done|]. cbn [orb].
  destruct ns as [|c ns].
  - cbn in Hn. rewrite Hn. cbn. left. exists O. split; [lia|]. split; [apply prefix_nil|lia].
  - pose proof Hn as (Hc & E & _). rewrite E. destruct (Z.eqb_spec c 0); [done|].
    apply strstr_loop_ok; [done..|]. pose proof (cstr_size _ _ _ Hh). lia.
Qed.

(** * Scans, copies and tokens *)

(** The number of leading characters before one that satisfies [stop]. *)
Fixpoint upto (stop : Z -> bool) (s : list Z) : nat :=
  match s with
  | [] => O
  | c :: s' => if stop c then O else S (upto stop s')
  end.

Lemma upto_le stop s : (upto stop s <= length s)%nat.
Proof. induction s as [|c s IH]; cbn; [done|]. destruct (stop c); lia. Qed.

Lemma scan_ok stop m p s : stop 0 = true -> cstr m p s -> scan stop m p = p + Z.of_nat (upto stop s).
Proof.
  intros H0 Hs. unfold scan. assert (Hf : (length s < S (size m))%nat) by (pose proof (cstr_size _ _ _ Hs); lia).
  revert Hf Hs. generalize (S (size m)) as fuel. intros fuel. revert p s.
  induction fuel as [|fuel IH]; intros p s Hf Hs; [lia|]. cbn [scan_loop].
  destruct s as [|c s]; cbn [cstr upto length] in *.
  - rewrite Hs, H0. lia.
  - destruct Hs as (_ & -> & Hs). destruct (stop c); [lia|]. rewrite (IH (p + 1) s); [lia|lia|done].
Qed.

(** The characters a bounded copy takes. *)
Fixpoint taken (room : Z -> bool) (i : Z) (s : list Z) : list Z :=
  match s with
  | [] => []
  | c :: s' => if room i then c :: taken room (i + 1) s' else []
  end.

Lemma taken_le room i s : (length (taken room i s) <= length s)%nat.
Proof. revert i. induction s as [|c s IH]; intros i; cbn; [done|]. destruct (room i); cbn; [|lia]. specialize (IH (i + 1)). lia. Qed.

Lemma taken_take n i s : taken (fun i => i <? n) i s = take (Z.to_nat (n - i)) s.
Proof.
  revert i. induction s as [|c s IH]; intros i; cbn [taken]; [by rewrite take_nil|].
  case_zb; [|by replace (Z.to_nat (n - i)) with O by lia].
  rewrite IH. replace (Z.to_nat (n - i)) with (S (Z.to_nat (n - (i + 1)))) by lia. done.
Qed.

Lemma copy_loop_ok fuel room i m d src s :
  cstr m (src + i) s -> (length s < fuel)%nat ->
  src + Z.of_nat (length s) < d \/ d + Z.of_nat (length s) < src ->
  exists m', copy_loop fuel room i m d src = Some m' /\ cstr m' (d + i) (taken room i s) /\
    forall a, a < d + i \/ d + i + Z.of_nat (length (taken room i s)) < a -> read8 m' a = read8 m a.
Proof.
  revert i m s. induction fuel as [|fuel IH]; intros i m s Hs Hf Hd; [lia|]. cbn [copy_loop].
  assert (Hstop : read8 (write8 m (d + i) 0) (d + i) = 0 /\
    forall a, a < d + i \/ d + i + Z.of_nat 0 < a -> read8 (write8 m (d + i) 0) a = read8 m a).
  { split; [apply read8_write8_eq|]. intros a Ha. apply read8_write8_ne. lia. }
  destruct s as [|c s]; cbn [cstr taken length] in *.
  - rewrite Hs. cbn [Z.eqb negb]. rewrite andb_false_r. eexists. by split.
  - destruct Hs as (Hc & E & Hs). rewrite E. destruct (Z.eqb_spec c 0); [done|]. cbn [negb]. rewrite andb_true_r.
    destruct (room i); [|eexists; by split].
    destruct (IH (i + 1) (write8 m (d + i) c) s) as (m' & Em & Hm & Hfr); [|lia|lia|].
    { rewrite Z.add_assoc. apply (cstr_ext m); [|done]. intros a Ha. apply read8_write8_ne. lia. }
    exists m'. split; [done|]. cbn [cstr length]. rewrite Z.add_assoc in Hm, Hfr. split_and!; [done| |done|].
    + rewrite Hfr by lia. rewrite read8_write8_eq. rewrite <-E. apply u8_small, read8_range.
    + intros a Ha. rewrite Hfr by lia. apply read8_write8_ne. lia.
Qed.

Lemma cstr_join m m' p s t :
  cstr m p s -> (forall a, p <= a < p + Z.of_nat (length s) -> read8 m' a = read8 m a) ->
  cstr m' (p + Z.of_nat (length s)) t -> cstr m' p (s ++ t).
Proof.
  revert p. induction s as [|c s IH]; intros p Hs He Ht; cbn [app cstr length] in *; [by rewrite Z.add_0_r in Ht|].
  destruct Hs as (Hc & E & Hs). rewrite He by lia. split_and!; [done..|]. apply IH; [done| |].
  - intros a Ha. apply He. lia.
  - by replace (p + 1 + Z.of_nat (length s)) with (p + Z.of_nat (S (length s))) by lia.
Qed.

(** A string without stop characters is scanned to its end. *)
Lemma upto_nul s : Forall (fun c => c <> 0) s -> upto (fun c => c =? 0) s = length s.
Proof.
  induction 1 as [|c s Hc _ IH]; cbn; [done|]. destruct (Z.eqb_spec c 0); [done|]. by rewrite IH.
Qed.
Lemma cstr_nonzero m p s : cstr m p s -> Forall (fun c => c <> 0) s.
Proof. revert p. induction s as [|c s IH]; intros p Hs; [constructor|]. destruct Hs as (? & _ & ?). constructor; eauto. Qed.

Lemma append_ok room m dest src s t :
  cstr m dest s -> cstr m src t ->
  src + Z.of_nat (length t) < dest \/ dest + Z.of_nat (length s) + Z.of_nat (length t) < src ->
  exists m', copy_loop (S (size m)) room 0 m (scan (fun c => c =? 0) m dest) src = Some m' /\
    cstr m' dest (s ++ taken room 0 t) /\
    forall a, a < dest + Z.of_nat (length s) \/ dest + Z.of_nat (length s) + Z.of_nat (length t) < a ->
      read8 m' a = read8 m a.
Proof.
  intros Hs Ht Hd. rewrite (scan_ok _ _ _ _ eq_refl Hs), upto_nul by by eapply cstr_nonzero.
  destruct (copy_loop_ok (S (size m)) room 0 m (dest + Z.of_nat (length s)) src t) as (m' & E & Hc & Hf).
  { by rewrite Z.add_0_r. }
  { pose proof (cstr_size _ _ _ Ht). lia. }
  { lia. }
  pose proof (taken_le room 0 t). rewrite Z.add_0_r in Hc, Hf. exists m'. split; [done|]. split.
  - apply (cstr_join m); [done| |done]. intros a Ha. apply Hf. lia.
  - intros a Ha. apply Hf. lia.
Qed.

Lemma taken_all i s : taken (fun _ => true) i s = s.
Proof. revert i. induction s as [|c s IH]; intros i; cbn; [done|]. by rewrite IH. Qed.

(** [strcat] and [strncat] return for a source that the destination does
    not reach, leave the concatenation with at most [n] characters of the
    source, terminated, in the destination, and write nothing before the old
    terminator or past the new one. *)
Theorem strncat_spec m dest src n s t :
  cstr m dest s -> cstr m src t ->
  src + Z.of_nat (length t) < dest \/ dest + Z.of_nat (length s) + Z.of_nat (length t) < src ->
  (exists m', strncat m dest src n = Some m' /\ cstr m' dest (s ++ take (Z.to_nat n) t) /\
    forall a, a < dest + Z.of_nat (length s) \/ dest + Z.of_nat (length s) + Z.of_nat (length t) < a ->
      read8 m' a = read8 m a) /\
  (exists m', strcat m dest src = Some m' /\ cstr m' dest (s ++ t) /\
    forall a, a < dest + Z.of_nat (length s) \/ dest + Z.of_nat (length s) + Z.of_nat (length t) < a ->
      read8 m' a = read8 m a).
Proof.
  intros Hs Ht Hd. split.
  - destruct (append_ok (fun i => i <? n) m dest src s t Hs Ht Hd) as (m' & E & Hc & Hf).
    rewrite taken_take, Z.sub_0_r in Hc. by exists m'.
  - destruct (append_ok (fun _ => true) m dest src s t Hs Ht Hd) as (m' & E & Hc & Hf).
    rewrite taken_all in Hc. by exists m'.
Qed.

(** [strncpy] with a positive size keeps the copy, terminated, within [n]
    bytes; with size 0 the limit wraps to [2^32 - 1] and the whole source is
    written to a destination of no size. *)
Theorem strncpy_spec m dest src n t :
  cstr m src t -> src + Z.of_nat (length t) < dest \/ dest + Z.of_nat (length t) < src ->
  0 <= n < 2 ^ 32 -> Z.of_nat (length t) < 2 ^ 32 - 1 ->
  exists m', strncpy m dest src n = Some m' /\
    (0 < n -> cstr m' dest (take (Z.to_nat (n - 1)) t) /\
      forall a, a < dest \/ dest + n <= a -> read8 m' a = read8 m a) /\
    (n = 0 -> cstr m' dest t).
Proof.
  intros Ht Hd Hn Hl. unfold strncpy.
  destruct (copy_loop_ok (S (size m)) (fun i => i <? u32 (n - 1)) 0 m dest src t) as (m' & E & Hc & Hf).
  { by rewrite Z.add_0_r. }
  { pose proof (cstr_size _ _ _ Ht). lia. }
  { lia. }
  exists m'. rewrite taken_take, Z.sub_0_r, Z.add_0_r in Hc. split; [done|]. split; intros Hn0.
  - rewrite u32_small in Hc by lia. split; [done|]. intros a Ha. apply Hf.
    rewrite taken_take, u32_small, length_take by lia. lia.
  - subst n. replace (u32 (0 - 1)) with (2 ^ 32 - 1) in Hc by done. by rewrite take_ge in Hc by lia.
Qed.

(** * Tokens *)

(** The fields of a line: up to a terminator, then past the blanks. *)
Fixpoint fields (room : nat) (term blank : Z -> bool) (s : list Z) : list (list Z) :=
  match room with
  | O => []
  | S room' =>
      if s is [] then []
      else take (upto term s) s ::
        match drop (upto term s) s with
        | [] => []
        | _ :: r => fields room' term blank (drop (upto (fun c => negb (blank c)) r) r)
        end
  end.

Lemma upto_zero term s : Forall (fun c => c <> 0) s -> upto (fun c => (c =? 0) || term c) s = upto term s.
Proof.
  induction 1 as [|c s Hc _ IH]; cbn; [done|]. destruct (Z.eqb_spec c 0); [done|]. cbn. by rewrite IH.
Qed.

Lemma cstr_drop m p s k : cstr m p s -> (k <= length s)%nat -> cstr m (p + Z.of_nat k) (drop k s).
Proof.
  intros Hs Hk. rewrite <-(take_drop k s) in Hs. apply cstr_app in Hs. by rewrite length_take, Nat.min_l in Hs.
Qed.

Lemma cstr_cut m p s k : cstr m p s -> (k <= length s)%nat -> cstr (write8 m (p + Z.of_nat k) 0) p (take k s).
Proof.
  revert p k. induction s as [|c s IH]; intros p k Hs Hk; cbn [cstr length] in *.
  - replace k with O by lia. cbn. rewrite Z.add_0_r. apply read8_write8_eq.
  - destruct k as [|k]; cbn [take cstr]; [rewrite Z.add_0_r; apply read8_write8_eq|].
    destruct Hs as (Hc & E & Hs). rewrite read8_write8_ne by lia. split_and!; [done..|].
    replace (p + Z.of_nat (S k)) with (p + 1 + Z.of_nat k) by lia. apply IH; [done|lia].
Qed.

Lemma split_loop_ok room term blank m p s l m' :
  blank 0 = false -> cstr m p s -> split_loop room term blank m p = (l, m') ->
  Forall2 (cstr m') l (fields room term blank s) /\
  forall a, a < p \/ p + Z.of_nat (length s) <= a -> read8 m' a = read8 m a.
Proof.
  intros Hb. revert m p s l m'. induction room as [|room IH]; intros m p s l m' Hs E; cbn [split_loop fields] in *.
  { injection E as <- <-. split; [constructor|done]. }
  destruct s as [|c s].
  { cbn in Hs. rewrite Hs in E. injection E as <- <-. split; [constructor|done]. }
  pose proof Hs as (Hc & Ec & _). rewrite Ec in E. destruct (Z.eqb_spec c 0); [done|]. clear Ec. revert E.
  remember (c :: s) as s0 eqn:Hs0. rewrite (scan_ok _ _ _ _ eq_refl Hs), upto_zero by by eapply cstr_nonzero.
  pose proof (upto_le term s0) as Hk. remember (upto term s0) as k eqn:Ek. pose proof (cstr_drop _ _ _ _ Hs Hk) as Hd.
  destruct (drop k s0) as [|d r] eqn:Er; cbn [cstr] in Hd.
  - rewrite Hd. intros [= <- <-]. split; [|done]. constructor; [|constructor].
    assert (k = length s0) as -> by (apply (f_equal length) in Er; rewrite length_drop in Er; cbn in Er; lia).
    by rewrite firstn_all.
  - destruct Hd as (Hdz & -> & Hr). destruct (Z.eqb_spec d 0); [done|].
    assert (Hlen : (length s0 = k + S (length r))%nat) by (apply (f_equal length) in Er; rewrite length_drop in Er; cbn in Er; lia).
    set (q := p + Z.of_nat k) in *. remember (write8 m q 0) as m1 eqn:Em1.
    assert (Hr1 : cstr m1 (q + 1) r).
    { subst m1. apply (cstr_ext m); [|done]. intros a Ha. apply read8_write8_ne. lia. }
    rewrite (scan_ok _ m1 (q + 1) r) by (cbn; rewrite ?Hb; done).
    pose proof (upto_le (fun c => negb (blank c)) r) as Hj. remember (upto (fun c => negb (blank c)) r) as j eqn:Ej.
    pose proof (cstr_drop _ _ _ _ Hr1 Hj) as Hr2. destruct (split_loop room term blank m1 _) as [l2 m2] eqn:E2.
    intros [= <- <-]. destruct (IH _ _ _ _ _ Hr2 E2) as [HF Hfr]. rewrite length_drop in Hfr. split.
    + constructor; [|done]. apply (cstr_ext m1); [|subst m1; by apply cstr_cut].
      intros a Ha. rewrite length_take in Ha. apply Hfr. lia.
    + intros a Ha. rewrite Hfr by lia. subst m1. apply read8_write8_ne. lia.
Qed.

(** Fields cut at the blanks themselves are words: not empty and without
    blanks, and with room for all of them they hold every other character. *)
Lemma upto_split stop s : Forall (fun c => stop c = false) (take (upto stop s) s) /\
  match drop (upto stop s) s with [] => True | c :: _ => stop c = true end.
Proof.
  induction s as [|c s IH]; cbn; [done|]. destruct (stop c) eqn:E; cbn; [done|]. destruct IH. split; [by constructor|done].
Qed.

Lemma filter_upto stop s :
  filter (fun c => stop c = false) s = take (upto stop s) s ++ filter (fun c => stop c = false) (drop (upto stop s) s).
Proof.
  induction s as [|c s IH]; cbn [upto]; [done|]. destruct (stop c) eqn:E; cbn [take drop app].
  - by rewrite !filter_cons_False by congruence.
  - rewrite filter_cons_True by done. by rewrite IH at 1.
Qed.

Lemma filter_skip blank s :
  filter (fun c => blank c = false) (drop (upto (fun c => negb (blank c)) s) s) = filter (fun c => blank c = false) s.
Proof.
  induction s as [|c s IH]; cbn [upto]; [done|]. destruct (blank c) eqn:E; cbn [negb drop]; [|done]. rewrite IH, filter_cons_False by congruence. done.
Qed.

Definition starts_word (blank : Z -> bool) (s : list Z) : Prop := if s is c :: _ then blank c = false else True.

Lemma skip_starts blank s : starts_word blank (drop (upto (fun c => negb (blank c)) s) s).
Proof. induction s as [|c s IH]; cbn; [done|]. by destruct (blank c) eqn:E. Qed.

Lemma fields_words room blank s :
  starts_word blank s ->
  Forall (fun w => w <> [] /\ Forall (fun c => blank c = false) w) (fields room blank blank s) /\
  ((length s <= room)%nat -> concat (fields room blank blank s) = filter (fun c => blank c = false) s).
Proof.
  revert s. induction room as [|room IH]; intros s Hs; cbn [fields].
  { split; [constructor|]. intros Hl. by destruct s; cbn in Hl; [|lia]. }
  destruct s as [|c s]; [split; [constructor|done]|]. cbn in Hs.
  pose proof (upto_split blank (c :: s)) as [Hw Hd]. pose proof (filter_upto blank (c :: s)) as Hf.
  remember (c :: s) as s0 eqn:Hs0. set (w := take (upto blank s0) s0) in *.
  assert (Hne : w <> []) by (subst w s0; cbn; by rewrite Hs).
  assert (Hlen : (length (drop (upto blank s0) s0) <= length s0)%nat) by (rewrite length_drop; lia).
  destruct (drop (upto blank s0) s0) as [|d r] eqn:Er.
  - split; [by repeat constructor|]. intros _. by rewrite Hf.
  - destruct (IH _ (skip_starts blank r)) as [HF HC]. split; [by constructor|]. intros Hl. cbn [concat].
    rewrite HC, Hf, filter_skip, filter_cons_False by (rewrite ?Hd, ?length_drop; cbn in Hlen; try lia; done). done.
Qed.

(** [split_args] cuts the line in place into its words: the entries of
    [argv] are the first [maxArgs] words of the line, each a terminated
    string without blanks; with room for all of them no character but the
    blanks is lost; no byte outside the line is written. *)
Theorem split_args_spec m line maxArgs s argv m' :
  cstr m line s -> split_args m line maxArgs = (argv, m') ->
  exists ws, ws = fields (Z.to_nat maxArgs) is_blank is_blank (drop (upto (fun c => negb (is_blank c)) s) s) /\
    Forall2 (cstr m') argv ws /\
    Forall (fun w => w <> [] /\ Forall (fun c => is_blank c = false) w) ws /\
    (Z.of_nat (length s) <= maxArgs -> concat ws = filter (fun c => is_blank c = false) s) /\
    forall a, a < line \/ line + Z.of_nat (length s) <= a -> read8 m' a = read8 m a.
Proof.
  intros Hs. unfold split_args. rewrite (scan_ok _ _ _ s) by done. set (k := upto _ s). intros E.
  pose proof (upto_le (fun c => negb (is_blank c)) s) as Hk. fold k in Hk.
  destruct (split_loop_ok _ _ _ _ _ _ _ _ eq_refl (cstr_drop _ _ _ k Hs Hk) E) as [HF Hfr].
  destruct (fields_words (Z.to_nat maxArgs) is_blank _ (skip_starts is_blank s)) as [HW HC]. fold k in HW, HC.
  eexists. split; [reflexivity|]. split_and!; [done|done| |].
  - intros Hl. rewrite HC by (rewrite length_drop; lia). unfold k. apply filter_skip.
  - intros a Ha. apply Hfr. rewrite length_drop. lia.
Qed.

(** * Program paths *)

Definition slash_bin : list Z := [47; 98; 105; 110; 47].
Definition dot_elf : list Z := [46; 101; 108; 102].

(** The path [kos_build_prog_path] is to build for the name [s]. *)
Definition prog_path (s : list Z) (outSize : Z) : option (list Z) :=
  match s with
  | 47 :: _ => Some (take (Z.to_nat (outSize - 1)) s)
  | _ =>
      if outSize <? 6 then None
      else
        let t := slash_bin ++ take (Z.to_nat (outSize - 6)) s in
        if decide (dot_elf `suffix_of` t) then Some t
        else if outSize <=? Z.of_nat (length t) + 4 then None else Some (t ++ dot_elf)
  end.

(** The characters [s] are stored at [p]. *)
Definition stored (m : mem) (p : Z) (s : list Z) : Prop :=
  forall i c, s !! i = Some c -> read8 m (p + Z.of_nat i) = c.

Lemma stored_cons m p c s : stored m p (c :: s) <-> read8 m p = c /\ stored m (p + 1) s.
Proof.
  split.
  - intros H. split; [specialize (H O c eq_refl); by rewrite Z.add_0_r in H|]. intros i d Hi.
    specialize (H (S i) d Hi). by replace (p + 1 + Z.of_nat i) with (p + Z.of_nat (S i)) by lia.
  - intros [E H] [|i] d Hi; cbn in Hi; [injection Hi as <-; by rewrite Z.add_0_r|].
    replace (p + Z.of_nat (S i)) with (p + 1 + Z.of_nat i) by lia. by apply H.
Qed.

Lemma stored_app m p s t : stored m p (s ++ t) <-> stored m p s /\ stored m (p + Z.of_nat (length s)) t.
Proof.
  revert p. induction s as [|c s IH]; intros p; cbn [app length].
  - rewrite Z.add_0_r. split; [intros H; split; [by intros i c|done]|by intros [_ H]].
  - rewrite !stored_cons, IH. replace (p + 1 + Z.of_nat (length s)) with (p + Z.of_nat (S (length s))) by lia. tauto.
Qed.

Lemma stored_ext m m' p s :
  (forall a, p <= a < p + Z.of_nat (length s) -> read8 m' a = read8 m a) -> stored m p s -> stored m' p s.
Proof. intros He H i c Hi. pose proof (lookup_lt_Some _ _ _ Hi). rewrite He by lia. by apply H. Qed.

Lemma stored_cstr m p s : Forall (fun c => c <> 0) s -> stored m p s -> read8 m (p + Z.of_nat (length s)) = 0 -> cstr m p s.
Proof.
  intros Hz. revert p. induction Hz as [|c s Hc _ IH]; intros p Hs E; cbn [cstr length] in *; [by rewrite Z.add_0_r in E|].
  apply stored_cons in Hs as [? ?]. split_and!; [done..|]. apply IH; [done|].
  by replace (p + 1 + Z.of_nat (length s)) with (p + Z.of_nat (S (length s))) by lia.
Qed.

Lemma cstr_stored m p s : cstr m p s -> stored m p s.
Proof.
  revert p. induction s as [|c s IH]; intros p Hs; [by intros i c|]. destruct Hs as (_ & ? & ?). apply stored_cons. auto.
Qed.

Lemma stored_fun m p s t : length s = length t -> stored m p s -> stored m p t -> s = t.
Proof.
  revert p t. induction s as [|c s IH]; intros p [|d t] Hl Hs Ht; cbn in Hl; try done.
  apply stored_cons in Hs as [<- ?], Ht as [<- ?]. f_equal. by eapply (IH (p + 1)); [lia|..].
Qed.

(** [out[pi++] = c] for constant characters. *)
Lemma bytes_at_ok l m p : Forall (fun c => 0 <= c < 256) l ->
  stored (bytes_at m p l) p l /\
  forall a, a < p \/ p + Z.of_nat (length l) <= a -> read8 (bytes_at m p l) a = read8 m a.
Proof.
  unfold bytes_at. intros Hl. revert m p. induction Hl as [|c l Hc _ IH]; intros m p; cbn [fold_left length].
  { split; [by intros i c|done]. }
  destruct (IH (write8 m p c) (p + 1)) as [Hst Hf]. split.
  - apply stored_cons. split; [|done]. rewrite Hf by lia. rewrite read8_write8_eq. by apply u8_small.
  - intros a Ha. rewrite Hf by lia. apply read8_write8_ne. lia.
Qed.

Lemma path_loop_ok k m prog out s :
  cstr m prog s -> prog + Z.of_nat (length s) < out \/ out + Z.of_nat k <= prog ->
  exists m', path_loop k m prog out = (Z.of_nat (length (take k s)), m') /\ stored m' out (take k s) /\
    forall a, a < out \/ out + Z.of_nat (length (take k s)) <= a -> read8 m' a = read8 m a.
Proof.
  revert m prog out s. induction k as [|k IH]; intros m prog out s Hs Hd; cbn [path_loop].
  { exists m. split; [done|]. split; [by intros i c|done]. }
  destruct s as [|c s]; cbn [cstr] in Hs.
  { rewrite Hs. exists m. split; [done|]. split; [by intros i c|done]. }
  destruct Hs as (Hc & E & Hs). rewrite E. destruct (Z.eqb_spec c 0); [done|]. cbn [length take] in *.
  destruct (IH (write8 m out c) (prog + 1) (out + 1) s) as (m' & -> & Hst & Hf); [|lia|].
  { apply (cstr_ext m); [|done]. intros a Ha. apply read8_write8_ne. lia. }
  exists m'. split; [f_equal; lia|]. split.
  - apply stored_cons. split; [|done]. rewrite Hf by lia. rewrite read8_write8_eq, <-E. apply u8_small, read8_range.
  - intros a Ha. rewrite Hf by lia. apply read8_write8_ne. lia.
Qed.

Lemma ext_test m out t :
  (4 <= length t)%nat -> stored m out t ->
  let pi := Z.of_nat (length t) in
  (read8 m (out + pi - 4) =? 46) && (read8 m (out + pi - 3) =? 101) &&
  (read8 m (out + pi - 2) =? 108) && (read8 m (out + pi - 1) =? 102) = bool_decide (dot_elf `suffix_of` t).
Proof.
  intros Hl Hst. rewrite <-(take_drop (length t - 4) t) in Hst |- *.
  assert (Hn : length (drop (length t - 4) t) = 4%nat) by (rewrite length_drop; lia).
  set (u := take (length t - 4) t) in *. destruct (drop (length t - 4) t) as [|a [|b [|c [|d [|? ?]]]]] eqn:E; try done.
  rewrite length_app. cbn [length]. apply stored_app in Hst as [_ Hst]. rewrite !stored_cons in Hst.
  destruct Hst as (Ea & Eb & Ec & Ed & _). cbn zeta. rewrite Nat2Z.inj_add. change (Z.of_nat 4) with 4.
  replace (out + (Z.of_nat (length u) + 4) - 4) with (out + Z.of_nat (length u)) by lia.
  replace (out + (Z.of_nat (length u) + 4) - 3) with (out + Z.of_nat (length u) + 1) by lia.
  replace (out + (Z.of_nat (length u) + 4) - 2) with (out + Z.of_nat (length u) + 1 + 1) by lia.
  replace (out + (Z.of_nat (length u) + 4) - 1) with (out + Z.of_nat (length u) + 1 + 1 + 1) by lia.
  rewrite Ea, Eb, Ec, Ed. case_bool_decide as Hs.
  - destruct Hs as [v Hv]. apply app_inj_2 in Hv as [_ Hv]; [|done]. by injection Hv as -> -> -> ->.
  - destruct (Z.eqb_spec a 46) as [->|]; [|done]. destruct (Z.eqb_spec b 101) as [->|]; [|done].
    destruct (Z.eqb_spec c 108) as [->|]; [|done]. destruct (Z.eqb_spec d 102) as [->|]; [|done].
    destruct Hs. by exists u.
Qed.

(** Terminating the characters stored so far. *)
Lemma finish_ok m0 m out t outSize :
  Forall (fun c => c <> 0) t -> stored m out t -> Z.of_nat (length t) < outSize ->
  (forall a, a < out \/ out + outSize <= a -> read8 m a = read8 m0 a) ->
  cstr (write8 m (out + Z.of_nat (length t)) 0) out t /\
  forall a, a < out \/ out + outSize <= a -> read8 (write8 m (out + Z.of_nat (length t)) 0) a = read8 m0 a.
Proof.
  intros Hz Hst Hl Hf. split.
  - apply stored_cstr; [done| |apply read8_write8_eq]. apply (stored_ext m); [|done]. intros a Ha. apply read8_write8_ne. lia.
  - intros a Ha. rewrite read8_write8_ne by lia. by apply Hf.
Qed.

Lemma relative_path_ok m prog out outSize s :
  cstr m prog s -> prog <> 0 -> out <> 0 -> read8 m prog <> 47 -> 6 <= outSize ->
  prog + Z.of_nat (length s) < out \/ out + outSize <= prog ->
  let r := kos_build_prog_path m prog out outSize in
  let t := slash_bin ++ take (Z.to_nat (outSize - 6)) s in
  (if decide (dot_elf `suffix_of` t) then r.1 = Z.of_nat (length t) /\ cstr r.2 out t
   else if outSize <=? Z.of_nat (length t) + 4 then r.1 = -1
   else r.1 = Z.of_nat (length (t ++ dot_elf)) /\ cstr r.2 out (t ++ dot_elf)) /\
  forall a, a < out \/ out + outSize <= a -> read8 r.2 a = read8 m a.
Proof.
  intros Hs Hp Ho H47 H6 Hd. unfold kos_build_prog_path.
  destruct (Z.eqb_spec prog 0), (Z.eqb_spec out 0), (Z.leb_spec outSize 0); try lia. cbn [orb].
  destruct (Z.eqb_spec (read8 m prog) 47); [done|]. destruct (Z.ltb_spec outSize 6); [lia|]. change [47; 98; 105; 110; 47] with slash_bin.
  destruct (bytes_at_ok slash_bin m out) as [Hb Hbf]; [repeat constructor; lia|]. change (length slash_bin) with 5%nat in Hbf.
  replace (outSize - 1 - 5) with (outSize - 6) by lia.
  destruct (path_loop_ok (Z.to_nat (outSize - 6)) (bytes_at m out slash_bin) prog (out + 5) s) as (m2 & -> & Hst & Hf); [|lia|].
  { apply (cstr_ext m); [|done]. intros a Ha. apply Hbf. lia. }
  set (w := take _ s) in *. set (t := slash_bin ++ w). assert (Hw : Z.of_nat (length w) <= outSize - 6) by (subst w; rewrite length_take; lia).
  assert (Ht : Z.of_nat (length t) = 5 + Z.of_nat (length w)) by (subst t; rewrite length_app; cbn; lia).
  assert (Hst2 : stored m2 out t).
  { apply stored_app. split; [|done]. apply (stored_ext (bytes_at m out slash_bin)); [|done]. intros a Ha. cbn in Ha. apply Hf. lia. }
  assert (Hf2 : forall a, a < out \/ out + outSize <= a -> read8 m2 a = read8 m a).
  { intros a Ha. rewrite Hf, Hbf by lia. done. }
  assert (Hz : Forall (fun c => c <> 0) t).
  { apply Forall_app. split; [repeat constructor; lia|]. apply Forall_take. by eapply cstr_nonzero. }
  rewrite <-Ht, (ext_test m2 out t) by (try done; lia).
  destruct (decide (dot_elf `suffix_of` t)) as [Hsuf|Hsuf]; [rewrite bool_decide_true by done|rewrite bool_decide_false by done].
  - destruct (finish_ok m m2 out t outSize) as [? ?]; [done|done|lia|done|]. done.
  - destruct (Z.leb_spec outSize (Z.of_nat (length t) + 4)).
    + split; [done|]. intros a Ha. cbn. rewrite read8_write8_ne; [by apply Hf2|]. case_zb; lia.
    + change [46; 101; 108; 102] with dot_elf.
      destruct (bytes_at_ok dot_elf m2 (out + Z.of_nat (length t))) as [He Hef]; [repeat constructor; lia|]. change (length dot_elf) with 4%nat in Hef.
      destruct (finish_ok m (bytes_at m2 (out + Z.of_nat (length t)) dot_elf) out (t ++ dot_elf) outSize) as [Hc Hff].
      * apply Forall_app. split; [done|repeat constructor; lia].
      * apply stored_app. split; [|done]. apply (stored_ext m2); [|done]. intros a Ha. apply Hef. lia.
      * rewrite length_app. cbn. lia.
      * intros a Ha. rewrite Hef by lia. by apply Hf2.
      * rewrite length_app, Nat2Z.inj_add in Hc, Hff. rewrite length_app, Nat2Z.inj_add. done.
Qed.

(** [kos_build_prog_path] builds the absolute name, or [/bin/NAME.elf],
    terminated, and returns its length, or returns -1 when it does not fit;
    in every case it writes only inside the [outSize] bytes at [out]. *)
Theorem kos_build_prog_path_spec m prog out outSize s :
  cstr m prog s -> prog <> 0 -> out <> 0 -> 0 < outSize ->
  prog + Z.of_nat (length s) < out \/ out + outSize <= prog ->
  let r := kos_build_prog_path m prog out outSize in
  match prog_path s outSize with
  | Some t => r.1 = Z.of_nat (length t) /\ cstr r.2 out t
  | None => r.1 = -1
  end /\ forall a, a < out \/ out + outSize <= a -> read8 r.2 a = read8 m a.
Proof.
  intros Hs Hp Ho Hpos Hd. destruct (decide (read8 m prog = 47)) as [E|E].
  - destruct s as [|c s]; [cbn in Hs; lia|]. pose proof Hs as (_ & Ec & _). assert (c = 47) as -> by lia.
    cbn zeta. unfold kos_build_prog_path, prog_path.
    destruct (Z.eqb_spec prog 0), (Z.eqb_spec out 0), (Z.leb_spec outSize 0); try lia. cbn [orb]. rewrite E. change (47 =? 47) with true. cbn iota.
    destruct (path_loop_ok (Z.to_nat (outSize - 1)) m prog out (47 :: s) Hs ltac:(lia)) as (m1 & -> & Hst & Hf).
    destruct (finish_ok m m1 out (take (Z.to_nat (outSize - 1)) (47 :: s)) outSize) as [? ?]; [|done| | |done].
    + apply Forall_take. by eapply cstr_nonzero.
    + rewrite length_take. lia.
    + intros a Ha. apply Hf. rewrite length_take. lia.
  - assert (Hpath : prog_path s outSize = if outSize <? 6 then None else
      let t := slash_bin ++ take (Z.to_nat (outSize - 6)) s in
      if decide (dot_elf `suffix_of` t) then Some t else if outSize <=? Z.of_nat (length t) + 4 then None else Some (t ++ dot_elf)).
    { destruct s as [|c s]; [done|]. destruct Hs as (_ & Ec & _). destruct (decide (c = 47)); [congruence|].
      unfold prog_path. repeat (match goal with |- match ?x with _ => _ end = _ => destruct x; try done end). }
    rewrite Hpath. destruct (Z.ltb_spec outSize 6).
    + unfold kos_build_prog_path. destruct (Z.eqb_spec prog 0), (Z.eqb_spec out 0), (Z.leb_spec outSize 0); try lia. cbn [orb].
      destruct (Z.eqb_spec (read8 m prog) 47); [done|]. destruct (Z.ltb_spec outSize 6); [done|lia].
    + destruct (relative_path_ok m prog out outSize s) as [Hr Hf]; [done..|]. split; [|done]. cbn zeta in *.
      destruct (decide _); [done|]. by destruct (outSize <=? _).
Qed.

(** * Witnesses *)

(** "ab cab" at 100, "ca" at 200. *)
Definition demo_mem : mem := bytes_at (bytes_at ∅ 100 [97; 98; 32; 99; 97; 98]) 200 [99; 97].

Lemma demo_line : cstr demo_mem 100 [97; 98; 32; 99; 97; 98].
Proof. cbn [cstr]. split_and!; (lia || by vm_compute). Qed.
Lemma demo_word : cstr demo_mem 200 [99; 97].
Proof. cbn [cstr]. split_and!; (lia || by vm_compute). Qed.

Lemma strstr_spec_witness : strstr demo_mem 100 200 = 103 /\
  ((exists k, strstr demo_mem 100 200 = 100 + Z.of_nat k /\ first_occurrence [99; 97] [97; 98; 32; 99; 97; 98] k) \/
   (strstr demo_mem 100 200 = 0 /\ forall k, ~ [99; 97] `prefix_of` drop k [97; 98; 32; 99; 97; 98])).
Proof. split; [by vm_compute|]. apply (strstr_spec demo_mem 100 200); [apply demo_line|apply demo_word|lia]. Defined.

Lemma strncat_spec_witness :
  exists m', strncat demo_mem 100 200 1 = Some m' /\ cstr m' 100 ([97; 98; 32; 99; 97; 98] ++ take (Z.to_nat 1) [99; 97]).
Proof.
  destruct (strncat_spec demo_mem 100 200 1 [97; 98; 32; 99; 97; 98] [99; 97] demo_line demo_word) as [(m' & E & Hc & _) _]; [cbn; lia|].
  exists m'. by split.
Defined.

Lemma strncpy_spec_witness : exists m', strncpy demo_mem 300 200 0 = Some m' /\ cstr m' 300 [99; 97].
Proof.
  destruct (strncpy_spec demo_mem 300 200 0 [99; 97] demo_word) as (m' & E & _ & Hc); [cbn; lia|lia|cbn; lia|].
  exists m'. split; [done|]. by apply Hc.
Defined.

Lemma split_args_spec_witness :
  exists ws m', split_args demo_mem 100 8 = ([100; 103], m') /\ Forall2 (cstr m') [100; 103] ws /\ concat ws = [97; 98; 99; 97; 98].
Proof.
  destruct (split_args demo_mem 100 8) as [argv m'] eqn:E.
  assert (Ha : argv = [100; 103]) by (change argv with (fst (argv, m')); rewrite <-E; by vm_compute).
  destruct (split_args_spec demo_mem 100 8 [97; 98; 32; 99; 97; 98] argv m' demo_line E) as (ws & _ & HF & _ & HC & _).
  exists ws, m'. subst argv. split_and!; [done|done|]. rewrite HC by (cbn; lia). by vm_compute.
Defined.

Lemma kos_build_prog_path_spec_witness :
  fst (kos_build_prog_path demo_mem 200 300 16) = 11 /\
  cstr (snd (kos_build_prog_path demo_mem 200 300 16)) 300 [47; 98; 105; 110; 47; 99; 97; 46; 101; 108; 102].
Proof.
  pose proof (kos_build_prog_path_spec demo_mem 200 300 16 [99; 97] demo_word ltac:(lia) ltac:(lia) ltac:(lia) ltac:(cbn; lia)) as [H _].
  replace (prog_path [99; 97] 16) with (Some [47; 98; 105; 110; 47; 99; 97; 46; 101; 108; 102]) in H by (by vm_compute). exact H.
Defined.
