(* ===== verification/CompilerRt.v ===== *)
(** 64-bit division without a run-time library:
    [src/kernel/src/lib/compiler_rt.cpp].  Signed 64-bit values are integers
    in [-2^63, 2^63), converted to and from their unsigned representation
    where the code casts. *)
From S2P Require Import Prelude.

Definition s64 (x : Z) : Z := if u64 x <? 2 ^ 63 then u64 x else u64 x - 2 ^ 64.

(** The loop [for (int i = 63; i >= 0; --i)], [k] being [i + 1]. *)
Fixpoint udiv64_loop (k : nat) (n d q r : Z) : Z * Z :=
  match k with
  | O => (q, r)
  | S k' =>
      let i := Z.of_nat k' in
      let r := Z.lor (u64 (Z.shiftl r 1)) (Z.land (Z.shiftr n i) 1) in
      if d <=? r then udiv64_loop k' n d (Z.lor q (u64 (Z.shiftl 1 i))) (u64 (r - d))
      else udiv64_loop k' n d q r
  end.

(** The quotient and [*rem_out]. *)
Definition udiv64_core (n d : Z) : Z * Z :=
  if d =? 0 then (0, 0) else udiv64_loop 64 n d 0 0.

(** [~u + 1] in 64 bits. *)
Definition neg64 (u : Z) : Z := u64 (Z.lxor u (2 ^ 64 - 1) + 1).
Definition abs_to_u64 (v : Z) : Z := if v <? 0 then neg64 (u64 v) else u64 v.

Definition __udivdi3 (n d : Z) : Z := fst (udiv64_core n d).
Definition __umoddi3 (n d : Z) : Z := snd (udiv64_core n d).

Definition __divdi3 (a b : Z) : Z :=
  if b =? 0 then 0
  else
    let neg := negb (Bool.eqb (a <? 0) (b <? 0)) in
    let q := s64 (fst (udiv64_core (abs_to_u64 a) (abs_to_u64 b))) in
    if neg then s64 (neg64 (u64 q)) else q.

Definition __moddi3 (a b : Z) : Z :=
  if b =? 0 then 0
  else
    let r := s64 (snd (udiv64_core (abs_to_u64 a) (abs_to_u64 b))) in
    if a <? 0 then s64 (neg64 (u64 r)) else r.

(** A bit appended below a shifted value. *)
Lemma lor_bit x b : 0 <= x -> 0 <= b < 2 -> Z.lor (2 * x) b = 2 * x + b.
Proof.
  intros Hx Hb. assert (b = 0 \/ b = 1) as [->| ->] by lia; [by rewrite Z.lor_0_r, Z.add_0_r|].
  apply Z.bits_inj'. intros k Hk. rewrite Z.lor_spec. destruct (Z.eqb_spec k 0) as [->|Hk0].
  - by rewrite Z.testbit_odd_0, Z.testbit_even_0.
  - replace k with (Z.succ (k - 1)) by lia. rewrite Z.testbit_odd_succ, Z.testbit_even_succ by lia.
    change 1 with (2 * 0 + 1) at 2. rewrite Z.testbit_odd_succ, Z.testbit_0_l by lia. by rewrite orb_false_r.
Qed.

(** A power of two below the bits already set. *)
Lemma lor_pow2 x i : 0 <= x -> 0 <= i -> Z.lor (x * 2 ^ (i + 1)) (2 ^ i) = (2 * x + 1) * 2 ^ i.
Proof.
  intros Hx Hi. rewrite <-(lor_bit x 1), <-(Z.shiftl_mul_pow2 (Z.lor _ _)), Z.shiftl_lor, !Z.shiftl_mul_pow2 by lia.
  rewrite Z.pow_add_r by lia. f_equal; ring.
Qed.

(** One step of long division. *)
Lemma div_step x b d :
  0 < d -> 0 <= b < 2 ->
  let r := 2 * (x mod d) + b in
  if d <=? r then (2 * x + b) / d = 2 * (x / d) + 1 /\ (2 * x + b) mod d = r - d
  else (2 * x + b) / d = 2 * (x / d) /\ (2 * x + b) mod d = r.
Proof.
  intros Hd Hb r. pose proof (Z.div_mod x d ltac:(lia)) as Hx. pose proof (Z.mod_pos_bound x d Hd).
  destruct (Z.leb_spec d r); subst r.
  - split; symmetry; [apply (Z.div_unique _ _ _ (2 * (x mod d) + b - d))|apply (Z.mod_unique _ _ (2 * (x / d) + 1))]; lia.
  - split; symmetry; [apply (Z.div_unique _ _ _ (2 * (x mod d) + b))|apply (Z.mod_unique _ _ (2 * (x / d)))]; lia.
Qed.

(** The invariant of the loop: quotient and remainder of the bits read. *)
Lemma udiv64_loop_ok k n d :
  (k <= 64)%nat -> 0 <= n < 2 ^ 64 -> 0 < d < 2 ^ 64 ->
  let x := n / 2 ^ Z.of_nat k in
  udiv64_loop k n d (x / d * 2 ^ Z.of_nat k) (x mod d) = (n / d, n mod d).
Proof.
  intros Hk Hn Hd. induction k as [|k IH]; cbn zeta in *; cbn [udiv64_loop].
  { change (2 ^ Z.of_nat 0) with 1. by rewrite Z.div_1_r, Z.mul_1_r. }
  specialize (IH ltac:(lia)). set (i := Z.of_nat k) in *. replace (Z.of_nat (S k)) with (i + 1) by lia.
  assert (Hi : 0 <= i < 64) by lia. set (x := n / 2 ^ (i + 1)). set (b := Z.land (Z.shiftr n i) 1).
  assert (Eb : b = (n / 2 ^ i) mod 2) by (subst b; rewrite <-Z.shiftr_div_pow2 by lia; exact (Z.land_ones (Z.shiftr n i) 1 ltac:(lia))).
  assert (Hb : 0 <= b < 2) by (rewrite Eb; apply Z.mod_pos_bound; lia).
  assert (Hxb : n / 2 ^ i = 2 * x + b).
  { rewrite Eb. subst x. rewrite Z.pow_add_r, <-Z.div_div by lia. apply Z.div_mod. lia. }
  assert (Hpow : 0 < 2 ^ i) by lia.
  assert (Hx : 0 <= 2 * x + b < 2 ^ 64).
  { rewrite <-Hxb. split; [apply Z.div_pos; lia|]. apply Z.div_lt_upper_bound; [done|]. nia. }
  assert (Hm : 0 <= x mod d <= x) by (split; [apply Z.mod_pos_bound; lia|apply Z.mod_le; lia]).
  rewrite Z.shiftl_mul_pow2, Z.shiftl_1_l, (Z.mul_comm (x mod d)), (u64_small (2 ^ 1 * _)) by lia. change (2 ^ 1) with 2.
  rewrite lor_bit by lia. pose proof (div_step x b d ltac:(lia) Hb) as Hs. cbn zeta in Hs.
  assert (Hq : 0 <= x / d) by (apply Z.div_pos; lia).
  assert (Hi64 : 2 ^ i < 2 ^ 64) by (apply Z.pow_lt_mono_r; lia).
  destruct (Z.leb_spec d (2 * (x mod d) + b)); destruct Hs as [Hs1 Hs2]; rewrite Hxb, Hs1, Hs2 in IH.
  - rewrite (u64_small (2 ^ i)), (u64_small (_ - d)), lor_pow2 by lia. done.
  - rewrite Z.pow_add_r by lia. by replace (x / d * (2 ^ i * 2 ^ 1)) with (2 * (x / d) * 2 ^ i) by ring.
Qed.

Lemma udiv64_core_ok n d : 0 <= n < 2 ^ 64 -> 0 < d < 2 ^ 64 -> udiv64_core n d = (n / d, n mod d).
Proof.
  intros Hn Hd. unfold udiv64_core. destruct (Z.eqb_spec d 0); [lia|].
  pose proof (udiv64_loop_ok 64 n d ltac:(lia) Hn Hd) as E. cbn zeta in E.
  change (Z.of_nat 64) with 64 in E. by rewrite (Z.div_small n) in E by lia.
Qed.

Lemma neg64_ok u : 0 <= u < 2 ^ 64 -> neg64 u = u64 (- u).
Proof.
  intros Hu. unfold neg64. replace (Z.lxor u (2 ^ 64 - 1)) with (2 ^ 64 - 1 - u).
  - unfold u64. replace (2 ^ 64 - 1 - u + 1) with (- u + 1 * 2 ^ 64) by lia. by rewrite Z.mod_add.
  - change (2 ^ 64 - 1) with (Z.ones 64).
    assert (Hl : Z.land u (Z.ones 64) = u) by (rewrite Z.land_ones, Z.mod_small; lia).
    rewrite <-Hl at 1. rewrite Z.sub_nocarry_ldiff.
    + apply Z.bits_inj'. intros k Hk. rewrite Z.ldiff_spec, Z.land_spec, Z.lxor_spec.
      destruct (Z.testbit (Z.ones 64) k) eqn:E; [by destruct (Z.testbit u k)|].
      rewrite <-Hl, Z.land_spec, E. by destruct (Z.testbit u k).
    + apply Z.bits_inj'. intros k Hk. rewrite Z.ldiff_spec, Z.land_spec, Z.testbit_0_l.
      by destruct (Z.testbit u k), (Z.testbit (Z.ones 64) k).
Qed.

Lemma abs_ok v : - 2 ^ 63 <= v < 2 ^ 63 -> abs_to_u64 v = Z.abs v.
Proof.
  intros Hv. unfold abs_to_u64. case_zb; [|rewrite u64_small by lia; lia].
  rewrite neg64_ok by apply u64_range. unfold u64. rewrite <-(Z_mod_plus_full v 1), (Z.mod_small (v + _)) by lia.
  rewrite <-(Z_mod_plus_full _ 1), Z.mod_small by lia. lia.
Qed.

Lemma s64_small v : - 2 ^ 63 <= v < 2 ^ 63 -> s64 (u64 v) = v.
Proof.
  intros Hv. unfold s64, u64. rewrite Z.mod_mod by lia. destruct (Z.ltb_spec v 0).
  - rewrite <-(Z_mod_plus_full v 1), Z.mod_small by lia. case_zb; lia.
  - rewrite Z.mod_small by lia. case_zb; lia.
Qed.

Lemma u64_opp x : u64 (- u64 x) = u64 (- x).
Proof. unfold u64. rewrite <-(Z.sub_0_l (x mod _)), <-(Z.sub_0_l x). apply Zminus_mod_idemp_r. Qed.

Lemma u64_s64 x : u64 (s64 x) = u64 x.
Proof.
  unfold s64. case_zb; [apply u64_small, u64_range|]. unfold u64.
  rewrite <-(Z_mod_plus_full (_ - 2 ^ 64) 1), Z.mul_1_l, Z.sub_add. apply Z.mod_mod. lia.
Qed.

Lemma neg_s64 x : s64 (neg64 (u64 (s64 x))) = s64 (- x).
Proof.
  rewrite neg64_ok by apply u64_range. rewrite u64_s64, u64_opp. unfold s64. by rewrite (u64_small (u64 _)) by apply u64_range.
Qed.

Lemma s64_id v : - 2 ^ 63 <= v < 2 ^ 63 -> s64 v = v.
Proof. intros Hv. rewrite <-(s64_small v Hv) at 2. unfold s64. by rewrite (u64_small (u64 v)) by apply u64_range. Qed.

(** the compiler's division helpers compute the quotient and the remainder
    of C: unsigned, and signed rounded toward zero, the one overflowing
    quotient [-2^63 / -1] wrapping to [-2^63]; a zero divisor yields 0. *)
Theorem division_spec n d a b :
  0 <= n < 2 ^ 64 -> 0 < d < 2 ^ 64 -> - 2 ^ 63 <= a < 2 ^ 63 -> - 2 ^ 63 <= b < 2 ^ 63 -> b <> 0 ->
  __udivdi3 n d = n / d /\ __umoddi3 n d = n mod d /\
  __divdi3 a b = s64 (Z.quot a b) /\ __moddi3 a b = Z.rem a b /\
  __udivdi3 n 0 = 0 /\ __divdi3 a 0 = 0 /\ __umoddi3 n 0 = 0 /\ __moddi3 a 0 = 0.
Proof.
  intros Hn Hd Ha Hb Hb0. unfold __udivdi3, __umoddi3. rewrite (udiv64_core_ok n d Hn Hd).
  unfold __divdi3, __moddi3. destruct (Z.eqb_spec b 0); [done|]. rewrite !abs_ok by done.
  rewrite (udiv64_core_ok (Z.abs a) (Z.abs b)) by lia. cbn [fst snd]. rewrite !neg_s64. split_and!; try done.
  - rewrite Z.quot_div by done. destruct (Z.ltb_spec a 0), (Z.ltb_spec b 0); cbn [Bool.eqb negb].
    + rewrite !Z.sgn_neg by lia. apply f_equal. lia.
    + rewrite Z.sgn_neg, (Z.sgn_pos b) by lia. apply f_equal. lia.
    + rewrite (Z.sgn_neg b) by lia. destruct (decide (a = 0)) as [->|]; [by rewrite Z.div_0_l by lia|].
      rewrite Z.sgn_pos by lia. apply f_equal. lia.
    + rewrite (Z.sgn_pos b) by lia. destruct (decide (a = 0)) as [->|]; [by rewrite Z.div_0_l by lia|].
      rewrite Z.sgn_pos by lia. apply f_equal. lia.
  - rewrite Z.rem_mod by done. pose proof (Z.mod_pos_bound (Z.abs a) (Z.abs b) ltac:(lia)).
    destruct (Z.ltb_spec a 0); [rewrite Z.sgn_neg, s64_id by lia; lia|]. rewrite s64_id by lia.
    destruct (decide (a = 0)) as [->|]; [by rewrite Z.mod_0_l by lia|]. rewrite Z.sgn_pos by lia. lia.
Qed.

Lemma division_spec_witness : __udivdi3 (2 ^ 64 - 1) 10 = (2 ^ 64 - 1) / 10 /\ __divdi3 (-7) 2 = s64 (Z.quot (-7) 2) /\
  s64 (Z.quot (-7) 2) = -3.
Proof.
  pose proof (division_spec (2 ^ 64 - 1) 10 (-7) 2 ltac:(lia) ltac:(lia) ltac:(lia) ltac:(lia) ltac:(lia)) as (H1 & _ & H2 & _).
  split; [exact H1|]. split; [exact H2|]. reflexivity.
Defined.
