(* ===== verification/Stdio.v ===== *)
(** * Formatted output and input

    [lib/stdio.cpp]: [vprintf] and [snprintf], the ring of keystrokes and
    [scanf].  A string in memory is the list of its bytes with the terminator
    and whatever follows it; a read behind the end of the list is [None].  The
    arguments of a call are a list of words and strings, the pointers given to
    [scanf] a list that says which of them are not null.  Keystrokes arrive by
    interrupt: [arrivals] holds, for every time the code looks at the ring, the
    keys pressed since the last time.  The abstract state of the ring is the
    queue of characters between head and tail. *)
From Stdlib Require Import Ascii.
From S2P Require Import Prelude.

Definition ch (c : Ascii.ascii) : Z := Z.of_N (Ascii.N_of_ascii c).
Arguments ch _%_char.
Fixpoint text (s : string) : list Z :=
  match s with EmptyString => [] | String c s' => ch c :: text s' end.
Arguments text _%_string.
(** A byte as [int8_t]. *)
Definition s8 (c : Z) : Z := if c <? 128 then c else c - 256.

Record stdio := mk_stdio {
  has_putc : bool; has_puts : bool; out : list Z;
  g_input_active : bool; g_buf_head : Z; g_buf_tail : Z; g_input_buf : list Z;
  arrivals : list (list Z) }.
Definition print (l : list Z) (s : stdio) : stdio :=
  mk_stdio (has_putc s) (has_puts s) (out s ++ l) (g_input_active s) (g_buf_head s) (g_buf_tail s) (g_input_buf s) (arrivals s).
Definition set_ring (h t : Z) (b : list Z) (s : stdio) : stdio :=
  mk_stdio (has_putc s) (has_puts s) (out s) (g_input_active s) h t b (arrivals s).
Definition set_active (a : bool) (s : stdio) : stdio :=
  mk_stdio (has_putc s) (has_puts s) (out s) a (g_buf_head s) (g_buf_tail s) (g_input_buf s) (arrivals s).
Definition set_arrivals (l : list (list Z)) (s : stdio) : stdio :=
  mk_stdio (has_putc s) (has_puts s) (out s) (g_input_active s) (g_buf_head s) (g_buf_tail s) (g_input_buf s) l.

Definition putc (c : Z) : ST stdio unit := modify (fun s => if has_putc s then print [c] s else s).
Definition puts (l : list Z) : ST stdio unit := modify (fun s => if has_puts s then print l s else s).

(** ** Output *)

(** What [va_arg] gives: a 32-bit word or a pointer to a string. *)
Inductive arg := AWord (v : Z) | AStr (s : list Z).
Definition va_word {S} (ap : list arg) : ST S (Z * list arg) := match ap with AWord v :: ap' => ret (v, ap') | _ => stuck end.
Definition va_str {S} (ap : list arg) : ST S (option (list Z) * list arg) :=
  match ap with AStr s :: ap' => ret (Some s, ap') | AWord 0 :: ap' => ret (None, ap') | _ => stuck end.

Definition digs (upper : bool) (d : Z) : Z := if d <? 10 then 48 + d else if upper then 55 + d else 87 + d.
(** The digits in the order in which they are put into [buf], last digit first. *)
Fixpoint digit_loop (n : nat) (v base : Z) (upper : bool) : list Z :=
  match n with
  | O => []
  | S n' => if v =? 0 then [] else digs upper (v mod base) :: digit_loop n' (v / base) base upper
  end.
Fixpoint putc_all (l : list Z) : ST stdio unit :=
  match l with [] => ret tt | c :: l' => putc c;;; putc_all l' end.
Definition print_uint (v base : Z) (upper : bool) (padWidth : Z) (padZero : bool) : ST stdio unit :=
  let buf := if v =? 0 then [ch "0"] else digit_loop 32 v base upper in
  putc_all (replicate (Z.to_nat (padWidth - Z.of_nat (length buf))) (if padZero then ch "0" else ch " "));;;
  putc_all (rev buf).

(** A conversion of [vprintf]; the arguments that are left. *)
Definition conversion (padZero : bool) (width : Z) (spec : Z) (ap : list arg) : ST stdio (list arg) :=
  if spec =? ch "%" then putc (ch "%");;; ret ap
  else if spec =? ch "c" then let! '(v, ap') := va_word ap in putc (u8 v);;; ret ap'
  else if spec =? ch "s" then
    let! '(p, ap') := va_str ap in puts (default (text "(null)") p);;; ret ap'
  else if (spec =? ch "d") || (spec =? ch "i") then
    let! '(w, ap') := va_word ap in
    let v := s32 w in
    if v =? -2 ^ 31 then stuck
    else if v <? 0 then putc (ch "-");;; print_uint (u32 (- v)) 10 false width padZero;;; ret ap'
    else print_uint (u32 v) 10 false width padZero;;; ret ap'
  else if spec =? ch "u" then let! '(v, ap') := va_word ap in print_uint v 10 false width padZero;;; ret ap'
  else if spec =? ch "x" then let! '(v, ap') := va_word ap in print_uint v 16 false width padZero;;; ret ap'
  else if spec =? ch "X" then let! '(v, ap') := va_word ap in print_uint v 16 true width padZero;;; ret ap'
  else if spec =? ch "p" then let! '(v, ap') := va_word ap in puts (text "0x");;; print_uint v 16 false 8 true;;; ret ap'
  else putc (ch "%");;; putc spec;;; ret ap.

Definition is_digit (c : Z) : bool := (ch "0" <=? c) && (c <=? ch "9").
(** [None] when the width leaves the type [int]. *)
Fixpoint parse_width (width : Z) (p : list Z) : option (Z * list Z) :=
  match p with
  | c :: p' =>
      if is_digit c then let w := width * 10 + (c - ch "0") in if 2 ^ 31 <=? w then None else parse_width w p'
      else Some (width, p)
  | [] => Some (width, [])
  end.
(** The loop over the format; [p] is the memory from [fmt + i] on. *)
Fixpoint vprintf_loop (n : nat) (p : list Z) (ap : list arg) : ST stdio unit :=
  match n, p with
  | S n', c :: p1 =>
      if c =? 0 then ret tt
      else if negb (c =? ch "%") then putc c;;; vprintf_loop n' p1 ap
      else
        let padZero := bool_decide (head p1 = Some (ch "0")) in
        match parse_width 0 (if padZero then tail p1 else p1) with
        | Some (width, spec :: p3) => let! ap' := conversion padZero width spec ap in vprintf_loop n' p3 ap'
        | _ => stuck
        end
  | _, _ => stuck
  end.
Definition vprintf (fmt : option (list Z)) (ap : list arg) : ST stdio unit :=
  match fmt with None => ret tt | Some p => vprintf_loop (length p) p ap end.

(** [snprintf] works on the bytes at [str] and the number written. *)
Definition sn : Type := list Z * nat.
Definition put (c : Z) : ST sn unit :=
  fun '(m, w) => if decide (w < length m)%nat then Some (tt, (<[w := c]> m, S w)) else None.
(** A loop that copies while [written + 1 < size]. *)
Fixpoint emit (size : Z) (l : list Z) : ST sn unit :=
  match l with
  | [] => ret tt
  | c :: l' => let! w := gets snd in if Z.of_nat w + 1 <? size then put c;;; emit size l' else ret tt
  end.
Definition do_digits (len : nat) (v base : Z) (upper : bool) : list Z :=
  digs upper (v mod base) :: digit_loop (30 - len) (v / base) base upper.
Definition sn_conversion (size spec : Z) (ap : list arg) : ST sn (list arg) :=
  if spec =? ch "%" then put (ch "%");;; ret ap
  else if spec =? ch "c" then let! '(v, ap') := va_word ap in put (u8 v);;; ret ap'
  else if spec =? ch "s" then let! '(p, ap') := va_str ap in emit size (default (text "(null)") p);;; ret ap'
  else if (spec =? ch "d") || (spec =? ch "i") then
    let! '(w, ap') := va_word ap in
    let v := s32 w in
    if v =? -2 ^ 31 then stuck
    else
      let buf := if v <? 0 then ch "-" :: do_digits 1 (- v) 10 false else do_digits 0 v 10 false in
      emit size (rev buf);;; ret ap'
  else if spec =? ch "u" then let! '(v, ap') := va_word ap in emit size (rev (do_digits 0 v 10 false));;; ret ap'
  else if (spec =? ch "x") || (spec =? ch "X") then
    let! '(v, ap') := va_word ap in emit size (rev (do_digits 0 v 16 (spec =? ch "X")));;; ret ap'
  else put (ch "%");;; put spec;;; ret ap.
Fixpoint sn_loop (n : nat) (size : Z) (p : list Z) (ap : list arg) : ST sn unit :=
  match n, p with
  | S n', c :: p1 =>
      let! w := gets snd in
      if (c =? 0) || negb (Z.of_nat w + 1 <? size) then ret tt
      else if negb (c =? ch "%") then put c;;; sn_loop n' size p1 ap
      else match p1 with
           | spec :: p2 => let! ap' := sn_conversion size spec ap in sn_loop n' size p2 ap'
           | [] => stuck
           end
  | _, _ => stuck
  end.
(** The result and the bytes at [str] afterwards. *)
Definition snprintf (str : option (list Z)) (size : Z) (format : option (list Z)) (ap : list arg) : option (Z * list Z) :=
  match str, format with
  | Some m, Some p =>
      if size =? 0 then Some (-1, m)
      else match sn_loop (length p) size p ap (m, 0%nat) with
           | Some (_, (m', w)) => match put 0 (m', w) with Some (_, (m'', _)) => Some (Z.of_nat w, m'') | None => None end
           | None => None
           end
  | _, _ => Some (-1, default [] str)
  end.

(** ** Input *)

(** A key offered by the keyboard; whether it was consumed. *)
Definition TryDeliverKey (c : Z) : ST stdio bool :=
  let! active := gets g_input_active in
  if negb active then ret false
  else
    let! h := gets g_buf_head in
    let! t := gets g_buf_tail in
    let! b := gets g_input_buf in
    if (c =? 8) || (c =? 127) then
      if h =? t then ret true
      else modify (set_ring h (Z.land (t - 1) 0xFF) b);;; puts [8; 32; 8];;; ret true
    else
      let c := if c =? 13 then 10 else c in
      let next_tail := Z.land (t + 1) 0xFF in
      if next_tail =? h then ret false
      else
        modify (set_ring h next_tail (<[Z.to_nat t := c]> b));;;
        (if ((32 <=? c) && (c <=? 126)) || (c =? 10) then putc c else ret tt);;;
        ret true.
Fixpoint deliver (ks : list Z) : ST stdio unit :=
  match ks with [] => ret tt | c :: ks' => TryDeliverKey c;;; deliver ks' end.
(** The interrupts since the code last looked at the ring. *)
Definition arrive : ST stdio unit :=
  let! l := gets arrivals in
  match l with [] => ret tt | ks :: l' => modify (set_arrivals l');;; deliver ks end.
Definition ring_at (b : list Z) (i : Z) : Z := default 0 (b !! Z.to_nat i).

Definition peekch : ST stdio Z :=
  arrive;;;
  let! h := gets g_buf_head in let! t := gets g_buf_tail in let! b := gets g_input_buf in
  ret (if h =? t then -1 else ring_at b h).
Definition pop_front : ST stdio Z :=
  let! h := gets g_buf_head in let! t := gets g_buf_tail in let! b := gets g_input_buf in
  modify (set_ring (Z.land (h + 1) 0xFF) t b);;; ret (ring_at b h).
Definition popch : ST stdio Z :=
  arrive;;;
  let! h := gets g_buf_head in let! t := gets g_buf_tail in
  if h =? t then ret (-1) else pop_front.
(** The spin of [getch_blocking]; once no key can arrive it does not return. *)
Fixpoint wait_key (n : nat) : ST stdio unit :=
  arrive;;;
  let! h := gets g_buf_head in let! t := gets g_buf_tail in
  if h =? t then match n with O => stuck | S n' => wait_key n' end else ret tt.
Definition getch_blocking : ST stdio Z :=
  let! l := gets arrivals in wait_key (length l);;; pop_front.

(** The loops that consume characters: [body] is [None] where the source
    breaks, and [Some None] where it leaves the type [int]. *)
Definition scan_fuel (s : stdio) : nat := 257 + length (concat (arrivals s)).
Fixpoint scan_loop {A} (n : nat) (body : A -> Z -> option (option A)) (acc : A) : ST stdio A :=
  match n with
  | O => stuck
  | S n' =>
      let! c := peekch in
      if c =? -1 then ret acc
      else match body acc c with
           | None => ret acc
           | Some None => stuck
           | Some (Some acc') => popch;;; scan_loop n' body acc'
           end
  end.
Definition is_space (c : Z) : bool :=
  (c =? 32) || (c =? 9) || (c =? 10) || (c =? 13) || (c =? 11) || (c =? 12).
Definition skip_ws : ST stdio unit :=
  let! n := gets scan_fuel in scan_loop n (fun _ c => if is_space c then Some (Some tt) else None) tt.
Definition signed_step (acc : Z * bool) (c : Z) : option (option (Z * bool)) :=
  if is_digit c then let v := acc.1 * 10 + (c - ch "0") in Some (if 2 ^ 31 <=? v then None else Some (v, true)) else None.
Definition scan_int_signed : ST stdio (option Z) :=
  skip_ws;;;
  let! c := peekch in
  let sign := if c =? ch "-" then -1 else 1 in
  (if (c =? ch "+") || (c =? ch "-") then popch;;; ret tt else ret tt);;;
  let! n := gets scan_fuel in
  let! '(val, any) := scan_loop n signed_step (0, false) in
  ret (if any then Some (val * sign) else None).
Definition uint_step (acc : Z * bool) (c : Z) : option (option (Z * bool)) :=
  if is_digit c then Some (Some (u32 (acc.1 * 10 + (c - ch "0")), true)) else None.
Definition scan_uint : ST stdio (option Z) :=
  skip_ws;;;
  let! n := gets scan_fuel in
  let! '(val, any) := scan_loop n uint_step (0, false) in
  ret (if any then Some val else None).
Definition hexval (c : Z) : Z :=
  if (ch "0" <=? c) && (c <=? ch "9") then c - ch "0"
  else if (ch "a" <=? c) && (c <=? ch "f") then 10 + (c - ch "a")
  else if (ch "A" <=? c) && (c <=? ch "F") then 10 + (c - ch "A")
  else 0xFF.
Definition hex_step (acc : Z * bool) (c : Z) : option (option (Z * bool)) :=
  if negb (hexval c =? 0xFF) then Some (Some (Z.lor (u32 (Z.shiftl acc.1 4)) (hexval c), true)) else None.
Definition scan_hex : ST stdio (option Z) :=
  skip_ws;;;
  let! c := peekch in
  let! zero :=
    (if c =? ch "0" then
       popch;;; let! c2 := peekch in
       if (c2 =? ch "x") || (c2 =? ch "X") then popch;;; ret false else ret true
     else ret false) in
  if zero : bool then ret (Some 0)
  else
    let! n := gets scan_fuel in
    let! '(val, any) := scan_loop n hex_step (0, false) in
    ret (if any then Some val else None).
(** The characters stored, and whether there are any. *)
Definition str_step (maxLen : Z) (acc : list Z) (c : Z) : option (option (list Z)) :=
  if is_space c then None else Some (Some (if Z.of_nat (length acc) <? maxLen - 1 then acc ++ [c] else acc)).
Definition scan_str (present : bool) (maxLen : Z) : ST stdio (option (list Z) * bool) :=
  if negb present || (maxLen <=? 0) then ret (None, false)
  else
    skip_ws;;;
    let! n := gets scan_fuel in
    let! dst := scan_loop n (str_step maxLen) [] in
    ret (Some (dst ++ [0]), negb (bool_decide (dst = []))).

(** What a conversion stores through its pointer. *)
Inductive stored := SInt (v : Z) | SStr (l : list Z) | SChar (c : Z).
Definition va_ptr {S} (ap : list bool) : ST S (bool * list bool) := match ap with p :: ap' => ret (p, ap') | [] => stuck end.
Definition store_if (p : bool) (v : stored) : list stored := if p then [v] else [].
(** One conversion of [scanf]: what it stores, whether it counts, and whether
    [scanf] goes on. *)
Definition scan_conversion (spec : Z) (ap : list bool) : ST stdio (list stored * bool * bool * list bool) :=
  let number (m : ST stdio (option Z)) :=
    let! '(p, ap') := va_ptr ap in
    let! r := m in
    ret (match r with Some v => (store_if p (SInt v), true, true, ap') | None => ([], false, false, ap') end) in
  let literal (c : Z) := let! k := getch_blocking in ret ([], false, k =? c, ap) in
  if spec =? ch "d" then number scan_int_signed
  else if spec =? ch "u" then number scan_uint
  else if (spec =? ch "x") || (spec =? ch "X") then number scan_hex
  else if spec =? ch "s" then
    let! '(p, ap') := va_ptr ap in
    let! '(dst, any) := scan_str p 128 in
    ret (match dst with Some l => [SStr l] | None => [] end, any, any, ap')
  else if spec =? ch "c" then
    let! '(p, ap') := va_ptr ap in
    let! c := getch_blocking in
    ret (store_if p (SChar c), true, true, ap')
  else literal (s8 spec).
Fixpoint scanf_loop (n : nat) (p : list Z) (ap : list bool) (assigned : Z) (st : list stored) : ST stdio (Z * list stored) :=
  match n, p with
  | S n', f :: p1 =>
      if f =? 0 then ret (assigned, st)
      else if (f =? 32) || (f =? 9) || (f =? 10) then skip_ws;;; scanf_loop n' p1 ap assigned st
      else if negb (f =? ch "%") then
        let! c := getch_blocking in
        if negb (c =? s8 f) then ret (assigned, st) else scanf_loop n' p1 ap assigned st
      else match p1 with
           | [] => stuck
           | spec :: p2 =>
               if spec =? 0 then ret (assigned, st)
               else
                 let! '(w, counts, go, ap') := scan_conversion spec ap in
                 let assigned := if counts : bool then assigned + 1 else assigned in
                 if go : bool then scanf_loop n' p2 ap' assigned (st ++ w) else ret (assigned, st ++ w)
           end
  | _, _ => stuck
  end.
Definition scanf (fmt : option (list Z)) (ap : list bool) : ST stdio (Z * list stored) :=
  match fmt with
  | None => ret (0, [])
  | Some p =>
      let! b := gets g_input_buf in
      modify (set_ring 0 0 b);;; modify (set_active true);;;
      let! r := scanf_loop (length p) p ap 0 [] in
      modify (set_active false);;; ret r
  end.

(** ** What a format means *)

(** [ds] is the numeral of [v]: the value of its digits, without zeros in front. *)
Definition value (base : Z) (vs : list Z) : Z := foldl (fun a d => a * base + d) 0 vs.
Definition numeral (base : Z) (upper : bool) (v : Z) (ds : list Z) : Prop :=
  exists vs, ds = digs upper <$> vs /\ Forall (fun d => 0 <= d < base) vs /\ value base vs = v /\ (vs = [0] \/ (vs <> [] /\ head vs <> Some 0)).
Definition padded (padZero : bool) (width : Z) (ds : list Z) : list Z :=
  replicate (Z.to_nat (width - Z.of_nat (length ds))) (if padZero then ch "0" else ch " ") ++ ds.

(** The text of a conversion, and the arguments it leaves. *)
Inductive converts (padZero : bool) (width : Z) : Z -> list arg -> list Z -> list arg -> Prop :=
| c_percent ap : converts padZero width (ch "%") ap [ch "%"] ap
| c_char v ap : converts padZero width (ch "c") (AWord v :: ap) [u8 v] ap
| c_str l ap : converts padZero width (ch "s") (AStr l :: ap) l ap
| c_null ap : converts padZero width (ch "s") (AWord 0 :: ap) (text "(null)") ap
| c_pos spec v ds ap : spec = ch "d" \/ spec = ch "i" -> 0 <= v < 2 ^ 31 -> numeral 10 false v ds ->
    converts padZero width spec (AWord v :: ap) (padded padZero width ds) ap
| c_neg spec v ds ap : spec = ch "d" \/ spec = ch "i" -> - 2 ^ 31 < v < 0 -> numeral 10 false (- v) ds ->
    converts padZero width spec (AWord (u32 v) :: ap) (ch "-" :: padded padZero width ds) ap
| c_unsigned v ds ap : 0 <= v < 2 ^ 32 -> numeral 10 false v ds ->
    converts padZero width (ch "u") (AWord v :: ap) (padded padZero width ds) ap
| c_hex v ds ap : 0 <= v < 2 ^ 32 -> numeral 16 false v ds ->
    converts padZero width (ch "x") (AWord v :: ap) (padded padZero width ds) ap
| c_HEX v ds ap : 0 <= v < 2 ^ 32 -> numeral 16 true v ds ->
    converts padZero width (ch "X") (AWord v :: ap) (padded padZero width ds) ap
| c_pointer v ds ap : 0 <= v < 2 ^ 32 -> numeral 16 false v ds ->
    converts padZero width (ch "p") (AWord v :: ap) (text "0x" ++ padded true 8 ds) ap
| c_other spec ap : spec ∉ ch <$> ["%"; "c"; "s"; "d"; "i"; "u"; "x"; "X"; "p"]%char ->
    converts padZero width spec ap [ch "%"; spec] ap.

(** A format is a list of pieces; [R] is the meaning of its conversions. *)
Inductive piece := Lit (c : Z) | Conv (padZero : bool) (width : list Z) (spec : Z).
Definition width_from (w : Z) (ds : list Z) : Z := foldl (fun w c => w * 10 + (c - ch "0")) w ds.
Definition encode1 (p : piece) : list Z :=
  match p with Lit c => [c] | Conv padZero width spec => ch "%" :: (if padZero then [ch "0"] else []) ++ width ++ [spec] end.
Definition encode (ps : list piece) : list Z := concat (encode1 <$> ps).
Definition piece_ok (p : piece) : Prop :=
  match p with
  | Lit c => c <> 0 /\ c <> ch "%"
  | Conv padZero width spec =>
      Forall (fun c => is_digit c = true) width /\ (padZero = false -> head width <> Some (ch "0")) /\ width_from 0 width < 2 ^ 31 /\ is_digit spec = false
  end.
Inductive renders (R : bool -> Z -> Z -> list arg -> list Z -> list arg -> Prop) : list piece -> list arg -> list Z -> list arg -> Prop :=
| renders_nil ap : renders R [] ap [] ap
| renders_lit c ps ap t ap' : renders R ps ap t ap' -> renders R (Lit c :: ps) ap (c :: t) ap'
| renders_conv padZero width spec ps ap ap1 t ap' t' : R padZero (width_from 0 width) spec ap t ap1 -> renders R ps ap1 t' ap' ->
    renders R (Conv padZero width spec :: ps) ap (t ++ t') ap'.

(** ** Numerals *)

Lemma value_snoc base vs d : value base (vs ++ [d]) = value base vs * base + d.
Proof. unfold value. by rewrite foldl_app. Qed.
Lemma value_nonneg base vs : 0 <= base -> Forall (fun d => 0 <= d < base) vs -> 0 <= value base vs.
Proof.
  intros Hb. induction vs as [|d vs IH] using rev_ind; [done|]. rewrite Forall_app. intros [Hv Hd]. apply Forall_cons in Hd as [Hd _]. rewrite value_snoc. specialize (IH Hv). nia.
Qed.
Lemma value_pos base vs : 2 <= base -> Forall (fun d => 0 <= d < base) vs -> vs <> [] -> head vs <> Some 0 -> 0 < value base vs.
Proof.
  intros Hb. induction vs as [|d vs IH] using rev_ind; [done|]. rewrite Forall_app. intros [Hv Hd] _ Hh. apply Forall_cons in Hd as [Hd _]. rewrite value_snoc.
  destruct vs as [|x vs]; [cbn in *; assert (d <> 0) by congruence; lia|]. specialize (IH Hv ltac:(done) Hh). nia.
Qed.
Lemma digit_loop_zero n base upper : digit_loop n 0 base upper = [].
Proof. by destruct n. Qed.
Lemma digit_loop_ok base upper vs n : 2 <= base -> Forall (fun d => 0 <= d < base) vs -> vs <> [] -> head vs <> Some 0 -> (length vs <= n)%nat ->
  digit_loop n (value base vs) base upper = rev (digs upper <$> vs).
Proof.
  intros Hb. revert n. induction vs as [|d vs IH] using rev_ind; [done|]. intros n HF _ Hh Hn. apply Forall_app in HF as [Hv Hd]. apply Forall_cons in Hd as [Hd _]. rewrite length_app in Hn. cbn [length] in Hn.
  pose proof (value_nonneg base vs ltac:(lia) Hv) as Hnn. rewrite value_snoc, fmap_app, rev_app_distr. destruct n as [|n]; [lia|]. cbn [digit_loop fmap list_fmap rev app].
  rewrite Z.div_add_l, (Z.div_small d), Z.add_0_r by lia. replace ((value base vs * base + d) mod base) with d by (rewrite Z.add_comm, Z.mod_add, Z.mod_small; lia).
  destruct vs as [|x vs]; [change (value base []) with 0; cbn in Hh; rewrite (proj2 (Z.eqb_neq _ _)) by (assert (d <> 0) by congruence; lia); by rewrite digit_loop_zero|].
  pose proof (value_pos base (x :: vs) Hb Hv ltac:(done) Hh). rewrite (proj2 (Z.eqb_neq _ _)) by nia. by rewrite IH by (done || lia).
Qed.
Lemma value_length base vs n : 2 <= base -> Forall (fun d => 0 <= d < base) vs -> vs <> [] -> head vs <> Some 0 -> value base vs < base ^ Z.of_nat n -> (length vs <= n)%nat.
Proof.
  intros Hb. revert n. induction vs as [|d vs IH] using rev_ind; [done|]. intros n HF _ Hh Hn. apply Forall_app in HF as [Hv Hd]. apply Forall_cons in Hd as [Hd _]. rewrite value_snoc in Hn. rewrite length_app. cbn [length].
  destruct n as [|n]; [pose proof (value_pos base (vs ++ [d]) Hb) as Hp; rewrite value_snoc in Hp; specialize (Hp ltac:(apply Forall_app; split; [done|by apply Forall_singleton]) ltac:(by destruct vs) Hh); cbn in Hn; lia|].
  destruct vs as [|x vs]; [cbn; lia|]. assert (length (x :: vs) <= n)%nat; [|lia]. apply IH; [done..|]. rewrite Nat2Z.inj_succ, Z.pow_succ_r in Hn by lia. nia.
Qed.
(** The digits the two loops produce are the numeral. *)
Lemma numeral_digits base upper v ds n : 10 <= base -> 0 <= v < 2 ^ 32 -> (10 <= n)%nat -> numeral base upper v ds ->
  (if v =? 0 then [ch "0"] else digit_loop n v base upper) = rev ds.
Proof.
  intros Hb Hv Hn (vs & -> & Hvs & <- & Hz). destruct Hz as [->|[Hne Hh]]; [done|]. pose proof (value_pos base vs ltac:(lia) Hvs Hne Hh) as Hp. rewrite (proj2 (Z.eqb_neq _ _)) by lia.
  apply digit_loop_ok; try done; try lia. apply (value_length base); try done; try lia. apply Z.lt_le_trans with (10 ^ Z.of_nat n); [|apply Z.pow_le_mono_l; lia].
  apply Z.lt_le_trans with (10 ^ 10); [lia|]. apply Z.pow_le_mono_r; lia.
Qed.
Lemma numeral_do_digits base upper v ds len : 10 <= base -> 0 <= v < 2 ^ 32 -> (len <= 20)%nat -> numeral base upper v ds -> do_digits len v base upper = rev ds.
Proof.
  intros Hb Hv Hn Hd. rewrite <-(numeral_digits base upper v ds (S (30 - len))) by (done || lia). unfold do_digits. cbn [digit_loop]. destruct (Z.eqb_spec v 0) as [->|]; [|done].
  rewrite Z.mod_0_l, Z.div_0_l, digit_loop_zero by lia. done.
Qed.

(** ** vprintf *)

Lemma print_nil s : print [] s = s.
Proof. destruct s. unfold print. cbn. by rewrite app_nil_r. Qed.
Lemma print_app l l' s : print l' (print l s) = print (l ++ l') s.
Proof. unfold print. cbn. by rewrite app_assoc. Qed.

Section Output.
Context (s : stdio).
Hypotheses (Hpc : has_putc s = true) (Hps : has_puts s = true).
Lemma putc_step {B} l c (k : unit -> ST stdio B) : bind (putc c) k (print l s) = k tt (print (l ++ [c]) s).
Proof. unfold putc. rewrite modify_step. cbn [print has_putc]. by rewrite Hpc, print_app. Qed.
Lemma puts_step {B} l l' (k : unit -> ST stdio B) : bind (puts l') k (print l s) = k tt (print (l ++ l') s).
Proof. unfold puts. rewrite modify_step. cbn [print has_puts]. by rewrite Hps, print_app. Qed.
Lemma putc_all_ok l l' : putc_all l' (print l s) = Some (tt, print (l ++ l') s).
Proof.
  revert l. induction l' as [|c l' IH]; intros l; [by rewrite app_nil_r|]. cbn [putc_all]. rewrite putc_step, IH. by rewrite <-app_assoc.
Qed.
Lemma print_uint_ok l v base upper w pz ds : 10 <= base -> 0 <= v < 2 ^ 32 -> numeral base upper v ds ->
  print_uint v base upper w pz (print l s) = Some (tt, print (l ++ padded pz w ds) s).
Proof.
  intros Hb Hv Hd. unfold print_uint. rewrite (numeral_digits base upper v ds 32) by (done || lia). rewrite (bind_step _ _ _ _ _ (putc_all_ok _ _)).
  rewrite putc_all_ok, rev_involutive, length_rev. unfold padded. by rewrite app_assoc.
Qed.
Lemma number_ok {A} (a : A) l v base upper w pz ds : 10 <= base -> 0 <= v < 2 ^ 32 -> numeral base upper v ds ->
  (print_uint v base upper w pz;;; ret a) (print l s) = Some (a, print (l ++ padded pz w ds) s).
Proof. intros Hb Hv Hd. by rewrite (bind_step _ _ _ _ _ (print_uint_ok l v base upper w pz ds Hb Hv Hd)). Qed.
Lemma conversion_ok pz w spec ap t ap' l : converts pz w spec ap t ap' -> conversion pz w spec ap (print l s) = Some (ap', print (l ++ t) s).
Proof.
  intros Hc. destruct Hc as [ap|v ap|l' ap|ap|spec v ds ap Hs Hv Hd|spec v ds ap Hs Hv Hd|v ds ap Hv Hd|v ds ap Hv Hd|v ds ap Hv Hd|v ds ap Hv Hd|spec ap Hs].
  - apply putc_step.
  - apply putc_step.
  - apply puts_step.
  - apply puts_step.
  - assert (Hsv : s32 v = v) by (unfold s32; rewrite Z.mod_small; lia). rewrite <-(number_ok ap l (u32 v) 10 false w pz ds) by (first [lia | nowrap; done || lia]).
    transitivity ((if s32 v =? -2 ^ 31 then stuck else if s32 v <? 0 then putc (ch "-");;; print_uint (u32 (- s32 v)) 10 false w pz;;; ret ap else print_uint (u32 (s32 v)) 10 false w pz;;; ret ap) (print l s)); [by destruct Hs as [-> | ->]|].
    rewrite Hsv. repeat case_zb; done || lia.
  - assert (Hsv : s32 (u32 v) = v) by (unfold s32, u32; zdiv). rewrite (app_assoc l [ch "-"] (padded pz w ds) : l ++ ch "-" :: padded pz w ds = _), <-(number_ok ap (l ++ [ch "-"]) (u32 (- v)) 10 false w pz ds) by (first [lia | nowrap; done || lia]).
    rewrite <-(putc_step l (ch "-") (fun _ => print_uint (u32 (- v)) 10 false w pz;;; ret ap)).
    transitivity ((if s32 (u32 v) =? -2 ^ 31 then stuck else if s32 (u32 v) <? 0 then putc (ch "-");;; print_uint (u32 (- s32 (u32 v))) 10 false w pz;;; ret ap else print_uint (u32 (s32 (u32 v))) 10 false w pz;;; ret ap) (print l s)); [by destruct Hs as [-> | ->]|].
    rewrite Hsv. repeat case_zb; done || lia.
  - by apply (number_ok ap l v 10 false).
  - by apply (number_ok ap l v 16 false).
  - by apply (number_ok ap l v 16 true).
  - rewrite app_assoc, <-(number_ok ap (l ++ text "0x") v 16 false 8 true ds) by (done || lia). apply puts_step.
  - unfold conversion. repeat (rewrite (proj2 (Z.eqb_neq spec _)) by (intros ->; apply Hs; cbn; set_solver)). cbn [orb]. rewrite !putc_step. unfold ret. by rewrite <-app_assoc.
Qed.

Lemma parse_width_ok w ds spec rest : 0 <= w -> Forall (fun c => is_digit c = true) ds -> is_digit spec = false -> width_from w ds < 2 ^ 31 ->
  parse_width w (ds ++ spec :: rest) = Some (width_from w ds, spec :: rest) /\ w <= width_from w ds.
Proof.
  intros Hw Hds Hs. revert w Hw. induction Hds as [|c ds Hc Hds IH]; intros w Hw Hb; cbn [app parse_width]; [rewrite Hs; cbn in *; split; [done|lia]|].
  assert (0 <= c - ch "0") by (unfold is_digit in Hc; apply andb_prop in Hc as [Hc _]; apply Z.leb_le in Hc; lia). change (width_from w (c :: ds)) with (width_from (w * 10 + (c - ch "0")) ds) in *.
  rewrite Hc. destruct (IH (w * 10 + (c - ch "0")) ltac:(lia) Hb) as [E Hle]. cbn zeta. rewrite (proj2 (Z.leb_gt (2 ^ 31) _)) by lia. split; [done|lia].
Qed.
Lemma vprintf_loop_ok ps ap t ap' l n rest : Forall piece_ok ps -> renders converts ps ap t ap' -> (length (encode ps) <= n)%nat ->
  exists n', vprintf_loop n (encode ps ++ rest) ap (print l s) = vprintf_loop n' rest ap' (print (l ++ t) s) /\ (n - length (encode ps) <= n')%nat.
Proof.
  intros Hq Hr. revert n l. induction Hr as [ap|c ps ap t ap' Hr IH|pz w spec ps ap ap1 t ap' t' Hc Hr IH]; intros n l Hn.
  - exists n. rewrite app_nil_r. split; [done|cbn; lia].
  - apply Forall_cons in Hq as [[H0 Hp] Hq]. cbn in Hn. destruct n as [|n]; [lia|]. destruct (IH Hq n (l ++ [c]) ltac:(unfold encode; lia)) as (n' & E & Hle). exists n'. split; [|unfold encode in *; cbn in *; lia].
    change (encode (Lit c :: ps)) with (c :: encode ps). cbn [app vprintf_loop]. rewrite (proj2 (Z.eqb_neq _ _) H0), (proj2 (Z.eqb_neq _ _) Hp). cbn [negb]. rewrite putc_step, E. by rewrite <-app_assoc.
  - apply Forall_cons in Hq as [(Hw & Hz & Hb & Hs) Hq]. change (encode (Conv pz w spec :: ps)) with (encode1 (Conv pz w spec) ++ encode ps) in *. cbn [encode1] in *. rewrite length_app in Hn. cbn [length] in Hn. rewrite !length_app in Hn. cbn [length] in Hn.
    destruct n as [|n]; [lia|]. destruct (IH Hq n (l ++ t) ltac:(lia)) as (n' & E & Hle). exists n'. split; [|rewrite length_app; cbn [length]; lia].
    rewrite <-app_assoc. cbn [app vprintf_loop]. change (ch "%" =? 0) with false. rewrite Z.eqb_refl. cbn [negb].
    destruct (parse_width_ok 0 w spec (encode ps ++ rest) ltac:(lia) Hw Hs Hb) as [Ew _]. rewrite <-!app_assoc. cbn [app].
    assert (Epz : bool_decide (head ((if pz then [ch "0"] else []) ++ w ++ spec :: encode ps ++ rest) = Some (ch "0")) = pz).
    { destruct pz; [by apply bool_decide_eq_true_2|]. apply bool_decide_eq_false_2. cbn [app]. destruct w as [|x w]; [|by apply Hz]. cbn. intros [= ->]. discriminate Hs. }
    rewrite Epz. replace (if pz then tail ((if pz then [ch "0"] else []) ++ w ++ spec :: encode ps ++ rest) else (if pz then [ch "0"] else []) ++ w ++ spec :: encode ps ++ rest) with (w ++ spec :: encode ps ++ rest) by (by destruct pz).
    rewrite Ew. rewrite (bind_step _ _ _ _ _ (conversion_ok _ _ _ _ _ _ l Hc)), E. by rewrite <-app_assoc.
Qed.
End Output.

Lemma renders_app R ps ap t ap1 qs t' ap' : renders R ps ap t ap1 -> renders R qs ap1 t' ap' -> renders R (ps ++ qs) ap (t ++ t') ap'.
Proof.
  induction 1 as [|c ps ap t ap1 Hr IH|pz w spec ps ap ap0 t ap1 t0 Hc Hr IH]; intros Hq; [done|by apply (renders_lit R c), IH|].
  cbn [app]. rewrite <-app_assoc. by apply (renders_conv R pz w spec _ ap ap0), IH.
Qed.

(** C24: [vprintf] prints what its format means: literal characters as they are,
    and for each conversion the text of its argument, numbers as numerals
    without leading zeros that are padded to the width. *)
Theorem vprintf_spec ps ap t ap' rest s : has_putc s = true -> has_puts s = true -> Forall piece_ok ps -> renders converts ps ap t ap' ->
  vprintf (Some (encode ps ++ 0 :: rest)) ap s = Some (tt, print t s).
Proof.
  intros Hpc Hps Hok Hr. cbn [vprintf]. destruct (vprintf_loop_ok s Hpc Hps ps ap t ap' [] (length (encode ps ++ 0 :: rest)) (0 :: rest) Hok Hr) as (n' & E & Hn); [rewrite length_app; lia|].
  rewrite print_nil in E. rewrite E. rewrite length_app in Hn. cbn [length] in Hn. destruct n'; [lia|done].
Qed.

(** A format that ends in [%] makes [vprintf] read behind the terminator: it
    prints the percent sign and the terminator, and goes on with the bytes that
    follow the string in memory; when there are none, it reads out of bounds. *)
Theorem vprintf_past_end ps qs ap t ap1 t' ap' rest s : has_putc s = true -> has_puts s = true -> Forall piece_ok ps -> Forall piece_ok qs ->
  renders converts ps ap t ap1 -> renders converts qs ap1 t' ap' ->
  vprintf (Some (encode ps ++ [ch "%"; 0] ++ encode qs ++ 0 :: rest)) ap s = Some (tt, print (t ++ [ch "%"; 0] ++ t') s) /\
  vprintf (Some (encode ps ++ [ch "%"; 0])) ap s = None.
Proof.
  intros Hpc Hps Hok Hokq Hr Hrq. assert (Hend : piece_ok (Conv false [] 0)) by (split_and!; done). assert (Ho : converts false 0 0 ap1 [ch "%"; 0] ap1) by (apply c_other; vm_compute; set_solver).
  split.
  - change ([ch "%"; 0] ++ encode qs ++ 0 :: rest) with (encode1 (Conv false [] 0) ++ encode qs ++ 0 :: rest). cbn [vprintf].
    assert (Hall : renders converts (ps ++ Conv false [] 0 :: qs) ap (t ++ [ch "%"; 0] ++ t') ap') by (exact (renders_app _ _ _ _ _ _ _ _ Hr (renders_conv converts false [] 0 qs ap1 ap1 [ch "%"; 0] ap' t' Ho Hrq))).
    assert (Ee : encode ps ++ encode1 (Conv false [] 0) ++ encode qs ++ 0 :: rest = encode (ps ++ Conv false [] 0 :: qs) ++ 0 :: rest) by (unfold encode; by rewrite fmap_app, concat_app, <-app_assoc).
    rewrite Ee. assert (Hokall : Forall piece_ok (ps ++ Conv false [] 0 :: qs)) by (apply Forall_app; auto).
    destruct (vprintf_loop_ok s Hpc Hps _ ap _ ap' [] (length (encode (ps ++ Conv false [] 0 :: qs) ++ 0 :: rest)) (0 :: rest) Hokall Hall) as (n' & E & Hn); [rewrite length_app; lia|].
    rewrite print_nil in E. rewrite E. rewrite length_app in Hn. cbn [length] in Hn. destruct n'; [lia|done].
  - cbn [vprintf]. destruct (vprintf_loop_ok s Hpc Hps ps ap t ap1 [] (length (encode ps ++ [ch "%"; 0])) [ch "%"; 0] Hok Hr) as (n' & E & Hn); [rewrite length_app; lia|].
    rewrite print_nil in E. rewrite E. rewrite length_app in Hn. cbn [length] in Hn. destruct n' as [|n']; [done|]. cbn. unfold bind at 1. by destruct n'.
Qed.

(** ** snprintf *)

(** The bytes at [str] after [t] was written. *)
Definition wrote (m t : list Z) : sn := (t ++ drop (length t) m, length t).
Lemma put_step {B} m t c (k : unit -> ST sn B) : (length t < length m)%nat -> bind (put c) k (wrote m t) = k tt (wrote m (t ++ [c])).
Proof.
  intros Hl. unfold put, bind, wrote. rewrite length_app, length_drop, decide_True by lia. rewrite insert_app_r_alt, Nat.sub_diag by lia. rewrite length_app. cbn [length].
  destruct (drop (length t) m) as [|x r] eqn:E; [apply (f_equal length) in E; rewrite length_drop in E; cbn in E; lia|]. cbn [insert list_insert]. rewrite Nat.add_1_r, <-app_assoc. cbn [app].
  replace r with (drop (S (length t)) m); [done|]. by rewrite <-Nat.add_1_r, <-drop_drop, E.
Qed.

Lemma padded_none ds : padded false 0 ds = ds.
Proof. unfold padded. by replace (Z.to_nat _) with 0%nat by lia. Qed.

Section Snprintf.
Context (m : list Z) (size : nat).
Hypotheses (Hpos : (0 < size)%nat) (Hsz : (size <= length m)%nat).
Lemma emit_ok t l : (length t < size)%nat -> emit (Z.of_nat size) l (wrote m t) = Some (tt, wrote m (take (size - 1) (t ++ l))).
Proof.
  revert t. induction l as [|c l IH]; intros t Ht; cbn [emit]; [by rewrite app_nil_r, take_ge by lia|]. rewrite gets_step. cbn [wrote snd]. case_zb.
  - rewrite put_step by lia. rewrite IH by (rewrite length_app; cbn; lia). by rewrite <-(app_assoc t [c] l).
  - rewrite take_app_le, take_ge by lia. done.
Qed.
Lemma emit_step {A} (a : A) t l : (length t < size)%nat -> (emit (Z.of_nat size) l;;; ret a) (wrote m t) = Some (a, wrote m (take (size - 1) (t ++ l))).
Proof. intros Ht. by rewrite (bind_step _ _ _ _ _ (emit_ok t l Ht)). Qed.

(** The conversions [snprintf] handles as it should. *)
Definition sn_converts (padZero : bool) (width spec : Z) (ap : list arg) (t : list Z) (ap' : list arg) : Prop :=
  converts padZero width spec ap t ap' /\ padZero = false /\ width = 0 /\ spec ∈ ch <$> ["%"; "c"; "s"; "d"; "i"; "u"; "x"; "X"]%char /\
  (spec = ch "d" \/ spec = ch "i" -> exists v, head ap = Some (AWord v) /\ 0 <= v < 2 ^ 31).

Lemma sn_conversion_ok spec ap l ap' t : sn_converts false 0 spec ap l ap' -> (length t < size - 1)%nat ->
  sn_conversion (Z.of_nat size) spec ap (wrote m t) = Some (ap', wrote m (take (size - 1) (t ++ l))).
Proof.
  intros (Hc & _ & _ & Hin & Hd) Ht. assert (H1 : forall c, take (size - 1) (t ++ [c]) = t ++ [c]) by (intros c; apply take_ge; rewrite length_app; cbn; lia).
  destruct Hc as [ap|v ap|l ap|ap|spec v ds ap Hs Hv Hn|spec v ds ap Hs Hv Hn|v ds ap Hv Hn|v ds ap Hv Hn|v ds ap Hv Hn|v ds ap Hv Hn|spec ap Hs].
  - rewrite H1. apply put_step. lia.
  - rewrite H1. apply put_step. lia.
  - apply (emit_step ap). lia.
  - apply (emit_step ap). lia.
  - assert (Hsv : s32 v = v) by (unfold s32; rewrite Z.mod_small; lia). rewrite padded_none, <-(emit_step ap) by lia. rewrite <-(rev_involutive ds), <-(numeral_do_digits 10 false v ds 0) by (done || lia).
    transitivity ((if s32 v =? -2 ^ 31 then stuck else emit (Z.of_nat size) (rev (if s32 v <? 0 then ch "-" :: do_digits 1 (- s32 v) 10 false else do_digits 0 (s32 v) 10 false));;; ret ap) (wrote m t)); [by destruct Hs as [-> | ->]|].
    rewrite Hsv. repeat case_zb; done || lia.
  - destruct (Hd Hs) as (v' & [= Hv'] & Hr). unfold u32 in Hv'. zdiv.
  - rewrite padded_none, <-(emit_step ap) by lia. by rewrite <-(rev_involutive ds), <-(numeral_do_digits 10 false v ds 0) by (done || lia).
  - rewrite padded_none, <-(emit_step ap) by lia. by rewrite <-(rev_involutive ds), <-(numeral_do_digits 16 false v ds 0) by (done || lia).
  - rewrite padded_none, <-(emit_step ap) by lia. by rewrite <-(rev_involutive ds), <-(numeral_do_digits 16 true v ds 0) by (done || lia).
  - exfalso. vm_compute in Hin. set_solver.
  - exfalso. cbn in Hin, Hs. set_solver.
Qed.
Lemma sn_full n c p ap t : length t = (size - 1)%nat -> (0 < n)%nat -> sn_loop n (Z.of_nat size) (c :: p) ap (wrote m t) = Some (tt, wrote m t).
Proof. intros Ht Hn. destruct n; [lia|]. cbn [sn_loop]. rewrite gets_step. cbn [wrote snd]. rewrite (proj2 (Z.ltb_ge _ _)) by lia. by rewrite orb_true_r. Qed.
(** The loop either comes to the rest of the format or has filled the buffer. *)
Lemma sn_loop_ok ps ap l ap' t n rest : Forall piece_ok ps -> renders sn_converts ps ap l ap' -> (length (encode ps) < n)%nat -> (length t < size)%nat -> rest <> [] ->
  exists n', (n - length (encode ps) <= n')%nat /\ sn_loop n (Z.of_nat size) (encode ps ++ rest) ap (wrote m t) =
    if decide (length (t ++ l) < size)%nat then sn_loop n' (Z.of_nat size) rest ap' (wrote m (t ++ l)) else Some (tt, wrote m (take (size - 1) (t ++ l))).
Proof.
  intros Hq Hr. revert n t. induction Hr as [ap|c ps ap l ap' Hr IH|pz w spec ps ap ap1 l ap' l' Hc Hr IH]; intros n t Hn Ht Hrest.
  - exists n. rewrite app_nil_r, decide_True by lia. split; [cbn; lia|done].
  - apply Forall_cons in Hq as [[H0 Hp] Hq]. change (encode (Lit c :: ps)) with (c :: encode ps) in *. cbn [length] in Hn. destruct n as [|n]; [lia|].
    destruct (decide (length t = size - 1)%nat) as [Hfull|Hne].
    { exists (S n). split; [lia|]. rewrite decide_False by (rewrite length_app; cbn; lia). cbn [app]. rewrite sn_full by lia. rewrite take_app_le, take_ge by lia. done. }
    destruct (IH Hq n (t ++ [c]) ltac:(lia) ltac:(rewrite length_app; cbn; lia) Hrest) as (n' & Hle & E). exists n'. split; [cbn [length]; lia|]. rewrite <-app_assoc in E. cbn [app] in E |- *. rewrite <-E.
    cbn [sn_loop]. rewrite gets_step. cbn [wrote snd]. rewrite (proj2 (Z.eqb_neq _ _) H0), (proj2 (Z.ltb_lt _ _)), (proj2 (Z.eqb_neq _ _) Hp) by lia. cbn [negb orb]. by rewrite put_step by lia.
  - apply Forall_cons in Hq as [(Hw & Hz & Hb & Hs) Hq]. change (encode (Conv pz w spec :: ps)) with (encode1 (Conv pz w spec) ++ encode ps) in *. pose proof Hc as (_ & -> & Hw0 & _).
    assert (Ew : w = []).
    { destruct w as [|x w]; [done|]. exfalso. specialize (Hz eq_refl). apply Forall_cons in Hw as [Hx Hw]. unfold is_digit in Hx. apply andb_prop in Hx as [Hx _]. apply Z.leb_le in Hx. cbn [head] in Hz.
      destruct (parse_width_ok (x - ch "0") w spec [] ltac:(lia) Hw Hs Hb) as [_ Hle]. change (width_from 0 (x :: w)) with (width_from (x - ch "0") w) in Hw0. assert (x <> ch "0") by congruence. lia. }
    subst w. cbn [encode1 app] in *. cbn [length] in Hn |- *. destruct n as [|n]; [lia|]. change (width_from 0 []) with 0 in Hc.
    destruct (decide (length t = size - 1)%nat) as [Hfull|Hne].
    { exists (S n). split; [lia|]. rewrite sn_full by lia. case_decide as Hd; [|by rewrite take_app_le, take_ge by lia]. rewrite length_app in Hd. destruct (l ++ l') eqn:El; [|cbn in Hd; lia].
      destruct rest as [|x rest]; [done|]. rewrite app_nil_r, sn_full by lia. done. }
    assert (Estep : sn_loop (S n) (Z.of_nat size) (ch "%" :: spec :: encode ps ++ rest) ap (wrote m t) = sn_loop n (Z.of_nat size) (encode ps ++ rest) ap1 (wrote m (take (size - 1) (t ++ l)))).
    { cbn [sn_loop]. rewrite gets_step. cbn [wrote snd]. change (ch "%" =? 0) with false. rewrite (proj2 (Z.ltb_lt _ _)), Z.eqb_refl by lia. cbn [negb orb]. by rewrite (bind_step _ _ _ _ _ (sn_conversion_ok spec ap l ap1 t Hc ltac:(lia))). }
    rewrite Estep, app_assoc. destruct (decide (length (t ++ l) < size)%nat) as [Hlt|Hge].
    + rewrite take_ge by lia. destruct (IH Hq n (t ++ l) ltac:(lia) Hlt Hrest) as (n' & Hle & E). exists n'. split; [lia|done].
    + exists n. split; [lia|]. rewrite decide_False by (rewrite length_app; lia). destruct (encode ps ++ rest) as [|x p] eqn:Ep; [by apply app_nil in Ep as [_ ?]|].
      rewrite sn_full by (rewrite ?length_take; lia). by rewrite (take_app_le (t ++ l)) by lia.
Qed.
End Snprintf.

Lemma snprintf_unfold m (size : nat) p ap t : (0 < size)%nat -> (length t < length m)%nat ->
  sn_loop (length p) (Z.of_nat size) p ap (m, 0%nat) = Some (tt, wrote m t) ->
  snprintf (Some m) (Z.of_nat size) (Some p) ap = Some (Z.of_nat (length t), t ++ 0 :: drop (S (length t)) m).
Proof.
  intros Hp Ht E. unfold snprintf. rewrite (proj2 (Z.eqb_neq _ _)) by lia. rewrite E. pose proof (put_step m t 0 (fun _ => ret tt) Ht) as Hput. unfold bind in Hput. unfold wrote at 1.
  unfold wrote in Hput at 1. destruct (put 0 (t ++ drop (length t) m, length t)) as [[[] [m' w']]|] eqn:Ep; [|done]. unfold ret in Hput. injection Hput as -> ->. rewrite length_app, <-app_assoc. cbn [length app]. by rewrite Nat.add_1_r.
Qed.

(** [snprintf] writes what its format means, cut off at [size - 1] characters,
    and a terminator, and nothing behind it; it returns the number of
    characters written.  This is for the conversions it knows and integers
    that are not negative. *)
Theorem snprintf_spec m (size : nat) ps ap t ap' rest : (0 < size <= length m)%nat -> Forall piece_ok ps -> renders sn_converts ps ap t ap' ->
  let w := take (size - 1) t in
  snprintf (Some m) (Z.of_nat size) (Some (encode ps ++ 0 :: rest)) ap = Some (Z.of_nat (length w), w ++ 0 :: drop (S (length w)) m).
Proof.
  intros [Hpos Hsz] Hq Hr w. assert (Hw : (length w < size)%nat) by (unfold w; rewrite length_take; lia). apply snprintf_unfold; [done|lia|].
  destruct (sn_loop_ok m size Hpos Hsz ps ap t ap' [] (length (encode ps ++ 0 :: rest)) (0 :: rest) Hq Hr) as (n' & Hn & E); [rewrite length_app; cbn; lia|done|done|].
  change (m, 0%nat) with (wrote m []). rewrite E. clear E. cbn [app]. case_decide as Hd; [|done]. unfold w. rewrite take_ge by lia. rewrite length_app in Hn. cbn [length] in Hn. destruct n'; [lia|done].
Qed.

(** An unknown conversion at the end of the space makes [snprintf] write its
    terminator at [str[size]], behind the buffer. *)
Theorem snprintf_overflow m (size : nat) pre spec rest ap : (2 <= size < length m)%nat -> length pre = (size - 2)%nat -> Forall (fun c => c <> 0 /\ c <> ch "%") pre ->
  spec ∉ ch <$> ["%"; "c"; "s"; "d"; "i"; "u"; "x"; "X"]%char ->
  snprintf (Some m) (Z.of_nat size) (Some (pre ++ ch "%" :: spec :: 0 :: rest)) ap =
    Some (Z.of_nat size, pre ++ [ch "%"; spec; 0] ++ drop (S size) m).
Proof.
  intros Hs Hl Hpre Hspec. assert (Hq : Forall piece_ok (Lit <$> pre)) by (by apply Forall_fmap). assert (Hr : renders sn_converts (Lit <$> pre) ap pre ap) by (clear; induction pre; by constructor).
  assert (Ee : encode (Lit <$> pre) = pre) by (clear; unfold encode; induction pre as [|c pre IH]; cbn in *; [done|by rewrite IH]).
  destruct (sn_loop_ok m size ltac:(lia) ltac:(lia) _ ap pre ap [] (length (pre ++ ch "%" :: spec :: 0 :: rest)) (ch "%" :: spec :: 0 :: rest) Hq Hr) as (n' & Hn & E); [rewrite Ee, length_app; cbn; lia|cbn; lia|done|].
  rewrite Ee, decide_True in E by (cbn; lia). cbn [app] in E. replace (pre ++ [ch "%"; spec; 0] ++ drop (S size) m) with ((pre ++ [ch "%"; spec]) ++ 0 :: drop (S (length (pre ++ [ch "%"; spec]))) m)
    by (rewrite <-app_assoc, length_app; cbn [length app]; by replace (length pre + 2)%nat with size by lia).
  replace (Z.of_nat size) with (Z.of_nat (length (pre ++ [ch "%"; spec]))) at 2 by (rewrite length_app; cbn; lia). apply snprintf_unfold; [lia|rewrite length_app; cbn; lia|].
  change (m, 0%nat) with (wrote m []). rewrite E, Ee, length_app in *. cbn [length] in Hn. destruct n' as [|[|n']]; [lia|lia|]. cbn [sn_loop]. rewrite gets_step. cbn [wrote snd]. change (ch "%" =? 0) with false. rewrite (proj2 (Z.ltb_lt _ _)), Z.eqb_refl by lia. cbn [negb orb].
  assert (Ec : sn_conversion (Z.of_nat size) spec ap (wrote m pre) = Some (ap, wrote m (pre ++ [ch "%"; spec]))).
  { unfold sn_conversion. repeat (rewrite (proj2 (Z.eqb_neq spec _)) by (intros ->; apply Hspec; cbn; set_solver)). cbn [orb]. rewrite !put_step by (rewrite ?length_app; cbn; lia). unfold ret. by rewrite <-app_assoc. }
  rewrite (bind_step _ _ _ _ _ Ec). done.
Qed.

(** [snprintf] writes the sign of a negative number behind its digits. *)
Theorem snprintf_negative m (size : nat) v ds rest : - 2 ^ 31 < v < 0 -> numeral 10 false (- v) ds -> (S (length ds) < size <= length m)%nat ->
  snprintf (Some m) (Z.of_nat size) (Some (text "%d" ++ 0 :: rest)) [AWord (u32 v)] = Some (Z.of_nat (S (length ds)), ds ++ ch "-" :: 0 :: drop (S (S (length ds))) m).
Proof.
  intros Hv Hn Hs. replace (ds ++ ch "-" :: 0 :: drop (S (S (length ds))) m) with ((ds ++ [ch "-"]) ++ 0 :: drop (S (length (ds ++ [ch "-"]))) m) by (rewrite <-app_assoc, length_app; cbn; by rewrite Nat.add_1_r).
  replace (S (length ds)) with (length (ds ++ [ch "-"])) at 1 by (rewrite length_app; cbn; lia). apply snprintf_unfold; [lia|rewrite length_app; cbn; lia|].
  change (m, 0%nat) with (wrote m []). change (length (text "%d" ++ 0 :: rest)) with (S (S (S (length rest)))). set (k := S (S (length rest))). cbn [text app sn_loop]. rewrite gets_step. cbn [wrote snd length]. change (ch "%" =? 0) with false. rewrite (proj2 (Z.ltb_lt _ _)), Z.eqb_refl by lia. cbn [negb orb].
  assert (Hsv : s32 (u32 v) = v) by (unfold s32, u32; zdiv).
  assert (Ec : sn_conversion (Z.of_nat size) (ch "d") [AWord (u32 v)] (wrote m []) = Some ([], wrote m (ds ++ [ch "-"]))).
  { transitivity ((if s32 (u32 v) =? -2 ^ 31 then stuck else emit (Z.of_nat size) (rev (if s32 (u32 v) <? 0 then ch "-" :: do_digits 1 (- s32 (u32 v)) 10 false else do_digits 0 (s32 (u32 v)) 10 false));;; ret ([] : list arg)) (wrote m [])); [done|].
    rewrite Hsv, (proj2 (Z.eqb_neq _ _)), (proj2 (Z.ltb_lt _ _)) by lia. rewrite (numeral_do_digits 10 false (- v) ds 1) by (done || lia). cbn [rev]. rewrite rev_involutive.
    rewrite (emit_step m size ltac:(lia)) by (cbn; lia). by rewrite take_ge by (rewrite !length_app; cbn; lia). }
  rewrite (bind_step _ _ _ _ _ Ec). done.
Qed.

(** ** The ring of keystrokes *)

Definition ring_ok (s : stdio) : Prop := 0 <= g_buf_head s < 256 /\ 0 <= g_buf_tail s < 256 /\ length (g_input_buf s) = 256%nat.
Definition count (s : stdio) : Z := (g_buf_tail s - g_buf_head s) mod 256.
Definition queue (s : stdio) : list Z := (fun i => ring_at (g_input_buf s) ((g_buf_head s + i) mod 256)) <$> seqZ 0 (count s).

Lemma land_ff x : Z.land x 0xFF = x mod 256.
Proof. exact (Z.land_ones x 8 ltac:(lia)). Qed.
Lemma queue_length s : length (queue s) = Z.to_nat (count s).
Proof. unfold queue. by rewrite length_fmap, length_seqZ. Qed.
Lemma count_range s : 0 <= count s < 256.
Proof. unfold count. zdiv. Qed.
Lemma empty_iff s : ring_ok s -> (g_buf_head s =? g_buf_tail s) = bool_decide (queue s = []).
Proof.
  intros (Hh & Ht & _). pose proof (queue_length s) as Hl. pose proof (count_range s). destruct (Z.eqb_spec (g_buf_head s) (g_buf_tail s)) as [E|E]; symmetry.
  - apply bool_decide_eq_true_2, nil_length_inv. rewrite Hl. unfold count. rewrite E, Z.sub_diag. done.
  - apply bool_decide_eq_false_2. intros Hq. rewrite Hq in Hl. unfold count in *. cbn in Hl. zdiv.
Qed.
Lemma queue_pop s : ring_ok s -> queue s <> [] ->
  let s' := set_ring (Z.land (g_buf_head s + 1) 0xFF) (g_buf_tail s) (g_input_buf s) s in
  ring_ok s' /\ queue s = ring_at (g_input_buf s) (g_buf_head s) :: queue s'.
Proof.
  intros Hok Hne s'. pose proof Hok as (Hh & Ht & Hl). pose proof (empty_iff s Hok) as He. rewrite bool_decide_eq_false_2 in He by done. apply Z.eqb_neq in He.
  assert (Hc : count s = 1 + count s') by (unfold count, s'; cbn [set_ring g_buf_head g_buf_tail]; rewrite land_ff; zdiv). pose proof (count_range s'). split; [unfold ring_ok, s'; cbn [set_ring g_buf_head g_buf_tail g_input_buf]; rewrite land_ff; split_and!; try done; zdiv|].
  unfold queue. rewrite Hc, seqZ_cons by lia. replace (Z.pred (1 + count s')) with (count s') by lia. cbn [fmap list_fmap]. rewrite Z.add_0_r, Z.mod_small by lia. f_equal.
  change (Z.succ 0) with (1 + 0). rewrite <-(fmap_add_seqZ 1 0 (count s')), <-list_fmap_compose. apply list_fmap_ext. intros i x Hx. unfold s'. cbn [set_ring g_buf_head g_input_buf compose]. rewrite land_ff. f_equal. zdiv.
Qed.
Lemma queue_snoc s c : ring_ok s -> (Z.land (g_buf_tail s + 1) 0xFF =? g_buf_head s) = bool_decide (length (queue s) = 255%nat) /\
  (length (queue s) <> 255%nat -> let s' := set_ring (g_buf_head s) (Z.land (g_buf_tail s + 1) 0xFF) (<[Z.to_nat (g_buf_tail s) := c]> (g_input_buf s)) s in
   ring_ok s' /\ queue s' = queue s ++ [c]).
Proof.
  intros Hok. pose proof Hok as (Hh & Ht & Hl). rewrite queue_length, land_ff. pose proof (count_range s). split.
  - apply eq_true_iff_eq. rewrite Z.eqb_eq, bool_decide_eq_true. unfold count. zdiv.
  - intros Hn s'. assert (Hc : count s' = count s + 1) by (unfold count, s' in *; cbn [set_ring g_buf_head g_buf_tail]; zdiv).
    split; [unfold ring_ok, s'; cbn [set_ring g_buf_head g_buf_tail g_input_buf]; rewrite length_insert; split_and!; try done; zdiv|].
    unfold queue. rewrite Hc, seqZ_app, fmap_app by lia. unfold s'. cbn [set_ring g_buf_head g_input_buf]. f_equal.
    + apply list_fmap_ext. intros i x Hx. apply lookup_seqZ in Hx as [-> Hi]. unfold ring_at. rewrite list_lookup_insert_ne; [done|]. unfold count in *. zdiv.
    + change (seqZ (0 + count s) 1) with [0 + count s]. cbn [fmap list_fmap]. unfold ring_at. replace ((g_buf_head s + (0 + count s)) mod 256) with (g_buf_tail s) by (unfold count; zdiv). by rewrite list_lookup_insert_eq by lia.
Qed.
Lemma queue_unsnoc s : ring_ok s -> queue s <> [] ->
  let s' := set_ring (g_buf_head s) (Z.land (g_buf_tail s - 1) 0xFF) (g_input_buf s) s in ring_ok s' /\ exists c, queue s = queue s' ++ [c].
Proof.
  intros Hok Hne s'. pose proof Hok as (Hh & Ht & Hl). pose proof (empty_iff s Hok) as He. rewrite bool_decide_eq_false_2 in He by done. apply Z.eqb_neq in He.
  assert (Hc : count s = count s' + 1) by (unfold count, s'; cbn [set_ring g_buf_head g_buf_tail]; rewrite land_ff; zdiv). pose proof (count_range s').
  split; [unfold ring_ok, s'; cbn [set_ring g_buf_head g_buf_tail g_input_buf]; rewrite land_ff; split_and!; try done; zdiv|].
  eexists. unfold queue at 1. rewrite Hc, seqZ_app, fmap_app by lia. unfold queue, s'. cbn [set_ring g_buf_head g_input_buf]. f_equal.
Qed.

(** The ring implements a queue of at most 255 keys: a key goes behind the
    others (a carriage return as a newline), backspace takes back the last one,
    and a key is refused when the ring is full or nobody reads. *)
Lemma TryDeliverKey_spec c s : ring_ok s ->
  exists b s', TryDeliverKey c s = Some (b, s') /\ ring_ok s' /\ arrivals s' = arrivals s /\ g_input_active s' = g_input_active s /\
    if g_input_active s then
      if decide (c = 8 \/ c = 127) then b = true /\ queue s' = removelast (queue s)
      else if decide (length (queue s) = 255%nat) then b = false /\ s' = s
      else b = true /\ queue s' = queue s ++ [if c =? 13 then 10 else c]
    else b = false /\ s' = s.
Proof.
  intros Hok. unfold TryDeliverKey. rewrite !gets_step. destruct (g_input_active s) eqn:Ea; cbn [negb]; [|by exists false, s]. rewrite !gets_step.
  assert (Hbs : (c =? 8) || (c =? 127) = bool_decide (c = 8 \/ c = 127)) by (apply eq_true_iff_eq; rewrite orb_true_iff, !Z.eqb_eq, bool_decide_eq_true; done). rewrite Hbs, (empty_iff s Hok). clear Hbs.
  destruct (decide (c = 8 \/ c = 127)) as [Hc|Hc]; [rewrite (bool_decide_eq_true_2 _ Hc)|rewrite (bool_decide_eq_false_2 _ Hc); set (c' := if c =? 13 then 10 else c)].
  - case_bool_decide as Hq; [exists true, s; rewrite Hq; done|]. rewrite modify_step. destruct (queue_unsnoc s Hok Hq) as (Hok' & x & E). set (s1 := set_ring _ _ _ s) in *.
    assert (Hps : exists s', (puts [8; 32; 8];;; ret true) s1 = Some (true, s') /\ ring_ok s' /\ arrivals s' = arrivals s1 /\ g_input_active s' = g_input_active s1 /\ queue s' = queue s1).
    { unfold puts. rewrite modify_step. eexists. split; [done|]. by destruct (has_puts s1). }
    destruct Hps as (s' & E' & Hr & Har & Hac & Hqq). exists true, s'. split_and!; try done; [by rewrite Hac|]. rewrite Hqq, E, removelast_last. done.
  - destruct (queue_snoc s c' Hok) as [Hfull Hadd]. rewrite Hfull. destruct (decide (length (queue s) = 255%nat)) as [Hl|Hl]; [rewrite bool_decide_eq_true_2 by done; by exists false, s|]. rewrite bool_decide_eq_false_2 by done.
    rewrite modify_step. destruct (Hadd Hl) as [Hok' Hq]. set (s1 := set_ring _ _ _ s) in *.
    assert (Hpc : exists s', ((if ((32 <=? c') && (c' <=? 126)) || (c' =? 10) then putc c' else ret tt);;; ret true) s1 = Some (true, s') /\ ring_ok s' /\ arrivals s' = arrivals s1 /\ g_input_active s' = g_input_active s1 /\ queue s' = queue s1).
    { destruct (_ || _); [|by exists s1]. unfold putc. rewrite modify_step. eexists. split; [done|]. by destruct (has_putc s1). }
    destruct Hpc as (s' & E' & Hr & Har & Hac & Hqq). exists true, s'. split_and!; try done; [by rewrite Hac|]. by rewrite Hqq, Hq.
Qed.

(** ** Reading returns *)

Definition live (s : stdio) : Prop := ring_ok s /\ g_input_active s = true.
(** The keys in the ring and still to come. *)
Definition weight (s : stdio) : nat := length (queue s) + length (concat (arrivals s)).

Lemma deliver_live ks s : live s -> exists s', deliver ks s = Some (tt, s') /\ live s' /\ arrivals s' = arrivals s /\ (length (queue s') <= length (queue s) + length ks)%nat.
Proof.
  revert s. induction ks as [|c ks IH]; intros s [Hok Ha]; [exists s; split_and!; done || lia|]. destruct (TryDeliverKey_spec c s Hok) as (b & s1 & E & Hok1 & Har & Hac & Hq). rewrite Ha in Hq, Hac.
  destruct (IH s1 (conj Hok1 Hac)) as (s' & E' & Hl & Har' & Hle). exists s'. cbn [deliver]. rewrite (bind_step _ _ _ _ _ E). split_and!; [done|done|by rewrite Har'|]. cbn [length].
  assert (length (queue s1) <= length (queue s) + 1)%nat; [|lia]. repeat case_decide; destruct Hq as [_ Hq]; rewrite Hq, ?length_app; [|lia|cbn; lia].
  destruct (queue s) as [|x q] using rev_ind; [cbn; lia|]. rewrite removelast_last, length_app. lia.
Qed.
Lemma arrive_live s : live s -> exists s', arrive s = Some (tt, s') /\ live s' /\ (weight s' <= weight s)%nat /\ (queue s <> [] -> queue s' = [] -> (weight s' < weight s)%nat).
Proof.
  intros Hl. unfold arrive. rewrite gets_step. destruct (arrivals s) as [|ks l] eqn:E; [exists s; split_and!; done || lia|]. rewrite modify_step. destruct (deliver_live ks (set_arrivals l s)) as (s' & E' & Hl' & Har & Hle); [done|].
  change (queue (set_arrivals l s)) with (queue s) in Hle. exists s'. unfold weight. rewrite Har, E. cbn [set_arrivals arrivals concat]. rewrite length_app. split_and!; try done; [lia|].
  intros Hne He. rewrite He. destruct (queue s); [done|]. cbn [length]. lia.
Qed.
Lemma ring_read {B} (k : Z -> Z -> list Z -> ST stdio B) s :
  (let! h := gets g_buf_head in let! t := gets g_buf_tail in let! b := gets g_input_buf in k h t b) s = k (g_buf_head s) (g_buf_tail s) (g_input_buf s) s.
Proof. done. Qed.
Lemma pop_front_ok s c q : ring_ok s -> queue s = c :: q -> exists h, pop_front s = Some (c, set_ring h (g_buf_tail s) (g_input_buf s) s) /\ ring_ok (set_ring h (g_buf_tail s) (g_input_buf s) s) /\ queue (set_ring h (g_buf_tail s) (g_input_buf s) s) = q.
Proof.
  intros Hok Hq. destruct (queue_pop s Hok ltac:(by rewrite Hq)) as [Hok' E]. rewrite Hq in E. injection E as Ec Eq. eexists. split; [|split; [exact Hok'|by rewrite <-Eq]]. unfold pop_front. rewrite ring_read, modify_step. by rewrite Ec.
Qed.
Lemma peekch_live s : live s -> exists s', peekch s = Some (default (-1) (head (queue s')), s') /\ live s' /\ (weight s' <= weight s)%nat.
Proof.
  intros Hl. destruct (arrive_live s Hl) as (s' & E & Hl' & Hw & _). exists s'. split_and!; [|done|done]. unfold peekch. rewrite (bind_step _ _ _ _ _ E), ring_read. destruct Hl' as [Hok _].
  rewrite (empty_iff s' Hok). case_bool_decide as Hq; [by rewrite Hq|]. destruct (queue_pop s' Hok Hq) as [_ E']. by rewrite E'.
Qed.
Lemma popch_live s : live s -> queue s <> [] -> exists c s', popch s = Some (c, s') /\ live s' /\ (weight s' < weight s)%nat.
Proof.
  intros Hl Hne. destruct (arrive_live s Hl) as (s1 & E & Hl1 & Hw & Hw'). unfold popch. rewrite (bind_step _ _ _ _ _ E), !gets_step, (empty_iff s1) by apply Hl1.
  case_bool_decide as Hq; [exists (-1), s1; split_and!; try done; by apply Hw'|]. destruct (queue s1) as [|c q] eqn:Eq; [done|]. destruct Hl1 as [Hok1 Ha1]. destruct (pop_front_ok s1 c q Hok1 Eq) as (h & E' & Hok' & Hq').
  exists c. eexists. split; [exact E'|]. split; [done|]. revert Hw. unfold weight. rewrite Hq', Eq. cbn [set_ring arrivals length]. lia.
Qed.
Lemma scan_loop_live {A} (body : A -> Z -> option (option A)) (P : A -> Prop) : (forall a c, P a -> body a c = None \/ exists a', body a c = Some (Some a') /\ P a') ->
  forall n acc s, P acc -> live s -> (weight s < n)%nat -> exists acc' s', scan_loop n body acc s = Some (acc', s') /\ P acc' /\ live s' /\ (weight s' <= weight s)%nat.
Proof.
  intros Hb. induction n as [|n IH]; intros acc s HP Hl Hn; [lia|]. cbn [scan_loop]. destruct (peekch_live s Hl) as (s1 & E & Hl1 & Hw1). rewrite (bind_step _ _ _ _ _ E).
  destruct (Z.eqb_spec (default (-1) (head (queue s1))) (-1)) as [Ec|Ec]; [by exists acc, s1|]. destruct (Hb acc (default (-1) (head (queue s1))) HP) as [-> | (a' & -> & HP')]; [by exists acc, s1|].
  destruct (popch_live s1 Hl1) as (c & s2 & E2 & Hl2 & Hw2); [by intros Hq; rewrite Hq in Ec|]. rewrite (bind_step _ _ _ _ _ E2).
  destruct (IH a' s2 HP' Hl2 ltac:(lia)) as (acc' & s' & E' & HP'' & Hl' & Hw'). exists acc', s'. split_and!; try done. lia.
Qed.
Lemma fuel_enough s : (weight s < scan_fuel s)%nat.
Proof. unfold weight, scan_fuel. pose proof (count_range s). rewrite queue_length. lia. Qed.
Lemma scan_loop_returns {A B} (body : A -> Z -> option (option A)) (P : A -> Prop) acc s (k : A -> ST stdio B) : (forall a c, P a -> body a c = None \/ exists a', body a c = Some (Some a') /\ P a') -> P acc -> live s ->
  exists acc' s', (let! n := gets scan_fuel in bind (scan_loop n body acc) k) s = k acc' s' /\ P acc' /\ live s'.
Proof.
  intros Hb HP Hl. destruct (scan_loop_live body P Hb (scan_fuel s) acc s HP Hl (fuel_enough s)) as (acc' & s' & E & HP' & Hl' & _). exists acc', s'. rewrite gets_step. by rewrite (bind_step _ _ _ _ _ E).
Qed.
Lemma skip_ws_live {B} s (k : unit -> ST stdio B) : live s -> exists s', bind skip_ws k s = k tt s' /\ live s'.
Proof.
  intros Hl. destruct (scan_loop_returns (fun _ c => if is_space c then Some (Some tt) else None) (fun _ : unit => True) tt s k) as ([] & s' & E & _ & Hl'); [|done|done|exists s'; split; [exact E|done]].
  intros a c _. destruct (is_space c); eauto.
Qed.

Lemma plain_step {A} (b : bool) (a' : A) : (if b then Some (Some a') else None) = None \/ exists a'', (if b then Some (Some a') else None) = Some (Some a'') /\ True.
Proof. destruct b; eauto. Qed.
Lemma scan_number_live {B} s (body : Z * bool -> Z -> option (option (Z * bool))) (k : Z * bool -> ST stdio B) : (forall a c, body a c = None \/ exists a', body a c = Some (Some a') /\ True) -> live s ->
  exists acc s', (let! n := gets scan_fuel in bind (scan_loop n body (0, false)) k) s = k acc s' /\ live s'.
Proof. intros Hb Hl. destruct (scan_loop_returns body (fun _ => True) (0, false) s k) as (acc & s' & E & _ & Hl'); eauto. Qed.
Lemma scan_uint_live s : live s -> exists r s', scan_uint s = Some (r, s') /\ live s'.
Proof.
  intros Hl. unfold scan_uint. destruct (skip_ws_live s (fun _ => let! n := gets scan_fuel in let! '(val, any) := scan_loop n uint_step (0, false) in ret (if any : bool then Some val else None)) Hl) as (s1 & -> & Hl1).
  destruct (scan_number_live s1 uint_step (fun '(val, any) => ret (if any : bool then Some val else None))) as ([v any] & s' & -> & Hl'); [intros a c; apply plain_step|done|]. by eexists _, s'.
Qed.
Lemma scan_hex_live s : live s -> exists r s', scan_hex s = Some (r, s') /\ live s'.
Proof.
  intros Hl. unfold scan_hex. match goal with |- context [skip_ws;;; ?k] => destruct (skip_ws_live s (fun _ => k) Hl) as (s1 & -> & Hl1) end. destruct (peekch_live s1 Hl1) as (s2 & E2 & Hl2 & _). rewrite (bind_step _ _ _ _ _ E2).
  assert (Hz : exists (zero : bool) s3, (if default (-1) (head (queue s2)) =? ch "0" then popch;;; let! c2 := peekch in if (c2 =? ch "x") || (c2 =? ch "X") then popch;;; ret false else ret true else ret false) s2 = Some (zero, s3) /\ live s3).
  { destruct (Z.eqb_spec (default (-1) (head (queue s2))) (ch "0")) as [Hc|Hc]; [|by exists false, s2]. assert (Hne : queue s2 <> []) by (intros Hq; by rewrite Hq in Hc). destruct (popch_live s2 Hl2 Hne) as (c & s3 & E3 & Hl3 & _). rewrite (bind_step _ _ _ _ _ E3).
    destruct (peekch_live s3 Hl3) as (s4 & E4 & Hl4 & _). rewrite (bind_step _ _ _ _ _ E4). destruct ((_ =? ch "x") || (_ =? ch "X")) eqn:Ex; [|by exists true, s4].
    destruct (popch_live s4 Hl4) as (c' & s5 & E5 & Hl5 & _); [intros Hq; rewrite Hq in Ex; discriminate Ex|]. rewrite (bind_step _ _ _ _ _ E5). by exists false, s5. }
  destruct Hz as (zero & s3 & E3 & Hl3). rewrite (bind_step _ _ _ _ _ E3). destruct zero; [by eexists _, s3|].
  destruct (scan_number_live s3 hex_step (fun '(val, any) => ret (if any : bool then Some val else None))) as ([v any] & s' & -> & Hl'); [intros a c; apply plain_step|done|]. by eexists _, s'.
Qed.
Lemma scan_str_live present maxLen s : live s -> exists r s', scan_str present maxLen s = Some (r, s') /\ live s'.
Proof.
  intros Hl. unfold scan_str. destruct (_ || _); [by eexists _, s|]. match goal with |- context [skip_ws;;; ?k] => destruct (skip_ws_live s (fun _ => k) Hl) as (s1 & -> & Hl1) end.
  destruct (scan_loop_returns (str_step maxLen) (fun _ => True) [] s1 (fun dst => ret (Some (dst ++ [0]), negb (bool_decide (dst = []))))) as (dst & s' & E & _ & Hl'); [|done|done|].
  { intros a c _. unfold str_step. destruct (is_space c); eauto. }
  rewrite E. by eexists _, s'.
Qed.

(** The conversions that take what is there, and white space between them. *)
Definition reads : list Z := ch <$> ["u"; "x"; "X"; "s"]%char.
Definition directive (p : piece) : Prop :=
  match p with Lit c => c ∈ [32; 9; 10] | Conv padZero width spec => padZero = false /\ width = [] /\ spec ∈ reads end.
Fixpoint conversions (ps : list piece) : nat :=
  match ps with [] => 0 | Lit _ :: ps' => conversions ps' | Conv _ _ _ :: ps' => S (conversions ps') end.

Lemma scan_conversion_live spec p ap s : spec ∈ reads -> live s ->
  exists w counts go s', scan_conversion spec (p :: ap) s = Some (w, counts, go, ap, s') /\ live s'.
Proof.
  intros Hs Hl. assert (Hnum : forall m : ST stdio (option Z), (exists r s', m s = Some (r, s') /\ live s') -> exists w counts go s',
    (let! r := m in ret (match r with Some v => (store_if p (SInt v), true, true, ap) | None => ([], false, false, ap) end)) s = Some (w, counts, go, ap, s') /\ live s').
  { intros m (r & s' & E & Hl'). rewrite (bind_step _ _ _ _ _ E). destruct r; by eexists _, _, _, s'. }
  unfold reads in Hs. cbn [fmap list_fmap] in Hs. rewrite !elem_of_cons in Hs. destruct Hs as [-> | [-> | [-> | [-> | Hs]]]]; [..|by apply elem_of_nil in Hs].
  - by apply (Hnum scan_uint), scan_uint_live.
  - by apply (Hnum scan_hex), scan_hex_live.
  - by apply (Hnum scan_hex), scan_hex_live.
  - destruct (scan_str_live p 128 s Hl) as ([dst any] & s' & E & Hl'). eexists _, any, any, s'. split; [|done].
    transitivity ((let! '(dst, any) := scan_str p 128 in ret (match dst with Some l => [SStr l] | None => [] end, any, any, ap)) s); [done|]. by rewrite (bind_step _ _ _ _ _ E).
Qed.
Lemma scanf_loop_live ps rest : Forall directive ps -> forall n ap r st s, (length (encode ps) < n)%nat -> (conversions ps <= length ap)%nat -> live s ->
  exists r' st' s', scanf_loop n (encode ps ++ 0 :: rest) ap r st s = Some (r', st', s') /\ r <= r' <= r + Z.of_nat (conversions ps) /\ live s'.
Proof.
  induction 1 as [|p ps Hp Hps IH]; intros n ap r st s Hn Hap Hl; (destruct n as [|n]; [lia|]); [exists r, st, s; split_and!; cbn; done || lia|].
  destruct p as [c|pz w spec]; cbn [conversions] in *.
  - change (encode (Lit c :: ps)) with (c :: encode ps) in *. cbn [length app scanf_loop] in *. assert (Hc : (c =? 0) = false /\ (c =? 32) || (c =? 9) || (c =? 10) = true) by (cbn in Hp; rewrite !elem_of_cons in Hp; destruct Hp as [-> | [-> | [-> | Hp]]]; [done..|by apply elem_of_nil in Hp]).
    destruct Hc as [-> ->]. destruct (skip_ws_live s (fun _ => scanf_loop n (encode ps ++ 0 :: rest) ap r st) Hl) as (s1 & -> & Hl1). apply IH; done || lia.
  - destruct Hp as (-> & -> & Hs). change (encode (Conv false [] spec :: ps)) with (ch "%" :: spec :: encode ps) in *. cbn [length app] in *. destruct ap as [|p ap]; [cbn in Hap; lia|]. cbn [length] in Hap.
    destruct (scan_conversion_live spec p ap s Hs Hl) as (w & counts & go & s1 & E & Hl1). cbn [scanf_loop]. change (ch "%" =? 0) with false. change ((ch "%" =? 32) || (ch "%" =? 9) || (ch "%" =? 10)) with false.
    rewrite Z.eqb_refl. cbn [negb]. assert (Hs0 : (spec =? 0) = false) by (apply Z.eqb_neq; intros ->; vm_compute in Hs; set_solver). rewrite Hs0, (bind_step _ _ _ _ _ E).
    destruct go; [|by destruct counts; eexists _, _, s1; split_and!; done || lia].
    destruct (IH n ap (if counts then r + 1 else r) (st ++ w) s1 ltac:(lia) ltac:(lia) Hl1) as (r' & st' & s' & E' & Hr' & Hl'). exists r', st', s'. split_and!; try done; destruct counts; lia.
Qed.

(** Whatever keys arrive and whenever they do, [scanf] with numbers and
    strings returns: it counts at most one assignment for each conversion, and
    leaves the ring well-formed and closed. *)
Theorem scanf_returns ps ap rest s : Forall directive ps -> (conversions ps <= length ap)%nat -> length (g_input_buf s) = 256%nat ->
  exists r st s', scanf (Some (encode ps ++ 0 :: rest)) ap s = Some (r, st, s') /\ 0 <= r <= Z.of_nat (conversions ps) /\ g_input_active s' = false /\ ring_ok s'.
Proof.
  intros Hps Hap Hb. unfold scanf. rewrite gets_step, !modify_step. set (s0 := set_active true _). assert (Hl : live s0) by (unfold live, ring_ok; cbn; split_and!; done || lia).
  destruct (scanf_loop_live ps rest Hps (length (encode ps ++ 0 :: rest)) ap 0 [] s0) as (r & st & s' & E & Hr & Hl'); [rewrite length_app; cbn; lia|done|done|].
  exists r, st, (set_active false s'). rewrite (bind_step _ _ _ _ _ E). split_and!; try done; try lia. apply Hl'.
Qed.

(** ** Reading back what was printed *)

Lemma numeral_exists base upper v : 2 <= base -> 0 <= v -> exists ds, numeral base upper v ds.
Proof.
  intros Hb Hv. assert (Hx : exists vs, Forall (fun d => 0 <= d < base) vs /\ value base vs = v /\ (vs = [0] \/ (vs <> [] /\ head vs <> Some 0))).
  { pose proof Hv as Hv'. revert v Hv Hv'. refine (Z_lt_induction _ _). intros v IH Hv. destruct (Z.ltb_spec v base).
    - exists [v]. split_and!; [by apply Forall_singleton|cbn; lia|]. destruct (decide (v = 0)) as [->|]; [by left|right; split; [done|cbn; congruence]].
    - destruct (IH (v / base)) as (vs & H1 & H2 & H3); [split; [apply Z.div_pos; lia|apply Z.div_lt; lia]|apply Z.div_pos; lia|]. exists (vs ++ [v mod base]). split_and!.
      + apply Forall_app. split; [done|]. apply Forall_singleton, Z.mod_pos_bound. lia.
      + rewrite value_snoc, H2. pose proof (Z.div_mod v base). lia.
      + right. assert (1 <= v / base) by (apply Z.div_le_lower_bound; lia). destruct H3 as [->|[Hne Hh]]; [cbn in H2; lia|]. destruct vs; [done|]. done. }
  destruct Hx as (vs & ? & ? & ?). by exists (digs upper <$> vs), vs.
Qed.
Definition plain (c : Z) : Prop := 32 < c /\ c <> 127.
Lemma digs_plain upper d : 0 <= d < 16 -> plain (digs upper d) /\ is_space (digs upper d) = false.
Proof.
  intros Hd. unfold plain, is_space, digs. destruct upper; repeat case_zb; split; lia || done.
Qed.

Definition quiet (s : stdio) : Prop := live s /\ arrivals s = [].
Lemma arrive_quiet s : quiet s -> arrive s = Some (tt, s).
Proof. intros [_ E]. unfold arrive. rewrite gets_step, E. done. Qed.
Lemma deliver_text t s : live s -> Forall plain t -> (length (queue s) + length t <= 255)%nat -> exists s', deliver t s = Some (tt, s') /\ live s' /\ arrivals s' = arrivals s /\ queue s' = queue s ++ t.
Proof.
  intros Hl Ht. revert s Hl. induction Ht as [|c t [Hc Hc'] Ht IH]; intros s [Hok Ha] Hn; [exists s; by rewrite app_nil_r|]. cbn [length] in Hn.
  destruct (TryDeliverKey_spec c s Hok) as (b & s1 & E & Hok1 & Har & Hac & Hq). rewrite Ha in Hq, Hac. rewrite !decide_False in Hq by lia. rewrite (proj2 (Z.eqb_neq c 13)) in Hq by lia. destruct Hq as [_ Hq].
  destruct (IH s1 (conj Hok1 Hac)) as (s' & E' & Hl' & Har' & Hq'); [rewrite Hq, length_app; cbn; lia|]. exists s'. cbn [deliver]. rewrite (bind_step _ _ _ _ _ E). split_and!; [done|done|by rewrite Har'|]. by rewrite Hq', Hq, <-app_assoc.
Qed.
Lemma arrive_text t s : live s -> queue s = [] -> arrivals s = [t] -> Forall plain t -> (length t <= 255)%nat -> exists s', arrive s = Some (tt, s') /\ quiet s' /\ queue s' = t.
Proof.
  intros Hl Hq Ea Ht Hn. unfold arrive. rewrite gets_step, Ea, modify_step. destruct (deliver_text t (set_arrivals [] s) Hl Ht) as (s' & E & Hl' & Har & Hq').
  - change (queue (set_arrivals [] s)) with (queue s). rewrite Hq. cbn. lia.
  - exists s'. split_and!; [done|by split|]. rewrite Hq'. change (queue (set_arrivals [] s)) with (queue s). by rewrite Hq.
Qed.
Lemma peekch_quiet s : quiet s -> peekch s = Some (default (-1) (head (queue s)), s).
Proof.
  intros Hs. pose proof Hs as [[Hok _] _]. unfold peekch. rewrite (bind_step _ _ _ _ _ (arrive_quiet s Hs)), ring_read, (empty_iff s Hok).
  case_bool_decide as Hq; [by rewrite Hq|]. destruct (queue_pop s Hok Hq) as [_ E]. by rewrite E.
Qed.
Lemma popch_quiet s c q : quiet s -> queue s = c :: q -> exists s', popch s = Some (c, s') /\ quiet s' /\ queue s' = q.
Proof.
  intros Hs Hq. pose proof Hs as [[Hok Ha] Har]. unfold popch. rewrite (bind_step _ _ _ _ _ (arrive_quiet s Hs)), !gets_step, (empty_iff s Hok), Hq. destruct (pop_front_ok s c q Hok Hq) as (h & E & Hok' & Hq'). eexists. split; [exact E|]. done.
Qed.
(** What a loop makes of all the characters of [xs]. *)
Fixpoint run {A} (body : A -> Z -> option (option A)) (acc : A) (xs : list Z) : option A :=
  match xs with [] => Some acc | c :: xs' => match body acc c with Some (Some a) => run body a xs' | _ => None end end.
Lemma scan_loop_quiet {A} (body : A -> Z -> option (option A)) xs rest : Forall (fun c => c <> -1) xs -> forall acc acc' n s, quiet s -> queue s = xs ++ rest -> run body acc xs = Some acc' ->
  (forall c, head rest = Some c -> body acc' c = None) -> (length xs < n)%nat -> exists s', scan_loop n body acc s = Some (acc', s') /\ quiet s' /\ queue s' = rest.
Proof.
  intros Hx. induction Hx as [|c xs Hc Hx IH]; intros acc acc' n s Hs Hq Hr Hstop Hn; (destruct n as [|n]; [lia|]); cbn [scan_loop]; rewrite (bind_step _ _ _ _ _ (peekch_quiet s Hs)), Hq.
  - injection Hr as ->. exists s. split; [|done]. cbn [app]. destruct rest as [|c rest]; [done|]. cbn [head default]. unfold id. destruct (c =? -1); [done|]. by rewrite (Hstop c eq_refl).
  - cbn in Hr. cbn [app head default]. unfold id. rewrite (proj2 (Z.eqb_neq c (-1))) by done. destruct (body acc c) as [[a|]|]; [|done..]. destruct (popch_quiet s c (xs ++ rest) Hs Hq) as (s1 & E1 & Hs1 & Hq1). rewrite (bind_step _ _ _ _ _ E1).
    apply (IH a acc' n s1); try done. cbn in Hn. lia.
Qed.
Lemma scan_rest_quiet {A B} (body : A -> Z -> option (option A)) acc acc' xs rest s (k : A -> ST stdio B) : quiet s -> queue s = xs ++ rest -> Forall (fun c => c <> -1) xs -> run body acc xs = Some acc' ->
  (forall c, head rest = Some c -> body acc' c = None) -> exists s', (let! n := gets scan_fuel in bind (scan_loop n body acc) k) s = k acc' s' /\ quiet s' /\ queue s' = rest.
Proof.
  intros Hs Hq Hx Hr Hstop. rewrite gets_step. destruct (scan_loop_quiet body xs rest Hx acc acc' (scan_fuel s) s Hs Hq Hr Hstop) as (s' & E & Hs'); [|exists s'; by rewrite (bind_step _ _ _ _ _ E)].
  pose proof (fuel_enough s) as Hf. unfold weight in Hf. rewrite Hq, length_app in Hf. lia.
Qed.
(** Blanks in the ring are skipped. *)
Lemma skip_ws_quiet {B} w q s (k : unit -> ST stdio B) : quiet s -> queue s = w ++ q -> Forall (fun c => is_space c = true) w -> (forall c, head q = Some c -> is_space c = false) ->
  exists s', bind skip_ws k s = k tt s' /\ quiet s' /\ queue s' = q.
Proof.
  intros Hs Hq Hw Hh. unfold skip_ws. rewrite bind_assoc. apply (scan_rest_quiet (fun _ c => if is_space c then Some (Some tt) else None) tt tt w q s k Hs Hq).
  - eapply Forall_impl; [exact Hw|]. by intros c Hc ->.
  - clear -Hw. induction Hw as [|c w Hc _ IH]; [done|]. cbn. by rewrite Hc.
  - intros c Hc. by rewrite (Hh c Hc).
Qed.
(** The first look at the ring finds the text typed meanwhile. *)
Lemma skip_ws_text {B} t s (k : unit -> ST stdio B) : live s -> queue s = [] -> arrivals s = [t] -> Forall plain t -> (length t <= 255)%nat -> t <> [] -> is_space (default 0 (head t)) = false ->
  exists s', bind skip_ws k s = k tt s' /\ quiet s' /\ queue s' = t.
Proof.
  intros Hl Hq Ea Ht Hn Hne Hsp. destruct (arrive_text t s Hl Hq Ea Ht Hn) as (s' & E & Hs' & Hq'). exists s'. split; [|done]. unfold skip_ws. rewrite bind_assoc, gets_step. change (scan_fuel s) with (S (256 + length (concat (arrivals s)))).
  cbn [scan_loop]. rewrite bind_assoc. assert (Ep : peekch s = Some (default (-1) (head (queue s')), s')) by (rewrite <-(peekch_quiet s' Hs'); unfold peekch; by rewrite (bind_step _ _ _ _ _ E), (bind_step _ _ _ _ _ (arrive_quiet s' Hs'))).
  rewrite (bind_step _ _ _ _ _ Ep), Hq'. destruct t as [|c t]; [done|]. cbn [head] in *. change (default (-1) (Some c)) with c. change (default 0 (Some c)) with c in Hsp. apply Forall_cons in Ht as [[Hc _] _]. rewrite (proj2 (Z.eqb_neq c (-1))) by lia. by rewrite Hsp.
Qed.

Lemma run_value (step : Z * bool -> Z -> option (option (Z * bool))) base upper vs : 2 <= base ->
  (forall a b d, 0 <= a -> 0 <= d < base -> a * base + d < 2 ^ 32 -> step (a, b) (digs upper d) = Some (Some (a * base + d, true))) ->
  Forall (fun d => 0 <= d < base) vs -> forall a b, 0 <= a -> foldl (fun a d => a * base + d) a vs < 2 ^ 32 ->
  a <= foldl (fun a d => a * base + d) a vs /\ run step (a, b) (digs upper <$> vs) = Some (foldl (fun a d => a * base + d) a vs, b || negb (bool_decide (vs = []))).
Proof.
  intros Hb Hstep Hvs. induction Hvs as [|d vs Hd Hvs IH]; intros a b Ha Hlt; cbn [foldl fmap list_fmap run] in *; [split; [lia|by rewrite orb_false_r]|].
  destruct (IH (a * base + d) true ltac:(nia) Hlt) as [Hle E]. rewrite Hstep by (done || lia). split; [nia|]. rewrite E. by rewrite orb_true_r.
Qed.
Lemma uint_step_ok a b d : 0 <= a -> 0 <= d < 10 -> a * 10 + d < 2 ^ 32 -> uint_step (a, b) (digs false d) = Some (Some (a * 10 + d, true)).
Proof.
  intros Ha Hd Hlt. unfold uint_step, digs, is_digit. change (ch "0") with 48. change (ch "9") with 57. rewrite (proj2 (Z.ltb_lt d 10)) by lia. rewrite (proj2 (Z.leb_le _ _)), (proj2 (Z.leb_le _ _)) by lia. cbn [andb fst].
  rewrite u32_small by lia. repeat f_equal. lia.
Qed.
Lemma hex_step_ok upper a b d : 0 <= a -> 0 <= d < 16 -> a * 16 + d < 2 ^ 32 -> hex_step (a, b) (digs upper d) = Some (Some (a * 16 + d, true)).
Proof.
  intros Ha Hd Hlt. assert (Hh : hexval (digs upper d) = d).
  { unfold hexval, digs. change (ch "0") with 48. change (ch "9") with 57. change (ch "a") with 97. change (ch "f") with 102. change (ch "A") with 65. change (ch "F") with 70.
    destruct upper; repeat case_zb; cbn [andb]; lia. }
  unfold hex_step. rewrite Hh, (proj2 (Z.eqb_neq d 0xFF)) by lia. cbn [negb fst]. rewrite u32_small by (rewrite Z.shiftl_mul_pow2; lia). rewrite shift_or by lia. done.
Qed.

Lemma space_stops c : is_space c = true -> hexval c = 0xFF /\ is_digit c = false.
Proof.
  unfold is_space. intros Hc. assert (c = 32 \/ c = 9 \/ c = 10 \/ c = 13 \/ c = 11 \/ c = 12) as [->|[->|[->|[->|[->| ->]]]]]; [|done..].
  repeat (apply orb_true_iff in Hc as [Hc|Hc]; [|apply Z.eqb_eq in Hc; auto 6]). apply Z.eqb_eq in Hc. auto.
Qed.

Definition reading (spec base : Z) (upper : bool) : Prop :=
  (spec, base, upper) = (ch "u", 10, false) \/ (spec, base, upper) = (ch "x", 16, false) \/ (spec, base, upper) = (ch "X", 16, true).

Section Readback.
Context (base : Z) (upper : bool) (v : Z) (t : list Z).
Hypotheses (Hbase : 10 <= base <= 16) (Hv : 0 <= v < 2 ^ 32) (Ht : numeral base upper v t).

Lemma text_plain : Forall plain t /\ t <> [] /\ is_space (default 0 (head t)) = false /\ (length t <= 255)%nat.
Proof.
  destruct Ht as (vs & -> & Hvs & Ev & Hz). assert (Hne : vs <> []) by (destruct Hz as [->|[]]; done). split_and!.
  - apply Forall_fmap. eapply Forall_impl; [exact Hvs|]. intros d Hd. cbn in Hd |- *. apply (digs_plain upper d). lia.
  - by destruct vs.
  - destruct vs as [|d vs]; [done|]. apply Forall_cons in Hvs as [Hd _]. apply (digs_plain upper d). lia.
  - rewrite length_fmap. destruct Hz as [->|[_ Hh]]; [cbn; lia|]. assert (length vs <= 10)%nat; [|lia]. apply (value_length base); try done; [lia|]. rewrite Ev. apply Z.lt_le_trans with (10 ^ 10); [lia|]. apply Z.pow_le_mono_l. lia.
Qed.
Lemma run_text step : (forall a b d, 0 <= a -> 0 <= d < base -> a * base + d < 2 ^ 32 -> step (a, b) (digs upper d) = Some (Some (a * base + d, true))) -> run step (0, false) t = Some (v, true).
Proof.
  intros Hstep. destruct text_plain as (_ & Hne & _). destruct Ht as (vs & -> & Hvs & Ev & _). destruct (run_value step base upper vs ltac:(lia) Hstep Hvs 0 false ltac:(lia)) as [_ E]; [unfold value in Ev; lia|].
  rewrite E. unfold value in Ev. rewrite Ev. rewrite bool_decide_eq_false_2; [done|]. by destruct vs.
Qed.
Context (s : stdio) (rest : list Z).
Hypotheses (Hskip : forall B (k : unit -> ST stdio B), exists s1, bind skip_ws k s = k tt s1 /\ quiet s1 /\ queue s1 = t ++ rest) (Hrest : forall c, head rest = Some c -> is_space c = true).
Lemma text_chars : Forall (fun c => c <> -1) t.
Proof. destruct text_plain as (Hp & _). eapply Forall_impl; [exact Hp|]. intros c [Hc _]. cbn. lia. Qed.
Lemma scan_uint_text : base = 10 -> upper = false -> exists s', scan_uint s = Some (Some v, s') /\ quiet s' /\ queue s' = rest.
Proof.
  intros E1 E2. unfold scan_uint. match goal with |- context [skip_ws;;; ?k] => destruct (Hskip _ (fun _ => k)) as (s1 & -> & Hs1 & Hq1) end.
  destruct (scan_rest_quiet uint_step (0, false) (v, true) t rest s1 (fun '(val, any) => ret (if any : bool then Some val else None)) Hs1 Hq1 text_chars) as (s' & -> & Hs'); [| |by exists s'].
  - apply run_text. rewrite E1, E2. apply uint_step_ok.
  - intros c Hc. unfold uint_step. by rewrite (proj2 (space_stops c (Hrest c Hc))).
Qed.
Lemma scan_hex_text : base = 16 -> exists s', scan_hex s = Some (Some v, s') /\ quiet s' /\ queue s' = rest.
Proof.
  intros E1. destruct text_plain as (_ & Hne & _). unfold scan_hex. match goal with |- context [skip_ws;;; ?k] => destruct (Hskip _ (fun _ => k)) as (s1 & -> & Hs1 & Hq1) end.
  rewrite (bind_step _ _ _ _ _ (peekch_quiet s1 Hs1)), Hq1. replace (head (t ++ rest)) with (head t) by (by destruct t). destruct (Z.eqb_spec (default (-1) (head t)) (ch "0")) as [Ez|Ez].
  - assert (Et : t = [ch "0"] /\ v = 0).
    { destruct Ht as (vs & -> & Hvs & <- & [->|[Hn0 Hh]]); [done|]. exfalso. destruct vs as [|d vs]; [done|]. apply Forall_cons in Hvs as [Hd _]. cbn in Ez, Hh. unfold id, digs in Ez. change (ch "0") with 48 in Ez.
      assert (d <> 0) by congruence. destruct upper; revert Ez; repeat case_zb; lia. }
    destruct Et as [Et ->]. rewrite Et in Hq1. destruct (popch_quiet s1 _ _ Hs1 Hq1) as (s2 & E2 & Hs2 & Hq2). cbn [app] in Hq2. rewrite bind_assoc, (bind_step _ _ _ _ _ E2), bind_assoc, (bind_step _ _ _ _ _ (peekch_quiet s2 Hs2)), Hq2.
    exists s2. split; [|done]. destruct rest as [|c rest']; [done|]. specialize (Hrest c eq_refl). cbn [head default]. unfold id. change (ch "x") with 120. change (ch "X") with 88. destruct (Z.eqb_spec c 120) as [->|]; [done|]. destruct (Z.eqb_spec c 88) as [->|]; done.
  - rewrite ret_step. destruct (scan_rest_quiet hex_step (0, false) (v, true) t rest s1 (fun '(val, any) => ret (if any : bool then Some val else None)) Hs1 Hq1 text_chars) as (s' & -> & Hs'); [| |by exists s'].
    + apply run_text. rewrite E1. apply hex_step_ok.
    + intros c Hc. unfold hex_step. by rewrite (proj1 (space_stops c (Hrest c Hc))).
Qed.
End Readback.

(** The conversion of [scanf] that reads numbers. *)
Lemma number_conversion spec base upper v s s' : reading spec base upper -> (if spec =? ch "u" then scan_uint else scan_hex) s = Some (Some v, s') ->
  scan_conversion spec [true] s = Some ([SInt v], true, true, [], s').
Proof.
  intros Hr E. transitivity ((let! r := (if spec =? ch "u" then scan_uint else scan_hex) in ret (match r with Some w => (store_if true (SInt w), true, true, [] : list bool) | None => ([], false, false, []) end)) s); [by destruct Hr as [[= -> _ _]|[[= -> _ _]|[= -> _ _]]]|].
  by rewrite (bind_step _ _ _ _ _ E).
Qed.
Lemma number_scan spec base upper v t rest s : reading spec base upper -> 0 <= v < 2 ^ 32 -> numeral base upper v t ->
  (forall B (k : unit -> ST stdio B), exists s1, bind skip_ws k s = k tt s1 /\ quiet s1 /\ queue s1 = t ++ rest) -> (forall c, head rest = Some c -> is_space c = true) ->
  exists s', (if spec =? ch "u" then scan_uint else scan_hex) s = Some (Some v, s') /\ quiet s' /\ queue s' = rest.
Proof.
  intros Hr Hv Ht Hskip Hrest. assert (Hb : 10 <= base <= 16) by (destruct Hr as [[= -> -> ->]|[[= -> -> ->]|[= -> -> ->]]]; lia).
  destruct Hr as [[= -> E2 E3]|[[= -> E2 E3]|[= -> E2 E3]]]; [by apply (scan_uint_text base upper v t Hb Hv Ht s rest)|by apply (scan_hex_text base upper v t Hb Hv Ht s rest)..].
Qed.

(** C23: What [printf] prints for an unsigned number, in decimal or in hexadecimal,
    the same conversion of [scanf] reads back as that number: when the text is
    in the ring of keys, behind any blanks and before a blank or the end, and
    no key arrives meanwhile, the conversion takes the blanks and the text off
    the ring, stores the number and leaves the rest.  [scanf] itself empties
    the ring first and does not wait for keys ([scanf_no_wait]): a call
    returns the number if the text is typed before it first looks at the
    ring. *)
Theorem print_scan spec base upper v s : reading spec base upper -> 0 <= v < 2 ^ 32 -> has_putc s = true -> has_puts s = true ->
  exists t, vprintf (Some [ch "%"; spec; 0]) [AWord v] s = Some (tt, print t s) /\
    (forall s0 blanks rest, quiet s0 -> queue s0 = blanks ++ t ++ rest -> Forall (fun c => is_space c = true) blanks -> (forall c, head rest = Some c -> is_space c = true) ->
       exists s', scan_conversion spec [true] s0 = Some ([SInt v], true, true, [], s') /\ quiet s' /\ queue s' = rest) /\
    (forall s0, length (g_input_buf s0) = 256%nat -> arrivals s0 = [t] -> exists s', scanf (Some [ch "%"; spec; 0]) [true] s0 = Some (1, [SInt v], s')).
Proof.
  intros Hr Hv Hpc Hps. assert (Hb : 10 <= base <= 16) by (destruct Hr as [[= -> -> ->]|[[= -> -> ->]|[= -> -> ->]]]; lia). destruct (numeral_exists base upper v ltac:(lia) ltac:(lia)) as (t & Ht). exists t.
  destruct (text_plain base upper v t Hb Hv Ht) as (Hp & Hne & Hsp & Hlen). split_and!.
  - assert (Hc : converts false (width_from 0 []) spec [AWord v] t []).
    { rewrite <-(padded_none t). destruct Hr as [[= -> -> ->]|[[= -> -> ->]|[= -> -> ->]]]; by constructor. }
    assert (Hok : piece_ok (Conv false [] spec)) by (split_and!; try done; destruct Hr as [[= -> _ _]|[[= -> _ _]|[= -> _ _]]]; done).
    destruct (vprintf_loop_ok s Hpc Hps [Conv false [] spec] [AWord v] t [] [] 3 [0]) as (n' & E & Hn); [by constructor|rewrite <-(app_nil_r t); apply (renders_conv _ _ _ _ _ _ [] t [] [] Hc); constructor|cbn; lia|].
    rewrite print_nil in E. cbn [vprintf]. etransitivity; [exact E|]. cbn in Hn. destruct n'; [lia|done].
  - intros s0 blanks rest Hs0 Hq Hbl Hrest. destruct (number_scan spec base upper v t rest s0 Hr Hv Ht) as (s' & E & Hs'); [|done|exists s'; split; [by apply (number_conversion spec base upper)|done]].
    intros B k. apply (skip_ws_quiet blanks (t ++ rest)); try done. intros c Hc. destruct t as [|c' t]; [done|]. cbn in Hc, Hsp. by injection Hc as <-.
  - intros s0 Hbuf Ha. unfold scanf. rewrite gets_step, !modify_step. set (s1 := set_active true _). assert (Hl : live s1) by (unfold live, ring_ok; cbn; split_and!; done || lia).
    destruct (number_scan spec base upper v t [] s1 Hr Hv Ht) as (s2 & E & _); [rewrite app_nil_r; intros B k; by apply skip_ws_text|done|]. exists (set_active false s2).
    assert (El : scanf_loop 3 [ch "%"; spec; 0] [true] 0 [] s1 = Some (1, [SInt v], s2)).
    { transitivity ((let! '(w, counts, go, ap') := scan_conversion spec [true] in if go : bool then scanf_loop 2 [0] ap' (if counts : bool then 1 else 0) w else ret ((if counts : bool then 1 else 0), w)) s1); [by destruct Hr as [[= -> _ _]|[[= -> _ _]|[= -> _ _]]]|].
      by rewrite (bind_step _ _ _ _ _ (number_conversion spec base upper v s1 s2 Hr E)). }
    change (length [ch "%"; spec; 0]) with 3%nat. by rewrite (bind_step _ _ _ _ _ El).
Qed.

(** A conversion of [scanf] that reads a number or a string does not wait for
    input: when no key arrives while it looks at the ring, [scanf] assigns
    nothing and returns 0, and the keys typed later do not reach it. *)
Theorem scanf_no_wait spec p s later : spec ∈ ch <$> ["d"; "u"; "x"; "X"; "s"]%char -> arrivals s = [] :: [] :: [] :: later ->
  exists st s', scanf (Some [ch "%"; spec; 0]) [p] s = Some (0, st, s') /\ g_input_active s' = false /\ (st = [] \/ st = [SStr [0]]) /\ out s' = out s.
Proof.
  intros Hs Ha. cbn [fmap list_fmap] in Hs. rewrite !elem_of_cons in Hs. destruct s as [a b o act h tl buf arr]. cbn in Ha. subst arr.
  destruct Hs as [-> | [-> | [-> | [-> | [-> | Hs]]]]]; [..|by apply elem_of_nil in Hs]; try (eexists _, _; split; [reflexivity|]; split_and!; by auto).
  destruct p; (eexists _, _; split; [reflexivity|]; split_and!; by auto).
Qed.

(** ** Examples *)

Definition demo_stdio : stdio := mk_stdio true true [] false 0 0 (replicate 256 0) [].
Definition demo_pieces : list piece := [Lit (ch "n"); Lit (ch "="); Conv true [ch "5"] (ch "d"); Conv false [] (ch "s"); Conv false [] (ch "X")].
Definition demo_args : list arg := [AWord (u32 (-42)); AStr (text "ok"); AWord 255].
Definition demo_text : list Z := text "n=-00042okFF".
Lemma demo_numeral base upper v vs : Forall (fun d => 0 <= d < base) vs -> value base vs = v -> vs <> [] -> head vs <> Some 0 -> numeral base upper v (digs upper <$> vs).
Proof. intros H1 H2 H3 H4. exists vs. by split_and!; [..|right]. Qed.

Lemma vprintf_spec_witness : vprintf (Some (text "n=%05d%s%X" ++ [0])) demo_args demo_stdio = Some (tt, print demo_text demo_stdio).
Proof.
  apply (vprintf_spec demo_pieces demo_args demo_text [] [] demo_stdio); [done|done| |].
  - repeat constructor; try done; lia.
  - change demo_text with (ch "n" :: ch "=" :: (ch "-" :: padded true 5 (digs false <$> [4; 2])) ++ text "ok" ++ padded false 0 (digs true <$> [15; 15]) ++ []). do 2 apply renders_lit.
    apply (renders_conv _ _ _ _ _ _ [AStr (text "ok"); AWord 255]); [apply (c_neg true 5 (ch "d") (-42)); [by left|lia|apply demo_numeral; [repeat constructor; lia|done..]]|].
    apply (renders_conv _ _ _ _ _ _ [AWord 255]); [apply c_str|].
    apply (renders_conv _ _ _ _ _ _ []); [apply c_HEX; [lia|apply demo_numeral; [repeat constructor; lia|done..]]|]. apply renders_nil.
Defined.

Lemma snprintf_spec_witness : snprintf (Some (replicate 8 1)) 4 (Some (text "%u%%" ++ [0])) [AWord 1234] = Some (3, text "123" ++ [0; 1; 1; 1; 1]).
Proof.
  apply (snprintf_spec (replicate 8 1) 4 [Conv false [] (ch "u"); Conv false [] (ch "%")] [AWord 1234] (text "1234%") [] []); [cbn; lia| |].
  - repeat constructor; try done; lia.
  - change (text "1234%") with (padded false 0 (digs false <$> [1; 2; 3; 4]) ++ [ch "%"] ++ []). apply (renders_conv _ _ _ _ _ _ []).
    + split_and!; [apply c_unsigned; [lia|apply demo_numeral; [repeat constructor; lia|done..]]|done|done|vm_compute; set_solver|intros [E|E]; discriminate E].
    + apply (renders_conv _ _ _ _ _ _ []); [|apply renders_nil]. split_and!; [apply c_percent|done|done|vm_compute; set_solver|intros [E|E]; discriminate E].
Defined.

Lemma print_scan_witness : exists t, vprintf (Some [ch "%"; ch "x"; 0]) [AWord 0xBEEF] demo_stdio = Some (tt, print t demo_stdio) /\
  forall s0, quiet s0 -> queue s0 = [32] ++ t ++ [10; ch "7"] -> exists s', scan_conversion (ch "x") [true] s0 = Some ([SInt 0xBEEF], true, true, [], s') /\ quiet s' /\ queue s' = [10; ch "7"].
Proof.
  destruct (print_scan (ch "x") 16 false 0xBEEF demo_stdio) as (t & E & Hr & _); [right; by left|lia|done|done|]. exists t. split; [exact E|].
  intros s0 Hs Hq. apply (Hr s0 [32] [10; ch "7"] Hs Hq); [by apply Forall_singleton|]. intros c Hc. by injection Hc as <-. Defined.
