(* ===== verification/Pmm.v ===== *)
(** The physical frame allocator: [src/kernel/src/memory/pmm.cpp].

    The globals of the file are the record [pmm]; the bitmap is the array
    [s_bitmap_storage] of 32768 words, read and written with its bounds
    checked.  A set bit is a frame in use. *)
From S2P Require Import Prelude.

Definition PAGE_SIZE : Z := 4096.
Definition MAX_FRAMES : Z := 1024 * 1024.
Definition BITMAP_WORDS : Z := 32768.

Record pmm := mk_pmm {
  g_totalFrames : Z;
  g_freeFrames : Z;
  g_frameCap : Z;
  g_bitmapWords : Z;
  g_bitmap : gmap Z Z;
}.

Definition pmm_bss : pmm := mk_pmm 0 0 0 0 ∅.

Definition set_bitmap (b : gmap Z Z) (p : pmm) : pmm :=
  mk_pmm (g_totalFrames p) (g_freeFrames p) (g_frameCap p) (g_bitmapWords p) b.
Definition set_free (n : Z) (p : pmm) : pmm :=
  mk_pmm (g_totalFrames p) n (g_frameCap p) (g_bitmapWords p) (g_bitmap p).

Definition word (p : pmm) (i : Z) : Z := default 0 (g_bitmap p !! i).

(** [g_bitmap[i]]: defined only inside [s_bitmap_storage]. *)
Definition load_word (i : Z) : ST pmm Z :=
  fun p => if (0 <=? i) && (i <? BITMAP_WORDS) then Some (word p i, p) else None.
Definition store_word (i v : Z) : ST pmm unit :=
  fun p => if (0 <=? i) && (i <? BITMAP_WORDS)
           then Some (tt, set_bitmap (<[i := v]> (g_bitmap p)) p) else None.

Definition bset (idx : Z) : ST pmm unit :=
  let! w := load_word (Z.shiftr idx 5) in
  store_word (Z.shiftr idx 5) (Z.lor w (Z.shiftl 1 (Z.land idx 31))).
Definition bclr (idx : Z) : ST pmm unit :=
  let! w := load_word (Z.shiftr idx 5) in
  store_word (Z.shiftr idx 5) (Z.land w (u32 (Z.lnot (Z.shiftl 1 (Z.land idx 31))))).
Definition bget (idx : Z) : ST pmm bool :=
  let! w := load_word (Z.shiftr idx 5) in
  ret (negb (Z.land (Z.shiftr w (Z.land idx 31)) 1 =? 0)).

Definition TotalFrames (p : pmm) : Z := g_frameCap p.
Definition FreeFrames (p : pmm) : Z := g_freeFrames p.

(** [for (f = ...; f < cap; ++f) if (bget(f)) ++used;] *)
Fixpoint count_used (n : nat) (f used : Z) : ST pmm Z :=
  match n with
  | O => ret used
  | S n' => let! b := bget f in count_used n' (f + 1) (if b then u32 (used + 1) else used)
  end.

(** The memory size [Init] works with, in bytes. *)
Definition total_bytes (memLowerKB memUpperKB : Z) : Z :=
  let totalBytes := u64 (memLowerKB * 1024 + memUpperKB * 1024) in
  let totalBytes :=
    if (memLowerKB =? 0) && (memUpperKB =? 0) then 128 * 1024 * 1024 else totalBytes in
  if totalBytes <? 2 ^ 20 then 2 ^ 20 else totalBytes.

Definition frame_cap (memLowerKB memUpperKB : Z) : Z :=
  let total := u32 (total_bytes memLowerKB memUpperKB / PAGE_SIZE) in
  if MAX_FRAMES <? total then MAX_FRAMES else total.

(** [PMM::Init]; the message logged at its end is not modelled. *)
Definition Init (memLowerKB memUpperKB kernelStart kernelEnd : Z) : ST pmm unit :=
  let cap := frame_cap memLowerKB memUpperKB in
  let words := (cap + 31) / 32 in
  modify (fun p => mk_pmm cap (g_freeFrames p) cap words (g_bitmap p));;;
  for_loop (Z.to_nat words) 0 (fun i => store_word i 0);;;
  let reserveFrames := Z.shiftr 0x100000 12 in
  for_loop (Z.to_nat reserveFrames) 0 bset;;;
  let kstartF := u32 (kernelStart / PAGE_SIZE) in
  let kendF := u32 ((kernelEnd + PAGE_SIZE - 1) / PAGE_SIZE) in
  let kendF := if cap <? kendF then cap else kendF in
  for_loop (Z.to_nat (kendF - kstartF)) kstartF bset;;;
  let! used := count_used (Z.to_nat cap) 0 0 in
  modify (set_free (u32 (cap - used))).

(** [if (g_freeFrames) --g_freeFrames] *)
Definition dec_free (p : pmm) : pmm :=
  if g_freeFrames p =? 0 then p else set_free (g_freeFrames p - 1) p.
Definition inc_free (p : pmm) : pmm := set_free (u32 (g_freeFrames p + 1)) p.

Definition mark_used1 (f : Z) : ST pmm unit :=
  let! b := bget f in if b then ret tt else (bset f;;; modify dec_free).
Definition mark_free1 (f : Z) : ST pmm unit :=
  let! b := bget f in if b then (bclr f;;; modify inc_free) else ret tt.

Definition mark_range (body : Z -> ST pmm unit) (start finish : Z) : ST pmm unit :=
  if finish <=? start then ret tt
  else
    let! cap := gets g_frameCap in
    let s := u32 (start / PAGE_SIZE) in
    let e := u32 ((finish + PAGE_SIZE - 1) / PAGE_SIZE) in
    let e := if cap <? e then cap else e in
    for_loop (Z.to_nat (e - s)) s body.

Definition markRangeUsed (start finish : Z) : ST pmm unit := mark_range mark_used1 start finish.
Definition markRangeFree (start finish : Z) : ST pmm unit := mark_range mark_free1 start finish.

(** First-fit search from frame [f], [n] frames left. *)
Fixpoint alloc_loop (n : nat) (f : Z) : ST pmm Z :=
  match n with
  | O => ret 0
  | S n' =>
      let! b := bget f in
      if b then alloc_loop n' (f + 1)
      else
        bset f;;;
        modify dec_free;;;
        let pa := u32 (f * PAGE_SIZE) in
        kassert (Z.land pa (PAGE_SIZE - 1) =? 0);;;
        ret pa
  end.

Definition AllocFrame : ST pmm Z :=
  let! cap := gets g_frameCap in alloc_loop (Z.to_nat cap) 0.

Definition FreeFrame (addr : Z) : ST pmm unit :=
  kassert (Z.land (u32 addr) (PAGE_SIZE - 1) =? 0);;;
  let! cap := gets g_frameCap in
  let f := u32 (addr / PAGE_SIZE) in
  if f <? cap then mark_free1 f else ret tt.

(** * The bitmap as a predicate on frames *)

Definition bit (p : pmm) (f : Z) : bool := Z.testbit (word p (Z.shiftr f 5)) (Z.land f 31).

(** The frames [p] and [p'] agree on, but for frame [f], which [p'] sets to [b]. *)
Definition flips (p p' : pmm) (f : Z) (b : bool) : Prop :=
  g_frameCap p' = g_frameCap p /\
  forall g, 0 <= g -> bit p' g = if decide (g = f) then b else bit p g.

Definition free_count (p : pmm) : Z :=
  count_lt (fun f => negb (bit p f)) (Z.to_nat (g_frameCap p)).

(** The type invariant: the managed range fits the bitmap and [g_freeFrames]
    is the number of clear bits below the cap. *)
Definition wf (p : pmm) : Prop :=
  0 <= g_frameCap p <= MAX_FRAMES /\ g_freeFrames p = free_count p.

Lemma shiftr5_bounds f : 0 <= f < MAX_FRAMES -> 0 <= Z.shiftr f 5 < BITMAP_WORDS.
Proof. unfold MAX_FRAMES, BITMAP_WORDS. rewrite Z.shiftr_div_pow2 by lia. change (2 ^ 5) with 32. zdiv. Qed.

Lemma land31 f : Z.land f 31 = f mod 32.
Proof. change 31 with (Z.ones 5). by rewrite Z.land_ones by lia. Qed.

Lemma bit_inj f g : Z.shiftr f 5 = Z.shiftr g 5 -> Z.land f 31 = Z.land g 31 -> f = g.
Proof. rewrite !Z.shiftr_div_pow2, !land31 by lia. change (2 ^ 5) with 32. zdiv. Qed.

Lemma load_word_ok p i : 0 <= i < BITMAP_WORDS -> load_word i p = Some (word p i, p).
Proof. intros. unfold load_word. repeat case_zb; [done|lia..]. Qed.

Lemma store_word_ok p i v :
  0 <= i < BITMAP_WORDS -> store_word i v p = Some (tt, set_bitmap (<[i := v]> (g_bitmap p)) p).
Proof. intros. unfold store_word. repeat case_zb; [done|lia..]. Qed.

Lemma word_set p i v j :
  word (set_bitmap (<[i := v]> (g_bitmap p)) p) j = if decide (i = j) then v else word p j.
Proof. unfold word. cbn. rewrite lookup_insert. by case_decide. Qed.

Lemma bget_ok p f : 0 <= f < MAX_FRAMES -> bget f p = Some (bit p f, p).
Proof.
  intros Hf. unfold bget, bind. rewrite load_word_ok by by apply shiftr5_bounds.
  unfold ret, bit. do 2 f_equal. change 1 with (Z.ones 1). rewrite Z.land_ones by lia.
  change (2 ^ 1) with 2. rewrite <- Z.bit0_mod, Z.shiftr_spec by lia.
  rewrite Z.add_0_l. by destruct (Z.testbit _ _).
Qed.

Lemma testbit_pow k j : 0 <= k -> 0 <= j -> Z.testbit (Z.shiftl 1 k) j = bool_decide (j = k).
Proof.
  intros. rewrite Z.shiftl_1_l, Z.pow2_bits_eqb by done.
  case_bool_decide; [subst; apply Z.eqb_refl|]. apply Z.eqb_neq. lia.
Qed.

Lemma bset_ok p f :
  0 <= f < MAX_FRAMES ->
  exists p', bset f p = Some (tt, p') /\ flips p p' f true /\ g_freeFrames p' = g_freeFrames p.
Proof.
  intros Hf. pose proof (shiftr5_bounds f Hf). unfold bset, bind.
  rewrite load_word_ok, store_word_ok by done. eexists. split_and!; [done| |done].
  split; [done|]. intros g Hg. unfold bit. rewrite word_set.
  rewrite !land31. case_decide as E.
  - rewrite Z.lor_spec, testbit_pow by (apply Z.mod_pos_bound; lia). rewrite <- E.
    case_decide as Eg; [subst; rewrite bool_decide_eq_true_2 by done; apply orb_true_r|].
    rewrite bool_decide_eq_false_2; [apply orb_false_r|]. intros Em. apply Eg.
    apply bit_inj; [done|by rewrite !land31].
  - rewrite decide_False; [done|]. by intros ->.
Qed.

Lemma bclr_ok p f :
  0 <= f < MAX_FRAMES ->
  exists p', bclr f p = Some (tt, p') /\ flips p p' f false /\ g_freeFrames p' = g_freeFrames p.
Proof.
  intros Hf. pose proof (shiftr5_bounds f Hf). unfold bclr, bind.
  rewrite load_word_ok, store_word_ok by done. eexists. split_and!; [done| |done].
  split; [done|]. intros g Hg. unfold bit. rewrite word_set.
  rewrite !land31. case_decide as E.
  - assert (Hb : 0 <= g mod 32 < 32) by (apply Z.mod_pos_bound; lia).
    unfold u32. rewrite Z.land_spec, Z.mod_pow2_bits_low by lia.
    rewrite Z.lnot_spec, testbit_pow by (try apply Z.mod_pos_bound; lia). rewrite <- E.
    case_decide as Eg; [subst; rewrite bool_decide_eq_true_2 by done; apply andb_false_r|].
    rewrite bool_decide_eq_false_2; [apply andb_true_r|]. intros Em. apply Eg.
    apply bit_inj; [done|by rewrite !land31].
  - rewrite decide_False; [done|]. by intros ->.
Qed.

Lemma free_count_flips p p' f b :
  flips p p' f b -> 0 <= f < g_frameCap p -> bit p f = negb b ->
  free_count p' = free_count p + (if b then -1 else 1).
Proof.
  intros [Hc Hb] Hf Hbit. unfold free_count. rewrite Hc.
  pose proof (count_lt_update (fun g => negb (bit p' g)) (fun g => negb (bit p g))
                (Z.to_nat (g_frameCap p)) f ltac:(lia)) as HU; cbv beta in HU.
  rewrite (Hb f), decide_True, Hbit, negb_involutive in HU by (lia || done).
  assert (forall g, 0 <= g < Z.of_nat (Z.to_nat (g_frameCap p)) -> g <> f ->
    negb (bit p' g) = negb (bit p g)) as Hne
    by (intros g Hg Hne; rewrite Hb by lia; by rewrite decide_False).
  specialize (HU Hne). destruct b; cbn [negb] in HU; lia.
Qed.

Lemma free_count_range p : 0 <= free_count p <= Z.max 0 (g_frameCap p).
Proof. unfold free_count. pose proof (count_lt_range (fun f => negb (bit p f)) (Z.to_nat (g_frameCap p))). lia. Qed.

(** * Behaviour of the operations *)

Lemma flips_refl p f b : bit p f = b -> flips p p f b.
Proof. intros <-. split; [done|]. intros g _. by case_decide; subst. Qed.

Lemma flips_set_free p p' f b n : flips p p' f b -> flips p (set_free n p') f b.
Proof. done. Qed.

Lemma take_frame p f :
  wf p -> 0 <= f < g_frameCap p -> bit p f = false ->
  exists p', (bset f;;; modify dec_free) p = Some (tt, p') /\ wf p' /\ flips p p' f true /\
             g_freeFrames p' = g_freeFrames p - 1.
Proof.
  intros [Hcap Hfree] Hf Hb.
  destruct (bset_ok p f) as (p' & E & Hfl & Hn); [lia|].
  assert (Hc : free_count p' = free_count p - 1) by (apply (free_count_flips p p' f true); done).
  pose proof (free_count_range p'). destruct Hfl as [Hcap' Hbits].
  exists (dec_free p'). unfold bind. rewrite E. unfold modify, dec_free.
  destruct (Z.eqb_spec (g_freeFrames p') 0); [lia|]. split_and!; [done| | |cbn; lia].
  - split; cbn; [lia|]. unfold free_count, bit, word in *. cbn. lia.
  - by apply flips_set_free.
Qed.

Lemma mark_used1_ok p f :
  wf p -> 0 <= f < g_frameCap p ->
  exists p', mark_used1 f p = Some (tt, p') /\ wf p' /\ flips p p' f true.
Proof.
  intros Hwf Hf. pose proof Hwf as [Hcap _]. unfold mark_used1, bind at 1.
  rewrite bget_ok by lia. destruct (bit p f) eqn:Hb.
  - exists p. split_and!; [done|done|]. by apply flips_refl.
  - destruct (take_frame p f) as (p' & E & ? & ? & _); [done..|]. eauto.
Qed.

Lemma release_frame p f :
  wf p -> 0 <= f < g_frameCap p -> bit p f = true ->
  exists p', mark_free1 f p = Some (tt, p') /\ wf p' /\ flips p p' f false /\
             g_freeFrames p' = g_freeFrames p + 1.
Proof.
  intros [Hcap Hfree] Hf Hb. unfold mark_free1, bind at 1. rewrite bget_ok by lia. rewrite Hb.
  destruct (bclr_ok p f) as (p' & E & Hfl & Hn); [lia|].
  assert (Hc : free_count p' = free_count p + 1) by (apply (free_count_flips p p' f false); done).
  pose proof (free_count_range p). unfold MAX_FRAMES in *.
  exists (inc_free p'). unfold bind. rewrite E. unfold modify, inc_free. destruct Hfl as [Hcap' Hbits].
  rewrite u32_small by lia.
  split_and!; [done| | |cbn; lia].
  - split; cbn; unfold MAX_FRAMES; [lia|]. unfold free_count, bit, word in *. cbn. lia.
  - by apply flips_set_free.
Qed.

Lemma mark_free1_ok p f :
  wf p -> 0 <= f < g_frameCap p ->
  exists p', mark_free1 f p = Some (tt, p') /\ wf p' /\ flips p p' f false.
Proof.
  intros Hwf Hf. pose proof Hwf as [Hcap _]. destruct (bit p f) eqn:Hb.
  - destruct (release_frame p f) as (p' & E & ? & ? & _); [done..|]. eauto.
  - unfold mark_free1, bind. rewrite bget_ok by lia. rewrite Hb.
    exists p. split_and!; [done|done|]. by apply flips_refl.
Qed.

Lemma page_aligned f : Z.land (f * PAGE_SIZE) (PAGE_SIZE - 1) = 0.
Proof.
  change (PAGE_SIZE - 1) with (Z.ones 12). rewrite Z.land_ones by lia.
  apply Z.mod_mul. lia.
Qed.

Lemma alloc_loop_ok n : forall p f,
  wf p -> 0 <= f -> f + Z.of_nat n = g_frameCap p ->
  (forall g, 0 <= g < f -> bit p g = true) ->
  (exists g p', alloc_loop n f p = Some (g * PAGE_SIZE, p') /\ 0 <= g < g_frameCap p /\
      bit p g = false /\ (forall h, 0 <= h < g -> bit p h = true) /\
      wf p' /\ flips p p' g true /\ g_freeFrames p' = g_freeFrames p - 1) \/
  (alloc_loop n f p = Some (0, p) /\ forall g, 0 <= g < g_frameCap p -> bit p g = true).
Proof.
  induction n as [|n IH]; intros p f Hwf Hf Hn Hlow; pose proof Hwf as [Hcap _];
    cbn [alloc_loop].
  - right. split; [done|]. intros g Hg. apply Hlow. lia.
  - rewrite !(bind_step _ _ _ _ _ (bget_ok p f ltac:(lia))). destruct (bit p f) eqn:Hb.
    + apply IH; [done|lia|lia|]. intros g Hg.
      destruct (decide (g = f)) as [->|]; [done|]. apply Hlow. lia.
    + left. destruct (take_frame p f) as (p' & E & Hwf' & Hfl & Hn'); [done|lia|done|].
      unfold MAX_FRAMES in *. exists f, p'. split_and!; try done; try lia.
      rewrite <- bind_assoc, (bind_step _ _ _ _ _ E).
      rewrite (u32_small (f * PAGE_SIZE)) by (unfold PAGE_SIZE; lia).
      by rewrite page_aligned.
Qed.

(** [AllocFrame] hands out the lowest free frame, or returns 0. *)
Lemma AllocFrame_cases p :
  wf p ->
  (exists f p', AllocFrame p = Some (f * PAGE_SIZE, p') /\ 0 <= f < g_frameCap p /\
      bit p f = false /\ (forall g, 0 <= g < f -> bit p g = true) /\
      wf p' /\ flips p p' f true /\ g_freeFrames p' = g_freeFrames p - 1) \/
  (AllocFrame p = Some (0, p) /\ forall g, 0 <= g < g_frameCap p -> bit p g = true).
Proof.
  intros Hwf. pose proof Hwf as [Hcap _]. unfold AllocFrame, bind, gets.
  apply alloc_loop_ok; [done|lia|lia|]. intros; lia.
Qed.

Lemma FreeFrame_step p f :
  0 <= f < MAX_FRAMES ->
  FreeFrame (f * PAGE_SIZE) p = (if f <? g_frameCap p then mark_free1 f p else Some (tt, p)).
Proof.
  intros Hf. unfold MAX_FRAMES in Hf. unfold FreeFrame.
  rewrite (u32_small (f * PAGE_SIZE)) by (unfold PAGE_SIZE; lia).
  rewrite page_aligned. cbn [Z.eqb]. unfold kassert, bind, ret, gets.
  rewrite Z.div_mul by (unfold PAGE_SIZE; lia). rewrite u32_small by lia.
  by destruct (f <? g_frameCap p).
Qed.

Lemma FreeFrame_cases p f :
  wf p -> 0 <= f < MAX_FRAMES ->
  exists p', FreeFrame (f * PAGE_SIZE) p = Some (tt, p') /\ wf p' /\
    if decide (f < g_frameCap p /\ bit p f = true)
    then flips p p' f false /\ g_freeFrames p' = g_freeFrames p + 1
    else p' = p.
Proof.
  intros Hwf Hf. pose proof Hwf as [Hcap _]. rewrite FreeFrame_step by done. case_decide as Hd.
  - destruct Hd as [Hlt Hb]. destruct (Z.ltb_spec f (g_frameCap p)); [|lia].
    destruct (release_frame p f) as (p' & ? & ? & ? & ?); [done|lia|done|]. eauto 6.
  - exists p. split_and!; [|done..]. case_zb; [|done].
    unfold mark_free1, bind. rewrite bget_ok by lia.
    destruct (bit p f) eqn:Hb; [|done]. exfalso. by apply Hd.
Qed.

(** ** The abstract allocator: a finite set of free frames *)

Definition free_set (p : pmm) : gset Z :=
  list_to_set (base.filter (fun f => bit p f = false) (seqZ 0 (g_frameCap p))).

Lemma elem_of_free_set p f : f ∈ free_set p <-> 0 <= f < g_frameCap p /\ bit p f = false.
Proof.
  unfold free_set. rewrite elem_of_list_to_set, list_elem_of_filter, elem_of_seqZ. lia || naive_solver lia.
Qed.

(** What a frame allocator promises: it hands out the least free frame and
    reports exhaustion by 0; releasing puts a frame of the managed range back. *)
Definition spec_alloc (F : gset Z) (r : Z) (F' : gset Z) : Prop :=
  (exists f, f ∈ F /\ (forall g, g ∈ F -> f <= g) /\ r = f * PAGE_SIZE /\ F' = F ∖ {[f]}) \/
  (F = ∅ /\ r = 0 /\ F' = F).
Definition spec_free (cap : Z) (F : gset Z) (f : Z) (F' : gset Z) : Prop :=
  F' = if decide (f < cap) then F ∪ {[f]} else F.

Lemma flips_free_set p p' f b :
  flips p p' f b -> 0 <= f < g_frameCap p ->
  free_set p' = if b then free_set p ∖ {[f]} else free_set p ∪ {[f]}.
Proof.
  intros [Hc Hb] Hf. apply set_eq. intros g.
  assert (HI : g ∈ free_set p' <-> 0 <= g < g_frameCap p /\ (if decide (g = f) then b else bit p g) = false).
  { rewrite elem_of_free_set, Hc. split; intros [? H]; (split; [done|]);
      [rewrite <- Hb by lia|rewrite Hb by lia]; done. }
  rewrite HI. destruct b; rewrite ?elem_of_difference, ?elem_of_union, elem_of_singleton,
    elem_of_free_set; case_decide; subst; naive_solver lia.
Qed.

(** C6: [PMM::AllocFrame] refines the abstract allocator.  On a well-formed
    state it returns; the result is the address of the least free frame,
    which leaves the free set, or 0 when the free set is empty. *)
Theorem AllocFrame_refines p :
  wf p ->
  exists r p', AllocFrame p = Some (r, p') /\ wf p' /\ spec_alloc (free_set p) r (free_set p').
Proof.
  intros Hwf. destruct (AllocFrame_cases p Hwf) as [(f & p' & E & Hf & Hb & Hlow & Hwf' & Hfl & _)|[E Hall]].
  - exists (f * PAGE_SIZE), p'. split_and!; [done|done|]. left. exists f. split_and!.
    + by apply elem_of_free_set.
    + intros g [Hg Hbg]%elem_of_free_set. destruct (decide (g < f)); [|lia].
      rewrite Hlow in Hbg by lia. done.
    + done.
    + exact (flips_free_set p p' f true Hfl Hf).
  - exists 0, p. split_and!; [done|done|]. right. split_and!; [|done|done].
    apply set_eq. intros g. rewrite elem_of_free_set. rewrite elem_of_empty.
    split; [|done]. intros [Hg Hb]. by rewrite Hall in Hb.
Qed.

(** [PMM::FreeFrame] of a page-aligned address refines the abstract
    release: a managed frame joins the free set, a frame beyond the cap is
    ignored, and freeing a frame that is already free changes nothing. *)
Theorem FreeFrame_refines p f :
  wf p -> 0 <= f < MAX_FRAMES ->
  exists p', FreeFrame (f * PAGE_SIZE) p = Some (tt, p') /\ wf p' /\
    spec_free (g_frameCap p) (free_set p) f (free_set p') /\
    (f ∈ free_set p -> p' = p).
Proof.
  intros Hwf Hf. destruct (FreeFrame_cases p f Hwf Hf) as (p' & E & Hwf' & Hres).
  exists p'. split_and!; [done|done| |].
  - unfold spec_free. destruct (decide (f < g_frameCap p /\ bit p f = true)) as [Hd|Hd].
    + destruct Hd as [Hlt _], Hres as [Hfl _]. rewrite decide_True by done.
      apply (flips_free_set p p' f false Hfl). lia.
    + subst. case_decide; [|done]. apply set_eq. intros g.
      rewrite elem_of_union, elem_of_singleton, !elem_of_free_set.
      destruct (bit p f) eqn:Hb; [by destruct Hd|]. naive_solver lia.
  - intros [_ Hb]%elem_of_free_set. rewrite decide_False in Hres; [done|].
    intros [_ ?]. congruence.
Qed.

(** round trip: freeing the frame [AllocFrame] just handed out gives back
    the frame map and the free count the allocator started from. *)
Theorem AllocFrame_FreeFrame p pa p1 :
  wf p -> AllocFrame p = Some (pa, p1) -> pa <> 0 ->
  exists p2, FreeFrame pa p1 = Some (tt, p2) /\ wf p2 /\
    g_frameCap p2 = g_frameCap p /\ g_freeFrames p2 = g_freeFrames p /\
    forall g, 0 <= g -> bit p2 g = bit p g.
Proof.
  intros Hwf Hal Hnz. pose proof Hwf as [Hcap _].
  destruct (AllocFrame_cases p Hwf) as [(f & p' & E & Hf & Hb & _ & Hwf' & Hfl & Hn)|[E _]];
    rewrite E in Hal; injection Hal as <- <-; [|done].
  destruct Hfl as [Hc' Hbits]. rewrite FreeFrame_step by lia. rewrite Hc'.
  destruct (Z.ltb_spec f (g_frameCap p)); [|lia].
  destruct (release_frame p' f) as (p2 & E2 & Hwf2 & [Hc2 Hb2] & Hn2); [done|lia| |].
  { rewrite Hbits by lia. by rewrite decide_True. }
  exists p2. split_and!; [done|done|lia|lia|]. intros g Hg. rewrite Hb2, Hbits by lia.
  by case_decide; subst.
Qed.

(** The frames a marking loop covers are set to [b], the others are kept. *)
Lemma mark_loop_ok b (body : Z -> ST pmm unit) n : forall lo p,
  (forall p f, wf p -> 0 <= f < g_frameCap p ->
     exists p', body f p = Some (tt, p') /\ wf p' /\ flips p p' f b) ->
  wf p -> 0 <= lo -> lo + Z.of_nat n <= Z.max lo (g_frameCap p) ->
  exists p', for_loop n lo body p = Some (tt, p') /\ wf p' /\ g_frameCap p' = g_frameCap p /\
    forall g, 0 <= g -> bit p' g = if decide (lo <= g < lo + Z.of_nat n) then b else bit p g.
Proof.
  induction n as [|n IH]; intros lo p Hbody Hwf Hlo Hhi; cbn [for_loop].
  - exists p. split_and!; try done. intros g _. by rewrite decide_False by lia.
  - destruct (Hbody p lo) as (p1 & E1 & Hwf1 & Hc1 & Hb1); [done|lia|].
    rewrite (bind_step _ _ _ _ _ E1).
    destruct (IH (lo + 1) p1) as (p' & E & Hwf' & Hc & Hb'); [done..|lia|lia|].
    exists p'. split_and!; [done|done|lia|]. intros g Hg. rewrite Hb', Hb1 by lia.
    repeat case_decide; try done; lia.
Qed.

(** [PMM::markRangeUsed] and [PMM::markRangeFree] set every frame the byte
    range [start, finish) touches, clipped to the cap, to used (resp. free),
    leave every other frame alone and keep the free count exact. *)
Theorem markRange_spec p start finish :
  wf p -> 0 <= start < 2 ^ 32 -> start < finish < 2 ^ 32 ->
  let inside g := start / PAGE_SIZE <= g < Z.min (g_frameCap p) ((finish + PAGE_SIZE - 1) / PAGE_SIZE) in
  (exists p', markRangeUsed start finish p = Some (tt, p') /\ wf p' /\
     forall g, 0 <= g -> bit p' g = if decide (inside g) then true else bit p g) /\
  (exists p', markRangeFree start finish p = Some (tt, p') /\ wf p' /\
     forall g, 0 <= g -> bit p' g = if decide (inside g) then false else bit p g).
Proof.
  intros Hwf Hs Hf inside.
  assert (Hgo : forall b body, (forall p f, wf p -> 0 <= f < g_frameCap p ->
      exists p', body f p = Some (tt, p') /\ wf p' /\ flips p p' f b) ->
    exists p', mark_range body start finish p = Some (tt, p') /\ wf p' /\
      forall g, 0 <= g -> bit p' g = if decide (inside g) then b else bit p g).
  { intros b body Hbody. unfold mark_range. destruct (Z.leb_spec finish start); [lia|].
    unfold bind, gets, PAGE_SIZE in *.
    assert (0 <= start / 4096 < 2 ^ 20) by zdiv.
    assert (0 <= (finish + 4096 - 1) / 4096 < 2 ^ 20 + 1) by zdiv. nowrap.
    set (e := if g_frameCap p <? _ then _ else _).
    assert (He : e = Z.min (g_frameCap p) ((finish + 4096 - 1) / 4096)) by (unfold e; case_zb; lia).
    pose proof Hwf as [Hcap _].
    destruct (mark_loop_ok b body (Z.to_nat (e - start / 4096)) (start / 4096) p)
      as (p' & E & ? & _ & Hb); [done|done|lia|lia|].
    exists p'. split_and!; [done|done|]. intros g Hg. rewrite Hb by done. unfold inside.
    repeat case_decide; try done; lia. }
  split; [apply Hgo, mark_used1_ok|apply Hgo, mark_free1_ok].
Qed.

(** ** Initialisation *)

Lemma bset_loop_ok n : forall lo p,
  0 <= lo -> lo + Z.of_nat n <= Z.max lo MAX_FRAMES ->
  exists p', for_loop n lo bset p = Some (tt, p') /\ g_frameCap p' = g_frameCap p /\
    forall g, 0 <= g -> bit p' g = if decide (lo <= g < lo + Z.of_nat n) then true else bit p g.
Proof.
  induction n as [|n IH]; intros lo p Hlo Hhi; cbn [for_loop].
  - exists p. split_and!; try done. intros g _. by rewrite decide_False by lia.
  - destruct (bset_ok p lo) as (p1 & E1 & [Hc1 Hb1] & _); [lia|].
    rewrite (bind_step _ _ _ _ _ E1).
    destruct (IH (lo + 1) p1) as (p' & E & Hc & Hb'); [lia|lia|].
    exists p'. split_and!; [done|lia|]. intros g Hg. rewrite Hb', Hb1 by lia.
    repeat case_decide; try done; lia.
Qed.

Lemma clear_loop_ok n : forall lo p,
  0 <= lo -> lo + Z.of_nat n <= BITMAP_WORDS ->
  exists p', for_loop n lo (fun i => store_word i 0) p = Some (tt, p') /\
    g_frameCap p' = g_frameCap p /\
    forall i, word p' i = if decide (lo <= i < lo + Z.of_nat n) then 0 else word p i.
Proof.
  induction n as [|n IH]; intros lo p Hlo Hhi; cbn [for_loop].
  - exists p. split_and!; try done. intros g. by rewrite decide_False by lia.
  - rewrite (bind_step _ _ _ _ _ (store_word_ok p lo 0 ltac:(lia))).
    destruct (IH (lo + 1) (set_bitmap (<[lo:=0]> (g_bitmap p)) p)) as (p' & E & Hc & Hb'); [lia|lia|].
    exists p'. split_and!; [done|done|]. intros i. rewrite Hb', word_set.
    repeat case_decide; try done; lia.
Qed.

Lemma count_used_ok p n : forall used,
  0 <= used -> used + Z.of_nat n < 2 ^ 32 -> forall f, 0 <= f -> f + Z.of_nat n <= MAX_FRAMES ->
  count_used n f used p = Some (used + count_lt (fun g => bit p (f + g)) n, p).
Proof.
  induction n as [|n IH]; intros used Hu Hn f Hf Hm; cbn [count_used].
  - unfold ret. do 2 f_equal. cbn. lia.
  - rewrite (bind_step _ _ _ _ _ (bget_ok p f ltac:(lia))).
    replace (if bit p f then u32 (used + 1) else used) with (used + if bit p f then 1 else 0)
      by (destruct (bit p f); nowrap; lia).
    assert (0 <= (if bit p f then 1 else 0) <= 1) by (destruct (bit p f); lia).
    rewrite IH by lia. do 2 f_equal.
    assert (Hshift : forall m, count_lt (fun g => bit p (f + g)) (S m) =
      (if bit p f then 1 else 0) + count_lt (fun g => bit p (f + 1 + g)) m).
    { induction m as [|m IHm]; [cbn [count_lt]; change (Z.of_nat 0) with 0; rewrite !Z.add_0_r; lia|].
      cbn [count_lt] in *. rewrite IHm.
      replace (f + 1 + Z.of_nat m) with (f + Z.of_nat (S m)) by lia. lia. }
    rewrite Hshift. lia.
Qed.

Lemma frame_cap_range memLowerKB memUpperKB :
  0 <= memLowerKB < 2 ^ 32 -> 0 <= memUpperKB < 2 ^ 32 ->
  256 <= frame_cap memLowerKB memUpperKB <= MAX_FRAMES.
Proof.
  intros. unfold frame_cap, total_bytes, MAX_FRAMES, PAGE_SIZE.
  set (t := if _ && _ then _ else _).
  assert (0 <= t < 2 ^ 43).
  { unfold t. destruct (_ && _); [lia|]. rewrite u64_small; lia. }
  set (t' := if t <? 2 ^ 20 then 2 ^ 20 else t).
  assert (2 ^ 20 <= t' < 2 ^ 43) by (unfold t'; case_zb; lia).
  assert (256 <= t' / 4096 < 2 ^ 31) by zdiv.
  rewrite u32_small by lia. case_zb; lia.
Qed.

(** C35: [PMM::Init] establishes the allocator invariant for every memory size
    Multiboot can report: the number of managed frames is between 256 and
    [MAX_FRAMES], a frame is in use exactly when it lies in the first MiB or
    in the kernel image, and [FreeFrames()] counts the others. *)
Theorem Init_establishes_wf memLowerKB memUpperKB kernelStart kernelEnd p :
  0 <= memLowerKB < 2 ^ 32 -> 0 <= memUpperKB < 2 ^ 32 ->
  0 <= kernelStart < 2 ^ 32 -> 0 <= kernelEnd < 2 ^ 32 ->
  exists p', Init memLowerKB memUpperKB kernelStart kernelEnd p = Some (tt, p') /\
    wf p' /\ 256 <= g_frameCap p' /\
    g_frameCap p' = frame_cap memLowerKB memUpperKB /\
    forall f, 0 <= f < g_frameCap p' ->
      bit p' f = bool_decide (f < 256 \/
        kernelStart / PAGE_SIZE <= f < (kernelEnd + PAGE_SIZE - 1) / PAGE_SIZE).
Proof.
  intros Hlo Hup Hks Hke. pose proof (frame_cap_range memLowerKB memUpperKB Hlo Hup) as Hcap.
  unfold Init. set (cap := frame_cap memLowerKB memUpperKB) in *.
  set (words := (cap + 31) / 32). unfold MAX_FRAMES in Hcap.
  assert (Hw : cap <= 32 * words /\ 0 <= words <= BITMAP_WORDS)
    by (unfold words, BITMAP_WORDS; zdiv).
  erewrite bind_step by reflexivity.
  set (p0 := mk_pmm cap _ cap words _).
  destruct (clear_loop_ok (Z.to_nat words) 0 p0) as (p1 & E1 & Hc1 & Hw1); [lia|lia|].
  rewrite (bind_step _ _ _ _ _ E1).
  destruct (bset_loop_ok (Z.to_nat (Z.shiftr 1048576 12)) 0 p1) as (p2 & E2 & Hc2 & Hb2);
    [lia|done|].
  rewrite (bind_step _ _ _ _ _ E2).
  assert (0 <= kernelStart / PAGE_SIZE < 2 ^ 20) by (unfold PAGE_SIZE; zdiv).
  assert (0 <= (kernelEnd + PAGE_SIZE - 1) / PAGE_SIZE < 2 ^ 20 + 1) by (unfold PAGE_SIZE; zdiv).
  rewrite (u32_small (kernelStart / PAGE_SIZE)) by lia.
  rewrite (u32_small ((kernelEnd + PAGE_SIZE - 1) / PAGE_SIZE)) by lia.
  set (ks := kernelStart / PAGE_SIZE) in *. set (ke := (kernelEnd + PAGE_SIZE - 1) / PAGE_SIZE) in *.
  set (ke' := if cap <? ke then cap else ke).
  assert (Hke' : ke' = Z.min cap ke) by (unfold ke'; case_zb; lia).
  destruct (bset_loop_ok (Z.to_nat (ke' - ks)) ks p2) as (p3 & E3 & Hc3 & Hb3);
    [lia|unfold MAX_FRAMES; lia|].
  rewrite (bind_step _ _ _ _ _ E3).
  rewrite (bind_step _ _ _ _ _ (count_used_ok p3 (Z.to_nat cap) 0 ltac:(lia) ltac:(lia) 0
             ltac:(lia) ltac:(unfold MAX_FRAMES; lia))).
  assert (Hcap3 : g_frameCap p3 = cap) by (rewrite Hc3, Hc2, Hc1; done).
  assert (Hbits : forall f, 0 <= f < cap -> bit p3 f = bool_decide (f < 256 \/ ks <= f < ke)).
  { intros f Hf. rewrite Hb3, Hb2 by lia. change (Z.of_nat (Z.to_nat (Z.shiftr 1048576 12))) with 256.
    assert (Hz : bit p1 f = false).
    { unfold bit. rewrite Hw1, decide_True; [apply Z.testbit_0_l|].
      rewrite Z.shiftr_div_pow2 by lia. change (2 ^ 5) with 32. zdiv. }
    rewrite Hz. repeat case_decide; symmetry;
      (apply bool_decide_eq_true_2; lia) || (apply bool_decide_eq_false_2; lia). }
  pose proof (count_lt_compl (bit p3) (Z.to_nat cap)) as Hcompl.
  pose proof (count_lt_range (bit p3) (Z.to_nat cap)).
  eexists. split; [reflexivity|]. split_and!; cbn; try done; try lia.
  - split; cbn; [unfold MAX_FRAMES; lia|]. unfold free_count, bit, word in *. cbn in *.
    rewrite Hcap3, (count_lt_ext _ (bit p3)) by done. unfold bit, word in *. nowrap. lia.
  - intros f Hf. rewrite <- Hbits by lia. done.
Qed.

(** * Concrete runs *)

(** A machine with 640 KiB + 1 MiB, the kernel at [0x100000, 0x110800). *)
Definition demo_pmm : pmm :=
  match Init 640 1024 0x100000 0x110800 pmm_bss with Some (_, p) => p | None => pmm_bss end.

Lemma demo_pmm_wf : wf demo_pmm.
Proof. split; [vm_compute; split; discriminate|vm_compute; reflexivity]. Qed.

Lemma AllocFrame_refines_witness :
  exists p', AllocFrame demo_pmm = Some (0x111000, p') /\ wf p'.
Proof.
  destruct (AllocFrame_refines demo_pmm demo_pmm_wf) as (r & p' & E & Hwf & _).
  exists p'. split; [|exact Hwf]. rewrite E.
  assert (Hr : fst <$> AllocFrame demo_pmm = Some 0x111000) by (vm_compute; reflexivity).
  rewrite E in Hr. injection Hr as ->. reflexivity.
Defined.

Lemma FreeFrame_refines_witness :
  exists p', FreeFrame (256 * PAGE_SIZE) demo_pmm = Some (tt, p') /\ wf p' /\ 256 ∈ free_set p'.
Proof.
  destruct (FreeFrame_refines demo_pmm 256 demo_pmm_wf) as (p' & E & Hwf & Hs & _).
  - unfold MAX_FRAMES. lia.
  - exists p'. split; [exact E|]. split; [exact Hwf|]. unfold spec_free in Hs.
    rewrite decide_True in Hs by (vm_compute; reflexivity). rewrite Hs. set_solver.
Defined.

Lemma AllocFrame_FreeFrame_witness :
  exists p1 p2, AllocFrame demo_pmm = Some (0x111000, p1) /\ FreeFrame 0x111000 p1 = Some (tt, p2) /\
    g_freeFrames p2 = g_freeFrames demo_pmm.
Proof.
  destruct (AllocFrame demo_pmm) as [[r p1]|] eqn:E.
  - assert (Hr : fst <$> AllocFrame demo_pmm = Some 0x111000) by (vm_compute; reflexivity).
    rewrite E in Hr. injection Hr as ->.
    destruct (AllocFrame_FreeFrame demo_pmm 0x111000 p1 demo_pmm_wf E) as (p2 & E2 & _ & _ & Hn & _).
    + lia.
    + exists p1, p2. split; [reflexivity|]. split; [exact E2|exact Hn].
  - exfalso. assert (Hr : is_Some (AllocFrame demo_pmm)) by (vm_compute; eauto).
    rewrite E in Hr. by destruct Hr.
Defined.

Lemma markRange_spec_witness :
  exists p', markRangeUsed 0x120000 0x121001 demo_pmm = Some (tt, p') /\ bit p' 0x121 = true /\
    bit p' 0x122 = false.
Proof.
  destruct (markRange_spec demo_pmm 0x120000 0x121001 demo_pmm_wf) as [(p' & E & _ & Hb) _]; [lia..|].
  exists p'. split; [exact E|]. rewrite !Hb by lia. split; vm_compute; reflexivity.
Defined.

Lemma Init_establishes_wf_witness :
  exists p', Init 640 1024 0x100000 0x110800 pmm_bss = Some (tt, p') /\ wf p' /\
    g_frameCap p' = 416 /\ bit p' 272 = true.
Proof.
  destruct (Init_establishes_wf 640 1024 0x100000 0x110800 pmm_bss)
    as (p' & E & Hwf & _ & Hc & Hb); [lia..|].
  assert (Hc' : g_frameCap p' = 416) by (rewrite Hc; vm_compute; reflexivity).
  exists p'. split; [exact E|]. split; [exact Hwf|]. split; [exact Hc'|].
  rewrite Hb by (rewrite Hc'; lia). vm_compute; reflexivity.
Defined.
