(* ===== verification/Paging.v ===== *)
(** Two-level x86 page tables: [src/kernel/src/memory/paging.cpp].

    The page directory and the page tables live in physical memory, which the
    kernel reaches through the identity map of the first 64 MiB; the state
    holds that memory, the frame allocator, the [g_pageDirectory] pointer and
    the control registers [Paging::Init] loads.  [invlpg] and [FlushAll] act
    on the TLB, which is not part of the state. *)
From S2P Require Import Prelude Memory.
From S2P Require Pmm.

Import Pmm (PAGE_SIZE, g_frameCap).

Record paging := mk_paging {
  pg_pmm : Pmm.pmm;
  pg_mem : mem;
  g_pageDirectory : Z;
  pg_cr3 : Z;
  pg_cr0 : Z;
}.

Definition Present : Z := 1.
Definition RW : Z := 2.
Definition User : Z := 4.

Definition set_pmm (p : Pmm.pmm) (s : paging) : paging :=
  mk_paging p (pg_mem s) (g_pageDirectory s) (pg_cr3 s) (pg_cr0 s).
Definition set_mem (m : mem) (s : paging) : paging :=
  mk_paging (pg_pmm s) m (g_pageDirectory s) (pg_cr3 s) (pg_cr0 s).
Definition set_pd (a : Z) (s : paging) : paging :=
  mk_paging (pg_pmm s) (pg_mem s) a (pg_cr3 s) (pg_cr0 s).
Definition set_cr3 (v : Z) (s : paging) : paging :=
  mk_paging (pg_pmm s) (pg_mem s) (g_pageDirectory s) v (pg_cr0 s).
Definition set_cr0 (v : Z) (s : paging) : paging :=
  mk_paging (pg_pmm s) (pg_mem s) (g_pageDirectory s) (pg_cr3 s) v.

Definition on_pmm {A} (c : ST Pmm.pmm A) : ST paging A := zoom pg_pmm set_pmm c.
Definition load32 (a : Z) : ST paging Z := gets (fun s => read32 (pg_mem s) a).
Definition store32 (a v : Z) : ST paging unit :=
  modify (fun s => set_mem (write32 (pg_mem s) a v) s).

Definition pde_index (addr : Z) : Z := Z.land (Z.shiftr addr 22) 0x3FF.
Definition pte_index (addr : Z) : Z := Z.land (Z.shiftr addr 12) 0x3FF.

(** [&g_pageDirectory[i]] and [&pt[i]]. *)
Definition pde_addr (i : Z) : ST paging Z := gets (fun s => g_pageDirectory s + 4 * i).

Definition IDENTITY_END : Z := 64 * 1024 * 1024.
Definition MAX_TRIES : nat := 100.

(** The [do ... while (tries < MAX_TRIES)] loop of [ensureTable], [n] tries
    left: the frame found, or 0 where the code returns [nullptr]. *)
Fixpoint table_frame (n : nat) : ST paging Z :=
  match n with
  | O => ret 0
  | S n' =>
      let! frame := on_pmm Pmm.AllocFrame in
      if frame =? 0 then ret 0
      else
        kassert (Z.land frame (PAGE_SIZE - 1) =? 0);;;
        if frame <? IDENTITY_END then ret frame
        else (on_pmm (Pmm.FreeFrame frame);;; table_frame n')
  end.

(** [ensureTable]: the address of the page table for [vaddr], 0 for [nullptr]. *)
Definition ensureTable (vaddr : Z) (create user : bool) : ST paging Z :=
  let! ea := pde_addr (pde_index vaddr) in
  let! pde := load32 ea in
  if Z.land pde 1 =? 0 then
    if negb create then ret 0
    else
      let! frame := table_frame MAX_TRIES in
      if frame =? 0 then ret 0
      else
        for_loop 1024 0 (fun i => store32 (frame + 4 * i) 0);;;
        let pdeFlags := Z.lor Present RW in
        let pdeFlags := if user then Z.lor pdeFlags User else pdeFlags in
        store32 ea (Z.lor (Z.land frame 0xFFFFF000) pdeFlags);;;
        ret frame
  else
    let ptPhys := Z.land pde 0xFFFFF000 in
    if IDENTITY_END <=? ptPhys then ret 0 else ret ptPhys.

(** [if (flags & User) g_pageDirectory[pdi].value |= User;] of [MapPage]. *)
Definition user_bit (k : Z) (user : bool) : ST paging unit :=
  if user then
    let! ea := pde_addr k in
    let! pde := load32 ea in
    store32 ea (Z.lor pde User)
  else ret tt.

Definition MapPage (vaddr paddr flags : Z) : ST paging unit :=
  kassert (Z.land (u32 paddr) (PAGE_SIZE - 1) =? 0);;;
  let user := negb (Z.land flags User =? 0) in
  let! pt := ensureTable vaddr true user in
  if pt =? 0 then ret tt
  else
    user_bit (pde_index vaddr) user;;;
    store32 (pt + 4 * pte_index vaddr)
            (Z.lor (Z.lor (Z.land paddr 0xFFFFF000) (Z.land flags 0xFFF)) Present).

Definition UnmapPage (vaddr : Z) : ST paging unit :=
  let! pt := ensureTable vaddr false false in
  if pt =? 0 then ret tt else store32 (pt + 4 * pte_index vaddr) 0.

Definition GetPhys (vaddr : Z) : ST paging Z :=
  let! pt := ensureTable vaddr false false in
  if pt =? 0 then ret 0
  else
    let! pte := load32 (pt + 4 * pte_index vaddr) in
    if Z.land pte Present =? 0 then ret 0
    else ret (Z.lor (Z.land pte 0xFFFFF000) (Z.land vaddr 0xFFF)).

Definition RemapPageFlags (vaddr flags : Z) : ST paging unit :=
  let user := negb (Z.land flags User =? 0) in
  let! pt := ensureTable vaddr user user in
  if pt =? 0 then ret tt
  else
    let! pte := load32 (pt + 4 * pte_index vaddr) in
    if Z.land pte Present =? 0 then ret tt
    else
      store32 (pt + 4 * pte_index vaddr)
              (Z.lor (Z.lor (Z.land pte 0xFFFFF000) (Z.land flags 0xFFF)) Present).

(** [while (off < size) { if (!body(off)) break; off += PAGE_SIZE; }] with the
    32-bit counter [off]; [fuel] bounds the number of rounds. *)
Fixpoint range_loop (fuel : nat) (off size : Z) (body : Z -> ST paging bool) : ST paging unit :=
  match fuel with
  | O => stuck
  | S fuel' =>
      if off <? size then
        let! continue := body off in
        if continue then range_loop fuel' (u32 (off + PAGE_SIZE)) size body else ret tt
      else ret tt
  end.

(** One round more than the pages a 32-bit address space holds. *)
Definition RANGE_FUEL : nat := Z.to_nat (2 ^ 20 + 1).

Definition UnmapRange (vaddr size : Z) : ST paging unit :=
  range_loop RANGE_FUEL 0 size (fun off => UnmapPage (u32 (vaddr + off));;; ret true).

(** One round of [MapRange]. *)
Definition map_round (vaddr paddr flags off : Z) : ST paging bool :=
  MapPage (u32 (vaddr + off)) (u32 (paddr + off)) flags;;;
  let expect := Z.land (u32 (paddr + off)) 0xFFFFF000 in
  let! got := GetPhys (u32 (vaddr + off)) in
  ret (Z.land got 0xFFFFF000 =? expect).

Definition MapRange (vaddr paddr size flags : Z) : ST paging unit :=
  range_loop RANGE_FUEL 0 size (map_round vaddr paddr flags).

Definition RemapRangeFlags (vaddr size flags : Z) : ST paging unit :=
  range_loop RANGE_FUEL 0 size (fun off => RemapPageFlags (u32 (vaddr + off)) flags;;; ret true).

(** The identity map loop of [Init]: [for (addr = 0; addr < ID_MAP_END; addr += PAGE_SIZE)],
    its counter being the page number. *)
Definition identity_map (pages : nat) : ST paging unit :=
  for_loop pages 0 (fun i => MapPage (i * PAGE_SIZE) (i * PAGE_SIZE) (Z.lor Present RW)).

(** [Paging::Init]; the linker symbols [text_end], [rodata_start] and
    [rodata_end] are parameters. *)
Definition Init (text_end rodata_start rodata_end : Z) : ST paging unit :=
  let! pdPhys := on_pmm Pmm.AllocFrame in
  if pdPhys =? 0 then ret tt
  else
    modify (set_pd pdPhys);;;
    for_loop 1024 0 (fun i => store32 (pdPhys + 4 * i) 0);;;
    identity_map (Z.to_nat (IDENTITY_END / PAGE_SIZE));;;
    modify (set_cr3 (u32 pdPhys));;;
    let! cr0 := gets pg_cr0 in
    modify (set_cr0 (Z.lor cr0 0x80000000));;;
    RemapRangeFlags 0x00100000 (u32 (text_end - 0x00100000)) Present;;;
    RemapRangeFlags rodata_start (u32 (rodata_end - rodata_start)) Present.

(** * Arithmetic of entries and indices *)

Lemma land_fff v : Z.land v 0xFFF = v mod 4096.
Proof. change 0xFFF with (Z.ones 12). by rewrite Z.land_ones by lia. Qed.

Lemma land_present v : Z.land v 1 = v mod 2.
Proof. change 1 with (Z.ones 1). by rewrite Z.land_ones by lia. Qed.

Lemma land_hi20 v : 0 <= v < 2 ^ 32 -> Z.land v 0xFFFFF000 = 4096 * (v / 4096).
Proof.
  intros Hv. change 0xFFFFF000 with (Z.shiftl (Z.ones 20) 12).
  change 4096 with (2 ^ 12) at 2. rewrite <- Z.shiftr_div_pow2 by lia.
  rewrite Z.mul_comm. change 4096 with (2 ^ 12). rewrite <- Z.shiftl_mul_pow2 by lia.
  apply Z.bits_inj'. intros n Hn.
  rewrite Z.land_spec, !Z.shiftl_spec, Z.testbit_ones by lia.
  destruct (Z.ltb_spec n 12).
  - rewrite !(Z.testbit_neg_r _ (n - 12)) by lia. rewrite andb_comm.
    destruct (Z.leb_spec 0 (n - 12)); [lia|done].
  - rewrite Z.shiftr_spec by lia. replace (n - 12 + 12) with n by lia.
    destruct (Z.leb_spec 0 (n - 12)); [|lia]. destruct (Z.ltb_spec (n - 12) 20); cbn.
    + apply andb_true_r.
    + rewrite andb_false_r. symmetry. apply (Z.bits_above_log2 v n); [lia|].
      destruct (decide (v = 0)) as [->|]; [cbn; lia|].
      apply Z.log2_lt_pow2; [lia|]. apply Z.lt_le_trans with (2 ^ 32); [lia|].
      apply Z.pow_le_mono_r; lia.
Qed.

(** Or-ing flag bits into a page-aligned address is an addition. *)
Lemma lor_flags fr fl : fr mod 4096 = 0 -> 0 <= fl < 4096 -> Z.lor fr fl = fr + fl.
Proof.
  intros Hfr Hfl. rewrite <- Z.lxor_lor, <- Z.add_nocarry_lxor; try done;
    (rewrite (Z.div_mod fr 4096) by lia; rewrite Hfr, Z.add_0_r;
     change 4096 with (2 ^ 12); rewrite Z.mul_comm, <- Z.shiftl_mul_pow2 by lia;
     apply Z.bits_inj'; intros n Hn; rewrite Z.land_spec, Z.bits_0, Z.shiftl_spec by lia;
     destruct (Z.ltb_spec n 12);
     [rewrite (Z.testbit_neg_r _ (n - 12)) by lia; done|];
     rewrite (Z.bits_above_log2 fl n); [apply andb_false_r|lia|];
     destruct (decide (fl = 0)) as [->|]; [cbn; lia|];
     apply Z.log2_lt_pow2; [lia|]; apply Z.lt_le_trans with (2 ^ 12); [lia|];
     apply Z.pow_le_mono_r; lia).
Qed.

Lemma land_le_mask v n : 0 <= n -> 0 <= Z.land v (Z.ones n) < 2 ^ n.
Proof. intros. rewrite Z.land_ones by done. apply Z.mod_pos_bound. lia. Qed.

(** The flag field [MapPage] writes: the low twelve bits with [Present] set. *)
Definition entry_flags (flags : Z) : Z := Z.lor (Z.land flags 0xFFF) Present.

Lemma lor_lt a b n : 0 <= n -> 0 <= a < 2 ^ n -> 0 <= b < 2 ^ n -> 0 <= Z.lor a b < 2 ^ n.
Proof.
  intros Hn Ha Hb. replace (Z.lor a b) with (Z.lor a b mod 2 ^ n); [apply Z.mod_pos_bound; lia|].
  rewrite <- Z.land_ones, Z.land_lor_distr_l, !Z.land_ones by done. by rewrite !Z.mod_small.
Qed.

Lemma entry_flags_range flags : 0 <= entry_flags flags < 4096.
Proof.
  apply (lor_lt _ _ 12); [lia| |unfold Present; lia].
  change 0xFFF with (Z.ones 12). by apply land_le_mask.
Qed.

Lemma lor_odd v : Z.lor v 1 mod 2 = 1.
Proof.
  rewrite <- Z.bit0_mod, Z.lor_spec. change (Z.testbit 1 0) with true. by rewrite orb_true_r.
Qed.

Lemma entry_flags_present flags : entry_flags flags mod 2 = 1.
Proof. apply lor_odd. Qed.

Lemma pde_index_spec a : 0 <= a < 2 ^ 32 -> pde_index a = a / 4194304.
Proof.
  intros. unfold pde_index. change 0x3FF with (Z.ones 10). rewrite Z.land_ones by lia.
  rewrite Z.shiftr_div_pow2 by lia. change (2 ^ 22) with 4194304. change (2 ^ 10) with 1024.
  rewrite Z.mod_small; [done|]. zdiv.
Qed.

Lemma pte_index_spec a : 0 <= a < 2 ^ 32 -> pte_index a = (a / 4096) mod 1024.
Proof.
  intros. unfold pte_index. change 0x3FF with (Z.ones 10). rewrite Z.land_ones by lia.
  by rewrite Z.shiftr_div_pow2 by lia.
Qed.

(** Two addresses with the same directory and table index share their page. *)
Lemma index_inj a b :
  0 <= a < 2 ^ 32 -> 0 <= b < 2 ^ 32 ->
  pde_index a = pde_index b -> pte_index a = pte_index b -> a / 4096 = b / 4096.
Proof. intros Ha Hb. rewrite !pde_index_spec, !pte_index_spec by done. zdiv. Qed.

Lemma index_range a :
  0 <= a < 2 ^ 32 -> 0 <= pde_index a < 1024 /\ 0 <= pte_index a < 1024.
Proof. intros. rewrite pde_index_spec, pte_index_spec by done. zdiv. Qed.

(** * The page-table tree as a map from pages to entries *)

Definition pde (s : paging) (i : Z) : Z := read32 (pg_mem s) (g_pageDirectory s + 4 * i).
Definition is_present (v : Z) : bool := v mod 2 =? 1.
Definition table (s : paging) (i : Z) : Z := 4096 * (pde s i / 4096).

(** The page-table entry that maps [va], 0 where there is no table. *)
Definition pte_of (s : paging) (va : Z) : Z :=
  if is_present (pde s (pde_index va))
  then read32 (pg_mem s) (table s (pde_index va) + 4 * pte_index va) else 0.

(** A frame the kernel can reach through the identity map and the allocator
    has handed out. *)
Definition frame_ok (s : paging) (a : Z) : Prop :=
  exists f, a = 4096 * f /\ 0 < f < g_frameCap (pg_pmm s) /\ f < 16384 /\
            Pmm.bit (pg_pmm s) f = true.

Record wf (s : paging) : Prop := {
  wf_pmm : Pmm.wf (pg_pmm s);
  wf_frame0 : Pmm.bit (pg_pmm s) 0 = true;
  wf_pd : frame_ok s (g_pageDirectory s);
  wf_table : forall i, 0 <= i < 1024 -> is_present (pde s i) = true ->
    frame_ok s (table s i) /\ table s i <> g_pageDirectory s;
  wf_inj : forall i j, 0 <= i < 1024 -> 0 <= j < 1024 ->
    is_present (pde s i) = true -> is_present (pde s j) = true ->
    table s i = table s j -> i = j;
}.

(** A frame usable as a page table is free. *)
Definition avail (s : paging) : Prop :=
  exists f, 0 <= f < Z.min (g_frameCap (pg_pmm s)) 16384 /\ Pmm.bit (pg_pmm s) f = false.

(** Frames in use stay in use. *)
Definition keeps_used (s s' : paging) : Prop :=
  forall g, 0 <= g -> Pmm.bit (pg_pmm s) g = true -> Pmm.bit (pg_pmm s') g = true.

(** What every paging operation guarantees about frames and tables. *)
Record extends (s s' : paging) : Prop := {
  ext_regs : (g_pageDirectory s', pg_cr3 s', pg_cr0 s') = (g_pageDirectory s, pg_cr3 s, pg_cr0 s);
  ext_cap : g_frameCap (pg_pmm s') = g_frameCap (pg_pmm s);
  ext_used : keeps_used s s';
  ext_pde : forall j, 0 <= j < 1024 -> is_present (pde s j) = true -> is_present (pde s' j) = true;
}.

#[export] Instance extends_preorder : PreOrder extends.
Proof.
  split.
  - intros s. split; [done|done|by intros g|by intros j].
  - intros s1 s2 s3 [A1 B1 C1 D1] [A2 B2 C2 D2]. split; [congruence|congruence| |].
    + intros g Hg Hb. apply C2; [done|]. by apply C1.
    + intros j Hj Hp. apply D2; [done|]. by apply D1.
Qed.

(** Free frames below [B], and those the kernel can use as page tables. *)
Definition free_below (B : Z) (s : paging) : Z :=
  count_lt (fun f => negb (Pmm.bit (pg_pmm s) f)) (Z.to_nat B).
Definition low_free (s : paging) : Z := free_below (Z.min (g_frameCap (pg_pmm s)) 16384) s.

Lemma free_below_pos B s : 0 < free_below B s -> exists f, 0 <= f < B /\ Pmm.bit (pg_pmm s) f = false.
Proof. intros (f & Hf & Hb)%count_lt_pos. exists f. split; [lia|]. by apply negb_true_iff. Qed.

Lemma low_free_avail s : 0 < low_free s -> avail s.
Proof. apply free_below_pos. Qed.

Lemma frame_ok_mono s s' a :
  g_frameCap (pg_pmm s') = g_frameCap (pg_pmm s) -> keeps_used s s' ->
  frame_ok s a -> frame_ok s' a.
Proof. intros Hc Hk (f & -> & ? & ? & ?). exists f. rewrite Hc. split_and!; try lia. apply Hk; [lia|done]. Qed.

Lemma store32_step a v s : store32 a v s = Some (tt, set_mem (write32 (pg_mem s) a v) s).
Proof. done. Qed.

(** Changing the allocator only. *)
Lemma wf_set_pmm s p :
  wf s -> Pmm.wf p -> g_frameCap p = g_frameCap (pg_pmm s) ->
  (forall g, 0 <= g -> Pmm.bit (pg_pmm s) g = true -> Pmm.bit p g = true) ->
  wf (set_pmm p s).
Proof.
  intros [H1 H2 H3 H4 H5] Hp Hc Hk.
  assert (Hf : forall a, frame_ok s a -> frame_ok (set_pmm p s) a).
  { intros a. by apply frame_ok_mono. }
  split; [done|apply Hk; [lia|done]|by apply Hf| |done].
  intros i Hi Hpr. destruct (H4 i Hi Hpr) as [? ?]. split; [|done]. by apply Hf.
Qed.

Lemma bind_kassert {S A} (x : Z) (k : unit -> ST S A) s :
  x = 0 -> bind (kassert (x =? 0)) k s = k tt s.
Proof. by intros ->. Qed.

(** The frame allocator seen from the paging state. *)
Lemma alloc_step s :
  Pmm.wf (pg_pmm s) -> Pmm.bit (pg_pmm s) 0 = true ->
  (exists f p, on_pmm Pmm.AllocFrame s = Some (4096 * f, set_pmm p s) /\
     0 < f < g_frameCap (pg_pmm s) /\ Pmm.bit (pg_pmm s) f = false /\
     (forall g, 0 <= g < f -> Pmm.bit (pg_pmm s) g = true) /\
     Pmm.wf p /\ Pmm.flips (pg_pmm s) p f true) \/
  (on_pmm Pmm.AllocFrame s = Some (0, s) /\
     forall g, 0 <= g < g_frameCap (pg_pmm s) -> Pmm.bit (pg_pmm s) g = true).
Proof.
  intros Hwf H0.
  destruct (Pmm.AllocFrame_cases _ Hwf) as [(f & p & E & Hf & Hb & Hlow & Hwfp & Hfl & _)|[E Hall]];
    unfold on_pmm, zoom; rewrite E.
  - left. exists f, p. assert (f <> 0) by (intros ->; congruence).
    split_and!; try done; try lia. do 2 f_equal. unfold PAGE_SIZE. lia.
  - right. split; [|done]. by destruct s.
Qed.

Lemma free_step s p f :
  Pmm.wf p -> Pmm.flips (pg_pmm s) p f true -> 0 < f < g_frameCap (pg_pmm s) ->
  Pmm.bit (pg_pmm s) f = false -> g_frameCap (pg_pmm s) <= Pmm.MAX_FRAMES ->
  exists q, on_pmm (Pmm.FreeFrame (4096 * f)) (set_pmm p s) = Some (tt, set_pmm q s) /\
    Pmm.wf q /\ g_frameCap q = g_frameCap (pg_pmm s) /\
    forall g, 0 <= g -> Pmm.bit q g = Pmm.bit (pg_pmm s) g.
Proof.
  intros Hwfp [Hc Hfl] Hf Hb Hcap.
  destruct (Pmm.FreeFrame_cases p f Hwfp ltac:(lia)) as (q & E & Hwfq & Hq).
  rewrite decide_True in Hq by (split; [lia|]; rewrite Hfl by lia; by rewrite decide_True).
  destruct Hq as [[Hcq Hbq] _]. exists q. unfold on_pmm, zoom. cbn [pg_pmm set_pmm].
  replace (4096 * f) with (f * PAGE_SIZE) by (unfold PAGE_SIZE; lia).
  rewrite E. split_and!; [done|done|lia|].
  intros g Hg. rewrite Hbq, Hfl by done. case_decide; subst; done.
Qed.

(** Without a usable frame the search gives up and restores the allocator. *)
Lemma table_frame_none n : forall s,
  Pmm.wf (pg_pmm s) -> Pmm.bit (pg_pmm s) 0 = true -> ~ avail s ->
  exists p, table_frame n s = Some (0, set_pmm p s) /\ Pmm.wf p /\
     g_frameCap p = g_frameCap (pg_pmm s) /\
     forall g, 0 <= g -> Pmm.bit p g = Pmm.bit (pg_pmm s) g.
Proof.
  induction n as [|n IH]; intros s Hwf H0 Hna; pose proof Hwf as [Hcap _]; cbn [table_frame].
  { exists (pg_pmm s). split_and!; try done. by destruct s. }
  destruct (alloc_step s Hwf H0) as [(f & p & E & Hf & Hb & Hlow & Hwfp & Hfl)|[E Hall]];
    rewrite (bind_step _ _ _ _ _ E).
  2: { exists (pg_pmm s). split_and!; try done. by destruct s. }
  assert (16384 <= f) by (destruct (decide (f < 16384)); [|lia]; destruct Hna; exists f; split; [lia|done]).
  destruct (Z.eqb_spec (4096 * f) 0); [lia|].
  rewrite bind_kassert by (rewrite Z.mul_comm; apply Pmm.page_aligned).
  unfold IDENTITY_END. destruct (Z.ltb_spec (4096 * f) (64 * 1024 * 1024)); [lia|].
  destruct (free_step s p f Hwfp Hfl Hf Hb ltac:(lia)) as (q & Eq & Hwfq & Hcq & Hbq).
  rewrite (bind_step _ _ _ _ _ Eq).
  destruct (IH (set_pmm q s)) as (r & Er & Hwfr & Hcr & Hbr); [done| | |].
  - cbn. by rewrite Hbq.
  - intros (g & Hg & Hbg). cbn in *. apply Hna. exists g. rewrite <- Hbq by lia. split; [lia|done].
  - exists r. split_and!; [done|done|cbn in *; lia|]. intros g Hg. rewrite Hbr by done. by apply Hbq.
Qed.

(** With one, it takes the lowest free frame. *)
Lemma table_frame_some n s :
  Pmm.wf (pg_pmm s) -> Pmm.bit (pg_pmm s) 0 = true -> avail s ->
  exists f p, table_frame (S n) s = Some (4096 * f, set_pmm p s) /\
     0 < f < Z.min (g_frameCap (pg_pmm s)) 16384 /\ Pmm.bit (pg_pmm s) f = false /\
     (forall g, 0 <= g < f -> Pmm.bit (pg_pmm s) g = true) /\
     Pmm.wf p /\ Pmm.flips (pg_pmm s) p f true.
Proof.
  intros Hwf H0 (g & Hg & Hbg).
  destruct (alloc_step s Hwf H0) as [(f & p & E & Hf & Hb & Hlow & Hwfp & Hfl)|[E Hall]].
  2: { rewrite Hall in Hbg by lia. done. }
  assert (f <= g) by (destruct (decide (g < f)); [rewrite Hlow in Hbg by lia; done|lia]).
  exists f, p. split_and!; try done; try lia. cbn [table_frame].
  rewrite (bind_step _ _ _ _ _ E). destruct (Z.eqb_spec (4096 * f) 0); [lia|].
  rewrite bind_kassert by (rewrite Z.mul_comm; apply Pmm.page_aligned).
  unfold IDENTITY_END. by destruct (Z.ltb_spec (4096 * f) (64 * 1024 * 1024)); [|lia].
Qed.

Lemma avail_dec s :
  Pmm.wf (pg_pmm s) -> Pmm.bit (pg_pmm s) 0 = true -> avail s \/ ~ avail s.
Proof.
  intros Hwf H0. destruct (alloc_step s Hwf H0) as [(f & p & E & Hf & Hb & Hlow & _)|[E Hall]].
  - destruct (decide (f < 16384)).
    + left. exists f. split; [lia|done].
    + right. intros (g & Hg & Hbg). rewrite Hlow in Hbg by lia. done.
  - right. intros (g & Hg & Hbg). rewrite Hall in Hbg by lia. done.
Qed.

(** Clearing [n] words from word [lo] of a frame. *)
Lemma zero_loop_ok n : forall lo frame s,
  exists m, for_loop n lo (fun i => store32 (frame + 4 * i) 0) s = Some (tt, set_mem m s) /\
    (forall a, a < frame + 4 * lo \/ frame + 4 * (lo + Z.of_nat n) <= a ->
       read8 m a = read8 (pg_mem s) a) /\
    (forall i, lo <= i < lo + Z.of_nat n -> read32 m (frame + 4 * i) = 0).
Proof.
  induction n as [|n IH]; intros lo frame s; cbn [for_loop].
  { exists (pg_mem s). split_and!; [by destruct s|done|intros; lia]. }
  rewrite (bind_step _ _ _ _ _ (store32_step _ _ _)).
  set (s1 := set_mem _ s). destruct (IH (lo + 1) frame s1) as (m & E & Hout & Hin).
  exists m. split_and!.
  - rewrite E. by destruct s.
  - intros a Ha. rewrite Hout by lia. apply read8_write32_ne. lia.
  - intros i Hi. destruct (decide (i = lo)) as [->|]; [|apply Hin; lia].
    rewrite (read32_ext (pg_mem s1) m) by (intros; apply Hout; lia).
    apply read32_write32_eq.
Qed.

Lemma is_present_land v : (Z.land v 1 =? 0) = negb (is_present v).
Proof. rewrite land_present. unfold is_present. repeat case_zb; try done; zdiv. Qed.

Lemma pde_range s i : 0 <= pde s i < 2 ^ 32.
Proof. apply read32_range. Qed.

Lemma table_land s i : Z.land (pde s i) 0xFFFFF000 = table s i.
Proof. apply land_hi20, pde_range. Qed.

(** Words in different frames do not overlap. *)
Lemma words_apart f g i j :
  f <> g -> 0 <= i < 1024 -> 0 <= j < 1024 ->
  4096 * f + 4 * i + 4 <= 4096 * g + 4 * j \/ 4096 * g + 4 * j + 4 <= 4096 * f + 4 * i.
Proof. lia. Qed.

(** Installing entry [v] in slot [k] of the directory: a fresh, zeroed table
    or new flags on the table already there.  The translation is unchanged. *)
Lemma store_pde_ok s k v :
  wf s -> 0 <= k < 1024 -> 0 <= v < 2 ^ 32 -> is_present v = true ->
  frame_ok s (4096 * (v / 4096)) ->
  4096 * (v / 4096) <> g_pageDirectory s ->
  (forall j, 0 <= j < 1024 -> j <> k -> is_present (pde s j) = true -> table s j <> 4096 * (v / 4096)) ->
  (if is_present (pde s k) then table s k = 4096 * (v / 4096)
   else forall i, 0 <= i < 1024 -> read32 (pg_mem s) (4096 * (v / 4096) + 4 * i) = 0) ->
  let s' := set_mem (write32 (pg_mem s) (g_pageDirectory s + 4 * k) v) s in
  wf s' /\ extends s s' /\ pde s' k = v /\
  (forall va, 0 <= va < 2 ^ 32 -> pte_of s' va = pte_of s va).
Proof.
  intros [H1 H2 H3 H4 H5] Hk Hv Hpr Hfr Hne Hinj Htab s'.
  assert (Hpdk : pde s' k = v) by (unfold pde; cbn; rewrite read32_write32_eq; apply u32_small; lia).
  assert (Hpdo : forall j, 0 <= j < 1024 -> j <> k -> pde s' j = pde s j).
  { intros j Hj Hjk. unfold pde. cbn. apply read32_write32_ne. lia. }
  assert (Hread : forall f i, 4096 * f <> g_pageDirectory s -> 0 <= i < 1024 ->
    read32 (pg_mem s') (4096 * f + 4 * i) = read32 (pg_mem s) (4096 * f + 4 * i)).
  { intros f i Hf Hi. cbn. apply read32_write32_ne. destruct H3 as (g & Eg & _).
    rewrite Eg in *. destruct (words_apart f g i k); lia. }
  split_and!; [| |done|].
  2: { split; [done|done|by intros g|]. intros j Hj Hp. destruct (decide (j = k)) as [->|]; [by rewrite Hpdk|].
       by rewrite Hpdo. }
  - split; [done|done|done| |].
    + intros i Hi. unfold table. destruct (decide (i = k)) as [->|Hik].
      * rewrite Hpdk. by intros _.
      * rewrite Hpdo by done. by apply H4.
    + intros i j Hi Hj. unfold table.
      destruct (decide (i = k)) as [->|Hik], (decide (j = k)) as [->|Hjk]; [done| | |];
        rewrite ?Hpdk, ?Hpdo by done.
      * intros _ Hpj E. by destruct (Hinj j Hj Hjk Hpj).
      * intros Hpi _ E. by destruct (Hinj i Hi Hik Hpi).
      * by apply H5.
  - intros va Hva. destruct (index_range va Hva) as [Hd Ht]. unfold pte_of, table in *.
    destruct (decide (pde_index va = k)) as [->|Hik].
    + rewrite Hpdk, Hpr, Hread by done. destruct (is_present (pde s k)); [by rewrite Htab|].
      by apply Htab.
    + rewrite Hpdo by done. destruct (is_present (pde s (pde_index va))) eqn:Hp; [|done].
      apply Hread; [|done]. by apply H4.
Qed.

(** Writing entry [v] for the page of [va] in its table. *)
Lemma store_pte_ok s va v :
  wf s -> 0 <= va < 2 ^ 32 -> 0 <= v < 2 ^ 32 -> is_present (pde s (pde_index va)) = true ->
  let s' := set_mem (write32 (pg_mem s) (table s (pde_index va) + 4 * pte_index va) v) s in
  wf s' /\ extends s s' /\ forall va', 0 <= va' < 2 ^ 32 ->
    pte_of s' va' = if decide (va' / 4096 = va / 4096) then v else pte_of s va'.
Proof.
  intros [H1 H2 H3 H4 H5] Hva Hv Hpr s'. destruct (index_range va Hva) as [Hd Ht].
  destruct (H4 _ Hd Hpr) as [(f & Ef & Hf) Hne].
  assert (Hpd : forall j, 0 <= j < 1024 -> pde s' j = pde s j).
  { intros j Hj. unfold pde. cbn. apply read32_write32_ne. destruct H3 as (g & Eg & _).
    rewrite Ef, Eg in *. destruct (words_apart f g (pte_index va) j); lia. }
  split_and!.
  2: { split; [done|done|by intros g|]. intros j Hj. by rewrite Hpd. }
  - split; [done|done|done| |].
    + intros i Hi. unfold table. rewrite Hpd by done. by apply H4.
    + intros i j Hi Hj. unfold table. rewrite !Hpd by done. by apply H5.
  - intros va' Hva'. destruct (index_range va' Hva') as [Hd' Ht'].
    unfold pte_of, table. rewrite !Hpd by done.
    case_decide as Hpg.
    + assert (pde_index va' = pde_index va /\ pte_index va' = pte_index va) as [-> ->].
      { rewrite !pde_index_spec, !pte_index_spec by done. rewrite Hpg. zdiv. }
      rewrite Hpr. cbn. rewrite read32_write32_eq. apply u32_small. lia.
    + destruct (is_present (pde s (pde_index va'))) eqn:Hp'; [|done]. cbn.
      apply read32_write32_ne. destruct (H4 _ Hd' Hp') as [(f' & Ef' & _) _]. unfold table in *.
      rewrite Ef, Ef'. destruct (decide (pde_index va' = pde_index va)) as [Ed|Ed].
      * assert (pte_index va' <> pte_index va) by (intros Et; by destruct Hpg; apply index_inj).
        rewrite Ed in Ef'. lia.
      * assert (f <> f') by (intros ->; apply Ed, H5; unfold table; congruence).
        destruct (words_apart f f' (pte_index va) (pte_index va')); lia.
Qed.

Lemma free_below_flips B s p f :
  Pmm.flips (pg_pmm s) p f true -> 0 <= f < B -> Pmm.bit (pg_pmm s) f = false ->
  free_below B (set_pmm p s) = free_below B s - 1.
Proof.
  intros [_ Hb] Hf Hbf. unfold free_below. cbn [pg_pmm set_pmm].
  pose proof (count_lt_update (fun g => negb (Pmm.bit p g)) (fun g => negb (Pmm.bit (pg_pmm s) g))
    (Z.to_nat B) f ltac:(lia)) as HU; cbv beta in HU.
  rewrite (Hb f), decide_True, Hbf in HU by (lia || done).
  cbn [negb] in HU. rewrite Z.add_0_r in HU. rewrite <- HU; [lia|].
  intros g Hg Hne. rewrite Hb by lia. by rewrite decide_False.
Qed.

Lemma low_free_flips s p f :
  Pmm.flips (pg_pmm s) p f true -> 0 <= f < Z.min (g_frameCap (pg_pmm s)) 16384 ->
  Pmm.bit (pg_pmm s) f = false -> low_free (set_pmm p s) = low_free s - 1.
Proof. intros Hfl Hf Hb. unfold low_free. cbn. rewrite (proj1 Hfl). by apply free_below_flips with f. Qed.

(** The new table a failed directory lookup creates: the state with frame [f]
    taken, cleared and installed. *)
Lemma install_table s k f p (user : bool) :
  wf s -> 0 <= k < 1024 -> is_present (pde s k) = false ->
  0 < f < Z.min (g_frameCap (pg_pmm s)) 16384 -> Pmm.bit (pg_pmm s) f = false ->
  Pmm.wf p -> Pmm.flips (pg_pmm s) p f true ->
  let flags := if user then Z.lor (Z.lor Present RW) User else Z.lor Present RW in
  exists s',
    (for_loop 1024 0 (fun i => store32 (4096 * f + 4 * i) 0);;;
     store32 (g_pageDirectory s + 4 * k) (Z.lor (Z.land (4096 * f) 0xFFFFF000) flags);;;
     ret (4096 * f)) (set_pmm p s) = Some (4096 * f, s') /\
    wf s' /\ extends s s' /\ is_present (pde s' k) = true /\ table s' k = 4096 * f /\
    low_free s' = low_free s - 1 /\
    (forall va, 0 <= va < 2 ^ 32 -> pte_of s' va = pte_of s va).
Proof.
  intros Hwf Hk Hab Hf Hb Hwfp Hfl flags. pose proof Hfl as [Hc Hbits].
  assert (Hfl4 : 0 <= flags < 4096 /\ is_present flags = true) by (by destruct user).
  destruct Hfl4 as [Hrange Hodd].
  destruct (zero_loop_ok 1024 0 (4096 * f) (set_pmm p s)) as (m & E & Hout & Hzero).
  rewrite (bind_step _ _ _ _ _ E), (bind_step _ _ _ _ _ (store32_step _ _ _)).
  set (s1 := set_mem m (set_pmm p s)). cbn [pg_mem set_mem set_pmm g_pageDirectory] in *.
  assert (Hv : Z.lor (Z.land (4096 * f) 4294963200) flags = 4096 * f + flags).
  { rewrite land_hi20 by lia. replace (4096 * f / 4096) with f by zdiv.
    apply lor_flags; [zdiv|done]. }
  rewrite Hv. assert (Htb : (4096 * f + flags) / 4096 = f) by zdiv.
  assert (Hpr : is_present (4096 * f + flags) = true).
  { unfold is_present in *. apply Z.eqb_eq in Hodd. apply Z.eqb_eq. zdiv. }
  pose proof Hwf as [H1 H2 (g & Eg & Hg1 & Hg2 & Hg3) H4 H5].
  assert (Hfresh : forall a, frame_ok s a -> a <> 4096 * f).
  { intros a (h & -> & _ & _ & Hh) Eh. assert (h = f) by lia. subst h. congruence. }
  assert (Hm : forall a, frame_ok s a -> forall i, 0 <= i < 1024 ->
    read32 m (a + 4 * i) = read32 (pg_mem s) (a + 4 * i)).
  { intros a Ha i Hi. pose proof (Hfresh a Ha). destruct Ha as (h & -> & _).
    apply read32_ext. intros j Hj. apply Hout. lia. }
  assert (Hpde : forall i, 0 <= i < 1024 -> pde s1 i = pde s i).
  { intros i Hi. unfold pde, s1. cbn. apply Hm; [|done]. by exists g. }
  assert (Hwf0 : wf (set_pmm p s)).
  { apply wf_set_pmm; [done|done|done|]. intros h Hh Hbh. rewrite Hbits by done. by case_decide. }
  assert (Hwf1 : wf s1).
  { destruct Hwf0 as [K1 K2 K3 K4 K5]. split; [done|done|done| |].
    - intros i Hi. unfold table. rewrite Hpde by done. by apply K4.
    - intros i j Hi Hj. unfold table. rewrite !Hpde by done. by apply K5. }
  assert (Hpte : forall va, 0 <= va < 2 ^ 32 -> pte_of s1 va = pte_of s va).
  { intros va Hva. destruct (index_range va Hva) as [Hd Ht]. unfold pte_of, table.
    rewrite Hpde by done. destruct (is_present (pde s (pde_index va))) eqn:Hp; [|done].
    apply Hm; [|done]. by apply H4. }
  destruct (store_pde_ok s1 k (4096 * f + flags)) as (Hwf2 & Hext & Hpdk & Hpte2);
    rewrite ?Htb; try done; try lia.
  - exists f. cbn. rewrite Hc. split_and!; try done; try lia. rewrite Hbits by lia. by rewrite decide_True.
  - cbn. intros E2. apply (Hfresh (g_pageDirectory s)); [by exists g|done].
  - intros j Hj _. unfold table. rewrite Hpde by done. intros Hp. apply Hfresh. by apply H4.
  - rewrite Hpde, Hab by done. intros i Hi. apply Hzero. lia.
  - eexists (set_mem (write32 (pg_mem s1) (g_pageDirectory s1 + 4 * k) (4096 * f + flags)) s1).
    split; [reflexivity|]. split_and!; [done| | | | |].
    + etrans; [|exact Hext]. split; [done|done| |].
      * intros h Hh Hbh. cbn. rewrite Hbits by done. by case_decide.
      * intros j Hj. by rewrite Hpde.
    + by rewrite Hpdk.
    + unfold table. rewrite Hpdk. lia.
    + apply (low_free_flips s p f); [done|lia|done].
    + intros va Hva. rewrite Hpte2, Hpte by done. done.
Qed.

(** Every outcome of [ensureTable]. *)
Lemma ensureTable_ok s va create user :
  wf s -> 0 <= va < 2 ^ 32 ->
  exists t s', ensureTable va create user s = Some (t, s') /\ wf s' /\ extends s s' /\
    (forall va', 0 <= va' < 2 ^ 32 -> pte_of s' va' = pte_of s va') /\
    ((t = 0 /\ is_present (pde s (pde_index va)) = false /\ (create = true -> ~ avail s) /\
      low_free s' = low_free s) \/
     (t = table s' (pde_index va) /\ t <> 0 /\ is_present (pde s' (pde_index va)) = true /\
      low_free s' = low_free s - (if is_present (pde s (pde_index va)) then 0 else 1))).
Proof.
  intros Hwf Hva. destruct (index_range va Hva) as [Hk _]. set (k := pde_index va) in *.
  pose proof Hwf as [H1 H2 H3 H4 H5]. unfold ensureTable. fold k.
  rewrite (bind_step (pde_addr k) _ s (g_pageDirectory s + 4 * k) s) by done.
  rewrite (bind_step (load32 _) _ s (pde s k) s) by done.
  rewrite is_present_land. destruct (is_present (pde s k)) eqn:Hp; cbn [negb].
  - rewrite table_land. destruct (H4 k Hk Hp) as [(f & Ef & Hf1 & Hf2 & _) _].
    unfold IDENTITY_END. destruct (Z.leb_spec (64 * 1024 * 1024) (table s k)); [lia|].
    exists (table s k), s. split_and!; try done. right. split_and!; try done; lia.
  - destruct create; cbn [negb].
    2: { exists 0, s. split_and!; try done. left. by split_and!. }
    destruct (avail_dec s H1 H2) as [Hav|Hna].
    + destruct (table_frame_some 99 s H1 H2 Hav) as (f & p & E & Hf & Hb & _ & Hwfp & Hfl).
      rewrite (bind_step _ _ _ _ _ E). destruct (Z.eqb_spec (4096 * f) 0); [lia|].
      destruct (install_table s k f p user Hwf Hk Hp Hf Hb Hwfp Hfl)
        as (s' & E' & Hwf' & Hext & Hp' & Ht & Hlow & Hpte).
      exists (4096 * f), s'. split_and!; try done. right. split_and!; try done; lia.
    + destruct (table_frame_none 100 s H1 H2 Hna) as (p & E & Hwfp & Hc & Hbits).
      rewrite (bind_step _ _ _ _ _ E). exists 0, (set_pmm p s). split_and!; try done.
      * apply wf_set_pmm; try done. intros g Hg Hbg. by rewrite Hbits.
      * split; [done|done| |done]. intros g Hg Hbg. cbn. by rewrite Hbits.
      * left. split_and!; try done. unfold low_free. cbn. rewrite Hc. apply count_lt_ext.
        intros g Hg. rewrite Hbits by lia. done.
Qed.

Lemma user_bit_ok s1 k user :
  wf s1 -> 0 <= k < 1024 -> is_present (pde s1 k) = true ->
  exists s2, user_bit k user s1 = Some (tt, s2) /\ wf s2 /\ extends s1 s2 /\
    low_free s2 = low_free s1 /\ table s2 k = table s1 k /\ is_present (pde s2 k) = true /\
    forall va', 0 <= va' < 2 ^ 32 -> pte_of s2 va' = pte_of s1 va'.
Proof.
  intros Hwf1 Hk Hp. unfold user_bit. destruct user; [|by exists s1].
  rewrite (bind_step (pde_addr k) _ s1 (g_pageDirectory s1 + 4 * k) s1) by done.
  rewrite (bind_step (load32 _) _ s1 (pde s1 k) s1) by done. rewrite store32_step.
  pose proof (pde_range s1 k) as Hr. pose proof Hwf1 as [_ _ _ H4 H5].
  destruct (H4 k Hk Hp) as [Hfo Hne].
  assert (Hlr : 0 <= Z.lor (pde s1 k) User < 2 ^ 32)
    by (apply lor_lt; [lia|done|unfold User; lia]).
  assert (Htab : 4096 * (Z.lor (pde s1 k) User / 4096) = table s1 k).
  { rewrite <- land_hi20 by done. rewrite Z.land_lor_distr_l, table_land.
    unfold User. apply Z.lor_0_r. }
  assert (Hodd : is_present (Z.lor (pde s1 k) User) = true).
  { unfold is_present in *. apply Z.eqb_eq in Hp. apply Z.eqb_eq.
    rewrite <- Z.bit0_mod in Hp |- *. rewrite Z.lor_spec.
    destruct (Z.testbit (pde s1 k) 0); done. }
  destruct (store_pde_ok s1 k (Z.lor (pde s1 k) User)) as (W & X & P & Q);
    rewrite ?Htab; try done.
  - intros j Hj Hjk Hpj E2. apply Hjk. by apply H5.
  - by rewrite Hp.
  - eexists. split; [reflexivity|]. split_and!; try done.
    + unfold table at 1. by rewrite P.
    + by rewrite P.
Qed.

(** [MapPage] with the table at hand. *)
Lemma MapPage_ok s va pa flags :
  wf s -> 0 <= va < 2 ^ 32 -> 0 <= pa < 2 ^ 32 -> pa mod 4096 = 0 ->
  exists s', MapPage va pa flags s = Some (tt, s') /\ wf s' /\ extends s s' /\
    ((~ avail s /\ is_present (pde s (pde_index va)) = false /\ low_free s' = low_free s /\
      forall va', 0 <= va' < 2 ^ 32 -> pte_of s' va' = pte_of s va') \/
     (is_present (pde s' (pde_index va)) = true /\
      low_free s' = low_free s - (if is_present (pde s (pde_index va)) then 0 else 1) /\
      forall va', 0 <= va' < 2 ^ 32 ->
        pte_of s' va' = if decide (va' / 4096 = va / 4096) then pa + entry_flags flags
                        else pte_of s va')).
Proof.
  intros Hwf Hva Hpa Hal. destruct (index_range va Hva) as [Hk Ht]. unfold MapPage.
  rewrite (u32_small pa) by lia.
  rewrite bind_kassert by (change (PAGE_SIZE - 1) with 4095; by rewrite land_fff).
  set (user := negb (Z.land flags User =? 0)).
  destruct (ensureTable_ok s va true user Hwf Hva)
    as (t & s1 & E & Hwf1 & Hext1 & Hpte1 & [(-> & Hp & Hna & Hlow)|(-> & Hnz & Hp & Hlow)]);
    rewrite (bind_step _ _ _ _ _ E).
  { exists s1. split_and!; try done. left. split_and!; try done. by apply Hna. }
  destruct (Z.eqb_spec (table s1 (pde_index va)) 0); [done|].
  assert (Hv : Z.lor (Z.lor (Z.land pa 4294963200) (Z.land flags 4095)) Present = pa + entry_flags flags).
  { rewrite <- Z.lor_assoc, land_hi20 by lia. replace (4096 * (pa / 4096)) with pa by zdiv.
    apply lor_flags; [done|apply entry_flags_range]. }
  rewrite Hv. pose proof (entry_flags_range flags) as Hfr.
  destruct (user_bit_ok s1 (pde_index va) user Hwf1 Hk Hp) as (s2 & E2 & Hwf2 & Hext2 & Hlow2 & Htab2 & Hp2 & Hpte2).
  rewrite (bind_step _ _ _ _ _ E2), store32_step, <- Htab2.
  destruct (store_pte_ok s2 va (pa + entry_flags flags)) as (Hwf3 & Hext3 & Hpte3);
    [done|done|zdiv|done|].
  eexists. split; [reflexivity|]. split_and!; [done|by do 2 (etrans; [eassumption|])|].
  right. split_and!.
  - apply Hext3; [|done]. apply (index_range va Hva).
  - change (low_free s2 = low_free s - (if is_present (pde s (pde_index va)) then 0 else 1)). lia.
  - intros va' Hva'. rewrite Hpte3 by done. case_decide; [done|]. by rewrite Hpte2, Hpte1.
Qed.

Lemma lookup_table_ok s va :
  wf s -> 0 <= va < 2 ^ 32 ->
  ensureTable va false false s =
    Some (if is_present (pde s (pde_index va)) then table s (pde_index va) else 0, s) /\
  (is_present (pde s (pde_index va)) = true -> table s (pde_index va) <> 0).
Proof.
  intros Hwf Hva. destruct (index_range va Hva) as [Hk Ht].
  destruct (is_present (pde s (pde_index va))) eqn:Hp.
  - destruct (wf_table _ Hwf _ Hk Hp) as [(f & Ef & Hf1 & Hf2 & _) _]. split; [|lia].
    unfold ensureTable.
    rewrite (bind_step (pde_addr _) _ s (g_pageDirectory s + 4 * pde_index va) s) by done.
    rewrite (bind_step (load32 _) _ s (pde s (pde_index va)) s) by done.
    rewrite is_present_land, table_land, Hp. cbn [negb].
    unfold IDENTITY_END. by destruct (Z.leb_spec (64 * 1024 * 1024) (table s (pde_index va))); [lia|].
  - split; [|done]. unfold ensureTable.
    rewrite (bind_step (pde_addr _) _ s (g_pageDirectory s + 4 * pde_index va) s) by done.
    rewrite (bind_step (load32 _) _ s (pde s (pde_index va)) s) by done.
    by rewrite is_present_land, Hp.
Qed.

Lemma GetPhys_ok s va :
  wf s -> 0 <= va < 2 ^ 32 ->
  GetPhys va s = Some (if is_present (pte_of s va) then 4096 * (pte_of s va / 4096) + va mod 4096 else 0, s).
Proof.
  intros Hwf Hva. destruct (lookup_table_ok s va Hwf Hva) as [E Hnz]. unfold GetPhys, pte_of.
  rewrite (bind_step _ _ _ _ _ E). destruct (is_present (pde s (pde_index va))) eqn:Hp; [|done].
  destruct (Z.eqb_spec (table s (pde_index va)) 0); [by destruct Hnz|].
  set (v := read32 (pg_mem s) (table s (pde_index va) + 4 * pte_index va)).
  rewrite (bind_step (load32 _) _ s v s) by done.
  unfold Present. rewrite is_present_land. destruct (is_present v); [|done]. cbn [negb].
  rewrite land_hi20 by apply read32_range. rewrite land_fff, lor_flags; [done|zdiv|zdiv].
Qed.

(** * Single-page operations *)

(** The physical address the tables give [va], 0 when it is not mapped. *)
Definition phys (s : paging) (va : Z) : Z :=
  if is_present (pte_of s va) then 4096 * (pte_of s va / 4096) + va mod 4096 else 0.

Lemma GetPhys_phys s va : wf s -> 0 <= va < 2 ^ 32 -> fst <$> GetPhys va s = Some (phys s va).
Proof. intros. by rewrite GetPhys_ok. Qed.

Lemma phys_ext s s' va : pte_of s' va = pte_of s va -> phys s' va = phys s va.
Proof. unfold phys. by intros ->. Qed.

Lemma phys_entry s va pa fl :
  pte_of s va = pa + entry_flags fl -> pa mod 4096 = 0 -> phys s va = pa + va mod 4096.
Proof.
  intros E Hal. unfold phys. rewrite E. pose proof (entry_flags_range fl).
  pose proof (entry_flags_present fl). unfold is_present.
  replace ((pa + entry_flags fl) mod 2) with 1 by zdiv. cbn [Z.eqb Pos.eqb].
  replace ((pa + entry_flags fl) / 4096) with (pa / 4096) by zdiv. zdiv.
Qed.

(** C3: mapping a page.  When the page's table exists, or a frame is free
    below 64 MiB to hold a new one, [Paging::MapPage] returns with the invariant kept,
    [GetPhys] then translates every address of the page to the given frame,
    and the translation of every other page is what it was. *)
Theorem MapPage_translates s va pa flags :
  wf s -> 0 <= va < 2 ^ 32 -> 0 <= pa < 2 ^ 32 -> pa mod 4096 = 0 ->
  is_present (pde s (pde_index va)) = true \/ avail s ->
  exists s', MapPage va pa flags s = Some (tt, s') /\ wf s' /\
    forall va', 0 <= va' < 2 ^ 32 ->
      fst <$> GetPhys va' s' =
        if decide (va' / 4096 = va / 4096) then Some (pa + va' mod 4096)
        else fst <$> GetPhys va' s.
Proof.
  intros Hwf Hva Hpa Hal Hav.
  destruct (MapPage_ok s va pa flags) as (s' & E & Hwf' & Hext & [(Hna & Hp & _)|(Hp & _ & Hpte)]);
    [done..|destruct Hav; [congruence|done]|].
  exists s'. split_and!; try done. intros va' Hva'. rewrite !GetPhys_phys by done.
  specialize (Hpte va' Hva'). case_decide; f_equal; [|by apply phys_ext].
  by apply (phys_entry s' va' pa flags).
Qed.

(** when the page's table is missing and no frame below 64 MiB is free,
    [Paging::MapPage] returns without mapping anything and without telling its
    caller: every translation is unchanged. *)
Theorem MapPage_silent_failure s va pa flags :
  wf s -> 0 <= va < 2 ^ 32 -> 0 <= pa < 2 ^ 32 -> pa mod 4096 = 0 ->
  is_present (pde s (pde_index va)) = false -> ~ avail s ->
  exists s', MapPage va pa flags s = Some (tt, s') /\ wf s' /\
    forall va', 0 <= va' < 2 ^ 32 -> fst <$> GetPhys va' s' = fst <$> GetPhys va' s.
Proof.
  intros Hwf Hva Hpa Hal Hab Hna.
  destruct (MapPage_ok s va pa flags) as (s' & E & Hwf' & Hext & [(_ & _ & _ & Hpte)|(Hp & Hlow & Hpte)]);
    [done..| |].
  - exists s'. split_and!; try done. intros va' Hva'. rewrite !GetPhys_phys by done.
    f_equal. by apply phys_ext, Hpte.
  - exfalso. apply Hna. rewrite Hab in Hlow. apply low_free_avail.
    pose proof (count_lt_range (fun f => negb (Pmm.bit (pg_pmm s') f))
      (Z.to_nat (Z.min (g_frameCap (pg_pmm s')) 16384))).
    change (low_free s') with (free_below (Z.min (g_frameCap (pg_pmm s')) 16384) s') in Hlow. unfold free_below in Hlow. lia.
Qed.

Lemma UnmapPage_ok s va :
  wf s -> 0 <= va < 2 ^ 32 ->
  exists s', UnmapPage va s = Some (tt, s') /\ wf s' /\ extends s s' /\ low_free s' = low_free s /\
    forall va', 0 <= va' < 2 ^ 32 ->
      pte_of s' va' = if decide (va' / 4096 = va / 4096) then 0 else pte_of s va'.
Proof.
  intros Hwf Hva. destruct (lookup_table_ok s va Hwf Hva) as [E Hnz]. unfold UnmapPage.
  rewrite (bind_step _ _ _ _ _ E). destruct (is_present (pde s (pde_index va))) eqn:Hp.
  - destruct (Z.eqb_spec (table s (pde_index va)) 0); [by destruct Hnz|]. rewrite store32_step.
    destruct (store_pte_ok s va 0) as (W & X & P); [done|done|lia|done|]. eauto 10.
  - exists s. split_and!; try done. intros va' Hva'. case_decide as Hpg; [|done].
    unfold pte_of. replace (pde_index va') with (pde_index va); [by rewrite Hp|].
    rewrite !pde_index_spec by done. zdiv.
Qed.

(** [Paging::UnmapPage] removes exactly the page of the given address from
    the address space: [GetPhys] answers 0 for it and is unchanged elsewhere. *)
Theorem UnmapPage_spec s va :
  wf s -> 0 <= va < 2 ^ 32 ->
  exists s', UnmapPage va s = Some (tt, s') /\ wf s' /\
    forall va', 0 <= va' < 2 ^ 32 ->
      fst <$> GetPhys va' s' =
        if decide (va' / 4096 = va / 4096) then Some 0 else fst <$> GetPhys va' s.
Proof.
  intros Hwf Hva. destruct (UnmapPage_ok s va Hwf Hva) as (s' & E & Hwf' & _ & _ & Hpte).
  exists s'. split_and!; try done. intros va' Hva'. rewrite !GetPhys_phys by done.
  specialize (Hpte va' Hva'). case_decide; f_equal.
  - unfold phys. by rewrite Hpte.
  - by apply phys_ext.
Qed.

(** [RemapPageFlags] without the [User] flag never creates a table. *)
Lemma RemapPageFlags_ok s va flags :
  wf s -> 0 <= va < 2 ^ 32 -> Z.land flags User = 0 ->
  exists s', RemapPageFlags va flags s = Some (tt, s') /\ wf s' /\ extends s s' /\
    low_free s' = low_free s /\
    forall va', 0 <= va' < 2 ^ 32 ->
      pte_of s' va' =
        if decide (va' / 4096 = va / 4096 /\ is_present (pte_of s va') = true)
        then 4096 * (pte_of s va' / 4096) + entry_flags flags else pte_of s va'.
Proof.
  intros Hwf Hva Hfl. destruct (lookup_table_ok s va Hwf Hva) as [E Hnz]. unfold RemapPageFlags.
  rewrite Hfl. cbn [Z.eqb negb]. rewrite (bind_step _ _ _ _ _ E).
  assert (Hsame : forall va', 0 <= va' < 2 ^ 32 -> va' / 4096 = va / 4096 -> pte_of s va' = pte_of s va).
  { intros va' Hva' Hpg. unfold pte_of. rewrite !pde_index_spec, !pte_index_spec by done.
    replace (va' / 4194304) with (va / 4194304) by zdiv. by rewrite Hpg. }
  destruct (is_present (pde s (pde_index va))) eqn:Hp.
  - destruct (Z.eqb_spec (table s (pde_index va)) 0); [by destruct Hnz|].
    assert (Hv : read32 (pg_mem s) (table s (pde_index va) + 4 * pte_index va) = pte_of s va)
      by (unfold pte_of; by rewrite Hp).
    rewrite (bind_step (load32 _) _ s (pte_of s va) s) by (unfold load32, gets; by rewrite Hv).
    unfold Present at 1. rewrite is_present_land. destruct (is_present (pte_of s va)) eqn:Hpv; cbn [negb].
    + assert (0 <= pte_of s va < 2 ^ 32) by (rewrite <- Hv; apply read32_range).
      pose proof (entry_flags_range flags).
      rewrite <- Z.lor_assoc, land_hi20, lor_flags by (try apply entry_flags_range; try done; zdiv).
      rewrite store32_step. change (Z.lor (Z.land flags 4095) Present) with (entry_flags flags).
      destruct (store_pte_ok s va (4096 * (pte_of s va / 4096) + entry_flags flags))
        as (W & X & P); [done|done|zdiv|done|].
      eexists. split; [reflexivity|]. split_and!; try done. intros va' Hva'. rewrite P by done.
      destruct (decide (va' / 4096 = va / 4096)) as [Hpg|]; [|by rewrite decide_False by naive_solver].
      rewrite (Hsame va') by done. by rewrite decide_True.
    + exists s. split_and!; try done. intros va' Hva'. case_decide as Hc; [|done].
      destruct Hc as [Hpg Hpr]. rewrite (Hsame va') in Hpr by done. congruence.
  - exists s. split_and!; try done. intros va' Hva'. case_decide as Hc; [|done].
    destruct Hc as [Hpg Hpr]. rewrite (Hsame va') in Hpr by done.
    unfold pte_of in Hpr. by rewrite Hp in Hpr.
Qed.

(** * Ranges *)

(** The loop over a range returns when the size leaves room for the last
    increment of the 32-bit counter; [I off] holds before each round. *)
Lemma range_loop_ok size (body : Z -> ST paging bool) (I : Z -> paging -> Prop) (Stop : Z -> paging -> Prop) :
  size <= 2 ^ 32 - 4096 ->
  (forall off s, 0 <= off < size -> off mod 4096 = 0 -> I off s ->
     exists c s', body off s = Some (c, s') /\ if c : bool then I (off + 4096) s' else Stop off s') ->
  forall fuel off s, 0 <= off -> off mod 4096 = 0 -> off < Z.max 1 (size + 4096) ->
  size <= off + 4096 * (Z.of_nat fuel - 1) -> 0 < Z.of_nat fuel -> I off s ->
  exists s', range_loop fuel off size body s = Some (tt, s') /\
    ((exists off', 0 <= off' < size /\ Stop off' s') \/
     exists off', size <= off' < Z.max 1 (size + 4096) /\ off' mod 4096 = 0 /\ I off' s').
Proof.
  intros Hsz Hbody. induction fuel as [|fuel IH]; intros off s H0 Hal Hlt Hf Hpos HI; [lia|].
  cbn [range_loop]. destruct (Z.ltb_spec off size) as [Hin|Hout].
  - destruct (Hbody off s) as (c & s1 & E & HQ); [lia|done..|]. rewrite (bind_step _ _ _ _ _ E).
    destruct c.
    + unfold PAGE_SIZE. rewrite u32_small by lia. apply IH; try done; try lia. zdiv.
    + exists s1. split; [done|]. left. exists off. split; [lia|done].
  - exists s. split; [done|]. right. exists off. split_and!; [lia|lia|done|done].
Qed.

Lemma range_fuel : Z.of_nat RANGE_FUEL = 2 ^ 20 + 1.
Proof. unfold RANGE_FUEL. lia. Qed.
#[local] Opaque RANGE_FUEL.

Lemma div_pages x y : x mod 4096 = 0 -> (x + y) / 4096 = x / 4096 + y / 4096.
Proof. zdiv. Qed.

Lemma last_page size off :
  0 <= size -> size <= off < Z.max 1 (size + 4096) -> off mod 4096 = 0 ->
  off / 4096 = (size + 4095) / 4096.
Proof. zdiv. Qed.

(** The pages a range starting at the page-aligned [va] covers. *)
Definition in_range (va size a : Z) : Prop := va / 4096 <= a / 4096 < (va + size + 4095) / 4096.

(** [Paging::UnmapRange] terminates for every page-aligned start and every size up to
    [2^32 - 4096] that stays in the address space, unmaps exactly the pages
    the range touches and leaves the others as they were. *)
Theorem UnmapRange_spec s va size :
  wf s -> 0 <= va -> va mod 4096 = 0 -> 0 <= size <= 2 ^ 32 - 4096 -> va + size <= 2 ^ 32 ->
  exists s', UnmapRange va size s = Some (tt, s') /\ wf s' /\
    forall a, 0 <= a < 2 ^ 32 ->
      fst <$> GetPhys a s' =
        if decide (in_range va size a) then Some 0 else fst <$> GetPhys a s.
Proof.
  intros Hwf Hva Hal Hsz Hend.
  set (I := fun off s' => wf s' /\ forall a, 0 <= a < 2 ^ 32 ->
    pte_of s' a = if decide (va / 4096 <= a / 4096 < (va + off) / 4096) then 0 else pte_of s a).
  assert (Hbody : forall off s1, 0 <= off < size -> off mod 4096 = 0 -> I off s1 ->
    exists c s', (UnmapPage (u32 (va + off));;; ret true) s1 = Some (c, s') /\
      if c : bool then I (off + 4096) s' else False).
  { intros off s1 Hoff Hoal [Hwf1 Hpte1]. rewrite u32_small by lia.
    destruct (UnmapPage_ok s1 (va + off)) as (s2 & E2 & Hwf2 & _ & _ & Hpte2); [done|lia|].
    exists true, s2. rewrite (bind_step _ _ _ _ _ E2). split; [done|]. split; [done|].
    intros a Ha. rewrite Hpte2, Hpte1 by done. rewrite !div_pages by done.
    change (4096 / 4096) with 1. pose proof (Z.div_pos off 4096).
    repeat case_decide; lia. }
  assert (HI : I 0 s).
  { split; [done|]. intros a Ha. rewrite decide_False; [done|]. rewrite Z.add_0_r. lia. }
  destruct (range_loop_ok size _ I (fun _ _ => False) ltac:(lia) Hbody RANGE_FUEL 0 s
    ltac:(lia) eq_refl ltac:(lia) ltac:(rewrite range_fuel; lia) ltac:(rewrite range_fuel; lia) HI)
    as (s' & E & [(? & _ & [])|(off & Hoff & Hoal & Hwf' & Hpte)]).
  exists s'. split_and!; [done|done|]. intros a Ha. rewrite !GetPhys_phys by done.
  specialize (Hpte a Ha). unfold in_range.
  rewrite <- Z.add_assoc, div_pages, <- (last_page size off) by (done || lia).
  rewrite div_pages in Hpte by done. case_decide; f_equal.
  - unfold phys. by rewrite Hpte.
  - by apply phys_ext.
Qed.

(** a size above [2^32 - 4096] makes the 32-bit offset of
    [Paging::UnmapRange] wrap to 0 before it reaches the size: the loop never
    ends, whatever number of rounds is allowed. *)
Theorem UnmapRange_diverges s va size fuel :
  wf s -> 2 ^ 32 - 4096 < size < 2 ^ 32 ->
  range_loop fuel 0 size (fun off => UnmapPage (u32 (va + off));;; ret true) s = None.
Proof.
  intros Hwf Hsz.
  enough (HG : forall off s, wf s -> 0 <= off <= 2 ^ 32 - 4096 -> off mod 4096 = 0 ->
    range_loop fuel off size (fun off => UnmapPage (u32 (va + off));;; ret true) s = None)
    by (apply HG; [done|lia|done]).
  clear s Hwf. induction fuel as [|fuel IH]; intros off s Hwf Hoff Hal; [done|]. cbn [range_loop].
  destruct (Z.ltb_spec off size); [|lia].
  destruct (UnmapPage_ok s (u32 (va + off))) as (s2 & E2 & Hwf2 & _); [done|apply u32_range|].
  rewrite (bind_step _ _ s true s2) by by rewrite (bind_step _ _ _ _ _ E2).
  apply IH; [done|unfold PAGE_SIZE, u32; zdiv..].
Qed.

Lemma avail_anti s s' : extends s s' -> avail s' -> avail s.
Proof.
  intros [_ Hc Hk _] (f & Hf & Hb). exists f. rewrite <- Hc. split; [done|].
  destruct (Pmm.bit (pg_pmm s) f) eqn:E; [|done]. rewrite Hk in Hb; [done|lia|done].
Qed.

(** The state after the pages below offset [off] of a range have been mapped. *)
Definition mapped_upto (va pa flags : Z) (s : paging) (off : Z) (s' : paging) : Prop :=
  wf s' /\ extends s s' /\
  forall a, 0 <= a < 2 ^ 32 ->
    pte_of s' a = if decide (va / 4096 <= a / 4096 < va / 4096 + off / 4096)
                  then pa + 4096 * (a / 4096 - va / 4096) + entry_flags flags else pte_of s a.

Lemma map_round_ok s va pa flags size off s1 :
  0 <= va -> va mod 4096 = 0 -> 0 < pa -> pa mod 4096 = 0 ->
  va + size <= 2 ^ 32 -> pa + size <= 2 ^ 32 ->
  0 <= off < size -> off mod 4096 = 0 -> mapped_upto va pa flags s off s1 ->
  exists c s2, map_round va pa flags off s1 = Some (c, s2) /\
    if c : bool then mapped_upto va pa flags s (off + 4096) s2
    else mapped_upto va pa flags s off s2 /\ ~ avail s2.
Proof.
  intros Hva Hval Hpa Hpal Hve Hpe Hoff Hoal (Hwf1 & Hext1 & Hpte1). unfold map_round. nowrap.
  assert (Hpo : (pa + off) mod 4096 = 0) by zdiv.
  assert (Hvo : (va + off) / 4096 = va / 4096 + off / 4096) by (by apply div_pages).
  assert (Hnext : (off + 4096) / 4096 = off / 4096 + 1) by zdiv.
  pose proof (Z.div_pos off 4096 ltac:(lia) ltac:(lia)).
  destruct (MapPage_ok s1 (va + off) (pa + off) flags)
    as (s2 & E & Hwf2 & Hext2 & Hcase); [done|lia|lia|done|].
  rewrite (bind_step _ _ _ _ _ E), (bind_step _ _ _ _ _ (GetPhys_ok s2 (va + off) Hwf2 ltac:(lia))).
  change (if is_present (pte_of s2 (va + off)) then _ else 0) with (phys s2 (va + off)).
  rewrite (land_hi20 (pa + off)) by lia. replace (4096 * ((pa + off) / 4096)) with (pa + off) by zdiv.
  assert (Hext : extends s s2) by (by etrans).
  destruct Hcase as [(Hna & Hab & _ & Hpte)|(Hp & _ & Hpte)].
  - assert (Hz : phys s2 (va + off) = 0).
    { unfold phys. rewrite Hpte by lia. unfold pte_of. by rewrite Hab. }
    rewrite Hz. destruct (Z.eqb_spec (Z.land 0 4294963200) (pa + off)) as [E0|]; [rewrite Z.land_0_l in E0; lia|].
    exists false, s2. split; [done|]. split; [|by intros ?%(avail_anti s1 s2)].
    split_and!; [done|done|]. intros a Ha. by rewrite Hpte, Hpte1.
  - assert (Hy : phys s2 (va + off) = pa + off).
    { rewrite (phys_entry s2 (va + off) (pa + off) flags); [zdiv| |done].
      rewrite Hpte by lia. by rewrite decide_True. }
    rewrite Hy, land_hi20 by lia. replace (4096 * ((pa + off) / 4096)) with (pa + off) by zdiv.
    rewrite Z.eqb_refl. exists true, s2. split; [done|]. split_and!; [done|done|].
    intros a Ha. rewrite Hpte, Hpte1, Hvo, Hnext by done.
    assert (4096 * (off / 4096) = off) by zdiv.
    repeat case_decide; lia.
Qed.

(** [Paging::MapRange] maps a prefix of the range and stops: it
    terminates, there is a number [n] of pages such that the first [n] pages
    of the range translate to the given physical range and no other
    translation has changed, and [n] falls short of the whole range only
    when no frame is left for a page table. *)
Theorem MapRange_prefix s va pa size flags :
  wf s -> 0 <= va -> va mod 4096 = 0 -> 0 < pa -> pa mod 4096 = 0 ->
  0 <= size <= 2 ^ 32 - 4096 -> va + size <= 2 ^ 32 -> pa + size <= 2 ^ 32 ->
  exists n s', MapRange va pa size flags s = Some (tt, s') /\ wf s' /\
    0 <= n <= (size + 4095) / 4096 /\ (n < (size + 4095) / 4096 -> ~ avail s') /\
    forall a, 0 <= a < 2 ^ 32 ->
      fst <$> GetPhys a s' =
        if decide (va / 4096 <= a / 4096 < va / 4096 + n) then Some (pa + (a - va))
        else fst <$> GetPhys a s.
Proof.
  intros Hwf Hva Hval Hpa Hpal Hsz Hve Hpe.
  assert (Hphys : forall off s', mapped_upto va pa flags s off s' -> forall a, 0 <= a < 2 ^ 32 ->
      fst <$> GetPhys a s' =
        if decide (va / 4096 <= a / 4096 < va / 4096 + off / 4096) then Some (pa + (a - va))
        else fst <$> GetPhys a s).
  { intros off s' (Hwf' & _ & Hpte) a Ha. rewrite !GetPhys_phys by done.
    specialize (Hpte a Ha). case_decide; f_equal; [|by apply phys_ext].
    rewrite (phys_entry s' a _ flags Hpte); zdiv. }
  assert (HI : mapped_upto va pa flags s 0 s).
  { split_and!; [done|done|]. intros a Ha. rewrite decide_False; [done|]. change (0 / 4096) with 0. lia. }
  destruct (range_loop_ok size (map_round va pa flags) (mapped_upto va pa flags s)
    (fun off s' => mapped_upto va pa flags s off s' /\ ~ avail s' /\ off mod 4096 = 0) ltac:(lia))
    with (fuel := RANGE_FUEL) (off := 0) (s := s)
    as (s' & E & [(off & Hoff & Hup & Hna & Hoal)|(off & Hoff & Hoal & Hup)]);
    [|lia|done|lia|rewrite range_fuel; lia|rewrite range_fuel; lia|done| |].
  - intros off s1 Hoff Hoal Hup.
    destruct (map_round_ok s va pa flags size off s1) as (c & s2 & E & Hc); try done.
    exists c, s2. split; [done|]. destruct c; [done|]. by destruct Hc.
  - exists (off / 4096), s'. split_and!; [done|apply Hup|zdiv|zdiv|done|by apply Hphys].
  - exists (off / 4096), s'. rewrite <- (last_page size off) by (done || lia).
    pose proof (Z.div_pos off 4096). split_and!; [done|apply Hup|lia|lia|lia|by apply Hphys].
Qed.

(** The entries of the pages a remapped range starts at or covers. *)
Definition remapped_upto (va flags : Z) (s : paging) (off : Z) (s' : paging) : Prop :=
  wf s' /\ extends s s' /\
  forall a, 0 <= a < 2 ^ 32 ->
    pte_of s' a = if decide (va / 4096 <= a / 4096 < va / 4096 + off / 4096 /\ is_present (pte_of s a) = true)
                  then 4096 * (pte_of s a / 4096) + entry_flags flags else pte_of s a.

Lemma entry_present e fl : is_present (4096 * e + entry_flags fl) = true.
Proof.
  pose proof (entry_flags_present fl). unfold is_present. apply Z.eqb_eq. zdiv.
Qed.

Lemma RemapRangeFlags_ok s va size flags :
  wf s -> 0 <= va -> 0 <= size <= 2 ^ 32 - 4096 -> va + size <= 2 ^ 32 -> Z.land flags User = 0 ->
  exists s', RemapRangeFlags va size flags s = Some (tt, s') /\
    remapped_upto va flags s (4096 * ((size + 4095) / 4096)) s'.
Proof.
  intros Hwf Hva Hsz Hend Hfl.
  assert (Hbody : forall off s1, 0 <= off < size -> off mod 4096 = 0 -> remapped_upto va flags s off s1 ->
    exists c s', (RemapPageFlags (u32 (va + off)) flags;;; ret true) s1 = Some (c, s') /\
      if c : bool then remapped_upto va flags s (off + 4096) s' else False).
  { intros off s1 Hoff Hoal (Hwf1 & Hext1 & Hpte1). rewrite u32_small by lia.
    destruct (RemapPageFlags_ok s1 (va + off) flags) as (s2 & E2 & Hwf2 & Hext2 & _ & Hpte2); [done|lia|done|].
    exists true, s2. rewrite (bind_step _ _ _ _ _ E2). split; [done|]. split_and!; [done|by etrans|].
    intros a Ha. rewrite Hpte2, Hpte1 by done. rewrite (Z.add_comm va off), (div_pages off va) by done.
    replace ((off + 4096) / 4096) with (off / 4096 + 1) by zdiv.
    pose proof (Z.div_pos off 4096). destruct (is_present (pte_of s a)) eqn:Hp.
    - destruct (decide (va / 4096 <= a / 4096 < va / 4096 + off / 4096 /\ true = true)) as [H1|H1];
        rewrite ?entry_present, ?Hp; repeat case_decide; try tauto; try lia.
    - rewrite !(decide_False (P := _ /\ false = true)) by (by intros [_ ?]). rewrite Hp.
      by rewrite decide_False by (by intros [_ ?]). }
  assert (HI : remapped_upto va flags s 0 s).
  { split_and!; [done|done|]. intros a Ha. rewrite decide_False; [done|]. change (0 / 4096) with 0. lia. }
  destruct (range_loop_ok size _ (remapped_upto va flags s) (fun _ _ => False) ltac:(lia) Hbody RANGE_FUEL 0 s
    ltac:(lia) eq_refl ltac:(lia) ltac:(rewrite range_fuel; lia) ltac:(rewrite range_fuel; lia) HI)
    as (s' & E & [(? & _ & [])|(off & Hoff & Hoal & Hup)]).
  exists s'. split; [done|]. rewrite <- (last_page size off) by (done || lia).
  by replace (4096 * (off / 4096)) with off by zdiv.
Qed.

(** * Initialisation *)

(** An all-zero directory in a freshly taken frame maps nothing. *)
Lemma empty_directory s f p m :
  Pmm.wf (pg_pmm s) -> Pmm.bit (pg_pmm s) 0 = true ->
  0 < f < Z.min (g_frameCap (pg_pmm s)) 16384 -> Pmm.wf p -> Pmm.flips (pg_pmm s) p f true ->
  (forall i, 0 <= i < 1024 -> read32 m (4096 * f + 4 * i) = 0) ->
  let s' := set_mem m (set_pd (4096 * f) (set_pmm p s)) in
  wf s' /\ forall a, 0 <= a < 2 ^ 32 -> pte_of s' a = 0.
Proof.
  intros H1 H2 Hf Hwfp [Hc Hb] Hz s'.
  assert (Hpde : forall i, 0 <= i < 1024 -> is_present (pde s' i) = false).
  { intros i Hi. unfold pde. cbn. by rewrite Hz. }
  split.
  - split; [done| | | |]; cbn.
    + rewrite Hb by lia. by case_decide.
    + exists f. rewrite Hb by lia. rewrite decide_True by done. cbn. split_and!; try done; lia.
    + intros i Hi. by rewrite Hpde.
    + intros i j Hi Hj. by rewrite Hpde.
  - intros a Ha. destruct (index_range a Ha). unfold pte_of. by rewrite Hpde.
Qed.

(** The page tables the identity map needs: one per 4 MiB. *)
Definition id_mapped (s0 : paging) (n : Z) (s : paging) : Prop :=
  wf s /\ extends s0 s /\ 16 - (n + 1023) / 1024 <= low_free s /\
  (forall j, 0 <= j < (n + 1023) / 1024 -> is_present (pde s j) = true) /\
  (forall a, 0 <= a < 2 ^ 32 ->
     pte_of s a = if decide (a / 4096 < n) then 4096 * (a / 4096) + 3 else 0).

Lemma identity_map_ok s0 (n : nat) s :
  Z.of_nat n <= 16384 -> id_mapped s0 0 s ->
  exists s', identity_map n s = Some (tt, s') /\ id_mapped s0 (Z.of_nat n) s'.
Proof.
  intros Hn H0.
  destruct (hoare_for n 0 (fun i => MapPage (i * PAGE_SIZE) (i * PAGE_SIZE) (Z.lor Present RW)) (id_mapped s0))
    with (s := s) as (u & s' & E & HI); [|done|].
  2: { destruct u. by exists s'. }
  intros i Hi s1 (Hwf & Hext0 & Hlow & Hpr & Hpte). unfold PAGE_SIZE.
  assert (Hk : pde_index (i * 4096) = i / 1024) by (rewrite pde_index_spec by lia; zdiv).
  assert (Hpg : i * 4096 / 4096 = i) by zdiv.
  destruct (MapPage_ok s1 (i * 4096) (i * 4096) (Z.lor Present RW))
    as (s2 & E & Hwf2 & Hext & Hcase); [done|lia|lia|zdiv|].
  rewrite Hk, Hpg in Hcase. exists tt, s2. split; [done|].
  destruct Hcase as [(Hna & Hab & _)|(Hp2 & Hlow2 & Hpte2)].
  - exfalso. apply Hna. apply low_free_avail.
    destruct (decide (i / 1024 < (i + 1023) / 1024)).
    + rewrite Hpr in Hab; [done|]. split; [apply Z.div_pos; lia|done].
    + zdiv.
  - split_and!; [done|by etrans| | |].
    + rewrite Hlow2. destruct (is_present (pde s1 (i / 1024))) eqn:Hp; [zdiv|].
      destruct (decide (i / 1024 < (i + 1023) / 1024)); [|zdiv].
      rewrite Hpr in Hp; [done|]. split; [apply Z.div_pos; lia|done].
    + intros j Hj. destruct (decide (j < (i + 1023) / 1024)).
      * apply Hext; [zdiv|]. apply Hpr. lia.
      * by replace j with (i / 1024) by zdiv.
    + intros a Ha. rewrite Hpte2, Hpte by done. change (entry_flags (Z.lor Present RW)) with 3.
      repeat case_decide; lia.
Qed.

(** The pages [Init] write-protects: [.text] and [.rodata]. *)
Definition protected (text_end rodata_start rodata_end a : Z) : Prop :=
  256 <= a / 4096 < 256 + (text_end - 0x00100000 + 4095) / 4096 \/
  rodata_start / 4096 <= a / 4096 < rodata_start / 4096 + (rodata_end - rodata_start + 4095) / 4096.

#[export] Instance protected_dec te rs re a : Decision (protected te rs re a).
Proof. unfold protected. apply _. Defined.

Lemma take_directory s :
  Pmm.wf (pg_pmm s) -> Pmm.bit (pg_pmm s) 0 = true -> 17 <= low_free s ->
  exists f p m, on_pmm Pmm.AllocFrame s = Some (4096 * f, set_pmm p s) /\ 0 < f < 16384 /\
    for_loop 1024 0 (fun i => store32 (4096 * f + 4 * i) 0) (set_pd (4096 * f) (set_pmm p s)) =
      Some (tt, set_mem m (set_pd (4096 * f) (set_pmm p s))) /\
    let s1 := set_mem m (set_pd (4096 * f) (set_pmm p s)) in id_mapped s1 0 s1.
Proof.
  intros H1 H2 Hlow. destruct (low_free_avail s ltac:(lia)) as (g & Hg & Hbg).
  destruct (alloc_step s H1 H2) as [(f & p & E & Hf & Hb & Hleast & Hwfp & Hfl)|[E Hall]].
  2: { rewrite Hall in Hbg by lia. done. }
  assert (f <= g) by (destruct (decide (g < f)); [rewrite Hleast in Hbg by lia; done|lia]).
  destruct (zero_loop_ok 1024 0 (4096 * f) (set_pd (4096 * f) (set_pmm p s))) as (m & E2 & _ & Hz).
  destruct (empty_directory s f p m) as [Hwf Hpte]; [done|done|lia|done|done|intros; apply Hz; lia|].
  exists f, p, m. split_and!; try done; try lia. unfold id_mapped. split_and!; [done|done| | |].
  - pose proof (low_free_flips s p f Hfl ltac:(lia) Hb) as HL.
    change (low_free (set_mem m (set_pd (4096 * f) (set_pmm p s)))) with (low_free (set_pmm p s)).
    change ((0 + 1023) / 1024) with 0. lia.
  - intros j Hj. change ((0 + 1023) / 1024) with 0 in Hj. lia.
  - intros a Ha. rewrite Hpte by done. rewrite decide_False; [done|].
    pose proof (Z.div_pos a 4096). lia.
Qed.

(** Two successive re-flaggings of an identity entry. *)
Lemma identity_entry (q e3 e4 e5 : Z) (P Q : Prop) `{!Decision P, !Decision Q} :
  e3 = 4096 * q + 3 ->
  e4 = (if decide (P /\ is_present e3 = true) then 4096 * (e3 / 4096) + entry_flags Present else e3) ->
  e5 = (if decide (Q /\ is_present e4 = true) then 4096 * (e4 / 4096) + entry_flags Present else e4) ->
  let fl := if decide (P \/ Q) then 1 else 3 in
  e5 mod 4096 = fl /\ e5 / 4096 = q /\ is_present e5 = true.
Proof.
  intros -> E4 E5 fl. enough (e5 = 4096 * q + fl) as ->.
  { clear E4 E5. unfold fl, is_present. clear fl. case_decide; (split_and!; [zdiv|zdiv|apply Z.eqb_eq; zdiv]). }
  unfold fl. rewrite E5, E4. clear E4 E5. change (entry_flags Present) with 1.
  assert (H3 : is_present (4096 * q + 3) = true) by (unfold is_present; apply Z.eqb_eq; zdiv).
  assert (H1 : is_present (4096 * q + 1) = true) by (unfold is_present; apply Z.eqb_eq; zdiv).
  assert ((4096 * q + 3) / 4096 = q) as -> by zdiv.
  destruct (decide (P /\ _)) as [[HP _]|HP]; rewrite ?H1, ?H3;
    (assert ((4096 * q + 1) / 4096 = q) as Hq1 by zdiv; assert ((4096 * q + 3) / 4096 = q) as Hq3 by zdiv);
    rewrite ?Hq1, ?Hq3; repeat case_decide; try lia; exfalso; tauto.
Qed.

(** C17: [Paging::Init] turns paging on with a correct identity map.  When 17
    frames below 64 MiB are free (the directory and 16 tables), it returns
    with the invariant established, [CR3] holding the directory and [CR0.PG]
    set; every address below 64 MiB translates to itself, no other address is
    mapped, the pages of [.text] and [.rodata] are present and read-only, and
    the other pages are writable. *)
Theorem Init_identity_map s text_end rodata_start rodata_end :
  Pmm.wf (pg_pmm s) -> Pmm.bit (pg_pmm s) 0 = true -> 17 <= low_free s ->
  0x00100000 <= text_end <= 2 ^ 31 -> 0 <= rodata_start <= rodata_end -> rodata_end <= 2 ^ 31 ->
  exists s', Init text_end rodata_start rodata_end s = Some (tt, s') /\ wf s' /\
    pg_cr3 s' = g_pageDirectory s' /\ pg_cr0 s' = Z.lor (pg_cr0 s) 0x80000000 /\
    forall a, 0 <= a < 2 ^ 32 ->
      fst <$> GetPhys a s' = Some (if decide (a < IDENTITY_END) then a else 0) /\
      (a < IDENTITY_END ->
       pte_of s' a mod 4096 = if decide (protected text_end rodata_start rodata_end a)
                              then Present else Z.lor Present RW).
Proof.
  intros H1 H2 Hlow Hte Hrs Hre. unfold Init.
  destruct (take_directory s H1 H2 Hlow) as (f & p & m & E0 & Hf & E1 & HI).
  rewrite (bind_step _ _ _ _ _ E0). destruct (Z.eqb_spec (4096 * f) 0); [lia|].
  erewrite bind_step by reflexivity. rewrite (bind_step _ _ _ _ _ E1).
  destruct (identity_map_ok _ (Z.to_nat (IDENTITY_END / PAGE_SIZE)) _ ltac:(done) HI)
    as (s2 & E2 & Hwf2 & [Hregs _ _ _] & _ & _ & Hpte2). injection Hregs as Epd _ Ecr0.
  rewrite (bind_step _ _ _ _ _ E2). do 3 (erewrite bind_step by reflexivity).
  set (s3 := set_cr0 _ _). assert (Hwf3 : wf s3) by (by destruct Hwf2).
  change (Z.of_nat (Z.to_nat (IDENTITY_END / PAGE_SIZE))) with 16384 in Hpte2.
  rewrite !u32_small by lia.
  destruct (RemapRangeFlags_ok s3 1048576 (text_end - 1048576) Present)
    as (s4 & E4 & Hwf4 & [Hregs4 _ _ _] & Hpte4); [done|lia|lia|lia|done|].
  rewrite (bind_step _ _ _ _ _ E4).
  destruct (RemapRangeFlags_ok s4 rodata_start (rodata_end - rodata_start) Present)
    as (s5 & E5 & Hwf5 & [Hregs5 _ _ _] & Hpte5); [done|lia|lia|lia|done|].
  injection Hregs4 as Ep4 Ec4 Er4. injection Hregs5 as Ep5 Ec5 Er5.
  exists s5. split_and!; [done|done|rewrite Ec5, Ec4, Ep5, Ep4; cbn; rewrite Epd; apply u32_small; lia|
    rewrite Er5, Er4; cbn; by rewrite Ecr0|].
  intros a Ha.
  assert (Hpte3 : pte_of s3 a = if decide (a / 4096 < 16384) then 4096 * (a / 4096) + 3 else 0)
    by (by apply Hpte2).
  specialize (Hpte4 a Ha). specialize (Hpte5 a Ha). rewrite GetPhys_phys by done.
  rewrite (Z.mul_comm 4096), Z.div_mul in Hpte4, Hpte5 by lia. change (1048576 / 4096) with 256 in Hpte4.
  unfold IDENTITY_END. destruct (decide (a < 64 * 1024 * 1024)) as [Hlo|Hhi].
  - rewrite decide_True in Hpte3 by zdiv.
    destruct (identity_entry (a / 4096) _ _ _ _ _ Hpte3 Hpte4 Hpte5) as (Hm & Hd & Hp).
    split; [|by intros _]. f_equal. unfold phys. rewrite Hp, Hd. symmetry. apply Z.div_mod. lia.
  - rewrite decide_False in Hpte3 by zdiv. rewrite Hpte3 in Hpte4.
    rewrite decide_False in Hpte4 by (by intros [_ ?]). rewrite Hpte4 in Hpte5.
    rewrite decide_False in Hpte5 by (by intros [_ ?]).
    split; [|lia]. unfold phys. by rewrite Hpte5.
Qed.

Lemma low_free_none s : low_free s = 0 -> ~ avail s.
Proof.
  intros Hz (f & Hf & Hb). pose proof (count_lt_zero _ _ Hz f ltac:(lia)) as Hn. cbv beta in Hn.
  by rewrite Hb in Hn.
Qed.

(** * Concrete runs *)

(** 8 MiB of memory, an empty directory in the first free frame. *)
Definition demo_pmm : Pmm.pmm :=
  match Pmm.Init 640 8192 0x100000 0x110800 Pmm.pmm_bss with
  | Some (_, p) => match Pmm.AllocFrame p with Some (_, q) => q | None => p end
  | None => Pmm.pmm_bss
  end.
Definition demo_paging : paging := mk_paging demo_pmm ∅ 0x111000 0 0x11.

Lemma demo_pde i : pde demo_paging i = 0.
Proof. reflexivity. Qed.

Lemma demo_paging_wf : wf demo_paging.
Proof.
  split.
  - split; [vm_compute; split; discriminate|vm_compute; reflexivity].
  - vm_compute; reflexivity.
  - exists 0x111. split_and!; vm_compute; reflexivity.
  - intros i _. rewrite demo_pde. discriminate.
  - intros i j _ _. rewrite demo_pde. discriminate.
Qed.

Lemma demo_avail : avail demo_paging.
Proof. exists 0x112. split; [vm_compute; split; [discriminate|reflexivity]|vm_compute; reflexivity]. Qed.

Lemma MapPage_translates_witness :
  exists s', MapPage 0x400000 0x500000 7 demo_paging = Some (tt, s') /\
    fst <$> GetPhys 0x400123 s' = Some 0x500123.
Proof.
  destruct (MapPage_translates demo_paging 0x400000 0x500000 7 demo_paging_wf) as (s' & E & _ & H);
    [lia|lia|reflexivity|right; exact demo_avail|].
  exists s'. split; [exact E|]. rewrite H by lia. rewrite decide_True by reflexivity. reflexivity.
Defined.

(** The same machine with every frame taken. *)
Definition full_pmm : Pmm.pmm :=
  match Pmm.markRangeUsed 0 0xFFFFFFF demo_pmm with Some (_, p) => p | None => demo_pmm end.
Definition full_paging : paging := mk_paging full_pmm ∅ 0x111000 0 0x11.

Lemma full_paging_wf : wf full_paging.
Proof.
  split.
  - split; [vm_compute; split; discriminate|vm_compute; reflexivity].
  - vm_compute; reflexivity.
  - exists 0x111. split_and!; vm_compute; reflexivity.
  - intros i _. change (pde full_paging i) with 0. discriminate.
  - intros i j _ _. change (pde full_paging i) with 0. discriminate.
Qed.

Lemma full_not_avail : ~ avail full_paging.
Proof. apply low_free_none. vm_compute; reflexivity. Qed.

Lemma MapPage_silent_failure_witness :
  exists s', MapPage 0x400000 0x500000 7 full_paging = Some (tt, s') /\
    fst <$> GetPhys 0x400123 s' = Some 0.
Proof.
  destruct (MapPage_silent_failure full_paging 0x400000 0x500000 7 full_paging_wf) as (s' & E & _ & H);
    [lia|lia|reflexivity|reflexivity|exact full_not_avail|].
  exists s'. split; [exact E|]. rewrite H by lia. reflexivity.
Defined.

Lemma UnmapPage_spec_witness :
  exists s', UnmapPage 0x400000 demo_paging = Some (tt, s') /\ fst <$> GetPhys 0x400123 s' = Some 0.
Proof.
  destruct (UnmapPage_spec demo_paging 0x400000 demo_paging_wf) as (s' & E & _ & H); [lia|].
  exists s'. split; [exact E|]. rewrite H by lia. rewrite decide_True by reflexivity. reflexivity.
Defined.

Lemma UnmapRange_spec_witness :
  exists s', UnmapRange 0x400000 0x2001 demo_paging = Some (tt, s') /\ fst <$> GetPhys 0x402123 s' = Some 0.
Proof.
  destruct (UnmapRange_spec demo_paging 0x400000 0x2001 demo_paging_wf) as (s' & E & _ & H);
    [lia|reflexivity|lia|lia|].
  exists s'. split; [exact E|]. rewrite H by lia. rewrite decide_True by (split; reflexivity || discriminate).
  reflexivity.
Defined.

Lemma UnmapRange_diverges_witness :
  range_loop 5 0 0xFFFFFFFF (fun off => UnmapPage (u32 (0x400000 + off));;; ret true) demo_paging = None.
Proof. apply (UnmapRange_diverges demo_paging 0x400000 0xFFFFFFFF 5 demo_paging_wf). lia. Defined.

Lemma MapRange_prefix_witness :
  exists n s', MapRange 0x400000 0x500000 0x2000 3 demo_paging = Some (tt, s') /\ 0 <= n <= 2 /\
    (n < 2 -> ~ avail s').
Proof.
  destruct (MapRange_prefix demo_paging 0x400000 0x500000 0x2000 3 demo_paging_wf)
    as (n & s' & E & _ & Hn & Ha & _); [lia|reflexivity|lia|reflexivity|lia|lia|lia|].
  exists n, s'. split; [exact E|]. split; [exact Hn|exact Ha].
Defined.

Lemma Init_identity_map_witness :
  exists s', Init 0x105000 0x106000 0x107800 demo_paging = Some (tt, s') /\
    fst <$> GetPhys 0x123456 s' = Some 0x123456 /\ fst <$> GetPhys 0x4000000 s' = Some 0.
Proof.
  destruct (Init_identity_map demo_paging 0x105000 0x106000 0x107800) as (s' & E & _ & _ & _ & H).
  - split; [vm_compute; split; discriminate|vm_compute; reflexivity].
  - vm_compute; reflexivity.
  - vm_compute; discriminate.
  - lia.
  - lia.
  - lia.
  - exists s'. split; [exact E|]. destruct (H 0x123456) as [H1 _]; [lia|].
    destruct (H 0x4000000) as [H2 _]; [lia|]. split; [exact H1|exact H2].
Defined.
