(* ===== verification/Heap.v ===== *)
(** The kernel heap: [src/kernel/src/memory/heap.cpp].

    Block headers live in the heap's own memory as a doubly linked list; the
    word below each pointer handed out holds the address of its block.  The
    heap is written against an interface, [PageSupply], for the two calls it
    makes on the frame allocator and on paging; [paging_supply] discharges it
    with the model of [pmm.cpp] and [paging.cpp].  [h_mem] is the memory at
    the heap's virtual addresses; a page added to the heap keeps whatever
    bytes its frame held. *)
From S2P Require Import Prelude Memory.
From S2P Require Pmm Paging.

Import Pmm (PAGE_SIZE).

(** What the heap uses of [PMM::AllocFrame] and [Paging::MapPage]. *)
Class PageSupply (S : Type) := {
  alloc_frame : ST S Z;
  map_page : Z -> Z -> Z -> ST S unit;
  supply_ok : S -> Prop;
  exhausted : S -> Prop;
  alloc_frame_ok s :
    supply_ok s -> exists f s', alloc_frame s = Some (f, s') /\ supply_ok s' /\
      0 <= f < 2 ^ 32 /\ f mod 4096 = 0 /\ (f = 0 -> exhausted s');
  map_page_ok s va f :
    supply_ok s -> 0 <= va < 2 ^ 32 -> 0 <= f < 2 ^ 32 -> f mod 4096 = 0 ->
    exists s', map_page va f (Z.lor Paging.Present Paging.RW) s = Some (tt, s') /\ supply_ok s';
}.

Record heap (S : Type) := mk_heap {
  h_mem : mem;
  g_heapBase : Z;
  g_heapEnd : Z;
  g_heapUsed : Z;
  g_heapLock : Z;
  g_firstBlock : Z;
  g_lastBlock : Z;
  h_supply : S;
}.
Arguments mk_heap {S}.
Arguments h_mem {S}.
Arguments g_heapBase {S}.
Arguments g_heapEnd {S}.
Arguments g_heapUsed {S}.
Arguments g_heapLock {S}.
Arguments g_firstBlock {S}.
Arguments g_lastBlock {S}.
Arguments h_supply {S}.

(** Offsets of the fields of [BlockHeader] and its size in a 32-bit build. *)
Definition f_magic : Z := 0.
Definition f_size : Z := 4.
Definition f_prev : Z := 8.
Definition f_next : Z := 12.
Definition f_used : Z := 16.
Definition f_reserved : Z := 20.
Definition HDR : Z := 24.

Definition HEAP_MAGIC : Z := 0x48454150.
Definition MIN_ALIGNMENT : Z := 8.
Definition SPLIT_THRESHOLD : Z := 32.

Definition align_up_ptr (value align : Z) : Z :=
  Z.land (u32 (value + align - 1)) (u32 (Z.lnot (u32 (align - 1)))).

(** [while (normalized < align) normalized <<= 1u;]: [None] when [fuel] rounds
    do not end the loop. *)
Fixpoint normalize_loop (fuel : nat) (normalized align : Z) : option Z :=
  if normalized <? align then
    match fuel with
    | O => None
    | S fuel' => normalize_loop fuel' (u32 (Z.shiftl normalized 1)) align
    end
  else Some normalized.

Definition normalize_align (align : Z) : option Z :=
  let align := if align <? MIN_ALIGNMENT then MIN_ALIGNMENT else align in
  if negb (Z.land align (u32 (align - 1)) =? 0) then normalize_loop 32 MIN_ALIGNMENT align
  else Some align.

Definition payload_start (block : Z) : Z := u32 (block + HDR).

Section Model.
Context {S : Type} `{PageSupply S}.

Definition set_mem (m : mem) (h : heap S) : heap S :=
  mk_heap m (g_heapBase h) (g_heapEnd h) (g_heapUsed h) (g_heapLock h) (g_firstBlock h)
          (g_lastBlock h) (h_supply h).
Definition set_end (e : Z) (h : heap S) : heap S :=
  mk_heap (h_mem h) (g_heapBase h) e (g_heapUsed h) (g_heapLock h) (g_firstBlock h)
          (g_lastBlock h) (h_supply h).
Definition set_used (n : Z) (h : heap S) : heap S :=
  mk_heap (h_mem h) (g_heapBase h) (g_heapEnd h) n (g_heapLock h) (g_firstBlock h)
          (g_lastBlock h) (h_supply h).
Definition set_lock (v : Z) (h : heap S) : heap S :=
  mk_heap (h_mem h) (g_heapBase h) (g_heapEnd h) (g_heapUsed h) v (g_firstBlock h)
          (g_lastBlock h) (h_supply h).
Definition set_first (b : Z) (h : heap S) : heap S :=
  mk_heap (h_mem h) (g_heapBase h) (g_heapEnd h) (g_heapUsed h) (g_heapLock h) b
          (g_lastBlock h) (h_supply h).
Definition set_last (b : Z) (h : heap S) : heap S :=
  mk_heap (h_mem h) (g_heapBase h) (g_heapEnd h) (g_heapUsed h) (g_heapLock h) (g_firstBlock h)
          b (h_supply h).
Definition set_supply (s : S) (h : heap S) : heap S :=
  mk_heap (h_mem h) (g_heapBase h) (g_heapEnd h) (g_heapUsed h) (g_heapLock h) (g_firstBlock h)
          (g_lastBlock h) s.

Definition supply {A} (c : ST S A) : ST (heap S) A := zoom h_supply set_supply c.
Definition load (a : Z) : ST (heap S) Z := gets (fun h => read32 (h_mem h) a).
Definition store (a v : Z) : ST (heap S) unit :=
  modify (fun h => set_mem (write32 (h_mem h) a v) h).

(** [*(reinterpret_cast<BlockHeader** >(ptr) - 1)], null for a null pointer. *)
Definition block_from_payload (ptr : Z) : ST (heap S) Z :=
  if ptr =? 0 then ret 0 else load (ptr - 4).

(** The test-and-set spin: it ends only if the lock is free. *)
Definition lock_heap : ST (heap S) unit :=
  let! l := gets g_heapLock in
  if l =? 0 then modify (set_lock 1) else stuck.
Definition unlock_heap : ST (heap S) unit := modify (set_lock 0).

Definition create_block_at (addr size prev : Z) : ST (heap S) Z :=
  store (addr + f_magic) HEAP_MAGIC;;;
  store (addr + f_size) size;;;
  store (addr + f_prev) prev;;;
  store (addr + f_next) 0;;;
  store (addr + f_used) 0;;;
  store (addr + f_reserved) 0;;;
  (if prev =? 0 then ret tt else store (prev + f_next) addr);;;
  let! first := gets g_firstBlock in
  (if first =? 0 then modify (set_first addr) else ret tt);;;
  modify (set_last addr);;;
  ret addr.

Definition absorb_next (block : Z) : ST (heap S) unit :=
  if block =? 0 then ret tt
  else
    let! next := load (block + f_next) in
    if next =? 0 then ret tt
    else
      let! used := load (next + f_used) in
      if negb (used =? 0) then ret tt
      else
        let! bsize := load (block + f_size) in
        let! nsize := load (next + f_size) in
        store (block + f_size) (u32 (bsize + (HDR + nsize)));;;
        let! nn := load (next + f_next) in
        store (block + f_next) nn;;;
        if negb (nn =? 0) then store (nn + f_prev) block else modify (set_last block).

Definition split_block (block usedSize : Z) : ST (heap S) unit :=
  if block =? 0 then ret tt
  else
    let! bsize := load (block + f_size) in
    if bsize <=? u32 (usedSize + HDR + SPLIT_THRESHOLD) then ret tt
    else
      let newBlock := u32 (payload_start block + usedSize) in
      let remaining := u32 (bsize - usedSize - HDR) in
      store (newBlock + f_magic) HEAP_MAGIC;;;
      store (newBlock + f_size) remaining;;;
      store (newBlock + f_prev) block;;;
      let! next := load (block + f_next) in
      store (newBlock + f_next) next;;;
      store (newBlock + f_used) 0;;;
      store (newBlock + f_reserved) 0;;;
      let! nn := load (newBlock + f_next) in
      (if negb (nn =? 0) then store (nn + f_prev) newBlock else modify (set_last newBlock));;;
      store (block + f_next) newBlock;;;
      store (block + f_size) usedSize.

(** One page more: the common body of the loops of [grow_heap] and [ensure];
    [false] where they return. *)
Definition add_page : ST (heap S) bool :=
  let! frame := supply alloc_frame in
  if frame =? 0 then ret false
  else
    let! e := gets g_heapEnd in
    supply (map_page e frame (Z.lor Paging.Present Paging.RW));;;
    modify (fun h => set_end (u32 (g_heapEnd h + PAGE_SIZE)) h);;;
    ret true.

Fixpoint add_pages (pages : nat) : ST (heap S) bool :=
  match pages with
  | O => ret true
  | Datatypes.S n => let! ok := add_page in if ok then add_pages n else ret false
  end.

Definition grow_heap (minPayload : Z) : ST (heap S) bool :=
  let totalBytes := u32 (minPayload + HDR) in
  let pages := u32 ((totalBytes + PAGE_SIZE - 1) / PAGE_SIZE) in
  let pages := if pages =? 0 then 1 else pages in
  let! growStart := gets g_heapEnd in
  let! ok := add_pages (Z.to_nat pages) in
  if negb ok then ret false
  else
    let! e := gets g_heapEnd in
    let addedBytes := u32 (e - growStart) in
    let! last := gets g_lastBlock in
    let! last_used := (if last =? 0 then ret 1 else load (last + f_used)) in
    if last_used =? 0 then
      let! sz := load (last + f_size) in
      store (last + f_size) (u32 (sz + addedBytes));;;
      ret true
    else
      let! _b := create_block_at growStart (u32 (addedBytes - HDR)) last in
      ret true.

(** The loop of [find_block] from [block]: the block, the user pointer and
    the bytes consumed, [(0, 0, 0)] for a null result. *)
Fixpoint find_loop (fuel : nat) (block size align : Z) : ST (heap S) (Z * Z * Z) :=
  if block =? 0 then ret (0, 0, 0)
  else match fuel with
  | O => stuck
  | Datatypes.S fuel' =>
      let! used := load (block + f_used) in
      let! next := load (block + f_next) in
      if negb (used =? 0) then find_loop fuel' next size align
      else
        let raw := payload_start block in
        let user := align_up_ptr (u32 (raw + 4)) align in
        let prefix := u32 (user - raw) in
        let consumed := u32 (prefix + size) in
        let! bsize := load (block + f_size) in
        if bsize <? consumed then find_loop fuel' next size align
        else ret (block, user, consumed)
  end.

(** A block takes at least its header: the list is no longer than this. *)
Definition block_fuel (h : heap S) : nat := Z.to_nat ((g_heapEnd h - g_heapBase h) / HDR).

Definition find_block (size align : Z) : ST (heap S) (Z * Z * Z) :=
  let! first := gets g_firstBlock in
  let! fuel := gets block_fuel in
  find_loop fuel first size align.

(** The part of [Alloc] after a block is found. *)
Definition take_block (block userPtr consumed : Z) : ST (heap S) Z :=
  split_block block consumed;;;
  store (block + f_used) 1;;;
  store (userPtr - 4) block;;;
  let! bsize := load (block + f_size) in
  modify (fun h => set_used (u32 (g_heapUsed h + bsize)) h);;;
  unlock_heap;;;
  ret userPtr.

Definition Alloc (size align : Z) : ST (heap S) Z :=
  if size =? 0 then ret 0
  else match normalize_align align with
  | None => stuck
  | Some align =>
      lock_heap;;;
      let! '(block, userPtr, consumed) := find_block size align in
      if negb (block =? 0) then take_block block userPtr consumed
      else
        let! ok := grow_heap (u32 (size + align + 4)) in
        if negb ok then unlock_heap;;; ret 0
        else
          let! '(block, userPtr, consumed) := find_block size align in
          if block =? 0 then unlock_heap;;; ret 0
          else take_block block userPtr consumed
  end.

Definition Free (ptr : Z) : ST (heap S) unit :=
  if ptr =? 0 then ret tt
  else
    lock_heap;;;
    let! block := block_from_payload ptr in
    if block =? 0 then unlock_heap
    else
      let! magic := load (block + f_magic) in
      let! used := load (block + f_used) in
      if negb (magic =? HEAP_MAGIC) || (used =? 0) then unlock_heap
      else
        store (block + f_used) 0;;;
        let! bsize := load (block + f_size) in
        modify (fun h => if bsize <=? g_heapUsed h then set_used (g_heapUsed h - bsize) h
                         else set_used 0 h);;;
        absorb_next block;;;
        let! prev := load (block + f_prev) in
        (if prev =? 0 then ret tt
         else
           let! pused := load (prev + f_used) in
           if pused =? 0 then absorb_next prev else ret tt);;;
        unlock_heap.

(** [while (g_heapEnd < upto) ...]; the pages between are the fuel. *)
Fixpoint ensure_loop (fuel : nat) (upto : Z) : ST (heap S) bool :=
  let! e := gets g_heapEnd in
  if e <? upto then
    match fuel with
    | O => stuck
    | Datatypes.S n => let! ok := add_page in if ok then ensure_loop n upto else ret false
    end
  else ret true.
Definition ensure (upto : Z) : ST (heap S) bool :=
  let! e := gets g_heapEnd in
  ensure_loop (Z.to_nat ((upto - e + PAGE_SIZE - 1) / PAGE_SIZE)) upto.

Definition Init (base initialPages : Z) : ST (heap S) unit :=
  modify (fun h => mk_heap (h_mem h) base base 0 (g_heapLock h) 0 0 (h_supply h));;;
  let initialPages := if initialPages =? 0 then 1 else initialPages in
  let! ok := ensure (u32 (base + initialPages * PAGE_SIZE)) in
  if ok : bool then
    let! e := gets g_heapEnd in
    let! _b := create_block_at base (u32 (u32 (e - base) - HDR)) 0 in
    ret tt
  else ret tt.

Definition Used (h : heap S) : Z := g_heapUsed h.
Definition Brk (h : heap S) : Z := u32 (g_heapBase h + g_heapUsed h).
Definition End_ (h : heap S) : Z := g_heapEnd h.
End Model.

(** * Abstract heap: the list of blocks *)

(** A block is its address, the size of its payload and, when in use, the
    region handed out: the user pointer and the size asked for. *)
Record block := Blk { b_addr : Z; b_size : Z; b_alloc : option (Z * Z) }.

Definition b_end (b : block) : Z := b_addr b + HDR + b_size b.
Definition is_free (b : block) : bool := if b_alloc b is Some _ then false else true.

Definition first (l : list block) (n : Z) : Z := if l is b :: _ then b_addr b else n.
Fixpoint lastp (p : Z) (l : list block) : Z :=
  match l with [] => p | b :: l' => lastp (b_addr b) l' end.

(** The header of [b] in memory, between the blocks at [p] and [n], and the
    back pointer below the region handed out. *)
Record blk_ok (m : mem) (b : block) (p n : Z) : Prop := {
  ok_magic : read32 m (b_addr b) = HEAP_MAGIC;
  ok_size : read32 m (b_addr b + 4) = b_size b;
  ok_prev : read32 m (b_addr b + 8) = p;
  ok_next : read32 m (b_addr b + 12) = n;
  ok_used : read32 m (b_addr b + 16) = if b_alloc b is Some _ then 1 else 0;
  ok_back u k : b_alloc b = Some (u, k) ->
    b_addr b + HDR + 4 <= u /\ 0 < k /\ u + k <= b_end b /\ read32 m (u - 4) = b_addr b;
}.

Fixpoint seg (m : mem) (p : Z) (l : list block) (n : Z) : Prop :=
  match l with
  | [] => True
  | b :: l' => blk_ok m b p (first l' n) /\ seg m (b_addr b) l' n
  end.

(** Blocks in address order between [lo] and [hi], without overlap. *)
Fixpoint chain (lo : Z) (l : list block) (hi : Z) : Prop :=
  match l with
  | [] => lo <= hi
  | b :: l' => lo <= b_addr b /\ 0 <= b_size b /\ chain (b_end b) l' hi
  end.

(** No two neighbours are both free. *)
Fixpoint coalesced (l : list block) : Prop :=
  match l with
  | [] => True
  | b :: l' => (is_free b = true -> if l' is c :: _ then is_free c = false else True) /\ coalesced l'
  end.

Fixpoint used_bytes (l : list block) : Z :=
  match l with
  | [] => 0
  | b :: l' => (if b_alloc b is Some _ then b_size b else 0) + used_bytes l'
  end.

(** The regions in the hands of clients. *)
Definition live (l : list block) : list (Z * Z) := omap b_alloc l.

(** The invariant but for the lock and for coalescing. *)
Record core {S} `{PageSupply S} (h : heap S) (l : list block) : Prop := {
  wf_supply : supply_ok (h_supply h);
  wf_base : 0 < g_heapBase h;
  wf_end : g_heapEnd h < 2 ^ 32;
  wf_first : g_firstBlock h = first l 0;
  wf_last : g_lastBlock h = lastp 0 l;
  wf_chain : chain (g_heapBase h) l (g_heapEnd h);
  wf_seg : seg (h_mem h) 0 l 0;
  wf_used : g_heapUsed h = used_bytes l;
}.

Definition wf {S} `{PageSupply S} (h : heap S) (l : list block) : Prop :=
  core h l /\ coalesced l /\ g_heapLock h = 0.

(** ** Lists of blocks *)

Lemma first_app l1 l2 n : first (l1 ++ l2) n = first l1 (first l2 n).
Proof. by destruct l1. Qed.

Lemma lastp_app p l1 l2 : lastp p (l1 ++ l2) = lastp (lastp p l1) l2.
Proof. revert p. induction l1 as [|b l1 IH]; intros p; [done|]. apply IH. Qed.

Lemma seg_app m p l1 l2 n :
  seg m p (l1 ++ l2) n <-> seg m p l1 (first l2 n) /\ seg m (lastp p l1) l2 n.
Proof.
  revert p. induction l1 as [|b l1 IH]; intros p; cbn; [tauto|].
  rewrite IH, first_app. tauto.
Qed.

Lemma chain_le lo l hi : chain lo l hi -> lo <= hi.
Proof.
  revert lo. induction l as [|b l IH]; intros lo; cbn; [done|].
  intros (? & ? & ?%IH). unfold b_end, HDR in *. lia.
Qed.

(** The middle of a chain, with the bounds its neighbours give. *)
Lemma chain_app lo l1 l2 hi :
  chain lo (l1 ++ l2) hi <-> exists mid, chain lo l1 mid /\ chain mid l2 hi.
Proof.
  revert lo. induction l1 as [|b l1 IH]; intros lo; cbn.
  - split; [intros; exists lo; split; [lia|done]|]. intros (mid & Hle & Hc).
    destruct l2 as [|b l2]; cbn in *; [lia|]. destruct Hc as (? & ? & ?). split_and!; [lia|done..].
  - rewrite IH. naive_solver.
Qed.

Lemma chain_weaken lo lo' l hi hi' : chain lo l hi -> lo' <= lo -> hi <= hi' -> chain lo' l hi'.
Proof.
  revert lo lo'. induction l as [|b l IH]; intros lo lo'; cbn; [lia|].
  intros (? & ? & ?) ? ?. split_and!; [lia|done|]. by apply (IH (b_end b)).
Qed.

Lemma chain_in lo l hi b :
  chain lo l hi -> b ∈ l -> lo <= b_addr b /\ 0 <= b_size b /\ b_end b <= hi.
Proof.
  revert lo. induction l as [|c l IH]; intros lo; cbn; [by intros ? ?%elem_of_nil|].
  intros (H1 & H2 & H3) [->|Hin]%elem_of_cons.
  - apply chain_le in H3. done.
  - destruct (IH _ H3 Hin) as (? & ? & ?). unfold b_end, HDR in *. split_and!; lia.
Qed.

Lemma chain_length lo l hi : chain lo l hi -> HDR * Z.of_nat (length l) <= hi - lo.
Proof.
  revert lo. induction l as [|b l IH]; intros lo; [cbn; lia|]. intros (? & ? & ?%IH).
  cbn [length]. unfold b_end, HDR in *. lia.
Qed.

Lemma coalesced_app l1 l2 :
  coalesced (l1 ++ l2) <-> coalesced l1 /\ coalesced l2 /\
    (forall b c, last l1 = Some b -> head l2 = Some c -> is_free b = true -> is_free c = false).
Proof.
  induction l1 as [|b l1 IH]; [cbn; naive_solver|]. rewrite <-app_comm_cons. cbn [coalesced].
  rewrite IH, last_cons. destruct l1 as [|b' l1]; cbn [app].
  - cbn. destruct l2; cbn; naive_solver.
  - destruct (last (b' :: l1)) eqn:E; [naive_solver|]. by apply last_None in E.
Qed.

Lemma used_bytes_app l1 l2 : used_bytes (l1 ++ l2) = used_bytes l1 + used_bytes l2.
Proof. induction l1 as [|b l1 IH]; cbn; [done|]. rewrite IH. lia. Qed.

Lemma used_bytes_bound lo l hi : chain lo l hi -> 0 <= used_bytes l <= hi - lo.
Proof.
  revert lo. induction l as [|b l IH]; intros lo; cbn; [lia|].
  intros (? & ? & ?%IH). unfold b_end, HDR in *. destruct (b_alloc b); lia.
Qed.

Lemma live_app l1 l2 : live (l1 ++ l2) = live l1 ++ live l2.
Proof. apply omap_app. Qed.

(** ** Writes *)

(** A memory that agrees with [m] on the extent of a block describes the block as [m] does. *)
Definition agree (m m' : mem) (lo hi : Z) : Prop := forall i, lo <= i < hi -> read8 m' i = read8 m i.

Lemma agree_read32 m m' lo hi a : agree m m' lo hi -> lo <= a -> a + 4 <= hi -> read32 m' a = read32 m a.
Proof. intros Ha ? ?. apply read32_ext. intros i Hi. apply Ha. lia. Qed.

Lemma agree_write32 m lo hi a v : a + 4 <= lo \/ hi <= a -> agree m (write32 m a v) lo hi.
Proof. intros ? i Hi. apply read8_write32_ne. lia. Qed.

Lemma agree_refl m lo hi : agree m m lo hi.
Proof. by intros i. Qed.

Lemma agree_trans m1 m2 m3 lo hi : agree m1 m2 lo hi -> agree m2 m3 lo hi -> agree m1 m3 lo hi.
Proof. intros H1 H2 i Hi. by rewrite H2, H1. Qed.

Lemma agree_weaken m m' lo hi lo' hi' : agree m m' lo hi -> lo <= lo' -> hi' <= hi -> agree m m' lo' hi'.
Proof. intros Ha ? ? i Hi. apply Ha. lia. Qed.

Lemma blk_ok_agree m m' b p n :
  0 <= b_size b -> agree m m' (b_addr b) (b_end b) -> blk_ok m b p n -> blk_ok m' b p n.
Proof.
  intros Hs Ha [H1 H2 H3 H4 H5 H6]. unfold b_end, HDR in *.
  split; [rewrite (agree_read32 _ _ _ _ _ Ha) by lia; done..|].
  intros u k E. destruct (H6 u k E) as (? & ? & ? & Hu).
  unfold b_end, HDR. split_and!; try lia. etrans; [|exact Hu]. apply (agree_read32 _ _ _ _ _ Ha); lia.
Qed.

Lemma seg_agree m m' lo p l n hi :
  chain lo l hi -> agree m m' lo hi -> seg m p l n -> seg m' p l n.
Proof.
  revert lo p. induction l as [|b l IH]; intros lo p; [done|]. cbn.
  intros (? & ? & Hc) Ha [Hb Hs]. pose proof (chain_le _ _ _ Hc). unfold b_end, HDR in *. split.
  - apply (blk_ok_agree m); [done|apply (agree_weaken _ _ _ _ _ _ Ha); unfold b_end, HDR; lia|done].
  - apply (IH (b_addr b + 24 + b_size b)); [done|by apply (agree_weaken _ _ _ _ _ _ Ha); lia|done].
Qed.

(** Reads through a sequence of writes at addresses [lia] can tell apart. *)
Ltac rd := repeat first [rewrite read32_write32_eq | rewrite read32_write32_ne by lia].

(** [if (n) n->prev = q;] *)
Definition relink (m : mem) (n q : Z) : mem := if n =? 0 then m else write32 m (n + 8) q.

Lemma first_pos lo l hi : 0 < lo -> chain lo l hi -> l <> [] -> lo <= first l 0 /\ first l 0 <> 0.
Proof. destruct l as [|c l]; [done|]. cbn. intros ? (? & ? & ?) _. lia. Qed.

(** Relinking the first block of a suffix. *)
Lemma seg_relink m lo p l hi q :
  0 < lo -> chain lo l hi -> 0 <= q < 2 ^ 32 -> seg m p l 0 -> seg (relink m (first l 0) q) q l 0.
Proof.
  intros Hlo Hc Hq Hs. destruct l as [|c l]; [done|]. cbn in Hc, Hs |- *.
  destruct Hc as (? & ? & Hc), Hs as [[H1 H2 H3 H4 H5 H6] Hs]. unfold relink.
  destruct (Z.eqb_spec (b_addr c) 0); [lia|]. unfold b_end, HDR in *. split.
  - split; unfold b_end, HDR; rd; try done; [by rewrite u32_small by lia|].
    intros u k E. destruct (H6 u k E) as (? & ? & ? & ?). split_and!; try lia. by rd.
  - apply (seg_agree m _ (b_addr c + 24 + b_size c) _ _ _ hi); [done|apply agree_write32; lia|done].
Qed.

Lemma relink_agree m lo l hi q a z : chain lo l hi -> z <= lo -> agree m (relink m (first l 0) q) a z.
Proof.
  intros Hc Hz. unfold relink. destruct (Z.eqb_spec (first l 0) 0); [done|].
  destruct l as [|c l]; [done|]. cbn in Hc |- *. apply agree_write32. lia.
Qed.

(** Agreement of a memory with a sequence of writes to it elsewhere. *)
Ltac agr :=
  first [ apply agree_refl
        | eapply agree_trans; [|apply agree_write32; lia]; agr
        | eapply agree_trans; [|eapply relink_agree; [eassumption|lia]]; agr ].

(** The bytes of the regions handed out are the same in both memories. *)
Definition keeps (m m' : mem) (l : list block) : Prop :=
  forall u k, (u, k) ∈ live l -> agree m m' u (u + k).

Lemma live_cons b l : live (b :: l) = match b_alloc b with Some r => r :: live l | None => live l end.
Proof. cbn. by destruct (b_alloc b). Qed.

Lemma keeps_app m m' l1 l2 : keeps m m' (l1 ++ l2) <-> keeps m m' l1 /\ keeps m m' l2.
Proof. unfold keeps. setoid_rewrite live_app. setoid_rewrite elem_of_app. naive_solver. Qed.

Lemma live_bounds m p lo l n hi u k :
  chain lo l hi -> seg m p l n -> (u, k) ∈ live l -> lo + HDR + 4 <= u /\ 0 < k /\ u + k <= hi.
Proof.
  revert p lo. induction l as [|b l IH]; intros p lo; cbn -[HDR]; [by intros _ _ ?%elem_of_nil|].
  intros (? & ? & Hc) [Hb Hs]. pose proof (chain_le _ _ _ Hc).
  assert (Hrec : (u, k) ∈ live l -> lo + HDR + 4 <= u /\ 0 < k /\ u + k <= hi).
  { intros Hin. destruct (IH _ _ Hc Hs Hin). unfold b_end, HDR in *. lia. }
  change (omap b_alloc l) with (live l). destruct (b_alloc b) as [[u' k']|] eqn:E; [|done].
  intros [[= -> ->]|]%elem_of_cons; [|by auto]. destruct (ok_back _ _ _ _ Hb _ _ E) as (? & ? & ? & _).
  unfold b_end, HDR in *. lia.
Qed.

Lemma keeps_agree m m' p lo l n hi :
  chain lo l hi -> seg m p l n -> agree m m' lo hi -> keeps m m' l.
Proof.
  intros Hc Hs Ha u k Hin. destruct (live_bounds _ _ _ _ _ _ _ _ Hc Hs Hin).
  apply (agree_weaken _ _ _ _ _ _ Ha); unfold HDR in *; lia.
Qed.

Lemma keeps_trans m1 m2 m3 l : keeps m1 m2 l -> keeps m2 m3 l -> keeps m1 m3 l.
Proof. intros H1 H2 u k Hin. eapply agree_trans; eauto. Qed.

Lemma keeps_relink m p lo l hi q :
  chain lo l hi -> seg m p l 0 -> keeps m (relink m (first l 0) q) l.
Proof.
  intros Hc Hs u k Hin. unfold relink. destruct (Z.eqb_spec (first l 0) 0); [done|].
  destruct l as [|c l]; [done|]. cbn in Hc, Hs |- *. destruct Hc as (? & ? & Hc), Hs as [Hb Hs].
  apply agree_write32. rewrite live_cons in Hin. left.
  destruct (b_alloc c) as [r|] eqn:E; [apply elem_of_cons in Hin as [<-|Hin]|].
  - destruct (ok_back _ _ _ _ Hb _ _ E) as (? & ? & ? & _). unfold HDR in *. lia.
  - destruct (live_bounds _ _ _ _ _ _ _ _ Hc Hs Hin). unfold b_end, HDR in *. lia.
  - destruct (live_bounds _ _ _ _ _ _ _ _ Hc Hs Hin). unfold b_end, HDR in *. lia.
Qed.

(** ** Alignment *)

Lemma align_up_spec v k :
  0 <= k <= 31 -> 0 <= v -> v + 2 ^ k <= 2 ^ 32 ->
  v <= align_up_ptr v (2 ^ k) < v + 2 ^ k /\ align_up_ptr v (2 ^ k) mod 2 ^ k = 0.
Proof.
  intros Hk Hv Hb. unfold align_up_ptr. assert (Hp : 0 < 2 ^ k) by (apply Z.pow_pos_nonneg; lia).
  rewrite (u32_small (v + 2 ^ k - 1)), (u32_small (2 ^ k - 1)) by lia.
  replace (2 ^ k - 1) with (Z.ones k) by (rewrite Z.ones_equiv; lia).
  unfold u32. rewrite <-Z.land_ones, Z.land_assoc by lia.
  replace (Z.land (v + 2 ^ k - 1) (Z.lnot (Z.ones k))) with (Z.ldiff (v + 2 ^ k - 1) (Z.ones k))
    by (by rewrite Z.ldiff_land).
  rewrite Z.ldiff_ones_r, Z.shiftl_mul_pow2, Z.shiftr_div_pow2, Z.land_ones by lia.
  pose proof (Z.div_mod (v + 2 ^ k - 1) (2 ^ k) ltac:(lia)).
  pose proof (Z.mod_pos_bound (v + 2 ^ k - 1) (2 ^ k) Hp).
  rewrite Z.mod_small by lia. split; [lia|]. apply Z.mod_mul. lia.
Qed.

Lemma pow2_test k : 0 <= k -> Z.land (2 ^ k) (2 ^ k - 1) = 0.
Proof.
  intros Hk. replace (2 ^ k - 1) with (Z.ones k) by (rewrite Z.ones_equiv; lia).
  rewrite Z.land_ones by lia. apply Z.mod_same. pose proof (Z.pow_pos_nonneg 2 k). lia.
Qed.

(** The test of [normalize_align] accepts exactly the powers of two. *)
Lemma pow2_iff a : 0 < a -> Z.land a (a - 1) = 0 -> a = 2 ^ Z.log2 a.
Proof.
  intros Ha Hl. set (k := Z.log2 a). assert (Hk : 0 <= k) by apply Z.log2_nonneg.
  destruct (Z.log2_spec a Ha) as [Hlo Hhi]. fold k in Hlo, Hhi.
  rewrite Z.pow_succ_r in Hhi by done.
  destruct (decide (a = 2 ^ k)) as [|Hne]; [done|]. exfalso.
  assert (Ht : forall x, 2 ^ k <= x < 2 * 2 ^ k -> Z.testbit x k = true).
  { intros x Hx. rewrite Z.testbit_true by done.
    rewrite <-(Z.div_unique x (2 ^ k) 1 (x - 2 ^ k)) by lia. done. }
  assert (Z.testbit (Z.land a (a - 1)) k = true) as Hb.
  { rewrite Z.land_spec, !Ht by lia. done. }
  rewrite Hl, Z.bits_0 in Hb. done.
Qed.

Lemma normalize_loop_ok fuel j align :
  3 <= j <= 31 -> 2 ^ j < 2 * align -> align <= 2 ^ 31 -> 31 - j <= Z.of_nat fuel ->
  exists k, normalize_loop fuel (2 ^ j) align = Some (2 ^ k) /\ j <= k <= 31 /\
    align <= 2 ^ k < 2 * align.
Proof.
  revert j. induction fuel as [|fuel IH]; intros j Hj Hlo Hal Hf; cbn [normalize_loop];
    destruct (Z.ltb_spec (2 ^ j) align).
  - replace j with 31 in * by lia. lia.
  - exists j. split_and!; try done; lia.
  - assert (j <> 31) by (intros ->; lia). rewrite Z.shiftl_mul_pow2 by lia.
    assert (Hj1 : 2 ^ j * 2 ^ 1 = 2 ^ (j + 1)) by (rewrite <-Z.pow_add_r by lia; done).
    assert (2 ^ (j + 1) <= 2 ^ 31) by (apply Z.pow_le_mono_r; lia).
    rewrite Hj1, u32_small by lia. destruct (IH (j + 1)) as (k & E & ? & ?); [lia..|].
    exists k. split_and!; try done; lia.
  - exists j. split_and!; try done; lia.
Qed.

Lemma normalize_align_ok align :
  0 <= align <= 2 ^ 31 ->
  exists k, normalize_align align = Some (2 ^ k) /\ 3 <= k <= 31 /\
    Z.max 8 align <= 2 ^ k < 2 * Z.max 8 align.
Proof.
  intros Hal. unfold normalize_align, MIN_ALIGNMENT.
  set (a := if align <? 8 then 8 else align).
  assert (Ha : a = Z.max 8 align) by (unfold a; destruct (Z.ltb_spec align 8); lia).
  rewrite <-Ha. clearbody a. rewrite (u32_small (a - 1)) by lia.
  destruct (Z.eqb_spec (Z.land a (a - 1)) 0) as [E|_]; cbn [negb].
  - apply pow2_iff in E; [|lia]. exists (Z.log2 a). rewrite <-E. split; [done|]. split; [|lia].
    split; [apply Z.log2_le_pow2; lia|]. apply Z.lt_succ_r, Z.log2_lt_pow2; lia.
  - change 8 with (2 ^ 3) at 1.
    destruct (normalize_loop_ok 32 3 a) as (k & E & ? & ?); [lia..|]. exists k. split_and!; try done; lia.
Qed.

(** For an alignment above 2^31 the shifted value of the loop of
    [normalize_align] becomes 0 and the loop never ends. *)
Theorem normalize_align_diverges align :
  2 ^ 31 < align < 2 ^ 32 ->
  normalize_align align = None /\ forall fuel, normalize_loop fuel MIN_ALIGNMENT align = None.
Proof.
  intros Hal.
  assert (HG : forall fuel n, n = 0 \/ (exists j, 0 <= j <= 31 /\ n = 2 ^ j) ->
    normalize_loop fuel n align = None).
  { induction fuel as [|fuel IH]; intros n Hn; cbn [normalize_loop];
      (destruct (Z.ltb_spec n align) as [_|Hge];
       [|exfalso; destruct Hn as [->|(j & Hj & ->)];
         [lia|pose proof (Z.pow_le_mono_r 2 j 31); lia]]); [done|].
    apply IH. rewrite Z.shiftl_mul_pow2 by lia. destruct Hn as [->|(j & Hj & ->)]; [by left|].
    rewrite <-Z.pow_add_r by lia. destruct (decide (j = 31)) as [->|]; [by left|]. right.
    exists (j + 1). split; [lia|]. pose proof (Z.pow_le_mono_r 2 (j + 1) 31). apply u32_small. lia. }
  assert (HL : forall fuel, normalize_loop fuel MIN_ALIGNMENT align = None).
  { intros fuel. apply HG. right. exists 3. done. }
  split; [|done]. unfold normalize_align. destruct (Z.ltb_spec align MIN_ALIGNMENT) as [Hm|_];
    [unfold MIN_ALIGNMENT in Hm; lia|].
  rewrite (u32_small (align - 1)) by lia. destruct (Z.eqb_spec (Z.land align (align - 1)) 0) as [E|_].
  - exfalso. apply pow2_iff in E; [|lia]. destruct (decide (Z.log2 align <= 31)).
    + pose proof (Z.pow_le_mono_r 2 (Z.log2 align) 31). lia.
    + pose proof (Z.pow_le_mono_r 2 32 (Z.log2 align)). lia.
  - apply HL.
Qed.

Lemma normalize_align_diverges_witness : normalize_align 0xC0000000 = None.
Proof. apply (normalize_align_diverges 0xC0000000). lia. Defined.

(** * Running the operations *)

Section Proofs.
Context {S : Type} `{PageSupply S}.
Implicit Types (h : heap S) (m : mem) (l : list block) (b : block).

Lemma store_step {A} a v (f : unit -> ST (heap S) A) h :
  bind (store a v) f h = f tt (set_mem (write32 (h_mem h) a v) h).
Proof. done. Qed.
Lemma load_step {A} a (f : Z -> ST (heap S) A) h : bind (load a) f h = f (read32 (h_mem h) a) h.
Proof. done. Qed.

(** What a successful search has found. *)
Definition found (k n : Z) (l : list block) (r : Z * Z * Z) : Prop :=
  exists l1 b l2 u, l = l1 ++ b :: l2 /\ b_alloc b = None /\ r = (b_addr b, u, u + n - (b_addr b + HDR)) /\
    u mod 2 ^ k = 0 /\ b_addr b + HDR + 4 <= u /\ u + n <= b_end b.

Lemma find_loop_ok fuel h p lo l hi k n :
  0 < lo -> 0 <= n -> 3 <= k <= 31 -> hi + 2 ^ k + n + 4 <= 2 ^ 32 ->
  chain lo l hi -> seg (h_mem h) p l 0 -> (length l <= fuel)%nat ->
  exists r, find_loop fuel (first l 0) n (2 ^ k) h = Some (r, h) /\
    ((r = (0, 0, 0) /\ forall b, b ∈ l -> b_alloc b = None -> b_size b < n + 2 ^ k + 4) \/ found k n l r).
Proof.
  intros Hlo Hn Hk Hhi. revert fuel p lo Hlo. induction l as [|b l IH]; intros fuel p lo Hlo Hc Hs Hf.
  - exists (0, 0, 0). split; [by destruct fuel|]. left. split; [done|]. by intros b ?%elem_of_nil.
  - destruct fuel as [|fuel]; [cbn in Hf; lia|]. cbn [first find_loop]. cbn in Hc, Hs, Hf.
    destruct Hc as (Hb & Hsz & Hc), Hs as [Hblk Hs]. pose proof (chain_le _ _ _ Hc) as Hend.
    assert (0 < 2 ^ k) by (apply Z.pow_pos_nonneg; lia). unfold b_end, HDR in Hend.
    destruct (Z.eqb_spec (b_addr b) 0); [lia|]. rewrite !load_step.
    unfold f_used, f_next. rewrite (ok_used _ _ _ _ Hblk), (ok_next _ _ _ _ Hblk).
    destruct (IH fuel (b_addr b) (b_end b)) as (r & E & Hr); [unfold b_end, HDR; lia|done|done|lia|].
    assert (Hskip : (b_alloc b = None -> b_size b < n + 2 ^ k + 4) ->
      exists r, find_loop fuel (first l 0) n (2 ^ k) h = Some (r, h) /\
        ((r = (0, 0, 0) /\ forall c, c ∈ b :: l -> b_alloc c = None -> b_size c < n + 2 ^ k + 4) \/
         found k n (b :: l) r)).
    { intros Hsm. exists r. split; [done|]. destruct Hr as [[-> Hr]|(l1 & c & l2 & u & -> & ?)].
      - left. split; [done|]. intros c [->|?]%elem_of_cons; auto.
      - right. exists (b :: l1), c, l2, u. done. }
    destruct (b_alloc b) as [?|] eqn:Ea; cbn [Z.eqb negb]; [by apply Hskip|].
    unfold payload_start, HDR. rewrite !load_step, (u32_small (b_addr b + 24)), (u32_small (b_addr b + 24 + 4)) by lia.
    destruct (align_up_spec (b_addr b + 24 + 4) k) as [Hu Hm]; [lia..|].
    set (u := align_up_ptr _ _) in *. nowrap. unfold f_size. rewrite (ok_size _ _ _ _ Hblk).
    destruct (Z.ltb_spec (b_size b) (u - (b_addr b + 24) + n)); [apply Hskip; lia|].
    exists (b_addr b, u, u - (b_addr b + 24) + n). split; [done|]. right.
    exists [], b, l, u. unfold b_end, HDR. split_and!; try done; try lia. do 2 f_equal. lia.
Qed.

(** A block in the middle of the list and what surrounds it. *)
Record at_block h l1 b l2 : Prop := {
  at_chain1 : chain (g_heapBase h) l1 (b_addr b);
  at_chain2 : chain (b_end b) l2 (g_heapEnd h);
  at_size : 0 <= b_size b;
  at_base : 0 < g_heapBase h <= b_addr b;
  at_end : b_end b <= g_heapEnd h < 2 ^ 32;
  at_seg1 : seg (h_mem h) 0 l1 (b_addr b);
  at_blk : blk_ok (h_mem h) b (lastp 0 l1) (first l2 0);
  at_seg2 : seg (h_mem h) (b_addr b) l2 0;
}.

Lemma core_at h l1 b l2 : core h (l1 ++ b :: l2) -> at_block h l1 b l2.
Proof.
  intros [_ Hb He _ _ Hc Hs _]. apply chain_app in Hc as (mid & Hc1 & Hm & Hz & Hc2).
  apply seg_app in Hs as (Hs1 & Hblk & Hs2). pose proof (chain_le _ _ _ Hc1).
  pose proof (chain_le _ _ _ Hc2).
  split; try done; [|lia..]. apply (chain_weaken _ _ _ _ _ Hc1); lia.
Qed.

Lemma first_suffix h l1 b l2 :
  at_block h l1 b l2 -> first l2 0 = 0 /\ l2 = [] \/ b_end b <= first l2 0 /\ l2 <> [] /\ first l2 0 <> 0.
Proof.
  intros Hat. destruct l2 as [|c l2]; [by left|]. right. pose proof (at_chain2 _ _ _ _ Hat) as Hc.
  pose proof (at_base _ _ _ _ Hat). pose proof (at_size _ _ _ _ Hat). cbn in Hc |- *.
  unfold b_end, HDR in *. split_and!; [lia|done|lia].
Qed.

(** The memory [absorb_next] leaves: the block at [a] has size [sz], next [n]. *)
Definition absorb_mem m (a sz n : Z) : mem := relink (write32 (write32 m (a + 4) sz) (a + 12) n) n a.

Definition set_tail (n a : Z) h : heap S := if n =? 0 then set_last a h else h.

Lemma absorb_next_run h l1 b c l2 :
  at_block h l1 b (c :: l2) -> b_alloc c = None -> at_block h (l1 ++ [b]) c l2 ->
  absorb_next (b_addr b) h =
    Some (tt, set_tail (first l2 0) (b_addr b)
      (set_mem (absorb_mem (h_mem h) (b_addr b) (b_size b + HDR + b_size c) (first l2 0)) h)).
Proof.
  intros Hb Hc Hat. destruct Hb as [_ Hb2 Hbs Hbb Hbe _ Hblk _], Hat as [_ Hc2 Hcs Hcb Hce _ Hcblk _].
  unfold absorb_next. destruct (Z.eqb_spec (b_addr b) 0); [lia|].
  rewrite load_step. unfold f_next, f_used, f_size, f_prev. rewrite (ok_next _ _ _ _ Hblk). cbn [first].
  destruct (Z.eqb_spec (b_addr c) 0); [lia|]. rewrite load_step, (ok_used _ _ _ _ Hcblk), Hc. cbn [Z.eqb negb].
  rewrite !load_step, (ok_size _ _ _ _ Hblk), (ok_size _ _ _ _ Hcblk). unfold b_end, HDR in *.
  cbn in Hb2. unfold b_end, HDR in *. rewrite (u32_small (_ + _)) by lia.
  rewrite store_step, load_step. cbn [set_mem h_mem]. rd. rewrite (ok_next _ _ _ _ Hcblk).
  rewrite store_step. unfold set_tail, absorb_mem, relink.
  replace (b_size b + (24 + b_size c)) with (b_size b + 24 + b_size c) by lia.
  by destruct (Z.eqb_spec (first l2 0) 0).
Qed.

Lemma absorb_next_skip h l1 b l2 :
  at_block h l1 b l2 -> (forall c, head l2 = Some c -> is_free c = false) ->
  absorb_next (b_addr b) h = Some (tt, h).
Proof.
  intros Hat Hh. pose proof (at_base _ _ _ _ Hat). unfold absorb_next.
  destruct (Z.eqb_spec (b_addr b) 0); [lia|]. rewrite load_step.
  unfold f_next, f_used. rewrite (ok_next _ _ _ _ (at_blk _ _ _ _ Hat)).
  destruct l2 as [|c l2]; [done|]. cbn [first]. pose proof (at_seg2 _ _ _ _ Hat) as [Hc _].
  pose proof (first_suffix _ _ _ _ Hat) as [[? ?]|(? & _ & ?)]; [done|]. cbn [first] in *.
  destruct (Z.eqb_spec (b_addr c) 0); [lia|]. rewrite load_step, (ok_used _ _ _ _ Hc).
  specialize (Hh c eq_refl). unfold is_free in Hh. destruct (b_alloc c); [done|discriminate].
Qed.

Lemma lastp_nonempty p q l : l <> [] -> lastp p l = lastp q l.
Proof. by destruct l. Qed.

Lemma first_range lo l hi : 0 <= lo -> chain lo l hi -> hi < 2 ^ 32 -> 0 <= first l 0 < 2 ^ 32.
Proof.
  intros ? Hc ?. destruct l as [|c l]; cbn in *; [lia|]. destruct Hc as (? & ? & Hc).
  apply chain_le in Hc. unfold b_end, HDR in *. lia.
Qed.

(** The part of the globals that block surgery leaves alone. *)
Definition same_globals h h' : Prop :=
  h_supply h' = h_supply h /\ g_heapBase h' = g_heapBase h /\ g_heapEnd h' = g_heapEnd h /\
  g_firstBlock h' = g_firstBlock h.

(** Replacing the blocks [old] that fill [a, z) by [mid]. *)
Lemma core_rebuild h h' l1 old l2 mid a z :
  core h (l1 ++ old ++ l2) -> old <> [] -> mid <> [] -> first old 0 = a -> first mid 0 = a ->
  chain (g_heapBase h) l1 a -> chain a mid z -> chain z l2 (g_heapEnd h) ->
  agree (h_mem h) (h_mem h') (g_heapBase h) a -> seg (h_mem h) 0 l1 a ->
  seg (h_mem h') (lastp 0 l1) mid (first l2 0) -> seg (h_mem h') (lastp 0 mid) l2 0 ->
  same_globals h h' -> g_lastBlock h' = (if first l2 0 =? 0 then lastp 0 mid else g_lastBlock h) ->
  g_heapUsed h' = g_heapUsed h - used_bytes old + used_bytes mid ->
  core h' (l1 ++ mid ++ l2).
Proof.
  intros [Hsup Hb He Hf Hl _ _ Hu] Ho Hmid Hfo Hfm Hc1 Hcm Hc2 Ha Hs1 Hsm Hs2 (E0 & E1 & E2 & E3) El Eu.
  assert (Hf' : forall n, first mid n = a /\ first old n = a).
  { intros n. destruct mid, old; done. }
  split; rewrite ?E0, ?E1, ?E2; try done.
  - rewrite E3, Hf, !first_app. by rewrite !(proj1 (Hf' _)), !(proj2 (Hf' _)).
  - rewrite El, !lastp_app. destruct l2 as [|c l2]; cbn; [by apply lastp_nonempty|].
    cbn in Hc2. pose proof (chain_le _ _ _ Hc1). pose proof (chain_le _ _ _ Hcm).
    destruct (Z.eqb_spec (b_addr c) 0); [lia|]. rewrite Hl, !lastp_app. done.
  - apply chain_app. exists a. split; [done|]. apply chain_app. by exists z.
  - apply seg_app. rewrite first_app, (proj1 (Hf' _)).
    split; [by apply (seg_agree (h_mem h) _ (g_heapBase h) _ _ _ a)|].
    apply seg_app. split; [done|]. by rewrite (lastp_nonempty _ 0).
  - rewrite Eu, Hu, !used_bytes_app. lia.
Qed.

Lemma absorb_next_ok h l1 b c l2 :
  core h (l1 ++ b :: c :: l2) -> b_alloc b = None -> b_alloc c = None ->
  exists h', absorb_next (b_addr b) h = Some (tt, h') /\
    core h' (l1 ++ Blk (b_addr b) (b_size b + HDR + b_size c) None :: l2) /\
    keeps (h_mem h) (h_mem h') (l1 ++ l2) /\ g_heapLock h' = g_heapLock h /\
    agree (h_mem h) (h_mem h') (b_addr b + 16) (b_end c).
Proof.
  intros Hcore Hfb Hfc. pose proof (core_at _ _ _ _ Hcore) as Hb.
  assert (Hc : at_block h (l1 ++ [b]) c l2) by (apply core_at; by rewrite <-app_assoc).
  pose proof (absorb_next_run h l1 b c l2 Hb Hfc Hc) as E.
  set (m' := absorb_mem _ _ _ _) in E. eexists. split; [exact E|]. clear E.
  destruct Hb as [Hb1 Hb2 Hbs Hbb Hbe Hbg1 Hblk _], Hc as [_ Hc2 Hcs Hcb Hce _ _ Hcg2].
  cbn in Hb2. destruct Hb2 as (Hbc & _ & _). unfold b_end, HDR in *.
  remember (b_addr b + 24 + (b_size b + 24 + b_size c)) as z eqn:Hzz.
  assert (Hz : chain z l2 (g_heapEnd h)) by (apply (chain_weaken _ _ _ _ _ Hc2); lia).
  pose proof (first_range z l2 (g_heapEnd h) ltac:(lia) Hz ltac:(lia)) as Hn.
  assert (Hg2 : forall v w, seg (write32 (write32 (h_mem h) (b_addr b + 4) v) (b_addr b + 12) w) (b_addr c) l2 0).
  { intros v w. apply (seg_agree (h_mem h) _ z _ _ _ (g_heapEnd h)); [done|agr|done]. }
  assert (Hm' : h_mem (set_tail (first l2 0) (b_addr b) (set_mem m' h)) = m').
  { unfold set_tail. by destruct (_ =? _). }
  split_and!.
  - apply (core_rebuild h _ l1 [b; c] l2 [Blk _ _ None] (b_addr b) z Hcore);
      rewrite ?Hm'; try done; [cbn; unfold b_end, HDR; cbn; lia|unfold m', absorb_mem; agr| | | | |].
    + destruct Hblk as [H1 H2 H3 H4 H5 H6]. rewrite Hfb in H5.
      assert (Hr : forall a, a + 4 <= z -> read32 m' a = read32 (write32 (write32 (h_mem h) (b_addr b + 4)
        (b_size b + 24 + b_size c)) (b_addr b + 12) (first l2 0)) a).
      { intros a ?. eapply (agree_read32 _ _ a z); [eapply relink_agree; [done|lia]|lia..]. }
      split; [|done]. split; cbn; rewrite ?Hr by lia; rd; try done; rewrite ?u32_small; try lia; done.
    + cbn [lastp b_addr]. apply (seg_relink _ z (b_addr c) _ (g_heapEnd h)); [lia|done|lia|apply Hg2].
    + unfold set_tail. by destruct (_ =? _).
    + unfold set_tail. by destruct (_ =? _).
    + unfold set_tail. cbn. rewrite Hfb, Hfc. destruct (_ =? _); cbn; lia.
  - rewrite Hm'. apply keeps_app. split.
    + apply (keeps_agree _ _ 0 (g_heapBase h) _ (b_addr b) (b_addr b)); try done. unfold m', absorb_mem; agr.
    + eapply keeps_trans; [|eapply keeps_relink; [exact Hz|apply Hg2]].
      apply (keeps_agree _ _ (b_addr c) z _ 0 (g_heapEnd h)); [done|done|agr].
  - unfold set_tail. by destruct (_ =? _).
  - rewrite Hm'. unfold m', absorb_mem. clear Hz. agr.
Qed.

(** [absorb_next] on a free block, whatever follows it. *)
Lemma absorb_step h l1 b l2 :
  core h (l1 ++ b :: l2) -> b_alloc b = None -> coalesced l2 ->
  exists h' b' l2', absorb_next (b_addr b) h = Some (tt, h') /\ core h' (l1 ++ b' :: l2') /\
    b_addr b' = b_addr b /\ b_alloc b' = None /\ b_end b <= b_end b' /\ coalesced (b' :: l2') /\
    live l2' = live l2 /\ keeps (h_mem h) (h_mem h') (l1 ++ l2) /\ g_heapLock h' = g_heapLock h /\
    agree (h_mem h) (h_mem h') (b_addr b + 16) (b_end b) /\
    (forall c, head l2 = Some c -> agree (h_mem h) (h_mem h') (b_addr b + 16) (b_end c)).
Proof.
  intros Hc Hf Hco. pose proof (core_at _ _ _ _ Hc) as Hat.
  assert ((exists c l2', l2 = c :: l2' /\ b_alloc c = None) \/ ~ exists c l2', l2 = c :: l2' /\ b_alloc c = None)
    as [(c & l2' & -> & Ec)|Hno].
  { destruct l2 as [|c l2]; [right; naive_solver|]. destruct (b_alloc c) eqn:E; naive_solver. }
  2:{ assert (Hskip : forall c, head l2 = Some c -> is_free c = false).
      { intros c Ec. destruct l2 as [|c' l2]; simplify_eq/=. unfold is_free.
        destruct (b_alloc c) eqn:Ea; [done|]. destruct Hno. eauto. }
      exists h, b, l2. rewrite (absorb_next_skip h l1 b l2) by done.
      split_and!; try done. split; [|done]. intros _. destruct l2; [done|by apply Hskip]. }
  destruct Hco as [Hc1 Hc2]. destruct (absorb_next_ok h l1 b c l2' Hc Hf Ec) as (h' & E & Hcore & Hk & Hl & Ha).
  exists h', (Blk (b_addr b) (b_size b + HDR + b_size c) None), l2'.
  pose proof (at_chain2 _ _ _ _ Hat) as (? & ? & _). split_and!; try done.
  - unfold b_end, HDR. cbn. lia.
  - split; [|done]. intros _. unfold is_free in Hc1. rewrite Ec in Hc1. by apply Hc1.
  - rewrite live_cons. by rewrite Ec.
  - unfold keeps in *. rewrite live_app, live_cons, Ec, <-live_app. done.
  - apply (agree_weaken _ _ _ _ _ _ Ha); unfold b_end, HDR in *; lia.
  - by intros ? [= <-].
Qed.

Lemma live_split l u n :
  (u, n) ∈ live l -> exists l1 b l2, l = l1 ++ b :: l2 /\ b_alloc b = Some (u, n).
Proof.
  intros (b & Hb & E)%list_elem_of_omap. apply list_elem_of_split in Hb as (l1 & l2 & ->). eauto.
Qed.

(** A memory in which the block behind [u] is already free. *)
Definition stale m (u : Z) : Prop :=
  exists a, a <> 0 /\ read32 m (u - 4) = a /\ read32 m (a + 16) = 0.

(** Clearing [used]: the state before the coalescing of [Free]. *)
Lemma release_ok h l1 b l2 u n :
  core h (l1 ++ b :: l2) -> b_alloc b = Some (u, n) ->
  let h1 := set_used (g_heapUsed h - b_size b) (set_mem (write32 (h_mem h) (b_addr b + 16) 0) h) in
  core h1 (l1 ++ Blk (b_addr b) (b_size b) None :: l2) /\ keeps (h_mem h) (h_mem h1) (l1 ++ l2) /\
  read32 (h_mem h1) (u - 4) = b_addr b /\ read32 (h_mem h1) (b_addr b + 16) = 0.
Proof.
  intros Hc Ha h1. pose proof (core_at _ _ _ _ Hc) as [Hc1 Hc2 Hs Hb He Hs1 [H1 H2 H3 H4 H5 H6] Hs2].
  destruct (H6 u n Ha) as (Hu1 & Hn & Hu2 & Hu3). unfold b_end, HDR in *. split_and!.
  - apply (core_rebuild h _ l1 [b] l2 [Blk _ _ None] (b_addr b) (b_end b) Hc); try done; cbn [h1 set_used set_mem h_mem].
    + cbn. unfold b_end, HDR. cbn. lia.
    + agr.
    + split; [|done]. split; cbn; rd; try done.
    + apply (seg_agree (h_mem h) _ (b_end b) _ _ _ (g_heapEnd h)); try done. unfold b_end, HDR. agr.
    + cbn. rewrite (wf_last _ _ Hc), lastp_app. destruct l2 as [|c l2]; [done|]. cbn in *.
      by destruct (Z.eqb_spec (b_addr c) 0); [lia|].
    + cbn. rewrite Ha. cbn. lia.
  - cbn. apply keeps_app. split.
    + apply (keeps_agree _ _ 0 (g_heapBase h) _ (b_addr b) (b_addr b)); try done. agr.
    + apply (keeps_agree _ _ (b_addr b) (b_end b) _ 0 (g_heapEnd h)); try done. unfold b_end, HDR. agr.
  - cbn. by rd.
  - cbn. by rd.
Qed.

(** The coalescing with the block before. *)
Lemma absorb_prev_ok h l1 b l2 :
  core h (l1 ++ b :: l2) -> b_alloc b = None -> coalesced l1 -> coalesced (b :: l2) ->
  exists h' l', (let! prev := load (b_addr b + f_prev) in
                 if prev =? 0 then ret tt
                 else let! pused := load (prev + f_used) in
                      if pused =? 0 then absorb_next prev else ret tt) h = Some (tt, h') /\
    core h' l' /\ coalesced l' /\ live l' = live (l1 ++ l2) /\ g_heapLock h' = g_heapLock h /\
    keeps (h_mem h) (h_mem h') (l1 ++ l2) /\ agree (h_mem h) (h_mem h') (b_addr b) (b_end b).
Proof.
  intros Hc Hf Hco1 Hco2. pose proof (core_at _ _ _ _ Hc) as Hat. rewrite load_step. unfold f_prev.
  rewrite (ok_prev _ _ _ _ (at_blk _ _ _ _ Hat)). destruct l1 as [|d l0 _] using rev_ind.
  - exists h, (b :: l2). split_and!; try done. by rewrite live_cons, Hf.
  - rewrite <-app_assoc in Hc. pose proof (core_at _ _ _ _ Hc) as Had. rewrite lastp_app. cbn [lastp].
    pose proof (at_base _ _ _ _ Had). destruct (Z.eqb_spec (b_addr d) 0); [lia|].
    rewrite load_step. unfold f_used. rewrite (ok_used _ _ _ _ (at_blk _ _ _ _ Had)).
    destruct (b_alloc d) as [r|] eqn:Ed; cbn [Z.eqb].
    + exists h, ((l0 ++ [d]) ++ b :: l2). rewrite <-app_assoc. split_and!; try done.
      * rewrite app_assoc. apply coalesced_app. split_and!; try done. intros x y Hx. rewrite last_snoc in Hx. injection Hx as <-.
        unfold is_free. by rewrite Ed.
      * rewrite !live_app, (live_cons b), Hf. by rewrite app_assoc.
    + destruct (absorb_step h l0 d (b :: l2) Hc Ed Hco2)
        as (h' & d' & l2' & E & Hc' & _ & Hd' & _ & Hco' & Hlv & Hk & Hl & _ & Ha).
      rewrite E. exists h', (l0 ++ d' :: l2'). apply coalesced_app in Hco1 as (Hco0 & _ & Hld).
      rewrite live_cons, Hf in Hlv. split_and!; try done.
      * apply coalesced_app. split_and!; try done. intros x y Hx _ Hfx. exfalso.
        specialize (Hld x d Hx eq_refl Hfx). unfold is_free in Hld. by rewrite Ed in Hld.
      * rewrite !live_app, live_cons, Hd', Hlv, live_cons, Ed. by rewrite app_nil_r.
      * unfold keeps in *. rewrite !live_app, !live_cons, Ed, Hf in *. by rewrite app_nil_r.
      * pose proof (at_chain2 _ _ _ _ Had) as (? & ? & _). pose proof (at_size _ _ _ _ Had).
        apply (agree_weaken _ _ _ _ _ _ (Ha b eq_refl)); unfold b_end, HDR in *; lia.
Qed.

Lemma core_lock h l v : core h l <-> core (set_lock v h) l.
Proof. split; intros [? ? ? ? ? ? ? ?]; split; done. Qed.

Lemma core_live_used h l1 b l2 u n :
  core h (l1 ++ b :: l2) -> b_alloc b = Some (u, n) -> b_size b <= g_heapUsed h.
Proof.
  intros Hc Ha. rewrite (wf_used _ _ Hc), used_bytes_app. cbn. rewrite Ha.
  pose proof (core_at _ _ _ _ Hc) as Hat.
  pose proof (used_bytes_bound _ _ _ (at_chain1 _ _ _ _ Hat)).
  pose proof (used_bytes_bound _ _ _ (at_chain2 _ _ _ _ Hat)). lia.
Qed.

(** [Free] of a live region up to its coalescing. *)
Lemma Free_run h l1 b l2 u n :
  wf h (l1 ++ b :: l2) -> b_alloc b = Some (u, n) ->
  Free u h =
    (absorb_next (b_addr b);;;
     (let! prev := load (b_addr b + f_prev) in
      if prev =? 0 then ret tt
      else let! pused := load (prev + f_used) in
           if pused =? 0 then absorb_next prev else ret tt);;;
     unlock_heap)
    (set_used (g_heapUsed h - b_size b) (set_mem (write32 (h_mem h) (b_addr b + 16) 0) (set_lock 1 h))).
Proof.
  intros (Hcore & Hco & Hlock) Ha. pose proof (core_at _ _ _ _ Hcore) as Hat.
  pose proof (at_blk _ _ _ _ Hat) as Hblk. pose proof (at_base _ _ _ _ Hat).
  destruct (ok_back _ _ _ _ Hblk u n Ha) as (Hu1 & Hn & Hu2 & Hu3). unfold HDR in Hu1.
  unfold Free. destruct (Z.eqb_spec u 0); [lia|]. unfold lock_heap. rewrite bind_assoc, gets_step, Hlock.
  cbn [Z.eqb]. rewrite modify_step. unfold block_from_payload. destruct (Z.eqb_spec u 0); [lia|].
  rewrite load_step. cbn [set_lock h_mem]. rewrite Hu3. destruct (Z.eqb_spec (b_addr b) 0); [lia|].
  rewrite !load_step. cbn [set_lock h_mem]. unfold f_magic, f_used.
  rewrite Z.add_0_r, (ok_magic _ _ _ _ Hblk), (ok_used _ _ _ _ Hblk), Ha, Z.eqb_refl. cbn [Z.eqb negb orb].
  rewrite store_step, load_step, modify_step. cbn [set_lock set_mem h_mem g_heapUsed]. unfold f_size. rd.
  rewrite (ok_size _ _ _ _ Hblk), (proj2 (Z.leb_le _ _)) by (by eapply core_live_used).
  reflexivity.
Qed.

Lemma Free_ok h l u n :
  wf h l -> (u, n) ∈ live l ->
  exists h' l', Free u h = Some (tt, h') /\ wf h' l' /\ live l ≡ₚ (u, n) :: live l' /\
    keeps (h_mem h) (h_mem h') l' /\ stale (h_mem h') u.
Proof.
  intros Hwf (l1 & b & l2 & -> & Ha)%live_split. rewrite (Free_run _ _ _ _ _ _ Hwf Ha).
  destruct Hwf as (Hcore & Hco & Hlock). pose proof (core_at _ _ _ _ Hcore) as Hat.
  pose proof (at_base _ _ _ _ Hat). pose proof (at_size _ _ _ _ Hat).
  destruct (ok_back _ _ _ _ (at_blk _ _ _ _ Hat) u n Ha) as (Hu1 & Hn & Hu2 & Hu3).
  apply (core_lock _ _ 1) in Hcore. destruct (release_ok _ _ _ _ _ _ Hcore Ha) as (Hc1 & Hk1 & Hb1 & Hz1).
  cbn [set_lock h_mem g_heapUsed] in Hc1, Hk1, Hb1, Hz1. set (h1 := set_used _ _) in *.
  apply coalesced_app in Hco as (Hco1 & [_ Hco2] & _).
  destruct (absorb_step h1 l1 _ l2 Hc1 eq_refl Hco2)
    as (h2 & b2 & l3 & E2 & Hc2 & Hb2 & Hf2 & He2 & Hco3 & Hlv2 & Hk2 & Hl2 & Ha2 & _). cbn in E2, Hb2.
  rewrite (bind_step _ _ _ _ _ E2), <-Hb2.
  destruct (absorb_prev_ok h2 l1 b2 l3 Hc2 Hf2 Hco1 Hco3) as (h3 & l' & E3 & Hc3 & Hco' & Hlv3 & Hl3 & Hk3 & Ha3).
  rewrite (bind_step _ _ _ _ _ E3). exists (set_lock 0 h3), l'. split_and!; [done| | | |].
  - split_and!; [by apply core_lock|done|done].
  - rewrite Hlv3, !live_app, live_cons, Ha, Hlv2. by rewrite Permutation_middle.
  - unfold keeps in *. rewrite live_app, Hlv2 in Hlv3. rewrite live_app, Hlv2 in Hk3.
    rewrite live_app in Hk1, Hk2. cbn. rewrite Hlv3. intros v k Hin.
    eapply agree_trans; [by apply Hk1|]. eapply agree_trans; [by apply Hk2|by apply Hk3].
  - exists (b_addr b). cbn. unfold b_end, HDR in *. cbn in *. rewrite Hb2 in Ha3.
    split_and!; [lia|etrans; [|exact Hb1]|etrans; [|exact Hz1]];
      (etrans; [apply (agree_read32 _ _ _ _ _ Ha3)|apply (agree_read32 _ _ _ _ _ Ha2)]); lia.
Qed.

(** The memory [split_block] leaves: the block at [a] cut to [c] bytes, the
    rest, [r] bytes, a new block before the one at [n]. *)
Definition split_mem m (a c r n : Z) : mem :=
  let N := a + HDR + c in
  let m1 := write32 (write32 (write32 m N HEAP_MAGIC) (N + 4) r) (N + 8) a in
  let m2 := write32 (write32 (write32 m1 (N + 12) n) (N + 16) 0) (N + 20) 0 in
  write32 (write32 (relink m2 n N) (a + 12) N) (a + 4) c.

Lemma at_first_range h l1 b l2 : at_block h l1 b l2 -> 0 <= first l2 0 < 2 ^ 32.
Proof.
  intros [_ Hc2 ? ? ? _ _ _]. apply (first_range (b_end b) _ (g_heapEnd h)); [|done|lia].
  unfold b_end, HDR. lia.
Qed.

Lemma split_mem_ok m a c sz p l2 z e :
  z = a + HDR + sz -> 0 < a -> 0 <= c -> c + 56 < sz -> chain z l2 e -> e < 2 ^ 32 ->
  blk_ok m (Blk a sz None) p (first l2 0) -> seg m a l2 0 ->
  let N := a + HDR + c in
  let m' := split_mem m a c (sz - c - HDR) (first l2 0) in
  blk_ok m' (Blk a c None) p N /\ blk_ok m' (Blk N (sz - c - HDR) None) a (first l2 0) /\
  seg m' N l2 0 /\ keeps m m' l2 /\ forall x, agree m m' x a.
Proof.
  intros Hz Ha Hc Hsz Hc2 He [H1 H2 H3 H4 H5 _] Hs2 N m'. cbn in H1, H2, H3, H4, H5.
  unfold HDR in *. assert (HN : N = a + 24 + c) by done. clearbody N.
  pose proof (chain_le _ _ _ Hc2). pose proof (first_range z l2 e ltac:(lia) Hc2 He) as Hr.
  assert (Hm : exists m2, m2 = write32 (write32 (write32 (write32 (write32 (write32 m N HEAP_MAGIC) (N + 4)
    (sz - c - 24)) (N + 8) a) (N + 12) (first l2 0)) (N + 16) 0) (N + 20) 0 /\
    m' = write32 (write32 (relink m2 (first l2 0) N) (a + 12) N) (a + 4) c) by (rewrite HN; by eexists).
  destruct Hm as (m2 & Hm2 & ->).
  assert (Hag2 : forall x y, y <= a -> agree m m2 x y) by (intros; rewrite Hm2; agr).
  assert (Hag2' : agree m m2 z e) by (rewrite Hm2; agr).
  assert (Hrl : forall x, x + 4 <= z -> read32 (relink m2 (first l2 0) N) x = read32 m2 x).
  { intros x ?. apply (agree_read32 _ _ x z); [apply (relink_agree _ z l2 e); [done|lia]|lia|lia]. }
  assert (Hg2 : seg m2 a l2 0) by (by apply (seg_agree m _ z _ _ _ e)).
  split_and!.
  - split; cbn; rd; rewrite ?Hrl by lia; rewrite ?Hm2; rd; rewrite ?u32_small by lia; done.
  - split; cbn; rd; rewrite ?Hrl by lia; rewrite ?Hm2; rd; rewrite ?u32_small by lia; done.
  - apply (seg_agree (relink m2 (first l2 0) N) _ z _ _ _ e); [done|agr|].
    apply (seg_relink _ z a _ e); [lia|done|lia|done].
  - eapply keeps_trans; [by apply (keeps_agree _ m2 a z _ 0 e)|].
    eapply keeps_trans; [by apply (keeps_relink _ a z _ e N)|].
    apply (keeps_agree _ _ N z _ 0 e); [done| |agr]. apply (seg_relink _ z a _ e); [lia|done|lia|done].
  - intros x. eapply agree_trans; [by apply Hag2|]. agr.
Qed.

Lemma split_block_run h l1 b l2 c :
  at_block h l1 b l2 -> 0 <= c -> c + 56 < b_size b ->
  split_block (b_addr b) c h =
    Some (tt, set_mem (split_mem (h_mem h) (b_addr b) c (b_size b - c - HDR) (first l2 0))
                (set_tail (first l2 0) (b_addr b + HDR + c) h)).
Proof.
  intros Hat Hc Hsz. pose proof (first_suffix _ _ _ _ Hat) as Hn.
  pose proof (at_first_range _ _ _ _ Hat) as Hr.
  destruct Hat as [_ Hc2 _ Hb He _ Hblk _]. unfold split_block. destruct (Z.eqb_spec (b_addr b) 0); [lia|].
  rewrite load_step. unfold f_size, f_magic, f_prev, f_next, f_used, f_reserved, SPLIT_THRESHOLD, payload_start.
  unfold b_end, HDR in *. rewrite (ok_size _ _ _ _ Hblk), (u32_small (c + 24 + 32)) by lia.
  destruct (Z.leb_spec (b_size b) (c + 24 + 32)); [lia|].
  rewrite (u32_small (b_addr b + 24)), (u32_small (b_addr b + 24 + c)), (u32_small (b_size b - c - 24)) by lia.
  rewrite !store_step, load_step. cbn [set_mem h_mem]. rd. rewrite (ok_next _ _ _ _ Hblk).
  rewrite !store_step, load_step. cbn [set_mem h_mem]. rd. rewrite u32_small by lia.
  unfold set_tail, split_mem, relink, HDR. rewrite Z.add_0_r.
  destruct (Z.eqb_spec (first l2 0) 0); cbn [negb]; [by rewrite modify_step|by rewrite store_step].
Qed.

Lemma split_block_skip h l1 b l2 c :
  at_block h l1 b l2 -> 0 <= c < 2 ^ 32 - 56 -> b_size b <= c + 56 -> split_block (b_addr b) c h = Some (tt, h).
Proof.
  intros Hat Hc Hsz. pose proof (at_base _ _ _ _ Hat). unfold split_block.
  destruct (Z.eqb_spec (b_addr b) 0); [lia|]. rewrite load_step.
  unfold f_size, SPLIT_THRESHOLD, HDR. rewrite (ok_size _ _ _ _ (at_blk _ _ _ _ Hat)), u32_small by lia.
  destruct (Z.leb_spec (b_size b) (c + 24 + 32)); [done|lia].
Qed.

(** Both outcomes of [split_block]: the block has [c] bytes at least, and is
    followed by a free remainder or by what followed it. *)
Lemma split_block_ok h l1 b l2 c :
  core h (l1 ++ b :: l2) -> b_alloc b = None -> 0 <= c <= b_size b -> g_heapEnd h + 56 < 2 ^ 32 ->
  exists h' b' rest, split_block (b_addr b) c h = Some (tt, h') /\ core h' (l1 ++ b' :: rest ++ l2) /\
    b_addr b' = b_addr b /\ b_alloc b' = None /\ c <= b_size b' <= b_size b /\
    (rest = [] \/ exists r, rest = [r] /\ b_alloc r = None) /\
    keeps (h_mem h) (h_mem h') (l1 ++ l2) /\ g_heapLock h' = g_heapLock h /\
    g_heapEnd h' = g_heapEnd h /\ h_supply h' = h_supply h.
Proof.
  intros Hcore Hf Hc Hroom. pose proof (core_at _ _ _ _ Hcore) as Hat.
  destruct (decide (b_size b <= c + 56)) as [Hsmall|Hbig].
  { pose proof (at_end _ _ _ _ Hat). pose proof (at_base _ _ _ _ Hat). unfold b_end, HDR in *.
    exists h, b, []. rewrite (split_block_skip _ _ _ _ _ Hat) by lia. split_and!; try done; [lia..|by left]. }
  exists (set_mem (split_mem (h_mem h) (b_addr b) c (b_size b - c - HDR) (first l2 0))
           (set_tail (first l2 0) (b_addr b + HDR + c) h)),
    (Blk (b_addr b) c None), [Blk (b_addr b + HDR + c) (b_size b - c - HDR) None].
  split; [apply (split_block_run _ _ _ _ _ Hat); lia|]. destruct Hat as [Hc1 Hc2 Hs Hb He Hs1 Hblk Hs2].
  destruct b as [a sz ?]. cbn in Hf, Hbig, Hc, Hc1, Hs, Hb, Hs1 |- *. subst.
  destruct (split_mem_ok (h_mem h) a c sz (lastp 0 l1) l2 (a + HDR + sz) (g_heapEnd h))
    as (Hb1 & Hb2 & Hg2 & Hk2 & Ha); [done|lia|lia|lia|done|lia|done|done|].
  set (m' := split_mem _ _ _ _ _) in *. unfold b_end, HDR in *. cbn in He.
  split_and!; try done; try lia; [|by right; eauto|..].
  - apply (core_rebuild h _ l1 [_] l2 [_; _] a (a + 24 + sz) Hcore); try done.
    + cbn. unfold b_end, HDR. cbn. lia.
    + unfold same_globals, set_tail. by destruct (_ =? _).
    + unfold set_tail. by destruct (_ =? _).
    + unfold set_tail. cbn. destruct (_ =? _); cbn; lia.
  - apply keeps_app. split; [|done]. by apply (keeps_agree _ _ 0 (g_heapBase h) _ a a).
  - unfold set_tail. by destruct (_ =? _).
  - unfold set_tail. by destruct (_ =? _).
  - unfold set_tail. by destruct (_ =? _).
Qed.

(** [block->used = 1], the back pointer and the accounting. *)
Lemma claim_ok h l1 b l2 u n :
  core h (l1 ++ b :: l2) -> b_alloc b = None -> 0 < n ->
  b_addr b + HDR + 4 <= u -> u + n <= b_end b -> g_heapUsed h + b_size b < 2 ^ 32 ->
  let m' := write32 (write32 (h_mem h) (b_addr b + 16) 1) (u - 4) (b_addr b) in
  core (set_used (u32 (g_heapUsed h + b_size b)) (set_mem m' h))
    (l1 ++ Blk (b_addr b) (b_size b) (Some (u, n)) :: l2) /\
  read32 m' (b_addr b + 4) = b_size b /\ keeps (h_mem h) m' (l1 ++ l2).
Proof.
  intros Hcore Hf Hn Hu1 Hu2 Hused m'. pose proof (core_at _ _ _ _ Hcore) as Hat.
  assert (0 <= g_heapUsed h).
  { rewrite (wf_used _ _ Hcore). eapply used_bytes_bound. apply (wf_chain _ _ Hcore). }
  pose proof (first_suffix _ _ _ _ Hat) as Hfs.
  destruct Hat as [Hc1 Hc2 Hs Hb He Hs1 [H1 H2 H3 H4 H5 H6] Hs2].
  rewrite u32_small by lia. unfold b_end, HDR in *.
  assert (Ha1 : agree (h_mem h) m' (g_heapBase h) (b_addr b)) by (unfold m'; agr).
  assert (Ha2 : agree (h_mem h) m' (b_addr b + 24 + b_size b) (g_heapEnd h)) by (unfold m'; agr).
  split_and!.
  - apply (core_rebuild h _ l1 [b] l2 [Blk _ _ _] (b_addr b) (b_addr b + 24 + b_size b) Hcore); try done.
    + cbn. unfold b_end, HDR. cbn. lia.
    + split; [|done]. unfold m'. split; cbn; rd; try done.
      intros u' n' [= <- <-]. unfold b_end, HDR. cbn. rd. rewrite u32_small by lia. split_and!; lia.
    + by apply (seg_agree (h_mem h) _ (b_addr b + 24 + b_size b) _ _ _ (g_heapEnd h)).
    + cbn. rewrite (wf_last _ _ Hcore), lastp_app. cbn. destruct Hfs as [[-> ->]|(_ & _ & Hz)]; [done|].
      by rewrite (proj2 (Z.eqb_neq _ _) Hz).
    + cbn. rewrite Hf. lia.
  - unfold m'. by rd.
  - apply keeps_app. split; [by apply (keeps_agree _ _ 0 (g_heapBase h) _ (b_addr b) (b_addr b))|].
    by apply (keeps_agree _ _ (b_addr b) (b_addr b + 24 + b_size b) _ 0 (g_heapEnd h)).
Qed.

Lemma used_room h l1 b l2 :
  core h (l1 ++ b :: l2) -> b_alloc b = None -> 0 <= g_heapUsed h /\ g_heapUsed h + b_size b < 2 ^ 32.
Proof.
  intros Hcore Hf. rewrite (wf_used _ _ Hcore), used_bytes_app. cbn. rewrite Hf.
  pose proof (core_at _ _ _ _ Hcore) as [Hc1 Hc2 ? ? ? _ _ _].
  pose proof (used_bytes_bound _ _ _ Hc1). pose proof (used_bytes_bound _ _ _ Hc2).
  unfold b_end, HDR in *. lia.
Qed.

Lemma take_block_ok h l1 b l2 u n :
  core h (l1 ++ b :: l2) -> coalesced (l1 ++ b :: l2) -> b_alloc b = None -> 0 < n ->
  b_addr b + HDR + 4 <= u -> u + n <= b_end b -> g_heapEnd h + 56 < 2 ^ 32 ->
  exists h' l', take_block (b_addr b) u (u + n - (b_addr b + HDR)) h = Some (u, h') /\ wf h' l' /\
    live l' ≡ₚ (u, n) :: live (l1 ++ b :: l2) /\ keeps (h_mem h) (h_mem h') (l1 ++ b :: l2) /\
    g_heapEnd h' = g_heapEnd h.
Proof.
  intros Hcore Hco Hf Hn Hu1 Hu2 Hroom. unfold b_end in Hu2.
  destruct (split_block_ok h l1 b l2 (u + n - (b_addr b + HDR)) Hcore Hf) as
    (h1 & b1 & rest & E1 & Hc1 & Hb1 & Hf1 & Hs1 & Hrest & Hk1 & Hl1 & He1 & _); [unfold HDR in *; lia|done|].
  unfold take_block. rewrite (bind_step _ _ _ _ _ E1), !store_step, load_step, modify_step.
  destruct (used_room _ _ _ _ Hc1 Hf1) as [_ Hroom1]. rewrite <-!Hb1 in *.
  destruct (claim_ok h1 l1 b1 (rest ++ l2) u n Hc1 Hf1 Hn) as (Hc2 & Hsz & Hk2);
    [done|unfold b_end; lia|done|].
  cbn [set_mem h_mem] in *. unfold f_used, f_size. rewrite Hsz. unfold unlock_heap. rewrite modify_step.
  eexists _, _. split; [done|].
  assert (Hlr : live rest = []) by (destruct Hrest as [->|(r & -> & Er)]; [done|by rewrite live_cons, Er]).
  split; [unfold wf|]; split_and!.
  - apply (core_lock _ _ 0) in Hc2. exact Hc2.
  - apply coalesced_app in Hco as (Hco1 & [Hh Hco2] & _). apply coalesced_app. split_and!; [done| |by intros ? ? _ [= <-]].
    split; [done|]. destruct Hrest as [->|(r & -> & Er)]; [done|]. cbn. split; [|done]. intros _.
    unfold is_free in Hh. rewrite Hf in Hh. by apply Hh.
  - done.
  - rewrite !live_app, !live_cons, Hf. cbn [b_alloc]. rewrite live_app, Hlr. cbn. symmetry. apply Permutation_middle.
  - unfold keeps in *. cbn. rewrite !live_app, ?live_cons, ?Hf, ?Hlr in *. intros v k Hin.
    eapply agree_trans; [by apply Hk1|by apply Hk2].
  - done.
Qed.

(** ** Growing *)

Lemma add_page_ok h :
  supply_ok (h_supply h) -> 0 <= g_heapEnd h -> g_heapEnd h + 4096 < 2 ^ 32 ->
  exists ok s', add_page h =
      Some (ok, set_end (g_heapEnd h + if ok : bool then 4096 else 0) (set_supply s' h)) /\
    supply_ok s' /\ (ok = false -> exhausted s').
Proof.
  intros Hs He1 He2. destruct (alloc_frame_ok _ Hs) as (f & s1 & E1 & Hs1 & Hf & Hal & Hex).
  unfold add_page, supply. erewrite bind_step by (unfold zoom; by rewrite E1).
  destruct (Z.eqb_spec f 0) as [->|].
  - exists false, s1. split_and!; [|done|by intros; apply Hex]. rewrite Z.add_0_r. done.
  - destruct (map_page_ok s1 (g_heapEnd h) f Hs1) as (s2 & E2 & Hs2); [lia|done|done|].
    exists true, s2. split_and!; try done. rewrite gets_step.
    erewrite bind_step by (unfold zoom; cbn [set_supply g_heapEnd h_supply]; by rewrite E2).
    rewrite modify_step. cbn [set_supply g_heapEnd]. unfold PAGE_SIZE. rewrite u32_small by lia. done.
Qed.

Lemma add_pages_ok n h :
  supply_ok (h_supply h) -> 0 <= g_heapEnd h -> g_heapEnd h + 4096 * Z.of_nat n < 2 ^ 32 ->
  exists ok k s', add_pages n h = Some (ok, set_end (g_heapEnd h + 4096 * k) (set_supply s' h)) /\
    supply_ok s' /\ 0 <= k <= Z.of_nat n /\
    (if ok : bool then k = Z.of_nat n else exhausted s').
Proof.
  revert h. induction n as [|n IH]; intros h Hs He1 He2.
  - exists true, 0, (h_supply h). split_and!; try done. cbn. rewrite Z.add_0_r. by destruct h.
  - cbn [add_pages]. destruct (add_page_ok h) as (ok & s1 & E1 & Hs1 & Hex); [done|lia|lia|].
    rewrite (bind_step _ _ _ _ _ E1). destruct ok.
    + destruct (IH (set_end (g_heapEnd h + 4096) (set_supply s1 h))) as (ok & k & s2 & E2 & Hs2 & Hk & Hr);
        [done|cbn; lia|cbn -[Z.of_nat]; lia|].
      exists ok, (k + 1), s2. rewrite E2. split_and!; try done; try lia.
      * replace (4096 * (k + 1)) with (4096 + 4096 * k) by lia. by rewrite Z.add_assoc.
      * destruct ok; [lia|done].
    + exists false, 0, s1. split_and!; try done; try lia. by apply Hex.
Qed.

(** The memory after [create_block_at] with a previous block. *)
Definition fresh_mem m (a sz p : Z) : mem :=
  write32 (write32 (write32 (write32 (write32 (write32 m (a + f_magic) HEAP_MAGIC) (a + f_size) sz)
    (a + f_prev) p) (a + f_next) 0) (a + f_used) 0) (a + f_reserved) 0.

Lemma fresh_ok m a sz p : 0 <= sz < 2 ^ 32 -> 0 <= p < 2 ^ 32 -> blk_ok (fresh_mem m a sz p) (Blk a sz None) p 0.
Proof.
  intros. unfold fresh_mem, f_magic, f_size, f_prev, f_next, f_used, f_reserved. rewrite Z.add_0_r.
  split; cbn; rd; rewrite ?u32_small by lia; done.
Qed.

Lemma lastp_range h l : core h l -> 0 <= lastp 0 l < 2 ^ 32 /\ (l <> [] -> lastp 0 l <> 0).
Proof.
  intros Hc. destruct l as [|b l _] using rev_ind; [done|]. pose proof (core_at h l b [] Hc) as [? ? ? ? ? _ _ _].
  rewrite lastp_app. cbn. unfold b_end, HDR in *. split; [lia|intros _; lia].
Qed.

(** [prev->next = block] on the last block of a list. *)
Lemma link_last_ok m lo l d n hi a :
  chain lo (l ++ [d]) hi -> seg m 0 (l ++ [d]) n -> 0 <= a < 2 ^ 32 ->
  let m' := write32 m (b_addr d + 12) a in
  seg m' 0 (l ++ [d]) a /\ keeps m m' (l ++ [d]) /\ forall x y, hi <= x -> agree m m' x y.
Proof.
  intros Hc [Hg1 [[H1 H2 H3 H4 H5 H6] _]]%seg_app Ha m'. apply chain_app in Hc as (mid & Hc1 & Hmid & Hs & Hc2).
  cbn in Hc2, Hg1. unfold b_end, HDR in *. pose proof (chain_le _ _ _ Hc1).
  assert (Ha1 : agree m m' lo mid) by (unfold m'; agr). split_and!.
  - apply seg_app. split; [by apply (seg_agree m _ lo _ _ _ mid)|]. split; [|done]. cbn [first]. unfold m'.
    split; rd; try done; [by apply u32_small|].
    intros u k E. destruct (H6 u k E) as (? & ? & ? & ?). unfold b_end, HDR. rd. split_and!; try lia; done.
  - apply keeps_app. split; [by apply (keeps_agree _ _ 0 lo _ (b_addr d) mid)|].
    intros u k Hin. rewrite live_cons in Hin. destruct (b_alloc d) as [r|] eqn:E; [|by apply elem_of_nil in Hin].
    apply list_elem_of_singleton in Hin as <-. destruct (H6 _ _ eq_refl) as (? & _). apply agree_write32. lia.
  - intros x y ?. unfold m'. agr.
Qed.

Lemma create_block_ok h l a sz :
  core h l -> chain (g_heapBase h) l a -> 0 <= sz -> a + HDR + sz <= g_heapEnd h ->
  exists h', create_block_at a sz (lastp 0 l) h = Some (a, h') /\ core h' (l ++ [Blk a sz None]) /\
    keeps (h_mem h) (h_mem h') l /\ g_heapLock h' = g_heapLock h /\ g_heapEnd h' = g_heapEnd h /\
    h_supply h' = h_supply h.
Proof.
  intros Hcore Hca Hsz Hend. destruct (lastp_range _ _ Hcore) as [Hlr Hln].
  pose proof (chain_le _ _ _ Hca) as Hba. destruct Hcore as [Hs Hb He Hf Hl Hc Hg Hu].
  unfold create_block_at. rewrite !store_step. set (h1 := set_mem _ _).
  assert (Hh1 : h1 = set_mem (fresh_mem (h_mem h) a sz (lastp 0 l)) h) by done. clearbody h1. subst h1.
  pose proof (fresh_ok (h_mem h) a sz (lastp 0 l) ltac:(unfold HDR in *; lia) Hlr) as Hfr.
  assert (Ha1 : agree (h_mem h) (fresh_mem (h_mem h) a sz (lastp 0 l)) (g_heapBase h) a).
  { unfold fresh_mem, f_magic, f_size, f_prev, f_next, f_used, f_reserved. agr. }
  set (m1 := fresh_mem _ _ _ _) in *. unfold HDR in *. destruct l as [|d l _] using rev_ind.
  - cbn [lastp Z.eqb]. rewrite ret_step, gets_step. cbn [set_mem g_firstBlock]. rewrite Hf.
    cbn [first Z.eqb]. rewrite !modify_step. eexists. split; [done|].
    split_and!; [|by intros ? ? ?%elem_of_nil|done..].
    split; cbn; try done.
  - specialize (Hln ltac:(by destruct l)). destruct (Z.eqb_spec (lastp 0 (l ++ [d])) 0); [done|].
    rewrite store_step, gets_step. cbn [set_mem g_firstBlock h_mem]. rewrite Hf.
    destruct (Z.eqb_spec (first (l ++ [d]) 0) 0) as [Hz|_].
    { exfalso. revert Hz. apply (first_pos (g_heapBase h) _ (g_heapEnd h)); [done|done|by destruct l]. }
    rewrite ret_step, modify_step. rewrite lastp_app in *. cbn [lastp] in *. unfold f_next.
    assert (Hg1 : seg m1 0 (l ++ [d]) 0) by (by apply (seg_agree (h_mem h) _ (g_heapBase h) _ _ _ a)).
    destruct (link_last_ok m1 (g_heapBase h) l d 0 a a Hca Hg1) as (Hg2 & Hk2 & Ha2); [lia|].
    eexists. split; [done|]. split_and!; [|cbn|done..].
    + split; try done; cbn -[first lastp].
      * by rewrite Hf, !first_app.
      * by rewrite !lastp_app.
      * apply chain_app. exists a. split; [done|]. cbn. unfold b_end, HDR. cbn. lia.
      * apply seg_app. split; [done|]. rewrite lastp_app. cbn. split; [|done].
        apply (blk_ok_agree m1); [done|apply Ha2; cbn; lia|done].
      * rewrite Hu, (used_bytes_app (l ++ [d])). cbn. lia.
    + eapply keeps_trans; [|done]. by apply (keeps_agree _ _ 0 (g_heapBase h) _ 0 a).
Qed.

(** [g_lastBlock->size += addedBytes]. *)
Lemma extend_last_ok h l d k :
  core h (l ++ [d]) -> b_alloc d = None -> 0 <= k -> b_end d + k <= g_heapEnd h ->
  let h' := set_mem (write32 (h_mem h) (b_addr d + 4) (b_size d + k)) h in
  core h' (l ++ [Blk (b_addr d) (b_size d + k) None]) /\ keeps (h_mem h) (h_mem h') (l ++ [d]).
Proof.
  intros Hcore Hf Hk Hend h'. pose proof (core_at h l d [] Hcore) as [Hc1 Hc2 Hs Hb He Hs1 [H1 H2 H3 H4 H5 _] _].
  rewrite Hf in H5. unfold b_end, HDR in *. split.
  - apply (core_rebuild h _ l [d] [] [Blk _ _ _] (b_addr d) (g_heapEnd h) Hcore); try done.
    + cbn. unfold b_end, HDR. cbn. lia.
    + cbn. lia.
    + cbn. agr.
    + split; [|done]. split; cbn; rd; rewrite ?u32_small by lia; done.
    + cbn. by rewrite (wf_last _ _ Hcore), lastp_app.
    + cbn. rewrite Hf. lia.
  - apply keeps_app. split.
    + apply (keeps_agree _ _ 0 (g_heapBase h) _ (b_addr d) (b_addr d)); try done. cbn. agr.
    + intros u n Hin. rewrite live_cons, Hf in Hin. by apply elem_of_nil in Hin.
Qed.

Lemma core_grown h l e s :
  core h l -> supply_ok s -> g_heapEnd h <= e < 2 ^ 32 -> core (set_end e (set_supply s h)) l.
Proof.
  intros [? ? ? ? ? ? ? ?] Hs He. split; try done; [cbn; lia|].
  cbn. eapply chain_weaken; [done|lia|lia].
Qed.

(** A block with room for [n] bytes of payload. *)
Definition has_room l (n : Z) : Prop := exists b, b ∈ l /\ b_alloc b = None /\ n <= b_size b.

(** The blocks after [add] bytes, at least a header, were added at the end. *)
Lemma add_block_ok h l a add :
  core h l -> coalesced l -> chain (g_heapBase h) l a -> HDR <= add -> a + add = g_heapEnd h ->
  exists h' l',
    (let! last := gets g_lastBlock in
     let! last_used := (if last =? 0 then ret 1 else load (last + f_used)) in
     if last_used =? 0 then
       let! sz := load (last + f_size) in
       store (last + f_size) (u32 (sz + add));;; ret true
     else let! _b := create_block_at a (u32 (add - HDR)) last in ret true) h = Some (true, h') /\
    core h' l' /\ coalesced l' /\ has_room l' (add - HDR) /\ live l' = live l /\
    keeps (h_mem h) (h_mem h') l /\ g_heapLock h' = g_heapLock h /\ g_heapEnd h' = g_heapEnd h.
Proof.
  intros Hcore Hco Hca Hadd Hend. destruct (lastp_range _ _ Hcore) as [_ Hln].
  pose proof (wf_end _ _ Hcore) as He. pose proof (chain_le _ _ _ Hca). pose proof (wf_base _ _ Hcore).
  rewrite gets_step, (wf_last _ _ Hcore). unfold HDR in *.
  assert (Hnew : (forall d, last l = Some d -> is_free d = false) -> exists h' l',
    (let! _b := create_block_at a (u32 (add - 24)) (lastp 0 l) in ret true) h = Some (true, h') /\
    core h' l' /\ coalesced l' /\ has_room l' (add - 24) /\ live l' = live l /\
    keeps (h_mem h) (h_mem h') l /\ g_heapLock h' = g_heapLock h /\ g_heapEnd h' = g_heapEnd h).
  { intros Hl. rewrite u32_small by lia.
    destruct (create_block_ok h l a (add - 24) Hcore Hca) as (h' & E & Hc' & Hk & Hlk & He' & _);
      [lia|unfold HDR; lia|].
    rewrite (bind_step _ _ _ _ _ E). eexists _, _. split; [done|]. split_and!; try done.
    - apply coalesced_app. split_and!; [done|done|]. intros b c Hb _ Hfb. by rewrite Hl in Hfb.
    - eexists. split; [apply elem_of_app; right; by apply list_elem_of_singleton|]. cbn. split; [done|lia].
    - by rewrite live_app, app_nil_r. }
  destruct l as [|d l _] using rev_ind; [by apply Hnew|]. specialize (Hln ltac:(by destruct l)).
  rewrite lastp_app in *. cbn [lastp] in *. destruct (Z.eqb_spec (b_addr d) 0); [done|].
  pose proof (core_at h l d [] Hcore) as Hat. rewrite load_step. unfold f_used.
  rewrite (ok_used _ _ _ _ (at_blk _ _ _ _ Hat)). destruct (b_alloc d) as [r|] eqn:Ed; cbn [Z.eqb].
  { apply Hnew. intros d'. rewrite last_snoc. intros [= <-]. unfold is_free. by rewrite Ed. }
  rewrite load_step. unfold f_size. rewrite (ok_size _ _ _ _ (at_blk _ _ _ _ Hat)).
  apply chain_app in Hca as (mid & _ & _ & Hds & Hca). cbn in Hca. pose proof (at_base _ _ _ _ Hat).
  destruct (extend_last_ok h l d add Hcore Ed) as [Hc' Hk]; [lia|lia|]. unfold b_end, HDR in *.
  rewrite u32_small by lia. eexists _, _. split; [done|]. split_and!; try done.
  - apply coalesced_app in Hco as (Hco1 & _ & Hll). apply coalesced_app. split_and!; try done.
    intros b c Hb _ Hfb. specialize (Hll b d Hb eq_refl Hfb). unfold is_free in Hll. by rewrite Ed in Hll.
  - eexists. split; [apply elem_of_app; right; by apply list_elem_of_singleton|]. cbn. split; [done|lia].
  - rewrite !live_app, !live_cons, Ed. done.
Qed.

Lemma grow_heap_ok h l n :
  core h l -> coalesced l -> 0 <= n -> g_heapEnd h + n + HDR + 4095 < 2 ^ 32 ->
  exists ok h' l', grow_heap n h = Some (ok, h') /\ core h' l' /\ coalesced l' /\ live l' = live l /\
    keeps (h_mem h) (h_mem h') l /\ g_heapLock h' = g_heapLock h /\
    g_heapEnd h' <= g_heapEnd h + n + HDR + 4095 /\
    if ok : bool then has_room l' n else exhausted (h_supply h').
Proof.
  intros Hcore Hco Hn Hend. unfold grow_heap, PAGE_SIZE.
  pose proof (wf_base _ _ Hcore). pose proof (chain_le _ _ _ (wf_chain _ _ Hcore)). unfold HDR in *.
  rewrite (u32_small (n + 24)) by lia.
  assert (Hp : exists p, u32 ((n + 24 + 4096 - 1) / 4096) = p /\ 1 <= p /\
    n + 24 <= 4096 * p <= n + 24 + 4095).
  { eexists. split; [done|]. unfold u32. zdiv. }
  destruct Hp as (p & -> & Hp1 & Hp2). destruct (Z.eqb_spec p 0); [lia|]. rewrite gets_step.
  destruct (add_pages_ok (Z.to_nat p) h (wf_supply _ _ Hcore)) as (ok & k & s' & E & Hs & Hk & Hr); [lia|lia|].
  rewrite (bind_step _ _ _ _ _ E).
  pose proof (core_grown h l (g_heapEnd h + 4096 * k) s' Hcore Hs ltac:(lia)) as Hc1.
  set (h1 := set_end _ _) in *. destruct ok; cbn [negb].
  - rewrite gets_step. change (g_heapEnd h1) with (g_heapEnd h + 4096 * k).
    rewrite (u32_small (_ - _)) by lia. replace (g_heapEnd h + 4096 * k - g_heapEnd h) with (4096 * k) by lia.
    destruct (add_block_ok h1 l (g_heapEnd h) (4096 * k) Hc1 Hco)
      as (h' & l' & E' & Hc' & Hco' & (b & Hb & Hf & Hsz) & Hlv & Hk' & Hl & He');
      [apply (wf_chain _ _ Hcore)|unfold HDR; lia|done|].
    exists true, h', l'. split; [exact E'|]. split_and!; try done.
    + rewrite He'. cbn. lia.
    + exists b. split_and!; try done. unfold HDR in *. lia.
  - exists false, h1, l. split_and!; try done. cbn. lia.
Qed.

Lemma find_block_ok h l k n :
  core h l -> 0 <= n -> 3 <= k <= 31 -> g_heapEnd h + 2 ^ k + n + 4 <= 2 ^ 32 ->
  exists r, find_block n (2 ^ k) h = Some (r, h) /\
    ((r = (0, 0, 0) /\ ~ has_room l (n + 2 ^ k + 4)) \/ found k n l r).
Proof.
  intros Hcore Hn Hk Hend. unfold find_block. rewrite !gets_step, (wf_first _ _ Hcore).
  pose proof (chain_length _ _ _ (wf_chain _ _ Hcore)) as Hlen.
  destruct (find_loop_ok (block_fuel h) h 0 (g_heapBase h) l (g_heapEnd h) k n)
    as (r & E & Hr); try done; [apply (wf_base _ _ Hcore)|apply (wf_chain _ _ Hcore)|apply (wf_seg _ _ Hcore)| |].
  - unfold block_fuel. apply Nat2Z.inj_le. unfold HDR in *.
    pose proof (Z.div_le_lower_bound (g_heapEnd h - g_heapBase h) 24 (Z.of_nat (length l)) ltac:(lia) Hlen). lia.
  - exists r. split; [done|]. destruct Hr as [[-> Hr]|Hr]; [left|by right]. split; [done|].
    intros (b & Hb & Hf & Hsz). specialize (Hr b Hb Hf). lia.
Qed.

Lemma found_take h l k n r :
  core h l -> coalesced l -> 0 < n -> g_heapEnd h + 56 < 2 ^ 32 -> found k n l r ->
  exists a u c h' l', r = (a, u, c) /\ a <> 0 /\ u mod 2 ^ k = 0 /\ take_block a u c h = Some (u, h') /\
    wf h' l' /\ live l' ≡ₚ (u, n) :: live l /\ keeps (h_mem h) (h_mem h') l /\ g_heapEnd h' = g_heapEnd h.
Proof.
  intros Hcore Hco Hn Hend (l1 & b & l2 & u & -> & Hf & -> & Hu & Hu1 & Hu2).
  destruct (take_block_ok h l1 b l2 u n Hcore Hco Hf) as (h' & l' & E & ?); [done..|].
  pose proof (at_base _ _ _ _ (core_at _ _ _ _ Hcore)).
  eexists _, _, _, h', l'. split_and!; try done; try lia; naive_solver.
Qed.

Lemma Alloc_ok h l n align :
  wf h l -> 0 < n -> 0 <= align <= 2 ^ 31 -> g_heapEnd h + 2 * (n + 2 * Z.max 8 align) + 4200 <= 2 ^ 32 ->
  exists r h' l', Alloc n align h = Some (r, h') /\ wf h' l' /\ keeps (h_mem h) (h_mem h') l /\
    g_heapEnd h' <= g_heapEnd h + n + 2 * Z.max 8 align + 4200 /\
    ((r = 0 /\ live l' = live l /\ exhausted (h_supply h')) \/
     (exists k, Z.max 8 align <= 2 ^ k /\ r mod 2 ^ k = 0 /\ live l' ≡ₚ (r, n) :: live l)).
Proof.
  intros (Hcore & Hco & Hlock) Hn Hal Hend. unfold Alloc. destruct (Z.eqb_spec n 0); [lia|].
  destruct (normalize_align_ok align Hal) as (k & -> & Hk & Hka).
  unfold lock_heap. rewrite bind_assoc, gets_step, Hlock. cbn [Z.eqb]. rewrite modify_step.
  apply (core_lock _ _ 1) in Hcore. set (h1 := set_lock 1 h) in *.
  assert (He1 : g_heapEnd h1 = g_heapEnd h) by done. change (h_mem h) with (h_mem h1).
  destruct (find_block_ok h1 l k n Hcore) as (r & E & Hr); [lia..|]. rewrite (bind_step _ _ _ _ _ E).
  destruct Hr as [[-> Hroom]|Hr].
  2:{ destruct (found_take h1 l k n r Hcore Hco Hn ltac:(lia) Hr) as (a & u & c & h' & l' & -> & Ha & Hu & E' & ? & ? & ? & He').
      destruct (Z.eqb_spec a 0); [done|]. cbn [negb]. rewrite E'. exists u, h', l'.
      split_and!; try done; [lia|]. right. exists k. split_and!; [lia|done..]. }
  cbn [Z.eqb negb]. rewrite u32_small by (pose proof (wf_base _ _ Hcore);
    pose proof (chain_le _ _ _ (wf_chain _ _ Hcore)); lia).
  destruct (grow_heap_ok h1 l (n + 2 ^ k + 4) Hcore Hco) as (ok & h2 & l2 & E2 & Hc2 & Hco2 & Hlv2 & Hk2 & Hl2 & He2 & Hok);
    [lia|unfold HDR; lia|].
  rewrite (bind_step _ _ _ _ _ E2). destruct ok; cbn [negb].
  2:{ exists 0, (set_lock 0 h2), l2. unfold HDR in He2. split_and!; [done| |done|cbn; lia|by left].
      split_and!; [by apply core_lock|done|done]. }
  unfold HDR in He2. destruct (find_block_ok h2 l2 k n Hc2) as (r & E3 & Hr); [lia..|].
  rewrite (bind_step _ _ _ _ _ E3). destruct Hr as [[_ Hno]|Hr]; [done|].
  destruct (found_take h2 l2 k n r Hc2 Hco2 Hn ltac:(lia) Hr) as (a & u & c & h' & l' & -> & Ha & Hu & E' & ? & Hp & Hk3 & He').
  destruct (Z.eqb_spec a 0); [done|]. rewrite E'. exists u, h', l'. split_and!; try done.
  - eapply keeps_trans; [done|]. unfold keeps in *. by rewrite <-Hlv2.
  - lia.
  - right. exists k. rewrite <-Hlv2. split_and!; [lia|done..].
Qed.

(** ** Regions *)

Definition apart (r1 r2 : Z * Z) : Prop := r1.1 + r1.2 <= r2.1 \/ r2.1 + r2.2 <= r1.1.

Fixpoint pairwise (rs : list (Z * Z)) : Prop :=
  match rs with [] => True | r :: rs' => (forall r', r' ∈ rs' -> apart r r') /\ pairwise rs' end.

#[export] Instance pairwise_proper : Proper ((≡ₚ) ==> iff) pairwise.
Proof.
  enough (Hi : forall r1 r2, r1 ≡ₚ r2 -> pairwise r1 -> pairwise r2) by (intros r1 r2 Hp; split; by apply Hi).
  induction 1 as [|x l l' Hp IH|x y l|]; cbn; [done| | |by auto].
  - intros [H1 H2]. split; [|by auto]. intros r Hr. apply H1. by rewrite Hp.
  - intros (H1 & H2 & H3). split_and!; [|intros r Hr; apply H1; by right|done].
    intros r [->|Hr]%elem_of_cons; [|by apply H2]. specialize (H1 x ltac:(by left)). unfold apart in *. lia.
Qed.

Lemma live_pairwise m p lo l n hi : chain lo l hi -> seg m p l n -> pairwise (live l).
Proof.
  revert p lo. induction l as [|b l IH]; intros p lo; [done|]. intros (? & ? & Hc) [Hb Hs].
  rewrite live_cons. specialize (IH _ _ Hc Hs). destruct (b_alloc b) as [[u k]|] eqn:E; [|done].
  split; [|done]. intros [u' k'] Hin. left. cbn.
  destruct (ok_back _ _ _ _ Hb u k E) as (? & ? & ? & _).
  destruct (live_bounds _ _ _ _ _ _ _ _ Hc Hs Hin) as (? & ? & ?). unfold b_end, HDR in *. lia.
Qed.

Lemma core_regions h l : core h l -> pairwise (live l) /\
  forall u k, (u, k) ∈ live l -> g_heapBase h < u /\ 0 < k /\ u + k <= g_heapEnd h.
Proof.
  intros Hc. split; [eapply live_pairwise; [apply (wf_chain _ _ Hc)|apply (wf_seg _ _ Hc)]|].
  intros u k Hin. destruct (live_bounds _ _ _ _ _ _ _ _ (wf_chain _ _ Hc) (wf_seg _ _ Hc) Hin) as (? & ? & ?).
  unfold HDR in *. lia.
Qed.

(** C1: [Alloc] returns, keeps the heap invariant and the bytes of every region
    already handed out; it fails only when the frame supply is exhausted, and
    otherwise hands out a region of the requested size, aligned as asked,
    inside the mapped heap and disjoint from every other live region. *)
Theorem Alloc_spec h l n align :
  wf h l -> 0 < n -> 0 <= align <= 2 ^ 31 -> g_heapEnd h + 2 * (n + 2 * Z.max 8 align) + 4200 <= 2 ^ 32 ->
  exists r h' l', Alloc n align h = Some (r, h') /\ wf h' l' /\ keeps (h_mem h) (h_mem h') l /\
    ((r = 0 /\ live l' = live l /\ exhausted (h_supply h')) \/
     (live l' ≡ₚ (r, n) :: live l /\ (exists k, Z.max 8 align <= 2 ^ k /\ r mod 2 ^ k = 0) /\
      g_heapBase h' < r /\ r + n <= g_heapEnd h' /\ forall r', r' ∈ live l -> apart (r, n) r')).
Proof.
  intros Hwf Hn Hal Hend. destruct (Alloc_ok h l n align Hwf Hn Hal Hend) as (r & h' & l' & E & Hwf' & Hk & _ & Hr).
  exists r, h', l'. split_and!; try done. destruct Hr as [?|(k & Hk1 & Hk2 & Hp)]; [by left|right].
  destruct (core_regions h' l' (proj1 Hwf')) as [Hpw Hb]. rewrite Hp in Hpw.
  destruct (Hb r n) as (? & ? & ?); [rewrite Hp; by left|]. split_and!; [done|by exists k|done|done|apply Hpw].
Qed.

(** C16: [Free] of a live region returns, keeps the invariant (so the freed
    block is merged with its free neighbours and the accounting is exact),
    removes exactly that region and keeps the bytes of all others. *)
Theorem Free_spec h l u n :
  wf h l -> (u, n) ∈ live l ->
  exists h' l', Free u h = Some (tt, h') /\ wf h' l' /\ live l ≡ₚ (u, n) :: live l' /\
    keeps (h_mem h) (h_mem h') l'.
Proof.
  intros Hwf Hin. destruct (Free_ok h l u n Hwf Hin) as (h' & l' & ? & ? & ? & ? & _). by exists h', l'.
Qed.

Lemma Free_stale h u : g_heapLock h = 0 -> u <> 0 -> stale (h_mem h) u -> Free u h = Some (tt, h).
Proof.
  intros Hl Hu (a & Ha & E1 & E2). unfold Free. destruct (Z.eqb_spec u 0); [done|].
  unfold lock_heap. rewrite bind_assoc, gets_step, Hl. cbn [Z.eqb]. rewrite modify_step.
  unfold block_from_payload. destruct (Z.eqb_spec u 0); [done|]. rewrite load_step. cbn [set_lock h_mem].
  rewrite E1. destruct (Z.eqb_spec a 0); [done|]. rewrite !load_step. cbn [set_lock h_mem]. unfold f_used.
  rewrite E2. cbn [Z.eqb]. rewrite orb_true_r. unfold unlock_heap, modify. cbn. do 2 f_equal.
  destruct h. cbn in *. by subst.
Qed.

(** Freeing a pointer a second time, before the memory is reused, changes nothing. *)
Theorem Free_twice h l u n :
  wf h l -> (u, n) ∈ live l ->
  exists h', Free u h = Some (tt, h') /\ Free u h' = Some (tt, h').
Proof.
  intros Hwf Hin. destruct (Free_ok h l u n Hwf Hin) as (h' & l' & E & (_ & _ & Hl) & _ & _ & Hs).
  exists h'. split; [done|]. apply Free_stale; [done| |done].
  destruct (core_regions h l (proj1 Hwf)) as [_ Hb]. specialize (Hb u n Hin).
  pose proof (wf_base _ _ (proj1 Hwf)). lia.
Qed.

Lemma seg_user_write m lo p l n hi u k a v :
  chain lo l hi -> seg m p l n -> (u, k) ∈ live l -> u <= a < u + k -> seg (write8 m a v) p l n.
Proof.
  assert (Hout : forall lo hi, hi <= a \/ a < lo -> agree m (write8 m a v) lo hi).
  { intros ? ? ? i Hi. apply read8_write8_ne. lia. }
  revert p lo. induction l as [|b l IH]; intros p lo; [done|]. cbn. intros (Hlo & Hsz & Hc) [Hb Hs] Hin Ha.
  change (omap b_alloc l) with (live l) in Hin. pose proof (chain_le _ _ _ Hc).
  assert (Hcase : (b_alloc b = Some (u, k)) \/ (u, k) ∈ live l).
  { destruct (b_alloc b); [|by right]. apply elem_of_cons in Hin as [->|]; auto. }
  destruct Hcase as [E|Hin'].
  - destruct Hb as [H1 H2 H3 H4 H5 H6]. destruct (H6 _ _ E) as (? & ? & ? & ?). unfold b_end, HDR in *. split.
    + split; rewrite ?read32_write8_ne by lia; try done. intros u' k' E'. simplify_eq.
      unfold b_end, HDR. rewrite read32_write8_ne by lia. split_and!; lia || done.
    + eapply seg_agree; [exact Hc|apply Hout; lia|done].
  - destruct (live_bounds _ _ _ _ _ _ _ _ Hc Hs Hin') as (? & ? & ?). unfold b_end, HDR in *. split; [|by eapply IH].
    eapply blk_ok_agree; [done|apply Hout; unfold b_end, HDR; lia|done].
Qed.

Lemma user_write_ok h l u n a v :
  wf h l -> (u, n) ∈ live l -> u <= a < u + n -> wf (set_mem (write8 (h_mem h) a v) h) l.
Proof.
  intros ([? ? ? ? ? Hc Hs ?] & ? & ?) Hin Ha. split_and!; try done. split; try done.
  by eapply seg_user_write.
Qed.

(** [memset] on a live region. *)
Lemma memset_wf h l u n v : wf h l -> (u, n) ∈ live l ->
  wf (set_mem (memset (h_mem h) u v (Z.to_nat n)) h) l.
Proof.
  intros Hwf Hin. unfold memset.
  enough (HG : forall k i h, wf h l -> 0 <= i -> i + Z.of_nat k <= n ->
    wf (set_mem (memset_loop k i (h_mem h) u (Z.land v 255)) h) l).
  { destruct (core_regions h l (proj1 Hwf)) as [_ Hb]. specialize (Hb u n Hin). apply HG; [done|lia|lia]. }
  clear h Hwf. induction k as [|k IH]; intros i h Hwf Hi Hk; cbn [memset_loop]; [by destruct h|].
  apply (IH (i + 1) (set_mem (write8 (h_mem h) (u + i) (Z.land v 255)) h)); [|lia|lia].
  apply (user_write_ok h l u n); [done|done|lia].
Qed.

Lemma ensure_loop_pages n h upto :
  supply_ok (h_supply h) -> 0 <= g_heapEnd h -> g_heapEnd h + 4096 * Z.of_nat n = upto -> upto < 2 ^ 32 ->
  ensure_loop n upto h = add_pages n h.
Proof.
  revert h. induction n as [|n IH]; intros h Hs He Hup Hb; cbn [ensure_loop add_pages]; rewrite gets_step.
  - destruct (Z.ltb_spec (g_heapEnd h) upto); [lia|done].
  - destruct (Z.ltb_spec (g_heapEnd h) upto); [|lia].
    destruct (add_page_ok h Hs He) as (ok & s' & E & Hs' & _); [lia|]. rewrite !(bind_step _ _ _ _ _ E).
    destruct ok; [|done]. apply IH; cbn -[Z.of_nat]; [done|lia..].
Qed.

(** [Heap::Init] returns; either all pages are mapped and the heap is one
    free block that fills them, or the frames ran out and the heap is empty.
    Both states satisfy the invariant. *)
Theorem Init_spec h base pages :
  supply_ok (h_supply h) -> g_heapLock h = 0 -> 0 < base -> 0 <= pages ->
  base + 4096 * Z.max 1 pages < 2 ^ 32 ->
  exists h' l, Init base pages h = Some (tt, h') /\ wf h' l /\ live l = [] /\
    ((l = [Blk base (4096 * Z.max 1 pages - HDR) None] /\ g_heapEnd h' = base + 4096 * Z.max 1 pages) \/
     (l = [] /\ exhausted (h_supply h'))).
Proof.
  intros Hs Hl Hb Hp Hend. unfold Init, PAGE_SIZE. rewrite modify_step. set (h0 := mk_heap _ _ _ _ _ _ _ _).
  assert (Hq : (if pages =? 0 then 1 else pages) = Z.max 1 pages) by (destruct (Z.eqb_spec pages 0); lia).
  rewrite Hq. set (p := Z.max 1 pages) in *. assert (1 <= p) by (unfold p; lia). clearbody p.
  rewrite (u32_small (base + p * 4096)) by lia. unfold ensure, PAGE_SIZE. rewrite bind_assoc, gets_step.
  change (g_heapEnd h0) with base.
  replace ((base + p * 4096 - base + 4096 - 1) / 4096) with p by zdiv.
  rewrite (bind_ext _ (add_pages (Z.to_nat p))) by (apply ensure_loop_pages; cbn; [done|lia..]).
  destruct (add_pages_ok (Z.to_nat p) h0) as (ok & k & s' & E & Hs' & Hk & Hr); [done|cbn; lia|cbn; lia|].
  rewrite (bind_step _ _ _ _ _ E). cbn [h0 g_heapEnd] in *. fold h0. set (h1 := set_end _ _).
  assert (Hc1 : core h1 []) by (split; try done; cbn; lia). destruct ok.
  - rewrite gets_step. change (g_heapEnd h1) with (base + 4096 * k). unfold HDR.
    rewrite (u32_small (_ - base)), u32_small by lia.
    destruct (create_block_ok h1 [] base (base + 4096 * k - base - 24) Hc1) as (h' & E' & Hc' & _ & Hl' & He' & _);
      [cbn; lia|lia|cbn; unfold HDR; lia|].
    exists h', [Blk base (4096 * p - 24) None]. cbn [lastp] in E'. rewrite (bind_step _ _ _ _ _ E').
    replace (base + 4096 * k - base - 24) with (4096 * p - 24) in * by lia.
    split_and!; [done|split_and!; [done|done|by rewrite Hl']|done|]. left. split; [done|]. rewrite He'. cbn. lia.
  - exists h1, []. split_and!; [done|split_and!; done|done|by right].
Qed.

(** ** Sessions of clients *)

(** What clients do with the heap: they allocate, free what they hold and write
    bytes.  Beside the heap goes what they know: the regions they hold and the
    byte they last wrote at each address of them. *)
Inductive client_op := DoAlloc (n align : Z) | DoFree (u : Z) | DoWrite (a v : Z).
Record client := mk_client { c_heap : heap S; c_regions : list (Z * Z); c_written : gmap Z Z }.
Definition held (rs : list (Z * Z)) (a : Z) : bool := existsb (fun r => (r.1 <=? a) && (a <? r.1 + r.2)) rs.

Definition client_do (o : client_op) (c : client) : option client :=
  match o with
  | DoAlloc n align => '(r, h) ← Alloc n align (c_heap c); Some (mk_client h (if r =? 0 then c_regions c else (r, n) :: c_regions c) (c_written c))
  | DoFree u => '(_, h) ← Free u (c_heap c); let rs := filter (fun r => r.1 <> u) (c_regions c) in Some (mk_client h rs (filter (fun p => held rs p.1 = true) (c_written c)))
  | DoWrite a v => Some (mk_client (set_mem (write8 (h_mem (c_heap c)) a v) (c_heap c)) (c_regions c) (<[a := u8 v]> (c_written c)))
  end.
Definition session (ops : list client_op) (c : client) : option client := foldl (fun r o => c ← r; client_do o c) (Some c) ops.

(** Clients free regions they hold and write inside them; they ask for sizes
    that the address space can still provide. *)
Definition may_do (o : client_op) (c : client) : Prop :=
  match o with
  | DoAlloc n align => 0 < n /\ 0 <= align <= 2 ^ 31 /\ g_heapEnd (c_heap c) + 2 * (n + 2 * Z.max 8 align) + 4200 <= 2 ^ 32
  | DoFree u => existsb (fun r => r.1 =? u) (c_regions c) = true
  | DoWrite a _ => held (c_regions c) a = true
  end.
Fixpoint permitted (ops : list client_op) (c : client) : Prop :=
  match ops with [] => True | o :: ops' => may_do o c /\ match client_do o c with Some c' => permitted ops' c' | None => True end end.

Definition consistent (c : client) : Prop := exists l, wf (c_heap c) l /\ live l ≡ₚ c_regions c /\
  forall a v, c_written c !! a = Some v -> held (c_regions c) a = true /\ read8 (h_mem (c_heap c)) a = v.

Lemma held_in rs a : held rs a = true -> exists u n, (u, n) ∈ rs /\ u <= a < u + n.
Proof. intros ([u n] & Hin & Ha)%existsb_exists. exists u, n. split; [by apply list_elem_of_In|]. cbn in Ha. lia. Qed.
Lemma keeps_held m m' l rs a : keeps m m' l -> live l ≡ₚ rs -> held rs a = true -> read8 m' a = read8 m a.
Proof. intros Hk Hl (u & n & Hin & Ha)%held_in. rewrite <-Hl in Hin. by apply (Hk u n Hin). Qed.
Lemma other_bases u n rs : pairwise ((u, n) :: rs) -> 0 < n -> Forall (fun r => 0 < r.2) rs -> filter (fun r => r.1 <> u) ((u, n) :: rs) = rs.
Proof.
  intros [Ha _] Hn Hp. rewrite filter_cons_False by (cbn; auto). assert (Hne : Forall (fun r : Z * Z => r.1 <> u) rs) by (rewrite Forall_forall in Hp |- *; intros r Hr; specialize (Hp r Hr); destruct (Ha r Hr); cbn in *; lia).
  clear Ha Hp. induction Hne as [|r rs Hr _ IH]; [done|]. by rewrite filter_cons_True, IH.
Qed.

Lemma client_step o c : consistent c -> may_do o c -> exists c', client_do o c = Some c' /\ consistent c'.
Proof.
  intros (l & Hwf & Hl & Hw) Ho. destruct o as [n align|u|a v]; cbn [may_do client_do] in *.
  - destruct Ho as (Hn & Hal & He). destruct (Alloc_ok _ l n align Hwf Hn Hal He) as (r & h' & l' & E & Hwf' & Hk & _ & Hr). rewrite E. eexists. split; [reflexivity|]. exists l'. cbn. split; [done|].
    assert (Hw' : forall a v, c_written c !! a = Some v -> held (c_regions c) a = true /\ read8 (h_mem h') a = v).
    { intros a v Ha. destruct (Hw a v Ha) as [Hh <-]. split; [done|]. by eapply keeps_held. }
    destruct Hr as [(-> & El & _)|(k & _ & _ & Hp)]; [by rewrite El|]. destruct (core_regions h' l' (proj1 Hwf')) as [_ Hb]. destruct (Hb r n) as (Hr & _ & _); [rewrite Hp; by left|].
    pose proof (wf_base _ _ (proj1 Hwf')). rewrite (proj2 (Z.eqb_neq r 0)) by lia. split; [by rewrite Hp, Hl|]. intros a v Ha. destruct (Hw' a v Ha). split; [|done]. cbn [held existsb]. by apply orb_true_iff; right.
  - apply existsb_exists in Ho as ([u' n] & Hin & Eu). cbn in Eu. apply Z.eqb_eq in Eu as ->. apply list_elem_of_In in Hin. rewrite <-Hl in Hin. destruct (Free_ok _ l u n Hwf Hin) as (h' & l' & E & Hwf' & Hp & Hk & _). rewrite E. eexists. split; [reflexivity|]. exists l'. cbn. split; [done|].
    destruct (core_regions _ l (proj1 Hwf)) as [Hpw Hb]. destruct (core_regions h' l' (proj1 Hwf')) as [_ Hb'].
    assert (Hrs : live l' ≡ₚ filter (fun r => r.1 <> u) (c_regions c)).
    { rewrite <-Hl, Hp, other_bases; [done|by rewrite <-Hp|by apply (Hb u n)|]. apply Forall_forall. intros [u' k'] Hr. by apply (Hb' u' k'). }
    split; [done|]. intros a v (Ha & Hh)%map_lookup_filter_Some. split; [done|]. destruct (Hw a v Ha) as [_ <-]. by eapply keeps_held.
  - eexists. split; [reflexivity|]. exists l. cbn. destruct (held_in _ _ Ho) as (u & n & Hin & Ha). rewrite <-Hl in Hin.
    split; [by apply (user_write_ok _ l u n)|]. split; [done|]. intros b x. rewrite lookup_insert, read8_write8. case_decide as E; [|by apply Hw]. intros [= <-]. by subst b.
Qed.

Lemma session_runs ops c : consistent c -> permitted ops c -> exists c', session ops c = Some c' /\ consistent c'.
Proof.
  revert c. induction ops as [|o ops IH]; intros c Hc; [by exists c|]. intros [Ho Hp]. destruct (client_step o c Hc Ho) as (c' & E & Hc'). rewrite E in Hp. destruct (IH c' Hc' Hp) as (c2 & E2 & ?). exists c2. split; [|done].
  unfold session in *. cbn [foldl]. cbn [mbind option_bind]. by rewrite E.
Qed.

(** C36: From [Init] on, clients may allocate, write inside the regions they hold
    and free them, in any order and number: every call returns, the regions they
    hold are apart from each other and inside the heap, and every byte they wrote
    to a region they still hold reads as last written. *)
Theorem heap_sessions h base pages :
  supply_ok (h_supply h) -> g_heapLock h = 0 -> 0 < base -> 0 <= pages -> base + 4096 * Z.max 1 pages < 2 ^ 32 ->
  exists h0, Init base pages h = Some (tt, h0) /\ let c0 := mk_client h0 [] ∅ in
    forall ops, permitted ops c0 -> exists c, session ops c0 = Some c /\ pairwise (c_regions c) /\
      (forall u n, (u, n) ∈ c_regions c -> g_heapBase (c_heap c) < u /\ 0 < n /\ u + n <= g_heapEnd (c_heap c)) /\
      forall a v, c_written c !! a = Some v -> held (c_regions c) a = true /\ read8 (h_mem (c_heap c)) a = v.
Proof.
  intros Hs Hl Hb Hp Hend. destruct (Init_spec h base pages Hs Hl Hb Hp Hend) as (h0 & l & E & Hwf & Hn & _). exists h0. split; [done|]. intros c0 ops Hops.
  destruct (session_runs ops c0) as (c & Ec & l' & Hwf' & Hrs & Hw); [exists l; split; [done|]; split; [by rewrite Hn|]; cbn; intros a v; by rewrite lookup_empty|done|].
  exists c. split; [done|]. destruct (core_regions _ l' (proj1 Hwf')) as [Hpw Hr]. rewrite Hrs in Hpw. split; [done|]. split; [|done]. intros u n. rewrite <-Hrs. apply Hr.
Qed.

Lemma split_block_total a c h : exists h', split_block a c h = Some (tt, h').
Proof.
  unfold split_block. destruct (_ =? _); [by eexists|]. rewrite load_step. destruct (_ <=? _); [by eexists|].
  rewrite !store_step, load_step, !store_step, load_step. destruct (negb _); by eexists.
Qed.

Lemma take_block_total a u c h : exists h', take_block a u c h = Some (u, h').
Proof.
  destruct (split_block_total a c h) as (h1 & E). unfold take_block. rewrite (bind_step _ _ _ _ _ E).
  by eexists.
Qed.

(** A request of 2^32 - 8 bytes succeeds on any heap whose first block is
    free and 8-byte aligned: the sum of prefix and size wraps to 0 and the
    block, whatever its size, passes for large enough. *)
Theorem Alloc_size_wraps h b l :
  wf h (b :: l) -> b_alloc b = None -> b_addr b mod 8 = 0 -> g_heapEnd h + 64 < 2 ^ 32 ->
  exists h', Alloc (2 ^ 32 - 8) 8 h = Some (b_addr b + 32, h').
Proof.
  intros (Hcore & _ & Hlock) Hf Hal Hend. destruct (core_at h [] b l Hcore) as [_ _ Hs Hb He _ Hblk _].
  unfold b_end, HDR in He. unfold Alloc. cbn [Z.eqb]. change (normalize_align 8) with (Some 8).
  change (2 ^ 32 - 8 =? 0) with false. cbn match.
  unfold lock_heap. rewrite bind_assoc, gets_step, Hlock. cbn [Z.eqb]. rewrite modify_step.
  unfold find_block. rewrite !bind_assoc, gets_step. rewrite !bind_assoc, gets_step. cbn [set_lock g_firstBlock].
  rewrite (wf_first _ _ Hcore). cbn [first].
  assert (Hfu : exists f, block_fuel (set_lock 1 h) = Datatypes.S f).
  { pose proof (chain_length _ _ _ (wf_chain _ _ Hcore)) as Hlen. cbn [length] in Hlen. unfold HDR in Hlen.
    exists (Nat.pred (block_fuel (set_lock 1 h))). unfold block_fuel, HDR. cbn [set_lock g_heapEnd g_heapBase].
    pose proof (Z.div_le_lower_bound (g_heapEnd h - g_heapBase h) 24 1). lia. }
  destruct Hfu as (f & ->). cbn [find_loop]. destruct (Z.eqb_spec (b_addr b) 0); [lia|].
  rewrite bind_assoc, load_step, bind_assoc, load_step. cbn [set_lock h_mem]. unfold f_used.
  rewrite (ok_used _ _ _ _ Hblk), Hf. cbn [Z.eqb negb]. rewrite bind_assoc, load_step. cbn [set_lock h_mem].
  unfold f_size, payload_start, HDR. rewrite (ok_size _ _ _ _ Hblk), (u32_small (b_addr b + 24)) by lia.
  rewrite (u32_small (b_addr b + 24 + 4)) by lia.
  destruct (align_up_spec (b_addr b + 24 + 4) 3) as [Hu Hm]; [lia|lia|lia|]. change (2 ^ 3) with 8 in *.
  assert (Hu32 : align_up_ptr (b_addr b + 24 + 4) 8 = b_addr b + 32) by zdiv. rewrite Hu32.
  replace (u32 (b_addr b + 32 - (b_addr b + 24))) with 8 by (rewrite u32_small; lia).
  change (u32 (8 + (2 ^ 32 - 8))) with 0. destruct (Z.ltb_spec (b_size b) 0); [lia|]. rewrite ret_step.
  destruct (Z.eqb_spec (b_addr b) 0); [lia|]. cbn [negb]. apply take_block_total.
Qed.
End Proofs.

(** * The page supply of the kernel *)

#[export] Program Instance paging_supply : PageSupply Paging.paging := {|
  alloc_frame := Paging.on_pmm Pmm.AllocFrame;
  map_page := Paging.MapPage;
  supply_ok := Paging.wf;
  exhausted s := forall f, 0 <= f < Pmm.g_frameCap (Paging.pg_pmm s) -> Pmm.bit (Paging.pg_pmm s) f = true;
|}.
Next Obligation.
  intros s Hwf. cbn in *. pose proof (Paging.wf_pmm _ Hwf) as Hp. pose proof Hp as [Hcap _].
  unfold Pmm.MAX_FRAMES in Hcap.
  destruct (Paging.alloc_step s Hp (Paging.wf_frame0 _ Hwf))
    as [(f & p & E & Hf & Hb & _ & Hwfp & Hfl)|[E Hall]].
  - exists (4096 * f), (Paging.set_pmm p s). split_and!; try done; try lia; [|zdiv].
    destruct Hfl as (Hc & Hfl). apply Paging.wf_set_pmm; try done. intros g Hg Hbg.
    rewrite Hfl by done. by case_decide.
  - exists 0, s. split_and!; try done; lia.
Qed.
Next Obligation.
  intros s va f Hwf Hva Hf Hal. destruct (Paging.MapPage_ok s va f (Z.lor Paging.Present Paging.RW) Hwf Hva Hf Hal) as (s' & E & Hwf' & _). eauto.
Qed.

(** * Concrete runs *)

(** A heap of one page at 32 MiB, before any allocation. *)
Definition demo_heap : heap Paging.paging :=
  mk_heap (fresh_mem ∅ 0x2000000 4072 0) 0x2000000 0x2001000 0 0 0x2000000 0x2000000 Paging.demo_paging.
Definition demo_blocks : list block := [Blk 0x2000000 4072 None].

Lemma demo_heap_wf : wf demo_heap demo_blocks.
Proof.
  split_and!; [|split; [reflexivity|exact I]|reflexivity].
  split; [apply Paging.demo_paging_wf|cbn; lia|cbn; lia|reflexivity|reflexivity| | |reflexivity].
  - cbn. unfold b_end, HDR. cbn. lia.
  - split; [|exact I]. apply fresh_ok; lia.
Qed.

(** The same heap with 100 bytes handed out at [0x2000020]. *)
Definition demo_heap1 : heap Paging.paging :=
  mk_heap (write32 (write32 (fresh_mem ∅ 0x2000000 4072 0) 0x2000010 1) 0x200001C 0x2000000)
    0x2000000 0x2001000 4072 0 0x2000000 0x2000000 Paging.demo_paging.
Definition demo_blocks1 : list block := [Blk 0x2000000 4072 (Some (0x2000020, 100))].

Lemma demo_heap1_wf : wf demo_heap1 demo_blocks1.
Proof.
  split_and!; [|split; [discriminate|exact I]|reflexivity].
  split; [apply Paging.demo_paging_wf|cbn; lia|cbn; lia|reflexivity|reflexivity| | |reflexivity].
  - cbn. unfold b_end, HDR. cbn. lia.
  - split; [|exact I]. split; [vm_compute; reflexivity..|].
    intros u k [= <- <-]. split_and!; vm_compute; (reflexivity || discriminate).
Qed.

Lemma demo_live1 : (0x2000020, 100) ∈ live demo_blocks1.
Proof. by left. Qed.

Lemma Alloc_spec_witness :
  exists r h' l', Alloc 100 16 demo_heap = Some (r, h') /\ wf h' l'.
Proof.
  destruct (Alloc_spec demo_heap demo_blocks 100 16 demo_heap_wf) as (r & h' & l' & E & Hwf & _); [lia|lia|cbn; lia|].
  exists r, h', l'. split; [exact E|exact Hwf].
Defined.

Lemma Free_spec_witness : exists h' l', Free 0x2000020 demo_heap1 = Some (tt, h') /\ wf h' l'.
Proof.
  destruct (Free_spec demo_heap1 demo_blocks1 0x2000020 100 demo_heap1_wf demo_live1) as (h' & l' & E & Hwf & _).
  exists h', l'. split; [exact E|exact Hwf].
Defined.

Lemma Free_twice_witness : exists h', Free 0x2000020 demo_heap1 = Some (tt, h') /\ Free 0x2000020 h' = Some (tt, h').
Proof. exact (Free_twice demo_heap1 demo_blocks1 0x2000020 100 demo_heap1_wf demo_live1). Defined.

Lemma Init_spec_witness : exists h' l, Init 0x2000000 4 demo_heap = Some (tt, h') /\ wf h' l.
Proof.
  destruct (Init_spec demo_heap 0x2000000 4) as (h' & l & E & Hwf & _);
    [apply Paging.demo_paging_wf|reflexivity|lia|lia|lia|].
  exists h', l. split; [exact E|exact Hwf].
Defined.

(** Two regions, a byte in each, the first freed and its place handed out again. *)
Definition demo_ops : list client_op := [DoAlloc 100 16; DoAlloc 50 8; DoWrite 0x2000030 7; DoWrite 0x20000B0 9; DoFree 0x2000020; DoAlloc 40 8; DoWrite 0x2000021 5].
Definition demo_init : heap Paging.paging := default demo_heap (snd <$> Init 0x2000000 4 demo_heap).
Lemma heap_sessions_witness : exists c, session demo_ops (mk_client demo_init [] ∅) = Some c /\ c_written c !! 0x20000B0 = Some 9 /\ read8 (h_mem (c_heap c)) 0x20000B0 = 9.
Proof.
  destruct (heap_sessions demo_heap 0x2000000 4) as (h0 & E & Hs); [apply Paging.demo_paging_wf|reflexivity|lia|lia|lia|].
  assert (Eh : h0 = demo_init) by (unfold demo_init; by rewrite E). cbn zeta in Hs. rewrite Eh in Hs.
  destruct (Hs demo_ops) as (c & Ec & _ & _ & Hw).
  - vm_compute. repeat match goal with |- _ /\ _ => split end; first [reflexivity | discriminate | exact I].
  - exists c. split; [exact Ec|]. assert (Hc : c_written c !! 0x20000B0 = Some 9) by (apply (f_equal (fun r => r ≫= fun c => c_written c !! 0x20000B0)) in Ec; vm_compute in Ec; cbn in Ec; symmetry; exact Ec). split; [exact Hc|]. by apply Hw.
Defined.

Lemma Alloc_size_wraps_witness : exists h', Alloc (2 ^ 32 - 8) 8 demo_heap = Some (0x2000020, h').
Proof.
  apply (Alloc_size_wraps demo_heap (Blk 0x2000000 4072 None) []);
    [exact demo_heap_wf|reflexivity|reflexivity|cbn; lia].
Defined.
