(* ===== verification/Thread.v ===== *)
(** Threads: [src/kernel/src/process/thread.cpp] and
    [src/kernel/include/process/thread.h].

    Thread objects are allocated by [operator new] on the kernel heap
    ([src/kernel/src/lib/newdelete_kernel.cpp]) and are kept here as records
    in a store indexed by their address; [operator delete] does nothing, so an
    object stays in the store after [delete].  Stacks are regions of the heap
    of [Heap.v] and their bytes are its memory. *)
From S2P Require Import Prelude Memory Heap.

Inductive TaskState :=
  | TASK_READY | TASK_RUNNING | TASK_BLOCKED | TASK_SLEEPING | TASK_SUSPENDED | TASK_TERMINATED.
#[export] Instance TaskState_eq_dec : EqDecision TaskState.
Proof. solve_decision. Defined.

(** [ThreadPriority]: an [enum], hence any integer after a cast. *)
Definition PRIORITY_CRITICAL : Z := 0.
Definition PRIORITY_HIGH : Z := 1.
Definition PRIORITY_NORMAL : Z := 2.
Definition PRIORITY_LOW : Z := 3.
Definition PRIORITY_IDLE : Z := 4.

Record CPUContext := mk_ctx {
  edi : Z; esi : Z; ebp : Z; esp_dump : Z; ebx : Z; edx : Z; ecx : Z; eax : Z;
  ds : Z; es : Z; fs : Z; gs : Z;
  eip : Z; cs : Z; eflags : Z; esp : Z; ss : Z;
}.
Definition ctx_zero : CPUContext := mk_ctx 0 0 0 0 0 0 0 0 0 0 0 0 0 0 0 0 0.

Record Thread := mk_thread {
  task_id : Z;
  state : TaskState;
  priority : Z;
  context : CPUContext;
  stack_base : Z;
  stack_size : Z;
  time_slice : Z;
  sleep_until : Z;
  total_runtime : Z;
  name : string;
  next : Z;
}.

Definition set_state (v : TaskState) (t : Thread) : Thread :=
  mk_thread (task_id t) v (priority t) (context t) (stack_base t) (stack_size t) (time_slice t)
    (sleep_until t) (total_runtime t) (name t) (next t).
Definition set_priority (v : Z) (t : Thread) : Thread :=
  mk_thread (task_id t) (state t) v (context t) (stack_base t) (stack_size t) (time_slice t)
    (sleep_until t) (total_runtime t) (name t) (next t).
Definition set_context (v : CPUContext) (t : Thread) : Thread :=
  mk_thread (task_id t) (state t) (priority t) v (stack_base t) (stack_size t) (time_slice t)
    (sleep_until t) (total_runtime t) (name t) (next t).
Definition set_stack (b sz : Z) (t : Thread) : Thread :=
  mk_thread (task_id t) (state t) (priority t) (context t) b sz (time_slice t)
    (sleep_until t) (total_runtime t) (name t) (next t).
Definition set_slice (v : Z) (t : Thread) : Thread :=
  mk_thread (task_id t) (state t) (priority t) (context t) (stack_base t) (stack_size t) v
    (sleep_until t) (total_runtime t) (name t) (next t).
Definition set_sleep (v : Z) (t : Thread) : Thread :=
  mk_thread (task_id t) (state t) (priority t) (context t) (stack_base t) (stack_size t) (time_slice t)
    v (total_runtime t) (name t) (next t).
Definition set_runtime (v : Z) (t : Thread) : Thread :=
  mk_thread (task_id t) (state t) (priority t) (context t) (stack_base t) (stack_size t) (time_slice t)
    (sleep_until t) v (name t) (next t).
Definition set_next (v : Z) (t : Thread) : Thread :=
  mk_thread (task_id t) (state t) (priority t) (context t) (stack_base t) (stack_size t) (time_slice t)
    (sleep_until t) (total_runtime t) (name t) v.

(** [Thread::Thread()]. *)
Definition Thread_new : Thread :=
  mk_thread 0 TASK_READY PRIORITY_NORMAL ctx_zero 0 0 0 0 0 "unnamed" 0.

(** [ThreadFactory::CalculateTimeSlice]. *)
Definition CalculateTimeSlice (prio : Z) : Z :=
  if prio =? PRIORITY_CRITICAL then 20
  else if prio =? PRIORITY_HIGH then 15
  else if prio =? PRIORITY_NORMAL then 10
  else if prio =? PRIORITY_LOW then 5
  else if prio =? PRIORITY_IDLE then 3
  else 10.

Definition StateToString (st : TaskState) : string :=
  match st with
  | TASK_READY => "READY" | TASK_RUNNING => "RUNNING" | TASK_BLOCKED => "BLOCKED"
  | TASK_SLEEPING => "SLEEPING" | TASK_SUSPENDED => "SUSPENDED" | TASK_TERMINATED => "TERMINATED"
  end.
Definition PriorityToString (prio : Z) : string :=
  if prio =? PRIORITY_CRITICAL then "CRITICAL"
  else if prio =? PRIORITY_HIGH then "HIGH"
  else if prio =? PRIORITY_NORMAL then "NORMAL"
  else if prio =? PRIORITY_LOW then "LOW"
  else if prio =? PRIORITY_IDLE then "IDLE"
  else "UNKNOWN".
Definition IsValidPriority (prio : Z) : bool := (PRIORITY_CRITICAL <=? prio) && (prio <=? PRIORITY_IDLE).

Definition MillisecondsToTicks (milliseconds timer_frequency : Z) : Z :=
  let f := if timer_frequency =? 0 then 100 else timer_frequency in
  let ticks := u32 (milliseconds * f) / 1000 in
  if 0 <? ticks then ticks else 1.
Definition TicksToMilliseconds (ticks timer_frequency : Z) : Z :=
  let f := if timer_frequency =? 0 then 100 else timer_frequency in
  u32 (ticks * 1000) / f.

(** [Thread::ShouldWakeUp]. *)
Definition ShouldWakeUp (t : Thread) (current_tick : Z) : bool :=
  bool_decide (state t = TASK_SLEEPING) && (sleep_until t <=? current_tick).

(** The context [SetupInitialStack] builds. *)
Definition initial_context (base size entry_point : Z) : CPUContext :=
  mk_ctx 0 0 0 0 0 0 0 0 0x10 0x10 0x10 0x10 (u32 entry_point) 0x08 0x202 (u32 (base + size - 4)) 0x10.

(** The interrupt frame of a preempted thread, from [esp] upwards:
    [Scheduler::SaveContextFromInterrupt]. *)
Definition SaveContextFromInterrupt (m : mem) (sp : Z) : CPUContext :=
  let stack i := read32 m (sp + 4 * i) in
  mk_ctx (stack 4) (stack 5) (stack 6) (stack 7) (stack 8) (stack 9) (stack 10) (stack 11)
    (stack 3) (stack 2) (stack 1) (stack 0) (stack 12) (stack 13) (stack 14) (u32 (sp + 15 * 4)) 0x10.

(** [Scheduler::RestoreContextToInterrupt]: the memory with the frame of the
    thread written, and its address. *)
Definition RestoreContextToInterrupt (c : CPUContext) (m : mem) : Z * mem :=
  let new_esp := u32 (esp c - 15 * 4) in
  let put (i v : Z) (m : mem) := write32 m (new_esp + 4 * i) v in
  (new_esp,
   put 14 (eflags c) (put 13 (cs c) (put 12 (eip c)
   (put 11 (eax c) (put 10 (ecx c) (put 9 (edx c) (put 8 (ebx c) (put 7 (esp_dump c) (put 6 (ebp c)
   (put 5 (esi c) (put 4 (edi c) (put 3 (ds c) (put 2 (es c) (put 1 (fs c) (put 0 (gs c) m))))))))))))))).

Definition SIZEOF_THREAD : Z := 108.

(** * Objects and stacks *)

Record kst (S : Type) := mk_kst { k_threads : gmap Z Thread; k_heap : heap S }.
Arguments mk_kst {S}.
Arguments k_threads {S}.
Arguments k_heap {S}.

Section Objects.
Context {S : Type} `{PageSupply S}.

Definition set_threads (m : gmap Z Thread) (k : kst S) : kst S := mk_kst m (k_heap k).
Definition set_heap (h : heap S) (k : kst S) : kst S := mk_kst (k_threads k) h.
Definition on_heap {A} (c : ST (heap S) A) : ST (kst S) A := zoom k_heap set_heap c.

(** [p->...]: defined only on the address of a thread object. *)
Definition thread_at (p : Z) : ST (kst S) Thread :=
  fun k => match k_threads k !! p with Some t => Some (t, k) | None => None end.
Definition update_thread (p : Z) (f : Thread -> Thread) : ST (kst S) unit :=
  fun k => match k_threads k !! p with
           | Some t => Some (tt, set_threads (<[p := f t]> (k_threads k)) k)
           | None => None
           end.

Definition FreeStack (p : Z) : ST (kst S) unit :=
  let! t := thread_at p in
  if stack_base t =? 0 then ret tt
  else on_heap (Free (stack_base t));;; update_thread p (set_stack 0 0).

Definition AllocateStack (p size : Z) : ST (kst S) bool :=
  let! t := thread_at p in
  (if stack_base t =? 0 then ret tt else FreeStack p);;;
  let! b := on_heap (Alloc size 8) in
  if b =? 0 then update_thread p (set_stack 0 0);;; ret false
  else
    update_thread p (set_stack b size);;;
    modify (fun k => set_heap (set_mem (memset (h_mem (k_heap k)) b 0 (Z.to_nat size)) (k_heap k)) k);;;
    ret true.

Definition SetupInitialStack (p entry_point : Z) : ST (kst S) unit :=
  let! t := thread_at p in
  if stack_base t =? 0 then ret tt
  else update_thread p (set_context (initial_context (stack_base t) (stack_size t) entry_point)).

Definition Initialize (p id entry_point stack_sz prio : Z) (thread_name : string) : ST (kst S) bool :=
  update_thread p (fun t =>
    mk_thread id TASK_READY prio (context t) (stack_base t) stack_sz (CalculateTimeSlice prio)
      (sleep_until t) (total_runtime t) thread_name (next t));;;
  let! ok := AllocateStack p stack_sz in
  if negb ok then ret false else SetupInitialStack p entry_point;;; ret true.

Definition Cleanup (p : Z) : ST (kst S) unit := FreeStack p;;; update_thread p (set_state TASK_TERMINATED).

(** [delete thread]: the destructor runs, the storage is not released. *)
Definition delete_thread (p : Z) : ST (kst S) unit := Cleanup p.

(** [ThreadFactory::CreateThread]: the new thread, 0 for [nullptr]. *)
Definition CreateThread (id entry_point stack_sz prio : Z) (thread_name : string) : ST (kst S) Z :=
  let! p := on_heap (Alloc SIZEOF_THREAD 8) in
  if p =? 0 then ret 0
  else
    modify (fun k => set_threads (<[p := Thread_new]> (k_threads k)) k);;;
    let! ok := Initialize p id entry_point stack_sz prio thread_name in
    if negb ok then delete_thread p;;; ret 0 else ret p.

Definition DestroyThread (p : Z) : ST (kst S) unit :=
  if p =? 0 then ret tt else Cleanup p;;; delete_thread p.
End Objects.

(** * Context switches *)

Definition u32_ok (v : Z) : Prop := 0 <= v < 2 ^ 32.

Record ctx_ok (c : CPUContext) : Prop := {
  ok_gp : Forall u32_ok [edi c; esi c; ebp c; esp_dump c; ebx c; edx c; ecx c; eax c];
  ok_seg : Forall u32_ok [ds c; es c; fs c; gs c];
  ok_cpu : Forall u32_ok [eip c; cs c; eflags c];
}.

(** Preempting a thread right where it was resumed saves the context it was
    resumed with: [SaveContextFromInterrupt] inverts
    [RestoreContextToInterrupt] for every kernel context, and the restore
    writes only the 60 bytes of the frame. *)
Theorem context_roundtrip c m :
  ctx_ok c -> ss c = 0x10 -> 60 <= esp c < 2 ^ 32 ->
  let '(sp, m') := RestoreContextToInterrupt c m in
  SaveContextFromInterrupt m' sp = c /\ sp = esp c - 60 /\
  forall a, a < esp c - 60 \/ esp c <= a -> read8 m' a = read8 m a.
Proof.
  intros [Hgp Hseg Hcpu] Hss Hesp. unfold RestoreContextToInterrupt, SaveContextFromInterrupt.
  rewrite (u32_small (esp c - 15 * 4)) by lia. set (sp := esp c - 15 * 4). assert (Hsp : sp = esp c - 60) by (unfold sp; lia).
  clearbody sp. repeat rewrite Forall_cons in Hgp. repeat rewrite Forall_cons in Hseg. repeat rewrite Forall_cons in Hcpu. unfold u32_ok in *. cbv zeta. split_and!.
  - rd. rewrite !u32_small by lia. destruct c. cbn in *. subst. f_equal. lia.
  - done.
  - intros a Ha. rewrite !read8_write32_ne by lia. done.
Qed.

Definition demo_ctx : CPUContext := initial_context 0x300000 4096 0x101000.
Lemma context_roundtrip_witness :
  let '(sp, m') := RestoreContextToInterrupt demo_ctx ∅ in SaveContextFromInterrupt m' sp = demo_ctx.
Proof.
  assert (Hc : ctx_ok demo_ctx).
  { split; repeat (apply Forall_cons; split); try apply Forall_nil; try exact I;
      (split; [vm_compute; discriminate|vm_compute; reflexivity]). }
  pose proof (context_roundtrip demo_ctx ∅ Hc eq_refl ltac:(vm_compute; split; [discriminate|reflexivity])) as Hr.
  destruct (RestoreContextToInterrupt demo_ctx ∅) as [sp m']. exact (proj1 Hr).
Defined.

(** * Creating threads *)

Section Create.
Context {S : Type} `{PageSupply S}.
Implicit Types (k : kst S) (l : list block).

Lemma on_heap_step {A B} (c : ST (heap S) A) (f : A -> ST (kst S) B) k a h :
  c (k_heap k) = Some (a, h) -> bind (on_heap c) f k = f a (set_heap h k).
Proof. intros E. apply bind_step. unfold on_heap, zoom. by rewrite E. Qed.

Lemma thread_at_step {B} p (f : Thread -> ST (kst S) B) k t :
  k_threads k !! p = Some t -> bind (thread_at p) f k = f t k.
Proof. intros E. apply bind_step. unfold thread_at. by rewrite E. Qed.

Lemma update_thread_step {B} p g (f : unit -> ST (kst S) B) k t :
  k_threads k !! p = Some t ->
  bind (update_thread p g) f k = f tt (set_threads (<[p := g t]> (k_threads k)) k).
Proof. intros E. apply bind_step. unfold update_thread. by rewrite E. Qed.

(** The thread a successful [CreateThread] builds on the stack [b]. *)
Definition created (id entry_point stack_sz prio : Z) (nm : string) (b : Z) : Thread :=
  mk_thread id TASK_READY prio (initial_context b stack_sz entry_point) b stack_sz
    (CalculateTimeSlice prio) 0 0 nm 0.

Lemma Initialize_ok k l p id ep sz prio nm :
  wf (k_heap k) l -> k_threads k !! p = Some Thread_new -> 0 < sz ->
  g_heapEnd (k_heap k) + 2 * (sz + 16) + 4200 <= 2 ^ 32 ->
  exists ok k' l', Initialize p id ep sz prio nm k = Some (ok, k') /\ wf (k_heap k') l' /\
    if ok : bool then exists b, live l' ≡ₚ (b, sz) :: live l /\
           k_threads k' = <[p := created id ep sz prio nm b]> (k_threads k) /\ b <> 0
    else live l' = live l /\ exhausted (h_supply (k_heap k')) /\ exists t, stack_base t = 0 /\
           k_threads k' = <[p := t]> (k_threads k).
Proof.
  intros Hwf Hp Hsz Hend. unfold Initialize. rewrite (update_thread_step _ _ _ _ _ Hp).
  set (t0 := mk_thread _ _ _ _ _ _ _ _ _ _ _). set (k0 := set_threads _ _).
  assert (Hp0 : k_threads k0 !! p = Some t0) by apply lookup_insert_eq.
  destruct (Alloc_ok (k_heap k0) l sz 8 Hwf Hsz) as (b & h' & l' & E & Hwf' & _ & _ & Hb); [lia|cbn; lia|].
  unfold AllocateStack. rewrite bind_assoc, (thread_at_step _ _ _ _ Hp0). cbn [t0 stack_base Thread_new Z.eqb].
  rewrite bind_assoc. erewrite bind_step by reflexivity. rewrite bind_assoc, (on_heap_step _ _ _ _ _ E).
  assert (Hp1 : k_threads (set_heap h' k0) !! p = Some t0) by done.
  destruct Hb as [(-> & Hlv & Hex)|(j & _ & _ & Hlv)].
  - cbn [Z.eqb]. rewrite bind_assoc, (update_thread_step _ _ _ _ _ Hp1). eexists false, _, l'.
    split; [done|]. split; [done|]. split; [done|]. split; [done|]. eexists. split; [|cbn; by rewrite insert_insert_eq].
    done.
  - assert (Hin : (b, sz) ∈ live l') by (rewrite Hlv; by left).
    assert (Hbnz : b <> 0).
    { destruct (core_regions _ _ (proj1 Hwf')) as [_ Hr]. specialize (Hr b sz Hin).
      pose proof (wf_base _ _ (proj1 Hwf')). lia. }
    destruct (Z.eqb_spec b 0); [done|]. rewrite bind_assoc, (update_thread_step _ _ _ _ _ Hp1).
    rewrite bind_assoc. erewrite bind_step by reflexivity. erewrite bind_step by reflexivity. cbn [negb].
    unfold SetupInitialStack. rewrite bind_assoc.
    erewrite thread_at_step by apply lookup_insert_eq. cbn [set_stack stack_base stack_size].
    destruct (Z.eqb_spec b 0); [done|]. erewrite update_thread_step by apply lookup_insert_eq.
    eexists true, _, l'. split; [done|]. split.
    + cbn [set_threads set_heap k_heap]. apply (memset_wf h' l' b sz 0 Hwf' Hin).
    + exists b. split; [done|]. split; [|done]. cbn. by rewrite !insert_insert_eq.
Qed.

(** [CreateThread] returns; it yields 0 only when memory is exhausted, and
    otherwise a fresh thread object with a fresh zeroed stack of the size
    asked for, its context set to start at the entry point with the stack
    pointer in the last word of the stack; other threads are untouched and
    the heap invariant is kept. *)
Lemma CreateThread_ok k l id ep sz prio nm :
  wf (k_heap k) l -> 4 <= sz -> g_heapEnd (k_heap k) + 2 * (sz + SIZEOF_THREAD) + 9000 <= 2 ^ 32 ->
  exists p k' l', CreateThread id ep sz prio nm k = Some (p, k') /\ wf (k_heap k') l' /\
    ((p = 0 /\ exhausted (h_supply (k_heap k'))) \/
     exists b, live l' ≡ₚ (b, sz) :: (p, SIZEOF_THREAD) :: live l /\ p <> 0 /\
       k_threads k' = <[p := created id ep sz prio nm b]> (k_threads k) /\
       b <= esp (initial_context b sz ep) <= b + sz - 4).
Proof.
  intros Hwf Hsz Hend. unfold CreateThread, SIZEOF_THREAD in *.
  destruct (Alloc_ok (k_heap k) l 108 8 Hwf) as (p & h' & l1 & E & Hwf1 & _ & He1 & Hp); [lia|lia|lia|].
  rewrite (on_heap_step _ _ _ _ _ E).
  destruct Hp as [(-> & Hlv & Hex)|(j & _ & _ & Hlv)]; [eexists 0, _, l1; split_and!; [done|done|by left]|].
  assert (Hpnz : p <> 0).
  { destruct (core_regions _ _ (proj1 Hwf1)) as [_ Hr]. specialize (Hr p 108 ltac:(rewrite Hlv; by left)).
    pose proof (wf_base _ _ (proj1 Hwf1)). lia. }
  destruct (Z.eqb_spec p 0); [done|]. erewrite bind_step by reflexivity. set (k1 := set_threads _ _).
  destruct (Initialize_ok k1 l1 p id ep sz prio nm) as (ok & k2 & l2 & E2 & Hwf2 & Hok);
    [done|apply lookup_insert_eq|lia|cbn; lia|].
  rewrite (bind_step _ _ _ _ _ E2). destruct ok; cbn [negb].
  - destruct Hok as (b & Hlv2 & Ht & Hb). eexists p, k2, l2. split_and!; [done|done|]. right. exists b. split; [|split; [|split]].
    + by rewrite Hlv2, Hlv.
    + done.
    + rewrite Ht. cbn. by rewrite insert_insert_eq.
    + destruct (core_regions _ _ (proj1 Hwf2)) as [_ Hr]. specialize (Hr b sz ltac:(rewrite Hlv2; by left)).
      pose proof (wf_base _ _ (proj1 Hwf2)). pose proof (wf_end _ _ (proj1 Hwf2)).
      cbn [esp initial_context]. rewrite u32_small by lia. lia.
  - destruct Hok as (_ & Hex & t & Ht0 & Ht). unfold delete_thread, Cleanup, FreeStack.
    assert (Hl : k_threads k2 !! p = Some t) by (rewrite Ht; apply lookup_insert_eq).
    rewrite !bind_assoc, (thread_at_step _ _ _ _ Hl), Ht0. cbn [Z.eqb]. erewrite bind_step by reflexivity.
    rewrite (update_thread_step _ _ _ _ _ Hl). eexists 0, _, l2. split_and!; [done|done|by left].
Qed.
End Create.
