(* ===== verification/Scheduler.v ===== *)
(** The scheduler: [src/kernel/src/process/scheduler.cpp].

    Ready queues and the list of sleeping threads are linked through the
    [next] field of the thread objects; a traversal that does not reach a
    null pointer within as many steps as there are objects never ends. *)
From stdpp Require Import functions.
From S2P Require Import Prelude Memory Heap Thread.

Record sched (S : Type) := mk_sched {
  sc_k : kst S;
  current_task : Z;
  ready_queues : gmap Z Z;
  ready_queue_tails : gmap Z Z;
  sleeping_tasks : Z;
  next_task_id : Z;
  current_tick : Z;
  scheduling_enabled : bool;
}.
Arguments mk_sched {S}.
Arguments sc_k {S}.
Arguments current_task {S}.
Arguments ready_queues {S}.
Arguments ready_queue_tails {S}.
Arguments sleeping_tasks {S}.
Arguments next_task_id {S}.
Arguments current_tick {S}.
Arguments scheduling_enabled {S}.

Section Model.
Context {S : Type} `{PageSupply S}.

(** [Scheduler::Scheduler()]. *)
Definition Scheduler_new (k : kst S) : sched S := mk_sched k 0 ∅ ∅ 0 1 0 false.

Definition set_k (k : kst S) (s : sched S) : sched S :=
  mk_sched k (current_task s) (ready_queues s) (ready_queue_tails s) (sleeping_tasks s)
    (next_task_id s) (current_tick s) (scheduling_enabled s).
Definition set_current (p : Z) (s : sched S) : sched S :=
  mk_sched (sc_k s) p (ready_queues s) (ready_queue_tails s) (sleeping_tasks s)
    (next_task_id s) (current_tick s) (scheduling_enabled s).
Definition set_queue (i p : Z) (s : sched S) : sched S :=
  mk_sched (sc_k s) (current_task s) (<[i := p]> (ready_queues s)) (ready_queue_tails s)
    (sleeping_tasks s) (next_task_id s) (current_tick s) (scheduling_enabled s).
Definition set_tail (i p : Z) (s : sched S) : sched S :=
  mk_sched (sc_k s) (current_task s) (ready_queues s) (<[i := p]> (ready_queue_tails s))
    (sleeping_tasks s) (next_task_id s) (current_tick s) (scheduling_enabled s).
Definition set_sleeping (p : Z) (s : sched S) : sched S :=
  mk_sched (sc_k s) (current_task s) (ready_queues s) (ready_queue_tails s) p
    (next_task_id s) (current_tick s) (scheduling_enabled s).
Definition set_next_id (v : Z) (s : sched S) : sched S :=
  mk_sched (sc_k s) (current_task s) (ready_queues s) (ready_queue_tails s) (sleeping_tasks s)
    v (current_tick s) (scheduling_enabled s).
Definition set_tick (v : Z) (s : sched S) : sched S :=
  mk_sched (sc_k s) (current_task s) (ready_queues s) (ready_queue_tails s) (sleeping_tasks s)
    (next_task_id s) v (scheduling_enabled s).
Definition set_enabled (b : bool) (s : sched S) : sched S :=
  mk_sched (sc_k s) (current_task s) (ready_queues s) (ready_queue_tails s) (sleeping_tasks s)
    (next_task_id s) (current_tick s) b.

Definition on_k {A} (c : ST (kst S) A) : ST (sched S) A := zoom sc_k set_k c.
Definition get (p : Z) : ST (sched S) Thread := on_k (thread_at p).
Definition upd (p : Z) (f : Thread -> Thread) : ST (sched S) unit := on_k (update_thread p f).

Definition queue (s : sched S) (i : Z) : Z := default 0 (ready_queues s !! i).
Definition tail (s : sched S) (i : Z) : Z := default 0 (ready_queue_tails s !! i).

Definition queue_of (prio : Z) : Z :=
  if (prio <? 0) || (5 <=? prio) then PRIORITY_NORMAL else prio.

Definition AddToReadyQueue (task : Z) : ST (sched S) unit :=
  if task =? 0 then ret tt
  else
    upd task (set_state TASK_READY);;;
    upd task (set_next 0);;;
    let! t := get task in
    let i := queue_of (priority t) in
    let! q := gets (fun s => queue s i) in
    if q =? 0 then modify (fun s => set_queue i task (set_tail i task s))
    else
      let! tl := gets (fun s => tail s i) in
      upd tl (set_next task);;;
      modify (set_tail i task).

(** The loop of [GetHighestPriorityTask] over the priorities from [i], [n] of them. *)
Fixpoint highest_from (n : nat) (i : Z) : ST (sched S) Z :=
  match n with
  | O => ret 0
  | Datatypes.S n' =>
      let! q := gets (fun s => queue s i) in
      if q =? 0 then highest_from n' (i + 1)
      else
        let! t := get q in
        modify (set_queue i (next t));;;
        (if next t =? 0 then modify (set_tail i 0) else ret tt);;;
        upd q (set_next 0);;;
        ret q
  end.
Definition GetHighestPriorityTask : ST (sched S) Z := highest_from 5 0.
Definition RemoveFromReadyQueue : ST (sched S) Z := GetHighestPriorityTask.

(** [*current], where [current] points to [sleeping_tasks] or to the [next]
    field of the thread [p]. *)
Definition load_link (link : option Z) : ST (sched S) Z :=
  match link with
  | None => gets sleeping_tasks
  | Some p => let! t := get p in ret (next t)
  end.
Definition store_link (link : option Z) (v : Z) : ST (sched S) unit :=
  match link with
  | None => modify (set_sleeping v)
  | Some p => upd p (set_next v)
  end.

Fixpoint process_loop (fuel : nat) (link : option Z) : ST (sched S) unit :=
  let! task := load_link link in
  if task =? 0 then ret tt
  else match fuel with
  | O => stuck
  | Datatypes.S fuel' =>
      let! t := get task in
      let! tick := gets current_tick in
      if sleep_until t <=? tick then
        store_link link (next t);;;
        AddToReadyQueue task;;;
        process_loop fuel' link
      else process_loop fuel' (Some task)
  end.

Definition objects (s : sched S) : nat := size (k_threads (sc_k s)).

Definition ProcessSleepingTasks : ST (sched S) unit :=
  let! fuel := gets objects in process_loop fuel None.

(** The [switch] on the priority: no case for a value outside the [enum]. *)
Definition set_time_slice (p : Z) : ST (sched S) unit :=
  let! t := get p in
  if IsValidPriority (priority t) then upd p (set_slice (CalculateTimeSlice (priority t))) else ret tt.

Definition current_in_state (st : TaskState) : ST (sched S) bool :=
  let! c := gets current_task in
  if c =? 0 then ret false
  else let! t := get c in ret (bool_decide (state t = st)).

Definition Schedule : ST (sched S) unit :=
  let! enabled := gets scheduling_enabled in
  if negb enabled then ret tt
  else
    ProcessSleepingTasks;;;
    let! c := gets current_task in
    let! running := current_in_state TASK_RUNNING in
    (if running : bool then upd c (set_state TASK_READY);;; AddToReadyQueue c else ret tt);;;
    let! next_task := GetHighestPriorityTask in
    if next_task =? 0 then
      let! rdy := current_in_state TASK_READY in
      if rdy : bool then upd c (set_state TASK_RUNNING) else modify (set_current 0)
    else
      modify (set_current next_task);;;
      upd next_task (set_state TASK_RUNNING);;;
      set_time_slice next_task.

Definition Yield : ST (sched S) unit :=
  let! enabled := gets scheduling_enabled in
  let! c := gets current_task in
  if negb enabled || (c =? 0) then ret tt
  else upd c (set_slice 0);;; Schedule.

Definition TerminateCurrentTask : ST (sched S) unit :=
  let! c := gets current_task in
  if c =? 0 then ret tt
  else
    upd c (set_state TASK_TERMINATED);;;
    modify (set_current 0);;;
    Schedule;;;
    on_k (DestroyThread c).

Definition BlockCurrentTask : ST (sched S) unit :=
  let! c := gets current_task in
  if c =? 0 then ret tt else upd c (set_state TASK_BLOCKED);;; Schedule.

(** Search of a list for a task id: the task, or 0. *)
Fixpoint find_in (fuel : nat) (p id : Z) : ST (sched S) Z :=
  if p =? 0 then ret 0
  else match fuel with
  | O => stuck
  | Datatypes.S fuel' =>
      let! t := get p in
      if task_id t =? id then ret p else find_in fuel' (next t) id
  end.

Fixpoint find_queues (n : nat) (i id : Z) : ST (sched S) Z :=
  match n with
  | O => ret 0
  | Datatypes.S n' =>
      let! fuel := gets objects in
      let! q := gets (fun s => queue s i) in
      let! r := find_in fuel q id in
      if r =? 0 then find_queues n' (i + 1) id else ret r
  end.

Definition FindTask (id : Z) : ST (sched S) Z :=
  let! c := gets current_task in
  let! is_cur := (if c =? 0 then ret false else let! t := get c in ret (task_id t =? id)) in
  if is_cur : bool then ret c
  else
    let! r := find_queues 5 0 id in
    if negb (r =? 0) then ret r
    else
      let! fuel := gets objects in
      let! sl := gets sleeping_tasks in
      find_in fuel sl id.

Definition UnblockTask (id : Z) : ST (sched S) unit :=
  let! task := FindTask id in
  if task =? 0 then ret tt
  else
    let! t := get task in
    if bool_decide (state t = TASK_BLOCKED) then
      upd task (set_state TASK_READY);;; AddToReadyQueue task
    else ret tt.

Definition heap_mem (s : sched S) : mem := h_mem (k_heap (sc_k s)).

(** [OnTimerTick]: the stack pointer the interrupt returns with. *)
Definition OnTimerTick (sp : Z) : ST (sched S) Z :=
  let! enabled := gets scheduling_enabled in
  if negb enabled then ret sp
  else
    modify (fun s => set_tick (u32 (current_tick s + 1)) s);;;
    let! c := gets current_task in
    if c =? 0 then ret sp
    else
      upd c (fun t => set_runtime (u32 (total_runtime t + 1)) t);;;
      upd c (fun t => if 0 <? time_slice t then set_slice (time_slice t - 1) t else t);;;
      let! t := get c in
      let! other := (if time_slice t =? 0 then GetHighestPriorityTask else ret 0) in
      if other =? 0 then ret sp
      else
        let! m := gets heap_mem in
        upd c (set_context (SaveContextFromInterrupt m sp));;;
        upd c (set_state TASK_READY);;;
        AddToReadyQueue c;;;
        let! next_task := GetHighestPriorityTask in
        if next_task =? 0 then ret sp
        else
          modify (set_current next_task);;;
          upd next_task (set_state TASK_RUNNING);;;
          set_time_slice next_task;;;
          let! t := get next_task in
          let! m := gets heap_mem in
          let '(new_esp, m') := RestoreContextToInterrupt (context t) m in
          modify (fun s => set_k (set_heap (set_mem m' (k_heap (sc_k s))) (sc_k s)) s);;;
          ret new_esp.

Definition EnablePreemption : ST (sched S) unit := modify (set_enabled true).
Definition DisablePreemption : ST (sched S) unit := modify (set_enabled false).

Definition CreateTask (entry_point stack_sz prio : Z) (nm : string) : ST (sched S) Z :=
  let! id := gets next_task_id in
  modify (set_next_id (u32 (id + 1)));;;
  let! p := on_k (CreateThread id entry_point stack_sz prio nm) in
  if p =? 0 then ret 0 else AddToReadyQueue p;;; ret p.

(** Length of a list, as [GetTaskCount] counts it. *)
Fixpoint count_list (fuel : nat) (p : Z) : ST (sched S) Z :=
  if p =? 0 then ret 0
  else match fuel with
  | O => stuck
  | Datatypes.S fuel' =>
      let! t := get p in
      let! n := count_list fuel' (next t) in
      ret (u32 (n + 1))
  end.
Fixpoint count_queues (n : nat) (i : Z) : ST (sched S) Z :=
  match n with
  | O => ret 0
  | Datatypes.S n' =>
      let! fuel := gets objects in
      let! q := gets (fun s => queue s i) in
      let! a := count_list fuel q in
      let! b := count_queues n' (i + 1) in
      ret (u32 (a + b))
  end.
Definition GetTaskCount : ST (sched S) Z :=
  let! a := count_queues 5 0 in
  let! fuel := gets objects in
  let! sl := gets sleeping_tasks in
  let! b := count_list fuel sl in
  let! c := gets current_task in
  ret (u32 (a + b + if c =? 0 then 0 else 1)).

Definition GetTaskCountByState (st : TaskState) : ST (sched S) Z :=
  let! cur := current_in_state st in
  let! a := (if bool_decide (st = TASK_READY) then count_queues 5 0 else ret 0) in
  let! fuel := gets objects in
  let! sl := gets sleeping_tasks in
  let! b := (if bool_decide (st = TASK_SLEEPING) then count_list fuel sl else ret 0) in
  ret (u32 ((if cur : bool then 1 else 0) + a + b)).

(** The guard shared by the thread control calls: the task named, with a
    state other than [TASK_TERMINATED], or 0. *)
Definition find_alive (id : Z) : ST (sched S) Z :=
  let! task := FindTask id in
  if task =? 0 then ret 0
  else let! t := get task in ret (if bool_decide (state t = TASK_TERMINATED) then 0 else task).

Definition SuspendTask (id : Z) : ST (sched S) bool :=
  let! task := find_alive id in
  if task =? 0 then ret false
  else
    upd task (set_state TASK_SUSPENDED);;;
    let! c := gets current_task in
    (if task =? c then Schedule else ret tt);;;
    ret true.

Definition ResumeTask (id : Z) : ST (sched S) bool :=
  let! task := FindTask id in
  if task =? 0 then ret false
  else
    let! t := get task in
    if bool_decide (state t = TASK_SUSPENDED) then
      upd task (set_state TASK_READY);;; AddToReadyQueue task;;; ret true
    else ret false.

Definition KillTask (id : Z) : ST (sched S) bool :=
  let! task := find_alive id in
  if task =? 0 then ret false
  else
    upd task (set_state TASK_TERMINATED);;;
    let! c := gets current_task in
    (if task =? c then TerminateCurrentTask
     else
       let! t := get task in
       (if stack_base t =? 0 then ret tt
        else on_k (on_heap (Free (stack_base t)));;; upd task (set_stack 0 (stack_size t)));;;
       on_k (delete_thread task));;;
    ret true.

Definition SleepTask (id milliseconds : Z) : ST (sched S) bool :=
  let! task := find_alive id in
  if task =? 0 then ret false
  else
    let ticks := u32 (milliseconds * 100) / 1000 in
    let ticks := if ticks =? 0 then 1 else ticks in
    upd task (set_state TASK_SLEEPING);;;
    let! tick := gets current_tick in
    upd task (set_sleep (u32 (tick + ticks)));;;
    let! sl := gets sleeping_tasks in
    upd task (set_next sl);;;
    modify (set_sleeping task);;;
    let! c := gets current_task in
    (if task =? c then modify (set_current 0);;; Schedule else ret tt);;;
    ret true.

Definition SetTaskPriority (id prio : Z) : ST (sched S) bool :=
  let! task := find_alive id in
  if task =? 0 then ret false else upd task (set_priority prio);;; ret true.

(** [SchedulerAPI], with a scheduler installed. *)
Definition API_CreateThread (entry_point stack_sz prio : Z) (nm : string) : ST (sched S) Z :=
  let! p := CreateTask entry_point stack_sz prio nm in
  if p =? 0 then ret 0 else let! t := get p in ret (task_id t).
Definition API_SleepThread (milliseconds : Z) : ST (sched S) unit :=
  let! c := gets current_task in
  if c =? 0 then ret tt
  else let! t := get c in let! _b := SleepTask (task_id t) milliseconds in ret tt.
Definition API_GetCurrentThreadId : ST (sched S) Z :=
  let! c := gets current_task in
  if c =? 0 then ret 0 else let! t := get c in ret (task_id t).
End Model.

(** * Abstract scheduler *)

(** A thread without its link. *)
Definition erase (t : Thread) : Thread := set_next 0 t.

(** Five FIFO queues, the sleeping threads in the order of their list, and
    the threads as a map. *)
Record abs := mk_abs {
  a_th : gmap Z Thread;
  a_q : Z -> list Z;
  a_sl : list Z;
  a_cur : Z;
  a_tick : Z;
  a_on : bool;
}.

Definition all_q (q : Z -> list Z) : list Z := q 0 ++ q 1 ++ q 2 ++ q 3 ++ q 4.
Arguments all_q : simpl never.
(** Every thread on some list. *)
Definition tasks (a : abs) : list Z := all_q (a_q a) ++ a_sl a.

Definition a_upd (p : Z) (f : Thread -> Thread) (a : abs) : abs :=
  mk_abs (alter f p (a_th a)) (a_q a) (a_sl a) (a_cur a) (a_tick a) (a_on a).
Definition a_set_q (q : Z -> list Z) (a : abs) : abs :=
  mk_abs (a_th a) q (a_sl a) (a_cur a) (a_tick a) (a_on a).
Definition a_set_sl (l : list Z) (a : abs) : abs :=
  mk_abs (a_th a) (a_q a) l (a_cur a) (a_tick a) (a_on a).
Definition a_set_cur (p : Z) (a : abs) : abs :=
  mk_abs (a_th a) (a_q a) (a_sl a) p (a_tick a) (a_on a).

Definition prio_of (a : abs) (t : Z) : Z := queue_of (from_option priority 0 (a_th a !! t)).

Definition spec_add (t : Z) (a : abs) : abs :=
  let a := a_upd t (set_state TASK_READY) a in
  a_set_q (<[prio_of a t := a_q a (prio_of a t) ++ [t]]> (a_q a)) a.

Fixpoint spec_pick_from (n : nat) (i : Z) (a : abs) : Z * abs :=
  match n with
  | O => (0, a)
  | S n' => match a_q a i with
            | [] => spec_pick_from n' (i + 1) a
            | t :: r => (t, a_set_q (<[i := r]> (a_q a)) a)
            end
  end.
Definition spec_pick (a : abs) : Z * abs := spec_pick_from 5 0 a.

Definition awake (a : abs) (t : Z) : bool := from_option sleep_until 0 (a_th a !! t) <=? a_tick a.

(** Wake the threads of [r] that are due; [kept] stay asleep. *)
Fixpoint spec_wake (kept r : list Z) (a : abs) : abs :=
  match r with
  | [] => a_set_sl kept a
  | t :: r' => if awake a t then spec_wake kept r' (spec_add t (a_set_sl (kept ++ r') a))
               else spec_wake (kept ++ [t]) r' a
  end.

Definition state_is (a : abs) (p : Z) (st : TaskState) : bool :=
  negb (p =? 0) && bool_decide (state <$> a_th a !! p = Some st).

Definition refill (t : Thread) : Thread :=
  if IsValidPriority (priority t) then set_slice (CalculateTimeSlice (priority t)) t else t.

(** Dispatch: the thread becomes current, running, with a full time slice. *)
Definition spec_dispatch (t : Z) (a : abs) : abs :=
  a_upd t refill (a_upd t (set_state TASK_RUNNING) (a_set_cur t a)).

(** The abstract state of [Schedule] when it picks the next thread. *)
Definition before_pick (a : abs) : abs :=
  let a1 := spec_wake [] (a_sl a) a in
  if state_is a1 (a_cur a) TASK_RUNNING then spec_add (a_cur a) a1 else a1.

Definition spec_schedule (a : abs) : abs :=
  if a_on a then
    let '(t, a3) := spec_pick (before_pick a) in
    if t =? 0 then
      if state_is a3 (a_cur a) TASK_READY then a_upd (a_cur a) (set_state TASK_RUNNING) a3
      else a_set_cur 0 a3
    else spec_dispatch t a3
  else a.

(** ** The lists in memory *)

Fixpoint lseg (m : gmap Z Thread) (p : Z) (l : list Z) : Prop :=
  match l with
  | [] => p = 0
  | t :: l' => p = t /\ t <> 0 /\ exists th, m !! t = Some th /\ lseg m (next th) l'
  end.

Lemma lseg_ext m m' p l :
  (forall t, t ∈ l -> next <$> m' !! t = next <$> m !! t) -> lseg m p l -> lseg m' p l.
Proof.
  revert p. induction l as [|t l IH]; intros p Hx; [done|]. intros (-> & Hnz & th & Hm & Hl).
  specialize (Hx t ltac:(by left)) as Ht. rewrite Hm in Ht. cbn in Ht.
  destruct (m' !! t) as [th'|] eqn:E; [|done]. injection Ht as Ht.
  split_and!; [done|done|]. exists th'. rewrite Ht. split; [done|].
  apply IH; [|done]. intros x Hin. apply Hx. by right.
Qed.

Lemma lseg_head m p l : lseg m p l -> p = default 0 (head l).
Proof. destruct l; cbn; [done|]. by intros (-> & _). Qed.

Lemma lseg_in m p l t : lseg m p l -> t ∈ l -> t <> 0 /\ is_Some (m !! t).
Proof.
  revert p. induction l as [|x l IH]; intros p; [by intros _ ?%elem_of_nil|].
  intros (-> & Hnz & th & Hm & Hl) [->|Hin]%elem_of_cons; [eauto|by eapply IH].
Qed.

(** Linking [t] behind the last element of a list. *)
Lemma lseg_snoc m m' p l x t :
  lseg m p (l ++ [x]) -> t <> 0 -> next <$> m' !! t = Some 0 -> next <$> m' !! x = Some t ->
  (forall y, y ∈ l -> next <$> m' !! y = next <$> m !! y) -> lseg m' p ((l ++ [x]) ++ [t]).
Proof.
  revert p. induction l as [|y l IH]; intros p Hl Ht Et Ex Hy.
  - destruct Hl as (-> & Hnz & th & Hm & _). cbn. destruct (m' !! x) as [thx|] eqn:Hx; [|done].
    injection Ex as Ex. split_and!; [done|done|]. exists thx. split_and!; [done|done|done|].
    destruct (m' !! t) as [tht|]; [|done]. injection Et as Et. by exists tht.
  - destruct Hl as (-> & Hnz & th & Hm & Hl). split_and!; [done|done|].
    pose proof (Hy y ltac:(by left)) as Ey. rewrite Hm in Ey. destruct (m' !! y) as [thy|] eqn:E; [|done].
    injection Ey as Ey. exists thy. rewrite Ey. split; [done|]. apply IH; try done.
    intros z Hz. apply Hy. by right.
Qed.

(** ** Representation *)

Section Refine.
Context {S : Type} `{PageSupply S}.
Implicit Types (s : sched S) (a : abs).

Definition th s : gmap Z Thread := k_threads (sc_k s).
Definition set_th (m : gmap Z Thread) s : sched S := set_k (set_threads m (sc_k s)) s.

Record rep s a : Prop := {
  rep_th : a_th a = erase <$> th s;
  rep_q : forall i, 0 <= i < 5 ->
    lseg (th s) (queue s i) (a_q a i) /\ tail s i = default 0 (last (a_q a i));
  rep_sl : lseg (th s) (sleeping_tasks s) (a_sl a);
  rep_nodup : NoDup (tasks a);
  rep_cur : a_cur a = current_task s;
  rep_tick : a_tick a = current_tick s;
  rep_on : a_on a = scheduling_enabled s;
}.

Lemma get_step {B} p (f : Thread -> ST (sched S) B) s t :
  th s !! p = Some t -> bind (get p) f s = f t s.
Proof. intros E. apply bind_step. unfold get, on_k, zoom, thread_at. unfold th in E. rewrite E. by destruct s as [[] ? ? ? ? ? ? ?]. Qed.

Lemma upd_run p f s t : th s !! p = Some t -> upd p f s = Some (tt, set_th (<[p := f t]> (th s)) s).
Proof. intros E. unfold upd, on_k, zoom, update_thread. unfold th in *. by rewrite E. Qed.

Lemma upd_step {B} p f (g : unit -> ST (sched S) B) s t :
  th s !! p = Some t -> bind (upd p f) g s = g tt (set_th (<[p := f t]> (th s)) s).
Proof. intros E. by apply bind_step, upd_run. Qed.


Lemma rep_lookup s a p : rep s a -> a_th a !! p = erase <$> th s !! p.
Proof. intros Hr. by rewrite (rep_th _ _ Hr), lookup_fmap. Qed.

Lemma rep_some s a p : rep s a -> is_Some (a_th a !! p) -> exists t, th s !! p = Some t /\ a_th a !! p = Some (erase t).
Proof.
  intros Hr Hp. rewrite (rep_lookup _ _ _ Hr) in *. destruct (th s !! p) as [t|]; [eauto|by destruct Hp].
Qed.

(** Updates that leave the links alone. *)
Class keeps_link (f : Thread -> Thread) : Prop := {
  kl_next t : next (f t) = next t;
  kl_erase t : erase (f t) = f (erase t);
}.

Lemma alter_insert_some {A} (f : A -> A) (m : gmap Z A) i x : m !! i = Some x -> alter f i m = <[i := f x]> m.
Proof.
  intros E. apply map_eq. intros j. destruct (decide (i = j)) as [->|].
  - by rewrite lookup_alter_eq, lookup_insert_eq, E.
  - by rewrite lookup_alter_ne, lookup_insert_ne.
Qed.

Lemma rep_upd s a p f t :
  rep s a -> keeps_link f -> th s !! p = Some t -> rep (set_th (<[p := f t]> (th s)) s) (a_upd p f a).
Proof.
  intros [H1 H2 H3 H4 H5 H6 H7] [Hn He] Hp.
  assert (Hx : forall x, next <$> (<[p := f t]> (th s)) !! x = next <$> th s !! x).
  { intros x. destruct (decide (p = x)) as [<-|]; [rewrite lookup_insert_eq, Hp; cbn; by rewrite Hn|].
    by rewrite lookup_insert_ne. }
  split; try done; cbn.
  - rewrite H1, fmap_insert, He. apply alter_insert_some. by rewrite lookup_fmap, Hp.
  - intros i Hi. destruct (H2 i Hi) as [Hl Ht]. split; [|done]. by eapply lseg_ext; [|exact Hl].
  - by eapply lseg_ext; [|exact H3].
Qed.

#[local] Instance kl_state v : keeps_link (set_state v).
Proof. split; by intros []. Qed.
#[local] Instance kl_slice v : keeps_link (set_slice v).
Proof. split; by intros []. Qed.
#[local] Instance kl_refill : keeps_link refill.
Proof. split; intros []; unfold refill; cbn; by destruct (IsValidPriority _). Qed.
#[local] Instance kl_runtime : keeps_link (fun t => set_runtime (u32 (total_runtime t + 1)) t).
Proof. split; by intros []. Qed.
#[local] Instance kl_tick : keeps_link (fun t => if 0 <? time_slice t then set_slice (time_slice t - 1) t else t).
Proof. split; intros []; cbn; by destruct (_ <? _). Qed.
#[local] Instance kl_context c : keeps_link (set_context c).
Proof. split; by intros []. Qed.

Lemma queue_of_range p : 0 <= queue_of p < 5.
Proof.
  unfold queue_of, PRIORITY_NORMAL. destruct (Z.ltb_spec p 0); cbn; [lia|].
  destruct (Z.leb_spec 5 p); lia.
Qed.

(** Appending to one queue adds one element to the whole. *)
Lemma all_q_insert (q : Z -> list Z) i l :
  0 <= i < 5 -> exists l1 l2, all_q q = l1 ++ q i ++ l2 /\ all_q (<[i := l]> q) = l1 ++ l ++ l2.
Proof.
  intros Hi. unfold all_q, insert, fn_insert.
  assert (i = 0 \/ i = 1 \/ i = 2 \/ i = 3 \/ i = 4) as [->|[->|[->|[->| ->]]]] by lia; cbn.
  - by exists [], (q 1 ++ q 2 ++ q 3 ++ q 4).
  - by exists (q 0), (q 2 ++ q 3 ++ q 4).
  - exists (q 0 ++ q 1), (q 3 ++ q 4). by rewrite <-!app_assoc.
  - exists (q 0 ++ q 1 ++ q 2), (q 4). by rewrite <-!app_assoc.
  - exists (q 0 ++ q 1 ++ q 2 ++ q 3), []. by rewrite !app_nil_r, <-!app_assoc.
Qed.

Lemma all_q_snoc q i t : 0 <= i < 5 -> all_q (<[i := q i ++ [t]]> q) ≡ₚ t :: all_q q.
Proof.
  intros Hi. destruct (all_q_insert q i (q i ++ [t]) Hi) as (l1 & l2 & -> & ->).
  rewrite <-app_assoc. cbn. by rewrite !app_assoc, Permutation_middle.
Qed.

Lemma all_q_uncons q i t r : 0 <= i < 5 -> q i = t :: r -> all_q q ≡ₚ t :: all_q (<[i := r]> q).
Proof.
  intros Hi Hq. destruct (all_q_insert q i r Hi) as (l1 & l2 & -> & ->). rewrite Hq. cbn.
  symmetry. apply Permutation_middle.
Qed.

Lemma all_q_in q i t : 0 <= i < 5 -> t ∈ q i -> t ∈ all_q q.
Proof.
  intros Hi Hin. destruct (all_q_insert q i [] Hi) as (l1 & l2 & -> & _). set_solver.
Qed.

Lemma insert_q_lookup (q : Z -> list Z) i j l : (<[i := l]> q) j = if decide (i = j) then l else q j.
Proof. done. Qed.

Lemma all_q_disjoint q i j x :
  0 <= i < 5 -> 0 <= j < 5 -> i <> j -> NoDup (all_q q) -> x ∈ q i -> x ∉ q j.
Proof.
  intros Hi Hj Hij Hnd Hx Hx'. destruct (all_q_insert q i [] Hi) as (l1 & l2 & E & E').
  rewrite E in Hnd. apply NoDup_app in Hnd as (_ & Hd & Hnd). apply NoDup_app in Hnd as (_ & Hd' & _).
  assert (Hin : x ∈ all_q (<[i := []]> q)) by (apply (all_q_in _ j); [done|]; rewrite insert_q_lookup; by case_decide).
  rewrite E' in Hin. cbn in Hin. apply elem_of_app in Hin as [Hin|Hin]; [apply (Hd x Hin)|by apply (Hd' x Hx)].
  apply elem_of_app. by left.
Qed.

Lemma tasks_disjoint a i x : NoDup (tasks a) -> 0 <= i < 5 -> x ∈ a_q a i ->
  (x ∉ a_sl a) /\ forall j, 0 <= j < 5 -> i <> j -> x ∉ a_q a j.
Proof.
  intros Hnd Hi Hx. unfold tasks in Hnd. apply NoDup_app in Hnd as (Hq & Hd & _). split.
  - apply Hd. by eapply all_q_in.
  - intros j Hj Hij. by apply (all_q_disjoint (a_q a) i).
Qed.

Lemma all_q_in_nodup a i : 0 <= i < 5 -> NoDup (tasks a) -> NoDup (a_q a i).
Proof.
  intros Hi Hnd. unfold tasks in Hnd. apply NoDup_app in Hnd as (Hq & _ & _).
  destruct (all_q_insert (a_q a) i [] Hi) as (l1 & l2 & E & _). rewrite E in Hq.
  apply NoDup_app in Hq as (_ & _ & Hq). by apply NoDup_app in Hq as (Hq & _ & _).
Qed.

Lemma queue_set i j p s : queue (set_queue i p s) j = if decide (i = j) then p else queue s j.
Proof. unfold queue. cbn. rewrite lookup_insert. by case_decide. Qed.
Lemma tail_set i j p s : tail (set_tail i p s) j = if decide (i = j) then p else tail s j.
Proof. unfold tail. cbn. rewrite lookup_insert. by case_decide. Qed.

Lemma rep_queue_nil s a i : rep s a -> 0 <= i < 5 -> (queue s i = 0 <-> a_q a i = []).
Proof.
  intros Hr Hi. destruct (rep_q _ _ Hr i Hi) as [Hl _]. destruct (a_q a i) as [|t l]; [by split|].
  destruct Hl as (-> & ? & _). split; done.
Qed.

Lemma tasks_add a i t : 0 <= i < 5 -> all_q (<[i := a_q a i ++ [t]]> (a_q a)) ++ a_sl a ≡ₚ t :: tasks a.
Proof. intros Hi. unfold tasks. by rewrite all_q_snoc. Qed.

Lemma erase_ready (m : gmap Z Thread) t x :
  m !! t = Some x -> erase <$> (<[t := set_next 0 (set_state TASK_READY x)]> m) = alter (set_state TASK_READY) t (erase <$> m).
Proof.
  intros E. rewrite fmap_insert. symmetry. rewrite (alter_insert_some _ _ _ (erase x)) by (by rewrite lookup_fmap, E).
  by destruct x.
Qed.

Lemma upd2_step {B} p f g (h : unit -> ST (sched S) B) s t :
  th s !! p = Some t ->
  bind (upd p f) (fun _ => bind (upd p g) h) s = h tt (set_th (<[p := g (f t)]> (th s)) s).
Proof.
  intros E. rewrite (upd_step _ _ _ _ _ E). erewrite upd_step by apply lookup_insert_eq.
  change (th (set_th ?m s)) with m. by rewrite insert_insert_eq.
Qed.

(** What an enqueue does to links and globals, and why that represents the
    queue with [t] at its end. *)
Record enqueued s s' (a : abs) (t i : Z) : Prop := {
  enq_th : erase <$> th s' = alter (set_state TASK_READY) t (erase <$> th s);
  enq_new : next <$> th s' !! t = Some 0;
  enq_last z : last (a_q a i) = Some z -> next <$> th s' !! z = Some t;
  enq_rest w : w <> t -> last (a_q a i) <> Some w -> next <$> th s' !! w = next <$> th s !! w;
  enq_queue j : queue s' j = if decide (i = j) then (if a_q a i is [] then t else queue s i) else queue s j;
  enq_tail j : tail s' j = if decide (i = j) then t else tail s j;
  enq_globals : sleeping_tasks s' = sleeping_tasks s /\ current_task s' = current_task s /\
    current_tick s' = current_tick s /\ scheduling_enabled s' = scheduling_enabled s;
}.

Lemma rep_enqueue s s' a t i :
  rep s a -> 0 <= i < 5 -> t ∉ tasks a -> t <> 0 -> enqueued s s' a t i ->
  rep s' (a_set_q (<[i := a_q a i ++ [t]]> (a_q a)) (a_upd t (set_state TASK_READY) a)).
Proof.
  intros Hr Hi Hnt Ht0 [E1 E2 E3 E4 E5 E6 (E7 & E8 & E9 & E10)].
  assert (Hqn : forall j, 0 <= j < 5 -> t ∉ a_q a j).
  { intros j Hj Hin. apply Hnt. unfold tasks. apply elem_of_app. left. by eapply all_q_in. }
  assert (Hlast : forall w, last (a_q a i) = Some w -> w ∈ a_q a i).
  { intros w (l' & ->)%last_Some. set_solver. }
  pose proof (tasks_disjoint a i) as Hdis. destruct Hr as [H1 H2 H3 H4 H5 H6 H7].
  split; cbn; rewrite ?E7, ?E8, ?E9, ?E10; try done.
  - by rewrite H1, E1.
  - intros j Hj. rewrite E5, E6, insert_q_lookup. case_decide as Hij.
    + subst j. destruct (H2 i Hi) as [Hl _]. rewrite last_snoc. split; [|done].
      destruct (a_q a i) as [|x l] eqn:Eq using rev_ind.
      * cbn. split_and!; [done|done|]. destruct (th s' !! t) as [x|]; [|done]. exists x. by injection E2 as ->.
      * clear IHl. assert (Hnil : match l ++ [x] with [] => t | _ => queue s i end = queue s i) by (by destruct l).
        rewrite Hnil. eapply lseg_snoc; [done|done|done|apply E3; by rewrite last_snoc|].
        intros y Hy. apply E4; [intros ->; apply (Hqn i Hi); rewrite Eq; set_solver|].
        rewrite last_snoc. intros [= ->]. pose proof (all_q_in_nodup _ _ Hi H4) as Hnd. rewrite Eq in Hnd.
        apply NoDup_app in Hnd as (_ & Hd & _). apply (Hd y Hy). by left.
    + destruct (H2 j Hj) as [Hl ?]. split; [|done]. eapply lseg_ext; [|exact Hl]. intros y Hy.
      apply E4; [intros ->; by apply (Hqn j)|]. intros Hz%Hlast. by apply (proj2 (Hdis y H4 Hi Hz) j).
  - eapply lseg_ext; [|exact H3]. intros y Hy. apply E4.
    + intros ->. apply Hnt, elem_of_app. by right.
    + intros Hz%Hlast. by apply (proj1 (Hdis y H4 Hi Hz)).
  - change (NoDup (all_q (<[i := a_q a i ++ [t]]> (a_q a)) ++ a_sl a)). rewrite tasks_add by done. apply NoDup_cons. done.
Qed.

Lemma AddToReadyQueue_rep s a t :
  rep s a -> t ∉ tasks a -> t <> 0 -> is_Some (a_th a !! t) ->
  exists s', AddToReadyQueue t s = Some (tt, s') /\ rep s' (spec_add t a) /\
    k_heap (sc_k s') = k_heap (sc_k s) /\ next_task_id s' = next_task_id s.
Proof.
  intros Hr Hnt Ht0 Ht. destruct (rep_some _ _ _ Hr Ht) as (x & Hx & Hax).
  unfold AddToReadyQueue. destruct (Z.eqb_spec t 0); [done|]. rewrite (upd2_step _ _ _ _ _ _ Hx).
  erewrite get_step by apply lookup_insert_eq. rewrite gets_step. cbn [set_next set_state priority].
  set (i := queue_of (priority x)). pose proof (queue_of_range (priority x) : 0 <= i < 5) as Hi.
  set (m1 := <[t := set_next 0 (set_state TASK_READY x)]> (th s)). change (queue (set_th m1 s) i) with (queue s i).
  assert (Hspec : spec_add t a = a_set_q (<[i := a_q a i ++ [t]]> (a_q a)) (a_upd t (set_state TASK_READY) a)).
  { unfold spec_add, prio_of. cbn. by rewrite lookup_alter_eq, Hax. }
  rewrite Hspec. destruct (Z.eqb_spec (queue s i) 0) as [Hq0|Hq0].
  - apply (rep_queue_nil _ _ _ Hr Hi) in Hq0. eexists. split; [done|]. split; [|done].
    apply (rep_enqueue s); [done..|]. split; try done.
    + by apply erase_ready.
    + change (next <$> m1 !! t = Some 0). unfold m1. by rewrite lookup_insert_eq.
    + by rewrite Hq0.
    + intros w Hw _. change (next <$> m1 !! w = next <$> th s !! w). unfold m1. by rewrite lookup_insert_ne.
    + intros j. rewrite Hq0. etrans; [apply queue_set|done].
    + intros j. etrans; [apply (tail_set i j t (set_th m1 s))|done].
  - assert (Hne : a_q a i <> []) by (by rewrite <-(rep_queue_nil _ _ _ Hr Hi)).
    destruct (exists_last Hne) as (l0 & z & Hlz). destruct (rep_q _ _ Hr i Hi) as [Hli Hti].
    rewrite Hlz in Hli, Hti. rewrite last_snoc in Hti. cbn in Hti.
    destruct (lseg_in _ _ _ z Hli ltac:(set_solver)) as [_ [y Hy]].
    assert (Hzt : z <> t).
    { intros ->. apply Hnt, elem_of_app. left. apply (all_q_in _ i); [done|]. rewrite Hlz. set_solver. }
    rewrite gets_step. change (tail (set_th m1 s) i) with (tail s i). rewrite Hti.
    assert (Hy1 : m1 !! z = Some y) by (unfold m1; by rewrite lookup_insert_ne).
    erewrite upd_step by exact Hy1. set (m2 := <[z := set_next t y]> m1). eexists. split; [done|]. split; [|done].
    apply (rep_enqueue s); [done..|]. split; try done.
    + rewrite <-(erase_ready _ _ _ Hx). fold m1. change (erase <$> m2 = erase <$> m1). unfold m2.
      rewrite fmap_insert. apply insert_id. rewrite lookup_fmap, Hy1. by destruct y.
    + change (next <$> m2 !! t = Some 0). unfold m2, m1. by rewrite lookup_insert_ne, lookup_insert_eq.
    + intros z' Hz'. rewrite Hlz, last_snoc in Hz'. injection Hz' as <-.
      change (next <$> m2 !! z = Some t). unfold m2. by rewrite lookup_insert_eq.
    + intros w Hw Hwz. rewrite Hlz, last_snoc in Hwz. change (next <$> m2 !! w = next <$> th s !! w).
      unfold m2, m1. rewrite !lookup_insert_ne; congruence.
    + intros j. change (queue _ j) with (queue s j). case_decide as Hij; [|done]. rewrite <-Hij. by destruct (a_q a i).
    + intros j. etrans; [apply (tail_set i j t (set_th m1 s))|done].
Qed.

Lemma erase_set_next (m : gmap Z Thread) p v x :
  m !! p = Some x -> erase <$> (<[p := set_next v x]> m) = erase <$> m.
Proof. intros E. rewrite fmap_insert. apply insert_id. rewrite lookup_fmap, E. by destruct x. Qed.

Lemma pick_rep s a i t r :
  rep s a -> 0 <= i < 5 -> a_q a i = t :: r ->
  exists x, queue s i = t /\ t <> 0 /\ th s !! t = Some x /\
    let s1 := set_queue i (next x) s in
    let s2 := if next x =? 0 then set_tail i 0 s1 else s1 in
    rep (set_th (<[t := set_next 0 x]> (th s)) s2) (a_set_q (<[i := r]> (a_q a)) a).
Proof.
  intros Hr Hi Hq. destruct (rep_q _ _ Hr i Hi) as [Hl Ht]. rewrite Hq in Hl, Ht.
  destruct Hl as (Hqt & Ht0 & x & Hx & Hl). exists x. split_and!; try done.
  assert (Htin : t ∈ a_q a i) by (rewrite Hq; by left).
  destruct (tasks_disjoint _ _ _ (rep_nodup _ _ Hr) Hi Htin) as [Hts Htq].
  assert (Hnx : next x = 0 <-> r = []).
  { destruct r as [|y r]; [done|]. destruct Hl as (-> & ? & _). done. }
  pose proof (all_q_in_nodup _ _ Hi (rep_nodup _ _ Hr)) as Hndq. rewrite Hq in Hndq.
  apply NoDup_cons in Hndq as [Htr _]. destruct Hr as [H1 H2 H3 H4 H5 H6 H7].
  set (m' := <[t := set_next 0 x]> (th s)).
  assert (Hrest : forall w, w <> t -> next <$> m' !! w = next <$> th s !! w).
  { intros w Hw. unfold m'. by rewrite lookup_insert_ne. }
  intros s1 s2. assert (Hg : queue s2 = queue s1 /\ sleeping_tasks s2 = sleeping_tasks s /\
    current_task s2 = current_task s /\ current_tick s2 = current_tick s /\
    scheduling_enabled s2 = scheduling_enabled s).
  { unfold s2. by destruct (next x =? 0). }
  destruct Hg as (G1 & G2 & G3 & G4 & G5). change (th (set_th m' s2)) with m'.
  split; cbn; rewrite ?G2, ?G3, ?G4, ?G5; try done.
  - rewrite H1. symmetry. by apply erase_set_next.
  - intros j Hj. change (queue (set_th m' s2) j) with (queue s2 j). change (tail (set_th m' s2) j) with (tail s2 j).
    rewrite G1. unfold s1. rewrite queue_set, insert_q_lookup. destruct (H2 j Hj) as [Hlj Htj]. case_decide as Hij.
    + subst j. split; [eapply lseg_ext; [|exact Hl]; intros y Hy; apply Hrest; by intros ->|].
      unfold s2. destruct (Z.eqb_spec (next x) 0) as [Hz|Hz].
      * rewrite tail_set, decide_True by done. apply Hnx in Hz as ->. done.
      * change (tail s1 i) with (tail s i). rewrite Htj, Hq. destruct r as [|y r]; [by destruct Hz; apply Hnx|].
        by rewrite last_cons_cons.
    + split; [eapply lseg_ext; [|exact Hlj]; intros y Hy; apply Hrest; intros ->; by apply (Htq j)|].
      unfold s2. destruct (next x =? 0); [|done]. rewrite tail_set. by rewrite decide_False.
  - eapply lseg_ext; [|exact H3]. intros y Hy. apply Hrest. by intros ->.
  - change (NoDup (all_q (<[i := r]> (a_q a)) ++ a_sl a)). unfold tasks in H4.
    rewrite (all_q_uncons _ _ _ _ Hi Hq) in H4. by apply NoDup_cons in H4 as [_ H4].
Qed.

Lemma highest_rep n i s a :
  rep s a -> 0 <= i -> i + Z.of_nat n = 5 ->
  exists s', highest_from n i s = Some ((spec_pick_from n i a).1, s') /\ rep s' (spec_pick_from n i a).2 /\
    k_heap (sc_k s') = k_heap (sc_k s) /\ next_task_id s' = next_task_id s.
Proof.
  revert i. induction n as [|n IH]; intros i Hr Hi Hn; [by exists s|]. cbn [highest_from spec_pick_from].
  rewrite gets_step. destruct (a_q a i) as [|t r] eqn:Hq.
  - rewrite (proj2 (rep_queue_nil s a i Hr ltac:(lia)) Hq). cbn [Z.eqb]. apply IH; [done|lia|lia].
  - destruct (pick_rep s a i t r Hr ltac:(lia) Hq) as (x & -> & Ht0 & Hx & Hr'). destruct (Z.eqb_spec t 0); [done|].
    rewrite (get_step _ _ _ _ Hx), modify_step. destruct (next x =? 0) eqn:En.
    + erewrite bind_step by reflexivity. erewrite upd_step by exact Hx. eexists. split; [done|]. split; [exact Hr'|done].
    + erewrite bind_step by reflexivity. erewrite upd_step by exact Hx. eexists. split; [done|]. split; [exact Hr'|done].
Qed.

Lemma lseg_link m p l z r : lseg m p ((l ++ [z]) ++ r) -> exists x, m !! z = Some x /\ next x = default 0 (head r).
Proof.
  revert p. induction l as [|y l IH]; intros p.
  - intros (_ & _ & x & Hx & Hl). exists x. split; [done|]. by apply lseg_head in Hl.
  - intros (_ & _ & x & _ & Hl). by eapply IH.
Qed.

Lemma lseg_remove m m' p l z t r v :
  lseg m p ((l ++ [z]) ++ t :: r) -> NoDup ((l ++ [z]) ++ t :: r) ->
  next <$> m !! t = Some v -> next <$> m' !! z = Some v ->
  (forall y, y <> z -> next <$> m' !! y = next <$> m !! y) -> lseg m' p ((l ++ [z]) ++ r).
Proof.
  revert p. induction l as [|y l IH]; intros p Hl Hnd Ht Hz Hy.
  - destruct Hl as (-> & Hz0 & x & Hx & _ & Ht0 & x' & Hx' & Hl). rewrite Hx' in Ht. injection Ht as <-.
    destruct (m' !! z) as [x''|] eqn:E; [|done]. injection Hz as Hz. split_and!; [done|done|].
    exists x''. split; [done|]. rewrite Hz. eapply lseg_ext; [|exact Hl]. intros w Hw. apply Hy.
    intros ->. apply NoDup_cons in Hnd as [Hnd _]. apply Hnd. by right.
  - destruct Hl as (-> & Hy0 & x & Hx & Hl). apply NoDup_cons in Hnd as [Hny Hnd].
    assert (Hyz : y <> z) by (intros ->; apply Hny; set_solver).
    specialize (Hy y Hyz) as Ey. rewrite Hx in Ey. destruct (m' !! y) as [x'|] eqn:E; [|done].
    injection Ey as Ey. split_and!; [done|done|]. exists x'. rewrite Ey. split; [done|]. by apply IH.
Qed.

Lemma load_link_rep s a kept r :
  rep s a -> a_sl a = kept ++ r -> load_link (last kept) s = Some (default 0 (head r), s).
Proof.
  intros Hr Hsl. pose proof (rep_sl _ _ Hr) as Hl. rewrite Hsl in Hl.
  destruct kept as [|z kept _] using rev_ind.
  - cbn. apply lseg_head in Hl. unfold gets. by rewrite Hl.
  - rewrite last_snoc. destruct (lseg_link _ _ _ _ _ Hl) as (x & Hx & Hn). cbn.
    rewrite (get_step _ _ _ _ Hx). by rewrite Hn.
Qed.

Lemma unlink_rep s a kept t r x :
  rep s a -> a_sl a = kept ++ t :: r -> th s !! t = Some x ->
  exists s', store_link (last kept) (next x) s = Some (tt, s') /\ rep s' (a_set_sl (kept ++ r) a) /\
    k_heap (sc_k s') = k_heap (sc_k s) /\ next_task_id s' = next_task_id s.
Proof.
  intros Hr Hsl Hx. pose proof Hr as [H1 H2 H3 H4 H5 H6 H7]. rewrite Hsl in H3.
  unfold tasks in H4. rewrite Hsl in H4. apply NoDup_app in H4 as (Hnq & Hd & Hns).
  assert (Hnd : NoDup (tasks (a_set_sl (kept ++ r) a))).
  { apply NoDup_app. split_and!; [done|intros y Hy Hin; apply (Hd y Hy); set_solver|]. cbn.
    rewrite <-Permutation_middle in Hns. by apply NoDup_cons in Hns as [_ Hns]. }
  destruct kept as [|z kept _] using rev_ind.
  - eexists. split; [done|]. split; [|done]. destruct H3 as (_ & _ & x' & Hx' & Hl). simplify_eq. by split.
  - rewrite last_snoc. destruct (lseg_link _ _ _ _ _ H3) as (y & Hy & _).
    eexists. split; [apply (upd_run _ _ _ _ Hy)|]. split; [|done]. set (m' := <[z := set_next (next x) y]> (th s)).
    assert (Hrest : forall w, w <> z -> next <$> m' !! w = next <$> th s !! w).
    { intros w Hw. unfold m'. by rewrite lookup_insert_ne. }
    assert (Hzs : z ∈ (kept ++ [z]) ++ t :: r) by set_solver.
    split; try done; change (th (set_th m' s)) with m'; cbn.
    + rewrite H1. symmetry. by apply erase_set_next.
    + intros i Hi. destruct (H2 i Hi) as [Hl ?]. split; [|done]. eapply lseg_ext; [|exact Hl]. intros w Hw.
      apply Hrest. intros ->. apply (Hd z); [by eapply all_q_in|done].
    + eapply lseg_remove; [exact H3|done| | |done].
      * by rewrite Hx.
      * unfold m'. by rewrite lookup_insert_eq.
Qed.

(** The same threads, all lists together the same up to order. *)
Definition same_tasks (a b : abs) : Prop :=
  tasks b ≡ₚ tasks a /\ a_cur b = a_cur a /\ a_tick b = a_tick a /\ a_on b = a_on a /\
  (forall p, is_Some (a_th b !! p) <-> is_Some (a_th a !! p)) /\
  (forall p, p ∉ tasks a -> a_th b !! p = a_th a !! p).

#[local] Instance same_tasks_trans : PreOrder same_tasks.
Proof.
  split; [by intros a|]. intros a b c (H1 & H2 & H3 & H4 & H5 & H6) (G1 & G2 & G3 & G4 & G5 & G6).
  split_and!; [by rewrite G1|congruence..|by intros p; rewrite G5|].
  intros p Hp. rewrite G6; [by apply H6|]. by rewrite H1.
Qed.

Lemma prio_of_range a t : 0 <= prio_of a t < 5.
Proof. apply queue_of_range. Qed.

Lemma tasks_spec_add t a : tasks (spec_add t a) ≡ₚ t :: tasks a.
Proof. apply (tasks_add (a_upd t (set_state TASK_READY) a)), prio_of_range. Qed.

Lemma process_rep fuel s a kept r :
  rep s a -> a_sl a = kept ++ r -> (length r <= fuel)%nat ->
  exists s', process_loop fuel (last kept) s = Some (tt, s') /\ rep s' (spec_wake kept r a) /\
    same_tasks a (spec_wake kept r a) /\
    k_heap (sc_k s') = k_heap (sc_k s) /\ next_task_id s' = next_task_id s.
Proof.
  revert fuel s a kept. induction r as [|t r IH]; intros fuel s a kept Hr Hsl Hf.
  - exists s. assert (Ha : a_set_sl kept a = a) by (rewrite app_nil_r in Hsl; destruct a; cbn in *; by subst).
    cbn [spec_wake]. rewrite Ha. split_and!; try done.
    destruct fuel; cbn [process_loop]; by rewrite (bind_step _ _ _ _ _ (load_link_rep _ _ _ _ Hr Hsl)).
  - destruct fuel as [|fuel]; [cbn in Hf; lia|]. cbn [process_loop spec_wake].
    rewrite (bind_step _ _ _ _ _ (load_link_rep _ _ _ _ Hr Hsl)). cbn [head default].
    pose proof (rep_nodup _ _ Hr) as Hnd. unfold tasks in Hnd. rewrite Hsl in Hnd.
    destruct (lseg_in _ _ _ t (rep_sl _ _ Hr) ltac:(rewrite Hsl; set_solver)) as [Ht0 [x Hx]].
    cbn [default from_option id]. destruct (Z.eqb_spec t 0); [done|]. rewrite (get_step _ _ _ _ Hx), gets_step.
    assert (Haw : awake a t = (sleep_until x <=? current_tick s)).
    { unfold awake. by rewrite (rep_lookup _ _ _ Hr), Hx, (rep_tick _ _ Hr). }
    rewrite Haw. cbn in Hf. destruct (sleep_until x <=? current_tick s).
    + destruct (unlink_rep s a kept t r x Hr Hsl Hx) as (s1 & E1 & Hr1 & Hh1 & Hn1).
      rewrite (bind_step _ _ _ _ _ E1). set (a1 := a_set_sl (kept ++ r) a) in *.
      assert (Hp : tasks a ≡ₚ t :: tasks a1).
      { unfold tasks, a1. cbn. rewrite Hsl. rewrite !app_assoc. symmetry. apply Permutation_middle. }
      assert (Hnt : t ∉ tasks a1).
      { pose proof (rep_nodup _ _ Hr) as Hnd'. rewrite Hp in Hnd'. by apply NoDup_cons in Hnd' as [? _]. }
      destruct (AddToReadyQueue_rep s1 a1 t Hr1 Hnt Ht0) as (s2 & E2 & Hr2 & Hh2 & Hn2).
      { cbn. rewrite (rep_lookup _ _ _ Hr), Hx. eauto. }
      rewrite (bind_step _ _ _ _ _ E2).
      destruct (IH fuel s2 (spec_add t a1) kept Hr2 eq_refl ltac:(lia)) as (s3 & E3 & Hr3 & Hst & Hh3 & Hn3).
      exists s3. split_and!; try done; [|congruence..]. etrans; [|exact Hst].
      split_and!; try done.
      * by rewrite tasks_spec_add, Hp.
      * intros p. cbn. apply lookup_alter_is_Some.
      * intros p Hpt. cbn. apply lookup_alter_ne. intros ->. apply Hpt. rewrite Hp. by left.
    + replace (Some t) with (last (kept ++ [t])) by apply last_snoc. apply IH; [done|by rewrite <-app_assoc|lia].
Qed.

Lemma nodup_length (m : gmap Z Thread) l :
  NoDup l -> (forall t, t ∈ l -> is_Some (m !! t)) -> (length l <= size m)%nat.
Proof.
  intros Hnd Hin. rewrite <-size_dom. rewrite <-(size_list_to_set (C := gset Z) l Hnd).
  apply subseteq_size. intros t Ht. apply elem_of_list_to_set in Ht. apply elem_of_dom. auto.
Qed.

Lemma ProcessSleepingTasks_rep s a :
  rep s a ->
  exists s', ProcessSleepingTasks s = Some (tt, s') /\ rep s' (spec_wake [] (a_sl a) a) /\
    same_tasks a (spec_wake [] (a_sl a) a) /\
    k_heap (sc_k s') = k_heap (sc_k s) /\ next_task_id s' = next_task_id s.
Proof.
  intros Hr. unfold ProcessSleepingTasks. rewrite gets_step. apply (process_rep _ s a []); [done|done|].
  apply nodup_length.
  - pose proof (rep_nodup _ _ Hr) as Hnd. unfold tasks in Hnd. by apply NoDup_app in Hnd as (_ & _ & ?).
  - intros t Ht. by apply (lseg_in _ _ _ t (rep_sl _ _ Hr)).
Qed.

(** The running thread is an object and is on no list. *)
Definition cur_ok a : Prop := a_cur a <> 0 -> (a_cur a ∉ tasks a) /\ is_Some (a_th a !! a_cur a).

Lemma current_in_state_rep s a st :
  rep s a -> (a_cur a <> 0 -> is_Some (a_th a !! a_cur a)) ->
  current_in_state st s = Some (state_is a (a_cur a) st, s).
Proof.
  intros Hr Hc. unfold current_in_state, state_is. rewrite gets_step, <-(rep_cur _ _ Hr).
  destruct (Z.eqb_spec (a_cur a) 0); [done|]. destruct (rep_some _ _ _ Hr (Hc n)) as (x & Hx & Hax).
  rewrite (get_step _ _ _ _ Hx), Hax. cbn. unfold ret. do 2 f_equal. apply bool_decide_ext. naive_solver.
Qed.

Lemma pick_from_spec n i a :
  0 <= i -> i + Z.of_nat n = 5 ->
  let '(t, a') := spec_pick_from n i a in
  (t = 0 /\ a' = a /\ forall j, i <= j < 5 -> a_q a j = []) \/
  (exists j r, i <= j < 5 /\ a_q a j = t :: r /\ a' = a_set_q (<[j := r]> (a_q a)) a /\
     (forall k, i <= k < j -> a_q a k = []) /\ tasks a ≡ₚ t :: tasks a').
Proof.
  revert i. induction n as [|n IH]; intros i Hi Hn; cbn [spec_pick_from].
  - left. split_and!; [done..|lia].
  - destruct (a_q a i) as [|t r] eqn:Hq.
    + specialize (IH (i + 1) ltac:(lia) ltac:(lia)). destruct (spec_pick_from n (i + 1) a) as [t a'].
      assert (Hext : forall j, i <= j -> (forall k, i + 1 <= k < j -> a_q a k = []) -> forall k, i <= k < j -> a_q a k = []).
      { intros j Hj Hk k Hkj. destruct (decide (k = i)) as [->|]; [done|]. apply Hk. lia. }
      destruct IH as [(-> & -> & Hall)|(j & r & Hj & Hq' & -> & Hlow & Hp)]; [left|right].
      * split_and!; [done|done|]. intros j Hj. destruct (decide (j = i)) as [->|]; [done|]. apply Hall. lia.
      * exists j, r. split_and!; try done; try lia. apply Hext; [lia|done].
    + right. exists i, r. split_and!; try done; try lia. unfold tasks.
      rewrite (all_q_uncons (a_q a) i t r) by (lia || done). done.
Qed.

Lemma set_time_slice_run s p x :
  th s !! p = Some x -> exists s', set_time_slice p s = Some (tt, s') /\ s' = set_th (<[p := refill x]> (th s)) s.
Proof.
  intros Hx. unfold set_time_slice. rewrite (get_step _ _ _ _ Hx). unfold refill.
  destruct (IsValidPriority (priority x)).
  - eexists. split; [by apply upd_run|done].
  - exists s. split; [done|]. rewrite insert_id by done. by destruct s as [[] ? ? ? ? ? ? ?].
Qed.

Lemma dispatch_rep s a t :
  rep s a -> t <> 0 -> is_Some (a_th a !! t) ->
  exists s', (modify (set_current t);;; upd t (set_state TASK_RUNNING);;; set_time_slice t) s = Some (tt, s') /\
    rep s' (spec_dispatch t a) /\ k_heap (sc_k s') = k_heap (sc_k s) /\ next_task_id s' = next_task_id s.
Proof.
  intros Hr Ht0 Ht. rewrite modify_step.
  assert (Hr1 : rep (set_current t s) (a_set_cur t a)) by (destruct Hr; by split).
  destruct (rep_some _ _ _ Hr1 Ht) as (x & Hx & _).
  rewrite (upd_step _ _ _ _ _ Hx). pose proof (rep_upd _ _ _ _ _ Hr1 (kl_state TASK_RUNNING) Hx) as Hr2.
  set (s2 := set_th _ _) in *. assert (Hx2 : th s2 !! t = Some (set_state TASK_RUNNING x)) by apply lookup_insert_eq.
  destruct (set_time_slice_run s2 t _ Hx2) as (s' & E & ->). eexists. split; [exact E|].
  split; [|done]. apply (rep_upd _ _ _ _ _ Hr2 kl_refill Hx2).
Qed.

(** The current thread goes back to its queue if it is running. *)
Definition requeued a b : Prop :=
  a_cur b = a_cur a /\ a_on b = a_on a /\ (forall p, is_Some (a_th b !! p) <-> is_Some (a_th a !! p)) /\
  tasks b ≡ₚ (if state_is a (a_cur a) TASK_RUNNING then [a_cur a] else []) ++ tasks a /\
  (state_is a (a_cur a) TASK_RUNNING = true -> a_cur a ∈ all_q (a_q b)).

Lemma before_pick_rep s a :
  rep s a -> cur_ok a ->
  exists s', (forall k, (ProcessSleepingTasks;;;
              let! c := gets current_task in
              let! running := current_in_state TASK_RUNNING in
              (if running : bool then upd c (set_state TASK_READY);;; AddToReadyQueue c else ret tt);;;
              k c) s = (k (a_cur a) : ST (sched S) unit) s') /\ rep s' (before_pick a) /\ requeued a (before_pick a).
Proof.
  intros Hr Hc. destruct (ProcessSleepingTasks_rep s a Hr) as (s1 & E1 & Hr1 & Hst & _ & _).
  unfold before_pick. set (a1 := spec_wake [] (a_sl a) a) in *.
  destruct Hst as (Hp & Hcur & _ & Hon & Hsome & Hsame).
  assert (Hst : state_is a1 (a_cur a) TASK_RUNNING = state_is a (a_cur a) TASK_RUNNING).
  { unfold state_is. destruct (Z.eqb_spec (a_cur a) 0); [done|]. by rewrite Hsame by (by apply Hc). }
  assert (Hc1 : a_cur a1 <> 0 -> is_Some (a_th a1 !! a_cur a1)).
  { rewrite Hcur. intros Hnz. apply Hsome. by apply Hc. }
  assert (Hrun_eq : forall k, (ProcessSleepingTasks;;;
      let! c := gets current_task in
      let! running := current_in_state TASK_RUNNING in
      (if running : bool then upd c (set_state TASK_READY);;; AddToReadyQueue c else ret tt);;; k c) s =
    ((if state_is a1 (a_cur a) TASK_RUNNING then upd (a_cur a) (set_state TASK_READY);;; AddToReadyQueue (a_cur a)
      else ret tt);;; (k (a_cur a) : ST (sched S) unit)) s1).
  { intros k. rewrite (bind_step _ _ _ _ _ E1), gets_step, <-(rep_cur _ _ Hr1).
    by rewrite (bind_step _ _ _ _ _ (current_in_state_rep s1 a1 TASK_RUNNING Hr1 Hc1)), Hcur. }
  setoid_rewrite Hrun_eq. unfold requeued. rewrite <-Hst.
  destruct (state_is a1 (a_cur a) TASK_RUNNING) eqn:Hrun; [|by exists s1].
  unfold state_is in Hrun. apply andb_true_iff in Hrun as [Hnz%negb_true_iff%Z.eqb_neq _].
  destruct (Hc Hnz) as [Hnt Hs]. rewrite Hcur in Hc1. destruct (rep_some _ _ _ Hr1 (Hc1 Hnz)) as (x & Hx & Hax).
  pose proof (rep_upd _ _ _ _ _ Hr1 (kl_state TASK_READY) Hx) as Hr2.
  destruct (AddToReadyQueue_rep _ _ (a_cur a) Hr2) as (s3 & E3 & Hr3 & _); [|done| |].
  - change (a_cur a ∉ tasks a1). by rewrite Hp.
  - cbn. apply lookup_alter_is_Some. auto.
  - exists s3. split; [intros k; rewrite bind_assoc, (upd_step _ _ _ _ _ Hx); by rewrite (bind_step _ _ _ _ _ E3)|].
    assert (Heq : spec_add (a_cur a) (a_upd (a_cur a) (set_state TASK_READY) a1) = spec_add (a_cur a) a1).
    { unfold spec_add, a_upd, a_set_q, prio_of. cbn. rewrite (alter_insert_some _ _ _ _ Hax).
      erewrite alter_insert_some by apply lookup_insert_eq. by rewrite insert_insert_eq. }
    rewrite Heq in Hr3. split; [done|]. split_and!; try done.
    + intros p. cbn. rewrite lookup_alter_is_Some. apply Hsome.
    + by rewrite tasks_spec_add, Hp.
    + intros _. unfold spec_add. cbn [a_q a_set_q]. rewrite all_q_snoc by apply prio_of_range. by left.
Qed.

Lemma all_q_nil q : (forall j, 0 <= j < 5 -> q j = []) -> all_q q = [].
Proof. intros Hq. unfold all_q. by rewrite !Hq by lia. Qed.

Lemma Schedule_run s a :
  rep s a -> cur_ok a ->
  exists s', Schedule s = Some (tt, s') /\ rep s' (spec_schedule a) /\ cur_ok (spec_schedule a).
Proof.
  intros Hr Hc. unfold Schedule, spec_schedule. rewrite gets_step, <-(rep_on _ _ Hr).
  destruct (a_on a); cbn [negb]; [|by exists s].
  destruct (before_pick_rep s a Hr Hc) as (s2 & E2 & Hr2 & Hcur & _ & Hsome & Hp & Hin). rewrite E2. clear E2.
  set (b := before_pick a) in *.
  destruct (highest_rep 5 0 s2 b Hr2 ltac:(lia) ltac:(lia)) as (s3 & E3 & Hr3 & _).
  fold (spec_pick b) in E3, Hr3. unfold GetHighestPriorityTask. rewrite (bind_step _ _ _ _ _ E3).
  pose proof (pick_from_spec 5 0 b ltac:(lia) ltac:(lia)) as Hpick. fold (spec_pick b) in Hpick.
  destruct (spec_pick b) as [t a3]. cbn [fst snd] in *.
  destruct Hpick as [(-> & -> & Hempty)|(j & r & Hj & Hq & -> & _ & Hpt)].
  - cbn [Z.eqb]. assert (Hb : a_cur b <> 0 -> is_Some (a_th b !! a_cur b)).
    { rewrite Hcur, Hsome. intros Hnz. by apply Hc. }
    rewrite (bind_step _ _ _ _ _ (current_in_state_rep s3 b TASK_READY Hr3 Hb)), Hcur.
    destruct (state_is b (a_cur a) TASK_READY) eqn:Hst.
    + unfold state_is in Hst. apply andb_true_iff in Hst as [Hnz%negb_true_iff%Z.eqb_neq _].
      rewrite Hcur in Hb. destruct (rep_some _ _ _ Hr3 (Hb Hnz)) as (x & Hx & _).
      eexists. split; [by apply upd_run|]. split; [by apply rep_upd; [|apply kl_state|]|].
      intros _. cbn. rewrite Hcur, lookup_alter_is_Some. split; [|by apply Hb].
      change (a_cur a ∉ tasks b). rewrite Hp. destruct (state_is a (a_cur a) TASK_RUNNING); [|by apply Hc].
      specialize (Hin eq_refl). rewrite all_q_nil in Hin by done. by apply elem_of_nil in Hin.
    + eexists. split; [done|]. split; [|done]. destruct Hr3; by split.
  - assert (Htin : t ∈ a_q b j) by (rewrite Hq; by left).
    destruct (lseg_in _ _ _ _ (proj1 (rep_q _ _ Hr2 j Hj)) Htin) as [Ht0 Hts].
    assert (Hta : is_Some (a_th b !! t)).
    { rewrite (rep_lookup _ _ _ Hr2). by apply fmap_is_Some. }
    destruct (Z.eqb_spec t 0); [done|]. destruct (dispatch_rep s3 _ t Hr3 Ht0 Hta) as (s4 & E4 & Hr4 & _).
    exists s4. split; [exact E4|]. split; [done|]. intros _. cbn. rewrite !lookup_alter_is_Some. split; [|done].
    pose proof (rep_nodup _ _ Hr2) as Hnd. rewrite Hpt in Hnd. by apply NoDup_cons in Hnd as [? _].
Qed.

(** *** Yield, block *)

Definition spec_yield a : abs :=
  if negb (a_on a) || (a_cur a =? 0) then a else spec_schedule (a_upd (a_cur a) (set_slice 0) a).
Definition spec_block a : abs :=
  if a_cur a =? 0 then a else spec_schedule (a_upd (a_cur a) (set_state TASK_BLOCKED) a).

Lemma cur_ok_upd a p f : cur_ok a -> cur_ok (a_upd p f a).
Proof. intros Hc Hnz. destruct (Hc Hnz). split; [done|]. cbn. by apply lookup_alter_is_Some. Qed.

Lemma cur_thread s a : rep s a -> cur_ok a -> a_cur a <> 0 -> exists x, th s !! a_cur a = Some x.
Proof. intros Hr Hc Hnz. destruct (rep_some _ _ _ Hr (proj2 (Hc Hnz))) as (x & Hx & _). eauto. Qed.

Lemma Yield_run s a :
  rep s a -> cur_ok a ->
  exists s', Yield s = Some (tt, s') /\ rep s' (spec_yield a) /\ cur_ok (spec_yield a).
Proof.
  intros Hr Hc. unfold Yield, spec_yield. rewrite !gets_step, <-(rep_on _ _ Hr), <-(rep_cur _ _ Hr).
  destruct (a_on a); cbn [negb orb]; [|by exists s].
  destruct (Z.eqb_spec (a_cur a) 0) as [|Hnz]; [by exists s|].
  destruct (cur_thread s a Hr Hc Hnz) as (x & Hx). rewrite (upd_step _ _ _ _ _ Hx).
  apply Schedule_run; [by apply rep_upd; [|apply kl_slice|]|by apply cur_ok_upd].
Qed.

Lemma Block_run s a :
  rep s a -> cur_ok a ->
  exists s', BlockCurrentTask s = Some (tt, s') /\ rep s' (spec_block a) /\ cur_ok (spec_block a).
Proof.
  intros Hr Hc. unfold BlockCurrentTask, spec_block. rewrite gets_step, <-(rep_cur _ _ Hr).
  destruct (Z.eqb_spec (a_cur a) 0) as [|Hnz]; [by exists s|].
  destruct (cur_thread s a Hr Hc Hnz) as (x & Hx). rewrite (upd_step _ _ _ _ _ Hx).
  apply Schedule_run; [by apply rep_upd; [|apply kl_state|]|by apply cur_ok_upd].
Qed.

(** *** Priorities *)

(** Every thread waits in the queue of its priority. *)
Definition sorted a : Prop := forall i t, 0 <= i < 5 -> t ∈ a_q a i -> prio_of a t = i.

Lemma prio_upd a p f x : (forall t, priority (f t) = priority t) -> prio_of (a_upd p f a) x = prio_of a x.
Proof.
  intros Hf. unfold prio_of. cbn. destruct (decide (p = x)) as [->|].
  - rewrite lookup_alter_eq. destruct (a_th a !! x); cbn; [by rewrite Hf|done].
  - by rewrite lookup_alter_ne.
Qed.

Lemma prio_add a t x : prio_of (spec_add t a) x = prio_of a x.
Proof. apply (prio_upd a t (set_state TASK_READY)). by intros []. Qed.

Lemma sorted_add a t : sorted a -> sorted (spec_add t a).
Proof.
  intros Hs i x Hi Hx. rewrite prio_add. revert Hx. unfold spec_add. cbn. rewrite insert_q_lookup.
  case_decide as Hij; [|by apply Hs]. rewrite elem_of_app, list_elem_of_singleton.
  rewrite prio_upd in Hij by (by intros []). intros [Hx| ->]; [|done]. apply Hs; [done|].
  rewrite prio_upd in Hx by (by intros []). by rewrite Hij in Hx.
Qed.

Lemma prio_wake kept r a x : prio_of (spec_wake kept r a) x = prio_of a x.
Proof.
  revert kept a. induction r as [|t r IH]; intros kept a; cbn; [done|]. destruct (awake a t); rewrite IH; [|done].
  etrans; [apply prio_add|done].
Qed.

Lemma sorted_wake kept r a : sorted a -> sorted (spec_wake kept r a).
Proof.
  revert kept a. induction r as [|t r IH]; intros kept a Hs; cbn; [done|]. destruct (awake a t); apply IH; [|done].
  by apply sorted_add.
Qed.

Lemma sorted_before a : sorted a -> sorted (before_pick a).
Proof.
  intros Hs. unfold before_pick. destruct (state_is _ _ _); [apply sorted_add|]; by apply sorted_wake.
Qed.

Lemma sorted_queue a b j i t r :
  sorted a -> (forall x, prio_of b x = prio_of a x) -> 0 <= j < 5 -> a_q a j = t :: r ->
  (forall k, 0 <= k < j -> a_q a k = []) -> 0 <= i < 5 -> t ∈ a_q a j ->
  forall x, x ∈ (<[j := r]> (a_q a)) i -> prio_of b t <= prio_of b x.
Proof.
  intros Hs Hp Hj Hq Hlow Hi Ht x Hx. rewrite !Hp, (Hs j t Hj Ht). rewrite insert_q_lookup in Hx.
  case_decide as Hij; [subst i; rewrite (Hs j x Hj); [lia|rewrite Hq; by right]|].
  rewrite (Hs i x Hi Hx). destruct (decide (i < j)); [|lia]. rewrite Hlow in Hx by lia. by apply elem_of_nil in Hx.
Qed.

(** The threads the scheduler knows of. *)
Definition known a : list Z := (if a_cur a =? 0 then [] else [a_cur a]) ++ tasks a.

Lemma all_q_elem q x : x ∈ all_q q -> exists i, 0 <= i < 5 /\ x ∈ q i.
Proof.
  unfold all_q. rewrite !elem_of_app. intros [?|[?|[?|[?|?]]]]; [exists 0|exists 1|exists 2|exists 3|exists 4]; split; lia || done.
Qed.

Lemma prio_dispatch a t x : prio_of (spec_dispatch t a) x = prio_of a x.
Proof.
  unfold spec_dispatch. rewrite !prio_upd; [done|by intros []|]. intros y. unfold refill.
  by destruct (IsValidPriority _).
Qed.

(** *** Looking up threads *)

Fixpoint find_id a (id : Z) (l : list Z) : Z :=
  match l with
  | [] => 0
  | t :: l' => if from_option task_id 0 (a_th a !! t) =? id then t else find_id a id l'
  end.

Lemma find_id_app a id l1 l2 :
  (forall t, t ∈ l1 -> t <> 0) ->
  find_id a id (l1 ++ l2) = if find_id a id l1 =? 0 then find_id a id l2 else find_id a id l1.
Proof.
  induction l1 as [|t l1 IH]; intros Hnz; cbn; [done|]. destruct (_ =? id).
  - destruct (Z.eqb_spec t 0) as [->|]; [|done]. exfalso. by apply (Hnz 0); [left|].
  - apply IH. intros x Hx. apply Hnz. by right.
Qed.

Lemma find_in_rep fuel s a p l id :
  rep s a -> lseg (th s) p l -> (length l <= fuel)%nat -> find_in fuel p id s = Some (find_id a id l, s).
Proof.
  intros Hr. revert fuel p. induction l as [|t l IH]; intros fuel p Hl Hf.
  - rewrite Hl. by destruct fuel.
  - destruct fuel as [|fuel]; [cbn in Hf; lia|]. destruct Hl as (-> & Hnz & x & Hx & Hl). cbn [find_in find_id].
    destruct (Z.eqb_spec t 0); [done|]. rewrite (get_step _ _ _ _ Hx), (rep_lookup _ _ _ Hr), Hx. cbn.
    destruct (task_id x =? id); [done|]. apply IH; [done|cbn in Hf; lia].
Qed.

Lemma rep_length s a l p : rep s a -> lseg (th s) p l -> NoDup l -> (length l <= objects s)%nat.
Proof. intros Hr Hl Hnd. apply nodup_length; [done|]. intros t Ht. by apply (lseg_in _ _ _ t Hl). Qed.

Fixpoint qs_from (q : Z -> list Z) (n : nat) (i : Z) : list Z :=
  match n with O => [] | Datatypes.S n' => q i ++ qs_from q n' (i + 1) end.

Lemma qs_from_all q : qs_from q 5 0 = all_q q.
Proof. unfold all_q. cbn. by rewrite app_nil_r. Qed.

Lemma find_queues_rep n i s a id :
  rep s a -> 0 <= i -> i + Z.of_nat n = 5 -> find_queues n i id s = Some (find_id a id (qs_from (a_q a) n i), s).
Proof.
  intros Hr. revert i. induction n as [|n IH]; intros i Hi Hn; [done|]. cbn [find_queues qs_from].
  rewrite !gets_step. destruct (rep_q _ _ Hr i ltac:(lia)) as [Hl _].
  rewrite (bind_step _ _ _ _ _ (find_in_rep _ _ _ _ _ id Hr Hl
    (rep_length _ _ _ _ Hr Hl (all_q_in_nodup a i ltac:(lia) (rep_nodup _ _ Hr))))).
  rewrite find_id_app by (intros t Ht; by apply (lseg_in _ _ _ t Hl)).
  destruct (_ =? 0); [|done]. apply IH; lia.
Qed.

Lemma known_nonzero s a t : rep s a -> t ∈ tasks a -> t <> 0 /\ is_Some (th s !! t).
Proof.
  intros Hr [Ht|Ht]%elem_of_app.
  - apply all_q_elem in Ht as (i & Hi & Ht). by apply (lseg_in _ _ _ t (proj1 (rep_q _ _ Hr i Hi))).
  - by apply (lseg_in _ _ _ t (rep_sl _ _ Hr)).
Qed.

Lemma FindTask_rep s a id :
  rep s a -> cur_ok a -> FindTask id s = Some (find_id a id (known a), s).
Proof.
  intros Hr Hc. unfold FindTask, known. rewrite gets_step, <-(rep_cur _ _ Hr).
  assert (Htail : (let! r := find_queues 5 0 id in
      if negb (r =? 0) then ret r
      else let! fuel := gets objects in let! sl := gets sleeping_tasks in find_in fuel sl id) s =
    Some (find_id a id (tasks a), s)).
  { rewrite (bind_step _ _ _ _ _ (find_queues_rep 5 0 s a id Hr ltac:(lia) ltac:(lia))), qs_from_all.
    unfold tasks. rewrite find_id_app.
    - destruct (_ =? 0); cbn [negb]; [|done]. rewrite !gets_step. apply find_in_rep; [done|apply (rep_sl _ _ Hr)|].
      apply (rep_length _ _ _ _ Hr (rep_sl _ _ Hr)).
      pose proof (rep_nodup _ _ Hr) as Hnd. by apply NoDup_app in Hnd as (_ & _ & ?).
    - intros t Ht. apply (known_nonzero s a t Hr). apply elem_of_app. by left. }
  destruct (Z.eqb_spec (a_cur a) 0) as [|Hnz]; [by erewrite bind_step by reflexivity|].
  destruct (cur_thread s a Hr Hc Hnz) as (x & Hx). rewrite bind_assoc, (get_step _ _ _ _ Hx).
  erewrite bind_step by reflexivity. cbn [app find_id]. rewrite (rep_lookup _ _ _ Hr), Hx. cbn.
  by destruct (task_id x =? id).
Qed.

Lemma find_id_none a id l : (forall t, t ∈ l -> from_option task_id 0 (a_th a !! t) <> id) -> find_id a id l = 0.
Proof.
  induction l as [|t l IH]; intros Hn; cbn; [done|]. destruct (Z.eqb_spec (from_option task_id 0 (a_th a !! t)) id) as [E|].
  - exfalso. by apply (Hn t); [left|].
  - apply IH. intros x Hx. apply Hn. by right.
Qed.

(** *** Sleeping *)

Lemma awake_add a t x : awake (spec_add t a) x = awake a x.
Proof.
  unfold awake. cbn. destruct (decide (t = x)) as [->|].
  - rewrite lookup_alter_eq. by destruct (a_th a !! x) as [[]|].
  - by rewrite lookup_alter_ne.
Qed.

Lemma spec_wake_lists kept r a :
  a_sl (spec_wake kept r a) = kept ++ filter (fun t => awake a t = false) r /\
  forall i, a_q (spec_wake kept r a) i = a_q a i ++ filter (fun t => awake a t = true /\ prio_of a t = i) r.
Proof.
  revert kept a. induction r as [|t r IH]; intros kept a; cbn [spec_wake].
  - rewrite app_nil_r. split; [done|]. intros i. by rewrite app_nil_r.
  - destruct (awake a t) eqn:Ha.
    + set (a1 := spec_add t (a_set_sl (kept ++ r) a)).
      assert (Haw : forall x, awake a1 x = awake a x) by (intros x; etrans; [apply awake_add|done]).
      assert (Hpr : forall x, prio_of a1 x = prio_of a x) by (intros x; etrans; [apply prio_add|done]).
      destruct (IH kept a1) as [-> Hq]. rewrite filter_cons_False by (rewrite Ha; done). split.
      * f_equal. apply list_filter_iff. intros x. by rewrite Haw.
      * intros i. rewrite Hq. unfold a1 at 1, spec_add. cbn [a_q a_set_q a_upd a_set_sl]. rewrite insert_q_lookup, prio_upd by (by intros []).
        change (prio_of (a_set_sl (kept ++ r) a) t) with (prio_of a t).
        rewrite (list_filter_iff _ (fun x => awake a x = true /\ prio_of a x = i)) by (intros x; by rewrite Haw, Hpr).
        rewrite (filter_cons _ t r). case_decide as Hi; case_decide as Hd; try naive_solver.
        rewrite <-app_assoc. by rewrite Hi.
    + destruct (IH (kept ++ [t]) a) as [-> Hq]. rewrite <-app_assoc, filter_cons_True by done. split; [done|].
      intros i. rewrite Hq, (filter_cons_False _ t) by (rewrite Ha; naive_solver). done.
Qed.

(** [ProcessSleepingTasks] wakes exactly the threads whose time has come:
    they leave the list of sleepers and join the end of the ready queue of
    their priority, both in their old order; no other thread moves. *)
Theorem ProcessSleepingTasks_spec s a :
  rep s a ->
  exists s' a', ProcessSleepingTasks s = Some (tt, s') /\ rep s' a' /\
    a_sl a' = filter (fun t => awake a t = false) (a_sl a) /\
    (forall i, a_q a' i = a_q a i ++ filter (fun t => awake a t = true /\ prio_of a t = i) (a_sl a)) /\
    (forall t, t ∉ tasks a -> a_th a' !! t = a_th a !! t).
Proof.
  intros Hr. destruct (ProcessSleepingTasks_rep s a Hr) as (s' & E & Hr' & Hst & _).
  exists s', (spec_wake [] (a_sl a) a). destruct (spec_wake_lists [] (a_sl a) a) as [-> Hq].
  split_and!; try done. apply Hst.
Qed.

(** *** The policy *)

(** The queue [i] when the next thread is picked: those that waited, then the
    sleepers that woke up, then the current thread if it was running. *)
Definition queue_at_pick a (i : Z) : list Z :=
  a_q a i ++ filter (fun t => awake a t = true /\ prio_of a t = i) (a_sl a) ++
  (if state_is a (a_cur a) TASK_RUNNING && (prio_of a (a_cur a) =? i) then [a_cur a] else []).

Lemma queue_at_pick_ok s a i : rep s a -> cur_ok a -> a_q (before_pick a) i = queue_at_pick a i.
Proof.
  intros Hr Hc. destruct (ProcessSleepingTasks_rep s a Hr) as (_ & _ & _ & (_ & _ & _ & _ & _ & Hth) & _).
  destruct (spec_wake_lists [] (a_sl a) a) as [_ Hq]. unfold before_pick, queue_at_pick.
  assert (Hst : state_is (spec_wake [] (a_sl a) a) (a_cur a) TASK_RUNNING = state_is a (a_cur a) TASK_RUNNING).
  { unfold state_is. destruct (Z.eqb_spec (a_cur a) 0); [done|]. by rewrite Hth by (by apply Hc). }
  rewrite Hst. destruct (state_is a (a_cur a) TASK_RUNNING); [|by rewrite Hq, app_nil_r].
  unfold spec_add. cbn [a_q a_set_q a_upd]. rewrite insert_q_lookup, prio_upd, prio_wake by (by intros []). cbn [andb].
  destruct (Z.eqb_spec (prio_of a (a_cur a)) i) as [->|].
  - rewrite decide_True by done. by rewrite Hq, <-app_assoc.
  - rewrite decide_False by done. by rewrite Hq, app_nil_r.
Qed.

(** C31: With the current thread running (or none), [Schedule] loses no thread
    and invents none.  Each queue keeps its order, sleepers that wake up join
    its end and the thread that ran goes behind them.  The thread at the head
    of the first non-empty queue is then taken off and runs, so it is the
    oldest of the most urgent ones; the processor is left idle only if no
    thread is ready. *)
Theorem Schedule_highest_priority s a :
  rep s a -> cur_ok a -> sorted a -> a_on a = true ->
  (a_cur a = 0 \/ state_is a (a_cur a) TASK_RUNNING = true) ->
  exists s' a', Schedule s = Some (tt, s') /\ rep s' a' /\ sorted a' /\ known a' ≡ₚ known a /\
    (a_cur a' = 0 -> all_q (a_q a') = []) /\
    (a_cur a' <> 0 -> state_is a' (a_cur a') TASK_RUNNING = true /\
       (forall x, x ∈ all_q (a_q a') -> prio_of a' (a_cur a') <= prio_of a' x) /\
       exists j, 0 <= j < 5 /\ (forall i, 0 <= i < j -> queue_at_pick a i = []) /\
         forall i, 0 <= i < 5 -> queue_at_pick a i = if i =? j then a_cur a' :: a_q a' i else a_q a' i).
Proof.
  intros Hr Hc Hs Hon Hcur. pose proof (fun i => queue_at_pick_ok s a i Hr Hc) as Hqp. destruct (Schedule_run s a Hr Hc) as (s' & E & Hr' & _).
  exists s', (spec_schedule a). split; [done|]. split; [done|]. clear E Hr'. unfold spec_schedule. rewrite Hon.
  destruct (before_pick_rep s a Hr Hc) as (s2 & _ & Hr2 & Hbc & _ & Hsome & Hp & Hin).
  pose proof (sorted_before a Hs) as Hsb. set (b := before_pick a) in *.
  assert (Hkn : known a ≡ₚ tasks b).
  { rewrite Hp. unfold known. destruct Hcur as [->|Hrun]; [done|]. rewrite Hrun. unfold state_is in Hrun.
    apply andb_true_iff in Hrun as [Hnz%negb_true_iff _]. by rewrite Hnz. }
  pose proof (pick_from_spec 5 0 b ltac:(lia) ltac:(lia)) as Hpick. fold (spec_pick b) in Hpick.
  destruct (spec_pick b) as [t a3]. destruct Hpick as [(-> & -> & Hempty)|(j & r & Hj & Hq & -> & Hlow & Hpt)].
  - cbn [Z.eqb]. assert (Hst : state_is b (a_cur a) TASK_READY = false).
    { destruct Hcur as [->|Hrun]; [done|]. specialize (Hin Hrun). rewrite all_q_nil in Hin by done.
      by apply elem_of_nil in Hin. }
    rewrite Hst. split_and!; [done|by rewrite Hkn|by intros _; apply all_q_nil|done].
  - assert (Htin : t ∈ a_q b j) by (rewrite Hq; by left).
    destruct (lseg_in _ _ _ _ (proj1 (rep_q _ _ Hr2 j Hj)) Htin) as [Ht0 Hts].
    destruct (Z.eqb_spec t 0) as [|Hnz]; [done|]. split_and!.
    + intros i x Hi Hx. rewrite prio_dispatch. cbn in Hx. rewrite insert_q_lookup in Hx.
      apply (Hsb i x Hi). case_decide as Hij; [|done]. rewrite <-Hij, Hq. by right.
    + rewrite Hkn, Hpt. unfold known. cbn. by rewrite (proj2 (Z.eqb_neq _ _) Hnz).
    + done.
    + intros _. split_and!.
      * unfold state_is. cbn. rewrite (proj2 (Z.eqb_neq _ _) Hnz), lookup_alter_eq, lookup_alter_eq.
        rewrite (rep_lookup _ _ _ Hr2). destruct Hts as [y ->]. cbn [negb andb]. apply bool_decide_eq_true_2.
        cbn. unfold refill. by destruct (IsValidPriority _).
      * intros x Hx. apply all_q_elem in Hx as (i & Hi & Hx). rewrite !prio_dispatch.
        by apply (sorted_queue b b j i t r Hsb).
      * exists j. split; [lia|]. setoid_rewrite <-Hqp. split; [done|]. intros i _. cbn. rewrite insert_q_lookup.
        destruct (Z.eqb_spec i j) as [->|]; [by rewrite decide_True|by rewrite decide_False].
Qed.

(** *** Blocked threads *)

Definition tid a (t : Z) : Z := from_option task_id 0 (a_th a !! t).

Lemma tid_upd a p f x : (forall t, task_id (f t) = task_id t) -> tid (a_upd p f a) x = tid a x.
Proof.
  intros Hf. unfold tid. cbn. destruct (decide (p = x)) as [->|].
  - rewrite lookup_alter_eq. destruct (a_th a !! x); cbn; [by rewrite Hf|done].
  - by rewrite lookup_alter_ne.
Qed.

Lemma tid_wake kept r a x : tid (spec_wake kept r a) x = tid a x.
Proof.
  revert kept a. induction r as [|t r IH]; intros kept a; cbn; [done|]. destruct (awake a t); rewrite IH; [|done].
  unfold spec_add. etrans; [apply (tid_upd (a_set_sl (kept ++ r) a)); by intros []|done].
Qed.

Lemma tid_schedule a x : tid (spec_schedule a) x = tid a x.
Proof.
  unfold spec_schedule. destruct (a_on a); [|done].
  assert (Hb : tid (before_pick a) x = tid a x).
  { unfold before_pick. destruct (state_is _ _ _); [|apply tid_wake].
    etrans; [apply tid_upd; by intros []|apply tid_wake]. }
  pose proof (pick_from_spec 5 0 (before_pick a) ltac:(lia) ltac:(lia)) as Hpick.
  fold (spec_pick (before_pick a)) in Hpick. destruct (spec_pick (before_pick a)) as [t a3].
  assert (H3 : tid a3 x = tid a x) by (rewrite <-Hb; by destruct Hpick as [(_ & -> & _)|(? & ? & _ & _ & -> & _)]).
  destruct (t =? 0); [destruct (state_is _ _ _)|unfold spec_dispatch].
  - etrans; [apply tid_upd; by intros []|done].
  - done.
  - rewrite !tid_upd; [done|by intros []|]. intros y. unfold refill. by destruct (IsValidPriority _).
Qed.

(** A current thread that is blocked is on no list after [Schedule]. *)
Lemma Schedule_drops s a :
  rep s a -> cur_ok a -> a_on a = true -> state_is a (a_cur a) TASK_BLOCKED = true ->
  known (spec_schedule a) ≡ₚ tasks a.
Proof.
  intros Hr Hc Hon Hst. destruct (before_pick_rep s a Hr Hc) as (s2 & _ & Hr2 & Hbc & _ & _ & Hp & _).
  assert (Hnr : state_is a (a_cur a) TASK_RUNNING = false).
  { unfold state_is in *. destruct (a_cur a =? 0); [done|]. cbn in *. apply bool_decide_eq_true in Hst.
    rewrite Hst. done. }
  rewrite Hnr in Hp. cbn in Hp. unfold spec_schedule. rewrite Hon.
  assert (Hrd : state_is (before_pick a) (a_cur a) TASK_READY = false).
  { destruct (ProcessSleepingTasks_rep s a Hr) as (_ & _ & _ & Hsame & _).
    destruct Hsame as (_ & _ & _ & _ & _ & Hth).
    assert (Hsame : forall st, state_is (spec_wake [] (a_sl a) a) (a_cur a) st = state_is a (a_cur a) st).
    { intros st. unfold state_is. destruct (Z.eqb_spec (a_cur a) 0); [done|]. by rewrite Hth by (by apply Hc). }
    unfold before_pick. rewrite Hsame, Hnr, Hsame. unfold state_is in *.
    destruct (a_cur a =? 0); [done|]. cbn in *. apply bool_decide_eq_true in Hst. by rewrite Hst. }
  pose proof (pick_from_spec 5 0 (before_pick a) ltac:(lia) ltac:(lia)) as Hpick.
  fold (spec_pick (before_pick a)) in Hpick. destruct (spec_pick (before_pick a)) as [t a3].
  destruct Hpick as [(-> & -> & _)|(j & r & Hj & Hq & -> & _ & Hpt)].
  - cbn [Z.eqb]. rewrite Hrd. by rewrite <-Hp.
  - destruct (lseg_in _ _ _ t (proj1 (rep_q _ _ Hr2 j Hj)) ltac:(rewrite Hq; by left)) as [Ht0 _].
    rewrite <-Hp, Hpt. destruct (Z.eqb_spec t 0) as [|Hnz]; [done|]. unfold known. cbn.
    by rewrite (proj2 (Z.eqb_neq _ _) Hnz).
Qed.

(** A thread that blocks is never unblocked: after [BlockCurrentTask] it is
    on no list and not current, [FindTask] does not see it, and
    [UnblockTask] with its id changes nothing. *)
Theorem UnblockTask_lost s a :
  rep s a -> cur_ok a -> a_on a = true -> a_cur a <> 0 ->
  (forall t, t ∈ tasks a -> tid a t <> tid a (a_cur a)) ->
  exists s' a', BlockCurrentTask s = Some (tt, s') /\ rep s' a' /\ (a_cur a ∉ known a') /\
    UnblockTask (tid a (a_cur a)) s' = Some (tt, s').
Proof.
  intros Hr Hc Hon Hnz Hid. destruct (cur_thread s a Hr Hc Hnz) as (x & Hx).
  unfold BlockCurrentTask. rewrite gets_step, <-(rep_cur _ _ Hr), (proj2 (Z.eqb_neq _ _) Hnz), (upd_step _ _ _ _ _ Hx).
  pose proof (rep_upd _ _ _ _ _ Hr (kl_state TASK_BLOCKED) Hx) as Hr1. set (a1 := a_upd _ _ a) in *.
  assert (Hc1 : cur_ok a1) by (by apply cur_ok_upd).
  destruct (Schedule_run _ a1 Hr1 Hc1) as (s' & E & Hr' & Hc'). rewrite E.
  assert (Hk : known (spec_schedule a1) ≡ₚ tasks a).
  { rewrite (Schedule_drops _ a1 Hr1 Hc1); [done|done|]. unfold state_is. cbn.
    rewrite (proj2 (Z.eqb_neq _ _) Hnz), lookup_alter_eq, (rep_lookup _ _ _ Hr), Hx. done. }
  exists s', (spec_schedule a1). split_and!; [done|done|rewrite Hk; by apply Hc|].
  unfold UnblockTask. rewrite (bind_step _ _ _ _ _ (FindTask_rep _ _ _ Hr' Hc')).
  rewrite find_id_none; [done|]. intros t Ht. rewrite Hk in Ht. change (tid (spec_schedule a1) t <> tid a (a_cur a)).
  rewrite tid_schedule. unfold a1. rewrite tid_upd by (by intros []). by apply Hid.
Qed.

(** *** The timer *)

Definition a_set_tick (v : Z) a : abs := mk_abs (a_th a) (a_q a) (a_sl a) (a_cur a) v (a_on a).

Lemma rep_heap s a h : rep s a -> rep (set_k (set_heap h (sc_k s)) s) a.
Proof. intros [? ? ? ? ? ? ?]. by split. Qed.

(** The accounting of a tick, on the current thread [x]. *)
Definition ticked (x : Thread) : Thread :=
  let x := set_runtime (u32 (total_runtime x + 1)) x in
  if 0 <? time_slice x then set_slice (time_slice x - 1) x else x.

(** The switch at the end of a time slice, once a first thread was taken off
    the queues: the interrupted thread goes to the end of its queue with the
    registers saved on the stack at [sp], the next one is dispatched and its
    registers are put on its own stack. *)
Definition spec_switch (m : mem) (sp : Z) a : Z * mem * abs :=
  let save t := set_state TASK_READY (set_context (SaveContextFromInterrupt m sp) t) in
  let '(t, b) := spec_pick (spec_add (a_cur a) (a_upd (a_cur a) save a)) in
  let a' := spec_dispatch t b in
  match a_th a' !! t with
  | Some x => (RestoreContextToInterrupt (context x) m, a')
  | None => (sp, m, a')
  end.

Lemma tick_switch s a sp :
  rep s a -> cur_ok a -> a_cur a <> 0 ->
  exists sp' m' s' a', spec_switch (heap_mem s) sp a = (sp', m', a') /\
    (let! m := gets heap_mem in
     upd (a_cur a) (set_context (SaveContextFromInterrupt m sp));;;
     upd (a_cur a) (set_state TASK_READY);;;
     AddToReadyQueue (a_cur a);;;
     let! next_task := GetHighestPriorityTask in
     if next_task =? 0 then ret sp
     else
       modify (set_current next_task);;;
       upd next_task (set_state TASK_RUNNING);;;
       set_time_slice next_task;;;
       let! t := get next_task in
       let! m := gets heap_mem in
       let '(new_esp, m') := RestoreContextToInterrupt (context t) m in
       modify (fun s => set_k (set_heap (set_mem m' (k_heap (sc_k s))) (sc_k s)) s);;;
       ret new_esp) s = Some (sp', s') /\ rep s' a' /\ cur_ok a' /\ heap_mem s' = m' /\ known a' ≡ₚ known a.
Proof.
  intros Hr Hc Hnz. destruct (cur_thread s a Hr Hc Hnz) as (x & Hx). rewrite gets_step, (upd2_step _ _ _ _ _ _ Hx).
  set (f := fun t => set_state TASK_READY (set_context (SaveContextFromInterrupt (heap_mem s) sp) t)).
  assert (Hf : keeps_link f) by (split; by intros []).
  pose proof (rep_upd _ _ _ _ _ Hr Hf Hx) as Hr1. set (s1 := set_th _ _) in *.
  change (set_th _ s) with s1. destruct (Hc Hnz) as [Hnt Hth].
  destruct (AddToReadyQueue_rep s1 _ (a_cur a) Hr1) as (s2 & E2 & Hr2 & Hh2 & _); [done|done|by cbn; apply lookup_alter_is_Some|].
  rewrite (bind_step _ _ _ _ _ E2). unfold spec_switch. fold f. set (b := spec_add _ _) in *.
  destruct (highest_rep 5 0 s2 b Hr2 ltac:(lia) ltac:(lia)) as (s3 & E3 & Hr3 & Hh3 & _).
  fold (spec_pick b) in E3, Hr3. unfold GetHighestPriorityTask. rewrite (bind_step _ _ _ _ _ E3).
  pose proof (pick_from_spec 5 0 b ltac:(lia) ltac:(lia)) as Hpick. fold (spec_pick b) in Hpick.
  assert (Hkb : tasks b ≡ₚ known a) by (unfold b, known; rewrite tasks_spec_add, (proj2 (Z.eqb_neq _ _) Hnz); done).
  destruct (spec_pick b) as [t a3]. cbn [fst snd] in *. destruct Hpick as [(_ & _ & He)|(j & r & Hj & Hq & -> & _ & Hpt)].
  { exfalso. assert (Hin : a_cur a ∈ all_q (a_q b)).
    { unfold b, spec_add. cbn [a_q a_set_q]. rewrite all_q_snoc by apply prio_of_range. by left. }
    rewrite all_q_nil in Hin by done. by apply elem_of_nil in Hin. }
  destruct (lseg_in _ _ _ t (proj1 (rep_q _ _ Hr2 j Hj)) ltac:(rewrite Hq; by left)) as [Ht0 Hts].
  destruct (Z.eqb_spec t 0); [done|].
  assert (Hta : is_Some (a_th b !! t)) by (rewrite (rep_lookup _ _ _ Hr2); by apply fmap_is_Some).
  destruct (dispatch_rep s3 _ t Hr3 Ht0 Hta) as (s4 & E4 & Hr4 & Hh4 & _).
  assert (Hm4 : heap_mem s4 = heap_mem s) by (unfold heap_mem; by rewrite Hh4, Hh3, Hh2).
  assert (Hx4 : is_Some (a_th (spec_dispatch t (a_set_q (<[j := r]> (a_q b)) b)) !! t)).
  { clearbody b. cbn. by rewrite !lookup_alter_is_Some. }
  destruct (rep_some _ _ _ Hr4 Hx4) as (y & Hy & Hay). rewrite Hay. change (context (erase y)) with (context y).
  assert (Hseq : forall k : ST (sched S) Z, (modify (set_current t);;; upd t (set_state TASK_RUNNING);;;
      set_time_slice t;;; k) s3 = k s4).
  { intros k. revert E4. rewrite !modify_step. unfold bind. destruct (upd _ _ _) as [[? s5]|]; [|done]. by intros ->. }
  rewrite Hseq, (get_step _ _ _ _ Hy), gets_step, Hm4. destruct (RestoreContextToInterrupt _ _) as [sp' m'].
  eexists sp', m', _, _. split; [done|]. split; [done|]. split; [by apply rep_heap|]. split; [|split; [done|]].
  { intros _. split; [|exact Hx4]. cbn. pose proof (rep_nodup _ _ Hr2) as Hnd. rewrite Hpt in Hnd. by apply NoDup_cons in Hnd as [? _]. }
  unfold known at 1. cbn. rewrite (proj2 (Z.eqb_neq _ _) Ht0), <-Hkb, Hpt. done.
Qed.

(** A tick.  At the end of a time slice the test whether another thread is
    ready already takes that thread off its queue. *)
Definition spec_tick (m : mem) (sp : Z) a : Z * mem * abs :=
  if negb (a_on a) then (sp, m, a)
  else
    let a0 := a_set_tick (u32 (a_tick a + 1)) a in
    if a_cur a =? 0 then (sp, m, a0)
    else
      let a1 := a_upd (a_cur a) ticked a0 in
      if from_option time_slice 0 (a_th a1 !! a_cur a) =? 0 then
        let '(other, a2) := spec_pick a1 in
        if other =? 0 then (sp, m, a2) else spec_switch m sp a2
      else (sp, m, a1).

#[local] Instance kl_ticked : keeps_link ticked.
Proof. split; intros []; unfold ticked; cbn; by destruct (_ <? _). Qed.

Lemma OnTimerTick_run s a sp :
  rep s a -> cur_ok a ->
  exists sp' m' s' a', spec_tick (heap_mem s) sp a = (sp', m', a') /\
    OnTimerTick sp s = Some (sp', s') /\ rep s' a' /\ cur_ok a' /\ heap_mem s' = m'.
Proof.
  intros Hr Hc. unfold OnTimerTick, spec_tick. rewrite gets_step, <-(rep_on _ _ Hr).
  destruct (a_on a); cbn [negb]; [|by exists sp, (heap_mem s), s, a].
  rewrite modify_step, gets_step. set (s0 := set_tick _ s). change (current_task s0) with (current_task s).
  rewrite <-(rep_cur _ _ Hr), (rep_tick _ _ Hr). set (a0 := a_set_tick _ a).
  assert (Hr0 : rep s0 a0) by (destruct Hr; by split).
  destruct (Z.eqb_spec (a_cur a) 0) as [Hz|Hnz]; [by exists sp, (heap_mem s), s0, a0|].
  destruct (cur_thread s0 a0 Hr0 Hc Hnz) as (x & Hx). change (a_cur a0) with (a_cur a) in Hx.
  rewrite (upd2_step _ _ _ _ _ _ Hx). cbv beta.
  pose proof (rep_upd _ _ _ _ _ Hr0 kl_ticked Hx) as Hr1. set (s1 := set_th _ s0) in Hr1. change (set_th _ s0) with s1.
  erewrite get_step by apply lookup_insert_eq. set (a1 := a_upd _ _ _) in *.
  assert (Hx1 : a_th a1 !! a_cur a = Some (ticked (erase x))) by (cbn; by rewrite lookup_alter_eq, (rep_lookup _ _ _ Hr0), Hx).
  rewrite Hx1. cbn [from_option]. change (ticked (erase x)) with (ticked (set_next 0 x)).
  assert (Hts : time_slice (ticked (set_next 0 x)) = time_slice (ticked x)) by (by rewrite <-(kl_erase x)). rewrite Hts.
  change (if 0 <? time_slice (set_runtime (u32 (total_runtime x + 1)) x) then _ else _) with (ticked x).
  destruct (Z.eqb_spec (time_slice (ticked x)) 0) as [_|Hne].
  2:{ exists sp, (heap_mem s), s1, a1. split_and!; try done. by apply (cur_ok_upd a0). }
  destruct (highest_rep 5 0 s1 a1 Hr1 ltac:(lia) ltac:(lia)) as (s2 & E2 & Hr2 & Hh2 & _).
  fold (spec_pick a1) in E2, Hr2. unfold GetHighestPriorityTask at 1. rewrite (bind_step _ _ _ _ _ E2).
  pose proof (pick_from_spec 5 0 a1 ltac:(lia) ltac:(lia)) as Hpick. fold (spec_pick a1) in Hpick.
  destruct (spec_pick a1) as [t a2]. cbn [fst snd] in *. assert (Hm2 : heap_mem s2 = heap_mem s) by (unfold heap_mem; by rewrite Hh2).
  assert (Hc1 : cur_ok a1) by (by apply (cur_ok_upd a0)).
  destruct Hpick as [(-> & -> & _)|(j & r & Hj & Hq & -> & _ & Hpt)]; [by exists sp, (heap_mem s), s2, a1|].
  destruct (lseg_in _ _ _ t (proj1 (rep_q _ _ Hr1 j Hj)) ltac:(rewrite Hq; by left)) as [Ht0 _].
  destruct (Z.eqb_spec t 0); [done|]. set (a2 := a_set_q _ a1) in *.
  assert (Hc2 : cur_ok a2).
  { intros Hn. destruct (Hc1 Hn) as [Hnt Hth]. split; [|done]. intros Hin. apply Hnt. rewrite Hpt. by right. }
  destruct (tick_switch s2 a2 sp Hr2 Hc2 Hnz) as (sp' & m' & s' & a' & Es & E & Hr' & Hc' & Hm' & _).
  rewrite Hm2 in Es. exists sp', m', s', a'. by split_and!.
Qed.

(** When a time slice ends, [OnTimerTick] loses a thread: the first thread
    of the highest non-empty queue, taken off by the test whether any thread
    is ready, is on no list afterwards. *)
Theorem OnTimerTick_loses_thread s a sp x :
  rep s a -> cur_ok a -> a_on a = true -> a_cur a <> 0 -> th s !! a_cur a = Some x -> 0 <= time_slice x <= 1 ->
  all_q (a_q a) <> [] ->
  exists sp' s' a' t j r, OnTimerTick sp s = Some (sp', s') /\ rep s' a' /\
    a_q a j = t :: r /\ (forall k, 0 <= k < j -> a_q a k = []) /\ known a ≡ₚ t :: known a' /\ t ∉ known a'.
Proof.
  intros Hr Hc Hon Hnz Hx Hts Hne. unfold OnTimerTick. rewrite gets_step, <-(rep_on _ _ Hr), Hon. cbn [negb].
  rewrite modify_step, gets_step. set (s0 := set_tick _ s). change (current_task s0) with (current_task s).
  rewrite <-(rep_cur _ _ Hr), (proj2 (Z.eqb_neq _ _) Hnz). change (th s) with (th s0) in Hx.
  assert (Hr0 : rep s0 (a_set_tick (u32 (current_tick s + 1)) a)) by (destruct Hr; by split).
  rewrite (upd2_step _ _ _ _ _ _ Hx). cbv beta.
  pose proof (rep_upd _ _ _ _ _ Hr0 kl_ticked Hx) as Hr1. set (s1 := set_th _ s0) in Hr1. change (set_th _ s0) with s1.
  erewrite get_step by apply lookup_insert_eq.
  assert (Hz : time_slice (ticked x) = 0).
  { unfold ticked. cbn. destruct (Z.ltb_spec 0 (time_slice x)); cbn; lia. }
  rewrite Hz. cbn [Z.eqb]. set (a1 := a_upd _ _ _) in Hr1.
  destruct (highest_rep 5 0 s1 a1 Hr1 ltac:(lia) ltac:(lia)) as (s2 & E2 & Hr2 & _).
  fold (spec_pick a1) in E2, Hr2. unfold GetHighestPriorityTask at 1. rewrite (bind_step _ _ _ _ _ E2).
  pose proof (pick_from_spec 5 0 a1 ltac:(lia) ltac:(lia)) as Hpick. fold (spec_pick a1) in Hpick.
  destruct (spec_pick a1) as [t a2]. cbn [fst snd] in *.
  destruct Hpick as [(_ & _ & He)|(j & r & Hj & Hq & -> & Hlow & Hpt)]; [by rewrite all_q_nil in Hne|].
  destruct (lseg_in _ _ _ t (proj1 (rep_q _ _ Hr1 j Hj)) ltac:(rewrite Hq; by left)) as [Ht0 _].
  destruct (Z.eqb_spec t 0); [done|]. set (a2 := a_set_q _ a1) in *.
  change (tasks a1) with (tasks a) in Hpt. destruct (Hc Hnz) as [Hnt Hth].
  assert (Hc2 : cur_ok a2).
  { intros _. change (a_cur a2) with (a_cur a). split; [intros Hin; apply Hnt; rewrite Hpt; by right|].
    cbn. by apply lookup_alter_is_Some. }
  destruct (tick_switch s2 a2 sp Hr2 Hc2 Hnz) as (sp' & _ & s' & a' & _ & E & Hr' & _ & _ & Hk).
  exists sp', s', a', t, j, r.
  assert (Hkn : known a ≡ₚ t :: known a').
  { rewrite Hk. unfold known. change (a_cur a2) with (a_cur a). rewrite Hpt, (proj2 (Z.eqb_neq _ _) Hnz).
    cbn. apply perm_swap. }
  split_and!; try done. pose proof (rep_nodup _ _ Hr) as Hnd.
  assert (Hnk : NoDup (known a)).
  { unfold known. rewrite (proj2 (Z.eqb_neq _ _) Hnz). by apply NoDup_cons. }
  rewrite Hkn in Hnk. by apply NoDup_cons in Hnk as [? _].
Qed.

(** *** Threads named by id *)

Lemma find_id_in a id l : find_id a id l <> 0 -> find_id a id l ∈ l.
Proof. induction l as [|t l IH]; cbn; [done|]. destruct (_ =? id); intros Hn; [by left|right; by apply IH]. Qed.

(** The thread with the id, unless it is terminated. *)
Definition alive a (id : Z) : Z :=
  let t := find_id a id (known a) in if state_is a t TASK_TERMINATED then 0 else t.

Lemma find_alive_rep s a id : rep s a -> cur_ok a ->
  find_alive id s = Some (alive a id, s) /\ (alive a id <> 0 -> exists x, th s !! alive a id = Some x).
Proof.
  intros Hr Hc. unfold find_alive, alive. rewrite (bind_step _ _ _ _ _ (FindTask_rep s a id Hr Hc)). pose proof (find_id_in a id (known a)) as Hin.
  set (t := find_id a id (known a)) in *. unfold state_is. destruct (Z.eqb_spec t 0) as [->|Hnz]; [done|]. specialize (Hin Hnz).
  assert (Hx : exists x, th s !! t = Some x).
  { clearbody t. unfold known in Hin. apply elem_of_app in Hin as [Hin|Hin]; [|by apply (known_nonzero s a t Hr)].
    destruct (Z.eqb_spec (a_cur a) 0) as [|Hc0]; [by apply elem_of_nil in Hin|]. apply list_elem_of_singleton in Hin as ->. by apply (cur_thread s a). }
  destruct Hx as (x & Hx). rewrite (get_step _ _ _ _ Hx), (rep_lookup _ _ _ Hr), Hx. cbn [fmap option_fmap option_map negb andb].
  rewrite (bool_decide_ext (Some (state (erase x)) = Some TASK_TERMINATED) (state x = TASK_TERMINATED)) by (destruct x; naive_solver).
  destruct (bool_decide _); [done|]. split; [done|]. intros _. by exists x.
Qed.

#[local] Instance kl_priority v : keeps_link (set_priority v).
Proof. split; by intros []. Qed.

Definition spec_priority (id prio : Z) a : bool * abs :=
  if alive a id =? 0 then (false, a) else (true, a_upd (alive a id) (set_priority prio) a).
(** A suspended thread that is not the current one stays on its list. *)
Definition spec_suspend (id : Z) a : bool * abs :=
  let t := alive a id in
  if t =? 0 then (false, a)
  else let a1 := a_upd t (set_state TASK_SUSPENDED) a in (true, if t =? a_cur a then spec_schedule a1 else a1).
(** The current thread sleeps: at least one tick, at the front of the list. *)
Definition sleep_ticks (ms : Z) : Z := if u32 (ms * 100) / 1000 =? 0 then 1 else u32 (ms * 100) / 1000.
Definition spec_sleep (ms : Z) a : abs :=
  if (a_cur a =? 0) || state_is a (a_cur a) TASK_TERMINATED then a
  else
    let put t := set_sleep (u32 (a_tick a + sleep_ticks ms)) (set_state TASK_SLEEPING t) in
    spec_schedule (a_set_cur 0 (a_set_sl (a_cur a :: a_sl a) (a_upd (a_cur a) put a))).

Lemma SetTaskPriority_run s a id prio : rep s a -> cur_ok a ->
  exists s', SetTaskPriority id prio s = Some ((spec_priority id prio a).1, s') /\ rep s' (spec_priority id prio a).2 /\ cur_ok (spec_priority id prio a).2.
Proof.
  intros Hr Hc. unfold SetTaskPriority, spec_priority. destruct (find_alive_rep s a id Hr Hc) as [E Hx]. rewrite (bind_step _ _ _ _ _ E).
  destruct (Z.eqb_spec (alive a id) 0) as [|Hnz]; [by exists s|]. destruct (Hx Hnz) as (x & Hxx). rewrite (upd_step _ _ _ _ _ Hxx).
  eexists. split; [done|]. split; [by apply rep_upd; [|apply kl_priority|]|by apply cur_ok_upd].
Qed.

Lemma SuspendTask_run s a id : rep s a -> cur_ok a ->
  exists s', SuspendTask id s = Some ((spec_suspend id a).1, s') /\ rep s' (spec_suspend id a).2 /\ cur_ok (spec_suspend id a).2.
Proof.
  intros Hr Hc. unfold SuspendTask, spec_suspend. destruct (find_alive_rep s a id Hr Hc) as [E Hx]. rewrite (bind_step _ _ _ _ _ E).
  destruct (Z.eqb_spec (alive a id) 0) as [|Hnz]; [by exists s|]. destruct (Hx Hnz) as (x & Hxx). rewrite (upd_step _ _ _ _ _ Hxx), gets_step.
  pose proof (rep_upd _ _ _ _ _ Hr (kl_state TASK_SUSPENDED) Hxx) as Hr1. set (s1 := set_th _ s) in *. change (current_task s1) with (current_task s).
  rewrite <-(rep_cur _ _ Hr). pose proof (cur_ok_upd a (alive a id) (set_state TASK_SUSPENDED) Hc) as Hc1. destruct (alive a id =? a_cur a); [|by exists s1].
  destruct (Schedule_run s1 _ Hr1 Hc1) as (s' & E' & Hs'). exists s'. rewrite (bind_step _ _ _ _ _ E'). by split.
Qed.

(** The current thread is put at the front of the list of sleepers. *)
Lemma sleep_link s a x f : rep s a -> cur_ok a -> a_cur a <> 0 -> th s !! a_cur a = Some x -> keeps_link f ->
  rep (set_current 0 (set_sleeping (a_cur a) (set_th (<[a_cur a := set_next (sleeping_tasks s) (f x)]> (th s)) s)))
    (a_set_cur 0 (a_set_sl (a_cur a :: a_sl a) (a_upd (a_cur a) f a))).
Proof.
  intros Hr Hc Hnz Hx [_ Hf]. destruct (Hc Hnz) as [Hnt _]. destruct Hr as [H1 H2 H3 H4 H5 H6 H7]. set (m' := <[_ := _]> (th s)).
  assert (Hrest : forall w, w <> a_cur a -> next <$> m' !! w = next <$> th s !! w) by (intros w Hw; unfold m'; by rewrite lookup_insert_ne).
  split; try done; change (th (set_current 0 (set_sleeping (a_cur a) (set_th m' s)))) with m'; cbn.
  - unfold m'. rewrite H1, fmap_insert, (alter_insert_some _ _ _ (erase x)) by (by rewrite lookup_fmap, Hx). by rewrite <-Hf.
  - intros i Hi. destruct (H2 i Hi) as [Hl Ht]. split; [|done]. eapply lseg_ext; [|exact Hl]. intros w Hw. apply Hrest. intros ->. apply Hnt, elem_of_app. left. by eapply all_q_in.
  - split; [done|]. split; [done|]. exists (set_next (sleeping_tasks s) (f x)). split; [apply lookup_insert_eq|]. cbn. eapply lseg_ext; [|exact H3].
    intros w Hw. apply Hrest. intros ->. apply Hnt, elem_of_app. by right.
  - unfold tasks in *. cbn. rewrite <-Permutation_middle. by apply NoDup_cons.
Qed.

Lemma upd3_step {B} p f g h (k : unit -> ST (sched S) B) s t : th s !! p = Some t ->
  bind (upd p f) (fun _ => bind (gets current_tick) (fun tick => bind (upd p (g tick)) (fun _ => bind (gets sleeping_tasks) (fun sl => bind (upd p (h sl)) k)))) s =
  k tt (set_th (<[p := h (sleeping_tasks s) (g (current_tick s) (f t))]> (th s)) s).
Proof.
  intros E. rewrite (upd_step _ _ _ _ _ E), gets_step. erewrite upd_step by apply lookup_insert_eq. rewrite gets_step. change (th (set_th ?m s)) with m. rewrite insert_insert_eq.
  erewrite upd_step by apply lookup_insert_eq. change (th (set_th ?m (set_th _ s))) with m. by rewrite insert_insert_eq.
Qed.

Lemma SleepThread_run s a ms : rep s a -> cur_ok a ->
  exists s', API_SleepThread ms s = Some (tt, s') /\ rep s' (spec_sleep ms a) /\ cur_ok (spec_sleep ms a).
Proof.
  intros Hr Hc. unfold API_SleepThread, spec_sleep. rewrite gets_step, <-(rep_cur _ _ Hr). destruct (Z.eqb_spec (a_cur a) 0) as [|Hnz]; [by exists s|]. cbn [orb].
  destruct (cur_thread s a Hr Hc Hnz) as (x & Hx). rewrite (get_step _ _ _ _ Hx).
  assert (Ha : alive a (task_id x) = if state_is a (a_cur a) TASK_TERMINATED then 0 else a_cur a).
  { unfold alive, known. rewrite (proj2 (Z.eqb_neq _ _) Hnz). cbn [app find_id]. rewrite (rep_lookup _ _ _ Hr), Hx. cbn. by rewrite Z.eqb_refl. }
  set (a' := if state_is _ _ _ then _ else _). assert (Hs : exists b s', SleepTask (task_id x) ms s = Some (b, s') /\ rep s' a' /\ cur_ok a').
  2:{ destruct Hs as (b & s' & E & Hs). exists s'. by rewrite (bind_step _ _ _ _ _ E). }
  unfold SleepTask. rewrite (bind_step _ _ _ _ _ (proj1 (find_alive_rep s a (task_id x) Hr Hc))), Ha. subst a'. clear Ha.
  destruct (state_is a (a_cur a) TASK_TERMINATED); [by exists false, s|]. rewrite (proj2 (Z.eqb_neq _ _) Hnz). fold (sleep_ticks ms).
  set (g := fun t => set_sleep _ (set_state TASK_SLEEPING t)). assert (Hg : keeps_link g) by (split; by intros []).
  pose proof (sleep_link s a x g Hr Hc Hnz Hx Hg) as Hr1. erewrite (upd3_step _ _ (fun tick => set_sleep _) set_next) by exact Hx. rewrite modify_step, gets_step. subst g. cbn beta in *. rewrite (rep_tick _ _ Hr) in *.
  cbn [current_task set_sleeping set_th set_k]. rewrite <-(rep_cur _ _ Hr), Z.eqb_refl, bind_assoc, modify_step.
  destruct (Schedule_run _ _ Hr1) as (s' & E' & Hs'); [done|]. exists true, s'. by rewrite (bind_step _ _ _ _ _ E').
Qed.

(** *** Refinement *)

Definition a_set_on (b : bool) a : abs := mk_abs (a_th a) (a_q a) (a_sl a) (a_cur a) (a_tick a) b.

(** The operation returns the result of the abstract one, in a state that
    represents its new state, with the current thread on no list. *)
Definition implements {A} (op : ST (sched S) A) s (r : A * abs) : Prop :=
  exists s', op s = Some (r.1, s') /\ rep s' r.2 /\ cur_ok r.2.

(** C2: On linked queues, [Schedule], [Yield], [BlockCurrentTask], the sleep of the
    current thread ([API_SleepThread]), [SuspendTask], [SetTaskPriority],
    [EnablePreemption], [DisablePreemption] and [OnTimerTick] return and
    implement the abstract scheduler on FIFO lists: from a state that
    represents [a] with the current thread on no list they give the abstract
    result and reach a state that represents the abstract successor, with the
    same property; a tick also leaves the memory with the frame of the thread
    it resumes.  [CreateTask] and [ProcessSleepingTasks] have specifications
    of their own; [SleepTask] of a thread that waits in a queue and
    [ResumeTask] of a suspended thread damage the lists, see
    [SleepTask_cuts_queue] and [ResumeTask_loops]. *)
Theorem scheduler_refines s a :
  rep s a -> cur_ok a ->
  implements Schedule s (tt, spec_schedule a) /\
  implements Yield s (tt, spec_yield a) /\
  implements BlockCurrentTask s (tt, spec_block a) /\
  (forall ms, implements (API_SleepThread ms) s (tt, spec_sleep ms a)) /\
  (forall id, implements (SuspendTask id) s (spec_suspend id a)) /\
  (forall id prio, implements (SetTaskPriority id prio) s (spec_priority id prio a)) /\
  implements EnablePreemption s (tt, a_set_on true a) /\ implements DisablePreemption s (tt, a_set_on false a) /\
  (forall sp, exists sp' m' s' a', spec_tick (heap_mem s) sp a = (sp', m', a') /\
     OnTimerTick sp s = Some (sp', s') /\ rep s' a' /\ cur_ok a' /\ heap_mem s' = m').
Proof.
  intros Hr Hc. assert (Hon : forall b, implements (modify (set_enabled b)) s (tt, a_set_on b a)).
  { intros b. exists (set_enabled b s). split; [done|]. split; [destruct Hr; by split|done]. }
  split_and!; intros; [by apply Schedule_run|by apply Yield_run|by apply Block_run|by apply SleepThread_run|by apply SuspendTask_run|by apply SetTaskPriority_run|apply Hon..|by apply OnTimerTick_run].
Qed.

(** *** Calls that damage the lists *)

(** [ResumeTask] of a suspended thread that waits at the end of its queue links the
    thread behind itself: the queue has no end any more. *)
Theorem ResumeTask_loops s a id t x i l :
  rep s a -> cur_ok a -> find_id a id (known a) = t -> th s !! t = Some x -> state x = TASK_SUSPENDED ->
  i = queue_of (priority x) -> a_q a i = l ++ [t] ->
  exists s', ResumeTask id s = Some (true, s') /\ next <$> th s' !! t = Some t /\ forall a', a_q a' i = a_q a i -> ~ rep s' a'.
Proof.
  intros Hr Hc Hf Hx Hst Hi Hq. pose proof (queue_of_range (priority x)) as Hb. rewrite <-Hi in Hb. destruct (rep_q _ _ Hr i Hb) as [Hl Ht]. rewrite Hq in Hl, Ht. rewrite last_snoc in Ht. cbn in Ht.
  destruct (lseg_in _ _ _ t Hl ltac:(set_solver)) as [Ht0 _]. assert (Hq0 : queue s i <> 0) by (rewrite (rep_queue_nil _ _ _ Hr Hb), Hq; by destruct l).
  unfold ResumeTask. rewrite (bind_step _ _ _ _ _ (FindTask_rep _ _ _ Hr Hc)), Hf, (proj2 (Z.eqb_neq _ _) Ht0), (get_step _ _ _ _ Hx), bool_decide_eq_true_2 by done.
  rewrite (upd_step _ _ _ _ _ Hx). set (x1 := set_state TASK_READY x). set (s1 := set_th _ s). assert (Hx1 : th s1 !! t = Some x1) by apply lookup_insert_eq.
  unfold AddToReadyQueue. rewrite (proj2 (Z.eqb_neq _ _) Ht0), bind_assoc, (upd_step _ _ _ _ _ Hx1), bind_assoc. erewrite upd_step by apply lookup_insert_eq. rewrite bind_assoc. erewrite get_step by apply lookup_insert_eq.
  cbn [set_next set_state priority x1]. rewrite <-Hi, bind_assoc, gets_step. change (queue (set_th _ _) i) with (queue s i). rewrite (proj2 (Z.eqb_neq _ _) Hq0), bind_assoc, gets_step.
  change (tail (set_th _ _) i) with (tail s i). rewrite Ht, bind_assoc. erewrite upd_step by apply lookup_insert_eq. rewrite modify_step. eexists. split; [reflexivity|]. set (s' := set_tail _ _ _).
  assert (Hn : next <$> th s' !! t = Some t) by (subst s'; cbn; by rewrite lookup_insert_eq). split; [exact Hn|]. intros a' Ea Hr'. destruct (rep_q _ _ Hr' i Hb) as [Hl' _]. rewrite Ea, Hq in Hl'.
  rewrite <-(app_nil_r (l ++ [t])) in Hl'. destruct (lseg_link _ _ _ _ _ Hl') as (y & Hy & Hny). rewrite Hy in Hn. injection Hn as Hn. cbn in Hny. congruence.
Qed.

(** [SleepTask] of a thread that waits in a queue links it into the list of
    sleepers where it is: the threads behind it are no longer in the queue. *)
Theorem SleepTask_cuts_queue s a id ms t x i l y r :
  rep s a -> cur_ok a -> find_id a id (known a) = t -> th s !! t = Some x -> state x <> TASK_TERMINATED ->
  0 <= i < 5 -> a_q a i = l ++ t :: y :: r ->
  exists s', SleepTask id ms s = Some (true, s') /\ next <$> th s' !! t = Some (sleeping_tasks s) /\ sleeping_tasks s' = t /\ queue s' i = queue s i /\
    forall a', a_q a' i = a_q a i -> ~ rep s' a'.
Proof.
  intros Hr Hc Hf Hx Hst Hb Hq. assert (Hin : t ∈ a_q a i) by (rewrite Hq; set_solver). destruct (lseg_in _ _ _ t (proj1 (rep_q _ _ Hr i Hb)) Hin) as [Ht0 _].
  assert (Htk : t ∈ tasks a) by (apply elem_of_app; left; by eapply all_q_in). assert (Htc : t <> current_task s) by (intros ->; rewrite <-(rep_cur _ _ Hr) in *; by destruct (Hc Ht0)).
  assert (Ha : alive a id = t) by (unfold alive; rewrite Hf; unfold state_is; rewrite (rep_lookup _ _ _ Hr), Hx, bool_decide_eq_false_2 by (destruct x; naive_solver); by rewrite andb_false_r).
  unfold SleepTask. rewrite (bind_step _ _ _ _ _ (proj1 (find_alive_rep s a id Hr Hc))), Ha, (proj2 (Z.eqb_neq _ _) Ht0). erewrite (upd3_step _ _ (fun tick => set_sleep _) set_next) by exact Hx.
  rewrite modify_step, gets_step. cbn [current_task set_sleeping set_th set_k]. rewrite (proj2 (Z.eqb_neq _ _) Htc). eexists. split; [reflexivity|]. set (s' := set_sleeping _ _).
  assert (Hn : next <$> th s' !! t = Some (sleeping_tasks s)) by (subst s'; cbn; by rewrite lookup_insert_eq). split_and!; [done..|]. intros a' Ea Hr'. destruct (rep_q _ _ Hr' i Hb) as [Hl' _]. rewrite Ea, Hq in Hl'.
  replace (l ++ t :: y :: r) with ((l ++ [t]) ++ y :: r) in Hl' by (by rewrite <-app_assoc). destruct (lseg_link _ _ _ _ _ Hl') as (z & Hz & Hnz). rewrite Hz in Hn. injection Hn as Hn. cbn in Hnz.
  rewrite (lseg_head _ _ _ (rep_sl _ _ Hr)) in Hn. rewrite Hnz in Hn. assert (Hy : y ∈ a_q a i) by (rewrite Hq; set_solver). destruct (lseg_in _ _ _ y (proj1 (rep_q _ _ Hr i Hb)) Hy) as [Hy0 _].
  destruct (tasks_disjoint a i y (rep_nodup _ _ Hr) Hb Hy) as [Hys _]. destruct (a_sl a) as [|w sl]; cbn in Hn; [done|]. apply Hys. rewrite Hn. by left.
Qed.

(** *** Creating and killing threads *)

(** Every thread object is a region the heap has handed out. *)
Definition owned s (l : list block) : Prop := forall q, is_Some (th s !! q) -> exists n, (q, n) ∈ live l.

Lemma rep_new s a p t k :
  rep s a -> th s !! p = None -> next t = 0 -> k_threads k = <[p := t]> (th s) ->
  rep (set_k k s) (mk_abs (<[p := t]> (a_th a)) (a_q a) (a_sl a) (a_cur a) (a_tick a) (a_on a)) /\ p ∉ tasks a.
Proof.
  intros Hr Hp Hn Hk. assert (Hnt : p ∉ tasks a).
  { intros Hin. destruct (known_nonzero s a p Hr Hin) as [_ [? ?]]. congruence. }
  split; [|done]. destruct Hr as [H1 H2 H3 H4 H5 H6 H7].
  assert (Hth : th (set_k k s) = <[p := t]> (th s)) by done.
  assert (Hrest : forall x, x <> p -> next <$> th (set_k k s) !! x = next <$> th s !! x).
  { intros x Hx. rewrite Hth. by rewrite lookup_insert_ne. }
  split; try done; cbn.
  - rewrite Hth, fmap_insert, H1. destruct t; cbn in *; by subst.
  - intros i Hi. destruct (H2 i Hi) as [Hl ?]. split; [|done]. eapply lseg_ext; [|exact Hl].
    intros x Hx. apply Hrest. intros ->. apply Hnt, elem_of_app. left. by eapply all_q_in.
  - eapply lseg_ext; [|exact H3]. intros x Hx. apply Hrest. intros ->. apply Hnt, elem_of_app. by right.
Qed.

(** [CreateTask] returns; it yields 0 only when memory is exhausted, and
    otherwise the address of a new thread object with the next task id, a
    stack of its own and a context that starts at the entry point, placed at
    the end of the ready queue of its priority; nothing else on the lists
    changes, and objects and stacks remain disjoint live heap regions. *)
Theorem CreateTask_spec s a l ep sz prio nm :
  rep s a -> wf (k_heap (sc_k s)) l -> owned s l -> 4 <= sz ->
  g_heapEnd (k_heap (sc_k s)) + 2 * (sz + SIZEOF_THREAD) + 9000 <= 2 ^ 32 ->
  exists p s' l', CreateTask ep sz prio nm s = Some (p, s') /\ wf (k_heap (sc_k s')) l' /\
    ((p = 0 /\ exhausted (h_supply (k_heap (sc_k s')))) \/
     exists b a', th s !! p = None /\ rep s' a' /\ owned s' l' /\
       live l' ≡ₚ (b, sz) :: (p, SIZEOF_THREAD) :: live l /\
       a_th a' !! p = Some (created (next_task_id s) ep sz prio nm b) /\
       (forall q, q <> p -> a_th a' !! q = a_th a !! q) /\
       a_q a' = <[queue_of prio := a_q a (queue_of prio) ++ [p]]> (a_q a) /\ a_sl a' = a_sl a).
Proof.
  intros Hr Hwf Hown Hsz Hend. unfold CreateTask. rewrite gets_step, modify_step. set (s0 := set_next_id _ s).
  destruct (CreateThread_ok (sc_k s) l (next_task_id s) ep sz prio nm Hwf Hsz Hend) as (p & k' & l' & E & Hwf' & Hcase).
  assert (Ek : on_k (CreateThread (next_task_id s) ep sz prio nm) s0 = Some (p, set_k k' s0)).
  { unfold on_k, zoom. cbn. by rewrite E. }
  rewrite (bind_step _ _ _ _ _ Ek). destruct Hcase as [[-> Hex]|(b & Hlv & Hpnz & Ht & _)].
  { eexists 0, _, l'. split; [done|]. split; [done|]. by left. }
  assert (Hfresh : th s !! p = None).
  { destruct (th s !! p) eqn:Hp; [|done]. exfalso. destruct (Hown p ltac:(eauto)) as (n & Hin).
    destruct (core_regions _ l' (proj1 Hwf')) as [Hpw Hb]. rewrite Hlv in Hpw. destruct Hpw as (_ & Hap & _).
    specialize (Hap _ Hin). unfold apart, SIZEOF_THREAD in Hap. cbn in Hap.
    destruct (Hb p n) as (_ & ? & _); [rewrite Hlv; right; by right|]. lia. }
  destruct (Z.eqb_spec p 0); [done|]. set (t := created _ _ _ _ _ b) in *.
  assert (Hr0 : rep s0 a) by (destruct Hr; by split).
  destruct (rep_new s0 a p t k' Hr0 Hfresh eq_refl Ht) as [Hr1 Hnt]. set (a1 := mk_abs _ _ _ _ _ _) in *.
  assert (Ha1 : a_th a1 !! p = Some t) by apply lookup_insert_eq.
  destruct (AddToReadyQueue_rep (set_k k' s0) a1 p Hr1 Hnt Hpnz ltac:(eauto)) as (s2 & E2 & Hr2 & Hh2 & _).
  rewrite (bind_step _ _ _ _ _ E2). eexists p, s2, l'. split; [done|]. rewrite Hh2. split; [done|]. right.
  assert (Hpo : prio_of (a_upd p (set_state TASK_READY) a1) p = queue_of prio).
  { rewrite prio_upd by (by intros []). unfold prio_of. by rewrite Ha1. }
  exists b, (spec_add p a1). split_and!; try done.
  - intros q Hq. assert (Hq' : is_Some (a_th (spec_add p a1) !! q)).
    { rewrite (rep_lookup _ _ _ Hr2). by apply fmap_is_Some. }
    cbn in Hq'. rewrite lookup_alter_is_Some in Hq'. destruct (decide (q = p)) as [->|Hne].
    + exists SIZEOF_THREAD. rewrite Hlv. right. by left.
    + rewrite lookup_insert_ne, (rep_lookup _ _ _ Hr) in Hq' by done. apply fmap_is_Some in Hq'.
      destruct (Hown q Hq') as (n' & ?). exists n'. rewrite Hlv. right. by right.
  - cbn. by rewrite lookup_alter_eq, lookup_insert_eq.
  - intros q Hq. cbn. by rewrite lookup_alter_ne, lookup_insert_ne.
  - unfold spec_add. cbn [a_q a_set_q]. by rewrite Hpo.
Qed.

Lemma on_k_step {A B} (c : ST (kst S) A) (f : A -> ST (sched S) B) s x k :
  c (sc_k s) = Some (x, k) -> bind (on_k c) f s = f x (set_k k s).
Proof. intros E. apply bind_step. unfold on_k, zoom. by rewrite E. Qed.

(** Killing a thread that waits in a ready queue releases its stack and
    marks it terminated but leaves it in the queue, so that it is dispatched
    later with no stack. *)
Theorem KillTask_leaves_queued s a l id t x n :
  rep s a -> cur_ok a -> wf (k_heap (sc_k s)) l -> find_id a id (known a) = t -> t ∈ all_q (a_q a) ->
  th s !! t = Some x -> state x <> TASK_TERMINATED -> stack_base x <> 0 -> (stack_base x, n) ∈ live l ->
  exists s' a' l', KillTask id s = Some (true, s') /\ rep s' a' /\ wf (k_heap (sc_k s')) l' /\
    live l ≡ₚ (stack_base x, n) :: live l' /\ a_q a' = a_q a /\ a_cur a' = a_cur a /\
    exists x', th s' !! t = Some x' /\ state x' = TASK_TERMINATED /\ stack_base x' = 0.
Proof.
  intros Hr Hc Hwf Hfind Hq Hx Hst Hsb Hlive.
  assert (Hin : t ∈ tasks a) by (apply elem_of_app; by left).
  destruct (known_nonzero s a t Hr Hin) as [Ht0 _].
  assert (Htc : t <> current_task s).
  { intros ->. rewrite <-(rep_cur _ _ Hr) in *. by destruct (Hc Ht0). }
  unfold KillTask, find_alive. rewrite bind_assoc, (bind_step _ _ _ _ _ (FindTask_rep _ _ _ Hr Hc)), Hfind.
  destruct (Z.eqb_spec t 0); [done|]. rewrite bind_assoc, (get_step _ _ _ _ Hx). erewrite bind_step by reflexivity.
  rewrite bool_decide_eq_false_2 by done. destruct (Z.eqb_spec t 0); [done|].
  rewrite (upd_step _ _ _ _ _ Hx), gets_step. pose proof (rep_upd _ _ _ _ _ Hr (kl_state TASK_TERMINATED) Hx) as Hr1.
  set (s1 := set_th _ s) in *. change (current_task s1) with (current_task s).
  destruct (Z.eqb_spec t (current_task s)); [done|].
  assert (Hx1 : th s1 !! t = Some (set_state TASK_TERMINATED x)) by apply lookup_insert_eq.
  rewrite !bind_assoc, (get_step _ _ _ _ Hx1). cbn [stack_base set_state].
  destruct (Z.eqb_spec (stack_base x) 0); [done|].
  destruct (Free_ok (k_heap (sc_k s1)) l (stack_base x) n Hwf Hlive) as (h' & l' & E & Hwf' & Hlv & _).
  assert (Ef : on_heap (Free (stack_base x)) (sc_k s1) = Some (tt, set_heap h' (sc_k s1))).
  { unfold on_heap, zoom. by rewrite E. }
  rewrite !bind_assoc, (on_k_step _ _ _ _ _ Ef). set (s2 := set_k _ s1).
  assert (Hr2 : rep s2 (a_upd t (set_state TASK_TERMINATED) a)) by (by apply rep_heap).
  assert (Hx2 : th s2 !! t = Some (set_state TASK_TERMINATED x)) by done.
  set (g := set_stack 0 (stack_size x)). change (stack_size (set_state _ x)) with (stack_size x). fold g.
  assert (Hg : keeps_link g) by (split; by intros []).
  pose proof (rep_upd _ _ _ _ _ Hr2 Hg Hx2) as Hr3. rewrite (upd_step _ _ _ _ _ Hx2). set (s3 := set_th _ s2) in *.
  assert (Hx3 : th s3 !! t = Some (g (set_state TASK_TERMINATED x))) by apply lookup_insert_eq.
  assert (Ed : delete_thread t (sc_k s3) =
    Some (tt, set_threads (<[t := set_state TASK_TERMINATED (g (set_state TASK_TERMINATED x))]> (th s3)) (sc_k s3))).
  { unfold delete_thread, Cleanup, FreeStack. rewrite bind_assoc, (thread_at_step _ _ _ _ Hx3).
    cbn [g set_stack stack_base Z.eqb]. erewrite bind_step by reflexivity. unfold update_thread.
    unfold th in Hx3. by rewrite Hx3. }
  rewrite (on_k_step _ _ _ _ _ Ed).
  pose proof (rep_upd _ _ _ _ _ Hr3 (kl_state TASK_TERMINATED) Hx3) as Hr4.
  eexists _, _, l'. split; [done|]. split; [exact Hr4|]. split_and!; try done.
  eexists. split; [apply lookup_insert_eq|done].
Qed.
End Refine.

(** * Concrete runs *)

(** One thread running at the end of its slice, one ready, one asleep. *)
Definition demo_thread (id : Z) (st : TaskState) (stk : Z) : Thread :=
  mk_thread id st PRIORITY_NORMAL demo_ctx stk 100 1 50 0 "demo" 0.
Definition demo_threads : gmap Z Thread :=
  <[0x100 := demo_thread 1 TASK_RUNNING 0]> (<[0x200 := demo_thread 2 TASK_READY 0x2000020]>
    (<[0x300 := demo_thread 3 TASK_SLEEPING 0]> ∅)).
Definition demo_sched : sched Paging.paging :=
  mk_sched (mk_kst demo_threads demo_heap1) 0x100 (<[2 := 0x200]> ∅) (<[2 := 0x200]> ∅) 0x300 4 10 true.
Definition demo_abs : abs :=
  mk_abs (erase <$> demo_threads) (<[2 := [0x200]]> (fun _ => [])) [0x300] 0x100 10 true.

Lemma demo_rep : rep demo_sched demo_abs.
Proof.
  split; try reflexivity.
  - intros i Hi. assert (i = 0 \/ i = 1 \/ i = 2 \/ i = 3 \/ i = 4) as [->|[->|[->|[->| ->]]]] by lia;
      (split; [|reflexivity]); try reflexivity.
    split_and!; [reflexivity|discriminate|]. eexists. split; reflexivity.
  - split_and!; [reflexivity|discriminate|]. eexists. split; reflexivity.
  - change (NoDup [0x200; 0x300]). apply NoDup_cons. split; [by intros [=]%list_elem_of_singleton|].
    apply NoDup_singleton.
Qed.

Lemma demo_cur_ok : cur_ok demo_abs.
Proof.
  intros _. split; [|eexists; reflexivity]. change (0x100 ∉ [0x200; 0x300]).
  by intros [[=]|[=]%list_elem_of_singleton]%elem_of_cons.
Qed.

Lemma demo_sorted : sorted demo_abs.
Proof.
  intros i t Hi Ht. change ((<[2 := [0x200]]> (fun _ : Z => [])) i) with (a_q demo_abs i) in Ht.
  unfold demo_abs in Ht. cbn [a_q] in Ht. rewrite insert_q_lookup in Ht. destruct (decide (2 = i)) as [<-|].
  - apply list_elem_of_singleton in Ht as ->. reflexivity.
  - by apply elem_of_nil in Ht.
Qed.

Lemma scheduler_refines_witness :
  exists s' sp' s2, Yield demo_sched = Some (tt, s') /\ rep s' (spec_yield demo_abs) /\ OnTimerTick 0x2000800 demo_sched = Some (sp', s2).
Proof.
  destruct (scheduler_refines demo_sched demo_abs demo_rep demo_cur_ok) as (_ & (s' & E & Hr & _) & _ & _ & _ & _ & _ & _ & Ht).
  destruct (Ht 0x2000800) as (sp' & m' & s2 & a' & _ & E2 & _). exists s', sp', s2. split; [exact E|]. split; [exact Hr|exact E2].
Defined.

Lemma Schedule_highest_priority_witness :
  exists s' a', Schedule demo_sched = Some (tt, s') /\ rep s' a' /\ known a' ≡ₚ known demo_abs.
Proof.
  destruct (Schedule_highest_priority demo_sched demo_abs demo_rep demo_cur_ok demo_sorted eq_refl)
    as (s' & a' & E & Hr & _ & Hk & _).
  - right. reflexivity.
  - exists s', a'. split; [exact E|]. split; [exact Hr|exact Hk].
Defined.

Lemma ProcessSleepingTasks_spec_witness :
  exists s' a', ProcessSleepingTasks demo_sched = Some (tt, s') /\ rep s' a' /\ a_sl a' = [0x300].
Proof.
  destruct (ProcessSleepingTasks_spec demo_sched demo_abs demo_rep) as (s' & a' & E & Hr & Hsl & _).
  exists s', a'. split; [exact E|]. split; [exact Hr|]. rewrite Hsl. reflexivity.
Defined.

Lemma UnblockTask_lost_witness :
  exists s', BlockCurrentTask demo_sched = Some (tt, s') /\ UnblockTask 1 s' = Some (tt, s').
Proof.
  destruct (UnblockTask_lost demo_sched demo_abs demo_rep demo_cur_ok eq_refl) as (s' & a' & E & _ & _ & Eu).
  - discriminate.
  - intros t Ht. change (t ∈ [0x200; 0x300]) in Ht. apply elem_of_cons in Ht as [->|Ht]; [discriminate|].
    apply list_elem_of_singleton in Ht as ->. discriminate.
  - exists s'. split; [exact E|exact Eu].
Defined.

Lemma OnTimerTick_loses_thread_witness :
  exists sp' s' a' t, OnTimerTick 0x2000800 demo_sched = Some (sp', s') /\ rep s' a' /\
    known demo_abs ≡ₚ t :: known a'.
Proof.
  destruct (OnTimerTick_loses_thread demo_sched demo_abs 0x2000800 (demo_thread 1 TASK_RUNNING 0)
    demo_rep demo_cur_ok eq_refl) as (sp' & s' & a' & t & j & r & E & Hr & _ & _ & Hk & _);
    [discriminate|reflexivity|cbn; lia|discriminate|].
  exists sp', s', a', t. split; [exact E|]. split; [exact Hr|exact Hk].
Defined.

Lemma CreateTask_spec_witness :
  exists p s' l', CreateTask 0x101000 1024 PRIORITY_HIGH "demo" (Scheduler_new (mk_kst ∅ demo_heap)) = Some (p, s') /\
    wf (k_heap (sc_k s')) l'.
Proof.
  destruct (CreateTask_spec (Scheduler_new (mk_kst ∅ demo_heap)) (mk_abs ∅ (fun _ => []) [] 0 0 false)
    demo_blocks 0x101000 1024 PRIORITY_HIGH "demo") as (p & s' & l' & E & Hwf & _).
  - split; try reflexivity. + intros i Hi. split; reflexivity. + apply NoDup_nil. exact I.
  - exact demo_heap_wf.
  - intros q [x Hq]. discriminate Hq.
  - lia.
  - cbn. unfold SIZEOF_THREAD. lia.
  - exists p, s', l'. split; [exact E|exact Hwf].
Defined.

Lemma KillTask_leaves_queued_witness :
  exists s' a', KillTask 2 demo_sched = Some (true, s') /\ rep s' a' /\ a_q a' = a_q demo_abs.
Proof.
  destruct (KillTask_leaves_queued demo_sched demo_abs demo_blocks1 2 0x200 (demo_thread 2 TASK_READY 0x2000020) 100
    demo_rep demo_cur_ok demo_heap1_wf) as (s' & a' & l' & E & Hr & _ & _ & Hq & _);
    [reflexivity|by left|reflexivity|discriminate|discriminate|exact demo_live1|].
  exists s', a'. split; [exact E|]. split; [exact Hr|exact Hq].
Defined.

(** Two threads in a queue, the second one suspended. *)
Definition demo_threads2 : gmap Z Thread :=
  <[0x100 := demo_thread 1 TASK_RUNNING 0]> (<[0x200 := set_next 0x400 (demo_thread 2 TASK_READY 0)]>
    (<[0x400 := demo_thread 4 TASK_SUSPENDED 0]> ∅)).
Definition demo_sched2 : sched Paging.paging :=
  mk_sched (mk_kst demo_threads2 demo_heap1) 0x100 (<[2 := 0x200]> ∅) (<[2 := 0x400]> ∅) 0 5 10 true.
Definition demo_abs2 : abs :=
  mk_abs (erase <$> demo_threads2) (<[2 := [0x200; 0x400]]> (fun _ => [])) [] 0x100 10 true.

Lemma demo_rep2 : rep demo_sched2 demo_abs2.
Proof.
  split; try reflexivity.
  - intros i Hi. assert (i = 0 \/ i = 1 \/ i = 2 \/ i = 3 \/ i = 4) as [->|[->|[->|[->| ->]]]] by lia;
      (split; [|reflexivity]); try reflexivity.
    split_and!; [reflexivity|discriminate|]. eexists. split; [reflexivity|]. split_and!; [reflexivity|discriminate|]. eexists. split; reflexivity.
  - change (NoDup [0x200; 0x400]). apply NoDup_cons. split; [by intros [=]%list_elem_of_singleton|]. apply NoDup_singleton.
Qed.

Lemma demo_cur_ok2 : cur_ok demo_abs2.
Proof.
  intros _. split; [|eexists; reflexivity]. change (0x100 ∉ [0x200; 0x400]).
  by intros [[=]|[=]%list_elem_of_singleton]%elem_of_cons.
Qed.

Lemma ResumeTask_loops_witness : exists s', ResumeTask 4 demo_sched2 = Some (true, s') /\ next <$> th s' !! 0x400 = Some 0x400.
Proof.
  destruct (ResumeTask_loops demo_sched2 demo_abs2 4 0x400 (demo_thread 4 TASK_SUSPENDED 0) 2 [0x200] demo_rep2 demo_cur_ok2) as (s' & E & Hn & _); [reflexivity..|].
  exists s'. split; [exact E|exact Hn].
Defined.

Lemma SleepTask_cuts_queue_witness : exists s', SleepTask 2 50 demo_sched2 = Some (true, s') /\ queue s' 2 = 0x200 /\ next <$> th s' !! 0x200 = Some 0.
Proof.
  destruct (SleepTask_cuts_queue demo_sched2 demo_abs2 2 50 0x200 (set_next 0x400 (demo_thread 2 TASK_READY 0)) 2 [] 0x400 [] demo_rep2 demo_cur_ok2) as (s' & E & Hn & _ & Hq & _); [reflexivity|reflexivity|discriminate|lia|reflexivity|].
  exists s'. split; [exact E|]. split; [exact Hq|exact Hn].
Defined.
