(* ===== verification/Sync.v ===== *)
(** Synchronisation objects: [src/kernel/src/process/sync.cpp] and the lock
    guard of [src/kernel/include/process/sync.hpp].

    An operation runs in a state with the installed scheduler, [None] for a
    null [g_scheduler], and the object itself.  [Yield] does not switch
    threads, it only changes [current_task], so a loop that yields sees the
    object change only through other threads: the runs of one thread are the
    functions below, the interleavings are the step relations at the end. *)
From S2P Require Import Prelude Memory Heap Thread Scheduler.

Record Mutex := mk_mutex { owner_thread_id : Z; m_waiting : Z; locked : bool }.
Record Semaphore := mk_sem { count : Z; max_count : Z; s_waiting : Z }.
Record ConditionVariable := mk_cv { c_waiting : Z }.

Definition Mutex_new : Mutex := mk_mutex 0 0 false.
Definition Semaphore_new (initial_count maximum : Z) : Semaphore := mk_sem initial_count maximum 0.
Definition ConditionVariable_new : ConditionVariable := mk_cv 0.

(** One pass of the loop of [Lock], which is also the body of [TryLock]:
    whether the caller [me] now holds the mutex. *)
Definition lock_pass (me : Z) (m : Mutex) : bool * Mutex :=
  if negb (locked m) then (true, mk_mutex me (m_waiting m) true)
  else if owner_thread_id m =? me then (true, m)
  else (false, m).

(** The part of [Unlock] on the fields. *)
Definition unlock_fields (me : Z) (m : Mutex) : bool * Mutex :=
  if negb (owner_thread_id m =? me) then (false, m)
  else (true, mk_mutex 0 (m_waiting m) false).

Section Model.
Context {S : Type} `{PageSupply S}.

(** The scheduler and the object an operation works on. *)
Definition sync (X : Type) : Type := (option (sched S) * X)%type.

Definition obj {X} : ST (sync X) X := gets snd.
Definition put {X} (x : X) : ST (sync X) unit := modify (fun s => (fst s, x)).
Definition on_sched {X A} (dflt : A) (c : ST (sched S) A) : ST (sync X) A :=
  fun s => match fst s with
           | None => Some (dflt, s)
           | Some g => match c g with Some (a, g') => Some (a, (Some g', snd s)) | None => None end
           end.
Definition has_scheduler {X} : ST (sync X) bool := gets (fun s => if fst s is Some _ then true else false).

(** The id of the current thread, 0 without one. *)
Definition current_thread {X} : ST (sync X) Z := on_sched 0 API_GetCurrentThreadId.

(** [waiting_queue] popped and its first thread unblocked: the tail shared by
    [Unlock], [Signal] and [Broadcast]; returns the rest of the queue. *)
Definition wake_first {X} (w : Z) : ST (sync X) Z :=
  if w =? 0 then ret 0
  else
    let! t := on_sched Thread_new (get w) in
    on_sched tt (UnblockTask (task_id t));;;
    ret (next t).

Fixpoint lock_loop (fuel : nat) (me : Z) : ST (sync Mutex) unit :=
  match fuel with
  | O => stuck
  | Datatypes.S fuel' =>
      let! m := obj in
      let '(ok, m') := lock_pass me m in
      put m';;;
      if ok then ret tt else on_sched tt Yield;;; lock_loop fuel' me
  end.

(** [Mutex::Lock]; [fuel] is the number of passes after which another thread
    would have to release the mutex. *)
Definition Lock (fuel : nat) : ST (sync Mutex) unit :=
  let! g := has_scheduler in
  if negb g then ret tt else let! me := current_thread in lock_loop fuel me.

Definition TryLock : ST (sync Mutex) bool :=
  let! g := has_scheduler in
  if negb g then ret false
  else
    let! me := current_thread in
    let! m := obj in
    let '(ok, m') := lock_pass me m in
    put m';;; ret ok.

Definition Unlock : ST (sync Mutex) unit :=
  let! g := has_scheduler in
  if negb g then ret tt
  else
    let! me := current_thread in
    let! m := obj in
    let '(ok, m') := unlock_fields me m in
    put m';;;
    if negb ok then ret tt
    else
      let! w := wake_first (m_waiting m) in
      put (mk_mutex (owner_thread_id m') w (locked m')).

(** [LockGuard]: the lock is held around [body]. *)
Definition with_lock {A} (fuel : nat) (body : ST (sync Mutex) A) : ST (sync Mutex) A :=
  Lock fuel;;; let! a := body in Unlock;;; ret a.

Fixpoint wait_loop (fuel : nat) : ST (sync Semaphore) unit :=
  match fuel with
  | O => stuck
  | Datatypes.S fuel' =>
      let! s := obj in
      if 0 <? count s then put (mk_sem (count s - 1) (max_count s) (s_waiting s))
      else on_sched tt Yield;;; wait_loop fuel'
  end.
Definition Sem_Wait (fuel : nat) : ST (sync Semaphore) unit :=
  let! g := has_scheduler in if negb g then ret tt else wait_loop fuel.

Definition Sem_TryWait : ST (sync Semaphore) bool :=
  let! g := has_scheduler in
  if negb g then ret false
  else
    let! s := obj in
    if 0 <? count s then put (mk_sem (count s - 1) (max_count s) (s_waiting s));;; ret true
    else ret false.

Definition Sem_Signal : ST (sync Semaphore) unit :=
  let! g := has_scheduler in
  if negb g then ret tt
  else
    let! s := obj in
    if count s <? max_count s then
      put (mk_sem (count s + 1) (max_count s) (s_waiting s));;;
      let! w := wake_first (s_waiting s) in
      put (mk_sem (count s + 1) (max_count s) w)
    else ret tt.

(** [ConditionVariable::Wait]: the queue of the variable is not touched. *)
Definition CV_Wait (fuel : nat) : ST (sync Mutex) unit :=
  let! g := has_scheduler in
  if negb g then ret tt else Unlock;;; on_sched tt Yield;;; Lock fuel.

Definition CV_Signal : ST (sync ConditionVariable) unit :=
  let! g := has_scheduler in
  if negb g then ret tt
  else
    let! c := obj in
    let! w := wake_first (c_waiting c) in
    put (mk_cv w).

Fixpoint broadcast_loop (fuel : nat) : ST (sync ConditionVariable) unit :=
  let! c := obj in
  if c_waiting c =? 0 then ret tt
  else match fuel with
  | O => stuck
  | Datatypes.S fuel' => let! w := wake_first (c_waiting c) in put (mk_cv w);;; broadcast_loop fuel'
  end.
Definition CV_Broadcast (fuel : nat) : ST (sync ConditionVariable) unit :=
  let! g := has_scheduler in if negb g then ret tt else broadcast_loop fuel.

(** [Mutex::~Mutex], [~Semaphore] and [~ConditionVariable] drain the queue. *)
Fixpoint drain {X} (fuel : nat) (w : Z) : ST (sync X) unit :=
  if w =? 0 then ret tt
  else match fuel with
  | O => stuck
  | Datatypes.S fuel' => let! w' := wake_first w in drain fuel' w'
  end.
End Model.

(** * Threads that share a mutex *)

(** Each pass of [Lock] and each [Unlock] runs without preemption; the state
    is the mutex and the set of threads that hold it. *)
Inductive mstep : Mutex * gset Z -> Mutex * gset Z -> Prop :=
  | step_acquire me m m' hs :
      0 < me -> me ∉ hs -> lock_pass me m = (true, m') -> mstep (m, hs) (m', {[me]} ∪ hs)
  | step_wait me m m' hs :
      0 < me -> lock_pass me m = (false, m') -> mstep (m, hs) (m', hs)
  | step_reenter me m m' hs :
      me ∈ hs -> lock_pass me m = (true, m') -> mstep (m, hs) (m', hs)
  | step_release me m hs :
      me ∈ hs -> mstep (m, hs) (snd (unlock_fields me m), hs ∖ {[me]})
  | step_stray_unlock me m hs :
      0 < me -> me ∉ hs -> mstep (m, hs) (snd (unlock_fields me m), hs).

Definition mutex_inv (s : Mutex * gset Z) : Prop :=
  (locked s.1 = false /\ owner_thread_id s.1 = 0 /\ s.2 = ∅) \/
  (locked s.1 = true /\ 0 < owner_thread_id s.1 /\ s.2 = {[owner_thread_id s.1]}).

Lemma mstep_inv s s' : mutex_inv s -> mstep s s' -> mutex_inv s'.
Proof.
  intros Hi Hs. destruct Hs as [me m m' hs Hme Hin E|me m m' hs Hme E|me m m' hs Hin E|me m hs Hin|me m hs Hme Hin];
    unfold mutex_inv in *; cbn [fst snd] in *; unfold lock_pass, unlock_fields in *.
  - destruct Hi as [(Hl & Ho & ->)|(Hl & Ho & ->)]; rewrite Hl in E; cbn in E.
    + injection E as <-. right. cbn. split_and!; [done|done|set_solver].
    + destruct (Z.eqb_spec (owner_thread_id m) me) as [Eo|]; [set_solver|done].
  - destruct Hi as [(Hl & Ho & ->)|(Hl & Ho & ->)]; rewrite Hl in E; cbn in E; [done|].
    destruct (_ =? me); simplify_eq; by right.
  - destruct Hi as [(Hl & Ho & ->)|(Hl & Ho & ->)]; rewrite Hl in E; cbn in E; [exfalso; set_solver|].
    destruct (_ =? me); simplify_eq; by right.
  - destruct Hi as [(Hl & Ho & ->)|(Hl & Ho & ->)]; [exfalso; set_solver|]. apply elem_of_singleton in Hin as ->.
    rewrite Z.eqb_refl. cbn. left. split_and!; [done|done|set_solver].
  - destruct Hi as [(Hl & Ho & ->)|(Hl & Ho & ->)]; destruct (Z.eqb_spec (owner_thread_id m) me) as [E|E];
      cbn; [exfalso; lia|by left|exfalso; set_solver|by right].
Qed.

(** C40: If a pass of [Lock] and an [Unlock] are never interrupted, at most one
    thread holds the mutex in every reachable state, whatever the other
    threads do: they may try to lock it, re-enter it or call [Unlock] without
    holding it; and the mutex is locked exactly when it is held. *)
Theorem mutex_exclusion m hs :
  rtc mstep (Mutex_new, ∅) (m, hs) -> (size hs <= 1)%nat /\ (locked m = true <-> hs <> ∅).
Proof.
  intros Hr. assert (Hi : mutex_inv (m, hs)).
  { revert Hr. apply (rtc_ind_r (fun s => mutex_inv s)); [by left|]. intros s s' _ Hs Hi. by eapply mstep_inv. }
  destruct Hi as [(Hl & Ho & Hh)|(Hl & Ho & Hh)]; cbn in *; subst; rewrite Hl.
  - rewrite size_empty. split; [lia|]. split; [done|]. by intros [].
  - rewrite size_singleton. split; [lia|]. split; [|done]. intros _. set_solver.
Qed.

(** ** Preemption inside the operations

    The loads and stores of [Lock] (lines 31 to 38) and [Unlock] (lines 76 to
    81) as separate steps: between any two of them the timer may hand the
    processor to another thread. *)

Inductive pc := Outside | AtTest | SawFree | StoredLocked | SawTaken | Inside | SawOwner | ClearedLocked.

Inductive fstep : Mutex * (Z -> pc) -> Mutex * (Z -> pc) -> Prop :=
  | f_enter i m f : f i = Outside -> fstep (m, f) (m, fun j => if j =? i then AtTest else f j)
  | f_test_free i m f : f i = AtTest -> locked m = false ->
      fstep (m, f) (m, fun j => if j =? i then SawFree else f j)
  | f_test_taken i m f : f i = AtTest -> locked m = true ->
      fstep (m, f) (m, fun j => if j =? i then SawTaken else f j)
  | f_store_locked i m f : f i = SawFree ->
      fstep (m, f) (mk_mutex (owner_thread_id m) (m_waiting m) true, fun j => if j =? i then StoredLocked else f j)
  | f_store_owner i m f : f i = StoredLocked ->
      fstep (m, f) (mk_mutex i (m_waiting m) (locked m), fun j => if j =? i then Inside else f j)
  | f_mine i m f : f i = SawTaken -> owner_thread_id m = i ->
      fstep (m, f) (m, fun j => if j =? i then Inside else f j)
  | f_retry i m f : f i = SawTaken -> owner_thread_id m <> i ->
      fstep (m, f) (m, fun j => if j =? i then AtTest else f j)
  | f_unlock i m f : f i = Inside -> owner_thread_id m = i ->
      fstep (m, f) (m, fun j => if j =? i then SawOwner else f j)
  | f_unlock_not_owner i m f : f i = Inside -> owner_thread_id m <> i ->
      fstep (m, f) (m, fun j => if j =? i then Outside else f j)
  | f_clear_locked i m f : f i = SawOwner ->
      fstep (m, f) (mk_mutex (owner_thread_id m) (m_waiting m) false, fun j => if j =? i then ClearedLocked else f j)
  | f_clear_owner i m f : f i = ClearedLocked ->
      fstep (m, f) (mk_mutex 0 (m_waiting m) (locked m), fun j => if j =? i then Outside else f j).

(** With preemption between the test of [locked] and the store to it, two
    threads can be inside the critical section at once. *)
Theorem mutex_race :
  exists m f, rtc fstep (Mutex_new, fun _ => Outside) (m, f) /\ f 1 = Inside /\ f 2 = Inside.
Proof.
  eexists _, _. split.
  - eapply rtc_l; [apply (f_enter 1); reflexivity|]. eapply rtc_l; [apply (f_enter 2); reflexivity|].
    eapply rtc_l; [apply (f_test_free 1); reflexivity|]. eapply rtc_l; [apply (f_test_free 2); reflexivity|].
    eapply rtc_l; [apply (f_store_locked 1); reflexivity|]. eapply rtc_l; [apply (f_store_owner 1); reflexivity|].
    eapply rtc_l; [apply (f_store_locked 2); reflexivity|]. eapply rtc_l; [apply (f_store_owner 2); reflexivity|].
    apply rtc_refl.
  - split; reflexivity.
Qed.

(** * Semaphores *)

Section Semaphores.
Context {S : Type} `{PageSupply S}.

Inductive sem_op := OpTryWait | OpSignal.

(** A sequence of operations, by any threads: how many waits succeeded. *)
Fixpoint sem_run (ops : list sem_op) : ST (@sync S Semaphore) Z :=
  match ops with
  | [] => ret 0
  | OpTryWait :: ops' =>
      let! ok := Sem_TryWait in let! n := sem_run ops' in ret (if ok : bool then n + 1 else n)
  | OpSignal :: ops' => Sem_Signal;;; sem_run ops'
  end.

Fixpoint signals (ops : list sem_op) : Z :=
  match ops with
  | [] => 0
  | OpTryWait :: ops' => signals ops'
  | OpSignal :: ops' => signals ops' + 1
  end.

Lemma signals_nonneg ops : 0 <= signals ops.
Proof. induction ops as [|[] ops IH]; cbn [signals]; lia. Qed.

Lemma TryWait_run g c mx :
  Sem_TryWait (Some g, mk_sem c mx 0) = Some (0 <? c, (Some g : option (sched S), mk_sem (if 0 <? c then c - 1 else c) mx 0)).
Proof.
  unfold Sem_TryWait, has_scheduler, obj, put, gets, modify, ret, bind. cbn [fst snd negb count max_count s_waiting].
  by destruct (0 <? c).
Qed.

Lemma Signal_run g c mx :
  Sem_Signal (Some g, mk_sem c mx 0) = Some (tt, (Some g : option (sched S), mk_sem (if c <? mx then c + 1 else c) mx 0)).
Proof.
  unfold Sem_Signal, wake_first, has_scheduler, obj, put, gets, modify, ret, bind.
  cbn [fst snd negb count max_count s_waiting]. by destruct (c <? mx).
Qed.

Lemma sem_run_ok ops g c mx :
  0 <= c <= mx ->
  exists n c', sem_run ops (Some g, mk_sem c mx 0) = Some (n, (Some g, mk_sem c' mx 0)) /\
    0 <= c' <= mx /\ 0 <= n /\ n + c' <= c + signals ops /\ (c + signals ops <= mx -> n + c' = c + signals ops).
Proof.
  revert c. induction ops as [|[] ops IH]; intros c Hc; cbn [sem_run signals]; try pose proof (signals_nonneg ops).
  - exists 0, c. cbn. split_and!; [done|lia..].
  - rewrite (bind_step _ _ _ _ _ (TryWait_run g c mx)). destruct (Z.ltb_spec 0 c).
    + destruct (IH (c - 1)) as (n & c' & E & ? & ? & ? & ?); [lia|]. rewrite (bind_step _ _ _ _ _ E).
      exists (n + 1), c'. split_and!; [done|lia..].
    + destruct (IH c) as (n & c' & E & ? & ? & ? & ?); [lia|]. rewrite (bind_step _ _ _ _ _ E).
      exists n, c'. split_and!; [done|lia..].
  - rewrite (bind_step _ _ _ _ _ (Signal_run g c mx)). destruct (Z.ltb_spec c mx).
    + destruct (IH (c + 1)) as (n & c' & E & ? & ? & ? & ?); [lia|]. rewrite E. exists n, c'. split_and!; [done|lia..].
    + destruct (IH c) as (n & c' & E & ? & ? & ? & ?); [lia|]. rewrite E. exists n, c'. split_and!; [done|lia..].
Qed.

(** For every sequence of [TryWait] and [Signal] calls the count stays
    between 0 and the maximum, no more waits succeed than the initial count
    and the signals allow, and no signal is lost while the maximum is not
    reached. *)
Theorem semaphore_accounting ops g c mx :
  0 <= c <= mx ->
  exists n s', sem_run ops (Some g, Semaphore_new c mx) = Some (n, (Some g, s')) /\
    0 <= count s' <= mx /\ n + count s' <= c + signals ops /\
    (c + signals ops <= mx -> n + count s' = c + signals ops).
Proof.
  intros Hc. destruct (sem_run_ok ops g c mx Hc) as (n & c' & E & ? & ? & ? & ?).
  exists n, (mk_sem c' mx 0). done.
Qed.
End Semaphores.

Lemma mutex_exclusion_witness :
  (size ({[7%Z]} ∪ ∅ : gset Z) <= 1)%nat /\ (locked (mk_mutex 7 0 true) = true <-> ({[7%Z]} ∪ ∅ : gset Z) <> ∅).
Proof.
  apply (mutex_exclusion (mk_mutex 7 0 true) ({[7%Z]} ∪ ∅)). apply rtc_once. apply step_acquire; [lia|set_solver|reflexivity].
Defined.

Lemma semaphore_accounting_witness :
  exists n s', sem_run [OpTryWait; OpSignal; OpTryWait] (Some demo_sched, Semaphore_new 1 2) =
    Some (n, (Some demo_sched, s')) /\ 0 <= count s' <= 2.
Proof.
  destruct (semaphore_accounting [OpTryWait; OpSignal; OpTryWait] demo_sched 1 2) as (n & s' & E & Hb & _); [lia|].
  exists n, s'. split; [exact E|exact Hb].
Defined.
