(* ===== verification/Ipc.v ===== *)
(** What the pipes of [src/kernel/src/process/pipe.cpp] and the message queues
    of [src/kernel/src/process/message_queue.cpp] have in common: heap objects
    that reference each other by address, messages with their bytes in the
    kernel heap, a linked queue of messages guarded by a mutex, and the table
    of the 64 channels of a manager.

    A [node] is a [PipeMessage] or a [QueueMessage], a [chan] a [Pipe] or a
    [MessageQueue]; the fields in which the two classes differ are the
    parameters [H] and [X].  [new] that finds no memory yields the null
    pointer, [delete] runs the destructor and releases no storage
    ([src/kernel/src/lib/newdelete_kernel.cpp]). *)
From S2P Require Import Prelude Memory Strings Heap Thread Scheduler Sync.

Record node (H : Type) := mk_node { n_hdr : H; data_size : Z; data : Z; n_next : Z }.
Arguments mk_node {H}.
Arguments n_hdr {H}.
Arguments data_size {H}.
Arguments data {H}.
Arguments n_next {H}.

Record chan (X : Type) := mk_chan {
  c_head : Z;
  c_tail : Z;
  c_count : Z;
  c_mutex : Z;
  c_rcv : Z;
  c_wcv : Z;
  c_closed : bool;
  c_blocking : bool;
  c_ext : X;
}.
Arguments mk_chan {X}.
Arguments c_head {X}.
Arguments c_tail {X}.
Arguments c_count {X}.
Arguments c_mutex {X}.
Arguments c_rcv {X}.
Arguments c_wcv {X}.
Arguments c_closed {X}.
Arguments c_blocking {X}.
Arguments c_ext {X}.

Section Chan.
Context {X : Type}.
Implicit Types (c : chan X).

Definition set_ends (h t : Z) c : chan X :=
  mk_chan h t (c_count c) (c_mutex c) (c_rcv c) (c_wcv c) (c_closed c) (c_blocking c) (c_ext c).
Definition set_count (n : Z) c : chan X :=
  mk_chan (c_head c) (c_tail c) n (c_mutex c) (c_rcv c) (c_wcv c) (c_closed c) (c_blocking c) (c_ext c).
Definition set_closed (b : bool) c : chan X :=
  mk_chan (c_head c) (c_tail c) (c_count c) (c_mutex c) (c_rcv c) (c_wcv c) b (c_blocking c) (c_ext c).
Definition set_blocking (b : bool) c : chan X :=
  mk_chan (c_head c) (c_tail c) (c_count c) (c_mutex c) (c_rcv c) (c_wcv c) (c_closed c) b (c_ext c).
Definition set_ext (x : X) c : chan X :=
  mk_chan (c_head c) (c_tail c) (c_count c) (c_mutex c) (c_rcv c) (c_wcv c) (c_closed c) (c_blocking c) x.
End Chan.

(** [for (i = 0; i < name_len; i++) name[i] = pipe_name[i]] with the length
    cut to 31. *)
Definition copy_name (m : mem) (src : Z) : list Z :=
  let len := strlen m src in
  let len := if 32 <=? len then 31 else len in
  (fun i => str_at m src i) <$> seqZ 0 len.

(** The characters of a name array, terminated. *)
Definition str_of (l : list Z) (i : Z) : Z := default 0 (l !! Z.to_nat i).

(** The state: the scheduler object, which owns the kernel heap and the
    threads, whether [g_scheduler] points to it, and the objects by address. *)
Record ipc (S H X : Type) := mk_ipc {
  i_on : bool;
  i_sched : sched S;
  i_nodes : gmap Z (node H);
  i_chans : gmap Z (chan X);
  i_mutexes : gmap Z Mutex;
  i_cvs : gmap Z ConditionVariable;
}.
Arguments mk_ipc {S H X}.
Arguments i_on {S H X}.
Arguments i_sched {S H X}.
Arguments i_nodes {S H X}.
Arguments i_chans {S H X}.
Arguments i_mutexes {S H X}.
Arguments i_cvs {S H X}.

(** [PipeManager] and [MessageQueueManager]. *)
Record manager := mk_mgr { m_table : list Z; m_count : Z; m_next_id : Z; m_mutex : Z }.

Definition SIZEOF_MUTEX : Z := 12.
Definition SIZEOF_CV : Z := 4.

Section Model.
Context {S : Type} `{PS : PageSupply S} {H X : Type}.
Abbreviation st := (ipc S H X).
Implicit Types (s : st).

Definition set_isched (g : sched S) s : st := mk_ipc (i_on s) g (i_nodes s) (i_chans s) (i_mutexes s) (i_cvs s).
Definition set_nodes (m : gmap Z (node H)) s : st := mk_ipc (i_on s) (i_sched s) m (i_chans s) (i_mutexes s) (i_cvs s).
Definition set_chans (m : gmap Z (chan X)) s : st := mk_ipc (i_on s) (i_sched s) (i_nodes s) m (i_mutexes s) (i_cvs s).
Definition set_mutexes (m : gmap Z Mutex) s : st := mk_ipc (i_on s) (i_sched s) (i_nodes s) (i_chans s) m (i_cvs s).
Definition set_cvs (m : gmap Z ConditionVariable) s : st := mk_ipc (i_on s) (i_sched s) (i_nodes s) (i_chans s) (i_mutexes s) m.

Definition i_heap s : heap S := k_heap (sc_k (i_sched s)).
Definition i_threads s : gmap Z Thread := k_threads (sc_k (i_sched s)).
Definition i_mem s : mem := h_mem (i_heap s).
Definition set_iheap (h : heap S) s : st := set_isched (set_k (Thread.set_heap h (sc_k (i_sched s))) (i_sched s)) s.
Definition set_imem (m : mem) s : st := set_iheap (set_mem m (i_heap s)) s.

Definition hp {A} (c : ST (heap S) A) : ST st A := zoom i_heap set_iheap c.

(** Accesses through a pointer; undefined without an object there. *)
Definition chan_at (p : Z) : ST st (chan X) := fun s => (fun c => (c, s)) <$> i_chans s !! p.
Definition put_chan (p : Z) (c : chan X) : ST st unit := modify (fun s => set_chans (<[p := c]> (i_chans s)) s).
Definition upd_chan (p : Z) (f : chan X -> chan X) : ST st unit := let! c := chan_at p in put_chan p (f c).
Definition node_at (a : Z) : ST st (node H) := fun s => (fun n => (n, s)) <$> i_nodes s !! a.
Definition put_node (a : Z) (n : node H) : ST st unit := modify (fun s => set_nodes (<[a := n]> (i_nodes s)) s).
Definition thread_of (t : Z) : ST st Thread := fun s => (fun x => (x, s)) <$> i_threads s !! t.

(** [g_scheduler] as the synchronisation objects see it. *)
Definition osched s : option (sched S) := if i_on s then Some (i_sched s) else None.
Definition set_osched (g : option (sched S)) s : st := if g is Some g' then set_isched g' s else s.

Definition on_mutex {A} (a : Z) (c : ST (sync Mutex) A) : ST st A :=
  fun s => match i_mutexes s !! a with
           | None => None
           | Some m =>
               match c (osched s, m) with
               | None => None
               | Some (r, (g, m')) => let s' := set_osched g s in Some (r, set_mutexes (<[a := m']> (i_mutexes s')) s')
               end
           end.
Definition on_cv {A} (a : Z) (c : ST (sync ConditionVariable) A) : ST st A :=
  fun s => match i_cvs s !! a with
           | None => None
           | Some v =>
               match c (osched s, v) with
               | None => None
               | Some (r, (g, v')) => let s' := set_osched g s in Some (r, set_cvs (<[a := v']> (i_cvs s')) s')
               end
           end.

(** [LockGuard lock( *mutex )] around the rest of a method. *)
Definition guard {A} (fuel : nat) (mutex : Z) (body : ST st A) : ST st A :=
  on_mutex mutex (Lock fuel);;; let! r := body in on_mutex mutex Unlock;;; ret r.

Definition new_mutex : ST st Z :=
  let! a := hp (Alloc SIZEOF_MUTEX 8) in
  if a =? 0 then ret 0 else modify (fun s => set_mutexes (<[a := Mutex_new]> (i_mutexes s)) s);;; ret a.
Definition new_cv : ST st Z :=
  let! a := hp (Alloc SIZEOF_CV 8) in
  if a =? 0 then ret 0 else modify (fun s => set_cvs (<[a := ConditionVariable_new]> (i_cvs s)) s);;; ret a.

(** [new PipeMessage(...)] and [new QueueMessage(...)]: the bytes are copied
    to a block of their own. *)
Definition new_node (sizeof : Z) (h : H) (size payload : Z) : ST st Z :=
  let! a := hp (Alloc sizeof 8) in
  if a =? 0 then ret 0
  else
    put_node a (mk_node h size 0 0);;;
    (if (0 <? size) && negb (payload =? 0) then
       let! d := hp (Alloc size 8) in
       if d =? 0 then put_node a (mk_node h 0 0 0)
       else
         modify (fun s => set_imem (memcpy (i_mem s) d payload (Z.to_nat size)) s);;;
         put_node a (mk_node h size d 0)
     else ret tt);;;
    ret a.

(** [delete msg]: the destructors of the two classes. *)
Definition delete_node (a : Z) : ST st unit :=
  if a =? 0 then ret tt
  else
    let! n := node_at a in
    if data n =? 0 then ret tt
    else hp (Free (data n));;; put_node a (mk_node (n_hdr n) (data_size n) 0 (n_next n)).

(** A new message behind the last one. *)
Definition enqueue (p a : Z) : ST st unit :=
  let! c := chan_at p in
  if c_head c =? 0 then put_chan p (set_ends a a c)
  else
    let! t := node_at (c_tail c) in
    put_node (c_tail c) (mk_node (n_hdr t) (data_size t) (data t) a);;;
    put_chan p (set_ends (c_head c) a c).

(** [while (head) { msg = head; head = head->next; delete msg; }]. *)
Fixpoint flush_loop (fuel : nat) (p : Z) : ST st unit :=
  let! c := chan_at p in
  if c_head c =? 0 then ret tt
  else match fuel with
  | O => stuck
  | Datatypes.S fuel' =>
      let! n := node_at (c_head c) in
      put_chan p (set_ends (n_next n) (c_tail c) c);;;
      delete_node (c_head c);;;
      flush_loop fuel' p
  end.

(** [*p = v] for an out parameter that may be null. *)
Definition store_out (p v : Z) : ST st unit :=
  if p =? 0 then ret tt else modify (fun s => set_imem (write32 (i_mem s) p v) s).

Fixpoint store_outs (os : list (Z * Z)) : ST st unit :=
  match os with
  | [] => ret tt
  | (p, v) :: os' => store_out p v;;; store_outs os'
  end.

Definition Chan_SetBlockingMode (p : Z) (b : bool) : ST st unit := upd_chan p (set_blocking b).

Definition run_sched {A} (c : ST (sched S) A) : ST st A := zoom i_sched set_isched c.

(** [current ? current->task_id : 0] with [current] the running thread. *)
Definition current_id : ST st Z := run_sched API_GetCurrentThreadId.

(** [if (x) delete x] for a mutex and a condition variable. *)
Definition delete_mutex (fuel : nat) (a : Z) : ST st unit :=
  if a =? 0 then ret tt
  else
    on_mutex a (let! m := obj in drain fuel (m_waiting m));;;
    modify (fun s => set_mutexes (delete a (i_mutexes s)) s).
Definition delete_cv (fuel : nat) (a : Z) : ST st unit :=
  if a =? 0 then ret tt
  else
    on_cv a (let! v := obj in drain fuel (c_waiting v));;;
    modify (fun s => set_cvs (delete a (i_cvs s)) s).

(** * A table of 64 channels *)

(** The first slot whose channel satisfies [f], -1 without one. *)
Fixpoint find_slot (f : chan X -> ST st bool) (tab : list Z) (i : Z) : ST st Z :=
  match tab with
  | [] => ret (-1)
  | p :: tab' =>
      if p =? 0 then find_slot f tab' (i + 1)
      else
        let! c := chan_at p in
        let! b := f c in
        if b then ret i else find_slot f tab' (i + 1)
  end.

(** The first empty slot, -1 without one. *)
Fixpoint empty_slot (tab : list Z) (i : Z) : Z :=
  match tab with
  | [] => -1
  | p :: tab' => if p =? 0 then i else empty_slot tab' (i + 1)
  end.

(** Methods of the manager work on its fields and on the rest. *)
Definition on_ipc {G A} (c : ST st A) : ST (G * st) A := zoom snd (fun s g => (fst g, s)) c.
Definition set_mgr (f : manager -> manager) : ST (manager * st) unit := modify (fun w => (f (fst w), snd w)).
(** [index >= 0 ? table[index] : nullptr]. *)
Definition slot_at (i : Z) : ST (manager * st) Z :=
  gets (fun w => if i <? 0 then 0 else default 0 (m_table (fst w) !! Z.to_nat i)).
Definition mguard {A} (fuel : nat) (body : ST (manager * st) A) : ST (manager * st) A :=
  let! g := gets fst in
  on_ipc (on_mutex (m_mutex g) (Lock fuel));;;
  let! r := body in
  on_ipc (on_mutex (m_mutex g) Unlock);;;
  ret r.
(** [if (!g_manager) return dflt]. *)
Definition on_mgr {A} (dflt : A) (c : ST (manager * st) A) : ST (option manager * st) A :=
  fun w => match fst w with
           | None => Some (dflt, w)
           | Some g => match c (g, snd w) with Some (a, (g', s')) => Some (a, (Some g', s')) | None => None end
           end.
End Model.


(** * The heap as a collection of regions *)

Definition same_on (rs : list (Z * Z)) (m m' : mem) : Prop :=
  forall u k, (u, k) ∈ rs -> agree m m' u (u + k).
(** The [n] bytes at [a] lie in one of the regions. *)
Definition owned (rs : list (Z * Z)) (a n : Z) : Prop :=
  exists u k, (u, k) ∈ rs /\ u <= a /\ a + n <= u + k.

Section Regions.
Context {S : Type} `{PS : PageSupply S}.
Implicit Types (h : heap S) (rs : list (Z * Z)).

(** The regions handed out are exactly [rs]. *)
Definition hwf h rs : Prop := exists l, wf h l /\ live l ≡ₚ rs.

Lemma hwf_perm h rs rs' : rs ≡ₚ rs' -> hwf h rs -> hwf h rs'.
Proof. intros Hp (l & Hwf & Hl). exists l. by rewrite Hl. Qed.

Lemma hwf_regions h rs : hwf h rs -> pairwise rs /\ forall u k, (u, k) ∈ rs -> 0 < u /\ 0 < k /\ u + k < 2 ^ 32.
Proof.
  intros (l & Hwf & Hl). destruct (core_regions _ _ (proj1 Hwf)) as [Hp Hr]. split; [by rewrite <-Hl|].
  intros u k Hin. rewrite <-Hl in Hin. specialize (Hr u k Hin). pose proof (wf_base _ _ (proj1 Hwf)).
  pose proof (wf_end _ _ (proj1 Hwf)). lia.
Qed.

Lemma same_on_refl rs m : same_on rs m m.
Proof. intros u k _. apply agree_refl. Qed.
Lemma same_on_trans rs m1 m2 m3 : same_on rs m1 m2 -> same_on rs m2 m3 -> same_on rs m1 m3.
Proof. intros H1 H2 u k Hin. eapply agree_trans; [by apply H1|by apply H2]. Qed.
Lemma same_on_sub rs rs' m m' : (forall r, r ∈ rs' -> r ∈ rs) -> same_on rs m m' -> same_on rs' m m'.
Proof. intros Hs H u k Hin. apply H. by apply Hs. Qed.

Lemma hwf_alloc h rs n :
  hwf h rs -> 0 < n -> g_heapEnd h + 2 * (n + 16) + 4200 <= 2 ^ 32 ->
  exists r h', Alloc n 8 h = Some (r, h') /\ same_on rs (h_mem h) (h_mem h') /\
    g_heapEnd h' <= g_heapEnd h + n + 16 + 4200 /\
    ((r = 0 /\ hwf h' rs /\ exhausted (h_supply h')) \/ (r <> 0 /\ hwf h' ((r, n) :: rs))).
Proof.
  intros (l & Hwf & Hl) Hn Hend. destruct (Alloc_ok h l n 8 Hwf Hn) as (r & h' & l' & E & Hwf' & Hk & He & Hr); [lia|lia|].
  exists r, h'. split; [done|]. split; [intros u k Hin; apply Hk; by rewrite Hl|]. split; [lia|].
  destruct Hr as [(-> & Hl' & Hex)|(j & _ & _ & Hl')]; [left|right].
  - split_and!; [done| |done]. exists l'. by rewrite Hl'.
  - assert (Hh : hwf h' ((r, n) :: rs)) by (exists l'; by rewrite Hl', Hl).
    destruct (hwf_regions _ _ Hh) as [_ Hr]. specialize (Hr r n ltac:(by left)). split; [lia|done].
Qed.

Lemma hwf_free h rs u n :
  hwf h ((u, n) :: rs) -> exists h', Free u h = Some (tt, h') /\ hwf h' rs /\ same_on rs (h_mem h) (h_mem h').
Proof.
  intros (l & Hwf & Hl). destruct (Free_ok h l u n Hwf) as (h' & l' & E & Hwf' & Hl' & Hk & _); [rewrite Hl; by left|].
  assert (Hp : live l' ≡ₚ rs) by (apply (Permutation_cons_inv (a := (u, n))); by rewrite <-Hl', Hl).
  exists h'. split; [done|]. split; [by exists l'|]. intros v k Hin. apply Hk. by rewrite Hp.
Qed.

Lemma hwf_write8 h rs a v : hwf h rs -> owned rs a 1 -> hwf (set_mem (write8 (h_mem h) a v) h) rs.
Proof.
  intros (l & Hwf & Hl) (u & k & Hin & ? & ?). exists l. split; [|done]. apply (user_write_ok h l u k); [done|by rewrite Hl|lia].
Qed.

Lemma owned_sub rs a n b k : owned rs a n -> a <= b -> b + k <= a + n -> owned rs b k.
Proof. intros (u & j & Hin & ? & ?) ? ?. exists u, j. split; [done|lia]. Qed.

Lemma hwf_write32 h rs a v : hwf h rs -> owned rs a 4 -> hwf (set_mem (write32 (h_mem h) a v) h) rs.
Proof.
  intros Hh Ho. unfold write32.
  apply (hwf_write8 (set_mem _ h)); [|apply (owned_sub _ _ _ _ _ Ho); lia].
  apply (hwf_write8 (set_mem _ h)); [|apply (owned_sub _ _ _ _ _ Ho); lia].
  apply (hwf_write8 (set_mem _ h)); [|apply (owned_sub _ _ _ _ _ Ho); lia].
  apply hwf_write8; [done|apply (owned_sub _ _ _ _ _ Ho); lia].
Qed.

Lemma hwf_memcpy h rs d src n : hwf h rs -> owned rs d (Z.of_nat n) -> hwf (set_mem (memcpy (h_mem h) d src n) h) rs.
Proof.
  intros Hh Ho. unfold memcpy.
  enough (HG : forall k i h, hwf h rs -> 0 <= i -> i + Z.of_nat k <= Z.of_nat n ->
    hwf (set_mem (memcpy_loop k i (h_mem h) d src) h) rs) by (apply HG; [done|lia|lia]).
  clear h Hh. induction k as [|k IH]; intros i h Hh Hi Hk; cbn [memcpy_loop]; [by destruct h|].
  apply (IH (i + 1) (set_mem (write8 (h_mem h) (d + i) (read8 (h_mem h) (src + i))) h)); [|lia|lia].
  apply hwf_write8; [done|]. apply (owned_sub _ _ _ _ _ Ho); lia.
Qed.

(** A write to a region leaves the others alone. *)
Lemma agree_apart m m' rs r u k a n :
  pairwise (r :: rs) -> (u, k) ∈ rs -> r.1 <= a -> a + n <= r.1 + r.2 ->
  (forall b, b < a \/ a + n <= b -> read8 m' b = read8 m b) -> agree m m' u (u + k).
Proof.
  intros [Hp _] Hin ? ? Hf i Hi. apply Hf. specialize (Hp _ Hin). unfold apart in Hp. cbn in Hp. lia.
Qed.

Lemma pairwise_apart rs1 rs2 r r' : pairwise (rs1 ++ rs2) -> r ∈ rs1 -> r' ∈ rs2 -> apart r r'.
Proof.
  induction rs1 as [|x rs1 IH]; intros Hp H1 H2; [by apply not_elem_of_nil in H1|]. destruct Hp as [Hx Hp].
  apply elem_of_cons in H1 as [->|H1]; [apply Hx, elem_of_app; by right|by apply IH].
Qed.

(** A write inside [rs2] leaves the regions [rs1] alone. *)
Lemma owned_same_on rs1 rs2 m m' a n :
  pairwise (rs1 ++ rs2) -> owned rs2 a n -> (forall b, b < a \/ a + n <= b -> read8 m' b = read8 m b) -> same_on rs1 m m'.
Proof.
  intros Hp (u & k & Hin & ? & ?) Hf v j Hv i Hi. apply Hf. pose proof (pairwise_apart _ _ _ _ Hp Hv Hin) as Ha.
  unfold apart in Ha. cbn in Ha. lia.
Qed.

Lemma memcpy_frame m d src n b : b < d \/ d + Z.of_nat n <= b -> read8 (memcpy m d src n) b = read8 m b.
Proof.
  intros Hb. unfold memcpy.
  enough (HG : forall k i m, 0 <= i -> i + Z.of_nat k <= Z.of_nat n -> read8 (memcpy_loop k i m d src) b = read8 m b) by (apply HG; lia).
  clear m. induction k as [|k IH]; intros i m Hi Hk; cbn [memcpy_loop]; [done|]. rewrite IH by lia. apply read8_write8_ne. lia.
Qed.

Lemma memcpy_stored m d src bs :
  stored m src bs -> d <= src \/ src + Z.of_nat (length bs) <= d -> stored (memcpy m d src (length bs)) d bs.
Proof.
  intros Hs Hd i c Hi. pose proof (lookup_lt_Some _ _ _ Hi). unfold memcpy.
  rewrite memcpy_loop_spec by lia. rewrite decide_True by lia.
  replace (src + (d + Z.of_nat i - d)) with (src + Z.of_nat i) by lia. by apply Hs.
Qed.

Lemma stored_take m p bs n : stored m p bs -> stored m p (take n bs).
Proof. intros Hs i c Hi. apply Hs. apply lookup_take_Some in Hi. tauto. Qed.
End Regions.

(** * Uncontended locks *)

Definition free_mutex (m : Mutex) : Prop := locked m = false /\ m_waiting m = 0.

Section Locks.
Context {S : Type} `{PS : PageSupply S} {H X : Type}.
Abbreviation st := (ipc S H X).
Implicit Types (s : st).

(** The running thread, if any, is a thread object. *)
Definition quiet s : Prop :=
  i_on s = true -> current_task (i_sched s) = 0 \/ exists t, i_threads s !! current_task (i_sched s) = Some t.
Definition me s : Z :=
  if current_task (i_sched s) =? 0 then 0
  else if i_threads s !! current_task (i_sched s) is Some t then task_id t else 0.

(** What locking depends on. *)
Record same_env s s' : Prop := {
  env_on : i_on s' = i_on s;
  env_cur : current_task (i_sched s') = current_task (i_sched s);
  env_threads : i_threads s' = i_threads s;
  env_mutexes : i_mutexes s' = i_mutexes s;
}.

Lemma same_env_refl s : same_env s s.
Proof. done. Qed.
Lemma same_env_trans s1 s2 s3 : same_env s1 s2 -> same_env s2 s3 -> same_env s1 s3.
Proof. intros [? ? ? ?] [? ? ? ?]. split; congruence. Qed.
Lemma same_env_chans s s' m : same_env s s' -> same_env s (set_chans m s').
Proof. by intros [? ? ? ?]. Qed.
Lemma quiet_env s s' : same_env s s' -> quiet s -> quiet s'.
Proof. intros [E1 E2 E3 _] Hq. unfold quiet. by rewrite E1, E2, E3. Qed.

Lemma current_id_run s : quiet s -> i_on s = true -> API_GetCurrentThreadId (i_sched s) = Some (me s, i_sched s).
Proof.
  intros Hq Hon. unfold API_GetCurrentThreadId, me. rewrite gets_step. destruct (Z.eqb_spec (current_task (i_sched s)) 0); [done|].
  destruct (Hq Hon) as [?|[t Ht]]; [done|]. rewrite Ht.
  unfold get, on_k, zoom, thread_at, bind. unfold i_threads in Ht. rewrite Ht. cbn. by destruct (i_sched s) as [[] ? ? ? ? ? ? ?].
Qed.

Lemma set_osched_id s : set_osched (osched s) s = s.
Proof. unfold set_osched, osched. by destruct (i_on s), s. Qed.

Lemma Lock_run fuel s m :
  free_mutex m -> quiet s ->
  Lock (Datatypes.S fuel) (osched s, m) = Some (tt, (osched s, if i_on s then mk_mutex (me s) 0 true else m)).
Proof.
  intros [Hl Hw] Hq. unfold Lock, has_scheduler, current_thread, on_sched, osched, gets, bind. cbn [fst snd].
  destruct (i_on s) eqn:Hon; cbn [negb fst snd]; [|done]. rewrite (current_id_run s Hq Hon). cbn [lock_loop].
  unfold lock_pass, obj, put, gets, modify, bind. cbn [fst snd]. rewrite Hl. cbn [negb]. by rewrite Hw.
Qed.

Lemma Unlock_run s m :
  quiet s -> m = mk_mutex (me s) 0 true \/ i_on s = false ->
  Unlock (osched s, m) = Some (tt, (osched s, if i_on s then mk_mutex 0 0 false else m)).
Proof.
  intros Hq Hm. unfold Unlock, has_scheduler, current_thread, on_sched, osched, gets, bind. cbn [fst snd].
  destruct (i_on s) eqn:Hon; cbn [negb fst snd]; [|done]. destruct Hm as [->|]; [|done]. rewrite (current_id_run s Hq Hon).
  unfold unlock_fields, wake_first, obj, put, gets, modify, bind, ret. cbn. by rewrite Z.eqb_refl.
Qed.

(** The state in which the guarded body runs. *)
Definition held s (a : Z) (m : Mutex) : st :=
  set_mutexes (<[a := if i_on s then mk_mutex (me s) 0 true else m]> (i_mutexes s)) s.

(** The body runs with the mutex held and leaves it free. *)
Lemma guard_ok {A} fuel a (body : ST st A) s m r s2 :
  i_mutexes s !! a = Some m -> free_mutex m -> quiet s ->
  body (held s a m) = Some (r, s2) -> same_env (held s a m) s2 ->
  exists m2, free_mutex m2 /\ guard (Datatypes.S fuel) a body s = Some (r, set_mutexes (<[a := m2]> (i_mutexes s2)) s2).
Proof.
  intros Hm Hf Hq Hb He. pose proof He as [E1 E2 E3 E4]. cbn in E1, E2, E3, E4. unfold held in *.
  set (m1 := if i_on s then mk_mutex (me s) 0 true else m) in *.
  exists (if i_on s then mk_mutex 0 0 false else m1). split; [subst m1; by destruct (i_on s)|].
  unfold guard. erewrite bind_step.
  2:{ unfold on_mutex. rewrite Hm, (Lock_run fuel s m Hf Hq). cbn zeta. rewrite set_osched_id. reflexivity. }
  fold m1. rewrite (bind_step _ _ _ _ _ Hb). erewrite bind_step; [reflexivity|].
  unfold on_mutex. rewrite E4, lookup_insert_eq. rewrite (Unlock_run s2 m1).
  - cbn zeta. rewrite set_osched_id, E1, E4. done.
  - apply (quiet_env _ _ He). intros Hon. by apply Hq.
  - subst m1. rewrite E1. destruct (i_on s); [left|by right]. unfold me. by rewrite E2, E3.
Qed.

(** Condition variables have no waiters: signals change nothing. *)
Lemma signal_run s a : i_cvs s !! a = Some (mk_cv 0) -> on_cv a CV_Signal s = Some (tt, s).
Proof.
  intros Ha. unfold on_cv. rewrite Ha. unfold CV_Signal, has_scheduler, obj, put, wake_first, gets, modify, bind, ret.
  assert (Hs : forall s', s' = s -> set_cvs (<[a := mk_cv 0]> (i_cvs s')) s' = s) by (intros s' ->; rewrite insert_id by done; by destruct s).
  unfold osched. destruct (i_on s) eqn:Hon; cbn [fst snd negb c_waiting Z.eqb]; cbn zeta; rewrite Hs; try done.
  unfold set_osched, set_isched. by destruct s.
Qed.

Lemma broadcast_run s a fuel : i_cvs s !! a = Some (mk_cv 0) -> on_cv a (CV_Broadcast fuel) s = Some (tt, s).
Proof.
  intros Ha. unfold on_cv. rewrite Ha. unfold CV_Broadcast, has_scheduler, gets, bind, ret.
  assert (Hs : forall s', s' = s -> set_cvs (<[a := mk_cv 0]> (i_cvs s')) s' = s) by (intros s' ->; rewrite insert_id by done; by destruct s).
  unfold osched. destruct (i_on s) eqn:Hon; cbn [fst snd negb].
  - destruct fuel; cbn [broadcast_loop]; unfold obj, gets, bind, ret; cbn [fst snd c_waiting Z.eqb]; cbn zeta;
      rewrite Hs; try done; unfold set_osched, set_isched; by destruct s.
  - cbn zeta. by rewrite Hs.
Qed.
End Locks.

(** * Queues of messages *)

Section Queues.
Context {S : Type} `{PS : PageSupply S} {H X : Type} (sizeof : Z).
Abbreviation st := (ipc S H X).
Implicit Types (s : st) (xs : list (Z * node H)) (q : list (H * list Z)) (rs : list (Z * Z)).

(** The messages [xs] linked from [h] to [z]. *)
Fixpoint linked (nodes : gmap Z (node H)) (h : Z) xs (z : Z) : Prop :=
  match xs with
  | [] => h = z
  | x :: xs' => h = x.1 /\ x.1 <> 0 /\ nodes !! x.1 = Some x.2 /\ linked nodes (n_next x.2) xs' z
  end.
Definition last_addr xs : Z := default 0 (fst <$> last xs).

(** The heap regions of the messages: the object and its bytes. *)
Definition node_regions (x : Z * node H) : list (Z * Z) :=
  (x.1, sizeof) :: if data x.2 =? 0 then [] else [(data x.2, data_size x.2)].
Definition regions xs : list (Z * Z) := concat (node_regions <$> xs).

(** A message with its header and bytes. *)
Definition holds (m : mem) (x : Z * node H) (v : H * list Z) : Prop :=
  n_hdr x.2 = v.1 /\ data_size x.2 = Z.of_nat (length v.2) /\
  (data x.2 = 0 <-> v.2 = []) /\ stored m (data x.2) v.2.

Record q_rep s (p : Z) (c : chan X) xs q rs : Prop := {
  qr_heap : hwf (i_heap s) (regions xs ++ rs);
  qr_chan : i_chans s !! p = Some c;
  qr_linked : linked (i_nodes s) (c_head c) xs 0;
  qr_tail : c_tail c = last_addr xs;
  qr_data : Forall2 (holds (i_mem s)) xs q;
  qr_count : c_count c = Z.of_nat (length q);
}.

(** The channel is not in use by another thread. *)
Record idle s (c : chan X) : Prop := {
  id_mutex : exists m, i_mutexes s !! c_mutex c = Some m /\ free_mutex m;
  id_rcv : i_cvs s !! c_rcv c = Some (mk_cv 0);
  id_wcv : i_cvs s !! c_wcv c = Some (mk_cv 0);
  id_quiet : quiet s;
}.

(** Only the heap and the messages may differ. *)
Record same_objs s s' : Prop := {
  so_env : same_env s s';
  so_chans : i_chans s' = i_chans s;
  so_cvs : i_cvs s' = i_cvs s;
}.
Lemma same_objs_trans s1 s2 s3 : same_objs s1 s2 -> same_objs s2 s3 -> same_objs s1 s3.
Proof. intros [? ? ?] [? ? ?]. split; [by eapply same_env_trans|congruence..]. Qed.

Lemma regions_app xs ys : regions (xs ++ ys) = regions xs ++ regions ys.
Proof. unfold regions. by rewrite fmap_app, concat_app. Qed.

Lemma regions_one x : regions [x] = node_regions x.
Proof. unfold regions. cbn [fmap list_fmap concat]. apply app_nil_r. Qed.

Lemma linked_app nodes h xs ys z :
  linked nodes h (xs ++ ys) z <-> exists m, linked nodes h xs m /\ linked nodes m ys z.
Proof.
  revert h. induction xs as [|x xs IH]; intros h; cbn [app linked].
  - split; [intros E; by exists h|by intros (m & -> & ?)].
  - rewrite IH. split; [intros (? & ? & ? & m & ? & ?)|intros (m & (? & ? & ? & ?) & ?)]; [by exists m|by eauto 10].
Qed.

Lemma linked_insert nodes h xs z a n : a ∉ xs.*1 -> linked nodes h xs z -> linked (<[a := n]> nodes) h xs z.
Proof.
  revert h. induction xs as [|x xs IH]; intros h Ha Hl; cbn [linked] in *; [done|].
  rewrite fmap_cons, not_elem_of_cons in Ha. destruct Ha as [Ha Ha'], Hl as (? & ? & ? & ?).
  split_and!; [done..| |by apply IH]. by rewrite lookup_insert_ne.
Qed.

Lemma regions_addr xs a : a ∈ xs.*1 -> (a, sizeof) ∈ regions xs.
Proof.
  intros (x & -> & Hx)%list_elem_of_fmap. apply list_elem_of_split in Hx as (l1 & l2 & ->).
  rewrite regions_app. apply elem_of_app. right. left.
Qed.

(** Distinct messages have distinct addresses. *)
Lemma pairwise_app rs1 rs2 : pairwise (rs1 ++ rs2) -> pairwise rs2.
Proof. induction rs1 as [|r rs1 IH]; cbn; [done|]. intros [_ ?]. by apply IH. Qed.

Lemma fresh_addr xs a rs : 0 < sizeof -> pairwise ((a, sizeof) :: regions xs ++ rs) -> a ∉ xs.*1.
Proof.
  intros Hz [Hp _] Ha%regions_addr. specialize (Hp (a, sizeof) ltac:(apply elem_of_app; by left)).
  unfold apart in Hp. cbn in Hp. lia.
Qed.

Lemma nodup_addr xs rs : 0 < sizeof -> pairwise (regions xs ++ rs) -> NoDup xs.*1.
Proof.
  intros Hz. induction xs as [|[a n] xs IH]; [constructor|]. change ((a, n) :: xs) with ([(a, n)] ++ xs).
  rewrite regions_app, <-app_assoc. unfold regions at 1. cbn [fmap list_fmap concat node_regions fst snd]. rewrite app_nil_r.
  intros Hp. pose proof Hp as Hp0. unfold node_regions in Hp. cbn [fst snd app] in Hp. change ([(a, n)] ++ xs) with ((a, n) :: xs). rewrite fmap_cons. constructor.
  - destruct (data n =? 0); cbn [app] in Hp; [by apply (fresh_addr xs a rs)|]. destruct Hp as [H1 [H2 H3]].
    apply (fresh_addr xs a rs Hz). split; [|done]. intros r Hr. apply H1. by right.
  - apply IH. by apply pairwise_app in Hp0.
Qed.

Lemma holds_same m m' x v rs : holds m x v -> same_on rs m m' -> (data x.2 <> 0 -> (data x.2, data_size x.2) ∈ rs) -> holds m' x v.
Proof.
  intros (? & Hs & Hd & Hst) Hsame Hin. split_and!; [done..|]. destruct (decide (v.2 = [])) as [->|Hne]; [by intros i c|].
  assert (Hz : data x.2 <> 0) by tauto. apply (stored_ext m); [|done]. intros a Ha. apply (Hsame _ _ (Hin Hz)). lia.
Qed.

Lemma data_region xs x : x ∈ xs -> data x.2 <> 0 -> (data x.2, data_size x.2) ∈ regions xs.
Proof.
  intros Hx Hd. apply list_elem_of_split in Hx as (l1 & l2 & ->). rewrite regions_app. apply elem_of_app. right.
  unfold regions, node_regions. cbn. destruct (Z.eqb_spec (data x.2) 0); [done|]. right. left.
Qed.

Lemma holds_all m m' xs q rs : Forall2 (holds m) xs q -> same_on rs m m' ->
  (forall r, r ∈ regions xs -> r ∈ rs) -> Forall2 (holds m') xs q.
Proof.
  intros HF Hs Hsub. apply Forall2_same_length_lookup_2; [by eapply Forall2_length|].
  intros i x v Hx Hv. eapply holds_same; [by eapply Forall2_lookup_lr|done|].
  intros Hd. apply Hsub, data_region; [by eapply list_elem_of_lookup_2|done].
Qed.

(** ** Creating and deleting messages *)

Lemma hp_step {A B} (c : ST (heap S) A) (f : A -> ST st B) s a h :
  c (i_heap s) = Some (a, h) -> bind (hp c) f s = f a (set_iheap h s).
Proof. intros E. apply bind_step. unfold hp, zoom. by rewrite E. Qed.
Lemma node_step {B} a (f : node H -> ST st B) s n : i_nodes s !! a = Some n -> bind (node_at a) f s = f n s.
Proof. intros E. apply bind_step. unfold node_at. by rewrite E. Qed.
Lemma chan_step {B} p (f : chan X -> ST st B) s c : i_chans s !! p = Some c -> bind (chan_at p) f s = f c s.
Proof. intros E. apply bind_step. unfold chan_at. by rewrite E. Qed.
Lemma put_chan_step {B} p c (f : unit -> ST st B) s :
  bind (put_chan p c) f s = f tt (set_chans (<[p := c]> (i_chans s)) s).
Proof. done. Qed.
Lemma put_node_step {B} a n (f : unit -> ST st B) s :
  bind (put_node a n) f s = f tt (set_nodes (<[a := n]> (i_nodes s)) s).
Proof. done. Qed.
Lemma upd_chan_step {B} p g (f : unit -> ST st B) s c :
  i_chans s !! p = Some c -> bind (upd_chan p g) f s = f tt (set_chans (<[p := g c]> (i_chans s)) s).
Proof. intros E. unfold upd_chan. by rewrite bind_assoc, (chan_step _ _ _ _ E). Qed.

Lemma new_node_ok s rs h payload bs :
  hwf (i_heap s) rs -> 0 < sizeof <= 100 -> bs <> [] -> owned rs payload (Z.of_nat (length bs)) -> 0 < payload ->
  stored (i_mem s) payload bs -> g_heapEnd (i_heap s) + 2 * Z.of_nat (length bs) + 9000 <= 2 ^ 32 ->
  exists a s', new_node sizeof h (Z.of_nat (length bs)) payload s = Some (a, s') /\ same_objs s s' /\
    same_on rs (i_mem s) (i_mem s') /\
    ((a = 0 /\ i_nodes s' = i_nodes s /\ hwf (i_heap s') rs /\ exhausted (h_supply (i_heap s'))) \/
     (a <> 0 /\ i_nodes s' = <[a := mk_node h 0 0 0]> (i_nodes s) /\ hwf (i_heap s') ((a, sizeof) :: rs) /\
        exhausted (h_supply (i_heap s'))) \/
     exists d, a <> 0 /\ d <> 0 /\ i_nodes s' = <[a := mk_node h (Z.of_nat (length bs)) d 0]> (i_nodes s) /\
        hwf (i_heap s') ((a, sizeof) :: (d, Z.of_nat (length bs)) :: rs) /\ stored (i_mem s') d bs).
Proof.
  intros Hh Hz Hbs Ho Hpl Hst Hend. assert (Hn : 0 < Z.of_nat (length bs)) by (destruct bs; cbn; [done|lia]).
  set (n := Z.of_nat (length bs)) in *. unfold new_node.
  destruct (hwf_alloc (i_heap s) rs sizeof Hh) as (a & h1 & E & Hs1 & He1 & Hr); [lia|lia|].
  rewrite (hp_step _ _ _ _ _ E). destruct Hr as [(-> & Hh1 & Hex)|(Ha & Hh1)].
  { eexists 0, _. split; [done|]. split; [done|]. split; [done|]. by left. }
  destruct (Z.eqb_spec a 0); [done|]. rewrite put_node_step. set (s1 := set_nodes _ _).
  destruct (Z.ltb_spec 0 n); [|lia]. destruct (Z.eqb_spec payload 0); [lia|]. cbn [negb andb].
  destruct (hwf_alloc (i_heap s1) ((a, sizeof) :: rs) n) as (d & h2 & E2 & Hs2 & He2 & Hr2); [done|lia|cbn; lia|].
  rewrite bind_assoc, (hp_step _ _ _ _ _ E2).
  assert (Hs12 : same_on rs (i_mem s) (h_mem h2)).
  { eapply same_on_trans; [exact Hs1|]. eapply same_on_sub; [|exact Hs2]. intros r Hr. by right. }
  destruct Hr2 as [(-> & Hh2 & Hex)|(Hd & Hh2)].
  { rewrite Z.eqb_refl. eexists a, _. split; [reflexivity|]. split; [done|]. split; [done|]. right. left.
    split; [done|]. split; [cbn; by rewrite insert_insert_eq|done]. }
  destruct (Z.eqb_spec d 0); [done|]. rewrite bind_assoc, modify_step. set (s2 := set_imem _ _). rewrite put_node_step.
  destruct (hwf_regions _ _ Hh2) as [Hpw Hreg]. destruct Ho as (u & k & Hin & ? & ?).
  assert (Hap : apart (d, n) (u, k)) by (apply (proj1 Hpw); by right). unfold apart in Hap. cbn in Hap.
  assert (Hsm : same_on ((a, sizeof) :: rs) (h_mem h2) (memcpy (h_mem h2) d payload (Z.to_nat n))).
  { intros v j Hv. apply (agree_apart _ _ _ (d, n) v j d n Hpw Hv); cbn; [lia|lia|]. intros b Hb. apply memcpy_frame. lia. }
  eexists a, _. split; [reflexivity|]. split; [done|]. split.
  { eapply same_on_trans; [exact Hs12|]. eapply same_on_sub; [|exact Hsm]. intros r Hr. by right. }
  right. right. exists d. split; [done|]. split; [done|]. split; [cbn; by rewrite insert_insert_eq|]. split.
  - apply (hwf_perm _ ((d, n) :: (a, sizeof) :: rs)); [by apply Permutation_swap|].
    apply (hwf_memcpy h2); [done|]. exists d, n. split; [by left|]. lia.
  - change (stored (memcpy (h_mem h2) d payload (Z.to_nat n)) d bs). unfold n. rewrite Nat2Z.id. apply memcpy_stored; [|lia].
    apply (stored_ext (i_mem s)); [|done]. intros b Hb. apply (Hs12 u k Hin). lia.
Qed.

(** A message with or without bytes. *)
Lemma new_msg_ok s rs h payload bs :
  hwf (i_heap s) rs -> 0 < sizeof <= 100 ->
  (bs <> [] -> owned rs payload (Z.of_nat (length bs)) /\ 0 < payload /\ stored (i_mem s) payload bs) ->
  g_heapEnd (i_heap s) + 2 * Z.of_nat (length bs) + 9000 <= 2 ^ 32 ->
  exists a s', new_node sizeof h (Z.of_nat (length bs)) payload s = Some (a, s') /\ same_objs s s' /\
    same_on rs (i_mem s) (i_mem s') /\
    ((exhausted (h_supply (i_heap s')) /\
       (a = 0 /\ i_nodes s' = i_nodes s /\ hwf (i_heap s') rs \/
        a <> 0 /\ bs <> [] /\ i_nodes s' = <[a := mk_node h 0 0 0]> (i_nodes s) /\ hwf (i_heap s') ((a, sizeof) :: rs))) \/
     exists n, a <> 0 /\ n_next n = 0 /\ i_nodes s' = <[a := n]> (i_nodes s) /\
       hwf (i_heap s') (node_regions (a, n) ++ rs) /\ holds (i_mem s') (a, n) (h, bs)).
Proof.
  intros Hh Hz Hp Hend. destruct (decide (bs = [])) as [->|Hbs].
  - unfold new_node. destruct (hwf_alloc (i_heap s) rs sizeof Hh) as (a & h1 & E & Hs1 & He1 & Hr); [lia|cbn in Hend; lia|].
    rewrite (hp_step _ _ _ _ _ E). destruct Hr as [(-> & Hh1 & Hex)|(Ha & Hh1)].
    { eexists 0, _. split; [done|]. split; [done|]. split; [done|]. left. split; [done|]. by left. }
    destruct (Z.eqb_spec a 0); [done|]. rewrite put_node_step.
    eexists a, _. split; [reflexivity|]. split; [done|]. split; [done|]. right. exists (mk_node h 0 0 0).
    split_and!; try done.
  - destruct (Hp Hbs) as (Ho & Hpl & Hst). destruct (new_node_ok s rs h payload bs Hh Hz Hbs Ho Hpl Hst Hend) as (a & s' & E & Hob & Hs & Hr).
    exists a, s'. split; [done|]. split; [done|]. split; [done|].
    destruct Hr as [(? & ? & ? & ?)|[(? & ? & ? & ?)|(d & ? & ? & ? & Hh' & ?)]]; [left; split; [done|by left]|left; split; [done|by right]|right].
    exists (mk_node h (Z.of_nat (length bs)) d 0). unfold node_regions, holds. cbn. destruct (Z.eqb_spec d 0); [done|]. split_and!; try done.
Qed.

Lemma delete_node_ok s rs a n :
  i_nodes s !! a = Some n -> a <> 0 ->
  hwf (i_heap s) ((if data n =? 0 then [] else [(data n, data_size n)]) ++ rs) ->
  exists s', delete_node a s = Some (tt, s') /\ same_objs s s' /\ same_on rs (i_mem s) (i_mem s') /\
    hwf (i_heap s') rs /\ exists n', i_nodes s' = <[a := n']> (i_nodes s).
Proof.
  intros Hn Ha Hh. unfold delete_node. destruct (Z.eqb_spec a 0); [done|]. rewrite (node_step _ _ _ _ Hn).
  destruct (data n =? 0) eqn:Ed; cbn [app] in Hh.
  - exists s. split; [done|]. split; [done|]. split; [apply same_on_refl|]. split; [done|]. exists n. by rewrite insert_id.
  - destruct (hwf_free _ _ _ _ Hh) as (h' & E & Hh' & Hs). rewrite (hp_step _ _ _ _ _ E).
    eexists. split; [reflexivity|]. split; [done|]. split; [done|]. split; [done|]. eexists. reflexivity.
Qed.

(** ** Linking and unlinking *)

Definition set_link (a : Z) (n : node H) : node H := mk_node (n_hdr n) (data_size n) (data n) a.

Lemma holds_link m b n a v : holds m (b, n) v -> holds m (b, set_link a n) v.
Proof. done. Qed.
Lemma regions_link b n a : regions [(b, set_link a n)] = regions [(b, n)].
Proof. done. Qed.

Lemma last_addr_snoc xs x : last_addr (xs ++ [x]) = x.1.
Proof. unfold last_addr. by rewrite last_snoc. Qed.

Lemma enqueue_ok s p c xs q rs a n v :
  0 < sizeof -> hwf (i_heap s) (node_regions (a, n) ++ regions xs ++ rs) -> i_chans s !! p = Some c ->
  linked (i_nodes s) (c_head c) xs 0 -> c_tail c = last_addr xs -> Forall2 (holds (i_mem s)) xs q ->
  i_nodes s !! a = Some n -> n_next n = 0 -> a <> 0 -> holds (i_mem s) (a, n) v ->
  exists s' xs' h, enqueue p a s = Some (tt, s') /\ i_heap s' = i_heap s /\ same_env s s' /\ i_cvs s' = i_cvs s /\
    i_chans s' = <[p := set_ends h a c]> (i_chans s) /\ linked (i_nodes s') h xs' 0 /\ last_addr xs' = a /\
    Forall2 (holds (i_mem s')) xs' (q ++ [v]) /\ regions xs' = regions (xs ++ [(a, n)]).
Proof.
  intros Hz Hh Hc Hl Ht Hd Ha Hn Hnz Hv. destruct (hwf_regions _ _ Hh) as [Hpw _]. unfold enqueue. rewrite (chan_step _ _ _ _ Hc).
  destruct xs as [|[t nt] ys _] using rev_ind.
  - cbn in Hl, Ht. rewrite Hl. apply Forall2_nil_inv_l in Hd as ->. cbn [Z.eqb].
    eexists _, [(a, n)], a. split; [reflexivity|]. cbn. split_and!; try done. constructor; [done|constructor].
  - rewrite last_addr_snoc in Ht. cbn in Ht. apply linked_app in Hl as (m & Hl & -> & Htz & Hnt & Hnn). cbn in Htz, Hnt, Hnn, Hl.
    assert (Hhz : c_head c <> 0) by (destruct ys as [|x ys]; cbn in Hl; [congruence|destruct Hl as (-> & ? & _); done]).
    destruct (Z.eqb_spec (c_head c) 0); [done|]. rewrite Ht, (node_step _ _ _ _ Hnt), put_node_step.
    apply Forall2_app_inv_l in Hd as (q1 & q2 & Hd1 & Hd2 & ->).
    pose proof (pairwise_app _ _ Hpw) as Hpw2. apply nodup_addr in Hpw2; [|done].
    rewrite fmap_app, NoDup_app in Hpw2. destruct Hpw2 as (_ & Hnd & _).
    assert (Hta : t <> a).
    { intros ->. assert (Hp : pairwise ((a, sizeof) :: regions (ys ++ [(a, nt)]) ++ rs)).
      { unfold node_regions in Hpw. cbn [fst snd] in Hpw. destruct (data n =? 0); cbn [app] in Hpw; [done|].
        destruct Hpw as [H1 [_ H3]]. split; [|done]. intros r Hr. apply H1. by right. }
      apply (fresh_addr _ _ _ Hz) in Hp. apply Hp. rewrite fmap_app. apply elem_of_app. right. by left. }
    eexists _, (ys ++ [(t, set_link a nt); (a, n)]), (c_head c). split; [reflexivity|]. cbn [i_heap set_chans set_nodes].
    split_and!; try done.
    + apply linked_app. exists t. cbn. rewrite lookup_insert_eq, lookup_insert_ne by done. split; [|done].
      apply linked_insert; [|done]. intros Hin. apply (Hnd t Hin). by left.
    + change (last_addr (ys ++ [(t, set_link a nt)] ++ [(a, n)]) = a). by rewrite app_assoc, last_addr_snoc.
    + rewrite <-app_assoc. apply Forall2_app; [done|]. apply Forall2_cons_inv_l in Hd2 as (w & q3 & Hw & Hq3 & ->).
      apply Forall2_nil_inv_l in Hq3 as ->.
      constructor; [done|]. constructor; [done|constructor].
    + change [(t, set_link a nt); (a, n)] with ([(t, set_link a nt)] ++ [(a, n)]). by rewrite !regions_app, <-app_assoc.
Qed.

(** Unlinking [x] from between [ys] and [zs]. *)
Lemma unlink_ok nodes h ys x zs k :
  linked nodes h (ys ++ x :: zs) 0 -> NoDup (ys ++ x :: zs).*1 ->
  match last ys with
  | None => h = x.1 /\ linked (<[x.1 := k]> nodes) (n_next x.2) zs 0
  | Some y => nodes !! y.1 = Some y.2 /\
      linked (<[x.1 := k]> (<[y.1 := set_link (n_next x.2) y.2]> nodes)) h
        (removelast ys ++ (y.1, set_link (n_next x.2) y.2) :: zs) 0
  end.
Proof.
  intros Hl Hnd. destruct ys as [|y ys _] using rev_ind.
  - cbn in *. destruct Hl as (-> & _ & _ & Hl). split; [done|]. inversion Hnd. by apply linked_insert.
  - rewrite last_snoc. rewrite <-app_assoc in Hl, Hnd. cbn [app] in Hl, Hnd. apply linked_app in Hl as (m & Hl & Hr).
    cbn in Hr. destruct Hr as (-> & Hy0 & Hy & Ex & Hx0 & Hx & Hz). split; [done|].
    rewrite removelast_last, fmap_app, !fmap_cons in *. apply NoDup_app in Hnd as (_ & Hdis & Hnd).
    apply NoDup_cons in Hnd as [Hy1 Hnd]. apply NoDup_cons in Hnd as [Hx1 _]. rewrite not_elem_of_cons in Hy1.
    apply linked_app. exists y.1. cbn [linked fst snd]. split.
    + apply linked_insert; [intros Hin; apply (Hdis _ Hin); right; by left|].
      apply linked_insert; [intros Hin; apply (Hdis _ Hin); by left|done].
    + rewrite lookup_insert_ne by (intros E; symmetry in E; by apply Hy1 in E). rewrite lookup_insert_eq. split_and!; [done..|].
      apply linked_insert; [done|]. apply linked_insert; [tauto|done].
Qed.

(** ** Steps shared by pipes and message queues *)

Lemma owned_pos s p c xs q rs a n : q_rep s p c xs q rs -> owned rs a n -> 0 < a.
Proof.
  intros Hq (u & k & Hin & ? & ?). destruct (hwf_regions _ _ (qr_heap _ _ _ _ _ _ Hq)) as [_ Hr].
  specialize (Hr u k ltac:(apply elem_of_app; by right)). lia.
Qed.

Lemma q_rep_mutexes m s p c xs q rs :
  q_rep s p c xs q rs -> q_rep (set_mutexes m s) p c xs q rs.
Proof. by intros [? ? ? ? ? ?]. Qed.

(** What a guarded body may change, seen from outside. *)
Lemma idle_after s s' c c' a m :
  same_env (held s a m) s' -> i_cvs s' = i_cvs s -> a = c_mutex c -> free_mutex m -> idle s c ->
  c_mutex c' = c_mutex c -> c_rcv c' = c_rcv c -> c_wcv c' = c_wcv c ->
  forall m2, free_mutex m2 -> idle (set_mutexes (<[a := m2]> (i_mutexes s')) s') c'.
Proof.
  intros He Hcv -> Hf [_ Hr Hw Hq] E1 E2 E3 m2 Hm2. split.
  - exists m2. rewrite E1. cbn. by rewrite lookup_insert_eq.
  - cbn. by rewrite Hcv, E2.
  - cbn. by rewrite Hcv, E3.
  - change (quiet s'). apply (quiet_env _ _ He). exact Hq.
Qed.

Lemma store_out_ok s rs1 rs2 o v :
  hwf (i_heap s) (rs1 ++ rs2) -> (o <> 0 -> owned rs2 o 4) ->
  exists m', store_out o v s = Some (tt, set_imem m' s) /\ hwf (i_heap (set_imem m' s)) (rs1 ++ rs2) /\
    same_on rs1 (i_mem s) m' /\ (o <> 0 -> read32 m' o = u32 v) /\
    forall b, o = 0 \/ b < o \/ o + 4 <= b -> read8 m' b = read8 (i_mem s) b.
Proof.
  intros Hh Ho. unfold store_out. destruct (Z.eqb_spec o 0) as [->|Hne].
  - exists (i_mem s). assert (E : set_imem (i_mem s) s = s) by by destruct s as [? [[] ? ? ? ? ? ? ?] ? ? ? ?]; destruct k_heap.
    rewrite E. split_and!; try done.
  - exists (write32 (i_mem s) o v). split; [done|]. specialize (Ho Hne). split_and!.
    + apply (hwf_write32 (i_heap s)); [done|]. destruct Ho as (u & k & Hin & ?). exists u, k. split; [apply elem_of_app; by right|done].
    + apply (owned_same_on rs1 rs2 _ _ o 4); [by apply (hwf_regions _ _ Hh)|done|]. intros b Hb. by apply read8_write32_ne.
    + intros _. apply read32_write32_eq.
    + intros b [?|Hb]; [done|]. by apply read8_write32_ne.
Qed.

(** Several out parameters, none of which overlaps another. *)
Fixpoint apart_ptrs (ps : list Z) : Prop :=
  match ps with
  | [] => True
  | p :: ps' => Forall (fun r => p <> 0 -> r <> 0 -> apart (p, 4) (r, 4)) ps' /\ apart_ptrs ps'
  end.
Definition outside (ps : list Z) (b : Z) : Prop := Forall (fun p => p = 0 \/ b < p \/ p + 4 <= b) ps.

Lemma store_outs_ok s rs1 rs2 os :
  hwf (i_heap s) (rs1 ++ rs2) -> Forall (fun p => p <> 0 -> owned rs2 p 4) os.*1 -> apart_ptrs os.*1 ->
  exists m', store_outs os s = Some (tt, set_imem m' s) /\ hwf (i_heap (set_imem m' s)) (rs1 ++ rs2) /\
    same_on rs1 (i_mem s) m' /\ Forall (fun o => o.1 <> 0 -> read32 m' o.1 = u32 o.2) os /\
    forall b, outside os.*1 b -> read8 m' b = read8 (i_mem s) b.
Proof.
  revert s. induction os as [|[p v] os IH]; intros s Hh Ho Ha; cbn [store_outs].
  { exists (i_mem s). assert (E : set_imem (i_mem s) s = s) by by destruct s as [? [[] ? ? ? ? ? ? ?] ? ? ? ?]; destruct k_heap.
    rewrite E. split_and!; try done. }
  rewrite fmap_cons in *. apply Forall_cons in Ho as [Hp Ho]. destruct Ha as [Hap Ha]. cbn [fst snd] in *.
  destruct (store_out_ok s rs1 rs2 p v Hh Hp) as (m1 & E1 & Hh1 & Hs1 & Hr1 & Hf1). rewrite (bind_step _ _ _ _ _ E1).
  destruct (IH (set_imem m1 s) Hh1 Ho Ha) as (m2 & E2 & Hh2 & Hs2 & Hr2 & Hf2). change (i_mem (set_imem m1 s)) with m1 in *.
  exists m2. split; [exact E2|]. split; [done|]. split; [by eapply same_on_trans|]. split.
  - constructor; [|done]. cbn [fst snd]. intros Hne. rewrite <-Hr1 by done. apply read32_ext. intros i Hi. apply Hf2.
    unfold outside. eapply Forall_impl; [exact Hap|]. cbn. intros r Hq. destruct (decide (r = 0)); [by left|right].
    specialize (Hq Hne ltac:(done)). unfold apart in Hq. cbn in Hq. lia.
  - intros b Hb. apply Forall_cons in Hb as [Hb1 Hb2]. by rewrite Hf2, Hf1.
Qed.

Lemma linked_next (nodes : gmap Z (node H)) h xs : linked nodes h xs 0 -> (h = 0 <-> xs = []).
Proof. destruct xs as [|x xs]; cbn; [done|]. intros (-> & ? & _). done. Qed.

Lemma linked_size (nodes : gmap Z (node H)) h xs z : linked nodes h xs z -> NoDup xs.*1 -> (length xs <= size nodes)%nat.
Proof.
  intros Hl Hnd. assert (Hs : list_to_set xs.*1 ⊆@{gset Z} dom nodes).
  { intros a Ha%elem_of_list_to_set. clear Hnd. revert h Hl. induction xs as [|x xs IH]; intros h Hl; [by apply not_elem_of_nil in Ha|].
    destruct Hl as (_ & _ & Hx & Hl). rewrite fmap_cons in Ha. apply elem_of_cons in Ha as [->|Ha]; [apply elem_of_dom; eauto|by apply (IH Ha _ Hl)]. }
  apply subseteq_size in Hs. rewrite size_list_to_set, size_dom, length_fmap in Hs; done.
Qed.

Lemma flush_loop_ok fuel s p c xs q rs :
  0 < sizeof -> q_rep s p c xs q rs -> (length xs <= fuel)%nat ->
  exists s' rs', flush_loop fuel p s = Some (tt, s') /\ same_env s s' /\ i_cvs s' = i_cvs s /\
    i_chans s' = <[p := set_ends 0 (c_tail c) c]> (i_chans s) /\ hwf (i_heap s') rs' /\
    same_on rs (i_mem s) (i_mem s') /\ (forall r, r ∈ rs -> r ∈ rs').
Proof.
  intros Hz [Hh Hc Hl _ _ _]. revert s c xs rs Hh Hc Hl. induction fuel as [|fuel IH]; intros s c xs rs Hh Hc Hl Hf.
  - destruct xs; cbn in Hf, Hl; [|lia]. cbn [flush_loop]. rewrite (chan_step _ _ _ _ Hc), Hl. cbn [Z.eqb].
    eexists s, rs. split; [done|]. split_and!; try done. rewrite insert_id; [done|]. rewrite Hc. by destruct c; cbn in Hl; subst.
  - cbn [flush_loop]. rewrite (chan_step _ _ _ _ Hc). destruct xs as [|[a n] xs].
    { cbn in Hl. rewrite Hl. cbn [Z.eqb]. eexists s, rs. split; [done|]. split_and!; try done. rewrite insert_id; [done|].
      rewrite Hc. by destruct c; cbn in Hl; subst. }
    destruct Hl as (Ha & Haz & Hna & Hl). cbn in Ha, Haz, Hna, Hl. rewrite Ha. destruct (Z.eqb_spec a 0); [done|].
    rewrite (node_step _ _ _ _ Hna), put_chan_step. set (s1 := set_chans _ s).
    change ((a, n) :: xs) with ([(a, n)] ++ xs) in Hh. rewrite regions_app, regions_one in Hh. unfold node_regions in Hh. cbn [fst snd app] in Hh.
    assert (Hp : hwf (i_heap s1) ((if data n =? 0 then [] else [(data n, data_size n)]) ++
      regions xs ++ (a, sizeof) :: rs)).
    { eapply hwf_perm; [|exact Hh]. rewrite <-app_assoc. rewrite <-(Permutation_middle (regions xs)).
      by rewrite <-(Permutation_middle (if data n =? 0 then _ else _)). }
    destruct (delete_node_ok s1 _ a n Hna Haz Hp) as (s2 & E2 & [He2 Hch2 Hcv2] & Hso2 & Hh2 & n' & Hno2).
    rewrite (bind_step _ _ _ _ _ E2). assert (Hfr : a ∉ xs.*1).
    { destruct (hwf_regions _ _ Hh2) as [Hpw _]. rewrite <-Permutation_middle in Hpw.
      apply (fresh_addr xs a rs); [done|done]. }
    destruct (IH s2 (set_ends (n_next n) (c_tail c) c) xs ((a, sizeof) :: rs)) as
      (s3 & rs3 & E3 & He3 & Hcv3 & Hch3 & Hh3 & Hso3 & Hin3); [done|rewrite Hch2; apply lookup_insert_eq| |cbn in Hf; lia|].
    { rewrite Hno2. by apply linked_insert. }
    exists s3, rs3. split; [done|]. split; [eapply same_env_trans; [|exact He3]; by destruct He2|]. split; [by rewrite Hcv3, Hcv2|].
    split; [rewrite Hch3, Hch2; cbn; by rewrite insert_insert_eq|]. split; [done|]. split.
    + eapply same_on_trans; [|eapply same_on_sub; [|exact Hso3]]; [|intros r ?; by right].
      eapply same_on_sub; [|exact Hso2]. intros r Hr. apply elem_of_app. right. by right.
    + intros r Hr. apply Hin3. by right.
Qed.

(** The table holds null pointers and channels. *)
Definition table_ok s (tab : list Z) : Prop := Forall (fun p => p = 0 \/ is_Some (i_chans s !! p)) tab.

Lemma find_slot_ok f (P : chan X -> Prop) s tab k :
  table_ok s tab -> (forall c, exists b, f c s = Some (b, s) /\ (b = true <-> P c)) ->
  exists i, find_slot f tab k s = Some (i, s) /\
    ((i = -1 /\ forall p c, p ∈ tab -> p <> 0 -> i_chans s !! p = Some c -> ~ P c) \/
     exists j p c, i = k + Z.of_nat j /\ tab !! j = Some p /\ p <> 0 /\ i_chans s !! p = Some c /\ P c /\
       forall j' p' c', (j' < j)%nat -> tab !! j' = Some p' -> p' <> 0 -> i_chans s !! p' = Some c' -> ~ P c').
Proof.
  intros Ht Hf. revert k. induction Ht as [|p tab Hp Ht IH]; intros k; cbn [find_slot].
  { exists (-1). split; [done|]. left. split; [done|]. intros p c Hin. by apply not_elem_of_nil in Hin. }
  destruct (IH (k + 1)) as (i & E & Hi).
  assert (Hskip : (forall c, p <> 0 -> i_chans s !! p = Some c -> ~ P c) -> exists i, find_slot f tab (k + 1) s = Some (i, s) /\
    ((i = -1 /\ forall p0 c, p0 ∈ p :: tab -> p0 <> 0 -> i_chans s !! p0 = Some c -> ~ P c) \/
     exists j p0 c, i = k + Z.of_nat j /\ (p :: tab) !! j = Some p0 /\ p0 <> 0 /\ i_chans s !! p0 = Some c /\ P c /\
       forall j' p' c', (j' < j)%nat -> (p :: tab) !! j' = Some p' -> p' <> 0 -> i_chans s !! p' = Some c' -> ~ P c')).
  { intros Hno. exists i. split; [done|]. destruct Hi as [[-> Hall]|(j & p0 & c & -> & ? & ? & ? & ? & Hlt)]; [left|right].
    - split; [done|]. intros p0 c [->|Hin]%elem_of_cons; [apply Hno|by apply Hall].
    - exists (Datatypes.S j), p0, c. split_and!; try done; [lia|]. intros [|j'] p' c' Hj' Hp' ? ?; [injection Hp' as <-; by apply Hno|].
      eapply Hlt; [|done..]. lia. }
  destruct (Z.eqb_spec p 0) as [->|Hpz]; [apply Hskip; done|]. destruct Hp as [?|[c Hc]]; [done|].
  rewrite (chan_step _ _ _ _ Hc). destruct (Hf c) as (b & Eb & HP). rewrite (bind_step _ _ _ _ _ Eb). destruct b.
  - exists k. split; [done|]. right. exists 0%nat, p, c. split_and!; try done; [lia|by apply HP|]. intros j' ? ? Hj'. lia.
  - apply Hskip. intros c' _ Hc' HPc. rewrite Hc in Hc'. injection Hc' as <-. by apply HP in HPc.
Qed.

Lemma new_mutex_ok s rs :
  hwf (i_heap s) rs -> g_heapEnd (i_heap s) + 5000 <= 2 ^ 32 ->
  exists a s', new_mutex s = Some (a, s') /\ same_on rs (i_mem s) (i_mem s') /\
    i_on s' = i_on s /\ current_task (i_sched s') = current_task (i_sched s) /\ i_threads s' = i_threads s /\
    i_chans s' = i_chans s /\ i_cvs s' = i_cvs s /\ i_nodes s' = i_nodes s /\ g_heapEnd (i_heap s') <= g_heapEnd (i_heap s) + 4300 /\
    (a = 0 /\ hwf (i_heap s') rs \/
     a <> 0 /\ hwf (i_heap s') ((a, SIZEOF_MUTEX) :: rs) /\ i_mutexes s' !! a = Some Mutex_new).
Proof.
  intros Hh Hend. unfold new_mutex.
  destruct (hwf_alloc (i_heap s) rs SIZEOF_MUTEX Hh) as (a & h' & E & Hso & He & Hr); [unfold SIZEOF_MUTEX; lia|unfold SIZEOF_MUTEX; lia|].
  rewrite (hp_step _ _ _ _ _ E). unfold SIZEOF_MUTEX in *. destruct Hr as [(-> & Hh' & _)|(Ha & Hh')].
  - eexists 0, _. split; [done|]. split_and!; try done; [cbn; lia|]. by left.
  - destruct (Z.eqb_spec a 0); [done|]. eexists a, _. split; [reflexivity|]. split_and!; try done; [cbn; lia|].
    right. split_and!; try done. cbn. apply lookup_insert_eq.
Qed.

Lemma new_cv_ok s rs :
  hwf (i_heap s) rs -> g_heapEnd (i_heap s) + 5000 <= 2 ^ 32 ->
  exists a s', new_cv s = Some (a, s') /\ same_on rs (i_mem s) (i_mem s') /\
    i_on s' = i_on s /\ current_task (i_sched s') = current_task (i_sched s) /\ i_threads s' = i_threads s /\
    i_chans s' = i_chans s /\ i_mutexes s' = i_mutexes s /\ i_nodes s' = i_nodes s /\ g_heapEnd (i_heap s') <= g_heapEnd (i_heap s) + 4300 /\
    (a = 0 /\ hwf (i_heap s') rs /\ i_cvs s' = i_cvs s \/
     a <> 0 /\ hwf (i_heap s') ((a, SIZEOF_CV) :: rs) /\ i_cvs s' = <[a := mk_cv 0]> (i_cvs s)).
Proof.
  intros Hh Hend. unfold new_cv.
  destruct (hwf_alloc (i_heap s) rs SIZEOF_CV Hh) as (a & h' & E & Hso & He & Hr); [unfold SIZEOF_CV; lia|unfold SIZEOF_CV; lia|].
  rewrite (hp_step _ _ _ _ _ E). unfold SIZEOF_CV in *. destruct Hr as [(-> & Hh' & _)|(Ha & Hh')].
  - eexists 0, _. split; [done|]. split_and!; try done; [cbn; lia|]. by left.
  - destruct (Z.eqb_spec a 0); [done|]. eexists a, _. split; [reflexivity|]. split_and!; try done; [cbn; lia|]. by right.
Qed.
End Queues.

Lemma copy_name_ok m nm t : cstr m nm t -> copy_name m nm = take 31 t.
Proof.
  intros Hc. unfold copy_name. rewrite (strlen_ok _ _ _ Hc).
  assert (Hs : forall k, (k <= length t)%nat -> (fun i => str_at m nm i) <$> seqZ 0 (Z.of_nat k) = take k t).
  { intros k Hk. apply list_eq. intros i. rewrite list_lookup_fmap. destruct (decide (i < k)%nat).
    - rewrite lookup_seqZ_lt by lia. rewrite lookup_take_lt by done. destruct (lookup_lt_is_Some_2 t i) as [c Ei]; [lia|].
      rewrite Ei. cbn. f_equal. unfold str_at. rewrite Z.add_0_l. by apply (cstr_stored _ _ _ Hc).
    - rewrite lookup_seqZ_ge by lia. by rewrite lookup_take_ge by lia. }
  destruct (Z.leb_spec 32 (Z.of_nat (length t))).
  - apply (Hs 31%nat). lia.
  - rewrite (Hs (length t)) by lia. rewrite firstn_all. symmetry. apply take_ge. lia.
Qed.
