(* ===== verification/Pipe.v ===== *)
(** Pipes: [src/kernel/src/process/pipe.cpp] and
    [src/kernel/include/process/pipe.hpp].

    A pipe is a queue of messages, each in a heap block of its own.  The
    theorems relate it to the list of the messages (sender and bytes) it
    holds.  [fuel] bounds the passes of the waiting loops, in which a thread
    alone never makes progress; without waiting one pass is enough. *)
From S2P Require Import Prelude Memory Strings Heap Thread Scheduler Sync Ipc.

(** The fields of [Pipe] that a message queue does not have.  [name] holds the
    characters before the terminator. *)
Record pipe_ext := mk_ext {
  pipe_id : Z;
  name : list Z;
  buffer_size : Z;
  current_size : Z;
  max_messages : Z;
  readers : list Z;
  writers : list Z;
  reader_count : Z;
  writer_count : Z;
}.

Definition set_current_size (n : Z) (x : pipe_ext) : pipe_ext :=
  mk_ext (pipe_id x) (name x) (buffer_size x) n (max_messages x) (readers x) (writers x) (reader_count x) (writer_count x).
Definition set_readers (r : list Z) (n : Z) (x : pipe_ext) : pipe_ext :=
  mk_ext (pipe_id x) (name x) (buffer_size x) (current_size x) (max_messages x) r (writers x) n (writer_count x).
Definition set_writers (w : list Z) (n : Z) (x : pipe_ext) : pipe_ext :=
  mk_ext (pipe_id x) (name x) (buffer_size x) (current_size x) (max_messages x) (readers x) w (reader_count x) n.

Abbreviation Pipe := (chan pipe_ext).
(** The header of a [PipeMessage] is the id of its sender. *)
Abbreviation PipeMessage := (node Z).

Definition SIZEOF_PIPE_MESSAGE : Z := 16.
Definition SIZEOF_PIPE : Z := 148.

Definition IsEmpty (c : Pipe) : bool := c_count c =? 0.
Definition IsFull (c : Pipe) : bool :=
  (buffer_size (c_ext c) <=? current_size (c_ext c)) || (max_messages (c_ext c) <=? c_count c).
Definition GetAvailableSpace (c : Pipe) : Z := u32 (buffer_size (c_ext c) - current_size (c_ext c)).

(** [String::strcmp(pipe->GetName(), name, strlen(name)) == 0]: the names are
    compared on the length of the one looked for. *)
Definition name_matches (m : mem) (nm : Z) (c : Pipe) : bool :=
  strncmp_loop (Z.to_nat (strlen m nm)) (str_of (name (c_ext c))) (str_at m nm) 0 =? 0.

Section Model.
Context {S : Type} `{PS : PageSupply S}.
Abbreviation st := (ipc S Z pipe_ext).

(** * Pipe *)

(** [new Pipe(id, name, buffer_sz, max_msgs)]. *)
Definition Pipe_new (id nm buffer_sz max_msgs : Z) : ST st Z :=
  let! p := hp (Alloc SIZEOF_PIPE 8) in
  if p =? 0 then ret 0
  else
    let! m := gets i_mem in
    let! mutex := new_mutex in
    let! rcv := new_cv in
    let! wcv := new_cv in
    put_chan p (mk_chan 0 0 0 mutex rcv wcv false true
      (mk_ext id (copy_name m nm) buffer_sz 0 max_msgs (replicate 8 0) (replicate 8 0) 0 0));;;
    ret p.

(** The scan of [readers] or [writers] for a thread id: its index or -1. *)
Fixpoint member_loop (n : nat) (arr : list Z) (i id : Z) : ST st Z :=
  match n with
  | O => ret (-1)
  | Datatypes.S n' =>
      match arr !! Z.to_nat i with
      | None => stuck
      | Some t =>
          if t =? 0 then member_loop n' arr (i + 1) id
          else
            let! x := thread_of t in
            if task_id x =? id then ret i else member_loop n' arr (i + 1) id
      end
  end.
Definition member_index (arr : list Z) (cnt id : Z) : ST st Z := member_loop (Z.to_nat cnt) arr 0 id.

(** [for (j = i; j < cnt - 1; j++) arr[j] = arr[j + 1]; arr[--cnt] = nullptr]. *)
Fixpoint shift_loop (n : nat) (arr : list Z) (j : nat) : list Z :=
  match n with
  | O => arr
  | Datatypes.S n' => shift_loop n' (<[j := default 0 (arr !! Datatypes.S j)]> arr) (Datatypes.S j)
  end.
Definition remove_at (arr : list Z) (cnt i : Z) : list Z :=
  <[Z.to_nat (cnt - 1) := 0]> (shift_loop (Z.to_nat (cnt - 1 - i)) arr (Z.to_nat i)).

Definition CanRead (p id : Z) : ST st bool :=
  let! c := chan_at p in
  if reader_count (c_ext c) =? 0 then ret true
  else let! i := member_index (readers (c_ext c)) (reader_count (c_ext c)) id in ret (0 <=? i).
Definition CanWrite (p id : Z) : ST st bool :=
  let! c := chan_at p in
  if writer_count (c_ext c) =? 0 then ret true
  else let! i := member_index (writers (c_ext c)) (writer_count (c_ext c)) id in ret (0 <=? i).

(** [while (IsFull()) { if (!block || is_closed) return false; Wait }]. *)
Fixpoint wait_room (fuel : nat) (p : Z) (block : bool) : ST st bool :=
  let! c := chan_at p in
  if negb (IsFull c) then ret true
  else if negb block || c_closed c then ret false
  else match fuel with
  | O => stuck
  | Datatypes.S fuel' => on_mutex (c_mutex c) (CV_Wait fuel);;; wait_room fuel' p block
  end.

(** What [Write] does while it holds the mutex. *)
Definition write_body (fuel : nat) (p sender dat size : Z) (block : bool) : ST st bool :=
  let! room := wait_room fuel p block in
  if negb room then ret false
  else
    let! a := new_node SIZEOF_PIPE_MESSAGE sender size dat in
    let! ok := (if a =? 0 then ret false else let! n := node_at a in ret (negb (data n =? 0))) in
    if negb ok then delete_node a;;; ret false
    else
      enqueue p a;;;
      upd_chan p (fun c => set_count (u32 (c_count c + 1))
        (set_ext (set_current_size (u32 (current_size (c_ext c) + size)) (c_ext c)) c));;;
      let! c := chan_at p in
      on_cv (c_rcv c) CV_Signal;;;
      ret true.

Definition Write (fuel : nat) (p sender dat size : Z) (block : bool) : ST st bool :=
  let! c := chan_at p in
  if (dat =? 0) || (size =? 0) || c_closed c then ret false
  else
    let! can := CanWrite p sender in
    if negb can then ret false else guard fuel (c_mutex c) (write_body fuel p sender dat size block).

(** [while (IsEmpty()) { if (!block || is_closed) return false; Wait }]. *)
Fixpoint wait_message (fuel : nat) (p : Z) (block : bool) : ST st bool :=
  let! c := chan_at p in
  if negb (IsEmpty c) then ret true
  else if negb block || c_closed c then ret false
  else match fuel with
  | O => stuck
  | Datatypes.S fuel' => on_mutex (c_mutex c) (CV_Wait fuel);;; wait_message fuel' p block
  end.

(** The bytes of the message, cut to the buffer, and the out parameters. *)
Definition copy_out (n : PipeMessage) (buffer bufsz bytes_read sender_id : Z) : ST st unit :=
  let copy_size := if data_size n <? bufsz then data_size n else bufsz in
  modify (fun s => set_imem (memcpy (i_mem s) buffer (data n) (Z.to_nat copy_size)) s);;;
  store_out bytes_read copy_size;;;
  store_out sender_id (n_hdr n).

(** What [Read] does while it holds the mutex. *)
Definition read_body (fuel : nat) (p buffer bufsz bytes_read sender_id : Z) (block : bool) : ST st bool :=
  let! avail := wait_message fuel p block in
  if negb avail then store_out bytes_read 0;;; ret false
  else
    let! c := chan_at p in
    let a := c_head c in
    if a =? 0 then store_out bytes_read 0;;; ret false
    else
      let! n := node_at a in
      copy_out n buffer bufsz bytes_read sender_id;;;
      upd_chan p (fun c => set_ends (n_next n) (if n_next n =? 0 then 0 else c_tail c) c);;;
      upd_chan p (fun c => set_count (u32 (c_count c - 1))
        (set_ext (set_current_size (u32 (current_size (c_ext c) - data_size n)) (c_ext c)) c));;;
      delete_node a;;;
      let! c := chan_at p in
      on_cv (c_wcv c) CV_Signal;;;
      ret true.

Definition Read (fuel : nat) (p reader buffer bufsz bytes_read sender_id : Z) (block : bool) : ST st bool :=
  let! c := chan_at p in
  if (buffer =? 0) || (bufsz =? 0) || c_closed c then ret false
  else
    let! can := CanRead p reader in
    if negb can then ret false
    else guard fuel (c_mutex c) (read_body fuel p buffer bufsz bytes_read sender_id block).

Definition Peek (fuel : nat) (p buffer bufsz bytes_available sender_id : Z) : ST st bool :=
  let! c := chan_at p in
  if (buffer =? 0) || (bufsz =? 0) || c_closed c then ret false
  else guard fuel (c_mutex c) (
    let! c := chan_at p in
    if IsEmpty c || (c_head c =? 0) then store_out bytes_available 0;;; ret false
    else
      let! n := node_at (c_head c) in
      copy_out n buffer bufsz bytes_available sender_id;;;
      ret true).

Definition AddReader (fuel : nat) (p thread : Z) : ST st bool :=
  let! c := chan_at p in
  if (thread =? 0) || (8 <=? reader_count (c_ext c)) then ret false
  else guard fuel (c_mutex c) (
    let! c := chan_at p in
    let! t := thread_of thread in
    let! i := member_index (readers (c_ext c)) (reader_count (c_ext c)) (task_id t) in
    if 0 <=? i then ret true
    else
      upd_chan p (fun c => set_ext (set_readers
        (<[Z.to_nat (reader_count (c_ext c)) := thread]> (readers (c_ext c))) (reader_count (c_ext c) + 1) (c_ext c)) c);;;
      ret true).
Definition AddWriter (fuel : nat) (p thread : Z) : ST st bool :=
  let! c := chan_at p in
  if (thread =? 0) || (8 <=? writer_count (c_ext c)) then ret false
  else guard fuel (c_mutex c) (
    let! c := chan_at p in
    let! t := thread_of thread in
    let! i := member_index (writers (c_ext c)) (writer_count (c_ext c)) (task_id t) in
    if 0 <=? i then ret true
    else
      upd_chan p (fun c => set_ext (set_writers
        (<[Z.to_nat (writer_count (c_ext c)) := thread]> (writers (c_ext c))) (writer_count (c_ext c) + 1) (c_ext c)) c);;;
      ret true).

Definition RemoveReader (fuel : nat) (p id : Z) : ST st bool :=
  let! c := chan_at p in
  guard fuel (c_mutex c) (
    let! c := chan_at p in
    let! i := member_index (readers (c_ext c)) (reader_count (c_ext c)) id in
    if i <? 0 then ret false
    else
      upd_chan p (fun c => set_ext (set_readers
        (remove_at (readers (c_ext c)) (reader_count (c_ext c)) i) (reader_count (c_ext c) - 1) (c_ext c)) c);;;
      ret true).
Definition RemoveWriter (fuel : nat) (p id : Z) : ST st bool :=
  let! c := chan_at p in
  guard fuel (c_mutex c) (
    let! c := chan_at p in
    let! i := member_index (writers (c_ext c)) (writer_count (c_ext c)) id in
    if i <? 0 then ret false
    else
      upd_chan p (fun c => set_ext (set_writers
        (remove_at (writers (c_ext c)) (writer_count (c_ext c)) i) (writer_count (c_ext c) - 1) (c_ext c)) c);;;
      ret true).

Definition Close (fuel : nat) (p : Z) : ST st unit :=
  let! c := chan_at p in
  guard fuel (c_mutex c) (
    upd_chan p (set_closed true);;;
    on_cv (c_rcv c) (CV_Broadcast fuel);;;
    on_cv (c_wcv c) (CV_Broadcast fuel)).

Definition Flush (fuel : nat) (p : Z) : ST st unit :=
  let! c := chan_at p in
  guard fuel (c_mutex c) (
    let! n := gets (fun s => size (i_nodes s)) in
    flush_loop n p;;;
    upd_chan p (fun c => set_count 0 (set_ends (c_head c) 0 (set_ext (set_current_size 0 (c_ext c)) c)));;;
    on_cv (c_wcv c) (CV_Broadcast fuel)).

(** * Pipe manager *)

(** [delete pipe]: [~Pipe], after which the pipe and its synchronisation
    objects are no longer accessible. *)
Definition Pipe_delete (fuel : nat) (p : Z) : ST st unit :=
  let! c := chan_at p in
  Close fuel p;;;
  Flush fuel p;;;
  delete_mutex fuel (c_mutex c);;;
  delete_cv fuel (c_rcv c);;;
  delete_cv fuel (c_wcv c);;;
  modify (fun s => set_chans (delete p (i_chans s)) s).

(** [new PipeManager()]. *)
Definition PipeManager_new : ST st manager :=
  let! m := new_mutex in ret (mk_mgr (replicate 64 0) 0 1 m).

Abbreviation mst := (manager * st)%type.

Definition FindPipeIndex_id (id : Z) : ST mst Z :=
  let! g := gets fst in
  on_ipc (find_slot (fun c => ret (pipe_id (c_ext c) =? id)) (m_table g) 0).

Definition FindPipeIndex_name (nm : Z) : ST mst Z :=
  if nm =? 0 then ret (-1)
  else
    let! g := gets fst in
    on_ipc (
      let! m := gets i_mem in
      find_slot (fun c => ret (name_matches m nm c)) (m_table g) 0).

Definition FindPipe_id (id : Z) : ST mst Z := let! i := FindPipeIndex_id id in slot_at i.
Definition FindPipe_name (nm : Z) : ST mst Z :=
  if nm =? 0 then ret 0 else let! i := FindPipeIndex_name nm in slot_at i.

Definition CreatePipe (fuel : nat) (nm buffer_sz max_msgs : Z) : ST mst Z :=
  let! g := gets fst in
  if (nm =? 0) || (64 <=? m_count g) then ret 0
  else mguard fuel (
    let! i := FindPipeIndex_name nm in
    if 0 <=? i then ret 0
    else
      let slot := empty_slot (m_table g) 0 in
      if slot <? 0 then ret 0
      else
        set_mgr (fun g => mk_mgr (m_table g) (m_count g) (u32 (m_next_id g + 1)) (m_mutex g));;;
        let! p := on_ipc (Pipe_new (m_next_id g) nm buffer_sz max_msgs) in
        if p =? 0 then ret 0
        else
          set_mgr (fun g => mk_mgr (<[Z.to_nat slot := p]> (m_table g)) (m_count g + 1) (m_next_id g) (m_mutex g));;;
          ret p).

(** [delete pipes[index]; pipes[index] = nullptr; pipe_count--]. *)
Definition destroy_at (fuel : nat) (i : Z) : ST mst bool :=
  if i <? 0 then ret false
  else
    let! p := slot_at i in
    on_ipc (Pipe_delete fuel p);;;
    set_mgr (fun g => mk_mgr (<[Z.to_nat i := 0]> (m_table g)) (u32 (m_count g - 1)) (m_next_id g) (m_mutex g));;;
    ret true.
Definition DestroyPipe_id (fuel : nat) (id : Z) : ST mst bool :=
  mguard fuel (let! i := FindPipeIndex_id id in destroy_at fuel i).
Definition DestroyPipe_name (fuel : nat) (nm : Z) : ST mst bool :=
  if nm =? 0 then ret false else mguard fuel (let! i := FindPipeIndex_name nm in destroy_at fuel i).

Fixpoint close_slots (fuel : nat) (tab : list Z) : ST st unit :=
  match tab with
  | [] => ret tt
  | p :: tab' => (if p =? 0 then ret tt else Pipe_delete fuel p);;; close_slots fuel tab'
  end.
Definition CloseAllPipes (fuel : nat) : ST mst unit :=
  mguard fuel (
    let! g := gets fst in
    on_ipc (close_slots fuel (m_table g));;;
    set_mgr (fun g => mk_mgr (replicate 64 0) 0 (m_next_id g) (m_mutex g))).

(** * PipeAPI *)

(** [g_pipe_manager], null before the manager exists. *)
Abbreviation ast := (option manager * st)%type.

Definition API_CreatePipe (fuel : nat) (nm buffer_sz max_msgs : Z) : ST ast Z :=
  on_mgr 0 (
    let! p := CreatePipe fuel nm buffer_sz max_msgs in
    if p =? 0 then ret 0 else let! c := on_ipc (chan_at p) in ret (pipe_id (c_ext c))).
Definition API_DestroyPipe_id (fuel : nat) (id : Z) : ST ast bool := on_mgr false (DestroyPipe_id fuel id).
Definition API_DestroyPipe_name (fuel : nat) (nm : Z) : ST ast bool := on_mgr false (DestroyPipe_name fuel nm).

(** [!g_pipe_manager || !g_scheduler], the lookup and [!pipe]. *)
Definition on_pipe (find : ST mst Z) (k : Z -> ST st bool) : ST ast bool :=
  on_mgr false (
    let! on := gets (fun s => i_on (snd s)) in
    if negb on then ret false
    else let! p := find in if p =? 0 then ret false else on_ipc (k p)).

Definition WritePipe_id (fuel : nat) (id dat size : Z) (block : bool) : ST ast bool :=
  on_pipe (FindPipe_id id) (fun p => let! me := current_id in Write fuel p me dat size block).
Definition WritePipe_name (fuel : nat) (nm dat size : Z) (block : bool) : ST ast bool :=
  on_pipe (FindPipe_name nm) (fun p => let! me := current_id in Write fuel p me dat size block).
Definition ReadPipe_id (fuel : nat) (id buffer bufsz bytes_read sender_id : Z) (block : bool) : ST ast bool :=
  on_pipe (FindPipe_id id) (fun p => let! me := current_id in Read fuel p me buffer bufsz bytes_read sender_id block).
Definition ReadPipe_name (fuel : nat) (nm buffer bufsz bytes_read sender_id : Z) (block : bool) : ST ast bool :=
  on_pipe (FindPipe_name nm) (fun p => let! me := current_id in Read fuel p me buffer bufsz bytes_read sender_id block).

Definition AddPipeReader (fuel : nat) (id thread_id : Z) : ST ast bool :=
  on_mgr false (
    let! on := gets (fun s => i_on (snd s)) in
    if negb on then ret false
    else
      let! p := FindPipe_id id in
      let! t := on_ipc (run_sched (FindTask thread_id)) in
      if (p =? 0) || (t =? 0) then ret false else on_ipc (AddReader fuel p t)).
Definition AddPipeWriter (fuel : nat) (id thread_id : Z) : ST ast bool :=
  on_mgr false (
    let! on := gets (fun s => i_on (snd s)) in
    if negb on then ret false
    else
      let! p := FindPipe_id id in
      let! t := on_ipc (run_sched (FindTask thread_id)) in
      if (p =? 0) || (t =? 0) then ret false else on_ipc (AddWriter fuel p t)).
Definition RemovePipeReader (fuel : nat) (id thread_id : Z) : ST ast bool :=
  on_mgr false (let! p := FindPipe_id id in if p =? 0 then ret false else on_ipc (RemoveReader fuel p thread_id)).
Definition RemovePipeWriter (fuel : nat) (id thread_id : Z) : ST ast bool :=
  on_mgr false (let! p := FindPipe_id id in if p =? 0 then ret false else on_ipc (RemoveWriter fuel p thread_id)).

Definition API_FindPipe (nm : Z) : ST ast Z :=
  on_mgr 0 (
    let! p := FindPipe_name nm in
    if p =? 0 then ret 0 else let! c := on_ipc (chan_at p) in ret (pipe_id (c_ext c))).
Definition GetPipeInfo (id message_count cur_size available : Z) : ST ast bool :=
  on_mgr false (
    let! p := FindPipe_id id in
    if p =? 0 then ret false
    else on_ipc (
      let! c := chan_at p in
      store_out message_count (c_count c);;;
      store_out cur_size (current_size (c_ext c));;;
      store_out available (GetAvailableSpace c);;;
      ret true)).
End Model.

(** * Permissions *)

Section Members.
Context {S : Type} `{PS : PageSupply S}.
Abbreviation st := (ipc S Z pipe_ext).
Implicit Types (s : st).

(** The array has its eight slots, and its first [cnt] entries are null or
    thread objects. *)
Definition members_ok s (arr : list Z) (cnt : Z) : Prop :=
  length arr = 8%nat /\ 0 <= cnt <= 8 /\
  forall i t, arr !! i = Some t -> Z.of_nat i < cnt -> t = 0 \/ is_Some (i_threads s !! t).

(** The thread registered in slot [i]. *)
Definition member_id s (arr : list Z) (i : nat) : option Z :=
  t ← arr !! i; if t =? 0 then None else task_id <$> i_threads s !! t.
Definition is_member s (arr : list Z) (cnt id : Z) : Prop :=
  exists i, Z.of_nat i < cnt /\ member_id s arr i = Some id.

Lemma member_loop_ok n s arr cnt k id :
  members_ok s arr cnt -> Z.of_nat k + Z.of_nat n = cnt ->
  exists i, member_loop n arr (Z.of_nat k) id s = Some (i, s) /\
    ((i = -1 /\ forall j, (k <= j)%nat -> Z.of_nat j < cnt -> member_id s arr j <> Some id) \/
     exists j, i = Z.of_nat j /\ (k <= j)%nat /\ Z.of_nat j < cnt /\ member_id s arr j = Some id).
Proof.
  intros (Hlen & Hc & Hok). revert k. induction n as [|n IH]; intros k Hk; cbn [member_loop].
  { exists (-1). split; [done|]. left. split; [done|]. intros j ? ?. lia. }
  rewrite Nat2Z.id. destruct (lookup_lt_is_Some_2 arr k) as [t Ht]; [lia|]. rewrite Ht.
  destruct (IH (Datatypes.S k) ltac:(lia)) as (i & E & Hi). replace (Z.of_nat (Datatypes.S k)) with (Z.of_nat k + 1) in E by lia.
  assert (Hskip : member_id s arr k <> Some id -> exists i, member_loop n arr (Z.of_nat k + 1) id s = Some (i, s) /\
    ((i = -1 /\ forall j, (k <= j)%nat -> Z.of_nat j < cnt -> member_id s arr j <> Some id) \/
     exists j, i = Z.of_nat j /\ (k <= j)%nat /\ Z.of_nat j < cnt /\ member_id s arr j = Some id)).
  { intros Hne. exists i. split; [done|]. destruct Hi as [[-> Hno]|(j & ? & ? & ? & ?)]; [left|right].
    - split; [done|]. intros j ? ?. destruct (decide (j = k)) as [->|]; [done|]. apply Hno; lia.
    - exists j. split_and!; [done|lia|done..]. }
  unfold member_id at 1 in Hskip. rewrite Ht in Hskip. cbn in Hskip. destruct (Z.eqb_spec t 0); [by apply Hskip|].
  destruct (Hok k t Ht) as [?|[x Hx]]; [lia|done|]. rewrite Hx in Hskip. cbn in Hskip.
  erewrite bind_step by (unfold thread_of; rewrite Hx; reflexivity). destruct (Z.eqb_spec (task_id x) id) as [Heq|Hne].
  - exists (Z.of_nat k). split; [done|]. right. exists k. split_and!; [done|lia|lia|].
    unfold member_id. rewrite Ht. cbn. destruct (Z.eqb_spec t 0); [done|]. rewrite Hx. cbn. by rewrite Heq.
  - apply Hskip. congruence.
Qed.

(** Who may use the pipe: everybody while nobody is registered. *)
Definition permits s (arr : list Z) (cnt id : Z) : Prop := cnt = 0 \/ is_member s arr cnt id.

Lemma member_index_ok s arr cnt id :
  members_ok s arr cnt ->
  exists i, member_index arr cnt id s = Some (i, s) /\ -1 <= i < cnt /\ (0 <= i <-> is_member s arr cnt id).
Proof.
  intros Hm. pose proof Hm as (? & ? & _). unfold member_index.
  destruct (member_loop_ok (Z.to_nat cnt) s arr cnt 0 id Hm) as (i & E & Hi); [lia|]. exists i. split; [done|].
  destruct Hi as [[-> Hno]|(j & -> & ? & ? & Hj)]; (split; [lia|]); split; try lia.
  - intros (j & ? & Hj). destruct (Hno j ltac:(lia) ltac:(lia) Hj).
  - intros _. by exists j.
Qed.

Lemma CanWrite_ok s p c id :
  i_chans s !! p = Some c -> members_ok s (writers (c_ext c)) (writer_count (c_ext c)) ->
  exists b, CanWrite p id s = Some (b, s) /\ (b = true <-> permits s (writers (c_ext c)) (writer_count (c_ext c)) id).
Proof.
  intros Hc Hm. unfold CanWrite. rewrite (chan_step _ _ _ _ Hc). unfold permits.
  destruct (Z.eqb_spec (writer_count (c_ext c)) 0); [exists true; split; [done|]; tauto|].
  destruct (member_index_ok s _ _ id Hm) as (i & E & _ & Hi). rewrite (bind_step _ _ _ _ _ E). eexists. split; [reflexivity|].
  rewrite Z.leb_le, Hi. tauto.
Qed.

Lemma CanRead_ok s p c id :
  i_chans s !! p = Some c -> members_ok s (readers (c_ext c)) (reader_count (c_ext c)) ->
  exists b, CanRead p id s = Some (b, s) /\ (b = true <-> permits s (readers (c_ext c)) (reader_count (c_ext c)) id).
Proof.
  intros Hc Hm. unfold CanRead. rewrite (chan_step _ _ _ _ Hc). unfold permits.
  destruct (Z.eqb_spec (reader_count (c_ext c)) 0); [exists true; split; [done|]; tauto|].
  destruct (member_index_ok s _ _ id Hm) as (i & E & _ & Hi). rewrite (bind_step _ _ _ _ _ E). eexists. split; [reflexivity|].
  rewrite Z.leb_le, Hi. tauto.
Qed.
End Members.

(** * A pipe is a bounded FIFO *)

(** The bytes of the messages. *)
Fixpoint total (q : list (Z * list Z)) : Z := if q is v :: q' then Z.of_nat (length v.2) + total q' else 0.

Lemma total_app q1 q2 : total (q1 ++ q2) = total q1 + total q2.
Proof. induction q1 as [|v q1 IH]; cbn [total app]; lia. Qed.

Section Refinement.
Context {S : Type} `{PS : PageSupply S}.
Abbreviation st := (ipc S Z pipe_ext).
Implicit Types (s : st) (c : Pipe) (q : list (Z * list Z)) (rs : list (Z * Z)).

(** The pipe [c] at [p] is idle and holds the messages [q], every other live
    heap region being one of [rs]. *)
Record pipe_rep s (p : Z) c q rs : Prop := {
  pr_q : exists xs, q_rep SIZEOF_PIPE_MESSAGE s p c xs q rs;
  pr_idle : idle s c;
  pr_size : current_size (c_ext c) = u32 (total q);
  pr_max : max_messages (c_ext c) < 2 ^ 32;
  pr_msgs : Forall (fun v => v.2 <> []) q;
  pr_bound : Z.of_nat (length q) <= max_messages (c_ext c);
  pr_readers : members_ok s (readers (c_ext c)) (reader_count (c_ext c));
  pr_writers : members_ok s (writers (c_ext c)) (writer_count (c_ext c));
}.

Lemma wait_room_go fuel p block s c :
  i_chans s !! p = Some c -> block = false \/ IsFull c = false -> c_closed c = false ->
  wait_room fuel p block s = Some (negb (IsFull c), s).
Proof.
  intros Hc Hb Hcl. destruct fuel as [|fuel]; cbn [wait_room]; rewrite (chan_step _ _ _ _ Hc); destruct (IsFull c); cbn [negb]; try done;
    destruct Hb as [->|]; done.
Qed.

Lemma write_body_ok fuel s p c xs q rs sender dat bs block :
  q_rep SIZEOF_PIPE_MESSAGE s p c xs q rs -> i_cvs s !! c_rcv c = Some (mk_cv 0) ->
  block = false \/ IsFull c = false -> c_closed c = false -> max_messages (c_ext c) < 2 ^ 32 ->
  current_size (c_ext c) = u32 (total q) ->
  bs <> [] -> owned rs dat (Z.of_nat (length bs)) -> 0 < dat -> stored (i_mem s) dat bs ->
  g_heapEnd (i_heap s) + 2 * Z.of_nat (length bs) + 9000 <= 2 ^ 32 ->
  exists ok s' c' xs' rs', write_body fuel p sender dat (Z.of_nat (length bs)) block s = Some (ok, s') /\
    same_env s s' /\ i_cvs s' = i_cvs s /\
    q_rep SIZEOF_PIPE_MESSAGE s' p c' xs' (if ok then q ++ [(sender, bs)] else q) rs' /\
    same_on rs (i_mem s) (i_mem s') /\ (forall r, r ∈ rs -> r ∈ rs') /\
    set_ends 0 0 (set_count 0 (set_ext (set_current_size 0 (c_ext c')) c')) =
      set_ends 0 0 (set_count 0 (set_ext (set_current_size 0 (c_ext c)) c)) /\
    current_size (c_ext c') = u32 (total (if ok then q ++ [(sender, bs)] else q)) /\
    (ok = true -> IsFull c = false) /\ (ok = false -> IsFull c = true \/ exhausted (h_supply (i_heap s'))).
Proof.
  intros Hq Hcv Hb Hcl Hmx Hsz Hbs Ho Hdat Hst Hend. pose proof Hq as [Hh Hc Hl Ht Hd Hn]. unfold write_body.
  rewrite (bind_step _ _ _ _ _ (wait_room_go fuel p block s c Hc Hb Hcl)). destruct (IsFull c) eqn:Hfull; cbn [negb].
  { exists false, s, c, xs, rs. split_and!; try done. by left. }
  destruct (new_node_ok SIZEOF_PIPE_MESSAGE s (regions SIZEOF_PIPE_MESSAGE xs ++ rs) sender dat bs Hh) as
    (a & s1 & E & [He Hch Hcvs] & Hs & Hr); [unfold SIZEOF_PIPE_MESSAGE; lia|done| |done|done|done|].
  { destruct Ho as (u & k & Hin & ?). exists u, k. split; [apply elem_of_app; by right|done]. }
  rewrite (bind_step _ _ _ _ _ E). assert (Hs' : same_on rs (i_mem s) (i_mem s1)).
  { eapply same_on_sub; [|exact Hs]. intros r Hr'. apply elem_of_app. by right. }
  assert (Hd1 : Forall2 (holds (i_mem s1)) xs q).
  { eapply holds_all; [done|exact Hs|]. intros r Hr'. apply elem_of_app. by left. }
  destruct Hr as [(-> & Hno & Hh1 & Hex)|[(Ha & Hno & Hh1 & Hex)|(d & Ha & Hdz & Hno & Hh1 & Hsd)]].
  - cbn. exists false, s1, c, xs, rs. split_and!; try done; [|by right]. split; try done; [by rewrite Hch|by rewrite Hno].
  - destruct (Z.eqb_spec a 0); [done|]. rewrite bind_assoc. assert (Ea : i_nodes s1 !! a = Some (mk_node sender 0 0 0)) by (rewrite Hno; apply lookup_insert_eq).
    rewrite (node_step _ _ _ _ Ea). cbn [data Z.eqb negb]. rewrite ret_step. cbn [negb]. unfold delete_node.
    destruct (Z.eqb_spec a 0); [done|]. rewrite bind_assoc, (node_step _ _ _ _ Ea). cbn [data Z.eqb]. rewrite ret_step.
    assert (Hfr : a ∉ xs.*1) by (destruct (hwf_regions _ _ Hh1) as [Hpw _]; apply (fresh_addr SIZEOF_PIPE_MESSAGE xs a rs); [unfold SIZEOF_PIPE_MESSAGE; lia|exact Hpw]).
    exists false, s1, c, xs, ((a, SIZEOF_PIPE_MESSAGE) :: rs). split_and!; try done; [|intros r ?; by right|by right].
    split; try done; [|by rewrite Hch|rewrite Hno; by apply linked_insert].
    eapply hwf_perm; [|exact Hh1]. apply Permutation_middle.
  - destruct (Z.eqb_spec a 0); [done|]. rewrite bind_assoc.
    assert (Ea : i_nodes s1 !! a = Some (mk_node sender (Z.of_nat (length bs)) d 0)) by (rewrite Hno; apply lookup_insert_eq).
    rewrite (node_step _ _ _ _ Ea). cbn [data]. destruct (Z.eqb_spec d 0); [done|]. cbn [negb]. rewrite ret_step. cbn [negb].
    set (nd := mk_node sender (Z.of_nat (length bs)) d 0) in *.
    assert (Hfr : a ∉ xs.*1).
    { destruct (hwf_regions _ _ Hh1) as [Hpw _]. apply (fresh_addr SIZEOF_PIPE_MESSAGE xs a rs); [unfold SIZEOF_PIPE_MESSAGE; lia|].
      destruct Hpw as [H1 [_ H3]]. split; [|done]. intros r Hr. apply H1. by right. }
    assert (Hnr : node_regions SIZEOF_PIPE_MESSAGE (a, nd) = [(a, SIZEOF_PIPE_MESSAGE); (d, Z.of_nat (length bs))]).
    { unfold node_regions. cbn [snd fst nd data data_size]. by destruct (Z.eqb_spec d 0). }
    destruct (enqueue_ok SIZEOF_PIPE_MESSAGE s1 p c xs q rs a nd (sender, bs)) as
      (s2 & xs' & h & E2 & Hh2 & He2 & Hcv2 & Hch2 & Hl2 & Ht2 & Hd2 & Hrg2); [unfold SIZEOF_PIPE_MESSAGE; lia|by rewrite Hnr|by rewrite Hch|
      rewrite Hno; by apply linked_insert|done|done|done|done|done|done|].
    rewrite (bind_step _ _ _ _ _ E2). erewrite upd_chan_step by (rewrite Hch2; apply lookup_insert_eq).
    erewrite chan_step by apply lookup_insert_eq. set (s3 := set_chans _ _). set (c' := set_count _ _).
    erewrite bind_step by (apply signal_run; cbn; by rewrite Hcv2, Hcvs).
    exists true, s3, c', xs', rs. cbn [andb]. split; [done|]. split; [by apply same_env_chans, (same_env_trans _ s1)|]. split; [cbn; congruence|]. split.
    { split; [|apply lookup_insert_eq|done|done|done|].
      - change (i_heap s3) with (i_heap s2). rewrite Hh2, Hrg2. eapply hwf_perm; [|exact Hh1]. rewrite regions_app, <-app_assoc.
        rewrite regions_one, Hnr.
        apply (Permutation_app_swap_app [_; _]).
      - subst c'. cbn. unfold IsFull in Hfull. apply orb_false_iff in Hfull as [_ Hfull]. apply Z.leb_gt in Hfull.
        rewrite length_app, Hn in *. cbn. rewrite u32_small by lia. lia. }
    split_and!; try done.
    + change (i_mem s3) with (h_mem (i_heap s2)). by rewrite Hh2.
    + subst c'. cbn. rewrite Hsz, total_app. unfold u32. cbn. by rewrite Zplus_mod_idemp_l, Z.add_0_r.
Qed.

(** Channels that differ only in their queue. *)
Definition same_fields c c' : Prop :=
  set_ends 0 0 (set_count 0 (set_ext (set_current_size 0 (c_ext c')) c')) =
  set_ends 0 0 (set_count 0 (set_ext (set_current_size 0 (c_ext c)) c)).

Lemma members_env s s' arr cnt : i_threads s' = i_threads s -> members_ok s arr cnt -> members_ok s' arr cnt.
Proof. intros E. unfold members_ok. by rewrite E. Qed.

(** A guarded body that keeps the queue representation keeps the pipe. *)
Lemma guard_rep {A} fuel (body : ST st A) s p c q rs (post : A -> st -> list (Z * list Z) -> list (Z * Z) -> Prop) :
  pipe_rep s p c q rs ->
  (forall m xs, q_rep SIZEOF_PIPE_MESSAGE (held s (c_mutex c) m) p c xs q rs ->
    exists a s' c' xs' q' rs', body (held s (c_mutex c) m) = Some (a, s') /\ same_env (held s (c_mutex c) m) s' /\
      i_cvs s' = i_cvs s /\ q_rep SIZEOF_PIPE_MESSAGE s' p c' xs' q' rs' /\ same_fields c c' /\
      current_size (c_ext c') = u32 (total q') /\
      Forall (fun v => v.2 <> []) q' /\ Z.of_nat (length q') <= max_messages (c_ext c) /\ (forall k, post a (set_mutexes k s') q' rs')) ->
  exists a s' c' q' rs', guard (Datatypes.S fuel) (c_mutex c) body s = Some (a, s') /\
    pipe_rep s' p c' q' rs' /\ same_fields c c' /\ post a s' q' rs'.
Proof.
  intros [[xs Hq] Hid Hsz Hmx Hms Hbd Hrd Hwr] Hb. pose proof Hid as [(m & Hm & Hf) _ _ Hqt].
  destruct (Hb m xs (q_rep_mutexes _ _ _ _ _ _ _ _ Hq)) as (a & s' & c' & xs' & q' & rs' & E & He & Hcv & Hq' & Hsf & Hsz' & Hms' & Hbd' & Hpost).
  destruct (guard_ok fuel (c_mutex c) body s m a s' Hm Hf Hqt E He) as (m2 & Hm2 & E2).
  exists a, (set_mutexes (<[c_mutex c := m2]> (i_mutexes s')) s'), c', q', rs'. split; [done|].
  pose proof Hsf as Hsf'. unfold same_fields, set_ends, set_count, set_ext, set_current_size in Hsf'. cbn in Hsf'.
  injection Hsf' as Em Er Ew Ecl Ebl Eid En Ebs Emx Ers Ews Erc Ewc. split_and!; [|done|done]. split.
  - exists xs'. by apply q_rep_mutexes.
  - by apply (idle_after s s' c c' (c_mutex c) m).
  - done.
  - by rewrite Emx.
  - done.
  - by rewrite Emx.
  - rewrite Ers, Erc. apply (members_env s); [apply (env_threads _ _ He)|done].
  - rewrite Ews, Ewc. apply (members_env s); [apply (env_threads _ _ He)|done].
Qed.

(** The memory a reader passes: its buffer and the out parameters, which may
    be null, lie in regions of its own and do not overlap. *)
Record outs_ok rs (buffer bufsz bytes_read sender_id : Z) : Prop := {
  oo_buffer : owned rs buffer bufsz;
  oo_read : bytes_read <> 0 -> owned rs bytes_read 4 /\ apart (buffer, bufsz) (bytes_read, 4);
  oo_sender : sender_id <> 0 -> owned rs sender_id 4 /\ apart (buffer, bufsz) (sender_id, 4) /\
    (bytes_read <> 0 -> apart (bytes_read, 4) (sender_id, 4));
}.

(** What the reader of a message finds there. *)
Definition delivered (m : mem) (v : Z * list Z) (buffer bufsz bytes_read sender_id : Z) : Prop :=
  let k := Z.min (Z.of_nat (length v.2)) bufsz in
  stored m buffer (take (Z.to_nat k) v.2) /\
  (bytes_read <> 0 -> read32 m bytes_read = k) /\ (sender_id <> 0 -> read32 m sender_id = u32 v.1).

Lemma copy_out_ok s rs1 rs2 n v buffer bufsz bytes_read sender_id :
  hwf (i_heap s) (rs1 ++ rs2) -> (data n, data_size n) ∈ rs1 -> n_hdr n = v.1 -> data_size n = Z.of_nat (length v.2) ->
  stored (i_mem s) (data n) v.2 -> 0 < bufsz < 2 ^ 32 -> outs_ok rs2 buffer bufsz bytes_read sender_id ->
  exists m', copy_out n buffer bufsz bytes_read sender_id s = Some (tt, set_imem m' s) /\
    hwf (i_heap (set_imem m' s)) (rs1 ++ rs2) /\ same_on rs1 (i_mem s) m' /\
    delivered m' v buffer bufsz bytes_read sender_id.
Proof.
  intros Hh Hin Hhd Hsz Hst Hbs [Hb Hr Hs]. unfold copy_out.
  set (k := if data_size n <? bufsz then data_size n else bufsz). assert (Hk : k = Z.min (Z.of_nat (length v.2)) bufsz) by (subst k; case_zb; lia).
  rewrite modify_step. destruct (hwf_regions _ _ Hh) as [Hpw Hreg]. set (m1 := memcpy _ _ _ _).
  assert (Hap : apart (data n, data_size n) (buffer, bufsz)).
  { destruct Hb as (u & j & Hu & ? & ?). pose proof (pairwise_apart _ _ _ _ Hpw Hin Hu) as Ha. unfold apart in *. cbn in *. lia. }
  unfold apart in *. cbn in Hap, Hr, Hs.
  assert (Hf1 : forall b, b < buffer \/ buffer + k <= b -> read8 m1 b = read8 (i_mem s) b) by (intros b Hb'; apply memcpy_frame; lia).
  assert (Hso : same_on rs1 (i_mem s) m1).
  { apply (owned_same_on rs1 rs2 _ _ buffer k Hpw); [|done]. by apply (owned_sub _ _ _ _ _ Hb); lia. }
  assert (Hst1 : stored m1 buffer (take (Z.to_nat k) v.2)).
  { unfold m1. assert (Hlen : Z.to_nat k = length (take (Z.to_nat k) v.2)) by (rewrite length_take; lia).
    rewrite Hlen at 1. apply memcpy_stored; [by apply stored_take|]. rewrite <-Hlen. lia. }
  assert (Hh1 : hwf (i_heap (set_imem m1 s)) (rs1 ++ rs2)).
  { apply (hwf_memcpy (i_heap s)); [done|]. destruct Hb as (u & j & Hu & ? & ?). exists u, j. split; [apply elem_of_app; by right|lia]. }
  destruct (store_out_ok (set_imem m1 s) rs1 rs2 bytes_read k Hh1) as (m2 & E2 & Hh2 & Hso2 & Hr2 & Hf2); [intros ?; by apply Hr|].
  rewrite (bind_step _ _ _ _ _ E2).
  destruct (store_out_ok (set_imem m2 (set_imem m1 s)) rs1 rs2 sender_id (n_hdr n) Hh2) as (m3 & E3 & Hh3 & Hso3 & Hr3 & Hf3); [intros ?; by apply Hs|].
  rewrite E3. exists m3. split; [done|]. split; [done|]. split.
  { eapply same_on_trans; [exact Hso|]. eapply same_on_trans; [exact Hso2|exact Hso3]. }
  change (i_mem (set_imem m1 s)) with m1 in Hf2. change (i_mem (set_imem m2 (set_imem m1 s))) with m2 in Hf3.
  unfold delivered. rewrite <-Hk, <-Hhd. split_and!; [|intros Hne|done].
  - apply (stored_ext m1); [|done]. intros a Ha. rewrite length_take in Ha.
    rewrite Hf3, Hf2; [done| |].
    + destruct (decide (bytes_read = 0)); [by left|right]. destruct (Hr ltac:(done)). lia.
    + destruct (decide (sender_id = 0)); [by left|right]. destruct (Hs ltac:(done)) as (? & ? & _). lia.
  - rewrite (read32_ext m2 m3); [rewrite Hr2 by done; apply u32_small; lia|]. intros i Hi. apply Hf3.
    destruct (decide (sender_id = 0)); [by left|right]. destruct (Hs ltac:(done)) as (_ & _ & Hd). specialize (Hd Hne). lia.
Qed.

Lemma wait_message_go fuel p block s c :
  i_chans s !! p = Some c -> block = false \/ IsEmpty c = false -> c_closed c = false ->
  wait_message fuel p block s = Some (negb (IsEmpty c), s).
Proof.
  intros Hc Hb Hcl. destruct fuel as [|fuel]; cbn [wait_message]; rewrite (chan_step _ _ _ _ Hc); destruct (IsEmpty c); cbn [negb]; try done;
    destruct Hb as [->|]; done.
Qed.

Lemma read_body_ok fuel s p c xs v q rs buffer bufsz bytes_read sender_id block :
  q_rep SIZEOF_PIPE_MESSAGE s p c xs (v :: q) rs -> i_cvs s !! c_wcv c = Some (mk_cv 0) -> v.2 <> [] ->
  c_closed c = false -> current_size (c_ext c) = u32 (total (v :: q)) -> Z.of_nat (length (v :: q)) < 2 ^ 32 ->
  0 < bufsz < 2 ^ 32 -> outs_ok rs buffer bufsz bytes_read sender_id ->
  exists s' c' xs' rs', read_body fuel p buffer bufsz bytes_read sender_id block s = Some (true, s') /\
    same_env s s' /\ i_cvs s' = i_cvs s /\ q_rep SIZEOF_PIPE_MESSAGE s' p c' xs' q rs' /\ (forall r, r ∈ rs -> r ∈ rs') /\
    same_fields c c' /\ current_size (c_ext c') = u32 (total q) /\
    delivered (i_mem s') v buffer bufsz bytes_read sender_id.
Proof.
  intros [Hh Hc Hl Ht Hd Hn] Hcv Hv Hcl Hsz Hlen Hbs Hout. unfold read_body.
  assert (Hne : IsEmpty c = false) by (unfold IsEmpty; rewrite Hn; apply Z.eqb_neq; cbn; lia).
  rewrite (bind_step _ _ _ _ _ (wait_message_go fuel p block s c Hc ltac:(by right) Hcl)), Hne. cbn [negb].
  rewrite (chan_step _ _ _ _ Hc). apply Forall2_cons_inv_r in Hd as ([a n] & ys & Hx & Hd & ->).
  destruct Hl as (Ha & Haz & Hna & Hl). cbn in Ha, Haz, Hna, Hl. rewrite Ha. destruct (Z.eqb_spec a 0); [done|].
  rewrite (node_step _ _ _ _ Hna). pose proof Hx as (Hhd & Hsn & Hdn & Hst). cbn in Hhd, Hsn, Hdn, Hst.
  assert (Hdz : data n <> 0) by tauto. change ((a, n) :: ys) with ([(a, n)] ++ ys) in Hh. rewrite regions_app, regions_one in Hh.
  unfold node_regions in Hh. cbn [fst snd] in Hh. destruct (Z.eqb_spec (data n) 0); [done|].
  set (own := [(a, SIZEOF_PIPE_MESSAGE); (data n, data_size n)] ++ regions SIZEOF_PIPE_MESSAGE ys) in *.
  destruct (copy_out_ok s own rs n v buffer bufsz bytes_read sender_id Hh) as (m' & E & Hh1 & Hso & Hdl); try done; [right; by left|].
  rewrite (bind_step _ _ _ _ _ E). erewrite upd_chan_step by exact Hc. erewrite upd_chan_step by apply lookup_insert_eq.
  set (c1 := set_ends _ _ _). set (c2 := set_count _ _). set (s1 := set_chans _ _).
  assert (Hp1 : hwf (i_heap s1) ((if data n =? 0 then [] else [(data n, data_size n)]) ++
    regions SIZEOF_PIPE_MESSAGE ys ++ (a, SIZEOF_PIPE_MESSAGE) :: rs)).
  { destruct (Z.eqb_spec (data n) 0); [done|]. eapply hwf_perm; [|exact Hh1]. unfold own. cbn [app].
    rewrite perm_swap. constructor. apply Permutation_middle. }
  destruct (delete_node_ok s1 _ a n Hna Haz Hp1) as (s2 & E2 & [He2 Hch2 Hcv2] & Hso2 & Hh2 & n' & Hno2).
  rewrite (bind_step _ _ _ _ _ E2). assert (Hc2 : i_chans s2 !! p = Some c2) by (rewrite Hch2; apply lookup_insert_eq).
  rewrite (chan_step _ _ _ _ Hc2). erewrite bind_step by (apply signal_run; by rewrite Hcv2).
  assert (Hin : forall r, r ∈ rs -> r ∈ regions SIZEOF_PIPE_MESSAGE ys ++ (a, SIZEOF_PIPE_MESSAGE) :: rs).
  { intros r Hr. apply elem_of_app. right. by right. }
  assert (Hfr : a ∉ ys.*1).
  { destruct (hwf_regions _ _ Hh2) as [Hpw _]. rewrite <-Permutation_middle in Hpw.
    apply (fresh_addr SIZEOF_PIPE_MESSAGE ys a rs); [unfold SIZEOF_PIPE_MESSAGE; lia|done]. }
  exists s2, c2, ys, ((a, SIZEOF_PIPE_MESSAGE) :: rs). split; [done|]. split; [by destruct He2|]. split; [by rewrite Hcv2|].
  split_and!; [|intros r ?; by right|done| |].
  - split; [done|done| | | |].
    + rewrite Hno2. cbn. by apply linked_insert.
    + subst c2 c1. cbn. destruct (Z.eqb_spec (n_next n) 0) as [Hz|Hz]; [by apply (linked_next _ _ _ Hl) in Hz as ->|].
      rewrite Ht. destruct ys as [|y ys] using rev_ind; [by destruct Hz; apply (linked_next _ _ _ Hl)|].
      change ((a, n) :: ys ++ [y]) with (((a, n) :: ys) ++ [y]). by rewrite !last_addr_snoc.
    + eapply holds_all; [|exact Hso2|intros r Hr; apply elem_of_app; by left].
      eapply holds_all; [done|exact Hso|]. intros r Hr. right. by right.
    + subst c2 c1. cbn. rewrite Hn. cbn [length] in *. rewrite u32_small by lia. lia.
  - subst c2 c1. cbn [c_ext set_count set_ext set_current_size current_size set_ends]. rewrite Hsz, Hsn. unfold u32.
    cbn [total]. rewrite Zminus_mod_idemp_l. f_equal. lia.
  - destruct Hdl as (H1 & H2 & H3). destruct Hout as [Hb Hr Hs].
    assert (Hag : forall o k, owned rs o k -> agree m' (i_mem s2) o (o + k)).
    { intros o k (u & j & Hu & ? & ?) i Hi. apply (Hso2 u j (Hin _ Hu)). lia. }
    split; [|split].
    + apply (stored_ext m'); [|done]. intros b Hb'. rewrite length_take in Hb'. apply (Hag _ _ Hb). lia.
    + intros Hz. rewrite (read32_ext m'); [by apply H2|]. apply Hag. by apply Hr.
    + intros Hz. rewrite (read32_ext m'); [by apply H3|]. apply Hag. by apply Hs.
Qed.

(** C9: [Write] on a pipe that is not used by another thread returns unless it
    has to wait: it appends the sender and a copy of the bytes to the messages
    when the pipe is open, the sender permitted and the pipe not full, and
    otherwise, or when the heap is exhausted, changes nothing the readers can
    see; memory of others is kept. *)
Theorem Write_spec fuel s p c q rs sender dat bs block :
  pipe_rep s p c q rs -> block = false \/ IsFull c = false ->
  bs <> [] -> owned rs dat (Z.of_nat (length bs)) -> stored (i_mem s) dat bs ->
  g_heapEnd (i_heap s) + 2 * Z.of_nat (length bs) + 9000 <= 2 ^ 32 ->
  exists ok s' c' rs', Write (Datatypes.S fuel) p sender dat (Z.of_nat (length bs)) block s = Some (ok, s') /\
    pipe_rep s' p c' (if ok then q ++ [(sender, bs)] else q) rs' /\ same_fields c c' /\
    same_on rs (i_mem s) (i_mem s') /\ (forall r, r ∈ rs -> r ∈ rs') /\
    (ok = true -> c_closed c = false /\ permits s (writers (c_ext c)) (writer_count (c_ext c)) sender /\ IsFull c = false) /\
    (ok = false -> c_closed c = true \/ ~ permits s (writers (c_ext c)) (writer_count (c_ext c)) sender \/
       IsFull c = true \/ exhausted (h_supply (i_heap s'))).
Proof.
  intros Hrep Hb Hbs Ho Hst Hend. pose proof Hrep as [[xs Hq] Hid Hsz Hmx Hms Hbd Hrd Hwr]. pose proof (qr_chan _ _ _ _ _ _ _ Hq) as Hc.
  pose proof (owned_pos _ _ _ _ _ _ _ _ _ Hq Ho) as Hdat.
  unfold Write. rewrite (chan_step _ _ _ _ Hc). destruct (Z.eqb_spec dat 0); [lia|].
  destruct (Z.eqb_spec (Z.of_nat (length bs)) 0); [destruct bs; [done|cbn in *; lia]|]. cbn [orb].
  destruct (c_closed c) eqn:Hcl; [exists false, s, c, rs; split_and!; try done; tauto|].
  destruct (CanWrite_ok s p c sender Hc Hwr) as (b & E & Hperm). rewrite (bind_step _ _ _ _ _ E).
  destruct b; cbn [negb]; [|exists false, s, c, rs; split_and!; try done; intros _; right; left; intros Hp; by apply Hperm in Hp].
  destruct (guard_rep fuel (write_body (Datatypes.S fuel) p sender dat (Z.of_nat (length bs)) block) s p c q rs
    (fun ok s' q' rs' => q' = (if ok then q ++ [(sender, bs)] else q) /\ same_on rs (i_mem s) (i_mem s') /\
       (forall r, r ∈ rs -> r ∈ rs') /\ (ok = true -> IsFull c = false) /\
       (ok = false -> IsFull c = true \/ exhausted (h_supply (i_heap s')))) Hrep) as
    (ok & s' & c' & q' & rs' & E' & Hrep' & Hsf & -> & Hso & Hin & Ht & Hf).
  - intros m ys Hq'. destruct (write_body_ok (Datatypes.S fuel) (held s (c_mutex c) m) p c ys q rs sender dat bs block) as
      (ok & s' & c' & xs' & rs' & E' & He & Hcv & Hq2 & Hso & Hin & Hsf & Hsz' & Ht & Hf); try done; [by apply (id_rcv _ _ Hid)|].
    exists ok, s', c', xs', (if ok then q ++ [(sender, bs)] else q), rs'. split_and!; try done.
    + destruct ok; [|done]. apply Forall_app. split; [done|]. by constructor.
    + destruct ok; [|done]. specialize (Ht eq_refl). apply orb_false_iff in Ht as [_ Ht%Z.leb_gt].
      rewrite length_app. pose proof (qr_count _ _ _ _ _ _ _ Hq). cbn. lia.
  - exists ok, s', c', rs'. split_and!; try done.
    + intros Hok. split; [done|]. split; [by apply Hperm|by apply Ht].
    + intros Hok. destruct (Hf Hok); tauto.
Qed.

(** C10: [Read] on a pipe that is not used by another thread returns unless it
    has to wait: from an open pipe a permitted reader takes the oldest message,
    its bytes cut to the buffer, with its length and sender; otherwise the
    messages stay as they are. *)
Theorem Read_spec fuel s p c q rs reader buffer bufsz bytes_read sender_id block :
  pipe_rep s p c q rs -> block = false \/ q <> [] -> 0 < bufsz < 2 ^ 32 -> outs_ok rs buffer bufsz bytes_read sender_id ->
  exists ok s' c' q' rs', Read (Datatypes.S fuel) p reader buffer bufsz bytes_read sender_id block s = Some (ok, s') /\
    pipe_rep s' p c' q' rs' /\ same_fields c c' /\ (forall r, r ∈ rs -> r ∈ rs') /\
    (ok = true -> exists v, q = v :: q' /\ delivered (i_mem s') v buffer bufsz bytes_read sender_id) /\
    (ok = false -> q' = q /\
       (c_closed c = true \/ ~ permits s (readers (c_ext c)) (reader_count (c_ext c)) reader \/ q = [])).
Proof.
  intros Hrep Hb Hbs Hout. pose proof Hrep as [[xs Hq] Hid Hsz Hmx Hms Hbd Hrd Hwr]. pose proof (qr_chan _ _ _ _ _ _ _ Hq) as Hc.
  pose proof (owned_pos _ _ _ _ _ _ _ _ _ Hq (oo_buffer _ _ _ _ _ Hout)). unfold Read. rewrite (chan_step _ _ _ _ Hc).
  destruct (Z.eqb_spec buffer 0), (Z.eqb_spec bufsz 0); try lia. cbn [orb].
  destruct (c_closed c) eqn:Hcl; [exists false, s, c, q, rs; split_and!; try done; tauto|].
  destruct (CanRead_ok s p c reader Hc Hrd) as (b & E & Hperm). rewrite (bind_step _ _ _ _ _ E).
  destruct b; cbn [negb]; [|exists false, s, c, q, rs; split_and!; try done; intros _; split; [done|]; right; left; intros Hp; by apply Hperm in Hp].
  destruct (guard_rep fuel (read_body (Datatypes.S fuel) p buffer bufsz bytes_read sender_id block) s p c q rs
    (fun ok s' q' rs' => (forall r, r ∈ rs -> r ∈ rs') /\
       (ok = true -> exists v, q = v :: q' /\ delivered (i_mem s') v buffer bufsz bytes_read sender_id) /\
       (ok = false -> q' = q /\ q = [])) Hrep) as (ok & s' & c' & q' & rs' & E' & Hrep' & Hsf & Hin & Ht & Hf).
  - intros m ys Hq'. destruct q as [|v q].
    + destruct (store_out_ok (held s (c_mutex c) m) (regions SIZEOF_PIPE_MESSAGE ys) rs bytes_read 0) as (m' & E' & Hh & Hso & _).
      { apply Hq'. } { intros ?. by apply (oo_read _ _ _ _ _ Hout). }
      destruct Hb as [->|]; [|done]. pose proof Hq' as [_ Hc' Hl' Ht' Hd' Hn'].
      exists false, (set_imem m' (held s (c_mutex c) m)), c, ys, [], rs. unfold read_body.
      rewrite (bind_step _ _ _ _ _ (wait_message_go _ p false _ c Hc' ltac:(by left) Hcl)).
      assert (Hem : IsEmpty c = true) by (unfold IsEmpty; by rewrite Hn'). rewrite Hem. cbn [negb]. rewrite (bind_step _ _ _ _ _ E').
      split_and!; try done. split; try done. eapply holds_all; [done|exact Hso|done].
    + destruct (read_body_ok (Datatypes.S fuel) (held s (c_mutex c) m) p c ys v q rs buffer bufsz bytes_read sender_id block) as
        (s' & c' & xs' & rs' & E' & He & Hcv & Hq2 & Hin & Hsf & Hsz' & Hdl); try done; [by apply (id_wcv _ _ Hid)|by inversion Hms|lia|].
      exists true, s', c', xs', q, rs'. split_and!; try done; [by inversion Hms|cbn in Hbd; lia|]. intros k. split_and!; try done. intros _. by exists v.
  - exists ok, s', c', q', rs'. split_and!; try done. intros Hok. destruct (Hf Hok). tauto.
Qed.

(** ** Waiting, emptying and creating *)

Lemma wait_room_full fuel p s c :
  i_chans s !! p = Some c -> IsFull c = true -> c_closed c = false -> wait_room fuel p true s = None.
Proof.
  revert s. induction fuel as [|fuel IH]; intros s Hc Hf Hcl; cbn [wait_room]; rewrite (chan_step _ _ _ _ Hc), Hf, Hcl; cbn [negb orb]; [done|].
  unfold bind at 1. destruct (on_mutex _ _ s) as [[r s']|] eqn:E; [|done]. apply IH; [|done|done].
  unfold on_mutex in E. destruct (i_mutexes s !! c_mutex c); [|done]. destruct (CV_Wait _ _) as [[r' [g m']]|]; [|done].
  injection E as _ <-. by destruct g.
Qed.

(** A blocking [Write] to a full pipe does not return by itself, however
    often it yields. *)
Lemma Write_blocks fuel s p c q rs sender dat size :
  pipe_rep s p c q rs -> IsFull c = true -> c_closed c = false -> dat <> 0 -> size <> 0 ->
  permits s (writers (c_ext c)) (writer_count (c_ext c)) sender -> Write (Datatypes.S fuel) p sender dat size true s = None.
Proof.
  intros Hrep Hf Hcl Hd Hz Hp. pose proof Hrep as [[xs Hq] Hid _ _ _ _ _ Hwr]. pose proof (qr_chan _ _ _ _ _ _ _ Hq) as Hc.
  unfold Write. rewrite (chan_step _ _ _ _ Hc). destruct (Z.eqb_spec dat 0), (Z.eqb_spec size 0); try done. rewrite Hcl. cbn [orb].
  destruct (CanWrite_ok s p c sender Hc Hwr) as (b & E & Hb). rewrite (bind_step _ _ _ _ _ E). apply Hb in Hp as ->. cbn [negb].
  unfold guard, bind at 1. destruct (on_mutex _ _ s) as [[r s']|] eqn:Em; [|done].
  assert (Hc' : i_chans s' !! p = Some c).
  { unfold on_mutex in Em. destruct (i_mutexes s !! c_mutex c); [|done]. destruct (Lock _ _) as [[r' [g m']]|]; [|done].
    injection Em as _ <-. by destruct g. }
  unfold bind at 1. unfold write_body. unfold bind at 1. by rewrite (wait_room_full _ _ _ _ Hc' Hf Hcl).
Qed.

(** [Flush] returns and empties the pipe; the memory of others is kept. *)
Theorem Flush_spec fuel s p c q rs :
  pipe_rep s p c q rs ->
  exists s' c' rs', Flush (Datatypes.S fuel) p s = Some (tt, s') /\ pipe_rep s' p c' [] rs' /\ same_fields c c' /\
    same_on rs (i_mem s) (i_mem s') /\ GetAvailableSpace c' = u32 (buffer_size (c_ext c)).
Proof.
  intros Hrep. pose proof Hrep as [[xs Hq] Hid _ _ _ Hbd _ _]. pose proof (qr_chan _ _ _ _ _ _ _ Hq) as Hc.
  unfold Flush. rewrite (chan_step _ _ _ _ Hc).
  destruct (guard_rep fuel (let! n := gets (fun s : st => size (i_nodes s)) in flush_loop n p;;;
    upd_chan p (fun c => set_count 0 (set_ends (c_head c) 0 (set_ext (set_current_size 0 (c_ext c)) c)));;;
    on_cv (c_wcv c) (CV_Broadcast (Datatypes.S fuel))) s p c q rs
    (fun _ s' q' rs' => q' = [] /\ same_on rs (i_mem s) (i_mem s')) Hrep) as ([] & s' & c' & q' & rs' & E & Hrep' & Hsf & -> & Hso).
  - intros m ys Hq'. rewrite gets_step. pose proof Hq' as [Hh' Hc' Hl' _ _ _].
    destruct (flush_loop_ok SIZEOF_PIPE_MESSAGE (size (i_nodes (held s (c_mutex c) m))) _ p c ys q rs ltac:(unfold SIZEOF_PIPE_MESSAGE; lia) Hq') as (s' & rs' & E & He & Hcv & Hch & Hh & Hso & Hin).
    { eapply linked_size; [exact Hl'|]. destruct (hwf_regions _ _ Hh') as [Hpw _].
      apply (nodup_addr SIZEOF_PIPE_MESSAGE ys rs); [unfold SIZEOF_PIPE_MESSAGE; lia|done]. }
    eexists tt, _, _, [], [], rs'. rewrite (bind_step _ _ _ _ _ E).
    erewrite upd_chan_step by (rewrite Hch; apply lookup_insert_eq). split.
    { apply broadcast_run. cbn. rewrite Hcv. apply (id_wcv _ _ Hid). }
    split; [by apply same_env_chans|]. split; [cbn; by rewrite Hcv|]. split; [split; [done|cbn; apply lookup_insert_eq|done|done|constructor|done]|].
    split; [done|]. split; [done|]. split; [constructor|]. split; [cbn; lia|]. done.
  - exists s', c', rs'. split_and!; try done. unfold GetAvailableSpace. rewrite (pr_size _ _ _ _ _ Hrep').
    unfold same_fields, set_ends, set_count, set_ext, set_current_size in Hsf. cbn in Hsf. injection Hsf as _ _ _ _ _ _ _ -> _ _ _ _ _.
    change (u32 (total [])) with 0. by rewrite Z.sub_0_r.
Qed.

(** ** Lookup by name *)

Lemma strncmp_prefix m nm l t k :
  cstr m (nm + Z.of_nat k) t ->
  strncmp_loop (length t) (str_of l) (str_at m nm) (Z.of_nat k) = 0 <-> t `prefix_of` drop k l.
Proof.
  revert k. induction t as [|c t IH]; intros k Hc; cbn [length strncmp_loop]; [split; [intros _; apply prefix_nil|done]|].
  destruct Hc as (Hz & E & Hc). change (str_at m nm (Z.of_nat k)) with (read8 m (nm + Z.of_nat k)). rewrite E.
  unfold str_of at 1 2 3. rewrite Nat2Z.id. destruct (l !! k) as [d|] eqn:El; cbn [default from_option id].
  - apply drop_S in El. rewrite El. destruct (Z.eqb_spec d c) as [->|Hne]; cbn [negb orb].
    + destruct (Z.eqb_spec c 0); [done|]. cbn [orb]. replace (Z.of_nat k + 1) with (Z.of_nat (Datatypes.S k)) by lia. rewrite IH.
      * split; [apply prefix_cons|apply prefix_cons_inv_2].
      * by replace (nm + Z.of_nat (Datatypes.S k)) with (nm + Z.of_nat k + 1) by lia.
    + split; [lia|]. intros Hp. by apply prefix_cons_inv_1 in Hp.
  - apply lookup_ge_None in El. rewrite drop_ge by done. destruct (Z.eqb_spec 0 c); [done|]. cbn [negb orb].
    split; [lia|]. by intros ?%prefix_nil_inv.
Qed.

Definition named s (t : list Z) (p : Z) : Prop := exists c, p <> 0 /\ i_chans s !! p = Some c /\ t `prefix_of` name (c_ext c).

(** looking up a pipe by name yields the first pipe of the table whose
    name starts with the string looked for, not the one whose name equals it:
    the comparison stops at the length of the string.  [CreatePipe] uses the
    same lookup and refuses such a name as taken. *)
Theorem FindPipe_name_spec s g nm t :
  table_ok s (m_table g) -> nm <> 0 -> cstr (i_mem s) nm t ->
  exists p, FindPipe_name nm (g, s) = Some (p, (g, s)) /\
    ((p = 0 /\ forall p', p' ∈ m_table g -> ~ named s t p') \/
     exists j, m_table g !! j = Some p /\ named s t p /\
       forall j' p', (j' < j)%nat -> m_table g !! j' = Some p' -> ~ named s t p').
Proof.
  intros Ht Hnz Hc. unfold FindPipe_name, FindPipeIndex_name. destruct (Z.eqb_spec nm 0); [done|].
  rewrite bind_assoc, gets_step. cbn [fst].
  destruct (find_slot_ok (fun c => ret (name_matches (i_mem s) nm c)) (fun c => t `prefix_of` name (c_ext c)) s (m_table g) 0 Ht) as (i & E & Hi).
  { intros c. eexists. split; [reflexivity|]. unfold name_matches. rewrite (strlen_ok _ _ _ Hc), Nat2Z.id, Z.eqb_eq.
    apply (strncmp_prefix _ _ _ _ 0). by rewrite Z.add_0_r. }
  erewrite bind_step by (unfold on_ipc, zoom; cbn [snd]; rewrite gets_step, E; reflexivity).
  unfold slot_at, gets. eexists. split; [reflexivity|]. cbn [fst snd].
  destruct Hi as [[-> Hall]|(j & p & c & -> & Hj & ? & ? & ? & Hlt)]; [left|right].
  - split; [done|]. intros p' Hin (c & ? & ? & ?). by eapply Hall.
  - exists j. destruct (Z.ltb_spec (0 + Z.of_nat j) 0); [lia|]. replace (Z.to_nat (0 + Z.of_nat j)) with j by lia. rewrite Hj. cbn.
    split_and!; [done|by exists c|]. intros j' p' Hj' Hp' (c' & ? & ? & ?). by eapply Hlt.
Qed.

(** ** Creation *)

(** a new pipe whose synchronisation objects could be allocated is empty
    and ready for use, with the first 31 characters of the name. *)
Theorem Pipe_new_spec s rs id nm t bsz mx :
  hwf (i_heap s) rs -> quiet s -> cstr (i_mem s) nm t -> owned rs nm (Z.of_nat (length t) + 1) -> 0 <= mx < 2 ^ 32 ->
  g_heapEnd (i_heap s) + 20000 <= 2 ^ 32 ->
  exists p s', Pipe_new id nm bsz mx s = Some (p, s') /\ (p <> 0 -> exists c rs', i_chans s' !! p = Some c /\
    c_ext c = mk_ext id (take 31 t) bsz 0 mx (replicate 8 0) (replicate 8 0) 0 0 /\
    (c_mutex c <> 0 -> c_rcv c <> 0 -> c_wcv c <> 0 -> pipe_rep s' p c [] rs')).
Proof.
  intros Hh Hq Hc Ho Hmx Hend. unfold Pipe_new.
  destruct (hwf_alloc (i_heap s) rs SIZEOF_PIPE Hh) as (p & h' & E & Hso & He & Hr); [unfold SIZEOF_PIPE; lia|unfold SIZEOF_PIPE; lia|].
  rewrite (hp_step _ _ _ _ _ E). unfold SIZEOF_PIPE in *. destruct Hr as [(-> & Hh' & _)|(Hp & Hh')]; [by eexists 0, _|].
  destruct (Z.eqb_spec p 0); [done|]. rewrite gets_step. set (s0 := set_iheap h' s). change (i_mem s0) with (h_mem h').
  rewrite (copy_name_ok (h_mem h') nm t).
  2:{ apply (cstr_ext (i_mem s)); [|done]. destruct Ho as (u & k & Hin & ? & ?). intros a Ha. apply (Hso u k Hin). lia. }
  destruct (new_mutex_ok s0 _ Hh') as (mu & s1 & E1 & _ & On1 & Cu1 & Th1 & Ch1 & Cv1 & _ & He1 & Hm); [cbn; lia|]. rewrite (bind_step _ _ _ _ _ E1).
  assert (exists rs1, hwf (i_heap s1) rs1) as [rs1 Hh1] by (destruct Hm as [[_ ?]|(_ & ? & _)]; eauto). cbn in He1.
  destruct (new_cv_ok s1 _ Hh1) as (rc & s2 & E2 & _ & On2 & Cu2 & Th2 & Ch2 & Mu2 & _ & He2 & Hrc); [lia|]. rewrite (bind_step _ _ _ _ _ E2).
  assert (Hh2' : exists rs2, hwf (i_heap s2) rs2 /\ (rc <> 0 -> (rc, SIZEOF_CV) ∈ rs2)).
  { destruct Hrc as [(-> & ? & _)|(_ & ? & _)]; eexists; split; [done|done|done|intros _; by left]. }
  destruct Hh2' as (rs2 & Hh2 & Hin2).
  destruct (new_cv_ok s2 _ Hh2) as (wc & s3 & E3 & _ & On3 & Cu3 & Th3 & Ch3 & Mu3 & _ & He3 & Hwc); [lia|]. rewrite (bind_step _ _ _ _ _ E3).
  rewrite put_chan_step. eexists p, _. split; [reflexivity|]. intros _.
  assert (exists rs3, hwf (i_heap s3) rs3) as [rs3 Hh3] by (destruct Hwc as [(_ & ? & _)|(_ & ? & _)]; eauto).
  eexists _, rs3. split; [cbn; apply lookup_insert_eq|]. split; [done|]. cbn [c_mutex c_rcv c_wcv]. intros Hmz Hrz Hwz.
  destruct Hm as [[? _]|(_ & _ & Hm)]; [done|]. destruct Hrc as [(? & _)|(_ & _ & Hrc)]; [done|]. destruct Hwc as [(? & _)|(_ & Hwh & Hwc)]; [done|].
  assert (Hne : wc <> rc).
  { intros ->. destruct (hwf_regions _ _ Hwh) as [[Hpw _] _]. specialize (Hpw _ (Hin2 Hrz)). unfold apart, SIZEOF_CV in Hpw. cbn in Hpw. lia. }
  assert (Hmem : forall s', members_ok s' (replicate 8 0) 0) by (intros s'; split; [done|]; split; [lia|]; intros; lia).
  split; cbn [c_ext]; try done.
  - exists []. split; try done. cbn. apply lookup_insert_eq.
  - split; cbn [c_mutex c_rcv c_wcv].
    + exists Mutex_new. split; [cbn; by rewrite Mu3, Mu2|done].
    + cbn. by rewrite Hwc, lookup_insert_ne, Hrc, lookup_insert_eq.
    + cbn. by rewrite Hwc, lookup_insert_eq.
    + unfold quiet in *. cbn. change (i_threads (set_chans _ s3)) with (i_threads s3).
      rewrite On3, On2, On1, Cu3, Cu2, Cu1, Th3, Th2, Th1. exact Hq.
  - cbn. lia.
  - cbn. lia.
Qed.
End Refinement.

(** * Concrete runs *)

(** An empty pipe named "p1" on a system with three threads, of which the
    second is registered as reader. *)
Definition demo_pipe : Pipe :=
  mk_chan 0 0 0 2 3 4 false true (mk_ext 1 [112; 49] 4096 0 64 (0x200 :: replicate 7 0) (replicate 8 0) 1 0).
Definition demo_ipc : ipc Paging.paging Z pipe_ext :=
  mk_ipc true demo_sched ∅ {[1 := demo_pipe]} {[2 := Mutex_new]} (<[3 := mk_cv 0]> {[4 := mk_cv 0]}).

Lemma demo_hwf : hwf (i_heap demo_ipc) [(0x2000020, 100)].
Proof. exists demo_blocks1. split; [apply demo_heap1_wf|reflexivity]. Qed.

Lemma demo_pipe_rep : pipe_rep demo_ipc 1 demo_pipe [] [(0x2000020, 100)].
Proof.
  split.
  - exists []. split; [apply demo_hwf|reflexivity|reflexivity|reflexivity|constructor|reflexivity].
  - split; [exists Mutex_new; split; [reflexivity|done]|reflexivity|reflexivity|].
    intros _. right. eexists. reflexivity.
  - reflexivity.
  - cbn. lia.
  - constructor.
  - cbn. lia.
  - split; [reflexivity|]. split; [cbn; lia|]. intros [|[|i]] t Ht Hi; cbn in *; [injection Ht as <-; right; eexists; reflexivity|lia|lia].
  - split; [reflexivity|]. split; [cbn; lia|]. intros i t Ht Hi. cbn in Hi. lia.
Qed.

Lemma demo_owned a n : 0x2000020 <= a -> a + n <= 0x2000084 -> owned [(0x2000020, 100)] a n.
Proof. intros. exists 0x2000020, 100. split; [by left|lia]. Qed.

Lemma Write_spec_witness :
  exists ok s' c' rs', Write 1 1 1 0x2000020 2 true demo_ipc = Some (ok, s') /\
    pipe_rep s' 1 c' (if ok then [(1, [0; 0])] else []) rs'.
Proof.
  destruct (Write_spec 0 demo_ipc 1 demo_pipe [] [(0x2000020, 100)] 1 0x2000020 [0; 0] true demo_pipe_rep) as (ok & s' & c' & rs' & E & Hr & _).
  - right. reflexivity.
  - discriminate.
  - apply demo_owned; cbn; lia.
  - intros [|[|i]] c Hi; cbn in Hi; [injection Hi as <-; vm_compute; reflexivity|injection Hi as <-; vm_compute; reflexivity|discriminate].
  - cbn. lia.
  - exists ok, s', c', rs'. split; [exact E|exact Hr].
Defined.

Lemma Read_spec_witness :
  exists ok s', Read 1 1 2 0x2000020 16 0x2000040 0x2000044 false demo_ipc = Some (ok, s').
Proof.
  destruct (Read_spec 0 demo_ipc 1 demo_pipe [] [(0x2000020, 100)] 2 0x2000020 16 0x2000040 0x2000044 false demo_pipe_rep) as (ok & s' & c' & q' & rs' & E & _).
  - left. reflexivity.
  - lia.
  - split; [apply demo_owned; lia| |].
    + intros _. split; [apply demo_owned; lia|unfold apart; cbn; lia].
    + intros _. split; [apply demo_owned; lia|]. split; [unfold apart; cbn; lia|]. intros _. unfold apart. cbn. lia.
  - exists ok, s'. exact E.
Defined.

Lemma Flush_spec_witness : exists s' c' rs', Flush 1 1 demo_ipc = Some (tt, s') /\ pipe_rep s' 1 c' [] rs'.
Proof.
  destruct (Flush_spec 0 demo_ipc 1 demo_pipe [] _ demo_pipe_rep) as (s' & c' & rs' & E & Hr & _).
  exists s', c', rs'. split; [exact E|exact Hr].
Defined.

(** The string "p" finds the pipe "p1". *)
Lemma FindPipe_name_spec_witness :
  let s := set_imem (bytes_at (i_mem demo_ipc) 0x2000020 [112]) demo_ipc in
  let g := mk_mgr (1 :: replicate 63 0) 1 2 2 in
  exists p, FindPipe_name 0x2000020 (g, s) = Some (p, (g, s)) /\ p <> 0.
Proof.
  set (s := set_imem (bytes_at (i_mem demo_ipc) 0x2000020 [112]) demo_ipc). set (g := mk_mgr (1 :: replicate 63 0) 1 2 2).
  destruct (FindPipe_name_spec s g 0x2000020 [112]) as (p & E & Hp).
  - constructor; [right; eexists; reflexivity|]. apply Forall_replicate. by left.
  - lia.
  - cbn [cstr]. split_and!; [lia|vm_compute; reflexivity|vm_compute; reflexivity].
  - exists p. split; [exact E|]. destruct Hp as [[-> Hno]|(j & _ & (c & Hz & _) & _)]; [|exact Hz].
    destruct (Hno 1); [by left|]. exists demo_pipe. split_and!; [lia|reflexivity|]. by exists [49].
Defined.

Lemma Pipe_new_spec_witness :
  let s := set_imem (bytes_at (i_mem demo_ipc) 0x2000020 [112]) demo_ipc in
  exists p s', Pipe_new 2 0x2000020 4096 64 s = Some (p, s').
Proof.
  set (s := set_imem (bytes_at (i_mem demo_ipc) 0x2000020 [112]) demo_ipc).
  destruct (Pipe_new_spec s [(0x2000020, 100)] 2 0x2000020 [112] 4096 64) as (p & s' & E & _).
  - apply (hwf_write8 (i_heap demo_ipc)); [apply demo_hwf|apply demo_owned; lia].
  - intros _. right. eexists. reflexivity.
  - cbn [cstr]. split_and!; [lia|vm_compute; reflexivity|vm_compute; reflexivity].
  - apply demo_owned; cbn; lia.
  - lia.
  - cbn. lia.
  - exists p, s'. exact E.
Defined.
