(* ===== verification/ThreadManager.v ===== *)
(** The thread registry: [src/kernel/src/process/thread_manager.cpp] and
    [src/kernel/include/process/thread_manager.hpp].

    The registry is a linked list of [ThreadEntry] objects on the kernel heap.
    The code of the system threads themselves (endless loops that yield and
    sleep), the ELF trampoline and the printing functions are not modelled;
    their addresses are parameters. *)
From S2P Require Import Prelude Memory Strings Heap Thread Scheduler Sync Ipc.
From S2P Require Paging.

Inductive SystemThreadType :=
  | THREAD_KERNEL_MAIN | THREAD_SHELL | THREAD_KEYBOARD | THREAD_TIMER
  | THREAD_IDLE | THREAD_USER_PROCESS | THREAD_SYSTEM_SERVICE | THREAD_DEMO.

Record ThreadEntry := mk_entry {
  e_thread : Z;
  e_type : SystemThreadType;
  description : string;
  parent_id : Z;
  is_system : bool;
  pid : Z;
  e_next : Z;
}.
Definition set_pid (p : Z) (e : ThreadEntry) : ThreadEntry :=
  mk_entry (e_thread e) (e_type e) (description e) (parent_id e) (is_system e) p (e_next e).
Definition set_enext (n : Z) (e : ThreadEntry) : ThreadEntry :=
  mk_entry (e_thread e) (e_type e) (description e) (parent_id e) (is_system e) (pid e) n.

(** The fields of [ThreadManager], its entries by address, and the statics
    [g_pl_ctx_slot] and [s_next_pid]. *)
Record tmgr := mk_tmgr {
  thread_registry : Z;
  thread_count : Z;
  system_thread_count : Z;
  user_thread_count : Z;
  tm_mutex : Z;
  main_thread : Z;
  idle_thread : Z;
  threading_initialized : bool;
  entries : gmap Z ThreadEntry;
  g_pl_ctx_slot : Z;
  s_next_pid : Z;
}.

Definition set_registry (r : Z) (g : tmgr) : tmgr :=
  mk_tmgr r (thread_count g) (system_thread_count g) (user_thread_count g) (tm_mutex g) (main_thread g) (idle_thread g)
    (threading_initialized g) (entries g) (g_pl_ctx_slot g) (s_next_pid g).
Definition set_counts (n s u : Z) (g : tmgr) : tmgr :=
  mk_tmgr (thread_registry g) n s u (tm_mutex g) (main_thread g) (idle_thread g)
    (threading_initialized g) (entries g) (g_pl_ctx_slot g) (s_next_pid g).
Definition set_main (t : Z) (g : tmgr) : tmgr :=
  mk_tmgr (thread_registry g) (thread_count g) (system_thread_count g) (user_thread_count g) (tm_mutex g) t (idle_thread g)
    (threading_initialized g) (entries g) (g_pl_ctx_slot g) (s_next_pid g).
Definition set_idle (t : Z) (g : tmgr) : tmgr :=
  mk_tmgr (thread_registry g) (thread_count g) (system_thread_count g) (user_thread_count g) (tm_mutex g) (main_thread g) t
    (threading_initialized g) (entries g) (g_pl_ctx_slot g) (s_next_pid g).
Definition set_initialized (g : tmgr) : tmgr :=
  mk_tmgr (thread_registry g) (thread_count g) (system_thread_count g) (user_thread_count g) (tm_mutex g) (main_thread g)
    (idle_thread g) true (entries g) (g_pl_ctx_slot g) (s_next_pid g).
Definition set_entries (m : gmap Z ThreadEntry) (g : tmgr) : tmgr :=
  mk_tmgr (thread_registry g) (thread_count g) (system_thread_count g) (user_thread_count g) (tm_mutex g) (main_thread g)
    (idle_thread g) (threading_initialized g) m (g_pl_ctx_slot g) (s_next_pid g).
Definition set_slot (v : Z) (g : tmgr) : tmgr :=
  mk_tmgr (thread_registry g) (thread_count g) (system_thread_count g) (user_thread_count g) (tm_mutex g) (main_thread g)
    (idle_thread g) (threading_initialized g) (entries g) v (s_next_pid g).
Definition set_next_pid (v : Z) (g : tmgr) : tmgr :=
  mk_tmgr (thread_registry g) (thread_count g) (system_thread_count g) (user_thread_count g) (tm_mutex g) (main_thread g)
    (idle_thread g) (threading_initialized g) (entries g) (g_pl_ctx_slot g) v.

Definition SIZEOF_ENTRY : Z := 28.
Definition SIZEOF_COMMAND_CONTEXT : Z := 260.
Definition SIZEOF_LAUNCH_CTX : Z := 192.

Section Model.
Context {S : Type} `{PS : PageSupply S} {H X : Type}.
Abbreviation st := (ipc S H X).
Abbreviation tst := (tmgr * st)%type.

(** The addresses of the thread functions. *)
Variables (kernel_main_thread keyboard_thread command_executor_thread elf_process_trampoline : Z).

Definition tm {A} (f : tmgr -> A) : ST tst A := gets (fun w => f (fst w)).
Definition set_tm (f : tmgr -> tmgr) : ST tst unit := modify (fun w => (f (fst w), snd w)).
Definition has_sched : ST tst bool := gets (fun w => i_on (snd w)).
(** [g_scheduler->...]: undefined without a scheduler. *)
Definition sched_call {A} (c : ST (sched S) A) : ST tst A :=
  let! on := has_sched in if negb on then stuck else on_ipc (run_sched c).
Definition tguard {A} (fuel : nat) (body : ST tst A) : ST tst A :=
  let! m := tm tm_mutex in
  on_ipc (on_mutex m (Lock fuel));;;
  let! r := body in
  on_ipc (on_mutex m Unlock);;;
  ret r.

Definition entry_at (a : Z) : ST tst ThreadEntry := fun w => (fun e => (e, w)) <$> entries (fst w) !! a.
Definition put_entry (a : Z) (e : ThreadEntry) : ST tst unit := set_tm (fun g => set_entries (<[a := e]> (entries g)) g).

(** [new ThreadManager()]. *)
Definition ThreadManager_new : ST st tmgr :=
  let! m := new_mutex in ret (mk_tmgr 0 0 0 0 m 0 0 false ∅ 0 1).

(** [entry->thread && entry->thread->task_id == thread_id]. *)
Definition entry_is (e : ThreadEntry) (id : Z) : ST tst bool :=
  if e_thread e =? 0 then ret false else let! t := on_ipc (thread_of (e_thread e)) in ret (task_id t =? id).

(** The walk along the registry: the entry and its predecessor, 0 for none. *)
Fixpoint find_entry (fuel : nat) (prev cur id : Z) : ST tst (Z * Z) :=
  if cur =? 0 then ret (prev, 0)
  else match fuel with
  | O => stuck
  | Datatypes.S fuel' =>
      let! e := entry_at cur in
      let! b := entry_is e id in
      if b : bool then ret (prev, cur) else find_entry fuel' cur (e_next e) id
  end.
Definition entry_fuel : ST tst nat := tm (fun g => size (entries g)).

Definition FindThreadEntry (id : Z) : ST tst Z :=
  let! n := entry_fuel in
  let! r := tm thread_registry in
  let! pc := find_entry n 0 r id in
  ret (snd pc).

Definition AddThreadEntry (thread : Z) (ty : SystemThreadType) (desc : string) (parent : Z) (sys : bool) : ST tst unit :=
  let! a := on_ipc (hp (Alloc SIZEOF_ENTRY 8)) in
  if a =? 0 then ret tt
  else
    let! r := tm thread_registry in
    put_entry a (mk_entry thread ty desc parent sys 0 r);;;
    set_tm (fun g => set_counts (u32 (thread_count g + 1))
      (if sys then u32 (system_thread_count g + 1) else system_thread_count g)
      (if sys then user_thread_count g else u32 (user_thread_count g + 1)) (set_registry a g)).

Definition RemoveThreadEntry (id : Z) : ST tst unit :=
  let! n := entry_fuel in
  let! r := tm thread_registry in
  let! pc := find_entry n 0 r id in
  let '(prev, cur) := pc in
  if cur =? 0 then ret tt
  else
    let! e := entry_at cur in
    (if prev =? 0 then set_tm (set_registry (e_next e))
     else let! q := entry_at prev in put_entry prev (set_enext (e_next e) q));;;
    set_tm (fun g => set_counts (u32 (thread_count g - 1))
      (if is_system e then u32 (system_thread_count g - 1) else system_thread_count g)
      (if is_system e then user_thread_count g else u32 (user_thread_count g - 1)) g);;;
    on_ipc (hp (Free cur));;;
    set_tm (fun g => set_entries (delete cur (entries g)) g).

Definition Initialize (fuel : nat) : ST tst bool :=
  let! ini := tm threading_initialized in
  if ini : bool then ret true
  else tguard fuel (
    let! on := has_sched in
    if negb on then ret false
    else
      let! t := on_ipc (run_sched (on_k (CreateThread 1 kernel_main_thread 8192 PRIORITY_CRITICAL "kernel-main"))) in
      set_tm (set_main t);;;
      if t =? 0 then ret false
      else
        AddThreadEntry t THREAD_KERNEL_MAIN "Main kernel thread" 0 true;;;
        set_tm set_initialized;;;
        ret true).

Definition CreateSystemThread (fuel : nat) (entry stack prio : Z) (ty : SystemThreadType) (desc : string) (parent : Z) : ST tst Z :=
  let! on := has_sched in
  if negb on then ret 0
  else
    let! t := on_ipc (run_sched (CreateTask entry stack prio desc)) in
    if t =? 0 then ret 0
    else tguard fuel (
      AddThreadEntry t ty desc parent true;;;
      let! x := on_ipc (thread_of t) in
      ret (task_id x)).

Definition CreateUserThread (fuel : nat) (entry stack prio : Z) (desc : string) (parent : Z) : ST tst Z :=
  let! on := has_sched in
  if negb on then ret 0
  else
    let! t := on_ipc (run_sched (CreateTask entry stack prio desc)) in
    if t =? 0 then ret 0
    else tguard fuel (
      AddThreadEntry t THREAD_USER_PROCESS desc parent false;;;
      let! x := on_ipc (thread_of t) in
      ret (task_id x)).

(** Inside the class the name [idle_thread] is the member, a [Thread*], and
    not the function of that name: its value is the entry point. *)
Definition CreateSystemThreads (fuel : nat) : ST tst unit :=
  let! ep := tm idle_thread in
  let! mt := tm main_thread in
  let! x := on_ipc (thread_of mt) in
  let! idle_id := CreateSystemThread fuel ep 4096 PRIORITY_IDLE THREAD_IDLE "idle-thread" (task_id x) in
  (if idle_id =? 0 then ret tt else let! t := sched_call (FindTask idle_id) in set_tm (set_idle t));;;
  let! y := on_ipc (thread_of mt) in
  CreateSystemThread fuel keyboard_thread 4096 PRIORITY_HIGH THREAD_KEYBOARD "keyboard-thread" (task_id y);;;
  ret tt.

Definition StartMultitasking (fuel : nat) : ST tst unit :=
  let! ini := tm threading_initialized in
  if negb ini then ret tt
  else
    CreateSystemThreads fuel;;;
    let! on := has_sched in
    if on : bool then on_ipc (run_sched EnablePreemption) else ret tt.

Definition TerminateThread (fuel : nat) (id : Z) : ST tst bool :=
  let! on := has_sched in
  if negb on then ret false
  else tguard fuel (RemoveThreadEntry id;;; on_ipc (run_sched (KillTask id))).
Definition SuspendThread (id : Z) : ST tst bool :=
  let! on := has_sched in if negb on then ret false else on_ipc (run_sched (SuspendTask id)).
Definition ResumeThread (id : Z) : ST tst bool :=
  let! on := has_sched in if negb on then ret false else on_ipc (run_sched (ResumeTask id)).

Definition GetThreadEntry (fuel : nat) (id : Z) : ST tst Z := tguard fuel (FindThreadEntry id).
Definition GetPid (fuel : nat) (id : Z) : ST tst Z :=
  tguard fuel (
    let! e := FindThreadEntry id in
    if e =? 0 then ret 0 else let! x := entry_at e in ret (pid x)).

(** The command is copied to the context, which no thread receives. *)
Definition ExecuteCommand (fuel : nat) (command : Z) : ST tst Z :=
  let! on := has_sched in
  if (command =? 0) || negb on then ret 0
  else
    let! ctx := on_ipc (hp (Alloc SIZEOF_COMMAND_CONTEXT 8)) in
    if ctx =? 0 then ret 0
    else
      let! m := on_ipc (gets i_mem) in
      let len := strlen m command in
      let len := if 256 <=? len then 255 else len in
      on_ipc (modify (fun s => set_imem (memcpy (i_mem s) ctx command (Z.to_nat len)) s));;;
      on_ipc (modify (fun s => set_imem (write8 (i_mem s) (ctx + len) 0) s));;;
      let! caller := on_ipc current_id in
      on_ipc (modify (fun s => set_imem (write32 (i_mem s) (ctx + 256) caller) s));;;
      let! id := CreateUserThread fuel command_executor_thread 4096 PRIORITY_NORMAL "command-executor" caller in
      (if id =? 0 then on_ipc (hp (Free ctx)) else ret tt);;;
      ret id.

(** [while (src[i] && i < n) dst[i] = src[i], ++i; dst[i] = 0]. *)
Definition copy_field (n : nat) (src dst : Z) : ST tst unit :=
  on_ipc (modify (fun s => let '(i, m) := path_loop n (i_mem s) src dst in set_imem (write8 m (dst + i) 0) s)).

(** [name && *name ? name : "proc"]; the text stands for the characters at
    [name], which is used only when they are not empty. *)
Definition SpawnProcess (fuel : nat) (elf_path name : Z) (text : string) (out_pid stack prio parent : Z) : ST tst Z :=
  let! on := has_sched in
  let! m := on_ipc (gets i_mem) in
  if negb on || (elf_path =? 0) || (read8 m elf_path =? 0) then ret 0
  else
    let! ctx := on_ipc (hp (Alloc SIZEOF_LAUNCH_CTX 8)) in
    if ctx =? 0 then ret 0
    else
      copy_field 159 elf_path ctx;;;
      on_ipc (modify (fun s => set_imem (write8 (i_mem s) (ctx + 160) 0) s));;;
      let! m := on_ipc (gets i_mem) in
      let named := negb (name =? 0) && negb (read8 m name =? 0) in
      (if named then copy_field 31 name (ctx + 160) else ret tt);;;
      set_tm (set_slot ctx);;;
      let! t := on_ipc (run_sched (CreateTask elf_process_trampoline stack prio (if named then text else "proc"))) in
      if t =? 0 then set_tm (set_slot 0);;; on_ipc (hp (Free ctx));;; ret 0
      else tguard fuel (
        let! p := tm s_next_pid in
        set_tm (set_next_pid (u32 (p + 1)));;;
        AddThreadEntry t THREAD_USER_PROCESS (if named then text else "proc") parent false;;;
        let! r := tm thread_registry in
        let! head := (if r =? 0 then ret false else let! e := entry_at r in ret (e_thread e =? t)) in
        (if head : bool then let! e := entry_at r in put_entry r (set_pid p e)
         else
           let! x := on_ipc (thread_of t) in
           let! a := FindThreadEntry (task_id x) in
           if a =? 0 then ret tt else let! e := entry_at a in put_entry a (set_pid p e));;;
        on_ipc (store_out out_pid p);;;
        let! x := on_ipc (thread_of t) in
        ret (task_id x)).

Fixpoint kill_users (fuel : nat) (cur : Z) : ST tst unit :=
  if cur =? 0 then ret tt
  else match fuel with
  | O => stuck
  | Datatypes.S fuel' =>
      let! e := entry_at cur in
      (if negb (e_thread e =? 0) && negb (is_system e) then
         let! t := on_ipc (thread_of (e_thread e)) in sched_call (KillTask (task_id t));;; ret tt
       else ret tt);;;
      kill_users fuel' (e_next e)
  end.
Definition TerminateAllUserThreads (fuel : nat) : ST tst unit :=
  tguard fuel (let! n := entry_fuel in let! r := tm thread_registry in kill_users n r).

Fixpoint kill_all (fuel : nat) : ST tst unit :=
  let! cur := tm thread_registry in
  if cur =? 0 then ret tt
  else match fuel with
  | O => stuck
  | Datatypes.S fuel' =>
      let! e := entry_at cur in
      set_tm (set_registry (e_next e));;;
      (if e_thread e =? 0 then ret tt
       else let! t := on_ipc (thread_of (e_thread e)) in sched_call (KillTask (task_id t));;; ret tt);;;
      on_ipc (hp (Free cur));;;
      set_tm (fun g => set_entries (delete cur (entries g)) g);;;
      kill_all fuel'
  end.
Definition TerminateAllThreads (fuel : nat) : ST tst unit :=
  tguard fuel (let! n := entry_fuel in kill_all n;;; set_tm (set_counts 0 0 0)).

(** * ThreadManagerAPI *)

(** [g_thread_manager], null before it exists. *)
Definition on_tmgr {A} (dflt : A) (c : ST tst A) : ST (option tmgr * st) A :=
  fun w => match fst w with
           | None => Some (dflt, w)
           | Some g => match c (g, snd w) with Some (a, (g', s')) => Some (a, (Some g', s')) | None => None end
           end.

Definition InitializeThreading (fuel : nat) : ST (option tmgr * st) bool :=
  let! g := gets fst in
  (if g is Some _ then ret tt
   else let! t := on_ipc ThreadManager_new in modify (fun w => (Some t, snd w)));;;
  on_tmgr false (Initialize fuel).
Definition API_StartMultitasking (fuel : nat) : ST (option tmgr * st) unit := on_tmgr tt (StartMultitasking fuel).
Definition API_CreateThread (fuel : nat) (entry stack prio : Z) (desc : string) : ST (option tmgr * st) Z :=
  on_tmgr 0 (CreateUserThread fuel entry stack prio desc 0).
Definition API_CreateSystemThread (fuel : nat) (entry : Z) (ty : SystemThreadType) (stack prio : Z) (desc : string) : ST (option tmgr * st) Z :=
  on_tmgr 0 (CreateSystemThread fuel entry stack prio ty desc 0).
Definition API_SpawnProcess (fuel : nat) (elf_path name : Z) (text : string) (out_pid stack prio parent : Z) : ST (option tmgr * st) Z :=
  on_tmgr 0 (SpawnProcess fuel elf_path name text out_pid stack prio parent).
Definition API_TerminateThread (fuel : nat) (id : Z) : ST (option tmgr * st) bool := on_tmgr false (TerminateThread fuel id).
Definition API_ExecuteCommand (fuel : nat) (command : Z) : ST (option tmgr * st) Z := on_tmgr 0 (ExecuteCommand fuel command).
End Model.

(** * The registry as a list *)

Section Registry.
Context {S : Type} `{PS : PageSupply S} {H X : Type}.
Abbreviation st := (ipc S H X).
Implicit Types (s : st) (g : tmgr) (es av : list (Z * ThreadEntry)) (rs : list (Z * Z)).

Fixpoint elinked (m : gmap Z ThreadEntry) (h : Z) es (z : Z) : Prop :=
  match es with
  | [] => h = z
  | x :: es' => h = x.1 /\ x.1 <> 0 /\ m !! x.1 = Some x.2 /\ elinked m (e_next x.2) es' z
  end.

(** Whether the entry is that of the thread [id]. *)
Definition is_thread s (id : Z) (e : ThreadEntry) : bool :=
  negb (e_thread e =? 0) && (if i_threads s !! e_thread e is Some t then task_id t =? id else false).

(** Entries without their links. *)
Definition view es : list (Z * ThreadEntry) := (fun x => (x.1, set_enext 0 x.2)) <$> es.
Definition count_if (b : bool) av : Z := Z.of_nat (length (filter (fun x => is_system x.2 = b) av)).

Record reg_rep g s av rs : Prop := {
  rg_heap : hwf (i_heap s) (((fun x => (x.1, SIZEOF_ENTRY)) <$> av) ++ rs);
  rg_linked : exists es, elinked (entries g) (thread_registry g) es 0 /\ av = view es;
  rg_count : thread_count g = u32 (Z.of_nat (length av));
  rg_system : system_thread_count g = u32 (count_if true av);
  rg_user : user_thread_count g = u32 (count_if false av);
  rg_threads : Forall (fun x => e_thread x.2 = 0 \/ is_Some (i_threads s !! e_thread x.2)) av;
}.

(** The reference operations. *)
Fixpoint spec_find s (id : Z) av : Z :=
  match av with [] => 0 | x :: av' => if is_thread s id x.2 then x.1 else spec_find s id av' end.
Fixpoint spec_remove s (id : Z) av : list (Z * ThreadEntry) :=
  match av with [] => [] | x :: av' => if is_thread s id x.2 then av' else x :: spec_remove s id av' end.

Lemma elinked_app m h es1 es2 z : elinked m h (es1 ++ es2) z <-> exists y, elinked m h es1 y /\ elinked m y es2 z.
Proof.
  revert h. induction es1 as [|x es1 IH]; intros h; cbn [app elinked].
  - split; [intros E; by exists h|by intros (y & -> & ?)].
  - rewrite IH. split; [intros (? & ? & ? & y & ? & ?)|intros (y & (? & ? & ? & ?) & ?)]; [by exists y|by eauto 10].
Qed.

Lemma elinked_ext m m' h es z : (forall a, a ∈ es.*1 -> m' !! a = m !! a) -> elinked m h es z -> elinked m' h es z.
Proof.
  revert h. induction es as [|x es IH]; intros h He Hl; cbn [elinked] in *; [done|]. destruct Hl as (? & ? & ? & ?).
  split_and!; [done|done|rewrite He; [done|rewrite fmap_cons; by left]|]. apply IH; [|done]. intros a Ha. apply He. rewrite fmap_cons. by right.
Qed.

Lemma view_addr es : (view es).*1 = es.*1.
Proof. unfold view. by induction es as [|x es IH]; cbn; [|f_equal]. Qed.

Lemma nodup_entries av rs : pairwise (((fun x => (x.1, SIZEOF_ENTRY)) <$> av) ++ rs) -> NoDup av.*1.
Proof.
  induction av as [|x av IH]; intros Hp; [constructor|]. rewrite fmap_cons in *. destruct Hp as [Hx Hp]. constructor; [|by apply IH].
  intros (y & Ey & Hy)%list_elem_of_fmap. specialize (Hx (y.1, SIZEOF_ENTRY)). unfold apart, SIZEOF_ENTRY in Hx. cbn in Hx. rewrite Ey in Hx.
  destruct Hx; [|lia..]. apply elem_of_app. left. apply list_elem_of_fmap. by exists y.
Qed.

Lemma elinked_size m h es z : elinked m h es z -> NoDup es.*1 -> (length es <= size m)%nat.
Proof.
  intros Hl Hnd. assert (Hs : list_to_set es.*1 ⊆@{gset Z} dom m).
  { intros a Ha%elem_of_list_to_set. clear Hnd. revert h Hl. induction es as [|x es IH]; intros h Hl; [by apply not_elem_of_nil in Ha|].
    destruct Hl as (_ & _ & Hx & Hl). rewrite fmap_cons in Ha. apply elem_of_cons in Ha as [->|Ha]; [apply elem_of_dom; eauto|by apply (IH Ha _ Hl)]. }
  apply subseteq_size in Hs. rewrite size_list_to_set, size_dom, length_fmap in Hs; done.
Qed.

Lemma entry_step {B} a (f : ThreadEntry -> ST (tmgr * st) B) g s e : entries g !! a = Some e -> bind (entry_at a) f (g, s) = f e (g, s).
Proof. intros E. apply bind_step. unfold entry_at. cbn. by rewrite E. Qed.

Lemma entry_is_run e id g s :
  e_thread e = 0 \/ is_Some (i_threads s !! e_thread e) -> entry_is e id (g, s) = Some (is_thread s id e, (g, s)).
Proof.
  intros Ht. unfold entry_is, is_thread. destruct (Z.eqb_spec (e_thread e) 0); [done|]. destruct Ht as [?|[t Ht]]; [done|].
  erewrite bind_step by (unfold on_ipc, zoom, thread_of; cbn [fst snd]; rewrite Ht; reflexivity). by rewrite Ht.
Qed.

Definition prev_of (d : Z) es : Z := default d (fst <$> last es).

Lemma find_entry_ok fuel prev cur id g s es :
  elinked (entries g) cur es 0 -> (length es <= fuel)%nat ->
  Forall (fun x => e_thread x.2 = 0 \/ is_Some (i_threads s !! e_thread x.2)) es ->
  exists p a, find_entry fuel prev cur id (g, s) = Some ((p, a), (g, s)) /\
    ((a = 0 /\ Forall (fun x => is_thread s id x.2 = false) es) \/
     exists l1 e l2, es = l1 ++ (a, e) :: l2 /\ Forall (fun x => is_thread s id x.2 = false) l1 /\
       is_thread s id e = true /\ p = prev_of prev l1).
Proof.
  revert prev cur es. induction fuel as [|fuel IH]; intros prev cur es Hl Hf Ht.
  { destruct es; cbn in Hf, Hl; [|lia]. rewrite Hl. exists prev, 0. split; [done|]. left. by split. }
  cbn [find_entry]. destruct es as [|[a e] es].
  { cbn in Hl. rewrite Hl. exists prev, 0. split; [done|]. left. by split. }
  destruct Hl as (-> & Hz & He & Hl). cbn [fst snd] in *. apply Forall_cons in Ht as [Hte Ht]. destruct (Z.eqb_spec a 0); [done|].
  rewrite (entry_step _ _ _ _ _ He), (bind_step _ _ _ _ _ (entry_is_run e id g s Hte)). destruct (is_thread s id e) eqn:Em.
  - exists prev, a. split; [done|]. right. exists [], e, es. by split_and!.
  - destruct (IH a (e_next e) es Hl ltac:(cbn in Hf; lia) Ht) as (p & b & E & Hr). exists p, b. split; [done|].
    destruct Hr as [[-> Hno]|(l1 & e' & l2 & -> & Hno & Hm & ->)]; [left|right].
    + split; [done|]. by constructor.
    + exists ((a, e) :: l1), e', l2. split_and!; [done|by constructor|done|]. unfold prev_of. rewrite last_cons. by destruct (last l1).
Qed.

Lemma is_thread_view s id e n : is_thread s id (set_enext n e) = is_thread s id e.
Proof. done. Qed.

Lemma no_match_view s id es : Forall (fun x => is_thread s id x.2 = false) es ->
  spec_find s id (view es) = 0 /\ spec_remove s id (view es) = view es.
Proof.
  induction 1 as [|x es Hx _ [IH1 IH2]]; [done|]. unfold view in *. rewrite fmap_cons. cbn [spec_find spec_remove snd fst].
  rewrite is_thread_view, Hx. by rewrite IH1, IH2.
Qed.

Lemma view_app l1 l2 : view (l1 ++ l2) = view l1 ++ view l2.
Proof. apply fmap_app. Qed.
Lemma view_cons x l : view (x :: l) = (x.1, set_enext 0 x.2) :: view l.
Proof. done. Qed.

Lemma match_view s id l1 a e l2 :
  Forall (fun x => is_thread s id x.2 = false) l1 -> is_thread s id e = true ->
  spec_find s id (view (l1 ++ (a, e) :: l2)) = a /\ spec_remove s id (view (l1 ++ (a, e) :: l2)) = view l1 ++ view l2.
Proof.
  intros Hno Hm. induction Hno as [|x l1 Hx _ [IH1 IH2]]; cbn [app]; rewrite !view_cons; cbn [spec_find spec_remove fst snd app]; rewrite is_thread_view.
  - by rewrite Hm.
  - rewrite Hx. by rewrite IH1, IH2.
Qed.

Lemma count_app b l1 l2 : count_if b (l1 ++ l2) = count_if b l1 + count_if b l2.
Proof. unfold count_if. rewrite filter_app, length_app. lia. Qed.
Lemma count_one b x : count_if b [x] = if Bool.eqb (is_system x.2) b then 1 else 0.
Proof. unfold count_if. rewrite filter_cons, filter_nil. by destruct (is_system x.2), b. Qed.

Lemma u32_dec n : u32 (u32 (n + 1) - 1) = u32 n.
Proof. unfold u32. rewrite Zminus_mod_idemp_l. f_equal. lia. Qed.
Lemma u32_inc n : u32 (u32 n + 1) = u32 (n + 1).
Proof. unfold u32. apply Zplus_mod_idemp_l. Qed.

Lemma find_registry g s av rs id :
  reg_rep g s av rs ->
  exists es p a, elinked (entries g) (thread_registry g) es 0 /\ av = view es /\ NoDup es.*1 /\
    find_entry (size (entries g)) 0 (thread_registry g) id (g, s) = Some ((p, a), (g, s)) /\
    ((a = 0 /\ Forall (fun x => is_thread s id x.2 = false) es) \/
     exists l1 e l2, es = l1 ++ (a, e) :: l2 /\ Forall (fun x => is_thread s id x.2 = false) l1 /\
       is_thread s id e = true /\ p = prev_of 0 l1).
Proof.
  intros [Hh (es & Hl & ->) _ _ _ Ht]. destruct (hwf_regions _ _ Hh) as [Hpw _]. apply nodup_entries in Hpw. rewrite view_addr in Hpw.
  destruct (find_entry_ok (size (entries g)) 0 (thread_registry g) id g s es Hl) as (p & a & E & Hr).
  - by eapply elinked_size.
  - unfold view in Ht. rewrite Forall_fmap in Ht. exact Ht.
  - exists es, p, a. by split_and!.
Qed.

Lemma FindThreadEntry_ok g s av rs id : reg_rep g s av rs -> FindThreadEntry id (g, s) = Some (spec_find s id av, (g, s)).
Proof.
  intros Hr. destruct (find_registry g s av rs id Hr) as (es & p & a & Hl & -> & Hnd & E & Hc).
  unfold FindThreadEntry, entry_fuel, tm. rewrite !gets_step. cbn [fst]. rewrite (bind_step _ _ _ _ _ E). cbn [snd].
  destruct Hc as [[-> Hno]|(l1 & e & l2 & -> & Hno & Hm & _)]; [by rewrite (proj1 (no_match_view s id es Hno))|].
  by rewrite (proj1 (match_view s id l1 a e l2 Hno Hm)).
Qed.

(** Unlinking the entry [a]. *)
Definition unlinked g (l1 : list (Z * ThreadEntry)) (a : Z) (e : ThreadEntry) : tmgr :=
  let g1 := match last l1 with
            | None => set_registry (e_next e) g
            | Some y => set_entries (<[y.1 := set_enext (e_next e) y.2]> (entries g)) g
            end in
  set_entries (delete a (entries g1)) g1.

Lemma unlinked_ok g l1 a e l2 :
  elinked (entries g) (thread_registry g) (l1 ++ (a, e) :: l2) 0 -> NoDup (l1 ++ (a, e) :: l2).*1 ->
  exists es, elinked (entries (unlinked g l1 a e)) (thread_registry (unlinked g l1 a e)) es 0 /\ view es = view l1 ++ view l2.
Proof.
  intros Hl Hnd. unfold unlinked. destruct l1 as [|y l1 _] using rev_ind.
  - cbn in *. destruct Hl as (_ & _ & _ & Hl). exists l2. split; [|done]. inversion Hnd as [|?? Ha _]; subst.
    apply (elinked_ext (entries g)); [|done]. intros b Hb. apply lookup_delete_ne. by intros ->.
  - rewrite last_snoc. cbn zeta. rewrite <-app_assoc in Hl, Hnd. cbn [app] in Hl, Hnd. apply elinked_app in Hl as (z & Hl & Hr).
    destruct Hr as (-> & Hy0 & Hy & Ea & Ha0 & Ha & Hz). cbn [fst snd] in *. rewrite fmap_app, !fmap_cons in Hnd. cbn [fst] in Hnd.
    apply NoDup_app in Hnd as (_ & Hdis & Hnd). apply NoDup_cons in Hnd as [Hy1 Hnd]. apply NoDup_cons in Hnd as [Ha1 _].
    rewrite not_elem_of_cons in Hy1. destruct Hy1 as [Hya Hy2].
    exists (l1 ++ (y.1, set_enext (e_next e) y.2) :: l2). split.
    + cbn [entries set_entries thread_registry]. apply elinked_app. exists y.1. split.
      * apply (elinked_ext (entries g)); [|done]. intros b Hb.
        rewrite lookup_delete_ne, lookup_insert_ne; [done|intros <-; apply (Hdis _ Hb); by left|intros <-; apply (Hdis _ Hb); right; by left].
      * cbn [elinked fst snd e_next set_enext]. rewrite lookup_delete_ne, lookup_insert_eq by congruence. split_and!; [done..|].
        apply (elinked_ext (entries g)); [|done]. intros b Hb. rewrite lookup_delete_ne, lookup_insert_ne; [done|congruence|congruence].
    + unfold view. rewrite !fmap_app, !fmap_cons, <-app_assoc. done.
Qed.

Lemma RemoveThreadEntry_ok g s av rs id :
  reg_rep g s av rs ->
  exists g' s', RemoveThreadEntry id (g, s) = Some (tt, (g', s')) /\ reg_rep g' s' (spec_remove s id av) rs /\
    same_objs s s' /\ same_on rs (i_mem s) (i_mem s').
Proof.
  intros Hrep. destruct (find_registry g s av rs id Hrep) as (es & p & a & Hl & -> & Hnd & E & Hc).
  unfold RemoveThreadEntry, entry_fuel, tm. rewrite !gets_step. cbn [fst]. rewrite (bind_step _ _ _ _ _ E).
  destruct Hc as [[-> Hno]|(l1 & e & l2 & -> & Hno & Hm & ->)].
  { exists g, s. cbn [Z.eqb]. rewrite (proj2 (no_match_view s id es Hno)). split_and!; [done|done|done|apply same_on_refl]. }
  pose proof Hl as Hl'. apply elinked_app in Hl' as (z & Hl1 & -> & Ha0 & Ha & _). cbn [fst snd] in Ha0, Ha.
  destruct (Z.eqb_spec a 0); [done|]. rewrite (entry_step _ _ _ _ _ Ha).
  destruct Hrep as [Hh _ Hc1 Hc2 Hc3 Ht].
  assert (Hview : view (l1 ++ (a, e) :: l2) = view l1 ++ [(a, set_enext 0 e)] ++ view l2) by (unfold view; by rewrite fmap_app, fmap_cons).
  rewrite Hview in Hh, Hc1, Hc2, Hc3, Ht.
  assert (Hh2 : hwf (i_heap s) ((a, SIZEOF_ENTRY) :: ((fun x => (x.1, SIZEOF_ENTRY)) <$> view l1 ++ view l2) ++ rs)).
  { eapply hwf_perm; [|exact Hh]. rewrite !fmap_app. cbn [fmap list_fmap fst app]. rewrite <-!app_assoc. cbn [app]. symmetry. apply Permutation_middle. }
  destruct (hwf_free _ _ _ _ Hh2) as (h' & Ef & Hh' & Hso).
  set (g1 := unlinked g l1 a e). destruct (unlinked_ok g l1 a e l2 Hl Hnd) as (es' & Hel & Hev). fold g1 in Hel.
  exists (set_counts (u32 (thread_count g - 1)) (if is_system e then u32 (system_thread_count g - 1) else system_thread_count g)
    (if is_system e then user_thread_count g else u32 (user_thread_count g - 1)) g1), (set_iheap h' s). split; [|split; [|split]].
  - assert (Hpz : prev_of 0 l1 = 0 <-> last l1 = None).
    { unfold prev_of. destruct (last l1) as [y|] eqn:El; cbn; [|done]. apply last_Some in El as (l & ->). apply elinked_app in Hl1 as (? & _ & _ & ? & _). done. }
    unfold g1, unlinked. destruct (last l1) as [y|] eqn:El.
    + destruct (Z.eqb_spec (prev_of 0 l1) 0) as [Hp|Hp]; [by apply Hpz in Hp|]. unfold prev_of in *. rewrite El in *. cbn [fmap option_fmap option_map default from_option Datatypes.id] in *.
      assert (Hy : entries g !! y.1 = Some y.2) by (apply last_Some in El as (l & ->); apply elinked_app in Hl1 as (? & _ & _ & _ & ? & _); done).
      rewrite bind_assoc, (entry_step _ _ _ _ _ Hy). unfold put_entry, set_tm. rewrite !modify_step. cbn [fst snd].
      erewrite bind_step by (unfold on_ipc, hp, zoom; cbn [snd fst]; rewrite Ef; reflexivity). done.
    + destruct (Z.eqb_spec (prev_of 0 l1) 0) as [Hp|Hp]; [|by destruct Hp; apply Hpz]. unfold set_tm. rewrite !modify_step. cbn [fst snd].
      erewrite bind_step by (unfold on_ipc, hp, zoom; cbn [snd fst]; rewrite Ef; reflexivity). done.
  - rewrite Hview, <-Hview, (proj2 (match_view s id l1 a e l2 Hno Hm)). rewrite !length_app in Hc1. rewrite !count_app, !count_one in Hc2, Hc3. cbn in Hc1.
    split; cbn [thread_count system_thread_count user_thread_count set_counts entries thread_registry].
    + done.
    + exists es'. split; [exact Hel|]. by rewrite Hev.
    + rewrite Hc1, length_app. replace (Z.of_nat _) with (Z.of_nat (length (view l1) + length (view l2)) + 1) by lia. apply u32_dec.
    + rewrite Hc2, count_app. cbn [snd is_system set_enext]. destruct (is_system e); cbn; [|f_equal; lia].
      replace (count_if true (view l1) + (1 + count_if true (view l2))) with (count_if true (view l1) + count_if true (view l2) + 1) by lia. apply u32_dec.
    + rewrite Hc3, count_app. cbn [snd is_system set_enext]. destruct (is_system e); cbn; [f_equal; lia|].
      replace (count_if false (view l1) + (1 + count_if false (view l2))) with (count_if false (view l1) + count_if false (view l2) + 1) by lia. apply u32_dec.
    + apply Forall_app in Ht as [? Ht]. apply Forall_cons in Ht as [_ ?]. apply Forall_app. by split.
  - done.
  - intros u k Hin. apply Hso. apply elem_of_app. by right.
Qed.

Lemma AddThreadEntry_ok g s av rs th ty d par sys :
  reg_rep g s av rs -> th = 0 \/ is_Some (i_threads s !! th) -> g_heapEnd (i_heap s) + 5000 <= 2 ^ 32 ->
  exists g' s', AddThreadEntry th ty d par sys (g, s) = Some (tt, (g', s')) /\ same_objs s s' /\ same_on rs (i_mem s) (i_mem s') /\
    ((g' = g /\ reg_rep g s' av rs /\ exhausted (h_supply (i_heap s'))) \/
     exists a, reg_rep g' s' ((a, mk_entry th ty d par sys 0 0) :: av) rs).
Proof.
  intros [Hh (es & Hl & ->) Hc1 Hc2 Hc3 Ht] Hth Hend. unfold AddThreadEntry.
  destruct (hwf_alloc (i_heap s) _ SIZEOF_ENTRY Hh) as (a & h' & E & Hso & He & Hr); [unfold SIZEOF_ENTRY; lia|unfold SIZEOF_ENTRY; lia|].
  erewrite bind_step by (unfold on_ipc, hp, zoom; cbn [snd fst]; rewrite E; reflexivity).
  assert (Hso' : same_on rs (i_mem s) (i_mem (set_iheap h' s))) by (intros u k Hin; apply Hso, elem_of_app; by right).
  destruct Hr as [(-> & Hh' & Hex)|(Ha & Hh')].
  { cbn [Z.eqb]. eexists g, _. split; [reflexivity|]. split; [done|]. split; [done|]. left. split; [done|]. split; [|done].
    split; try done. by exists es. }
  destruct (Z.eqb_spec a 0); [done|]. unfold tm. rewrite gets_step. unfold put_entry, set_tm. rewrite modify_step. cbn [fst snd].
  eexists _, _. split; [reflexivity|]. split; [done|]. split; [done|]. right. exists a.
  assert (Hfr : a ∉ es.*1).
  { rewrite <-view_addr. destruct (hwf_regions _ _ Hh') as [[Hpw _] _]. intros (y & Ey & Hy)%list_elem_of_fmap.
    specialize (Hpw (y.1, SIZEOF_ENTRY) ltac:(apply elem_of_app; left; apply list_elem_of_fmap; by exists y)).
    unfold apart, SIZEOF_ENTRY in Hpw. cbn in Hpw. lia. }
  assert (Hcons : forall l : list (Z * ThreadEntry), (a, mk_entry th ty d par sys 0 0) :: l = [(a, mk_entry th ty d par sys 0 0)] ++ l) by done.
  split; cbn [fst snd thread_count system_thread_count user_thread_count set_counts set_registry entries thread_registry set_entries].
  - done.
  - exists ((a, mk_entry th ty d par sys 0 (thread_registry g)) :: es). split; [|done]. cbn [elinked fst snd e_next]. rewrite lookup_insert_eq.
    split_and!; [done..|]. apply (elinked_ext (entries g)); [|done]. intros b Hb. apply lookup_insert_ne. by intros ->.
  - cbn [length]. rewrite Hc1, u32_inc. f_equal. lia.
  - rewrite Hcons, count_app, count_one. cbn [snd is_system]. destruct sys; cbn; [rewrite Hc2, u32_inc; f_equal; lia|done].
  - rewrite Hcons, count_app, count_one. cbn [snd is_system]. destruct sys; cbn; [done|rewrite Hc3, u32_inc; f_equal; lia].
  - constructor; [done|]. exact Ht.
Qed.

(** C32: the registry operations implement a list: [FindThreadEntry] yields the
    first entry of the thread, [RemoveThreadEntry] removes that one and frees
    its memory, [AddThreadEntry] puts an entry in front unless the heap is
    exhausted; the three counters stay the numbers of entries, of system and
    of user threads, and the memory of others is kept. *)
Theorem registry_refines g s av rs :
  reg_rep g s av rs -> g_heapEnd (i_heap s) + 5000 <= 2 ^ 32 ->
  (forall id, FindThreadEntry id (g, s) = Some (spec_find s id av, (g, s))) /\
  (forall id, exists g' s', RemoveThreadEntry id (g, s) = Some (tt, (g', s')) /\
     reg_rep g' s' (spec_remove s id av) rs /\ same_on rs (i_mem s) (i_mem s')) /\
  (forall th ty d par sys, th = 0 \/ is_Some (i_threads s !! th) ->
     exists g' s', AddThreadEntry th ty d par sys (g, s) = Some (tt, (g', s')) /\ same_on rs (i_mem s) (i_mem s') /\
       ((g' = g /\ reg_rep g s' av rs /\ exhausted (h_supply (i_heap s'))) \/
        exists a, reg_rep g' s' ((a, mk_entry th ty d par sys 0 0) :: av) rs)).
Proof.
  intros Hr Hend. split_and!.
  - intros id. by eapply FindThreadEntry_ok.
  - intros id. destruct (RemoveThreadEntry_ok g s av rs id Hr) as (g' & s' & ? & ? & _ & ?). eauto.
  - intros th ty d par sys Hth. destruct (AddThreadEntry_ok g s av rs th ty d par sys Hr Hth Hend) as (g' & s' & ? & _ & ? & ?). eauto.
Qed.
End Registry.

(** * Concrete runs *)

(** A fresh manager and scheduler, before any thread. *)
Definition demo_tmgr : tmgr := mk_tmgr 0 0 0 0 2 0 0 false ∅ 0 1.
Definition demo_boot : ipc Paging.paging unit unit :=
  mk_ipc true (Scheduler_new (mk_kst ∅ demo_heap)) ∅ ∅ {[2 := Mutex_new]} ∅.

Lemma registry_refines_witness :
  exists g' s', AddThreadEntry 0 THREAD_DEMO "demo" 0 false (demo_tmgr, demo_boot) = Some (tt, (g', s')).
Proof.
  destruct (registry_refines demo_tmgr demo_boot [] []) as (_ & _ & Ha).
  - split; try reflexivity; [|exists []; split; reflexivity|constructor].
    exists demo_blocks. split; [apply demo_heap_wf|reflexivity].
  - cbn. lia.
  - destruct (Ha 0 THREAD_DEMO "demo"%string 0 false) as (g' & s' & E & _); [left; reflexivity|]. exists g', s'. exact E.
Defined.

(** Main, idle and keyboard threads started, the thread functions at
    [0x101000] and [0x102000]. *)
Definition demo_start : option (unit * (tmgr * ipc Paging.paging unit unit)) :=
  (let! ok := Initialize 0x101000 1 in if ok : bool then CreateSystemThreads 0x102000 1 else stuck) (demo_tmgr, demo_boot).

(** starting the system threads gives the idle thread the entry point 0,
    the value of the member that hides the function of the same name, and the
    same task id as the main thread, whose id 1 the scheduler hands out again. *)
Theorem idle_thread_entry :
  exists g s m i, demo_start = Some (tt, (g, s)) /\ thread_count g = 3 /\
    i_threads s !! main_thread g = Some m /\ i_threads s !! idle_thread g = Some i /\ main_thread g <> idle_thread g /\
    task_id m = 1 /\ task_id i = 1 /\ eip (context m) = 0x101000 /\ eip (context i) = 0.
Proof.
  set (look r := match r : option (unit * (tmgr * ipc Paging.paging unit unit)) with
    | Some (_, (g, s)) => Some (thread_count g, main_thread g =? idle_thread g,
        (fun t => (task_id t, eip (context t))) <$> i_threads s !! main_thread g,
        (fun t => (task_id t, eip (context t))) <$> i_threads s !! idle_thread g)
    | None => None end).
  assert (E : look demo_start = Some (3, false, Some (1, 0x101000), Some (1, 0))) by (vm_compute; reflexivity).
  unfold look in E. destruct demo_start as [[[] [g s]]|]; [|discriminate]. injection E as Ec En Em Ei.
  apply fmap_Some in Em as (m & Hm & [= ? ?]). apply fmap_Some in Ei as (i & Hi & [= ? ?]).
  exists g, s, m, i. split_and!; try done. by apply Z.eqb_neq.
Qed.
