(* ===== verification/MsgQueue.v ===== *)
(** Message queues: [src/kernel/src/process/message_queue.cpp] and
    [src/kernel/include/process/message_queue.hpp].

    A queue holds messages addressed to a receiver; a receiver takes the
    oldest message addressed to it or to anybody.  The theorems relate the
    linked messages to the list of their headers and bytes.  [fuel] bounds the
    waiting loops as for pipes. *)
From S2P Require Import Prelude Memory Strings Heap Thread Scheduler Sync Ipc ThreadManager.
From S2P Require Paging.

Inductive MessageType := MSG_TYPE_GENERIC | MSG_TYPE_COMMAND | MSG_TYPE_EVENT | MSG_TYPE_RESPONSE | MSG_TYPE_SYSTEM.
Definition type_code (t : MessageType) : Z :=
  match t with
  | MSG_TYPE_GENERIC => 0 | MSG_TYPE_COMMAND => 1 | MSG_TYPE_EVENT => 2 | MSG_TYPE_RESPONSE => 3 | MSG_TYPE_SYSTEM => 4
  end.

(** The fields of [QueueMessage] before its bytes. *)
Record qhdr := mk_qhdr { message_id : Z; sender_id : Z; receiver_id : Z; q_type : MessageType }.
Abbreviation QueueMessage := (node qhdr).

Record mq_ext := mk_mqext { queue_id : Z; q_name : list Z; max_messages : Z; max_message_size : Z; next_message_id : Z }.
Definition set_next_message_id (n : Z) (x : mq_ext) : mq_ext :=
  mk_mqext (queue_id x) (q_name x) (max_messages x) (max_message_size x) n.
Abbreviation MessageQueue := (chan mq_ext).

Definition SIZEOF_QUEUE_MESSAGE : Z := 28.
Definition SIZEOF_MESSAGE_QUEUE : Z := 76.

Definition IsFull (c : MessageQueue) : bool := max_messages (c_ext c) <=? c_count c.

(** [receiver_id == 0 || msg->receiver_id == 0 || msg->receiver_id == receiver_id]. *)
Definition matching (receiver : Z) (h : qhdr) : bool :=
  (receiver =? 0) || (receiver_id h =? 0) || (receiver_id h =? receiver).

(** [NamesEqual] of a queue's name and a string. *)
Definition NamesEqual (m : mem) (a : list Z) (b : Z) : bool :=
  if b =? 0 then false
  else
    let len_a := strlen_loop 32 (str_of a) 0 in
    if negb (len_a =? strlen m b) then false
    else strncmp_loop (Z.to_nat len_a) (str_of a) (str_at m b) 0 =? 0.

Section Model.
Context {S : Type} `{PS : PageSupply S}.
Abbreviation st := (ipc S qhdr mq_ext).

(** [new MessageQueue(id, name, max_msgs, max_msg_size)]. *)
Definition MessageQueue_new (id nm max_msgs max_msg_size : Z) : ST st Z :=
  let! p := hp (Alloc SIZEOF_MESSAGE_QUEUE 8) in
  if p =? 0 then ret 0
  else
    let! m := gets i_mem in
    let! mutex := new_mutex in
    let! rcv := new_cv in
    let! wcv := new_cv in
    put_chan p (mk_chan 0 0 0 mutex rcv wcv false true
      (mk_mqext id (if nm =? 0 then [] else copy_name m nm) max_msgs max_msg_size 1));;;
    ret p.

(** The walk along the messages: the message and its predecessor, 0 for none. *)
Fixpoint find_matching (fuel : nat) (prev cur receiver : Z) : ST st (Z * Z) :=
  if cur =? 0 then ret (0, 0)
  else match fuel with
  | O => stuck
  | Datatypes.S fuel' =>
      let! n := node_at cur in
      if matching receiver (n_hdr n) then ret (prev, cur) else find_matching fuel' cur (n_next n) receiver
  end.
Definition FindMatchingMessage (p receiver : Z) : ST st (Z * Z) :=
  let! c := chan_at p in
  let! n := gets (fun s => size (i_nodes s)) in
  find_matching n 0 (c_head c) receiver.

Fixpoint wait_room (fuel : nat) (p : Z) (block : bool) : ST st bool :=
  let! c := chan_at p in
  if negb (IsFull c) then ret true
  else if negb block || c_closed c then ret false
  else match fuel with
  | O => stuck
  | Datatypes.S fuel' => on_mutex (c_mutex c) (CV_Wait fuel);;; wait_room fuel' p block
  end.

(** What [Send] does while it holds the mutex. *)
Definition send_body (fuel : nat) (p sender receiver : Z) (ty : MessageType) (dat size : Z) (block : bool) : ST st bool :=
  let! room := wait_room fuel p block in
  if negb room then ret false
  else
    let! c := chan_at p in
    upd_chan p (fun c => set_ext (set_next_message_id (u32 (next_message_id (c_ext c) + 1)) (c_ext c)) c);;;
    let! a := new_node SIZEOF_QUEUE_MESSAGE (mk_qhdr (next_message_id (c_ext c)) sender receiver ty) size dat in
    let! ok := (if a =? 0 then ret false else let! n := node_at a in ret (negb ((0 <? size) && (data n =? 0)))) in
    if negb ok then delete_node a;;; ret false
    else
      enqueue p a;;;
      upd_chan p (fun c => set_count (u32 (c_count c + 1)) c);;;
      on_cv (c_rcv c) (CV_Broadcast fuel);;;
      ret true.

Definition Send (fuel : nat) (p sender receiver : Z) (ty : MessageType) (dat size : Z) (block : bool) : ST st bool :=
  let! c := chan_at p in
  if c_closed c then ret false
  else if (0 <? size) && (dat =? 0) then ret false
  else if max_message_size (c_ext c) <? size then ret false
  else guard fuel (c_mutex c) (send_body fuel p sender receiver ty dat size block).

(** The search of [Receive], repeated after every wait. *)
Fixpoint wait_matching (fuel : nat) (p receiver : Z) (block : bool) : ST st (Z * Z) :=
  let! pm := FindMatchingMessage p receiver in
  if negb (snd pm =? 0) then ret pm
  else
    let! c := chan_at p in
    if negb block || c_closed c then ret (0, 0)
    else match fuel with
    | O => stuck
    | Datatypes.S fuel' => on_mutex (c_mutex c) (CV_Wait fuel);;; wait_matching fuel' p receiver block
    end.

(** The bytes of the message, cut to the buffer, and the out parameters. *)
Definition copy_message (n : QueueMessage) (out_type buffer bufsz bytes_read out_sender out_id : Z) : ST st unit :=
  let copy_size := if data_size n <? bufsz then data_size n else bufsz in
  (if (0 <? copy_size) && negb (data n =? 0)
   then modify (fun s => set_imem (memcpy (i_mem s) buffer (data n) (Z.to_nat copy_size)) s) else ret tt);;;
  store_outs [(bytes_read, copy_size); (out_type, type_code (q_type (n_hdr n)));
              (out_sender, sender_id (n_hdr n)); (out_id, message_id (n_hdr n))].

(** The message [a] leaves the queue and is deleted. *)
Definition detach (p prev a : Z) (n : QueueMessage) : ST st unit :=
  (if prev =? 0 then upd_chan p (fun c => set_ends (n_next n) (c_tail c) c)
   else let! q := node_at prev in put_node prev (mk_node (n_hdr q) (data_size q) (data q) (n_next n)));;;
  upd_chan p (fun c => set_ends (c_head c) (if c_tail c =? a then prev else c_tail c) c);;;
  upd_chan p (fun c => set_count (u32 (c_count c - 1)) c);;;
  delete_node a.

(** What [Receive] does while it holds the mutex. *)
Definition receive_body (fuel : nat) (p receiver out_type buffer bufsz bytes_read out_sender out_id : Z) (block : bool) : ST st bool :=
  let! pm := wait_matching fuel p receiver block in
  let '(prev, a) := pm in
  if a =? 0 then store_out bytes_read 0;;; ret false
  else
    let! n := node_at a in
    copy_message n out_type buffer bufsz bytes_read out_sender out_id;;;
    detach p prev a n;;;
    let! c := chan_at p in
    on_cv (c_wcv c) CV_Signal;;;
    ret true.

Definition Receive (fuel : nat) (p receiver out_type buffer bufsz bytes_read out_sender out_id : Z) (block : bool) : ST st bool :=
  let! c := chan_at p in
  if c_closed c then ret false
  else if (buffer =? 0) || (bufsz =? 0) then ret false
  else guard fuel (c_mutex c) (receive_body fuel p receiver out_type buffer bufsz bytes_read out_sender out_id block).

Definition Peek (fuel : nat) (p receiver out_type buffer bufsz bytes_available out_sender out_id : Z) : ST st bool :=
  let! c := chan_at p in
  if c_closed c then ret false
  else if (buffer =? 0) || (bufsz =? 0) then ret false
  else guard fuel (c_mutex c) (
    let! pm := FindMatchingMessage p receiver in
    if snd pm =? 0 then store_out bytes_available 0;;; ret false
    else
      let! n := node_at (snd pm) in
      copy_message n out_type buffer bufsz bytes_available out_sender out_id;;;
      ret true).

Definition Close (fuel : nat) (p : Z) : ST st unit :=
  let! c := chan_at p in
  guard fuel (c_mutex c) (
    upd_chan p (set_closed true);;;
    on_cv (c_rcv c) (CV_Broadcast fuel);;;
    on_cv (c_wcv c) (CV_Broadcast fuel)).

Definition Flush (fuel : nat) (p : Z) : ST st unit :=
  let! c := chan_at p in
  guard fuel (c_mutex c) (
    let! n := gets (fun s => size (i_nodes s)) in
    flush_loop n p;;;
    upd_chan p (fun c => set_count 0 (set_ends (c_head c) 0 c));;;
    on_cv (c_wcv c) (CV_Broadcast fuel)).

(** * Message queue manager *)

(** [delete queue]. *)
Definition MessageQueue_delete (fuel : nat) (p : Z) : ST st unit :=
  let! c := chan_at p in
  Close fuel p;;;
  Flush fuel p;;;
  delete_mutex fuel (c_mutex c);;;
  delete_cv fuel (c_rcv c);;;
  delete_cv fuel (c_wcv c);;;
  modify (fun s => set_chans (delete p (i_chans s)) s).

Definition MessageQueueManager_new : ST st manager :=
  let! m := new_mutex in ret (mk_mgr (replicate 64 0) 0 1 m).

Abbreviation mst := (manager * st)%type.

Definition FindQueueIndex_id (id : Z) : ST mst Z :=
  let! g := gets fst in
  on_ipc (find_slot (fun c => ret (queue_id (c_ext c) =? id)) (m_table g) 0).
Definition FindQueueIndex_name (nm : Z) : ST mst Z :=
  if nm =? 0 then ret (-1)
  else
    let! g := gets fst in
    on_ipc (
      let! m := gets i_mem in
      find_slot (fun c => ret (NamesEqual m (q_name (c_ext c)) nm)) (m_table g) 0).
Definition FindQueue_id (id : Z) : ST mst Z := let! i := FindQueueIndex_id id in slot_at i.
Definition FindQueue_name (nm : Z) : ST mst Z :=
  if nm =? 0 then ret 0 else let! i := FindQueueIndex_name nm in slot_at i.

Definition CreateQueue (fuel : nat) (nm max_msgs max_msg_size : Z) : ST mst Z :=
  let! g := gets fst in
  if (nm =? 0) || (64 <=? m_count g) || (max_msgs =? 0) || (max_msg_size =? 0) then ret 0
  else mguard fuel (
    let! i := FindQueueIndex_name nm in
    if 0 <=? i then ret 0
    else
      let slot := empty_slot (m_table g) 0 in
      if slot <? 0 then ret 0
      else
        set_mgr (fun g => mk_mgr (m_table g) (m_count g) (u32 (m_next_id g + 1)) (m_mutex g));;;
        let! p := on_ipc (MessageQueue_new (m_next_id g) nm max_msgs max_msg_size) in
        if p =? 0 then ret 0
        else
          set_mgr (fun g => mk_mgr (<[Z.to_nat slot := p]> (m_table g)) (m_count g + 1) (m_next_id g) (m_mutex g));;;
          ret p).

Definition destroy_at (fuel : nat) (i : Z) : ST mst bool :=
  if i <? 0 then ret false
  else
    let! p := slot_at i in
    on_ipc (MessageQueue_delete fuel p);;;
    set_mgr (fun g => mk_mgr (<[Z.to_nat i := 0]> (m_table g)) (u32 (m_count g - 1)) (m_next_id g) (m_mutex g));;;
    ret true.
Definition DestroyQueue_id (fuel : nat) (id : Z) : ST mst bool :=
  mguard fuel (let! i := FindQueueIndex_id id in destroy_at fuel i).
Definition DestroyQueue_name (fuel : nat) (nm : Z) : ST mst bool :=
  if nm =? 0 then ret false else mguard fuel (let! i := FindQueueIndex_name nm in destroy_at fuel i).

Fixpoint close_slots (fuel : nat) (tab : list Z) : ST st unit :=
  match tab with
  | [] => ret tt
  | p :: tab' => (if p =? 0 then ret tt else MessageQueue_delete fuel p);;; close_slots fuel tab'
  end.
Definition CloseAllQueues (fuel : nat) : ST mst unit :=
  mguard fuel (
    let! g := gets fst in
    on_ipc (close_slots fuel (m_table g));;;
    set_mgr (fun g => mk_mgr (replicate 64 0) 0 (m_next_id g) (m_mutex g))).

(** * MessageQueueAPI *)

(** The state of the API: [g_message_queue_manager], [g_thread_manager] and
    the rest. *)
Abbreviation ast := (option manager * (option tmgr * st))%type.

(** Run a method of the queue manager. *)
Definition on_qmgr {A} (dflt : A) (c : ST mst A) : ST ast A :=
  fun w => match fst w with
           | None => Some (dflt, w)
           | Some g => match c (g, snd (snd w)) with
                       | Some (a, (g', s')) => Some (a, (Some g', (fst (snd w), s')))
                       | None => None
                       end
           end.
Definition on_st {A} (c : ST st A) : ST ast A := zoom (fun w => snd (snd w)) (fun s w => (fst w, (fst (snd w), s))) c.

(** The process id of the running thread, its task id without one. *)
Definition CurrentEndpointId (fuel : nat) : ST ast Z :=
  let! on := gets (fun w : ast => i_on (snd (snd w))) in
  if negb on then ret 0
  else
    let! cur := on_st (run_sched (gets current_task)) in
    if cur =? 0 then ret 0
    else
      let! me := on_st current_id in
      let! pid := zoom snd (fun t w => (fst w, t)) (on_tmgr 0 (GetPid fuel me)) in
      if negb (pid =? 0) then ret pid else ret me.

(** The lookup, [!queue], and the call with the endpoint of the caller. *)
Definition on_queue (fuel : nat) (find : ST mst Z) (k : Z -> Z -> ST st bool) : ST ast bool :=
  let! mgr := gets fst in
  if mgr is None then ret false
  else
    let! p := on_qmgr 0 find in
    if p =? 0 then ret false
    else let! me := CurrentEndpointId fuel in on_st (k p me).

Definition API_CreateQueue (fuel : nat) (nm max_msgs max_msg_size : Z) : ST ast Z :=
  on_qmgr 0 (
    let! p := CreateQueue fuel nm max_msgs max_msg_size in
    if p =? 0 then ret 0 else let! c := on_ipc (chan_at p) in ret (queue_id (c_ext c))).
Definition API_DestroyQueue_id (fuel : nat) (id : Z) : ST ast bool := on_qmgr false (DestroyQueue_id fuel id).
Definition API_DestroyQueue_name (fuel : nat) (nm : Z) : ST ast bool := on_qmgr false (DestroyQueue_name fuel nm).
Definition Send_id (fuel : nat) (id receiver : Z) (ty : MessageType) (dat size : Z) (block : bool) : ST ast bool :=
  on_queue fuel (FindQueue_id id) (fun p me => Send fuel p me receiver ty dat size block).
Definition Send_name (fuel : nat) (nm receiver : Z) (ty : MessageType) (dat size : Z) (block : bool) : ST ast bool :=
  on_queue fuel (FindQueue_name nm) (fun p me => Send fuel p me receiver ty dat size block).
Definition Receive_id (fuel : nat) (id out_type buffer bufsz bytes_read out_sender out_id : Z) (block : bool) : ST ast bool :=
  on_queue fuel (FindQueue_id id) (fun p me => Receive fuel p me out_type buffer bufsz bytes_read out_sender out_id block).
Definition Receive_name (fuel : nat) (nm out_type buffer bufsz bytes_read out_sender out_id : Z) (block : bool) : ST ast bool :=
  on_queue fuel (FindQueue_name nm) (fun p me => Receive fuel p me out_type buffer bufsz bytes_read out_sender out_id block).
Definition API_FindQueue (nm : Z) : ST ast Z :=
  on_qmgr 0 (
    let! p := FindQueue_name nm in
    if p =? 0 then ret 0 else let! c := on_ipc (chan_at p) in ret (queue_id (c_ext c))).
Definition GetQueueInfo (id message_count max_msgs max_msg_size : Z) : ST ast bool :=
  on_qmgr false (
    let! p := FindQueue_id id in
    if p =? 0 then ret false
    else on_ipc (
      let! c := chan_at p in
      store_outs [(message_count, c_count c); (max_msgs, max_messages (c_ext c)); (max_msg_size, max_message_size (c_ext c))];;;
      ret true)).
End Model.

(** * A queue is a list of addressed messages *)

Section Refinement.
Context {S : Type} `{PS : PageSupply S}.
Abbreviation st := (ipc S qhdr mq_ext).
Abbreviation sz := SIZEOF_QUEUE_MESSAGE.
Implicit Types (s : st) (c : MessageQueue) (xs ys zs : list (Z * QueueMessage)) (q : list (qhdr * list Z)) (rs : list (Z * Z)).

Record queue_rep s (p : Z) c q rs : Prop := {
  mr_q : exists xs, q_rep sz s p c xs q rs;
  mr_idle : idle s c;
  mr_max : max_messages (c_ext c) < 2 ^ 32;
  mr_bound : Z.of_nat (length q) <= max_messages (c_ext c);
}.

(** Queues that differ only in their messages. *)
Definition same_queue c c' : Prop :=
  set_ends 0 0 (set_count 0 (set_ext (set_next_message_id 0 (c_ext c')) c')) =
  set_ends 0 0 (set_count 0 (set_ext (set_next_message_id 0 (c_ext c)) c)).

Lemma guard_queue {A} fuel (body : ST st A) s p c q rs (post : A -> st -> list (qhdr * list Z) -> list (Z * Z) -> Prop) :
  queue_rep s p c q rs ->
  (forall m xs, q_rep sz (held s (c_mutex c) m) p c xs q rs ->
    exists a s' c' xs' q' rs', body (held s (c_mutex c) m) = Some (a, s') /\ same_env (held s (c_mutex c) m) s' /\
      i_cvs s' = i_cvs s /\ q_rep sz s' p c' xs' q' rs' /\ same_queue c c' /\
      Z.of_nat (length q') <= max_messages (c_ext c) /\ (forall k, post a (set_mutexes k s') q' rs')) ->
  exists a s' c' q' rs', guard (Datatypes.S fuel) (c_mutex c) body s = Some (a, s') /\
    queue_rep s' p c' q' rs' /\ same_queue c c' /\ post a s' q' rs'.
Proof.
  intros [[xs Hq] Hid Hmx Hbd] Hb. pose proof Hid as [(m & Hm & Hf) _ _ Hqt].
  destruct (Hb m xs (q_rep_mutexes _ _ _ _ _ _ _ _ Hq)) as (a & s' & c' & xs' & q' & rs' & E & He & Hcv & Hq' & Hsf & Hbd' & Hpost).
  destruct (guard_ok fuel (c_mutex c) body s m a s' Hm Hf Hqt E He) as (m2 & Hm2 & E2).
  exists a, (set_mutexes (<[c_mutex c := m2]> (i_mutexes s')) s'), c', q', rs'. split; [done|].
  pose proof Hsf as Hsf'. unfold same_queue, set_ends, set_count, set_ext, set_next_message_id in Hsf'. cbn in Hsf'.
  injection Hsf' as Em Er Ew Ecl Ebl Eid En Emx Ems. split_and!; [|done|done]. split.
  - exists xs'. by apply q_rep_mutexes.
  - by apply (idle_after s s' c c' (c_mutex c) m).
  - by rewrite Emx.
  - by rewrite Emx.
Qed.

Lemma send_room_go fuel p block s c :
  i_chans s !! p = Some c -> block = false \/ IsFull c = false -> c_closed c = false ->
  wait_room fuel p block s = Some (negb (IsFull c), s).
Proof.
  intros Hc Hb Hcl. destruct fuel as [|fuel]; cbn [wait_room]; rewrite (chan_step _ _ _ _ Hc); destruct (IsFull c); cbn [negb]; try done;
    destruct Hb as [->|]; done.
Qed.

Lemma send_body_ok fuel s p c xs q rs sender receiver ty dat bs block :
  q_rep sz s p c xs q rs -> i_cvs s !! c_rcv c = Some (mk_cv 0) ->
  block = false \/ IsFull c = false -> c_closed c = false -> max_messages (c_ext c) < 2 ^ 32 ->
  (bs <> [] -> owned rs dat (Z.of_nat (length bs)) /\ stored (i_mem s) dat bs) ->
  g_heapEnd (i_heap s) + 2 * Z.of_nat (length bs) + 9000 <= 2 ^ 32 ->
  exists (ok : bool) s' c' xs' rs',
    let q' := if ok then q ++ [(mk_qhdr (next_message_id (c_ext c)) sender receiver ty, bs)] else q in
    send_body fuel p sender receiver ty dat (Z.of_nat (length bs)) block s = Some (ok, s') /\
    same_env s s' /\ i_cvs s' = i_cvs s /\ q_rep sz s' p c' xs' q' rs' /\
    same_on rs (i_mem s) (i_mem s') /\ (forall r, r ∈ rs -> r ∈ rs') /\ same_queue c c' /\
    (ok = true -> IsFull c = false) /\ (ok = false -> IsFull c = true \/ exhausted (h_supply (i_heap s'))).
Proof.
  intros Hq Hcv Hb Hcl Hmx Hbs Hend. pose proof Hq as [Hh Hc Hl Ht Hd Hn]. unfold send_body.
  rewrite (bind_step _ _ _ _ _ (send_room_go fuel p block s c Hc Hb Hcl)). destruct (IsFull c) eqn:Hfull; cbn [negb].
  { exists false, s, c, xs, rs. split_and!; try done. by left. }
  rewrite (chan_step _ _ _ _ Hc), (upd_chan_step _ _ _ _ _ Hc). set (c1 := set_ext _ c). set (s0 := set_chans _ s).
  set (h := mk_qhdr _ _ _ _). destruct (new_msg_ok sz s0 (regions sz xs ++ rs) h dat bs Hh) as
    (a & s1 & E & [He Hch Hcvs] & Hs & Hr); [unfold sz; lia| |done|].
  { intros Hne. destruct (Hbs Hne) as [Ho Hst]. split_and!; [|by eapply owned_pos|done].
    destruct Ho as (u & k & Hin & ?). exists u, k. split; [apply elem_of_app; by right|done]. }
  rewrite (bind_step _ _ _ _ _ E). assert (Hs' : same_on rs (i_mem s) (i_mem s1)).
  { eapply same_on_sub; [|exact Hs]. intros r Hr'. apply elem_of_app. by right. }
  assert (Hd1 : Forall2 (holds (i_mem s1)) xs q).
  { eapply holds_all; [done|exact Hs|]. intros r Hr'. apply elem_of_app. by left. }
  assert (Hc1 : i_chans s1 !! p = Some c1) by (rewrite Hch; apply lookup_insert_eq).
  assert (He1 : same_env s s1) by (by destruct He). assert (Hcv1 : i_cvs s1 = i_cvs s) by done.
  destruct Hr as [(Hex & [(-> & Hno & Hh1)|(Ha & Hne & Hno & Hh1)])|(n & Ha & Hnn & Hno & Hh1 & Hv)].
  - cbn. exists false, s1, c1, xs, rs. split_and!; try done; [|by right]. split; try done. by rewrite Hno.
  - destruct (Z.eqb_spec a 0); [done|]. rewrite bind_assoc. assert (Ea : i_nodes s1 !! a = Some (mk_node h 0 0 0)) by (rewrite Hno; apply lookup_insert_eq).
    rewrite (node_step _ _ _ _ Ea). cbn [data Z.eqb]. destruct (Z.ltb_spec 0 (Z.of_nat (length bs))); [|destruct bs; [done|cbn in *; lia]].
    cbn [andb negb]. rewrite ret_step. cbn [negb]. unfold delete_node.
    destruct (Z.eqb_spec a 0); [done|]. rewrite bind_assoc, (node_step _ _ _ _ Ea). cbn [data Z.eqb]. rewrite ret_step.
    assert (Hfr : a ∉ xs.*1) by (destruct (hwf_regions _ _ Hh1) as [Hpw _]; apply (fresh_addr sz xs a rs); [unfold sz; lia|exact Hpw]).
    exists false, s1, c1, xs, ((a, sz) :: rs). split_and!; try done; [|intros r ?; by right|by right].
    split; try done; [|rewrite Hno; by apply linked_insert]. eapply hwf_perm; [|exact Hh1]. apply Permutation_middle.
  - destruct (Z.eqb_spec a 0); [done|]. rewrite bind_assoc.
    assert (Ea : i_nodes s1 !! a = Some n) by (rewrite Hno; apply lookup_insert_eq). rewrite (node_step _ _ _ _ Ea).
    assert (Hok : (0 <? Z.of_nat (length bs)) && (data n =? 0) = false).
    { destruct Hv as (_ & _ & Hdz & _). cbn in Hdz. destruct (Z.eqb_spec (data n) 0) as [Hz|]; [|by rewrite andb_false_r].
      apply Hdz in Hz as ->. done. }
    rewrite Hok. cbn [negb]. rewrite ret_step. cbn [negb].
    assert (Hfr : a ∉ xs.*1).
    { destruct (hwf_regions _ _ Hh1) as [Hpw _]. apply (fresh_addr sz xs a rs); [unfold sz; lia|]. unfold node_regions in Hpw. cbn [fst snd] in Hpw.
      destruct (data n =? 0); cbn [app] in Hpw; [done|]. destruct Hpw as [H1 [_ H3]]. split; [|done]. intros r Hr. apply H1. by right. }
    destruct (enqueue_ok sz s1 p c1 xs q rs a n (h, bs)) as
      (s2 & xs' & hd & E2 & Hh2 & He2 & Hcv2 & Hch2 & Hl2 & Ht2 & Hd2 & Hrg2); try done; [rewrite Hno; by apply linked_insert|].
    rewrite (bind_step _ _ _ _ _ E2). erewrite upd_chan_step by (rewrite Hch2; apply lookup_insert_eq). 
    set (c' := set_count (u32 (c_count (set_ends hd a c1) + 1)) (set_ends hd a c1)). set (s3 := set_chans _ s2).
    erewrite bind_step by (apply broadcast_run; cbn; by rewrite Hcv2, Hcv1).
    exists true, s3, c', xs', rs. cbn zeta. split; [done|]. split; [by apply same_env_chans, (same_env_trans _ s1)|]. split; [cbn; congruence|]. split.
    { split; [|apply lookup_insert_eq|done|done|done|].
      - change (i_heap s3) with (i_heap s2). rewrite Hh2, Hrg2. eapply hwf_perm; [|exact Hh1]. rewrite regions_app, <-app_assoc, regions_one.
        apply (Permutation_app_swap_app (node_regions sz (a, n))).
      - subst c' c1. cbn. unfold IsFull in Hfull. apply Z.leb_gt in Hfull. rewrite length_app, Hn in *. cbn. rewrite u32_small by lia. lia. }
    split_and!; try done. change (i_mem s3) with (h_mem (i_heap s2)). by rewrite Hh2.
Qed.

(** ** Receiving *)

Definition out_ptrs (bytes_read out_type out_sender out_id : Z) : list Z := [bytes_read; out_type; out_sender; out_id].

(** The buffer of a receiver and its out parameters, which may be null, lie in
    regions of its own and do not overlap. *)
Record receiver_ok rs (buffer bufsz : Z) (ps : list Z) : Prop := {
  ro_buffer : owned rs buffer bufsz;
  ro_ptrs : Forall (fun p => p <> 0 -> owned rs p 4) ps;
  ro_clear : Forall (fun p => p <> 0 -> apart (buffer, bufsz) (p, 4)) ps;
  ro_apart : apart_ptrs ps;
}.

(** What the receiver of a message finds there. *)
Definition received (m : mem) (v : qhdr * list Z) (out_type buffer bufsz bytes_read out_sender out_id : Z) : Prop :=
  let k := Z.min (Z.of_nat (length v.2)) bufsz in
  stored m buffer (take (Z.to_nat k) v.2) /\
  Forall (fun o => o.1 <> 0 -> read32 m o.1 = u32 o.2)
    [(bytes_read, k); (out_type, type_code (q_type v.1)); (out_sender, sender_id v.1); (out_id, message_id v.1)].

Lemma received_same rs m m' v out_type buffer bufsz bytes_read out_sender out_id :
  receiver_ok rs buffer bufsz (out_ptrs bytes_read out_type out_sender out_id) -> same_on rs m m' ->
  received m v out_type buffer bufsz bytes_read out_sender out_id -> received m' v out_type buffer bufsz bytes_read out_sender out_id.
Proof.
  intros [Hb Hp _ _] Hso [Hst Ho].
  assert (Hag : forall o k, owned rs o k -> forall i, o <= i < o + k -> read8 m' i = read8 m i).
  { intros o k (u & j & Hu & ? & ?) i Hi. apply (Hso u j Hu). lia. }
  split.
  - apply (stored_ext m); [|done]. intros b Hb'. rewrite length_take in Hb'. apply (Hag _ _ Hb). lia.
  - unfold out_ptrs in Hp. rewrite !Forall_cons in Hp. rewrite !Forall_cons in *. cbn [fst snd] in *.
    split_and!; [..|constructor]; intros Hz; (rewrite (read32_ext m); [by apply Ho|]; apply Hag; by apply Hp).
Qed.

Lemma copy_message_ok s rs1 rs2 a n v out_type buffer bufsz bytes_read out_sender out_id :
  hwf (i_heap s) (rs1 ++ rs2) -> (data n <> 0 -> (data n, data_size n) ∈ rs1) -> holds (i_mem s) (a, n) v ->
  0 < bufsz -> receiver_ok rs2 buffer bufsz (out_ptrs bytes_read out_type out_sender out_id) ->
  exists m', copy_message n out_type buffer bufsz bytes_read out_sender out_id s = Some (tt, set_imem m' s) /\
    hwf (i_heap (set_imem m' s)) (rs1 ++ rs2) /\ same_on rs1 (i_mem s) m' /\
    received m' v out_type buffer bufsz bytes_read out_sender out_id.
Proof.
  intros Hh Hin (Hhd & Hsz & Hdz & Hst) Hbs [Hb Hp Hcl Hap]. cbn in Hhd, Hsz, Hdz, Hst. unfold copy_message.
  set (k := if data_size n <? bufsz then data_size n else bufsz).
  assert (Hk : k = Z.min (Z.of_nat (length v.2)) bufsz) by (subst k; case_zb; lia).
  assert (H1 : exists m1, (if (0 <? k) && negb (data n =? 0)
     then modify (fun s => set_imem (memcpy (i_mem s) buffer (data n) (Z.to_nat k)) s) else ret tt) s = Some (tt, set_imem m1 s) /\
    hwf (i_heap (set_imem m1 s)) (rs1 ++ rs2) /\ same_on rs1 (i_mem s) m1 /\ stored m1 buffer (take (Z.to_nat k) v.2)).
  { destruct (Z.ltb_spec 0 k); cbn [andb]; [destruct (Z.eqb_spec (data n) 0) as [Hz|Hz]; cbn [negb]|].
    - apply Hdz in Hz. rewrite Hz in Hk. cbn in Hk. lia.
    - destruct (hwf_regions _ _ Hh) as [Hpw _]. eexists. split; [reflexivity|]. split.
      { apply (hwf_memcpy (i_heap s)); [done|]. destruct Hb as (u & j & Hu & ? & ?). exists u, j. split; [apply elem_of_app; by right|lia]. }
      split; [apply (owned_same_on rs1 rs2 _ _ buffer k Hpw); [by apply (owned_sub _ _ _ _ _ Hb); lia|intros b Hb'; apply memcpy_frame; lia]|].
      assert (Hlen : Z.to_nat k = length (take (Z.to_nat k) v.2)) by (rewrite length_take; lia).
      rewrite Hlen at 1. apply memcpy_stored; [by apply stored_take|]. rewrite <-Hlen.
      destruct Hb as (u & j & Hu & ? & ?). pose proof (pairwise_apart _ _ _ _ Hpw (Hin Hz) Hu) as Ha. unfold apart in Ha. cbn in Ha. lia.
    - exists (i_mem s). assert (E : set_imem (i_mem s) s = s) by by destruct s as [? [[] ? ? ? ? ? ? ?] ? ? ? ?]; destruct k_heap.
      rewrite E. split_and!; try done. replace (Z.to_nat k) with 0%nat by lia. by intros i b. }
  destruct H1 as (m1 & E1 & Hh1 & Hso1 & Hst1). rewrite (bind_step _ _ _ _ _ E1).
  destruct (store_outs_ok (set_imem m1 s) rs1 rs2 [(bytes_read, k); (out_type, type_code (q_type (n_hdr n)));
    (out_sender, sender_id (n_hdr n)); (out_id, message_id (n_hdr n))] Hh1 Hp Hap) as (m2 & E2 & Hh2 & Hso2 & Hr2 & Hf2).
  exists m2. split; [exact E2|]. split; [done|]. split; [by eapply same_on_trans|]. rewrite Hhd in Hr2. unfold received. rewrite <-Hk.
  split; [|exact Hr2]. apply (stored_ext m1); [|done]. intros b Hb'. rewrite length_take in Hb'. apply Hf2. cbn in Hcl |- *.
  eapply Forall_impl; [exact Hcl|]. intros o Ho. destruct (decide (o = 0)) as [|Hne]; [by left|right]. specialize (Ho Hne). unfold apart in Ho. cbn in Ho. lia.
Qed.

Lemma find_matching_ok fuel prev cur receiver xs s :
  linked (i_nodes s) cur xs 0 -> (length xs <= fuel)%nat ->
  (Forall (fun x => matching receiver (n_hdr x.2) = false) xs /\ find_matching fuel prev cur receiver s = Some ((0, 0), s)) \/
  exists ys a n zs, xs = ys ++ (a, n) :: zs /\ Forall (fun x => matching receiver (n_hdr x.2) = false) ys /\
    matching receiver (n_hdr n) = true /\ a <> 0 /\
    find_matching fuel prev cur receiver s = Some ((default prev (fst <$> last ys), a), s).
Proof.
  revert fuel prev cur. induction xs as [|[a n] xs IH]; intros fuel prev cur Hl Hf; cbn in Hl.
  { subst cur. left. split; [constructor|by destruct fuel]. }
  destruct Hl as (-> & Ha & Hn & Hl), fuel as [|fuel]; cbn in Hf; [lia|]. cbn [find_matching fst].
  destruct (Z.eqb_spec a 0); [done|]. rewrite (node_step _ _ _ _ Hn). cbn [snd]. destruct (matching receiver (n_hdr n)) eqn:Hm.
  { right. exists [], a, n, xs. split_and!; try done. }
  destruct (IH fuel a (n_next n) Hl ltac:(lia)) as [[HF E]|(ys & b & k & zs & -> & HF & Hk & Hb & E)].
  - left. split; [by constructor|done].
  - right. exists ((a, n) :: ys), b, k, zs. split_and!; try done; [by constructor|]. rewrite E, last_cons. by destruct (last ys).
Qed.

Lemma last_addr_fst xs ys : xs.*1 = ys.*1 -> last_addr xs = last_addr ys.
Proof. intros E. unfold last_addr. by rewrite <-!fmap_last, E. Qed.

Lemma tail_after ys a (n : QueueMessage) zs :
  NoDup (ys ++ (a, n) :: zs).*1 ->
  (if last_addr (ys ++ (a, n) :: zs) =? a then last_addr ys else last_addr (ys ++ (a, n) :: zs)) = last_addr (ys ++ zs).
Proof.
  intros Hnd. destruct zs as [|z zs _] using rev_ind; [by rewrite last_addr_snoc, app_nil_r, Z.eqb_refl|].
  rewrite (app_assoc ys zs), last_addr_snoc. change (ys ++ (a, n) :: zs ++ [z]) with (ys ++ ((a, n) :: zs) ++ [z]) in *.
  rewrite app_assoc, last_addr_snoc. destruct (Z.eqb_spec z.1 a) as [E|]; [|done]. exfalso.
  rewrite !fmap_app in Hnd. apply NoDup_app in Hnd as (_ & _ & Hnd). apply NoDup_app in Hnd as (_ & Hd & _).
  apply (Hd a); [by left|]. rewrite <-E. by left.
Qed.

(** The links after the message [a] left. *)
Lemma unlink_step s p c ys a n zs q1 v q2 rs :
  q_rep sz s p c (ys ++ (a, n) :: zs) (q1 ++ v :: q2) rs -> length ys = length q1 ->
  exists s1 hd xs', (if last_addr ys =? 0 then upd_chan p (fun c => set_ends (n_next n) (c_tail c) c)
     else let! q := node_at (last_addr ys) in put_node (last_addr ys) (mk_node (n_hdr q) (data_size q) (data q) (n_next n))) s = Some (tt, s1) /\
    i_heap s1 = i_heap s /\ same_env s s1 /\ i_cvs s1 = i_cvs s /\ i_chans s1 !! p = Some (set_ends hd (c_tail c) c) /\
    i_nodes s1 !! a = Some n /\ (forall k, linked (<[a := k]> (i_nodes s1)) hd xs' 0) /\
    last_addr xs' = last_addr (ys ++ zs) /\ regions sz xs' = regions sz (ys ++ zs) /\ Forall2 (holds (i_mem s)) xs' (q1 ++ q2).
Proof.
  intros [Hh Hc Hl Ht Hd Hn] Hlen. destruct (hwf_regions _ _ Hh) as [Hpw _]. pose proof (nodup_addr sz _ rs ltac:(done) Hpw) as Hnd.
  pose proof (fun k => unlink_ok _ _ _ _ _ k Hl Hnd) as Hu. apply Forall2_app_inv in Hd as [Hd1 Hd2]; [|done].
  apply Forall2_cons_1 in Hd2 as [_ Hd2]. pose proof Hl as Hl'. apply linked_app in Hl' as (mid & Hl1 & Hl2). destruct Hl2 as (_ & Ha & Hna & _).
  cbn in Ha, Hna. destruct ys as [|y ys _] using rev_ind.
  - change (last_addr []) with 0. cbn [Z.eqb]. unfold upd_chan. rewrite (chan_step _ _ _ _ Hc).
    eexists _, (n_next n), zs. split; [reflexivity|]. split_and!; try done; [apply lookup_insert_eq|intros k; apply (Hu k)|].
    by destruct q1.
  - specialize (fun k => Hu k). rewrite last_snoc, removelast_last in Hu. rewrite last_addr_snoc. pose proof (Hu n) as [Hy _].
    apply linked_app in Hl1 as (mid' & _ & _ & Hyz & _). cbn in Hyz. destruct (Z.eqb_spec y.1 0); [done|]. rewrite (node_step _ _ _ _ Hy).
    eexists _, (c_head c), (ys ++ (y.1, set_link (n_next n) y.2) :: zs). split; [reflexivity|]. split_and!; try done; [by destruct c| |intros k; apply (Hu k)|..].
    + cbn. rewrite lookup_insert_ne; [done|]. intros E. rewrite <-app_assoc in Hnd. rewrite fmap_app in Hnd.
      apply NoDup_app in Hnd as (_ & _ & Hnd). cbn in Hnd. apply NoDup_cons in Hnd as [Hnd _]. apply Hnd. rewrite E. by left.
    + apply last_addr_fst. by rewrite <-app_assoc, !fmap_app, !fmap_cons.
    + rewrite <-app_assoc. cbn [app]. by rewrite !regions_app.
    + apply Forall2_app_inv_l in Hd1 as (u1 & u2 & H1 & H2 & ->). rewrite <-app_assoc. apply Forall2_app; [done|].
      apply Forall2_cons_inv_l in H2 as (w & u3 & Hw & H3%Forall2_nil_inv_l & ->). subst u3. cbn [app]. constructor; [by destruct y|done].
Qed.

Lemma detach_ok s p c ys a n zs q1 v q2 rs :
  q_rep sz s p c (ys ++ (a, n) :: zs) (q1 ++ v :: q2) rs -> length ys = length q1 -> Z.of_nat (length (q1 ++ v :: q2)) < 2 ^ 32 ->
  exists s' c' xs', detach p (last_addr ys) a n s = Some (tt, s') /\ same_env s s' /\ i_cvs s' = i_cvs s /\
    q_rep sz s' p c' xs' (q1 ++ q2) ((a, sz) :: rs) /\ same_on rs (i_mem s) (i_mem s') /\ same_queue c c'.
Proof.
  intros Hq Hlen Hbd. pose proof Hq as [Hh Hc Hl Ht Hd Hn]. unfold detach.
  destruct (unlink_step s p c ys a n zs q1 v q2 rs Hq Hlen) as (s1 & hd & xs' & E1 & Hh1 & He1 & Hcv1 & Hc1 & Hna & Hl1 & Ht1 & Hrg & Hd1).
  rewrite (bind_step _ _ _ _ _ E1), (upd_chan_step _ _ _ _ _ Hc1). erewrite upd_chan_step by apply lookup_insert_eq.
  set (s2 := set_chans _ _). destruct (hwf_regions _ _ Hh) as [Hpw _]. pose proof (nodup_addr sz _ rs ltac:(done) Hpw) as Hnd.
  assert (Haz : a <> 0) by (apply linked_app in Hl as (? & _ & _ & ? & _); done).
  assert (Hh2 : hwf (i_heap s2) ((if data n =? 0 then [] else [(data n, data_size n)]) ++ regions sz xs' ++ (a, sz) :: rs)).
  { change (i_heap s2) with (i_heap s1). rewrite Hh1, Hrg. eapply hwf_perm; [|exact Hh]. change ((a, n) :: zs) with ([(a, n)] ++ zs).
    rewrite !regions_app, regions_one, <-!app_assoc. unfold node_regions. cbn [fst snd].
    rewrite (Permutation_app_comm (regions sz ys)). cbn [app]. rewrite <-!app_assoc. rewrite (app_assoc (regions sz ys)), <-Permutation_middle.
    rewrite <-Permutation_middle. constructor. apply Permutation_app_head. rewrite <-!app_assoc. rewrite (Permutation_app_comm rs).
    by rewrite !app_assoc, (Permutation_app_comm (regions sz zs)). }
  destruct (delete_node_ok s2 _ a n Hna Haz Hh2) as (s3 & E3 & [He3 Hch3 Hcv3] & Hso3 & Hh3 & n' & Hno3).
  eexists s3, _, xs'. split; [exact E3|]. split; [by apply (same_env_trans _ s2); [apply same_env_chans, same_env_chans|]|]. split; [by rewrite Hcv3|].
  assert (Hm : i_mem s2 = i_mem s) by (unfold i_mem; change (i_heap s2) with (i_heap s1); by rewrite Hh1).
  rewrite Hm in Hso3. split; [split|split].
  - done.
  - rewrite Hch3. apply lookup_insert_eq.
  - rewrite Hno3. cbn. apply Hl1.
  - cbn [c_tail set_count set_ends]. rewrite Ht, Ht1. by apply tail_after.
  - eapply holds_all; [exact Hd1|exact Hso3|]. intros r Hr. apply elem_of_app. by left.
  - cbn [c_count set_count set_ends]. rewrite Hn, !length_app in *. cbn [length] in *. rewrite u32_small by lia. lia.
  - eapply same_on_sub; [|exact Hso3]. intros r Hr. apply elem_of_app. right. by right.
  - done.
Qed.

Lemma wait_matching_go fuel p receiver block s c pm :
  FindMatchingMessage p receiver s = Some (pm, s) -> i_chans s !! p = Some c -> block = false \/ pm.2 <> 0 ->
  wait_matching fuel p receiver block s = Some (if pm.2 =? 0 then (0, 0) else pm, s).
Proof.
  intros E Hc Hb. destruct fuel; cbn [wait_matching]; rewrite (bind_step _ _ _ _ _ E); destruct (Z.eqb_spec pm.2 0); cbn [negb]; try done;
    rewrite (chan_step _ _ _ _ Hc); by destruct Hb as [->|].
Qed.

(** The oldest message for [receiver] taken out of [q]. *)
Definition takes (receiver : Z) q (v : qhdr * list Z) q' : Prop :=
  exists q1 q2, q = q1 ++ v :: q2 /\ q' = q1 ++ q2 /\ Forall (fun w => matching receiver w.1 = false) q1 /\
    matching receiver v.1 = true.

Lemma holds_matching m receiver xs q b :
  Forall2 (holds m) xs q -> Forall (fun x => matching receiver (n_hdr x.2) = b) xs -> Forall (fun w => matching receiver w.1 = b) q.
Proof.
  intros HF HA. induction HF as [|x v xs q (Hh & _) _ IH]; [constructor|]. apply Forall_cons in HA as [H1 H2]. constructor; [by rewrite <-Hh|by apply IH].
Qed.

Lemma receive_body_ok fuel s p c xs q rs receiver out_type buffer bufsz bytes_read out_sender out_id block :
  q_rep sz s p c xs q rs -> i_cvs s !! c_wcv c = Some (mk_cv 0) -> Z.of_nat (length q) < 2 ^ 32 ->
  block = false \/ Exists (fun w => matching receiver w.1 = true) q -> 0 < bufsz ->
  receiver_ok rs buffer bufsz (out_ptrs bytes_read out_type out_sender out_id) ->
  exists (ok : bool) s' c' xs' q' rs', receive_body fuel p receiver out_type buffer bufsz bytes_read out_sender out_id block s = Some (ok, s') /\
    same_env s s' /\ i_cvs s' = i_cvs s /\ q_rep sz s' p c' xs' q' rs' /\ (forall r, r ∈ rs -> r ∈ rs') /\ same_queue c c' /\
    if ok then exists v, takes receiver q v q' /\ received (i_mem s') v out_type buffer bufsz bytes_read out_sender out_id
    else q' = q /\ Forall (fun w => matching receiver w.1 = false) q.
Proof.
  intros Hq Hcv Hlen Hb Hbs Hout. pose proof Hq as [Hh Hc Hl Ht Hd Hn]. unfold receive_body.
  destruct (hwf_regions _ _ Hh) as [Hpw _]. pose proof (nodup_addr sz _ rs ltac:(done) Hpw) as Hnd.
  assert (Hfm : forall pm, find_matching (size (i_nodes s)) 0 (c_head c) receiver s = Some (pm, s) -> FindMatchingMessage p receiver s = Some (pm, s)).
  { intros pm E. unfold FindMatchingMessage. by rewrite (chan_step _ _ _ _ Hc), gets_step. }
  destruct (find_matching_ok (size (i_nodes s)) 0 (c_head c) receiver xs s Hl (linked_size _ _ _ _ Hl Hnd)) as
    [[HF E]|(ys & a & n & zs & -> & HF & Hm & Ha & E)]; apply Hfm in E.
  - pose proof (holds_matching _ _ _ _ _ Hd HF) as HFq.
    assert (block = false) as -> by (destruct Hb as [|Hex]; [done|]; apply Exists_exists in Hex as (w & Hw & Hwm); rewrite Forall_forall in HFq; by rewrite (HFq w Hw) in Hwm).
    rewrite (bind_step _ _ _ _ _ (wait_matching_go fuel p receiver false s c _ E Hc ltac:(by left))). cbn [snd Z.eqb].
    destruct (store_out_ok s (regions sz xs) rs bytes_read 0 Hh) as (m' & E' & Hh' & Hso & _).
    { pose proof (ro_ptrs _ _ _ _ Hout) as Hp. by apply Forall_cons in Hp as [? _]. }
    rewrite (bind_step _ _ _ _ _ E'). exists false, (set_imem m' s), c, xs, q, rs. split_and!; try done.
    split; try done. eapply holds_all; [done|exact Hso|done].
  - apply Forall2_app_inv_l in Hd as (q1 & q2' & Hd1 & Hd2 & ->). apply Forall2_cons_inv_l in Hd2 as (v & q2 & Hv & Hd2 & ->).
    rewrite (bind_step _ _ _ _ _ (wait_matching_go fuel p receiver block s c _ E Hc ltac:(by right))). cbn [snd].
    rewrite (proj2 (Z.eqb_neq a 0) Ha), (proj2 (Z.eqb_neq a 0) Ha). change (default 0 (fst <$> last ys)) with (last_addr ys).
    pose proof Hl as Hl'. apply linked_app in Hl' as (? & _ & _ & _ & Hna & _). cbn in Hna. rewrite (node_step _ _ _ _ Hna).
    destruct (copy_message_ok s _ rs a n v out_type buffer bufsz bytes_read out_sender out_id Hh) as (m' & E' & Hh' & Hso & Hrc); try done.
    { intros Hz. change ((a, n) :: zs) with ([(a, n)] ++ zs). rewrite !regions_app, regions_one. unfold node_regions. cbn [fst snd].
      destruct (Z.eqb_spec (data n) 0); [done|]. apply elem_of_app. right. right. by left. }
    rewrite (bind_step _ _ _ _ _ E').
    destruct (detach_ok (set_imem m' s) p c ys a n zs q1 v q2 rs) as (s' & c' & xs' & E2 & He2 & Hcv2 & Hq2 & Hso2 & Hsq).
    { split; try done. eapply holds_all; [by apply Forall2_app; [exact Hd1|by constructor]|exact Hso|done]. } { by eapply Forall2_length. } { done. }
    rewrite (bind_step _ _ _ _ _ E2), (chan_step _ _ _ _ (qr_chan _ _ _ _ _ _ _ Hq2)).
    assert (Hw : c_wcv c' = c_wcv c) by (unfold same_queue, set_ends, set_count, set_ext in Hsq; cbn in Hsq; by injection Hsq).
    erewrite bind_step by (apply signal_run; rewrite Hw, Hcv2; exact Hcv).
    exists true, s', c', xs', (q1 ++ q2), ((a, sz) :: rs). split; [done|]. split; [by destruct He2|]. split; [done|]. split; [done|]. split; [intros r ?; by right|]. split; [done|].
    exists v. split; [|by eapply received_same]. exists q1, q2. split_and!; try done; [by eapply holds_matching|]. by rewrite <-(proj1 Hv).
Qed.

(** C8: [Send] on a queue that no other thread uses returns unless it has to
    wait: it appends the message with the next message id, the sender, the
    receiver, the type and a copy of the bytes when the queue is open and not
    full and the size is allowed, and otherwise, or when the heap is exhausted,
    leaves the messages as they are; memory of others is kept. *)
Theorem Send_spec fuel s p c q rs sender receiver ty dat bs block :
  queue_rep s p c q rs -> block = false \/ IsFull c = false ->
  (bs <> [] -> owned rs dat (Z.of_nat (length bs)) /\ stored (i_mem s) dat bs) ->
  g_heapEnd (i_heap s) + 2 * Z.of_nat (length bs) + 9000 <= 2 ^ 32 ->
  exists ok s' c' q' rs', Send (Datatypes.S fuel) p sender receiver ty dat (Z.of_nat (length bs)) block s = Some (ok, s') /\
    queue_rep s' p c' q' rs' /\ same_queue c c' /\ same_on rs (i_mem s) (i_mem s') /\ (forall r, r ∈ rs -> r ∈ rs') /\
    q' = (if ok then q ++ [(mk_qhdr (next_message_id (c_ext c)) sender receiver ty, bs)] else q) /\
    (ok = true -> c_closed c = false /\ Z.of_nat (length bs) <= max_message_size (c_ext c) /\ IsFull c = false) /\
    (ok = false -> c_closed c = true \/ max_message_size (c_ext c) < Z.of_nat (length bs) \/ IsFull c = true \/
       exhausted (h_supply (i_heap s'))).
Proof.
  intros Hrep Hb Hbs Hend. pose proof Hrep as [[xs Hq] Hid Hmx Hbd]. pose proof (qr_chan _ _ _ _ _ _ _ Hq) as Hc.
  unfold Send. rewrite (chan_step _ _ _ _ Hc). destruct (c_closed c) eqn:Hcl; [exists false, s, c, q, rs; split_and!; try done; tauto|].
  assert (Hdz : (0 <? Z.of_nat (length bs)) && (dat =? 0) = false).
  { destruct (decide (bs = [])) as [->|Hne]; [done|]. destruct (Hbs Hne) as [Ho _]. pose proof (owned_pos _ _ _ _ _ _ _ _ _ Hq Ho).
    destruct (Z.eqb_spec dat 0); [lia|apply andb_false_r]. }
  rewrite Hdz. destruct (Z.ltb_spec (max_message_size (c_ext c)) (Z.of_nat (length bs))); [exists false, s, c, q, rs; split_and!; try done; tauto|].
  destruct (guard_queue fuel (send_body (Datatypes.S fuel) p sender receiver ty dat (Z.of_nat (length bs)) block) s p c q rs
    (fun ok s' q' rs' => q' = (if ok then q ++ [(mk_qhdr (next_message_id (c_ext c)) sender receiver ty, bs)] else q) /\
       same_on rs (i_mem s) (i_mem s') /\ (forall r, r ∈ rs -> r ∈ rs') /\ (ok = true -> IsFull c = false) /\
       (ok = false -> IsFull c = true \/ exhausted (h_supply (i_heap s')))) Hrep) as
    (ok & s' & c' & q' & rs' & E' & Hrep' & Hsf & -> & Hso & Hin & Ht & Hf).
  - intros m ys Hq'. destruct (send_body_ok (Datatypes.S fuel) (held s (c_mutex c) m) p c ys q rs sender receiver ty dat bs block) as
      (ok & s' & c' & xs' & rs' & E' & He & Hcv & Hq2 & Hso & Hin & Hsf & Ht & Hf); try done; [by apply (id_rcv _ _ Hid)|].
    eexists ok, s', c', xs', _, rs'. split_and!; try done.
    destruct ok; [|done]. specialize (Ht eq_refl). apply Z.leb_gt in Ht.
    rewrite length_app. pose proof (qr_count _ _ _ _ _ _ _ Hq). cbn. lia.
  - eexists ok, s', c', _, rs'. split_and!; try done; intros Hok; [by split_and!; [..|apply Ht]|destruct (Hf Hok); tauto].
Qed.

(** C7: [Receive] on a queue that no other thread uses returns unless it has to
    wait: from an open queue it takes the oldest message addressed to the
    receiver or to anybody, wherever it is in the queue, and hands over its
    bytes cut to the buffer, its length, type, sender and id; all other
    messages keep their order, and without such a message nothing changes. *)
Theorem Receive_spec fuel s p c q rs receiver out_type buffer bufsz bytes_read out_sender out_id block :
  queue_rep s p c q rs -> block = false \/ Exists (fun w => matching receiver w.1 = true) q -> 0 < bufsz ->
  receiver_ok rs buffer bufsz (out_ptrs bytes_read out_type out_sender out_id) ->
  exists (ok : bool) s' c' q' rs', Receive (Datatypes.S fuel) p receiver out_type buffer bufsz bytes_read out_sender out_id block s = Some (ok, s') /\
    queue_rep s' p c' q' rs' /\ same_queue c c' /\ (forall r, r ∈ rs -> r ∈ rs') /\
    if ok then exists v, takes receiver q v q' /\ received (i_mem s') v out_type buffer bufsz bytes_read out_sender out_id
    else q' = q /\ (c_closed c = true \/ Forall (fun w => matching receiver w.1 = false) q).
Proof.
  intros Hrep Hb Hbs Hout. pose proof Hrep as [[xs Hq] Hid Hmx Hbd]. pose proof (qr_chan _ _ _ _ _ _ _ Hq) as Hc.
  pose proof (owned_pos _ _ _ _ _ _ _ _ _ Hq (ro_buffer _ _ _ _ Hout)). unfold Receive. rewrite (chan_step _ _ _ _ Hc).
  destruct (c_closed c) eqn:Hcl; [exists false, s, c, q, rs; split_and!; try done; tauto|].
  destruct (Z.eqb_spec buffer 0), (Z.eqb_spec bufsz 0); try lia. cbn [orb].
  destruct (guard_queue fuel (receive_body (Datatypes.S fuel) p receiver out_type buffer bufsz bytes_read out_sender out_id block) s p c q rs
    (fun (ok : bool) s' q' rs' => (forall r, r ∈ rs -> r ∈ rs') /\
       if ok then exists v, takes receiver q v q' /\ received (i_mem s') v out_type buffer bufsz bytes_read out_sender out_id
       else q' = q /\ Forall (fun w => matching receiver w.1 = false) q) Hrep) as (ok & s' & c' & q' & rs' & E' & Hrep' & Hsf & Hin & Hp).
  - intros m ys Hq'. destruct (receive_body_ok (Datatypes.S fuel) (held s (c_mutex c) m) p c ys q rs receiver out_type buffer bufsz bytes_read out_sender out_id block) as
      (ok & s' & c' & xs' & q' & rs' & E' & He & Hcv & Hq2 & Hin & Hsf & Hp); try done; [by apply (id_wcv _ _ Hid)|lia|].
    exists ok, s', c', xs', q', rs'. split_and!; try done. destruct ok; [|destruct Hp as [-> _]; lia].
    destruct Hp as (v & (q1 & q2 & -> & -> & _) & _). rewrite length_app in *. cbn in Hbd. lia.
  - exists ok, s', c', q', rs'. split_and!; try done. destruct ok; [done|]. destruct Hp; tauto.
Qed.
End Refinement.

(** * A queue in the heap of the demonstration *)

Definition demo_queue : MessageQueue := mk_chan 0 0 0 2 3 4 false true (mk_mqext 1 [113] 8 64 1).
Definition demo_mq : ipc Paging.paging qhdr mq_ext :=
  mk_ipc true demo_sched ∅ {[1 := demo_queue]} {[2 := Mutex_new]} (<[3 := mk_cv 0]> {[4 := mk_cv 0]}).

Lemma demo_queue_rep : queue_rep demo_mq 1 demo_queue [] [(0x2000020, 100)].
Proof.
  split.
  - exists []. split; [|reflexivity|reflexivity|reflexivity|constructor|reflexivity]. exists demo_blocks1. split; [apply demo_heap1_wf|reflexivity].
  - split; [exists Mutex_new; split; [reflexivity|done]|reflexivity|reflexivity|]. intros _. right. eexists. reflexivity.
  - cbn. lia.
  - cbn. lia.
Qed.

Lemma Send_spec_witness :
  exists ok s' c' rs', Send 1 1 7 9 MSG_TYPE_EVENT 0x2000020 2 true demo_mq = Some (ok, s') /\
    queue_rep s' 1 c' (if ok then [(mk_qhdr 1 7 9 MSG_TYPE_EVENT, [0; 0])] else []) rs'.
Proof.
  destruct (Send_spec 0 demo_mq 1 demo_queue [] [(0x2000020, 100)] 7 9 MSG_TYPE_EVENT 0x2000020 [0; 0] true demo_queue_rep) as (ok & s' & c' & q' & rs' & E & Hr & _ & _ & _ & Hq & _).
  - right. reflexivity.
  - intros _. split; [exists 0x2000020, 100; split; [by left|cbn; lia]|].
    intros [|[|i]] c Hi; cbn in Hi; [injection Hi as <-; vm_compute; reflexivity|injection Hi as <-; vm_compute; reflexivity|discriminate].
  - cbn. lia.
  - exists ok, s', c', rs'. split; [exact E|]. rewrite Hq in Hr. exact Hr.
Defined.

Lemma Receive_spec_witness :
  exists ok s', Receive 1 1 9 0x2000040 0x2000020 16 0x2000044 0x2000048 0 false demo_mq = Some (ok, s').
Proof.
  assert (Ho : forall a n, 0x2000020 <= a -> a + n <= 0x2000084 -> owned [(0x2000020, 100)] a n).
  { intros a n ? ?. exists 0x2000020, 100. split; [by left|lia]. }
  destruct (Receive_spec 0 demo_mq 1 demo_queue [] [(0x2000020, 100)] 9 0x2000040 0x2000020 16 0x2000044 0x2000048 0 false demo_queue_rep) as (ok & s' & c' & q' & rs' & E & _).
  - left. reflexivity.
  - lia.
  - unfold out_ptrs. split; [apply Ho; lia|..].
    + repeat apply Forall_cons_2; try (intros ?; first [apply Ho|exfalso]; lia). constructor.
    + repeat apply Forall_cons_2; try (intros ?; unfold apart; cbn; lia). constructor.
    + cbn [apart_ptrs]. unfold apart. cbn. split_and!; repeat apply Forall_cons_2; try done; intros ? ?; lia.
  - exists ok, s'. exact E.
Defined.
