(* ===== verification/NetPacket.v ===== *)
(** Packets of the network stack: the builders and parsers of
    [src/kernel/src/net/ipv4_packet.cpp], [icmp.cpp], [udp.cpp], [dns.cpp] and
    the readers of dotted addresses in [arp.cpp], [udp.cpp] and [raw_icmp.cpp].

    A buffer is the list of its bytes; a builder returns the bytes it wrote, and
    [None] where the code returns 0.  The parsers read with [rd], which is stuck
    outside the packet: a theorem that a parser returns says that it reads
    nothing beyond the packet.  Structures are laid out little-endian, as the
    kernel's x86 stores them. *)
From S2P Require Import Prelude.

Definition le16 (v : Z) : list Z := [u8 v; u8 (Z.shiftr v 8)].
Definition le32 (v : Z) : list Z := [u8 v; u8 (Z.shiftr v 8); u8 (Z.shiftr v 16); u8 (Z.shiftr v 24)].

(** [htons] and [ntohs]. *)
Definition htons (v : Z) : Z := u16 (Z.lor (Z.shiftl (Z.land v 0xFF) 8) (Z.land (Z.shiftr v 8) 0xFF)).
Definition ntohs (v : Z) : Z := htons v.

(** ** Checksums *)

(** [while (sum >> 16) sum = (sum & 0xFFFF) + (sum >> 16)]: three rounds reach
    16 bits from any 32-bit sum. *)
Fixpoint fold_loop (fuel : nat) (sum : Z) : Z :=
  if Z.shiftr sum 16 =? 0 then sum
  else match fuel with
  | O => sum
  | S fuel' => fold_loop fuel' (u32 (Z.land sum 0xFFFF + Z.shiftr sum 16))
  end.
Definition add16 (sum : Z) : Z := u16 (fold_loop 3 sum).

(** The sum of [ip_checksum] over little-endian words; an odd last byte is
    added shifted by 8. *)
Fixpoint le_sum (data : list Z) (sum : Z) : Z :=
  match data with
  | a :: b :: data' => le_sum data' (u32 (sum + (a + 256 * b)))
  | [a] => u32 (sum + Z.shiftl a 8)
  | [] => sum
  end.
Definition ip_checksum (data : list Z) : Z := u16 (Z.lnot (fold_loop 3 (le_sum data 0))).

(** The sum of [icmp::checksum] over big-endian words. *)
Fixpoint be_sum (data : list Z) (sum : Z) : Z :=
  match data with
  | a :: b :: data' => be_sum data' (u32 (sum + u16 (Z.lor (Z.shiftl a 8) b)))
  | [a] => u32 (sum + u16 (Z.shiftl a 8))
  | [] => sum
  end.
Definition checksum (data : list Z) : Z := u16 (Z.lnot (add16 (be_sum data 0))).

(** ** Builders *)

Definition ipv4_header (total src dst protocol ttl csum : Z) : list Z :=
  [u8 (Z.lor (Z.shiftl 4 4) (20 / 4)); 0] ++ le16 total ++ [0; 0; 0; 0; u8 ttl; u8 protocol] ++ le16 csum ++ le32 src ++ le32 dst.

Definition build_ipv4_packet (payload : list Z) (src_ip_be dst_ip_be protocol ttl out_buf_len : Z) : option (list Z) :=
  let total := u32 (20 + Z.of_nat (length payload)) in
  if out_buf_len <? total then None
  else Some (ipv4_header total src_ip_be dst_ip_be protocol ttl
               (ip_checksum (ipv4_header total src_ip_be dst_ip_be protocol ttl 0)) ++ payload).

Definition echo_header (csum ident seq : Z) : list Z := [8; 0] ++ le16 csum ++ le16 ident ++ le16 seq.

(** [src ? src[i] : 0] for [plen] bytes. *)
Definition echo_payload (payload : option (list Z)) (plen : Z) : list Z :=
  match payload with Some p => take (Z.to_nat plen) p | None => replicate (Z.to_nat plen) 0 end.
Definition build_echo_request (ident seq : Z) (payload : option (list Z)) (plen outMax : Z) : option (list Z) :=
  let total := u32 (8 + plen) in
  if outMax <? total then None
  else
    let body := echo_payload payload plen in
    Some (echo_header (checksum (echo_header 0 ident seq ++ body)) ident seq ++ body).

Definition udp_header (src_port dst_port len : Z) : list Z :=
  le16 (htons src_port) ++ le16 (htons dst_port) ++ le16 (htons (u16 len)) ++ [0; 0].
Definition build_udp_packet (payload : option (list Z)) (src_port dst_port buffer_size : Z) : option (list Z) :=
  match payload with
  | None => None
  | Some p =>
      let udp_len := u32 (8 + Z.of_nat (length p)) in
      if buffer_size <? udp_len then None else Some (udp_header src_port dst_port udp_len ++ p)
  end.

(** ** Dotted addresses *)

Definition is_digit (ch : Z) : bool := (48 <=? ch) && (ch <=? 57).
Definition quad (parts : list Z) : Z :=
  match parts with
  | [a; b; c; d] => u32 (Z.lor (Z.lor (Z.lor (Z.shiftl a 24) (Z.shiftl b 16)) (Z.shiftl c 8)) d)
  | _ => 0
  end.

(** [parse_ipv4_be_str], and [parse_ipv4_be] of [raw_icmp_shim.cpp]: any other
    character, a part above 255 or a wrong number of dots gives 0.  [parts] are
    the parts before the current one. *)
Fixpoint parse_loop (s : list Z) (parts : list Z) (val : Z) : option (list Z * Z) :=
  match s with
  | [] => Some (parts, val)
  | ch :: s' =>
      if is_digit ch then
        let val := u32 (val * 10 + (ch - 48)) in
        if 255 <? val then None else parse_loop s' parts val
      else if ch =? 46 then if (4 <=? length parts)%nat then None else parse_loop s' (parts ++ [val]) 0
      else None
  end.
Definition finish (r : option (list Z * Z)) : option Z :=
  match r with
  | Some (parts, val) => if (length parts =? 3)%nat then Some (quad (parts ++ [val])) else None
  | None => None
  end.
Definition parse_ipv4_be_str (s : list Z) : Z := default 0 (finish (parse_loop s [] 0)).

(** The reader in [send_udp_packet] and [dns_resolve] skips other characters. *)
Fixpoint lenient_loop (s : list Z) (parts : list Z) (val : Z) : option (list Z * Z) :=
  match s with
  | [] => Some (parts, val)
  | ch :: s' =>
      if is_digit ch then
        let val := u32 (val * 10 + (ch - 48)) in
        if 255 <? val then None else lenient_loop s' parts val
      else if ch =? 46 then if (4 <=? length parts)%nat then None else lenient_loop s' (parts ++ [val]) 0
      else lenient_loop s' parts val
  end.
Definition parse_lenient (s : list Z) : option Z := finish (lenient_loop s [] 0).

(** The reader in [rawicmp_send_echo] stops at the first other character. *)
Fixpoint raw_loop (s : list Z) (parts : list Z) (val : Z) : list Z * Z :=
  match s with
  | [] => (parts, val)
  | ch :: s' =>
      if is_digit ch then
        let val := u32 (val * 10 + (ch - 48)) in
        if 255 <? val then (parts, 0) else raw_loop s' parts val
      else if ch =? 46 then
        let parts := parts ++ [val] in
        if (3 <? length parts)%nat then (parts, 0) else raw_loop s' parts 0
      else (parts, val)
  end.
Definition parse_raw (s : list Z) : Z := default 0 (finish (Some (raw_loop s [] 0))).

(** [ip_be_to_bytes]. *)
Definition ip_be_to_bytes (be : Z) : list Z := [u8 (Z.shiftr be 24); u8 (Z.shiftr be 16); u8 (Z.shiftr be 8); u8 be].

(** ** DNS *)

(** One label: its length, cut to 8 bits, and as many characters. *)
Definition put_label (label out : list Z) (buffer_size : Z) : option (list Z) :=
  let label_len := u8 (Z.of_nat (length label)) in
  if (label_len =? 0) || (63 <? label_len) then None
  else if buffer_size <=? u32 (Z.of_nat (length out) + 1 + label_len) then None
  else Some (out ++ label_len :: take (Z.to_nat label_len) label).

(** [label] are the characters from [label_start] to [p], [s] the ones at [p]. *)
Fixpoint encode_loop (s label out : list Z) (buffer_size : Z) : option (list Z) :=
  match s with
  | [] => if (length label =? 0)%nat then Some out else put_label label out buffer_size
  | ch :: s' =>
      if ch =? 46 then
        match put_label label out buffer_size with
        | Some out' => encode_loop s' [] out' buffer_size
        | None => None
        end
      else encode_loop s' (label ++ [ch]) out buffer_size
  end.
Definition encode_dns_name (hostname : list Z) (buffer_size : Z) : option (list Z) :=
  if buffer_size <? 2 then None
  else match encode_loop hostname [] [] buffer_size with
  | Some out => if buffer_size <=? Z.of_nat (length out) then None else Some (out ++ [0])
  | None => None
  end.

Definition dns_header (id flags qd an ns ar : Z) : list Z :=
  le16 (htons id) ++ le16 (htons flags) ++ le16 (htons qd) ++ le16 (htons an) ++ le16 (htons ns) ++ le16 (htons ar).
Definition DNS_FLAG_QR : Z := 0x8000.
Definition DNS_FLAG_RD : Z := 0x0100.
Definition DNS_FLAG_RCODE : Z := 0x000F.
Definition DNS_TYPE_A : Z := 1.
Definition DNS_CLASS_IN : Z := 1.

Definition build_dns_query (hostname : option (list Z)) (query_id buffer_size : Z) : option (list Z) :=
  match hostname with
  | None => None
  | Some host =>
      if buffer_size <? 12 + 256 then None
      else match encode_dns_name host (u32 (buffer_size - 12 - 4)) with
      | None => None
      | Some name =>
          if buffer_size <? u32 (12 + Z.of_nat (length name) + 4) then None
          else Some (dns_header query_id DNS_FLAG_RD 1 0 0 0 ++ name ++
                     [u8 (Z.shiftr DNS_TYPE_A 8); u8 DNS_TYPE_A; u8 (Z.shiftr DNS_CLASS_IN 8); u8 DNS_CLASS_IN])
      end
  end.

Section Parsers.
Context {S : Type}.

(** A byte of a packet. *)
Definition rd (p : list Z) (i : Z) : ST S Z :=
  if 0 <=? i then match p !! Z.to_nat i with Some b => ret b | None => stuck end else stuck.
(** A field of a structure, as the CPU loads it. *)
Definition rd16 (p : list Z) (i : Z) : ST S Z :=
  let! a := rd p i in let! b := rd p (i + 1) in ret (a + 256 * b).
(** [(p[i] << 8) | p[i + 1]]. *)
Definition rd16be (p : list Z) (i : Z) : ST S Z :=
  let! a := rd p i in let! b := rd p (i + 1) in ret (u16 (Z.lor (Z.shiftl a 8) b)).

(** Every round advances: [S (length packet)] rounds leave the packet. *)
Fixpoint skip_loop (fuel : nat) (packet : list Z) (pos : Z) : ST S Z :=
  if Z.of_nat (length packet) <=? pos then ret 0
  else match fuel with
  | O => stuck
  | Datatypes.S fuel' =>
      let! len := rd packet pos in
      if len =? 0 then ret (u32 (pos + 1))
      else if Z.land len 0xC0 =? 0xC0 then ret (u32 (pos + 2))
      else skip_loop fuel' packet (u32 (pos + (1 + len)))
  end.
Definition skip_dns_name (packet : list Z) (offset : Z) : ST S Z := skip_loop (Datatypes.S (length packet)) packet offset.

(** The loop over the questions; [None] is [return false]. *)
Fixpoint skip_questions (n : nat) (response : list Z) (pos : Z) : ST S (option Z) :=
  match n with
  | O => ret (Some pos)
  | Datatypes.S n' =>
      let! pos := skip_dns_name response pos in
      if (pos =? 0) || (Z.of_nat (length response) <? u32 (pos + 4)) then ret None
      else skip_questions n' response (u32 (pos + 4))
  end.

Fixpoint scan_answers (n : nat) (response : list Z) (pos : Z) : ST S (option Z) :=
  match n with
  | O => ret None
  | Datatypes.S n' =>
      let! pos := skip_dns_name response pos in
      if (pos =? 0) || (Z.of_nat (length response) <? u32 (pos + 10)) then ret None
      else
        let! type := rd16be response pos in
        let! data_len := rd16be response (pos + 8) in
        let pos := u32 (pos + 10) in
        if Z.of_nat (length response) <? u32 (pos + data_len) then ret None
        else if (type =? DNS_TYPE_A) && (data_len =? 4) then
          let! a := rd response pos in
          let! b := rd response (pos + 1) in
          let! c := rd response (pos + 2) in
          let! d := rd response (pos + 3) in
          ret (Some (quad [a; b; c; d]))
        else scan_answers n' response (u32 (pos + data_len))
  end.

(** The address written to [ip_out], or [None] for [false]. *)
Definition parse_dns_response (response : list Z) (query_id : Z) : ST S (option Z) :=
  if Z.of_nat (length response) <? 12 then ret None
  else
    let! id := rd16 response 0 in
    if negb (ntohs id =? query_id) then ret None
    else
      let! flags := rd16 response 2 in
      if Z.land (ntohs flags) DNS_FLAG_QR =? 0 then ret None
      else if negb (Z.land (ntohs flags) DNS_FLAG_RCODE =? 0) then ret None
      else
        let! qd := rd16 response 4 in
        let! an := rd16 response 6 in
        if ntohs an =? 0 then ret None
        else
          let! pos := skip_questions (Z.to_nat (ntohs qd)) response 12 in
          match pos with
          | None => ret None
          | Some pos => scan_answers (Z.to_nat (ntohs an)) response pos
          end.
End Parsers.

(** * Checksums *)

(** The representative of a sum modulo [2^16 - 1] that folding reaches. *)
Definition folded (s : Z) : Z := if s =? 0 then 0 else (s - 1) mod 65535 + 1.

Lemma folded_range s : 0 <= s -> 0 <= folded s <= 65535 /\ (folded s = 0 <-> s = 0).
Proof. intros. unfold folded. pose proof (Z.mod_pos_bound (s - 1) 65535). case_zb; lia. Qed.

Lemma fold_step s : 0 <= s < 2 ^ 32 ->
  let s' := u32 (Z.land s 0xFFFF + Z.shiftr s 16) in
  folded s' = folded s /\ s' = s mod 65536 + s / 65536.
Proof.
  intros Hs s'. assert (E : s' = s mod 65536 + s / 65536).
  { subst s'. change 0xFFFF with (Z.ones 16). rewrite Z.land_ones, Z.shiftr_div_pow2 by lia. apply u32_small. change (2 ^ 16) with 65536. zdiv. }
  split; [|done]. rewrite E. unfold folded. pose proof (Z.div_mod s 65536 ltac:(lia)) as Hd. pose proof (Z.mod_pos_bound s 65536 ltac:(lia)).
  pose proof (Z.div_pos s 65536 ltac:(lia) ltac:(lia)). repeat case_zb; try lia. f_equal.
  replace (s - 1) with (s mod 65536 + s / 65536 - 1 + s / 65536 * 65535) by lia. by rewrite Z.mod_add.
Qed.

Lemma fold_loop_ok s : 0 <= s < 2 ^ 32 -> fold_loop 3 s = folded s.
Proof.
  intros Hs. assert (Hdone : forall n s, 0 <= s < 65536 -> fold_loop n s = folded s).
  { intros n t Ht. unfold folded. assert (E : Z.shiftr t 16 = 0) by (rewrite Z.shiftr_div_pow2 by lia; by apply Z.div_small).
    destruct n; cbn [fold_loop]; rewrite E; cbn; case_zb; try done; rewrite Z.mod_small; lia. }
  assert (Hstep : forall n t, 65536 <= t < 2 ^ 32 -> fold_loop (S n) t = fold_loop n (u32 (Z.land t 0xFFFF + Z.shiftr t 16))).
  { intros n t Ht. cbn [fold_loop]. destruct (Z.eqb_spec (Z.shiftr t 16) 0) as [E|]; [|done].
    rewrite Z.shiftr_div_pow2 in E by lia. change (2 ^ 16) with 65536 in E. zdiv. }
  destruct (decide (s < 65536)); [by apply Hdone; lia|]. rewrite Hstep by lia. destruct (fold_step s Hs) as [<- E1]. revert E1. generalize (u32 (Z.land s 65535 + Z.shiftr s 16)). intros s1 E1.
  assert (H1 : 0 <= s1 <= 131070) by zdiv. destruct (decide (s1 < 65536)); [by apply Hdone; lia|].
  rewrite Hstep by lia. destruct (fold_step s1 ltac:(lia)) as [<- E2]. revert E2. generalize (u32 (Z.land s1 65535 + Z.shiftr s1 16)). intros s2 E2.
  apply Hdone. zdiv.
Qed.

Lemma lnot16 s : 0 <= s <= 65535 -> u16 (Z.lnot s) = 65535 - s.
Proof. intros. unfold u16, Z.lnot, Z.pred. change (2 ^ 16) with 65536. zdiv. Qed.

Abbreviation byte := (fun b : Z => 0 <= b < 256).

(** The sums without wrap-around. *)
Fixpoint le_total (l : list Z) : Z :=
  match l with a :: b :: l' => (a + 256 * b) + le_total l' | [a] => 256 * a | [] => 0 end.
Fixpoint be_total (l : list Z) : Z :=
  match l with a :: b :: l' => (256 * a + b) + be_total l' | [a] => 256 * a | [] => 0 end.

Lemma pair_ind (P : list Z -> Prop) :
  P [] -> (forall a, P [a]) -> (forall a b l, P l -> P (a :: b :: l)) -> forall l, P l.
Proof.
  intros H0 H1 H2 l. enough (H : P l /\ forall a, P (a :: l)) by apply H. induction l as [|b l [IH IH']]; [auto|]. split; [apply IH'|]. intros a. by apply H2.
Qed.

Lemma total_range l : Forall byte l ->
  0 <= le_total l <= 32768 * (Z.of_nat (length l) + 1) /\ 0 <= be_total l <= 32768 * (Z.of_nat (length l) + 1).
Proof.
  induction l as [|a|a b l IH] using pair_ind; cbn [le_total be_total length]; [lia| |]; intros H.
  - apply Forall_cons in H as [? _]. lia.
  - apply Forall_cons in H as [? H]. apply Forall_cons in H as [? H]. specialize (IH H). lia.
Qed.

Lemma total_pos a l : 0 < a -> Forall byte (a :: l) -> 0 < le_total (a :: l) /\ 0 < be_total (a :: l).
Proof.
  intros Ha H. destruct l as [|b l]; cbn [le_total be_total]; [lia|]. rewrite !Forall_cons in H. destruct H as (? & ? & H).
  pose proof (total_range l H). lia.
Qed.

Lemma sums_ok l s : Forall byte l -> 0 <= s -> s + 32768 * (Z.of_nat (length l) + 1) < 2 ^ 32 ->
  le_sum l s = s + le_total l /\ be_sum l s = s + be_total l.
Proof.
  revert s. induction l as [|a|a b l IH] using pair_ind; intros s H Hs Hb; cbn [le_sum be_sum le_total be_total length] in *; [lia| |].
  - apply Forall_cons in H as [? _]. rewrite Z.shiftl_mul_pow2 by lia. rewrite (u16_small (a * 2 ^ 8)), !u32_small by lia. lia.
  - apply Forall_cons in H as [? H]. apply Forall_cons in H as [? H]. rewrite shift_or by lia. rewrite (u16_small (a * 2 ^ 8 + b)), !u32_small by lia.
    split; [destruct (IH (s + (a + 256 * b))) as [-> _]|destruct (IH (s + (a * 2 ^ 8 + b))) as [_ ->]]; try done; lia.
Qed.

(** The two checksums in closed form. *)
Lemma ip_checksum_ok l : Forall byte l -> Z.of_nat (length l) <= 131000 -> ip_checksum l = 65535 - folded (le_total l).
Proof.
  intros H Hl. pose proof (total_range l H) as [Hr _]. unfold ip_checksum. rewrite (proj1 (sums_ok l 0 H ltac:(lia) ltac:(lia))), Z.add_0_l.
  rewrite fold_loop_ok by lia. apply lnot16. apply folded_range. lia.
Qed.
Lemma checksum_ok l : Forall byte l -> Z.of_nat (length l) <= 131000 -> checksum l = 65535 - folded (be_total l).
Proof.
  intros H Hl. pose proof (total_range l H) as [_ Hr]. unfold checksum, add16. rewrite (proj2 (sums_ok l 0 H ltac:(lia) ltac:(lia))), Z.add_0_l.
  rewrite fold_loop_ok by lia. destruct (folded_range (be_total l) ltac:(lia)). rewrite (u16_small (folded _)) by lia. by apply lnot16.
Qed.

Lemma folded_full s : 0 < s -> folded s = 65535 <-> s mod 65535 = 0.
Proof. intros. unfold folded. case_zb; [lia|]. zdiv. Qed.
Lemma folded_mod s : 0 <= s -> folded s mod 65535 = s mod 65535.
Proof.
  intros. unfold folded. case_zb; [by subst|]. rewrite Z.add_mod_idemp_l by lia. f_equal. lia.
Qed.

Lemma le16_bytes v : Forall byte (le16 v).
Proof. repeat constructor; apply u8_range. Qed.
Lemma le32_bytes v : Forall byte (le32 v).
Proof. repeat constructor; apply u8_range. Qed.

Lemma le16_value v : 0 <= v < 65536 -> u8 v + 256 * u8 (Z.shiftr v 8) = v.
Proof. intros. unfold u8. rewrite Z.shiftr_div_pow2 by lia. zdiv. Qed.

Lemma ipv4_header_bytes total src dst protocol ttl csum : Forall byte (ipv4_header total src dst protocol ttl csum).
Proof.
  unfold ipv4_header. repeat apply Forall_app_2; try apply le16_bytes; try apply le32_bytes; repeat constructor; try lia; apply u8_range.
Qed.

(** [build_ipv4_packet] succeeds exactly when the packet fits, prepends a
    header of 20 bytes to the payload, and its header checksum verifies: the
    checksum of the finished header is 0. *)
Theorem build_ipv4_packet_spec payload src dst protocol ttl n :
  20 + Z.of_nat (length payload) < 2 ^ 32 ->
  match build_ipv4_packet payload src dst protocol ttl n with
  | None => n < 20 + Z.of_nat (length payload)
  | Some pkt => 20 + Z.of_nat (length payload) <= n /\ drop 20 pkt = payload /\ length (take 20 pkt) = 20%nat /\
      Forall byte (take 20 pkt) /\ ip_checksum (take 20 pkt) = 0 /\ pkt !! 9%nat = Some (u8 protocol)
  end.
Proof.
  intros Hl. unfold build_ipv4_packet. rewrite u32_small by lia. case_zb; [done|]. set (total := 20 + _).
  set (h0 := ipv4_header total src dst protocol ttl 0). set (c := ip_checksum h0).
  assert (Hlen : forall x, length (ipv4_header total src dst protocol ttl x) = 20%nat) by done.
  assert (Ht : take 20 (ipv4_header total src dst protocol ttl c ++ payload) = ipv4_header total src dst protocol ttl c) by by apply take_app_length'.
  rewrite Ht. split_and!; [lia|by apply drop_app_length'|done|apply ipv4_header_bytes| |done].
  pose proof (ipv4_header_bytes total src dst protocol ttl 0) as Hb0. pose proof (total_range _ Hb0) as [Hr _].
  pose proof (ip_checksum_ok _ Hb0 ltac:(rewrite Hlen; lia)) as Hc. fold h0 c in Hc. fold h0 in Hr.
  rewrite ip_checksum_ok; [|apply ipv4_header_bytes|rewrite Hlen; lia].
  destruct (folded_range (le_total h0) ltac:(lia)) as [Hf Hf0].
  assert (Hsum : le_total (ipv4_header total src dst protocol ttl c) = le_total h0 + c).
  { subst h0. unfold ipv4_header. cbn [app le16 le32 le_total]. pose proof (le16_value c ltac:(lia)). cbn [Z.shiftr u8] in *. change (u8 0 + 256 * u8 (Z.shiftr 0 8)) with 0. lia. }
  assert (Hpos : 0 < le_total h0) by (by apply total_pos).
  rewrite Hsum. enough (folded (le_total h0 + c) = 65535) by lia. apply folded_full; [lia|].
  rewrite Hc. replace (le_total h0 + (65535 - folded (le_total h0))) with (le_total h0 - folded (le_total h0) + 1 * 65535) by lia.
  rewrite Z.mod_add, Zminus_mod, folded_mod, Z.sub_diag by lia. done.
Qed.

Lemma echo_payload_ok payload plen : 0 <= plen ->
  (forall p, payload = Some p -> Forall byte p /\ plen <= Z.of_nat (length p)) ->
  Forall byte (echo_payload payload plen) /\ Z.of_nat (length (echo_payload payload plen)) = plen.
Proof.
  intros Hp H. destruct payload as [p|]; cbn [echo_payload].
  - destruct (H p eq_refl). split; [by apply Forall_take|]. rewrite length_take. lia.
  - split; [apply Forall_replicate; lia|]. rewrite length_replicate. lia.
Qed.

Lemma echo_header_bytes c ident seq : Forall byte (echo_header c ident seq).
Proof. unfold echo_header. repeat apply Forall_app_2; try apply le16_bytes. repeat constructor; lia. Qed.

(** A sum completed by the swapped checksum verifies when the bytes are equal. *)
Lemma swapped_verifies t c :
  0 < t -> c = 65535 - folded t ->
  folded (t + (256 * u8 c + u8 (Z.shiftr c 8))) = 65535 <-> u8 c = u8 (Z.shiftr c 8).
Proof.
  intros Ht Hc. destruct (folded_range t ltac:(lia)) as [Hf _]. pose proof (le16_value c ltac:(lia)) as Hv.
  pose proof (u8_range c). pose proof (u8_range (Z.shiftr c 8)). revert Hv H H0. generalize (u8 c) (u8 (Z.shiftr c 8)). intros lo hi Hv Hlo Hhi.
  rewrite folded_full by lia. pose proof (folded_mod t ltac:(lia)) as Hm.
  assert (Ek : exists k, t = 65535 * k + folded t).
  { exists ((t - folded t) / 65535). assert ((t - folded t) mod 65535 = 0) by (rewrite Zminus_mod, Hm, Z.sub_diag; done). zdiv. }
  destruct Ek as [k Ek]. replace (t + (256 * lo + hi)) with (255 * (lo - hi) + (k + 1) * 65535) by lia. rewrite Z.mod_add by lia. zdiv.
Qed.

(** [build_echo_request] writes a header and the payload when they fit, but
    stores its big-endian checksum in the byte order of the CPU: the packet
    verifies only when the two bytes of the checksum are equal. *)
Theorem build_echo_request_checksum ident seq payload plen outMax :
  0 <= plen < 65536 -> (forall p, payload = Some p -> Forall byte p /\ plen <= Z.of_nat (length p)) ->
  match build_echo_request ident seq payload plen outMax with
  | None => outMax < 8 + plen
  | Some pkt => Z.of_nat (length pkt) = 8 + plen /\ 8 + plen <= outMax /\ drop 8 pkt = echo_payload payload plen /\
      (checksum pkt = 0 <-> pkt !! 2%nat = pkt !! 3%nat)
  end.
Proof.
  intros Hl Hp. unfold build_echo_request. rewrite u32_small by lia. case_zb; [done|].
  destruct (echo_payload_ok payload plen ltac:(lia) Hp) as [Hb Hlen]. set (body := echo_payload payload plen) in *.
  set (p0 := echo_header 0 ident seq ++ body). set (c := checksum p0).
  assert (Hbytes : forall x, Forall byte (echo_header x ident seq ++ body)) by (intros x; apply Forall_app_2; [apply echo_header_bytes|done]).
  assert (Hlens : forall x, Z.of_nat (length (echo_header x ident seq ++ body)) = 8 + plen) by (intros x; rewrite length_app; cbn; lia).
  split_and!; [apply Hlens|lia|by apply drop_app_length'|].
  pose proof (checksum_ok p0 (Hbytes 0) ltac:(unfold p0; rewrite Hlens; lia)) as Hc. rewrite checksum_ok; [|apply Hbytes|rewrite Hlens; lia].
  assert (Hpos : 0 < be_total p0) by (by apply total_pos; [|apply Hbytes]).
  assert (Hsum : be_total (echo_header c ident seq ++ body) = be_total p0 + (256 * u8 c + u8 (Z.shiftr c 8))).
  { subst p0. unfold echo_header. cbn [app le16 be_total]. change (u8 (Z.shiftr 0 8)) with 0. change (u8 0) with 0. lia. }
  rewrite Hsum. pose proof (swapped_verifies (be_total p0) c Hpos Hc) as Hs.
  transitivity (u8 c = u8 (Z.shiftr c 8)); [rewrite <-Hs; lia|]. cbn. split; [by intros ->|congruence].
Qed.

(** * Dotted addresses *)

(** A number of at most three decimal digits, and the usual notation. *)
Definition digits (n : Z) : list Z :=
  if n <? 10 then [48 + n] else if n <? 100 then [48 + n / 10; 48 + n mod 10]
  else [48 + n / 100; 48 + n / 10 mod 10; 48 + n mod 10].
Definition dotted (a b c d : Z) : list Z := digits a ++ 46 :: digits b ++ 46 :: digits c ++ 46 :: digits d.

Lemma digit_step k s parts v : 0 <= k <= 9 -> 0 <= v -> v * 10 + k <= 255 ->
  parse_loop ((48 + k) :: s) parts v = parse_loop s parts (v * 10 + k) /\
  lenient_loop ((48 + k) :: s) parts v = lenient_loop s parts (v * 10 + k) /\
  raw_loop ((48 + k) :: s) parts v = raw_loop s parts (v * 10 + k).
Proof.
  intros Hk Hv Hb. cbn [parse_loop lenient_loop raw_loop]. unfold is_digit.
  rewrite (proj2 (Z.leb_le 48 (48 + k))), (proj2 (Z.leb_le (48 + k) 57)) by lia. cbn [andb].
  replace (v * 10 + (48 + k - 48)) with (v * 10 + k) by lia. rewrite u32_small by lia. cbn zeta. by rewrite (proj2 (Z.ltb_ge 255 (v * 10 + k))) by lia.
Qed.

Lemma digits_step n s parts : 0 <= n < 256 ->
  parse_loop (digits n ++ s) parts 0 = parse_loop s parts n /\
  lenient_loop (digits n ++ s) parts 0 = lenient_loop s parts n /\
  raw_loop (digits n ++ s) parts 0 = raw_loop s parts n.
Proof.
  intros Hn. unfold digits.
  assert (H10 : 0 <= n mod 10 <= 9 /\ n = n / 10 * 10 + n mod 10) by zdiv.
  assert (H100 : 0 <= n / 10 mod 10 <= 9 /\ n / 10 = n / 100 * 10 + n / 10 mod 10 /\ 0 <= n / 100 <= 9) by zdiv.
  assert (Hq : n < 100 -> 0 <= n / 10 <= 9) by zdiv. repeat case_zb; cbn [app].
  - destruct (digit_step n s parts 0) as (-> & -> & ->); [lia..|]. done.
  - destruct (digit_step (n / 10) ((48 + n mod 10) :: s) parts 0) as (-> & -> & ->); [lia..|].
    destruct (digit_step (n mod 10) s parts (0 * 10 + n / 10)) as (-> & -> & ->); [lia..|].
    by replace ((0 * 10 + n / 10) * 10 + n mod 10) with n by lia.
  - destruct (digit_step (n / 100) ((48 + n / 10 mod 10) :: (48 + n mod 10) :: s) parts 0) as (-> & -> & ->); [lia..|].
    destruct (digit_step (n / 10 mod 10) ((48 + n mod 10) :: s) parts (0 * 10 + n / 100)) as (-> & -> & ->); [lia..|].
    destruct (digit_step (n mod 10) s parts ((0 * 10 + n / 100) * 10 + n / 10 mod 10)) as (-> & -> & ->); [lia..|].
    by replace (((0 * 10 + n / 100) * 10 + n / 10 mod 10) * 10 + n mod 10) with n by lia.
Qed.

Lemma quad_value a b c d : byte a -> byte b -> byte c -> byte d -> quad [a; b; c; d] = a * 2 ^ 24 + b * 2 ^ 16 + c * 2 ^ 8 + d.
Proof.
  intros. cbn beta in *. unfold quad. assert (E : forall x, Z.shiftl x 16 = Z.shiftl (Z.shiftl x 8) 8) by (intros; by rewrite Z.shiftl_shiftl).
  assert (E' : Z.shiftl a 24 = Z.shiftl (Z.shiftl a 8) 16) by by rewrite Z.shiftl_shiftl.
  rewrite E', <-Z.shiftl_lor, (shift_or 8 a b), E, <-Z.shiftl_lor, (shift_or 8 _ c), shift_or by lia. rewrite u32_small by lia. lia.
Qed.

(** The dot after a part. *)
Ltac dot_step := cbn [parse_loop lenient_loop raw_loop is_digit andb Z.leb Z.eqb Z.compare Pos.compare Pos.compare_cont Pos.eqb
  length Nat.leb Nat.ltb app].

Lemma dotted_ok a b c d : byte a -> byte b -> byte c -> byte d ->
  parse_ipv4_be_str (dotted a b c d) = quad [a; b; c; d] /\ parse_lenient (dotted a b c d) = Some (quad [a; b; c; d]) /\
  parse_raw (dotted a b c d) = quad [a; b; c; d].
Proof.
  intros Ha Hb Hc Hd. unfold parse_ipv4_be_str, parse_lenient, parse_raw, dotted.
  destruct (digits_step a (46 :: digits b ++ 46 :: digits c ++ 46 :: digits d) [] Ha) as (-> & -> & ->). dot_step.
  destruct (digits_step b (46 :: digits c ++ 46 :: digits d) [a] Hb) as (-> & -> & ->). dot_step.
  destruct (digits_step c (46 :: digits d) [a; b] Hc) as (-> & -> & ->). dot_step.
  rewrite <-(app_nil_r (digits d)). by destruct (digits_step d [] [a; b; c] Hd) as (-> & -> & ->).
Qed.

Lemma lenient_dotted a b c d : byte a -> byte b -> byte c -> byte d -> parse_lenient (dotted a b c d) = Some (quad [a; b; c; d]).
Proof. intros. by apply dotted_ok. Qed.

(** the dotted notation of an address is read back by each of the three
    readers of the stack, and [ip_be_to_bytes] gives its bytes in network order. *)
Theorem dotted_roundtrip a b c d : byte a -> byte b -> byte c -> byte d ->
  parse_ipv4_be_str (dotted a b c d) = quad [a; b; c; d] /\ parse_lenient (dotted a b c d) = Some (quad [a; b; c; d]) /\
  parse_raw (dotted a b c d) = quad [a; b; c; d] /\ ip_be_to_bytes (quad [a; b; c; d]) = [a; b; c; d].
Proof.
  intros Ha Hb Hc Hd. destruct (dotted_ok a b c d Ha Hb Hc Hd) as (? & ? & ?). split_and!; try done.
  rewrite quad_value by done. unfold ip_be_to_bytes, u8. rewrite !Z.shiftr_div_pow2 by lia. cbn beta in *.
  f_equal; [zdiv|]. f_equal; [zdiv|]. f_equal; [zdiv|]. f_equal. zdiv.
Qed.

(** * DNS *)

Lemma htons_value v : 0 <= v < 65536 -> htons v = 256 * (v mod 256) + v / 256.
Proof.
  intros Hv. unfold htons. change 0xFF with (Z.ones 8). rewrite !Z.land_ones, Z.shiftr_div_pow2 by lia. change (2 ^ 8) with 256.
  rewrite shift_or by (change (2 ^ 8) with 256; zdiv). change (2 ^ 8) with 256. rewrite u16_small by zdiv. zdiv.
Qed.
Lemma htons_range v : 0 <= v < 65536 -> 0 <= htons v < 65536.
Proof. intros. rewrite htons_value by done. zdiv. Qed.
Lemma ntohs_htons v : 0 <= v < 65536 -> ntohs (htons v) = v.
Proof. intros. unfold ntohs. rewrite (htons_value (htons v)) by (by apply htons_range). rewrite htons_value by done. zdiv. Qed.

Section Dns.
Context {S : Type}.
Implicit Types (s : S) (p : list Z).

Lemma rd_at p n x s : p !! n = Some x -> rd p (Z.of_nat n) s = Some (x, s).
Proof. intros E. unfold rd. rewrite (proj2 (Z.leb_le 0 (Z.of_nat n))), Nat2Z.id, E by lia. done. Qed.
Lemma rd_in p i s : 0 <= i < Z.of_nat (length p) -> exists x, p !! Z.to_nat i = Some x /\ rd p i s = Some (x, s).
Proof.
  intros Hi. destruct (lookup_lt_is_Some_2 p (Z.to_nat i)) as [x Hx]; [lia|]. exists x. split; [done|].
  replace i with (Z.of_nat (Z.to_nat i)) by lia. by apply rd_at.
Qed.
Lemma rd16be_in p i s : 0 <= i -> i + 2 <= Z.of_nat (length p) -> exists v, rd16be p i s = Some (v, s) /\ 0 <= v < 65536.
Proof.
  intros Hi Hl. destruct (rd_in p i s ltac:(lia)) as (a & _ & Ea), (rd_in p (i + 1) s ltac:(lia)) as (b & _ & Eb).
  unfold rd16be. rewrite (bind_step _ _ _ _ _ Ea), (bind_step _ _ _ _ _ Eb). eexists. split; [reflexivity|apply u16_range].
Qed.
Lemma rd16_in p i s : 0 <= i -> i + 2 <= Z.of_nat (length p) -> exists v, rd16 p i s = Some (v, s).
Proof.
  intros Hi Hl. destruct (rd_in p i s ltac:(lia)) as (a & _ & Ea), (rd_in p (i + 1) s ltac:(lia)) as (b & _ & Eb).
  unfold rd16. rewrite (bind_step _ _ _ _ _ Ea), (bind_step _ _ _ _ _ Eb). eauto.
Qed.

(** ** Any packet at all *)

Lemma skip_loop_safe fuel p pos s :
  Forall byte p -> Z.of_nat (length p) < 2 ^ 31 -> 0 <= pos <= Z.of_nat (length p) + 300 -> Z.of_nat (length p) - pos < Z.of_nat fuel ->
  exists q, skip_loop fuel p pos s = Some (q, s) /\ (q = 0 \/ pos < q <= Z.of_nat (length p) + 1).
Proof.
  intros Hb Hl. revert pos. induction fuel as [|fuel IH]; intros pos Hp Hf; cbn [skip_loop].
  - destruct (Z.leb_spec (Z.of_nat (length p)) pos); [|lia]. exists 0. auto.
  - destruct (Z.leb_spec (Z.of_nat (length p)) pos); [exists 0; auto|].
    destruct (rd_in p pos s ltac:(lia)) as (x & Hx & E). rewrite (bind_step _ _ _ _ _ E).
    pose proof (Forall_lookup_1 _ _ _ _ Hb Hx) as Hxb. cbn beta in Hxb. repeat case_zb.
    + eexists. split; [reflexivity|]. right. rewrite u32_small by lia. lia.
    + eexists. split; [reflexivity|]. right. rewrite u32_small by lia. lia.
    + rewrite u32_small by lia. destruct (IH (pos + (1 + x))) as (q & Eq & Hq); [lia|lia|]. exists q. split; [done|]. lia.
Qed.

Lemma skip_name_safe p pos s :
  Forall byte p -> Z.of_nat (length p) < 2 ^ 31 -> 0 <= pos <= Z.of_nat (length p) + 300 ->
  exists q, skip_dns_name p pos s = Some (q, s) /\ (q = 0 \/ pos < q <= Z.of_nat (length p) + 1).
Proof. intros. apply skip_loop_safe; try done. lia. Qed.

Lemma skip_questions_safe n p pos s :
  Forall byte p -> Z.of_nat (length p) < 2 ^ 31 -> 0 <= pos <= Z.of_nat (length p) ->
  exists r, skip_questions n p pos s = Some (r, s) /\ forall q, r = Some q -> 0 <= q <= Z.of_nat (length p).
Proof.
  intros Hb Hl. revert pos. induction n as [|n IH]; intros pos Hp; cbn [skip_questions].
  { eexists. split; [reflexivity|]. by intros q [= ->]. }
  destruct (skip_name_safe p pos s Hb Hl ltac:(lia)) as (q & E & Hq). rewrite (bind_step _ _ _ _ _ E).
  destruct (Z.eqb_spec q 0); cbn [orb]; [by eexists|]. rewrite u32_small by lia.
  destruct (Z.ltb_spec (Z.of_nat (length p)) (q + 4)); [by eexists|]. apply IH. lia.
Qed.

Lemma scan_answers_safe n p pos s :
  Forall byte p -> Z.of_nat (length p) < 2 ^ 31 -> 0 <= pos <= Z.of_nat (length p) ->
  exists r, scan_answers n p pos s = Some (r, s).
Proof.
  intros Hb Hl. revert pos. induction n as [|n IH]; intros pos Hp; cbn [scan_answers]; [by eexists|].
  destruct (skip_name_safe p pos s Hb Hl ltac:(lia)) as (q & E & Hq). rewrite (bind_step _ _ _ _ _ E).
  destruct (Z.eqb_spec q 0); cbn [orb]; [by eexists|]. rewrite !(u32_small (q + 10)) by lia.
  destruct (Z.ltb_spec (Z.of_nat (length p)) (q + 10)); [by eexists|].
  destruct (rd16be_in p q s ltac:(lia) ltac:(lia)) as (ty & E1 & _), (rd16be_in p (q + 8) s ltac:(lia) ltac:(lia)) as (dl & E2 & Hdl).
  rewrite (bind_step _ _ _ _ _ E1), (bind_step _ _ _ _ _ E2). cbn zeta. rewrite u32_small by lia.
  destruct (Z.ltb_spec (Z.of_nat (length p)) (q + 10 + dl)); [by eexists|]. destruct (ty =? DNS_TYPE_A); cbn [andb]; [|apply IH; lia].
  destruct (Z.eqb_spec dl 4) as [->|]; [|apply IH; lia].
  destruct (rd_in p (q + 10) s ltac:(lia)) as (a & _ & Ea), (rd_in p (q + 10 + 1) s ltac:(lia)) as (b & _ & Eb),
    (rd_in p (q + 10 + 2) s ltac:(lia)) as (c & _ & Ec), (rd_in p (q + 10 + 3) s ltac:(lia)) as (d & _ & Ed).
  rewrite (bind_step _ _ _ _ _ Ea), (bind_step _ _ _ _ _ Eb), (bind_step _ _ _ _ _ Ec), (bind_step _ _ _ _ _ Ed). by eexists.
Qed.

(** [parse_dns_response] is memory safe on any packet: whatever the bytes,
    compression pointers and counts included, it returns after finitely many
    steps without a read outside the packet. *)
Lemma parse_dns_response_safe p id s :
  Forall byte p -> Z.of_nat (length p) < 2 ^ 31 -> exists r, parse_dns_response p id s = Some (r, s).
Proof.
  intros Hb Hl. unfold parse_dns_response. destruct (Z.ltb_spec (Z.of_nat (length p)) 12); [by eexists|].
  destruct (rd16_in p 0 s ltac:(lia) ltac:(lia)) as (v & Ev), (rd16_in p 2 s ltac:(lia) ltac:(lia)) as (f & Ef),
    (rd16_in p 4 s ltac:(lia) ltac:(lia)) as (qd & Eq), (rd16_in p 6 s ltac:(lia) ltac:(lia)) as (an & Ea).
  rewrite (bind_step _ _ _ _ _ Ev). case_match; [by eexists|]. rewrite (bind_step _ _ _ _ _ Ef). do 2 (case_match; [by eexists|]).
  rewrite (bind_step _ _ _ _ _ Eq), (bind_step _ _ _ _ _ Ea). case_match; [by eexists|].
  destruct (skip_questions_safe (Z.to_nat (ntohs qd)) p 12 s Hb Hl ltac:(lia)) as (r & E & Hr). rewrite (bind_step _ _ _ _ _ E).
  destruct r as [q|]; [|by eexists]. by apply scan_answers_safe; [..|apply Hr].
Qed.

(** ** Well-formed messages *)

Definition be16 (v : Z) : list Z := [u8 (Z.shiftr v 8); u8 v].

(** A name on the wire: labels, then the root or a compression pointer. *)
Record dname := mk_dname { labels : list (list Z); pointer : option (Z * Z) }.
Definition label_bytes (ls : list (list Z)) : list Z := concat ((fun l => Z.of_nat (length l) :: l) <$> ls).
Definition name_bytes (n : dname) : list Z :=
  label_bytes (labels n) ++ match pointer n with Some (a, b) => [a; b] | None => [0] end.
Definition valid_name (n : dname) : Prop :=
  Forall (fun l => 1 <= Z.of_nat (length l) <= 63) (labels n) /\ forall a b, pointer n = Some (a, b) -> 192 <= a < 256.

(** A resource record: its class and time to live are 6 bytes the parser skips. *)
Record rr := mk_rr { rr_name : dname; rr_type : Z; rr_meta : list Z; rr_data : list Z }.
Definition rr_bytes (r : rr) : list Z :=
  name_bytes (rr_name r) ++ be16 (rr_type r) ++ rr_meta r ++ be16 (Z.of_nat (length (rr_data r))) ++ rr_data r.
Definition valid_rr (r : rr) : Prop :=
  valid_name (rr_name r) /\ 0 <= rr_type r < 65536 /\ length (rr_meta r) = 6%nat /\ Z.of_nat (length (rr_data r)) < 65536.

(** A question: a name and 4 bytes of type and class. *)
Definition question_bytes (q : dname * list Z) : list Z := name_bytes q.1 ++ q.2.
Definition valid_question (q : dname * list Z) : Prop := valid_name q.1 /\ length q.2 = 4%nat.

Definition dns_message (id flags ns ar : Z) (qs : list (dname * list Z)) (rrs : list rr) (rest : list Z) : list Z :=
  dns_header id flags (Z.of_nat (length qs)) (Z.of_nat (length rrs)) ns ar ++
  concat (question_bytes <$> qs) ++ concat (rr_bytes <$> rrs) ++ rest.

(** The address of the first A record. *)
Fixpoint first_A (rrs : list rr) : option Z :=
  match rrs with
  | [] => None
  | r :: rrs' => if (rr_type r =? DNS_TYPE_A) && (length (rr_data r) =? 4)%nat then Some (quad (rr_data r)) else first_A rrs'
  end.

Lemma label_length_mask l : 1 <= l <= 63 -> Z.land l 0xC0 = 0.
Proof.
  intros Hl. change 0xC0 with (Z.shiftl 3 6). apply Z.bits_inj'. intros i Hi. rewrite Z.land_spec, Z.bits_0, Z.shiftl_spec by lia.
  destruct (Z.ltb_spec i 6); [rewrite (Z.testbit_neg_r 3) by lia; apply andb_false_r|].
  replace l with (l mod 2 ^ 6) by (apply Z.mod_small; lia). by rewrite Z.mod_pow2_bits_high by lia.
Qed.
Lemma pointer_mask a : 192 <= a < 256 -> Z.land a 0xC0 = 0xC0.
Proof.
  intros Ha. assert (E : a = Z.lor (Z.shiftl 3 6) (a mod 64)) by (rewrite shift_or by (change (2 ^ 6) with 64; zdiv); change (2 ^ 6) with 64; zdiv).
  rewrite E, Z.land_lor_distr_l. change (Z.land (Z.shiftl 3 6) 192) with 192.
  replace (Z.land (a mod 64) 192) with 0; [done|]. destruct (decide (a mod 64 = 0)) as [->|]; [done|]. symmetry. apply label_length_mask. zdiv.
Qed.

Lemma lookup_mid {A} (pre post : list A) x : (pre ++ x :: post) !! length pre = Some x.
Proof. by apply list_lookup_middle. Qed.

Lemma skip_labels_ok fuel pre ls tl post s :
  Forall (fun l => 1 <= Z.of_nat (length l) <= 63) ls -> (length ls < fuel)%nat ->
  Z.of_nat (length (pre ++ label_bytes ls ++ tl ++ post)) < 2 ^ 31 -> tl = [0] \/ (exists a b, tl = [a; b] /\ 192 <= a < 256) ->
  skip_loop fuel (pre ++ label_bytes ls ++ tl ++ post) (Z.of_nat (length pre)) s =
    Some (Z.of_nat (length (pre ++ label_bytes ls ++ tl)), s).
Proof.
  intros HF. revert fuel pre. induction HF as [|l ls Hl HF IH]; intros fuel pre Hf Hb Htl; destruct fuel as [|fuel]; try (cbn in Hf; lia).
  - cbn [label_bytes fmap list_fmap concat app skip_loop] in *. destruct Htl as [->|(a & b & -> & Ha)]; cbn [app] in *.
    + destruct (Z.leb_spec (Z.of_nat (length (pre ++ 0 :: post))) (Z.of_nat (length pre))) as [Hle|_]; [rewrite length_app in Hle; cbn in Hle; lia|].
      rewrite (bind_step _ _ _ _ _ (rd_at _ _ _ s (lookup_mid pre post 0))). cbn [Z.eqb]. rewrite length_app in *. cbn [length] in *. rewrite u32_small by lia. unfold ret. repeat f_equal. lia.
    + destruct (Z.leb_spec (Z.of_nat (length (pre ++ a :: b :: post))) (Z.of_nat (length pre))) as [Hle|_]; [rewrite length_app in Hle; cbn in Hle; lia|].
      rewrite (bind_step _ _ _ _ _ (rd_at _ _ _ s (lookup_mid pre (b :: post) a))). destruct (Z.eqb_spec a 0); [lia|]. rewrite pointer_mask by done.
      rewrite Z.eqb_refl. rewrite length_app in *. cbn [length] in *. rewrite u32_small by lia. unfold ret. repeat f_equal. lia.
  - change (label_bytes (l :: ls)) with ((Z.of_nat (length l) :: l) ++ label_bytes ls) in *. rewrite <-(app_assoc _ (label_bytes ls)) in *. cbn [skip_loop].
    set (more := label_bytes ls ++ tl ++ post) in *. cbn [app] in *.
    destruct (Z.leb_spec (Z.of_nat (length (pre ++ Z.of_nat (length l) :: l ++ more))) (Z.of_nat (length pre))) as [Hle|_]; [rewrite length_app in Hle; cbn in Hle; lia|].
    rewrite (bind_step _ _ _ _ _ (rd_at _ _ _ s (lookup_mid pre _ _))). destruct (Z.eqb_spec (Z.of_nat (length l)) 0); [lia|]. rewrite label_length_mask by done. cbn [Z.eqb].
    assert (Hlen : Z.of_nat (length (pre ++ Z.of_nat (length l) :: l)) = Z.of_nat (length pre) + (1 + Z.of_nat (length l))) by (rewrite length_app; cbn; lia).
    rewrite u32_small by (rewrite !length_app in Hb; cbn in Hb; rewrite length_app in Hb; lia). rewrite <-Hlen.
    change (pre ++ Z.of_nat (length l) :: l ++ more) with (pre ++ (Z.of_nat (length l) :: l) ++ more) in *. rewrite app_assoc in *.
    subst more. rewrite IH; [|cbn in Hf; lia|done|done]. by rewrite <-!app_assoc.
Qed.

Lemma skip_name_ok pre n post s :
  valid_name n -> Z.of_nat (length (pre ++ name_bytes n ++ post)) < 2 ^ 31 ->
  skip_dns_name (pre ++ name_bytes n ++ post) (Z.of_nat (length pre)) s = Some (Z.of_nat (length (pre ++ name_bytes n)), s) /\
  (0 < length (name_bytes n))%nat.
Proof.
  intros [Hls Hp] Hb. unfold name_bytes in *. set (tl := match pointer n with Some (a, b) => [a; b] | None => [0] end) in *.
  assert (Hll : forall ls : list (list Z), (length ls <= length (label_bytes ls))%nat).
  { induction ls as [|l ls IH]; [done|]. change (label_bytes (l :: ls)) with ((Z.of_nat (length l) :: l) ++ label_bytes ls). rewrite length_app. cbn. lia. }
  rewrite <-(app_assoc (label_bytes (labels n))) in *. split.
  - unfold skip_dns_name. apply skip_labels_ok; [done| |done|].
    + pose proof (Hll (labels n)). rewrite !length_app. lia.
    + subst tl. destruct (pointer n) as [[a b]|]; [right; exists a, b; split; [done|by eapply Hp]|by left].
  - subst tl. rewrite length_app. destruct (pointer n) as [[a b]|]; cbn; lia.
Qed.

Lemma skip_questions_ok qs pre post s :
  Forall valid_question qs -> Z.of_nat (length (pre ++ concat (question_bytes <$> qs) ++ post)) < 2 ^ 31 ->
  skip_questions (length qs) (pre ++ concat (question_bytes <$> qs) ++ post) (Z.of_nat (length pre)) s =
    Some (Some (Z.of_nat (length (pre ++ concat (question_bytes <$> qs)))), s).
Proof.
  intros HF. revert pre. induction HF as [|[n tc] qs [Hn Htc] HF IH]; intros pre Hb.
  { cbn. by rewrite app_nil_r. }
  rewrite fmap_cons in *. cbn [concat length skip_questions] in *. cbn [fst snd] in Hn, Htc.
  set (more := concat (question_bytes <$> qs)) in *. unfold question_bytes in *. cbn [fst snd] in *. rewrite <-!app_assoc in *.
  destruct (skip_name_ok pre n (tc ++ more ++ post) s Hn Hb) as [E Hpos]. rewrite (bind_step _ _ _ _ _ E). rewrite !length_app in *.
  destruct (Z.eqb_spec (Z.of_nat (length pre + length (name_bytes n))) 0); [lia|]. rewrite u32_small by lia. cbn [orb].
  destruct (Z.ltb_spec (Z.of_nat (length pre + (length (name_bytes n) + (length tc + (length more + length post)))))
    (Z.of_nat (length pre + length (name_bytes n)) + 4)); [lia|].
  replace (Z.of_nat (length pre + length (name_bytes n)) + 4) with (Z.of_nat (length (pre ++ name_bytes n ++ tc))) by (rewrite !length_app; lia).
  replace (pre ++ name_bytes n ++ tc ++ more ++ post) with ((pre ++ name_bytes n ++ tc) ++ more ++ post) by by rewrite <-!app_assoc.
  rewrite IH by (rewrite !length_app in *; lia). do 3 f_equal. rewrite !length_app. lia.
Qed.

Lemma be16_read v : 0 <= v < 65536 -> u16 (Z.lor (Z.shiftl (u8 (Z.shiftr v 8)) 8) (u8 v)) = v.
Proof.
  intros. rewrite shift_or by (lia || apply u8_range). unfold u8. rewrite Z.shiftr_div_pow2 by lia. change (2 ^ 8) with 256. rewrite u16_small; zdiv.
Qed.

Lemma rd16be_at pre v post s : 0 <= v < 65536 -> rd16be (pre ++ be16 v ++ post) (Z.of_nat (length pre)) s = Some (v, s).
Proof.
  intros Hv. unfold rd16be, be16. cbn [app]. rewrite (bind_step _ _ _ _ _ (rd_at _ _ _ s (lookup_mid pre _ _))).
  replace (pre ++ u8 (Z.shiftr v 8) :: u8 v :: post) with ((pre ++ [u8 (Z.shiftr v 8)]) ++ u8 v :: post) by by rewrite <-app_assoc.
  replace (Z.of_nat (length pre) + 1) with (Z.of_nat (length (pre ++ [u8 (Z.shiftr v 8)]))) by (rewrite length_app; cbn; lia).
  rewrite (bind_step _ _ _ _ _ (rd_at _ _ _ s (lookup_mid _ _ _))). by rewrite be16_read.
Qed.

Lemma rd_quad pre a b c d post s :
  (let! x := rd (pre ++ a :: b :: c :: d :: post) (Z.of_nat (length pre)) in
   let! y := rd (pre ++ a :: b :: c :: d :: post) (Z.of_nat (length pre) + 1) in
   let! z := rd (pre ++ a :: b :: c :: d :: post) (Z.of_nat (length pre) + 2) in
   let! w := rd (pre ++ a :: b :: c :: d :: post) (Z.of_nat (length pre) + 3) in
   ret (Some (quad [x; y; z; w]))) s = Some (Some (quad [a; b; c; d]), s).
Proof.
  assert (H : forall k x, [a; b; c; d] !! k = Some x -> rd (pre ++ a :: b :: c :: d :: post) (Z.of_nat (length pre) + Z.of_nat k) s = Some (x, s)).
  { intros k x Hk. rewrite <-Nat2Z.inj_add. apply rd_at. rewrite lookup_app_r by lia. replace (length pre + k - length pre)%nat with k by lia.
    change (a :: b :: c :: d :: post) with ([a; b; c; d] ++ post). by apply lookup_app_l_Some. }
  rewrite (bind_step _ _ _ _ _ (rd_at _ _ _ s (lookup_mid pre _ _))).
  rewrite (bind_step _ _ _ _ _ (H 1%nat b eq_refl)), (bind_step _ _ _ _ _ (H 2%nat c eq_refl)), (bind_step _ _ _ _ _ (H 3%nat d eq_refl)). done.
Qed.

Lemma scan_answers_ok rrs pre post s :
  Forall valid_rr rrs -> Z.of_nat (length (pre ++ concat (rr_bytes <$> rrs) ++ post)) < 2 ^ 31 ->
  scan_answers (length rrs) (pre ++ concat (rr_bytes <$> rrs) ++ post) (Z.of_nat (length pre)) s = Some (first_A rrs, s).
Proof.
  intros HF. revert pre. induction HF as [|[n ty meta dat] rrs (Hn & Hty & Hm & Hd) HF IH]; intros pre Hb; [done|].
  rewrite fmap_cons in *. cbn [concat length scan_answers first_A rr_name rr_type rr_meta rr_data] in *.
  set (more := concat (rr_bytes <$> rrs)) in *. unfold rr_bytes in *. cbn [rr_name rr_type rr_meta rr_data] in *. rewrite <-!app_assoc in *.
  set (dl := Z.of_nat (length dat)) in *. set (p := pre ++ _) in *.
  destruct (skip_name_ok pre n (be16 ty ++ meta ++ be16 dl ++ dat ++ more ++ post) s Hn Hb) as [E Hpos]. fold p in E. rewrite (bind_step _ _ _ _ _ E).
  assert (Hlen : Z.of_nat (length p) = Z.of_nat (length (pre ++ name_bytes n)) + 10 + dl + Z.of_nat (length (more ++ post))) by (subst p dl; rewrite !length_app; cbn; lia).
  set (pos := length (pre ++ name_bytes n)) in *. destruct (Z.eqb_spec (Z.of_nat pos) 0); [subst pos; rewrite length_app in *; lia|]. cbn [orb].
  rewrite !(u32_small (Z.of_nat pos + 10)) by lia. destruct (Z.ltb_spec (Z.of_nat (length p)) (Z.of_nat pos + 10)); [lia|].
  assert (E1 : rd16be p (Z.of_nat pos) s = Some (ty, s)) by (subst p; rewrite app_assoc; by apply rd16be_at).
  assert (E2 : rd16be p (Z.of_nat pos + 8) s = Some (dl, s)).
  { replace p with ((pre ++ name_bytes n ++ be16 ty ++ meta) ++ be16 dl ++ dat ++ more ++ post) by (subst p; by rewrite <-!app_assoc).
    replace (Z.of_nat pos + 8) with (Z.of_nat (length (pre ++ name_bytes n ++ be16 ty ++ meta))) by (subst pos; rewrite !length_app; cbn; lia). apply rd16be_at. lia. }
  rewrite (bind_step _ _ _ _ _ E1), (bind_step _ _ _ _ _ E2). cbn zeta. rewrite u32_small by lia.
  destruct (Z.ltb_spec (Z.of_nat (length p)) (Z.of_nat pos + 10 + dl)); [lia|].
  set (pre' := pre ++ name_bytes n ++ be16 ty ++ meta ++ be16 dl).
  assert (Hp : p = pre' ++ dat ++ more ++ post) by (subst p pre'; by rewrite <-!app_assoc).
  assert (Hpos' : Z.of_nat pos + 10 = Z.of_nat (length pre')) by (subst pos pre'; rewrite !length_app; cbn; lia).
  destruct (ty =? DNS_TYPE_A) eqn:Ety; cbn [andb].
  - destruct (Z.eqb_spec dl 4) as [E4|E4].
    + destruct dat as [|a [|b [|c [|d [|x dat]]]]]; try (subst dl; cbn in E4; lia). cbn [length Nat.eqb]. rewrite Hpos', Hp. apply rd_quad.
    + destruct (Nat.eqb_spec (length dat) 4); [subst dl; lia|].
      rewrite Hpos', Hp, app_assoc. replace (Z.of_nat (length pre') + dl) with (Z.of_nat (length (pre' ++ dat))) by (rewrite length_app; lia).
      apply IH. rewrite <-app_assoc, <-Hp. lia.
  - rewrite Hpos', Hp, app_assoc. replace (Z.of_nat (length pre') + dl) with (Z.of_nat (length (pre' ++ dat))) by (rewrite length_app; lia).
    apply IH. rewrite <-app_assoc, <-Hp. lia.
Qed.

(** C19: on a well-formed response with the expected id and no error code,
    [parse_dns_response] returns the address of the first A record, wherever it
    is among the answers, and fails when there is none. *)
Theorem parse_dns_response_spec id flags ns ar qs rrs rest s :
  0 <= id < 65536 -> 0 <= flags < 65536 -> Z.land flags DNS_FLAG_QR <> 0 -> Z.land flags DNS_FLAG_RCODE = 0 ->
  Forall valid_question qs -> Forall valid_rr rrs -> Z.of_nat (length qs) < 65536 -> Z.of_nat (length rrs) < 65536 ->
  Z.of_nat (length (dns_message id flags ns ar qs rrs rest)) < 2 ^ 31 ->
  parse_dns_response (dns_message id flags ns ar qs rrs rest) id s = Some (first_A rrs, s).
Proof.
  intros Hid Hfl Hqr Hrc Hqs Hrrs Hnq Hnr Hlen. unfold parse_dns_response. set (m := dns_message _ _ _ _ _ _ _) in *.
  assert (H12 : (12 <= length m)%nat) by (subst m; unfold dns_message; rewrite length_app; cbn; lia).
  destruct (Z.ltb_spec (Z.of_nat (length m)) 12); [lia|].
  assert (Hrd : forall k v, 0 <= v < 65536 -> m !! k = Some (u8 (htons v)) -> m !! (k + 1)%nat = Some (u8 (Z.shiftr (htons v) 8)) ->
    rd16 m (Z.of_nat k) s = Some (htons v, s)).
  { intros k v Hv H1 H2. unfold rd16. rewrite (bind_step _ _ _ _ _ (rd_at _ _ _ s H1)). replace (Z.of_nat k + 1) with (Z.of_nat (k + 1)) by lia.
    rewrite (bind_step _ _ _ _ _ (rd_at _ _ _ s H2)). unfold ret. rewrite le16_value; [done|]. by apply htons_range. }
  rewrite (bind_step _ _ _ _ _ (Hrd 0%nat id Hid eq_refl eq_refl)), ntohs_htons, Z.eqb_refl by done. cbn [negb].
  rewrite (bind_step _ _ _ _ _ (Hrd 2%nat flags Hfl eq_refl eq_refl)), ntohs_htons by done.
  destruct (Z.eqb_spec (Z.land flags DNS_FLAG_QR) 0); [done|]. rewrite Hrc. cbn [negb Z.eqb].
  rewrite (bind_step _ _ _ _ _ (Hrd 4%nat (Z.of_nat (length qs)) ltac:(lia) eq_refl eq_refl)).
  rewrite (bind_step _ _ _ _ _ (Hrd 6%nat (Z.of_nat (length rrs)) ltac:(lia) eq_refl eq_refl)). rewrite !ntohs_htons, !Nat2Z.id by lia.
  destruct (Z.eqb_spec (Z.of_nat (length rrs)) 0); [by destruct rrs|]. subst m. unfold dns_message in *. set (h := dns_header _ _ _ _ _ _) in *.
  rewrite (bind_step _ _ _ _ _ (skip_questions_ok qs h _ s Hqs Hlen)). rewrite app_assoc. apply scan_answers_ok; [done|]. by rewrite <-app_assoc.
Qed.
End Dns.

(** ** Queries *)

Fixpoint join_dots (ls : list (list Z)) : list Z :=
  match ls with [] => [] | [l] => l | l :: ls' => l ++ 46 :: join_dots ls' end.

Lemma encode_chars l s label out n : Forall (fun ch => ch <> 46) l -> encode_loop (l ++ s) label out n = encode_loop s (label ++ l) out n.
Proof.
  intros H. revert label. induction H as [|ch l Hch _ IH]; intros label; cbn [app encode_loop]; [by rewrite app_nil_r|].
  destruct (Z.eqb_spec ch 46); [done|]. by rewrite IH, <-app_assoc.
Qed.

Lemma put_label_ok l out n :
  1 <= Z.of_nat (length l) <= 63 -> Z.of_nat (length out) + 1 + Z.of_nat (length l) < n -> n < 2 ^ 32 ->
  put_label l out n = Some (out ++ Z.of_nat (length l) :: l).
Proof.
  intros Hl Hn Hb. unfold put_label. rewrite u8_small by lia. destruct (Z.eqb_spec (Z.of_nat (length l)) 0); [lia|].
  destruct (Z.ltb_spec 63 (Z.of_nat (length l))); [lia|]. cbn [orb]. rewrite u32_small by lia. rewrite (proj2 (Z.leb_gt n _)) by lia.
  by rewrite take_ge by lia.
Qed.

Definition valid_labels (ls : list (list Z)) : Prop := Forall (fun l => 1 <= Z.of_nat (length l) <= 63 /\ Forall (fun ch => ch <> 46) l) ls.

Lemma encode_join ls out n :
  valid_labels ls -> Z.of_nat (length (out ++ label_bytes ls)) < n -> n < 2 ^ 32 ->
  encode_loop (join_dots ls) [] out n = Some (out ++ label_bytes ls).
Proof.
  intros HF. revert out. induction HF as [|l ls [Hl Hd] HF IH]; intros out Hn Hb; [by rewrite app_nil_r|].
  change (label_bytes (l :: ls)) with ((Z.of_nat (length l) :: l) ++ label_bytes ls) in *. rewrite !length_app in Hn. cbn [length] in Hn.
  assert (Hp : put_label l out n = Some (out ++ Z.of_nat (length l) :: l)) by (apply put_label_ok; lia). destruct ls as [|l' ls].
  - cbn [join_dots]. rewrite <-(app_nil_r l) at 1. rewrite encode_chars by done. cbn [app encode_loop].
    destruct (Nat.eqb_spec (length l) 0); [lia|]. rewrite Hp. unfold label_bytes. cbn. by rewrite app_nil_r.
  - change (join_dots (l :: l' :: ls)) with (l ++ 46 :: join_dots (l' :: ls)). rewrite encode_chars by done. cbn [app encode_loop Z.eqb Pos.eqb]. rewrite Hp.
    rewrite IH; [by rewrite <-app_assoc| |done]. rewrite !length_app. cbn [length]. lia.
Qed.

(** [build_dns_query] writes a well-formed DNS message with the labels of
    the host name as its only question, within the buffer. *)
Theorem build_dns_query_spec ls id n :
  valid_labels ls -> 268 <= n < 2 ^ 32 -> Z.of_nat (length (label_bytes ls)) < n - 16 ->
  build_dns_query (Some (join_dots ls)) id n = Some (dns_message id DNS_FLAG_RD 0 0 [(mk_dname ls None, [0; 1; 0; 1])] [] []) /\
  Z.of_nat (length (dns_message id DNS_FLAG_RD 0 0 [(mk_dname ls None, [0; 1; 0; 1])] [] [])) <= n.
Proof.
  intros Hls Hn Hlen. unfold build_dns_query, encode_dns_name. destruct (Z.ltb_spec n (12 + 256)); [lia|].
  rewrite (u32_small (n - 12 - 4)) by lia. destruct (Z.ltb_spec (n - 12 - 4) 2); [lia|].
  rewrite encode_join by (done || (cbn [app]; lia)). cbn [app]. destruct (Z.leb_spec (n - 12 - 4) (Z.of_nat (length (label_bytes ls)))); [lia|].
  rewrite length_app. cbn [length]. rewrite u32_small by lia. destruct (Z.ltb_spec n (12 + Z.of_nat (length (label_bytes ls) + 1) + 4)); [lia|].
  unfold dns_message, question_bytes, name_bytes. cbn [fmap list_fmap concat fst snd labels pointer length app]. rewrite !app_nil_r.
  split; [done|]. rewrite !length_app. cbn. lia.
Qed.

(** A label of 257 or more characters is not refused: its length wraps to 8
    bits and the name is encoded with the label cut. *)
Lemma encode_long_label l n :
  Forall (fun ch => ch <> 46) l -> 257 <= Z.of_nat (length l) <= 319 -> 66 <= n < 2 ^ 32 ->
  encode_dns_name l n = Some ((Z.of_nat (length l) - 256) :: take (length l - 256) l ++ [0]).
Proof.
  intros Hd Hl Hn. unfold encode_dns_name. destruct (Z.ltb_spec n 2); [lia|]. rewrite <-(app_nil_r l) at 1. rewrite encode_chars by done.
  cbn [app encode_loop]. destruct (Nat.eqb_spec (length l) 0); [lia|]. unfold put_label.
  assert (E : u8 (Z.of_nat (length l)) = Z.of_nat (length l) - 256) by (unfold u8; zdiv). rewrite E.
  destruct (Z.eqb_spec (Z.of_nat (length l) - 256) 0); [lia|]. destruct (Z.ltb_spec 63 (Z.of_nat (length l) - 256)); [lia|]. cbn [orb length app].
  rewrite u32_small by lia. destruct (Z.leb_spec n (Z.of_nat 0 + 1 + (Z.of_nat (length l) - 256))); [lia|].
  replace (Z.to_nat (Z.of_nat (length l) - 256)) with (length l - 256)%nat by lia. cbn [length]. rewrite length_take.
  destruct (Z.leb_spec n (Z.of_nat (Datatypes.S ((length l - 256) `min` length l)))); [lia|]. done.
Qed.

(** * Witnesses *)

Lemma build_ipv4_packet_spec_witness : exists pkt, build_ipv4_packet [1; 2] 10 11 17 64 1024 = Some pkt /\ ip_checksum (take 20 pkt) = 0.
Proof.
  pose proof (build_ipv4_packet_spec [1; 2] 10 11 17 64 1024 ltac:(cbn; lia)) as H.
  destruct (build_ipv4_packet [1; 2] 10 11 17 64 1024) as [pkt|]; [|cbn in H; lia]. exists pkt. split; [done|]. apply H.
Defined.

(** An echo request with a payload of one byte does not verify. *)
Lemma build_echo_request_checksum_witness :
  exists pkt, build_echo_request 1 2 (Some [7]) 1 64 = Some pkt /\ ~ checksum pkt = 0.
Proof.
  pose proof (build_echo_request_checksum 1 2 (Some [7]) 1 64 ltac:(lia) ltac:(intros p [= <-]; split; [repeat constructor; lia|cbn; lia])) as H.
  destruct (build_echo_request 1 2 (Some [7]) 1 64) as [pkt|] eqn:E; [|lia]. exists pkt. split; [done|].
  destruct H as (_ & _ & _ & H). rewrite H. vm_compute in E. injection E as <-. done.
Defined.

Lemma dotted_roundtrip_witness : parse_ipv4_be_str (dotted 10 0 2 15) = 0x0A00020F.
Proof. destruct (dotted_roundtrip 10 0 2 15) as [-> _]; cbn beta; try lia. done. Defined.

Lemma parse_dns_response_safe_witness :
  exists r, parse_dns_response [0; 1; 128; 0; 255; 255; 255; 255; 0; 0; 0; 0; 192] 1 tt = Some (r, tt).
Proof. apply parse_dns_response_safe; [repeat constructor; lia|cbn; lia]. Defined.

(** The answers "a CNAME ..." and "a A 1.2.3.4". *)
Lemma parse_dns_response_spec_witness :
  let n := mk_dname [[97]] None in let r := mk_dname [] (Some (192, 12)) in
  parse_dns_response (dns_message 7 0x8180 0 0 [(n, [0; 1; 0; 1])] [mk_rr r 5 [0; 1; 0; 0; 0; 9] [0]; mk_rr r 1 [0; 1; 0; 0; 0; 9] [1; 2; 3; 4]] []) 7 tt =
    Some (Some 0x01020304, tt).
Proof.
  intros n r. assert (Hn : valid_name n) by (split; [repeat constructor; cbn; lia|done]).
  assert (Hr : valid_name r) by (split; [constructor|intros a b [= <- <-]; lia]).
  rewrite parse_dns_response_spec; [done|lia|lia|done|done| | |cbn; lia|cbn; lia|cbn; lia].
  - constructor; [|constructor]. by split.
  - constructor; [split_and!; cbn; (done || lia)|]. constructor; [split_and!; cbn; (done || lia)|constructor].
Defined.

Lemma build_dns_query_spec_witness :
  build_dns_query (Some [97; 46; 98; 99]) 7 512 = Some [0; 7; 1; 0; 0; 1; 0; 0; 0; 0; 0; 0; 1; 97; 2; 98; 99; 0; 0; 1; 0; 1].
Proof.
  destruct (build_dns_query_spec [[97]; [98; 99]] 7 512) as [E _]; [|lia|cbn; lia|exact E].
  constructor; [split; [cbn; lia|repeat constructor; lia]|]. constructor; [split; [cbn; lia|repeat constructor; lia]|constructor].
Defined.
