(* ===== verification/Net.v ===== *)
(** The network stack: [arp.cpp], [arp_cache.cpp], [nic.cpp], [ipv4.cpp],
    [udp.cpp], [rx_dispatch.cpp], [dns.cpp], [raw_icmp.cpp] and
    [raw_icmp_shim.cpp] of [src/kernel/src/net], with the system calls of
    [src/kernel/src/lib/syscalls.cpp] between them.

    The transmit function of the driver is a parameter of the state, [sent]
    lists the frames handed to it, and [incoming] the frames each call of
    [e1000_rx_poll] finds.  Logging is left out. *)
From S2P Require Import Prelude NetPacket.

Record Config := mk_cfg { cfg_ip : list Z; cfg_mask : list Z; cfg_gw : list Z; cfg_dns : list Z }.

(** A reply of the ring, its bytes cut to [len]. *)
Record EchoReply := mk_reply { e_id : Z; e_seq : Z; e_buf : list Z }.

Record net := mk_net {
  arp : list (option (Z * list Z));      (* _used, _ips, _macs: 8 slots *)
  mac : option (list Z);                 (* _mac, _mac_set *)
  rx_on : bool;                          (* _rx_cb *)
  tx : option (list Z -> bool);          (* _tx_fn *)
  sent : list (list Z);
  cfg : Config;                          (* g_cfg *)
  g_queue : list EchoReply;
  g_q_head : Z;
  g_q_tail : Z;
  dns_response : list Z;                 (* g_dns_response_buf, _len *)
  dns_ready : bool;                      (* g_dns_response_ready *)
  dns_id : Z;                            (* g_dns_response_id *)
  query_id_counter : Z;
  fdtab : list (option Z);               (* _fdtab: 8 slots with dst_ip_be *)
  incoming : list (list (list Z));
}.
Definition set_arp x s := mk_net x (mac s) (rx_on s) (tx s) (sent s) (cfg s) (g_queue s) (g_q_head s) (g_q_tail s) (dns_response s) (dns_ready s) (dns_id s) (query_id_counter s) (fdtab s) (incoming s).
Definition set_mac x s := mk_net (arp s) x (rx_on s) (tx s) (sent s) (cfg s) (g_queue s) (g_q_head s) (g_q_tail s) (dns_response s) (dns_ready s) (dns_id s) (query_id_counter s) (fdtab s) (incoming s).
Definition set_rx x s := mk_net (arp s) (mac s) x (tx s) (sent s) (cfg s) (g_queue s) (g_q_head s) (g_q_tail s) (dns_response s) (dns_ready s) (dns_id s) (query_id_counter s) (fdtab s) (incoming s).
Definition set_tx x s := mk_net (arp s) (mac s) (rx_on s) x (sent s) (cfg s) (g_queue s) (g_q_head s) (g_q_tail s) (dns_response s) (dns_ready s) (dns_id s) (query_id_counter s) (fdtab s) (incoming s).
Definition set_sent x s := mk_net (arp s) (mac s) (rx_on s) (tx s) x (cfg s) (g_queue s) (g_q_head s) (g_q_tail s) (dns_response s) (dns_ready s) (dns_id s) (query_id_counter s) (fdtab s) (incoming s).
Definition set_cfg x s := mk_net (arp s) (mac s) (rx_on s) (tx s) (sent s) x (g_queue s) (g_q_head s) (g_q_tail s) (dns_response s) (dns_ready s) (dns_id s) (query_id_counter s) (fdtab s) (incoming s).
Definition set_ring q h t s := mk_net (arp s) (mac s) (rx_on s) (tx s) (sent s) (cfg s) q h t (dns_response s) (dns_ready s) (dns_id s) (query_id_counter s) (fdtab s) (incoming s).
Definition set_dns r ready id n s := mk_net (arp s) (mac s) (rx_on s) (tx s) (sent s) (cfg s) (g_queue s) (g_q_head s) (g_q_tail s) r ready id n (fdtab s) (incoming s).
Definition set_fdtab x s := mk_net (arp s) (mac s) (rx_on s) (tx s) (sent s) (cfg s) (g_queue s) (g_q_head s) (g_q_tail s) (dns_response s) (dns_ready s) (dns_id s) (query_id_counter s) x (incoming s).

(** ** Configuration *)

(** [String::strncpy(dst, src, 15)] into an array of 16 keeps 14 characters. *)
Definition strncpy15 (s : list Z) : list Z := take 14 s.
Definition SetConfig (c : Config) : ST net unit :=
  modify (set_cfg (mk_cfg (strncpy15 (cfg_ip c)) (strncpy15 (cfg_mask c)) (strncpy15 (cfg_gw c)) (strncpy15 (cfg_dns c)))).
Definition GetConfig : ST net Config := gets cfg.

(** ** Network card *)

Definition kos_nic_register_rx : ST net unit := modify (set_rx true).
Definition kos_nic_register_tx (f : list Z -> bool) : ST net unit := modify (set_tx (Some f)).
Definition kos_nic_send_frame (frame : list Z) : ST net bool :=
  let! f := gets tx in
  match f with
  | Some f => modify (fun s => set_sent (sent s ++ [frame]) s);;; ret (f frame)
  | None => ret false
  end.
Definition kos_nic_set_mac (m : list Z) : ST net unit := modify (set_mac (Some m)).
Definition kos_nic_get_mac : ST net (option (list Z)) := gets mac.

(** ** System calls *)

Definition kos_sys_syscall_get_net_config : ST net Config :=
  let! c := GetConfig in
  ret (mk_cfg (strncpy15 (cfg_ip c)) (strncpy15 (cfg_mask c)) (strncpy15 (cfg_gw c)) (strncpy15 (cfg_dns c))).
Definition kos_sys_syscall_get_mac_address : ST net (option (list Z)) := kos_nic_get_mac.
Definition kos_sys_syscall_send_ethernet_frame (frame : list Z) : ST net Z :=
  let len := Z.of_nat (length frame) in
  if (len =? 0) || (1500 <? len) then ret (-1)
  else let! ok := kos_nic_send_frame frame in ret (if ok then len else -1).

(** ** ARP *)

Fixpoint lookup_slots (ip : Z) (l : list (option (Z * list Z))) : option (list Z) :=
  match l with
  | [] => None
  | Some (i, m) :: l' => if i =? ip then Some m else lookup_slots ip l'
  | None :: l' => lookup_slots ip l'
  end.
Definition arp_cache_lookup (ip : Z) : ST net (option (list Z)) := gets (fun s => lookup_slots ip (arp s)).

(** The two loops of [arp_cache_update]; [None] is the end of the loop. *)
Fixpoint replace_slot (ip : Z) (m : list Z) (l : list (option (Z * list Z))) : option (list (option (Z * list Z))) :=
  match l with
  | [] => None
  | Some (i, m') :: l' => if i =? ip then Some (Some (i, m) :: l') else cons (Some (i, m')) <$> replace_slot ip m l'
  | None :: l' => cons None <$> replace_slot ip m l'
  end.
Fixpoint fill_slot (ip : Z) (m : list Z) (l : list (option (Z * list Z))) : option (list (option (Z * list Z))) :=
  match l with
  | [] => None
  | None :: l' => Some (Some (ip, m) :: l')
  | Some e :: l' => cons (Some e) <$> fill_slot ip m l'
  end.
Definition arp_cache_update (ip : Z) (m : list Z) : ST net unit :=
  modify (fun s => match replace_slot ip m (arp s) with
                   | Some l => set_arp l s
                   | None => match fill_slot ip m (arp s) with Some l => set_arp l s | None => s end
                   end).

Definition ETHERTYPE_IPV4 : Z := 0x0800.
Definition ETHERTYPE_ARP : Z := 0x0806.
Definition eth_header (dst src : list Z) (ethertype : Z) : list Z := dst ++ src ++ le16 ethertype.
Definition zeros (n : nat) : list Z := replicate n 0.

Definition arp_send_request (ip : Z) : ST net unit :=
  let! m := kos_sys_syscall_get_mac_address in
  let smac := default (zeros 6) m in
  let! syscfg := kos_sys_syscall_get_net_config in
  let sip_be := parse_ipv4_be_str (cfg_ip syscfg) in
  let frame := eth_header (replicate 6 0xFF) smac ETHERTYPE_ARP ++
    le16 1 ++ le16 ETHERTYPE_IPV4 ++ [6; 4] ++ le16 1 ++ smac ++ ip_be_to_bytes sip_be ++ zeros 6 ++ ip_be_to_bytes ip in
  kos_sys_syscall_send_ethernet_frame frame;;; ret tt.

Definition arp_resolve (ip : Z) : ST net (option (list Z)) :=
  let! m := arp_cache_lookup ip in
  match m with
  | Some m => ret (Some m)
  | None => arp_send_request ip;;; ret None
  end.

(** [n] bytes of a packet. *)
Fixpoint rd_bytes (n : nat) (p : list Z) (i : Z) : ST net (list Z) :=
  match n with
  | O => ret []
  | S n' => let! b := rd p i in let! r := rd_bytes n' p (i + 1) in ret (b :: r)
  end.

Definition arp_ingest (frame : list Z) : ST net bool :=
  if Z.of_nat (length frame) <? 14 + 28 then ret false
  else
    let! ty := rd16 frame 12 in
    if negb (ty =? ETHERTYPE_ARP) then ret false
    else
      let! op := rd16 frame (14 + 6) in
      if negb (op =? 2) then ret false
      else
        let! sip := rd_bytes 4 frame (14 + 14) in
        let! sha := rd_bytes 6 frame (14 + 8) in
        arp_cache_update (quad sip) sha;;;
        ret true.

(** ** UDP *)

(** The frame around an IP packet, to the broadcast address without a MAC. *)
Definition ip_frame (have_mac : option (list Z)) (smac : list Z) (ip_buf : list Z) : list Z :=
  eth_header (default (replicate 6 0xFF) have_mac) smac ETHERTYPE_IPV4 ++ ip_buf.

Definition send_udp_packet (payload : option (list Z)) (dst_ip src_port dst_port : Z) : ST net bool :=
  match payload with
  | None => ret false
  | Some [] => ret false
  | Some p =>
      let! syscfg := kos_sys_syscall_get_net_config in
      match parse_lenient (cfg_ip syscfg) with
      | None => ret false
      | Some src_ip =>
          match build_udp_packet (Some p) src_port dst_port 1024 with
          | None => ret false
          | Some udp_buf =>
              match build_ipv4_packet udp_buf src_ip dst_ip 17 64 1024 with
              | None => ret false
              | Some ip_buf =>
                  let! have_mac := arp_resolve dst_ip in
                  if 1500 <? Z.of_nat (length ip_buf) + 14 then ret false
                  else
                    let! smac := kos_sys_syscall_get_mac_address in
                    let! n := kos_sys_syscall_send_ethernet_frame (ip_frame have_mac (default (zeros 6) smac) ip_buf) in
                    ret (0 <? n)
              end
          end
      end
  end.

(** ** Raw ICMP *)

Definition rawicmp_send_echo (dst_ip_be id seq : Z) (payload : option (list Z)) (payload_len : Z) : ST net bool :=
  match build_echo_request id seq payload (u16 payload_len) 64 with
  | None => ret false
  | Some icmp_buf =>
      let! netcfg := kos_sys_syscall_get_net_config in
      let src_ip_be := parse_raw (cfg_ip netcfg) in
      match build_ipv4_packet icmp_buf src_ip_be dst_ip_be 1 64 96 with
      | None => ret false
      | Some ip_buf =>
          let! have_mac := arp_resolve dst_ip_be in
          if 128 <? Z.of_nat (length ip_buf) + 14 then ret false
          else
            let! smac := kos_sys_syscall_get_mac_address in
            let! n := kos_sys_syscall_send_ethernet_frame
                        (ip_frame have_mac (default [0x52; 0x54; 0x00; 0x12; 0x34; 0x56] smac) ip_buf) in
            ret (0 <? n)
      end
  end.

Definition queue_reply (id seq : Z) (data : list Z) : ST net unit :=
  let! s := gets Datatypes.id in
  let tail := Z.land (g_q_tail s + 1) 3 in
  modify (set_ring (<[Z.to_nat (g_q_tail s) := mk_reply id seq (take 128 data)]> (g_queue s))
            (if tail =? g_q_head s then Z.land (g_q_head s + 1) 3 else g_q_head s) tail).

(** Each difference of lengths follows the comparison that keeps it from
    becoming negative, so the subtractions of [uint32_t] do not wrap around. *)
Definition rawicmp_on_ipv4_packet (data : list Z) : ST net unit :=
  let len := Z.of_nat (length data) in
  if len <? 20 then ret tt
  else
    let! vi := rd data 0 in
    let ihl := u8 (Z.land vi 0x0F * 4) in
    if (ihl <? 20) || (len <? ihl) then ret tt
    else
      let! proto := rd data 9 in
      if negb (proto =? 1) then ret tt
      else if len - ihl <? 8 then ret tt
      else
        let! type := rd data ihl in
        if negb (type =? 0) then ret tt
        else
          let! ident := rd16be data (ihl + 4) in
          let! seq := rd16be data (ihl + 6) in
          let pay_len := if 128 <? len - ihl - 8 then 128 else len - ihl - 8 in
          let! pay := rd_bytes (Z.to_nat pay_len) data (ihl + 8) in
          queue_reply ident seq pay.

(** The walk along the ring: the bytes of the first reply that matches, with
    the index after it.  The ring has 4 slots. *)
Fixpoint recv_loop (fuel : nat) (q : list EchoReply) (tail id seq qi : Z) : option (EchoReply * Z) :=
  if qi =? tail then None
  else match fuel with
  | O => None
  | S fuel' =>
      match q !! Z.to_nat qi with
      | Some e => if (e_id e =? id) && (e_seq e =? seq) then Some (e, Z.land (qi + 1) 3)
                  else recv_loop fuel' q tail id seq (Z.land (qi + 1) 3)
      | None => None
      end
  end.
(** The bytes written to [buf]; their number is the result. *)
Definition rawicmp_recv_echo (id seq buf_len : Z) : ST net (list Z) :=
  let! s := gets Datatypes.id in
  match recv_loop 4 (g_queue s) (g_q_tail s) id seq (g_q_head s) with
  | Some (e, head) => modify (set_ring (g_queue s) head (g_q_tail s));;; ret (take (Z.to_nat buf_len) (e_buf e))
  | None => ret []
  end.

(** ** Receiving *)

Definition dns_on_udp_packet (src_port dst_port : Z) (data : list Z) : ST net unit :=
  if (dst_port =? 53) && (Z.of_nat (length data) <=? 512)
  then modify (fun s => set_dns data true (dns_id s) (query_id_counter s) s) else ret tt.

(** As above, the lengths are compared before they are subtracted. *)
Definition rx_cb (frame : list Z) : ST net unit :=
  let len := Z.of_nat (length frame) in
  if len <? 14 then ret tt
  else
    let! ethertype := rd16 frame 12 in
    let payload := drop 14 frame in
    let plen := len - 14 in
    if ethertype =? ETHERTYPE_ARP then arp_ingest frame;;; ret tt
    else if ethertype =? ETHERTYPE_IPV4 then
      if plen <? 20 then ret tt
      else
        let! vi := rd payload 0 in
        let ihl := u8 (Z.land vi 0x0F * 4) in
        if plen <? ihl then ret tt
        else
          let ip_payload := drop (Z.to_nat ihl) payload in
          let ip_payload_len := plen - ihl in
          let! protocol := rd payload 9 in
          if protocol =? 17 then
            if ip_payload_len <? 8 then ret tt
            else
              let! sp := rd16 ip_payload 0 in
              let! dp := rd16 ip_payload 2 in
              if ntohs sp =? 53 then dns_on_udp_packet (ntohs sp) (ntohs dp) (drop 8 ip_payload) else ret tt
          else if protocol =? 1 then rawicmp_on_ipv4_packet payload
          else ret tt
    else ret tt.
Definition rx_dispatch_init : ST net unit := kos_nic_register_rx.
Definition kos_nic_driver_rx (frame : list Z) : ST net unit :=
  let! on := gets rx_on in if on then rx_cb frame else ret tt.

(** [e1000_rx_poll]: the frames that arrived since the last call. *)
Fixpoint deliver (frames : list (list Z)) : ST net unit :=
  match frames with [] => ret tt | f :: fs => kos_nic_driver_rx f;;; deliver fs end.



(** ** The sockets of ping *)

Fixpoint fd_alloc_loop (l : list (option Z)) (dst : Z) (i : Z) : option (list (option Z) * Z) :=
  match l with
  | [] => None
  | None :: l' => Some (Some dst :: l', i + 1)
  | Some e :: l' => match fd_alloc_loop l' dst (i + 1) with Some (l'', fd) => Some (Some e :: l'', fd) | None => None end
  end.
Definition fd_get (fd : Z) : ST net (option Z) :=
  gets (fun s => if (fd <=? 0) || (8 <? fd) then None else default None (fdtab s !! Z.to_nat (fd - 1))).
Definition parse_ipv4_be (s : option (list Z)) : Z := match s with Some s => parse_ipv4_be_str s | None => 0 end.
Definition kos_sock_open_raw_icmp (dst_ip : option (list Z)) : ST net Z :=
  let be := parse_ipv4_be dst_ip in
  if be =? 0 then ret (-1)
  else
    let! tab := gets fdtab in
    match fd_alloc_loop tab be 0 with
    | None => ret (-1)
    | Some (tab', fd) => modify (set_fdtab tab');;; ret fd
    end.
Definition kos_sock_send_icmp_echo (fd ident seq : Z) (payload : option (list Z)) (len : Z) : ST net Z :=
  let! e := fd_get fd in
  match e with
  | None => ret (-1)
  | Some dst => let! ok := rawicmp_send_echo dst ident seq payload len in ret (if ok then len else -1)
  end.
Definition kos_sock_recv_icmp_echo (fd ident seq buflen : Z) : ST net (option (list Z)) :=
  let! e := fd_get fd in
  match e with
  | None => ret None
  | Some _ => let! r := rawicmp_recv_echo ident seq buflen in ret (Some r)
  end.
Definition kos_sock_close (fd : Z) : ST net unit :=
  let! e := fd_get fd in
  match e with
  | None => ret tt
  | Some _ => modify (fun s => set_fdtab (<[Z.to_nat (fd - 1) := None]> (fdtab s)) s)
  end.

(** * Well-formed states *)

Record net_wf (s : net) : Prop := {
  wf_arp : length (arp s) = 8%nat;
  wf_ips : NoDup ((fun e => e.1) <$> omap Datatypes.id (arp s));
  wf_macs : Forall (fun e => length e.2 = 6%nat) (omap Datatypes.id (arp s));
  wf_mac : forall m, mac s = Some m -> length m = 6%nat;
  wf_ring : length (g_queue s) = 4%nat /\ 0 <= g_q_head s < 4 /\ 0 <= g_q_tail s < 4;
  wf_dns : Z.of_nat (length (dns_response s)) <= 512;
  wf_dns_bytes : Forall byte (dns_response s);
}.

(** ** The ARP cache is a bounded map *)

Definition entries (l : list (option (Z * list Z))) : list (Z * list Z) := omap Datatypes.id l.

Lemma entries_some e l : entries (Some e :: l) = e :: entries l.
Proof. done. Qed.
Lemma entries_none l : entries (None :: l) = entries l.
Proof. done. Qed.

Lemma lookup_slots_ok ip l : NoDup (entries l).*1 -> lookup_slots ip l = (list_to_map (entries l) : gmap Z (list Z)) !! ip.
Proof.
  induction l as [|[[i m]|] l IH]; intros Hnd; cbn in *; [done| |by apply IH]. apply NoDup_cons in Hnd as [_ Hnd].
  destruct (Z.eqb_spec i ip) as [->|Hne]; [by rewrite lookup_insert_eq|]. rewrite lookup_insert_ne by done. by apply IH.
Qed.

Lemma replace_slot_ok ip m l : NoDup (entries l).*1 ->
  match replace_slot ip m l with
  | Some l' => length l' = length l /\ (forall e, e ∈ entries l' -> e.2 = m \/ e ∈ entries l) /\ (entries l').*1 = (entries l).*1 /\ ip ∈ (entries l).*1 /\
      (list_to_map (entries l') : gmap Z (list Z)) = <[ip := m]> (list_to_map (entries l))
  | None => ip ∉ (entries l).*1
  end.
Proof.
  induction l as [|[[i m']|] l IH]; cbn [replace_slot]; rewrite ?entries_some, ?entries_none, ?fmap_cons; intros Hnd; [apply not_elem_of_nil| |].
  - apply NoDup_cons in Hnd as [Hi Hnd]. cbn [fst] in *. destruct (Z.eqb_spec i ip) as [->|Hne].
    + rewrite entries_some, fmap_cons. split_and!; [done|intros e [->|?]%elem_of_cons; [by left|right; by right]|done|by left|]. cbn [list_to_map foldr fst snd uncurry]. by rewrite insert_insert_eq.
    + specialize (IH Hnd). destruct (replace_slot ip m l) as [l'|]; cbn [fmap option_fmap option_map].
      * destruct IH as (El & Hv & E1 & Hin & E2). rewrite entries_some, fmap_cons, E1. cbn [length list_to_map foldr fst snd uncurry]. rewrite El.
        split_and!; [done|intros e [->|[?|?]%Hv]%elem_of_cons; [right; by left|by left|right; by right]|done|by right|]. change (foldr _ _ (entries l')) with (list_to_map (entries l') : gmap Z (list Z)). rewrite E2. by apply insert_insert_ne.
      * rewrite not_elem_of_cons. split; [congruence|done].
  - specialize (IH Hnd). destruct (replace_slot ip m l) as [l'|]; cbn [fmap option_fmap option_map]; [|done].
    destruct IH as (El & ?). rewrite entries_none. cbn [length]. by rewrite El.
Qed.

Lemma fill_slot_ok ip m l : NoDup (entries l).*1 -> ip ∉ (entries l).*1 ->
  match fill_slot ip m l with
  | Some l' => length l' = length l /\ NoDup (entries l').*1 /\ (forall e, e ∈ entries l' -> e = (ip, m) \/ e ∈ entries l) /\
      (list_to_map (entries l') : gmap Z (list Z)) = <[ip := m]> (list_to_map (entries l)) /\ (length (entries l) < length l)%nat
  | None => length (entries l) = length l
  end.
Proof.
  induction l as [|[[i m']|] l IH]; cbn [fill_slot]; rewrite ?entries_some, ?entries_none, ?fmap_cons; intros Hnd Hni; [done| |].
  - apply NoDup_cons in Hnd as [Hi Hnd]. cbn [fst] in *. apply not_elem_of_cons in Hni as [Hne Hni]. specialize (IH Hnd Hni).
    destruct (fill_slot ip m l) as [l'|]; cbn [fmap option_fmap option_map length]; [|by rewrite IH].
    destruct IH as (El & Hnd' & Hin & E & Hlt). rewrite entries_some, fmap_cons, El. cbn [fst length]. split_and!; [done| | | |lia].
    + apply NoDup_cons. split; [|done]. intros (e & -> & [->|He]%Hin)%list_elem_of_fmap; [done|]. by apply Hi, list_elem_of_fmap_2.
    + intros j [->|Hj]%elem_of_cons; [right; by left|]. destruct (Hin j Hj); [by left|right; by right].
    + cbn [list_to_map foldr fst snd uncurry]. change (foldr _ _ (entries l')) with (list_to_map (entries l') : gmap Z (list Z)). rewrite E. by apply insert_insert_ne.
  - split_and!; [done|by apply NoDup_cons|intros j [->|]%elem_of_cons; [by left|by right]|done|].
    assert (H : forall k, (length (entries k) <= length k)%nat) by (induction k as [|[]]; rewrite ?entries_some, ?entries_none; cbn [length]; [done|lia..]). specialize (H l). cbn [length]. lia.
Qed.

Definition arp_map (s : net) : gmap Z (list Z) := list_to_map (entries (arp s)).

Lemma arp_map_size s : net_wf s -> size (arp_map s) = length (entries (arp s)).
Proof. intros Hwf. unfold arp_map. rewrite <-(length_fmap fst (entries (arp s))). rewrite <-size_dom, dom_list_to_map_L, size_list_to_set by apply Hwf. done. Qed.

Lemma arp_update_ok s ip m : net_wf s -> length m = 6%nat ->
  exists l, arp_cache_update ip m s = Some (tt, set_arp l s) /\ net_wf (set_arp l s) /\
    arp_map (set_arp l s) = (if decide (ip ∈ dom (arp_map s) \/ (size (arp_map s) < 8)%nat) then <[ip := m]> (arp_map s) else arp_map s).
Proof.
  intros Hwf Hm. pose proof Hwf as [H8 Hnd Hms Hmac Hr Hd Hdb].
  rewrite (arp_map_size s Hwf). assert (Hdom : ip ∈ dom (arp_map s) <-> ip ∈ (entries (arp s)).*1) by (unfold arp_map; rewrite dom_list_to_map_L, elem_of_list_to_set; done).
  assert (Hvals : forall l, (forall e, e ∈ entries l -> e.2 = m \/ e ∈ entries (arp s)) -> Forall (fun e => length e.2 = 6%nat) (entries l)).
  { intros l Hl. apply Forall_forall. intros e [->|He]%Hl; [done|]. by apply (proj1 (Forall_forall _ _) Hms). }
  unfold arp_cache_update, modify. pose proof (replace_slot_ok ip m (arp s) Hnd) as Hrp. destruct (replace_slot ip m (arp s)) as [l|].
  - destruct Hrp as (El & Hv & E1 & Hin & E2). rewrite decide_True by (left; by apply Hdom). exists l. split; [done|]. split; [|done].
    split; try done; cbn [arp set_arp]; [by rewrite El| |by apply Hvals]. change (NoDup (entries l).*1). by rewrite E1.
  - pose proof (fill_slot_ok ip m (arp s) Hnd Hrp) as Hfl. destruct (fill_slot ip m (arp s)) as [l|].
    + destruct Hfl as (El & Hnd' & Hv & E & Hlt). rewrite decide_True by (right; lia). exists l. split; [done|]. split; [|done]. split; try done; cbn [arp set_arp]; [by rewrite El|]. apply Hvals. intros e [->|]%Hv; [by left|by right].
    + exists (arp s). split; [by destruct s|]. split; [by destruct s|]. rewrite decide_False; [by destruct s|]. intros [Hin|Hlt]; [by apply Hdom in Hin|lia].
Qed.

(** the ARP cache implements a finite map of at most 8 entries: a lookup
    finds the address last stored, an update replaces the entry or adds one
    while there is room, and a full cache ignores new addresses for ever. *)
Theorem arp_cache_refines s ip m : net_wf s -> length m = 6%nat ->
  arp_cache_lookup ip s = Some (arp_map s !! ip, s) /\
  exists s', arp_cache_update ip m s = Some (tt, s') /\ net_wf s' /\
    arp_map s' = (if decide (ip ∈ dom (arp_map s) \/ (size (arp_map s) < 8)%nat) then <[ip := m]> (arp_map s) else arp_map s).
Proof.
  intros Hwf Hm. split; [unfold arp_cache_lookup, gets; rewrite lookup_slots_ok; [done|apply Hwf]|].
  destruct (arp_update_ok s ip m Hwf Hm) as (l & ? & ? & ?). eauto.
Qed.

(** ** The ring of echo replies is a queue of three *)

Fixpoint ring_from (fuel : nat) (q : list EchoReply) (h t : Z) : list EchoReply :=
  if h =? t then []
  else match fuel with
  | O => []
  | S fuel' => match q !! Z.to_nat h with Some e => e :: ring_from fuel' q (Z.land (h + 1) 3) t | None => [] end
  end.
Definition ring (s : net) : list EchoReply := ring_from 4 (g_queue s) (g_q_head s) (g_q_tail s).

(** The first reply that matches and the replies after it. *)
Fixpoint after_match (id seq : Z) (l : list EchoReply) : option (EchoReply * list EchoReply) :=
  match l with
  | [] => None
  | e :: l' => if (e_id e =? id) && (e_seq e =? seq) then Some (e, l') else after_match id seq l'
  end.

Lemma ring_index h : 0 <= h < 4 -> h = 0 \/ h = 1 \/ h = 2 \/ h = 3.
Proof. lia. Qed.

Lemma ring_slots (q : list EchoReply) : length q = 4%nat -> exists a b c d, q = [a; b; c; d].
Proof. destruct q as [|a [|b [|c [|d [|]]]]]; try done. eauto. Qed.

Lemma set_ring_wf q h t s : net_wf s -> length q = 4%nat -> 0 <= h < 4 -> 0 <= t < 4 -> net_wf (set_ring q h t s).
Proof. intros [] ? ? ?. by split. Qed.

Lemma ring_succ h t : 0 <= h < 4 -> 0 <= t < 4 -> h <> t ->
  0 <= Z.land (h + 1) 3 < 4 /\ (t - Z.land (h + 1) 3) mod 4 = (t - h) mod 4 - 1.
Proof. intros. change 3 with (Z.ones 2). rewrite Z.land_ones by lia. change (2 ^ 2) with 4. zdiv. Qed.

Lemma ring_fuel f g q h t : 0 <= h < 4 -> 0 <= t < 4 -> (t - h) mod 4 <= Z.of_nat f -> (t - h) mod 4 <= Z.of_nat g ->
  ring_from f q h t = ring_from g q h t.
Proof.
  revert g h. induction f as [|f IH]; intros g h Hh Ht Hf Hg; destruct g as [|g]; cbn [ring_from]; destruct (Z.eqb_spec h t); try done; try (exfalso; zdiv).
  destruct (ring_succ h t Hh Ht n) as [Hs Hd]. destruct (q !! Z.to_nat h); [|done]. f_equal. apply IH; [done|done|lia|lia].
Qed.

Lemma recv_ring fuel q h t id seq : length q = 4%nat -> 0 <= h < 4 -> 0 <= t < 4 -> (t - h) mod 4 <= Z.of_nat fuel ->
  match after_match id seq (ring_from fuel q h t) with
  | Some (e, rest) => exists h', recv_loop fuel q t id seq h = Some (e, h') /\ 0 <= h' < 4 /\ ring_from 4 q h' t = rest
  | None => recv_loop fuel q t id seq h = None
  end.
Proof.
  intros Hq. revert h. induction fuel as [|fuel IH]; intros h Hh Ht Hf; cbn [ring_from recv_loop]; destruct (Z.eqb_spec h t) as [|Hne]; try done.
  destruct (ring_succ h t Hh Ht Hne) as [Hs Hd]. destruct (q !! Z.to_nat h) as [e|] eqn:E; [|done]. cbn [after_match].
  destruct ((e_id e =? id) && (e_seq e =? seq)); [|apply IH; [done|done|lia]].
  eexists. split; [reflexivity|]. split; [done|]. apply (ring_fuel 4 fuel); try done; [|lia]. zdiv.
Qed.

(** the ring keeps the last three echo replies in order; receiving returns
    the oldest one with the identifier and sequence number, cut to the buffer,
    and throws away every reply that came before it. *)
Theorem ring_refines s id seq data buf_len : net_wf s ->
  (exists s', queue_reply id seq data s = Some (tt, s') /\ net_wf s' /\
     ring s' = (if decide (length (ring s) = 3%nat) then drop 1 (ring s) else ring s) ++ [mk_reply id seq (take 128 data)]) /\
  (exists r s', rawicmp_recv_echo id seq buf_len s = Some (r, s') /\ net_wf s' /\
     match after_match id seq (ring s) with
     | Some (e, rest) => r = take (Z.to_nat buf_len) (e_buf e) /\ ring s' = rest
     | None => r = [] /\ s' = s
     end).
Proof.
  intros Hwf. pose proof (wf_ring s Hwf) as (Hq & Hh & Ht). unfold queue_reply, rawicmp_recv_echo, ring.
  destruct (ring_slots _ Hq) as (a & b & c & d & Eq). split.
  - rewrite gets_step. unfold modify, Datatypes.id. eexists. split; [reflexivity|]. rewrite Eq.
    split; [apply set_ring_wf; [done|by rewrite length_insert| |]|]; destruct (ring_index _ Hh) as [Eh|[Eh|[Eh|Eh]]], (ring_index _ Ht) as [Et|[Et|[Et|Et]]];
      rewrite ?Eh, ?Et; try (cbn; lia); cbn [set_ring g_queue g_q_head g_q_tail]; by vm_compute.
  - rewrite gets_step. unfold Datatypes.id. pose proof (recv_ring 4 (g_queue s) (g_q_head s) (g_q_tail s) id seq Hq Hh Ht ltac:(zdiv)) as Hrv.
    destruct (after_match id seq _) as [[e rest]|].
    + destruct Hrv as (h' & -> & Hh' & Er). rewrite modify_step. eexists _, _. split; [reflexivity|]. split; [by apply set_ring_wf|done].
    + rewrite Hrv. by eexists _, _.
Qed.

(** ** Received frames *)

Lemma rd_bytes_in n p i s : 0 <= i -> i + Z.of_nat n <= Z.of_nat (length p) -> Forall byte p ->
  exists bs, rd_bytes n p i s = Some (bs, s) /\ length bs = n /\ Forall byte bs.
Proof.
  revert i. induction n as [|n IH]; intros i Hi Hl Hb; cbn [rd_bytes]; [by exists []|].
  destruct (rd_in p i s ltac:(lia)) as (x & Hx & E). destruct (IH (i + 1) ltac:(lia) ltac:(lia) Hb) as (bs & E' & <- & Hbs).
  rewrite (bind_step _ _ _ _ _ E), (bind_step _ _ _ _ _ E'). eexists. split; [reflexivity|]. split; [done|].
  constructor; [by apply (Forall_lookup_1 _ _ _ _ Hb Hx)|done].
Qed.

(** The parts of the state that receiving leaves alone. *)
Definition same_config (s s' : net) : Prop :=
  mac s' = mac s /\ rx_on s' = rx_on s /\ sent s' = sent s /\ cfg s' = cfg s /\ dns_id s' = dns_id s /\
  query_id_counter s' = query_id_counter s /\ fdtab s' = fdtab s /\ incoming s' = incoming s.

Lemma arp_ingest_safe frame s : Forall byte frame -> net_wf s ->
  exists b l, arp_ingest frame s = Some (b, set_arp l s) /\ net_wf (set_arp l s).
Proof.
  intros Hb Hwf. assert (Hsame : set_arp (arp s) s = s) by by destruct s. unfold arp_ingest.
  destruct (Z.ltb_spec (Z.of_nat (length frame)) (14 + 28)); [exists false, (arp s); by rewrite Hsame|].
  destruct (rd16_in frame 12 s ltac:(lia) ltac:(lia)) as (ty & E1). rewrite (bind_step _ _ _ _ _ E1).
  destruct (ty =? ETHERTYPE_ARP); cbn [negb]; [|exists false, (arp s); by rewrite Hsame].
  destruct (rd16_in frame (14 + 6) s ltac:(lia) ltac:(lia)) as (op & E2). rewrite (bind_step _ _ _ _ _ E2).
  destruct (op =? 2); cbn [negb]; [|exists false, (arp s); by rewrite Hsame].
  destruct (rd_bytes_in 4 frame (14 + 14) s ltac:(lia) ltac:(lia) Hb) as (sip & E3 & _).
  destruct (rd_bytes_in 6 frame (14 + 8) s ltac:(lia) ltac:(lia) Hb) as (sha & E4 & Hsha & _).
  rewrite (bind_step _ _ _ _ _ E3), (bind_step _ _ _ _ _ E4).
  destruct (arp_update_ok s (quad sip) sha Hwf Hsha) as (l & E5 & Hwf' & _). rewrite (bind_step _ _ _ _ _ E5). by exists true, l.
Qed.

Lemma queue_reply_safe id seq data s : net_wf s ->
  exists q h t, queue_reply id seq data s = Some (tt, set_ring q h t s) /\ net_wf (set_ring q h t s).
Proof.
  intros Hwf. pose proof (wf_ring s Hwf) as (Hq & Hh & Ht). unfold queue_reply. rewrite gets_step. unfold modify, Datatypes.id.
  eexists _, _, _. split; [reflexivity|]. assert (Hl : forall x, 0 <= Z.land x 3 < 4) by (intros x; change 3 with (Z.ones 2); rewrite Z.land_ones by lia; apply Z.mod_pos_bound; lia).
  apply set_ring_wf; [done|by rewrite length_insert|case_match; [apply Hl|done]|apply Hl].
Qed.

Lemma rawicmp_safe data s : Forall byte data -> net_wf s ->
  exists q h t, rawicmp_on_ipv4_packet data s = Some (tt, set_ring q h t s) /\ net_wf (set_ring q h t s).
Proof.
  intros Hb Hwf. assert (Hsame : set_ring (g_queue s) (g_q_head s) (g_q_tail s) s = s) by by destruct s.
  assert (Hret : exists q h t, Some (tt, s) = Some (tt, set_ring q h t s) /\ net_wf (set_ring q h t s)).
  { exists (g_queue s), (g_q_head s), (g_q_tail s). by rewrite Hsame. }
  unfold rawicmp_on_ipv4_packet. cbn zeta. destruct (Z.ltb_spec (Z.of_nat (length data)) 20); [done|].
  destruct (rd_in data 0 s ltac:(lia)) as (vi & _ & E0). rewrite (bind_step _ _ _ _ _ E0). set (ihl := u8 _).
  pose proof (u8_range (Z.land vi 0x0F * 4)) as Hr. fold ihl in Hr.
  destruct (Z.ltb_spec ihl 20), (Z.ltb_spec (Z.of_nat (length data)) ihl); try done. cbn [orb].
  destruct (rd_in data 9 s ltac:(lia)) as (pr & _ & E1). rewrite (bind_step _ _ _ _ _ E1). destruct (negb (pr =? 1)); [done|].
  destruct (Z.ltb_spec (Z.of_nat (length data) - ihl) 8); [done|].
  destruct (rd_in data ihl s ltac:(lia)) as (ty & _ & E2). rewrite (bind_step _ _ _ _ _ E2). destruct (negb (ty =? 0)); [done|].
  destruct (rd16be_in data (ihl + 4) s ltac:(lia) ltac:(lia)) as (i & E3 & _), (rd16be_in data (ihl + 6) s ltac:(lia) ltac:(lia)) as (sq & E4 & _).
  rewrite (bind_step _ _ _ _ _ E3), (bind_step _ _ _ _ _ E4). set (pl := if 128 <? _ then _ else _).
  assert (Hpl : 0 <= pl <= Z.of_nat (length data) - ihl - 8) by (subst pl; case_zb; lia).
  destruct (rd_bytes_in (Z.to_nat pl) data (ihl + 8) s ltac:(lia) ltac:(lia) Hb) as (pay & E5 & _). rewrite (bind_step _ _ _ _ _ E5).
  by apply queue_reply_safe.
Qed.

Lemma dns_store_safe sp dp data s : Forall byte data -> net_wf s ->
  exists r ready, dns_on_udp_packet sp dp data s = Some (tt, set_dns r ready (dns_id s) (query_id_counter s) s) /\
    net_wf (set_dns r ready (dns_id s) (query_id_counter s) s).
Proof.
  intros Hb Hwf. unfold dns_on_udp_packet. destruct ((dp =? 53) && (Z.of_nat (length data) <=? 512)) eqn:E.
  - apply andb_true_iff in E as [_ E%Z.leb_le]. exists data, true. split; [done|]. destruct Hwf. by split.
  - exists (dns_response s), (dns_ready s). by destruct s.
Qed.

Lemma rx_cb_safe frame s : Forall byte frame -> net_wf s ->
  exists s', rx_cb frame s = Some (tt, s') /\ net_wf s' /\ same_config s s'.
Proof.
  intros Hb Hwf. assert (Hret : exists s', Some (tt, s) = Some (tt, s') /\ net_wf s' /\ same_config s s') by (by exists s).
  unfold rx_cb. cbn zeta. destruct (Z.ltb_spec (Z.of_nat (length frame)) 14); [done|].
  destruct (rd16_in frame 12 s ltac:(lia) ltac:(lia)) as (ty & E0). rewrite (bind_step _ _ _ _ _ E0). destruct (ty =? ETHERTYPE_ARP).
  { destruct (arp_ingest_safe frame s Hb Hwf) as (b & l & E & Hwf'). rewrite (bind_step _ _ _ _ _ E). by eexists. }
  destruct (ty =? ETHERTYPE_IPV4); [|done]. set (payload := drop 14 frame).
  assert (Hpl : Z.of_nat (length payload) = Z.of_nat (length frame) - 14) by (subst payload; rewrite length_drop; lia). rewrite <-Hpl.
  assert (Hpb : Forall byte payload) by by apply Forall_drop. destruct (Z.ltb_spec (Z.of_nat (length payload)) 20); [done|].
  destruct (rd_in payload 0 s ltac:(lia)) as (vi & _ & E1). rewrite (bind_step _ _ _ _ _ E1). set (ihl := u8 _).
  pose proof (u8_range (Z.land vi 0x0F * 4)) as Hr. fold ihl in Hr. destruct (Z.ltb_spec (Z.of_nat (length payload)) ihl); [done|].
  destruct (rd_in payload 9 s ltac:(lia)) as (pr & _ & E2). rewrite (bind_step _ _ _ _ _ E2). destruct (pr =? 17).
  - destruct (Z.ltb_spec (Z.of_nat (length payload) - ihl) 8); [done|]. set (ipp := drop (Z.to_nat ihl) payload).
    assert (Hil : Z.of_nat (length ipp) = Z.of_nat (length payload) - ihl) by (subst ipp; rewrite length_drop; lia).
    destruct (rd16_in ipp 0 s ltac:(lia) ltac:(lia)) as (sp & E3), (rd16_in ipp 2 s ltac:(lia) ltac:(lia)) as (dp & E4).
    rewrite (bind_step _ _ _ _ _ E3), (bind_step _ _ _ _ _ E4). destruct (ntohs sp =? 53); [|done].
    destruct (dns_store_safe (ntohs sp) (ntohs dp) (drop 8 ipp) s ltac:(by do 2 apply Forall_drop) Hwf) as (r & ready & E & Hwf'). by eexists.
  - destruct (pr =? 1); [|done]. destruct (rawicmp_safe payload s Hpb Hwf) as (q & h & t & E & Hwf'). by eexists.
Qed.

Lemma same_config_trans s1 s2 s3 : same_config s1 s2 -> same_config s2 s3 -> same_config s1 s3.
Proof. unfold same_config. intuition congruence. Qed.

Lemma deliver_ok frames s : Forall (Forall byte) frames -> net_wf s ->
  exists s', deliver frames s = Some (tt, s') /\ net_wf s' /\ same_config s s'.
Proof.
  intros HF. revert s. induction HF as [|f fs Hf HF IH]; intros s Hwf; cbn [deliver]; [by exists s|].
  unfold kos_nic_driver_rx. rewrite bind_assoc, gets_step. destruct (rx_on s).
  - destruct (rx_cb_safe f s Hf Hwf) as (s1 & E & Hwf1 & Hs1). rewrite (bind_step _ _ _ _ _ E).
    destruct (IH s1 Hwf1) as (s2 & E2 & Hwf2 & Hs2). exists s2. split_and!; [done|done|by eapply same_config_trans].
  - rewrite ret_step. by apply IH.
Qed.

(** the stack compares the type of a frame without swapping its bytes: a
    frame whose type is ARP or IPv4 in the network's byte order is dropped. *)
Theorem rx_cb_drops_network_order frame s ty :
  ty = ETHERTYPE_ARP \/ ty = ETHERTYPE_IPV4 -> (14 <= length frame)%nat ->
  frame !! 12%nat = Some (u8 (Z.shiftr ty 8)) -> frame !! 13%nat = Some (u8 ty) -> rx_cb frame s = Some (tt, s).
Proof.
  intros Ht Hl H1 H2. unfold rx_cb. cbn zeta. destruct (Z.ltb_spec (Z.of_nat (length frame)) 14); [lia|].
  unfold rd16. rewrite bind_assoc, (bind_step _ _ _ _ _ (rd_at frame 12 _ s H1)), bind_assoc, (bind_step _ _ _ _ _ (rd_at frame 13 _ s H2)), ret_step.
  by destruct Ht as [-> | ->].
Qed.

(** ** Sent frames *)

Lemma send_frame_ok frame s :
  exists n l, kos_sys_syscall_send_ethernet_frame frame s = Some (n, set_sent l s) /\
    (forall f, tx s = Some f -> f frame = true -> 0 < Z.of_nat (length frame) <= 1500 -> n = Z.of_nat (length frame) /\ l = sent s ++ [frame]).
Proof.
  assert (Hsame : s = set_sent (sent s) s) by by destruct s.
  unfold kos_sys_syscall_send_ethernet_frame. cbn zeta. destruct (_ || _) eqn:E.
  { exists (-1), (sent s). split; [by rewrite <-Hsame|]. intros f _ _ ?. apply orb_true_iff in E as [?%Z.eqb_eq|?%Z.ltb_lt]; lia. }
  unfold kos_nic_send_frame. rewrite bind_assoc, gets_step. destruct (tx s) as [f|] eqn:Ef.
  - rewrite bind_assoc, modify_step, ret_step. eexists _, _. split; [reflexivity|]. by intros ? [= <-] ->.
  - rewrite ret_step. exists (-1), (sent s). split; [by rewrite <-Hsame|done].
Qed.

Lemma arp_resolve_ok ip s : net_wf s ->
  exists hm l, arp_resolve ip s = Some (hm, set_sent l s) /\ (forall m, hm = Some m -> length m = 6%nat).
Proof.
  intros Hwf. unfold arp_resolve, arp_cache_lookup. rewrite gets_step. destruct (lookup_slots ip (arp s)) as [m|] eqn:E.
  - exists (Some m), (sent s). split; [by destruct s|]. intros ? [= <-]. pose proof (wf_macs s Hwf) as Hms. clear Hwf. revert E Hms.
    change (omap Datatypes.id (arp s)) with (entries (arp s)).
    induction (arp s) as [|[[i m']|] l IH]; cbn [lookup_slots]; rewrite ?entries_some, ?entries_none; intros E Hms; [done| |by apply IH].
    apply Forall_cons in Hms as [? ?]. destruct (i =? ip); [by injection E as <-|by apply IH].
  - unfold arp_send_request, kos_sys_syscall_get_mac_address, kos_nic_get_mac, kos_sys_syscall_get_net_config, GetConfig.
    rewrite bind_assoc, gets_step. cbn zeta. rewrite bind_assoc, bind_assoc, gets_step, ret_step. cbn zeta. rewrite bind_assoc.
    set (frame := _ ++ _). destruct (send_frame_ok frame s) as (n & l & E1 & _). rewrite (bind_step _ _ _ _ _ E1). by exists None, l.
Qed.

Lemma six (m : list Z) : length m = 6%nat -> exists a b c d e f, m = [a; b; c; d; e; f].
Proof. destruct m as [|a [|b [|c [|d [|e [|f [|]]]]]]]; try done. eauto 10. Qed.

(** A UDP packet of the stack, received by the stack. *)
Lemma rx_own_udp dst src srcip dstip ttl sp dp p s : length dst = 6%nat -> length src = 6%nat -> 0 <= sp < 65536 -> 0 <= dp < 65536 ->
  let udp := udp_header sp dp (8 + Z.of_nat (length p)) ++ p in
  let total := 20 + Z.of_nat (length udp) in
  rx_cb (eth_header dst src ETHERTYPE_IPV4 ++ ipv4_header total srcip dstip 17 ttl (ip_checksum (ipv4_header total srcip dstip 17 ttl 0)) ++ udp) s =
    (if sp =? 53 then dns_on_udp_packet sp dp p else ret tt) s.
Proof.
  intros (a & b & c & d & e & f & ->)%six (a' & b' & c' & d' & e' & f' & ->)%six Hsp0 Hdp udp total.
  set (csum := ip_checksum _). set (h := ipv4_header total srcip dstip 17 ttl csum).
  set (frame := eth_header _ _ _ ++ h ++ udp). unfold rx_cb. cbn zeta.
  assert (Hlen : Z.of_nat (length frame) = 42 + Z.of_nat (length p)) by (subst frame h udp; rewrite !length_app; cbn; lia).
  rewrite Hlen. destruct (Z.ltb_spec (42 + Z.of_nat (length p)) 14); [lia|].
  assert (Hrd16 : forall (q : list Z) k x y B (g : Z -> ST net B), q !! k = Some x -> q !! (k + 1)%nat = Some y -> bind (rd16 q (Z.of_nat k)) g s = g (x + 256 * y) s).
  { intros q k x y B g H1 H2. unfold rd16. rewrite bind_assoc, (bind_step _ _ _ _ _ (rd_at q k x s H1)), bind_assoc.
    replace (Z.of_nat k + 1) with (Z.of_nat (k + 1)) by lia. by rewrite (bind_step _ _ _ _ _ (rd_at q (k + 1) y s H2)), ret_step. }
  change 12 with (Z.of_nat 12). rewrite (Hrd16 frame 12%nat 0 8); [|done|done]. change (0 + 256 * 8 =? ETHERTYPE_ARP) with false. change (0 + 256 * 8 =? ETHERTYPE_IPV4) with true. cbv iota.
  change (drop 14 frame) with (h ++ udp). destruct (Z.ltb_spec (42 + Z.of_nat (length p) - 14) 20); [lia|].
  assert (Hvi : rd (h ++ udp) 0 s = Some (69, s)) by exact (rd_at (h ++ udp) 0 69 s eq_refl). rewrite (bind_step _ _ _ _ _ Hvi). change (u8 (Z.land 69 15 * 4)) with 20.
  destruct (Z.ltb_spec (42 + Z.of_nat (length p) - 14) 20); [lia|].
  assert (H9 : rd (h ++ udp) 9 s = Some (17, s)) by exact (rd_at (h ++ udp) 9 17 s eq_refl). rewrite (bind_step _ _ _ _ _ H9). cbn [Z.eqb Pos.eqb].
  destruct (Z.ltb_spec (42 + Z.of_nat (length p) - 14 - 20) 8); [lia|]. change (drop (Z.to_nat 20) (h ++ udp)) with udp.
  pose proof (fun B g => Hrd16 udp 0%nat (u8 (htons sp)) (u8 (Z.shiftr (htons sp) 8)) B g eq_refl eq_refl) as Hsp.
  pose proof (fun B g => Hrd16 udp 2%nat (u8 (htons dp)) (u8 (Z.shiftr (htons dp) 8)) B g eq_refl eq_refl) as Hdp'.
  change (Z.of_nat 0) with 0 in Hsp. change (Z.of_nat 2) with 2 in Hdp'. rewrite Hsp, Hdp', !le16_value by by apply htons_range.
  rewrite !ntohs_htons by done. done.
Qed.

(** C20: What the stack sends, it receives.  With an address configured and a
    driver that takes frames, a UDP packet of 1 to 996 bytes is sent, between
    any ports, and a longer one is refused.  The frame given to the driver,
    handed back to the stack, delivers the bytes to the DNS client if both
    ports are 53 and they are at most 512, and has no effect otherwise. *)
Theorem udp_loopback s f p src_ip dst sp dp :
  net_wf s -> tx s = Some f -> (forall frame, f frame = true) -> p <> [] -> Z.of_nat (length p) < 2 ^ 31 -> 0 <= sp < 65536 -> 0 <= dp < 65536 ->
  parse_lenient (strncpy15 (cfg_ip (cfg s))) = Some src_ip ->
  if 996 <? Z.of_nat (length p) then send_udp_packet (Some p) dst sp dp s = Some (false, s)
  else exists l frame, let s1 := set_sent (l ++ [frame]) s in
    send_udp_packet (Some p) dst sp dp s = Some (true, s1) /\
    rx_cb frame s1 = Some (tt, if (sp =? 53) && (dp =? 53) && (Z.of_nat (length p) <=? 512) then set_dns p true (dns_id s) (query_id_counter s) s1 else s1).
Proof.
  intros Hwf Htx Hf Hp Hlen Hsp Hdp Hip. unfold send_udp_packet. destruct p as [|x p0]; [done|]. set (p := x :: p0) in *.
  unfold kos_sys_syscall_get_net_config, GetConfig. rewrite bind_assoc, gets_step, ret_step. cbn [cfg_ip]. rewrite Hip.
  unfold build_udp_packet. rewrite u32_small by lia. set (udp := udp_header _ _ _ ++ p).
  assert (Hul : Z.of_nat (length udp) = 8 + Z.of_nat (length p)) by (subst udp; rewrite length_app; cbn; lia).
  destruct (Z.ltb_spec 1024 (8 + Z.of_nat (length p))); [by rewrite (proj2 (Z.ltb_lt 996 _)) by lia|].
  unfold build_ipv4_packet. rewrite (u32_small (20 + _)) by lia. destruct (Z.ltb_spec 1024 (20 + Z.of_nat (length udp))); [by rewrite (proj2 (Z.ltb_lt 996 _)) by lia|].
  rewrite (proj2 (Z.ltb_ge 996 _)) by lia. set (ipb := ipv4_header _ _ _ _ _ _ ++ udp).
  assert (Hil : Z.of_nat (length ipb) = 20 + Z.of_nat (length udp)) by (subst ipb; rewrite length_app; cbn; lia).
  destruct (arp_resolve_ok dst s Hwf) as (hm & l & E & Hm). rewrite (bind_step _ _ _ _ _ E). destruct (Z.ltb_spec 1500 (Z.of_nat (length ipb) + 14)); [lia|].
  unfold kos_sys_syscall_get_mac_address, kos_nic_get_mac. rewrite gets_step. set (s0 := set_sent l s).
  set (smac := default (zeros 6) (mac s0)). assert (Hsm : length smac = 6%nat) by (subst smac s0; cbn; destruct (mac s) eqn:Em; [by apply (wf_mac s Hwf)|done]).
  assert (Hdm : length (default (replicate 6 255) hm) = 6%nat) by (destruct hm; [by apply Hm|done]).
  set (frame := ip_frame hm smac ipb).
  assert (Hfl : Z.of_nat (length frame) = 14 + Z.of_nat (length ipb)) by (subst frame; unfold ip_frame, eth_header; rewrite !length_app, Hdm, Hsm; cbn; lia).
  destruct (send_frame_ok frame s0) as (n & l' & E' & Hs'). destruct (Hs' f Htx (Hf frame) ltac:(lia)) as [-> ->].
  rewrite (bind_step _ _ _ _ _ E'). exists l, frame. split; [unfold ret; by rewrite (proj2 (Z.ltb_lt 0 _)) by lia|].
  unfold frame, ip_frame, ipb, udp. rewrite rx_own_udp by done. unfold dns_on_udp_packet. destruct (sp =? 53); [|done]. cbn [andb]. destruct (_ && _); done.
Qed.

(** ** Configuration *)

(** an address of 15 characters does not survive [SetConfig]: the last
    digit is cut off, and the stack sends from another address. *)
Theorem SetConfig_truncates a b c d mask gw dns s :
  100 <= a < 256 -> 100 <= b < 256 -> 100 <= c < 256 -> 100 <= d < 256 ->
  exists s', SetConfig (mk_cfg (dotted a b c d) mask gw dns) s = Some (tt, s') /\
    exists cf, kos_sys_syscall_get_net_config s' = Some (cf, s') /\ parse_lenient (cfg_ip cf) = Some (quad [a; b; c; d / 10]).
Proof.
  intros Ha Hb Hc Hd. eexists. split; [reflexivity|]. eexists. split; [reflexivity|]. cbn [cfg set_cfg cfg_ip].
  assert (E : forall n, 100 <= n < 256 -> digits n = [48 + n / 100; 48 + n / 10 mod 10; 48 + n mod 10]).
  { intros n Hn. unfold digits. by rewrite (proj2 (Z.ltb_ge n 10)), (proj2 (Z.ltb_ge n 100)) by lia. }
  assert (E2 : digits (d / 10) = [48 + d / 100; 48 + d / 10 mod 10]).
  { unfold digits. assert (10 <= d / 10 < 100) by zdiv. rewrite (proj2 (Z.ltb_ge (d / 10) 10)), (proj2 (Z.ltb_lt (d / 10) 100)) by lia. by rewrite Z.div_div by lia. }
  assert (Hs : strncpy15 (strncpy15 (dotted a b c d)) = dotted a b c (d / 10)).
  { unfold dotted. by rewrite E2, !(E _ Ha), !(E _ Hb), !(E _ Hc), !(E _ Hd). }
  rewrite Hs. apply lenient_dotted; cbn beta; try lia. zdiv.
Qed.

(** ** Resolving a name *)

(** C18: receiving is memory safe: on any sequence of frames, however malformed
    their headers, the stack returns without a read outside a frame, keeps its
    caches well-formed and changes nothing but the ARP cache, the ring of echo
    replies and the DNS response. *)
Theorem deliver_safe frames s : Forall (Forall byte) frames -> net_wf s ->
  exists s', deliver frames s = Some (tt, s') /\ net_wf s' /\ same_config s s'.
Proof. apply deliver_ok. Qed.








(** * Witnesses *)

Definition demo_net : net :=
  mk_net (replicate 8 None) None true (Some (fun _ => true)) [] (mk_cfg (dotted 10 0 2 15) [] [] (dotted 10 0 2 3))
    (replicate 4 (mk_reply 0 0 [])) 0 0 [] false 0 1 (replicate 8 None) [].
Lemma demo_net_wf : net_wf demo_net.
Proof. split; [done|constructor|constructor|done|cbn; lia|cbn; lia|constructor]. Qed.

Lemma arp_cache_refines_witness : exists s', arp_cache_update 5 [1; 2; 3; 4; 5; 6] demo_net = Some (tt, s') /\ arp_map s' = {[5 := [1; 2; 3; 4; 5; 6]]}.
Proof.
  destruct (arp_cache_refines demo_net 5 [1; 2; 3; 4; 5; 6] demo_net_wf eq_refl) as (_ & s' & E & _ & Hm).
  exists s'. split; [exact E|]. rewrite Hm. vm_compute. reflexivity.
Defined.

Lemma ring_refines_witness : exists s', queue_reply 1 2 [7] demo_net = Some (tt, s') /\ ring s' = [mk_reply 1 2 [7]].
Proof. destruct (ring_refines demo_net 1 2 [7] 8 demo_net_wf) as [(s' & E & _ & Hr) _]. exists s'. split; [exact E|]. rewrite Hr. reflexivity. Defined.

(** A frame of IPv4 with a header length of 60 and nothing behind it. *)
Lemma deliver_safe_witness : exists s', deliver [replicate 12 0 ++ [0; 8; 0x4F] ++ replicate 20 1] demo_net = Some (tt, s').
Proof.
  destruct (deliver_safe [replicate 12 0 ++ [0; 8; 0x4F] ++ replicate 20 1] demo_net) as (s' & E & _); [|exact demo_net_wf|exists s'; exact E].
  constructor; [|constructor]. repeat constructor; lia.
Defined.

Lemma rx_cb_drops_network_order_witness : rx_cb (replicate 12 0 ++ [8; 6] ++ replicate 28 0) demo_net = Some (tt, demo_net).
Proof. apply (rx_cb_drops_network_order _ _ ETHERTYPE_ARP); [by left|cbn; lia|reflexivity|reflexivity]. Defined.

Lemma udp_loopback_witness :
  exists l frame, let s1 := set_sent (l ++ [frame]) demo_net in
    send_udp_packet (Some [1; 2]) 7 53 53 demo_net = Some (true, s1) /\ rx_cb frame s1 = Some (tt, set_dns [1; 2] true 0 1 s1).
Proof.
  apply (udp_loopback demo_net (fun _ => true) [1; 2] 0x0A00020F 7 53 53);
    [exact demo_net_wf|reflexivity|reflexivity|discriminate|cbn; lia|lia|lia|reflexivity].
Defined.

(** 192.168.100.100 becomes 192.168.100.10. *)
Lemma SetConfig_truncates_witness :
  exists s', SetConfig (mk_cfg (dotted 192 168 100 100) [] [] []) demo_net = Some (tt, s') /\
    exists cf, kos_sys_syscall_get_net_config s' = Some (cf, s') /\ parse_lenient (cfg_ip cf) = Some (quad [192; 168; 100; 10]).
Proof. apply (SetConfig_truncates 192 168 100 100 [] [] [] demo_net); lia. Defined.

