(* ===== verification/Disk.v ===== *)
(** Block devices and the byte-level parts the FAT file systems share: the
    interface of [src/kernel/include/drivers/blockdevice.hpp], directory entries
    of 32 bytes, short names and the components of a path. *)
From S2P Require Import Prelude NetPacket.

(** [if (!m) return e]. *)
Notation "'let?' x := m 'or' e 'in' k" := (bind m (fun r => match r with Some x => k | None => ret e end))
  (at level 10, x name, m at level 100, e at level 9, k at level 200) : kos_scope.
Notation "'check' m 'or' e 'in' k" := (bind m (fun ok : bool => if ok then k else ret e))
  (at level 10, m at level 9, e at level 9, k at level 200) : kos_scope.

(** ** Block devices *)

(** [ReadSectors] and [WriteSectors]: the bytes read, or [None] for failure; the
    result of a write and the device after it. *)
Class BlockDevice (D : Type) := {
  dev_read : D -> Z -> Z -> option (list Z);
  dev_write : D -> Z -> Z -> list Z -> bool * D;
}.

Fixpoint sectors (f : Z -> list Z) (lba : Z) (n : nat) : list Z :=
  match n with O => [] | S n' => f lba ++ sectors f (lba + 1) n' end.

(** A device that works: a transfer of 1 to 255 sectors within its capacity
    succeeds, and a sector reads back what was last written to it. *)
Class WorkingDevice (D : Type) `{BlockDevice D} := {
  capacity : Z;
  sector : D -> Z -> list Z;
  sector_length : forall d lba, length (sector d lba) = 512%nat;
  sector_bytes : forall d lba, Forall byte (sector d lba);
  dev_read_ok : forall d lba n, 0 <= lba -> lba + n <= capacity -> 1 <= n <= 255 -> dev_read d lba n = Some (sectors (sector d) lba (Z.to_nat n));
  dev_write_ok : forall d lba n buf, 0 <= lba -> lba + n <= capacity -> 1 <= n <= 255 -> Z.of_nat (length buf) = 512 * n -> Forall byte buf ->
    exists d', dev_write d lba n buf = (true, d') /\
      forall l, sector d' l = if decide (lba <= l < lba + n) then take 512 (drop (Z.to_nat (512 * (l - lba))) buf) else sector d l;
}.
Arguments capacity D {_ _}.

(** ** Buffers *)

(** Bytes [bs] stored at [off]. *)
Definition patch (buf : list Z) (off : nat) (bs : list Z) : list Z := take off buf ++ bs ++ drop (off + length bs) buf.
Definition byte_at (buf : list Z) (i : nat) : Z := default 0 (buf !! i).
Definition get16 (buf : list Z) (i : nat) : Z := Z.lor (byte_at buf i) (Z.shiftl (byte_at buf (i + 1)) 8).
Definition get32 (buf : list Z) (i : nat) : Z :=
  Z.lor (Z.lor (Z.lor (byte_at buf i) (Z.shiftl (byte_at buf (i + 1)) 8)) (Z.shiftl (byte_at buf (i + 2)) 16)) (Z.shiftl (byte_at buf (i + 3)) 24).

(** ** Directory entries *)

Inductive scan_result := Found (off : nat) (e : list Z) | EndMark | Exhausted.

(** [n] entries from offset [off]: a first byte 0 ends the directory, deleted
    entries and parts of long names are skipped. *)
Fixpoint scan (n off : nat) (buf : list Z) (P : list Z -> bool) : scan_result :=
  match n with
  | O => Exhausted
  | S n' =>
      let e := take 32 (drop off buf) in
      let first := byte_at e 0 in
      if first =? 0x00 then EndMark
      else if first =? 0xE5 then scan n' (off + 32) buf P
      else if byte_at e 11 =? 0x0F then scan n' (off + 32) buf P
      else if P e then Found off e
      else scan n' (off + 32) buf P
  end.

(** The first entry that is free. *)
Fixpoint free_slot (n off : nat) (buf : list Z) : option nat :=
  match n with
  | O => None
  | S n' => let fb := byte_at buf off in if (fb =? 0x00) || (fb =? 0xE5) then Some off else free_slot n' (off + 32) buf
  end.

Fixpoint until (c : Z) (l : list Z) : list Z :=
  match l with [] => [] | x :: l' => if x =? c then [] else x :: until c l' end.
Definition upper (c : Z) : Z := if (97 <=? c) && (c <=? 122) then c - 32 else c.

(** [NAME.EXT] of an entry, as a C string in upper case. *)
Definition entry_name (e : list Z) : list Z := until 32 (take 8 e).
Definition entry_ext (e : list Z) : list Z := until 32 (take 3 (drop 8 e)).
Definition merged_name (e : list Z) : list Z :=
  upper <$> until 0 (entry_name e ++ (if decide (entry_ext e = []) then [] else 46 :: entry_ext e)).

(** Name, attributes, start cluster and size stored in an entry. *)
Definition write_entry (buf : list Z) (off : nat) (short11 : list Z) (attr startCluster size : Z) : list Z :=
  let buf := patch buf off short11 in
  let buf := patch buf (off + 11) [u8 attr] in
  let buf := patch buf (off + 26) (le16 startCluster) in
  patch buf (off + 28) (le32 size).

(** ** Short names *)

Definition allowed (c : Z) : bool :=
  ((65 <=? c) && (c <=? 90)) || ((48 <=? c) && (c <=? 57)) || (c =? 95) || (c =? 36) || (c =? 126) || (c =? 33).

(** The loop of [PackShortName11]: characters beyond 8 and 3 are dropped; [None]
    is [okIs83 = false]. *)
Fixpoint pack_loop (s name : list Z) (ext : option (list Z)) : option (list Z * list Z) :=
  match s with
  | [] => Some (name, default [] ext)
  | ch :: s' =>
      if ch =? 46 then match ext with Some _ => None | None => pack_loop s' name (Some []) end
      else
        let c := upper ch in
        if negb (allowed c) then None
        else match ext with
        | None => pack_loop s' (if (length name <? 8)%nat then name ++ [c] else name) None
        | Some e => pack_loop s' name (Some (if (length e <? 3)%nat then e ++ [c] else e))
        end
  end.
Definition pad (n : nat) (l : list Z) : list Z := l ++ replicate (n - length l) 32.
Definition PackShortName11 (name83 : list Z) : option (list Z) :=
  match pack_loop name83 [] None with Some (name, ext) => Some (pad 8 name ++ pad 3 ext) | None => None end.

(** ** Fields of an entry *)

Definition has_name (name : list Z) (e : list Z) : bool := bool_decide (merged_name e = name).
Definition has_short (short11 : list Z) (e : list Z) : bool := bool_decide (take 11 e = short11).
Definition entry_attr (e : list Z) : Z := byte_at e 11.
Definition entry_size (e : list Z) : Z := get32 e 28.
Definition is_dir (e : list Z) : bool := negb (Z.land (entry_attr e) 0x10 =? 0).

(** A new sector of zeros, and the names of the entries [.] and [..]. *)
Definition zero_sector : list Z := replicate 512 0.
Definition dot_name (n : nat) : list Z := replicate n 46 ++ replicate (11 - n) 32.

(** A cluster's worth of [data], padded with zeros. *)
Definition chunk_of (bpc : Z) (data : list Z) : list Z :=
  take (Z.to_nat bpc) data ++ replicate (Z.to_nat bpc - length data) 0.

(** ** Enumeration *)

Record DirEntry := mk_direntry { d_name : list Z; d_size : Z; d_attr : Z; d_isDir : bool }.
Definition dir_entry (e : list Z) : DirEntry :=
  mk_direntry (until 0 (entry_name e ++ (if is_dir e || bool_decide (entry_ext e = []) then [] else 46 :: entry_ext e)))
    (entry_size e) (entry_attr e) (is_dir e).
Definition is_dots (d : DirEntry) : bool := bool_decide (d_name d = [46]) || bool_decide (d_name d = [46; 46]).

(** The entries of a buffer handed to the callback [cb], and whether the
    enumeration goes on. *)
Fixpoint enum_entries (n off : nat) (buf : list Z) (cb : DirEntry -> bool) (acc : list DirEntry) : list DirEntry * bool :=
  match n with
  | O => (acc, true)
  | S n' =>
      let e := take 32 (drop off buf) in
      let first := byte_at e 0 in
      if first =? 0x00 then (acc, false)
      else if first =? 0xE5 then enum_entries n' (off + 32) buf cb acc
      else if byte_at e 11 =? 0x0F then enum_entries n' (off + 32) buf cb acc
      else
        let d := dir_entry e in
        if is_dots d then enum_entries n' (off + 32) buf cb acc
        else if cb d then enum_entries n' (off + 32) buf cb (acc ++ [d]) else (acc ++ [d], false)
  end.

(** ** Paths *)

(** [while ( *p && *p != '/' && ci < n) comp[ci++] = *p++]. *)
Fixpoint take_comp (n : nat) (p : list Z) : list Z * list Z :=
  match n, p with
  | S n', ch :: p' => if ch =? 47 then ([], p) else let '(c, r) := take_comp n' p' in (ch :: c, r)
  | _, _ => ([], p)
  end.
Definition skip_slash (p : list Z) : list Z := match p with ch :: p' => if ch =? 47 then p' else p | [] => [] end.
Fixpoint skip_slashes (p : list Z) : list Z := match p with ch :: p' => if ch =? 47 then skip_slashes p' else p | [] => [] end.

(** The next component in upper case, cut at 12 characters, and the rest. *)
Definition next_comp (p : list Z) : list Z * list Z :=
  let '(c, r) := take_comp 12 p in (upper <$> c, skip_slash r).
Definition is_last (p : list Z) : bool := match skip_slashes p with [] => true | _ => false end.

(** * Facts on buffers *)

Section Buffers.
Implicit Types (buf bs : list Z) (i off : nat).

Lemma patch_length buf off bs : (off + length bs <= length buf)%nat -> length (patch buf off bs) = length buf.
Proof. intros. unfold patch. rewrite !length_app, length_take, length_drop. lia. Qed.

Lemma lookup_patch buf off bs i : (off + length bs <= length buf)%nat ->
  patch buf off bs !! i = if decide (off <= i < off + length bs)%nat then bs !! (i - off)%nat else buf !! i.
Proof.
  intros Hl. unfold patch. destruct (decide (i < off)%nat).
  - rewrite decide_False by lia. rewrite lookup_app_l by (rewrite length_take; lia). by rewrite lookup_take_lt by lia.
  - rewrite lookup_app_r by (rewrite length_take; lia). rewrite length_take, Nat.min_l by lia.
    case_decide; [by rewrite lookup_app_l by lia|]. rewrite lookup_app_r by lia. rewrite lookup_drop. f_equal. lia.
Qed.

Lemma byte_at_patch buf off bs i : (off + length bs <= length buf)%nat ->
  byte_at (patch buf off bs) i = if decide (off <= i < off + length bs)%nat then byte_at bs (i - off) else byte_at buf i.
Proof. intros. unfold byte_at. rewrite lookup_patch by done. by case_decide. Qed.

Lemma patch_bytes buf off bs : Forall byte buf -> Forall byte bs -> Forall byte (patch buf off bs).
Proof. intros. unfold patch. repeat apply Forall_app_2; [by apply Forall_take|done|by apply Forall_drop]. Qed.

Lemma byte_at_range buf i : Forall byte buf -> 0 <= byte_at buf i < 256.
Proof. intros Hb. unfold byte_at. destruct (buf !! i) eqn:E; cbn; [|lia]. apply (Forall_lookup_1 _ _ _ _ Hb E). Qed.

Lemma get16_value buf i : Forall byte buf -> get16 buf i = byte_at buf i + 256 * byte_at buf (i + 1).
Proof.
  intros Hb. unfold get16. rewrite Z.lor_comm. pose proof (byte_at_range buf i Hb).
  rewrite shift_or by lia. lia.
Qed.
Lemma get16_range buf i : Forall byte buf -> 0 <= get16 buf i < 65536.
Proof. intros Hb. rewrite get16_value by done. pose proof (byte_at_range buf i Hb). pose proof (byte_at_range buf (i + 1) Hb). lia. Qed.

Lemma get16_patch_eq buf i v : Forall byte buf -> 0 <= v < 65536 -> (i + 2 <= length buf)%nat -> get16 (patch buf i (le16 v)) i = v.
Proof.
  intros Hb Hv Hl. rewrite get16_value by (apply patch_bytes; [done|apply le16_bytes]). rewrite !byte_at_patch by (cbn; lia). cbn [length le16].
  rewrite !decide_True by lia. replace (i - i)%nat with 0%nat by lia. replace (i + 1 - i)%nat with 1%nat by lia. by apply le16_value.
Qed.
Lemma get16_patch_ne buf i j v : (i + 2 <= length buf)%nat -> (j + 2 <= i \/ i + 2 <= j)%nat -> get16 (patch buf i (le16 v)) j = get16 buf j.
Proof. intros Hl Hij. unfold get16. rewrite !byte_at_patch by (cbn; lia). cbn [length le16]. by rewrite !decide_False by lia. Qed.

Lemma sectors_length f lba n : (forall l, length (f l) = 512%nat) -> length (sectors f lba n) = (512 * n)%nat.
Proof. intros Hf. revert lba. induction n as [|n IH]; intros lba; cbn [sectors]; [done|]. rewrite length_app, IH, Hf. lia. Qed.
Lemma sectors_bytes f lba n : (forall l, Forall byte (f l)) -> Forall byte (sectors f lba n).
Proof. intros Hf. revert lba. induction n as [|n IH]; intros lba; cbn [sectors]; [done|]. by apply Forall_app_2. Qed.
Lemma sectors_ext f g lba n : (forall l, lba <= l < lba + Z.of_nat n -> f l = g l) -> sectors f lba n = sectors g lba n.
Proof. revert lba. induction n as [|n IH]; intros lba Hf; cbn [sectors]; [done|]. rewrite Hf by lia. f_equal. apply IH. intros. apply Hf. lia. Qed.

(** Sectors cut out of a buffer give the buffer. *)
Lemma sectors_cut buf lba n k :
  length buf = (512 * (k + n))%nat ->
  sectors (fun l => take 512 (drop (Z.to_nat (512 * (l - lba))) buf)) (lba + Z.of_nat k) n = drop (512 * k) buf.
Proof.
  revert k. induction n as [|n IH]; intros k Hl; cbn [sectors].
  - rewrite drop_ge by lia. done.
  - replace (lba + Z.of_nat k + 1) with (lba + Z.of_nat (S k)) by lia. rewrite IH by lia.
    replace (Z.to_nat (512 * (lba + Z.of_nat k - lba))) with (512 * k)%nat by lia.
    rewrite <-(take_drop 512 (drop (512 * k) buf)) at 2. rewrite drop_drop. f_equal. f_equal. lia.
Qed.
End Buffers.

(** * Facts on directory entries *)

Section Entries.
Implicit Types (buf e sh : list Z) (n off o : nat) (P Q : list Z -> bool).

Definition entry_at buf off : list Z := take 32 (drop off buf).

Lemma byte_at_entry buf off i : (i < 32)%nat -> byte_at (entry_at buf off) i = byte_at buf (off + i).
Proof. intros. unfold byte_at, entry_at. by rewrite lookup_take_lt, lookup_drop by lia. Qed.

(** Changing the bytes from [o] on does not change the entries before it. *)
Definition same_outside buf buf' o : Prop := forall i, (i < o \/ o + 32 <= i)%nat -> buf' !! i = buf !! i.
Lemma entry_outside buf buf' o off : same_outside buf buf' o -> (off + 32 <= o \/ o + 32 <= off)%nat -> entry_at buf' off = entry_at buf off.
Proof.
  intros Hs Ho. apply list_eq. intros i. unfold entry_at. destruct (decide (i < 32)%nat); [|by rewrite !lookup_take_ge by lia].
  rewrite !lookup_take_lt, !lookup_drop by lia. apply Hs. lia.
Qed.

Definition no_match n off buf P : Prop := match scan n off buf P with Found _ _ => False | _ => True end.

Lemma no_match_intro n off buf P : (forall o e, scan n off buf P <> Found o e) -> no_match n off buf P.
Proof. intros Hn. unfold no_match. destruct (scan n off buf P) eqn:E; [by destruct (Hn _ _ eq_refl)|done|done]. Qed.

(** The entry put in the first free slot is found, if no entry was found before. *)
Lemma scan_after_write n off o buf buf' P :
  free_slot n off buf = Some o -> no_match n off buf P -> same_outside buf buf' o ->
  byte_at buf' o <> 0 -> byte_at buf' o <> 0xE5 -> byte_at buf' (o + 11) <> 0x0F -> P (entry_at buf' o) = true ->
  scan n off buf' P = Found o (entry_at buf' o) /\ (exists i, i < n /\ o = off + 32 * i)%nat.
Proof.
  revert off. induction n as [|n IH]; intros off Hf Hn Hs H0 H5 HF HP; cbn [free_slot] in Hf; [done|]. unfold no_match in Hn. cbn [scan] in *.
  fold (entry_at buf off) in Hn. fold (entry_at buf' off). rewrite byte_at_entry, Nat.add_0_r in Hn by lia. rewrite !byte_at_entry in * by lia. rewrite Nat.add_0_r.
  destruct ((byte_at buf off =? 0) || (byte_at buf off =? 0xE5)) eqn:E.
  - injection Hf as ->. split; [|exists 0%nat; lia]. rewrite (proj2 (Z.eqb_neq _ _) H0), (proj2 (Z.eqb_neq _ _) H5), (proj2 (Z.eqb_neq _ _) HF), HP. done.
  - apply orb_false_iff in E as [E1 E2]. assert (Hge : (off + 32 <= o)%nat).
    { clear -Hf. revert off Hf. induction n as [|n IH]; intros off Hf; cbn [free_slot] in Hf; [done|]. destruct (_ || _); [injection Hf; lia|]. specialize (IH _ Hf). lia. }
    assert (Hb : forall i, (i < 32)%nat -> byte_at buf' (off + i) = byte_at buf (off + i)) by (intros i Hi; unfold byte_at; rewrite Hs by lia; done).
    pose proof (Hb 0%nat ltac:(lia)) as Hb0. rewrite Nat.add_0_r in Hb0. rewrite Hb0, Hb, E1, E2 in * by lia. rewrite (entry_outside buf buf' o off Hs) by lia.
    assert (Hgo : no_match n (off + 32) buf P -> scan n (off + 32) buf' P = Found o (entry_at buf' o) /\ (exists i, i < S n /\ o = off + 32 * i)%nat).
    { intros Hn'. destruct (IH (off + 32)%nat Hf Hn' Hs H0 H5 HF HP) as (? & i & ? & ?). split; [done|]. exists (S i). lia. }
    destruct (byte_at buf (off + 11) =? 15); [by apply Hgo|]. destruct (P (entry_at buf off)); [done|]. by apply Hgo.
Qed.

Lemma scan_impl n off buf P Q : (forall e, P e = true -> Q e = true) -> no_match n off buf Q -> scan n off buf P = scan n off buf Q.
Proof.
  intros HPQ. unfold no_match. revert off. induction n as [|n IH]; intros off Hn; [done|]. cbn [scan] in *. destruct (_ =? 0); [done|].
  destruct (_ =? 0xE5); [by apply IH|]. destruct (_ =? 15); [by apply IH|]. destruct (P _) eqn:EP; [|destruct (Q _); [done|by apply IH]].
  by rewrite (HPQ _ EP) in Hn.
Qed.

Lemma free_slot_range n off buf o : free_slot n off buf = Some o -> (off <= o /\ o + 32 <= off + 32 * n)%nat.
Proof.
  revert off. induction n as [|n IH]; intros off Hf; cbn [free_slot] in Hf; [done|]. destruct (_ || _); [injection Hf; lia|]. specialize (IH _ Hf). lia.
Qed.

(** The fields of an entry after [write_entry]. *)
Lemma write_entry_length buf o sh attr cl size : length sh = 11%nat -> (o + 32 <= length buf)%nat -> length (write_entry buf o sh attr cl size) = length buf.
Proof. intros Hs Ho. unfold write_entry. cbn zeta. repeat rewrite patch_length; try done; cbn [length le16 le32]; lia. Qed.

Lemma lookup_write_entry buf o sh attr cl size i : length sh = 11%nat -> (o + 32 <= length buf)%nat ->
  write_entry buf o sh attr cl size !! i =
    if decide (o <= i < o + 11)%nat then sh !! (i - o)%nat
    else if decide (i = o + 11)%nat then Some (u8 attr)
    else if decide (o + 26 <= i < o + 28)%nat then le16 cl !! (i - (o + 26))%nat
    else if decide (o + 28 <= i < o + 32)%nat then le32 size !! (i - (o + 28))%nat
    else buf !! i.
Proof.
  intros Hs Ho. unfold write_entry. cbn zeta. rewrite !lookup_patch by (repeat rewrite patch_length; cbn [length le16 le32]; lia). cbn [length le16 le32]. rewrite Hs.
  repeat case_decide; try lia; try done. subst. by replace (o + 11 - (o + 11))%nat with 0%nat by lia.
Qed.

Lemma le32_value v : 0 <= v < 2 ^ 32 -> u8 v + 256 * u8 (Z.shiftr v 8) + 65536 * u8 (Z.shiftr v 16) + 16777216 * u8 (Z.shiftr v 24) = v.
Proof. intros. unfold u8. rewrite !Z.shiftr_div_pow2 by lia. zdiv. Qed.
Lemma get32_value buf i : Forall byte buf ->
  get32 buf i = byte_at buf i + 256 * byte_at buf (i + 1) + 65536 * byte_at buf (i + 2) + 16777216 * byte_at buf (i + 3).
Proof.
  intros Hb. unfold get32. pose proof (byte_at_range buf i Hb). pose proof (byte_at_range buf (i + 1) Hb). pose proof (byte_at_range buf (i + 2) Hb).
  rewrite (Z.lor_comm (byte_at buf i)), shift_or by lia. rewrite (Z.lor_comm (_ + _)), shift_or by lia. rewrite Z.lor_comm, shift_or by lia. lia.
Qed.

Lemma get32_range buf i : Forall byte buf -> 0 <= get32 buf i < 2 ^ 32.
Proof.
  intros Hb. rewrite get32_value by done. pose proof (byte_at_range buf i Hb). pose proof (byte_at_range buf (i + 1) Hb). pose proof (byte_at_range buf (i + 2) Hb).
  pose proof (byte_at_range buf (i + 3) Hb). lia.
Qed.

Lemma write_entry_fields buf o sh attr cl size : Forall byte buf -> Forall byte sh -> length sh = 11%nat -> (o + 32 <= length buf)%nat ->
  0 <= attr < 256 -> 0 <= cl < 65536 -> 0 <= size < 2 ^ 32 ->
  let buf' := write_entry buf o sh attr cl size in let e := entry_at buf' o in
  Forall byte buf' /\ same_outside buf buf' o /\ take 11 e = sh /\ byte_at e 11 = attr /\ get16 e 26 = cl /\ get32 e 28 = size.
Proof.
  intros Hb Hsb Hs Ho Ha Hc Hz buf' e. subst e.
  assert (Hbb : Forall byte buf').
  { subst buf'. unfold write_entry. cbn zeta. repeat apply patch_bytes; try done; [|apply le16_bytes|apply le32_bytes]. constructor; [apply u8_range|done]. }
  assert (He : Forall byte (entry_at buf' o)) by (by apply Forall_take, Forall_drop).
  assert (Hl : forall i, (i < 32)%nat -> byte_at (entry_at buf' o) i = default 0 (buf' !! (o + i)%nat)) by (intros; by rewrite byte_at_entry).
  split_and!; [done| | | | |].
  - intros i Hi. subst buf'. rewrite lookup_write_entry by done. by rewrite !decide_False by lia.
  - apply list_eq. intros i. unfold entry_at. destruct (decide (i < 11)%nat); [|rewrite lookup_take_ge, lookup_ge_None_2 by lia; done].
    rewrite !lookup_take_lt, lookup_drop by lia. subst buf'. rewrite lookup_write_entry, decide_True by (done || lia). f_equal. lia.
  - rewrite Hl by lia. subst buf'. rewrite lookup_write_entry, decide_False, decide_True by (done || lia). by apply u8_small.
  - rewrite get16_value by done. rewrite !Hl by lia. subst buf'. rewrite !lookup_write_entry by done. repeat (case_decide; try lia).
    replace (o + 26 - (o + 26))%nat with 0%nat by lia. replace (o + (26 + 1) - (o + 26))%nat with 1%nat by lia. by apply le16_value.
  - rewrite get32_value by done. rewrite !Hl by lia. subst buf'. rewrite !lookup_write_entry by done. repeat (case_decide; try lia).
    replace (o + 28 - (o + 28))%nat with 0%nat by lia. replace (o + (28 + 1) - (o + 28))%nat with 1%nat by lia.
    replace (o + (28 + 2) - (o + 28))%nat with 2%nat by lia. replace (o + (28 + 3) - (o + 28))%nat with 3%nat by lia. by apply le32_value.
Qed.

(** ** Short names *)

Lemma upper_allowed c : allowed c = true -> upper c = c /\ c <> 46 /\ c <> 32 /\ c <> 0 /\ 0 < c < 0xE5.
Proof. unfold allowed, upper. intros Ha. repeat (case_zb; cbn [andb orb] in *; try done); lia. Qed.

Lemma until_app c l r : Forall (fun x => x <> c) l -> until c (l ++ r) = l ++ until c r.
Proof. induction 1 as [|x l Hx Hl IH]; [done|]. cbn [until app]. rewrite (proj2 (Z.eqb_neq x c) Hx). by rewrite IH. Qed.
Lemma until_pad n l : Forall (fun x => x <> 32) l -> until 32 (pad n l) = l.
Proof. intros Hl. unfold pad. rewrite until_app by done. destruct (n - length l)%nat; cbn; by rewrite app_nil_r. Qed.
Lemma pad_length n l : (length l <= n)%nat -> length (pad n l) = n.
Proof. intros. unfold pad. rewrite length_app, length_replicate. lia. Qed.

(** A name of at most eight characters and an extension of at most three. *)
Definition name83 (base ex : list Z) : list Z := base ++ (if decide (ex = []) then [] else 46 :: ex).
Definition good83 (base ex : list Z) : Prop :=
  base <> [] /\ (length base <= 8)%nat /\ (length ex <= 3)%nat /\ Forall (fun c => allowed c = true) base /\ Forall (fun c => allowed c = true) ex.

Lemma pack_base s l rest : Forall (fun c => allowed c = true) s -> (length l + length s <= 8)%nat -> pack_loop (s ++ rest) l None = pack_loop rest (l ++ s) None.
Proof.
  intros Hs. revert l. induction Hs as [|c s Hc Hs IH]; intros l Hl; cbn [app pack_loop]; [by rewrite app_nil_r|]. cbn [length] in Hl.
  destruct (upper_allowed c Hc) as (Eu & Hd & _). rewrite (proj2 (Z.eqb_neq c 46) Hd), Eu, Hc. cbn [negb].
  rewrite (proj2 (Nat.ltb_lt (length l) 8)) by lia. rewrite IH by (rewrite length_app; cbn; lia). by rewrite <-app_assoc.
Qed.
Lemma pack_ext s b l : Forall (fun c => allowed c = true) s -> (length l + length s <= 3)%nat -> pack_loop s b (Some l) = Some (b, l ++ s).
Proof.
  intros Hs. revert l. induction Hs as [|c s Hc Hs IH]; intros l Hl; cbn [pack_loop]; [by rewrite app_nil_r|]. cbn [length] in Hl.
  destruct (upper_allowed c Hc) as (Eu & Hd & _). rewrite (proj2 (Z.eqb_neq c 46) Hd), Eu, Hc. cbn [negb].
  rewrite (proj2 (Nat.ltb_lt (length l) 3)) by lia. rewrite IH by (rewrite length_app; cbn; lia). by rewrite <-app_assoc.
Qed.

(** Packing a proper name and reading the name of an entry are inverse. *)
Lemma pack_good base ex : good83 base ex -> PackShortName11 (name83 base ex) = Some (pad 8 base ++ pad 3 ex).
Proof.
  intros (_ & Hb & He & Hab & Hae). unfold PackShortName11, name83. rewrite pack_base by (cbn; lia || done). cbn [app]. case_decide as Hd; [by subst|].
  cbn [pack_loop]. change (46 =? 46) with true. cbn iota. by rewrite pack_ext by (cbn; lia || done).
Qed.
Lemma merged_good base ex e : good83 base ex -> take 11 e = pad 8 base ++ pad 3 ex -> merged_name e = name83 base ex.
Proof.
  intros (Hne & Hb & He & Hab & Hae) Ht. assert (Hn : forall l, Forall (fun c => allowed c = true) l -> Forall (fun x => x <> 32) l /\ Forall (fun x => x <> 0) l /\ upper <$> l = l).
  { induction 1 as [|c l Hc Hl (? & ? & IH)]; [done|]. destruct (upper_allowed c Hc) as (Eu & _ & ? & ? & _). split_and!; try by constructor. by rewrite fmap_cons, Eu, IH. }
  destruct (Hn base Hab) as (B1 & B2 & B3), (Hn ex Hae) as (X1 & X2 & X3).
  assert (En : entry_name e = base).
  { unfold entry_name. replace (take 8 e) with (take 8 (take 11 e)) by (rewrite take_take; done). rewrite Ht, take_app_length' by (by rewrite pad_length). by apply until_pad. }
  assert (Ee : entry_ext e = ex).
  { unfold entry_ext. replace (take 3 (drop 8 e)) with (drop 8 (take 11 e)) by (by rewrite skipn_firstn_comm). rewrite Ht, drop_app_length' by (by rewrite pad_length). by apply until_pad. }
  unfold merged_name, name83. rewrite En, Ee. case_decide.
  - rewrite until_app by done. cbn [until]. by rewrite app_nil_r.
  - rewrite until_app by done. cbn [until]. change (46 =? 0) with false. cbn iota. rewrite <-(app_nil_r ex) at 1. rewrite until_app by done. cbn [until].
    by rewrite app_nil_r, fmap_app, fmap_cons, B3, X3.
Qed.
Lemma scan_found n off buf P o e : scan n off buf P = Found o e ->
  e = entry_at buf o /\ P e = true /\ (off <= o /\ o + 32 <= off + 32 * n)%nat /\ byte_at buf o <> 0 /\ byte_at buf o <> 0xE5 /\ byte_at buf (o + 11) <> 0x0F.
Proof.
  revert off. induction n as [|n IH]; intros off Hf; cbn [scan] in Hf; [done|]. fold (entry_at buf off) in Hf. rewrite !byte_at_entry, Nat.add_0_r in Hf by lia.
  destruct (Z.eqb_spec (byte_at buf off) 0); [done|]. destruct (Z.eqb_spec (byte_at buf off) 0xE5); [apply IH in Hf; intuition lia|].
  destruct (Z.eqb_spec (byte_at buf (off + 11)) 0x0F); [apply IH in Hf; intuition lia|]. destruct (P (entry_at buf off)) eqn:EP; [|apply IH in Hf; intuition lia].
  injection Hf as -> <-. split_and!; try done; lia.
Qed.

(** An entry that keeps its name and attribute bytes is still the one found. *)
Lemma scan_update n off buf buf' P o e : scan n off buf P = Found o e -> same_outside buf buf' o ->
  byte_at buf' o = byte_at buf o -> byte_at buf' (o + 11) = byte_at buf (o + 11) -> P (entry_at buf' o) = true -> scan n off buf' P = Found o (entry_at buf' o).
Proof.
  intros Hf Hs H0 H11 HP. revert off Hf. induction n as [|n IH]; intros off Hf; [done|]. pose proof Hf as Hf'. apply scan_found in Hf' as (_ & _ & Hr & Hb0 & Hb5 & HbF).
  destruct (decide (off = o)) as [->|Hne].
  { cbn [scan]. fold (entry_at buf' o). rewrite !byte_at_entry, Nat.add_0_r by lia.
    by rewrite H0, H11, (proj2 (Z.eqb_neq _ _) Hb0), (proj2 (Z.eqb_neq _ _) Hb5), (proj2 (Z.eqb_neq _ _) HbF), HP. }
  cbn [scan] in *. fold (entry_at buf off) in Hf. fold (entry_at buf' off). assert (Hskip : forall m, scan m (off + 32) buf P = Found o e -> (off + 32 <= o)%nat) by (intros m Hm; apply scan_found in Hm; lia).
  destruct (byte_at (entry_at buf off) 0 =? 0) eqn:E0; [done|]. destruct (decide (off + 32 <= o)%nat) as [Hle|Hgt].
  - rewrite (entry_outside buf buf' o off Hs) by lia. rewrite E0. destruct (_ =? 0xE5); [by apply IH|]. destruct (_ =? 0x0F); [by apply IH|].
    destruct (P (entry_at buf off)); [by injection Hf|by apply IH].
  - exfalso. clear IH. destruct (byte_at (entry_at buf off) 0 =? 0xE5); [apply Hskip in Hf; lia|]. destruct (byte_at (entry_at buf off) 11 =? 0x0F); [apply Hskip in Hf; lia|].
    destruct (P (entry_at buf off)); [injection Hf as E _; lia|apply Hskip in Hf; lia].
Qed.

Lemma merged_name_eq e e' : take 11 e = take 11 e' -> merged_name e = merged_name e'.
Proof.
  intros E. unfold merged_name, entry_name, entry_ext. replace (take 8 e) with (take 8 (take 11 e)) by (by rewrite take_take).
  replace (take 3 (drop 8 e)) with (drop 8 (take 11 e)) by (by rewrite skipn_firstn_comm). rewrite E. by rewrite take_take, skipn_firstn_comm.
Qed.

(** The size field of an entry replaced. *)
Lemma patch_size buf o size : Forall byte buf -> (o + 32 <= length buf)%nat -> 0 <= size < 2 ^ 32 ->
  let buf' := patch buf (o + 28) (le32 size) in let e := entry_at buf o in let e' := entry_at buf' o in
  same_outside buf buf' o /\ take 11 e' = take 11 e /\ byte_at e' 11 = byte_at e 11 /\ get16 e' 26 = get16 e 26 /\ get32 e' 28 = size /\
  byte_at buf' o = byte_at buf o /\ byte_at buf' (o + 11) = byte_at buf (o + 11).
Proof.
  intros Hb Hl Hz buf' e e'. assert (Hlk : forall i, buf' !! i = if decide (o + 28 <= i < o + 32)%nat then le32 size !! (i - (o + 28))%nat else buf !! i).
  { intros i. subst buf'. rewrite lookup_patch by (cbn; lia). cbn [length le32]. repeat case_decide; try lia; done. }
  assert (Hby : forall i, (i < o + 28)%nat -> byte_at buf' i = byte_at buf i) by (intros i Hi; unfold byte_at; rewrite Hlk; by rewrite decide_False by lia).
  subst e e'. split_and!.
  - intros i Hi. rewrite Hlk. by rewrite decide_False by lia.
  - apply list_eq. intros i. unfold entry_at. destruct (decide (i < 11)%nat); [|by rewrite !lookup_take_ge by lia]. rewrite !lookup_take_lt, !lookup_drop, Hlk by lia. by rewrite decide_False by lia.
  - rewrite !byte_at_entry by lia. apply Hby. lia.
  - unfold get16. rewrite !byte_at_entry by lia. by rewrite !Hby by lia.
  - rewrite get32_value by (apply Forall_take, Forall_drop, patch_bytes; [done|apply le32_bytes]). rewrite !byte_at_entry by lia. unfold byte_at. rewrite !Hlk. repeat (case_decide; try lia).
    replace (o + 28 - (o + 28))%nat with 0%nat by lia. replace (o + (28 + 1) - (o + 28))%nat with 1%nat by lia.
    replace (o + (28 + 2) - (o + 28))%nat with 2%nat by lia. replace (o + (28 + 3) - (o + 28))%nat with 3%nat by lia. by apply le32_value.
  - apply Hby. lia.
  - apply Hby. lia.
Qed.
Lemma scan_no_end n off buf P : free_slot n off buf = None -> scan n off buf P <> EndMark.
Proof.
  revert off. induction n as [|n IH]; intros off Hf; cbn [scan free_slot] in *; [done|]. fold (entry_at buf off). rewrite !byte_at_entry, Nat.add_0_r by lia.
  destruct (byte_at buf off =? 0); [done|]. destruct (byte_at buf off =? 0xE5); [done|]. destruct (_ =? 0x0F); [by apply IH|]. destruct (P _); [done|by apply IH].
Qed.

(** An entry that a scan looks at. *)
Definition visible e : Prop := byte_at e 0 <> 0 /\ byte_at e 0 <> 0xE5 /\ byte_at e 11 <> 0x0F.
Lemma scan_visible n off buf P : visible (entry_at buf off) ->
  scan (S n) off buf P = if P (entry_at buf off) then Found off (entry_at buf off) else scan n (off + 32) buf P.
Proof. intros (H0 & H5 & HF). cbn [scan]. fold (entry_at buf off). by rewrite (proj2 (Z.eqb_neq _ _) H0), (proj2 (Z.eqb_neq _ _) H5), (proj2 (Z.eqb_neq _ _) HF). Qed.
Lemma scan_behind n off buf buf' P o : same_outside buf buf' o -> (o + 32 <= off)%nat -> scan n off buf' P = scan n off buf P.
Proof.
  intros Hs. revert off. induction n as [|n IH]; intros off Ho; [done|]. cbn [scan]. fold (entry_at buf off) (entry_at buf' off). rewrite (entry_outside buf buf' o off Hs) by lia. by rewrite IH by lia.
Qed.
(** The entry a scan finds, if any. *)
Definition found (r : scan_result) : option (nat * list Z) := match r with Found o e => Some (o, e) | _ => None end.
(** Behind the end of the entries there are no more: from the first entry that
    begins with 0 on all do. *)
Definition tidy (n : nat) buf : Prop := forall i j, (i <= j < n)%nat -> byte_at buf (32 * i) = 0 -> byte_at buf (32 * j) = 0.
Lemma free_slot_aligned n off buf o : free_slot n off buf = Some o -> exists i, (i < n)%nat /\ o = (off + 32 * i)%nat.
Proof.
  revert off. induction n as [|n IH]; intros off Hf; cbn [free_slot] in Hf; [done|]. destruct (_ || _); [injection Hf as <-; exists 0%nat; lia|]. destruct (IH _ Hf) as (i & ? & ->). exists (S i). lia.
Qed.
Lemma tidy_from n buf o : tidy n buf -> free_slot n 0 buf = Some o -> byte_at buf o = 0 -> (o + 32 < 32 * n)%nat -> byte_at buf (o + 32) = 0.
Proof.
  intros Ht Hf Hz Hn. destruct (free_slot_aligned _ _ _ _ Hf) as (i & Hi & Eo). rewrite Nat.add_0_l in Eo. subst o. replace (32 * i + 32)%nat with (32 * S i)%nat by lia. apply (Ht i); [lia|done].
Qed.
(** An entry put in the first free slot does not change what scans for other entries find. *)
Lemma scan_added n off o buf buf' P : free_slot n off buf = Some o -> same_outside buf buf' o -> visible (entry_at buf' o) -> P (entry_at buf' o) = false ->
  (byte_at buf o = 0 -> (o + 32 < off + 32 * n)%nat -> byte_at buf (o + 32) = 0) -> found (scan n off buf' P) = found (scan n off buf P).
Proof.
  intros Hf Hs Hv HP. revert off Hf. induction n as [|n IH]; intros off Hf Ht; [done|]. pose proof (free_slot_range _ _ _ _ Hf) as [Hlo _]. destruct (decide (off = o)) as [->|Hne].
  - rewrite scan_visible, HP by done. rewrite (scan_behind n (o + 32) buf buf' P o Hs) by lia. cbn [free_slot scan] in *. fold (entry_at buf o). rewrite !byte_at_entry, Nat.add_0_r by lia.
    destruct (Z.eqb_spec (byte_at buf o) 0) as [Hz|Hz]; cbn [orb] in Hf.
    + destruct n as [|n]; [done|]. cbn [scan]. fold (entry_at buf (o + 32)). rewrite !byte_at_entry, Nat.add_0_r by lia. by rewrite (Ht Hz) by lia.
    + destruct (byte_at buf o =? 0xE5); [done|]. apply free_slot_range in Hf. lia.
  - cbn [free_slot scan] in *. fold (entry_at buf off) (entry_at buf' off). destruct (_ || _); [by injection Hf|]. pose proof (free_slot_range _ _ _ _ Hf) as [Hlo' _]. rewrite (entry_outside buf buf' o off Hs) by lia.
    assert (Hgo : found (scan n (off + 32) buf' P) = found (scan n (off + 32) buf P)) by (apply IH; [done|]; intros Hz Hn; apply Ht; [done|lia]). by repeat case_match.
Qed.
(** An entry is deleted: a scan that found another one still finds it. *)
Lemma scan_deleted n off buf buf' P Q o e : scan n off buf P = Found o e -> same_outside buf buf' o -> byte_at (entry_at buf' o) 0 = 0xE5 ->
  (forall e', found (scan n off buf Q) <> Some (o, e')) -> found (scan n off buf' Q) = found (scan n off buf Q).
Proof.
  intros Hf Hs H5. revert off Hf. induction n as [|n IH]; intros off Hf Hq; [done|]. pose proof (scan_found _ _ _ _ _ _ Hf) as (Ee & _ & Hr & H0' & H5' & HF'). destruct (decide (off = o)) as [->|Hne].
  - assert (Hv : visible (entry_at buf o)) by (split; rewrite !byte_at_entry, ?Nat.add_0_r by lia; done). rewrite (scan_visible _ _ buf) in Hq |- * by done. destruct (Q (entry_at buf o)); [by destruct (Hq (entry_at buf o))|].
    cbn [scan]. fold (entry_at buf' o). rewrite H5. cbn [Z.eqb Pos.eqb]. by rewrite (scan_behind n (o + 32) buf buf' Q o Hs) by lia.
  - cbn [scan] in Hf, Hq |- *. fold (entry_at buf off) in Hf, Hq |- *. fold (entry_at buf' off).
    assert (Hm : byte_at (entry_at buf off) 0 <> 0 -> scan n (off + 32) buf P = Found o e).
    { intros H0. rewrite (proj2 (Z.eqb_neq _ _) H0) in Hf. revert Hf. destruct (_ =? 0xE5); [done|]. destruct (_ =? 0x0F); [done|]. destruct (P (entry_at buf off)); [by intros [= Eo _]|done]. }
    destruct (Z.eqb_spec (byte_at (entry_at buf off) 0) 0) as [|H0]; [done|]. specialize (Hm H0). pose proof (scan_found _ _ _ _ _ _ Hm) as (_ & _ & Hr' & _). rewrite (entry_outside buf buf' o off Hs) by lia.
    rewrite (proj2 (Z.eqb_neq _ _) H0). destruct (_ =? 0xE5); [by apply IH|]. destruct (_ =? 0x0F); [by apply IH|]. destruct (Q (entry_at buf off)); [done|by apply IH].
Qed.
(** Up to the entry found at [o], scans of two buffers that differ there agree. *)
Lemma scan_until n off buf buf' P Q o e : scan n off buf P = Found o e -> same_outside buf buf' o ->
  (forall k, scan (S k) o buf' Q = scan (S k) o buf Q) -> scan n off buf' Q = scan n off buf Q.
Proof.
  intros Hf Hs HQ. revert off Hf. induction n as [|n IH]; intros off Hf; [done|]. destruct (decide (off = o)) as [->|Hne]; [by apply HQ|].
  pose proof (scan_found _ _ _ _ _ _ Hf) as (_ & _ & Hr & _). cbn [scan] in Hf |- *. fold (entry_at buf off) in Hf |- *. fold (entry_at buf' off).
  assert (Hgo : scan n (off + 32) buf P = Found o e -> (off + 32 <= o)%nat /\ scan n (off + 32) buf' Q = scan n (off + 32) buf Q) by (intros Hm; split; [apply scan_found in Hm; lia|by apply IH]).
  destruct (byte_at (entry_at buf off) 0 =? 0) eqn:E0; [done|]. assert (Hm : scan n (off + 32) buf P = Found o e).
  { revert Hf. destruct (_ =? 0xE5); [done|]. destruct (_ =? 0x0F); [done|]. destruct (P (entry_at buf off)); [by intros [= Eo _]|done]. }
  destruct (Hgo Hm) as [Hle ->]. rewrite (entry_outside buf buf' o off Hs) by lia. by rewrite E0.
Qed.

(** An entry changed in place or deleted: a scan for anything that is neither
    the old nor the new entry has the same result. *)
Lemma scan_keep n off buf buf' P Q o e : scan n off buf P = Found o e -> same_outside buf buf' o -> Q e = false ->
  byte_at (entry_at buf' o) 0 = 0xE5 \/ (visible (entry_at buf' o) /\ Q (entry_at buf' o) = false) -> scan n off buf' Q = scan n off buf Q.
Proof.
  intros Hf Hs HQ He'. apply (scan_until n off buf buf' P Q o e Hf Hs). intros k. apply scan_found in Hf as (-> & _ & _ & H0 & H5 & HF).
  rewrite (scan_visible k o buf), HQ by (split; rewrite !byte_at_entry, ?Nat.add_0_r by lia; done). rewrite <-(scan_behind k (o + 32) buf buf' Q o Hs) by lia.
  destruct He' as [Ed|[Hv HQ']]; [|by rewrite scan_visible, HQ']. cbn [scan]. fold (entry_at buf' o). by rewrite Ed.
Qed.
(** A scan that found nothing finds the changed entry if it matches. *)
Lemma scan_gets n off buf buf' P Q o e : scan n off buf P = Found o e -> same_outside buf buf' o -> no_match n off buf Q ->
  visible (entry_at buf' o) -> Q (entry_at buf' o) = true -> scan n off buf' Q = Found o (entry_at buf' o).
Proof.
  intros Hf Hs. revert off Hf. induction n as [|n IH]; intros off Hf Hn Hv HQ; [done|]. destruct (decide (off = o)) as [->|Hne]; [by rewrite scan_visible, HQ|].
  pose proof (scan_found _ _ _ _ _ _ Hf) as (_ & _ & Hr & _). unfold no_match in Hn. cbn [scan] in *. fold (entry_at buf off) in Hf, Hn. fold (entry_at buf' off).
  assert (Hgo : scan n (off + 32) buf P = Found o e -> no_match n (off + 32) buf Q -> (off + 32 <= o)%nat /\ scan n (off + 32) buf' Q = Found o (entry_at buf' o)) by (intros Hm ?; split; [apply scan_found in Hm; lia|by apply IH]).
  unfold no_match in Hgo. destruct (byte_at (entry_at buf off) 0 =? 0) eqn:E0; [done|].
  assert (Hm : scan n (off + 32) buf P = Found o e).
  { revert Hf. destruct (_ =? 0xE5); [done|]. destruct (_ =? 0x0F); [done|]. destruct (P (entry_at buf off)); [by intros [= Eo _]|done]. }
  assert (Hle : (off + 32 <= o)%nat) by (apply scan_found in Hm; lia). rewrite (entry_outside buf buf' o off Hs) by lia. rewrite E0.
  destruct (_ =? 0xE5); [by apply Hgo|]. destruct (_ =? 0x0F); [by apply Hgo|]. destruct (Q (entry_at buf off)); [done|by apply Hgo].
Qed.

Lemma get32_patch_eq buf i v : Forall byte buf -> 0 <= v < 2 ^ 32 -> (i + 4 <= length buf)%nat -> get32 (patch buf i (le32 v)) i = v.
Proof.
  intros Hb Hv Hl. rewrite get32_value by (apply patch_bytes; [done|apply le32_bytes]). rewrite !byte_at_patch by (cbn; lia). cbn [length le32].
  rewrite !decide_True by lia. replace (i - i)%nat with 0%nat by lia. replace (i + 1 - i)%nat with 1%nat by lia. replace (i + 2 - i)%nat with 2%nat by lia.
  replace (i + 3 - i)%nat with 3%nat by lia. by apply le32_value.
Qed.
Lemma get32_patch_ne buf i j v : (i + 4 <= length buf)%nat -> (j + 4 <= i \/ i + 4 <= j)%nat -> get32 (patch buf i (le32 v)) j = get32 buf j.
Proof. intros Hl Hij. unfold get32. rewrite !byte_at_patch by (cbn; lia). cbn [length le32]. by rewrite !decide_False by lia. Qed.

(** Bytes [k] to [k + length bs] of an entry replaced. *)
Lemma patch_outside buf o k bs : (o + 32 <= length buf)%nat -> (k + length bs <= 32)%nat -> same_outside buf (patch buf (o + k) bs) o.
Proof. intros Hl Hk i Hi. rewrite lookup_patch by lia. by rewrite decide_False by lia. Qed.
Lemma entry_patch buf o k bs i : (o + 32 <= length buf)%nat -> (k + length bs <= 32)%nat -> (i < 32)%nat ->
  byte_at (entry_at (patch buf (o + k) bs) o) i = if decide (k <= i < k + length bs)%nat then byte_at bs (i - k) else byte_at (entry_at buf o) i.
Proof.
  intros Hl Hk Hi. rewrite !byte_at_entry, byte_at_patch by lia. repeat case_decide; try lia; try done; f_equal; lia.
Qed.
Lemma byte_at_ext l l' : length l = length l' -> (forall i, (i < length l)%nat -> byte_at l i = byte_at l' i) -> l = l'.
Proof.
  intros Hl He. apply list_eq. intros i. destruct (decide (i < length l)%nat) as [Hi|]; [|by rewrite !lookup_ge_None_2 by lia].
  specialize (He i Hi). unfold byte_at in He. destruct (lookup_lt_is_Some_2 l i Hi) as [x Ex], (lookup_lt_is_Some_2 l' i ltac:(lia)) as [y Ey]. rewrite Ex, Ey in *. cbn in He. congruence.
Qed.
Lemma entry_length buf o : (o + 32 <= length buf)%nat -> length (entry_at buf o) = 32%nat.
Proof. intros. unfold entry_at. rewrite length_take, length_drop. lia. Qed.
End Entries.

(** ** Names, paths and pieces of data *)

Definition short_name (base ex : list Z) : list Z := pad 8 base ++ pad 3 ex.
Lemma short_name_ok base ex : good83 base ex ->
  length (short_name base ex) = 11%nat /\ Forall byte (short_name base ex) /\ byte_at (short_name base ex) 0 <> 0 /\ byte_at (short_name base ex) 0 <> 0xE5.
Proof.
  intros (Hne & Hb & He & Hab & Hae). unfold short_name. rewrite length_app, !pad_length by done.
  assert (Hby : forall n (x : list Z), Forall (fun c => allowed c = true) x -> Forall byte (pad n x)).
  { intros n x Hl. unfold pad. apply Forall_app_2; [|apply Forall_replicate; lia]. apply (Forall_impl _ _ _ Hl). intros c Hc. destruct (upper_allowed c Hc) as (_ & _ & _ & _ & ?). lia. }
  split; [done|]. split; [by apply Forall_app_2; apply Hby|]. destruct base as [|c base]; [done|]. cbn. apply Forall_cons in Hab as [Hc _]. destruct (upper_allowed c Hc) as (_ & _ & _ & _ & ?). lia.
Qed.

Lemma name83_length base ex : good83 base ex -> (1 <= length (name83 base ex) <= 12)%nat.
Proof. intros (Hne & Hb & He & _). unfold name83. rewrite length_app. destruct base; [done|]. cbn [length] in *. case_decide; cbn [length]; lia. Qed.

(** The names of a path [/dn/fn]. *)
Definition names_ok (dn fn base ex : list Z) : Prop :=
  Forall (fun x => x <> 47) dn /\ dn <> [] /\ (length dn <= 12)%nat /\ Forall (fun x => x <> 47) fn /\ upper <$> fn = name83 base ex /\ good83 base ex.
Definition path_of (dn fn : list Z) : list Z := 47 :: dn ++ 47 :: fn.
Lemma take_comp_all n (c r : list Z) : Forall (fun x => x <> 47) c -> (length c <= n)%nat -> (r = [] \/ exists r', r = 47 :: r') -> take_comp n (c ++ r) = (c, r).
Proof.
  intros Hc. revert n. induction Hc as [|x c Hx Hc IH]; intros n Hn Hr.
  - destruct Hr as [->|[r' ->]]; by destruct n.
  - cbn [length] in Hn. destruct n as [|n]; [lia|]. cbn [app take_comp]. rewrite (proj2 (Z.eqb_neq x 47) Hx). by rewrite IH by (done || lia).
Qed.

Lemma chunk_length bpc data : 0 <= bpc -> Z.of_nat (length (chunk_of bpc data)) = bpc.
Proof. intros. unfold chunk_of. rewrite length_app, length_take, length_replicate. lia. Qed.
Lemma chunk_bytes bpc data : Forall byte data -> Forall byte (chunk_of bpc data).
Proof. intros. unfold chunk_of. apply Forall_app_2; [by apply Forall_take|apply Forall_replicate; lia]. Qed.
Lemma chunk_rest bpc data : drop (Z.to_nat bpc) data <> [] -> chunk_of bpc data = take (Z.to_nat bpc) data.
Proof.
  intros Hr. unfold chunk_of. replace (Z.to_nat bpc - length data)%nat with 0%nat; [by rewrite app_nil_r|].
  destruct (decide (length data <= Z.to_nat bpc)%nat); [|lia]. destruct Hr. by apply drop_ge.
Qed.
Lemma chunk_last bpc data : drop (Z.to_nat bpc) data = [] -> chunk_of bpc data = data ++ replicate (Z.to_nat bpc - length data) 0.
Proof. intros Hr. unfold chunk_of. f_equal. rewrite <-(take_drop (Z.to_nat bpc) data) at 2. by rewrite Hr, app_nil_r. Qed.

(** Rows of a table of width [n]. *)
Lemma row_inj n f g i k : 0 <= i < n -> 0 <= k < n -> f * n + i = g * n + k -> f = g /\ i = k.
Proof.
  intros Hi Hk E. assert (Ef : (f * n + i) / n = f) by (rewrite Z.div_add_l, Z.div_small by lia; lia).
  assert (Eg : (g * n + k) / n = g) by (rewrite Z.div_add_l, Z.div_small by lia; lia). rewrite E in Ef. split; [congruence|]. assert (f = g) by congruence. subst. lia.
Qed.


(** A disk in memory works. *)
Abbreviation ramdisk := (gmap Z (list Z)).
Definition clean (l : list Z) : list Z := take 512 ((u8 <$> l) ++ replicate 512 0).
Definition ram_sector (d : ramdisk) (lba : Z) : list Z := clean (default [] (d !! lba)).
Fixpoint ram_write (d : ramdisk) (lba : Z) (n : nat) (buf : list Z) : ramdisk :=
  match n with O => d | S n' => ram_write (<[lba := take 512 buf]> d) (lba + 1) n' (drop 512 buf) end.
#[export] Instance ram_device : BlockDevice ramdisk := {
  dev_read d lba n := Some (sectors (ram_sector d) lba (Z.to_nat n));
  dev_write d lba n buf := (true, ram_write d lba (Z.to_nat n) buf);
}.

Lemma clean_id l : length l = 512%nat -> Forall byte l -> clean l = l.
Proof.
  intros Hl Hb. unfold clean. rewrite take_app_length' by (by rewrite length_fmap). clear Hl.
  induction Hb as [|x l Hx Hb IH]; [done|]. rewrite fmap_cons, IH. by rewrite u8_small.
Qed.
Lemma clean_length l : length (clean l) = 512%nat.
Proof. unfold clean. rewrite length_take, length_app, length_replicate, length_fmap. lia. Qed.
Lemma clean_bytes l : Forall byte (clean l).
Proof.
  unfold clean. apply Forall_take, Forall_app_2; [|apply Forall_replicate; lia].
  apply Forall_fmap. apply Forall_true. intros. apply u8_range.
Qed.

Lemma ram_write_sector d lba n buf l : length buf = (512 * n)%nat -> Forall byte buf ->
  ram_sector (ram_write d lba n buf) l =
    if decide (lba <= l < lba + Z.of_nat n) then take 512 (drop (Z.to_nat (512 * (l - lba))) buf) else ram_sector d l.
Proof.
  revert d lba buf. induction n as [|n IH]; intros d lba buf Hl Hb; cbn [ram_write]; [by rewrite decide_False by lia|].
  rewrite IH by (rewrite ?length_drop; try lia; by apply Forall_drop). unfold ram_sector. destruct (decide (l = lba)) as [->|Hne].
  - rewrite decide_False, decide_True, lookup_insert_eq by lia. change (default [] (Some (take 512 buf))) with (take 512 buf). rewrite clean_id; [|rewrite length_take; lia|by apply Forall_take].
    by replace (Z.to_nat (512 * (lba - lba))) with 0%nat by lia.
  - rewrite lookup_insert_ne by done. repeat case_decide; try lia; [|done]. rewrite drop_drop. do 2 f_equal. lia.
Qed.

#[export] Instance ram_working : WorkingDevice ramdisk.
Proof.
  refine {| capacity := 2 ^ 32; sector := ram_sector |}.
  - intros. apply clean_length.
  - intros. apply clean_bytes.
  - done.
  - intros d lba n buf Hlba _ Hn Hl Hb. eexists. split; [reflexivity|]. intros l. rewrite ram_write_sector by (done || lia). by rewrite Z2Nat.id by lia.
Defined.
