(* ===== verification/Clusters.v ===== *)
(** Files and directories as chains of clusters: the loops that
    [src/kernel/src/fs/fat16.cpp] and [src/kernel/src/fs/fat32.cpp] have in
    common, word for word but for the widths and marks of their tables.

    The class [ClusterOps] holds what a driver supplies: clusters, the
    allocation table and the format of a directory entry.  The class
    [ClusterStore] states what these operations promise; the facts on chains,
    files and directories are proved from it and hold for both drivers.  A
    chain is followed with [fuel], since the one on the disk may be cyclic. *)
From S2P Require Import Prelude NetPacket Disk.

Class ClusterOps (V : Type) := {
  rd_cluster : Z -> ST V (option (list Z));
  wr_cluster : Z -> list Z -> ST V bool;
  zero_cluster : Z -> ST V bool;
  next_cl : Z -> ST V Z;
  link : Z -> Z -> ST V bool;
  alloc_cl : ST V Z;
  cluster_bytes : V -> Z;
  (** The least value that ends a chain, the one written for it, and the
      conversion of a cluster number to a table entry. *)
  eoc : Z;
  eoc_mark : Z;
  narrow : Z -> Z;
  put_entry : list Z -> nat -> list Z -> Z -> Z -> Z -> list Z;
  get_start : list Z -> Z;
}.

Section Loops.
Context {V : Type} `{ClusterOps V}.

(** A value of the table that does not continue a chain. *)
Definition ends (nxt : Z) : bool := (eoc <=? nxt) || (nxt =? 0).

(** ** Directories *)

(** A new cluster linked behind [cur]; [None] when there is none or a write fails. *)
Definition extend (cur : Z) : ST V (option Z) :=
  let! newCl := alloc_cl in
  if newCl <? 2 then ret None
  else check (link cur (narrow newCl)) or None in check (link newCl eoc_mark) or None in ret (Some newCl).

(** The entry for a new file or directory in the chain of a directory, which
    grows when it is full. *)
Fixpoint add_entry (fuel : nat) (cur : Z) (short11 : list Z) (attr startCluster size : Z) : ST V bool :=
  match fuel with
  | O => stuck
  | S fuel' =>
      let! bpc := gets cluster_bytes in
      let? cl := rd_cluster cur or false in
      match free_slot (Z.to_nat (bpc / 32)) 0 cl with
      | Some off => wr_cluster cur (put_entry cl off short11 attr startCluster size)
      | None =>
          let! nxt := next_cl cur in
          if ends nxt then
            let? newCl := extend cur or false in
            check (zero_cluster newCl) or false in
            add_entry fuel' newCl short11 attr startCluster size
          else add_entry fuel' nxt short11 attr startCluster size
      end
  end.

(** The search along the chain of a directory with [bytes] in a cluster: the
    cluster that holds the entry, its offset and the entry. *)
Fixpoint find_in_chain (fuel : nat) (bytes cl : Z) (P : list Z -> bool) : ST V (option (Z * nat * list Z)) :=
  if (2 <=? cl) && (cl <? eoc) then
    match fuel with
    | O => stuck
    | S fuel' =>
        let? buf := rd_cluster cl or None in
        match scan (Z.to_nat (bytes / 32)) 0 buf P with
        | Found off e => ret (Some (cl, off, e))
        | _ =>
            let! next := next_cl cl in
            if ends next then ret None else find_in_chain fuel' bytes next P
        end
    end
  else ret None.

(** Bytes of an entry replaced in its cluster. *)
Definition patch_entry (entryCl : Z) (off : nat) (bs : list Z) : ST V bool :=
  let? buf := rd_cluster entryCl or false in wr_cluster entryCl (patch buf off bs).

Fixpoint enum_chain (fuel : nat) (cl : Z) (cb : DirEntry -> bool) (acc : list DirEntry) : ST V (option (list DirEntry)) :=
  if (2 <=? cl) && (cl <? eoc) then
    match fuel with
    | O => stuck
    | S fuel' =>
        let! bpc := gets cluster_bytes in
        let? buf := rd_cluster cl or None in
        let '(acc, go) := enum_entries (Z.to_nat (bpc / 32)) 0 buf cb acc in
        if go then let! nxt := next_cl cl in enum_chain fuel' nxt cb acc else ret (Some acc)
    end
  else ret (Some acc).

(** ** Files *)

Fixpoint read_chain (fuel : nat) (cl toRead : Z) (acc : list Z) : ST V (list Z) :=
  if (2 <=? cl) && (cl <? eoc) && (Z.of_nat (length acc) <? toRead) then
    match fuel with
    | O => stuck
    | S fuel' =>
        let! bpc := gets cluster_bytes in
        let? buf := rd_cluster cl or acc in
        let read := Z.of_nat (length acc) in
        let chunk := if toRead <? u32 (read + bpc) then toRead - read else bpc in
        let acc := acc ++ take (Z.to_nat chunk) buf in
        let! nxt := next_cl cl in
        if ends nxt then ret acc else read_chain fuel' nxt toRead acc
    end
  else ret acc.

(** The clusters of a new file; [current] takes the next chunk. *)
Fixpoint write_new (n : nat) (current : Z) (data : list Z) : ST V bool :=
  match data, n with
  | [], _ => ret true
  | _, O => stuck
  | _, S n' =>
      let! bpc := gets cluster_bytes in
      check (wr_cluster current (chunk_of bpc data)) or false in
      let rest := drop (Z.to_nat bpc) data in
      if decide (rest = []) then ret true
      else
        let? nextCl := extend current or false in
        check (zero_cluster nextCl) or false in
        write_new n' nextCl rest
  end.
(** The chain of a new file: its first cluster. *)
Definition store_data (data : list Z) : ST V (option Z) :=
  let! newCl := alloc_cl in
  if newCl <? 2 then ret None
  else
    check (zero_cluster newCl) or None in
    check (link newCl eoc_mark) or None in
    check (write_new (length data) newCl data) or None in
    ret (Some newCl).

(** The last cluster of a chain. *)
Fixpoint last_cluster (fuel : nat) (cl : Z) : ST V Z :=
  match fuel with
  | O => stuck
  | S fuel' =>
      let! nxt := next_cl cl in
      if ends nxt then ret cl else last_cluster fuel' nxt
  end.

(** The clusters added behind [lastCl]. *)
Fixpoint append_clusters (n : nat) (lastCl : Z) (data : list Z) : ST V bool :=
  match data, n with
  | [], _ => ret true
  | _, O => stuck
  | _, S n' =>
      let? newCl := extend lastCl or false in
      let! bpc := gets cluster_bytes in
      check (wr_cluster newCl (chunk_of bpc data)) or false in
      append_clusters n' newCl (drop (Z.to_nat bpc) data)
  end.

(** The last cluster takes the first part of the data, from [off] on, when
    [into_last] says so; what remains. *)
Definition fill_tail (lastCl off : Z) (into_last : bool) (data : list Z) : ST V (option (list Z)) :=
  if into_last then
    let! bpc := gets cluster_bytes in
    let? buf := rd_cluster lastCl or None in
    let space := bpc - off in
    check (wr_cluster lastCl (patch buf (Z.to_nat off) (take (Z.to_nat space) data))) or None in
    ret (Some (drop (Z.to_nat space) data))
  else ret (Some data).
(** Data behind the [size] bytes of a file. *)
Definition append_data (fuel : nat) (startCl size : Z) (into_last : bool) (data : list Z) : ST V bool :=
  let! bpc := gets cluster_bytes in
  let! lastCl := last_cluster fuel startCl in
  let? rest := fill_tail lastCl (size mod bpc) into_last data or false in
  append_clusters (length rest) lastCl rest.

(** ** Files in the chain of a directory *)

Definition new_file (fuel : nat) (dirCl : Z) (short11 data : list Z) : ST V (option Z) :=
  let? newCl := store_data data or None in
  let len := Z.of_nat (length data) in
  check (add_entry fuel dirCl short11 0x20 newCl len) or None in
  ret (Some len).
Definition append_entry (fuel : nat) (entryCl : Z) (entryOff : nat) (e : list Z) (into_last : bool) (data : list Z) : ST V (option Z) :=
  check (append_data fuel (get_start e) (entry_size e) into_last data) or None in
  let fileSize := u32 (entry_size e + Z.of_nat (length data)) in
  check (patch_entry entryCl (entryOff + 28) (le32 fileSize)) or None in
  ret (Some (Z.of_nat (length data))).
End Loops.

(** * What the operations promise *)

Definition entry_holds (start : list Z -> Z) (sh : list Z) (attr sc size : Z) (e : list Z) : Prop :=
  take 11 e = sh /\ entry_attr e = attr /\ start e = sc /\ entry_size e = size.

(** [fat] is the table, [clus] the bytes of a cluster, and [kept] relates two
    states of a volume that differ at most in these.  Operations within the
    table succeed and change what they name; [alloc_cl] takes the lowest free
    cluster, or returns 0 when there is none. *)
Class ClusterStore (V : Type) `{ClusterOps V} := {
  vol_wf : V -> Prop;
  entries : V -> Z;
  fat : V -> Z -> Z;
  clus : V -> Z -> list Z;
  kept : V -> V -> Prop;
  kept_refl : forall s, kept s s;
  kept_trans : forall s s1 s2, kept s s1 -> kept s1 s2 -> kept s s2;
  kept_wf : forall s s', kept s s' -> vol_wf s -> vol_wf s';
  kept_entries : forall s s', kept s s' -> entries s' = entries s;
  kept_bytes : forall s s', kept s s' -> cluster_bytes s' = cluster_bytes s;
  eoc_le : 2 <= eoc <= eoc_mark;
  entries_le : forall s, vol_wf s -> 2 <= entries s <= eoc;
  narrow_id : forall s c, vol_wf s -> 0 <= c < entries s -> narrow c = c;
  bytes_value : forall s, vol_wf s -> exists n, 1 <= n <= 255 /\ cluster_bytes s = 512 * n;
  clus_size : forall s c, vol_wf s -> Z.of_nat (length (clus s c)) = cluster_bytes s;
  clus_byte : forall s c, Forall byte (clus s c);
  rd_ok : forall s c, vol_wf s -> 2 <= c < entries s -> rd_cluster c s = Some (Some (clus s c), s);
  next_ok : forall s c, vol_wf s -> 2 <= c < entries s -> next_cl c s = Some (fat s c, s);
  wr_ok : forall s c buf, vol_wf s -> 2 <= c < entries s -> Z.of_nat (length buf) = cluster_bytes s -> Forall byte buf ->
    exists s', wr_cluster c buf s = Some (true, s') /\ kept s s' /\ (forall b, 0 <= b < entries s -> fat s' b = fat s b) /\
      forall b, 2 <= b < entries s -> clus s' b = if decide (b = c) then buf else clus s b;
  zero_ok : forall s c, vol_wf s -> 2 <= c < entries s ->
    exists s', zero_cluster c s = Some (true, s') /\ kept s s' /\ (forall b, 0 <= b < entries s -> fat s' b = fat s b) /\
      (forall i, byte_at (clus s' c) i = 0) /\ forall b, 2 <= b < entries s -> b <> c -> clus s' b = clus s b;
  link_ok : forall s c v, vol_wf s -> 2 <= c < entries s -> 2 <= v < entries s \/ v = eoc_mark ->
    exists s', link c v s = Some (true, s') /\ kept s s' /\ (forall b, 0 <= b < entries s -> fat s' b = if decide (b = c) then v else fat s b) /\
      forall b, 2 <= b < entries s -> clus s' b = clus s b;
  alloc_ok : forall s, vol_wf s ->
    (exists c s', alloc_cl s = Some (c, s') /\ 2 <= c < entries s /\ fat s c = 0 /\ (forall b, 2 <= b < c -> fat s b <> 0) /\
      kept s s' /\ (forall b, 0 <= b < entries s -> fat s' b = if decide (b = c) then eoc_mark else fat s b) /\
      forall b, 2 <= b < entries s -> clus s' b = clus s b) \/
    (alloc_cl s = Some (0, s) /\ forall c, 2 <= c < entries s -> fat s c <> 0);
  put_entry_ok : forall buf o sh attr sc size, Forall byte buf -> Forall byte sh -> length sh = 11%nat -> (o + 32 <= length buf)%nat ->
    0 <= attr < 256 -> 0 <= sc < eoc -> 0 <= size < 2 ^ 32 ->
    let buf' := put_entry buf o sh attr sc size in
    length buf' = length buf /\ Forall byte buf' /\ same_outside buf buf' o /\ entry_holds get_start sh attr sc size (entry_at buf' o);
  get_start_eq : forall e e', (forall i, (20 <= i < 28)%nat -> byte_at e' i = byte_at e i) -> get_start e' = get_start e;
}.

Section Chains.
Context {V : Type} `{ClusterStore V}.
Implicit Types (s : V) (c cl v : Z).

Abbreviation is_entry := (entry_holds get_start).
(** Every entry that a cluster number can select is taken. *)
Definition full s : Prop := forall c, 2 <= c < entries s -> fat s c <> 0.

Lemma bytes_pos s : vol_wf s -> 512 <= cluster_bytes s < 2 ^ 17.
Proof. intros Hwf. destruct (bytes_value s Hwf) as (n & Hn & ->). lia. Qed.

(** ** Frames *)

(** From [s] to [s'], of the clusters in use only those in [W] change, in the
    table or in their bytes, and no cluster is released. *)
Record ext (W : Z -> Prop) s s' : Prop := {
  ext_kept : kept s s';
  ext_fat : forall c, 0 <= c < entries s -> fat s c <> 0 -> ~ W c -> fat s' c = fat s c;
  ext_clus : forall c, 2 <= c < entries s -> fat s c <> 0 -> ~ W c -> clus s' c = clus s c;
  ext_used : forall c, 0 <= c < entries s -> fat s c <> 0 -> fat s' c <> 0;
}.

Lemma ext_refl W s : ext W s s.
Proof. split; try done. apply kept_refl. Qed.
Lemma ext_wf W s s' : ext W s s' -> vol_wf s -> vol_wf s'.
Proof. intros [E _ _ _]. by apply kept_wf. Qed.
Lemma ext_entries W s s' : ext W s s' -> entries s' = entries s.
Proof. intros [E _ _ _]. by apply kept_entries. Qed.
Lemma ext_bpc W s s' : ext W s s' -> cluster_bytes s' = cluster_bytes s.
Proof. intros [E _ _ _]. by apply kept_bytes. Qed.

Lemma ext_trans (W W' : Z -> Prop) s s1 s2 : ext W s s1 -> ext W' s1 s2 -> (forall c, W' c -> W c \/ fat s c = 0) -> ext W s s2.
Proof.
  intros He1 He2 HW. pose proof (ext_entries _ _ _ He1) as Ge. destruct He1 as [D1 F1 C1 U1], He2 as [D2 F2 C2 U2]. rewrite Ge in *. split.
  - by apply (kept_trans _ s1).
  - intros c Hc Hz Hw. assert (~ W' c) by (intros Hw'; destruct (HW c Hw'); done). rewrite F2 by auto. by apply F1.
  - intros c Hc Hz Hw. assert (~ W' c) by (intros Hw'; destruct (HW c Hw'); done). rewrite C2 by first [done | apply U1; [lia|done]]. by apply C1.
  - auto.
Qed.
Lemma ext_weaken (W W' : Z -> Prop) s s' : ext W s s' -> (forall c, W c -> W' c) -> ext W' s s'.
Proof. intros [] HW. split; auto. Qed.

(** Writing a cluster; the steps of the loops. *)
Lemma write_ext s cl buf : vol_wf s -> 2 <= cl < entries s -> Z.of_nat (length buf) = cluster_bytes s -> Forall byte buf ->
  exists s', wr_cluster cl buf s = Some (true, s') /\ ext (eq cl) s s' /\ clus s' cl = buf /\ forall c, 0 <= c < entries s -> fat s' c = fat s c.
Proof.
  intros Hwf Hc Hl Hb. destruct (wr_ok s cl buf Hwf Hc Hl Hb) as (s' & E & Hk & Hf & Hcl). exists s'. split_and!; [done| |by rewrite Hcl, decide_True by done|done]. split; [done| | |].
  - intros c Hr _ _. by apply Hf.
  - intros c Hr _ Hne. rewrite Hcl, decide_False; auto.
  - intros c Hr. by rewrite Hf.
Qed.
Lemma write_cluster_step {B} s cl buf (e : B) (k : ST V B) : vol_wf s -> 2 <= cl < entries s -> Z.of_nat (length buf) = cluster_bytes s -> Forall byte buf ->
  exists s', (check (wr_cluster cl buf) or e in k) s = k s' /\ ext (eq cl) s s' /\ clus s' cl = buf /\ forall c, 0 <= c < entries s -> fat s' c = fat s c.
Proof. intros Hwf Hc Hl Hb. destruct (write_ext s cl buf Hwf Hc Hl Hb) as (s' & E & Hr). exists s'. by rewrite (bind_step _ _ _ _ _ E). Qed.
Lemma zero_cluster_step {B} s cl (e : B) (k : ST V B) : vol_wf s -> 2 <= cl < entries s ->
  exists s', (check (zero_cluster cl) or e in k) s = k s' /\ ext (eq cl) s s' /\ (forall i, byte_at (clus s' cl) i = 0) /\ forall c, 0 <= c < entries s -> fat s' c = fat s c.
Proof.
  intros Hwf Hc. destruct (zero_ok s cl Hwf Hc) as (s' & E & Hk & Hf & Hz & Hcl). exists s'. rewrite (bind_step _ _ _ _ _ E). split_and!; try done. split; [done| | |].
  - intros c Hr _ _. by apply Hf.
  - intros c Hr _ Hne. apply Hcl; auto.
  - intros c Hr. by rewrite Hf.
Qed.
Lemma link_ext s cl v : vol_wf s -> 2 <= cl < entries s -> 2 <= v < entries s \/ v = eoc_mark ->
  exists s', link cl v s = Some (true, s') /\ ext (eq cl) s s' /\ (forall c, 0 <= c < entries s -> fat s' c = if decide (c = cl) then v else fat s c) /\
    (forall c, 2 <= c < entries s -> clus s' c = clus s c).
Proof.
  intros Hwf Hc Hv. destruct (link_ok s cl v Hwf Hc Hv) as (s' & E & Hk & Ht & Hcl). exists s'. split_and!; try done. pose proof eoc_le. pose proof (entries_le s Hwf). split; [done| | |].
  - intros c Hr _ Hne. rewrite Ht, decide_False; auto.
  - auto.
  - intros c Hr Hz. rewrite Ht by done. case_decide; [lia|done].
Qed.
Lemma alloc_ext s : vol_wf s ->
  (exists c s', alloc_cl s = Some (c, s') /\ 2 <= c < entries s /\ fat s c = 0 /\ ext (fun _ => False) s s' /\
    (forall b, 0 <= b < entries s -> fat s' b = if decide (b = c) then eoc_mark else fat s b) /\ (forall b, 2 <= b < entries s -> clus s' b = clus s b)) \/
  (alloc_cl s = Some (0, s) /\ full s).
Proof.
  intros Hwf. destruct (alloc_ok s Hwf) as [(c & s' & E & Hc & Hz & _ & Hk & Ht & Hcl)|?]; [left; exists c, s'|by right]. split_and!; try done; try lia. split; [done| | |].
  - intros b Hb Hz' _. rewrite Ht by done. rewrite decide_False; [done|]. by intros ->.
  - intros b Hb _ _. by apply Hcl.
  - intros b Hb Hz'. rewrite Ht by done. pose proof eoc_le. pose proof (entries_le s Hwf). case_decide; [lia|done].
Qed.

(** A chain gets one more cluster. *)
Lemma extend_ok s last : vol_wf s -> 2 <= last < entries s -> fat s last <> 0 ->
  (exists nc s', extend last s = Some (Some nc, s') /\ ext (eq last) s s' /\ 2 <= nc < entries s /\ fat s nc = 0 /\ fat s' nc = eoc_mark /\ fat s' last = nc /\
    forall c, 2 <= c < entries s -> clus s' c = clus s c) \/
  (extend last s = Some (None, s) /\ full s).
Proof.
  intros Hwf Hl Hz. unfold extend. destruct (alloc_ext s Hwf) as [(nc & s1 & E1 & Hn & Hn0 & He1 & Ht1 & Hc1)|[E1 Hf]]; rewrite (bind_step _ _ _ _ _ E1).
  2:{ right. done. }
  left. rewrite (proj2 (Z.ltb_ge nc 2)) by lia. rewrite (narrow_id s) by (done || lia). assert (nc <> last) by congruence. pose proof (ext_entries _ _ _ He1) as G1.
  pose proof (ext_wf _ _ _ He1 Hwf) as Hwf1. destruct (link_ext s1 last nc Hwf1 ltac:(lia) ltac:(lia)) as (s2 & E2 & He2 & Ht2 & Hc2). rewrite (bind_step _ _ _ _ _ E2).
  pose proof (ext_entries _ _ _ He2) as G2. destruct (link_ext s2 nc eoc_mark (ext_wf _ _ _ He2 Hwf1) ltac:(lia) (or_intror eq_refl)) as (s3 & E3 & He3 & Ht3 & Hc3).
  rewrite (bind_step _ _ _ _ _ E3). rewrite G2, G1 in *. exists nc, s3. split_and!; try done; try lia.
  - apply (ext_trans _ (eq nc) s s2); [|done|by intros c <-; right]. eapply ext_trans; [apply (ext_weaken _ _ _ _ He1); done|exact He2|by left].
  - rewrite Ht3 by lia. by rewrite decide_True.
  - rewrite Ht3, decide_False, Ht2, decide_True by (done || lia). done.
  - intros c Hc. by rewrite Hc3, Hc2, Hc1.
Qed.
(** ** Chains *)

(** [cs] is a chain of the table, ended by an end mark. *)
Fixpoint chain s (cs : list Z) : Prop :=
  match cs with
  | [] => False
  | c :: cs' => 2 <= c < entries s /\ match cs' with [] => eoc <= fat s c | c' :: _ => fat s c = c' /\ chain s cs' end
  end.
Definition content s (cs : list Z) : list Z := concat (clus s <$> cs).

Lemma ends_eoc v : eoc <= v -> ends v = true.
Proof. intros Hv. unfold ends. by rewrite (proj2 (Z.leb_le _ _) Hv). Qed.
Lemma ends_in s v : vol_wf s -> 2 <= v < entries s -> ends v = false.
Proof. intros Hwf Hv. pose proof (entries_le s Hwf). unfold ends. by rewrite (proj2 (Z.leb_gt _ v)), (proj2 (Z.eqb_neq v 0)) by lia. Qed.
Lemma in_loop s v : vol_wf s -> 2 <= v < entries s -> (2 <=? v) && (v <? eoc) = true.
Proof. intros Hwf Hv. pose proof (entries_le s Hwf). by rewrite (proj2 (Z.leb_le 2 v)), (proj2 (Z.ltb_lt v _)) by lia. Qed.

Lemma chain_two s c c' cs : chain s (c :: c' :: cs) <-> 2 <= c < entries s /\ fat s c = c' /\ chain s (c' :: cs).
Proof. done. Qed.

Lemma chain_used s cs : chain s cs -> Forall (fun c => 2 <= c < entries s /\ fat s c <> 0) cs.
Proof.
  induction cs as [|c [|c' cs] IH]; [done| |]; cbn [chain].
  - intros [? ?]. pose proof eoc_le. repeat constructor; lia.
  - intros (? & E & Hc). specialize (IH Hc). constructor; [|done]. apply Forall_cons in IH as [[? _] _]. split; [done|]. lia.
Qed.
Lemma chain_ext (W : Z -> Prop) s s' cs : ext W s s' -> (forall c, c ∈ cs -> ~ W c) -> chain s cs -> chain s' cs /\ content s' cs = content s cs.
Proof.
  intros He Hw Hc. pose proof (ext_entries _ _ _ He) as Ge. pose proof (chain_used _ _ Hc) as Hu. split.
  - revert Hw Hc Hu. induction cs as [|c [|c' cs] IH]; [done| |]; intros Hw Hc Hu; apply Forall_cons in Hu as [[Hr Hz] Hu].
    + destruct Hc as [_ Hc]. split; [by rewrite Ge|]. rewrite (ext_fat _ _ _ He c); [done|lia|done|apply Hw; set_solver].
    + rewrite chain_two in Hc |- *. destruct Hc as (_ & E & Hc). rewrite Ge. split; [done|]. split; [rewrite (ext_fat _ _ _ He c); [done|lia|done|apply Hw; set_solver]|]. apply IH; try done. set_solver.
  - unfold content. f_equal. apply list_fmap_ext. intros i c Hi. rewrite Forall_lookup in Hu. destruct (Hu i c Hi). apply (ext_clus _ _ _ He); try done.
    apply Hw. by eapply list_elem_of_lookup_2.
Qed.

(** Reading a chain gives the first bytes of its content. *)
Lemma read_chain_ok fuel c cs toRead acc s : vol_wf s -> chain s (c :: cs) -> (length (c :: cs) <= fuel)%nat ->
  Z.of_nat (length acc) <= toRead -> toRead + cluster_bytes s < 2 ^ 32 ->
  read_chain fuel c toRead acc s = Some (take (Z.to_nat toRead) (acc ++ content s (c :: cs)), s).
Proof.
  intros Hwf. revert c cs acc. induction fuel as [|fuel IH]; intros c cs acc Hc Hf Ha Ht; cbn [length] in Hf; [lia|]. cbn [read_chain].
  pose proof (entries_le s Hwf). pose proof (chain_used _ _ Hc) as Hu. apply Forall_cons in Hu as [[Hr Hz] Hu]. cbn [chain] in Hc. destruct Hc as [_ Hc].
  rewrite (in_loop s) by done. cbn [andb]. destruct (Z.ltb_spec (Z.of_nat (length acc)) toRead) as [Hlt|Hge].
  2:{ unfold ret. rewrite take_app_le, take_ge by lia. done. }
  rewrite gets_step, (bind_step _ _ _ _ _ (rd_ok s c Hwf Hr)). pose proof (clus_size s c Hwf) as Hl.
  rewrite (bind_step _ _ _ _ _ (next_ok s c Hwf Hr)). pose proof (bytes_pos s Hwf). rewrite u32_small by lia.
  set (chunk := if _ <? _ then _ else _). assert (Hch : chunk = Z.min (toRead - Z.of_nat (length acc)) (cluster_bytes s)) by (subst chunk; destruct (Z.ltb_spec toRead (Z.of_nat (length acc) + cluster_bytes s)); lia).
  assert (Htake : take (Z.to_nat toRead) (acc ++ clus s c) = acc ++ take (Z.to_nat chunk) (clus s c)).
  { rewrite take_app, take_ge by lia. f_equal. rewrite Hch. destruct (decide (toRead - Z.of_nat (length acc) <= cluster_bytes s)); [f_equal; lia|]. rewrite !take_ge by lia. done. }
  unfold content. rewrite fmap_cons. cbn [concat]. rewrite app_assoc. destruct cs as [|c' cs].
  - rewrite (ends_eoc _ Hc). unfold ret. rewrite <-Htake. cbn [concat fmap list_fmap]. by rewrite app_nil_r.
  - destruct Hc as [E Hc]. rewrite E. apply Forall_cons in Hu as [[Hr' _] _]. rewrite (ends_in s) by done.
    rewrite (IH c' cs); [|done|cbn [length] in *; lia|rewrite length_app, length_take; lia|done]. rewrite <-Htake. fold (content s (c' :: cs)). f_equal. f_equal.
    rewrite !(take_app _ (content s _)), take_take, Nat.min_id. rewrite length_take. destruct (decide (Z.to_nat toRead <= length (acc ++ clus s c))%nat).
    + by replace (Z.to_nat toRead - (Z.to_nat toRead `min` length (acc ++ clus s c)))%nat with (Z.to_nat toRead - length (acc ++ clus s c))%nat by lia.
    + f_equal. f_equal. lia.
Qed.

(** The data of a new file in a chain that starts at [cur]; the only failure is
    a full table. *)
Lemma write_new_ok n cur data s : vol_wf s -> 2 <= cur < entries s -> eoc <= fat s cur -> Forall byte data -> data <> [] -> (length data <= n)%nat ->
  exists b s', write_new n cur data s = Some (b, s') /\ ext (eq cur) s s' /\
    if b then exists cs k, chain s' (cur :: cs) /\ content s' (cur :: cs) = data ++ replicate k 0 /\ Forall (fun c => fat s c = 0) cs else full s'.
Proof.
  revert cur data s. induction n as [|n IH]; intros cur data s Hwf Hc Hz Hb Hd Hn; [destruct data; cbn [length] in Hn; [done|lia]|].
  destruct data as [|x data]; [done|]. cbn [write_new]. set (dat := x :: data) in *. rewrite gets_step. pose proof (bytes_pos s Hwf). pose proof eoc_le.
  match goal with |- context [bind (wr_cluster cur ?b) ?f] => set (k := if decide (drop (Z.to_nat (cluster_bytes s)) dat = []) then _ else _) end.
  destruct (write_cluster_step s cur (chunk_of (cluster_bytes s) dat) false k Hwf Hc) as (s1 & E1 & He1 & Hw1 & Hf1); [apply chunk_length; lia|by apply chunk_bytes|].
  rewrite E1. subst k. pose proof (ext_wf _ _ _ He1 Hwf) as Hwf1. pose proof (ext_entries _ _ _ He1) as Ge1. case_decide as Hrest.
  { exists true, s1. split_and!; try done. exists [], (Z.to_nat (cluster_bytes s) - length dat)%nat. split_and!; [|by unfold content; cbn; rewrite app_nil_r, Hw1, chunk_last|done].
    cbn [chain]. rewrite Ge1, Hf1 by lia. done. }
  destruct (extend_ok s1 cur Hwf1) as [(nc & s2 & E2 & He2 & Hn2 & Hz2 & Hm2 & Hl2 & Hc2)|[E2 Hfull]]; [lia|rewrite Hf1; lia| |]; rewrite (bind_step _ _ _ _ _ E2).
  2:{ exists false, s1. done. }
  pose proof (ext_wf _ _ _ He2 Hwf1) as Hwf2. pose proof (ext_entries _ _ _ He2) as Ge2. rewrite Ge1 in *. rewrite Hf1 in Hz2 by lia.
  destruct (zero_cluster_step s2 nc false (write_new n nc (drop (Z.to_nat (cluster_bytes s)) dat)) Hwf2 ltac:(lia)) as (s3 & E3 & He3 & _ & Hf3). rewrite E3, Ge2 in *.
  pose proof (ext_wf _ _ _ He3 Hwf2) as Hwf3. pose proof (ext_entries _ _ _ He3) as Ge3. rewrite Ge2 in Ge3.
  destruct (IH nc (drop (Z.to_nat (cluster_bytes s)) dat) s3 Hwf3) as (b & s4 & E4 & He4 & Hres); [lia|rewrite Hf3; lia|by apply Forall_drop|done|rewrite length_drop; lia|].
  assert (He12 : ext (eq cur) s s2) by (eapply ext_trans; [exact He1|exact He2|by left]).
  assert (He13 : ext (eq cur) s s3) by (eapply ext_trans; [exact He12|exact He3|by intros c <-; right]).
  exists b, s4. split; [exact E4|]. split; [eapply ext_trans; [exact He13|exact He4|by intros c <-; right]|].
  destruct b; [|done]. destruct Hres as (cs & k & Hch & Hcont & Hfree). exists (nc :: cs), k. pose proof (ext_entries _ _ _ He4) as Ge4.
  assert (nc <> cur) by (intros ->; lia). split_and!.
  - rewrite chain_two. split; [lia|]. split; [|done]. rewrite (ext_fat _ _ _ He4), Hf3 by (try lia; rewrite ?Hf3; lia). done.
  - unfold content in *. rewrite fmap_cons. cbn [concat]. rewrite Hcont. rewrite (ext_clus _ _ _ He4), (ext_clus _ _ _ He3), Hc2, Hw1, chunk_rest by (try lia; rewrite ?Hf3; lia || done).
    by rewrite app_assoc, take_drop.
  - pose proof (chain_used _ _ Hch) as Hu. apply Forall_cons in Hu as [_ Hu]. constructor; [done|]. rewrite Forall_forall in Hfree, Hu |- *. intros c Hin.
    destruct (Hu c Hin) as [Hr _]. destruct (decide (fat s c = 0)); [done|]. by destruct (ext_used _ _ _ He13 c ltac:(lia)); [|apply Hfree].
Qed.
(** A chain that ends has no cluster twice, so its length is bounded. *)
Lemma chain_det s c cs cs' : vol_wf s -> chain s (c :: cs) -> chain s (c :: cs') -> cs = cs'.
Proof.
  intros Hwf. pose proof (entries_le s Hwf). revert c cs'. induction cs as [|x cs IH]; intros c [|y cs'] H1' H2'; [done| | |].
  - destruct H1' as [_ H1']. rewrite chain_two in H2'. destruct H2' as (_ & E & [? _]). lia.
  - destruct H2' as [_ H2']. rewrite chain_two in H1'. destruct H1' as (_ & E & [? _]). lia.
  - rewrite chain_two in H1', H2'. destruct H1' as (_ & <- & H1'), H2' as (_ & <- & H2'). f_equal. by apply (IH (fat s c)).
Qed.
Lemma chain_suffix s (pre : list Z) c r : chain s (pre ++ c :: r) -> chain s (c :: r).
Proof. induction pre as [|x pre IH]; [done|]. destruct pre as [|y pre]; cbn [app] in *; rewrite chain_two; intros (_ & _ & Hc); [done|by apply IH]. Qed.
Lemma chain_nodup s cs : vol_wf s -> chain s cs -> NoDup cs.
Proof.
  intros Hwf. induction cs as [|c cs IH]; [constructor|]. intros Hc. constructor.
  - intros Hin. apply list_elem_of_split in Hin as (l & r & ->). pose proof (chain_suffix s (c :: l) c r Hc) as Hs. pose proof (chain_det _ _ _ _ Hwf Hc Hs) as E.
    apply (f_equal length) in E. rewrite length_app in E. cbn [length] in E. lia.
  - destruct cs as [|c' cs]; [constructor|]. rewrite chain_two in Hc. apply IH, Hc.
Qed.
Lemma cluster_chain_length s cs : vol_wf s -> chain s cs -> Z.of_nat (length cs) <= entries s.
Proof.
  intros Hwf Hc. pose proof (entries_le s Hwf). assert (Hs : cs ⊆+ seqZ 0 (entries s)).
  { apply NoDup_submseteq; [by apply (chain_nodup s)|]. intros c Hin. apply elem_of_seqZ. pose proof (chain_used _ _ Hc) as Hu. rewrite Forall_forall in Hu. destruct (Hu c Hin). lia. }
  apply submseteq_length in Hs. rewrite length_seqZ in Hs. lia.
Qed.

(** ** Directories in chains *)

Definition slots s : nat := Z.to_nat (cluster_bytes s / 32).
Fixpoint find_spec s (P : list Z -> bool) (cs : list Z) : option (Z * nat * list Z) :=
  match cs with
  | [] => None
  | c :: cs' => match scan (slots s) 0 (clus s c) P with Found off e => Some (c, off, e) | _ => find_spec s P cs' end
  end.

Lemma find_in_chain_ok fuel c cs P s : vol_wf s -> chain s (c :: cs) -> (length (c :: cs) <= fuel)%nat ->
  find_in_chain fuel (cluster_bytes s) c P s = Some (find_spec s P (c :: cs), s).
Proof.
  intros Hwf. pose proof (entries_le s Hwf). revert c cs. induction fuel as [|fuel IH]; intros c cs Hc Hf; cbn [length] in Hf; [lia|]. cbn [find_in_chain].
  pose proof (chain_used _ _ Hc) as Hu. apply Forall_cons in Hu as [[Hr Hz] Hu]. rewrite (in_loop s) by done. cbn [find_spec].
  rewrite (bind_step _ _ _ _ _ (rd_ok s c Hwf Hr)). fold (slots s).
  assert (Hnext : (let! next := next_cl c in if ends next then ret None else find_in_chain fuel (cluster_bytes s) next P) s = Some (find_spec s P cs, s)).
  { rewrite (bind_step _ _ _ _ _ (next_ok s c Hwf ltac:(lia))). destruct cs as [|c' cs].
    - destruct Hc as [_ Hc]. by rewrite ends_eoc.
    - rewrite chain_two in Hc. destruct Hc as (_ & -> & Hc). apply Forall_cons in Hu as [[Hr' _] _].
      rewrite (ends_in s) by done. apply IH; [done|cbn [length] in *; lia]. }
  destruct (scan _ _ _ _); done.
Qed.

Lemma find_spec_ext (W : Z -> Prop) s s' P cs : ext W s s' -> (forall c, c ∈ cs -> ~ W c) -> Forall (fun c => 2 <= c < entries s /\ fat s c <> 0) cs ->
  find_spec s' P cs = find_spec s P cs.
Proof.
  intros He Hw Hu. induction Hu as [|c cs [Hr Hz] Hu IH]; [done|]. cbn [find_spec]. rewrite (ext_clus _ _ _ He c) by (try done; apply Hw; set_solver).
  unfold slots. rewrite (ext_bpc _ _ _ He). fold (slots s). by rewrite IH by set_solver.
Qed.
Lemma find_spec_impl s (P Q : list Z -> bool) cs : (forall e, P e = true -> Q e = true) -> find_spec s Q cs = None -> find_spec s P cs = None.
Proof.
  intros HPQ. induction cs as [|c cs IH]; [done|]. cbn [find_spec]. intros Hn. pose proof (scan_impl (slots s) 0 (clus s c) P Q HPQ) as Hm. unfold no_match in Hm.
  destruct (scan _ _ _ Q); [done|..]; rewrite Hm by done; by apply IH.
Qed.
Lemma chain_same_fat s s' cs : entries s' = entries s -> (forall c, 0 <= c < entries s -> fat s' c = fat s c) -> chain s cs -> chain s' cs.
Proof.
  intros Ge Hf. induction cs as [|c [|c' cs] IH]; [done| |].
  - intros [Hr Hc]. split; [by rewrite Ge|]. by rewrite Hf by lia.
  - rewrite !chain_two. intros (Hr & E & Hc). rewrite Ge, Hf by lia. auto.
Qed.
Lemma slots_ext (W : Z -> Prop) s s' : ext W s s' -> slots s' = slots s.
Proof. intros He. unfold slots. by rewrite (ext_bpc _ _ _ He). Qed.
Lemma slots_value s : vol_wf s -> 32 * Z.of_nat (slots s) = cluster_bytes s.
Proof. intros Hwf. unfold slots. destruct (bytes_value s Hwf) as (n & Hn & ->). clear -Hn. zdiv. Qed.

Section AddEntry.
Variables (sh : list Z) (attr sc size : Z).
Hypotheses (Hsh : length sh = 11%nat) (Hbytes : Forall byte sh) (Hfirst : byte_at sh 0 <> 0 /\ byte_at sh 0 <> 0xE5).
Hypotheses (Hattr : 0 <= attr < 256 /\ attr <> 0x0F) (Hsc : 0 <= sc < eoc) (Hsize : 0 <= size < 2 ^ 32).

(** The entry in the first free slot of a cluster. *)
Lemma add_here fuel c s o : vol_wf s -> 2 <= c < entries s -> free_slot (slots s) 0 (clus s c) = Some o ->
  exists s' e, add_entry (S fuel) c sh attr sc size s = Some (true, s') /\ ext (eq c) s s' /\ (forall b, 0 <= b < entries s -> fat s' b = fat s b) /\ is_entry sh attr sc size e /\
    (forall P, P e = true -> no_match (slots s) 0 (clus s c) P -> scan (slots s) 0 (clus s' c) P = Found o e) /\
    (forall P, P e = false -> tidy (slots s) (clus s c) -> found (scan (slots s) 0 (clus s' c) P) = found (scan (slots s) 0 (clus s c) P)).
Proof.
  intros Hwf Hc Ho. cbn [add_entry]. rewrite gets_step, (bind_step _ _ _ _ _ (rd_ok s c Hwf Hc)). fold (slots s). rewrite Ho.
  pose proof (clus_size s c Hwf) as Hl. pose proof (slots_value s Hwf). destruct (free_slot_range _ _ _ _ Ho) as [_ Hr].
  set (buf' := put_entry _ _ _ _ _ _). destruct (put_entry_ok (clus s c) o sh attr sc size (clus_byte s c) Hbytes Hsh ltac:(lia) ltac:(lia) Hsc Hsize) as (Hl' & Hb' & Hso & He).
  fold buf' in Hl', Hb', Hso, He. destruct (write_ext s c buf' Hwf Hc) as (s' & E & Hx & Hw & Hf); [lia|done|].
  exists s', (entry_at buf' o). split; [exact E|]. split; [done|]. split; [done|]. pose proof He as (Hn & Ha & _).
  assert (H0' : byte_at buf' o = byte_at sh 0). { rewrite <-Hn. unfold byte_at, entry_at. rewrite !lookup_take_lt, lookup_drop by lia. by rewrite Nat.add_0_r. }
  assert (HF : byte_at buf' (o + 11) <> 0x0F) by (rewrite <-byte_at_entry by lia; unfold entry_attr in Ha; rewrite Ha; apply Hattr).
  split; [done|]. rewrite Hw. split; intros P HP Hm.
  - apply (scan_after_write (slots s) 0 o (clus s c) buf' P); try done; rewrite ?H0'; apply Hfirst.
  - apply (scan_added (slots s) 0 o); try done; [|by apply (tidy_from _ _ o)]. split; rewrite !byte_at_entry, ?Nat.add_0_r, ?H0' by lia; [apply Hfirst|]. split; [apply Hfirst|done].
Qed.

(** The entry in a cluster added to the directory. *)
Lemma add_grow fuel (d : Z) s : vol_wf s -> 2 <= d < entries s -> fat s d <> 0 ->
  exists b s', (let? newCl := extend d or false in check (zero_cluster newCl) or false in add_entry (S fuel) newCl sh attr sc size) s = Some (b, s') /\ ext (eq d) s s' /\
    if b then exists nc e, chain s' [d; nc] /\ fat s nc = 0 /\ is_entry sh attr sc size e /\
      (forall P, P e = true -> no_match (slots s) 0 (clus s d) P -> find_spec s' P [d; nc] = Some (nc, 0%nat, e)) /\
      (forall P, P e = false -> find_spec s' P [d; nc] = find_spec s P [d])
    else full s'.
Proof.
  intros Hwf Hr Hz. set (F := S fuel). pose proof eoc_le.
  destruct (extend_ok s d Hwf Hr Hz) as [(nc & s2 & E2 & He2 & Hn2 & Hz2 & Hm2 & Hl2 & Hc2)|[E2 Hfull]]; rewrite (bind_step _ _ _ _ _ E2); [|by exists false, s; split; [done|]; split; [apply ext_refl|]].
  pose proof (ext_wf _ _ _ He2 Hwf) as Hwf2. pose proof (ext_entries _ _ _ He2) as Ge2.
  destruct (zero_cluster_step s2 nc false (add_entry F nc sh attr sc size) Hwf2 ltac:(lia)) as (s3 & E3 & He3 & Hz3 & Hf3). rewrite E3, Ge2 in *.
  pose proof (ext_wf _ _ _ He3 Hwf2) as Hwf3. pose proof (ext_entries _ _ _ He3) as Ge3. rewrite Ge2 in Ge3.
  pose proof (slots_value s3 Hwf3). pose proof (bytes_pos s3 Hwf3).
  assert (Htidy : tidy (slots s3) (clus s3 nc)) by (intros i j _ _; apply Hz3).
  assert (Hsl : free_slot (slots s3) 0 (clus s3 nc) = Some 0%nat /\ forall P, no_match (slots s3) 0 (clus s3 nc) P).
  { destruct (slots s3) as [|k]; [lia|]. unfold no_match. cbn [free_slot scan]. fold (entry_at (clus s3 nc) 0). rewrite byte_at_entry by lia. cbn [Nat.add]. rewrite Hz3. done. }
  destruct Hsl as [Hs3 Hno]. destruct (add_here fuel nc s3 0%nat Hwf3 ltac:(lia) Hs3) as (s4 & e & E4 & He4 & Hsame & Hent & Hscan & Hother). exists true, s4. split; [exact E4|].
  assert (nc <> d) by congruence. rewrite Ge3 in Hsame. assert (He24 : ext (eq nc) s2 s4) by (eapply ext_trans; [exact He3|exact He4|by left]).
  split; [eapply ext_trans; [exact He2|exact He24|by intros c <-; right]|].
  pose proof (ext_entries _ _ _ He24) as Ge4. exists nc, e. split.
  { rewrite chain_two. cbn [chain]. rewrite Ge4, Ge2, !Hsame, !Hf3 by lia. split_and!; lia. }
  split; [done|]. split; [done|]. cbn [find_spec]. rewrite (slots_ext _ _ _ He24), (slots_ext _ _ _ He2).
  rewrite (ext_clus _ _ _ He24 d), Hc2 by (rewrite ?Ge2; lia). rewrite (slots_ext _ _ _ He3), (slots_ext _ _ _ He2) in Hscan, Hother, Hno, Htidy. split; intros P HP.
  - intros Hn. rewrite (Hscan P HP (Hno P)). unfold no_match in Hn. by destruct (scan _ _ (clus s d) _).
  - specialize (Hother P HP Htidy). specialize (Hno P). unfold no_match in Hno. destruct (scan _ _ (clus s d) P); [done|..]; by destruct (scan _ _ (clus s4 nc) P), (scan _ _ (clus s3 nc) P).
Qed.

Lemma find_head s P (d : Z) ds : find_spec s P (d :: ds) = None -> no_match (slots s) 0 (clus s d) P /\ find_spec s P ds = None.
Proof. unfold no_match. cbn [find_spec]. by destruct (scan _ _ _ _). Qed.
Lemma find_next s P (d : Z) ds : no_match (slots s) 0 (clus s d) P -> find_spec s P (d :: ds) = find_spec s P ds.
Proof. unfold no_match. cbn [find_spec]. by destruct (scan _ _ _ _). Qed.

(** The entry in the chain of a directory: a lookup that found nothing before
    finds it afterwards; the only failure is a full table. *)
Lemma add_entry_ok fuel (d : Z) ds s : vol_wf s -> chain s (d :: ds) -> (length (d :: ds) < fuel)%nat ->
  exists b s', add_entry fuel d sh attr sc size s = Some (b, s') /\ ext (fun c => c ∈ d :: ds) s s' /\
    if b then exists ds' e c o, chain s' (d :: ds') /\ (forall x, x ∈ ds' -> x ∈ ds \/ fat s x = 0) /\ is_entry sh attr sc size e /\
      (forall P, P e = true -> find_spec s P (d :: ds) = None -> find_spec s' P (d :: ds') = Some (c, o, e)) /\
      (forall P, P e = false -> (forall b, b ∈ d :: ds -> tidy (slots s) (clus s b)) -> find_spec s' P (d :: ds') = find_spec s P (d :: ds))
    else full s'.
Proof.
  revert d ds s. induction fuel as [|fuel IH]; intros d ds s Hwf Hc Hf; cbn [length] in Hf; [lia|]. pose proof (entries_le s Hwf).
  pose proof (chain_used _ _ Hc) as Hu. apply Forall_cons in Hu as [[Hr Hz] Hu]. destruct (free_slot (slots s) 0 (clus s d)) as [o|] eqn:Eo.
  { destruct (add_here fuel d s o Hwf Hr Eo) as (s' & e & E & He & Hsame & Hent & Hscan & Hother). exists true, s'. split; [exact E|]. split; [apply (ext_weaken _ _ _ _ He); set_solver|].
    exists ds, e, d, o. split; [by apply (chain_same_fat s); [apply (ext_entries _ _ _ He)|..]|]. split; [by left|]. split; [done|]. split.
    - intros P HP Hn. apply find_head in Hn as [Hn _]. cbn [find_spec]. rewrite (slots_ext _ _ _ He). by rewrite (Hscan P HP).
    - intros P HP Ht. pose proof (Hother P HP (Ht d ltac:(set_solver))) as Ef. cbn [find_spec]. rewrite (slots_ext _ _ _ He). pose proof (chain_nodup _ _ Hwf Hc) as Hnd. apply NoDup_cons in Hnd as [Hnd _].
      rewrite (find_spec_ext _ _ _ P ds He) by (done || (intros x Hx <-; done)). by destruct (scan _ _ (clus s' d) P), (scan _ _ (clus s d) P); simplify_eq/=. }
  cbn [add_entry]. rewrite gets_step, (bind_step _ _ _ _ _ (rd_ok s d Hwf Hr)). fold (slots s). rewrite Eo.
  rewrite (bind_step _ _ _ _ _ (next_ok s d Hwf ltac:(lia))). destruct ds as [|d' ds].
  - destruct Hc as [_ Hend]. rewrite (ends_eoc _ Hend). destruct fuel as [|fuel]; [cbn in Hf; lia|].
    destruct (add_grow fuel d s Hwf Hr Hz) as (b & s' & E & He & Hres). exists b, s'. split; [exact E|]. split; [apply (ext_weaken _ _ _ _ He); set_solver|].
    destruct b; [|done]. destruct Hres as (nc & e & Hch & Hnc & Hent & Hfind). destruct Hfind as [Hfind Hother]. exists [nc], e, nc, 0%nat. split_and!; [done|intros x Hx; apply list_elem_of_singleton in Hx as ->; by right|done| |by intros P HP _; apply Hother]. intros P HP Hn. by apply Hfind; [|apply find_head in Hn as [? _]].
  - pose proof (chain_nodup _ _ Hwf Hc) as Hnd. apply NoDup_cons in Hnd as [Hnd _]. rewrite chain_two in Hc. destruct Hc as (_ & Ed & Hc). rewrite Ed. apply Forall_cons in Hu as [[Hr' _] _].
    rewrite (ends_in s) by done.
    destruct (IH d' ds s Hwf Hc ltac:(cbn [length] in *; lia)) as (b & s' & E & He & Hres). exists b, s'. split; [exact E|]. split; [apply (ext_weaken _ _ _ _ He); set_solver|].
    destruct b; [|done]. destruct Hres as (ds' & e & c & o & Hch & Hold & Hent & Hfind & Hother). exists (d' :: ds'), e, c, o. split; [|split; [|split; [done|split]]].
    + rewrite chain_two. rewrite (ext_entries _ _ _ He). rewrite (ext_fat _ _ _ He) by (done || lia). done.
    + intros x Hx. apply elem_of_cons in Hx as [->|Hx]; [left; set_solver|]. destruct (Hold x Hx); [left; set_solver|by right].
    + intros P HP Hn. apply find_head in Hn as [Hn1 Hn2]. rewrite find_next; [by apply Hfind|]. rewrite (slots_ext _ _ _ He), (ext_clus _ _ _ He) by done. done.
    + intros P HP Ht. specialize (Hother P HP (fun b Hb => Ht b ltac:(set_solver))). cbn [find_spec] in Hother |- *. rewrite (slots_ext _ _ _ He) in Hother |- *. rewrite (ext_clus _ _ _ He d) by done. by rewrite Hother.
Qed.
End AddEntry.
(** The chain of a new file: its first cluster was free, like the others. *)
Lemma store_data_ok data s : vol_wf s -> Forall byte data -> data <> [] ->
  (exists nc s' cs j, store_data data s = Some (Some nc, s') /\ ext (fun _ => False) s s' /\ 2 <= nc < entries s /\ chain s' (nc :: cs) /\
    content s' (nc :: cs) = data ++ replicate j 0 /\ Forall (fun c => fat s c = 0) (nc :: cs)) \/
  (exists s', store_data data s = Some (None, s') /\ ext (fun _ => False) s s' /\ full s').
Proof.
  intros Hwf Hb Hd. unfold store_data. pose proof eoc_le.
  destruct (alloc_ext s Hwf) as [(nc & s1 & E1 & Hn & Hz & He1 & Ht1 & _)|[E1 Hfull]]; rewrite (bind_step _ _ _ _ _ E1).
  2:{ right. exists s. split; [done|]. split; [apply ext_refl|done]. }
  rewrite (proj2 (Z.ltb_ge nc 2)) by lia. pose proof (ext_wf _ _ _ He1 Hwf) as Hwf1. pose proof (ext_entries _ _ _ He1) as Ge1. rewrite <-Ge1 in Hn, Ht1.
  match goal with |- context [bind (zero_cluster nc) (fun ok => if ok then ?k else _)] => destruct (zero_cluster_step s1 nc None k Hwf1 Hn) as (s2 & E2 & He2 & _ & Hf2) end. rewrite E2.
  pose proof (ext_wf _ _ _ He2 Hwf1) as Hwf2. pose proof (ext_entries _ _ _ He2) as Ge2.
  destruct (link_ext s2 nc eoc_mark Hwf2 ltac:(lia) (or_intror eq_refl)) as (s3 & E3 & He3 & Ht3 & _). rewrite (bind_step _ _ _ _ _ E3). pose proof (ext_entries _ _ _ He3) as Ge3.
  pose proof (ext_wf _ _ _ He3 Hwf2) as Hwf3. destruct (write_new_ok (length data) nc data s3 Hwf3) as (b & s4 & E4 & He4 & Hres); [lia|rewrite Ht3, decide_True by (done || lia); lia|done|done|lia|].
  rewrite (bind_step _ _ _ _ _ E4). assert (He13 : ext (eq nc) s1 s3) by (eapply ext_trans; [exact He2|exact He3|by left]).
  assert (He04 : ext (fun _ => False) s s4).
  { eapply ext_trans; [exact He1|eapply ext_trans; [exact He13|exact He4|by left]|]. intros c <-. by right. }
  destruct b; [left|right; by exists s4]. destruct Hres as (cs & j & Hcs & Hcont & Hfree). exists nc, s4, cs, j. split_and!; try done; [lia..|].
  constructor; [done|]. pose proof (chain_used _ _ Hcs) as Hu. apply Forall_cons in Hu as [_ Hu]. pose proof (ext_entries _ _ _ He4) as Ge4. rewrite Forall_forall in Hfree, Hu |- *. intros c Hin.
  destruct (Hu c Hin) as [Hr _]. specialize (Hfree c Hin). destruct (decide (fat s c = 0)) as [|Hc0]; [done|].
  destruct (ext_used _ _ _ He13 c); [lia| |done]. by apply (ext_used _ _ _ He1 c); [lia|].
Qed.

(** ** Appending *)

Lemma last_cluster_ok fuel c pre (z : Z) s : vol_wf s -> chain s (c :: pre ++ [z]) -> (length pre + 1 < fuel)%nat -> last_cluster fuel c s = Some (z, s).
Proof.
  intros Hwf. revert c pre. induction fuel as [|fuel IH]; intros c pre Hc Hf; [lia|]. cbn [last_cluster].
  pose proof (chain_used _ _ Hc) as Hu. apply Forall_cons in Hu as [[Hr Hz] Hu]. rewrite (bind_step _ _ _ _ _ (next_ok s c Hwf Hr)).
  destruct pre as [|c' pre]; cbn [app] in *; rewrite chain_two in Hc; destruct Hc as (_ & -> & Hc).
  - destruct Hc as [Hr' Hc]. rewrite (ends_in s) by done. destruct fuel as [|fuel]; [cbn in Hf; lia|]. cbn [last_cluster]. rewrite (bind_step _ _ _ _ _ (next_ok s z Hwf Hr')).
    by rewrite ends_eoc.
  - apply Forall_cons in Hu as [[Hr' _] _]. rewrite (ends_in s) by done. apply (IH c' pre); [done|cbn [length] in *; lia].
Qed.
Lemma last_cluster_single fuel c s : vol_wf s -> chain s [c] -> last_cluster (S fuel) c s = Some (c, s).
Proof. intros Hwf [Hr Hc]. cbn [last_cluster]. rewrite (bind_step _ _ _ _ _ (next_ok s c Hwf Hr)). by rewrite ends_eoc. Qed.

Lemma append_clusters_ok n (z : Z) data s : vol_wf s -> 2 <= z < entries s -> eoc <= fat s z -> Forall byte data -> (length data <= n)%nat ->
  exists b s', append_clusters n z data s = Some (b, s') /\ ext (eq z) s s' /\ clus s' z = clus s z /\
    if b then exists cs k, chain s' (z :: cs) /\ content s' cs = data ++ replicate k 0 /\ Forall (fun c => fat s c = 0) cs else full s'.
Proof.
  revert z data s. induction n as [|n IH]; intros z data s Hwf Hr Hz Hb Hn.
  { destruct data; [|cbn in Hn; lia]. exists true, s. split_and!; try done; [apply ext_refl|]. by exists [], 0%nat. }
  destruct data as [|x data]; [exists true, s; split_and!; try done; [apply ext_refl|]; by exists [], 0%nat|]. cbn [append_clusters]. set (dat := x :: data) in *.
  pose proof eoc_le. destruct (extend_ok s z Hwf Hr ltac:(lia)) as [(nc & s2 & E2 & He2 & Hn2 & Hz2 & Hm2 & Hl2 & Hc2)|[E2 Hfull]]; rewrite (bind_step _ _ _ _ _ E2); [|by exists false, s; split_and!; try done; apply ext_refl]. clear E2.
  pose proof (ext_wf _ _ _ He2 Hwf) as Hwf2. pose proof (ext_entries _ _ _ He2) as Ge2. rewrite gets_step. pose proof (bytes_pos s2 Hwf2). set (B := cluster_bytes s2) in *.
  destruct (write_cluster_step s2 nc (chunk_of B dat) false (append_clusters n nc (drop (Z.to_nat B) dat)) Hwf2 ltac:(lia)) as (s3 & E3 & He3 & Hw3 & Hf3); [apply chunk_length; lia|by apply chunk_bytes|].
  rewrite E3, Ge2 in *. pose proof (ext_wf _ _ _ He3 Hwf2) as Hwf3. pose proof (ext_entries _ _ _ He3) as Ge3. rewrite Ge2 in Ge3.
  destruct (IH nc (drop (Z.to_nat B) dat) s3 Hwf3) as (b & s4 & E4 & He4 & Hk4 & Hres); [lia|rewrite Hf3; lia|by apply Forall_drop|rewrite length_drop; subst dat; cbn [length] in *; lia|].
  assert (nc <> z) by (intros ->; lia). assert (He24 : ext (eq nc) s2 s4) by (eapply ext_trans; [exact He3|exact He4|by left]). assert (He04 : ext (eq z) s s4) by (eapply ext_trans; [exact He2|exact He24|by intros c <-; right]).
  exists b, s4. split_and!; [exact E4|exact He04|rewrite (ext_clus _ _ _ He24), Hc2 by lia; done|]. destruct b; [|done]. destruct Hres as (cs & k & Hch & Hcont & Hfree).
  assert (Hcc : exists k', content s4 (nc :: cs) = dat ++ replicate k' 0).
  { unfold content in *. rewrite fmap_cons. cbn [concat]. rewrite Hcont, Hk4, Hw3. destruct (decide (drop (Z.to_nat B) dat = [])) as [E|E].
    - rewrite chunk_last, E by done. rewrite <-app_assoc. cbn [app]. rewrite <-replicate_add. by eexists.
    - rewrite chunk_rest by done. rewrite app_assoc, take_drop. by eexists. }
  destruct Hcc as [k' Hcc]. exists (nc :: cs), k'. pose proof (ext_entries _ _ _ He4) as Ge4. split_and!; [|done|].
  - rewrite chain_two. split; [lia|]. split; [|done]. rewrite (ext_fat _ _ _ He24) by lia. done.
  - pose proof (chain_used _ _ Hch) as Hu. apply Forall_cons in Hu as [_ Hu]. constructor; [done|]. rewrite Forall_forall in Hfree, Hu |- *. intros c Hin.
    destruct (Hu c Hin) as [Hrc _]. specialize (Hfree c Hin). rewrite Hf3 in Hfree by lia. destruct (decide (fat s c = 0)); [done|]. by destruct (ext_used _ _ _ He2 c ltac:(lia)).
Qed.
Lemma last_cluster_chain fuel c cs pre (z : Z) s : vol_wf s -> chain s (c :: cs) -> c :: cs = pre ++ [z] -> (length (c :: cs) < fuel)%nat -> last_cluster fuel c s = Some (z, s).
Proof.
  intros Hwf Hc E Hf. destruct pre as [|p pre]; cbn [app] in E; injection E as -> ->.
  - destruct fuel as [|fuel]; [cbn in Hf; lia|]. by apply last_cluster_single.
  - apply (last_cluster_ok fuel p pre); [done|done|]. cbn [length] in Hf. rewrite length_app in Hf. cbn [length] in Hf. lia.
Qed.

Lemma chain_join s s' pre (z : Z) cs : entries s' = entries s -> chain s (pre ++ [z]) -> (forall c, c ∈ pre -> fat s' c = fat s c) -> chain s' (z :: cs) -> chain s' (pre ++ z :: cs).
Proof.
  intros Ge. induction pre as [|p [|p' pre] IH]; cbn [app]; [done| |]; intros Hc Hf Hz; rewrite chain_two in *; destruct Hc as (Hr & E & Hc); rewrite Ge, Hf by set_solver.
  - done.
  - split; [done|]. split; [done|]. apply IH; try done. set_solver.
Qed.

Lemma content_app s (a b : list Z) : content s (a ++ b) = content s a ++ content s b.
Proof. unfold content. by rewrite fmap_app, concat_app. Qed.
Lemma content_single s (z : Z) : content s [z] = clus s z.
Proof. unfold content. cbn. apply app_nil_r. Qed.
Lemma content_same s s' cs : (forall c, c ∈ cs -> clus s' c = clus s c) -> content s' cs = content s cs.
Proof. intros Hc. unfold content. f_equal. apply list_fmap_ext. intros i c Hi. apply Hc. by eapply list_elem_of_lookup_2. Qed.
Lemma content_length s cs : vol_wf s -> Z.of_nat (length (content s cs)) = Z.of_nat (length cs) * cluster_bytes s.
Proof.
  intros Hwf. induction cs as [|c cs IH]; [done|]. change (content s (c :: cs)) with (clus s c ++ content s cs). rewrite length_app, Nat2Z.inj_add, IH, clus_size by done. cbn [length]. lia.
Qed.

(** The last cluster, filled with the first bytes of the data. *)
Lemma fill_last s pre (z : Z) old junk data : vol_wf s -> chain s (pre ++ [z]) -> content s (pre ++ [z]) = old ++ junk -> Forall byte data ->
  0 < Z.of_nat (length old) -> Z.of_nat (length pre) = (Z.of_nat (length old) - 1) / cluster_bytes s ->
  let B := cluster_bytes s in let off := Z.of_nat (length old) mod B in
  exists now rest junk' s', data = now ++ rest /\
    fill_tail z off (negb (off =? 0)) data s = Some (Some rest, s') /\
    ext (eq z) s s' /\ (forall c, 0 <= c < entries s -> fat s' c = fat s c) /\ content s' (pre ++ [z]) = old ++ now ++ junk' /\ (rest <> [] -> junk' = []).
Proof.
  intros Hwf Hc Hcont Hb Hpos Hpre B off. pose proof (bytes_pos s Hwf). assert (HB : 0 < B) by (subst B; lia).
  pose proof (content_length s (pre ++ [z]) Hwf) as Hlen. pose proof (content_length s pre Hwf) as Hlenp. rewrite Hcont, !length_app in Hlen. cbn [length] in Hlen. fold B in Hlen, Hlenp, Hpre.
  pose proof (Z.div_mod (Z.of_nat (length old) - 1) B ltac:(lia)) as Hdm. pose proof (Z.mod_pos_bound (Z.of_nat (length old) - 1) B HB) as Hmb. rewrite <-Hpre in Hdm.
  unfold fill_tail. destruct (Z.eqb_spec off 0) as [E|Hne]; cbn [negb].
  { exists [], data, junk, s. split_and!; try done; [apply ext_refl|]. intros _. apply nil_length_inv.
    assert (Z.of_nat (length old) = (Z.of_nat (length pre) + 1) * B).
    { subst off. apply Z.div_exact in E; [|lia]. set (q := Z.of_nat (length old) / B) in *. assert (q = Z.of_nat (length pre) + 1) by nia. nia. }
    lia. }
  assert (Hoff : off = Z.of_nat (length old) - Z.of_nat (length pre) * B /\ 0 < off < B).
  { pose proof (Z.mod_pos_bound (Z.of_nat (length old)) B HB) as Hm2. fold off in Hm2. pose proof (Z.div_mod (Z.of_nat (length old)) B ltac:(lia)) as Hd2. fold off in Hd2.
    set (q := Z.of_nat (length old) / B) in *. assert (q = Z.of_nat (length pre)) by nia. nia. }
  destruct Hoff as [Eoff Hoff]. assert (Hz : 2 <= z < entries s) by (pose proof (chain_used _ _ Hc) as Hu; apply Forall_app in Hu as [_ Hu]; by apply Forall_cons in Hu as [[? _] _]).
  rewrite gets_step, (bind_step _ _ _ _ _ (rd_ok s z Hwf Hz)). pose proof (clus_size s z Hwf) as Hlz. fold B in Hlz. set (now := take (Z.to_nat (B - off)) data).
  assert (Hln : (Z.to_nat off + length now <= length (clus s z))%nat) by (subst now; rewrite length_take; lia).
  destruct (write_cluster_step s z (patch (clus s z) (Z.to_nat off) now) None (ret (Some (drop (Z.to_nat (B - off)) data))) Hwf Hz) as (s' & E & He & Hw & Hf);
    [by rewrite patch_length|apply patch_bytes; [apply clus_byte|by apply Forall_take]|].
  exists now, (drop (Z.to_nat (B - off)) data), (drop (Z.to_nat off + length now) (clus s z)), s'. split_and!; [subst now; by rewrite take_drop|exact E|done|done| |].
  - rewrite content_app, content_single, Hw. rewrite content_app, content_single in Hcont. rewrite <-(take_drop (Z.to_nat off) (clus s z)), app_assoc in Hcont.
    apply app_inj_1 in Hcont as [Hold _]; [|rewrite length_app, length_take; lia]. rewrite (content_same s s' pre).
    + unfold patch. by rewrite app_assoc, Hold.
    + intros c Hin. pose proof (chain_nodup _ _ Hwf Hc) as Hnd. apply NoDup_app in Hnd as (_ & Hd & _). pose proof (chain_used _ _ Hc) as Hu. apply Forall_app in Hu as [Hu _].
      rewrite Forall_forall in Hu. destruct (Hu c Hin). apply (ext_clus _ _ _ He); try done. intros <-. apply (Hd z Hin). set_solver.
  - intros Hrest. apply drop_ge. subst now. rewrite length_take. destruct (decide (length data <= Z.to_nat (B - off))%nat); [destruct Hrest; by apply drop_ge|]. lia.
Qed.
(** The last cluster filled and the chain extended: the content grows by the data. *)
Lemma extend_chain s pre (z : Z) old junk data : vol_wf s -> chain s (pre ++ [z]) -> content s (pre ++ [z]) = old ++ junk -> Forall byte data ->
  0 < Z.of_nat (length old) -> Z.of_nat (length pre) = (Z.of_nat (length old) - 1) / cluster_bytes s ->
  let B := cluster_bytes s in let off := Z.of_nat (length old) mod B in
  exists rest s1 b s2,
    fill_tail z off (negb (off =? 0)) data s = Some (Some rest, s1) /\
    append_clusters (length rest) z rest s1 = Some (b, s2) /\ ext (eq z) s s2 /\
    if b then exists cs junk', chain s2 (pre ++ z :: cs) /\ content s2 (pre ++ z :: cs) = (old ++ data) ++ junk' /\ Forall (fun c => fat s c = 0) cs else full s2.
Proof.
  intros Hwf Hc Hcont Hb Hpos Hpre B off. destruct (fill_last s pre z old junk data Hwf Hc Hcont Hb Hpos Hpre) as (now & rest & junk1 & s1 & Ed & E1 & He1 & Hf1 & Hc1 & Hj).
  pose proof (ext_wf _ _ _ He1 Hwf) as Hwf1. pose proof (ext_entries _ _ _ He1) as Ge1. pose proof (chain_same_fat s s1 _ Ge1 Hf1 Hc) as Hch1.
  pose proof (chain_suffix s1 pre z [] Hch1) as [Hz1 Hend]. rewrite Ge1 in Hz1.
  destruct (append_clusters_ok (length rest) z rest s1 Hwf1 ltac:(lia) Hend) as (b & s2 & E2 & He2 & Hz2 & Hres); [subst data; by apply Forall_app in Hb as [_ Hb]|lia|].
  exists rest, s1, b, s2. split; [exact E1|]. split; [exact E2|]. split; [eapply ext_trans; [exact He1|exact He2|by left]|]. destruct b; [|done]. destruct Hres as (cs & k & Hch & Hcs & Hfree).
  assert (Hpz : forall c, c ∈ pre -> 2 <= c < entries s1 /\ fat s1 c <> 0 /\ z <> c).
  { intros c Hin. pose proof (chain_nodup _ _ Hwf1 Hch1) as Hnd. apply NoDup_app in Hnd as (_ & Hd & _). pose proof (chain_used _ _ Hch1) as Hu. apply Forall_app in Hu as [Hu _].
    rewrite Forall_forall in Hu. destruct (Hu c Hin). split_and!; try done; try lia. intros <-. apply (Hd z Hin). set_solver. }
  exists cs, ((if decide (rest = []) then junk1 else []) ++ replicate k 0). split_and!.
  - apply (chain_join s1); [by apply (ext_entries _ _ _ He2)|done| |done]. intros c Hin. destruct (Hpz c Hin) as (? & ? & ?). apply (ext_fat _ _ _ He2); done || lia.
  - change (z :: cs) with ([z] ++ cs). rewrite app_assoc, content_app, Hcs. rewrite (content_same s1 s2 (pre ++ [z])), Hc1.
    + subst data. case_decide as Er; [subst rest; by rewrite !app_nil_r, <-!app_assoc|]. rewrite (Hj Er), app_nil_r. cbn [app]. by rewrite <-!app_assoc.
    + intros c Hin. apply elem_of_app in Hin as [Hin|Hin]; [|apply list_elem_of_singleton in Hin as ->; done]. destruct (Hpz c Hin) as (? & ? & ?). by apply (ext_clus _ _ _ He2).
  - pose proof (chain_used _ _ Hch) as Hu. apply Forall_cons in Hu as [_ Hu]. pose proof (ext_entries _ _ _ He2) as Ge2. rewrite Forall_forall in Hfree, Hu |- *. intros c Hin.
    destruct (Hu c Hin) as [Hr _]. rewrite <-Hf1 by lia. by apply Hfree.
Qed.

(** An entry of [c] is deleted: searches that found another entry still find it. *)
Lemma find_deleted s s' P Q c o e cs : ext (eq c) s s' -> scan (slots s) 0 (clus s c) P = Found o e -> same_outside (clus s c) (clus s' c) o -> byte_at (entry_at (clus s' c) o) 0 = 0xE5 ->
  Forall (fun b => 2 <= b < entries s /\ fat s b <> 0) cs -> (forall e', find_spec s Q cs <> Some (c, o, e')) -> find_spec s' Q cs = find_spec s Q cs.
Proof.
  intros He Hsc Hout H5 Hu. induction Hu as [|b cs [Hr Hz] Hu IH]; [done|]. cbn [find_spec]. rewrite (slots_ext _ _ _ He). intros Hq. destruct (decide (b = c)) as [->|Hne].
  - pose proof (scan_deleted (slots s) 0 (clus s c) (clus s' c) P Q o e Hsc Hout H5) as Hd. destruct (scan _ _ (clus s c) Q) as [o1 e1| |] eqn:E1; cbn [found] in Hd.
    + specialize (Hd ltac:(intros e' [= -> ->]; by apply (Hq e'))). by destruct (scan _ _ (clus s' c) Q); simplify_eq/=.
    + specialize (Hd ltac:(done)). rewrite <-IH by done. by destruct (scan _ _ (clus s' c) Q).
    + specialize (Hd ltac:(done)). rewrite <-IH by done. by destruct (scan _ _ (clus s' c) Q).
  - rewrite (ext_clus _ _ _ He b) by (done || congruence). destruct (scan _ _ (clus s b) Q); [done|by apply IH..].
Qed.
Lemma find_spec_in s P cs c o e : find_spec s P cs = Some (c, o, e) -> c ∈ cs /\ scan (slots s) 0 (clus s c) P = Found o e.
Proof.
  intros Hf. induction cs as [|x cs IH]; [done|]. cbn [find_spec] in Hf. destruct (scan _ _ (clus s x) _) eqn:E; [injection Hf as -> -> ->; split; [set_solver|done]|..]; destruct (IH Hf); split; set_solver.
Qed.


(** ** Entries changed in place *)

Lemma patch_entry_ok s P cs c o e k bs : vol_wf s -> chain s cs -> find_spec s P cs = Some (c, o, e) -> (k + length bs <= 32)%nat -> Forall byte bs ->
  exists s', patch_entry c (o + k) bs s = Some (true, s') /\ ext (eq c) s s' /\ (forall b, 0 <= b < entries s -> fat s' b = fat s b) /\ c ∈ cs /\
    clus s' c = patch (clus s c) (o + k) bs /\ (o + 32 <= length (clus s c))%nat /\ e = entry_at (clus s c) o /\ visible e /\ P e = true.
Proof.
  intros Hwf Hch Hf Hk Hb. destruct (find_spec_in _ _ _ _ _ _ Hf) as [Hin Hscan]. pose proof (chain_used _ _ Hch) as Hu. rewrite Forall_forall in Hu. destruct (Hu c Hin) as [Hr Hz].
  unfold patch_entry. rewrite (bind_step _ _ _ _ _ (rd_ok s c Hwf Hr)). pose proof (clus_size s c Hwf) as Hl. pose proof (slots_value s Hwf).
  pose proof (scan_found _ _ _ _ _ _ Hscan) as (Ee & HP & Hro & V0 & V5 & VF).
  destruct (write_ext s c (patch (clus s c) (o + k) bs) Hwf Hr) as (s' & E & He & Hw & Hfat); [rewrite patch_length by lia; done|apply patch_bytes; [apply clus_byte|done]|].
  exists s'. split_and!; try done; [lia|]. rewrite Ee. split; rewrite !byte_at_entry, ?Nat.add_0_r by lia; done.
Qed.

Section Change.
Context (s s' : V) (P : list Z -> bool) (cs : list Z) (c : Z) (o : nat) (e : list Z).
Hypotheses (Hwf : vol_wf s) (Hch : chain s cs) (Hf : find_spec s P cs = Some (c, o, e)) (He : ext (eq c) s s') (Hout : same_outside (clus s c) (clus s' c) o).

Lemma change_other x : x ∈ cs -> x <> c -> clus s' x = clus s x.
Proof. intros Hx Hne. pose proof (chain_used _ _ Hch) as Hu. rewrite Forall_forall in Hu. destruct (Hu x Hx). apply (ext_clus _ _ _ He); auto. Qed.

Lemma find_keep (Q : list Z -> bool) : Q e = false -> byte_at (entry_at (clus s' c) o) 0 = 0xE5 \/ (visible (entry_at (clus s' c) o) /\ Q (entry_at (clus s' c) o) = false) ->
  find_spec s' Q cs = find_spec s Q cs.
Proof.
  intros HQ He'. destruct (find_spec_in _ _ _ _ _ _ Hf) as [_ Hscan]. pose proof (scan_keep _ _ _ _ _ _ _ _ Hscan Hout HQ He') as Hk. pose proof change_other as Ho. clear Hch Hf.
  induction cs as [|x l IH]; [done|]. cbn [find_spec]. rewrite (slots_ext _ _ _ He), IH by (intros; apply Ho; set_solver).
  destruct (decide (x = c)) as [->|Hne]; [by rewrite Hk|]. by rewrite Ho by set_solver.
Qed.
Lemma find_gets (Q : list Z -> bool) : find_spec s Q cs = None -> visible (entry_at (clus s' c) o) -> Q (entry_at (clus s' c) o) = true ->
  find_spec s' Q cs = Some (c, o, entry_at (clus s' c) o).
Proof.
  intros Hn Hv HQ. destruct (find_spec_in _ _ _ _ _ _ Hf) as [Hin Hscan]. pose proof change_other as Ho. clear Hch Hf.
  induction cs as [|x l IH]; [set_solver|]. cbn [find_spec]. apply find_head in Hn as [Hn1 Hn2]. rewrite (slots_ext _ _ _ He). destruct (decide (x = c)) as [->|Hne].
  - by rewrite (scan_gets _ _ _ _ _ _ _ _ Hscan Hout Hn1 Hv HQ).
  - rewrite (Ho x) by set_solver. unfold no_match in Hn1. rewrite IH; [by destruct (scan _ _ _ _)|done|set_solver|intros; apply Ho; set_solver].
Qed.
Lemma find_updated : visible (entry_at (clus s' c) o) -> byte_at (clus s' c) o = byte_at (clus s c) o -> byte_at (clus s' c) (o + 11) = byte_at (clus s c) (o + 11) ->
  P (entry_at (clus s' c) o) = true -> find_spec s' P cs = Some (c, o, entry_at (clus s' c) o).
Proof.
  intros Hv H0' H11' HP. destruct (find_spec_in _ _ _ _ _ _ Hf) as [Hin Hscan]. pose proof change_other as Ho. pose proof (scan_update _ _ _ _ _ _ _ Hscan Hout H0' H11' HP) as Hs'. pose proof Hf as Hf'. clear Hch Hf.
  induction cs as [|x l IH]; [set_solver|]. cbn [find_spec] in *. rewrite (slots_ext _ _ _ He). destruct (decide (x = c)) as [->|Hne]; [by rewrite Hs'|].
  rewrite (Ho x) by set_solver. destruct (scan _ _ (clus s x) _); [by injection Hf'|apply IH; try done; [set_solver|intros; apply Ho; set_solver]..].
Qed.
End Change.

(** The size of an entry of a directory updated. *)
Lemma update_size_ok s P ds c o e size : vol_wf s -> chain s ds -> find_spec s P ds = Some (c, o, e) -> 0 <= size < 2 ^ 32 ->
  (forall e', take 11 e' = take 11 e -> P e' = true) ->
  exists s' e', patch_entry c (o + 28) (le32 size) s = Some (true, s') /\ ext (eq c) s s' /\ (forall b, 0 <= b < entries s -> fat s' b = fat s b) /\ c ∈ ds /\
    find_spec s' P ds = Some (c, o, e') /\ is_dir e' = is_dir e /\ get_start e' = get_start e /\ entry_size e' = size.
Proof.
  intros Hwf Hch Hf Hsz HP. destruct (patch_entry_ok s P ds c o e 28 (le32 size) Hwf Hch Hf ltac:(cbn; lia) (le32_bytes _)) as (s' & E & He & Hfat & Hin & Hw & Hl & Ee & Hv & _).
  destruct (patch_size (clus s c) o size (clus_byte s c) Hl Hsz) as (Hso & Hn & Ha & _ & Hz' & Hb0 & Hb11). rewrite <-Hw, <-Ee in *.
  exists s', (entry_at (clus s' c) o). split_and!; try done.
  - apply (find_updated s s' P ds c o e); try done; [|by apply HP]. unfold visible in *. rewrite Ha, byte_at_entry, Nat.add_0_r, Hb0 by lia. rewrite Ee, byte_at_entry, Nat.add_0_r in Hv by lia. rewrite Ee. done.
  - unfold is_dir, entry_attr. by rewrite Ha.
  - apply get_start_eq. intros i Hi. rewrite Hw, entry_patch by (cbn; lia). cbn [length le32]. rewrite decide_False by lia. by rewrite Ee.
Qed.

(** ** Files in the chain of a directory *)

(** The file [name] of the directory with the chain [d :: ds] holds [data]. *)
Definition stored s (d : Z) (name data : list Z) : Prop :=
  exists ds c o e cs junk, chain s (d :: ds) /\ find_spec s (has_name name) (d :: ds) = Some (c, o, e) /\ is_dir e = false /\
    entry_size e = Z.of_nat (length data) /\ chain s (get_start e :: cs) /\ content s (get_start e :: cs) = data ++ junk.

Lemma new_file_ok fuel (d : Z) ds base ex data s : vol_wf s -> chain s (d :: ds) -> (length (d :: ds) < fuel)%nat -> good83 base ex ->
  Forall byte data -> data <> [] -> Z.of_nat (length data) < 2 ^ 32 -> find_spec s (has_name (name83 base ex)) (d :: ds) = None ->
  exists r s', new_file fuel d (short_name base ex) data s = Some (r, s') /\ ext (fun c => c ∈ d :: ds) s s' /\
    match r with Some n => n = Z.of_nat (length data) /\ stored s' d (name83 base ex) data | None => full s' end.
Proof.
  intros Hwf Hch Hfuel Hg Hb Hd Hlen Hnone. destruct (short_name_ok base ex Hg) as (S1 & S2 & S3). pose proof (entries_le s Hwf). unfold new_file. cbn zeta.
  destruct (store_data_ok data s Hwf Hb Hd) as [(nc & s4 & cs & k & E4 & He04 & Hn & Hcs & Hcont & Hfree)|(s4 & E4 & He04 & Hfull)]; rewrite (bind_step _ _ _ _ _ E4); clear E4.
  2:{ exists None, s4. split; [done|]. split; [by apply (ext_weaken _ _ _ _ He04)|done]. }
  assert (Hnot : forall c, c ∈ d :: ds -> fat s c <> 0) by (pose proof (chain_used _ _ Hch) as Hu; rewrite Forall_forall in Hu; intros c Hc; by destruct (Hu c Hc)).
  destruct (chain_ext _ _ _ _ He04 (fun _ _ Hf => Hf) Hch) as [Hch4 _].
  destruct (add_entry_ok (short_name base ex) 0x20 nc (Z.of_nat (length data)) S1 S2 S3 ltac:(lia) ltac:(lia) ltac:(lia) fuel d ds s4 (ext_wf _ _ _ He04 Hwf) Hch4 Hfuel)
    as (b & s5 & E5 & He5 & Hadd). rewrite (bind_step _ _ _ _ _ E5).
  assert (He05 : ext (fun c => c ∈ d :: ds) s s5) by (eapply ext_trans; [apply (ext_weaken _ _ _ _ He04); done|exact He5|by left]).
  destruct b; [|by exists None, s5]. destruct Hadd as (ds' & e & c & o & Hch5 & _ & (N1 & N2 & N3 & N4) & Hfind & _). exists (Some (Z.of_nat (length data))), s5. split_and!; try done.
  destruct (chain_ext _ s4 s5 (nc :: cs) He5) as [Hcs5 Hcont5]; [|done|].
  { intros c' Hc' Hin. apply (Hnot c' Hin). rewrite Forall_forall in Hfree. by apply Hfree. }
  exists ds', c, o, e, cs, (replicate k 0). rewrite N3. split_and!; try done.
  - apply Hfind; [|].
    + unfold has_name. apply bool_decide_eq_true_2. by apply merged_good.
    + rewrite <-Hnone. apply (find_spec_ext _ _ _ _ _ He04); [intros ? ? []|by apply chain_used].
  - unfold is_dir. rewrite N2. done.
  - by rewrite Hcont5.
Qed.

(** The file [e] of the directory with chain [d :: ds] holds [old] in the chain
    [get_start e :: cs], which has no more clusters than it needs. *)
Record holds s (d : Z) ds base ex c o e cs (old junk : list Z) : Prop := {
  h_name : find_spec s (has_name (name83 base ex)) (d :: ds) = Some (c, o, e);
  h_short : find_spec s (has_short (short_name base ex)) (d :: ds) = Some (c, o, e);
  h_file : is_dir e = false;
  h_size : entry_size e = Z.of_nat (length old);
  h_pos : old <> [];
  h_chain : chain s (get_start e :: cs);
  h_content : content s (get_start e :: cs) = old ++ junk;
  h_tight : Z.of_nat (length cs) = (Z.of_nat (length old) - 1) / cluster_bytes s;
  h_apart : forall b, b ∈ get_start e :: cs -> b ∉ d :: ds;
}.

Lemma append_entry_ok fuel s (d : Z) ds base ex c o e cs old junk data : vol_wf s -> chain s (d :: ds) -> holds s d ds base ex c o e cs old junk ->
  Forall byte data -> Z.of_nat (length old) + Z.of_nat (length data) < 2 ^ 32 -> (length (get_start e :: cs) < fuel)%nat ->
  exists r s', append_entry fuel c o e (negb (entry_size e mod cluster_bytes s =? 0)) data s = Some (r, s') /\ ext (fun b => b ∈ d :: ds \/ b ∈ get_start e :: cs) s s' /\
    match r with Some n => n = Z.of_nat (length data) /\ stored s' d (name83 base ex) (old ++ data) | None => full s' end.
Proof.
  intros Hwf Hds [Hname Hshort Hfile Hsize Hpos Hch Hcont Htight Hapart] Hb Hlen Hfuel. unfold append_entry, append_data. rewrite bind_assoc, gets_step, bind_assoc.
  destruct (exists_last (l := get_start e :: cs) ltac:(done)) as (pre & z & Epz). rewrite (bind_step _ _ _ _ _ (last_cluster_chain fuel _ _ pre z s Hwf Hch Epz Hfuel)).
  assert (Hpre : Z.of_nat (length pre) = (Z.of_nat (length old) - 1) / cluster_bytes s) by (rewrite <-Htight; apply (f_equal length) in Epz; rewrite length_app in Epz; cbn in Epz; lia).
  rewrite Epz in Hch, Hcont, Hapart. destruct (extend_chain s pre z old junk data Hwf Hch Hcont Hb ltac:(destruct old; [done|cbn; lia]) Hpre) as (rest & s1 & b & s2 & E1 & E2 & He2 & Hres).
  rewrite Hsize, bind_assoc. rewrite (bind_step _ _ _ _ _ E1). rewrite (bind_step _ _ _ _ _ E2). destruct b.
  2:{ exists None, s2. split; [done|]. split; [|done]. apply (ext_weaken _ _ _ _ He2). intros ? <-. right. rewrite Epz. set_solver. }
  destruct Hres as (cs2 & junk2 & Hch2 & Hcont2 & Hfree). pose proof (ext_wf _ _ _ He2 Hwf) as Hwf2.
  assert (Hz : forall b, b ∈ d :: ds -> z <> b) by (intros b Hin <-; apply (Hapart z); [set_solver|done]). destruct (chain_ext _ _ _ _ He2 Hz Hds) as [Hds2 _].
  pose proof (find_spec_ext _ _ _ (has_name (name83 base ex)) _ He2 Hz (chain_used _ _ Hds)) as Hname2. rewrite Hname in Hname2. rewrite u32_small by lia.
  destruct (update_size_ok s2 (has_name (name83 base ex)) (d :: ds) c o e (Z.of_nat (length old) + Z.of_nat (length data)) Hwf2 Hds2 Hname2 ltac:(lia))
    as (s3 & e' & E3 & He3 & Hf3 & Hin & Hfind3 & Hdir3 & Hcl3 & Hsz3).
  { intros e' He'. apply find_spec_in in Hname as [_ Hsc]. apply scan_found in Hsc as (_ & HP & _). unfold has_name in *. rewrite bool_decide_eq_true in *. by rewrite (merged_name_eq _ _ He'). }
  cbn zeta. rewrite (bind_step _ _ _ _ _ E3). exists (Some (Z.of_nat (length data))), s3. split; [done|]. split.
  { eapply ext_trans; [apply (ext_weaken _ _ _ _ He2)|exact He3|]; [intros ? <-; right; rewrite Epz; set_solver|intros ? <-; by left; left]. }
  split; [done|]. assert (Hcs3 : exists cs3, pre ++ z :: cs2 = get_start e :: cs3) by (destruct pre; cbn in Epz |- *; injection Epz as -> ->; by eexists). destruct Hcs3 as [cs3 Ecs3].
  destruct (chain_ext _ s2 s3 (pre ++ z :: cs2) He3) as [Hch3 Hcont3]; [|done|].
  { intros b Hbin <-. assert (Hu : fat s c <> 0) by (pose proof (chain_used _ _ Hds) as Hu; rewrite Forall_forall in Hu; by apply Hu).
    rewrite Forall_forall in Hfree. destruct (decide (c ∈ cs2)) as [Hc2|Hc2]; [by apply Hu, Hfree|]. apply (Hapart c); [set_solver|done]. }
  exists ds, c, o, e', cs3, junk2. rewrite Hcl3, <-Ecs3, Hcont3, Hsz3, Hdir3, length_app, Nat2Z.inj_add. split_and!; try done.
  by apply (chain_same_fat s2); [apply (ext_entries _ _ _ He3)|..].
Qed.

(** With [into_last] for a size that fills its clusters, the data replaces the
    first bytes of the last cluster instead of following them. *)
Lemma append_entry_overwrites fuel s (d : Z) ds base ex c o e cs old junk data : vol_wf s -> chain s (d :: ds) -> holds s d ds base ex c o e cs old junk ->
  Forall byte data -> entry_size e mod cluster_bytes s = 0 -> Z.of_nat (length data) <= cluster_bytes s ->
  Z.of_nat (length old) + Z.of_nat (length data) < 2 ^ 32 -> (length (get_start e :: cs) < fuel)%nat ->
  let keep := (length old - Z.to_nat (cluster_bytes s))%nat in
  exists s' e', append_entry fuel c o e true data s = Some (Some (Z.of_nat (length data)), s') /\ ext (fun b => b ∈ d :: ds \/ b ∈ get_start e :: cs) s s' /\
    chain s' (d :: ds) /\ find_spec s' (has_name (name83 base ex)) (d :: ds) = Some (c, o, e') /\ get_start e' = get_start e /\
    entry_size e' = Z.of_nat (length old) + Z.of_nat (length data) /\ chain s' (get_start e :: cs) /\
    content s' (get_start e :: cs) = take keep old ++ data ++ drop (keep + length data) old.
Proof.
  intros Hwf Hds [Hname Hshort Hfile Hsize Hpos Hch Hcont Htight Hapart] Hb Hmod Hle Hlen Hfuel keep. pose proof (bytes_pos s Hwf) as HB. set (B := cluster_bytes s) in *.
  destruct (exists_last (l := get_start e :: cs) ltac:(done)) as (pre & z & Epz). unfold append_entry, append_data. rewrite bind_assoc, gets_step, bind_assoc. fold B.
  rewrite (bind_step _ _ _ _ _ (last_cluster_chain fuel _ _ pre z s Hwf Hch Epz Hfuel)), Hmod, bind_assoc.
  assert (Hz : 2 <= z < entries s /\ fat s z <> 0) by (pose proof (chain_used _ _ Hch) as Hu; rewrite Epz in Hu; apply Forall_app in Hu as [_ Hu]; by apply Forall_cons in Hu as [? _]). destruct Hz as [Hz Hzu].
  unfold fill_tail. rewrite bind_assoc, gets_step, bind_assoc, (bind_step _ _ _ _ _ (rd_ok s z Hwf Hz)). fold B. rewrite Z.sub_0_r. pose proof (clus_size s z Hwf) as Hlz. fold B in Hlz.
  rewrite take_ge, drop_ge by lia. destruct (write_ext s z (patch (clus s z) (Z.to_nat 0) data) Hwf Hz) as (s1 & E1 & He1 & Hw1 & Hf1); [rewrite patch_length by lia; done|by apply patch_bytes; [apply clus_byte|]|].
  rewrite bind_assoc, (bind_step _ _ _ _ _ E1), ret_step. assert (Ea : append_clusters (length (@nil Z)) z [] s1 = Some (true, s1)) by done. rewrite (bind_step _ _ _ _ _ Ea). pose proof (ext_wf _ _ _ He1 Hwf) as Hwf1.
  assert (Hzd : forall b, b ∈ d :: ds -> z <> b) by (intros b Hin <-; apply (Hapart z); [rewrite Epz; set_solver|done]). destruct (chain_ext _ _ _ _ He1 Hzd Hds) as [Hds1 _].
  pose proof (find_spec_ext _ _ _ (has_name (name83 base ex)) _ He1 Hzd (chain_used _ _ Hds)) as Hname1. rewrite Hname in Hname1. rewrite Hsize, u32_small by lia.
  destruct (update_size_ok s1 (has_name (name83 base ex)) (d :: ds) c o e (Z.of_nat (length old) + Z.of_nat (length data)) Hwf1 Hds1 Hname1 ltac:(lia)) as (s2 & e' & E2 & He2 & Hf2 & Hin & Hfind2 & _ & Hcl2 & Hsz2).
  { intros e' He'. apply find_spec_in in Hname as [_ Hsc]. apply scan_found in Hsc as (_ & HP & _). unfold has_name in *. rewrite bool_decide_eq_true in *. by rewrite (merged_name_eq _ _ He'). }
  cbn zeta. rewrite (bind_step _ _ _ _ _ E2). exists s2, e'. pose proof (chain_same_fat s s1 _ (ext_entries _ _ _ He1) Hf1 Hch) as Hch1.
  assert (Hcd : forall b, b ∈ get_start e :: cs -> c <> b) by (intros b Hbin <-; by apply (Hapart c)). destruct (chain_ext _ s1 s2 (get_start e :: cs) He2 Hcd Hch1) as [Hch2 Hcont2].
  split_and!; try done.
  - eapply ext_trans; [apply (ext_weaken _ _ _ _ He1)|exact He2|]; [intros ? <-; right; rewrite Epz; set_solver|intros ? <-; by left; left].
  - by apply (chain_same_fat s1); [apply (ext_entries _ _ _ He2)|..].
  - rewrite Hcont2, Epz, content_app, content_single, Hw1. rewrite Epz, content_app, content_single in Hcont.
    assert (Hlp : length (content s pre) = keep /\ junk = []).
    { pose proof (content_length s pre Hwf) as Hlp. apply (f_equal length) in Hcont as Hlc. rewrite !length_app in Hlc. apply (f_equal length) in Epz. rewrite length_app in Epz. cbn [length] in Epz. fold B in Htight, Hlp.
      rewrite Hsize in Hmod. apply Z.div_exact in Hmod; [|lia]. assert (0 < Z.of_nat (length old)) by (destruct old; [done|cbn; lia]).
      assert (E : (Z.of_nat (length old) - 1) / B = Z.of_nat (length old) / B - 1).
      { set (q := Z.of_nat (length old) / B) in *. rewrite Hmod. replace (B * q - 1) with ((q - 1) * B + (B - 1)) by lia. rewrite Z.div_add_l, (Z.div_small (B - 1)) by lia. lia. }
      assert (Z.of_nat (length pre) = Z.of_nat (length old) / B - 1) by lia. split; [subst keep; nia|]. apply nil_length_inv. nia. }
    destruct Hlp as [Hlp ->]. rewrite app_nil_r in Hcont. rewrite <-Hcont, take_app_length', <-drop_drop, drop_app_length' by done.
    rewrite (content_same s s1 pre); [done|]. intros b Hbin. pose proof (chain_nodup _ _ Hwf Hch) as Hnd. rewrite Epz in Hnd. apply NoDup_app in Hnd as (_ & Hd & _).
    pose proof (chain_used _ _ Hch) as Hu. rewrite Epz in Hu. apply Forall_app in Hu as [Hu _]. rewrite Forall_forall in Hu. destruct (Hu b Hbin). apply (ext_clus _ _ _ He1); try done. intros <-. apply (Hd z Hbin). set_solver.
Qed.
End Chains.
