(* ===== verification/Volume.v ===== *)
(** FAT volumes on a block device: sectors, clusters and the allocation table,
    which [src/kernel/src/fs/fat16.cpp] and [src/kernel/src/fs/fat32.cpp]
    handle alike but for the width and the marks of table entries.

    The class [FatVolume] holds what tells the drivers apart: where a state
    keeps its device and its geometry, the format of table and directory
    entries.  The operations below are defined and proved for any of them, and
    implement the interface of [Clusters.v]. *)
From S2P Require Import Prelude NetPacket Disk Clusters.

Class FatVolume (V D : Type) `{BlockDevice D} := {
  vdev : V -> D;
  set_vdev : D -> V -> V;
  v_fatStart : V -> Z;
  v_dataStart : V -> Z;
  v_sectorsPerFAT : V -> Z;
  v_numFATs : V -> Z;
  v_sectorsPerCluster : V -> Z;
  v_bytesPerCluster : V -> Z;
  (** Table entries: their size, reading and writing one in a sector, the value
      when the sector cannot be read, the least end mark, the mark that is
      written and the conversion of a cluster number. *)
  ent_size : Z;
  get_ent : list Z -> nat -> Z;
  set_ent : list Z -> nat -> Z -> list Z;
  unreadable : Z;
  v_eoc : Z;
  v_mark : Z;
  v_narrow : Z -> Z;
  (** Directory entries. *)
  v_put : list Z -> nat -> list Z -> Z -> Z -> Z -> list Z;
  v_start : list Z -> Z;
}.

Section Operations.
Context {V D : Type} `{FatVolume V D}.

(** ** Sectors and clusters *)

Definition ReadSectors (lba count : Z) : ST V (option (list Z)) := gets (fun s => dev_read (vdev s) lba (u8 count)).
Definition WriteSectors (lba count : Z) (buf : list Z) : ST V bool :=
  fun s => let '(ok, d) := dev_write (vdev s) lba (u8 count) buf in Some (ok, set_vdev d s).
Definition ReadSector (lba : Z) : ST V (option (list Z)) := ReadSectors lba 1.
Definition WriteSector (lba : Z) (buf : list Z) : ST V bool := WriteSectors lba 1 buf.

Definition ClusterToLBA (cluster : Z) : ST V Z := gets (fun s => u32 (v_dataStart s + (cluster - 2) * v_sectorsPerCluster s)).
Definition ReadCluster (cluster : Z) : ST V (option (list Z)) :=
  let! lba := ClusterToLBA cluster in let! n := gets v_sectorsPerCluster in ReadSectors lba n.
Definition WriteCluster (cluster : Z) (buf : list Z) : ST V bool :=
  let! lba := ClusterToLBA cluster in let! n := gets v_sectorsPerCluster in WriteSectors lba n buf.

(** Zeros in the sectors of a cluster. *)
Fixpoint zero_loop (n : nat) (lba : Z) : ST V bool :=
  match n with
  | O => ret true
  | S n' => check (WriteSector (u32 lba) zero_sector) or false in zero_loop n' (lba + 1)
  end.
Definition ZeroCluster (cluster : Z) : ST V bool :=
  let! lba := ClusterToLBA cluster in
  let! n := gets v_sectorsPerCluster in
  zero_loop (Z.to_nat n) lba.

(** ** The allocation table *)

Definition NextCluster (cluster : Z) : ST V Z :=
  let fatOffset := u32 (cluster * ent_size) in
  let! fat := gets v_fatStart in
  let? sec := ReadSector (u32 (fat + fatOffset / 512)) or unreadable in
  ret (get_ent sec (Z.to_nat (fatOffset mod 512))).

(** The copies of the table from number [f]. *)
Fixpoint mirror_loop (n : nat) (f fatSector : Z) (sec : list Z) : ST V bool :=
  match n with
  | O => ret true
  | S n' =>
      let! spf := gets v_sectorsPerFAT in
      check (WriteSector (u32 (fatSector + f * spf)) sec) or false in mirror_loop n' (f + 1) fatSector sec
  end.
Definition UpdateFAT (cluster value : Z) : ST V bool :=
  let fatOffset := u32 (cluster * ent_size) in
  let! fat := gets v_fatStart in
  let fatSector := u32 (fat + fatOffset / 512) in
  let? sec := ReadSector fatSector or false in
  let sec := set_ent sec (Z.to_nat (fatOffset mod 512)) value in
  check (WriteSector fatSector sec) or false in
  let! n := gets v_numFATs in
  mirror_loop (Z.to_nat (n - 1)) 1 fatSector sec.

(** The scan for a free entry from cluster [cl]. *)
Fixpoint alloc_scan (n : nat) (cl : Z) : ST V Z :=
  match n with
  | O => ret 0
  | S n' =>
      let fatOffset := u32 (cl * ent_size) in
      let! fat := gets v_fatStart in
      let? sec := ReadSector (u32 (fat + fatOffset / 512)) or 0 in
      if get_ent sec (Z.to_nat (fatOffset mod 512)) =? 0
      then check (UpdateFAT cl v_mark) or 0 in ret cl
      else alloc_scan n' (cl + 1)
  end.
Definition AllocateCluster : ST V Z :=
  let! spf := gets v_sectorsPerFAT in
  alloc_scan (Z.to_nat (u32 (spf * 512) / ent_size - 2)) 2.

#[export] Instance volume_ops : ClusterOps V := {
  rd_cluster := ReadCluster; wr_cluster := WriteCluster; zero_cluster := ZeroCluster; next_cl := NextCluster; link := UpdateFAT; alloc_cl := AllocateCluster;
  cluster_bytes := v_bytesPerCluster; eoc := v_eoc; eoc_mark := v_mark; narrow := v_narrow; put_entry := v_put; get_start := v_start;
}.
End Operations.
Arguments FatVolume V D {_}.

(** * What the drivers have in common *)

(** States are records with a device in them; [v_ok] is a well-formed volume:
    the tables and the data follow each other on the device, and cluster
    numbers stay below the end marks. *)
Class VolumeLaws (V D : Type) `{WorkingDevice D} `{!FatVolume V D} := {
  vdev_set : forall (s : V) (d : D), vdev (set_vdev d s) = d;
  set_set : forall (s : V) (d d' : D), set_vdev d (set_vdev d' s) = set_vdev d s;
  set_same : forall s : V, set_vdev (vdev s) s = s;
  fatStart_set : forall (s : V) (d : D), v_fatStart (set_vdev d s) = v_fatStart s;
  dataStart_set : forall (s : V) (d : D), v_dataStart (set_vdev d s) = v_dataStart s;
  spf_set : forall (s : V) (d : D), v_sectorsPerFAT (set_vdev d s) = v_sectorsPerFAT s;
  nf_set : forall (s : V) (d : D), v_numFATs (set_vdev d s) = v_numFATs s;
  spc_set : forall (s : V) (d : D), v_sectorsPerCluster (set_vdev d s) = v_sectorsPerCluster s;
  bpc_set : forall (s : V) (d : D), v_bytesPerCluster (set_vdev d s) = v_bytesPerCluster s;
  v_ok : V -> Prop;
  ok_set : forall (s : V) (d : D), v_ok s -> v_ok (set_vdev d s);
  ok_spc : forall s : V, v_ok s -> 1 <= v_sectorsPerCluster s <= 255;
  ok_nf : forall s : V, v_ok s -> 1 <= v_numFATs s <= 255;
  ok_spf : forall s : V, v_ok s -> 1 <= v_sectorsPerFAT s /\ v_sectorsPerFAT s * (512 / ent_size) <= v_eoc;
  ok_start : forall s : V, v_ok s -> 0 <= v_fatStart s /\ v_fatStart s + v_numFATs s * v_sectorsPerFAT s <= v_dataStart s;
  ok_end : forall s : V, v_ok s -> v_dataStart s + v_sectorsPerFAT s * (512 / ent_size) * v_sectorsPerCluster s < Z.min (2 ^ 32) (capacity D + 1);
  ok_bytes : forall s : V, v_ok s -> v_bytesPerCluster s = 512 * v_sectorsPerCluster s;
  ent_size_ok : ent_size = 2 \/ ent_size = 4;
  eoc_range : 2 <= v_eoc <= v_mark /\ v_eoc * ent_size < 2 ^ 32;
  get_set_eq : forall buf i v, Forall byte buf -> 0 <= v <= v_mark -> (i + Z.to_nat ent_size <= length buf)%nat -> get_ent (set_ent buf i v) i = v;
  get_set_ne : forall buf i j v, (i + Z.to_nat ent_size <= length buf)%nat -> (j + Z.to_nat ent_size <= i \/ i + Z.to_nat ent_size <= j)%nat ->
    get_ent (set_ent buf i v) j = get_ent buf j;
  set_ent_length : forall buf i v, (i + Z.to_nat ent_size <= length buf)%nat -> length (set_ent buf i v) = length buf;
  set_ent_bytes : forall buf i v, Forall byte buf -> Forall byte (set_ent buf i v);
  narrow_ok : forall c, 0 <= c < v_eoc -> v_narrow c = c;
  put_ok : forall buf o sh attr sc size, Forall byte buf -> Forall byte sh -> length sh = 11%nat -> (o + 32 <= length buf)%nat ->
    0 <= attr < 256 -> 0 <= sc < v_eoc -> 0 <= size < 2 ^ 32 ->
    let buf' := v_put buf o sh attr sc size in
    length buf' = length buf /\ Forall byte buf' /\ same_outside buf buf' o /\ entry_holds v_start sh attr sc size (entry_at buf' o);
  start_eq : forall e e', (forall i, (20 <= i < 28)%nat -> byte_at e' i = byte_at e i) -> v_start e' = v_start e;
}.

Lemma ent_index w n cl : w = 2 \/ w = 4 -> 0 <= cl < n * (512 / w) -> 0 <= w * cl / 512 < n /\ (Z.to_nat (w * cl mod 512) + Z.to_nat w <= 512)%nat.
Proof. intros [-> | ->] Hc; [change (512 / 2) with 256 in *|change (512 / 4) with 128 in *]; split; zdiv. Qed.
(** Different entries of a sector do not overlap. *)
Lemma ent_apart w c c' : w = 2 \/ w = 4 -> 0 <= c -> 0 <= c' -> c <> c' -> w * c / 512 = w * c' / 512 ->
  (Z.to_nat (w * c mod 512) + Z.to_nat w <= Z.to_nat (w * c' mod 512) \/ Z.to_nat (w * c' mod 512) + Z.to_nat w <= Z.to_nat (w * c mod 512))%nat.
Proof. intros [-> | ->] Hc Hc' Hne E; zdiv. Qed.

Section Facts.
Context {V D : Type} `{VolumeLaws V D}.
Implicit Types (s : V) (d : D) (c cl v l : Z).

Ltac geo := rewrite ?vdev_set, ?set_set, ?set_same, ?fatStart_set, ?dataStart_set, ?spf_set, ?nf_set, ?spc_set, ?bpc_set in *.

Definition fat_entries s : Z := v_sectorsPerFAT s * (512 / ent_size).
Definition fat_sector s cl : Z := v_fatStart s + ent_size * cl / 512.
Definition fat_offset cl : nat := Z.to_nat (ent_size * cl mod 512).
(** The table, from its first copy. *)
Definition table s cl : Z := get_ent (sector (vdev s) (fat_sector s cl)) (fat_offset cl).
Definition lba_of s cl : Z := v_dataStart s + (cl - 2) * v_sectorsPerCluster s.
(** The bytes of a cluster. *)
Definition bytes_of s cl : list Z := sectors (sector (vdev s)) (lba_of s cl) (Z.to_nat (v_sectorsPerCluster s)).
(** All copies of the table are equal. *)
Definition mirrored s : Prop :=
  forall f i, 0 <= f < v_numFATs s -> 0 <= i < v_sectorsPerFAT s ->
    sector (vdev s) (v_fatStart s + f * v_sectorsPerFAT s + i) = sector (vdev s) (v_fatStart s + i).

Lemma entries_set d s : fat_entries (set_vdev d s) = fat_entries s.
Proof. unfold fat_entries. by geo. Qed.
Lemma lba_set d s cl : lba_of (set_vdev d s) cl = lba_of s cl.
Proof. unfold lba_of. by geo. Qed.
Lemma fat_sector_set d s cl : fat_sector (set_vdev d s) cl = fat_sector s cl.
Proof. unfold fat_sector. by geo. Qed.
Lemma ent_bounds : 2 <= ent_size <= 4 /\ ent_size * (512 / ent_size) = 512.
Proof. destruct ent_size_ok as [-> | ->]; done. Qed.
Lemma entries_range s : v_ok s -> 128 <= fat_entries s <= v_eoc.
Proof.
  intros Hok. pose proof (ok_spf s Hok) as [? ?]. unfold fat_entries. pose proof ent_bounds. nia.
Qed.

Lemma ok_room s : v_ok s -> v_dataStart s + v_sectorsPerFAT s < Z.min (2 ^ 32) (capacity D + 1).
Proof.
  intros Hok. pose proof (ok_end s Hok). pose proof (ok_spf s Hok) as [? _]. pose proof (ok_spc s Hok). assert (v_sectorsPerFAT s <= v_sectorsPerFAT s * (512 / ent_size)) by (destruct ent_size_ok as [-> | ->]; [change (512 / 2) with 256|change (512 / 4) with 128]; lia). nia.
Qed.

(** ** Sectors *)

Lemma ReadSector_ok lba s : 0 <= lba < capacity D -> ReadSector lba s = Some (Some (sector (vdev s) lba), s).
Proof. intros Hl. unfold ReadSector, ReadSectors, gets. rewrite dev_read_ok by (change (u8 1) with 1; lia). change (Z.to_nat (u8 1)) with 1%nat. cbn [sectors]. by rewrite app_nil_r. Qed.

Lemma WriteSector_ok lba buf s : 0 <= lba < capacity D -> length buf = 512%nat -> Forall byte buf ->
  exists d', WriteSector lba buf s = Some (true, set_vdev d' s) /\ forall l, sector d' l = if decide (l = lba) then buf else sector (vdev s) l.
Proof.
  intros Hl Hb Hbs. unfold WriteSector, WriteSectors. change (u8 1) with 1.
  destruct (dev_write_ok (vdev s) lba 1 buf) as (d' & E & Hd); [lia|lia|lia|lia|done|]. rewrite E. exists d'. split; [done|]. intros l. rewrite Hd.
  repeat case_decide; try lia; [|done]. subst. replace (Z.to_nat (512 * (lba - lba))) with 0%nat by lia. rewrite drop_0. by rewrite take_ge by lia.
Qed.

Lemma read_step {B} lba (f : option (list Z) -> ST V B) s : 0 <= lba < capacity D -> bind (ReadSector lba) f s = f (Some (sector (vdev s) lba)) s.
Proof. intros. by rewrite (bind_step _ _ _ _ _ (ReadSector_ok lba s ltac:(done))). Qed.

(** ** The allocation table *)

Lemma fat_index s cl : v_ok s -> 0 <= cl < fat_entries s ->
  u32 (cl * ent_size) = ent_size * cl /\ 0 <= ent_size * cl / 512 < v_sectorsPerFAT s /\ u32 (v_fatStart s + ent_size * cl / 512) = fat_sector s cl /\
  0 <= fat_sector s cl < capacity D /\ (fat_offset cl + Z.to_nat ent_size <= 512)%nat.
Proof.
  intros Hok Hc. pose proof (entries_range s Hok). pose proof (ok_start s Hok). pose proof (ok_end s Hok). pose proof (ok_nf s Hok). pose proof (ok_spc s Hok). pose proof eoc_range. pose proof (ok_spf s Hok).
  pose proof (ent_index ent_size (v_sectorsPerFAT s) cl ent_size_ok Hc) as E.
  destruct E as [E1 E2]. unfold fat_entries, fat_sector in *. assert (v_fatStart s + ent_size * cl / 512 < Z.min (2 ^ 32) (capacity D)) by nia.
  pose proof ent_bounds. split_and!; [rewrite u32_small by nia; lia|lia|lia|apply u32_small; lia|lia|lia|done].
Qed.
Lemma NextCluster_ok s cl : v_ok s -> 0 <= cl < fat_entries s -> NextCluster cl s = Some (table s cl, s).
Proof.
  intros Hok Hc. destruct (fat_index s cl Hok Hc) as (E1 & _ & E2 & Hp & _). unfold NextCluster. cbn zeta. rewrite E1, gets_step, E2, read_step by done. done.
Qed.

Lemma mirror_loop_ok n f base sec s : 0 < v_sectorsPerFAT s -> 0 <= base -> 0 <= f -> base + (f + Z.of_nat n) * v_sectorsPerFAT s < Z.min (2 ^ 32) (capacity D + 1) ->
  length sec = 512%nat -> Forall byte sec ->
  exists d', mirror_loop n f base sec s = Some (true, set_vdev d' s) /\
    (forall g, f <= g < f + Z.of_nat n -> sector d' (base + g * v_sectorsPerFAT s) = sec) /\
    (forall l, (forall g, f <= g < f + Z.of_nat n -> l <> base + g * v_sectorsPerFAT s) -> sector d' l = sector (vdev s) l).
Proof.
  revert f s. induction n as [|n IH]; intros f s Hspf Hb Hf Hend Hl Hbs; cbn [mirror_loop].
  { exists (vdev s). geo. split; [done|]. split; [lia|done]. }
  rewrite gets_step. rewrite u32_small by nia.
  destruct (WriteSector_ok (base + f * v_sectorsPerFAT s) sec s) as (d1 & E1 & Hw1); [nia|done|done|]. rewrite (bind_step _ _ _ _ _ E1).
  destruct (IH (f + 1) (set_vdev d1 s)) as (d2 & E2 & Hw2 & Hw3); geo; try done; [lia|lia|]. exists d2. split; [exact E2|]. split.
  - intros g Hg. destruct (decide (g = f)) as [->|]; [|apply Hw2; lia]. rewrite Hw3 by (intros; nia). rewrite Hw1. by rewrite decide_True.
  - intros l Hne. rewrite Hw3 by (intros g Hg; apply Hne; lia). rewrite Hw1. rewrite decide_False; [done|]. apply Hne. lia.
Qed.

(** What a change of one table entry leaves alone. *)
Definition outside_fat s (d' : D) : Prop :=
  forall l, l < v_fatStart s \/ v_fatStart s + v_numFATs s * v_sectorsPerFAT s <= l -> sector d' l = sector (vdev s) l.

(** The copies of the table after one of its sectors was written to each. *)
Lemma mirrored_write s d' k sec : 0 < v_sectorsPerFAT s -> 0 <= k < v_sectorsPerFAT s ->
  (forall g, 0 <= g < v_numFATs s -> sector d' (v_fatStart s + k + g * v_sectorsPerFAT s) = sec) ->
  (forall l, (forall g, 0 <= g < v_numFATs s -> l <> v_fatStart s + k + g * v_sectorsPerFAT s) -> sector d' l = sector (vdev s) l) ->
  outside_fat s d' /\ (mirrored s -> mirrored (set_vdev d' s)).
Proof.
  intros Hspf Hk Hin Hout. split; [intros l Hl; apply Hout; intros g Hg; nia|]. intros Hm f i Hf Hi. geo. set (spf := v_sectorsPerFAT s) in *.
  destruct (decide (i = k)) as [->|Hne].
  - rewrite <-(Z.add_assoc _ (f * spf)), (Z.add_comm (f * spf)), Z.add_assoc, Hin by done. rewrite <-(Hin 0) by lia. f_equal. lia.
  - rewrite !Hout; [by apply Hm|..]; intros g Hg E; [destruct (row_inj spf 0 g i k)|destruct (row_inj spf f g i k)]; lia.
Qed.

Lemma UpdateFAT_ok s cl v : v_ok s -> 0 <= cl < fat_entries s -> 0 <= v <= v_mark ->
  exists d', UpdateFAT cl v s = Some (true, set_vdev d' s) /\
    (forall c, 0 <= c < fat_entries s -> table (set_vdev d' s) c = if decide (c = cl) then v else table s c) /\
    outside_fat s d' /\ (mirrored s -> mirrored (set_vdev d' s)).
Proof.
  intros Hok Hc Hv. destruct (fat_index s cl Hok Hc) as (E1 & Hi & E2 & Hp & Ho). unfold UpdateFAT. cbn zeta. rewrite E1, gets_step, E2, read_step by done. fold (fat_offset cl).
  set (sec := set_ent _ _ _). assert (Hl : length sec = 512%nat) by (subst sec; rewrite set_ent_length; rewrite sector_length; done).
  assert (Hb : Forall byte sec) by (apply set_ent_bytes, sector_bytes). pose proof (ok_start s Hok) as [? ?]. pose proof (ok_nf s Hok). pose proof (ok_room s Hok). pose proof (ok_spf s Hok) as [? _].
  destruct (WriteSector_ok (fat_sector s cl) sec s Hp Hl Hb) as (d1 & E3 & Hw1). rewrite (bind_step _ _ _ _ _ E3), gets_step. geo.
  destruct (mirror_loop_ok (Z.to_nat (v_numFATs s - 1)) 1 (fat_sector s cl) sec (set_vdev d1 s)) as (d2 & E4 & Hw2 & Hw3); geo; try done; [lia|lia|rewrite Z2Nat.id by lia; unfold fat_sector; lia|].
  rewrite Z2Nat.id in Hw2, Hw3 by lia. set (spf := v_sectorsPerFAT s) in *. set (k := ent_size * cl / 512) in *. change (fat_sector s cl) with (v_fatStart s + k) in *.
  assert (Hin : forall g, 0 <= g < v_numFATs s -> sector d2 (v_fatStart s + k + g * spf) = sec).
  { intros g Hg. destruct (decide (g = 0)) as [->|]; [|apply Hw2; lia]. rewrite Hw3 by (intros; nia). rewrite Hw1. by rewrite decide_True by lia. }
  assert (Hout : forall l, (forall g, 0 <= g < v_numFATs s -> l <> v_fatStart s + k + g * spf) -> sector d2 l = sector (vdev s) l).
  { intros l Hne. rewrite Hw3 by (intros g Hg; apply Hne; lia). rewrite Hw1. rewrite decide_False; [done|]. specialize (Hne 0 ltac:(lia)). lia. }
  exists d2. split; [exact E4|]. split; [|apply (mirrored_write s d2 k sec); [lia|done|done|done]]. intros c Hc'. destruct (fat_index s c Hok Hc') as (_ & Hi' & _ & _ & Ho'). unfold table. rewrite fat_sector_set. geo.
  destruct (decide (ent_size * c / 512 = k)) as [Ek|Hne].
  - change (fat_sector s c) with (v_fatStart s + ent_size * c / 512). rewrite Ek. pose proof (Hin 0 ltac:(lia)) as H00. rewrite Z.mul_0_l, Z.add_0_r in H00. rewrite H00. destruct (decide (c = cl)) as [->|Hne].
    + apply get_set_eq; [apply sector_bytes|done|by rewrite sector_length].
    + subst sec. rewrite get_set_ne; [done|by rewrite sector_length|]. apply (ent_apart ent_size c cl); try done; try lia. apply ent_size_ok.
  - rewrite decide_False by (intros ->; done). rewrite Hout; [done|]. intros g Hg E. unfold fat_sector in E. destruct (row_inj spf 0 g (ent_size * c / 512) k); lia.
Qed.

(** The free entry found first is marked as the end of a chain; 0 is returned
    only when there is none. *)
Lemma alloc_scan_ok n cl s : v_ok s -> 2 <= cl -> cl + Z.of_nat n = fat_entries s ->
  (exists c s', alloc_scan n cl s = Some (c, s') /\ cl <= c < fat_entries s /\ table s c = 0 /\ (forall b, cl <= b < c -> table s b <> 0) /\
    UpdateFAT c v_mark s = Some (true, s')) \/
  (alloc_scan n cl s = Some (0, s) /\ forall b, cl <= b < fat_entries s -> table s b <> 0).
Proof.
  revert cl. induction n as [|n IH]; intros cl Hok Hcl Hn; cbn [alloc_scan]; [right; split; [done|lia]|].
  destruct (fat_index s cl Hok ltac:(lia)) as (E1 & _ & E2 & Hp & _). cbn zeta. rewrite E1, gets_step, E2, read_step by done. pose proof eoc_range.
  fold (fat_offset cl) (table s cl). case_zb.
  - destruct (UpdateFAT_ok s cl v_mark Hok) as (d' & E & _); [lia|lia|]. left. exists cl, (set_vdev d' s). rewrite (bind_step _ _ _ _ _ E). split_and!; try done; lia.
  - destruct (IH (cl + 1) Hok ltac:(lia) ltac:(lia)) as [(c & d' & E & Hc & Hz & Hb & Eu)|(E & Hb)]; [left; exists c, d'|right]; (split; [exact E|]).
    + split_and!; try done; try lia. intros b Hb'. destruct (decide (b = cl)) as [->|]; [done|]. apply Hb. lia.
    + intros b Hb'. destruct (decide (b = cl)) as [->|]; [done|]. apply Hb. lia.
Qed.

(** ** Clusters *)

Lemma lba_range s cl : v_ok s -> 2 <= cl < fat_entries s ->
  v_dataStart s <= lba_of s cl /\ lba_of s cl + v_sectorsPerCluster s <= Z.min (2 ^ 32) (capacity D) /\ 0 <= v_fatStart s /\
  v_fatStart s <= v_fatStart s + v_numFATs s * v_sectorsPerFAT s <= v_dataStart s.
Proof.
  intros Hok Hc. pose proof (ok_spc s Hok). pose proof (ok_nf s Hok). pose proof (ok_spf s Hok) as [? _]. pose proof (ok_start s Hok) as [? ?]. pose proof (ok_end s Hok). unfold lba_of, fat_entries in *. split_and!; try lia; nia.
Qed.

Lemma lba_step {B} s cl (f : Z -> ST V B) : v_ok s -> 2 <= cl < fat_entries s -> bind (ClusterToLBA cl) f s = f (lba_of s cl) s.
Proof.
  intros Hok Hc. destruct (lba_range s cl Hok Hc) as (? & ? & ? & ?). pose proof (ok_spc s Hok). pose proof (ok_nf s Hok). pose proof (ok_spf s Hok). unfold ClusterToLBA. rewrite gets_step. fold (lba_of s cl).
  by rewrite u32_small by nia.
Qed.

Lemma clus_length s cl : v_ok s -> Z.of_nat (length (bytes_of s cl)) = v_bytesPerCluster s.
Proof. intros Hok. unfold bytes_of. rewrite sectors_length by apply sector_length. rewrite ok_bytes by done. pose proof (ok_spc s Hok). lia. Qed.
Lemma clus_bytes s cl : Forall byte (bytes_of s cl).
Proof. apply sectors_bytes, sector_bytes. Qed.

(** Sectors of different clusters are different. *)
Lemma clus_disjoint s c cl l : lba_of s c <= l < lba_of s c + v_sectorsPerCluster s -> lba_of s cl <= l < lba_of s cl + v_sectorsPerCluster s -> c = cl.
Proof.
  intros H1' H2'. unfold lba_of in *. set (spc := v_sectorsPerCluster s) in *.
  destruct (row_inj spc (c - 2) (cl - 2) (l - v_dataStart s - (c - 2) * spc) (l - v_dataStart s - (cl - 2) * spc)); lia.
Qed.

(** A change of sectors that are all in cluster [cl]. *)
Definition only_cluster s cl d' : Prop := forall l, ~ (lba_of s cl <= l < lba_of s cl + v_sectorsPerCluster s) -> sector d' l = sector (vdev s) l.

Lemma clus_other s cl d' c : v_ok s -> only_cluster s cl d' -> c <> cl -> bytes_of (set_vdev d' s) c = bytes_of s c.
Proof.
  intros Hok Ho Hne. unfold bytes_of. rewrite lba_set. geo. pose proof (ok_spc s Hok). apply sectors_ext. intros l Hl. apply Ho.
  intros Hl'. apply Hne. apply (clus_disjoint s c cl l); lia.
Qed.
Lemma fat_other s cl d' c : v_ok s -> 2 <= cl < fat_entries s -> only_cluster s cl d' -> 0 <= c < fat_entries s -> table (set_vdev d' s) c = table s c.
Proof.
  intros Hok Hcl Ho Hc. destruct (lba_range s cl Hok Hcl) as (? & _ & ? & ?). destruct (fat_index s c Hok Hc) as (_ & Hi & _ & _ & _). pose proof (ok_nf s Hok).
  unfold table. rewrite fat_sector_set. geo. unfold fat_sector. rewrite Ho; [done|]. nia.
Qed.

Lemma ReadCluster_ok s cl : v_ok s -> 2 <= cl < fat_entries s -> ReadCluster cl s = Some (Some (bytes_of s cl), s).
Proof.
  intros Hok Hc. destruct (lba_range s cl Hok Hc) as (? & ? & ? & ?). unfold ReadCluster. rewrite lba_step, gets_step by done. pose proof (ok_spc s Hok). pose proof (ok_nf s Hok). pose proof (ok_spf s Hok).
  unfold ReadSectors, gets. rewrite u8_small by lia. by rewrite dev_read_ok by nia.
Qed.

Lemma WriteCluster_ok s cl buf : v_ok s -> 2 <= cl < fat_entries s -> Z.of_nat (length buf) = v_bytesPerCluster s -> Forall byte buf ->
  exists d', WriteCluster cl buf s = Some (true, set_vdev d' s) /\ only_cluster s cl d' /\ bytes_of (set_vdev d' s) cl = buf.
Proof.
  intros Hok Hc Hl Hb. destruct (lba_range s cl Hok Hc) as (? & ? & ? & ?). unfold WriteCluster. rewrite lba_step, gets_step by done. pose proof (ok_spc s Hok). pose proof (ok_nf s Hok). pose proof (ok_spf s Hok).
  rewrite ok_bytes in Hl by done. unfold WriteSectors. rewrite u8_small by lia.
  destruct (dev_write_ok (vdev s) (lba_of s cl) (v_sectorsPerCluster s) buf) as (d' & E & Hd); [nia|lia|lia|done|done|]. rewrite E. exists d'. split_and!; [done| |].
  - intros l Hn. rewrite Hd. by rewrite decide_False.
  - unfold bytes_of. rewrite lba_set. geo.
    rewrite (sectors_ext _ (fun l => take 512 (drop (Z.to_nat (512 * (l - lba_of s cl))) buf))) by (intros l Hl'; rewrite Hd; by rewrite decide_True by lia).
    pose proof (sectors_cut buf (lba_of s cl) (Z.to_nat (v_sectorsPerCluster s)) 0 ltac:(lia)) as Hcut. by rewrite Z.add_0_r in Hcut.
Qed.
Lemma zero_clusters_ok n lba s : 0 <= lba -> lba + Z.of_nat n <= Z.min (2 ^ 32) (capacity D) ->
  exists d', zero_loop n lba s = Some (true, set_vdev d' s) /\
    forall l, sector d' l = if decide (lba <= l < lba + Z.of_nat n) then zero_sector else sector (vdev s) l.
Proof.
  revert lba s. induction n as [|n IH]; intros lba s Hl Hn; cbn [zero_loop].
  { exists (vdev s). geo. split; [done|]. intros l. by rewrite decide_False by lia. }
  rewrite u32_small by lia. destruct (WriteSector_ok lba zero_sector s) as (d1 & E1 & Hw1); [lia|done|apply Forall_replicate; lia|].
  rewrite (bind_step _ _ _ _ _ E1). destruct (IH (lba + 1) (set_vdev d1 s) ltac:(lia) ltac:(lia)) as (d2 & E2 & Hw2). geo. exists d2. split; [exact E2|].
  intros l. rewrite Hw2, Hw1. repeat case_decide; try lia; done.
Qed.
Lemma sectors_Forall (P : Z -> Prop) sec lba n : (forall l, lba <= l < lba + Z.of_nat n -> Forall P (sec l)) -> Forall P (sectors sec lba n).
Proof. revert lba. induction n as [|n IH]; intros lba Hl; cbn [sectors]; [constructor|]. apply Forall_app. split; [apply Hl; lia|]. apply IH. intros l Hr. apply Hl. lia. Qed.
Lemma ZeroCluster_ok s cl : v_ok s -> 2 <= cl < fat_entries s -> exists d', ZeroCluster cl s = Some (true, set_vdev d' s) /\ only_cluster s cl d' /\ forall i, byte_at (bytes_of (set_vdev d' s) cl) i = 0.
Proof.
  intros Hok Hc. destruct (lba_range s cl Hok Hc) as (? & ? & ? & ?). unfold ZeroCluster. rewrite lba_step, gets_step by done. pose proof (ok_spc s Hok). pose proof (ok_nf s Hok). pose proof (ok_spf s Hok).
  destruct (zero_clusters_ok (Z.to_nat (v_sectorsPerCluster s)) (lba_of s cl) s ltac:(nia) ltac:(lia)) as (d' & E & Hw). exists d'. split_and!; [exact E| |].
  - intros l Hl. rewrite Hw. by rewrite decide_False by lia.
  - unfold bytes_of. rewrite lba_set. geo. intros i. unfold byte_at. destruct (sectors _ _ _ !! i) as [x|] eqn:Ex; [|done]. cbn.
    assert (Hall : Forall (eq 0) (sectors (sector d') (lba_of s cl) (Z.to_nat (v_sectorsPerCluster s)))) by (apply sectors_Forall; intros l Hl; rewrite Hw, decide_True by lia; by apply Forall_replicate).
    symmetry. by apply (Forall_lookup_1 _ _ _ _ Hall Ex).
Qed.

(** ** The volume as a store of clusters *)

(** Two states of a volume with equal geometry and equal sectors outside the
    table and the data, whose copies of the table stay equal. *)
Definition same_volume s s' : Prop :=
  s' = set_vdev (vdev s') s /\
  (forall l, l < v_fatStart s \/ v_fatStart s + v_numFATs s * v_sectorsPerFAT s <= l < v_dataStart s -> sector (vdev s') l = sector (vdev s) l) /\
  (mirrored s -> mirrored s').

Lemma same_volume_trans s s1 s2 : same_volume s s1 -> same_volume s1 s2 -> same_volume s s2.
Proof.
  intros (D1 & O1 & M1) (D2 & O2 & M2). split_and!; [rewrite D2; rewrite D1; by geo| |auto]. intros l Hl. rewrite O2, O1; [done..|]. rewrite D1. by geo.
Qed.
Lemma only_cluster_kept s cl d' : v_ok s -> 2 <= cl < fat_entries s -> only_cluster s cl d' -> same_volume s (set_vdev d' s).
Proof.
  intros Hok Hc Ho. destruct (lba_range s cl Hok Hc) as (? & _ & ? & ?). unfold same_volume. geo. split_and!; [done| |].
  - intros l Hl. apply Ho. lia.
  - intros Hm f i Hf Hi. geo. pose proof (ok_nf s Hok). rewrite !Ho by nia. by apply Hm.
Qed.
Lemma UpdateFAT_kept s cl v : v_ok s -> 0 <= cl < fat_entries s -> 0 <= v <= v_mark ->
  exists s', UpdateFAT cl v s = Some (true, s') /\ same_volume s s' /\ (forall c, 0 <= c < fat_entries s -> table s' c = if decide (c = cl) then v else table s c) /\
    forall c, 2 <= c < fat_entries s -> bytes_of s' c = bytes_of s c.
Proof.
  intros Hok Hc Hv. destruct (UpdateFAT_ok s cl v Hok Hc Hv) as (d' & E & Ht & Ho & Hm). exists (set_vdev d' s). split_and!; try done.
  - unfold same_volume. geo. split_and!; [done| |done]. intros l Hl. apply Ho. lia.
  - intros c Hc'. destruct (lba_range s c Hok Hc') as (? & _ & ? & ?). unfold bytes_of. rewrite lba_set. geo. apply sectors_ext. intros l Hl. apply Ho. lia.
Qed.
Lemma AllocateCluster_ok s : v_ok s ->
  (exists c s', AllocateCluster s = Some (c, s') /\ 2 <= c < fat_entries s /\ table s c = 0 /\ (forall b, 2 <= b < c -> table s b <> 0) /\ same_volume s s' /\
    (forall b, 0 <= b < fat_entries s -> table s' b = if decide (b = c) then v_mark else table s b) /\ forall b, 2 <= b < fat_entries s -> bytes_of s' b = bytes_of s b) \/
  (AllocateCluster s = Some (0, s) /\ forall c, 2 <= c < fat_entries s -> table s c <> 0).
Proof.
  intros Hok. unfold AllocateCluster. rewrite gets_step. pose proof (entries_range s Hok). pose proof (ok_spf s Hok) as [? ?]. pose proof eoc_range. pose proof ent_bounds as [? ?].
  assert (Ee : u32 (v_sectorsPerFAT s * 512) / ent_size = fat_entries s).
  { assert (E5 : v_sectorsPerFAT s * 512 = fat_entries s * ent_size) by (unfold fat_entries; nia). rewrite E5, u32_small by nia. apply Z.div_mul. lia. }
  rewrite Ee. destruct (alloc_scan_ok (Z.to_nat (fat_entries s - 2)) 2 s Hok) as [(c & s' & E & Hc & Hz & Hb & Eu)|[E Hb]]; [lia|lia|left|right; done].
  destruct (UpdateFAT_kept s c v_mark Hok) as (s2 & E2 & Hk & Ht & Hcl); [lia|lia|]. rewrite Eu in E2. injection E2 as <-. exists c, s'. by split_and!; try lia.
Qed.

(** The drivers keep the promises of a store of clusters. *)
#[local] Obligation Tactic := idtac.
#[export] Program Instance volume_store : ClusterStore V := {
  vol_wf := v_ok; entries := fat_entries; fat := table; clus := bytes_of; kept := same_volume;
}.
Next Obligation. intros s. unfold same_volume. by geo. Qed.
Next Obligation. exact same_volume_trans. Qed.
Next Obligation. intros s s' [-> _]. apply ok_set. Qed.
Next Obligation. intros s s' [-> _]. apply entries_set. Qed.
Next Obligation. intros s s' [-> _]. apply bpc_set. Qed.
Next Obligation. apply eoc_range. Qed.
Next Obligation. intros s Hok. pose proof (entries_range s Hok). cbn. lia. Qed.
Next Obligation. intros s c Hok Hc. pose proof (entries_range s Hok). apply narrow_ok. lia. Qed.
Next Obligation. intros s Hok. exists (v_sectorsPerCluster s). split; [by apply ok_spc|by apply ok_bytes]. Qed.
Next Obligation. exact clus_length. Qed.
Next Obligation. exact clus_bytes. Qed.
Next Obligation. exact ReadCluster_ok. Qed.
Next Obligation. intros s c Hok Hc. apply NextCluster_ok; [done|]. lia. Qed.
Next Obligation.
  intros s c buf Hok Hc Hl Hb. destruct (WriteCluster_ok s c buf Hok Hc Hl Hb) as (d' & E & Ho & Hw). exists (set_vdev d' s). split_and!; [done|by apply (only_cluster_kept s c)| |].
  - intros. by apply (fat_other s c).
  - intros b Hb'. case_decide; [by subst|by apply (clus_other s c)].
Qed.
Next Obligation.
  intros s c Hok Hc. destruct (ZeroCluster_ok s c Hok Hc) as (d' & E & Ho & Hz). exists (set_vdev d' s). split_and!; [done|by apply (only_cluster_kept s c)| |done|].
  - intros. by apply (fat_other s c).
  - intros b Hb' Hne. by apply (clus_other s c).
Qed.
Next Obligation.
  intros s c v Hok Hc Hv. pose proof (entries_range s Hok). pose proof eoc_range. apply UpdateFAT_kept; [done|lia|]. destruct Hv as [Hv| ->]; [lia|]. change eoc_mark with v_mark. lia.
Qed.
Next Obligation. exact AllocateCluster_ok. Qed.
Next Obligation. exact put_ok. Qed.
Next Obligation. exact start_eq. Qed.
End Facts.
