(* ===== verification/Fat16.v ===== *)
(** The FAT16 file system: [src/kernel/src/fs/fat16.cpp] and
    [src/kernel/include/fs/fat16.hpp], on any block device.

    The buffers at fixed addresses are local values here: no function keeps one
    across a call that uses the same address.  A chain of clusters is followed
    with [fuel], since the chain on the disk may be cyclic; printing
    ([ListRoot], [ListDir], [DebugInfo]) is left out. *)
From S2P Require Import Prelude NetPacket Disk Clusters Volume.

Record FAT16_BPB := mk_bpb {
  bytesPerSector : Z; sectorsPerCluster : Z; reservedSectors : Z; numFATs : Z; rootEntryCount : Z; sectorsPerFAT : Z;
}.
Record fat16 (D : Type) := mk_fat {
  dev : D; bpb : FAT16_BPB;
  volumeStartLBA : Z; fatStartLBA : Z; rootDirLBA : Z; rootDirSectors : Z; dataStartLBA : Z; mounted : bool;
}.
Arguments mk_fat {D}. Arguments dev {D}. Arguments bpb {D}. Arguments volumeStartLBA {D}. Arguments fatStartLBA {D}.
Arguments rootDirLBA {D}. Arguments rootDirSectors {D}. Arguments dataStartLBA {D}. Arguments mounted {D}.

Definition set_dev {D} (d : D) (s : fat16 D) : fat16 D :=
  mk_fat d (bpb s) (volumeStartLBA s) (fatStartLBA s) (rootDirLBA s) (rootDirSectors s) (dataStartLBA s) (mounted s).

Section Model.
Context {D : Type} `{BlockDevice D}.
Abbreviation st := (fat16 D).

Definition FAT16_new (d : D) (startLBA : Z) : st := mk_fat d (mk_bpb 0 0 0 0 0 0) startLBA 0 0 0 0 false.

(** ** The format *)

Definition bytesPerCluster (s : st) : Z := u32 (bytesPerSector (bpb s) * sectorsPerCluster (bpb s)).
Definition entry_cluster (e : list Z) : Z := u16 (get16 e 26).
(** Sectors, clusters and the table are those of [Volume.v], with entries of 16
    bits; the loops over chains of clusters are in [Clusters.v]. *)
#[export] Instance fat16_volume : FatVolume st D := {
  vdev := dev; set_vdev := set_dev; v_fatStart := fatStartLBA; v_dataStart := dataStartLBA;
  v_sectorsPerFAT s := sectorsPerFAT (bpb s); v_numFATs s := numFATs (bpb s); v_sectorsPerCluster s := sectorsPerCluster (bpb s); v_bytesPerCluster := bytesPerCluster;
  ent_size := 2; get_ent sec i := u16 (get16 sec i); set_ent sec i v := patch sec i (le16 v);
  unreadable := 0xFFFF; v_eoc := 0xFFF8; v_mark := 0xFFFF; v_narrow := u16; v_put := write_entry; v_start := entry_cluster;
}.

(** ** Mounting *)

(** The loop over the partition table. *)
Fixpoint find_partition (n : nat) (i : nat) (mbr : list Z) : option Z :=
  match n with
  | O => None
  | S n' =>
      let off := (446 + i * 16)%nat in
      let type := byte_at mbr (off + 4) in
      if (type =? 0x04) || (type =? 0x06) || (type =? 0x0E) || (type =? 0x01) then Some (get32 mbr (off + 8))
      else find_partition n' (i + 1) mbr
  end.

Definition Mount : ST st bool :=
  let! start := gets volumeStartLBA in
  let! start := (if start =? 0
                 then let! mbr := ReadSector 0 in
                      ret (match mbr with
                           | Some mbr => if (byte_at mbr 510 =? 0x55) && (byte_at mbr 511 =? 0xAA) then default start (find_partition 4 0 mbr) else start
                           | None => start
                           end)
                 else ret start) in
  modify (fun s => mk_fat (dev s) (bpb s) start (fatStartLBA s) (rootDirLBA s) (rootDirSectors s) (dataStartLBA s) (mounted s));;;
  let? sector := ReadSector start or false in
  if negb ((byte_at sector 510 =? 0x55) && (byte_at sector 511 =? 0xAA)) then ret false
  else
    let b := mk_bpb (u16 (get16 sector 11)) (byte_at sector 13) (u16 (get16 sector 14)) (byte_at sector 16) (u16 (get16 sector 17)) (u16 (get16 sector 22)) in
    modify (fun s => mk_fat (dev s) b (volumeStartLBA s) (fatStartLBA s) (rootDirLBA s) (rootDirSectors s) (dataStartLBA s) (mounted s));;;
    if negb (bytesPerSector b =? 512) || (sectorsPerCluster b =? 0) || (numFATs b =? 0) then ret false
    else
      let fatStart := u32 (start + reservedSectors b) in
      let rootSectors := (rootEntryCount b * 32 + (bytesPerSector b - 1)) / bytesPerSector b in
      let rootLBA := u32 (fatStart + numFATs b * sectorsPerFAT b) in
      modify (fun s => mk_fat (dev s) b start fatStart rootLBA rootSectors (u32 (rootLBA + rootSectors)) true);;;
      ret true.

(** ** Directories *)

Definition InitDirCluster (newCluster parentCluster : Z) : ST st bool :=
  check (ZeroCluster newCluster) or false in
  let! lba := ClusterToLBA newCluster in
  let sec := write_entry zero_sector 0 (dot_name 1) 0x10 newCluster 0 in
  WriteSector lba (write_entry sec 32 (dot_name 2) 0x10 parentCluster 0).

(** The first root sector, from number [i], that [f] accepts. *)
Fixpoint root_loop {A} (n : nat) (i : Z) (f : Z -> list Z -> option (ST st A)) (fail : A) : ST st A :=
  match n with
  | O => ret fail
  | S n' =>
      let! root := gets rootDirLBA in
      let? sec := ReadSector (u32 (root + i)) or fail in
      match f i sec with Some k => k | None => root_loop n' (i + 1) f fail end
  end.

Definition AddEntryToRoot (short11 : list Z) (startCluster : Z) (isDir : bool) : ST st bool :=
  let! n := gets rootDirSectors in
  let! root := gets rootDirLBA in
  root_loop (Z.to_nat n) 0 (fun i sec =>
    match free_slot 16 0 sec with
    | Some off => Some (WriteSector (u32 (root + i)) (write_entry sec off short11 (if isDir then 0x10 else 0x20) startCluster 0))
    | None => None
    end) false.

Definition AddFileEntryToDir (fuel : nat) (dirCluster : Z) (short11 : list Z) (startCluster initialSize : Z) : ST st bool :=
  add_entry fuel dirCluster short11 0x20 startCluster initialSize.

(** The search in the root directory: the sector number, the offset and the entry. *)
Definition find_in_root (P : list Z -> bool) : ST st (option (Z * nat * list Z)) :=
  let! n := gets rootDirSectors in
  root_loop (Z.to_nat n) 0 (fun i sec =>
    match scan 16 0 sec P with
    | Found off e => Some (ret (Some (i, off, e)))
    | EndMark => Some (ret None)
    | Exhausted => None
    end) None.

Definition FindShortNameInRoot (name : list Z) : ST st (option (list Z)) :=
  let! r := find_in_root (has_name name) in ret (snd <$> r).
Definition FindShortNameInDirCluster (fuel : nat) (dirCluster : Z) (name : list Z) : ST st (option (list Z)) :=
  let! n := gets (fun s => sectorsPerCluster (bpb s) * 512) in
  let! r := find_in_chain fuel n dirCluster (has_name name) in ret (snd <$> r).
Definition FindShortEntryWithOffset (fuel : nat) (dirCluster : Z) (short11 : list Z) (atRoot : bool) : ST st (option (Z * nat * list Z)) :=
  if atRoot then find_in_root (has_short short11) else let! bpc := gets bytesPerCluster in find_in_chain fuel bpc dirCluster (has_short short11).

(** The name in the root or in the directory [dir]. *)
Definition lookup_name (fuel : nat) (dir : option Z) (name : list Z) : ST st (option (list Z)) :=
  match dir with None => FindShortNameInRoot name | Some cl => FindShortNameInDirCluster fuel cl name end.
(** The start cluster of a directory of that name. *)
Definition enter (fuel : nat) (dir : option Z) (name : list Z) : ST st (option Z) :=
  let! e := lookup_name fuel dir name in
  ret (match e with Some e => if is_dir e then Some (entry_cluster e) else None | None => None end).

(** ** Paths *)

(** A component of [DirExists]: the characters after the twelfth are dropped. *)
Definition next_comp_cut (p : list Z) : list Z * list Z :=
  let '(c, r) := take_comp (length p) p in (upper <$> take 12 c, skip_slash r).

Fixpoint dir_exists_loop (n fuel : nat) (dir : option Z) (p : list Z) : ST st bool :=
  match p, n with
  | [], _ | _, O => ret true
  | _, S n' =>
      let '(comp, rest) := next_comp_cut p in
      if decide (comp = []) then dir_exists_loop n' fuel dir rest
      else let? cl := enter fuel dir comp or false in dir_exists_loop n' fuel (Some cl) rest
  end.
Definition DirExists (fuel : nat) (path : option (list Z)) : ST st bool :=
  let! m := gets mounted in
  if negb m then ret false
  else match path with
  | None => ret false
  | Some path =>
      if decide (path = [47]) then ret true
      else let p := skip_slash path in dir_exists_loop (length p) fuel None p
  end.

(** The directory of the last component and that component; [None] when a
    directory is missing, [Some (dir, [])] when there is no component. *)
Fixpoint walk (n fuel : nat) (dir : option Z) (p : list Z) : ST st (option (option Z * list Z)) :=
  match p, n with
  | [], _ | _, O => ret (Some (dir, []))
  | _, S n' =>
      let '(comp, rest) := next_comp p in
      if decide (comp = []) then walk n' fuel dir rest
      else if is_last rest then ret (Some (dir, comp))
      else let? cl := enter fuel dir comp or None in walk n' fuel (Some cl) rest
  end.

(** ** Reading *)

(** The bytes read, whose number is the result; [None] is -1. *)
Definition ReadFile (fuel : nat) (path : option (list Z)) (maxLen : Z) : ST st (option (list Z)) :=
  let! m := gets mounted in
  if negb m then ret None
  else match path with
  | Some (ch :: p) =>
      if negb (ch =? 47) then ret None
      else
        let? w := walk (length p) fuel None p or None in
        let '(dir, comp) := w in
        if decide (comp = []) then ret None
        else
          let? e := lookup_name fuel dir comp or None in
          if is_dir e then ret None
          else
            let toRead := if entry_size e <? maxLen then entry_size e else maxLen in
            let! data := read_chain fuel (entry_cluster e) toRead [] in
            ret (Some data)
  | _ => ret None
  end.

(** ** Writing *)

Definition create_file (fuel : nat) (dir : option Z) (short11 data : list Z) : ST st (option Z) :=
  match dir with
  | None =>
      let? newCl := store_data data or None in
      check (AddEntryToRoot short11 newCl false) or None in ret (Some (Z.of_nat (length data)))
  | Some cl => new_file fuel cl short11 data
  end.

(** The size in the entry of a file of the root directory, by its name. *)
Definition update_root_size (short11 : list Z) (fileSize : Z) : ST st bool :=
  let! n := gets rootDirSectors in
  let! root := gets rootDirLBA in
  root_loop (Z.to_nat n) 0 (fun i sec =>
    match scan 16 0 sec (has_short short11) with
    | Found off _ => Some (WriteSector (u32 (root + i)) (patch sec (off + 28) (le32 fileSize)))
    | _ => None
    end) false.

Definition append_file (fuel : nat) (dir : option Z) (short11 : list Z) (entryCl : Z) (entryOff : nat) (e data : list Z) : ST st (option Z) :=
  if is_dir e then ret None
  else
    let! bpc := gets bytesPerCluster in
    let into_last := negb (entry_size e mod bpc =? 0) in
    match dir with
    | None =>
        check (append_data fuel (entry_cluster e) (entry_size e) into_last data) or None in
        check (update_root_size short11 (u32 (entry_size e + Z.of_nat (length data)))) or None in
        ret (Some (Z.of_nat (length data)))
    | Some _ => append_entry fuel entryCl entryOff e into_last data
    end.

Definition WriteFile (fuel : nat) (path : option (list Z)) (data : option (list Z)) : ST st (option Z) :=
  let! m := gets mounted in
  if negb m then ret None
  else match path, data with
  | Some (ch :: p), Some (x :: data') =>
      let data := x :: data' in
      if negb (ch =? 47) then ret None
      else
        let? w := walk (length p) fuel None p or None in
        let '(dir, comp) := w in
        if decide (comp = []) then ret None
        else match PackShortName11 comp with
        | None => ret None
        | Some short11 =>
            let! ex := FindShortEntryWithOffset fuel (default 0 dir) short11 (bool_decide (dir = None)) in
            match ex with
            | None => create_file fuel dir short11 data
            | Some (entryCl, entryOff, e) => append_file fuel dir short11 entryCl entryOff e data
            end
        end
  | _, _ => ret None
  end.

(** ** Making directories *)

(** 0, or -1 for [false]. *)
Fixpoint mkdir_loop (n fuel : nat) (parents : bool) (dir : option Z) (p : list Z) : ST st bool :=
  match p, n with
  | [], _ | _, O => ret true
  | _, S n' =>
      let '(comp, rest) := next_comp p in
      if decide (comp = []) then mkdir_loop n' fuel parents dir rest
      else
        let! found := lookup_name fuel dir comp in
        match found with
        | Some e => if negb (is_dir e) then ret false else mkdir_loop n' fuel parents (Some (entry_cluster e)) rest
        | None =>
            if negb parents && negb (is_last rest) then ret false
            else match PackShortName11 comp with
            | None => ret false
            | Some short11 =>
                let! newCl := AllocateCluster in
                if newCl <? 2 then ret false
                else
                  check (InitDirCluster newCl (default 0 dir)) or false in
                  check (match dir with
                         | None => AddEntryToRoot short11 newCl true
                         | Some cl => add_entry fuel cl short11 0x10 newCl 0
                         end) or false in
                  mkdir_loop n' fuel parents (Some newCl) rest
            end
        end
  end.
Definition Mkdir (fuel : nat) (path : option (list Z)) (parents : Z) : ST st bool :=
  let! m := gets mounted in
  match path with
  | Some path => if negb m then ret false else let p := skip_slash path in mkdir_loop (length p) fuel (negb (parents =? 0)) None p
  | None => ret false
  end.

(** ** Enumeration *)

Fixpoint enum_root (n : nat) (i : Z) (cb : DirEntry -> bool) (acc : list DirEntry) : ST st (option (list DirEntry)) :=
  match n with
  | O => ret (Some acc)
  | S n' =>
      let! root := gets rootDirLBA in
      let? sec := ReadSector (u32 (root + i)) or None in
      let '(acc, go) := enum_entries 16 0 sec cb acc in
      if go then enum_root n' (i + 1) cb acc else ret (Some acc)
  end.
Fixpoint enum_walk (n fuel : nat) (dir : option Z) (p : list Z) : ST st (option (option Z)) :=
  match p, n with
  | [], _ | _, O => ret (Some dir)
  | _, S n' =>
      let '(comp, rest) := next_comp p in
      if decide (comp = []) then enum_walk n' fuel dir rest
      else let? cl := enter fuel dir comp or None in enum_walk n' fuel (Some cl) rest
  end.
(** The entries handed to the callback; their number is the result. *)
Definition EnumDir (fuel : nat) (path : option (list Z)) (cb : option (DirEntry -> bool)) : ST st (option (list DirEntry)) :=
  let! m := gets mounted in
  match cb with
  | None => ret None
  | Some cb =>
      if negb m then ret None
      else
        let p := match path with Some path => skip_slash path | None => [] end in
        let? dir := enum_walk (length p) fuel None p or None in
        match dir with
        | None => let! n := gets rootDirSectors in enum_root (Z.to_nat n) 0 cb []
        | Some cl => enum_chain fuel cl cb []
        end
  end.
End Model.

(** * The volume *)

Section Volume.
Context {D : Type} `{WorkingDevice D}.
Abbreviation st := (fat16 D).
Implicit Types (s : st) (d : D) (c cl v l : Z).

(** The geometry of a mounted volume: the tables, the root directory and the
    data follow each other, and cluster numbers stay below the markers. *)
Record fat_wf (s : st) : Prop := {
  wf_bps : bytesPerSector (bpb s) = 512;
  wf_spc : 1 <= sectorsPerCluster (bpb s) <= 255;
  wf_nf : 1 <= numFATs (bpb s) <= 255;
  wf_spf : 1 <= sectorsPerFAT (bpb s) <= 255;
  wf_start : 0 <= fatStartLBA s;
  wf_root : rootDirLBA s = fatStartLBA s + numFATs (bpb s) * sectorsPerFAT (bpb s);
  wf_rsec : 0 <= rootDirSectors s;
  wf_data : dataStartLBA s = rootDirLBA s + rootDirSectors s;
  wf_end : dataStartLBA s + sectorsPerFAT (bpb s) * 256 * sectorsPerCluster (bpb s) < Z.min (2 ^ 32) (capacity D + 1);
}.

Lemma bpc_value s : fat_wf s -> bytesPerCluster s = 512 * sectorsPerCluster (bpb s).
Proof. intros [? ? ? ? ? ? ? ? ?]. unfold bytesPerCluster. rewrite wf_bps0. apply u32_small. lia. Qed.
Lemma write_entry_ok buf o sh attr sc size : Forall byte buf -> Forall byte sh -> length sh = 11%nat -> (o + 32 <= length buf)%nat ->
  0 <= attr < 256 -> 0 <= sc < 65536 -> 0 <= size < 2 ^ 32 ->
  let buf' := write_entry buf o sh attr sc size in
  length buf' = length buf /\ Forall byte buf' /\ same_outside buf buf' o /\ entry_holds entry_cluster sh attr sc size (entry_at buf' o).
Proof.
  intros Hb Hsb Hl Ho Ha Hc Hz buf'. destruct (write_entry_fields buf o sh attr sc size Hb Hsb Hl Ho Ha Hc Hz) as (Hb' & Hso & N1 & N2 & N3 & N4).
  split_and!; try done; [by apply write_entry_length|]. subst buf'. unfold entry_holds, entry_cluster. by rewrite N3, u16_small.
Qed.

(** The driver is one of those [Volume.v] is about. *)
#[local] Obligation Tactic := try solve [intros; done | intros s; by destruct s].
#[export] Program Instance fat16_laws : VolumeLaws st D := { v_ok := fat_wf }.
Next Obligation. intros s d []. by split. Qed.
Next Obligation. intros s []. done. Qed.
Next Obligation. intros s []. done. Qed.
Next Obligation. intros s []. cbn. change (512 / 2) with 256. lia. Qed.
Next Obligation. intros s []. cbn. lia. Qed.
Next Obligation. intros s []. cbn. change (512 / 2) with 256. done. Qed.
Next Obligation. exact bpc_value. Qed.
Next Obligation. by left. Qed.
Next Obligation. intros buf i v Hb Hv Hl. cbn in *. rewrite get16_patch_eq by (done || lia). apply u16_small. lia. Qed.
Next Obligation. intros buf i j v Hl Hij. cbn in *. by rewrite get16_patch_ne. Qed.
Next Obligation. intros buf i v Hl. cbn in *. by apply patch_length. Qed.
Next Obligation. intros buf i v Hb. apply patch_bytes; [done|apply le16_bytes]. Qed.
Next Obligation. intros c Hc. cbn in *. apply u16_small. lia. Qed.
Next Obligation. intros. apply write_entry_ok; try done. cbn in *. lia. Qed.
Next Obligation. intros e e' He. cbn. unfold entry_cluster, get16. by rewrite !He by lia. Qed.

Lemma ext_dev (W : Z -> Prop) s s' : ext W s s' -> s' = set_dev (dev s') s.
Proof. intros He. apply (ext_kept _ _ _ He). Qed.
Lemma ext_out (W : Z -> Prop) s s' l : fat_wf s -> ext W s s' -> l < fatStartLBA s \/ rootDirLBA s <= l < dataStartLBA s -> sector (dev s') l = sector (dev s) l.
Proof. intros [] He Hl. apply (ext_kept _ _ _ He). cbn. lia. Qed.
Lemma read_sector {B} lba (f : option (list Z) -> ST st B) s : 0 <= lba < capacity D -> bind (ReadSector lba) f s = f (Some (sector (dev s) lba)) s.
Proof. exact (read_step lba f s). Qed.
Lemma write_sector lba buf s : 0 <= lba < capacity D -> length buf = 512%nat -> Forall byte buf ->
  exists d', WriteSector lba buf s = Some (true, set_dev d' s) /\ forall l, sector d' l = if decide (l = lba) then buf else sector (dev s) l.
Proof. exact (WriteSector_ok lba buf s). Qed.

(** ** The root directory *)

Fixpoint root_spec s (P : list Z -> bool) (n : nat) (i : Z) : option (Z * nat * list Z) :=
  match n with
  | O => None
  | S n' => match scan 16 0 (sector (dev s) (rootDirLBA s + i)) P with
            | Found off e => Some (i, off, e) | EndMark => None | Exhausted => root_spec s P n' (i + 1) end
  end.
Definition find_root s P : option (Z * nat * list Z) := root_spec s P (Z.to_nat (rootDirSectors s)) 0.

Lemma root_loop_step {A} n i f (fail : A) s : fat_wf s -> 0 <= i < rootDirSectors s ->
  root_loop (S n) i f fail s = match f i (sector (dev s) (rootDirLBA s + i)) with Some k => k s | None => root_loop n (i + 1) f fail s end.
Proof.
  intros [] Hi. cbn [root_loop]. rewrite gets_step, u32_small by nia. rewrite read_sector by nia. by destruct (f _ _).
Qed.
Lemma root_spec_step s P n i : root_spec s P (S n) i =
  match scan 16 0 (sector (dev s) (rootDirLBA s + i)) P with Found off e => Some (i, off, e) | EndMark => None | Exhausted => root_spec s P n (i + 1) end.
Proof. done. Qed.

Lemma find_in_root_ok s P : fat_wf s -> find_in_root P s = Some (find_root s P, s).
Proof.
  intros Hwf. unfold find_in_root, find_root. rewrite gets_step. pose proof Hwf as []. assert (dataStartLBA s < Z.min (2 ^ 32) (capacity D) /\ 0 <= rootDirLBA s) as [? ?] by nia. set (f := fun (i : Z) sec => _).
  assert (Hgen : forall n i, 0 <= i -> i + Z.of_nat n <= rootDirSectors s -> root_loop n i f None s = Some (root_spec s P n i, s)); [|apply Hgen; lia].
  induction n as [|n IH]; intros i Hi Hn; [done|]. cbn [root_loop root_spec]. rewrite gets_step, u32_small by lia. rewrite read_sector by lia. subst f.
  cbn beta in *. destruct (scan _ _ _ _); [done|done|]. apply IH; lia.
Qed.
Lemma find_root_ext (W : Z -> Prop) s s' P : fat_wf s -> ext W s s' -> find_root s' P = find_root s P.
Proof.
  intros Hwf He. unfold find_root. pose proof Hwf as []. assert (Gr : rootDirLBA s' = rootDirLBA s) by (by rewrite (ext_dev _ _ _ He)).
  assert (Gn : rootDirSectors s' = rootDirSectors s) by (by rewrite (ext_dev _ _ _ He)). rewrite Gn.
  assert (Hgen : forall n i, 0 <= i -> i + Z.of_nat n <= rootDirSectors s -> root_spec s' P n i = root_spec s P n i); [|apply Hgen; lia].
  induction n as [|n IH]; intros i Hi Hn; [done|]. cbn [root_spec]. rewrite Gr, (ext_out _ _ _ _ Hwf He) by lia. destruct (scan _ _ _ _); [done|done|]. apply IH; lia.
Qed.

Lemma find_root_impl s (P Q : list Z -> bool) : (forall e, P e = true -> Q e = true) -> find_root s Q = None -> find_root s P = None.
Proof.
  intros HPQ. unfold find_root. generalize 0 as i. induction (Z.to_nat (rootDirSectors s)) as [|n IH]; intros i; [done|]. rewrite !root_spec_step. intros Hn.
  pose proof (scan_impl 16 0 (sector (dev s) (rootDirLBA s + i)) P Q HPQ) as Hm.
  assert (Hno : no_match 16 0 (sector (dev s) (rootDirLBA s + i)) Q) by (apply no_match_intro; intros o e E; by rewrite E in Hn). rewrite (Hm Hno).
  destruct (scan 16 0 (sector (dev s) (rootDirLBA s + i)) Q); [done|done|by apply IH].
Qed.

Lemma lookup_root s name : fat_wf s -> forall fuel, lookup_name fuel None name s = Some (snd <$> find_root s (has_name name), s).
Proof. intros Hwf fuel. cbn [lookup_name]. unfold FindShortNameInRoot. by rewrite (bind_step _ _ _ _ _ (find_in_root_ok s _ Hwf)). Qed.

(** A well-formed volume as the store it is. *)
Ltac as_store := repeat match goal with Hw : fat_wf ?s |- _ => change (vol_wf s) in Hw end.

Lemma lookup_dir fuel s (d : Z) ds name : fat_wf s -> chain s (d :: ds) -> (length (d :: ds) <= fuel)%nat ->
  lookup_name fuel (Some d) name s = Some (snd <$> find_spec s (has_name name) (d :: ds), s).
Proof.
  intros Hwf Hc Hf. as_store. cbn [lookup_name]. unfold FindShortNameInDirCluster. rewrite gets_step. replace (sectorsPerCluster (bpb s) * 512) with (bytesPerCluster s) by (rewrite bpc_value by done; lia).
  by rewrite (bind_step _ _ _ _ _ (find_in_chain_ok fuel d ds _ s Hwf Hc Hf)).
Qed.

(** ** Paths of a directory and a file *)

(** The directory [dn] of the root, with the chain [d :: ds]. *)
Definition at_dir s (dn : list Z) (d : Z) ds : Prop :=
  exists i o de, find_root s (has_name (upper <$> dn)) = Some (i, o, de) /\ is_dir de = true /\ entry_cluster de = d /\ chain s (d :: ds).

Lemma walk_cons n fuel dir (c r : list Z) : c <> [] -> Forall (fun x => x <> 47) c -> (length c <= 12)%nat -> (r = [] \/ exists r', r = 47 :: r') ->
  @walk D _ (S n) fuel dir (c ++ r) =
    if is_last (skip_slash r) then ret (Some (dir, upper <$> c)) else let? cl := enter fuel dir (upper <$> c) or None in walk n fuel (Some cl) (skip_slash r).
Proof.
  intros Hne Hc Hl Hr. pose proof (take_comp_all 12 c r Hc Hl Hr) as Ht. destruct c as [|x c]; [done|]. cbn [app] in *. cbn [walk]. unfold next_comp. rewrite Ht.
  by rewrite decide_False by done.
Qed.
Lemma enter_root fuel s name i o de : fat_wf s -> find_root s (has_name name) = Some (i, o, de) -> is_dir de = true -> enter fuel None name s = Some (Some (entry_cluster de), s).
Proof. intros Hwf Hf Hd. unfold enter. rewrite (bind_step _ _ _ _ _ (lookup_root s name Hwf fuel)), Hf. cbn [fmap option_fmap option_map snd]. by rewrite Hd. Qed.

Lemma walk_ok fuel s dn fn base ex (d : Z) ds : fat_wf s -> names_ok dn fn base ex -> at_dir s dn d ds ->
  walk (length (dn ++ 47 :: fn)) fuel None (dn ++ 47 :: fn) s = Some (Some (Some d, name83 base ex), s).
Proof.
  intros Hwf (Hdn & Hdne & Hdl & Hfn & Efn & Hg) (i & o & de & Hfind & Hdir & Hcl & _). pose proof (name83_length _ _ Hg) as Hl. rewrite <-Efn, length_fmap in Hl.
  rewrite length_app. cbn [length]. replace (length dn + S (length fn))%nat with (S (S (length dn - 1 + length fn))) by (destruct dn; [done|]; cbn; lia).
  rewrite walk_cons by (done || (right; by eexists)). change (skip_slash (47 :: fn)) with fn.
  assert (Hlast : is_last fn = false). { destruct fn as [|y fn]; [cbn in Hl; lia|]. apply Forall_cons in Hfn as [Hy _]. unfold is_last. cbn [skip_slashes]. by rewrite (proj2 (Z.eqb_neq y 47) Hy). }
  rewrite Hlast, (bind_step _ _ _ _ _ (enter_root fuel s _ i o de Hwf Hfind Hdir)), Hcl. rewrite <-(app_nil_r fn) at 2.
  rewrite walk_cons by (done || lia || (by left) || (by destruct fn; [cbn in Hl; lia|])). by rewrite Efn.
Qed.

Definition chain_fuel : nat := Z.to_nat 65536.
Lemma chain_short s cs : fat_wf s -> chain s cs -> (length cs < chain_fuel)%nat.
Proof. intros Hwf Hc. as_store. pose proof (cluster_chain_length s _ Hwf Hc). pose proof (entries_le s Hwf). cbn in *. unfold chain_fuel. lia. Qed.

(** The file found under the path is read. *)
Lemma ReadFile_ok s dn fn base ex (d : Z) ds c o e cs data junk maxLen :
  fat_wf s -> mounted s = true -> names_ok dn fn base ex -> at_dir s dn d ds -> find_spec s (has_name (name83 base ex)) (d :: ds) = Some (c, o, e) ->
  is_dir e = false -> entry_size e = Z.of_nat (length data) -> chain s (entry_cluster e :: cs) -> content s (entry_cluster e :: cs) = data ++ junk ->
  Z.of_nat (length data) <= maxLen -> Z.of_nat (length data) + bytesPerCluster s < 2 ^ 32 ->
  ReadFile chain_fuel (Some (path_of dn fn)) maxLen s = Some (Some data, s).
Proof.
  intros Hwf Hm Hn Ha Hf Hd Hz Hch Hcont Hmax Hlen. as_store. unfold ReadFile, path_of. rewrite gets_step, Hm. change (47 =? 47) with true. cbn [negb].
  rewrite (bind_step _ _ _ _ _ (walk_ok chain_fuel s dn fn base ex d ds Hwf Hn Ha)). destruct Hn as (_ & _ & _ & _ & _ & Hg). pose proof (name83_length _ _ Hg).
  rewrite decide_False by (intros E; rewrite E in *; cbn in *; lia). destruct Ha as (_ & _ & _ & _ & _ & _ & Hds). pose proof (chain_short s _ Hwf Hds). pose proof (chain_short s _ Hwf Hch).
  rewrite (bind_step _ _ _ _ _ (lookup_dir chain_fuel s d ds _ Hwf Hds ltac:(lia))), Hf. cbn [fmap option_fmap option_map snd]. rewrite Hd, Hz.
  replace (if _ <? maxLen then _ else _) with (Z.of_nat (length data)) by (case_zb; lia).
  rewrite (bind_step _ _ _ _ _ (read_chain_ok chain_fuel (entry_cluster e) cs (Z.of_nat (length data)) [] s Hwf Hch ltac:(lia) ltac:(cbn; lia) Hlen)). unfold ret. rewrite Hcont, Nat2Z.id. cbn [app].
  by rewrite take_app_length.
Qed.
Lemma ext_at_dir (W : Z -> Prop) s s' dn (d : Z) ds ds' : fat_wf s -> ext W s s' -> at_dir s dn d ds -> chain s' (d :: ds') -> at_dir s' dn d ds'.
Proof. intros Hwf He (i & o & de & Hf & Hd & Hc & _) Hch. exists i, o, de. by rewrite (find_root_ext _ _ _ _ Hwf He). Qed.
Lemma ext_mounted (W : Z -> Prop) s s' : ext W s s' -> mounted s' = mounted s.
Proof. intros He. by rewrite (ext_dev _ _ _ He). Qed.

Lemma stored_reads (W : Z -> Prop) s s' dn fn base ex (d : Z) ds data maxLen : fat_wf s -> ext W s s' -> mounted s = true -> names_ok dn fn base ex -> at_dir s dn d ds ->
  stored s' d (name83 base ex) data -> Z.of_nat (length data) <= maxLen -> Z.of_nat (length data) + bytesPerCluster s < 2 ^ 32 ->
  ReadFile chain_fuel (Some (path_of dn fn)) maxLen s' = Some (Some data, s').
Proof.
  intros Hwf He Hm Hn Ha (ds' & c & o & e & cs & junk & Hch & Hf & Hdir & Hz & Hcs & Hcont) Hmax Hlen. as_store.
  apply (ReadFile_ok s' dn fn base ex d ds' c o e cs data junk); try done; [by apply (ext_wf _ _ _ He)|by rewrite (ext_mounted _ _ _ He)|by apply (ext_at_dir _ _ _ _ _ _ _ Hwf He Ha)|].
  by rewrite (ext_bpc _ _ _ He : bytesPerCluster s' = bytesPerCluster s).
Qed.

(** [WriteFile] up to the search for the file. *)
Lemma WriteFile_start s dn fn base ex (d : Z) ds x data : fat_wf s -> mounted s = true -> names_ok dn fn base ex -> at_dir s dn d ds ->
  WriteFile chain_fuel (Some (path_of dn fn)) (Some (x :: data)) s =
    match find_spec s (has_short (short_name base ex)) (d :: ds) with
    | None => create_file chain_fuel (Some d) (short_name base ex) (x :: data) s
    | Some (entryCl, entryOff, e) => append_file chain_fuel (Some d) (short_name base ex) entryCl entryOff e (x :: data) s
    end.
Proof.
  intros Hwf Hm Hn Ha. as_store. unfold WriteFile, path_of. rewrite gets_step, Hm. change (47 =? 47) with true. cbn [negb].
  rewrite (bind_step _ _ _ _ _ (walk_ok chain_fuel s dn fn base ex d ds Hwf Hn Ha)). destruct Hn as (_ & _ & _ & _ & _ & Hg). pose proof (name83_length _ _ Hg).
  rewrite decide_False by (intros E; rewrite E in *; cbn in *; lia). rewrite (pack_good _ _ Hg). fold (short_name base ex). rewrite bool_decide_eq_false_2 by done. cbn [default].
  destruct Ha as (_ & _ & _ & _ & _ & _ & Hds). pose proof (chain_short s _ Hwf Hds). unfold FindShortEntryWithOffset. rewrite bind_assoc, gets_step.
  rewrite (bind_step _ _ _ _ _ (find_in_chain_ok chain_fuel d ds _ s Hwf Hds ltac:(lia))). by destruct (find_spec _ _ _) as [[[? ?] ?]|].
Qed.

(** C5: A new file in a directory of the root reads back: [WriteFile] returns the
    length and [ReadFile] of the same path then gives the data, or the
    allocation table is full; every cluster in use outside the directory keeps
    its table entry and its bytes, and the copies of the table stay equal. *)
Theorem WriteFile_ReadFile s dn fn base ex (d : Z) ds data :
  fat_wf s -> mounted s = true -> names_ok dn fn base ex -> at_dir s dn d ds -> find_spec s (has_name (name83 base ex)) (d :: ds) = None ->
  Forall byte data -> data <> [] -> Z.of_nat (length data) + bytesPerCluster s < 2 ^ 32 ->
  exists r s', WriteFile chain_fuel (Some (path_of dn fn)) (Some data) s = Some (r, s') /\ ext (fun c => c ∈ d :: ds) s s' /\
    match r with
    | Some n => n = Z.of_nat (length data) /\ forall maxLen, n <= maxLen -> ReadFile chain_fuel (Some (path_of dn fn)) maxLen s' = Some (Some data, s')
    | None => full s'
    end.
Proof.
  intros Hwf Hm Hn Ha Hnone Hb Hd Hlen. as_store. pose proof Hn as (_ & _ & _ & _ & _ & Hg). pose proof Ha as (_ & _ & _ & _ & _ & _ & Hds). pose proof (chain_short s _ Hwf Hds).
  pose proof (wf_spc s Hwf). pose proof (bpc_value s Hwf).
  destruct (new_file_ok chain_fuel d ds base ex data s Hwf Hds ltac:(lia) Hg Hb Hd ltac:(lia) Hnone) as (r & s' & E & He & Hr).
  exists r, s'. split; [|split; [exact He|]].
  - destruct data as [|x data]; [done|]. rewrite (WriteFile_start s dn fn base ex d ds) by done. rewrite (find_spec_impl s _ (has_name (name83 base ex))); [exact E| |done].
    intros e. unfold has_short, has_name. rewrite !bool_decide_eq_true. by apply merged_good.
  - destruct r as [n|]; [|done]. destruct Hr as [-> Hst]. split; [done|]. intros maxLen Hmax. by apply (stored_reads _ s s' dn fn base ex d ds data maxLen Hwf He).
Qed.
(** C11: Data written to an existing file goes behind what it holds: [ReadFile] then
    gives the old content followed by the data, or the allocation table is full;
    clusters in use of other files keep their table entries and bytes. *)
Theorem WriteFile_appends s dn fn base ex (d : Z) ds c o e cs old junk data :
  fat_wf s -> mounted s = true -> names_ok dn fn base ex -> at_dir s dn d ds -> holds s d ds base ex c o e cs old junk ->
  Forall byte data -> data <> [] -> Z.of_nat (length (old ++ data)) + bytesPerCluster s < 2 ^ 32 ->
  exists r s', WriteFile chain_fuel (Some (path_of dn fn)) (Some data) s = Some (r, s') /\ ext (fun b => b ∈ d :: ds \/ b ∈ entry_cluster e :: cs) s s' /\
    match r with
    | Some n => n = Z.of_nat (length data) /\
        forall maxLen, Z.of_nat (length (old ++ data)) <= maxLen -> ReadFile chain_fuel (Some (path_of dn fn)) maxLen s' = Some (Some (old ++ data), s')
    | None => full s'
    end.
Proof.
  intros Hwf Hm Hn Ha Hh Hb Hd Hlen. as_store. pose proof Ha as (_ & _ & _ & _ & _ & _ & Hds). pose proof (bpc_value s Hwf). pose proof (wf_spc s Hwf). pose proof Hlen as Hlen'. rewrite length_app in Hlen'.
  destruct (append_entry_ok chain_fuel s d ds base ex c o e cs old junk data Hwf Hds Hh Hb ltac:(lia) (chain_short s _ Hwf (h_chain _ _ _ _ _ _ _ _ _ _ _ Hh))) as (r & s' & E & He & Hr). exists r, s'. split; [|split; [exact He|]].
  - destruct data as [|x data]; [done|]. rewrite (WriteFile_start s dn fn base ex d ds) by done. rewrite (h_short _ _ _ _ _ _ _ _ _ _ _ Hh). unfold append_file. by rewrite (h_file _ _ _ _ _ _ _ _ _ _ _ Hh), gets_step.
  - destruct r as [n|]; [|done]. destruct Hr as [-> Hst]. split; [done|]. intros maxLen Hmax. by apply (stored_reads _ s s' dn fn base ex d ds (old ++ data) maxLen Hwf He).
Qed.
(** ** Files of the root directory *)

Section RootAdd.
Context (P : list Z -> bool) (sh : list Z) (nc : Z).
Hypotheses (Hl : length sh = 11%nat) (Hsb : Forall byte sh) (Hfirst : byte_at sh 0 <> 0 /\ byte_at sh 0 <> 0xE5) (Hnc : 0 <= nc < 65536).
Hypothesis HP : forall e, take 11 e = sh -> P e = true.

(** The entry in the first free slot of a sector. *)
Lemma sector_add sec o : length sec = 512%nat -> Forall byte sec -> free_slot 16 0 sec = Some o -> no_match 16 0 sec P ->
  let sec' := write_entry sec o sh 0x20 nc 0 in
  length sec' = 512%nat /\ Forall byte sec' /\ scan 16 0 sec' P = Found o (entry_at sec' o) /\ entry_holds entry_cluster sh 0x20 nc 0 (entry_at sec' o).
Proof.
  intros Hls Hb Eo Hno sec'. pose proof (free_slot_range _ _ _ _ Eo) as [_ Ho]. destruct (write_entry_fields sec o sh 0x20 nc 0 Hb Hsb Hl ltac:(lia) ltac:(lia) Hnc ltac:(lia)) as (Hb' & Hso & N1 & N2 & N3 & N4).
  fold sec' in Hb', Hso, N1, N2, N3, N4. assert (H0' : byte_at sec' o = byte_at sh 0) by (rewrite <-N1; unfold byte_at, entry_at; rewrite !lookup_take_lt, lookup_drop by lia; by rewrite Nat.add_0_r).
  split; [subst sec'; by rewrite write_entry_length by (done || lia)|]. split; [done|]. split.
  - destruct (scan_after_write 16 0 o sec sec' P Eo) as [Hscan _]; try done; rewrite ?H0'; try apply Hfirst; [|by apply HP]. rewrite <-byte_at_entry by lia. by rewrite N2.
  - unfold entry_holds, entry_attr, entry_cluster, entry_size. rewrite N3, u16_small by done. done.
Qed.

Definition add_at s (i : Z) (sec : list Z) : option (ST st bool) :=
  match free_slot 16 0 sec with
  | Some off => Some (WriteSector (u32 (rootDirLBA s + i)) (write_entry sec off sh 0x20 nc 0))
  | None => None
  end.

Lemma root_add_loop s n i : fat_wf s -> 0 <= i -> i + Z.of_nat n <= rootDirSectors s -> root_spec s P n i = None ->
  root_loop n i (add_at s) false s = Some (false, s) \/
  exists d' j o e, root_loop n i (add_at s) false s = Some (true, set_dev d' s) /\ root_spec (set_dev d' s) P n i = Some (j, o, e) /\ entry_holds entry_cluster sh 0x20 nc 0 e /\
    (forall k, k < i -> sector d' (rootDirLBA s + k) = sector (dev s) (rootDirLBA s + k)).
Proof.
  intros Hwf. revert i. induction n as [|n IH]; intros i Hi Hn Hnone; [by left|]. rewrite root_spec_step in Hnone. rewrite root_loop_step by (done || lia). setoid_rewrite root_spec_step.
  destruct (free_slot 16 0 (sector (dev s) (rootDirLBA s + i))) as [o|] eqn:Eo.
  - right. assert (Ea : add_at s i (sector (dev s) (rootDirLBA s + i)) = Some (WriteSector (u32 (rootDirLBA s + i)) (write_entry (sector (dev s) (rootDirLBA s + i)) o sh 0x20 nc 0))) by (unfold add_at; by rewrite Eo).
    rewrite Ea. destruct (sector_add (sector (dev s) (rootDirLBA s + i)) o (sector_length _ _) (sector_bytes _ _) Eo) as (Hl' & Hb' & Hscan & He); [apply no_match_intro; intros ? ? E; by rewrite E in Hnone|].
    assert (0 <= rootDirLBA s + i < Z.min (2 ^ 32) (capacity D)) by (destruct Hwf; nia). rewrite u32_small by lia. set (sec' := write_entry _ _ _ _ _ _) in *. destruct (write_sector (rootDirLBA s + i) sec' s) as (d' & E & Hw); [lia|done|done|].
    exists d', i, o, (entry_at sec' o). cbn [dev set_dev rootDirLBA]. rewrite Hw, decide_True, Hscan by done. split; [exact E|]. split; [done|]. split; [done|].
    intros k Hk. rewrite Hw. by rewrite decide_False by lia.
  - assert (Hex : scan 16 0 (sector (dev s) (rootDirLBA s + i)) P = Exhausted) by (pose proof (scan_no_end 16 0 _ P Eo); by destruct (scan 16 0 _ P)). rewrite Hex in Hnone.
    assert (Ea : add_at s i (sector (dev s) (rootDirLBA s + i)) = None) by (unfold add_at; by rewrite Eo). rewrite Ea.
    destruct (IH (i + 1) ltac:(lia) ltac:(lia) Hnone) as [E|(d' & j & o & e & E & Hf & He & Hk)]; [left; exact E|right]. exists d', j, o, e. split; [exact E|]. split; [|split; [done|intros k Hk'; apply Hk; lia]].
    cbn [dev set_dev rootDirLBA] in *. rewrite Hk by lia. by rewrite Hex.
Qed.

Lemma root_add s : fat_wf s -> find_root s P = None ->
  AddEntryToRoot sh nc false s = Some (false, s) \/
  exists d' j o e, AddEntryToRoot sh nc false s = Some (true, set_dev d' s) /\ find_root (set_dev d' s) P = Some (j, o, e) /\ entry_holds entry_cluster sh 0x20 nc 0 e.
Proof.
  intros Hwf Hn. unfold AddEntryToRoot. rewrite !gets_step. fold (add_at s). pose proof (wf_rsec s Hwf). unfold find_root in *. cbn [rootDirSectors set_dev].
  destruct (root_add_loop s (Z.to_nat (rootDirSectors s)) 0 Hwf ltac:(lia) ltac:(lia) Hn) as [?|(d' & j & o & e & ? & ? & ? & _)]; [by left|right; by exists d', j, o, e].
Qed.
End RootAdd.

(** A new file in the root directory gets the size 0 in its entry: [WriteFile]
    reports the length of the data as written, and [ReadFile] of the same path
    then returns no byte. *)
Theorem WriteFile_root_size_zero s fn base ex data n s' maxLen :
  fat_wf s -> mounted s = true -> Forall (fun x => x <> 47) fn -> upper <$> fn = name83 base ex -> good83 base ex -> find_root s (has_name (name83 base ex)) = None ->
  Forall byte data -> data <> [] -> 0 <= maxLen ->
  WriteFile chain_fuel (Some (47 :: fn)) (Some data) s = Some (Some n, s') ->
  n = Z.of_nat (length data) /\ ReadFile chain_fuel (Some (47 :: fn)) maxLen s' = Some (Some [], s').
Proof.
  intros Hwf Hm Hfn Efn Hg Hnone Hb Hd Hmax. as_store. pose proof (name83_length _ _ Hg) as Hl. assert (Hlf : (1 <= length fn <= 12)%nat) by (by rewrite <-Efn, length_fmap in Hl).
  assert (Hwalk : forall t : st, walk (length fn) chain_fuel None fn t = Some (Some (None, name83 base ex), t)).
  { intros t. replace (length fn) with (S (length fn - 1)) by lia. rewrite <-(app_nil_r fn) at 2. rewrite walk_cons by (done || lia || (by left) || (by destruct fn; [cbn in Hlf; lia|])). by rewrite Efn. }
  assert (Hne : name83 base ex <> []) by (intros E; rewrite E in Hl; cbn in Hl; lia). destruct (short_name_ok base ex Hg) as (S1 & S2 & S3). pose proof (entries_le s Hwf : 2 <= _ <= 0xFFF8).
  assert (Himp : forall e, take 11 e = short_name base ex -> has_name (name83 base ex) e = true) by (intros e He; unfold has_name; rewrite bool_decide_eq_true; by apply merged_good).
  assert (Hshort : find_root s (has_short (short_name base ex)) = None).
  { apply (find_root_impl s _ (has_name (name83 base ex))); [|done]. intros e. unfold has_short. rewrite bool_decide_eq_true. apply Himp. }
  unfold WriteFile. rewrite gets_step, Hm. change (47 =? 47) with true. cbn [negb]. destruct data as [|x data]; [done|]. set (dat := x :: data) in *.
  rewrite (bind_step _ _ _ _ _ (Hwalk s)), decide_False, (pack_good _ _ Hg) by done. fold (short_name base ex). rewrite bool_decide_eq_true_2 by done. unfold FindShortEntryWithOffset.
  rewrite (bind_step _ _ _ _ _ (find_in_root_ok s _ Hwf)), Hshort. unfold create_file. cbn zeta.
  destruct (store_data_ok dat s Hwf Hb Hd) as [(nc & s4 & cs & k & E4 & He04 & Hn & Hcs & Hcont & Hfree)|(s4 & E4 & He04 & Hfull)]; rewrite (bind_step _ _ _ _ _ E4); [|done]. pose proof (ext_wf _ _ _ He04 Hwf) as Hwf4.
  destruct (root_add (has_name (name83 base ex)) (short_name base ex) nc S1 S2 S3 ltac:(lia) Himp s4 Hwf4) as [E5|(d' & j & o & e & E5 & Hf & (_ & N2 & _ & N4))]; [by rewrite (find_root_ext _ _ _ _ Hwf He04)| |]; rewrite (bind_step _ _ _ _ _ E5); [done|].
  intros [= <- <-]. split; [done|]. pose proof (ok_set s4 d' Hwf4 : fat_wf (set_dev d' s4)) as Hwf5. unfold ReadFile. rewrite gets_step. cbn [mounted set_dev]. rewrite (ext_mounted _ _ _ He04), Hm. change (47 =? 47) with true. cbn [negb].
  rewrite (bind_step _ _ _ _ _ (Hwalk _)), decide_False by done. rewrite (bind_step _ _ _ _ _ (lookup_root (set_dev d' s4) _ Hwf5 chain_fuel)), Hf. cbn [fmap option_fmap option_map snd].
  unfold is_dir. rewrite N2, N4. change (negb (Z.land 0x20 0x10 =? 0)) with false. cbn iota. replace (if 0 <? maxLen then 0 else maxLen) with 0 by (case_zb; lia).
  assert (Hrc : forall F c, read_chain F c 0 [] (set_dev d' s4) = Some ([], set_dev d' s4)) by (intros F c; destruct F; cbn [read_chain length Z.of_nat]; by rewrite Z.ltb_irrefl, andb_false_r).
  by rewrite (bind_step _ _ _ _ _ (Hrc _ _)).
Qed.

(** ** Mounting *)

Definition signed (sec : list Z) : bool := (byte_at sec 510 =? 0x55) && (byte_at sec 511 =? 0xAA).
(** The first partition of a FAT16 type, when the device has a partition table. *)
Definition boot_lba d (start : Z) : Z :=
  if start =? 0 then (if signed (sector d 0) then default 0 (find_partition 4 0 (sector d 0)) else 0) else start.
Definition parsed (sec : list Z) : FAT16_BPB := mk_bpb (get16 sec 11) (byte_at sec 13) (get16 sec 14) (byte_at sec 16) (get16 sec 17) (get16 sec 22).
(** A boot sector that [Mount] accepts, and one whose volume fits on a disk and
    has cluster numbers below the markers. *)
Definition accepted (sec : list Z) : Prop :=
  signed sec = true /\ bytesPerSector (parsed sec) = 512 /\ sectorsPerCluster (parsed sec) <> 0 /\ numFATs (parsed sec) <> 0.
Definition root_sectors (b : FAT16_BPB) : Z := (rootEntryCount b * 32 + 511) / 512.
Definition fits (lba : Z) (b : FAT16_BPB) : Prop :=
  1 <= sectorsPerFAT b <= 255 /\
  lba + reservedSectors b + numFATs b * sectorsPerFAT b + root_sectors b + sectorsPerFAT b * 256 * sectorsPerCluster b < Z.min (2 ^ 32) (capacity D + 1).

Lemma find_partition_range n i sec v : Forall byte sec -> find_partition n i sec = Some v -> 0 <= v < 2 ^ 32.
Proof.
  intros Hb. revert i. induction n as [|n IH]; intros i Hf; cbn [find_partition] in Hf; [done|]. destruct (_ || _ || _ || _); [|by apply IH in Hf]. injection Hf as <-.
  by apply get32_range.
Qed.
Lemma boot_lba_range d start : 0 <= start < 2 ^ 32 -> 0 <= boot_lba d start < 2 ^ 32.
Proof.
  intros Hs. unfold boot_lba. case_zb; [|lia]. destruct (signed _); [|lia]. destruct (find_partition _ _ _) eqn:E; cbn; [|lia]. by apply find_partition_range in E; [|apply sector_bytes].
Qed.

(** The state a [return] leaves. *)
Ltac leave := match goal with |- exists _, ret _ ?t = _ /\ _ => exists t; split; [reflexivity|] end.

(** [Mount] accepts exactly the boot sectors with the signature, 512-byte
    sectors, a cluster size and a table; it writes nothing, and a volume that
    fits is then well-formed.  The boot sector is within the capacity of the
    device. *)
Theorem Mount_spec d start : 0 <= start < 2 ^ 32 -> 0 < capacity D -> boot_lba d start < capacity D ->
  exists s', Mount (FAT16_new d start) = Some (mounted s', s') /\ dev s' = d /\ volumeStartLBA s' = boot_lba d start /\
    let b := parsed (sector d (boot_lba d start)) in
    (mounted s' = true <-> accepted (sector d (boot_lba d start))) /\ (mounted s' = true -> bpb s' = b /\ (fits (boot_lba d start) b -> fat_wf s')).
Proof.
  intros Hs Hc0 Hc. pose proof (boot_lba_range d start Hs) as Hr. unfold Mount. rewrite gets_step. cbn [volumeStartLBA FAT16_new].
  match goal with |- context [bind (if start =? 0 then ?a else ?b) ?f] => assert (E1 : (if start =? 0 then a else b) (FAT16_new d start) = Some (boot_lba d start, FAT16_new d start)) end.
  { unfold boot_lba. case_zb; [|done]. rewrite read_sector by lia. unfold signed. cbn [dev FAT16_new]. subst. by destruct (_ && _). }
  rewrite (bind_step _ _ _ _ _ E1). clear E1. set (lba := boot_lba d start) in *. rewrite modify_step, read_sector by lia. cbn [dev FAT16_new]. set (sec := sector d lba) in *. fold (signed sec).
  assert (Hb : Forall byte sec) by apply sector_bytes. assert (H16 : forall i, u16 (get16 sec i) = get16 sec i) by (intros i; apply u16_small, get16_range, Hb). rewrite !H16. fold (parsed sec). unfold accepted.
  destruct (signed sec); cbn [negb]; [|leave; cbn; naive_solver].
  rewrite modify_step. destruct (Z.eqb_spec (bytesPerSector (parsed sec)) 512) as [E512|]; cbn [negb orb]; [|leave; cbn; naive_solver].
  destruct (Z.eqb_spec (sectorsPerCluster (parsed sec)) 0); cbn [orb]; [leave; cbn; naive_solver|].
  destruct (Z.eqb_spec (numFATs (parsed sec)) 0); [leave; cbn; naive_solver|].
  rewrite modify_step. leave. cbn [dev volumeStartLBA mounted bpb]. split_and!; try done. intros _. split; [done|]. intros [Hspf Hend]. rewrite E512. change (512 - 1) with 511. fold (root_sectors (parsed sec)).
  pose proof (byte_at_range sec 13 Hb). pose proof (byte_at_range sec 16 Hb). pose proof (get16_range sec 14 Hb). pose proof (get16_range sec 17 Hb).
  assert (Hrs : 0 <= root_sectors (parsed sec)) by (unfold root_sectors; cbn [rootEntryCount parsed]; zdiv).
  change (sectorsPerCluster (parsed sec)) with (byte_at sec 13) in *. change (numFATs (parsed sec)) with (byte_at sec 16) in *. change (reservedSectors (parsed sec)) with (get16 sec 14) in *.
  set (spf := sectorsPerFAT (parsed sec)) in *. set (P1 := byte_at sec 16 * spf) in *. assert (0 <= P1) by (subst P1; nia). set (P2 := spf * 256 * byte_at sec 13) in *. assert (0 <= P2) by (subst P2; nia).
  rewrite !u32_small by (rewrite ?u32_small by lia; lia). split; cbn [bpb fatStartLBA rootDirLBA rootDirSectors dataStartLBA]; try done; try lia; cbn [sectorsPerCluster numFATs parsed]; lia.
Qed.
End Volume.

(** ** Short names *)

(** A name of at most eight characters with an extension of at most three packs
    into eleven bytes, and an entry with these bytes has that name again. *)
Theorem ShortName_roundtrip base ex : good83 base ex ->
  exists short11, PackShortName11 (name83 base ex) = Some short11 /\ length short11 = 11%nat /\ forall e, take 11 e = short11 -> merged_name e = name83 base ex.
Proof.
  intros Hg. exists (short_name base ex). split; [by apply pack_good|]. split; [apply (short_name_ok base ex Hg)|]. intros e. by apply merged_good.
Qed.
Lemma ShortName_roundtrip_witness : exists short11, PackShortName11 (name83 [65] [84; 88]) = Some short11 /\ length short11 = 11%nat /\ forall e, take 11 e = short11 -> merged_name e = name83 [65] [84; 88].
Proof. apply (ShortName_roundtrip [65] [84; 88]). repeat split; try (cbn; lia); repeat constructor. done. Defined.

(** Characters beyond the eighth of a name are dropped without an error: the
    long name packs like its first eight characters. *)
Theorem PackShortName11_truncates base more ex : length base = 8%nat -> (length ex <= 3)%nat ->
  Forall (fun c => allowed c = true) base -> Forall (fun c => allowed c = true) more -> Forall (fun c => allowed c = true) ex ->
  PackShortName11 (name83 (base ++ more) ex) = PackShortName11 (name83 base ex).
Proof.
  intros Hl He Hb Hm Hx. unfold name83. rewrite <-app_assoc. unfold PackShortName11. rewrite !(pack_base base [] _ Hb) by (cbn; lia). cbn [app].
  assert (Hskip : forall r, pack_loop (more ++ r) base None = pack_loop r base None); [|by rewrite Hskip].
  intros r. induction Hm as [|c more Hc Hm IH]; [done|]. destruct (upper_allowed c Hc) as (Eu & Hd & _). cbn [app pack_loop]. rewrite (proj2 (Z.eqb_neq c 46) Hd), Eu, Hc, Hl. exact IH.
Qed.
Lemma PackShortName11_truncates_witness :
  PackShortName11 (name83 ([65; 65; 65; 65; 65; 65; 65; 65] ++ [66]) []) = PackShortName11 (name83 [65; 65; 65; 65; 65; 65; 65; 65] []).
Proof. apply (PackShortName11_truncates [65; 65; 65; 65; 65; 65; 65; 65] [66] []); [done|cbn; lia|repeat constructor..]. Defined.

(** * A volume in memory *)

(** One sector per cluster and per table, one table, a root directory of 16
    entries; the directory [/D] is made after mounting. *)
Definition demo_boot : list Z := patch (patch (patch (replicate 512 0) 11 [0; 2; 1; 1; 0; 2; 16; 0; 0; 0; 0; 1; 0]) 510 [0x55]) 511 [0xAA].
Definition demo_disk : ramdisk := {[0 := demo_boot; 1 := [248; 255; 255; 255]; 2 := [248; 255; 255; 255]]}.
Definition after {A} (r : option (A * fat16 ramdisk)) : fat16 ramdisk :=
  match r with Some (_, s) => s | None => FAT16_new ∅ 0 end.
Definition demo_mounted : fat16 ramdisk := after (Mount (FAT16_new demo_disk 0)).
Definition demo : fat16 ramdisk := after (Mkdir chain_fuel (Some [47; 68]) 0 demo_mounted).
Definition demo_written : fat16 ramdisk := after (WriteFile chain_fuel (Some (path_of [68] [97])) (Some [1; 2; 3]) demo).

Lemma Mount_spec_witness : exists s', Mount (FAT16_new demo_disk 0) = Some (true, s') /\ fat_wf s'.
Proof.
  destruct (Mount_spec demo_disk 0) as (s' & E & _ & _ & Hiff & Hm); [lia|vm_compute; reflexivity|vm_compute; reflexivity|]. assert (Ha : mounted s' = true).
  { apply Hiff. split_and!; vm_compute; congruence. }
  exists s'. rewrite Ha in E. split; [exact E|]. apply (Hm Ha). split; vm_compute; [split; discriminate|done].
Defined.

Lemma demo_facts s : s = demo \/ s = demo_written -> fat_wf s /\ mounted s = true /\ names_ok [68] [97] [65] [] /\ at_dir s [68] 2 [].
Proof.
  intros Hs. assert (Hn : names_ok [68] [97] [65] []) by (repeat split; try (cbn; lia); try done; repeat constructor; done).
  destruct Hs as [->| ->]; (split; [split; vm_compute; first [done | split; discriminate | discriminate]|]; split; [vm_compute; done|]; split; [exact Hn|];
    do 3 eexists; split; [vm_compute; reflexivity|]; split; [vm_compute; reflexivity|]; split; [vm_compute; reflexivity|]; vm_compute; repeat split; discriminate).
Qed.

Lemma WriteFile_ReadFile_witness : exists s', WriteFile chain_fuel (Some (path_of [68] [97])) (Some [1; 2; 3]) demo = Some (Some 3, s') /\
  ReadFile chain_fuel (Some (path_of [68] [97])) 100 s' = Some (Some [1; 2; 3], s').
Proof.
  destruct (demo_facts demo (or_introl eq_refl)) as (Hwf & Hm & Hn & Ha).
  destruct (WriteFile_ReadFile demo [68] [97] [65] [] 2 [] [1; 2; 3] Hwf Hm Hn Ha ltac:(vm_compute; reflexivity)) as (r & s' & E & _ & Hr); [repeat constructor; lia|done|vm_compute; done|].
  exists s'. destruct r as [n|].
  - destruct Hr as [-> Hr]. split; [exact E|]. apply Hr. cbn. lia.
  - exfalso. apply (f_equal (option_map fst)) in E. vm_compute in E. discriminate E.
Defined.

Definition demo_entry : Z * nat * list Z := default (0, 0%nat, []) (find_spec demo_written (has_name [65]) [2]).
Definition demo_junk : list Z := drop 3 (content demo_written [3]).
Lemma demo_holds : holds demo_written 2 [] [65] [] demo_entry.1.1 demo_entry.1.2 demo_entry.2 [] [1; 2; 3] demo_junk.
Proof.
  split.
  - vm_compute. reflexivity.
  - vm_compute. reflexivity.
  - vm_compute. reflexivity.
  - vm_compute. reflexivity.
  - done.
  - vm_compute. repeat split; discriminate.
  - vm_compute. reflexivity.
  - vm_compute. reflexivity.
  - assert (E : get_start (V := fat16 ramdisk) demo_entry.2 = 3) by (vm_compute; reflexivity). rewrite E. intros b Hb1 Hb2. apply list_elem_of_singleton in Hb1, Hb2. congruence.
Qed.

Lemma WriteFile_appends_witness : exists s', WriteFile chain_fuel (Some (path_of [68] [97])) (Some [4; 5]) demo_written = Some (Some 2, s') /\
  ReadFile chain_fuel (Some (path_of [68] [97])) 100 s' = Some (Some [1; 2; 3; 4; 5], s').
Proof.
  destruct (demo_facts demo_written (or_intror eq_refl)) as (Hwf & Hm & Hn & Ha).
  destruct (WriteFile_appends demo_written [68] [97] [65] [] 2 [] _ _ _ [] [1; 2; 3] demo_junk [4; 5] Hwf Hm Hn Ha demo_holds) as (r & s' & E & _ & Hr); [repeat constructor; lia|done|vm_compute; done|].
  exists s'. destruct r as [n|].
  - destruct Hr as [-> Hr]. split; [exact E|]. apply Hr. cbn. lia.
  - exfalso. apply (f_equal (option_map fst)) in E. vm_compute in E. discriminate E.
Defined.

Lemma WriteFile_root_size_zero_witness : exists s', WriteFile chain_fuel (Some [47; 97]) (Some [1; 2; 3]) demo = Some (Some 3, s') /\
  ReadFile chain_fuel (Some [47; 97]) 100 s' = Some (Some [], s').
Proof.
  destruct (demo_facts demo (or_introl eq_refl)) as (Hwf & Hm & Hn & _). destruct Hn as (_ & _ & _ & Hf & Hu & Hg).
  exists (after (WriteFile chain_fuel (Some [47; 97]) (Some [1; 2; 3]) demo)).
  assert (E : WriteFile chain_fuel (Some [47; 97]) (Some [1; 2; 3]) demo = Some (Some 3, after (WriteFile chain_fuel (Some [47; 97]) (Some [1; 2; 3]) demo))) by (vm_compute; reflexivity).
  split; [exact E|]. apply (WriteFile_root_size_zero demo [97] [65] [] [1; 2; 3] 3 _ 100 Hwf Hm Hf Hu Hg); [vm_compute; reflexivity|repeat constructor; lia|done|lia|exact E].
Defined.
