(* ===== verification/Fat32.v ===== *)
(** The FAT32 file system: [src/kernel/src/fs/fat32.cpp] and
    [src/kernel/include/fs/fat32.hpp], on any block device.

    Every directory, the root included, is a chain of clusters.  The buffers at
    fixed addresses are local values here: no function keeps one across a call
    that uses the same address.  The buffer of [InitDirCluster] is on the stack
    and holds 4096 bytes; a larger cluster leaves it, which is [stuck].  Chains
    are followed with [fuel]; printing ([ListRoot], [ListDir], [DebugInfo] and
    the messages of [Mount]) is left out. *)
From S2P Require Import Prelude NetPacket Disk Clusters Volume.

Record FAT32_BPB := mk_bpb {
  bytesPerSector : Z; sectorsPerCluster : Z; reservedSectors : Z; numFATs : Z; sectorsPerFAT : Z; rootCluster : Z; totalSectors : Z;
}.
Record fat32 (D : Type) := mk_fat {
  dev : D; bpb : FAT32_BPB; volumeStartLBA : Z; fatStartLBA : Z; dataStartLBA : Z; mountedFlag : bool;
}.
Arguments mk_fat {D}. Arguments dev {D}. Arguments bpb {D}. Arguments volumeStartLBA {D}. Arguments fatStartLBA {D}.
Arguments dataStartLBA {D}. Arguments mountedFlag {D}.

Definition set_dev {D} (d : D) (s : fat32 D) : fat32 D :=
  mk_fat d (bpb s) (volumeStartLBA s) (fatStartLBA s) (dataStartLBA s) (mountedFlag s).

Section Model.
Context {D : Type} `{BlockDevice D}.
Abbreviation st := (fat32 D).

Definition FAT32_new (d : D) : st := mk_fat d (mk_bpb 0 0 0 0 0 0 0) 0 0 0 false.

(** ** The format *)

Definition bytesPerCluster (s : st) : Z := u32 (bytesPerSector (bpb s) * sectorsPerCluster (bpb s)).
(** The lower 28 bits of a table entry, and the entry with its upper four bits
    kept. *)
Definition fat_value (sec : list Z) (i : nat) : Z := Z.land (get32 sec i) 0x0FFFFFFF.
Definition new_entry (cur value : Z) : Z := Z.lor (Z.land cur 0xF0000000) (Z.land value 0x0FFFFFFF).
(** A directory entry has the start cluster in two halves. *)
Definition write_entry32 (buf : list Z) (off : nat) (short11 : list Z) (attr startCluster size : Z) : list Z :=
  patch (write_entry buf off short11 attr startCluster size) (off + 20) (le16 (Z.shiftr startCluster 16)).
Definition entry_cluster (e : list Z) : Z := Z.lor (Z.shiftl (u16 (get16 e 20)) 16) (u16 (get16 e 26)).

(** [ReadSector] to [AllocateCluster] are those of [Volume.v], with entries of 32
    bits; the loops over chains of clusters are in [Clusters.v]. *)
#[export] Instance fat32_volume : FatVolume st D := {
  vdev := dev; set_vdev := set_dev; v_fatStart := fatStartLBA; v_dataStart := dataStartLBA;
  v_sectorsPerFAT s := sectorsPerFAT (bpb s); v_numFATs s := numFATs (bpb s); v_sectorsPerCluster s := sectorsPerCluster (bpb s); v_bytesPerCluster := bytesPerCluster;
  ent_size := 4; get_ent := fat_value; set_ent sec i v := patch sec i (le32 (new_entry (get32 sec i) v));
  unreadable := 0x0FFFFFFF; v_eoc := 0x0FFFFFF8; v_mark := 0x0FFFFFF8; v_narrow c := c; v_put := write_entry32; v_start := entry_cluster;
}.

(** ** Mounting *)

Definition signed (sec : list Z) : bool := (byte_at sec 510 =? 0x55) && (byte_at sec 511 =? 0xAA).
(** The letters FAT32 at offset 82. *)
Definition isFAT32 (sec : list Z) : bool :=
  (byte_at sec 82 =? 70) && (byte_at sec 83 =? 65) && (byte_at sec 84 =? 84) && (byte_at sec 85 =? 51) && (byte_at sec 86 =? 50).
Definition fat_type (type : Z) : bool :=
  (type =? 0x01) || (type =? 0x04) || (type =? 0x06) || (type =? 0x0E) || (type =? 0x0B) || (type =? 0x0C).

(** The loop over the partition table: the start of a FAT32 volume, or whether
    a partition was seen. *)
Fixpoint partition_loop (n i : nat) (mbr : list Z) (hasPartitions : bool) : ST st (Z + bool) :=
  match n with
  | O => ret (inr hasPartitions)
  | S n' =>
      let off := (446 + i * 16)%nat in
      let type := byte_at mbr (off + 4) in
      let seen := hasPartitions || negb (type =? 0x00) in
      let lbaStart := get32 mbr (off + 8) in
      if fat_type type then
        let! bs := ReadSector lbaStart in
        match bs with
        | Some bs => if signed bs && isFAT32 bs then ret (inl lbaStart) else partition_loop n' (i + 1) mbr seen
        | None => partition_loop n' (i + 1) mbr seen
        end
      else partition_loop n' (i + 1) mbr seen
  end.
Definition DetectFAT32PartitionStart : ST st Z :=
  let? mbr := ReadSector 0 or 0 in
  let! r := partition_loop 4 0 mbr false in
  ret (match r with inl lba => lba | inr hasPartitions => if signed mbr && hasPartitions then 0xFFFFFFFF else 0 end).

Definition Mount : ST st bool :=
  let! start := DetectFAT32PartitionStart in
  modify (fun s => mk_fat (dev s) (bpb s) start (fatStartLBA s) (dataStartLBA s) (mountedFlag s));;;
  if start =? 0xFFFFFFFF then ret false
  else
    let? sector := ReadSector start or false in
    if negb (signed sector) then ret false
    else if (start =? 0) && negb (isFAT32 sector) then ret false
    else
      let b := mk_bpb (u16 (get16 sector 11)) (byte_at sector 13) (u16 (get16 sector 14)) (byte_at sector 16) (get32 sector 36) (get32 sector 44) (get32 sector 32) in
      let fatStart := u32 (start + reservedSectors b) in
      modify (fun s => mk_fat (dev s) b (volumeStartLBA s) fatStart (u32 (fatStart + numFATs b * sectorsPerFAT b)) (mountedFlag s));;;
      if negb (bytesPerSector b =? 512) || (sectorsPerCluster b =? 0) then ret false
      else
        modify (fun s => mk_fat (dev s) (bpb s) (volumeStartLBA s) (fatStartLBA s) (dataStartLBA s) true);;;
        ret true.

(** ** Directories *)

Definition InitDirCluster (newDirCluster parentCluster : Z) : ST st bool :=
  let! bpc := gets bytesPerCluster in
  if 4096 <? bpc then stuck
  else
    let cl := replicate (Z.to_nat bpc) 0 in
    let cl := write_entry32 cl 0 (dot_name 1) 0x10 newDirCluster 0 in
    WriteCluster newDirCluster (write_entry32 cl 32 (dot_name 2) 0x10 parentCluster 0).

(** The entry, its cluster and its offset. *)
Definition FindShortEntryWithOffset (fuel : nat) (dirCluster : Z) (shortName11 : list Z) : ST st (option (Z * nat * list Z)) :=
  let! bpc := gets bytesPerCluster in find_in_chain fuel bpc dirCluster (has_short shortName11).
Definition AddFileEntryToDir (fuel : nat) (dirCluster : Z) (shortName11 : list Z) (startCluster initialSize : Z) : ST st bool :=
  add_entry fuel dirCluster shortName11 0x20 startCluster initialSize.
Definition AddEntryToDirCluster (fuel : nat) (dirCluster : Z) (shortName11 : list Z) (startCluster : Z) (isDir : bool) : ST st bool :=
  add_entry fuel dirCluster shortName11 (if isDir then 0x10 else 0x20) startCluster 0.
(** The start cluster and the size of an entry, whatever its attributes. *)
Definition FindShortNameInDirCluster (fuel : nat) (dirCluster : Z) (shortName83 : list Z) : ST st (option (Z * Z)) :=
  let! n := gets (fun s => sectorsPerCluster (bpb s) * 512) in
  let! r := find_in_chain fuel n dirCluster (has_name shortName83) in
  ret (match r with Some (_, _, e) => Some (entry_cluster e, entry_size e) | None => None end).

(** ** Paths *)

(** The directory that all components lead to; [None] when one is missing. *)
Fixpoint walk_all (n fuel : nat) (dirCl : Z) (p : list Z) : ST st (option Z) :=
  match p, n with
  | [], _ | _, O => ret (Some dirCl)
  | _, S n' =>
      let '(comp, rest) := next_comp p in
      if decide (comp = []) then walk_all n' fuel dirCl rest
      else let? child := FindShortNameInDirCluster fuel dirCl comp or None in walk_all n' fuel (fst child) rest
  end.
(** The directory of the last component and that component. *)
Fixpoint walk (n fuel : nat) (dirCl : Z) (p : list Z) : ST st (option (Z * list Z)) :=
  match p, n with
  | [], _ | _, O => ret (Some (dirCl, []))
  | _, S n' =>
      let '(comp, rest) := next_comp p in
      if decide (comp = []) then walk n' fuel dirCl rest
      else if is_last rest then ret (Some (dirCl, comp))
      else let? child := FindShortNameInDirCluster fuel dirCl comp or None in walk n' fuel (fst child) rest
  end.

(** The components of [path] from the root directory. *)
Definition walk_to_dir (fuel : nat) (path : list Z) : ST st (option Z) :=
  let! root := gets (fun s => rootCluster (bpb s)) in
  if decide (path = [47]) then ret (Some root)
  else let p := skip_slash path in walk_all (length p) fuel root p.

Definition DirExists (fuel : nat) (path : option (list Z)) : ST st bool :=
  let! m := gets mountedFlag in
  if negb m then ret false
  else match path with
  | None => ret false
  | Some path => let! r := walk_to_dir fuel path in ret (bool_decide (is_Some r))
  end.

(** ** Files *)

(** The bytes read, whose number is the result; [None] is -1. *)
Definition ReadFile (fuel : nat) (path : option (list Z)) (maxLen : Z) : ST st (option (list Z)) :=
  let! m := gets mountedFlag in
  if negb m then ret None
  else match path with
  | Some (ch :: p) =>
      if negb (ch =? 47) then ret None
      else
        let! root := gets (fun s => rootCluster (bpb s)) in
        let? w := walk (length p) fuel root p or None in
        let '(dirCluster, comp) := w in
        if decide (comp = []) then ret None
        else
          let? ent := FindShortNameInDirCluster fuel dirCluster comp or None in
          let '(entryCl, entrySize) := ent in
          let toRead := if entrySize <? maxLen then entrySize else maxLen in
          let! data := read_chain fuel entryCl toRead [] in
          ret (Some data)
  | _ => ret None
  end.

Definition WriteFile (fuel : nat) (path : option (list Z)) (data : option (list Z)) : ST st (option Z) :=
  let! m := gets mountedFlag in
  if negb m then ret None
  else match path, data with
  | Some (ch :: p), Some (x :: data') =>
      let data := x :: data' in
      if negb (ch =? 47) then ret None
      else
        let! root := gets (fun s => rootCluster (bpb s)) in
        let? w := walk (length p) fuel root p or None in
        let '(dirCl, finalName) := w in
        if decide (finalName = []) then ret None
        else match PackShortName11 finalName with
        | None => ret None
        | Some short11 =>
            let! ex := FindShortEntryWithOffset fuel dirCl short11 in
            match ex with
            | None => new_file fuel dirCl short11 data
            | Some (entryCl, entryOff, e) =>
                if Z.land (entry_attr e) 0x20 =? 0 then ret None
                else append_entry fuel entryCl entryOff e (0 <? entry_size e) data
            end
        end
  | _, _ => ret None
  end.

(** ** Making directories *)

(** 0, or -1 for [false]. *)
Fixpoint mkdir_loop (n fuel : nat) (parents : bool) (curDir : Z) (p : list Z) : ST st bool :=
  match p, n with
  | [], _ | _, O => ret true
  | _, S n' =>
      let '(comp, rest) := next_comp p in
      if decide (comp = []) then mkdir_loop n' fuel parents curDir rest
      else
        let! found := FindShortNameInDirCluster fuel curDir comp in
        match found with
        | Some (childCl, _) => mkdir_loop n' fuel parents childCl rest
        | None =>
            if negb parents && negb (is_last rest) then ret false
            else match PackShortName11 comp with
            | None => ret false
            | Some short11 =>
                let! newCl := AllocateCluster in
                if newCl <? 2 then ret false
                else
                  check (InitDirCluster newCl curDir) or false in
                  check (AddEntryToDirCluster fuel curDir short11 newCl true) or false in
                  mkdir_loop n' fuel parents newCl rest
            end
        end
  end.
Definition Mkdir (fuel : nat) (path : option (list Z)) (parents : Z) : ST st bool :=
  let! m := gets mountedFlag in
  match path with
  | Some path =>
      if negb m then ret false
      else
        let! root := gets (fun s => rootCluster (bpb s)) in
        let p := skip_slash path in mkdir_loop (length p) fuel (negb (parents =? 0)) root p
  | None => ret false
  end.

(** ** Renaming *)

(** The last slash of a path, and the path up to it and the name behind it, cut
    to the sizes of their buffers. *)
Fixpoint last_slash (i : nat) (last : option nat) (path : list Z) : option nat :=
  match path with [] => last | c :: r => last_slash (S i) (if c =? 47 then Some i else last) r end.
Definition split_parent_basename (path : list Z) (parentCap baseCap : nat) : list Z * list Z :=
  match last_slash 0 None path with
  | None => ([47], take (baseCap - 1) path)
  | Some O => ([47], take (baseCap - 1) (drop 1 path))
  | Some (S i) => (take (parentCap - 1) (take (S i) path), take (baseCap - 1) (drop (S (S i)) path))
  end.

(** 0, or -1 for [false]. *)
Definition Rename (fuel : nat) (src dst : option (list Z)) : ST st bool :=
  let! m := gets mountedFlag in
  match src, dst with
  | Some src, Some dst =>
      if negb m then ret false
      else if negb (bool_decide (head src = Some 47)) || negb (bool_decide (head dst = Some 47)) then ret false
      else
        let '(srcParent, srcBase) := split_parent_basename src 160 32 in
        let '(dstParent, dstBase) := split_parent_basename dst 160 32 in
        if decide (srcBase = []) then ret false
        else if decide (dstBase = []) then ret false
        else
          let? srcDirCl := walk_to_dir fuel srcParent or false in
          let? dstDirCl := walk_to_dir fuel dstParent or false in
          let srcBase := upper <$> srcBase in
          let dstBase := upper <$> dstBase in
          match PackShortName11 srcBase, PackShortName11 dstBase with
          | Some src11, Some dst11 =>
              let? found := FindShortEntryWithOffset fuel srcDirCl src11 or false in
              let '(entryCl, entryOff, e) := found in
              let! tmp := FindShortNameInDirCluster fuel dstDirCl dstBase in
              match tmp with
              | Some _ => ret false
              | None =>
                  if srcDirCl =? dstDirCl then patch_entry entryCl entryOff dst11
                  else if Z.land (entry_attr e) 0x20 =? 0 then ret false
                  else
                    check (AddFileEntryToDir fuel dstDirCl dst11 (entry_cluster e) (entry_size e)) or false in
                    patch_entry entryCl entryOff [0xE5]
              end
          | _, _ => ret false
          end
  | _, _ => ret false
  end.

(** ** Enumeration *)

(** The entries handed to the callback; their number is the result. *)
Definition EnumDir (fuel : nat) (path : option (list Z)) (callback : option (DirEntry -> bool)) : ST st (option (list DirEntry)) :=
  let! m := gets mountedFlag in
  match callback with
  | None => ret None
  | Some cb =>
      if negb m then ret None
      else
        let? dirCl := walk_to_dir fuel (default [47] path) or None in
        enum_chain fuel dirCl cb []
  end.
End Model.

(** * The volume *)

(** ** The format *)

Lemma new_entry_value cur v : 0 <= v < 2 ^ 28 -> Z.land (new_entry cur v) 0x0FFFFFFF = v.
Proof.
  intros Hv. unfold new_entry. rewrite Z.land_lor_distr_l, <-!Z.land_assoc. change (Z.land 0xF0000000 0x0FFFFFFF) with 0. change (Z.land 0x0FFFFFFF 0x0FFFFFFF) with (Z.ones 28).
  rewrite Z.land_0_r, Z.lor_0_l, Z.land_ones, Z.mod_small by lia. done.
Qed.
Lemma new_entry_reserved cur v : Z.land (new_entry cur v) 0xF0000000 = Z.land cur 0xF0000000.
Proof.
  unfold new_entry. rewrite Z.land_lor_distr_l, <-!Z.land_assoc. change (Z.land 0x0FFFFFFF 0xF0000000) with 0. rewrite Z.land_0_r, Z.lor_0_r. done.
Qed.
Lemma new_entry_range cur v : 0 <= new_entry cur v < 2 ^ 32.
Proof.
  assert (E : new_entry cur v = Z.land (new_entry cur v) (Z.ones 32)) by (unfold new_entry; by rewrite Z.land_lor_distr_l, <-!Z.land_assoc). rewrite E, Z.land_ones by lia. apply Z.mod_pos_bound. lia.
Qed.
Lemma le16_u16 v : le16 (u16 v) = le16 v.
Proof. unfold le16, u8, u16. rewrite !Z.shiftr_div_pow2 by lia. f_equal; [|f_equal]; zdiv. Qed.

Lemma write_entry32_ok buf o sh attr sc size : Forall byte buf -> Forall byte sh -> length sh = 11%nat -> (o + 32 <= length buf)%nat ->
  0 <= attr < 256 -> 0 <= sc < 2 ^ 32 -> 0 <= size < 2 ^ 32 ->
  let buf' := write_entry32 buf o sh attr sc size in
  length buf' = length buf /\ Forall byte buf' /\ same_outside buf buf' o /\ entry_holds entry_cluster sh attr sc size (entry_at buf' o).
Proof.
  intros Hb Hsb Hl Ho Ha Hc Hz buf'. subst buf'. unfold write_entry32. set (hi := Z.shiftr sc 16).
  assert (Ew : write_entry buf o sh attr sc size = write_entry buf o sh attr (u16 sc) size) by (unfold write_entry; by rewrite le16_u16). rewrite Ew. set (b1 := write_entry _ _ _ _ _ _).
  destruct (write_entry_fields buf o sh attr (u16 sc) size Hb Hsb Hl Ho Ha (u16_range _) Hz) as (Hb' & Hso & N1 & N2 & N3 & N4). fold b1 in Hb', Hso, N1, N2, N3, N4.
  assert (Hl1 : length b1 = length buf) by (by apply write_entry_length). assert (Hhi : 0 <= hi < 65536) by (subst hi; rewrite Z.shiftr_div_pow2 by lia; zdiv).
  assert (Hby : forall i, (i < 32)%nat -> byte_at (entry_at (patch b1 (o + 20) (le16 hi)) o) i = if decide (20 <= i < 22)%nat then byte_at (le16 hi) (i - 20) else byte_at (entry_at b1 o) i)
    by (intros i Hi; rewrite entry_patch by (cbn; lia); done).
  split_and!; [rewrite patch_length; cbn; lia|apply patch_bytes; [done|apply le16_bytes]| |].
  - intros i Hi. rewrite (patch_outside b1 o 20 (le16 hi)) by (cbn; lia). by apply Hso.
  - unfold entry_holds, entry_attr, entry_size, entry_cluster, get16, get32 in *. rewrite !Hby by lia. repeat (case_decide; try lia). split_and!; try done.
    + rewrite <-N1. apply byte_at_ext; [rewrite !length_take, !entry_length; rewrite ?patch_length; cbn; lia|]. intros i Hi. rewrite length_take in Hi.
      assert (Ht : forall l, byte_at (take 11 l) i = byte_at l i) by (intros l; unfold byte_at; by rewrite lookup_take_lt by lia). rewrite !Ht, Hby by lia. by rewrite decide_False by lia.
    + rewrite N3. change (byte_at (le16 hi) (20 - 20)) with (u8 hi). change (byte_at (le16 hi) (20 + 1 - 20)) with (u8 (Z.shiftr hi 8)). rewrite (Z.lor_comm (u8 hi)).
      pose proof (be16_read hi Hhi) as E. rewrite E. rewrite shift_or by (first [lia | apply u16_range]). rewrite u16_small by apply u16_range. subst hi. rewrite Z.shiftr_div_pow2 by lia. unfold u16. zdiv.
Qed.

Section Volume.
Context {D : Type} `{WorkingDevice D}.
Abbreviation st := (fat32 D).
Implicit Types (s : st) (c cl d v l : Z).

(** The geometry of a mounted volume: the tables and the data follow each
    other, and cluster numbers stay below the end marks. *)
Record fat_wf (s : st) : Prop := {
  wf_bps : bytesPerSector (bpb s) = 512;
  wf_spc : 1 <= sectorsPerCluster (bpb s) <= 255;
  wf_nf : 1 <= numFATs (bpb s) <= 255;
  wf_spf : 1 <= sectorsPerFAT (bpb s) <= 0x1FFFFF;
  wf_start : 0 <= fatStartLBA s;
  wf_data : dataStartLBA s = fatStartLBA s + numFATs (bpb s) * sectorsPerFAT (bpb s);
  wf_end : dataStartLBA s + sectorsPerFAT (bpb s) * 128 * sectorsPerCluster (bpb s) < Z.min (2 ^ 32) (capacity D + 1);
}.

Lemma bytes32 s : fat_wf s -> bytesPerCluster s = 512 * sectorsPerCluster (bpb s).
Proof. intros []. unfold bytesPerCluster. rewrite wf_bps0. apply u32_small. lia. Qed.

(** The driver is one of those [Volume.v] is about. *)
#[local] Obligation Tactic := try solve [intros; done | intros s; by destruct s].
#[export] Program Instance fat32_laws : VolumeLaws st D := { v_ok := fat_wf }.
Next Obligation. intros s d []. by split. Qed.
Next Obligation. intros s []. done. Qed.
Next Obligation. intros s []. done. Qed.
Next Obligation. intros s []. cbn. change (512 / 4) with 128. lia. Qed.
Next Obligation. intros s []. cbn. lia. Qed.
Next Obligation. intros s []. cbn. change (512 / 4) with 128. done. Qed.
Next Obligation. exact bytes32. Qed.
Next Obligation. by right. Qed.
Next Obligation.
  intros buf i v Hb Hv Hl. cbn in *. unfold fat_value. rewrite get32_patch_eq by (try apply new_entry_range; done || lia). apply new_entry_value. lia.
Qed.
Next Obligation. intros buf i j v Hl Hij. cbn in *. unfold fat_value. by rewrite get32_patch_ne. Qed.
Next Obligation. intros buf i v Hl. cbn in *. by apply patch_length. Qed.
Next Obligation. intros buf i v Hb. apply patch_bytes; [done|apply le32_bytes]. Qed.
Next Obligation. intros. apply write_entry32_ok; try done. cbn in *. lia. Qed.
Next Obligation. intros e e' He. cbn. unfold entry_cluster, get16. by rewrite !He by lia. Qed.

(** ** Paths *)

Definition good_comp (n : list Z) : Prop := n <> [] /\ (length n <= 12)%nat /\ Forall (fun x => x <> 47) n.
(** [n1/n2/.../fn]. *)
Definition join (comps : list (list Z)) (fn : list Z) : list Z := foldr (fun n r => n ++ 47 :: r) fn comps.

(** The names lead from the directory [d] to [d'] through chains without a
    cluster in [W]. *)
Fixpoint leads s (W : Z -> Prop) (d : Z) (comps : list (list Z)) (d' : Z) : Prop :=
  match comps with
  | [] => d = d'
  | n :: rest => good_comp n /\ exists ds c o e, chain s (d :: ds) /\ (forall b, b ∈ d :: ds -> ~ W b) /\
      find_spec s (has_name (upper <$> n)) (d :: ds) = Some (c, o, e) /\ leads s W (entry_cluster e) rest d'
  end.

(** The same, and none of the names is found at the entry [o] of the cluster [c]. *)
Fixpoint leads_past s (W : Z -> Prop) (c : Z) (o : nat) (d : Z) (comps : list (list Z)) (d' : Z) : Prop :=
  match comps with
  | [] => d = d'
  | n :: rest => good_comp n /\ exists ds c1 o1 e, chain s (d :: ds) /\ (forall b, b ∈ d :: ds -> ~ W b) /\
      find_spec s (has_name (upper <$> n)) (d :: ds) = Some (c1, o1, e) /\ (c1, o1) <> (c, o) /\ leads_past s W c o (entry_cluster e) rest d'
  end.
Lemma past_leads s W c o d comps d' : leads_past s W c o d comps d' -> leads s W d comps d'.
Proof. revert d. induction comps as [|n rest IH]; intros d; [done|]. intros (Hn & ds & c1 & o1 & e & Hch & Hw & Hf & _ & Hl). split; [done|]. exists ds, c1, o1, e. auto. Qed.

Lemma leads_ext (W : Z -> Prop) s s' d comps d' : fat_wf s -> ext W s s' -> leads s W d comps d' -> leads s' W d comps d'.
Proof.
  intros Hwf He. revert d. induction comps as [|n rest IH]; intros d; [done|]. intros (Hn & ds & c & o & e & Hch & Hw & Hf & Hl). split; [done|].
  exists ds, c, o, e. split; [by apply (chain_ext _ _ _ _ He)|]. split; [done|]. split; [|by apply IH]. rewrite (find_spec_ext _ _ _ _ _ He); [done|done|by apply chain_used].
Qed.

Lemma join_first comps fn : Forall good_comp comps -> good_comp fn -> exists x r, join comps fn = x :: r /\ x <> 47.
Proof.
  intros Hc Hf. assert (Hg : forall n r, good_comp n -> exists x r', n ++ r = x :: r' /\ x <> 47).
  { intros [|x n] r (Hn & _ & Ha); [done|]. apply Forall_cons in Ha as [? _]. by exists x, (n ++ r). }
  destruct Hc as [|n comps Hn _]; cbn [join foldr]; [rewrite <-(app_nil_r fn)|]; by apply Hg.
Qed.
Lemma not_last x r : x <> 47 -> is_last (x :: r) = false.
Proof. intros Hx. unfold is_last. cbn [skip_slashes]. by rewrite (proj2 (Z.eqb_neq x 47) Hx). Qed.
Lemma comp_slash n r : good_comp n -> next_comp (n ++ 47 :: r) = (upper <$> n, r).
Proof. intros (_ & Hl & Ha). unfold next_comp. by rewrite take_comp_all by (done || (right; by eexists)). Qed.
Lemma comp_end n : good_comp n -> next_comp n = (upper <$> n, []).
Proof. intros (_ & Hl & Ha). unfold next_comp. rewrite <-(app_nil_r n) at 1. by rewrite take_comp_all by (done || by left). Qed.
Lemma upper_nonempty n : good_comp n -> upper <$> n <> [].
Proof. intros (Hn & _) E. by apply fmap_nil_inv in E. Qed.

Section Paths.
Context (fuel : nat) (s : st) (W : Z -> Prop).
Hypotheses (Hwf : vol_wf s) (Hfuel : (Z.to_nat (entries s) < fuel)%nat).

Lemma chain_fits cs : chain s cs -> (length cs < fuel)%nat.
Proof. intros Hc. pose proof (cluster_chain_length s _ Hwf Hc). lia. Qed.

Lemma find_name (d : Z) ds name : chain s (d :: ds) ->
  FindShortNameInDirCluster fuel d name s = Some ((fun r => (entry_cluster r.2, entry_size r.2)) <$> find_spec s (has_name name) (d :: ds), s).
Proof.
  intros Hc. unfold FindShortNameInDirCluster. rewrite gets_step. replace (sectorsPerCluster (bpb s) * 512) with (bytesPerCluster s) by (rewrite bytes32 by done; lia).
  pose proof (chain_fits _ Hc). rewrite (bind_step _ _ _ _ _ (find_in_chain_ok fuel d ds _ s Hwf Hc ltac:(lia))). by destruct (find_spec _ _ _) as [[[? ?] ?]|].
Qed.
Lemma find_short (d : Z) ds sh : chain s (d :: ds) -> FindShortEntryWithOffset fuel d sh s = Some (find_spec s (has_short sh) (d :: ds), s).
Proof. intros Hc. unfold FindShortEntryWithOffset. rewrite gets_step. pose proof (chain_fits _ Hc). apply (find_in_chain_ok fuel d ds _ s Hwf Hc). lia. Qed.

Lemma walk_unfold n d p : p <> [] -> walk (S n) fuel d p =
  let '(comp, rest) := next_comp p in
  if decide (comp = []) then walk n fuel d rest else if is_last rest then ret (Some (d, comp))
  else let? child := FindShortNameInDirCluster fuel d comp or None in walk n fuel (fst child) rest.
Proof. by destruct p. Qed.
Lemma leads_good comps d d' : leads s W d comps d' -> Forall good_comp comps.
Proof. revert d. induction comps as [|m rest IH]; intros d Hl; [done|]. destruct Hl as (? & ? & ? & ? & ? & _ & _ & _ & Hl). constructor; [done|by eapply IH]. Qed.

Lemma walk_leads comps fn d d' n : leads s W d comps d' -> good_comp fn -> (length (join comps fn) <= n)%nat ->
  walk n fuel d (join comps fn) s = Some (Some (d', upper <$> fn), s).
Proof.
  intros Hl Hf. pose proof (leads_good _ _ _ Hl) as Hg. revert n d Hl. induction Hg as [|c0 rest Hc0 Hrest IH]; intros n d Hl Hn.
  - cbn in Hl, Hn |- *. subst d'. pose proof Hf as (Hne & _). destruct n as [|n]; [destruct fn; [done|cbn in Hn; lia]|].
    rewrite walk_unfold, (comp_end fn Hf) by done. by rewrite decide_False by (by apply upper_nonempty).
  - destruct Hl as (_ & ds & c & o & e & Hch & _ & Hfind & Hl). cbn [join foldr] in Hn |- *. fold (join rest fn) in *.
    destruct (join_first rest fn Hrest Hf) as (x & r & Ej & Hx). rewrite length_app in Hn. cbn [length] in Hn. destruct n as [|n]; [lia|].
    rewrite walk_unfold, (comp_slash c0 _ Hc0) by (by destruct c0). rewrite decide_False by (by apply upper_nonempty). assert (El : is_last (join rest fn) = false) by (rewrite Ej; by apply not_last). rewrite El.
    rewrite (bind_step _ _ _ _ _ (find_name d ds _ Hch)), Hfind. cbn [fmap option_fmap option_map fst snd]. apply IH; [done|lia].
Qed.
End Paths.

(** ** Files *)

Definition named (fn base ex : list Z) : Prop := good_comp fn /\ upper <$> fn = name83 base ex /\ good83 base ex.

Section Files.
Context (fuel : nat) (s : st) (W : Z -> Prop) (comps : list (list Z)) (fn base ex : list Z) (d : Z) (ds : list Z).
Hypotheses (Hwf : vol_wf s) (Hfuel : (Z.to_nat (entries s) < fuel)%nat) (Hm : mountedFlag s = true).
Hypotheses (Hl : leads s W (rootCluster (bpb s)) comps d) (Hch : chain s (d :: ds)) (Hn : named fn base ex).

(** [ReadFile] gives the first bytes of the chain, as many as the entry and the
    caller allow. *)
Lemma ReadFile_take c o e cs maxLen : find_spec s (has_name (name83 base ex)) (d :: ds) = Some (c, o, e) -> chain s (entry_cluster e :: cs) -> 0 <= maxLen ->
  let toRead := Z.min (entry_size e) maxLen in toRead + bytesPerCluster s < 2 ^ 32 -> 0 <= entry_size e ->
  ReadFile fuel (Some (47 :: join comps fn)) maxLen s = Some (Some (take (Z.to_nat toRead) (content s (entry_cluster e :: cs))), s).
Proof.
  intros Hf Hcs Hmax toRead Hlen Hsz. destruct Hn as (Hg & Efn & Hg83). unfold ReadFile. rewrite gets_step, Hm. change (47 =? 47) with true. cbn [negb]. rewrite gets_step.
  rewrite (bind_step _ _ _ _ _ (walk_leads fuel s W Hwf Hfuel comps fn _ d _ Hl Hg (Nat.le_refl _))). rewrite Efn. pose proof (name83_length _ _ Hg83).
  rewrite decide_False by (intros E; rewrite E in *; cbn in *; lia). rewrite (bind_step _ _ _ _ _ (find_name fuel s Hwf Hfuel d ds _ Hch)), Hf. cbn [fmap option_fmap option_map snd].
  replace (if _ <? maxLen then _ else _) with toRead by (subst toRead; case_zb; lia). pose proof (chain_fits fuel s Hwf Hfuel _ Hcs).
  rewrite (bind_step _ _ _ _ _ (read_chain_ok fuel (entry_cluster e) cs toRead [] s Hwf Hcs ltac:(lia) ltac:(cbn; lia) Hlen)). done.
Qed.

(** [WriteFile] up to the search for the file. *)
Lemma WriteFile_begin x data : WriteFile fuel (Some (47 :: join comps fn)) (Some (x :: data)) s =
    match find_spec s (has_short (short_name base ex)) (d :: ds) with
    | None => new_file fuel d (short_name base ex) (x :: data) s
    | Some (entryCl, entryOff, e) =>
        if Z.land (entry_attr e) 0x20 =? 0 then Some (None, s) else append_entry fuel entryCl entryOff e (0 <? entry_size e) (x :: data) s
    end.
Proof.
  destruct Hn as (Hg & Efn & Hg83). unfold WriteFile. rewrite gets_step, Hm. change (47 =? 47) with true. cbn [negb]. rewrite gets_step.
  rewrite (bind_step _ _ _ _ _ (walk_leads fuel s W Hwf Hfuel comps fn _ d _ Hl Hg (Nat.le_refl _))). rewrite Efn. pose proof (name83_length _ _ Hg83).
  rewrite decide_False by (intros E; rewrite E in *; cbn in *; lia). rewrite (pack_good _ _ Hg83). fold (short_name base ex).
  rewrite (bind_step _ _ _ _ _ (find_short fuel s Hwf Hfuel d ds _ Hch)). destruct (find_spec _ _ _) as [[[c o] e]|]; [|done]. by destruct (Z.land _ _ =? 0).
Qed.
End Files.

Lemma stored_prefix fuel s W comps fn base ex d data maxLen : vol_wf s -> (Z.to_nat (entries s) < fuel)%nat -> mountedFlag s = true ->
  leads s W (rootCluster (bpb s)) comps d -> named fn base ex -> stored s d (name83 base ex) data ->
  Z.of_nat (length data) <= maxLen -> Z.of_nat (length data) + bytesPerCluster s < 2 ^ 32 ->
  ReadFile fuel (Some (47 :: join comps fn)) maxLen s = Some (Some data, s).
Proof.
  intros Hwf Hfuel Hm Hl Hn (ds & c & o & e & cs & junk & Hch & Hf & _ & Hz & Hcs & Hcont) Hmax Hlen.
  rewrite (ReadFile_take fuel s W comps fn base ex d ds Hwf Hfuel Hm Hl Hch Hn c o e cs maxLen Hf Hcs) by lia. rewrite Hz, Z.min_l, Nat2Z.id by lia.
  rewrite (Hcont : content s (entry_cluster e :: cs) = _). by rewrite take_app_length.
Qed.
Lemma ext_state (W : Z -> Prop) s s' : ext W s s' -> s' = set_dev (dev s') s.
Proof. intros He. apply (ext_kept _ _ _ He). Qed.

(** C12: A new file reads back, in the root or any directory below it: [WriteFile]
    returns the length and [ReadFile] of the same path then gives the data, or
    the allocation table is full; every cluster in use outside the directory
    keeps its table entry and its bytes, and the copies of the table stay
    equal. *)
Theorem WriteFile_ReadFile_32 fuel s comps fn base ex d ds data :
  fat_wf s -> (Z.to_nat (entries s) < fuel)%nat -> mountedFlag s = true ->
  leads s (fun c => c ∈ d :: ds) (rootCluster (bpb s)) comps d -> chain s (d :: ds) -> named fn base ex ->
  find_spec s (has_name (name83 base ex)) (d :: ds) = None -> Forall byte data -> data <> [] -> Z.of_nat (length data) + bytesPerCluster s < 2 ^ 32 ->
  exists r s', WriteFile fuel (Some (47 :: join comps fn)) (Some data) s = Some (r, s') /\ ext (fun c => c ∈ d :: ds) s s' /\
    match r with
    | Some n => n = Z.of_nat (length data) /\ forall maxLen, n <= maxLen -> ReadFile fuel (Some (47 :: join comps fn)) maxLen s' = Some (Some data, s')
    | None => full s'
    end.
Proof.
  intros Hok Hfuel Hm Hl Hch Hn Hnone Hb Hd Hlen. assert (Hwf : vol_wf s) by exact Hok. pose proof (chain_fits fuel s Hwf Hfuel _ Hch). pose proof Hn as (_ & _ & Hg). pose proof (bytes32 s Hok). pose proof (wf_spc s Hok).
  destruct (new_file_ok fuel d ds base ex data s Hwf Hch ltac:(lia) Hg Hb Hd ltac:(lia) Hnone) as (r & s' & E & He & Hr).
  exists r, s'. split; [|split; [exact He|]].
  - destruct data as [|x data]; [done|]. rewrite (WriteFile_begin fuel s (fun c => c ∈ d :: ds) comps fn base ex d ds) by done. rewrite (find_spec_impl s _ (has_name (name83 base ex))); [exact E| |done].
    intros e. unfold has_short, has_name. rewrite !bool_decide_eq_true. by apply merged_good.
  - destruct r as [n|]; [|done]. destruct Hr as [-> Hst]. split; [done|]. intros maxLen Hmax. pose proof (ext_state _ _ _ He) as Es.
    apply (stored_prefix fuel s' (fun c => c ∈ d :: ds) comps fn base ex d data maxLen); try done.
    + by apply (ext_wf _ _ _ He).
    + by rewrite (ext_entries _ _ _ He).
    + by rewrite Es.
    + replace (rootCluster (bpb s')) with (rootCluster (bpb s)) by (by rewrite Es). by apply (leads_ext _ s).
    + by rewrite (ext_bpc _ _ _ He : bytesPerCluster s' = bytesPerCluster s).
Qed.

(** The directory of a file and the clusters of the file. *)
Definition dir_or_file (d : Z) ds e cs : Z -> Prop := fun b => b ∈ d :: ds \/ b ∈ entry_cluster e :: cs.

(** Data written to an existing file whose last cluster is partly used goes
    behind what it holds. *)
Theorem WriteFile_appends_32 fuel s comps fn base ex d ds c o e cs old junk data :
  fat_wf s -> (Z.to_nat (entries s) < fuel)%nat -> mountedFlag s = true -> leads s (dir_or_file d ds e cs) (rootCluster (bpb s)) comps d -> chain s (d :: ds) -> named fn base ex ->
  holds s d ds base ex c o e cs old junk -> Z.land (entry_attr e) 0x20 <> 0 -> Z.of_nat (length old) mod bytesPerCluster s <> 0 ->
  Forall byte data -> data <> [] -> Z.of_nat (length (old ++ data)) + bytesPerCluster s < 2 ^ 32 ->
  exists r s', WriteFile fuel (Some (47 :: join comps fn)) (Some data) s = Some (r, s') /\ ext (dir_or_file d ds e cs) s s' /\
    match r with
    | Some n => n = Z.of_nat (length data) /\
        forall maxLen, Z.of_nat (length (old ++ data)) <= maxLen -> ReadFile fuel (Some (47 :: join comps fn)) maxLen s' = Some (Some (old ++ data), s')
    | None => full s'
    end.
Proof.
  intros Hok Hfuel Hm Hl Hch Hn Hh Hattr Hmod Hb Hd Hlen. assert (Hwf : vol_wf s) by exact Hok. pose proof (bytes32 s Hok). pose proof (wf_spc s Hok). pose proof Hlen as Hlen'. rewrite length_app in Hlen'.
  pose proof (h_size _ _ _ _ _ _ _ _ _ _ _ Hh) as Hsize. pose proof (h_pos _ _ _ _ _ _ _ _ _ _ _ Hh) as Hpos.
  destruct (append_entry_ok fuel s d ds base ex c o e cs old junk data Hwf Hch Hh Hb ltac:(lia) (chain_fits fuel s Hwf Hfuel _ (h_chain _ _ _ _ _ _ _ _ _ _ _ Hh))) as (r & s' & E & He & Hr).
  exists r, s'. split; [|split; [exact He|]].
  - destruct data as [|x data]; [done|]. rewrite (WriteFile_begin fuel s (dir_or_file d ds e cs) comps fn base ex d ds) by done. rewrite (h_short _ _ _ _ _ _ _ _ _ _ _ Hh), (proj2 (Z.eqb_neq _ _) Hattr).
    rewrite Hsize in E |- *. change (cluster_bytes s) with (bytesPerCluster s) in E. rewrite (proj2 (Z.eqb_neq _ _) Hmod) in E. rewrite (proj2 (Z.ltb_lt 0 _)) by (destruct old; [done|cbn; lia]). exact E.
  - destruct r as [n|]; [|done]. destruct Hr as [-> Hst]. split; [done|]. intros maxLen Hmax. pose proof (ext_state _ _ _ He) as Es.
    apply (stored_prefix fuel s' (dir_or_file d ds e cs) comps fn base ex d (old ++ data) maxLen); try done.
    + by apply (ext_wf _ _ _ He).
    + by rewrite (ext_entries _ _ _ He).
    + by rewrite Es.
    + replace (rootCluster (bpb s')) with (rootCluster (bpb s)) by (by rewrite Es). by apply (leads_ext _ s).
    + by rewrite (ext_bpc _ _ _ He : bytesPerCluster s' = bytesPerCluster s).
Qed.

(** Data written to a file that fills its clusters destroys the file: up to a
    cluster of new data replaces the first bytes of the last cluster, and the
    file then reads as old content with a part overwritten, though [WriteFile]
    reports the data as appended. *)
Theorem WriteFile_overwrites fuel s comps fn base ex d ds c o e cs old junk data :
  fat_wf s -> (Z.to_nat (entries s) < fuel)%nat -> mountedFlag s = true -> leads s (dir_or_file d ds e cs) (rootCluster (bpb s)) comps d -> chain s (d :: ds) -> named fn base ex ->
  holds s d ds base ex c o e cs old junk -> Z.land (entry_attr e) 0x20 <> 0 -> Z.of_nat (length old) mod bytesPerCluster s = 0 ->
  Forall byte data -> data <> [] -> Z.of_nat (length data) <= bytesPerCluster s -> Z.of_nat (length (old ++ data)) + bytesPerCluster s < 2 ^ 32 ->
  let keep := (length old - Z.to_nat (bytesPerCluster s))%nat in
  exists s', WriteFile fuel (Some (47 :: join comps fn)) (Some data) s = Some (Some (Z.of_nat (length data)), s') /\
    forall maxLen, Z.of_nat (length (old ++ data)) <= maxLen ->
      ReadFile fuel (Some (47 :: join comps fn)) maxLen s' = Some (Some (take keep old ++ data ++ drop (keep + length data) old), s').
Proof.
  intros Hok Hfuel Hm Hl Hch Hn Hh Hattr Hmod Hb Hd Hle Hlen keep. assert (Hwf : vol_wf s) by exact Hok. pose proof (bytes32 s Hok). pose proof (wf_spc s Hok). pose proof Hlen as Hlen'. rewrite length_app in Hlen'.
  pose proof (h_size _ _ _ _ _ _ _ _ _ _ _ Hh) as Hsize. pose proof (h_pos _ _ _ _ _ _ _ _ _ _ _ Hh) as Hpos. rewrite <-Hsize in Hmod.
  destruct (append_entry_overwrites fuel s d ds base ex c o e cs old junk data Hwf Hch Hh Hb Hmod Hle ltac:(lia) (chain_fits fuel s Hwf Hfuel _ (h_chain _ _ _ _ _ _ _ _ _ _ _ Hh)))
    as (s' & e' & E & He & Hch' & Hf' & Hst' & Hsz' & Hcs' & Hcont').
  pose proof (ext_state _ _ _ He) as Es. exists s'. split.
  - destruct data as [|x data]; [done|]. rewrite (WriteFile_begin fuel s (dir_or_file d ds e cs) comps fn base ex d ds) by done. rewrite (h_short _ _ _ _ _ _ _ _ _ _ _ Hh), (proj2 (Z.eqb_neq _ _) Hattr).
    rewrite (proj2 (Z.ltb_lt 0 _)) by (rewrite Hsize; destruct old; [done|cbn; lia]). exact E.
  - intros maxLen Hmax. rewrite length_app in Hmax. assert (Hent : entry_cluster e' = entry_cluster e) by exact Hst'.
    rewrite (ReadFile_take fuel s' (dir_or_file d ds e cs) comps fn base ex d ds) with (c := c) (o := o) (e := e') (cs := cs); try done.
    + rewrite Hent. rewrite (Hcont' : content s' (entry_cluster e :: cs) = _). rewrite take_ge; [done|]. rewrite !length_app, length_take, length_drop, Hsz'. fold keep. lia.
    + by apply (ext_wf _ _ _ He).
    + by rewrite (ext_entries _ _ _ He).
    + by rewrite Es.
    + replace (rootCluster (bpb s')) with (rootCluster (bpb s)) by (by rewrite Es). by apply (leads_ext _ s).
    + by rewrite Hent.
    + lia.
    + rewrite (ext_bpc _ _ _ He : bytesPerCluster s' = bytesPerCluster s). lia.
    + lia.
Qed.

(** ** Renaming *)

(** [n1/n2/.../nk]. *)
Fixpoint dir_path (comps : list (list Z)) : list Z :=
  match comps with [] => [] | [n] => n | n :: rest => n ++ 47 :: dir_path rest end.

Lemma dir_path_cons n m rest : dir_path (n :: m :: rest) = n ++ 47 :: dir_path (m :: rest).
Proof. done. Qed.
Lemma join_dir n comps fn : join (n :: comps) fn = dir_path (n :: comps) ++ 47 :: fn.
Proof. revert n. induction comps as [|m rest IH]; intros n; [done|]. rewrite dir_path_cons, <-app_assoc. cbn [app]. rewrite <-IH. done. Qed.

Lemma last_slash_app i (l : option nat) p r : last_slash i l (p ++ r) = last_slash (i + length p) (last_slash i l p) r.
Proof. revert i l. induction p as [|x p IH]; intros i l; cbn [app last_slash length]; [by rewrite Nat.add_0_r|]. rewrite IH. f_equal. lia. Qed.
Lemma last_slash_none i (l : option nat) p : Forall (fun x => x <> 47) p -> last_slash i l p = l.
Proof. intros Hp. revert i l. induction Hp as [|x p Hx Hp IH]; intros i l; [done|]. cbn [last_slash]. by rewrite (proj2 (Z.eqb_neq x 47) Hx). Qed.

Lemma split_path comps fn : Forall good_comp comps -> good_comp fn -> (length (dir_path comps) < 159)%nat ->
  split_parent_basename (47 :: join comps fn) 160 32 = (47 :: dir_path comps, fn).
Proof.
  intros Hc (_ & Hl & Hf) Hlen. unfold split_parent_basename. destruct comps as [|n comps].
  - cbn [join foldr last_slash]. change (47 =? 47) with true. cbn iota. rewrite last_slash_none by done. cbn [drop dir_path]. by rewrite drop_0, take_ge by lia.
  - rewrite join_dir. change (47 :: dir_path (n :: comps) ++ 47 :: fn) with ((47 :: dir_path (n :: comps)) ++ 47 :: fn). set (q := 47 :: dir_path (n :: comps)) in *.
    rewrite last_slash_app. cbn [last_slash]. change (47 =? 47) with true. cbn iota. rewrite last_slash_none by done. cbn [Nat.add]. assert (Hq : (1 <= length q <= 159)%nat) by (subst q; cbn [length]; lia).
    destruct (length q) as [|i] eqn:Eq; [lia|]. rewrite <-Eq. rewrite take_app_length. rewrite (take_ge q) by lia. replace (S (length q)) with (length q + 1)%nat by lia. rewrite <-drop_drop, drop_app_length. cbn [drop]. rewrite drop_0.
    by rewrite take_ge by lia.
Qed.

Section Rename.
Context (fuel : nat) (s : st) (W : Z -> Prop).
Hypotheses (Hwf : vol_wf s) (Hfuel : (Z.to_nat (entries s) < fuel)%nat).

Lemma walk_all_unfold n d p : p <> [] -> walk_all (S n) fuel d p =
  let '(comp, rest) := next_comp p in
  if decide (comp = []) then walk_all n fuel d rest
  else let? child := FindShortNameInDirCluster fuel d comp or None in walk_all n fuel (fst child) rest.
Proof. by destruct p. Qed.
Lemma walk_all_leads comps d d' n : leads s W d comps d' -> (length (dir_path comps) <= n)%nat -> walk_all n fuel d (dir_path comps) s = Some (Some d', s).
Proof.
  intros Hl. pose proof (leads_good s W _ _ _ Hl) as Hg. revert n d Hl. induction Hg as [|c0 rest Hc0 Hrest IH]; intros n d Hl Hn.
  - cbn in Hl. subst. by destruct n.
  - destruct Hl as (_ & ds & c & o & e & Hch & _ & Hfind & Hl). pose proof Hc0 as (Hne & _).
    assert (Hstep : dir_path (c0 :: rest) <> [] /\ next_comp (dir_path (c0 :: rest)) = (upper <$> c0, dir_path rest) /\ (length (dir_path rest) < length (dir_path (c0 :: rest)))%nat).
    { destruct rest as [|m rest]; [cbn; split_and!; [done|by apply comp_end|by destruct c0; [|cbn; lia]]|]. rewrite dir_path_cons, comp_slash, length_app by done. split_and!; [by destruct c0|done|cbn [length]; lia]. }
    destruct Hstep as (Hp & En & Hlt). destruct n as [|n]; [lia|]. rewrite walk_all_unfold, En by done. rewrite decide_False by (by apply upper_nonempty).
    rewrite (bind_step _ _ _ _ _ (find_name fuel s Hwf Hfuel d ds _ Hch)), Hfind. cbn [fmap option_fmap option_map fst snd]. apply IH; [done|lia].
Qed.
Lemma walk_to_leads comps d : leads s W (rootCluster (bpb s)) comps d -> walk_to_dir fuel (47 :: dir_path comps) s = Some (Some d, s).
Proof.
  intros Hl. unfold walk_to_dir. rewrite gets_step. case_decide as E.
  - injection E as E. destruct comps as [|n comps]; [by cbn in Hl; subst|]. destruct Hl as ((Hne & _) & _). destruct comps; [done|]. rewrite dir_path_cons in E. by destruct n.
  - cbn [skip_slash]. change (47 =? 47) with true. cbn iota zeta. by apply walk_all_leads.
Qed.
End Rename.

(** An entry of a directory gets another name. *)
Lemma rename_entry s (d : Z) ds sh base ex c o e : vol_wf s -> chain s (d :: ds) -> find_spec s (has_short sh) (d :: ds) = Some (c, o, e) -> good83 base ex ->
  find_spec s (has_name (name83 base ex)) (d :: ds) = None ->
  exists s' e', patch_entry c o (short_name base ex) s = Some (true, s') /\ ext (eq c) s s' /\ (forall b, 0 <= b < entries s -> fat s' b = fat s b) /\ c ∈ d :: ds /\
    find_spec s' (has_name (name83 base ex)) (d :: ds) = Some (c, o, e') /\ take 11 e' = short_name base ex /\
    entry_attr e' = entry_attr e /\ entry_cluster e' = entry_cluster e /\ entry_size e' = entry_size e /\
    forall Q, Q e = false -> Q e' = false -> find_spec s' Q (d :: ds) = find_spec s Q (d :: ds).
Proof.
  intros Hwf Hch Hf Hg Hnone. destruct (short_name_ok base ex Hg) as (S1 & S2 & S3).
  destruct (patch_entry_ok s (has_short sh) (d :: ds) c o e 0 (short_name base ex) Hwf Hch Hf ltac:(lia) S2) as (s' & E & He & Hfat & Hin & Hw & Hlen & Ee & Hv & _).
  assert (Hby : forall i, (i < 32)%nat -> byte_at (entry_at (clus s' c) o) i = if decide (i < 11)%nat then byte_at (short_name base ex) i else byte_at e i).
  { intros i Hi. rewrite Hw, entry_patch by lia. rewrite S1, Ee, Nat.sub_0_r. repeat case_decide; try lia; done. }
  assert (Hout : same_outside (clus s c) (clus s' c) o) by (rewrite Hw; apply patch_outside; lia).
  assert (Ht : take 11 (entry_at (clus s' c) o) = short_name base ex).
  { apply byte_at_ext; [rewrite length_take, entry_length; [lia|rewrite Hw, patch_length by lia; done]|]. intros i Hi. rewrite length_take in Hi.
    replace (byte_at (take 11 _) i) with (byte_at (entry_at (clus s' c) o) i) by (unfold byte_at; by rewrite lookup_take_lt by lia). rewrite Hby by lia. by rewrite decide_True by lia. }
  assert (Hv' : visible (entry_at (clus s' c) o)) by (unfold visible in *; rewrite !Hby by lia; repeat (case_decide; try lia)).
  assert (Hq : has_name (name83 base ex) (entry_at (clus s' c) o) = true) by (unfold has_name; apply bool_decide_eq_true_2; by apply merged_good).
  rewrite Nat.add_0_r in E. exists s', (entry_at (clus s' c) o). split_and!; try done.
  - by apply (find_gets s s' (has_short sh) (d :: ds) c o e).
  - unfold entry_attr. rewrite Hby by lia. by rewrite decide_False by lia.
  - unfold entry_cluster, get16. rewrite !Hby by lia. by rewrite !decide_False by lia.
  - unfold entry_size, get32. rewrite !Hby by lia. by rewrite !decide_False by lia.
  - intros Q HQ HQ'. apply (find_keep s s' (has_short sh) (d :: ds) c o e); try done. by right.
Qed.

(** Renaming an entry within its directory keeps the file: [Rename] succeeds,
    the new path reads what the chain of the entry held, every other name of
    the directory leads where it did, and no cluster but the one of the entry
    and no part of the table changes. *)
Theorem Rename_same_directory fuel s comps fn base ex fn' base' ex' d ds c o e cs :
  fat_wf s -> (Z.to_nat (entries s) < fuel)%nat -> mountedFlag s = true -> leads s (fun b => b ∈ d :: ds) (rootCluster (bpb s)) comps d -> chain s (d :: ds) ->
  named fn base ex -> named fn' base' ex' -> (length (dir_path comps) < 159)%nat ->
  find_spec s (has_short (short_name base ex)) (d :: ds) = Some (c, o, e) -> find_spec s (has_name (name83 base' ex')) (d :: ds) = None ->
  chain s (entry_cluster e :: cs) -> (forall b, b ∈ entry_cluster e :: cs -> b ∉ d :: ds) ->
  exists s', Rename fuel (Some (47 :: join comps fn)) (Some (47 :: join comps fn')) s = Some (true, s') /\ ext (eq c) s s' /\
    (forall b, 0 <= b < entries s -> fat s' b = fat s b) /\
    (forall n, n <> name83 base ex -> n <> name83 base' ex' -> find_spec s' (has_name n) (d :: ds) = find_spec s (has_name n) (d :: ds)) /\
    forall maxLen, 0 <= maxLen -> Z.min (entry_size e) maxLen + bytesPerCluster s < 2 ^ 32 ->
      ReadFile fuel (Some (47 :: join comps fn')) maxLen s' = Some (Some (take (Z.to_nat (Z.min (entry_size e) maxLen)) (content s (entry_cluster e :: cs))), s').
Proof.
  intros Hok Hfuel Hm Hl Hch Hn Hn' Hlen Hf Hnone Hcs Hapart. assert (Hwf : vol_wf s) by exact Hok. pose proof Hn as (Hg & Efn & Hg83). pose proof Hn' as (Hg' & Efn' & Hg83'). pose proof (leads_good s _ _ _ _ Hl) as Hcomps.
  destruct (rename_entry s d ds (short_name base ex) base' ex' c o e Hwf Hch Hf Hg83' Hnone) as (s' & e' & E & He & Hfat & Hin & Hf' & Ht' & Ha' & Hc' & Hz' & Hkeep).
  exists s'. split_and!; [|done|done| |].
  - unfold Rename. rewrite gets_step, Hm. cbn [negb head]. rewrite bool_decide_eq_true_2 by done. cbn [negb orb]. rewrite !split_path by done.
    rewrite !decide_False by (first [apply Hg | apply Hg']). rewrite !(bind_step _ _ _ _ _ (walk_to_leads fuel s _ Hwf Hfuel comps d Hl)). cbn zeta. rewrite Efn, Efn'.
    rewrite !pack_good by done. fold (short_name base ex) (short_name base' ex'). rewrite (bind_step _ _ _ _ _ (find_short fuel s Hwf Hfuel d ds _ Hch)), Hf.
    rewrite (bind_step _ _ _ _ _ (find_name fuel s Hwf Hfuel d ds _ Hch)), Hnone. cbn [fmap option_fmap option_map]. rewrite Z.eqb_refl. exact E.
  - intros n Hne Hne'. apply find_spec_in in Hf as [_ Hsc]. apply scan_found in Hsc as (_ & HP & _). unfold has_short in HP. apply bool_decide_eq_true in HP.
    apply Hkeep; unfold has_name; apply bool_decide_eq_false_2; [rewrite (merged_good base ex)|rewrite (merged_good base' ex')]; done.
  - intros maxLen Hmax Hsz. pose proof (ext_state _ _ _ He) as Es. assert (Hwf' : vol_wf s') by (by apply (ext_wf _ _ _ He)).
    assert (He2 : ext (fun b => b ∈ d :: ds) s s') by (apply (ext_weaken _ _ _ _ He); by intros ? <-).
    destruct (chain_ext _ s s' (entry_cluster e :: cs) He2 Hapart Hcs) as [Hcs' Hcont']. rewrite <-Hcont', <-Hc', <-Hz'.
    apply (ReadFile_take fuel s' (fun b => b ∈ d :: ds) comps fn' base' ex' d ds) with (c := c) (o := o); try done.
    + by rewrite (ext_entries _ _ _ He).
    + by rewrite Es.
    + replace (rootCluster (bpb s')) with (rootCluster (bpb s)) by (by rewrite Es). by apply (leads_ext _ s).
    + by apply (chain_same_fat s); [apply (ext_entries _ _ _ He)|..].
    + by rewrite Hc'.
    + rewrite (ext_bpc _ _ _ He : bytesPerCluster s' = bytesPerCluster s), Hz'. done.
    + rewrite Hz'. apply find_spec_in in Hf as [_ Hsc]. apply scan_found in Hsc as (-> & _). unfold entry_size. apply get32_range, Forall_take, Forall_drop, (clus_byte s).
Qed.

(** ** Making directories *)

Lemma leads_snoc s (W : Z -> Prop) comps d d1 fn ds c o e : leads s W d comps d1 -> good_comp fn -> chain s (d1 :: ds) -> (forall b, b ∈ d1 :: ds -> ~ W b) ->
  find_spec s (has_name (upper <$> fn)) (d1 :: ds) = Some (c, o, e) -> leads s W d (comps ++ [fn]) (entry_cluster e).
Proof.
  intros Hl Hg Hch Hw Hf. revert d Hl. induction comps as [|n rest IH]; intros d Hl.
  - cbn in Hl. subst d1. cbn [app leads]. split; [done|]. by exists ds, c, o, e.
  - destruct Hl as (Hn & ds' & c' & o' & e' & Hc' & Hw' & Hf' & Hl). split; [done|]. exists ds', c', o', e'. split_and!; try done. by apply IH.
Qed.
Lemma leads_weaken s (W : Z -> Prop) comps d d' : leads s W d comps d' -> leads s (fun _ => False) d comps d'.
Proof.
  revert d. induction comps as [|n rest IH]; intros d; [done|]. intros (Hn & ds & c & o & e & Hc & Hw & Hf & Hl). split; [done|]. exists ds, c, o, e. split_and!; auto.
Qed.
Lemma dir_path_snoc comps fn : dir_path (comps ++ [fn]) = join comps fn.
Proof.
  induction comps as [|n rest IH]; [done|]. change (join (n :: rest) fn) with (n ++ 47 :: join rest fn). rewrite <-IH. destruct rest; done.
Qed.

(** The cluster of a new directory. *)
Lemma InitDirCluster_ok s cl parent : vol_wf s -> 2 <= cl < entries s -> 0 <= parent < 2 ^ 32 -> bytesPerCluster s <= 4096 ->
  exists s', InitDirCluster cl parent s = Some (true, s') /\ ext (eq cl) s s' /\ (forall b, 0 <= b < entries s -> fat s' b = fat s b) /\
    find_spec s' (has_short (dot_name 2)) [cl] = Some (cl, 32%nat, entry_at (clus s' cl) 32) /\ entry_cluster (entry_at (clus s' cl) 32) = parent.
Proof.
  intros Hwf Hc Hp Hb. unfold InitDirCluster. rewrite gets_step, (proj2 (Z.ltb_ge 4096 _) Hb). set (b0 := replicate _ _). pose proof (bytes_pos s Hwf) as HB. change (cluster_bytes s) with (bytesPerCluster s) in HB.
  pose proof (entries_le s Hwf) as He. change (eoc (V := st)) with 0x0FFFFFF8 in He. assert (Hb0 : Forall byte b0) by (apply Forall_replicate; lia). assert (Hl0 : length b0 = Z.to_nat (bytesPerCluster s)) by apply length_replicate.
  assert (Hd : forall n, (n <= 2)%nat -> Forall byte (dot_name n) /\ length (dot_name n) = 11%nat) by (intros n Hn; do 3 (destruct n as [|n]; [split; [repeat constructor; lia|done]|]); lia).
  destruct (write_entry32_ok b0 0 (dot_name 1) 0x10 cl 0) as (L1 & B1 & O1 & N1); try (done || lia || apply Hd; lia).
  set (b1 := write_entry32 b0 0 _ _ _ _) in *. destruct (write_entry32_ok b1 32 (dot_name 2) 0x10 parent 0) as (L2 & B2 & O2 & N2); try (done || lia || apply Hd; lia).
  set (b2 := write_entry32 b1 32 _ _ _ _) in *. destruct (write_ext s cl b2 Hwf Hc) as (s' & E & Hx & Hw & Hf); [rewrite L2, L1, Hl0; change (cluster_bytes s) with (bytesPerCluster s); lia|done|].
  exists s'. split_and!; try done; [|rewrite Hw; apply N2]. cbn [find_spec]. rewrite (slots_ext _ _ _ Hx), Hw. pose proof (slots_value s Hwf) as Hsl. change (cluster_bytes s) with (bytesPerCluster s) in Hsl.
  assert (E0 : entry_at b2 0 = entry_at b1 0) by (apply (entry_outside b1 b2 32 0 O2); lia). assert (Hvis : forall e n sc sz, (1 <= n <= 2)%nat -> entry_holds entry_cluster (dot_name n) 0x10 sc sz e -> visible e).
  { intros e n sc sz Hn (Ht & Ha & _). assert (Hb1 : byte_at e 0 = 46) by (replace (byte_at e 0) with (byte_at (take 11 e) 0) by (unfold byte_at; by rewrite lookup_take_lt by lia); rewrite Ht; destruct n as [|[|[|n]]]; done || lia).
    unfold visible. unfold entry_attr in Ha. rewrite Hb1, Ha. done. }
  assert (Hs : exists k, slots s = S (S k)) by (exists (slots s - 2)%nat; lia). destruct Hs as [k ->].
  rewrite scan_visible, E0 by (rewrite E0; eapply (Hvis _ 1%nat); [lia|exact N1]). destruct N1 as (T1 & _). unfold has_short at 1. rewrite T1. rewrite bool_decide_eq_false_2 by done. cbn [Nat.add].
  rewrite scan_visible by (eapply (Hvis _ 2%nat); [lia|exact N2]). destruct N2 as (T2 & _). unfold has_short. by rewrite T2, bool_decide_eq_true_2.
Qed.

Section Mkdir.
Context (fuel : nat) (s : st) (W : Z -> Prop) (d : Z) (ds : list Z).
Hypotheses (Hwf : vol_wf s) (Hfuel : (Z.to_nat (entries s) < fuel)%nat) (Hch : chain s (d :: ds)).

Lemma mkdir_unfold n parents cur p : p <> [] -> mkdir_loop (S n) fuel parents cur p =
  let '(comp, rest) := next_comp p in
  if decide (comp = []) then mkdir_loop n fuel parents cur rest
  else
    let! found := FindShortNameInDirCluster fuel cur comp in
    match found with
    | Some (childCl, _) => mkdir_loop n fuel parents childCl rest
    | None =>
        if negb parents && negb (is_last rest) then ret false
        else match PackShortName11 comp with
        | None => ret false
        | Some short11 =>
            let! newCl := AllocateCluster in
            if newCl <? 2 then ret false
            else
              check (InitDirCluster newCl cur) or false in
              check (AddEntryToDirCluster fuel cur short11 newCl true) or false in
              mkdir_loop n fuel parents newCl rest
        end
    end.
Proof. by destruct p. Qed.
(** The loop goes through the directories that exist. *)
Lemma mkdir_leads parents comps fn cur n : leads s W cur comps d -> good_comp fn -> (length (join comps fn) <= n)%nat ->
  exists m, mkdir_loop n fuel parents cur (join comps fn) s = mkdir_loop (S m) fuel parents d fn s.
Proof.
  intros Hl Hf. pose proof (leads_good s W _ _ _ Hl) as Hg. revert n cur Hl. induction Hg as [|c0 rest Hc0 Hrest IH]; intros n cur Hl Hn.
  - cbn in Hl, Hn |- *. subst cur. pose proof Hf as (Hne & _). destruct n as [|n]; [destruct fn; [done|cbn in Hn; lia]|]. by exists n.
  - destruct Hl as (_ & ds' & c & o & e & Hch' & _ & Hfind & Hl). cbn [join foldr] in Hn |- *. fold (join rest fn) in *. rewrite length_app in Hn. cbn [length] in Hn. destruct n as [|n]; [lia|].
    destruct (IH n (entry_cluster e) Hl ltac:(lia)) as [m Em]. exists m. rewrite <-Em. rewrite mkdir_unfold, (comp_slash c0 _ Hc0) by (by destruct c0). rewrite decide_False by (by apply upper_nonempty).
    by rewrite (bind_step _ _ _ _ _ (find_name fuel s Hwf Hfuel cur ds' _ Hch')), Hfind.
Qed.
End Mkdir.

Lemma DirExists_leads fuel s W comps fn d : vol_wf s -> (Z.to_nat (entries s) < fuel)%nat -> mountedFlag s = true -> leads s W (rootCluster (bpb s)) (comps ++ [fn]) d ->
  DirExists fuel (Some (47 :: join comps fn)) s = Some (true, s).
Proof.
  intros Hwf Hfuel Hm Hl. unfold DirExists. rewrite gets_step, Hm. cbn [negb]. rewrite <-dir_path_snoc. by rewrite (bind_step _ _ _ _ _ (walk_to_leads fuel s W Hwf Hfuel _ d Hl)).
Qed.

(** C38: [Mkdir] makes a directory below an existing one: its entry leads to a
    cluster of its own whose entry [..] leads back, [DirExists] then finds the
    path, and no cluster in use outside the parent changes; the only failure is
    a full table.  Clusters have at most the 4096 bytes of the buffer. *)
Theorem Mkdir_spec fuel s comps fn base ex d ds parents :
  fat_wf s -> (Z.to_nat (entries s) < fuel)%nat -> mountedFlag s = true -> leads s (fun c => c ∈ d :: ds) (rootCluster (bpb s)) comps d -> chain s (d :: ds) -> named fn base ex ->
  find_spec s (has_name (name83 base ex)) (d :: ds) = None -> bytesPerCluster s <= 4096 ->
  exists r s', Mkdir fuel (Some (47 :: join comps fn)) parents s = Some (r, s') /\ ext (fun c => c ∈ d :: ds) s s' /\
    if r then DirExists fuel (Some (47 :: join comps fn)) s' = Some (true, s') /\
      exists ds' c o e up, chain s' (d :: ds') /\ find_spec s' (has_name (name83 base ex)) (d :: ds') = Some (c, o, e) /\ is_dir e = true /\ chain s' [entry_cluster e] /\
        fat s (entry_cluster e) = 0 /\ find_spec s' (has_short (dot_name 2)) [entry_cluster e] = Some (entry_cluster e, 32%nat, up) /\ entry_cluster up = d
    else full s'.
Proof.
  intros Hok Hfuel Hm Hl Hch Hn Hnone Hbpc. assert (Hwf : vol_wf s) by exact Hok. pose proof Hn as (Hg & Efn & Hg83). destruct (short_name_ok base ex Hg83) as (S1 & S2 & S3).
  destruct (mkdir_leads fuel s _ d Hwf Hfuel (negb (parents =? 0)) comps fn _ _ Hl Hg (Nat.le_refl _)) as [m Em]. unfold Mkdir. rewrite gets_step, Hm. cbn [negb]. rewrite gets_step. cbn [skip_slash]. change (47 =? 47) with true.
  cbn iota zeta. rewrite Em, mkdir_unfold, (comp_end fn Hg) by apply Hg. rewrite decide_False by (by apply upper_nonempty). rewrite (bind_step _ _ _ _ _ (find_name fuel s Hwf Hfuel d ds _ Hch)), Efn, Hnone.
  cbn [fmap option_fmap option_map]. change (is_last []) with true. cbn [negb]. rewrite andb_false_r, (pack_good _ _ Hg83). fold (short_name base ex). clear Em.
  destruct (alloc_ext s Hwf) as [(nc & s1 & E1 & Hnc & Hz & He1 & Ht1 & _)|[E1 Hfull]]; rewrite (bind_step _ _ _ _ _ (E1 : AllocateCluster s = _)).
  2:{ exists false, s. split; [done|]. split; [apply ext_refl|done]. }
  rewrite (proj2 (Z.ltb_ge nc 2)) by lia. pose proof (ext_wf _ _ _ He1 Hwf) as Hwf1. pose proof (ext_entries _ _ _ He1) as Ge1. pose proof (entries_le s Hwf) as Hent. change (eoc (V := st)) with 0x0FFFFFF8 in Hent.
  pose proof (chain_used _ _ Hch) as Hu. assert (Hdr : 2 <= d < entries s) by (by apply Forall_cons in Hu as [[? _] _]). rewrite Forall_forall in Hu.
  destruct (InitDirCluster_ok s1 nc d Hwf1) as (s2 & E2 & He2 & Hf2 & Hup & Hpar); [lia|lia|by rewrite (ext_bpc _ _ _ He1 : bytesPerCluster s1 = bytesPerCluster s)|]. rewrite (bind_step _ _ _ _ _ E2).
  pose proof (ext_wf _ _ _ He2 Hwf1) as Hwf2. pose proof (ext_entries _ _ _ He2) as Ge2. assert (He02 : ext (fun _ => False) s s2) by (eapply ext_trans; [exact He1|exact He2|]; intros c <-; by right).
  destruct (chain_ext _ _ _ _ He02 (fun _ _ Hf => Hf) Hch) as [Hch2 _]. pose proof (chain_fits fuel s Hwf Hfuel _ Hch) as Hfit.
  destruct (add_entry_ok (V := st) (short_name base ex) 0x10 nc 0 S1 S2 S3) with (fuel := fuel) (d := d) (ds := ds) (s := s2) as (b & s3 & E3 & He3 & Hadd); try done; [change (eoc (V := st)) with 0x0FFFFFF8; lia|].
  unfold AddEntryToDirCluster. rewrite (bind_step _ _ _ _ _ E3). assert (He03 : ext (fun c => c ∈ d :: ds) s s3) by (eapply ext_trans; [apply (ext_weaken _ _ _ _ He02); done|exact He3|by left]).
  destruct b; [|by exists false, s3]. exists true, s3. split; [by destruct m|]. split; [done|]. destruct Hadd as (ds' & e & c & o & Hch3 & _ & (N1 & N2 & N3 & _) & Hfind & _). change (get_start e) with (entry_cluster e) in N3.
  assert (Hfe : find_spec s3 (has_name (name83 base ex)) (d :: ds') = Some (c, o, e)).
  { apply Hfind; [unfold has_name; apply bool_decide_eq_true_2; by apply merged_good|]. rewrite <-Hnone. apply (find_spec_ext _ _ _ _ _ He02); [intros ? ? []|by apply chain_used]. }
  assert (Hnd : nc ∉ d :: ds) by (intros Hin; by destruct (Hu nc Hin)). assert (Hnc2 : chain s2 [nc]) by (split; [lia|]; rewrite Hf2, Ht1, decide_True by (done || lia); apply eoc_le).
  assert (Hnn : forall b, b ∈ [nc] -> b ∉ d :: ds) by (intros b Hb; apply list_elem_of_singleton in Hb as ->; done). destruct (chain_ext _ s2 s3 [nc] He3 Hnn Hnc2) as [Hnc3 _].
  split; [|exists ds', c, o, e, (entry_at (clus s2 nc) 32); rewrite N3; split_and!; try done; [unfold is_dir; by rewrite N2|]].
  - pose proof (ext_state _ _ _ He03) as Es. apply (DirExists_leads fuel s3 (fun _ => False) comps fn (entry_cluster e)); [by apply (ext_wf _ _ _ He03)|by rewrite (ext_entries _ _ _ He03)|by rewrite Es|].
    replace (rootCluster (bpb s3)) with (rootCluster (bpb s)) by (by rewrite Es). apply (leads_snoc s3 _ comps _ d fn ds' c o e); try done; [|by intros ? _ []|by rewrite Efn].
    apply (leads_weaken s3 (fun c => c ∈ d :: ds)). by apply (leads_ext _ s).
  - rewrite (find_spec_ext _ _ _ _ _ He3); [done|done|]. constructor; [|done]. split; [lia|]. destruct Hnc2 as [_ Hnc2]. pose proof (eoc_le (V := st)). lia.
Qed.

(** ** Moving *)

(** An entry is deleted: other searches of the directory have the same result. *)
Lemma delete_entry s (d : Z) ds P c o e : vol_wf s -> chain s (d :: ds) -> find_spec s P (d :: ds) = Some (c, o, e) ->
  exists s', patch_entry c o [0xE5] s = Some (true, s') /\ ext (eq c) s s' /\ (forall b, 0 <= b < entries s -> fat s' b = fat s b) /\ c ∈ d :: ds /\
    (forall Q e', find_spec s' Q (d :: ds) <> Some (c, o, e')) /\ (forall Q, Q e = false -> find_spec s' Q (d :: ds) = find_spec s Q (d :: ds)) /\
    forall Q cs, chain s cs -> (forall e', find_spec s Q cs <> Some (c, o, e')) -> find_spec s' Q cs = find_spec s Q cs.
Proof.
  intros Hwf Hch Hf. destruct (patch_entry_ok s P (d :: ds) c o e 0 [0xE5] Hwf Hch Hf) as (s' & E & He & Hfat & Hin & Hw & Hlen & Ee & Hv & _); [cbn; lia|repeat constructor; lia|].
  assert (H5 : byte_at (entry_at (clus s' c) o) 0 = 0xE5) by (rewrite Hw, entry_patch by (done || cbn; lia); by rewrite decide_True by (cbn; lia)).
  rewrite Nat.add_0_r in E. exists s'. split_and!; try done.
  - intros Q e' Hq. apply find_spec_in in Hq as [_ Hq]. apply scan_found in Hq as (_ & _ & _ & _ & Hq & _). rewrite byte_at_entry, Nat.add_0_r in H5 by lia. done.
  - intros Q HQ. apply (find_keep s s' P (d :: ds) c o e); try done; [|by left]. rewrite Hw. apply patch_outside; [done|cbn; lia].
  - intros Q cs Hcs Hq. apply find_spec_in in Hf as [_ Hf]. apply (find_deleted s s' P Q c o e); try done; [|by apply chain_used]. rewrite Hw. apply patch_outside; [done|cbn; lia].
Qed.

(** A path that does not use the deleted entry still leads where it did. *)
Lemma past_survives (W : Z -> Prop) s s1 s2 c o d comps d' : ext W s s1 -> (forall cs, chain s1 cs -> chain s2 cs) ->
  (forall Q cs, chain s1 cs -> (forall e', find_spec s1 Q cs <> Some (c, o, e')) -> find_spec s2 Q cs = find_spec s1 Q cs) ->
  leads_past s W c o d comps d' -> leads s2 (fun _ => False) d comps d'.
Proof.
  intros He Hc2 Hf2. revert d. induction comps as [|n rest IH]; intros d; [done|]. intros (Hn & ds & c1 & o1 & e & Hch & Hw & Hf & Hne & Hl). split; [done|].
  destruct (chain_ext _ _ _ _ He Hw Hch) as [Hch1 _]. assert (Hf1 : find_spec s1 (has_name (upper <$> n)) (d :: ds) = Some (c1, o1, e)) by (by rewrite (find_spec_ext _ _ _ _ _ He); [..|apply chain_used]).
  exists ds, c1, o1, e. split; [by apply Hc2|]. split; [by intros ? _ []|]. split; [|by apply IH]. rewrite Hf2, Hf1; [done|done|]. intros e' Hq. by simplify_eq.
Qed.

(** C37: A file moves to another directory: [Rename] succeeds and the new path reads
    what the chain of the file held, no lookup in the old directory finds the
    old entry, every other name there leads where it did; and so does every
    other name in the new directory, whose chain may have grown, if behind the
    end of its entries there are no more ([tidy]).  The only failure is a full
    table.  No cluster in use outside the two directories changes.  The path to
    the new directory does not use the entry that is removed and does not go
    through the new directory itself; it may go through the old one. *)
Theorem Rename_moves fuel s comps fn base ex comps' fn' base' ex' d ds d' ds' c o e cs :
  let W := fun b => b ∈ d :: ds \/ b ∈ d' :: ds' in
  fat_wf s -> (Z.to_nat (entries s) < fuel)%nat -> mountedFlag s = true ->
  leads s (fun _ => False) (rootCluster (bpb s)) comps d -> leads_past s (fun b => b ∈ d' :: ds') c o (rootCluster (bpb s)) comps' d' -> chain s (d :: ds) -> chain s (d' :: ds') -> (forall b, b ∈ d :: ds -> b ∉ d' :: ds') ->
  named fn base ex -> named fn' base' ex' -> (length (dir_path comps) < 159)%nat -> (length (dir_path comps') < 159)%nat ->
  find_spec s (has_short (short_name base ex)) (d :: ds) = Some (c, o, e) -> find_spec s (has_name (name83 base' ex')) (d' :: ds') = None ->
  Z.land (entry_attr e) 0x20 <> 0 -> chain s (entry_cluster e :: cs) -> (forall b, b ∈ entry_cluster e :: cs -> ~ W b) ->
  exists r s', Rename fuel (Some (47 :: join comps fn)) (Some (47 :: join comps' fn')) s = Some (r, s') /\ ext W s s' /\
    if r then
      (forall Q e', find_spec s' Q (d :: ds) <> Some (c, o, e')) /\
      (forall n, n <> name83 base ex -> find_spec s' (has_name n) (d :: ds) = find_spec s (has_name n) (d :: ds)) /\
      (exists ds2, chain s' (d' :: ds2) /\ ((forall b, b ∈ d' :: ds' -> tidy (slots s) (clus s b)) ->
        forall n, n <> name83 base' ex' -> find_spec s' (has_name n) (d' :: ds2) = find_spec s (has_name n) (d' :: ds'))) /\
      forall maxLen, 0 <= maxLen -> Z.min (entry_size e) maxLen + bytesPerCluster s < 2 ^ 32 ->
        ReadFile fuel (Some (47 :: join comps' fn')) maxLen s' = Some (Some (take (Z.to_nat (Z.min (entry_size e) maxLen)) (content s (entry_cluster e :: cs))), s')
    else full s'.
Proof.
  intros W Hok Hfuel Hm Hl Hl' Hch Hch' Hdisj Hn Hn' Hlen Hlen' Hf Hnone Hattr Hcs Hapart. pose proof (past_leads _ _ _ _ _ _ _ Hl') as Hl0. assert (Hwf : vol_wf s) by exact Hok. pose proof Hn as (Hg & Efn & Hg83). pose proof Hn' as (Hg' & Efn' & Hg83').
  destruct (short_name_ok base' ex' Hg83') as (S1 & S2 & S3). pose proof (find_spec_in _ _ _ _ _ _ Hf) as [_ Hsc]. apply scan_found in Hsc as (Ee & HP & _). unfold has_short in HP. apply bool_decide_eq_true in HP.
  assert (Hsz : 0 <= entry_size e < 2 ^ 32) by (rewrite Ee; unfold entry_size; apply get32_range, Forall_take, Forall_drop, (clus_byte s)). pose proof (entries_le s Hwf) as Hent. change (eoc (V := st)) with 0x0FFFFFF8 in Hent.
  assert (Hne : d <> d') by (intros ->; apply (Hdisj d'); set_solver). pose proof (chain_fits fuel s Hwf Hfuel _ Hch') as Hfit. assert (Hst : 2 <= entry_cluster e < entries s) by (by destruct Hcs).
  destruct (add_entry_ok (V := st) (short_name base' ex') 0x20 (entry_cluster e) (entry_size e) S1 S2 S3) with (fuel := fuel) (d := d') (ds := ds') (s := s) as (b & s1 & E1 & He1 & Hadd); try done; [change (eoc (V := st)) with 0x0FFFFFF8; lia|].
  assert (HR : forall r s', (check (AddFileEntryToDir fuel d' (short_name base' ex') (entry_cluster e) (entry_size e)) or false in patch_entry c o [0xE5]) s = Some (r, s') ->
    Rename fuel (Some (47 :: join comps fn)) (Some (47 :: join comps' fn')) s = Some (r, s')).
  { intros r s' E. unfold Rename. rewrite gets_step, Hm. cbn [negb head]. rewrite bool_decide_eq_true_2 by done. cbn [negb orb]. rewrite !split_path by (done || by eapply leads_good).
    rewrite !decide_False by (first [apply Hg | apply Hg']). rewrite (bind_step _ _ _ _ _ (walk_to_leads fuel s _ Hwf Hfuel comps d Hl)), (bind_step _ _ _ _ _ (walk_to_leads fuel s _ Hwf Hfuel comps' d' Hl0)). cbn zeta. rewrite Efn, Efn'.
    rewrite !pack_good by done. fold (short_name base ex) (short_name base' ex'). rewrite (bind_step _ _ _ _ _ (find_short fuel s Hwf Hfuel d ds _ Hch)), Hf.
    rewrite (bind_step _ _ _ _ _ (find_name fuel s Hwf Hfuel d' ds' _ Hch')), Hnone. cbn [fmap option_fmap option_map]. rewrite (proj2 (Z.eqb_neq d d') Hne), (proj2 (Z.eqb_neq _ _) Hattr). exact E. }
  unfold AddFileEntryToDir in HR. rewrite (bind_step _ _ _ _ _ E1) in HR. assert (HeW : ext W s s1) by (apply (ext_weaken _ _ _ _ He1); by right).
  destruct b; [|exists false, s1; split; [by apply HR|]; done]. destruct Hadd as (ds2 & e2 & c2 & o2 & Hch2 & Hold & (N1 & N2 & N3 & N4) & Hfind & Hother). change (get_start e2) with (entry_cluster e2) in N3.
  assert (Hwf1 : vol_wf s1) by (by apply (ext_wf _ _ _ He1)). destruct (chain_ext _ _ _ _ He1 Hdisj Hch) as [Hch1 _].
  pose proof (fun Q => find_spec_ext _ _ _ Q _ He1 Hdisj (chain_used _ _ Hch)) as Hsame. pose proof (Hsame (has_short (short_name base ex))) as Hf1. rewrite Hf in Hf1.
  destruct (delete_entry s1 d ds _ c o e Hwf1 Hch1 Hf1) as (s2 & E2 & He2 & Hfat2 & Hin & Hgone & Hkeep & Hdel). rewrite E2 in HR.
  assert (He02 : ext W s s2) by (eapply ext_trans; [exact HeW|exact He2|]; intros ? <-; by left; left). exists true, s2. split; [by apply HR|]. split; [done|]. split; [exact Hgone|].
  assert (Hcu : fat s c <> 0) by (pose proof (chain_used _ _ Hch) as Hu; rewrite Forall_forall in Hu; by apply Hu).
  assert (Hc2 : forall b, b ∈ d' :: ds2 -> c <> b).
  { intros b Hb <-. apply elem_of_cons in Hb as [->|Hb]; [apply (Hdisj d' Hin); set_solver|]. destruct (Hold c Hb); [apply (Hdisj c Hin); set_solver|done]. }
  destruct (chain_ext _ s1 s2 (d' :: ds2) He2 Hc2 Hch2) as [Hch22 _]. split; [|split].
  - intros n Hnn. rewrite Hkeep; [by rewrite Hsame|]. unfold has_name. apply bool_decide_eq_false_2. by rewrite (merged_good base ex).
  - exists ds2. split; [done|]. intros Ht n Hnn. rewrite (find_spec_ext _ _ _ _ _ He2) by (done || by apply chain_used). apply Hother; [|done]. unfold has_name. apply bool_decide_eq_false_2. by rewrite (merged_good base' ex').
  - intros maxLen Hmax Hsm. pose proof (ext_state _ _ _ He02) as Es. destruct (chain_ext _ s s2 (entry_cluster e :: cs) He02 Hapart Hcs) as [Hcs2 Hcont2]. rewrite <-Hcont2, <-N3, <-N4.
    assert (Hf2 : find_spec s1 (has_name (name83 base' ex')) (d' :: ds2) = Some (c2, o2, e2)) by (apply Hfind; [unfold has_name; apply bool_decide_eq_true_2; by apply merged_good|done]).
    apply (ReadFile_take fuel s2 (fun _ => False) comps' fn' base' ex' d' ds2) with (c := c2) (o := o2); try done.
    + by apply (ext_wf _ _ _ He02).
    + by rewrite (ext_entries _ _ _ He02).
    + by rewrite Es.
    + replace (rootCluster (bpb s2)) with (rootCluster (bpb s)) by (by rewrite Es). apply (past_survives _ s s1 s2 c o _ _ _ He1); [|done|done]. intros l Hlc. apply (chain_same_fat s1); [apply (ext_entries _ _ _ He2)|done|done].
    + rewrite (find_spec_ext _ _ _ _ _ He2); [done|done|by apply chain_used].
    + by rewrite N3.
    + rewrite (ext_bpc _ _ _ He02 : bytesPerCluster s2 = bytesPerCluster s), N4. done.
    + rewrite N4. lia.
Qed.

(** ** Mounting *)

(** The start of the first FAT32 volume in the partition table [mbr], or whether
    there is a partition at all. *)
Fixpoint partition_spec (dv : D) (n i : nat) (mbr : list Z) (seen : bool) : Z + bool :=
  match n with
  | O => inr seen
  | S n' =>
      let type := byte_at mbr (446 + i * 16 + 4) in
      let lba := get32 mbr (446 + i * 16 + 8) in
      if fat_type type && (signed (sector dv lba) && isFAT32 (sector dv lba)) then inl lba
      else partition_spec dv n' (i + 1) mbr (seen || negb (type =? 0))
  end.
Definition volume_start (dv : D) : Z :=
  match partition_spec dv 4 0 (sector dv 0) false with inl lba => lba | inr seen => if signed (sector dv 0) && seen then 0xFFFFFFFF else 0 end.
(** The partitions of a FAT type start on the device. *)
Definition partitions_fit (dv : D) : Prop :=
  forall i, (i < 4)%nat -> fat_type (byte_at (sector dv 0) (446 + i * 16 + 4)) = true -> get32 (sector dv 0) (446 + i * 16 + 8) < capacity D.

Lemma partition_loop_ok n i seen s : partitions_fit (dev s) -> (i + n <= 4)%nat ->
  partition_loop n i (sector (dev s) 0) seen s = Some (partition_spec (dev s) n i (sector (dev s) 0) seen, s).
Proof.
  intros Hp. revert i seen. induction n as [|n IH]; intros i seen Hi; [done|]. cbn [partition_loop partition_spec]. destruct (fat_type _) eqn:Et; cbn [andb]; [|apply IH; lia].
  pose proof (Hp i ltac:(lia) Et). pose proof (get32_range (sector (dev s) 0) (446 + i * 16 + 8) (sector_bytes _ _)). rewrite (read_step (V := st)) by lia. change (vdev s) with (dev s).
  destruct (signed _ && isFAT32 _); [done|]. apply IH. lia.
Qed.

Definition parsed (sec : list Z) : FAT32_BPB := mk_bpb (get16 sec 11) (byte_at sec 13) (get16 sec 14) (byte_at sec 16) (get32 sec 36) (get32 sec 44) (get32 sec 32).
(** A boot sector that [Mount] accepts, and one whose volume fits on the device
    and has cluster numbers below the end marks. *)
Definition accepted (lba : Z) (sec : list Z) : Prop :=
  lba <> 0xFFFFFFFF /\ signed sec = true /\ (lba = 0 -> isFAT32 sec = true) /\ bytesPerSector (parsed sec) = 512 /\ sectorsPerCluster (parsed sec) <> 0.
Definition fits (lba : Z) (b : FAT32_BPB) : Prop :=
  1 <= numFATs b /\ 1 <= sectorsPerFAT b <= 0x1FFFFF /\
  lba + reservedSectors b + numFATs b * sectorsPerFAT b + sectorsPerFAT b * 128 * sectorsPerCluster b < Z.min (2 ^ 32) (capacity D + 1).

Lemma volume_start_range dv : 0 <= volume_start dv < 2 ^ 32.
Proof.
  unfold volume_start. assert (Hgen : forall n i seen, match partition_spec dv n i (sector dv 0) seen with inl lba => 0 <= lba < 2 ^ 32 | inr _ => True end).
  { induction n as [|n IH]; intros i seen; [done|]. cbn [partition_spec]. destruct (_ && _); [apply get32_range, sector_bytes|apply IH]. }
  specialize (Hgen 4%nat 0%nat false). destruct (partition_spec _ _ _ _ _); [done|]. destruct (_ && _); lia.
Qed.

(** The state a [return] leaves. *)
Ltac leave := match goal with |- exists _, ret _ ?t = _ /\ _ => exists t; split; [reflexivity|] end.

(** [Mount] finds the first FAT32 partition, or a volume without a partition
    table, and accepts exactly the boot sectors with the signature, 512-byte
    sectors and a cluster size; it writes nothing, and a volume that fits is
    then well-formed. *)
Theorem Mount_spec_32 dv : 0 < capacity D -> partitions_fit dv -> volume_start dv <> 0xFFFFFFFF -> volume_start dv < capacity D ->
  let sec := sector dv (volume_start dv) in
  exists s', Mount (FAT32_new dv) = Some (mountedFlag s', s') /\ dev s' = dv /\ volumeStartLBA s' = volume_start dv /\
    (mountedFlag s' = true <-> accepted (volume_start dv) sec) /\ (mountedFlag s' = true -> bpb s' = parsed sec /\ (fits (volume_start dv) (parsed sec) -> fat_wf s')).
Proof.
  intros Hc0 Hp Hv Hc sec. pose proof (volume_start_range dv) as Hr. unfold Mount.
  assert (E1 : DetectFAT32PartitionStart (FAT32_new dv) = Some (volume_start dv, FAT32_new dv)).
  { unfold DetectFAT32PartitionStart. rewrite (read_step (V := st)) by lia. change (vdev (FAT32_new dv)) with dv. rewrite (bind_step _ _ _ _ _ (partition_loop_ok 4 0 false (FAT32_new dv) Hp ltac:(lia))). done. }
  rewrite (bind_step _ _ _ _ _ E1), modify_step. rewrite (proj2 (Z.eqb_neq _ _) Hv). rewrite (read_step (V := st)) by lia. cbn [vdev fat32_volume dev FAT32_new]. fold sec. clear E1. set (lba := volume_start dv) in *.
  assert (Hb : Forall byte sec) by apply sector_bytes. assert (H16 : forall i, u16 (get16 sec i) = get16 sec i) by (intros i; apply u16_small, get16_range, Hb). rewrite !H16. fold (parsed sec). unfold accepted.
  destruct (signed sec) eqn:Esig; cbn [negb]; [|leave; cbn; naive_solver].
  destruct (Z.eqb_spec lba 0) as [E0|E0], (isFAT32 sec) eqn:Ef; cbn [negb andb]; try (leave; cbn; naive_solver).
  all: rewrite modify_step; destruct (Z.eqb_spec (bytesPerSector (parsed sec)) 512) as [E512|]; cbn [negb orb]; [|leave; cbn; naive_solver].
  all: destruct (Z.eqb_spec (sectorsPerCluster (parsed sec)) 0); [leave; cbn; naive_solver|].
  all: rewrite modify_step; leave; cbn [dev volumeStartLBA mountedFlag bpb]; split_and!; try done; intros _; split; [done|]; intros (Hnf & Hspf & Hend).
  all: pose proof (byte_at_range sec 13 Hb); pose proof (byte_at_range sec 16 Hb); pose proof (get16_range sec 14 Hb); change (sectorsPerCluster (parsed sec)) with (byte_at sec 13) in *;
    change (numFATs (parsed sec)) with (byte_at sec 16) in *; change (reservedSectors (parsed sec)) with (get16 sec 14) in *; set (spf := sectorsPerFAT (parsed sec)) in *;
    set (P1 := byte_at sec 16 * spf) in *; assert (0 <= P1) by (subst P1; nia); set (P2 := spf * 128 * byte_at sec 13) in *; assert (0 <= P2) by (subst P2; nia);
    rewrite !u32_small by (rewrite ?u32_small by lia; lia); split; cbn [bpb fatStartLBA dataStartLBA]; try done; try lia; cbn [sectorsPerCluster numFATs parsed]; lia.
Qed.
End Volume.

(** * A volume in memory *)

(** One sector per cluster, one table of one sector, no partition table; the
    directory [/D] and files in it are made after mounting. *)
Definition demo_boot : list Z :=
  patch (patch (patch (patch (patch (replicate 512 0) 11 [0; 2; 1; 1; 0; 1]) 36 [1; 0; 0; 0]) 44 [2; 0; 0; 0]) 82 [70; 65; 84; 51; 50]) 510 [0x55; 0xAA].
Definition demo_disk : ramdisk := {[0 := demo_boot; 1 := [248; 255; 255; 15; 255; 255; 255; 15; 255; 255; 255; 15]]}.
Definition demo_fuel : nat := 200.
Definition after {A} (r : option (A * fat32 ramdisk)) : fat32 ramdisk := match r with Some (_, s) => s | None => FAT32_new ∅ end.
Definition demo : fat32 ramdisk := after (Mount (FAT32_new demo_disk)).
Definition demo_path (fn : list Z) : list Z := 47 :: join [[68]] fn.
Definition demo_dir : fat32 ramdisk := after (Mkdir demo_fuel (Some [47; 68]) 0 demo).
(** [/D/A] with three bytes, [/D/B] with a cluster of bytes. *)
Definition demo_files : fat32 ramdisk :=
  after (WriteFile demo_fuel (Some (demo_path [66])) (Some (replicate 512 7)) (after (WriteFile demo_fuel (Some (demo_path [65])) (Some [1; 2; 3]) demo_dir))).

Lemma demo_geometry s : s = demo \/ s = demo_dir \/ s = demo_files -> fat_wf s /\ mountedFlag s = true /\ (Z.to_nat (entries s) < demo_fuel)%nat.
Proof.
  intros Hs. split_and!; [|destruct Hs as [->|[->| ->]]; vm_compute; reflexivity|destruct Hs as [->|[->| ->]]; vm_compute; lia].
  destruct Hs as [->|[->| ->]]; (split; vm_compute; first [done | split; discriminate | discriminate]).
Qed.
Lemma demo_leads s (W : Z -> Prop) : s = demo_dir \/ s = demo_files -> ~ W 2 -> leads s W (rootCluster (bpb s)) [[68]] 3 /\ chain s [3].
Proof.
  intros Hs HW. split; [|destruct Hs as [-> | ->]; vm_compute; repeat split; discriminate]. split; [split_and!; [done|cbn; lia|repeat constructor; lia]|].
  assert (Hr : rootCluster (bpb s) = 2) by (destruct Hs as [-> | ->]; vm_compute; reflexivity). rewrite Hr.
  exists [], 2, 0%nat, (default [] (snd <$> find_spec s (has_name [68]) [2])). split_and!.
  - destruct Hs as [-> | ->]; vm_compute; repeat split; discriminate.
  - intros b Hb. apply list_elem_of_singleton in Hb as ->. done.
  - destruct Hs as [-> | ->]; vm_compute; reflexivity.
  - destruct Hs as [-> | ->]; vm_compute; reflexivity.
Qed.
Lemma demo_named x : allowed x = true -> named [x] [x] [].
Proof.
  intros Hx. destruct (upper_allowed x Hx) as (Hu & _ & _ & _ & Hr). split_and!; [|by cbn; rewrite Hu|split_and!; try done; cbn; lia || (repeat constructor; done)].
  split_and!; [done|cbn; lia|]. constructor; [|done]. intros ->. done.
Qed.

Lemma WriteFile_ReadFile_32_witness : exists s', WriteFile demo_fuel (Some (demo_path [65])) (Some [1; 2; 3]) demo_dir = Some (Some 3, s') /\
  ReadFile demo_fuel (Some (demo_path [65])) 100 s' = Some (Some [1; 2; 3], s').
Proof.
  destruct (demo_geometry demo_dir ltac:(auto)) as (Hwf & Hm & Hfuel). destruct (demo_leads demo_dir (fun c => c ∈ [3]) (or_introl eq_refl)) as [Hl Hch]; [intros Hw; apply list_elem_of_singleton in Hw; discriminate Hw|].
  destruct (WriteFile_ReadFile_32 demo_fuel demo_dir [[68]] [65] [65] [] 3 [] [1; 2; 3] Hwf Hfuel Hm Hl Hch (demo_named 65 eq_refl)) as (r & s' & E & _ & Hr);
    [vm_compute; reflexivity|repeat constructor; lia|done|vm_compute; reflexivity|].
  exists s'. destruct r as [n|].
  - destruct Hr as [-> Hr]. split; [exact E|]. apply Hr. cbn. lia.
  - exfalso. apply (f_equal (option_map fst)) in E. vm_compute in E. discriminate E.
Defined.

(** The entry of a file of [/D], and the file it holds. *)
Definition demo_entry (name : list Z) : Z * nat * list Z := default (0, 0%nat, []) (find_spec demo_files (has_name name) [3]).
Definition demo_junk (k : nat) (name : list Z) : list Z := drop k (content demo_files [entry_cluster (demo_entry name).2]).
Lemma demo_starts : entry_cluster (demo_entry [65]).2 = 4 /\ entry_cluster (demo_entry [66]).2 = 5.
Proof. vm_compute. done. Qed.
Lemma not_in_singleton (a b : Z) : a <> b -> a ∉ [b].
Proof. intros Hne Hin. by apply list_elem_of_singleton in Hin. Qed.

Lemma demo_holds32 x data : (x = 65 /\ data = [1; 2; 3]) \/ (x = 66 /\ data = replicate 512 7) ->
  holds demo_files 3 [] [x] [] (demo_entry [x]).1.1 (demo_entry [x]).1.2 (demo_entry [x]).2 [] data (demo_junk (length data) [x]).
Proof.
  intros Hx. split; try (destruct Hx as [[-> ->]|[-> ->]]; vm_compute; first [reflexivity | discriminate | repeat split; discriminate]).
  intros b Hb. apply list_elem_of_singleton in Hb as ->. destruct demo_starts as [E1 E2]. apply not_in_singleton. cbn [get_start volume_ops v_start fat32_volume].
  destruct Hx as [[-> _]|[-> _]]; [rewrite E1|rewrite E2]; lia.
Qed.
Lemma demo_apart x : x = 65 \/ x = 66 -> ~ dir_or_file 3 [] (demo_entry [x]).2 [] 2.
Proof.
  intros Hx [Hin|Hin]; apply list_elem_of_singleton in Hin; [discriminate Hin|]. destruct demo_starts as [E1 E2], Hx as [-> | ->]; [rewrite E1 in Hin|rewrite E2 in Hin]; lia.
Qed.

Lemma WriteFile_appends_32_witness : exists s', WriteFile demo_fuel (Some (demo_path [65])) (Some [4; 5]) demo_files = Some (Some 2, s') /\
  ReadFile demo_fuel (Some (demo_path [65])) 100 s' = Some (Some [1; 2; 3; 4; 5], s').
Proof.
  destruct (demo_geometry demo_files ltac:(auto)) as (Hwf & Hm & Hfuel). destruct (demo_leads demo_files _ (or_intror eq_refl) (demo_apart 65 (or_introl eq_refl))) as [Hl Hch].
  destruct (WriteFile_appends_32 demo_fuel demo_files [[68]] [65] [65] [] 3 [] _ _ _ [] [1; 2; 3] _ [4; 5] Hwf Hfuel Hm Hl Hch (demo_named 65 eq_refl) (demo_holds32 65 [1; 2; 3] (or_introl (conj eq_refl eq_refl)))) as (r & s' & E & _ & Hr);
    [vm_compute; discriminate|vm_compute; discriminate|repeat constructor; lia|done|vm_compute; reflexivity|].
  exists s'. destruct r as [n|].
  - destruct Hr as [-> Hr]. split; [exact E|]. apply Hr. cbn. lia.
  - exfalso. apply (f_equal (option_map fst)) in E. vm_compute in E. discriminate E.
Defined.

Lemma WriteFile_overwrites_witness : exists s', WriteFile demo_fuel (Some (demo_path [66])) (Some [1; 2; 3]) demo_files = Some (Some 3, s') /\
  ReadFile demo_fuel (Some (demo_path [66])) 1000 s' = Some (Some ([1; 2; 3] ++ replicate 509 7), s').
Proof.
  destruct (demo_geometry demo_files ltac:(auto)) as (Hwf & Hm & Hfuel). destruct (demo_leads demo_files _ (or_intror eq_refl) (demo_apart 66 (or_intror eq_refl))) as [Hl Hch].
  destruct (WriteFile_overwrites demo_fuel demo_files [[68]] [66] [66] [] 3 [] _ _ _ [] (replicate 512 7) _ [1; 2; 3] Hwf Hfuel Hm Hl Hch (demo_named 66 eq_refl) (demo_holds32 66 _ (or_intror (conj eq_refl eq_refl)))) as (s' & E & Hr);
    [vm_compute; discriminate|vm_compute; reflexivity|repeat constructor; lia|done|vm_compute; discriminate|vm_compute; reflexivity|].
  exists s'. split; [exact E|]. apply (Hr 1000). vm_compute. discriminate.
Defined.

Lemma Rename_same_directory_witness : exists s', Rename demo_fuel (Some (demo_path [65])) (Some (demo_path [67])) demo_files = Some (true, s') /\
  ReadFile demo_fuel (Some (demo_path [67])) 100 s' = Some (Some [1; 2; 3], s').
Proof.
  destruct (demo_geometry demo_files ltac:(auto)) as (Hwf & Hm & Hfuel). destruct (demo_leads demo_files (fun b => b ∈ [3]) (or_intror eq_refl)) as [Hl Hch]; [by apply not_in_singleton|].
  destruct (Rename_same_directory demo_fuel demo_files [[68]] [65] [65] [] [67] [67] [] 3 [] (demo_entry [65]).1.1 (demo_entry [65]).1.2 (demo_entry [65]).2 [] Hwf Hfuel Hm Hl Hch (demo_named 65 eq_refl) (demo_named 67 eq_refl))
    as (s' & E & _ & _ & _ & Hr); [cbn; lia|vm_compute; reflexivity|vm_compute; reflexivity|vm_compute; repeat split; discriminate| |].
  { intros b Hb. apply list_elem_of_singleton in Hb as ->. apply not_in_singleton. destruct demo_starts as [E1 _]. rewrite E1. lia. }
  exists s'. split; [exact E|]. unfold demo_path. rewrite (Hr 100) by (vm_compute; done || discriminate). assert (Ec : take (Z.to_nat (Z.min (entry_size (demo_entry [65]).2) 100)) (content demo_files [entry_cluster (demo_entry [65]).2]) = [1; 2; 3]) by (vm_compute; reflexivity).
  by rewrite Ec.
Defined.

Lemma demo_tidy : tidy (slots demo_files) (clus demo_files 2).
Proof.
  assert (Hs : slots demo_files = 16%nat) by (vm_compute; reflexivity). rewrite Hs. intros i j Hij Hz. destruct i as [|i]; [exfalso; vm_compute in Hz; discriminate Hz|].
  assert (Hall : Forall (fun k => byte_at (clus demo_files 2) (32 * k) = 0) (seq 1 15)) by (vm_compute; repeat constructor). rewrite Forall_forall in Hall. apply Hall, elem_of_seq. lia.
Qed.
(** [/D/A] moves to the root directory, where [/D] still leads where it did. *)
Lemma Rename_moves_witness : exists s', Rename demo_fuel (Some (demo_path [65])) (Some [47; 67]) demo_files = Some (true, s') /\
  (exists ds2, chain s' (2 :: ds2) /\ find_spec s' (has_name [68]) (2 :: ds2) = find_spec demo_files (has_name [68]) [2]) /\
  ReadFile demo_fuel (Some [47; 67]) 100 s' = Some (Some [1; 2; 3], s').
Proof.
  destruct (demo_geometry demo_files ltac:(auto)) as (Hwf & Hm & Hfuel). destruct (demo_leads demo_files (fun _ => False) (or_intror eq_refl) (fun f => f)) as [Hl Hch].
  assert (Hl' : leads_past demo_files (fun b => b ∈ [2]) (demo_entry [65]).1.1 (demo_entry [65]).1.2 (rootCluster (bpb demo_files)) [] 2) by (cbn [leads_past]; vm_compute; reflexivity). destruct demo_starts as [E1 _].
  destruct (Rename_moves demo_fuel demo_files [[68]] [65] [65] [] [] [67] [67] [] 3 [] 2 [] (demo_entry [65]).1.1 (demo_entry [65]).1.2 (demo_entry [65]).2 [] Hwf Hfuel Hm Hl Hl' Hch)
    as (r & s' & E & _ & Hr).
  - vm_compute. repeat split; discriminate.
  - intros b Hb. apply list_elem_of_singleton in Hb as ->. by apply not_in_singleton.
  - exact (demo_named 65 eq_refl).
  - exact (demo_named 67 eq_refl).
  - cbn. lia.
  - cbn. lia.
  - vm_compute. reflexivity.
  - vm_compute. reflexivity.
  - vm_compute. discriminate.
  - vm_compute. repeat split; discriminate.
  - intros b Hb. rewrite E1 in Hb. apply list_elem_of_singleton in Hb as ->. by intros [Hb|Hb]; apply list_elem_of_singleton in Hb.
  - exists s'. destruct r; [|exfalso; apply (f_equal (option_map fst)) in E; vm_compute in E; discriminate E]. split; [exact E|]. destruct Hr as (_ & _ & (ds2 & Hc2 & Ht) & Hr).
    split; [exists ds2; split; [exact Hc2|]; apply Ht; [|by vm_compute]; intros b Hb; apply list_elem_of_singleton in Hb as ->; exact demo_tidy|].
    assert (Ec : take (Z.to_nat (Z.min (entry_size (demo_entry [65]).2) 100)) (content demo_files [entry_cluster (demo_entry [65]).2]) = [1; 2; 3]) by (vm_compute; reflexivity).
    specialize (Hr 100). rewrite Ec in Hr. apply Hr; vm_compute; done || discriminate.
Defined.

Lemma Mkdir_spec_witness : exists s', Mkdir demo_fuel (Some [47; 68]) 0 demo = Some (true, s') /\ DirExists demo_fuel (Some [47; 68]) s' = Some (true, s').
Proof.
  destruct (demo_geometry demo ltac:(auto)) as (Hwf & Hm & Hfuel). assert (Hroot : rootCluster (bpb demo) = 2) by (vm_compute; reflexivity).
  destruct (Mkdir_spec demo_fuel demo [] [68] [68] [] 2 [] 0 Hwf Hfuel Hm Hroot) as (r & s' & E & _ & Hr); [vm_compute; repeat split; discriminate|by apply demo_named|vm_compute; reflexivity|vm_compute; discriminate|].
  exists s'. destruct r; [|exfalso; apply (f_equal (option_map fst)) in E; vm_compute in E; discriminate E]. split; [exact E|]. apply Hr.
Defined.

Lemma Mount_spec_32_witness : exists s', Mount (FAT32_new demo_disk) = Some (true, s') /\ fat_wf s'.
Proof.
  destruct (Mount_spec_32 demo_disk) as (s' & E & _ & _ & Hiff & Hm); [vm_compute; reflexivity| |vm_compute; discriminate|vm_compute; reflexivity|].
  { intros i Hi Ht. exfalso. do 4 (destruct i as [|i]; [vm_compute in Ht; discriminate Ht|]). clear Ht. lia. }
  assert (Ha : mountedFlag s' = true) by (apply (proj2 Hiff); vm_compute; repeat split; discriminate).
  exists s'. rewrite Ha in E. split; [exact E|]. apply (proj2 (Hm Ha)). vm_compute. repeat split; discriminate.
Defined.

(** A file is taken for a directory: [Mkdir] below the file [/D/A] succeeds, writes
    a directory entry into the data of the file, and changes what the file
    reads as. *)
Theorem Mkdir_in_file : exists s', Mkdir demo_fuel (Some (demo_path [65; 47; 88])) 0 demo_files = Some (true, s') /\
  ReadFile demo_fuel (Some (demo_path [65])) 3 demo_files = Some (Some [1; 2; 3], demo_files) /\
  DirExists demo_fuel (Some (demo_path [65])) demo_files = Some (true, demo_files) /\ clus s' 4 <> clus demo_files 4.
Proof. exists (after (Mkdir demo_fuel (Some (demo_path [65; 47; 88])) 0 demo_files)). split_and!; try (vm_compute; reflexivity). vm_compute. discriminate. Qed.
