(* ===== verification/Input.v ===== *)
(** The queue of input events: [src/kernel/src/input/event_queue.cpp] and
    [src/kernel/include/input/event_queue.hpp].

    The queue is a ring of 256 events with a count; the drivers put events in
    from their interrupt handlers, the window manager takes them out.  The
    decrement of the count in [Dequeue] is written as a load and a store, with
    room for an interrupt between them. *)
From S2P Require Import Prelude.

Inductive EventType :=
  | KeyPress | KeyRelease | MouseMove | MousePress | MouseRelease | MouseEnter | MouseLeave | MouseScroll.

(** The union of [InputEvent]. *)
Inductive EventData :=
  | key_data (key_code modifiers : Z)
  | mouse_data (x y buttons : Z)
  | scroll_data (dx dy : Z).
Record InputEvent := mk_event { ev_type : EventType; timestamp_ms : Z; target_window : Z; ev_data : EventData }.

Definition MAX_EVENTS : Z := 256.

Record InputEventQueue := mk_queue { events_ : list InputEvent; write_idx_ : Z; read_idx_ : Z; count_ : Z }.

Definition set_count (n : Z) (q : InputEventQueue) : InputEventQueue := mk_queue (events_ q) (write_idx_ q) (read_idx_ q) n.
Definition set_read (n : Z) (q : InputEventQueue) : InputEventQueue := mk_queue (events_ q) (write_idx_ q) n (count_ q).
Definition set_write (n : Z) (q : InputEventQueue) : InputEventQueue := mk_queue (events_ q) n (read_idx_ q) (count_ q).
Definition set_events (l : list InputEvent) (q : InputEventQueue) : InputEventQueue := mk_queue l (write_idx_ q) (read_idx_ q) (count_ q).

(** The events of a queue as constructed, all of them zero. *)
Definition zero_event : InputEvent := mk_event KeyPress 0 0 (key_data 0 0).
Definition Queue_new : InputEventQueue := mk_queue (replicate 256 zero_event) 0 0 0.

Definition event_at (i : Z) : ST InputEventQueue InputEvent :=
  fun q => match events_ q !! Z.to_nat i with Some e => Some (e, q) | None => None end.
Definition put_event (i : Z) (e : InputEvent) : ST InputEventQueue unit :=
  fun q => if decide (Z.to_nat i < length (events_ q))%nat then Some (tt, set_events (<[Z.to_nat i := e]> (events_ q)) q) else None.

Definition Enqueue (event : InputEvent) : ST InputEventQueue bool :=
  let! n := gets count_ in
  if MAX_EVENTS <=? n then ret false
  else
    let! w := gets write_idx_ in
    put_event w event;;;
    modify (set_write (u32 (w + 1) mod MAX_EVENTS));;;
    modify (fun q => set_count (u32 (count_ q + 1)) q);;;
    ret true.

(** [--count_] with the interrupt handler [isr] between its load and its store. *)
Definition dec_count (isr : ST InputEventQueue unit) : ST InputEventQueue unit :=
  let! n := gets count_ in isr;;; modify (set_count (u32 (n - 1))).

Definition Dequeue_with (isr : ST InputEventQueue unit) : ST InputEventQueue (option InputEvent) :=
  let! n := gets count_ in
  if n =? 0 then ret None
  else
    let! r := gets read_idx_ in
    let! e := event_at r in
    modify (set_read (u32 (r + 1) mod MAX_EVENTS));;;
    dec_count isr;;;
    ret (Some e).
Definition Dequeue : ST InputEventQueue (option InputEvent) := Dequeue_with (ret tt).

Definition Count : ST InputEventQueue Z := gets count_.
Definition Clear : ST InputEventQueue unit :=
  modify (set_read 0);;; modify (set_write 0);;; modify (set_count 0).

(** * The queue as a list *)

Record queue_is (q : InputEventQueue) (l : list InputEvent) : Prop := {
  q_size : length (events_ q) = 256%nat;
  q_read : 0 <= read_idx_ q < 256;
  q_count : count_ q = Z.of_nat (length l);
  q_max : Z.of_nat (length l) <= 256;
  q_write : write_idx_ q = (read_idx_ q + count_ q) mod 256;
  q_events : forall i e, l !! i = Some e -> events_ q !! Z.to_nat ((read_idx_ q + Z.of_nat i) mod 256) = Some e;
}.

Lemma Queue_new_is : queue_is Queue_new [].
Proof. split; try done; cbn; lia. Qed.

Lemma Enqueue_full q l e : queue_is q l -> length l = 256%nat -> Enqueue e q = Some (false, q).
Proof. intros [] Hl. unfold Enqueue. rewrite gets_step, q_count0, Hl. done. Qed.

Lemma Enqueue_room q l e : queue_is q l -> (length l < 256)%nat ->
  exists q', Enqueue e q = Some (true, q') /\ queue_is q' (l ++ [e]) /\ read_idx_ q' = read_idx_ q.
Proof.
  intros [Hs Hr Hc Hm Hw He] Hl. unfold Enqueue. rewrite gets_step. rewrite (proj2 (Z.leb_gt MAX_EVENTS (count_ q))) by (unfold MAX_EVENTS; lia). rewrite gets_step.
  assert (Hwr : 0 <= write_idx_ q < 256) by (rewrite Hw; apply Z.mod_pos_bound; lia). rewrite (bind_step _ _ _ tt (set_events (<[Z.to_nat (write_idx_ q) := e]> (events_ q)) q)).
  2:{ unfold put_event. by rewrite decide_True by lia. }
  rewrite !modify_step. unfold ret. eexists. split; [reflexivity|]. split; [|done].
  split; cbn [events_ read_idx_ count_ write_idx_ set_events set_write set_count]; rewrite ?length_insert, ?length_app; cbn [length]; try done; try lia.
  - rewrite u32_small by lia. lia.
  - unfold MAX_EVENTS. rewrite !u32_small by lia. rewrite Hw, Z.add_mod_idemp_l by lia. f_equal. lia.
  - intros i x Hi. destruct (decide (i < length l)%nat) as [Hlt|Hge].
    + rewrite lookup_app_l in Hi by done. rewrite list_lookup_insert_ne; [by apply He|]. rewrite Hw, Hc. zdiv.
    + rewrite lookup_app_r in Hi by lia. destruct (i - length l)%nat as [|k] eqn:Ek; [|done]. cbn in Hi. injection Hi as ->.
      replace (Z.of_nat i) with (count_ q) by lia. rewrite <-Hw. by rewrite list_lookup_insert_eq by lia.
Qed.

(** Taking an event while [isr] runs inside the decrement. *)
Lemma Dequeue_with_ok q e l isr q1 : queue_is q (e :: l) ->
  isr (set_read ((read_idx_ q + 1) mod 256) q) = Some (tt, q1) ->
  Dequeue_with isr q = Some (Some e, set_count (Z.of_nat (length l)) q1).
Proof.
  intros [Hs Hr Hc Hm Hw He] Hi. unfold Dequeue_with. rewrite gets_step, Hc. cbn [length] in *. rewrite (proj2 (Z.eqb_neq _ 0)) by lia. rewrite gets_step.
  rewrite (bind_step _ _ _ e q). 2:{ unfold event_at. specialize (He 0%nat e eq_refl). rewrite Z.add_0_r, Z.mod_small in He by lia. by rewrite He. }
  rewrite modify_step. rewrite u32_small by lia. fold MAX_EVENTS in Hi. unfold dec_count. rewrite bind_assoc, gets_step, bind_assoc, (bind_step _ _ _ _ _ Hi), modify_step.
  cbn [count_ set_read]. rewrite Hc. rewrite u32_small by lia. unfold ret. do 3 f_equal. lia.
Qed.

Lemma drop_first q e l : queue_is q (e :: l) -> queue_is (set_count (Z.of_nat (length l)) (set_read ((read_idx_ q + 1) mod 256) q)) l.
Proof.
  intros [Hs Hr Hc Hm Hw He]. cbn [length] in *. split; cbn [events_ read_idx_ count_ write_idx_ set_read set_count]; try done; try lia.
  - apply Z.mod_pos_bound. lia.
  - rewrite Z.add_mod_idemp_l by lia. rewrite Hw, Hc. f_equal. lia.
  - intros i x Hi. rewrite Z.add_mod_idemp_l by lia. rewrite <-(He (S i) x Hi). f_equal. f_equal. f_equal. lia.
Qed.

(** The ring of events implements a first-in first-out queue of at most 256
    events: an event that does not fit is refused, none is lost or reordered. *)
Theorem input_queue_refines q l e : queue_is q l ->
  (exists q', Enqueue e q = Some (bool_decide (length l < 256)%nat, q') /\ queue_is q' (if decide (length l < 256)%nat then l ++ [e] else l)) /\
  (exists q', Dequeue q = Some (head l, q') /\ queue_is q' (tail l)) /\
  Count q = Some (Z.of_nat (length l), q) /\
  (exists q', Clear q = Some (tt, q') /\ queue_is q' []).
Proof.
  intros Hq. pose proof Hq as [Hs Hr Hc Hm Hw He]. split_and!.
  - case_decide as Hl.
    + rewrite bool_decide_eq_true_2 by done. destruct (Enqueue_room q l e Hq Hl) as (q' & E & Hq' & _). by exists q'.
    + rewrite bool_decide_eq_false_2 by done. exists q. split; [|done]. apply (Enqueue_full q l e Hq). lia.
  - destruct l as [|x l].
    + exists q. split; [|done]. unfold Dequeue, Dequeue_with. by rewrite gets_step, Hc.
    + eexists. split; [by apply (Dequeue_with_ok q x l (ret tt) (set_read ((read_idx_ q + 1) mod 256) q) Hq)|]. by apply (drop_first q x l).
  - unfold Count, gets. by rewrite Hc.
  - eexists. split; [reflexivity|]. split; cbn; try done; lia.
Qed.
Lemma input_queue_refines_witness : exists q', Enqueue zero_event Queue_new = Some (true, q') /\ queue_is q' [zero_event].
Proof. destruct (input_queue_refines Queue_new [] zero_event Queue_new_is) as ((q' & E & Hq) & _). exists q'. done. Defined.

(** An event put in by an interrupt between the load and the store of the
    decrement is counted out again: [Enqueue] returned [true] for it, and the
    queue then holds only the other events. *)
Theorem Dequeue_interrupted q e l ev : queue_is q (e :: l) ->
  exists q1 q2, Enqueue ev (set_read ((read_idx_ q + 1) mod 256) q) = Some (negb (Z.of_nat (length l) =? 255), q1) /\
    Dequeue_with (fun q => match Enqueue ev q with Some (_, q') => Some (tt, q') | None => None end) q = Some (Some e, q2) /\
    Count q2 = Some (Z.of_nat (length l), q2) /\
    (Z.of_nat (length l) < 255 -> write_idx_ q2 <> (read_idx_ q2 + count_ q2) mod 256).
Proof.
  intros Hq. pose proof Hq as [Hs Hr Hc Hm Hw He]. cbn [length] in *. set (r' := (read_idx_ q + 1) mod 256).
  assert (Hw' : 0 <= write_idx_ q < 256) by (rewrite Hw; apply Z.mod_pos_bound; lia).
  assert (HE : exists q1, Enqueue ev (set_read r' q) = Some (negb (Z.of_nat (length l) =? 255), q1) /\ read_idx_ q1 = r' /\
    (Z.of_nat (length l) < 255 -> write_idx_ q1 = (write_idx_ q + 1) mod 256)).
  { unfold Enqueue. rewrite gets_step. cbn [count_ set_read]. rewrite Hc. unfold MAX_EVENTS. destruct (Z.leb_spec 256 (Z.of_nat (S (length l)))) as [Hge|Hlt].
    - rewrite (proj2 (Z.eqb_eq _ 255)) by lia. eexists. split; [reflexivity|]. split; [done|lia].
    - rewrite (proj2 (Z.eqb_neq _ 255)) by lia. rewrite gets_step. cbn [write_idx_ set_read]. unfold put_event. cbn [events_ set_read]. unfold bind at 1.
      rewrite decide_True by (cbn; lia). rewrite !modify_step. eexists. split; [reflexivity|]. cbn. split; [done|]. intros _. by rewrite u32_small by lia. }
  destruct HE as (q1 & E & Hr1 & Hw1). exists q1, (set_count (Z.of_nat (length l)) q1). split_and!; [exact E| |done|].
  - apply (Dequeue_with_ok q e l); [done|]. fold r'. by rewrite E.
  - intros Hlt. cbn [write_idx_ read_idx_ count_ set_count]. rewrite Hw1, Hr1 by done. subst r'. rewrite Hw, Hc. zdiv.
Qed.
Lemma Dequeue_interrupted_witness : exists q q1 q2, Enqueue zero_event Queue_new = Some (true, q) /\
  Enqueue zero_event (set_read 1 q) = Some (true, q1) /\
  Dequeue_with (fun q => match Enqueue zero_event q with Some (_, q') => Some (tt, q') | None => None end) q = Some (Some zero_event, q2) /\ Count q2 = Some (0, q2).
Proof.
  destruct (Enqueue_room Queue_new [] zero_event Queue_new_is) as (q & E & Hq & Hr); [cbn; lia|]. exists q.
  destruct (Dequeue_interrupted q zero_event [] zero_event Hq) as (q1 & q2 & E1 & E2 & E3 & _). rewrite Hr in E1. exists q1, q2. done.
Defined.
