(* ===== verification/Devices.v ===== *)
(** Segment descriptors, the real-time clock and the interval timer:
    [src/kernel/arch/x86/memory/gdt.cpp],
    [src/kernel/arch/x86/hardware/rtc/rtc.cpp] and the [PIT] class of
    [src/kernel/src/process/timer.cpp].

    The clock chip is a parameter: the byte it gives for a register at the
    [n]-th access.  Writes to the timer's ports are kept as a trace. *)
From S2P Require Import Prelude NetPacket.

(** * Segment descriptors *)

Definition GDT_SEGMENT_LIMIT : Z := 64 * 1024 * 1024.
Definition GDT_CODE_SEGMENT_TYPE : Z := 0x9A.
Definition GDT_DATA_SEGMENT_TYPE : Z := 0x92.
Definition GDT_LIMIT_16BIT_MAX : Z := 0x10000.
Definition GDT_FLAG_16BIT : Z := 0x40.
Definition GDT_FLAG_32BIT : Z := 0xC0.
Definition GDT_PAGE_MASK : Z := 0xFFF.
Definition GDT_PAGE_SHIFT : Z := 12.

(** The eight bytes of a descriptor. *)
Definition SegmentDescriptor (base limit type : Z) : list Z :=
  let flag := if limit <=? GDT_LIMIT_16BIT_MAX then GDT_FLAG_16BIT else GDT_FLAG_32BIT in
  let limit :=
    if limit <=? GDT_LIMIT_16BIT_MAX then limit
    else if negb (Z.land limit GDT_PAGE_MASK =? GDT_PAGE_MASK) then u32 (Z.shiftr limit GDT_PAGE_SHIFT - 1)
    else Z.shiftr limit GDT_PAGE_SHIFT in
  [Z.land limit 0xFF; Z.land (Z.shiftr limit 8) 0xFF;
   Z.land base 0xFF; Z.land (Z.shiftr base 8) 0xFF; Z.land (Z.shiftr base 16) 0xFF;
   u8 type;
   Z.lor flag (Z.land (Z.shiftr limit 16) 0xF);
   Z.land (Z.shiftr base 24) 0xFF].

Definition target (d : list Z) (i : nat) : Z := default 0 (d !! i).
Definition Base (d : list Z) : Z :=
  let result := target d 7 in
  let result := u32 (Z.shiftl result 8 + target d 4) in
  let result := u32 (Z.shiftl result 8 + target d 3) in
  u32 (Z.shiftl result 8 + target d 2).
Definition Limit (d : list Z) : Z :=
  let result := Z.land (target d 6) 0xF in
  let result := u32 (Z.shiftl result 8 + target d 1) in
  let result := u32 (Z.shiftl result 8 + target d 0) in
  if Z.land (target d 6) GDT_FLAG_32BIT =? GDT_FLAG_32BIT
  then u32 (Z.lor (Z.shiftl result GDT_PAGE_SHIFT) GDT_PAGE_MASK) else result.

(** The table in memory, the selectors as offsets into it, and the limit and
    base [lgdt] loads. *)
Definition GlobalDescriptorTable : list Z :=
  SegmentDescriptor 0 0 0 ++ SegmentDescriptor 0 0 0 ++
  SegmentDescriptor 0 GDT_SEGMENT_LIMIT GDT_CODE_SEGMENT_TYPE ++ SegmentDescriptor 0 GDT_SEGMENT_LIMIT GDT_DATA_SEGMENT_TYPE.
Definition CodeSegmentSelector : Z := 16.
Definition DataSegmentSelector : Z := 24.
Definition lgdt_operand (this : Z) : Z * Z := (Z.of_nat (length GlobalDescriptorTable), this).

Lemma land_byte v : Z.land v 0xFF = v mod 256.
Proof. change 0xFF with (Z.ones 8). by rewrite Z.land_ones by lia. Qed.

Lemma bytes_of_word v : 0 <= v < 2 ^ 32 ->
  v = Z.land v 0xFF + 256 * Z.land (Z.shiftr v 8) 0xFF + 65536 * Z.land (Z.shiftr v 16) 0xFF + 16777216 * Z.land (Z.shiftr v 24) 0xFF.
Proof. intros. rewrite !land_byte, !Z.shiftr_div_pow2 by lia. zdiv. Qed.

Lemma shl8 a b : 0 <= a < 2 ^ 24 -> 0 <= b < 256 -> u32 (Z.shiftl a 8 + b) = 256 * a + b.
Proof. intros. rewrite Z.shiftl_mul_pow2 by lia. rewrite u32_small by lia. lia. Qed.
Lemma land_byte_range v : 0 <= Z.land v 0xFF < 256.
Proof. rewrite land_byte. apply Z.mod_pos_bound. lia. Qed.

Lemma Base_desc base limit type : 0 <= base < 2 ^ 32 -> Base (SegmentDescriptor base limit type) = base.
Proof.
  intros Hb. unfold Base, SegmentDescriptor. cbn [target lookup list_lookup default]. pose proof (bytes_of_word base Hb) as E.
  pose proof (land_byte_range base). pose proof (land_byte_range (Z.shiftr base 8)). pose proof (land_byte_range (Z.shiftr base 16)). pose proof (land_byte_range (Z.shiftr base 24)).
  set (b0 := Z.land base 0xFF) in *. set (b1 := Z.land (Z.shiftr base 8) 0xFF) in *. set (b2 := Z.land (Z.shiftr base 16) 0xFF) in *. set (b3 := Z.land (Z.shiftr base 24) 0xFF) in *.
  unfold target. cbn [lookup list_lookup default id]. rewrite (shl8 b3 b2) by lia. rewrite (shl8 _ b1) by lia. rewrite (shl8 _ b0) by lia. lia.
Qed.

(** The 20 bits of a limit come back from the three fields they are cut into. *)
Lemma limit_fields flag v : (flag = 0x40 \/ flag = 0xC0) -> 0 <= v < 2 ^ 20 ->
  u32 (Z.shiftl (u32 (Z.shiftl (Z.land (Z.lor flag (Z.land (Z.shiftr v 16) 0xF)) 0xF) 8 + Z.land (Z.shiftr v 8) 0xFF)) 8 + Z.land v 0xFF) = v /\
  (Z.land (Z.lor flag (Z.land (Z.shiftr v 16) 0xF)) 0xC0 =? 0xC0) = (flag =? 0xC0).
Proof.
  intros Hf Hv. assert (Hn : Z.land (Z.shiftr v 16) 0xF = v / 65536).
  { change 0xF with (Z.ones 4). rewrite Z.land_ones, Z.shiftr_div_pow2 by lia. zdiv. }
  rewrite Hn, !land_byte, Z.shiftr_div_pow2 by lia. assert (Hr : 0 <= v / 65536 < 16) by zdiv. set (n := v / 65536) in *.
  assert (Hnib : Z.land (Z.lor flag n) 0xF = n /\ (Z.land (Z.lor flag n) 0xC0 =? 0xC0) = (flag =? 0xC0)).
  { clearbody n. clear Hn. pose proof (below_ind 16 (fun k => (Z.land (Z.lor flag k) 0xF =? k) && eqb (Z.land (Z.lor flag k) 0xC0 =? 0xC0) (flag =? 0xC0))) as Hall.
    specialize (Hall ltac:(by destruct Hf as [-> | ->]) n Hr). apply andb_true_iff in Hall as [H1%Z.eqb_eq H2%eqb_prop]. done. }
  destruct Hnib as [-> ->]. split; [|done]. change (2 ^ 8) with 256. rewrite (shl8 n) by (try lia; apply Z.mod_pos_bound; lia). rewrite shl8 by zdiv. subst n. zdiv.
Qed.

Lemma lor_bits n a b : 0 <= n -> 0 <= a < 2 ^ n -> 0 <= b < 2 ^ n -> 0 <= Z.lor a b < 2 ^ n.
Proof.
  intros Hn Ha Hb. replace (Z.lor a b) with (Z.lor a b mod 2 ^ n); [apply Z.mod_pos_bound; lia|].
  rewrite <-Z.land_ones, Z.land_lor_distr_l, !Z.land_ones by done. by rewrite !Z.mod_small.
Qed.
Lemma land_page v : Z.land v GDT_PAGE_MASK = v mod 4096.
Proof. unfold GDT_PAGE_MASK. change 0xFFF with (Z.ones 12). by rewrite Z.land_ones by lia. Qed.

(** A descriptor gives back its base and type, and the limit it was built for:
    exactly for a limit up to 64 KiB or one byte below a page boundary, and
    otherwise the largest one that ends below a page boundary and is smaller. *)
Theorem descriptor_roundtrip base limit type : 0 <= base < 2 ^ 32 -> 0 <= limit < 2 ^ 32 -> 0 <= type < 256 ->
  let d := SegmentDescriptor base limit type in
  length d = 8%nat /\ Forall byte d /\ Base d = base /\ target d 5 = type /\
  Limit d = (if limit <=? 0x10000 then limit else if limit mod 4096 =? 4095 then limit else limit - limit mod 4096 - 1) /\ Limit d <= limit.
Proof.
  intros Hb Hl Ht d. assert (HL : Limit d = (if limit <=? 0x10000 then limit else if limit mod 4096 =? 4095 then limit else limit - limit mod 4096 - 1)).
  { unfold d, Limit, SegmentDescriptor, target. cbn [lookup list_lookup default id]. rewrite land_page. change GDT_LIMIT_16BIT_MAX with 0x10000. change GDT_PAGE_MASK with 4095.
    change GDT_FLAG_16BIT with 0x40. change GDT_FLAG_32BIT with 0xC0. change GDT_PAGE_SHIFT with 12. rewrite (Z.shiftr_div_pow2 limit 12) by lia. change (2 ^ 12) with 4096.
    destruct (Z.leb_spec limit 0x10000).
    - destruct (limit_fields 0x40 limit ltac:(by left) ltac:(lia)) as [-> ->]. done.
    - assert (Hadd : forall q, 0 <= q < 2 ^ 20 -> u32 (Z.lor (Z.shiftl q 12) 4095) = q * 4096 + 4095).
      { intros q Hq. rewrite (shift_or 12 q 4095) by lia. change (2 ^ 12) with 4096. apply u32_small. lia. }
      destruct (Z.eqb_spec (limit mod 4096) 4095) as [E|E]; cbn [negb].
      + destruct (limit_fields 0xC0 (limit / 4096) ltac:(by right) ltac:(zdiv)) as [-> ->]. rewrite Z.eqb_refl, Hadd by zdiv. zdiv.
      + assert (Hq : 0 <= limit / 4096 - 1 < 2 ^ 20) by zdiv. rewrite (u32_small (limit / 4096 - 1)) by lia. destruct (limit_fields 0xC0 (limit / 4096 - 1) ltac:(by right) Hq) as [-> ->].
        rewrite Z.eqb_refl, Hadd by done. zdiv. }
  split; [done|]. split; [|split; [by apply Base_desc|]; split; [by apply u8_small|]; split; [exact HL|]].
  - unfold d, SegmentDescriptor. cbn zeta. repeat first [apply Forall_nil_2 | apply Forall_cons_2]; try apply land_byte_range; try apply u8_range.
    apply (lor_bits 8); [lia|destruct (_ <=? _); unfold GDT_FLAG_16BIT, GDT_FLAG_32BIT; lia|]. change 0xF with (Z.ones 4). rewrite Z.land_ones by lia. zdiv.
  - rewrite HL. destruct (_ <=? _); [lia|]. destruct (_ =? _); [lia|]. zdiv.
Qed.
Lemma descriptor_roundtrip_witness : Limit (SegmentDescriptor 0 GDT_SEGMENT_LIMIT GDT_CODE_SEGMENT_TYPE) = 0x3FFFFFF.
Proof. apply (descriptor_roundtrip 0 GDT_SEGMENT_LIMIT GDT_CODE_SEGMENT_TYPE); unfold GDT_SEGMENT_LIMIT, GDT_CODE_SEGMENT_TYPE; lia. Defined.

(** The selectors name a code and a data descriptor that start at 0 and end
    below 64 MiB, and the limit given to [lgdt] is the size of the table, one
    more than the last byte of it. *)
Theorem gdt_segments this :
  (forall sel type, (sel, type) = (CodeSegmentSelector, GDT_CODE_SEGMENT_TYPE) \/ (sel, type) = (DataSegmentSelector, GDT_DATA_SEGMENT_TYPE) ->
     let d := take 8 (drop (Z.to_nat sel) GlobalDescriptorTable) in Base d = 0 /\ Limit d = 64 * 1024 * 1024 - 1 /\ target d 5 = type) /\
  lgdt_operand this = (32, this).
Proof. split; [|done]. intros sel type [[= -> ->]|[= -> ->]]; vm_compute; done. Qed.

(** * The real-time clock *)

Record DateTime := mk_date { dt_year : Z; dt_month : Z; dt_day : Z; dt_hour : Z; dt_minute : Z; dt_second : Z }.

(** The ports: the number of data reads so far and the register selected. *)
Record cmos := mk_cmos { accesses : nat; selected : Z }.

Definition NMI_DISABLE_MASK : Z := 0x80.
Definition RTC_UPDATE_IN_PROGRESS_BIT : Z := 0x80.
Definition RTC_FORMAT_BINARY_BIT : Z := 0x04.
Definition RTC_FORMAT_24H_BIT : Z := 0x02.
Definition RTC_PM_BIT : Z := 0x80.
Definition RTC_HOUR_MASK : Z := 0x7F.
Definition RTC_BASE_CENTURY : Z := 2000.

Definition bcd_to_bin (bcd : Z) : Z := u8 (Z.land bcd 0x0F + (bcd / 16) * 10).

Section Rtc.
(** The byte the chip gives for a register at an access. *)
Context (chip : nat -> Z -> Z).

(** The address port ignores the bit that masks the NMI. *)
Definition address_write (v : Z) : ST cmos unit := modify (fun s => mk_cmos (accesses s) (Z.land v 0x7F)).
Definition data_read : ST cmos Z :=
  let! v := gets (fun s => chip (accesses s) (selected s)) in
  modify (fun s => mk_cmos (S (accesses s)) (selected s));;; ret v.
Definition cmos_read (reg : Z) : ST cmos Z := address_write (Z.lor reg NMI_DISABLE_MASK);;; data_read.
Definition rtc_is_updating : ST cmos bool :=
  address_write (Z.lor 0x0A NMI_DISABLE_MASK);;;
  let! v := data_read in ret (negb (Z.land v RTC_UPDATE_IN_PROGRESS_BIT =? 0)).
Fixpoint wait_update (fuel : nat) : ST cmos unit :=
  match fuel with
  | O => stuck
  | S fuel' => let! up := rtc_is_updating in if up : bool then wait_update fuel' else ret tt
  end.

(** [hour] in the 24-hour form. *)
Definition to_24h (hour : Z) : Z :=
  let pm := negb (Z.land hour RTC_PM_BIT =? 0) in
  let hour := Z.land hour RTC_HOUR_MASK in
  let hour := if pm && (hour <? 12) then u8 (hour + 12) else hour in
  if negb pm && (hour =? 12) then 0 else hour.

Definition RTC_Read (fuel : nat) : ST cmos DateTime :=
  wait_update fuel;;;
  let! sec := cmos_read 0x00 in
  let! min := cmos_read 0x02 in
  let! hour := cmos_read 0x04 in
  let! day := cmos_read 0x07 in
  let! mon := cmos_read 0x08 in
  let! yr := cmos_read 0x09 in
  let! regB := cmos_read 0x0B in
  let isBinary := negb (Z.land regB RTC_FORMAT_BINARY_BIT =? 0) in
  let is24h := negb (Z.land regB RTC_FORMAT_24H_BIT =? 0) in
  let conv v := if isBinary then v else bcd_to_bin v in
  let hour := if is24h then conv hour else to_24h (conv hour) in
  ret (mk_date (u16 (RTC_BASE_CENTURY + conv yr)) (conv mon) (conv day) hour (conv min) (conv sec)).

(** ** What the registers hold *)

Definition bcd (v : Z) : Z := 16 * (v / 10) + v mod 10.
Definition field (binary : bool) (v : Z) : Z := if binary then v else bcd v.
Definition hour12 (h : Z) : Z := if h mod 12 =? 0 then 12 else h mod 12.
Definition hour_field (binary h24 : bool) (h : Z) : Z :=
  if h24 then field binary h else field binary (hour12 h) + (if 12 <=? h then 0x80 else 0).
Definition status_b (binary h24 : bool) : Z := (if binary then 4 else 0) + (if h24 then 2 else 0).

Record valid_date (d : DateTime) : Prop := {
  v_year : 2000 <= dt_year d < 2100; v_month : 1 <= dt_month d <= 12; v_day : 1 <= dt_day d <= 31;
  v_hour : 0 <= dt_hour d < 24; v_minute : 0 <= dt_minute d < 60; v_second : 0 <= dt_second d < 60;
}.

(** The chip shows [d] from access [n] on, in a format, after [k] polls with an
    update in progress. *)
Record shows (n k : nat) (binary h24 : bool) (d : DateTime) : Prop := {
  sh_busy : forall i, (i < k)%nat -> Z.land (chip (n + i) 0x0A) 0x80 <> 0;
  sh_ready : Z.land (chip (n + k) 0x0A) 0x80 = 0;
  sh_regs : forall i, (n + k < i)%nat ->
    chip i 0x00 = field binary (dt_second d) /\ chip i 0x02 = field binary (dt_minute d) /\ chip i 0x04 = hour_field binary h24 (dt_hour d) /\
    chip i 0x07 = field binary (dt_day d) /\ chip i 0x08 = field binary (dt_month d) /\ chip i 0x09 = field binary (dt_year d - 2000) /\
    chip i 0x0B = status_b binary h24;
}.

Lemma cmos_read_ok reg s : Z.land (Z.lor reg 0x80) 0x7F = reg -> cmos_read reg s = Some (chip (accesses s) reg, mk_cmos (S (accesses s)) reg).
Proof. intros Hr. unfold cmos_read, address_write, data_read, NMI_DISABLE_MASK. rewrite modify_step, gets_step, modify_step. cbn. by rewrite Hr. Qed.

Lemma wait_ok fuel n k s : accesses s = n -> (forall i, (i < k)%nat -> Z.land (chip (n + i) 0x0A) 0x80 <> 0) -> Z.land (chip (n + k) 0x0A) 0x80 = 0 -> (k < fuel)%nat ->
  exists s', wait_update fuel s = Some (tt, s') /\ accesses s' = (n + k + 1)%nat.
Proof.
  revert n k s. induction fuel as [|fuel IH]; intros n k s Hn Hb Hr Hf; [lia|]. cbn [wait_update].
  assert (E : rtc_is_updating s = Some (negb (Z.land (chip n 0x0A) 0x80 =? 0), mk_cmos (S n) 0x0A)) by (unfold rtc_is_updating, address_write, data_read; cbn; by rewrite Hn).
  rewrite (bind_step _ _ _ _ _ E). destruct k as [|k].
  - rewrite Nat.add_0_r in Hr. rewrite Hr. eexists. split; [reflexivity|]. cbn. lia.
  - specialize (Hb 0%nat ltac:(lia)) as Hb0. rewrite Nat.add_0_r in Hb0. rewrite (proj2 (Z.eqb_neq _ 0) Hb0). cbn [negb].
    destruct (IH (S n) k (mk_cmos (S n) 0x0A)) as (s' & E' & Hs'); [done| | |lia|exists s'; split; [exact E'|lia]].
    + intros i Hi. replace (S n + i)%nat with (n + S i)%nat by lia. apply Hb. lia.
    + by replace (S n + k)%nat with (n + S k)%nat by lia.
Qed.

Lemma bcd_ok v : 0 <= v < 100 -> bcd_to_bin (bcd v) = v.
Proof.
  intros Hv. unfold bcd_to_bin, bcd. change 0x0F with (Z.ones 4). rewrite Z.land_ones by lia. change (2 ^ 4) with 16.
  assert (0 <= v / 10 < 10 /\ 0 <= v mod 10 < 10) by zdiv. rewrite u8_small by zdiv. zdiv.
Qed.

Definition conv (binary : bool) (v : Z) : Z := if binary then v else bcd_to_bin v.
Lemma conv_field binary v : 0 <= v < 100 -> conv binary (field binary v) = v.
Proof. intros. destruct binary; [done|]. by apply bcd_ok. Qed.

(** The hour that comes out of the hour register. *)
Definition hour_read (binary h24 : bool) (h : Z) : Z :=
  if h24 then conv binary (hour_field binary h24 h) else to_24h (conv binary (hour_field binary h24 h)).

Lemma hour_read_ok binary h24 h : 0 <= h < 24 -> hour_read binary h24 h = if binary || h24 || (h <? 12) then h else 80 + hour12 h.
Proof.
  intros Hh. assert (Hall : Forall (fun h => forall b f, hour_read b f h = if b || f || (h <? 12) then h else 80 + hour12 h) (seqZ 0 24)).
  { cbn [seqZ]. repeat first [apply Forall_nil_2 | apply Forall_cons_2]; intros [] []; vm_compute; done. }
  rewrite Forall_forall in Hall. apply Hall. by apply elem_of_seqZ.
Qed.

Lemma RTC_Read_ok fuel n k binary h24 d s : shows n k binary h24 d -> valid_date d -> accesses s = n -> (k < fuel)%nat ->
  exists s', RTC_Read fuel s = Some (mk_date (dt_year d) (dt_month d) (dt_day d) (hour_read binary h24 (dt_hour d)) (dt_minute d) (dt_second d), s').
Proof.
  intros [Hb Hr Hregs] [] Hn Hk. destruct (wait_ok fuel n k s Hn Hb Hr Hk) as (s1 & E1 & Ha). unfold RTC_Read. rewrite (bind_step _ _ _ _ _ E1).
  do 7 (rewrite (bind_step _ _ _ _ _ (cmos_read_ok _ _ eq_refl)); cbn [accesses]). rewrite Ha. unfold ret. eexists. f_equal. f_equal.
  destruct (Hregs (n + k + 1)%nat ltac:(lia)) as (-> & _). destruct (Hregs (S (n + k + 1)) ltac:(lia)) as (_ & -> & _). destruct (Hregs (S (S (n + k + 1))) ltac:(lia)) as (_ & _ & -> & _).
  destruct (Hregs (S (S (S (n + k + 1)))) ltac:(lia)) as (_ & _ & _ & -> & _). destruct (Hregs (S (S (S (S (n + k + 1))))) ltac:(lia)) as (_ & _ & _ & _ & -> & _).
  destruct (Hregs (S (S (S (S (S (n + k + 1)))))) ltac:(lia)) as (_ & _ & _ & _ & _ & -> & _). destruct (Hregs (S (S (S (S (S (S (n + k + 1))))))) ltac:(lia)) as (_ & _ & _ & _ & _ & _ & ->).
  replace (negb (Z.land (status_b binary h24) RTC_FORMAT_BINARY_BIT =? 0)) with binary by (by destruct binary, h24).
  replace (negb (Z.land (status_b binary h24) RTC_FORMAT_24H_BIT =? 0)) with h24 by (by destruct binary, h24). cbn zeta.
  change (if binary then ?v else bcd_to_bin ?v) with (conv binary v). fold (conv binary (field binary (dt_year d - 2000))).
  rewrite !(conv_field binary) by lia. unfold hour_read. f_equal. unfold RTC_BASE_CENTURY. rewrite u16_small by lia. lia.
Qed.

(** C39: The date on the chip is the date read, in every format but one: with the
    hour in BCD and in the 12-hour form the afternoon is not seen. *)
Theorem RTC_Read_spec fuel n k binary h24 d s : shows n k binary h24 d -> valid_date d -> accesses s = n -> (k < fuel)%nat ->
  binary = true \/ h24 = true \/ dt_hour d < 12 -> exists s', RTC_Read fuel s = Some (d, s').
Proof.
  intros Hs Hv Hn Hk Hf. destruct (RTC_Read_ok fuel n k binary h24 d s Hs Hv Hn Hk) as (s' & E). exists s'. rewrite E. pose proof (v_hour d Hv). rewrite hour_read_ok by done.
  replace (binary || h24 || (dt_hour d <? 12)) with true; [by destruct d|]. destruct Hf as [->|[->|Hf]]; [done|by rewrite orb_true_r|]. rewrite (proj2 (Z.ltb_lt _ _) Hf). by rewrite orb_true_r.
Qed.

(** With the hour in BCD and in the 12-hour form the mark of the afternoon is
    converted as if it were a digit: one o'clock in the afternoon reads as 81. *)
Theorem RTC_Read_afternoon fuel n k d s : shows n k false false d -> valid_date d -> accesses s = n -> (k < fuel)%nat -> 12 <= dt_hour d ->
  exists d' s', RTC_Read fuel s = Some (d', s') /\ dt_hour d' = 80 + hour12 (dt_hour d) /\ 24 <= dt_hour d'.
Proof.
  intros Hs Hv Hn Hk Hh. destruct (RTC_Read_ok fuel n k false false d s Hs Hv Hn Hk) as (s' & E). pose proof (v_hour d Hv). do 2 eexists. split; [exact E|]. cbn [dt_hour].
  rewrite hour_read_ok by done. cbn [orb]. rewrite (proj2 (Z.ltb_ge _ _) Hh). split; [done|]. unfold hour12. destruct (_ =? _); [lia|]. zdiv.
Qed.
End Rtc.

Definition demo_date : DateTime := mk_date 2025 11 16 13 30 59.
Definition demo_chip (binary h24 : bool) (n : nat) (reg : Z) : Z :=
  if reg =? 0x00 then field binary 59 else if reg =? 0x02 then field binary 30 else if reg =? 0x04 then hour_field binary h24 13
  else if reg =? 0x07 then field binary 16 else if reg =? 0x08 then field binary 11 else if reg =? 0x09 then field binary 25
  else if reg =? 0x0A then (if (n <? 3)%nat then 0x80 else 0) else status_b binary h24.
Lemma demo_shows binary h24 : shows (demo_chip binary h24) 0 3 binary h24 demo_date.
Proof.
  split; [|done|done]. intros i Hi. destruct i as [|[|[|i]]]; [done..|lia].
Qed.
Lemma demo_valid : valid_date demo_date.
Proof. split; cbn; lia. Qed.

Lemma RTC_Read_spec_witness : exists s', RTC_Read (demo_chip false true) 5 (mk_cmos 0 0) = Some (demo_date, s').
Proof. apply (RTC_Read_spec (demo_chip false true) 5 0 3 false true demo_date); [apply demo_shows|apply demo_valid|done|lia|right; by left]. Defined.
Lemma RTC_Read_afternoon_witness : exists d' s', RTC_Read (demo_chip false false) 5 (mk_cmos 0 0) = Some (d', s') /\ dt_hour d' = 81.
Proof.
  destruct (RTC_Read_afternoon (demo_chip false false) 5 0 3 demo_date (mk_cmos 0 0)) as (d' & s' & E & Hh & _); [apply demo_shows|apply demo_valid|done|lia|cbn; lia|].
  exists d', s'. done.
Defined.

(** * The interval timer *)

Definition PIT_FREQUENCY : Z := 1193182.
Definition PIT_CHANNEL_0 : Z := 0x40.
Definition PIT_COMMAND : Z := 0x43.

(** The frequency recorded and the bytes written to the ports. *)
Record pit := mk_pit { current_frequency : Z; port_writes : list (Z * Z) }.
Definition out8 (port v : Z) : ST pit unit := modify (fun s => mk_pit (current_frequency s) (port_writes s ++ [(port, u8 v)])).

Definition SetFrequency (frequency : Z) : ST pit unit :=
  let frequency := if frequency =? 0 then 18 else frequency in
  modify (fun s => mk_pit frequency (port_writes s));;;
  let divisor := PIT_FREQUENCY / frequency in
  let divisor := if 65535 <? divisor then 65535 else divisor in
  let divisor := if divisor <? 1 then 1 else divisor in
  out8 PIT_COMMAND 0x36;;;
  out8 PIT_CHANNEL_0 (Z.land divisor 0xFF);;;
  out8 PIT_CHANNEL_0 (Z.land (Z.shiftr divisor 8) 0xFF).

(** [SetFrequency] writes the mode and the two bytes of a divisor between 1 and
    65535.  For a frequency the timer can reach the divisor is the largest that
    does not fall below it; below 19 Hz the timer runs at 18 Hz whatever
    frequency is recorded. *)
Theorem SetFrequency_spec f s : 0 <= f < 2 ^ 32 ->
  exists lo hi, SetFrequency f s = Some (tt, mk_pit (if f =? 0 then 18 else f) (port_writes s ++ [(0x43, 0x36); (0x40, lo); (0x40, hi)])) /\
    0 <= lo < 256 /\ 0 <= hi < 256 /\ let divisor := lo + 256 * hi in 1 <= divisor <= 65535 /\
    (19 <= f <= PIT_FREQUENCY -> divisor * f <= PIT_FREQUENCY < (divisor + 1) * f) /\ (f < 19 -> divisor = 65535).
Proof.
  intros Hf. unfold SetFrequency. cbn zeta. set (g := if f =? 0 then 18 else f). assert (Hg : 0 < g /\ (0 < f -> g = f) /\ (f < 19 -> g < 19)) by (subst g; destruct (Z.eqb_spec f 0); lia).
  set (q := PIT_FREQUENCY / g). set (v := if (if 65535 <? q then 65535 else q) <? 1 then 1 else if 65535 <? q then 65535 else q).
  assert (Hq : g * q <= PIT_FREQUENCY < g * (q + 1)).
  { pose proof (Z.div_mod PIT_FREQUENCY g ltac:(lia)). pose proof (Z.mod_pos_bound PIT_FREQUENCY g ltac:(lia)). fold q in H. nia. }
  assert (Hv : v = Z.max 1 (Z.min 65535 q)) by (subst v; destruct (Z.ltb_spec 65535 q); case_zb; lia). exists (v mod 256), (v / 256).
  rewrite modify_step. unfold out8. rewrite !modify_step. cbn [current_frequency port_writes]. unfold modify. cbn [current_frequency port_writes]. rewrite <-!app_assoc. cbn [app].
  rewrite !land_byte, Z.shiftr_div_pow2 by lia. change (2 ^ 8) with 256. split.
  - do 2 f_equal. f_equal. unfold PIT_COMMAND, PIT_CHANNEL_0. rewrite !u8_small by (try lia; apply Z.mod_pos_bound; lia). do 4 f_equal. f_equal. rewrite Z.mod_small; [done|]. zdiv.
  - unfold PIT_FREQUENCY in *. split_and!; try zdiv.
    + intros Hr. assert (g = f) as -> by lia. assert (v = q) as -> by nia. replace (q mod 256 + 256 * (q / 256)) with q by zdiv. nia.
    + intros Hr. assert (65535 <= q) by nia. assert (v = 65535) as -> by lia. done.
Qed.
Lemma SetFrequency_spec_witness : exists lo hi, SetFrequency 100 (mk_pit 18 []) = Some (tt, mk_pit 100 [(0x43, 0x36); (0x40, lo); (0x40, hi)]) /\ lo + 256 * hi = 11931.
Proof. destruct (SetFrequency_spec 100 (mk_pit 18 []) ltac:(lia)) as (lo & hi & E & Hlo & Hhi & Hd & Hr & _). exists lo, hi. split; [exact E|]. specialize (Hr ltac:(unfold PIT_FREQUENCY; lia)). unfold PIT_FREQUENCY in Hr. lia. Defined.
