(* ===== verification/Services.v ===== *)
(** The service manager: [src/kernel/src/services/service_manager.cpp].

    The registered services are the list that starts at [s_head]; a service is
    used through its virtual methods, which act on a world of its own.  The
    configuration is read through the [Filesystem] interface, which FAT16
    implements.  The line under the cursor is the only part of the buffer the
    parser changes, so a line is a value here and the rest of the buffer the
    list of its bytes up to the terminating zero. *)
From S2P Require Import Prelude NetPacket Disk Fat16.

(** ** Interfaces *)

Class Filesystem (F : Type) := {
  fs_ReadFile : list Z -> Z -> ST F (option (list Z));
  fs_WriteFile : list Z -> list Z -> ST F (option Z);
}.
#[export] Instance fat16_filesystem {D} `{BlockDevice D} : Filesystem (fat16 D) := {
  fs_ReadFile path maxLen := ReadFile chain_fuel (Some path) maxLen;
  fs_WriteFile path data := WriteFile chain_fuel (Some path) (Some data);
}.

(** [IService]; a name is a C string. *)
Class IService (V W : Type) := {
  Name : V -> list Z;
  DefaultEnabled : V -> bool;
  TickIntervalMs : V -> W -> Z;
  Start : V -> W -> bool * W;
  Tick : V -> W -> W;
}.

Record ServiceNode (V : Type) := mk_service { svc : V; enabled : bool; last_tick_ms : Z }.
Arguments mk_service {V}. Arguments svc {V}. Arguments enabled {V}. Arguments last_tick_ms {V}.

(** The timer's tick count and frequency, once there is a timer. *)
Record services (F V W : Type) := mk_services {
  s_head : list (ServiceNode V); s_debugCfg : bool; g_fs : option F; g_timer : option (Z * Z);
  allocations : nat; debug_log : bool; world : W;
}.
Arguments mk_services {F V W}. Arguments s_head {F V W}. Arguments s_debugCfg {F V W}. Arguments g_fs {F V W}. Arguments g_timer {F V W}.
Arguments allocations {F V W}. Arguments debug_log {F V W}. Arguments world {F V W}.

(** ** Text *)

Definition is_ws (c : Z) : bool := (c =? 32) || (c =? 9) || (c =? 13).
Fixpoint skip_ws (l : list Z) : list Z := match l with c :: l' => if is_ws c then skip_ws l' else l | [] => [] end.
Definition lower (c : Z) : Z := if (65 <=? c) && (c <=? 90) then c - 65 + 97 else c.
Definition strtolower (l : list Z) : list Z := lower <$> l.
(** [while (len > 0 && P(s[len - 1])) s[--len] = 0]. *)
Fixpoint trim_end (P : Z -> bool) (l : list Z) : list Z :=
  match l with
  | [] => []
  | c :: l' => match trim_end P l' with [] => if P c then [] else [c] | r => c :: r end
  end.
Definition starts_with (s prefix : list Z) : bool := bool_decide (take (length prefix) s = prefix).

(** The bytes before the first [c] and those after it. *)
Fixpoint cut (c : Z) (l : list Z) : option (list Z * list Z) :=
  match l with
  | [] => None
  | x :: l' => if x =? c then Some ([], l') else match cut c l' with Some (a, b) => Some (x :: a, b) | None => None end
  end.

(** The line at the cursor, a C string, and the bytes at the next cursor. *)
Definition next_line (buf : list Z) : list Z * list Z :=
  match cut 10 buf with Some (line, rest) => (until 0 line, rest) | None => (until 0 buf, []) end.

(** Key and value of a line, [None] where the loop continues. *)
Definition parse_line (line : list Z) : option (list Z * list Z) :=
  let p := skip_ws line in
  match p with
  | [] => None
  | c :: _ =>
      if c =? 35 then None
      else match cut 61 p with
      | None => None
      | Some (key, val) =>
          let key := trim_end (fun c => (c =? 32) || (c =? 9)) key in
          let val := trim_end is_ws (skip_ws val) in
          Some (strtolower key, strtolower val)
      end
  end.

Definition s_on : list Z := [111; 110].
Definition s_true : list Z := [116; 114; 117; 101].
Definition s_one : list Z := [49].
Definition is_on (val : list Z) : bool := bool_decide (val = s_on) || bool_decide (val = s_true) || bool_decide (val = s_one).
Definition s_debug : list Z := [100; 101; 98; 117; 103].
Definition s_service : list Z := [115; 101; 114; 118; 105; 99; 101; 46].
Definition cfg_path : list Z := [47; 101; 116; 99; 47; 115; 101; 114; 118; 105; 99; 101; 115; 46; 99; 102; 103].
Definition CFG_PATH : list Z := [47; 69; 84; 67; 47; 83; 69; 82; 86; 73; 67; 69; 83; 46; 67; 70; 71].

Section Model.
Context {F V W : Type} `{Filesystem F} `{IService V W} (alloc_ok : nat -> bool).
Abbreviation st := (services F V W).

Definition set_head (l : list (ServiceNode V)) (s : st) : st := mk_services l (s_debugCfg s) (g_fs s) (g_timer s) (allocations s) (debug_log s) (world s).
Definition set_debug (b : bool) (s : st) : st := mk_services (s_head s) b (g_fs s) (g_timer s) (allocations s) (debug_log s) (world s).
Definition set_fs (f : F) (s : st) : st := mk_services (s_head s) (s_debugCfg s) (Some f) (g_timer s) (allocations s) (debug_log s) (world s).
Definition set_log (b : bool) (s : st) : st := mk_services (s_head s) (s_debugCfg s) (g_fs s) (g_timer s) (allocations s) b (world s).
Definition set_world (w : W) (s : st) : st := mk_services (s_head s) (s_debugCfg s) (g_fs s) (g_timer s) (allocations s) (debug_log s) w.

(** The next [Heap::Alloc]. *)
Definition alloc : ST st bool :=
  let! n := gets allocations in
  modify (fun s => mk_services (s_head s) (s_debugCfg s) (g_fs s) (g_timer s) (S n) (debug_log s) (world s));;;
  ret (alloc_ok n).

Definition Register (service : option V) : ST st unit :=
  match service with
  | None => ret tt
  | Some v =>
      let! ok := alloc in
      if ok : bool then modify (fun s => set_head (mk_service v (DefaultEnabled v) 0 :: s_head s) s) else ret tt
  end.
Fixpoint RegisterBuiltinServices (builtin : list V) : ST st unit :=
  match builtin with [] => ret tt | v :: r => Register (Some v);;; RegisterBuiltinServices r end.

(** ** Configuration *)

(** The first service of that name, compared in lower case. *)
Fixpoint set_service (name : list Z) (on : bool) (nodes : list (ServiceNode V)) : list (ServiceNode V) :=
  match nodes with
  | [] => []
  | n :: r => if bool_decide (strtolower (take 63 (Name (svc n))) = name) then mk_service (svc n) on (last_tick_ms n) :: r else n :: set_service name on r
  end.
Definition apply_setting (kv : list Z * list Z) (s : st) : st :=
  let '(key, val) := kv in
  if bool_decide (key = s_debug) then set_debug (is_on val) s
  else if starts_with key s_service then set_head (set_service (drop 8 key) (is_on val) (s_head s)) s
  else s.
(** The loop over the lines; [n] bounds their number. *)
Fixpoint config_loop (n : nat) (buf : list Z) : ST st unit :=
  match n, buf with
  | _, [] => ret tt
  | O, _ => stuck
  | S n', c :: _ =>
      if c =? 0 then ret tt
      else
        let '(line, rest) := next_line buf in
        (match parse_line line with Some kv => modify (apply_setting kv) | None => ret tt end);;;
        config_loop n' rest
  end.

Definition read_config (path : list Z) : ST st (list Z) :=
  fun s => match g_fs s with
           | None => Some ([], s)
           | Some f => match fs_ReadFile path 4095 f with Some (r, f') => Some (default [] r, set_fs f' s) | None => None end
           end.

Definition ApplyConfig : ST st unit :=
  let! fs := gets g_fs in
  match fs with
  | None => ret tt
  | Some _ =>
      let! ok := alloc in
      if negb ok then ret tt
      else
        let! buf := read_config cfg_path in
        let! buf := (match buf with [] => read_config CFG_PATH | _ => ret buf end) in
        match buf with [] => ret tt | _ => config_loop (length buf) buf end
  end.

(** ** Running *)

Definition UptimeMs : ST st Z :=
  let! t := gets g_timer in
  match t with
  | None => ret 0
  | Some (ticks, freq) => if freq =? 0 then ret 0 else ret (u32 (ticks * 1000) / freq)
  end.

Fixpoint start_nodes (nodes : list (ServiceNode V)) : ST st unit :=
  match nodes with
  | [] => ret tt
  | n :: r =>
      (if enabled n then modify (fun s => set_world (snd (Start (svc n) (world s))) s) else ret tt);;; start_nodes r
  end.
Definition InitAndStart (builtin : list V) : ST st unit :=
  RegisterBuiltinServices builtin;;;
  ApplyConfig;;;
  modify (fun s => if s_debugCfg s then set_log true s else s);;;
  let! nodes := gets s_head in start_nodes nodes.

(** Whether a node is ticked at time [now], with its service's [interval]. *)
Definition due (now interval : Z) (n : ServiceNode V) : bool :=
  enabled n && negb (interval =? 0) &&
  ((last_tick_ms n =? 0) || (now =? 0) || ((last_tick_ms n <=? now) && (interval <=? now - last_tick_ms n))).
Fixpoint tick_nodes (now : Z) (nodes : list (ServiceNode V)) (w : W) : list (ServiceNode V) * W :=
  match nodes with
  | [] => ([], w)
  | n :: r =>
      let '(n', w') :=
        if due now (TickIntervalMs (svc n) w) n
        then (if 0 <? now then mk_service (svc n) (enabled n) now else n, Tick (svc n) w) else (n, w) in
      let '(r', w'') := tick_nodes now r w' in (n' :: r', w'')
  end.
Definition TickAll : ST st unit :=
  let! now := UptimeMs in
  modify (fun s => let '(l, w) := tick_nodes now (s_head s) (world s) in set_world w (set_head l s)).

Fixpoint find_enabled (name : list Z) (nodes : list (ServiceNode V)) : bool :=
  match nodes with [] => false | n :: r => if bool_decide (Name (svc n) = name) then enabled n else find_enabled name r end.
Definition IsEnabled (name : list Z) : ST st bool := gets (fun s => find_enabled name (s_head s)).
Definition DebugFromConfig : ST st bool := gets s_debugCfg.
End Model.

(** * Lines of a configuration *)

Lemma cut_app c a b : Forall (fun x => x <> c) a -> cut c (a ++ c :: b) = Some (a, b).
Proof. induction 1 as [|x a Hx Ha IH]; cbn [app cut]; [by rewrite Z.eqb_refl|]. rewrite (proj2 (Z.eqb_neq x c) Hx). by rewrite IH. Qed.
Lemma until_all c l : Forall (fun x => x <> c) l -> until c l = l.
Proof. intros Hl. rewrite <-(app_nil_r l) at 1. rewrite until_app by done. cbn. apply app_nil_r. Qed.
Lemma skip_ws_app ws l : Forall (fun c => is_ws c = true) ws -> skip_ws (ws ++ l) = skip_ws l.
Proof. induction 1 as [|c ws Hc Hws IH]; [done|]. cbn [app skip_ws]. by rewrite Hc. Qed.
Lemma trim_end_app P l sp : Forall (fun c => P c = true) sp -> (forall c, last l = Some c -> P c = false) -> trim_end P (l ++ sp) = l.
Proof.
  intros Hsp Hl. assert (Hn : trim_end P sp = []) by (induction Hsp as [|c sp Hc Hsp IH]; [done|]; cbn [trim_end]; by rewrite IH, Hc).
  induction l as [|x l IH]; [done|]. cbn [app trim_end]. destruct l as [|y l].
  - cbn [app] in *. rewrite Hn. by rewrite (Hl x eq_refl).
  - rewrite IH; [done|]. intros c Hc. apply Hl. by rewrite last_cons_cons.
Qed.

(** The lines of a configuration file, with blanks where the parser allows them. *)
Inductive cfg_line :=
  | Blank (ws : list Z)
  | Comment (ws text : list Z)
  | Setting (ws key sp1 sp2 val sp3 : list Z).
Definition render (l : cfg_line) : list Z :=
  match l with
  | Blank ws => ws
  | Comment ws text => ws ++ 35 :: text
  | Setting ws key sp1 sp2 val sp3 => ws ++ (key ++ sp1) ++ 61 :: sp2 ++ val ++ sp3
  end.
Definition plain (l : list Z) : Prop := Forall (fun c => c <> 10 /\ c <> 0) l.
Definition blank (l : list Z) : Prop := Forall (fun c => is_ws c = true) l.
Definition line_ok (l : cfg_line) : Prop :=
  match l with
  | Blank ws => blank ws
  | Comment ws text => blank ws /\ plain text
  | Setting ws key sp1 sp2 val sp3 =>
      blank ws /\ Forall (fun c => (c =? 32) || (c =? 9) = true) sp1 /\ blank sp2 /\ blank sp3 /\ plain key /\ plain val /\
      Forall (fun c => c <> 61) key /\ (exists c r, key = c :: r /\ is_ws c = false /\ c <> 35) /\ (forall c, last key = Some c -> is_ws c = false) /\
      match val with [] => True | c :: _ => is_ws c = false end /\ (forall c, last val = Some c -> is_ws c = false)
  end.
Definition setting_of (l : cfg_line) : list (list Z * list Z) :=
  match l with Setting _ key _ _ val _ => [(strtolower key, strtolower val)] | _ => [] end.
Definition config_text (ls : list cfg_line) : list Z := concat ((fun l => render l ++ [10]) <$> ls).

Lemma ws_plain c : is_ws c = true -> c <> 10 /\ c <> 0 /\ c <> 61.
Proof. unfold is_ws. intros Hc. destruct (Z.eqb_spec c 32), (Z.eqb_spec c 9), (Z.eqb_spec c 13); try lia; done. Qed.
Lemma blank_plain l : blank l -> plain l.
Proof. intros Hl. apply (Forall_impl _ _ _ Hl). intros c Hc. by destruct (ws_plain c Hc) as (? & ? & _). Qed.
Lemma space_ws c : (c =? 32) || (c =? 9) = true -> is_ws c = true.
Proof. unfold is_ws. by intros ->. Qed.

Lemma render_plain l : line_ok l -> plain (render l).
Proof.
  destruct l as [ws|ws text|ws key sp1 sp2 val sp3]; cbn [line_ok render].
  - apply blank_plain.
  - intros [Hw Ht]. apply Forall_app_2; [by apply blank_plain|]. constructor; [lia|done].
  - intros (Hw & H1' & H2' & H3' & Hk & Hv & _). repeat apply Forall_app_2; try done; try by apply blank_plain.
    + apply blank_plain, (Forall_impl _ _ _ H1'), space_ws.
    + constructor; [lia|]. repeat apply Forall_app_2; try done; by apply blank_plain.
Qed.

Lemma skip_ws_head c l : is_ws c = false -> skip_ws (c :: l) = c :: l.
Proof. intros Hc. cbn. by rewrite Hc. Qed.

Lemma parse_render l : line_ok l -> parse_line (render l) = head (setting_of l).
Proof.
  destruct l as [ws|ws text|ws key sp1 sp2 val sp3]; cbn [line_ok render setting_of head]; unfold parse_line.
  - intros Hw. rewrite <-(app_nil_r ws), skip_ws_app by done. done.
  - intros [Hw Ht]. rewrite skip_ws_app by done. rewrite skip_ws_head by done. done.
  - intros (Hw & H1' & H2' & H3' & Hk & Hv & Heq & (c & r & Ek & Hc & Hh) & Hlk & Hhv & Hlv). rewrite skip_ws_app by done.
    assert (Es : skip_ws ((key ++ sp1) ++ 61 :: sp2 ++ val ++ sp3) = (key ++ sp1) ++ 61 :: sp2 ++ val ++ sp3) by (rewrite Ek; cbn [app]; by apply skip_ws_head).
    rewrite Es. assert (E : cut 61 ((key ++ sp1) ++ 61 :: sp2 ++ val ++ sp3) = Some (key ++ sp1, sp2 ++ val ++ sp3)).
    { apply cut_app, Forall_app_2; [done|]. apply (Forall_impl _ _ _ H1'). intros x Hx. by destruct (ws_plain x (space_ws x Hx)) as (_ & _ & ?). }
    rewrite E. rewrite trim_end_app; [|done|]. 2:{ intros x Hx. specialize (Hlk x Hx). unfold is_ws in Hlk. by apply orb_false_iff in Hlk as [? _]. }
    rewrite skip_ws_app by done. assert (Ev : trim_end is_ws (skip_ws (val ++ sp3)) = val).
    { destruct val as [|v val]; [|cbn [app]; rewrite skip_ws_head by done; change (v :: val ++ sp3) with ((v :: val) ++ sp3); by apply trim_end_app].
      cbn [app]. rewrite <-(app_nil_r sp3), skip_ws_app by done. done. }
    rewrite Ev, Ek. cbn [app]. by rewrite (proj2 (Z.eqb_neq c 35) Hh).
Qed.

Section Facts.
Context {F V W : Type} `{Filesystem F} `{IService V W} (alloc_ok : nat -> bool).
Abbreviation st := (services F V W).
Implicit Types (s : st) (n : ServiceNode V).

Definition apply_all (kvs : list (list Z * list Z)) s : st := fold_left (fun s kv => apply_setting kv s) kvs s.

Lemma config_loop_ok k ls s : Forall line_ok ls -> (length (config_text ls) <= k)%nat ->
  config_loop k (config_text ls) s = Some (tt, apply_all (concat (setting_of <$> ls)) s).
Proof.
  intros Hls. revert k s. induction Hls as [|l ls Hl Hls IH]; intros k s Hk; [by destruct k|].
  unfold config_text in *. rewrite fmap_cons in *. cbn [concat] in *. rewrite <-app_assoc in *. cbn [app] in *. set (rest := concat _) in *.
  assert (Hn : next_line (render l ++ 10 :: rest) = (render l, rest)).
  { pose proof (render_plain l Hl) as Hp. unfold next_line. rewrite cut_app by (apply (Forall_impl _ _ _ Hp); by intros c [? _]). by rewrite until_all by (apply (Forall_impl _ _ _ Hp); by intros c [_ ?]). }
  assert (Hhd : exists c r, render l ++ 10 :: rest = c :: r /\ c <> 0).
  { pose proof (render_plain l Hl) as Hp. destruct (render l) as [|c r]; [by eexists _, _|]. apply Forall_cons in Hp as [[_ Hc] _]. by eexists _, _. }
  destruct Hhd as (c & r & Ec & Hc0). rewrite length_app in Hk. cbn [length] in Hk. destruct k as [|k]; [lia|]. rewrite Ec in *. cbn [config_loop]. rewrite (proj2 (Z.eqb_neq c 0) Hc0), Hn, parse_render by done.
  rewrite fmap_cons. cbn [concat]. unfold apply_all. rewrite fold_left_app. destruct l; cbn [setting_of head fold_left]; rewrite ?ret_step, ?modify_step; apply IH; lia.
Qed.

(** The configuration file is applied line by line: comments and blank lines
    are skipped, blanks around keys and values and the case of letters do not
    matter, and each setting acts as [debug] or on the first service it names. *)
Theorem ApplyConfig_spec s f f' ls : g_fs s = Some f -> alloc_ok (allocations s) = true ->
  fs_ReadFile cfg_path 4095 f = Some (Some (config_text ls), f') -> ls <> [] -> Forall line_ok ls ->
  exists s', ApplyConfig alloc_ok s = Some (tt, apply_all (concat (setting_of <$> ls)) s') /\
    s_head s' = s_head s /\ s_debugCfg s' = s_debugCfg s /\ g_fs s' = Some f' /\ world s' = world s.
Proof.
  intros Hf Ha Hr Hne Hls. unfold ApplyConfig. rewrite gets_step, Hf. unfold alloc. rewrite bind_assoc, gets_step, bind_assoc, modify_step, ret_step, Ha. cbn [negb].
  set (s1 := mk_services _ _ _ _ _ _ _). rewrite (bind_step _ _ _ (config_text ls) (set_fs f' s1)) by (unfold read_config; cbn [g_fs s1]; by rewrite Hf, Hr).
  assert (Hn : exists c r, config_text ls = c :: r).
  { destruct ls as [|l ls]; [done|]. unfold config_text. rewrite fmap_cons. cbn [concat]. destruct (render l); by eexists _, _. }
  destruct Hn as (c & r & Ec). rewrite Ec, ret_step, <-Ec. rewrite config_loop_ok by done. exists (set_fs f' s1). done.
Qed.

(** ** Ticks *)

Context (interval : V -> Z) (steady : forall v w, TickIntervalMs v w = interval v).

(** Exactly the services that are due are ticked, in the order of the list,
    and their nodes get the time; every other node is left alone. *)
Theorem TickAll_spec s now : UptimeMs s = Some (now, s) ->
  exists s', TickAll s = Some (tt, s') /\ world s' = fold_left (fun w n => Tick (svc n) w) (filter (fun n => due now (interval (svc n)) n = true) (s_head s)) (world s) /\
    s_head s' = (fun n => if due now (interval (svc n)) n && (0 <? now) then mk_service (svc n) (enabled n) now else n) <$> s_head s /\
    s_debugCfg s' = s_debugCfg s /\ g_fs s' = g_fs s.
Proof.
  intros Hu. unfold TickAll. rewrite (bind_step _ _ _ _ _ Hu). unfold modify.
  assert (Hg : forall l w, tick_nodes now l w = ((fun n => if due now (interval (svc n)) n && (0 <? now) then mk_service (svc n) (enabled n) now else n) <$> l,
    fold_left (fun w n => Tick (svc n) w) (filter (fun n => due now (interval (svc n)) n = true) l) w)).
  { induction l as [|n l IH]; intros w; [done|]. cbn [tick_nodes]. rewrite steady. rewrite fmap_cons, filter_cons. destruct (due now (interval (svc n)) n) eqn:E.
    - rewrite decide_True by done. rewrite IH. cbn [fold_left andb]. done.
    - rewrite decide_False by done. rewrite IH. done. }
  rewrite Hg. eexists. split; [reflexivity|]. done.
Qed.
End Facts.

(** With the timer at 100 Hz the count of milliseconds is computed as
    [ticks * 1000] in 32 bits and starts again from 0 after 4294967 ticks; the
    services ticked before are then not due, for as many ticks again. *)
Theorem TickAll_stalls {F V W} `{Filesystem F} `{IService V W} (s : services F V W) k :
  g_timer s = Some (4294967 + k, 100) -> 1 <= k <= 4294967 -> Forall (fun n => last_tick_ms n = 42949670) (s_head s) -> TickAll s = Some (tt, s).
Proof.
  intros Ht Hk Hn. unfold TickAll, UptimeMs. rewrite bind_assoc, gets_step, Ht. change (100 =? 0) with false. cbn iota. rewrite ret_step.
  assert (Hw : u32 ((4294967 + k) * 1000) = 1000 * k - 296) by (unfold u32; replace ((4294967 + k) * 1000) with (1000 * k - 296 + 1 * 2 ^ 32) by lia; rewrite Z.mod_add by lia; apply Z.mod_small; lia).
  rewrite Hw. set (now := (1000 * k - 296) / 100). assert (Hnow : 0 < now < 42949670) by (subst now; zdiv). unfold modify.
  assert (Hg : forall w, tick_nodes now (s_head s) w = (s_head s, w)).
  { induction Hn as [|n l Hl Hn IH]; intros w; [done|]. cbn [tick_nodes]. assert (E : due now (TickIntervalMs (svc n) w) n = false).
    { unfold due. rewrite Hl. rewrite (proj2 (Z.eqb_neq now 0)), (proj2 (Z.leb_gt 42949670 now)) by lia. cbn. apply andb_false_r. }
    rewrite E, IH. done. }
  rewrite Hg. by destruct s.
Qed.

(** * An example: services named by strings on a FAT16 volume *)

#[export] Instance demo_service : IService (list Z) (list (list Z)) := {
  Name v := v; DefaultEnabled _ := true; TickIntervalMs _ _ := 10; Start _ w := (true, w); Tick v w := w ++ [v];
}.
(** [# hi], [ Service.Net ={TAB}OFF{CR}] and [debug=on]. *)
Definition demo_lines : list cfg_line :=
  [Comment [] [104; 105]; Setting [32] [83; 101; 114; 118; 105; 99; 101; 46; 78; 101; 116] [32] [9] [79; 70; 70] [13]; Setting [] s_debug [] [] s_on []].
Definition demo_fs : fat16 ramdisk :=
  after (WriteFile chain_fuel (Some cfg_path) (Some (config_text demo_lines)) (after (Mkdir chain_fuel (Some [47; 69; 84; 67]) 0 demo_mounted))).
Definition demo_services (timer : option (Z * Z)) : services (fat16 ramdisk) (list Z) (list (list Z)) :=
  mk_services [mk_service [78; 69; 84] true 42949670; mk_service [70; 83] true 42949670] false (Some demo_fs) timer 0 false [].

Lemma ApplyConfig_spec_witness : exists s', ApplyConfig (fun _ => true) (demo_services None) = Some (tt, s') /\
  enabled <$> s_head s' = [false; true] /\ s_debugCfg s' = true.
Proof.
  destruct (ApplyConfig_spec (fun _ => true) (demo_services None) demo_fs demo_fs demo_lines) as (s' & E & Hh & Hd & _ & _); [done|done|vm_compute; reflexivity|done| |].
  - assert (Hlast : forall (l : list Z) x, last l = Some x -> Forall (fun c => is_ws c = false) l -> is_ws x = false) by (intros l x Hx Hl; rewrite Forall_forall in Hl; apply Hl; by apply last_Some_elem_of).
    unfold demo_lines, s_debug, s_on. constructor; [split; repeat constructor; lia|].
    repeat constructor; try lia; try (do 2 eexists; split; [reflexivity|]; split; [done|lia]); intros c Hc; apply (Hlast _ c Hc); repeat constructor.
  - eexists. split; [exact E|]. destruct s' as [h d f t a l w]. cbn in Hh, Hd. subst h d. split; vm_compute; reflexivity.
Defined.

Lemma TickAll_spec_witness : exists s', TickAll (demo_services (Some (2200000, 50))) = Some (tt, s') /\ world s' = [[78; 69; 84]; [70; 83]] /\ last_tick_ms <$> s_head s' = [44000000; 44000000].
Proof.
  assert (Hst : forall (v : list Z) (w : list (list Z)), TickIntervalMs v w = 10) by reflexivity.
  destruct (TickAll_spec (fun _ => 10) Hst (demo_services (Some (2200000, 50))) 44000000 ltac:(vm_compute; reflexivity)) as (s' & E & Hw & Hh & _).
  exists s'. split; [exact E|]. rewrite Hw, Hh. split; vm_compute; reflexivity.
Defined.

Lemma TickAll_stalls_witness : TickAll (demo_services (Some (4294968, 100))) = Some (tt, demo_services (Some (4294968, 100))).
Proof. apply (TickAll_stalls (demo_services (Some (4294968, 100))) 1); [done|lia|repeat constructor]. Defined.
