(* ===== verification/Graphics.v ===== *)
(** Graphics: [framebuffer.cpp], [render_backend.cpp], [compositor.cpp] and
    [font8x8_basic.cpp] of [src/kernel/src/graphics].

    Pixels are words in the kernel's memory: the back buffer is a block of the
    kernel heap, the frame buffer the range the boot loader reports, reached
    through the identity map or through pages mapped for it.  A buffer on the
    stack is a list of words, [None] where nothing was stored yet; reading such
    a word is stuck.  The commands given to the VMSVGA driver are kept as a
    trace; probing for a graphics card and logging are left out. *)
From S2P Require Import Prelude Memory Strings Heap NetPacket.
From S2P Require Paging.

(** * The font *)

Definition kFont8x8Basic : list (list Z) := [
  [0x00; 0x00; 0x00; 0x00; 0x00; 0x00; 0x00; 0x00];
  [0x18; 0x3C; 0x3C; 0x18; 0x18; 0x00; 0x18; 0x00];
  [0x36; 0x36; 0x12; 0x00; 0x00; 0x00; 0x00; 0x00];
  [0x36; 0x36; 0x7F; 0x36; 0x7F; 0x36; 0x36; 0x00];
  [0x0C; 0x3E; 0x03; 0x1E; 0x30; 0x1F; 0x0C; 0x00];
  [0x00; 0x63; 0x33; 0x18; 0x0C; 0x66; 0x63; 0x00];
  [0x1C; 0x36; 0x1C; 0x6E; 0x3B; 0x33; 0x6E; 0x00];
  [0x0C; 0x0C; 0x06; 0x00; 0x00; 0x00; 0x00; 0x00];
  [0x18; 0x0C; 0x06; 0x06; 0x06; 0x0C; 0x18; 0x00];
  [0x06; 0x0C; 0x18; 0x18; 0x18; 0x0C; 0x06; 0x00];
  [0x00; 0x66; 0x3C; 0xFF; 0x3C; 0x66; 0x00; 0x00];
  [0x00; 0x0C; 0x0C; 0x3F; 0x0C; 0x0C; 0x00; 0x00];
  [0x00; 0x00; 0x00; 0x00; 0x0C; 0x0C; 0x06; 0x00];
  [0x00; 0x00; 0x00; 0x3F; 0x00; 0x00; 0x00; 0x00];
  [0x00; 0x00; 0x00; 0x00; 0x0C; 0x0C; 0x00; 0x00];
  [0x60; 0x30; 0x18; 0x0C; 0x06; 0x03; 0x01; 0x00];
  [0x3E; 0x63; 0x73; 0x7B; 0x6F; 0x67; 0x3E; 0x00];
  [0x0C; 0x0E; 0x0F; 0x0C; 0x0C; 0x0C; 0x3F; 0x00];
  [0x1E; 0x33; 0x30; 0x1C; 0x06; 0x33; 0x3F; 0x00];
  [0x1E; 0x33; 0x30; 0x1C; 0x30; 0x33; 0x1E; 0x00];
  [0x38; 0x3C; 0x36; 0x33; 0x7F; 0x30; 0x78; 0x00];
  [0x3F; 0x03; 0x1F; 0x30; 0x30; 0x33; 0x1E; 0x00];
  [0x1C; 0x06; 0x03; 0x1F; 0x33; 0x33; 0x1E; 0x00];
  [0x3F; 0x33; 0x30; 0x18; 0x0C; 0x0C; 0x0C; 0x00];
  [0x1E; 0x33; 0x33; 0x1E; 0x33; 0x33; 0x1E; 0x00];
  [0x1E; 0x33; 0x33; 0x3E; 0x30; 0x18; 0x0E; 0x00];
  [0x00; 0x0C; 0x0C; 0x00; 0x00; 0x0C; 0x0C; 0x00];
  [0x00; 0x0C; 0x0C; 0x00; 0x0C; 0x0C; 0x06; 0x00];
  [0x18; 0x0C; 0x06; 0x03; 0x06; 0x0C; 0x18; 0x00];
  [0x00; 0x00; 0x3F; 0x00; 0x3F; 0x00; 0x00; 0x00];
  [0x06; 0x0C; 0x18; 0x30; 0x18; 0x0C; 0x06; 0x00];
  [0x1E; 0x33; 0x30; 0x18; 0x0C; 0x00; 0x0C; 0x00];
  [0x3E; 0x63; 0x7B; 0x7B; 0x7B; 0x03; 0x1E; 0x00];
  [0x0C; 0x1E; 0x33; 0x33; 0x3F; 0x33; 0x33; 0x00];
  [0x3F; 0x66; 0x66; 0x3E; 0x66; 0x66; 0x3F; 0x00];
  [0x3C; 0x66; 0x03; 0x03; 0x03; 0x66; 0x3C; 0x00];
  [0x1F; 0x36; 0x66; 0x66; 0x66; 0x36; 0x1F; 0x00];
  [0x7F; 0x46; 0x16; 0x1E; 0x16; 0x46; 0x7F; 0x00];
  [0x7F; 0x46; 0x16; 0x1E; 0x16; 0x06; 0x07; 0x00];
  [0x3C; 0x66; 0x03; 0x03; 0x73; 0x66; 0x7C; 0x00];
  [0x33; 0x33; 0x33; 0x3F; 0x33; 0x33; 0x33; 0x00];
  [0x1E; 0x0C; 0x0C; 0x0C; 0x0C; 0x0C; 0x1E; 0x00];
  [0x78; 0x30; 0x30; 0x30; 0x33; 0x33; 0x1E; 0x00];
  [0x67; 0x66; 0x36; 0x1E; 0x36; 0x66; 0x67; 0x00];
  [0x07; 0x06; 0x06; 0x06; 0x46; 0x66; 0x7F; 0x00];
  [0x63; 0x77; 0x7F; 0x6B; 0x63; 0x63; 0x63; 0x00];
  [0x63; 0x67; 0x6F; 0x7B; 0x73; 0x63; 0x63; 0x00];
  [0x1C; 0x36; 0x63; 0x63; 0x63; 0x36; 0x1C; 0x00];
  [0x3F; 0x66; 0x66; 0x3F; 0x06; 0x06; 0x07; 0x00];
  [0x1E; 0x33; 0x33; 0x33; 0x3B; 0x1E; 0x38; 0x00];
  [0x3F; 0x66; 0x66; 0x3F; 0x36; 0x66; 0x67; 0x00];
  [0x1E; 0x33; 0x07; 0x0E; 0x38; 0x33; 0x1E; 0x00];
  [0x3F; 0x2D; 0x0C; 0x0C; 0x0C; 0x0C; 0x1E; 0x00];
  [0x33; 0x33; 0x33; 0x33; 0x33; 0x33; 0x1E; 0x00];
  [0x33; 0x33; 0x33; 0x33; 0x33; 0x1E; 0x0C; 0x00];
  [0x63; 0x63; 0x63; 0x6B; 0x7F; 0x77; 0x63; 0x00];
  [0x63; 0x63; 0x36; 0x1C; 0x1C; 0x36; 0x63; 0x00];
  [0x33; 0x33; 0x33; 0x1E; 0x0C; 0x0C; 0x1E; 0x00];
  [0x7F; 0x63; 0x31; 0x18; 0x0C; 0x46; 0x7F; 0x00];
  [0x1E; 0x06; 0x06; 0x06; 0x06; 0x06; 0x1E; 0x00];
  [0x03; 0x06; 0x0C; 0x18; 0x30; 0x60; 0x40; 0x00];
  [0x1E; 0x18; 0x18; 0x18; 0x18; 0x18; 0x1E; 0x00];
  [0x08; 0x1C; 0x36; 0x63; 0x00; 0x00; 0x00; 0x00];
  [0x00; 0x00; 0x00; 0x00; 0x00; 0x00; 0x00; 0xFF];
  [0x0C; 0x0C; 0x18; 0x00; 0x00; 0x00; 0x00; 0x00];
  [0x00; 0x00; 0x1E; 0x30; 0x3E; 0x33; 0x6E; 0x00];
  [0x07; 0x06; 0x06; 0x1E; 0x36; 0x36; 0x1B; 0x00];
  [0x00; 0x00; 0x1E; 0x33; 0x03; 0x33; 0x1E; 0x00];
  [0x38; 0x30; 0x30; 0x3E; 0x33; 0x33; 0x6E; 0x00];
  [0x00; 0x00; 0x1E; 0x33; 0x3F; 0x03; 0x1E; 0x00];
  [0x1C; 0x36; 0x06; 0x07; 0x06; 0x06; 0x0F; 0x00];
  [0x00; 0x00; 0x6E; 0x33; 0x33; 0x3E; 0x30; 0x1F];
  [0x07; 0x06; 0x36; 0x6E; 0x66; 0x66; 0x67; 0x00];
  [0x0C; 0x00; 0x0E; 0x0C; 0x0C; 0x0C; 0x1E; 0x00];
  [0x30; 0x00; 0x38; 0x30; 0x30; 0x33; 0x33; 0x1E];
  [0x07; 0x06; 0x66; 0x36; 0x1E; 0x36; 0x67; 0x00];
  [0x0E; 0x0C; 0x0C; 0x0C; 0x0C; 0x0C; 0x1E; 0x00];
  [0x00; 0x00; 0x33; 0x7F; 0x7F; 0x6B; 0x63; 0x00];
  [0x00; 0x00; 0x1F; 0x33; 0x33; 0x33; 0x33; 0x00];
  [0x00; 0x00; 0x1E; 0x33; 0x33; 0x33; 0x1E; 0x00];
  [0x00; 0x00; 0x1B; 0x36; 0x36; 0x1E; 0x06; 0x07];
  [0x00; 0x00; 0x6E; 0x33; 0x33; 0x3E; 0x30; 0x70];
  [0x00; 0x00; 0x1B; 0x36; 0x36; 0x06; 0x0F; 0x00];
  [0x00; 0x00; 0x3E; 0x03; 0x1E; 0x30; 0x1F; 0x00];
  [0x08; 0x0C; 0x3E; 0x0C; 0x0C; 0x2C; 0x18; 0x00];
  [0x00; 0x00; 0x33; 0x33; 0x33; 0x33; 0x6E; 0x00];
  [0x00; 0x00; 0x33; 0x33; 0x33; 0x1E; 0x0C; 0x00];
  [0x00; 0x00; 0x63; 0x6B; 0x7F; 0x7F; 0x36; 0x00];
  [0x00; 0x00; 0x63; 0x36; 0x1C; 0x36; 0x63; 0x00];
  [0x00; 0x00; 0x33; 0x33; 0x33; 0x3E; 0x30; 0x1F];
  [0x00; 0x00; 0x3F; 0x19; 0x0C; 0x26; 0x3F; 0x00];
  [0x38; 0x0C; 0x0C; 0x07; 0x0C; 0x0C; 0x38; 0x00];
  [0x0C; 0x0C; 0x0C; 0x00; 0x0C; 0x0C; 0x0C; 0x00];
  [0x07; 0x0C; 0x0C; 0x38; 0x0C; 0x0C; 0x07; 0x00];
  [0x00; 0x00; 0x06; 0x3B; 0x30; 0x00; 0x00; 0x00];
  [0x00; 0x1C; 0x22; 0x49; 0x49; 0x22; 0x1C; 0x00]].

(** * State *)

Record FramebufferInfo := mk_fb {
  fb_addr : Z; fb_pitch : Z; fb_width : Z; fb_height : Z; fb_bpp : Z; fb_type : Z;
  red_pos : Z; red_size : Z; green_pos : Z; green_size : Z; blue_pos : Z; blue_size : Z;
}.

Record Rect := mk_rect { r_x : Z; r_y : Z; r_w : Z; r_h : Z }.
Record WindowDesc := mk_desc { w_x : Z; w_y : Z; w_w : Z; w_h : Z; w_bg : Z; w_title : option (list Z) }.

(** The frame buffer of framebuffer.cpp. *)
Record screen := mk_screen {
  g_fb : FramebufferInfo; g_fb_ready : bool; g_fb_map_failed : bool; g_fb_mapped_base : Z; g_fb_mapped_bytes : Z;
}.

Record BackendState := mk_backend {
  b_ready : bool; b_gpu : bool; b_bpp : Z; b_width : Z; b_height : Z; b_pitch : Z; b_framebuffer : Z; b_backbuffer : Z;
}.

(** The static members of [Compositor] and of its file. *)
Record compositor := mk_comp {
  s_ready : bool; s_gpu_backend : bool; s_pitchBytes : Z; s_width : Z; s_height : Z; s_fbBase : Z;
  s_clip_enabled : bool; s_clip_rect : Rect;
}.

Inductive svga_cmd :=
| SvgaBind (base width height pitch bpp : Z) | SvgaFill (x y w h color : Z) | SvgaBlit (sx sy dx dy w h : Z)
| SvgaUpload (w h pitch x y : Z) | SvgaPresent | SvgaPresentRect (x y w h : Z).

Record gfx := mk_gfx {
  g_heap : heap Paging.paging; g_screen : screen; g_state : BackendState; g_comp : compositor;
  svga_ready : bool; svga : list svga_cmd;
}.

Definition gmem (s : gfx) : mem := h_mem (g_heap s).
Definition set_heap (h : heap Paging.paging) (s : gfx) : gfx := mk_gfx h (g_screen s) (g_state s) (g_comp s) (svga_ready s) (svga s).
Definition set_gmem (m : mem) (s : gfx) : gfx := set_heap (set_mem m (g_heap s)) s.
Definition set_screen (f : screen) (s : gfx) : gfx := mk_gfx (g_heap s) f (g_state s) (g_comp s) (svga_ready s) (svga s).
Definition set_state (b : BackendState) (s : gfx) : gfx := mk_gfx (g_heap s) (g_screen s) b (g_comp s) (svga_ready s) (svga s).
Definition set_comp (c : compositor) (s : gfx) : gfx := mk_gfx (g_heap s) (g_screen s) (g_state s) c (svga_ready s) (svga s).
Definition command (c : svga_cmd) : ST gfx unit :=
  modify (fun s => mk_gfx (g_heap s) (g_screen s) (g_state s) (g_comp s) (svga_ready s) (svga s ++ [c])).
Definition on_paging {A} (m : ST Paging.paging A) : ST gfx A :=
  zoom (fun s => h_supply (g_heap s)) (fun p s => set_heap (set_supply p (g_heap s)) s) m.
Definition on_heap {A} (m : ST (heap Paging.paging) A) : ST gfx A := zoom g_heap set_heap m.

Definition rd8 (a : Z) : ST gfx Z := gets (fun s => read8 (gmem s) a).
Definition rd16 (a : Z) : ST gfx Z := gets (fun s => read16 (gmem s) a).
Definition rd32 (a : Z) : ST gfx Z := gets (fun s => read32 (gmem s) a).
Definition wr8 (a v : Z) : ST gfx unit := modify (fun s => set_gmem (write8 (gmem s) a v) s).
Definition wr32 (a v : Z) : ST gfx unit := modify (fun s => set_gmem (write32 (gmem s) a v) s).
Definition move (dst src n : Z) : ST gfx unit := modify (fun s => set_gmem (memmove (gmem s) dst src (Z.to_nat n)) s).

(** * framebuffer.cpp *)

Definition kIdentityMapEnd : Z := 64 * 1024 * 1024.
Definition kVirtFramebufferBase : Z := 0x11000000.
Definition WriteThrough : Z := 8.
Definition CacheDisable : Z := 16.
Definition MAP_FLAGS : Z := Z.lor (Z.lor (Z.lor Paging.Present Paging.RW) WriteThrough) CacheDisable.
(** [(n + 4095) & ~4095u]. *)
Definition page_round (n : Z) : Z := Z.land (u32 (n + 4095)) 0xFFFFF000.

(** Map the frame buffer at [va]; whether the first page translates to it. *)
Definition map_fb (va addr size : Z) : ST gfx bool :=
  on_paging (Paging.MapRange va (u32 addr) size MAP_FLAGS);;;
  let! got := on_paging (Paging.GetPhys va) in
  ret (Z.land (u32 got) 0xFFFFF000 =? Z.land (u32 addr) 0xFFFFF000).

(** [ResolveFramebufferBase]: 0 for [nullptr]. *)
Definition ResolveFramebufferBase : ST gfx Z :=
  let! f := gets g_screen in
  if negb (g_fb_ready f) then ret 0
  else if fb_addr (g_fb f) <? kIdentityMapEnd then ret (u32 (fb_addr (g_fb f)))
  else if g_fb_map_failed f then ret 0
  else
    let fbBytes := u32 (fb_height (g_fb f) * fb_pitch (g_fb f)) in
    let mapSize := page_round fbBytes in
    if (g_fb_mapped_base f =? 0) || negb (g_fb_mapped_bytes f =? mapSize) then
      let! ok := map_fb kVirtFramebufferBase (fb_addr (g_fb f)) mapSize in
      if ok then modify (set_screen (mk_screen (g_fb f) (g_fb_ready f) (g_fb_map_failed f) kVirtFramebufferBase mapSize));;; ret kVirtFramebufferBase
      else modify (set_screen (mk_screen (g_fb f) (g_fb_ready f) true 0 0));;; ret 0
    else ret (g_fb_mapped_base f).

Definition IsAvailable (f : screen) : bool :=
  g_fb_ready f && (fb_type (g_fb f) =? 1) && ((fb_bpp (g_fb f) =? 32) || (fb_bpp (g_fb f) =? 24)).

Definition MULTIBOOT2_MAGIC : Z := 0x36d76289.
Definition MB2_TAG_TYPE_END : Z := 0.
Definition MB2_TAG_TYPE_FRAMEBUFFER : Z := 8.

(** The fields of the frame buffer tag at [p], with the colour layout that
    follows it when the type is RGB. *)
Definition framebuffer_tag (m : mem) (p : Z) : FramebufferInfo :=
  let ty := read8 m (p + 29) in
  let rgb i := if ty =? 1 then read8 m (p + 32 + i) else 0 in
  mk_fb (read32 m (p + 8) + 2 ^ 32 * read32 m (p + 12)) (read32 m (p + 16)) (read32 m (p + 20)) (read32 m (p + 24))
    (read8 m (p + 28)) ty (rgb 0) (rgb 1) (rgb 2) (rgb 3) (rgb 4) (rgb 5).

(** The walk over the tags; a tag of size 0 is never left. *)
Fixpoint mb2_tags (fuel : nat) (m : mem) (p : Z) : option (option FramebufferInfo) :=
  match fuel with
  | O => None
  | S fuel' =>
      let type := read32 m p in
      if type =? MB2_TAG_TYPE_END then Some None
      else if type =? MB2_TAG_TYPE_FRAMEBUFFER then Some (Some (framebuffer_tag m p))
      else mb2_tags fuel' m (u32 (p + Z.land (u32 (read32 m (p + 4) + 7)) 0xFFFFFFF8))
  end.

(** The VBE fallback for Multiboot 1: flags bit 11, the mode information block
    at the address in [vbe_mode_info]. *)
Definition mb1_vbe (m : mem) (mbi : Z) : option FramebufferInfo :=
  if Z.land (read32 m mbi) (Z.shiftl 1 11) =? 0 then None
  else
    let vmi := read32 m (mbi + 76) in
    if vmi =? 0 then None
    else if read8 m (vmi + 25) =? 32 then
      let width := read16 m (vmi + 18) in
      let pitch := read16 m (vmi + 16) in
      Some (mk_fb (read32 m (vmi + 40)) (if pitch =? 0 then u32 (width * 4) else pitch) width (read16 m (vmi + 20))
        (read8 m (vmi + 25)) 1 (read8 m (vmi + 32)) (read8 m (vmi + 31)) (read8 m (vmi + 34)) (read8 m (vmi + 33))
        (read8 m (vmi + 36)) (read8 m (vmi + 35)))
    else None.

Definition InitFromMultiboot (fuel : nat) (mb_info magic : Z) : ST gfx unit :=
  let! f := gets g_screen in
  let reset fb ready := set_screen (mk_screen fb ready false 0 0) in
  modify (reset (g_fb f) false);;;
  if mb_info =? 0 then ret tt
  else
    let! m := gets gmem in
    if negb (magic =? MULTIBOOT2_MAGIC) then
      if magic =? 0x2BADB002 then
        match mb1_vbe m mb_info with Some fb => modify (reset fb true) | None => ret tt end
      else ret tt
    else
      match mb2_tags fuel m (u32 (mb_info + 8)) with
      | None => stuck
      | Some None => ret tt
      | Some (Some fb) => modify (reset fb true)
      end.

(** [for (i = 0; i < n; ++i) body(i)] with a 32-bit counter. *)
Definition loop {S} (n : Z) (body : Z -> ST S unit) : ST S unit := for_loop (Z.to_nat n) 0 body.

Definition put24 (p r g b : Z) : ST gfx unit := wr8 p b;;; wr8 (u32 (p + 1)) g;;; wr8 (u32 (p + 2)) r.

Definition Clear32 (rgba : Z) : ST gfx unit :=
  let! f := gets g_screen in
  if negb (IsAvailable f) then ret tt
  else
    let! base := ResolveFramebufferBase in
    if base =? 0 then ret tt
    else if fb_bpp (g_fb f) =? 32 then
      loop (fb_height (g_fb f)) (fun y =>
        let row := u32 (base + u32 (y * fb_pitch (g_fb f))) in
        loop (fb_width (g_fb f)) (fun x => wr32 (u32 (row + 4 * x)) rgba))
    else if fb_bpp (g_fb f) =? 24 then
      let r := Z.land (Z.shiftr rgba 16) 0xFF in
      let g := Z.land (Z.shiftr rgba 8) 0xFF in
      let b := Z.land rgba 0xFF in
      loop (fb_height (g_fb f)) (fun y =>
        let row := u32 (base + u32 (y * fb_pitch (g_fb f))) in
        loop (fb_width (g_fb f)) (fun x => put24 (u32 (row + u32 (x * 3))) r g b))
    else ret tt.

Definition PutPixel32 (x y rgba : Z) : ST gfx unit :=
  let! f := gets g_screen in
  if negb (IsAvailable f) then ret tt
  else if (fb_width (g_fb f) <=? x) || (fb_height (g_fb f) <=? y) then ret tt
  else
    let! base := ResolveFramebufferBase in
    if base =? 0 then ret tt
    else
      let row := u32 (base + u32 (y * fb_pitch (g_fb f))) in
      if fb_bpp (g_fb f) =? 32 then wr32 (u32 (row + 4 * x)) rgba
      else if fb_bpp (g_fb f) =? 24 then
        let r := Z.land (Z.shiftr rgba 16) 0xFF in
        let g := Z.land (Z.shiftr rgba 8) 0xFF in
        let b := Z.land rgba 0xFF in
        put24 (u32 (row + u32 (x * 3))) r g b
      else ret tt.

(** * render_backend.cpp *)

(** The address of the pixel [n] words behind the start of row [y]. *)
Definition pixel (b : BackendState) (y n : Z) : Z := u32 (b_backbuffer b + 4 * (u32 (u32 y * b_width b) + n)).
Definition svga_on (b : BackendState) : ST gfx bool := let! r := gets svga_ready in ret (b_gpu b && r).

Definition render_Initialize (width height pitch_bytes bpp framebuffer_base : Z) (gpu_backend : bool) : ST gfx bool :=
  modify (set_state (mk_backend false gpu_backend bpp width height pitch_bytes framebuffer_base 0));;;
  let bytes := u32 (u32 (width * height) * 4) in
  let! bb := on_heap (Alloc bytes 4096) in
  modify (set_state (mk_backend false gpu_backend bpp width height pitch_bytes framebuffer_base bb));;;
  if bb =? 0 then ret false
  else
    loop (u32 (width * height)) (fun i => wr32 (u32 (bb + 4 * i)) 0xFF000000);;;
    let! b := gets g_state in
    let! g := svga_on b in
    (if g then command (SvgaBind framebuffer_base width height pitch_bytes bpp) else ret tt);;;
    modify (set_state (mk_backend true gpu_backend bpp width height pitch_bytes framebuffer_base bb));;;
    ret true.

Definition render_Shutdown : ST gfx unit := modify (set_state (mk_backend false false 0 0 0 0 0 0)).

Definition Fill (x y w h color : Z) : ST gfx unit :=
  let! b := gets g_state in
  if negb (b_ready b) || (b_backbuffer b =? 0) then ret tt
  else if (b_width b <=? x) || (b_height b <=? y) then ret tt
  else
    let w := Z.min w (b_width b - x) in
    let h := Z.min h (b_height b - y) in
    loop h (fun row => loop w (fun col => wr32 (pixel b (y + row) (x + col)) color));;;
    let! g := svga_on b in
    if g then command (SvgaFill x y w h color) else ret tt.

Definition Blit (src_x src_y dst_x dst_y w h : Z) : ST gfx unit :=
  let! b := gets g_state in
  if negb (b_ready b) || (b_backbuffer b =? 0) then ret tt
  else if (b_width b <=? src_x) || (b_height b <=? src_y) then ret tt
  else if (b_width b <=? dst_x) || (b_height b <=? dst_y) then ret tt
  else
    let copy_w := Z.min w (Z.min (b_width b - src_x) (b_width b - dst_x)) in
    let copy_h := Z.min h (Z.min (b_height b - src_y) (b_height b - dst_y)) in
    if (copy_w =? 0) || (copy_h =? 0) then ret tt
    else
      (if src_y <? dst_y then
         loop copy_h (fun k =>
           let row := copy_h - k in
           move (pixel b (dst_y + row - 1) dst_x) (pixel b (src_y + row - 1) src_x) (u32 (copy_w * 4)))
       else
         loop copy_h (fun row => move (pixel b (dst_y + row) dst_x) (pixel b (src_y + row) src_x) (u32 (copy_w * 4))));;;
      let! g := svga_on b in
      if g then command (SvgaBlit src_x src_y dst_x dst_y copy_w copy_h) else ret tt.

(** The words of a buffer on the stack, copied by [memmove] to the back buffer. *)
Definition store_word (a : Z) (src : list (option Z)) (i : Z) : ST gfx unit :=
  match src !! Z.to_nat i with Some (Some v) => wr32 a v | _ => stuck end.

Definition Upload (src : list (option Z)) (src_width src_height src_pitch dst_x dst_y : Z) : ST gfx unit :=
  let! b := gets g_state in
  if negb (b_ready b) || (b_backbuffer b =? 0) then ret tt
  else if (b_width b <=? dst_x) || (b_height b <=? dst_y) then ret tt
  else
    let copy_w := Z.min src_width (b_width b - dst_x) in
    let copy_h := Z.min src_height (b_height b - dst_y) in
    loop copy_h (fun row => loop copy_w (fun col => store_word (pixel b (dst_y + row) (dst_x + col)) src (u32 (row * src_pitch) + col)));;;
    let! g := svga_on b in
    if g then command (SvgaUpload src_width src_height src_pitch dst_x dst_y) else ret tt.

Definition Present : ST gfx unit :=
  let! b := gets g_state in
  if negb (b_ready b) || (b_framebuffer b =? 0) || (b_backbuffer b =? 0) then ret tt
  else
    let! g := svga_on b in
    if g then command SvgaPresent
    else
      (if b_bpp b =? 32 then
         loop (b_height b) (fun y => move (u32 (b_framebuffer b + u32 (y * b_pitch b))) (pixel b y 0) (u32 (b_width b * 4)))
       else
         loop (b_height b) (fun y =>
           let dst := u32 (b_framebuffer b + u32 (y * b_pitch b)) in
           loop (b_width b) (fun x =>
             let! argb := rd32 (pixel b y x) in
             wr8 (u32 (dst + u32 (x * 3))) (Z.land argb 0xFF);;;
             wr8 (u32 (dst + u32 (u32 (x * 3) + 1))) (Z.land (Z.shiftr argb 8) 0xFF);;;
             wr8 (u32 (dst + u32 (u32 (x * 3) + 2))) (Z.land (Z.shiftr argb 16) 0xFF))));;;
      let! r := gets svga_ready in
      if negb (b_gpu b) && r then command (SvgaPresentRect 0 0 (b_width b) (b_height b)) else ret tt.

(** * compositor.cpp *)

Definition VIRT_FB_BASE : Z := 0x10000000.

(** The members [Initialize] sets. *)
Definition put_comp (fb : FramebufferInfo) (c : compositor) (ready : bool) (base : Z) : gfx -> gfx :=
  set_comp (mk_comp ready false (fb_pitch fb) (fb_width fb) (fb_height fb) base (s_clip_enabled c) (s_clip_rect c)).

Definition Initialize : ST gfx bool :=
  let! f := gets g_screen in
  if negb (IsAvailable f) then ret false
  else
    let fb := g_fb f in
    if negb (fb_type fb =? 1) || (negb (fb_bpp fb =? 32) && negb (fb_bpp fb =? 24)) then ret false
    else
      let! c := gets g_comp in
      modify (put_comp fb c (s_ready c) (s_fbBase c));;;
      let fbBytes := u32 (fb_height fb * fb_pitch fb) in
      let mapSize := page_round fbBytes in
      let! base :=
        (if fb_addr fb <? kIdentityMapEnd then ret (u32 (fb_addr fb))
         else let! ok := map_fb VIRT_FB_BASE (fb_addr fb) mapSize in ret (if ok : bool then VIRT_FB_BASE else 0)) in
      if negb (fb_addr fb <? kIdentityMapEnd) && (base =? 0) then ret false
      else
        modify (put_comp fb c (s_ready c) base);;;
        let! ok := render_Initialize (fb_width fb) (fb_height fb) (fb_pitch fb) (fb_bpp fb) base false in
        modify (put_comp fb c ok base);;;
        ret ok.

Definition Shutdown : ST gfx unit :=
  let! c := gets g_comp in
  modify (set_comp (mk_comp false false (s_pitchBytes c) (s_width c) (s_height c) (s_fbBase c) (s_clip_enabled c) (s_clip_rect c)));;;
  render_Shutdown.

Definition set_clip (on : bool) (r : Rect) : ST gfx unit :=
  let! c := gets g_comp in
  modify (set_comp (mk_comp (s_ready c) (s_gpu_backend c) (s_pitchBytes c) (s_width c) (s_height c) (s_fbBase c) on r)).

Definition BeginFrame (wallpaper : Z) : ST gfx unit :=
  let! c := gets g_comp in
  if negb (s_ready c) then ret tt
  else set_clip false (s_clip_rect c);;; Fill 0 0 (s_width c) (s_height c) wallpaper.

Definition addSat8 (v delta : Z) : Z :=
  let nv := v + delta in
  let nv := if nv <? 0 then 0 else nv in
  if 255 <? nv then 255 else nv.

Definition argb (r g b : Z) : Z := Z.lor (Z.lor (Z.lor 0xFF000000 (Z.shiftl r 16)) (Z.shiftl g 8)) b.

Definition darkenColor (c amount : Z) : Z :=
  let r := Z.land (Z.shiftr c 16) 0xFF in
  let g := Z.land (Z.shiftr c 8) 0xFF in
  let b := Z.land c 0xFF in
  let dim v := if amount <? v then v - amount else 0 in
  argb (dim r) (dim g) (dim b).

Definition tintColor (c delta : Z) : Z :=
  let r := Z.land (Z.shiftr c 16) 0xFF in
  let g := Z.land (Z.shiftr c 8) 0xFF in
  let b := Z.land c 0xFF in
  argb (addSat8 r delta) (addSat8 g delta) (addSat8 b delta).

Definition blitCheckerBackend (x y w h cA cB cell : Z) : ST gfx unit :=
  let cell := if cell =? 0 then 1 else cell in
  loop h (fun j => loop w (fun i =>
    let tx := u32 (x + i) / cell in
    let ty := u32 (y + j) / cell in
    Fill (u32 (x + i)) (u32 (y + j)) 1 1 (if Z.odd (u32 (tx + ty)) then cA else cB))).

(** The pixel of an 8x8 glyph at a row and column, [None] outside the screen,
    where the loops break; 0 outside the clip rectangle. *)
Definition glyph_pixel (c : compositor) (x y : Z) (glyph : list Z) (fg bg : Z) (row col : Z) : option Z :=
  let py := u32 (y + row) in
  let px := u32 (x + col) in
  if (s_height c <=? py) || (s_width c <=? px) then None
  else
    let r := s_clip_rect c in
    if s_clip_enabled c && ((px <? r_x r) || (py <? r_y r) || (u32 (r_x r + r_w r) <=? px) || (u32 (r_y r + r_h r) <=? py)) then Some 0
    else Some (if Z.land (default 0 (glyph !! Z.to_nat row)) (Z.shiftl 1 col) =? 0 then bg else fg).

(** The buffer of 64 words: a row is stored up to the first [break]. *)
Definition glyph_row (f : Z -> option Z) : list (option Z) :=
  foldr (fun col rest => match f col with Some v => Some v :: rest | None => replicate (8 - Z.to_nat col) None end) [] (seqZ 0 8).
Definition glyph_buffer (c : compositor) (x y : Z) (glyph : list Z) (fg bg : Z) : list (option Z) :=
  foldr (fun row rest =>
    if s_height c <=? u32 (y + row) then replicate (8 * (8 - Z.to_nat row)) None
    else glyph_row (glyph_pixel c x y glyph fg bg row) ++ rest) [] (seqZ 0 8).

Definition DrawGlyph8x8 (x y : Z) (glyph : list Z) (fg bg : Z) : ST gfx unit :=
  let! c := gets g_comp in
  if negb (s_ready c) then ret tt
  else if (s_width c <=? x) || (s_height c <=? y) then ret tt
  else Upload (glyph_buffer c x y glyph fg bg) 8 8 8 x y.

(** [FillRect] after the rectangle is cut to the screen. *)
Definition clip_rect (c : compositor) (x y w h : Z) : option (Z * Z * Z * Z) :=
  if s_clip_enabled c then
    let r := s_clip_rect c in
    let cx2 := u32 (r_x r + r_w r) in
    let cy2 := u32 (r_y r + r_h r) in
    let rx2 := u32 (x + w) in
    let ry2 := u32 (y + h) in
    if (rx2 <=? r_x r) || (ry2 <=? r_y r) || (cx2 <=? x) || (cy2 <=? y) then None
    else
      let rx1 := Z.max x (r_x r) in
      let ry1 := Z.max y (r_y r) in
      Some (rx1, ry1, Z.min rx2 cx2 - rx1, Z.min ry2 cy2 - ry1)
  else Some (x, y, w, h).

Definition FillRect (x y w h color : Z) : ST gfx unit :=
  let! c := gets g_comp in
  if negb (s_ready c) then ret tt
  else if (s_width c <=? x) || (s_height c <=? y) then ret tt
  else
    let w := if s_width c <? u32 (x + w) then s_width c - x else w in
    let h := if s_height c <? u32 (y + h) then s_height c - y else h in
    match clip_rect c x y w h with
    | None => ret tt
    | Some (x, y, w, h) => Fill x y (u32 w) (u32 h) color
    end.

Definition SetClipRect (x y w h : Z) : ST gfx unit :=
  let! c := gets g_comp in
  if negb (s_ready c) || (w =? 0) || (h =? 0) then set_clip false (s_clip_rect c)
  else if (s_width c <=? x) || (s_height c <=? y) then set_clip false (s_clip_rect c)
  else
    let w := if s_width c <? u32 (x + w) then s_width c - x else w in
    let h := if s_height c <? u32 (y + h) then s_height c - y else h in
    set_clip true (mk_rect x y w h).

Definition ClearClipRect : ST gfx unit := let! c := gets g_comp in set_clip false (s_clip_rect c).

(** ** Windows *)

Definition TITLE_H : Z := 18.
Definition kTitleBg : Z := 0xFF1A3470.
Definition kTitleFg : Z := 0xFFFFFF9E.
Definition kTitleShadow : Z := 0xFF0A1020.
Definition kTopLight : Z := 0xFF9CC7FF.
Definition kBottomDark : Z := 0xFF001636.

(** [for (sy = y + 1; sy < end; sy += 2)]. *)
Fixpoint stripes (fuel : nat) (sy last x w : Z) : ST gfx unit :=
  match fuel with
  | O => stuck
  | S fuel' => if sy <? last then Fill x sy w 1 0xFF17305F;;; stripes fuel' (u32 (sy + 2)) last x w else ret tt
  end.

Definition glyph_of (ch : Z) : list Z :=
  let ch := if (ch <? 32) || (127 <? ch) then 63 else ch in
  default [] (kFont8x8Basic !! Z.to_nat (ch - 32)).

Fixpoint draw_title (title : list Z) (i maxChars x y : Z) : ST gfx unit :=
  match title with
  | [] => ret tt
  | ch :: title' =>
      if i <? maxChars then
        DrawGlyph8x8 (u32 (x + 4 + i * 8 + 1)) (u32 (y + 4 + 1)) (glyph_of ch) kTitleShadow kTitleBg;;;
        DrawGlyph8x8 (u32 (x + 4 + i * 8)) (u32 (y + 4)) (glyph_of ch) kTitleFg kTitleBg;;;
        draw_title title' (i + 1) maxChars x y
      else ret tt
  end.

(** The glyph of a button: 0 minimise, 1 maximise, 2 close. *)
Definition button_glyph (code : Z) : list (option Z) :=
  (fun k => let r := k / 8 in let c := k mod 8 in
     let on := if code =? 0 then r =? 3
               else if code =? 1 then (r =? 0) || (r =? 7) || (c =? 0) || (c =? 7)
               else (c =? r) || (c =? 7 - r) in
     Some (if on : bool then 0xFFFFE26F else 0xFF244684)) <$> seqZ 0 64.

Definition drawBtn (btnH bx by_ code : Z) : ST gfx unit :=
  Fill bx by_ 18 btnH 0xFF244684;;;
  Fill bx by_ 18 1 kTopLight;;;
  Fill bx (u32 (by_ + btnH - 1)) 18 1 kBottomDark;;;
  Fill bx by_ 1 btnH kTopLight;;;
  Fill (u32 (bx + 18 - 1)) by_ 1 btnH kBottomDark;;;
  Upload (button_glyph code) 8 8 8 (u32 (bx + 9 - 4)) (u32 (by_ + btnH / 2 - 4)).

Definition DrawWindow (win : WindowDesc) : ST gfx unit :=
  let! c := gets g_comp in
  if negb (s_ready c) then ret tt
  else
    let x := w_x win in
    let y := w_y win in
    if (s_width c <=? x) || (s_height c <=? y) then ret tt
    else
      let w := if s_width c <? u32 (x + w_w win) then s_width c - x else w_w win in
      let h := if s_height c <? u32 (y + w_h win) then s_height c - y else w_h win in
      let titleH := if h <? TITLE_H then h else TITLE_H in
      let bodyH := if TITLE_H <? h then h - TITLE_H else 0 in
      (if negb (bodyH =? 0) then
         blitCheckerBackend x (u32 (y + TITLE_H)) w bodyH (tintColor (w_bg win) (-8)) (tintColor (w_bg win) 6) 2
       else ret tt);;;
      Fill x y w titleH kTitleBg;;;
      stripes 10 (u32 (y + 1)) (u32 (y + titleH)) x w;;;
      Fill x y w 1 kTopLight;;;
      Fill x y 1 h kTopLight;;;
      (if 1 <? w then Fill (u32 (x + w - 1)) y 1 h kBottomDark else ret tt);;;
      (if 1 <? h then Fill x (u32 (y + h - 1)) w 1 kBottomDark else ret tt);;;
      (match w_title win with
       | None => ret tt
       | Some title => draw_title title 0 (if 8 <? w then (w - 8) / 8 else 0) x y
       end);;;
      let closeX := u32 (x + w - 2 - 18) in
      let maxX := if 20 <=? closeX then closeX - 20 else closeX in
      let minX := if 20 <=? maxX then maxX - 20 else maxX in
      drawBtn titleH minX y 0;;;
      drawBtn titleH maxX y 1;;;
      drawBtn titleH closeX y 2.

Definition EndFrame : ST gfx unit :=
  let! c := gets g_comp in
  if negb (s_ready c) then ret tt
  else
    let! b := gets g_state in
    (if negb (s_gpu_backend c) then
       loop (s_height c / 2) (fun k =>
         let y := 2 * k + 1 in
         loop (s_width c) (fun x =>
           let a := u32 (b_backbuffer b + 4 * (u32 (y * s_width c) + x)) in
           let! v := rd32 a in
           wr32 a (darkenColor v 18)))
     else ret tt);;;
    Present.

(** * Drawing stays inside the back buffer *)

(** A back buffer that fits the address space, and a compositor of its size. *)
Record surface (s : gfx) : Prop := {
  sf_ready : b_ready (g_state s) = true;
  sf_base : 0 < b_backbuffer (g_state s);
  sf_width : 0 <= b_width (g_state s) < 2 ^ 16;
  sf_height : 0 <= b_height (g_state s) < 2 ^ 16;
  sf_fits : b_backbuffer (g_state s) + 4 * (b_width (g_state s) * b_height (g_state s)) <= 2 ^ 32;
  sf_comp : s_width (g_comp s) = b_width (g_state s) /\ s_height (g_comp s) = b_height (g_state s);
}.

Definition backbuffer_end (s : gfx) : Z := b_backbuffer (g_state s) + 4 * (b_width (g_state s) * b_height (g_state s)).
Definition pixel_at (s : gfx) (x y : Z) : Z := b_backbuffer (g_state s) + 4 * (y * b_width (g_state s) + x).
Definition px (s : gfx) (x y : Z) : Z := read32 (gmem s) (pixel_at s x y).
Definition on_screen (s : gfx) (x y : Z) : Prop := 0 <= x < b_width (g_state s) /\ 0 <= y < b_height (g_state s).

(** Only pixels of the back buffer and the trace of commands have changed. *)
Record drawn (s s' : gfx) : Prop := {
  dr_heap : g_heap s' = set_mem (gmem s') (g_heap s);
  dr_screen : g_screen s' = g_screen s;
  dr_state : g_state s' = g_state s;
  dr_comp : g_comp s' = g_comp s;
  dr_svga : svga_ready s' = svga_ready s;
  dr_mem : forall a, a < b_backbuffer (g_state s) \/ backbuffer_end s <= a -> read8 (gmem s') a = read8 (gmem s) a;
}.

#[export] Instance drawn_preorder : PreOrder drawn.
Proof.
  split.
  - intros s. split; try done. by destruct s as [[]].
  - intros s1 s2 s3 [H1 H2 H3 H4 H5 H6] [K1 K2 K3 K4 K5 K6]. split; try congruence.
    + rewrite K1, H1. by destruct (g_heap s1).
    + intros a Ha. rewrite K6, H6; [done|done|]. unfold backbuffer_end in *. by rewrite H3.
Qed.

Lemma drawn_surface s s' : drawn s s' -> surface s -> surface s'.
Proof. intros [? ? E1 E2 ? ?] []. split; rewrite ?E1, ?E2; done. Qed.

(** A computation that returns and only draws. *)
Definition draws (m : ST gfx unit) : Prop := forall s, surface s -> exists s', m s = Some (tt, s') /\ drawn s s'.

Lemma draws_ret : draws (ret tt).
Proof. intros s _. exists s. by split. Qed.
Lemma draws_bind m1 m2 : draws m1 -> draws m2 -> draws (m1;;; m2).
Proof.
  intros H1 H2 s Hs. destruct (H1 s Hs) as (s1 & E1 & D1). destruct (H2 s1 (drawn_surface _ _ D1 Hs)) as (s2 & E2 & D2).
  exists s2. split; [by rewrite (bind_step _ _ _ _ _ E1)|by etransitivity].
Qed.
Lemma draws_if (b : bool) m1 m2 : draws m1 -> draws m2 -> draws (if b then m1 else m2).
Proof. by destruct b. Qed.
(** A branch on what is known of the state. *)
Lemma draws_gets {A} (f : gfx -> A) (k : A -> ST gfx unit) :
  (forall s, surface s -> exists s', k (f s) s = Some (tt, s') /\ drawn s s') -> draws (let! x := gets f in k x).
Proof. intros H s Hs. rewrite gets_step. by apply H. Qed.
Lemma draws_for n lo (body : Z -> ST gfx unit) : (forall i, lo <= i < lo + Z.of_nat n -> draws (body i)) -> draws (for_loop n lo body).
Proof.
  revert lo. induction n as [|n IH]; intros lo Hb; [apply draws_ret|]. cbn [for_loop].
  apply draws_bind; [apply Hb; lia|apply IH; intros; apply Hb; lia].
Qed.
Lemma draws_loop n body : (forall i, 0 <= i < n -> draws (body i)) -> draws (loop n body).
Proof. intros Hb. apply draws_for. intros i Hi. apply Hb. lia. Qed.
Lemma draws_command c : draws (command c).
Proof. intros s Hs. eexists. split; [done|]. split; try done. by destruct s as [[]]. Qed.

(** ** Pixels *)

Lemma pixel_in s x y : surface s -> on_screen s x y ->
  pixel (g_state s) y x = pixel_at s x y /\ b_backbuffer (g_state s) <= pixel_at s x y /\ pixel_at s x y + 4 <= backbuffer_end s /\
  0 <= y * b_width (g_state s) /\ y * b_width (g_state s) + x < 2 ^ 32.
Proof.
  intros [_ Hb Hw Hh Hf _] [Hx Hy]. unfold pixel, pixel_at, backbuffer_end.
  assert (0 <= y * b_width (g_state s) <= (b_height (g_state s) - 1) * b_width (g_state s)) by nia.
  assert (b_width (g_state s) * b_height (g_state s) = (b_height (g_state s) - 1) * b_width (g_state s) + b_width (g_state s)) by lia.
  rewrite (u32_small y), (u32_small (y * _)) by lia. rewrite u32_small by lia. lia.
Qed.

Lemma pixel_inj s x y x' y' : on_screen s x y -> on_screen s x' y' ->
  (x = x' /\ y = y') \/ pixel_at s x y + 4 <= pixel_at s x' y' \/ pixel_at s x' y' + 4 <= pixel_at s x y.
Proof.
  intros [Hx Hy] [Hx' Hy']. unfold pixel_at. destruct (Z.lt_trichotomy y y') as [H|[->|H]]; [right; left; nia|destruct (Z.lt_trichotomy x x') as [?|[?|?]]; lia|right; right; nia].
Qed.

(** The state after storing a pixel. *)
Definition plot (s : gfx) (x y v : Z) : gfx := set_gmem (write32 (gmem s) (pixel_at s x y) v) s.

Lemma plot_drawn s x y v : surface s -> on_screen s x y -> drawn s (plot s x y v).
Proof.
  intros Hs Ho. destruct (pixel_in s x y Hs Ho) as (_ & Hlo & Hhi & _). split; try done.
  intros a Ha. apply read8_write32_ne. lia.
Qed.
Lemma wr32_pixel s x y v : surface s -> on_screen s x y -> wr32 (pixel (g_state s) y x) v s = Some (tt, plot s x y v).
Proof. intros Hs Ho. unfold wr32, modify. by rewrite (proj1 (pixel_in s x y Hs Ho)). Qed.
Lemma px_plot s x y v i j : on_screen s x y -> on_screen s i j -> px (plot s x y v) i j = if decide (i = x /\ j = y) then u32 v else px s i j.
Proof.
  intros Ho Hij. unfold px, plot. change (pixel_at (set_gmem _ s) i j) with (pixel_at s i j). cbn [gmem set_gmem set_heap g_heap set_mem h_mem]. case_decide as H.
  - destruct H as [-> ->]. apply read32_write32_eq.
  - apply read32_write32_ne. destruct (pixel_inj s x y i j Ho Hij) as [[-> ->]|?]; [tauto|lia].
Qed.

Lemma drawn_on_screen s s' x y : drawn s s' -> on_screen s' x y <-> on_screen s x y.
Proof. intros D. unfold on_screen. by rewrite (dr_state _ _ D). Qed.

(** One row of a picture. *)
Lemma row_ok (g : Z -> ST gfx unit) f x y w s : surface s -> 0 <= x -> 0 <= w -> x + w <= b_width (g_state s) -> 0 <= y < b_height (g_state s) ->
  (forall col s', drawn s s' -> 0 <= col < w -> g col s' = Some (tt, plot s' (x + col) y (f col))) ->
  exists s', loop w g s = Some (tt, s') /\ drawn s s' /\
    forall i j, on_screen s i j -> px s' i j = if decide (x <= i < x + w /\ j = y) then u32 (f (i - x)) else px s i j.
Proof.
  intros Hs Hx Hw Hxw Hy Hg. unfold loop.
  destruct (hoare_for (Z.to_nat w) 0 g (fun col s' => drawn s s' /\ forall i j, on_screen s i j ->
    px s' i j = if decide (x <= i < x + col /\ j = y) then u32 (f (i - x)) else px s i j)) with (s := s) as ([] & s' & E & D & Hpx).
  - intros col Hcol s1 [D Hpx]. assert (Ho : on_screen s (x + col) y) by (split; lia).
    exists tt, (plot s1 (x + col) y (f col)). split; [apply Hg; [done|lia]|]. split.
    + etransitivity; [done|]. apply plot_drawn; [by eapply drawn_surface|by apply (drawn_on_screen s)].
    + intros i j Hij. rewrite px_plot by (by apply (drawn_on_screen s)). rewrite Hpx by done.
      repeat case_decide; try lia. destruct_and!. subst. by replace (x + col - x) with col by lia.
  - split; [done|]. intros i j _. rewrite decide_False by lia. done.
  - exists s'. split; [done|]. split; [done|]. intros i j Hij. rewrite Hpx by done. by replace (x + (0 + Z.of_nat (Z.to_nat w))) with (x + w) by lia.
Qed.

(** A picture of [w] by [h] pixels at [x], [y], inside the screen. *)
Lemma paint_ok (g : Z -> Z -> ST gfx unit) f x y w h s : surface s -> 0 <= x -> 0 <= y -> 0 <= w -> 0 <= h ->
  x + w <= b_width (g_state s) -> y + h <= b_height (g_state s) ->
  (forall row col s', drawn s s' -> 0 <= row < h -> 0 <= col < w -> g row col s' = Some (tt, plot s' (x + col) (y + row) (f row col))) ->
  exists s', loop h (fun row => loop w (g row)) s = Some (tt, s') /\ drawn s s' /\
    forall i j, on_screen s i j -> px s' i j = if decide (x <= i < x + w /\ y <= j < y + h) then u32 (f (j - y) (i - x)) else px s i j.
Proof.
  intros Hs Hx Hy Hw Hh Hxw Hyh Hg. unfold loop at 1.
  destruct (hoare_for (Z.to_nat h) 0 (fun row => loop w (g row)) (fun row s' => drawn s s' /\ forall i j, on_screen s i j ->
    px s' i j = if decide (x <= i < x + w /\ y <= j < y + row) then u32 (f (j - y) (i - x)) else px s i j)) with (s := s) as ([] & s' & E & D & Hpx).
  - intros row Hrow s1 [D Hpx]. pose proof (dr_state _ _ D) as Est.
    destruct (row_ok (g row) (f row) x (y + row) w s1) as (s2 & E2 & D2 & Hpx2); [by eapply drawn_surface|lia|lia|by rewrite Est|rewrite Est; lia| |].
    { intros col s2 D2 Hcol. apply Hg; [by etransitivity|lia|lia]. }
    exists tt, s2. split; [done|]. split; [by etransitivity|]. intros i j Hij. rewrite Hpx2 by (by apply (drawn_on_screen s)).
    rewrite Hpx by done. repeat case_decide; try lia. destruct_and!. subst. by replace (y + row - y) with row by lia.
  - split; [done|]. intros i j _. rewrite decide_False by lia. done.
  - exists s'. split; [done|]. split; [done|]. intros i j Hij. rewrite Hpx by done. by replace (y + (0 + Z.of_nat (Z.to_nat h))) with (y + h) by lia.
Qed.

(** The trailing command to the graphics card. *)
Definition tail_cmd (b : BackendState) (c : svga_cmd) : ST gfx unit := let! g := svga_on b in if g then command c else ret tt.
Lemma tail_cmd_ok b c s : exists s', tail_cmd b c s = Some (tt, s') /\ drawn s s' /\ gmem s' = gmem s.
Proof.
  unfold tail_cmd, svga_on. rewrite bind_assoc, gets_step, ret_step. destruct (b_gpu b && svga_ready s).
  - eexists. split; [done|]. split; [|done]. split; try done. by destruct s as [[]].
  - exists s. by split.
Qed.
Lemma px_gmem s s' i j : drawn s s' -> gmem s' = gmem s -> px s' i j = px s i j.
Proof. intros D E. unfold px, pixel_at. by rewrite (dr_state _ _ D), E. Qed.

(** [Fill] with a corner on the screen colours the part of the rectangle that
    lies on it. *)
Lemma Fill_ok x y w h color s : surface s -> 0 <= x -> 0 <= y -> 0 <= w -> 0 <= h ->
  exists s', Fill x y w h color s = Some (tt, s') /\ drawn s s' /\
    forall i j, on_screen s i j -> px s' i j = if decide (x <= i < x + w /\ y <= j < y + h) then u32 color else px s i j.
Proof.
  intros Hs Hx Hy Hw Hh. unfold Fill. rewrite gets_step. rewrite (sf_ready _ Hs). cbn [negb orb].
  pose proof (sf_base _ Hs). destruct (Z.eqb_spec (b_backbuffer (g_state s)) 0); [lia|].
  destruct ((b_width (g_state s) <=? x) || (b_height (g_state s) <=? y)) eqn:E.
  - exists s. split; [done|]. split; [done|]. intros i j [Hi Hj]. rewrite decide_False; [done|]. apply orb_true_iff in E as [E|E]; apply Z.leb_le in E; lia.
  - apply orb_false_iff in E as [E1%Z.leb_gt E2%Z.leb_gt].
    destruct (paint_ok (fun row col => wr32 (pixel (g_state s) (y + row) (x + col)) color) (fun _ _ => color) x y
      (Z.min w (b_width (g_state s) - x)) (Z.min h (b_height (g_state s) - y)) s) as (s1 & E1' & D1 & Hpx); try done; try lia.
    { intros row col s1 D Hr Hc. pose proof (dr_state _ _ D) as Est. rewrite <-Est.
      apply wr32_pixel; [by eapply drawn_surface|]. apply (drawn_on_screen s); [done|]. split; lia. }
    rewrite (bind_step _ _ _ _ _ E1'). destruct (tail_cmd_ok (g_state s) (SvgaFill x y (Z.min w (b_width (g_state s) - x)) (Z.min h (b_height (g_state s) - y)) color) s1) as (s2 & E2' & D2 & Em).
    exists s2. split; [done|]. split; [by etransitivity|]. intros i j Hij. rewrite (px_gmem _ _ _ _ D2 Em), Hpx by done.
    destruct Hij. repeat case_decide; try done; lia.
Qed.

Lemma draws_Fill x y w h color : 0 <= x -> 0 <= y -> 0 <= w -> 0 <= h -> draws (Fill x y w h color).
Proof. intros Hx Hy Hw Hh s Hs. destruct (Fill_ok x y w h color s Hs Hx Hy Hw Hh) as (s' & ? & ? & _). eauto. Qed.

Lemma Upload_ok src f sw sh pitch x y s : surface s -> 0 <= x -> 0 <= y -> 0 <= sw -> 0 <= sh ->
  (forall row col, 0 <= row < sh -> 0 <= col < sw -> on_screen s (x + col) (y + row) -> src !! Z.to_nat (u32 (row * pitch) + col) = Some (Some (f row col))) ->
  exists s', Upload src sw sh pitch x y s = Some (tt, s') /\ drawn s s' /\
    forall i j, on_screen s i j -> px s' i j = if decide (x <= i < x + sw /\ y <= j < y + sh) then u32 (f (j - y) (i - x)) else px s i j.
Proof.
  intros Hs Hx Hy Hw Hh Hsrc. unfold Upload. rewrite gets_step. rewrite (sf_ready _ Hs). cbn [negb orb].
  pose proof (sf_base _ Hs). destruct (Z.eqb_spec (b_backbuffer (g_state s)) 0); [lia|].
  destruct ((b_width (g_state s) <=? x) || (b_height (g_state s) <=? y)) eqn:E.
  - exists s. split; [done|]. split; [done|]. intros i j [Hi Hj]. rewrite decide_False; [done|]. apply orb_true_iff in E as [E|E]; apply Z.leb_le in E; lia.
  - apply orb_false_iff in E as [E1%Z.leb_gt E2%Z.leb_gt].
    destruct (paint_ok (fun row col => store_word (pixel (g_state s) (y + row) (x + col)) src (u32 (row * pitch) + col)) f x y
      (Z.min sw (b_width (g_state s) - x)) (Z.min sh (b_height (g_state s) - y)) s) as (s1 & E1' & D1 & Hpx); try done; try lia.
    { intros row col s1 D Hr Hc. pose proof (dr_state _ _ D) as Est. assert (Ho : on_screen s (x + col) (y + row)) by (split; lia).
      unfold store_word. rewrite Hsrc by (done || lia). rewrite <-Est. apply wr32_pixel; [by eapply drawn_surface|]. by apply (drawn_on_screen s). }
    rewrite (bind_step _ _ _ _ _ E1'). destruct (tail_cmd_ok (g_state s) (SvgaUpload sw sh pitch x y) s1) as (s2 & E2' & D2 & Em).
    exists s2. split; [done|]. split; [by etransitivity|]. intros i j Hij. rewrite (px_gmem _ _ _ _ D2 Em), Hpx by done.
    destruct Hij. repeat case_decide; try done; lia.
Qed.

(** ** Glyphs *)

Lemma seqZ_8 : seqZ 0 8 = [0; 1; 2; 3; 4; 5; 6; 7].
Proof. reflexivity. Qed.

Lemma glyph_row_ok f : length (glyph_row f) = 8%nat /\
  forall col, 0 <= col < 8 -> (forall k, 0 <= k <= col -> is_Some (f k)) -> glyph_row f !! Z.to_nat col = Some (f col).
Proof.
  assert (HG : forall n lo, lo + Z.of_nat n = 8 -> 0 <= lo ->
    let l := foldr (fun col rest => match f col with Some v => Some v :: rest | None => replicate (8 - Z.to_nat col) None end) [] (seqZ lo (Z.of_nat n)) in
    length l = n /\ forall col, lo <= col < 8 -> (forall k, lo <= k <= col -> is_Some (f k)) -> l !! Z.to_nat (col - lo) = Some (f col)).
  { induction n as [|n IH]; intros lo Hn Hlo; [split; [done|intros; lia]|]. rewrite seqZ_cons by lia. cbn [foldr].
    replace (Z.pred (Z.of_nat (S n))) with (Z.of_nat n) by lia. destruct (IH (Z.succ lo)) as [Hl Hc]; [lia|lia|]. cbv zeta in *.
    destruct (f lo) as [v|] eqn:E.
    - split; [cbn [length]; by rewrite Hl|]. intros col Hcol Hk. destruct (decide (col = lo)) as [->|]; [by rewrite Z.sub_diag, E|].
      replace (Z.to_nat (col - lo)) with (S (Z.to_nat (col - Z.succ lo))) by lia. cbn. apply Hc; [lia|]. intros; apply Hk; lia.
    - rewrite length_replicate. split; [lia|]. intros col Hcol Hk. destruct (Hk lo) as [? H]; [lia|congruence]. }
  destruct (HG 8%nat 0) as [Hl Hc]; [lia|lia|]. split; [exact Hl|]. intros col Hcol Hk. rewrite <-Hc by done. by rewrite Z.sub_0_r.
Qed.

Lemma glyph_buffer_ok c x y glyph fg bg row col : 0 <= row < 8 -> 0 <= col < 8 -> 0 <= x -> 0 <= y -> x + col < s_width c -> y + row < s_height c ->
  s_width c < 2 ^ 16 -> s_height c < 2 ^ 16 ->
  glyph_buffer c x y glyph fg bg !! Z.to_nat (u32 (row * 8) + col) = Some (glyph_pixel c x y glyph fg bg row col).
Proof.
  intros Hr Hc Hx Hy Hxw Hyh Hw Hh. rewrite u32_small by lia.
  assert (Hrow : glyph_row (glyph_pixel c x y glyph fg bg row) !! Z.to_nat col = Some (glyph_pixel c x y glyph fg bg row col)).
  { apply (proj2 (glyph_row_ok _) col Hc). intros k Hk. unfold glyph_pixel. rewrite !u32_small by lia.
    destruct (Z.leb_spec (s_height c) (y + row)); [lia|]. destruct (Z.leb_spec (s_width c) (x + k)); [lia|]. cbn [orb]. by destruct (_ && _). }
  rewrite <-Hrow. clear Hrow Hxw. unfold glyph_buffer.
  assert (HG : forall n lo, lo + Z.of_nat n = 8 -> 0 <= lo <= row ->
    foldr (fun row rest => if s_height c <=? u32 (y + row) then replicate (8 * (8 - Z.to_nat row)) None
      else glyph_row (glyph_pixel c x y glyph fg bg row) ++ rest) [] (seqZ lo (Z.of_nat n)) !! Z.to_nat ((row - lo) * 8 + col) =
    glyph_row (glyph_pixel c x y glyph fg bg row) !! Z.to_nat col); [|specialize (HG 8%nat 0); rewrite Z.sub_0_r in HG; apply HG; lia].
  induction n as [|n IH]; intros lo Hn Hlo; [lia|]. rewrite seqZ_cons by lia. cbn [foldr].
  replace (Z.pred (Z.of_nat (S n))) with (Z.of_nat n) by lia. rewrite (u32_small (y + lo)) by lia.
  destruct (Z.leb_spec (s_height c) (y + lo)); [lia|]. pose proof (proj1 (glyph_row_ok (glyph_pixel c x y glyph fg bg lo))) as Hlen.
  destruct (decide (lo = row)) as [->|].
  - rewrite Z.sub_diag. apply lookup_app_l. lia.
  - rewrite lookup_app_r by lia. rewrite Hlen. replace (Z.to_nat ((row - lo) * 8 + col) - 8)%nat with (Z.to_nat ((row - Z.succ lo) * 8 + col)) by lia. apply IH; lia.
Qed.

(** What a pixel of a glyph becomes. *)
Definition glyph_colour (c : compositor) (x y : Z) (glyph : list Z) (fg bg row col : Z) : Z := default 0 (glyph_pixel c x y glyph fg bg row col).

Lemma DrawGlyph8x8_ok x y glyph fg bg s : surface s -> 0 <= x -> 0 <= y ->
  exists s', DrawGlyph8x8 x y glyph fg bg s = Some (tt, s') /\ drawn s s' /\
    forall i j, on_screen s i j -> px s' i j =
      if decide (s_ready (g_comp s) = true /\ x <= i < x + 8 /\ y <= j < y + 8) then u32 (glyph_colour (g_comp s) x y glyph fg bg (j - y) (i - x)) else px s i j.
Proof.
  intros Hs Hx Hy. unfold DrawGlyph8x8. rewrite gets_step. destruct (s_ready (g_comp s)); cbn [negb].
  2: { exists s. split; [done|]. split; [done|]. intros i j _. rewrite decide_False; [done|]. by intros [? _]. }
  destruct (sf_comp _ Hs) as [Ew Eh]. pose proof (sf_width _ Hs). pose proof (sf_height _ Hs).
  destruct ((s_width (g_comp s) <=? x) || (s_height (g_comp s) <=? y)) eqn:E.
  - exists s. split; [done|]. split; [done|]. intros i j [Hi Hj]. rewrite decide_False; [done|]. apply orb_true_iff in E as [E|E]; apply Z.leb_le in E; lia.
  - destruct (Upload_ok (glyph_buffer (g_comp s) x y glyph fg bg) (glyph_colour (g_comp s) x y glyph fg bg) 8 8 8 x y s) as (s' & E' & D & Hpx); try done.
    { intros row col Hr Hc [Hi Hj]. rewrite glyph_buffer_ok by lia. f_equal. unfold glyph_colour, glyph_pixel.
      rewrite !u32_small by lia. destruct (Z.leb_spec (s_height (g_comp s)) (y + row)); [lia|].
      destruct (Z.leb_spec (s_width (g_comp s)) (x + col)); [lia|]. cbn [orb]. by destruct (_ && _). }
    exists s'. split; [done|]. split; [done|]. intros i j Hij. rewrite Hpx by done. repeat case_decide; try done; naive_solver.
Qed.

Lemma draws_DrawGlyph8x8 x y glyph fg bg : 0 <= x -> 0 <= y -> draws (DrawGlyph8x8 x y glyph fg bg).
Proof. intros Hx Hy s Hs. destruct (DrawGlyph8x8_ok x y glyph fg bg s Hs Hx Hy) as (s' & ? & ? & _). eauto. Qed.

(** ** Moving rectangles *)

Lemma read32_memmove m d src n a : 0 <= n ->
  (d <= a /\ a + 4 <= d + n -> read32 (memmove m d src (Z.to_nat n)) a = read32 m (src + (a - d))) /\
  (a + 4 <= d \/ d + n <= a -> read32 (memmove m d src (Z.to_nat n)) a = read32 m a).
Proof.
  intros Hn. unfold read32. rewrite !memmove_spec, Z2Nat.id by lia. split; intros Ha.
  - rewrite !decide_True by lia. by replace (src + (a + 1 - d)) with (src + (a - d) + 1) by lia; replace (src + (a + 2 - d)) with (src + (a - d) + 2) by lia; replace (src + (a + 3 - d)) with (src + (a - d) + 3) by lia.
  - rewrite !decide_False by lia. done.
Qed.

Lemma move_row_ok x1 y1 x2 y2 n s : surface s -> 0 < n -> on_screen s x1 y1 -> on_screen s x2 y2 -> x1 + n <= b_width (g_state s) -> x2 + n <= b_width (g_state s) ->
  exists s', move (pixel (g_state s) y1 x1) (pixel (g_state s) y2 x2) (u32 (n * 4)) s = Some (tt, s') /\ drawn s s' /\
    forall i j, on_screen s i j -> px s' i j = if decide (x1 <= i < x1 + n /\ j = y1) then px s (i - x1 + x2) y2 else px s i j.
Proof.
  intros Hs Hn H1 H2 Hw1 Hw2. pose proof (sf_width _ Hs). assert (H1' : on_screen s (x1 + n - 1) y1) by (destruct H1; split; lia).
  destruct (pixel_in s x1 y1 Hs H1) as (E1 & Hlo & _). destruct (pixel_in s x2 y2 Hs H2) as (E2 & _). destruct (pixel_in _ _ _ Hs H1') as (_ & _ & Hhi & _).
  rewrite u32_small by (destruct H1; lia). unfold move, modify. rewrite E1, E2. eexists. split; [done|]. unfold pixel_at in *. split.
  - split; try done. intros a Ha. cbn [gmem set_gmem set_heap g_heap set_mem h_mem]. rewrite memmove_spec, decide_False; [done|]. unfold pixel_at. lia.
  - intros i j Hij. unfold px. change (pixel_at (set_gmem _ s) i j) with (pixel_at s i j). cbn [gmem set_gmem set_heap g_heap set_mem h_mem].
    unfold pixel_at in *. case_decide as Hd.
    + destruct Hd as [? ->]. rewrite (proj1 (read32_memmove _ _ _ (n * 4) _ ltac:(lia))) by lia. f_equal. lia.
    + rewrite (proj2 (read32_memmove _ _ _ (n * 4) _ ltac:(lia))); [done|]. destruct H1, Hij, (Z.lt_trichotomy j y1) as [?|[->|?]]; [left; nia|lia|right; nia].
Qed.

(** [Blit] moves the rectangle, cut to the screen on both sides, whatever the
    overlap of source and destination. *)
Theorem Blit_spec sx sy dx dy w h s : surface s -> on_screen s sx sy -> on_screen s dx dy -> 0 <= w -> 0 <= h ->
  exists s', Blit sx sy dx dy w h s = Some (tt, s') /\ drawn s s' /\
    forall i j, on_screen s i j -> px s' i j =
      if decide (dx <= i < dx + w /\ dy <= j < dy + h /\ on_screen s (i - dx + sx) (j - dy + sy)) then px s (i - dx + sx) (j - dy + sy) else px s i j.
Proof.
  intros Hs Ho1 Ho2 Hw Hh. unfold Blit. rewrite gets_step. rewrite (sf_ready _ Hs). cbn [negb orb]. pose proof (sf_base _ Hs).
  destruct (Z.eqb_spec (b_backbuffer (g_state s)) 0); [lia|]. pose proof Ho1 as [Hx1 Hy1]. pose proof Ho2 as [Hx2 Hy2].
  destruct (Z.leb_spec (b_width (g_state s)) sx), (Z.leb_spec (b_height (g_state s)) sy), (Z.leb_spec (b_width (g_state s)) dx), (Z.leb_spec (b_height (g_state s)) dy); try lia. cbn [orb].
  set (cw := Z.min w _). set (ch := Z.min h _).
  assert (Hbox : forall i j, on_screen s i j -> (dx <= i < dx + w /\ dy <= j < dy + h /\ on_screen s (i - dx + sx) (j - dy + sy)) <-> (dx <= i < dx + cw /\ dy <= j < dy + ch)).
  { intros i j [Hi Hj]. unfold on_screen. subst cw ch. lia. }
  destruct (Z.eqb_spec cw 0); [|destruct (Z.eqb_spec ch 0)]; cbn [orb].
  1, 2: exists s; split; [done|]; split; [done|]; intros i j Hij; rewrite decide_False; [done|]; rewrite (Hbox i j Hij); lia.
  assert (Hcw : 0 < cw <= b_width (g_state s) - sx /\ cw <= b_width (g_state s) - dx) by (subst cw; lia).
  assert (Hch : 0 < ch <= b_height (g_state s) - sy /\ ch <= b_height (g_state s) - dy) by (subst ch; lia). clearbody cw ch.
  set (D := fun (done : Z -> Prop) s' => drawn s s' /\ forall i j, on_screen s i j ->
    (dx <= i < dx + cw /\ done (j - dy) -> px s' i j = px s (i - dx + sx) (j - dy + sy)) /\ (~ (dx <= i < dx + cw /\ done (j - dy)) -> px s' i j = px s i j)).
  assert (Hrow : forall (P Q : Z -> Prop) r s1, 0 <= r < ch -> D P s1 -> (forall k, Q k <-> P k \/ k = r) -> (forall k, P k -> 0 <= k < ch /\ dy + k <> sy + r) -> ~ P r ->
    exists s2, move (pixel (g_state s) (dy + r) dx) (pixel (g_state s) (sy + r) sx) (u32 (cw * 4)) s1 = Some (tt, s2) /\ D Q s2).
  { intros P Q r s1 Hr [D1 Hpx] HQ HP HPr. pose proof (dr_state _ _ D1) as Est. rewrite <-Est.
    destruct (move_row_ok dx (dy + r) sx (sy + r) cw s1) as (s2 & E2 & D2 & Hpx2);
      [by eapply drawn_surface|lia|apply (drawn_on_screen s); [done|split; lia]|apply (drawn_on_screen s); [done|split; lia]|rewrite Est; lia|rewrite Est; lia|].
    exists s2. split; [done|]. split; [by etransitivity|]. intros i j Hij. rewrite Hpx2 by (by apply (drawn_on_screen s)).
    rewrite (HQ (j - dy)). case_decide as Hd.
    - destruct Hd as [Hi ->]. split; [|lia]. intros _. replace (dy + r - dy) with r by lia. assert (Hsrc : on_screen s (i - dx + sx) (sy + r)) by (split; lia). rewrite (proj2 (Hpx _ _ Hsrc)); [f_equal; lia|].
      intros [_ HPx]. destruct (HP _ HPx). lia.
    - destruct (Hpx i j Hij) as [Ha Hb]. split; intros H'; [apply Ha; destruct H' as [? [?|?]]; [done|lia]|apply Hb; tauto]. }
  match goal with |- context [bind ?m _] => assert (HL : exists s1, m s = Some (tt, s1) /\ D (fun k => 0 <= k < ch) s1) end.
  { assert (Hinit : forall P, (forall k, ~ P k) -> D P s).
    { intros P HP. split; [done|]. intros i j _. split; [intros [_ H']; by apply HP in H'|done]. }
    assert (Hext : forall (P Q : Z -> Prop) s1, (forall k, P k <-> Q k) -> D P s1 -> D Q s1).
    { intros P Q s1 HPQ [D1 Hpx]. split; [done|]. intros i j Hij. rewrite <-!HPQ. by apply Hpx. }
    unfold loop. destruct (Z.ltb_spec sy dy).
    - destruct (hoare_for (Z.to_nat ch) 0 (fun k => move (pixel (g_state s) (dy + (ch - k) - 1) dx) (pixel (g_state s) (sy + (ch - k) - 1) sx) (u32 (cw * 4)))
        (fun k => D (fun r => ch - k <= r < ch))) with (s := s) as ([] & s1 & E & HD).
      + intros k Hk s1 HD. destruct (Hrow (fun r => ch - k <= r < ch) (fun r => ch - (k + 1) <= r < ch) (ch - k - 1) s1) as (s2 & E2 & HD2); try done; [lia|lia|lia|lia|].
        exists tt, s2. split; [|done]. by replace (dy + (ch - k) - 1) with (dy + (ch - k - 1)) by lia; replace (sy + (ch - k) - 1) with (sy + (ch - k - 1)) by lia.
      + apply Hinit. lia.
      + exists s1. split; [done|]. eapply Hext; [|exact HD]. intros k. cbv beta. lia.
    - destruct (hoare_for (Z.to_nat ch) 0 (fun row => move (pixel (g_state s) (dy + row) dx) (pixel (g_state s) (sy + row) sx) (u32 (cw * 4)))
        (fun k => D (fun r => 0 <= r < k))) with (s := s) as ([] & s1 & E & HD).
      + intros k Hk s1 HD. destruct (Hrow (fun r => 0 <= r < k) (fun r => 0 <= r < k + 1) k s1) as (s2 & E2 & HD2); try done; [lia|lia|lia|lia|]. by exists tt, s2.
      + apply Hinit. lia.
      + exists s1. split; [done|]. eapply Hext; [|exact HD]. intros k. cbv beta. lia. }
  destruct HL as (s1 & E1 & D1 & Hpx). rewrite (bind_step _ _ _ _ _ E1).
  destruct (tail_cmd_ok (g_state s) (SvgaBlit sx sy dx dy cw ch) s1) as (s2 & E2 & D2 & Em).
  exists s2. split; [done|]. split; [by etransitivity|]. intros i j Hij. rewrite (px_gmem _ _ _ _ D2 Em). destruct (Hpx i j Hij) as [Ha Hb]. pose proof (Hbox i j Hij) as Hb'.
  case_decide as Hd; [apply Ha; apply Hb' in Hd; lia|apply Hb; intros Hx; apply Hd, Hb'; lia].
Qed.

(** ** Rectangles and windows *)

(** Sizes and colours are 32-bit. *)
Definition word (z : Z) : Prop := 0 <= z < 2 ^ 32.
Definition clip_ok (s : gfx) : Prop :=
  let r := s_clip_rect (g_comp s) in word (r_x r) /\ word (r_y r) /\ word (r_w r) /\ word (r_h r) /\ r_x r + r_w r < 2 ^ 32 /\ r_y r + r_h r < 2 ^ 32.
Definition in_rect (r : Rect) (i j : Z) : Prop := (r_x r <= i < r_x r + r_w r) /\ (r_y r <= j < r_y r + r_h r).
(** The pixel is not cut off by the clip rectangle. *)
Definition in_clip (s : gfx) (i j : Z) : Prop := s_clip_enabled (g_comp s) = true -> in_rect (s_clip_rect (g_comp s)) i j.
#[export] Instance in_clip_dec s i j : Decision (in_clip s i j).
Proof. unfold in_clip, in_rect. apply _. Defined.

(** C34: [FillRect] with a rectangle that does not wrap around colours exactly the
    pixels in the rectangle, on the screen and inside the clip rectangle. *)
Theorem FillRect_spec x y w h color s : surface s -> clip_ok s -> s_ready (g_comp s) = true -> word color ->
  0 <= x -> 0 <= y -> 0 <= w -> 0 <= h -> x + w < 2 ^ 32 -> y + h < 2 ^ 32 ->
  exists s', FillRect x y w h color s = Some (tt, s') /\ drawn s s' /\
    forall i j, on_screen s i j -> px s' i j = if decide (x <= i < x + w /\ y <= j < y + h /\ in_clip s i j) then color else px s i j.
Proof.
  intros Hs Hc Hr Hcol Hx Hy Hw Hh Hxw Hyh. unfold FillRect. rewrite gets_step, Hr. cbn [negb]. destruct (sf_comp _ Hs) as [Ew Eh].
  rewrite Ew, Eh. pose proof (sf_width _ Hs). pose proof (sf_height _ Hs). rewrite (u32_small (x + w)), (u32_small (y + h)) by lia.
  assert (Hno : (forall i j, on_screen s i j -> x <= i < x + w /\ y <= j < y + h /\ in_clip s i j -> False) ->
    exists s', ret tt s = Some (tt, s') /\ drawn s s' /\ forall i j, on_screen s i j ->
      px s' i j = if decide (x <= i < x + w /\ y <= j < y + h /\ in_clip s i j) then color else px s i j).
  { intros H'. exists s. split; [done|]. split; [done|]. intros i j Hij. rewrite decide_False; [done|]. intros ?. by apply (H' i j). }
  destruct (Z.leb_spec (b_width (g_state s)) x); [apply Hno; intros i j [Hi Hj] ?; lia|].
  destruct (Z.leb_spec (b_height (g_state s)) y); [apply Hno; intros i j [Hi Hj] ?; lia|]. cbn [orb].
  set (w' := if _ <? x + w then _ else w). set (h' := if _ <? y + h then _ else h).
  assert (Hw' : w' = Z.min w (b_width (g_state s) - x)) by (subst w'; case_zb; lia).
  assert (Hh' : h' = Z.min h (b_height (g_state s) - y)) by (subst h'; case_zb; lia). clearbody w' h'.
  assert (Hfill : forall x1 y1 w1 h1, 0 <= x1 -> 0 <= y1 -> word w1 -> word h1 ->
    (forall i j, on_screen s i j -> x1 <= i < x1 + w1 /\ y1 <= j < y1 + h1 <-> x <= i < x + w /\ y <= j < y + h /\ in_clip s i j) ->
    exists s', Fill x1 y1 (u32 w1) (u32 h1) color s = Some (tt, s') /\ drawn s s' /\ forall i j, on_screen s i j ->
      px s' i j = if decide (x <= i < x + w /\ y <= j < y + h /\ in_clip s i j) then color else px s i j).
  { intros x1 y1 w1 h1 Hx1 Hy1 Hw1 Hh1 Hiff. unfold word in *. rewrite !u32_small by lia. destruct (Fill_ok x1 y1 w1 h1 color s Hs) as (s' & E & D & Hpx); [lia..|].
    exists s'. split; [done|]. split; [done|]. intros i j Hij. rewrite Hpx by done. specialize (Hiff i j Hij). rewrite (u32_small color) by done.
    destruct (decide (x1 <= i < x1 + w1 /\ y1 <= j < y1 + h1)), (decide (x <= i < x + w /\ y <= j < y + h /\ in_clip s i j)); tauto. }
  unfold clip_rect. destruct (s_clip_enabled (g_comp s)) eqn:Ec.
  - destruct Hc as (? & ? & ? & ? & ? & ?). unfold word in *. set (r := s_clip_rect (g_comp s)) in *. rewrite !u32_small by lia.
    assert (Hin : forall i j, in_clip s i j <-> (r_x r <= i < r_x r + r_w r) /\ (r_y r <= j < r_y r + r_h r)) by (intros i j; unfold in_clip, in_rect; fold r; tauto).
    destruct (Z.leb_spec (x + w') (r_x r)); [apply Hno; intros i j [Hi Hj] (? & ? & Hcl%(proj1 (Hin i j))); lia|].
    destruct (Z.leb_spec (y + h') (r_y r)); [apply Hno; intros i j [Hi Hj] (? & ? & Hcl%(proj1 (Hin i j))); lia|].
    destruct (Z.leb_spec (r_x r + r_w r) x); [apply Hno; intros i j [Hi Hj] (? & ? & Hcl%(proj1 (Hin i j))); lia|].
    destruct (Z.leb_spec (r_y r + r_h r) y); [apply Hno; intros i j [Hi Hj] (? & ? & Hcl%(proj1 (Hin i j))); lia|]. cbn [orb].
    assert (Hbox : forall i j, on_screen s i j -> Z.max x (r_x r) <= i < Z.max x (r_x r) + (Z.min (x + w') (r_x r + r_w r) - Z.max x (r_x r)) /\
      Z.max y (r_y r) <= j < Z.max y (r_y r) + (Z.min (y + h') (r_y r + r_h r) - Z.max y (r_y r)) <->
      x <= i < x + w /\ y <= j < y + h /\ in_clip s i j).
    { intros i j [Hi Hj]. split; [intros; split_and!; [lia..|apply (proj2 (Hin i j)); lia]|]. intros (? & ? & Hcl%(proj1 (Hin i j))). lia. }
    destruct (decide (Z.max x (r_x r) <= Z.min (x + w') (r_x r + r_w r) /\ Z.max y (r_y r) <= Z.min (y + h') (r_y r + r_h r))); [|exfalso; lia].
    apply Hfill; try lia. exact Hbox.
  - apply Hfill; unfold word; try lia. intros i j [Hi Hj]. unfold in_clip. rewrite Ec. split; [intros; split_and!; [lia..|done]|lia].
Qed.

(** A glyph that reaches over the edge of the clip rectangle is not cut off
    there: its pixels outside the rectangle, on the screen, become 0. *)
Theorem DrawGlyph8x8_overwrites x y glyph fg bg s : surface s -> clip_ok s -> s_ready (g_comp s) = true -> 0 <= x -> 0 <= y ->
  exists s', DrawGlyph8x8 x y glyph fg bg s = Some (tt, s') /\
    forall i j, on_screen s i j -> x <= i < x + 8 -> y <= j < y + 8 -> ~ in_clip s i j -> px s' i j = 0.
Proof.
  intros Hs Hc Hr Hx Hy. destruct (DrawGlyph8x8_ok x y glyph fg bg s Hs Hx Hy) as (s' & E & _ & Hpx). exists s'. split; [done|].
  intros i j Hij Hi Hj Hcl. rewrite Hpx, decide_True by done. pose proof (sf_width _ Hs). pose proof (sf_height _ Hs). destruct (sf_comp _ Hs) as [Ew Eh]. destruct Hij as [Hij Hij'].
  unfold glyph_colour, glyph_pixel. rewrite Ew, Eh. replace (x + (i - x)) with i by lia. replace (y + (j - y)) with j by lia. rewrite (u32_small i), (u32_small j) by lia.
  destruct (Z.leb_spec (b_height (g_state s)) j), (Z.leb_spec (b_width (g_state s)) i); try lia. cbn [orb].
  destruct Hc as (? & ? & ? & ? & ? & ?). unfold in_clip, in_rect, word in *. rewrite (u32_small (r_x _ + _)), (u32_small (r_y _ + _)) by lia. destruct (s_clip_enabled (g_comp s)); [|by destruct Hcl].
  cbn [andb]. repeat case_zb; cbn [orb]; try done; destruct Hcl; lia.
Qed.

(** ** Windows stay inside the back buffer *)

Lemma u32_nonneg z : 0 <= u32 z.
Proof. apply u32_range. Qed.
Create HintDb draws.
#[local] Hint Resolve u32_nonneg draws_ret draws_bind draws_if draws_Fill draws_DrawGlyph8x8 draws_loop : draws.

Lemma draws_checker x y w h cA cB cell : draws (blitCheckerBackend x y w h cA cB cell).
Proof. apply draws_loop. intros j _. apply draws_loop. intros i _. apply draws_Fill; auto using u32_nonneg; lia. Qed.

Lemma draws_stripes n sy last x w : 0 <= x -> 0 <= w -> 0 <= sy -> last < 2 ^ 32 - 2 -> last - sy + 2 <= 2 * Z.of_nat n -> (0 < n)%nat -> draws (stripes n sy last x w).
Proof.
  intros Hx Hw. revert sy. induction n as [|n IH]; intros sy Hsy Hlast Hn Hpos; [lia|]. cbn [stripes]. destruct (Z.ltb_spec sy last); [|apply draws_ret].
  apply draws_bind; [apply draws_Fill; lia|]. rewrite u32_small by lia. apply IH; lia.
Qed.

Lemma draws_title title : forall i maxChars x y, draws (draw_title title i maxChars x y).
Proof. induction title as [|ch title IH]; intros i maxChars x y; cbn [draw_title]; [apply draws_ret|]. apply draws_if; auto 6 with draws. Qed.

Lemma button_glyph_ok code row col : 0 <= row < 8 -> 0 <= col < 8 -> is_Some (button_glyph code !! Z.to_nat (u32 (row * 8) + col)) /\
  forall v, button_glyph code !! Z.to_nat (u32 (row * 8) + col) = Some v -> is_Some v.
Proof.
  intros Hr Hc. rewrite u32_small by lia. unfold button_glyph. rewrite list_lookup_fmap. rewrite lookup_seqZ_lt by lia. cbn. split; [done|]. by intros v [= <-].
Qed.

Lemma draws_button btnH bx by_ code : 0 <= btnH -> 0 <= bx -> 0 <= by_ -> draws (drawBtn btnH bx by_ code).
Proof.
  intros Hb Hx Hy. unfold drawBtn. do 5 (apply draws_bind; [apply draws_Fill; auto using u32_nonneg; lia|]). intros s Hs.
  set (f := fun row col => default 0 (default None (button_glyph code !! Z.to_nat (u32 (row * 8) + col)))).
  destruct (Upload_ok (button_glyph code) f 8 8 8 (u32 (bx + 9 - 4)) (u32 (by_ + btnH / 2 - 4)) s Hs) as (s' & E & D & _); auto using u32_nonneg; try lia; [|eauto].
  intros row col Hr Hc _. destruct (button_glyph_ok code row col Hr Hc) as [[v Ev] Hv]. destruct (Hv v Ev) as [u ->]. subst f. cbv beta. by rewrite Ev.
Qed.

Lemma draws_FillRect x y w h color : 0 <= x -> 0 <= y -> draws (FillRect x y w h color).
Proof.
  intros Hx Hy. apply draws_gets. intros s Hs. destruct (negb _); [by apply draws_ret|]. destruct (_ || _); [by apply draws_ret|].
  set (w' := if _ <? u32 (x + w) then _ else w). set (h' := if _ <? u32 (y + h) then _ else h). unfold clip_rect.
  destruct (s_clip_enabled (g_comp s)); [destruct (_ || _); [by apply draws_ret|]|]; apply draws_Fill; auto using u32_nonneg; lia.
Qed.

(** Drawing a window returns and writes nothing outside the back buffer, for
    every position and size. *)
Lemma draws_DrawWindow win : 0 <= w_x win -> 0 <= w_y win -> 0 <= w_w win -> 0 <= w_h win -> draws (DrawWindow win).
Proof.
  intros Hx Hy Hw Hh. apply draws_gets. intros s Hs. destruct (s_ready (g_comp s)); cbn [negb]; [|by apply draws_ret].
  destruct (sf_comp _ Hs) as [Ew Eh]. rewrite Ew, Eh. pose proof (sf_width _ Hs). pose proof (sf_height _ Hs).
  destruct (Z.leb_spec (b_width (g_state s)) (w_x win)); [by apply draws_ret|]. destruct (Z.leb_spec (b_height (g_state s)) (w_y win)); [by apply draws_ret|]. cbn [orb].
  set (w := if _ <? u32 (w_x win + w_w win) then _ else _). set (h := if _ <? u32 (w_y win + w_h win) then _ else _).
  assert (0 <= w) by (subst w; case_zb; lia). assert (0 <= h) by (subst h; case_zb; lia). clearbody w h.
  set (titleH := if h <? TITLE_H then h else TITLE_H). assert (0 <= titleH <= 18) by (subst titleH; unfold TITLE_H; case_zb; lia). clearbody titleH.
  match goal with |- exists s', ?m s = _ /\ _ => enough (Hd : draws m) by (by apply Hd) end. unfold TITLE_H.
  apply draws_bind; [apply draws_if; [apply draws_checker|apply draws_ret]|].
  do 1 (apply draws_bind; [apply draws_Fill; lia|]).
  apply draws_bind; [rewrite !u32_small by lia; apply draws_stripes; lia|].
  do 2 (apply draws_bind; [apply draws_Fill; lia|]).
  do 2 (apply draws_bind; [apply draws_if; [apply draws_Fill; auto using u32_nonneg; lia|apply draws_ret]|]).
  apply draws_bind; [destruct (w_title win); [apply draws_title|apply draws_ret]|].
  pose proof (u32_nonneg (w_x win + w - 2 - 18)). do 2 (apply draws_bind; [apply draws_button; repeat case_zb; lia|]). apply draws_button; lia.
Qed.

(** * Presenting the back buffer *)

(** Rows of [len] bytes, [pitch] apart, at the frame buffer. *)
Definition fb_row (s : gfx) (y : Z) : Z := b_framebuffer (g_state s) + y * b_pitch (g_state s).
Definition in_rows (s : gfx) (n len a : Z) : Prop := exists y, 0 <= y < n /\ fb_row s y <= a < fb_row s y + len.

(** Bytes of a pixel in the frame buffer. *)
Definition pixel_bytes (s : gfx) : Z := if b_bpp (g_state s) =? 32 then 4 else 3.

(** A frame buffer that does not wrap around or overlap the back buffer, with
    rows long enough for the pixels. *)
Record visible (s : gfx) : Prop := {
  vi_base : 0 < b_framebuffer (g_state s);
  vi_pitch : pixel_bytes s * b_width (g_state s) <= b_pitch (g_state s);
  vi_fits : b_framebuffer (g_state s) + b_height (g_state s) * b_pitch (g_state s) < 2 ^ 32;
  vi_apart : b_framebuffer (g_state s) + b_height (g_state s) * b_pitch (g_state s) <= b_backbuffer (g_state s) \/
             backbuffer_end s <= b_framebuffer (g_state s);
}.

(** Writing one row after the other. *)
Lemma rows_ok (body : Z -> ST gfx unit) (want : Z -> Z -> Z) len s : surface s -> visible s -> 0 <= len <= b_pitch (g_state s) ->
  (forall y m, 0 <= y < b_height (g_state s) -> (forall a, b_backbuffer (g_state s) <= a < backbuffer_end s -> read8 m a = read8 (gmem s) a) ->
    exists m', body y (set_gmem m s) = Some (tt, set_gmem m' s) /\ forall a,
      read8 m' a = if decide (fb_row s y <= a < fb_row s y + len) then want y (a - fb_row s y) else read8 m a) ->
  exists m', loop (b_height (g_state s)) body s = Some (tt, set_gmem m' s) /\
    (forall y off, 0 <= y < b_height (g_state s) -> 0 <= off < len -> read8 m' (fb_row s y + off) = want y off) /\
    (forall a, ~ in_rows s (b_height (g_state s)) len a -> read8 m' a = read8 (gmem s) a).
Proof.
  intros Hs Hv Hlen Hbody. unfold loop. destruct Hv as [Hf Hp Hfit Hap]. pose proof (sf_height _ Hs).
  destruct (hoare_for (Z.to_nat (b_height (g_state s))) 0 body (fun k s' => exists m', s' = set_gmem m' s /\
    (forall y off, 0 <= y < k -> 0 <= off < len -> read8 m' (fb_row s y + off) = want y off) /\
    (forall a, ~ in_rows s k len a -> read8 m' a = read8 (gmem s) a))) with (s := s) as ([] & s' & E & m' & -> & Hw & Ho).
  - intros k Hk s1 (m & -> & Hw & Ho).
    destruct (Hbody k m) as (m' & E & Hm'); [lia| |].
    { intros a Ha. apply Ho. intros (y & Hy & Hya). unfold fb_row in Hya. assert (0 <= y * b_pitch (g_state s) <= (b_height (g_state s) - 1) * b_pitch (g_state s)) by nia. lia. }
    exists tt, (set_gmem m' s). split; [done|]. exists m'. split; [done|]. split.
    + intros y off Hy Hoff. rewrite Hm'. unfold fb_row. destruct (decide (y = k)) as [->|]; [rewrite decide_True by lia; f_equal; lia|].
      assert (y * b_pitch (g_state s) + b_pitch (g_state s) <= k * b_pitch (g_state s)) by nia. rewrite decide_False by lia. apply Hw; lia.
    + intros a Ha. rewrite Hm', decide_False; [apply Ho|]; [intros (y & ? & ?); apply Ha; exists y; split; [lia|done]|]. intros ?. apply Ha. exists k. split; [lia|done].
  - exists (gmem s). split; [by destruct s as [[]]|]. split; [lia|done].
  - exists m'. split; [done|]. by replace (0 + Z.of_nat (Z.to_nat (b_height (g_state s)))) with (b_height (g_state s)) in * by lia.
Qed.

(** The byte [off] of row [y], as [Present] writes it. *)
Definition shown (s : gfx) (y off : Z) : Z :=
  if b_bpp (g_state s) =? 32 then read8 (gmem s) (pixel_at s 0 y + off)
  else Z.land (Z.shiftr (px s (off / 3) y) (8 * (off mod 3))) 0xFF.

Lemma read8_set m a b v : 0 <= v < 256 -> read8 (write8 m a v) b = if decide (b = a) then v else read8 m b.
Proof. intros Hv. rewrite read8_write8. repeat case_decide; try done; congruence || (by apply u8_small). Qed.

Lemma land_ff_range v : 0 <= Z.land v 0xFF < 256.
Proof. change 0xFF with (Z.ones 8). rewrite Z.land_ones by lia. apply Z.mod_pos_bound. lia. Qed.

(** The 24-bit row. *)
Lemma row24_ok y m s : surface s -> visible s -> b_bpp (g_state s) <> 32 -> 0 <= y < b_height (g_state s) ->
  (forall a, b_backbuffer (g_state s) <= a < backbuffer_end s -> read8 m a = read8 (gmem s) a) ->
  exists m', loop (b_width (g_state s)) (fun x =>
      let! argb := rd32 (pixel (g_state s) y x) in
      wr8 (u32 (u32 (b_framebuffer (g_state s) + u32 (y * b_pitch (g_state s))) + u32 (x * 3))) (Z.land argb 0xFF);;;
      wr8 (u32 (u32 (b_framebuffer (g_state s) + u32 (y * b_pitch (g_state s))) + u32 (u32 (x * 3) + 1))) (Z.land (Z.shiftr argb 8) 0xFF);;;
      wr8 (u32 (u32 (b_framebuffer (g_state s) + u32 (y * b_pitch (g_state s))) + u32 (u32 (x * 3) + 2))) (Z.land (Z.shiftr argb 16) 0xFF)) (set_gmem m s) = Some (tt, set_gmem m' s) /\
    forall a, read8 m' a = if decide (fb_row s y <= a < fb_row s y + 3 * b_width (g_state s)) then shown s y (a - fb_row s y) else read8 m a.
Proof.
  intros Hs [Hf Hp Hfit Hap] Hb Hy Hm. unfold pixel_bytes, shown in *. rewrite (proj2 (Z.eqb_neq _ _) Hb) in *.
  pose proof (sf_width _ Hs) as Hw. assert (Hyp : 0 <= y * b_pitch (g_state s) <= (b_height (g_state s) - 1) * b_pitch (g_state s)) by nia.
  rewrite (u32_small (y * _)), (u32_small (b_framebuffer _ + _)) by lia. fold (fb_row s y). set (row := fb_row s y).
  assert (Hrow : b_framebuffer (g_state s) <= row /\ row + 3 * b_width (g_state s) <= b_framebuffer (g_state s) + b_height (g_state s) * b_pitch (g_state s)) by (subst row; unfold fb_row; lia).
  unfold loop. match goal with |- context [for_loop _ _ ?body] => destruct (hoare_for (Z.to_nat (b_width (g_state s))) 0 body (fun x s' => exists m', s' = set_gmem m' s /\
    forall a, read8 m' a = if decide (row <= a < row + 3 * x) then Z.land (Z.shiftr (px s ((a - row) / 3) y) (8 * ((a - row) mod 3))) 0xFF else read8 m a))
    with (s := set_gmem m s) as ([] & s' & E & m' & -> & Hm') end.
  - intros x Hx s1 (m1 & -> & Hm1). assert (Ho : on_screen s x y) by (split; lia). destruct (pixel_in s x y Hs Ho) as (Epx & Hlo & Hhi & _).
    unfold rd32, wr8. rewrite gets_step. rewrite Epx.
    replace (read32 (gmem (set_gmem m1 s)) (pixel_at s x y)) with (px s x y).
    2: { unfold px. symmetry. apply read32_ext. intros i Hi. cbn. rewrite Hm1, decide_False by lia. apply Hm. lia. }
    rewrite (u32_small (x * 3)), (u32_small (row + x * 3)), (u32_small (x * 3 + 1)), (u32_small (row + (x * 3 + 1))), (u32_small (x * 3 + 2)), (u32_small (row + (x * 3 + 2))) by lia. rewrite !modify_step. unfold modify. exists tt. eexists. split; [done|]. eexists. split; [done|].
    intros a. cbn [gmem set_gmem set_heap g_heap set_mem h_mem]. rewrite !read8_set, Hm1 by apply land_ff_range.
    destruct (decide (a = row + (x * 3 + 2))) as [->|]; [|destruct (decide (a = row + (x * 3 + 1))) as [->|]; [|destruct (decide (a = row + x * 3)) as [->|]]];
      [rewrite decide_True by lia; replace (row + (x * 3 + 2) - row) with (2 + x * 3) by lia|rewrite decide_True by lia; replace (row + (x * 3 + 1) - row) with (1 + x * 3) by lia|
       rewrite decide_True by lia; replace (row + x * 3 - row) with (0 + x * 3) by lia|repeat case_decide; done || lia];
      rewrite Z.div_add, Z.mod_add by lia; done.
  - exists m. split; [done|]. intros a. rewrite decide_False by lia. done.
  - exists m'. split; [done|]. intros a. rewrite Hm'. by replace (0 + Z.of_nat (Z.to_nat (b_width (g_state s)))) with (b_width (g_state s)) by lia.
Qed.

(** What the frame buffer then holds: the bytes of the pixels, and whatever
    was there before between the rows. *)
Definition presented (s s' : gfx) : Prop :=
  (forall y off, 0 <= y < b_height (g_state s) -> 0 <= off < pixel_bytes s * b_width (g_state s) -> read8 (gmem s') (fb_row s y + off) = shown s y off) /\
  (forall a, ~ in_rows s (b_height (g_state s)) (pixel_bytes s * b_width (g_state s)) a -> read8 (gmem s') a = read8 (gmem s) a).

Lemma Present_ok s : surface s -> visible s -> b_gpu (g_state s) = false ->
  exists s', Present s = Some (tt, s') /\ g_state s' = g_state s /\ g_heap s' = set_mem (gmem s') (g_heap s) /\ presented s s'.
Proof.
  intros Hs Hv Hg. pose proof Hv as [Hf Hp Hfit Hap]. unfold Present. rewrite gets_step. rewrite (sf_ready _ Hs). pose proof (sf_base _ Hs).
  rewrite (proj2 (Z.eqb_neq (b_framebuffer _) 0)), (proj2 (Z.eqb_neq (b_backbuffer _) 0)) by lia. cbn [negb orb].
  unfold svga_on. rewrite bind_assoc, gets_step, ret_step, Hg. cbn [andb]. pose proof (sf_width _ Hs) as Hw.
  assert (HL : forall body, (forall y m, 0 <= y < b_height (g_state s) -> (forall a, b_backbuffer (g_state s) <= a < backbuffer_end s -> read8 m a = read8 (gmem s) a) ->
      exists m', body y (set_gmem m s) = Some (tt, set_gmem m' s) /\ forall a, read8 m' a = if decide (fb_row s y <= a < fb_row s y + pixel_bytes s * b_width (g_state s)) then shown s y (a - fb_row s y) else read8 m a) ->
    exists s', (loop (b_height (g_state s)) body;;; (let! r := gets svga_ready in if negb false && r then command (SvgaPresentRect 0 0 (b_width (g_state s)) (b_height (g_state s))) else ret tt)) s = Some (tt, s') /\
      g_state s' = g_state s /\ g_heap s' = set_mem (gmem s') (g_heap s) /\ presented s s').
  { intros body Hb. destruct (rows_ok body (shown s) (pixel_bytes s * b_width (g_state s)) s) as (m' & E & Hin & Hout); try done; [unfold pixel_bytes in *; destruct (_ =? 32); lia|].
    rewrite (bind_step _ _ _ _ _ E), gets_step. destruct (negb false && _); eexists; (split; [done|]); (split; [done|]); (split; [done|]); by split. }
  unfold pixel_bytes, shown in HL. destruct (Z.eqb_spec (b_bpp (g_state s)) 32) as [E32|N32]; apply HL; intros y m Hy Hm.
  - assert (Hyp : 0 <= y * b_pitch (g_state s) <= (b_height (g_state s) - 1) * b_pitch (g_state s)) by (unfold pixel_bytes in Hp; destruct (_ =? 32); nia).
    assert (Hpos : 0 <= b_pitch (g_state s)) by (unfold pixel_bytes in Hp; destruct (_ =? 32); lia).
    rewrite (u32_small (y * _)), (u32_small (b_framebuffer _ + _)), (u32_small (_ * 4)) by lia. fold (fb_row s y).
    destruct (decide (b_width (g_state s) = 0)) as [E0|].
    { eexists. split; [reflexivity|]. intros a. cbn [gmem set_gmem set_heap g_heap set_mem h_mem]. rewrite memmove_spec, !decide_False by lia. done. }
    assert (Ho : on_screen s 0 y) by (split; lia). assert (Ho' : on_screen s (b_width (g_state s) - 1) y) by (split; lia).
    destruct (pixel_in s 0 y Hs Ho) as (Epx & Hlo & _). destruct (pixel_in s _ y Hs Ho') as (_ & _ & Hhi & _).
    rewrite Epx. unfold move, modify. eexists. split; [done|]. intros a. cbn [gmem set_gmem set_heap g_heap set_mem h_mem]. rewrite memmove_spec. unfold pixel_at in *.
    repeat case_decide; try lia. apply Hm. lia.
  - destruct (row24_ok y m s Hs Hv N32 Hy Hm) as (m' & E & Hm'). exists m'. split; [exact E|]. intros a. rewrite Hm'. unfold shown. by rewrite (proj2 (Z.eqb_neq _ _) N32).
Qed.

(** ** Scan lines *)

Lemma darken_row k s : surface s -> 0 <= k < b_height (g_state s) ->
  exists s', loop (b_width (g_state s)) (fun x => let a := u32 (b_backbuffer (g_state s) + 4 * (u32 (k * b_width (g_state s)) + x)) in let! v := rd32 a in wr32 a (darkenColor v 18)) s = Some (tt, s') /\
    drawn s s' /\ forall i j, on_screen s i j -> px s' i j = if decide (j = k) then u32 (darkenColor (px s i j) 18) else px s i j.
Proof.
  intros Hs Hk. unfold loop. match goal with |- context [for_loop _ _ ?body] => destruct (hoare_for (Z.to_nat (b_width (g_state s))) 0 body (fun x s' => drawn s s' /\
    forall i j, on_screen s i j -> px s' i j = if decide (j = k /\ i < x) then u32 (darkenColor (px s i j) 18) else px s i j)) with (s := s) as ([] & s' & E & D & Hpx) end.
  - intros x Hx s1 [D Hpx]. pose proof (dr_state _ _ D) as Est. pose proof (sf_width _ Hs). pose proof (sf_height _ Hs). assert (Ho : on_screen s x k) by (split; lia).
    pose proof (proj1 (pixel_in s x k Hs Ho)) as Epx. unfold pixel in Epx. rewrite (u32_small k) in Epx by lia. rewrite Epx. unfold rd32. rewrite gets_step.
    replace (read32 (gmem s1) (pixel_at s x k)) with (px s x k) by (pose proof (Hpx x k Ho) as Hp; rewrite decide_False in Hp by lia; rewrite <-Hp; unfold px, pixel_at; by rewrite Est).
    exists tt, (plot s1 x k (darkenColor (px s x k) 18)). split; [unfold wr32, modify, plot, pixel_at; by rewrite Est|]. split.
    + etransitivity; [done|]. apply plot_drawn; [by eapply drawn_surface|by apply (drawn_on_screen s)].
    + intros i j Hij. rewrite px_plot by (by apply (drawn_on_screen s)). rewrite Hpx by done. repeat case_decide; try lia. destruct_and!. by subst.
  - split; [done|]. intros i j [Hi _]. rewrite decide_False by lia. done.
  - exists s'. split; [done|]. split; [done|]. intros i j [Hi Hj]. rewrite Hpx by done. repeat case_decide; try done; lia.
Qed.

Lemma read32_byte m a k : 0 <= k < 4 -> Z.land (Z.shiftr (read32 m a) (8 * k)) 0xFF = read8 m (a + k).
Proof.
  intros Hk. rewrite Z.shiftr_div_pow2 by lia. change 0xFF with (Z.ones 8). rewrite Z.land_ones by lia. unfold read32.
  pose proof (read8_range m a). pose proof (read8_range m (a + 1)). pose proof (read8_range m (a + 2)). pose proof (read8_range m (a + 3)).
  assert (Hc : k = 0 \/ k = 1 \/ k = 2 \/ k = 3) by lia. destruct Hc as [->|[->|[->| ->]]]; rewrite ?Z.add_0_r; cbn [Z.mul Z.pow Z.pow_pos Pos.iter]; zdiv.
Qed.

(** A pixel with its scan line effect. *)
Definition scan_px (s : gfx) (x y : Z) : Z := if Z.odd y then u32 (darkenColor (px s x y) 18) else px s x y.

Lemma darken_rows_ok s : surface s ->
  exists s', loop (b_height (g_state s) / 2) (fun k => loop (b_width (g_state s)) (fun x =>
      let a := u32 (b_backbuffer (g_state s) + 4 * (u32 ((2 * k + 1) * b_width (g_state s)) + x)) in let! v := rd32 a in wr32 a (darkenColor v 18))) s = Some (tt, s') /\
    drawn s s' /\ forall i j, on_screen s i j -> px s' i j = scan_px s i j.
Proof.
  intros Hs. pose proof (sf_height _ Hs). unfold loop at 1. match goal with |- context [for_loop _ _ ?body] => destruct (hoare_for (Z.to_nat (b_height (g_state s) / 2)) 0 body (fun k s' => drawn s s' /\
    forall i j, on_screen s i j -> px s' i j = if decide (j < 2 * k) then scan_px s i j else px s i j)) with (s := s) as ([] & s' & E & D & Hpx) end.
  - intros k Hk s1 [D Hpx]. pose proof (dr_state _ _ D) as Est. assert (2 * k + 1 < b_height (g_state s)) by (Z.div_mod_to_equations; lia).
    destruct (darken_row (2 * k + 1) s1) as (s2 & E2 & D2 & Hpx2); [by eapply drawn_surface|rewrite Est; lia|]. rewrite Est in E2. exists tt, s2. split; [exact E2|]. split; [by etransitivity|].
    intros i j Hij. rewrite Hpx2 by (by apply (drawn_on_screen s)). rewrite Hpx by done. unfold scan_px. destruct (decide (j = 2 * k + 1)) as [->|].
    + rewrite !decide_False by lia. rewrite decide_True by lia. by rewrite Z.odd_add, Z.odd_mul.
    + destruct (decide (j = 2 * k)) as [->|]; [rewrite decide_False, decide_True by lia; by rewrite (Z.odd_mul 2 k)|]. repeat case_decide; done || lia.
  - split; [done|]. intros i j [_ Hj]. rewrite decide_False by lia. done.
  - exists s'. split; [done|]. split; [done|]. intros i j Hij. rewrite Hpx by done. case_decide; [done|]. destruct Hij as [_ Hj]. unfold scan_px.
    replace j with (2 * (b_height (g_state s) / 2)) by (Z.div_mod_to_equations; lia). by rewrite (Z.odd_mul 2 _).
Qed.

Lemma visible_drawn s s' : drawn s s' -> visible s -> visible s'.
Proof. intros D [H1 H2 H3 H4]. pose proof (dr_state _ _ D) as E. split; unfold pixel_bytes, backbuffer_end in *; by rewrite E. Qed.

Lemma shown_px s x y k : surface s -> on_screen s x y -> 0 <= k < pixel_bytes s -> shown s y (pixel_bytes s * x + k) = Z.land (Z.shiftr (px s x y) (8 * k)) 0xFF.
Proof.
  intros Hs Ho Hk. unfold shown, pixel_bytes in *. destruct (b_bpp (g_state s) =? 32).
  - unfold px. rewrite read32_byte by lia. f_equal. unfold pixel_at. lia.
  - replace (3 * x + k) with (k + x * 3) by lia. rewrite Z.div_add, Z.mod_add, Z.div_small, Z.mod_small by lia. by rewrite Z.add_0_l.
Qed.

(** [EndFrame] shows the frame: every pixel of the screen then holds, in the
    frame buffer, the colour of the back buffer, darkened on odd lines; memory
    outside the two buffers is unchanged, and so is the heap. *)
Theorem EndFrame_spec s : surface s -> visible s -> b_gpu (g_state s) = false -> s_ready (g_comp s) = true -> s_gpu_backend (g_comp s) = false ->
  exists s', EndFrame s = Some (tt, s') /\ g_heap s' = set_mem (gmem s') (g_heap s) /\
    (forall x y k, on_screen s x y -> 0 <= k < pixel_bytes s ->
      read8 (gmem s') (fb_row s y + pixel_bytes s * x + k) = Z.land (Z.shiftr (scan_px s x y) (8 * k)) 0xFF) /\
    (forall a, ~ in_rows s (b_height (g_state s)) (pixel_bytes s * b_width (g_state s)) a -> a < b_backbuffer (g_state s) \/ backbuffer_end s <= a ->
      read8 (gmem s') a = read8 (gmem s) a).
Proof.
  intros Hs Hv Hg Hr Hb. unfold EndFrame. rewrite gets_step, Hr. cbn [negb]. rewrite gets_step, Hb. cbn [negb]. destruct (sf_comp _ Hs) as [-> ->].
  destruct (darken_rows_ok s Hs) as (s1 & E1 & D1 & Hpx). rewrite (bind_step _ _ _ _ _ E1). pose proof (dr_state _ _ D1) as Est. pose proof (drawn_surface _ _ D1 Hs) as Hs1.
  destruct (Present_ok s1 Hs1 (visible_drawn _ _ D1 Hv)) as (s2 & E2 & _ & Eh & Hin & Hout); [by rewrite Est|]. exists s2. split; [done|].
  assert (Erow : forall y, fb_row s1 y = fb_row s y) by (intros y; unfold fb_row; by rewrite Est). assert (Epb : pixel_bytes s1 = pixel_bytes s) by (unfold pixel_bytes; by rewrite Est).
  split; [rewrite Eh, (dr_heap _ _ D1); by destruct (g_heap s)|]. split.
  - intros x y k Ho Hk. pose proof Ho as [Hx Hy]. assert (0 < pixel_bytes s) by lia. rewrite <-Z.add_assoc, <-Erow, Hin.
    + rewrite <-Epb, shown_px by (done || by apply (drawn_on_screen s) || by rewrite Epb). by rewrite Hpx.
    + by rewrite Est.
    + rewrite Epb, Est. nia.
  - intros a Ha Hbb. rewrite Hout; [by apply (dr_mem _ _ D1)|]. intros (y & Hy & Hya). apply Ha. exists y. rewrite Erow, Epb, Est in *. done.
Qed.

(** * The back buffer as a block of the heap *)

(** Any change of a live region keeps the heap well-formed. *)
Lemma region_write_ok (h : heap Paging.paging) l u n m : wf h l -> (u, n) ∈ live l -> (forall a, a < u \/ u + n <= a -> read8 m a = read8 (h_mem h) a) ->
  wf (set_mem m h) l.
Proof.
  intros Hwf Hin Hout.
  assert (HG : forall k, (Z.of_nat k <= n) -> exists m', wf (set_mem m' h) l /\ forall a, read8 m' a = if decide (u <= a < u + Z.of_nat k) then read8 m a else read8 (h_mem h) a).
  { induction k as [|k IH]; intros Hk.
    - exists (h_mem h). split; [by destruct h|]. intros a. rewrite decide_False by lia. done.
    - destruct IH as (m' & Hwf' & Hm'); [lia|]. exists (write8 m' (u + Z.of_nat k) (read8 m (u + Z.of_nat k))). split.
      + pose proof (user_write_ok (set_mem m' h) l u n (u + Z.of_nat k) (read8 m (u + Z.of_nat k)) Hwf' Hin ltac:(lia)) as Hw. by destruct h.
      + intros a. rewrite read8_set by apply read8_range. rewrite Hm'. repeat case_decide; subst; done || lia. }
  destruct (core_regions h l (proj1 Hwf)) as [_ Hb]. destruct (Hb u n Hin) as (_ & ? & _). destruct (HG (Z.to_nat n)) as (m' & ([? ? ? ? ? Hc Hs ?] & ? & ?) & Hm'); [lia|].
  split_and!; try done. split; try done. cbn in Hc, Hs |- *. eapply (seg_agree (h_mem (set_mem m' h))); [exact Hc| |exact Hs].
  intros a _. cbn. rewrite Hm'. case_decide; [done|]. rewrite Hout by lia. done.
Qed.

(** All pixels have the colour [v]. *)
Definition all_px (s : gfx) (v : Z) : Prop := forall x y, on_screen s x y -> px s x y = v.

Lemma blacken_ok bb n s : 0 <= bb -> 0 <= n -> bb + 4 * n <= 2 ^ 32 ->
  exists m, loop n (fun i => wr32 (u32 (bb + 4 * i)) 0xFF000000) s = Some (tt, set_gmem m s) /\
    (forall i, 0 <= i < n -> read32 m (bb + 4 * i) = 0xFF000000) /\ forall a, a < bb \/ bb + 4 * n <= a -> read8 m a = read8 (gmem s) a.
Proof.
  intros Hb Hn Hfit. unfold loop. match goal with |- context [for_loop _ _ ?body] => destruct (hoare_for (Z.to_nat n) 0 body (fun k s' => exists m, s' = set_gmem m s /\
    (forall i, 0 <= i < k -> read32 m (bb + 4 * i) = 0xFF000000) /\ forall a, a < bb \/ bb + 4 * n <= a -> read8 m a = read8 (gmem s) a)) with (s := s) as ([] & s' & E & m & -> & Hin & Hout) end.
  - intros k Hk s1 (m & -> & Hin & Hout). rewrite u32_small by lia. unfold wr32, modify. exists tt. eexists. split; [done|]. eexists. split; [reflexivity|].
    cbn [gmem set_gmem set_heap g_heap set_mem h_mem]. split.
    + intros i Hi. destruct (decide (i = k)) as [->|]; [apply read32_write32_eq|]. rewrite read32_write32_ne by lia. apply Hin. lia.
    + intros a Ha. rewrite read8_write32_ne by lia. by apply Hout.
  - exists (gmem s). split; [by destruct s as [[]]|]. split; [lia|done].
  - exists m. split; [done|]. split; [|done]. intros i Hi. apply Hin. lia.
Qed.

(** The compositor's size of the back buffer it asks for. *)
Definition sized (s : gfx) (w h : Z) : Prop := s_width (g_comp s) = w /\ s_height (g_comp s) = h.

Lemma render_Initialize_ok s l w h pitch bpp fb : wf (g_heap s) l -> 0 < w < 2 ^ 16 -> 0 < h < 2 ^ 16 -> sized s w h ->
  g_heapEnd (g_heap s) + 2 * (4 * (w * h) + 8192) + 4200 <= 2 ^ 32 ->
  exists ok s' l', render_Initialize w h pitch bpp fb false s = Some (ok, s') /\ wf (g_heap s') l' /\ keeps (gmem s) (gmem s') l /\ g_comp s' = g_comp s /\
    if ok : bool then surface s' /\ all_px s' 0xFF000000 /\ g_state s' = mk_backend true false bpp w h pitch fb (b_backbuffer (g_state s')) /\
      live l' ≡ₚ (b_backbuffer (g_state s'), 4 * (w * h)) :: live l
    else live l' = live l /\ exhausted (h_supply (g_heap s')).
Proof.
  intros Hwf Hw Hh [Ew Eh] Hend. unfold render_Initialize. rewrite modify_step. pose proof (wf_base _ _ (proj1 Hwf)). pose proof (chain_le _ _ _ (wf_chain _ _ (proj1 Hwf))). assert (0 < w * h < 2 ^ 30) by (split; [nia|lia]).
  rewrite (u32_small (w * h)), (u32_small (w * h * 4)) by lia. replace (w * h * 4) with (4 * (w * h)) by lia.
  destruct (Alloc_ok (g_heap s) l (4 * (w * h)) 4096 Hwf) as (r & h' & l' & E & Hwf' & Hk & Hend' & Hr); [lia|lia|lia|].
  rewrite (bind_step _ _ _ r (set_heap h' (set_state (mk_backend false false bpp w h pitch fb 0) s))).
  2: { unfold on_heap, zoom. cbn [g_heap set_state]. by rewrite E. }
  rewrite modify_step. set (s1 := set_state _ _). destruct Hr as [(-> & Hl & Hex)|(k & _ & _ & Hl)].
  - cbn [Z.eqb]. exists false, s1, l'. split; [done|]. split; [done|]. by split; [done|].
  - destruct (core_regions h' l' (proj1 Hwf')) as [Hpw Hb]. assert (Hin : (r, 4 * (w * h)) ∈ live l') by (rewrite Hl; by left). destruct (Hb _ _ Hin) as (? & ? & ?). pose proof (wf_base _ _ (proj1 Hwf')). pose proof (wf_end _ _ (proj1 Hwf')).
    destruct (Z.eqb_spec r 0); [lia|]. destruct (blacken_ok r (w * h) s1) as (m & Em & Hblack & Hout); [lia|lia|lia|]. rewrite (bind_step _ _ _ _ _ Em), gets_step.
    unfold svga_on. rewrite bind_assoc, gets_step, ret_step. cbn [g_state set_gmem set_heap set_state s1 b_gpu andb]. rewrite ret_step, modify_step.
    set (s2 := set_state _ _). exists true, s2, l'. split; [done|].
    assert (Hwf2 : wf (g_heap s2) l') by (apply (region_write_ok h' l' r (4 * (w * h))); done). split; [done|].
    assert (Hk2 : keeps (gmem s) (gmem s2) l).
    { intros u sz Hun. rewrite Hl in Hpw. destruct Hpw as [Hap _]. specialize (Hap _ Hun). specialize (Hk u sz Hun). unfold apart in Hap. cbn in Hap. intros a Ha. etransitivity; [apply Hout; lia|exact (Hk a Ha)]. }
    split; [done|]. split; [done|]. split; [split; cbn; try done; lia|]. split; [|by split].
    intros x y [Hx Hy]. cbn in Hx, Hy. unfold px, pixel_at. cbn [s2 g_state set_state b_backbuffer b_width]. apply Hblack. nia.
Qed.

Lemma map_fb_ok s l va addr size : wf (g_heap s) l -> 0 <= va < 2 ^ 32 -> va mod 4096 = 0 -> 0 < addr -> addr mod 4096 = 0 -> 0 <= size <= 2 ^ 32 - 4096 -> va + size <= 2 ^ 32 -> addr + size <= 2 ^ 32 -> addr < 2 ^ 32 ->
  exists ok s' p, map_fb va addr size s = Some (ok, s') /\ s' = set_heap (set_supply p (g_heap s)) s /\ wf (g_heap s') l /\
    (ok = true <-> Z.land (default 0 (fst <$> Paging.GetPhys va p)) 0xFFFFF000 = addr).
Proof.
  intros Hwf Hva Hval Ha Hal Hsz Hve Hae Hlt. pose proof (wf_supply _ _ (proj1 Hwf)) as Hp. unfold map_fb. rewrite (u32_small addr) by lia.
  destruct (Paging.MapRange_prefix (h_supply (g_heap s)) va addr size MAP_FLAGS Hp (proj1 Hva) Hval Ha Hal Hsz Hve Hae) as (n & p & E & Hwfp & _).
  rewrite (bind_step _ _ _ tt (set_heap (set_supply p (g_heap s)) s)) by (unfold on_paging, zoom; by rewrite E).
  destruct (Paging.GetPhys va p) as [[got p']|] eqn:Eg; [|rewrite Paging.GetPhys_ok in Eg by done; done].
  assert (p' = p /\ 0 <= got < 2 ^ 32) as [-> Hgot].
  { rewrite Paging.GetPhys_ok in Eg by done. injection Eg as Eg1 Eg2. split; [done|]. rewrite <-Eg1. assert (0 <= Paging.pte_of p va < 2 ^ 32) by (unfold Paging.pte_of; destruct (Paging.is_present (Paging.pde _ _)); [apply read32_range|lia]).
    destruct (Paging.is_present _); [zdiv|lia]. }
  exists (Z.land got 0xFFFFF000 =? addr). eexists _, p. split; [|split; [reflexivity|split]].
  - unfold on_paging, zoom, bind. cbn [g_heap set_heap set_supply h_supply]. rewrite Eg. unfold ret. rewrite (u32_small got) by lia.
    rewrite (Paging.land_hi20 addr) by lia. replace (4096 * (addr / 4096)) with addr by (Z.div_mod_to_equations; lia). reflexivity.
  - destruct Hwf as ([] & ? & ?). split_and!; done.
  - rewrite Eg. cbn. apply Z.eqb_eq.
Qed.

(** The frame buffer as the boot loader may report it: sizes of a screen, pages
    that lie in the 32-bit address space, and room in the heap. *)
Record fb_usable (s : gfx) : Prop := {
  fu_avail : IsAvailable (g_screen s) = true;
  fu_width : 0 < fb_width (g_fb (g_screen s)) < 2 ^ 16;
  fu_height : 0 < fb_height (g_fb (g_screen s)) < 2 ^ 16;
  fu_pitch : 0 <= fb_pitch (g_fb (g_screen s));
  fu_bytes : fb_height (g_fb (g_screen s)) * fb_pitch (g_fb (g_screen s)) <= 2 ^ 31;
  fu_addr : 0 < fb_addr (g_fb (g_screen s)) < 2 ^ 32 /\ fb_addr (g_fb (g_screen s)) mod 4096 = 0;
  fu_end : fb_addr (g_fb (g_screen s)) + fb_height (g_fb (g_screen s)) * fb_pitch (g_fb (g_screen s)) + 4095 <= 2 ^ 32;
  fu_room : g_heapEnd (g_heap s) + 2 * (4 * (fb_width (g_fb (g_screen s)) * fb_height (g_fb (g_screen s))) + 8192) + 4200 <= 2 ^ 32;
}.

Lemma page_round_ok n : 0 <= n <= 2 ^ 31 -> 0 <= page_round n <= n + 4095.
Proof. intros Hn. unfold page_round. rewrite u32_small by lia. rewrite Paging.land_hi20 by lia. zdiv. Qed.

(** [Initialize] returns.  When it succeeds the compositor has a black back
    buffer of the size of the screen, in a block of the heap of its own; when
    it fails the heap is exhausted or the first page of the frame buffer could
    not be mapped.  All blocks of the heap keep their bytes. *)
Theorem Initialize_spec s l : wf (g_heap s) l -> fb_usable s ->
  exists ok s' l', Initialize s = Some (ok, s') /\ wf (g_heap s') l' /\ keeps (gmem s) (gmem s') l /\
    if ok : bool then
      surface s' /\ s_ready (g_comp s') = true /\ all_px s' 0xFF000000 /\
      b_width (g_state s') = fb_width (g_fb (g_screen s)) /\ b_height (g_state s') = fb_height (g_fb (g_screen s)) /\
      live l' ≡ₚ (b_backbuffer (g_state s'), 4 * (b_width (g_state s') * b_height (g_state s'))) :: live l
    else live l' = live l /\ (exhausted (h_supply (g_heap s')) \/
      fst <$> Paging.GetPhys VIRT_FB_BASE (h_supply (g_heap s')) <> Some (fb_addr (g_fb (g_screen s)))).
Proof.
  intros Hwf [Hav Hw Hh Hp Hby [Ha Hal] Hae Hroom]. unfold Initialize. rewrite gets_step, Hav. cbn [negb]. unfold IsAvailable in Hav. set (fb := g_fb (g_screen s)) in *.
  apply andb_true_iff in Hav as [[Hr Ht]%andb_true_iff Hbp]. rewrite Ht. cbn [negb orb].
  replace (negb (fb_bpp fb =? 32) && negb (fb_bpp fb =? 24)) with false by (by destruct (fb_bpp fb =? 32), (fb_bpp fb =? 24)).
  rewrite gets_step, modify_step. set (put := put_comp fb (g_comp s)). assert (Hfb : 0 <= fb_height fb * fb_pitch fb) by nia. rewrite (u32_small (fb_height fb * _)) by lia.
  pose proof (page_round_ok (fb_height fb * fb_pitch fb) ltac:(lia)) as Hps. set (s1 := put _ _ s).
  assert (Hinit : forall base s2 c0, wf (g_heap s2) l -> gmem s2 = gmem s -> g_heapEnd (g_heap s2) = g_heapEnd (g_heap s) -> 
    exists ok s' l', (modify (put c0 base);;; (let! ok := render_Initialize (fb_width fb) (fb_height fb) (fb_pitch fb) (fb_bpp fb) base false in modify (put ok base);;; ret ok)) s2 = Some (ok, s') /\
      wf (g_heap s') l' /\ keeps (gmem s) (gmem s') l /\ if ok : bool then surface s' /\ s_ready (g_comp s') = true /\ all_px s' 0xFF000000 /\ b_width (g_state s') = fb_width fb /\ b_height (g_state s') = fb_height fb /\
        live l' ≡ₚ (b_backbuffer (g_state s'), 4 * (b_width (g_state s') * b_height (g_state s'))) :: live l
      else live l' = live l /\ exhausted (h_supply (g_heap s'))).
  { intros base s2 c0 Hwf2 Em Ee. rewrite modify_step.
    destruct (render_Initialize_ok (put c0 base s2) l (fb_width fb) (fb_height fb) (fb_pitch fb) (fb_bpp fb) base) as (ok & s3 & l' & E & Hwf3 & Hk & Ec & Hok); [done|lia|lia|done|cbn; rewrite Ee; lia|].
    rewrite (bind_step _ _ _ _ _ E), modify_step. exists ok, (put ok base s3), l'. split; [done|]. split; [done|]. split; [by rewrite <-Em|]. destruct ok; [|done].
    destruct Hok as (Hsf & Hpx & Est & Hl). change (g_state (put true base s3)) with (g_state s3). assert (Ew : b_width (g_state s3) = fb_width fb) by (by rewrite Est). assert (Eh : b_height (g_state s3) = fb_height fb) by (by rewrite Est).
    rewrite Ew, Eh. destruct Hsf as [? ? ? ? ? _]. split_and!; try done. }
  destruct (Z.ltb_spec (fb_addr fb) kIdentityMapEnd); cbn [negb andb].
  - rewrite ret_step. destruct (Hinit (u32 (fb_addr fb)) s1 (s_ready (g_comp s))) as (ok & s' & l' & E & H1 & H2 & H3); try done. exists ok, s', l'. split; [done|]. split; [done|]. split; [done|]. destruct ok; [done|]. naive_solver.
  - destruct (map_fb_ok s1 l VIRT_FB_BASE (fb_addr fb) (page_round (fb_height fb * fb_pitch fb))) as (ok & s2 & p & E & -> & Hwf2 & Hok); [done|unfold VIRT_FB_BASE; lia|done|lia|done|lia|unfold VIRT_FB_BASE; lia|lia|lia|].
    rewrite bind_assoc, (bind_step _ _ _ _ _ E), ret_step. destruct ok; cbn [Z.eqb VIRT_FB_BASE].
    + destruct (Hinit VIRT_FB_BASE _ (s_ready (g_comp s)) Hwf2) as (ok & s' & l' & E' & H1 & H2 & H3); try done. exists ok, s', l'. split; [done|]. split; [done|]. split; [done|]. destruct ok; [done|]. naive_solver.
    + exists false. eexists _, l. split; [done|]. split; [done|]. split; [by intros u k _ i _|]. split; [done|]. right. intros Eg. change (fst <$> Paging.GetPhys VIRT_FB_BASE p = Some (fb_addr fb)) in Eg. rewrite Eg in Hok. cbn [default] in Hok. rewrite Paging.land_hi20 in Hok by (unfold id; lia).
      destruct Hok as [_ Hok]. discriminate Hok. unfold id. Z.div_mod_to_equations; lia.
Qed.

(** * What the boot loader passes *)

(** A Multiboot 2 tag: its type, its size, its contents, padded to 8 bytes. *)
Record mb_tag := mk_tag { t_type : Z; t_body : list Z }.
Definition tag_size (t : mb_tag) : Z := 8 + Z.of_nat (length (t_body t)).
Definition tag_bytes (t : mb_tag) : list Z := le32 (t_type t) ++ le32 (tag_size t) ++ t_body t ++ replicate (Z.to_nat (- tag_size t mod 8)) 0.
Definition fb_tag (fb : FramebufferInfo) : mb_tag :=
  mk_tag MB2_TAG_TYPE_FRAMEBUFFER (le32 (fb_addr fb) ++ le32 (fb_addr fb / 2 ^ 32) ++ le32 (fb_pitch fb) ++ le32 (fb_width fb) ++ le32 (fb_height fb) ++
    [fb_bpp fb; fb_type fb; 0; 0; red_pos fb; red_size fb; green_pos fb; green_size fb; blue_pos fb; blue_size fb]).
Definition tags_bytes (ts : list mb_tag) : list Z := concat (tag_bytes <$> ts).

(** Field ranges; the colour layout is only passed for RGB. *)
Definition byte_val (z : Z) : Prop := 0 <= z < 256.
Record fb_ok (fb : FramebufferInfo) : Prop := {
  fo_addr : 0 <= fb_addr fb < 2 ^ 64; fo_pitch : word (fb_pitch fb); fo_width : word (fb_width fb); fo_height : word (fb_height fb);
  fo_bpp : byte_val (fb_bpp fb); fo_type : byte_val (fb_type fb);
  fo_rgb : fb_type fb = 1 \/ (red_pos fb = 0 /\ red_size fb = 0 /\ green_pos fb = 0 /\ green_size fb = 0 /\ blue_pos fb = 0 /\ blue_size fb = 0);
}.

Lemma read32_stored m a v : stored m a (le32 v) -> read32 m a = u32 v.
Proof.
  intros H. unfold read32. pose proof (H 0%nat _ eq_refl) as H0. pose proof (H 1%nat _ eq_refl) as H1. pose proof (H 2%nat _ eq_refl) as H2. pose proof (H 3%nat _ eq_refl) as H3. change (Z.of_nat 0) with 0 in H0. change (Z.of_nat 1) with 1 in H1. change (Z.of_nat 2) with 2 in H2. change (Z.of_nat 3) with 3 in H3.
  rewrite Z.add_0_r in H0. rewrite H0, H1, H2, H3. unfold u8, u32. rewrite !Z.shiftr_div_pow2 by lia. zdiv.
Qed.

Lemma length_tag t : Z.of_nat (length (tag_bytes t)) = tag_size t + - tag_size t mod 8.
Proof.
  unfold tag_bytes, tag_size. rewrite !length_app, length_replicate. cbn [length le32].
  pose proof (Z.mod_pos_bound (- (8 + Z.of_nat (length (t_body t)))) 8). lia.
Qed.

Lemma land_low3 v : 0 <= v < 2 ^ 32 -> Z.land v 0xFFFFFFF8 = 8 * (v / 8).
Proof.
  intros Hv. change 0xFFFFFFF8 with (Z.ldiff (Z.ones 32) (Z.ones 3)).
  assert (E : Z.land v (Z.ldiff (Z.ones 32) (Z.ones 3)) = Z.ldiff (Z.land v (Z.ones 32)) (Z.ones 3)).
  { apply Z.bits_inj'. intros n Hn. by rewrite Z.land_spec, !Z.ldiff_spec, Z.land_spec, andb_assoc. }
  rewrite E, Z.land_ones, Z.mod_small, Z.ldiff_ones_r by lia. rewrite Z.shiftl_mul_pow2, Z.shiftr_div_pow2 by lia. change (2 ^ 3) with 8. lia.
Qed.

(** The cursor moves from one tag to the next. *)
Lemma tag_next m p t : stored m p (tag_bytes t) -> tag_size t < 2 ^ 31 ->
  read32 m p = u32 (t_type t) /\ Z.land (u32 (read32 m (p + 4) + 7)) 0xFFFFFFF8 = Z.of_nat (length (tag_bytes t)).
Proof.
  intros H Hsz. assert (0 <= tag_size t) by (unfold tag_size; lia). rewrite length_tag. unfold tag_bytes in H. apply stored_app in H as [H1 H]. apply stored_app in H as [H2 _]. change (Z.of_nat (length (le32 (t_type t)))) with 4 in H2.
  split; [by apply read32_stored|]. rewrite (read32_stored _ _ _ H2), (u32_small (tag_size t)), u32_small by lia. rewrite land_low3 by lia. Z.div_mod_to_equations; lia.
Qed.

Lemma fb_tag_ok m p fb : fb_ok fb -> stored m p (tag_bytes (fb_tag fb)) -> framebuffer_tag m p = fb.
Proof.
  intros [Ha Hp Hw Hh Hb Ht Hrgb] H. unfold tag_bytes in H. apply stored_app in H as [_ H]. apply stored_app in H as [_ H]. change (p + Z.of_nat (length (le32 _)) + Z.of_nat (length (le32 _))) with (p + 4 + 4) in H.
  apply stored_app in H as [H _]. unfold fb_tag in H. cbn [t_body] in H. do 5 (apply stored_app in H as [?H H]). unfold word, byte_val in *.
  repeat match goal with H : stored _ _ (le32 _) |- _ => apply read32_stored in H end. cbn [length le32 Z.of_nat Pos.of_succ_nat Pos.succ] in *.
  repeat match goal with H : context [p + 4 + 4] |- _ => replace (p + 4 + 4) with (p + 8) in H by lia end.
  assert (Hr : forall i c, [fb_bpp fb; fb_type fb; 0; 0; red_pos fb; red_size fb; green_pos fb; green_size fb; blue_pos fb; blue_size fb] !! i = Some c -> read8 m (p + 28 + Z.of_nat i) = c).
  { intros i c Hi. rewrite <-(H i c Hi). f_equal. lia. }
  pose proof (Hr 0%nat _ eq_refl) as R0. pose proof (Hr 1%nat _ eq_refl) as R1. pose proof (Hr 4%nat _ eq_refl) as R4. pose proof (Hr 5%nat _ eq_refl) as R5. pose proof (Hr 6%nat _ eq_refl) as R6.
  pose proof (Hr 7%nat _ eq_refl) as R7. pose proof (Hr 8%nat _ eq_refl) as R8. pose proof (Hr 9%nat _ eq_refl) as R9. clear Hr H.
  unfold framebuffer_tag. replace (p + 12) with (p + 8 + Z.of_nat 4) by lia. replace (p + 16) with (p + 8 + Z.of_nat 4 + Z.of_nat 4) by lia.
  replace (p + 20) with (p + 8 + Z.of_nat 4 + Z.of_nat 4 + Z.of_nat 4) by lia. replace (p + 24) with (p + 8 + Z.of_nat 4 + Z.of_nat 4 + Z.of_nat 4 + Z.of_nat 4) by lia.
  rewrite H0, H1, H2, H3, H4. replace (p + 29) with (p + 28 + Z.of_nat 1) by lia. replace (p + 28) with (p + 28 + Z.of_nat 0) at 1 by lia. rewrite R0, R1.
  replace (p + 32 + 0) with (p + 28 + Z.of_nat 4) by lia. replace (p + 32 + 1) with (p + 28 + Z.of_nat 5) by lia. replace (p + 32 + 2) with (p + 28 + Z.of_nat 6) by lia.
  replace (p + 32 + 3) with (p + 28 + Z.of_nat 7) by lia. replace (p + 32 + 4) with (p + 28 + Z.of_nat 8) by lia. replace (p + 32 + 5) with (p + 28 + Z.of_nat 9) by lia.
  rewrite R4, R5, R6, R7, R8, R9, (u32_small (fb_pitch fb)), (u32_small (fb_width fb)), (u32_small (fb_height fb)) by done.
  replace (u32 (fb_addr fb) + 2 ^ 32 * u32 (fb_addr fb / 2 ^ 32)) with (fb_addr fb) by (unfold u32; zdiv).
  destruct fb as [? ? ? ? ? ty rp rs gp gs bp bs]. cbn in *. destruct (Z.eqb_spec ty 1); [done|]. destruct Hrgb as [?|(-> & -> & -> & -> & -> & ->)]; done.
Qed.

Lemma mb2_tags_ok m fb ts ts' : forall p, fb_ok fb -> stored m p (tags_bytes (ts ++ fb_tag fb :: ts')) ->
  Forall (fun t => word (t_type t) /\ t_type t <> MB2_TAG_TYPE_END /\ t_type t <> MB2_TAG_TYPE_FRAMEBUFFER /\ tag_size t < 2 ^ 31) ts ->
  0 <= p -> p + Z.of_nat (length (tags_bytes (ts ++ fb_tag fb :: ts'))) < 2 ^ 32 ->
  mb2_tags (S (length ts)) m p = Some (Some fb).
Proof.
  induction ts as [|t ts IH]; intros p Hfb Hst Hts Hp Hend; unfold tags_bytes in Hst, Hend; cbn [app fmap list_fmap concat] in Hst, Hend; apply stored_app in Hst as [Ht Hst]; cbn [mb2_tags length].
  - destruct (tag_next m p (fb_tag fb) Ht) as [-> _]; [change (38 < 2 ^ 31); lia|]. cbn [fb_tag t_type]. change (u32 MB2_TAG_TYPE_FRAMEBUFFER) with 8. cbn. by rewrite (fb_tag_ok m p fb Hfb Ht).
  - apply Forall_cons in Hts as [(Hw & H0 & H8 & Hsz) Hts]. destruct (tag_next m p t Ht Hsz) as [-> ->]. rewrite (u32_small (t_type t)) by done.
    destruct (Z.eqb_spec (t_type t) MB2_TAG_TYPE_END); [done|]. destruct (Z.eqb_spec (t_type t) MB2_TAG_TYPE_FRAMEBUFFER); [done|].
    rewrite length_app in Hend. rewrite u32_small by lia. apply IH; try done; [lia|]. unfold tags_bytes. lia.
Qed.

(** What the boot loader encodes, [InitFromMultiboot] decodes: after any tags
    of other types it finds the frame buffer tag and its fields. *)
Theorem InitFromMultiboot_roundtrip s fuel mb fb hdr ts ts' : fb_ok fb -> length hdr = 8%nat -> stored (gmem s) mb (hdr ++ tags_bytes (ts ++ fb_tag fb :: ts')) ->
  Forall (fun t => word (t_type t) /\ t_type t <> MB2_TAG_TYPE_END /\ t_type t <> MB2_TAG_TYPE_FRAMEBUFFER /\ tag_size t < 2 ^ 31) ts ->
  0 < mb -> mb + 8 + Z.of_nat (length (tags_bytes (ts ++ fb_tag fb :: ts'))) < 2 ^ 32 -> fuel = S (length ts) ->
  InitFromMultiboot fuel mb MULTIBOOT2_MAGIC s = Some (tt, set_screen (mk_screen fb true false 0 0) s).
Proof.
  intros Hfb Hl Hst Hts Hmb Hend ->. unfold InitFromMultiboot. rewrite gets_step, modify_step. destruct (Z.eqb_spec mb 0); [lia|]. rewrite gets_step. cbn [negb Z.eqb MULTIBOOT2_MAGIC].
  rewrite u32_small by lia. apply stored_app in Hst as [_ Hst]. rewrite Hl in Hst. change (mb + Z.of_nat 8) with (mb + 8) in Hst.
  change (gmem (set_screen _ s)) with (gmem s). rewrite (mb2_tags_ok (gmem s) fb ts ts' (mb + 8) Hfb Hst Hts) by lia. done.
Qed.

(** * Concrete runs *)

(** A screen of 800 by 600 pixels whose back buffer is at 64 MiB. *)
Definition demo_fb : FramebufferInfo := mk_fb 0xE0000000 3200 800 600 32 1 16 8 8 8 0 8.
Definition demo_surface : gfx :=
  mk_gfx demo_heap (mk_screen demo_fb true false 0xE0000000 0) (mk_backend true false 32 800 600 3200 0xE0000000 0x4000000)
    (mk_comp true false 3200 800 600 0xE0000000 true (mk_rect 0 0 8 8)) false [].
Lemma demo_surface_ok : surface demo_surface.
Proof. split; cbn; try done; lia. Qed.

Lemma FillRect_spec_witness : exists s', FillRect 4 4 10 10 0xFF0000FF demo_surface = Some (tt, s') /\ px s' 7 7 = 0xFF0000FF /\ px s' 8 8 = px demo_surface 8 8.
Proof.
  destruct (FillRect_spec 4 4 10 10 0xFF0000FF demo_surface demo_surface_ok) as (s' & E & _ & Hpx); [repeat split; cbn; lia|reflexivity|split; cbn; lia|lia..|].
  exists s'. split; [exact E|]. split; rewrite Hpx by (split; cbn; lia); [apply decide_True; split; [lia|split; [lia|intros _; split; cbn; lia]]|apply decide_False].
  intros (_ & _ & H). specialize (H eq_refl). destruct H as [H _]. cbn in H. lia.
Defined.

Lemma Blit_spec_witness : exists s', Blit 0 0 100 100 50 50 demo_surface = Some (tt, s') /\ px s' 110 120 = px demo_surface 10 20.
Proof.
  destruct (Blit_spec 0 0 100 100 50 50 demo_surface demo_surface_ok) as (s' & E & _ & Hpx); [split; cbn; lia|split; cbn; lia|lia|lia|]. exists s'. split; [exact E|].
  rewrite Hpx by (split; cbn; lia). rewrite decide_True; [reflexivity|]. split; [lia|]. split; [lia|]. split; cbn; lia.
Defined.

Lemma DrawGlyph8x8_overwrites_witness : exists s', DrawGlyph8x8 4 4 [255; 255; 255; 255; 255; 255; 255; 255] 0xFFFFFFFF 0 demo_surface = Some (tt, s') /\ px s' 9 9 = 0.
Proof.
  destruct (DrawGlyph8x8_overwrites 4 4 [255; 255; 255; 255; 255; 255; 255; 255] 0xFFFFFFFF 0 demo_surface demo_surface_ok) as (s' & E & Hpx); [repeat split; cbn; lia|reflexivity|lia|lia|].
  exists s'. split; [exact E|]. apply Hpx; [split; cbn; lia|lia|lia|]. intros H. specialize (H eq_refl). destruct H as [H _]. cbn in H. lia.
Defined.

Lemma EndFrame_spec_witness : exists s', EndFrame demo_surface = Some (tt, s') /\ read8 (gmem s') 0xE0000000 = Z.land (px demo_surface 0 0) 0xFF.
Proof.
  destruct (EndFrame_spec demo_surface demo_surface_ok) as (s' & E & _ & Hpx & _); [split; unfold pixel_bytes, backbuffer_end; cbn; lia|reflexivity|reflexivity|reflexivity|]. exists s'. split; [exact E|].
  specialize (Hpx 0 0 0 ltac:(split; cbn; lia) ltac:(cbn; lia)). cbn [scan_px Z.odd Z.mul] in Hpx. rewrite Z.shiftr_0_r in Hpx. exact Hpx.
Defined.

Definition demo_gfx : gfx :=
  mk_gfx demo_heap (mk_screen demo_fb true false 0 0) (mk_backend false false 0 0 0 0 0 0) (mk_comp false false 0 0 0 0 false (mk_rect 0 0 0 0)) false [].
Lemma Initialize_spec_witness : exists ok s' l', Initialize demo_gfx = Some (ok, s') /\ wf (g_heap s') l' /\ keeps (gmem demo_gfx) (gmem s') demo_blocks.
Proof.
  destruct (Initialize_spec demo_gfx demo_blocks demo_heap_wf) as (ok & s' & l' & E & Hwf & Hk & _); [split; cbn; try done; lia|]. exists ok, s', l'. split; [exact E|]. split; [exact Hwf|exact Hk].
Defined.

(** A tag of another type in front of the frame buffer tag. *)
Definition demo_tags : list Z := replicate 8 0 ++ tags_bytes ([mk_tag 1 [97; 0]] ++ fb_tag demo_fb :: [mk_tag 0 []]).
Definition demo_boot : gfx := set_gmem (list_to_map (zip (seqZ 0x9000 (Z.of_nat (length demo_tags))) demo_tags)) demo_gfx.
Lemma InitFromMultiboot_roundtrip_witness : InitFromMultiboot 2 0x9000 MULTIBOOT2_MAGIC demo_boot = Some (tt, set_screen (mk_screen demo_fb true false 0 0) demo_boot).
Proof.
  apply (InitFromMultiboot_roundtrip demo_boot 2 0x9000 demo_fb (replicate 8 0) [mk_tag 1 [97; 0]] [mk_tag 0 []]); try reflexivity; [split; cbn; unfold word, byte_val; try lia; by left| |].
  - intros i c Hi. revert c Hi. assert (Hi' : forall i, (i < length demo_tags)%nat -> read8 (gmem demo_boot) (0x9000 + Z.of_nat i) = default 0 (demo_tags !! i)).
    { assert (H : forallb (fun i => read8 (gmem demo_boot) (0x9000 + Z.of_nat i) =? default 0 (demo_tags !! i)) (seq 0 (length demo_tags)) = true) by (vm_compute; reflexivity).
      rewrite forallb_forall in H. intros j Hj. apply Z.eqb_eq, H, in_seq. lia. }
    intros c Hi. fold demo_tags in Hi. rewrite Hi' by (by eapply lookup_lt_Some). by rewrite Hi.
  - constructor; [|constructor]. split; [split; cbn; lia|]. split; [discriminate|]. split; [discriminate|]. vm_compute. reflexivity.
Defined.
