(* ===== verification/Ui.v ===== *)
(** The window framework: [src/kernel/src/ui/framework.cpp] and
    [src/kernel/include/ui/framework.hpp].

    The static arrays of the file are lists of their 16 elements; an access
    outside of them is stuck.  [u_fb] is what [gfx::GetInfo] returns.  Calls of
    a window's component are kept as a trace: the components of the kernel do
    not call the framework from them but to ask for a redraw.  The mouse state
    that [UpdateInteractions] reads is its argument.  Coordinates are 32-bit;
    [int] is a signed reading of the same bits. *)
From stdpp Require Import sorting.
From S2P Require Import Prelude Memory Heap Graphics.

(** * Data *)

Inductive HitRegion :=
| HitNone | Client | TitleBar | ButtonClose | ButtonMax | ButtonMin
| ResizeLeft | ResizeRight | ResizeTop | ResizeBottom | ResizeTopLeft | ResizeTopRight | ResizeBottomLeft | ResizeBottomRight.
Inductive WindowState := Normal | Minimized | Maximized.
Inductive WindowRole := RoleNormal | Dialog | Utility | Dock.
Inductive UIEventType :=
| EventNone | WindowFocused | WindowClosed | WindowMinimized | WindowRestored | WindowMaximized | WindowMoved | WindowResized.

#[export] Instance HitRegion_eq_dec : EqDecision HitRegion.
Proof. solve_decision. Defined.
#[export] Instance WindowState_eq_dec : EqDecision WindowState.
Proof. solve_decision. Defined.

Definition WF_Resizable : Z := 1.
Definition WF_Minimizable : Z := 2.
Definition WF_Maximizable : Z := 4.
Definition WF_Closable : Z := 8.
Definition WF_Frameless : Z := 16.
Definition kAutoCoord : Z := 0xFFFFFFFF.
Definition TitleBarHeight : Z := 18.

Record UIEvent := mk_event { ev_type : UIEventType; ev_window : Z; ev_x : Z; ev_y : Z }.

Record UIWindow := mk_window {
  id : Z; desc : WindowDesc; state : WindowState; role : WindowRole; parentId : Z; flags : Z; restore : Rect;
  needs_redraw : bool; component : Z;
}.

(** Calls of a component. *)
Inductive notice := OnFocusChanged (c : Z) (focused : bool) | OnWindowResized (c w h : Z) | OnVisibilityChanged (c : Z) (visible : bool).

(** Dragging and resizing with the mouse. *)
Record interaction := mk_inter {
  g_dragging : bool; g_dragWin : Z; g_dragOffX : Z; g_dragOffY : Z; g_resizing : bool; g_resizeWin : Z; g_resizeRegion : HitRegion;
}.

(** The ring of events. *)
Record ring := mk_ring { g_events : list UIEvent; g_evt_head : Z; g_evt_tail : Z; g_evt_count : Z }.

Record ui := mk_ui {
  g_windows : list UIWindow; g_count : Z; g_nextId : Z; g_zorder : list Z; g_focused_window : Z;
  g_inter : interaction; g_ring : ring;
  g_work_area : Rect; g_has_work_area : bool; g_auto_place_counter : Z; g_user_focus_interaction : bool;
  u_fb : FramebufferInfo; notices : list notice;
}.

Definition set_windows ws (s : ui) : ui := mk_ui ws (g_count s) (g_nextId s) (g_zorder s) (g_focused_window s) (g_inter s) (g_ring s) (g_work_area s) (g_has_work_area s) (g_auto_place_counter s) (g_user_focus_interaction s) (u_fb s) (notices s).
Definition set_count n (s : ui) : ui := mk_ui (g_windows s) n (g_nextId s) (g_zorder s) (g_focused_window s) (g_inter s) (g_ring s) (g_work_area s) (g_has_work_area s) (g_auto_place_counter s) (g_user_focus_interaction s) (u_fb s) (notices s).
Definition set_next n (s : ui) : ui := mk_ui (g_windows s) (g_count s) n (g_zorder s) (g_focused_window s) (g_inter s) (g_ring s) (g_work_area s) (g_has_work_area s) (g_auto_place_counter s) (g_user_focus_interaction s) (u_fb s) (notices s).
Definition set_zorder z (s : ui) : ui := mk_ui (g_windows s) (g_count s) (g_nextId s) z (g_focused_window s) (g_inter s) (g_ring s) (g_work_area s) (g_has_work_area s) (g_auto_place_counter s) (g_user_focus_interaction s) (u_fb s) (notices s).
Definition set_focus w (s : ui) : ui := mk_ui (g_windows s) (g_count s) (g_nextId s) (g_zorder s) w (g_inter s) (g_ring s) (g_work_area s) (g_has_work_area s) (g_auto_place_counter s) (g_user_focus_interaction s) (u_fb s) (notices s).
Definition set_inter i (s : ui) : ui := mk_ui (g_windows s) (g_count s) (g_nextId s) (g_zorder s) (g_focused_window s) i (g_ring s) (g_work_area s) (g_has_work_area s) (g_auto_place_counter s) (g_user_focus_interaction s) (u_fb s) (notices s).
Definition set_ring r (s : ui) : ui := mk_ui (g_windows s) (g_count s) (g_nextId s) (g_zorder s) (g_focused_window s) (g_inter s) r (g_work_area s) (g_has_work_area s) (g_auto_place_counter s) (g_user_focus_interaction s) (u_fb s) (notices s).
Definition set_area a on (s : ui) : ui := mk_ui (g_windows s) (g_count s) (g_nextId s) (g_zorder s) (g_focused_window s) (g_inter s) (g_ring s) a on (g_auto_place_counter s) (g_user_focus_interaction s) (u_fb s) (notices s).
Definition set_counter n (s : ui) : ui := mk_ui (g_windows s) (g_count s) (g_nextId s) (g_zorder s) (g_focused_window s) (g_inter s) (g_ring s) (g_work_area s) (g_has_work_area s) n (g_user_focus_interaction s) (u_fb s) (notices s).
Definition set_user b (s : ui) : ui := mk_ui (g_windows s) (g_count s) (g_nextId s) (g_zorder s) (g_focused_window s) (g_inter s) (g_ring s) (g_work_area s) (g_has_work_area s) (g_auto_place_counter s) b (u_fb s) (notices s).
Definition notify (c : Z) (n : notice) : ST ui unit :=
  if c =? 0 then ret tt
  else modify (fun s => mk_ui (g_windows s) (g_count s) (g_nextId s) (g_zorder s) (g_focused_window s) (g_inter s) (g_ring s) (g_work_area s) (g_has_work_area s) (g_auto_place_counter s) (g_user_focus_interaction s) (u_fb s) (notices s ++ [n])).

Definition with_desc d (w : UIWindow) : UIWindow := mk_window (id w) d (state w) (role w) (parentId w) (flags w) (restore w) (needs_redraw w) (component w).
Definition with_state st (w : UIWindow) : UIWindow := mk_window (id w) (desc w) st (role w) (parentId w) (flags w) (restore w) (needs_redraw w) (component w).
Definition with_restore r (w : UIWindow) : UIWindow := mk_window (id w) (desc w) (state w) (role w) (parentId w) (flags w) r (needs_redraw w) (component w).
Definition with_redraw b (w : UIWindow) : UIWindow := mk_window (id w) (desc w) (state w) (role w) (parentId w) (flags w) (restore w) b (component w).
Definition with_component c (w : UIWindow) : UIWindow := mk_window (id w) (desc w) (state w) (role w) (parentId w) (flags w) (restore w) (needs_redraw w) c.
Definition with_pos x y (d : WindowDesc) : WindowDesc := mk_desc x y (w_w d) (w_h d) (w_bg d) (w_title d).
Definition with_size w h (d : WindowDesc) : WindowDesc := mk_desc (w_x d) (w_y d) w h (w_bg d) (w_title d).
Definition with_rect (r : Rect) (d : WindowDesc) : WindowDesc := mk_desc (r_x r) (r_y r) (r_w r) (r_h r) (w_bg d) (w_title d).
Definition rect_of (d : WindowDesc) : Rect := mk_rect (w_x d) (w_y d) (w_w d) (w_h d).

(** Array accesses. *)
Definition win (i : Z) : ST ui UIWindow :=
  let! ws := gets g_windows in
  if i <? 0 then stuck else match ws !! Z.to_nat i with Some w => ret w | None => stuck end.
Definition put_win (i : Z) (w : UIWindow) : ST ui unit :=
  let! ws := gets g_windows in
  if (0 <=? i) && (i <? Z.of_nat (length ws)) then modify (set_windows (<[Z.to_nat i := w]> ws)) else stuck.
Definition upd_win (i : Z) (f : UIWindow -> UIWindow) : ST ui unit := let! w := win i in put_win i (f w).
Definition zat (i : Z) : ST ui Z :=
  let! zs := gets g_zorder in
  if i <? 0 then stuck else match zs !! Z.to_nat i with Some v => ret v | None => stuck end.
Definition put_z (i v : Z) : ST ui unit :=
  let! zs := gets g_zorder in
  if (0 <=? i) && (i <? Z.of_nat (length zs)) then modify (set_zorder (<[Z.to_nat i := v]> zs)) else stuck.

(** * Order and placement *)

Definition zRoleRank (r : WindowRole) : Z :=
  match r with Dock => 3 | Dialog => 2 | Utility => 1 | RoleNormal => 0 end.

(** [for (i = lo; i < g_count; ++i) if (P(i)) return i], -1 without a match. *)
Fixpoint first_index (n : nat) (lo : Z) (P : Z -> ST ui bool) : ST ui Z :=
  match n with
  | O => ret (-1)
  | S n' => let! b := P lo in if b : bool then ret lo else first_index n' (lo + 1) P
  end.

Definition findIndexById (wid : Z) : ST ui Z :=
  let! n := gets g_count in
  first_index (Z.to_nat n) 0 (fun i => let! w := win i in ret (id w =? wid)).
Definition z_position (idx : Z) : ST ui Z :=
  let! n := gets g_count in
  first_index (Z.to_nat n) 0 (fun i => let! v := zat i in ret (v =? idx)).

(** The loop that looks for the highest place of the layer. *)
Fixpoint climb (n : nat) (rank target : Z) : ST ui Z :=
  match n with
  | O => stuck
  | S n' =>
      let! count := gets g_count in
      if target + 1 <? count then
        let! nextIdx := zat (target + 1) in
        let! w := win nextIdx in
        if rank <? zRoleRank (role w) then ret target else climb n' rank (target + 1)
      else ret target
  end.

Definition moveWindowToLayerTop (idx : Z) : ST ui unit :=
  let! cur := z_position idx in
  if cur <? 0 then ret tt
  else
    let! w := win idx in
    let! target := climb 17 (zRoleRank (role w)) cur in
    if target =? cur then ret tt
    else
      let! v := zat cur in
      for_loop (Z.to_nat (target - cur)) cur (fun i => let! u := zat (i + 1) in put_z i u);;;
      put_z target v.

Definition effectiveWorkArea (s : ui) : Rect :=
  if g_has_work_area s && (0 <? r_w (g_work_area s)) && (0 <? r_h (g_work_area s)) then g_work_area s
  else mk_rect 0 0 (fb_width (u_fb s)) (fb_height (u_fb s)).

Definition clampWindowToArea (a : Rect) (d : WindowDesc) : WindowDesc :=
  if (r_w a =? 0) || (r_h a =? 0) then d
  else
    let w := if w_w d <? 100 then 100 else w_w d in
    let h := if w_h d <? 60 then 60 else w_h d in
    let w := if r_w a <? w then r_w a else w in
    let h := if r_h a <? h then r_h a else h in
    let x := if w_x d <? r_x a then r_x a else w_x d in
    let y := if w_y d <? r_y a then r_y a else w_y d in
    let x := if u32 (r_x a + r_w a) <? u32 (x + w) then u32 (u32 (r_x a + r_w a) - w) else x in
    let y := if u32 (r_y a + r_h a) <? u32 (y + h) then u32 (u32 (r_y a + r_h a) - h) else y in
    mk_desc x y w h (w_bg d) (w_title d).

Definition rectOverlapArea (a b : WindowDesc) : Z :=
  let ix1 := Z.max (w_x a) (w_x b) in
  let iy1 := Z.max (w_y a) (w_y b) in
  let ix2 := Z.min (u32 (w_x a + w_w a)) (u32 (w_x b + w_w b)) in
  let iy2 := Z.min (u32 (w_y a + w_h a)) (u32 (w_y b + w_h b)) in
  if (ix2 <=? ix1) || (iy2 <=? iy1) then 0 else u32 ((ix2 - ix1) * (iy2 - iy1)).

(** The sum over the windows that are not minimised. *)
Definition totalOverlapAreaForCandidate (ws : list UIWindow) (cand : WindowDesc) : Z :=
  foldl (fun total w => if decide (state w = Minimized) then total else u64 (total + rectOverlapArea cand (desc w))) 0 ws.

Definition absDiffU32 (a b : Z) : Z := if b <? a then a - b else b - a.

(** The best position so far, or a position that ends the search. *)
Record best := mk_best { bestX : Z; bestY : Z; bestOverlap : Z; bestDist : Z }.

(** One candidate. *)
Definition try_at (ws : list UIWindow) (d : WindowDesc) (prefX prefY x y : Z) (b : best) : Z * Z + best :=
  let overlap := totalOverlapAreaForCandidate ws (with_pos x y d) in
  let dist := u32 (absDiffU32 x prefX + absDiffU32 y prefY) in
  if (overlap <? bestOverlap b) || ((overlap =? bestOverlap b) && (dist <? bestDist b)) then
    if (overlap =? 0) && (dist =? 0) then inl (x, y) else inr (mk_best x y overlap dist)
  else inr b.

(** [x = (x + step <= maxX ? x + step : maxX + 1)]. *)
Definition advance (x max : Z) : Z := if u32 (x + 24) <=? max then u32 (x + 24) else u32 (max + 1).

Fixpoint search_row (fuel : nat) (ws : list UIWindow) (d : WindowDesc) (prefX prefY x y maxX : Z) (b : best) : option (Z * Z + best) :=
  match fuel with
  | O => None
  | S fuel' =>
      if x <=? maxX then
        match try_at ws d prefX prefY x y b with
        | inl p => Some (inl p)
        | inr b' => search_row fuel' ws d prefX prefY (advance x maxX) y maxX b'
        end
      else Some (inr b)
  end.

Fixpoint search (fuel fx : nat) (ws : list UIWindow) (d : WindowDesc) (prefX prefY ax y maxX maxY : Z) (b : best) : option (Z * Z + best) :=
  match fuel with
  | O => None
  | S fuel' =>
      if y <=? maxY then
        match search_row fx ws d prefX prefY ax y maxX b with
        | None => None
        | Some (inl p) => Some (inl p)
        | Some (inr b') => search fuel' fx ws d prefX prefY ax (advance y maxY) maxX maxY b'
        end
      else Some (inr b)
  end.

(** Rounds of a loop from [lo] to [max] in steps of 24. *)
Definition grid_fuel (lo max : Z) : nat := Z.to_nat ((max - lo) / 24 + 2).

(** The windows in use. *)
Definition live (s : ui) : list UIWindow := take (Z.to_nat (g_count s)) (g_windows s).

Definition clamp_coord (v lo hi : Z) : Z := let v := if v <? lo then lo else v in if hi <? v then hi else v.

(** [None]: the search does not end. *)
Definition placeWindowMinOverlap (a : Rect) (ws : list UIWindow) (d : WindowDesc) (prefX prefY : Z) : option WindowDesc :=
  if (r_w a =? 0) || (r_h a =? 0) then Some d
  else if (r_w a <? w_w d) || (r_h a <? w_h d) then Some d
  else
    let maxX := u32 (r_x a + r_w a - w_w d) in
    let maxY := u32 (r_y a + r_h a - w_h d) in
    let prefX := clamp_coord prefX (r_x a) maxX in
    let prefY := clamp_coord prefY (r_y a) maxY in
    match search (grid_fuel (r_y a) maxY) (grid_fuel (r_x a) maxX) ws d prefX prefY (r_x a) (r_y a) maxX maxY
            (mk_best prefX prefY (2 ^ 64 - 1) 0xFFFFFFFF) with
    | None => None
    | Some (inl (x, y)) => Some (with_pos x y d)
    | Some (inr b) =>
        let overlap := totalOverlapAreaForCandidate ws (with_pos prefX prefY d) in
        if (overlap <? bestOverlap b) || ((overlap =? bestOverlap b) && (0 <? bestDist b)) then Some (with_pos prefX prefY d)
        else Some (with_pos (bestX b) (bestY b) d)
    end.

(** [(n > m) ? (n - m) / k : 0]. *)
Definition half_gap (n m k : Z) : Z := if m <? n then (n - m) / k else 0.

Definition autoPlaceWindow (d : WindowDesc) (r : WindowRole) (parent : Z) : ST ui WindowDesc :=
  let! a := gets effectiveWorkArea in
  if (r_w a =? 0) || (r_h a =? 0) then ret d
  else
    let! counter := gets g_auto_place_counter in
    let! ws := gets live in
    let! placed :=
      match r with
      | Dialog =>
          let! pidx := (if parent =? 0 then ret (-1) else findIndexById parent) in
          if 0 <=? pidx then
            let! pw := win pidx in
            let p := desc pw in
            ret (with_pos (u32 (w_x p + half_gap (w_w p) (w_w d) 2)) (u32 (w_y p + half_gap (w_h p) (w_h d) 2)) d)
          else ret (with_pos (u32 (r_x a + half_gap (r_w a) (w_w d) 2)) (u32 (r_y a + half_gap (r_h a) (w_h d) 2)) d)
      | Utility =>
          ret (with_pos (if u32 (w_w d + 8) <? r_w a then u32 (r_x a + r_w a - w_w d - 8) else r_x a)
                        (if u32 (w_h d + 8) <? r_h a then u32 (r_y a + 8) else r_y a) d)
      | Dock =>
          ret (mk_desc (r_x a) (if w_h d <? r_h a then u32 (r_y a + r_h a - w_h d) else r_y a) (r_w a) (w_h d) (w_bg d) (w_title d))
      | RoleNormal =>
          let px := if counter =? 0 then u32 (r_x a + half_gap (r_w a) (w_w d) 2)
                    else let span := half_gap (r_w a) (w_w d) 1 in u32 (r_x a + (if span =? 0 then 0 else u32 (counter * 28) mod u32 (span + 1))) in
          let py := if counter =? 0 then u32 (r_y a + half_gap (r_h a) (w_h d) 3)
                    else let span := half_gap (r_h a) (w_h d) 1 in u32 (r_y a + (if span =? 0 then 0 else u32 (counter * 20) mod u32 (span + 1))) in
          match placeWindowMinOverlap a ws (with_pos px py d) px py with Some d' => ret d' | None => stuck end
      end in
    modify (set_counter (u32 (counter + 1)));;;
    ret (clampWindowToArea a placed).

(** * Events and windows *)

Definition pushEvent (t : UIEventType) (wid x y : Z) : ST ui unit :=
  let! r := gets g_ring in
  if 64 <=? g_evt_count r then ret tt
  else if (0 <=? g_evt_tail r) && (g_evt_tail r <? Z.of_nat (length (g_events r))) then
    modify (set_ring (mk_ring (<[Z.to_nat (g_evt_tail r) := mk_event t wid x y]> (g_events r)) (g_evt_head r)
      (Z.land (u32 (g_evt_tail r + 1)) 63) (u32 (g_evt_count r + 1))))
  else stuck.

Definition PollEvent : ST ui (option UIEvent) :=
  let! r := gets g_ring in
  if g_evt_count r =? 0 then ret None
  else match g_events r !! Z.to_nat (g_evt_head r) with
  | None => stuck
  | Some e => modify (set_ring (mk_ring (g_events r) (Z.land (u32 (g_evt_head r + 1)) 63) (g_evt_tail r) (u32 (g_evt_count r - 1))));;; ret (Some e)
  end.

Definition Init : ST ui bool :=
  modify (fun s => set_area (g_work_area s) false (set_counter 0 (set_focus 0 (set_next 1 (set_count 0 s)))));;;
  for_loop 16 0 (fun i => put_z i i);;;
  ret true.

Definition ResetWorkArea : ST ui unit := modify (fun s => set_area (g_work_area s) false s).
Definition SetWorkArea (x y w h : Z) : ST ui unit :=
  if (w =? 0) || (h =? 0) then ResetWorkArea else modify (set_area (mk_rect x y w h) true).

Definition CreateWindowEx (x y w h bg : Z) (title : option (list Z)) (r : WindowRole) (fl parent : Z) : ST ui Z :=
  let! count := gets g_count in
  if 16 <=? count then ret 0
  else
    let! pidx := findIndexById parent in
    let parent := if negb (parent =? 0) && (pidx <? 0) then 0 else parent in
    let d := mk_desc x y w h bg title in
    let! d :=
      (if (x =? kAutoCoord) || (y =? kAutoCoord) then autoPlaceWindow d r parent
       else let! a := gets effectiveWorkArea in ret (clampWindowToArea a d)) in
    modify (set_count (count + 1));;;
    let! wid := gets g_nextId in
    modify (set_next (u32 (wid + 1)));;;
    put_win count (mk_window wid d Normal r parent fl (rect_of d) true 0);;;
    put_z count count;;;
    moveWindowToLayerTop count;;;
    ret wid.

Definition CreateWindow (x y w h bg : Z) (title : option (list Z)) (fl : Z) : ST ui Z := CreateWindowEx x y w h bg title RoleNormal fl 0.
Definition CreateDialogWindow (parent w h bg : Z) (title : option (list Z)) (fl : Z) : ST ui Z :=
  CreateWindowEx kAutoCoord kAutoCoord w h bg title Dialog fl parent.

(** Run [k] on the index of a window, or return [dflt]. *)
Definition on_window {A} (wid : Z) (dflt : A) (k : Z -> ST ui A) : ST ui A :=
  let! idx := findIndexById wid in
  if idx <? 0 then ret dflt else k idx.

Definition has_flag (fl bit : Z) : bool := negb (Z.land fl bit =? 0).

Definition BringToFront (wid : Z) : ST ui bool :=
  on_window wid false (fun idx =>
    moveWindowToLayerTop idx;;;
    let! user := gets g_user_focus_interaction in
    let! focused := gets g_focused_window in
    (if user || (focused =? 0) || (focused =? wid) then
       modify (set_focus wid);;;
       upd_win idx (with_redraw true);;;
       (let! w := win idx in notify (component w) (OnFocusChanged (component w) true));;;
       pushEvent WindowFocused wid 0 0
     else ret tt);;;
    ret true).

Definition SetWindowPos (wid nx ny : Z) : ST ui bool :=
  on_window wid false (fun idx =>
    let! a := gets effectiveWorkArea in
    upd_win idx (fun w => with_redraw true (with_desc (clampWindowToArea a (with_pos nx ny (desc w))) w));;;
    ret true).

Definition SetWindowSize (wid nw nh : Z) : ST ui bool :=
  on_window wid false (fun idx =>
    let! a := gets effectiveWorkArea in
    upd_win idx (fun w => with_redraw true (with_desc (clampWindowToArea a (with_size nw nh (desc w))) w));;;
    (let! w := win idx in notify (component w) (OnWindowResized (component w) (w_w (desc w)) (w_h (desc w))));;;
    ret true).

Definition GetWorkArea : ST ui Rect := gets effectiveWorkArea.
Definition GetFocusedWindow : ST ui Z := gets g_focused_window.
Definition GetWindowCount : ST ui Z := gets g_count.
Definition GetWindowDesc (wid : Z) : ST ui (option WindowDesc) := on_window wid None (fun idx => let! w := win idx in ret (Some (desc w))).
Definition WindowNeedsRedraw (wid : Z) : ST ui bool := on_window wid false (fun idx => let! w := win idx in ret (needs_redraw w)).
Definition ConsumeWindowNeedsRedraw (wid : Z) : ST ui bool :=
  on_window wid false (fun idx => let! w := win idx in upd_win idx (with_redraw false);;; ret (needs_redraw w)).
Definition InvalidateWindow (wid : Z) : ST ui bool := on_window wid false (fun idx => upd_win idx (with_redraw true);;; ret true).
Definition SetWindowComponent (wid c : Z) : ST ui bool :=
  on_window wid false (fun idx => upd_win idx (fun w => with_redraw true (with_component c w));;; ret true).
Definition GetWindowComponent (wid : Z) : ST ui Z := on_window wid 0 (fun idx => let! w := win idx in ret (component w)).
Definition SetFocusedWindow (wid : Z) : ST ui unit := on_window wid tt (fun _ => modify (set_focus wid)).
Definition GetWindowState (wid : Z) : ST ui WindowState := on_window wid Normal (fun idx => let! w := win idx in ret (state w)).
Definition GetWindowFlags (wid : Z) : ST ui Z := on_window wid 0 (fun idx => let! w := win idx in ret (flags w)).
Definition GetWindowRole (wid : Z) : ST ui WindowRole := on_window wid RoleNormal (fun idx => let! w := win idx in ret (role w)).
Definition GetWindowParent (wid : Z) : ST ui Z := on_window wid 0 (fun idx => let! w := win idx in ret (parentId w)).
Definition GetWindowAt (index : Z) : ST ui (option (Z * WindowDesc * WindowState * Z)) :=
  let! n := gets g_count in
  if n <=? index then ret None
  else let! idx := zat index in let! w := win idx in ret (Some (id w, desc w, state w, flags w)).

(** Remove the window at [idx] from the arrays. *)
Definition remove_window (idx wid : Z) : ST ui unit :=
  let! zpos := z_position idx in
  let! n := gets g_count in
  (if 0 <=? zpos then for_loop (Z.to_nat (n - 1 - zpos)) zpos (fun k => let! v := zat (k + 1) in put_z k v) else ret tt);;;
  for_loop (Z.to_nat (n - 1 - idx)) idx (fun i => let! w := win (i + 1) in put_win i w);;;
  modify (set_count (u32 (n - 1)));;;
  for_loop (Z.to_nat (n - 1)) 0 (fun k => let! v := zat k in if idx <? v then put_z k (v - 1) else ret tt);;;
  let! focused := gets g_focused_window in
  (if focused =? wid then modify (set_focus 0) else ret tt);;;
  pushEvent WindowClosed wid 0 0.

(** The id of the first window with the parent, 0 without one. *)
Definition first_child (wid : Z) : ST ui Z :=
  let! n := gets g_count in
  let! i := first_index (Z.to_nat n) 0 (fun i => let! w := win i in ret (parentId w =? wid)) in
  if i <? 0 then ret 0 else let! w := win i in ret (id w).

(** [while (true)] over the children; [false] when the window itself is gone.
    [close] is the recursive call. *)
Fixpoint close_children (n : nat) (close : Z -> ST ui bool) (wid : Z) : ST ui bool :=
  match n with
  | O => stuck
  | S n' =>
      let! childId := first_child wid in
      if childId =? 0 then ret true
      else if childId =? wid then ret true
      else
        close childId;;;
        let! idx := findIndexById wid in
        if idx <? 0 then ret false else close_children n' close wid
  end.

Fixpoint CloseWindow (fuel : nat) (wid : Z) : ST ui bool :=
  match fuel with
  | O => stuck
  | S fuel' =>
      on_window wid false (fun _ =>
        let! here := close_children 17 (CloseWindow fuel') wid in
        if negb here then ret true
        else
          let! idx := findIndexById wid in
          remove_window idx wid;;;
          ret true)
  end.
(** Nesting of windows is bounded by their number. *)
Definition CLOSE_FUEL : nat := 17.

Definition MinimizeWindow (wid : Z) : ST ui bool :=
  on_window wid false (fun idx =>
    let! w := win idx in
    if negb (has_flag (flags w) WF_Minimizable) then ret false
    else
      upd_win idx (fun w => with_redraw true (with_state Minimized w));;;
      notify (component w) (OnVisibilityChanged (component w) false);;;
      let! focused := gets g_focused_window in
      (if focused =? wid then modify (set_focus 0) else ret tt);;;
      pushEvent WindowMinimized wid 0 0;;;
      ret true).

(** The window is not minimised. *)
Definition toggle_shown (idx wid : Z) : ST ui bool :=
  let! w := win idx in
  let! a := gets effectiveWorkArea in
  match state w with
  | Maximized =>
      put_win idx (with_redraw true (with_state Normal (with_desc (clampWindowToArea a (with_rect (restore w) (desc w))) w)));;;
      pushEvent WindowRestored wid 0 0;;;
      ret true
  | Normal =>
      put_win idx (with_redraw true (with_state Maximized (with_desc (with_rect a (desc w)) (with_restore (rect_of (desc w)) w))));;;
      pushEvent WindowMaximized wid 0 0;;;
      ret true
  | Minimized => ret true
  end.

Definition ToggleMaximize (wid : Z) : ST ui bool :=
  on_window wid false (fun idx =>
    let! w := win idx in
    if negb (has_flag (flags w) WF_Maximizable) then ret false
    else if decide (state w = Minimized) then
      put_win idx (with_state Normal w);;;
      on_window wid false (fun idx => toggle_shown idx wid)
    else toggle_shown idx wid).

Definition RestoreWindow (wid : Z) : ST ui bool :=
  on_window wid false (fun idx =>
    let! w := win idx in
    if decide (state w = Minimized) then
      upd_win idx (fun w => with_redraw true (with_state Normal w));;;
      notify (component w) (OnVisibilityChanged (component w) true);;;
      pushEvent WindowRestored wid 0 0;;;
      ret true
    else ret false).

(** * Hit testing *)

Definition inside (x y : Z) (d : WindowDesc) : bool :=
  (w_x d <=? u32 x) && (u32 x <? u32 (w_x d + w_w d)) && (w_y d <=? u32 y) && (u32 y <? u32 (w_y d + w_h d)).

(** The loop over the z-order, [n] windows from the front: the window's id and
    whether the point is on its title bar. *)
Fixpoint hit_loop (n : nat) (x y : Z) : ST ui (option (Z * bool)) :=
  match n with
  | O => ret None
  | S k =>
      let! idx := zat (Z.of_nat k) in
      let! w := win idx in
      let d := desc w in
      if decide (state w = Minimized) then hit_loop k x y
      else if inside x y d then
        let th := if has_flag (flags w) WF_Frameless then 0 else TitleBarHeight in
        ret (Some (id w, negb (th =? 0) && (u32 y <? u32 (w_y d + (if w_h d <? th then w_h d else th)))))
      else hit_loop k x y
  end.
Definition HitTest (x y : Z) : ST ui (option (Z * bool)) := let! n := gets g_count in hit_loop (Z.to_nat n) x y.

(** Minimise, maximise and close. *)
Definition GetStandardButtonRects (d : WindowDesc) : Rect * Rect * Rect :=
  let bh := if w_h d <? TitleBarHeight then w_h d else TitleBarHeight in
  let closeX := u32 (w_x d + w_w d - 2 - 18) in
  let maxX := if 20 <=? closeX then closeX - 20 else closeX in
  let minX := if 20 <=? maxX then maxX - 20 else maxX in
  (mk_rect minX (w_y d) 18 bh, mk_rect maxX (w_y d) 18 bh, mk_rect closeX (w_y d) 18 bh).

Definition inRect (x y : Z) (r : Rect) : bool :=
  (r_x r <=? u32 x) && (u32 x <? u32 (r_x r + r_w r)) && (r_y r <=? u32 y) && (u32 y <? u32 (r_y r + r_h r)).

(** The region of a window under the point. *)
Definition hit_region (x y : Z) (w : UIWindow) (onTitle : bool) : HitRegion :=
  let d := desc w in
  if has_flag (flags w) WF_Frameless then Client
  else
    let '(rMin, rMax, rClose) := GetStandardButtonRects d in
    if inRect x y rClose && has_flag (flags w) WF_Closable then ButtonClose
    else if inRect x y rMax && has_flag (flags w) WF_Maximizable then ButtonMax
    else if inRect x y rMin && has_flag (flags w) WF_Minimizable then ButtonMin
    else if onTitle then TitleBar
    else if has_flag (flags w) WF_Resizable then
      let leftEdge := (w_x d <=? u32 x) && (u32 x <? u32 (w_x d + 4)) in
      let rightEdge := (u32 (w_x d + w_w d - 4) <=? u32 x) && (u32 x <? u32 (w_x d + w_w d)) in
      let topEdge := (w_y d <=? u32 y) && (u32 y <? u32 (w_y d + 4)) in
      let bottomEdge := (u32 (w_y d + w_h d - 4) <=? u32 y) && (u32 y <? u32 (w_y d + w_h d)) in
      if leftEdge && topEdge then ResizeTopLeft
      else if rightEdge && topEdge then ResizeTopRight
      else if leftEdge && bottomEdge then ResizeBottomLeft
      else if rightEdge && bottomEdge then ResizeBottomRight
      else if leftEdge then ResizeLeft
      else if rightEdge then ResizeRight
      else if topEdge then ResizeTop
      else if bottomEdge then ResizeBottom
      else Client
    else Client.

Definition HitTestDetailed (x y : Z) : ST ui (option (Z * HitRegion)) :=
  let! h := HitTest x y in
  match h with
  | None => ret None
  | Some (wid, onTitle) =>
      on_window wid None (fun idx => let! w := win idx in ret (Some (wid, hit_region x y w onTitle)))
  end.

(** * Interaction with the mouse *)

Definition upd_inter (f : interaction -> interaction) : ST ui unit := let! i := gets g_inter in modify (set_inter (f i)).

(** [GetWindowDesc] into a variable without a value: reading it when the window
    is gone is undefined. *)
Definition desc_of (wid : Z) : ST ui WindowDesc :=
  let! d := GetWindowDesc wid in match d with Some d => ret d | None => stuck end.

Definition begin_interaction (mx my : Z) : ST ui unit :=
  let! h := HitTestDetailed mx my in
  match h with
  | None => ret tt
  | Some (wid, hr) =>
      modify (set_user true);;;
      BringToFront wid;;;
      modify (set_user false);;;
      match hr with
      | ButtonClose => CloseWindow CLOSE_FUEL wid;;; ret tt
      | ButtonMin => MinimizeWindow wid;;; ret tt
      | ButtonMax => ToggleMaximize wid;;; ret tt
      | TitleBar =>
          let! st := GetWindowState wid in
          (if decide (st = Minimized) then RestoreWindow wid;;; ret tt else ret tt);;;
          let! d := desc_of wid in
          upd_inter (fun i => mk_inter true wid (s32 (mx - s32 (w_x d))) (s32 (my - s32 (w_y d))) (g_resizing i) (g_resizeWin i) (g_resizeRegion i))
      | HitNone | Client => ret tt
      | _ => upd_inter (fun i => mk_inter (g_dragging i) (g_dragWin i) (g_dragOffX i) (g_dragOffY i) true wid hr)
      end
  end.

(** [if (v < lo) v = lo; if (v > hi) v = hi]. *)
Definition drag_step (mx my : Z) : ST ui unit :=
  let! i := gets g_inter in
  let! d := desc_of (g_dragWin i) in
  let! a := gets effectiveWorkArea in
  let nx := clamp_coord (s32 (mx - g_dragOffX i)) (s32 (r_x a)) (s32 (r_x a + r_w a - w_w d)) in
  let ny := clamp_coord (s32 (my - g_dragOffY i)) (s32 (r_y a)) (s32 (r_y a + r_h a - w_h d)) in
  if negb (u32 nx =? w_x d) || negb (u32 ny =? w_y d) then
    SetWindowPos (g_dragWin i) (u32 nx) (u32 ny);;;
    pushEvent WindowMoved (g_dragWin i) (u32 nx) (u32 ny)
  else ret tt.

(** The left or top edge follows the mouse: the new edge and extent. *)
Definition near_edge (m lo pos extent min : Z) : Z * Z :=
  let n := if m <? lo then lo else m in
  let e := s32 (s32 (pos + extent) - n) in
  if e <? min then (s32 (s32 (pos + extent) - min), min) else (n, e).
(** The right or bottom edge follows the mouse: the new extent. *)
Definition far_edge (m pos min hi : Z) : Z :=
  let e := s32 (m - pos) in
  let e := if e <? min then min else e in
  if hi <? s32 (pos + e) then s32 (hi - pos) else e.

Definition apply_rect (wid nx ny nw nh : Z) : ST ui unit :=
  SetWindowPos wid (u32 nx) (u32 ny);;;
  SetWindowSize wid (u32 nw) (u32 nh);;;
  pushEvent WindowResized wid (u32 nw) (u32 nh).
Definition apply_size (wid nw nh : Z) : ST ui unit :=
  SetWindowSize wid (u32 nw) (u32 nh);;;
  pushEvent WindowResized wid (u32 nw) (u32 nh).

Definition resize_step (mx my : Z) : ST ui unit :=
  let! i := gets g_inter in
  let wid := g_resizeWin i in
  let! d := desc_of wid in
  let! a := gets effectiveWorkArea in
  let x := s32 (w_x d) in let y := s32 (w_y d) in let w := s32 (w_w d) in let h := s32 (w_h d) in
  let right := far_edge mx x 100 (s32 (r_x a + r_w a)) in
  let bottom := far_edge my y 60 (s32 (r_y a + r_h a)) in
  let '(lx, lw) := near_edge mx (s32 (r_x a)) x w 100 in
  let '(ty, th) := near_edge my (s32 (r_y a)) y h 60 in
  match g_resizeRegion i with
  | ResizeLeft => apply_rect wid lx y lw h
  | ResizeRight => apply_size wid right h
  | ResizeTop => apply_rect wid x ty w th
  | ResizeBottom => apply_size wid w bottom
  | ResizeTopLeft => apply_rect wid lx ty lw th
  | ResizeTopRight => apply_rect wid x ty right th
  | ResizeBottomLeft => apply_rect wid lx y lw bottom
  | ResizeBottomRight => apply_size wid right bottom
  | _ => ret tt
  end.

Definition UpdateInteractions (mx my mb : Z) : ST ui unit :=
  let left := negb (Z.land mb 1 =? 0) in
  let! i := gets g_inter in
  if negb (g_dragging i) && negb (g_resizing i) && left then begin_interaction mx my
  else if g_dragging i && left then drag_step mx my
  else if g_resizing i && left then resize_step mx my
  else if (g_dragging i || g_resizing i) && negb left then
    upd_inter (fun i => mk_inter false 0 (g_dragOffX i) (g_dragOffY i) false 0 HitNone)
  else ret tt.

(** * Rendering *)

Definition render_window (focused : Z) (w : UIWindow) : ST gfx unit :=
  let d := desc w in
  if decide (state w = Minimized) then ret tt
  else
    (if has_flag (flags w) WF_Frameless then
       FillRect (w_x d) (w_y d) (w_w d) (w_h d) (w_bg d);;;
       FillRect (w_x d) (w_y d) (w_w d) 1 0x66FFFFFF;;;
       FillRect (w_x d) (u32 (w_y d + w_h d - 1)) (w_w d) 1 0x66000000;;;
       FillRect (w_x d) (w_y d) 1 (w_h d) 0x66FFFFFF;;;
       FillRect (u32 (w_x d + w_w d - 1)) (w_y d) 1 (w_h d) 0x66000000
     else DrawWindow d);;;
    if (id w =? focused) && negb (has_flag (flags w) WF_Frameless) then
      FillRect (w_x d) (u32 (w_y d + TitleBarHeight - 2)) (w_w d) 2 0xFF3B82F6
    else ret tt.

(** [RenderAll] on both parts of the state, which it leaves apart. *)
Definition RenderAll : ST (ui * gfx) unit :=
  let! n := gets (fun s : ui * gfx => g_count s.1) in
  let! focused := gets (fun s : ui * gfx => g_focused_window s.1) in
  for_loop (Z.to_nat n) 0 (fun k =>
    let! idx := zoom fst (fun u s => (u, snd s)) (zat k) in
    let! w := zoom fst (fun u s => (u, snd s)) (win idx) in
    zoom snd (fun g s => (fst s, g)) (render_window focused w)).

(** * Well-formed states *)

Definition area_ok (a : Rect) : Prop := 0 <= r_x a /\ 0 <= r_y a /\ 0 <= r_w a /\ 0 <= r_h a /\ r_x a + r_w a < 2 ^ 32 - 24 /\ r_y a + r_h a < 2 ^ 32 - 24.
Definition desc_ok (d : WindowDesc) : Prop := word (w_x d) /\ word (w_y d) /\ word (w_w d) /\ word (w_h d) /\ word (w_bg d).
Definition rect_ok (r : Rect) : Prop := word (r_x r) /\ word (r_y r) /\ word (r_w r) /\ word (r_h r).
Definition window_ok (w : UIWindow) : Prop := desc_ok (desc w) /\ rect_ok (restore w).
Definition ids (s : ui) : list Z := id <$> live s.

(** The ring holds [l], oldest first. *)
Record ring_is (r : ring) (l : list UIEvent) : Prop := {
  ri_len : length (g_events r) = 64%nat;
  ri_count : g_evt_count r = Z.of_nat (length l) /\ (length l <= 64)%nat;
  ri_head : 0 <= g_evt_head r < 64;
  ri_tail : g_evt_tail r = (g_evt_head r + Z.of_nat (length l)) mod 64;
  ri_get : forall i e, l !! i = Some e -> g_events r !! Z.to_nat ((g_evt_head r + Z.of_nat i) mod 64) = Some e;
}.

(** The arrays have their sizes; the z-order is an order of the windows in use;
    ids are unique; every parent is a window in use with a smaller id; the focus
    is on a window in use or nowhere. *)
Record ui_wf (s : ui) : Prop := {
  wf_len : length (g_windows s) = 16%nat;
  wf_zlen : length (g_zorder s) = 16%nat;
  wf_count : 0 <= g_count s <= 16;
  wf_perm : take (Z.to_nat (g_count s)) (g_zorder s) ≡ₚ seqZ 0 (g_count s);
  wf_ids : NoDup (ids s);
  wf_range : forall w, w ∈ live s -> 0 < id w < g_nextId s;
  wf_next : 0 < g_nextId s < 2 ^ 32;
  wf_parent : forall w, w ∈ live s -> parentId w = 0 \/ (parentId w < id w /\ parentId w ∈ ids s);
  wf_focus : g_focused_window s = 0 \/ g_focused_window s ∈ ids s;
  wf_ring : exists l, ring_is (g_ring s) l;
  wf_windows : forall w, w ∈ live s -> window_ok w;
  wf_area : area_ok (effectiveWorkArea s);
}.

(** ** Reading *)

Section Reading.
Implicit Types (s : ui).

Lemma live_length s : ui_wf s -> length (live s) = Z.to_nat (g_count s).
Proof. intros Hs. unfold live. rewrite length_take, (wf_len _ Hs). pose proof (wf_count _ Hs). lia. Qed.

Lemma win_live s i w : live s !! i = Some w -> win (Z.of_nat i) s = Some (w, s).
Proof.
  intros Hi. unfold win. rewrite gets_step. destruct (Z.ltb_spec (Z.of_nat i) 0); [lia|]. rewrite Nat2Z.id.
  unfold live in Hi. apply lookup_take_Some in Hi as [Hi _]. by rewrite Hi.
Qed.

Lemma live_lookup s i : ui_wf s -> 0 <= i < g_count s -> exists w, live s !! Z.to_nat i = Some w /\ win i s = Some (w, s).
Proof.
  intros Hs Hi. destruct (lookup_lt_is_Some_2 (live s) (Z.to_nat i)) as [w Hw]; [rewrite live_length by done; lia|].
  exists w. split; [done|]. rewrite <-(Z2Nat.id i) by lia. by apply win_live.
Qed.

(** The first index of a pure test. *)
Fixpoint find_from (n : nat) (lo : Z) (p : Z -> bool) : Z :=
  match n with O => -1 | S n' => if p lo then lo else find_from n' (lo + 1) p end.

Lemma first_index_ok n lo P p s : (forall i, lo <= i < lo + Z.of_nat n -> P i s = Some (p i, s)) -> first_index n lo P s = Some (find_from n lo p, s).
Proof.
  revert lo. induction n as [|n IH]; intros lo HP; [done|]. cbn [first_index find_from]. rewrite (bind_step _ _ _ _ _ (HP lo ltac:(lia))).
  destruct (p lo); [done|]. apply IH. intros i Hi. apply HP. lia.
Qed.

Lemma find_from_spec n lo p : 0 <= lo ->
  (find_from n lo p = -1 /\ forall i, lo <= i < lo + Z.of_nat n -> p i = false) \/
  (lo <= find_from n lo p < lo + Z.of_nat n /\ p (find_from n lo p) = true /\ forall i, lo <= i < find_from n lo p -> p i = false).
Proof.
  revert lo. induction n as [|n IH]; intros lo Hlo; cbn [find_from]; [left; split; [done|lia]|]. destruct (p lo) eqn:E.
  - right. split_and!; [lia..|done|lia].
  - destruct (IH (lo + 1)) as [[H1 H2]|(H1 & H2 & H3)]; [lia| |].
    + left. split; [done|]. intros i Hi. destruct (decide (i = lo)) as [->|]; [done|]. apply H2. lia.
    + right. split_and!; [lia..|done|]. intros i Hi. destruct (decide (i = lo)) as [->|]; [done|]. apply H3. lia.
Qed.

(** Index of the window with the id, -1 without one. *)
Definition index_of (s : ui) (wid : Z) : Z :=
  find_from (Z.to_nat (g_count s)) 0 (fun i => match live s !! Z.to_nat i with Some w => id w =? wid | None => false end).

Lemma findIndexById_ok s wid : ui_wf s -> findIndexById wid s = Some (index_of s wid, s).
Proof.
  intros Hs. unfold findIndexById. rewrite gets_step. apply first_index_ok. intros i Hi. pose proof (wf_count _ Hs).
  destruct (live_lookup s i Hs) as (w & Hw & E); [lia|]. rewrite (bind_step _ _ _ _ _ E), Hw. done.
Qed.

Lemma index_of_spec s wid : ui_wf s ->
  (index_of s wid = -1 /\ wid ∉ ids s) \/
  (exists w, 0 <= index_of s wid < g_count s /\ live s !! Z.to_nat (index_of s wid) = Some w /\ win (index_of s wid) s = Some (w, s) /\ id w = wid).
Proof.
  intros Hs. pose proof (wf_count _ Hs). unfold index_of. set (p := fun i => _). destruct (find_from_spec (Z.to_nat (g_count s)) 0 p) as [[E Hf]|(Hr & Ht & _)]; [lia| |].
  - left. split; [done|]. intros Hin. apply list_elem_of_fmap in Hin as (w & -> & Hw). apply list_elem_of_lookup in Hw as [i Hi].
    pose proof (lookup_lt_Some _ _ _ Hi) as Hlt. rewrite live_length in Hlt by done. specialize (Hf (Z.of_nat i) ltac:(lia)). subst p. cbv beta in Hf. rewrite Nat2Z.id, Hi, Z.eqb_refl in Hf. done.
  - right. destruct (live_lookup s (find_from (Z.to_nat (g_count s)) 0 p) Hs) as (w & Hw & E); [lia|]. exists w. split; [lia|]. split; [done|]. split; [done|].
    revert Ht. unfold p at 1. rewrite Hw. apply Z.eqb_eq.
Qed.

Lemma index_of_in s w i : ui_wf s -> live s !! i = Some w -> index_of s (id w) = Z.of_nat i.
Proof.
  intros Hs Hi. destruct (index_of_spec s (id w) Hs) as [[_ H]|(w' & Hr & Hw' & _ & E)].
  - destruct H. apply list_elem_of_fmap_2, list_elem_of_lookup. eauto.
  - pose proof (NoDup_lookup (ids s) i (Z.to_nat (index_of s (id w))) (id w) (wf_ids _ Hs)) as H. unfold ids in H. rewrite !list_lookup_fmap, Hi, Hw' in H. cbn in H. rewrite E in H. specialize (H eq_refl eq_refl). lia.
Qed.

(** Running an operation on a window that exists or not. *)
Lemma on_window_run {A} s wid (dflt : A) k : ui_wf s ->
  (~ (wid ∈ ids s) /\ on_window wid dflt k s = Some (dflt, s)) \/
  (exists i w, live s !! i = Some w /\ id w = wid /\ win (Z.of_nat i) s = Some (w, s) /\ on_window wid dflt k s = k (Z.of_nat i) s).
Proof.
  intros Hs. unfold on_window. rewrite (bind_step _ _ _ _ _ (findIndexById_ok s wid Hs)). destruct (index_of_spec s wid Hs) as [[-> H]|(w & Hr & Hw & E & Hid)].
  - left. by split.
  - right. exists (Z.to_nat (index_of s wid)), w. rewrite Z2Nat.id by lia. destruct (Z.ltb_spec (index_of s wid) 0); [lia|]. by split_and!.
Qed.
End Reading.

(** ** Writing *)

(** States with the same windows and order. *)
Record same_core (s s' : ui) : Prop := {
  sc_windows : g_windows s' = g_windows s; sc_count : g_count s' = g_count s; sc_next : g_nextId s' = g_nextId s; sc_zorder : g_zorder s' = g_zorder s;
  sc_area : effectiveWorkArea s' = effectiveWorkArea s;
}.
Lemma same_core_live s s' : same_core s s' -> live s' = live s.
Proof. intros []. unfold live. congruence. Qed.
Lemma same_core_wf s s' : ui_wf s -> same_core s s' -> (g_focused_window s' = 0 \/ g_focused_window s' ∈ ids s) -> (exists l, ring_is (g_ring s') l) -> ui_wf s'.
Proof.
  intros [? ? ? ? ? ? ? ? ? ? ? ?] Hc Hf Hr. pose proof (same_core_live _ _ Hc) as El. destruct Hc as [E1 E2 E3 E4 E5].
  split; unfold ids in *; rewrite ?El, ?E1, ?E2, ?E3, ?E4, ?E5; done.
Qed.
#[export] Instance same_core_preorder : PreOrder same_core.
Proof. split; [by intros s|]. intros s1 s2 s3 [] []. split; congruence. Qed.

(** [s'] has the windows [ws], every other part of the core as [s]. *)
Definition changed (s : ui) (i : nat) (w : UIWindow) : ui := set_windows (<[i := w]> (g_windows s)) s.
Lemma changed_live s i w0 w : live s !! i = Some w0 -> live (changed s i w) = <[i := w]> (live s).
Proof. intros Hi. apply lookup_take_Some in Hi as [_ Hi]. unfold live, changed. cbn. by rewrite take_insert_lt by lia. Qed.
Lemma changed_ids s i w0 w : live s !! i = Some w0 -> id w = id w0 -> ids (changed s i w) = ids s.
Proof.
  intros Hi E. unfold ids. rewrite (changed_live s i w0 w Hi), list_fmap_insert, E. apply list_insert_id. by rewrite list_lookup_fmap, Hi.
Qed.
Lemma changed_in s i w0 w w' : live s !! i = Some w0 -> w' ∈ live (changed s i w) -> w' = w \/ w' ∈ live s.
Proof.
  intros Hi Hin. rewrite (changed_live s i w0 w Hi) in Hin. apply list_elem_of_lookup in Hin as [j Hj]. apply list_lookup_insert_Some in Hj as [(_ & -> & _)|[_ Hj]]; [by left|right].
  apply list_elem_of_lookup. eauto.
Qed.

Lemma changed_wf s i w0 w : ui_wf s -> live s !! i = Some w0 -> id w = id w0 -> parentId w = parentId w0 -> window_ok w -> ui_wf (changed s i w).
Proof.
  intros Hs Hi Eid Epar Hok. pose proof (changed_ids s i w0 w Hi Eid) as Eids. assert (Hw0 : w0 ∈ live s) by (apply list_elem_of_lookup; eauto).
  destruct Hs as [H1 H2 H3 H4 H5 H6 H7 H8 H9 H10 H11 H12]. split; rewrite ?Eids; try done.
  - cbn. by rewrite length_insert.
  - intros w' [->|Hin]%(changed_in s i w0 w w' Hi); [rewrite Eid; by apply H6|by apply H6].
  - intros w' [->|Hin]%(changed_in s i w0 w w' Hi); [rewrite Epar, Eid; by apply H8|by apply H8].
  - intros w' [->|Hin]%(changed_in s i w0 w w' Hi); [done|by apply H11].
Qed.

Lemma put_win_ok s i w0 w : ui_wf s -> live s !! i = Some w0 -> put_win (Z.of_nat i) w s = Some (tt, changed s i w).
Proof.
  intros Hs Hi. unfold put_win. rewrite gets_step. pose proof (lookup_lt_Some _ _ _ Hi) as Hl. rewrite live_length in Hl by done. pose proof (wf_count _ Hs). rewrite (wf_len _ Hs).
  destruct (Z.leb_spec 0 (Z.of_nat i)); [|lia]. destruct (Z.ltb_spec (Z.of_nat i) (Z.of_nat 16)); [|lia]. cbn [andb]. by rewrite Nat2Z.id.
Qed.
Lemma upd_win_ok s i w0 f : ui_wf s -> live s !! i = Some w0 -> upd_win (Z.of_nat i) f s = Some (tt, changed s i (f w0)).
Proof. intros Hs Hi. unfold upd_win. rewrite (bind_step _ _ _ _ _ (win_live s i w0 Hi)). by eapply put_win_ok. Qed.
Lemma changed_lookup s i w0 w : live s !! i = Some w0 -> live (changed s i w) !! i = Some w.
Proof. intros Hi. rewrite (changed_live s i w0 w Hi). apply list_lookup_insert_eq. by eapply lookup_lt_Some. Qed.

(** ** Events *)

Lemma mod_range_63 z : 0 <= z < 2 ^ 32 -> Z.land z 63 = z mod 64.
Proof. intros _. change 63 with (Z.ones 6). by rewrite Z.land_ones by lia. Qed.

Lemma pushEvent_ok t wid x y s l : ring_is (g_ring s) l ->
  exists r, pushEvent t wid x y s = Some (tt, set_ring r s) /\ ring_is r (if (length l <? 64)%nat then l ++ [mk_event t wid x y] else l).
Proof.
  intros [Hlen [Hc Hle] Hh Ht Hget]. unfold pushEvent. rewrite gets_step, Hc. destruct (Z.leb_spec 64 (Z.of_nat (length l))), (Nat.ltb_spec (length l) 64); try lia.
  - exists (g_ring s). split; [by destruct s|]. by split.
  - assert (0 <= g_evt_tail (g_ring s) < 64) by (rewrite Ht; apply Z.mod_pos_bound; lia). rewrite Hlen.
    destruct (Z.leb_spec 0 (g_evt_tail (g_ring s))); [|lia]. destruct (Z.ltb_spec (g_evt_tail (g_ring s)) (Z.of_nat 64)); [|lia]. cbn [andb].
    eexists. split; [reflexivity|]. split; cbn [g_events g_evt_count g_evt_head g_evt_tail]; rewrite ?length_app, ?length_insert; cbn [length]; try done.
    + rewrite u32_small by lia. lia.
    + rewrite u32_small, mod_range_63, Ht by lia. rewrite Zplus_mod_idemp_l. f_equal. lia.
    + intros i e Hi. apply lookup_snoc_Some in Hi as [[Hi He]|[-> <-]].
      * rewrite list_lookup_insert_ne; [by apply Hget|]. rewrite Ht. intros E. apply Z2Nat.inj in E; [|apply Z.mod_pos_bound; lia|apply Z.mod_pos_bound; lia]. zdiv.
      * rewrite <-Ht. apply list_lookup_insert_eq. lia.
Qed.

(** Events come out in the order they went in; the 65th is dropped. *)
Theorem PollEvent_ok s l : ring_is (g_ring s) l ->
  match l with
  | [] => PollEvent s = Some (None, s)
  | e :: l' => exists r, PollEvent s = Some (Some e, set_ring r s) /\ ring_is r l'
  end.
Proof.
  intros [Hlen [Hc Hle] Hh Ht Hget]. unfold PollEvent. rewrite gets_step, Hc. destruct l as [|e l]; [done|]. destruct (Z.eqb_spec (Z.of_nat (length (e :: l))) 0); [cbn in *; lia|].
  pose proof (Hget 0%nat e eq_refl) as He. rewrite Z.add_0_r, Z.mod_small in He by lia. rewrite He, modify_step. cbn [length] in *. eexists. split; [reflexivity|].
  split; cbn [g_events g_evt_count g_evt_head g_evt_tail]; try done; rewrite ?u32_small by lia; try lia.
  - rewrite mod_range_63 by lia. apply Z.mod_pos_bound. lia.
  - rewrite mod_range_63, Ht, Zplus_mod_idemp_l by lia. f_equal. lia.
  - intros i e' Hi. rewrite mod_range_63, Zplus_mod_idemp_l by lia. rewrite <-(Hget (S i) e' Hi). do 3 f_equal. lia.
Qed.

Lemma set_ring_core r s : same_core s (set_ring r s).
Proof. by split. Qed.
Lemma set_focus_core w s : same_core s (set_focus w s).
Proof. by split. Qed.

Lemma pushEvent_wf t wid x y s : ui_wf s -> exists s', pushEvent t wid x y s = Some (tt, s') /\ ui_wf s' /\ same_core s s' /\ g_focused_window s' = g_focused_window s /\ g_inter s' = g_inter s.
Proof.
  intros Hs. destruct (wf_ring _ Hs) as [l Hl]. destruct (pushEvent_ok t wid x y s l Hl) as (r & E & Hr). exists (set_ring r s). split; [done|].
  split; [|by split]. eapply same_core_wf; [done|apply set_ring_core|apply (wf_focus _ Hs)|eauto].
Qed.
Lemma notify_wf c n s : ui_wf s -> exists s', notify c n s = Some (tt, s') /\ ui_wf s' /\ same_core s s' /\ g_focused_window s' = g_focused_window s /\ g_inter s' = g_inter s /\ g_ring s' = g_ring s.
Proof.
  intros Hs. unfold notify. destruct (c =? 0); [exists s; by split_and!|]. eexists. split; [reflexivity|]. split; [|by split].
  eapply same_core_wf; [done|by split|apply (wf_focus _ Hs)|apply (wf_ring _ Hs)].
Qed.

(** ** The z-order *)

(** Indices of the windows in use, back to front. *)
Definition order (s : ui) : list Z := take (Z.to_nat (g_count s)) (g_zorder s).
Definition rank_at (s : ui) (i : Z) : Z := match live s !! Z.to_nat i with Some w => zRoleRank (role w) | None => 0 end.

(** Moving part of an array down by one place, for both arrays. *)
Section Shift.
Context {A : Type} (arr : ui -> list A) (seta : list A -> ui -> ui) (rd : Z -> ST ui A) (wr : Z -> A -> ST ui unit).
Hypothesis rd_ok : forall s i v, 0 <= i -> arr s !! Z.to_nat i = Some v -> rd i s = Some (v, s).
Hypothesis wr_ok : forall s i v, 0 <= i < Z.of_nat (length (arr s)) -> wr i v s = Some (tt, seta (<[Z.to_nat i := v]> (arr s)) s).
Hypothesis arr_set : forall l s, arr (seta l s) = l.
Hypothesis set_set : forall l l' s, seta l (seta l' s) = seta l s.
Hypothesis set_arr : forall s, seta (arr s) s = s.

Lemma shift_ok b : forall s a x c, arr s = a ++ x :: b ++ c ->
  exists y, for_loop (length b) (Z.of_nat (length a)) (fun i => let! u := rd (i + 1) in wr i u) s = Some (tt, seta (a ++ b ++ y :: c) s).
Proof.
  induction b as [|u b IH]; intros s a x c E; cbn [length for_loop].
  - exists x. cbn [app] in *. unfold ret. by rewrite <-E, set_arr.
  - assert (Hrd : rd (Z.of_nat (length a) + 1) s = Some (u, s)).
    { apply rd_ok; [lia|]. rewrite E. replace (Z.to_nat _) with (length a + 1)%nat by lia. rewrite lookup_app_r by lia. by replace (length a + 1 - length a)%nat with 1%nat by lia. }
    rewrite bind_assoc, (bind_step _ _ _ _ _ Hrd). assert (Hl : (length a < length (arr s))%nat) by (rewrite E, length_app; cbn; lia).
    rewrite (bind_step _ _ _ _ _ (wr_ok s (Z.of_nat (length a)) u ltac:(lia))).
    destruct (IH (seta (<[Z.to_nat (Z.of_nat (length a)) := u]> (arr s)) s) (a ++ [u]) u c) as [y Hy].
    { rewrite arr_set, E, Nat2Z.id, insert_app_r_alt by lia. rewrite Nat.sub_diag. cbn. by rewrite <-app_assoc. }
    exists y. rewrite length_app, Nat2Z.inj_add in Hy. change (Z.of_nat (length [u])) with 1 in Hy. rewrite Hy, set_set. by rewrite <-app_assoc.
Qed.
End Shift.

Section Order.
Implicit Types (s : ui).

Lemma zat_ok s i v : 0 <= i -> g_zorder s !! Z.to_nat i = Some v -> zat i s = Some (v, s).
Proof. intros Hi E. unfold zat. rewrite gets_step. destruct (Z.ltb_spec i 0); [lia|]. by rewrite E. Qed.
Lemma put_z_ok s i v : 0 <= i < Z.of_nat (length (g_zorder s)) -> put_z i v s = Some (tt, set_zorder (<[Z.to_nat i := v]> (g_zorder s)) s).
Proof. intros Hi. unfold put_z. rewrite gets_step. destruct (Z.leb_spec 0 i), (Z.ltb_spec i (Z.of_nat (length (g_zorder s)))); done || lia. Qed.
Lemma win_ok s i w : 0 <= i -> g_windows s !! Z.to_nat i = Some w -> win i s = Some (w, s).
Proof. intros Hi E. unfold win. rewrite gets_step. destruct (Z.ltb_spec i 0); [lia|]. by rewrite E. Qed.
Lemma put_win_raw s i w : 0 <= i < Z.of_nat (length (g_windows s)) -> put_win i w s = Some (tt, set_windows (<[Z.to_nat i := w]> (g_windows s)) s).
Proof. intros Hi. unfold put_win. rewrite gets_step. destruct (Z.leb_spec 0 i), (Z.ltb_spec i (Z.of_nat (length (g_windows s)))); done || lia. Qed.

Lemma order_length s : ui_wf s -> length (order s) = Z.to_nat (g_count s).
Proof. intros Hs. unfold order. rewrite length_take, (wf_zlen _ Hs). pose proof (wf_count _ Hs). lia. Qed.
Lemma order_in s i : ui_wf s -> i ∈ order s <-> 0 <= i < g_count s.
Proof. intros Hs. unfold order. rewrite (wf_perm _ Hs), elem_of_seqZ. lia. Qed.
Lemma order_nodup s : ui_wf s -> NoDup (order s).
Proof. intros Hs. unfold order. rewrite (wf_perm _ Hs). apply NoDup_seqZ. Qed.
Lemma zat_order s k v : order s !! k = Some v -> zat (Z.of_nat k) s = Some (v, s).
Proof. intros Hk. apply zat_ok; [lia|]. rewrite Nat2Z.id. by apply lookup_take_Some in Hk as [Hk _]. Qed.
(** The array is the order and the entries out of use. *)
Lemma zorder_split s : g_zorder s = order s ++ drop (Z.to_nat (g_count s)) (g_zorder s).
Proof. unfold order. by rewrite take_drop. Qed.
Lemma windows_split s : g_windows s = live s ++ drop (Z.to_nat (g_count s)) (g_windows s).
Proof. unfold live. by rewrite take_drop. Qed.

Lemma nodup_mid {A} (l1 l2 k1 k2 : list A) x : NoDup (l1 ++ x :: l2) -> l1 ++ x :: l2 = k1 ++ x :: k2 -> l1 = k1 /\ l2 = k2.
Proof.
  intros Hn E. assert (length l1 = length k1) as El.
  { eapply NoDup_lookup; [exact Hn| |rewrite E]; apply list_lookup_middle; done. }
  apply app_inj_1 in E as [-> E]; [|done]. by injection E.
Qed.

Lemma z_position_ok s l1 idx l2 : ui_wf s -> order s = l1 ++ idx :: l2 -> z_position idx s = Some (Z.of_nat (length l1), s).
Proof.
  intros Hs E. unfold z_position. rewrite gets_step. pose proof (wf_count _ Hs).
  rewrite (first_index_ok _ _ _ (fun i => match order s !! Z.to_nat i with Some v => v =? idx | None => false end)).
  - do 2 f_equal. set (p := fun i => _). destruct (find_from_spec (Z.to_nat (g_count s)) 0 p) as [[_ Hf]|(Hr & Ht & _)]; [lia| |].
    + exfalso. specialize (Hf (Z.of_nat (length l1))). subst p. cbv beta in Hf. rewrite Nat2Z.id, E, list_lookup_middle, Z.eqb_refl in Hf by done.
      pose proof (order_length s Hs) as Hl. rewrite E, length_app in Hl. cbn in Hl. specialize (Hf ltac:(lia)). done.
    + revert Ht. unfold p at 1. destruct (order s !! _) as [v|] eqn:Ev; [|done]. intros ->%Z.eqb_eq.
      enough (Z.to_nat (find_from (Z.to_nat (g_count s)) 0 p) = length l1) by lia.
      eapply NoDup_lookup; [apply (order_nodup s Hs)|exact Ev|]. rewrite E. by apply list_lookup_middle.
  - intros i Hi. destruct (lookup_lt_is_Some_2 (order s) (Z.to_nat i)) as [v Hv]; [rewrite order_length by done; lia|].
    rewrite <-(Z2Nat.id i) at 1 by lia. rewrite (bind_step _ _ _ _ _ (zat_order s _ v Hv)), Hv. done.
Qed.

(** The indices in the order are those of windows. *)
Lemma rank_win s i : ui_wf s -> i ∈ order s -> exists w, win i s = Some (w, s) /\ live s !! Z.to_nat i = Some w /\ rank_at s i = zRoleRank (role w).
Proof. intros Hs Hi%(order_in s i Hs). destruct (live_lookup s i Hs Hi) as (w & Hw & E). exists w. split; [done|]. split; [done|]. unfold rank_at. by rewrite Hw. Qed.

Lemma climb_ok s r l2 : ui_wf s -> forall n l1 l3, order s = l1 ++ l2 ++ l3 -> l1 <> [] -> Forall (fun i => rank_at s i <= r) l2 ->
  match l3 with [] => True | i :: _ => r < rank_at s i end -> (length l2 < n)%nat ->
  climb n r (Z.of_nat (length l1) - 1) s = Some (Z.of_nat (length l1) - 1 + Z.of_nat (length l2), s).
Proof.
  intros Hs. induction l2 as [|i l2 IH]; intros [|n] l1 l3 E Hl1 Hle Hgt Hn; try (cbn in Hn; lia); cbn [climb]; rewrite gets_step, Z.sub_add;
    pose proof (order_length s Hs) as Hl; pose proof (wf_count _ Hs).
  - rewrite Z.add_0_r. cbn [app] in E. rewrite E, length_app in Hl. destruct (Z.ltb_spec (Z.of_nat (length l1)) (g_count s)); [|done].
    destruct l3 as [|i l3]; [cbn in Hl; lia|]. assert (Hi : order s !! length l1 = Some i) by (rewrite E; by apply list_lookup_middle).
    rewrite (bind_step _ _ _ _ _ (zat_order s _ _ Hi)). destruct (rank_win s i Hs) as (w & Ew & _ & Er); [apply list_elem_of_lookup; eauto|].
    rewrite (bind_step _ _ _ _ _ Ew), <-Er. by destruct (Z.ltb_spec r (rank_at s i)); [|lia].
  - rewrite E, !length_app in Hl. cbn [length] in Hl. destruct (Z.ltb_spec (Z.of_nat (length l1)) (g_count s)); [|lia].
    assert (Hi : order s !! length l1 = Some i) by (rewrite E; by apply list_lookup_middle).
    rewrite (bind_step _ _ _ _ _ (zat_order s _ _ Hi)). destruct (rank_win s i Hs) as (w & Ew & _ & Er); [apply list_elem_of_lookup; eauto|].
    apply Forall_cons in Hle as [Hle1 Hle]. rewrite (bind_step _ _ _ _ _ Ew), <-Er. destruct (Z.ltb_spec r (rank_at s i)); [lia|].
    specialize (IH n (l1 ++ [i]) l3). rewrite length_app in IH. cbn [length] in *. replace (Z.of_nat (length l1)) with (Z.of_nat (length l1 + 1) - 1) at 1 by lia.
    rewrite IH; [do 2 f_equal; lia|by rewrite E, <-app_assoc|by destruct l1|done|done|lia].
Qed.
End Order.

(** [s] with the z-order [l]. *)
Definition reordered (s : ui) (l : list Z) : ui := set_zorder (l ++ drop (Z.to_nat (g_count s)) (g_zorder s)) s.

Section Raising.
Implicit Types (s : ui).

Lemma reordered_order s l : ui_wf s -> l ≡ₚ order s -> order (reordered s l) = l.
Proof. intros Hs Hp. unfold order at 1, reordered. cbn. apply take_app_length'. by rewrite Hp, order_length. Qed.
Lemma reordered_wf s l : ui_wf s -> l ≡ₚ order s -> ui_wf (reordered s l).
Proof.
  intros Hs Hp. pose proof (reordered_order s l Hs Hp) as Eo. pose proof (order_length s Hs) as Hl. rewrite <-Hp in Hl.
  destruct Hs as [H1 H2 H3 H4 H5 H6 H7 H8 H9 H10 H11 H12]. split; try done.
  - cbn. rewrite length_app, length_drop, Hl, H2. lia.
  - change (order (reordered s l) ≡ₚ seqZ 0 (g_count s)). by rewrite Eo, Hp.
Qed.

(** Every window is in the order, below windows of at most its rank and above
    those the first window of a higher rank. *)
Lemma raise_split s i : ui_wf s -> 0 <= i < g_count s -> exists l1 l2 l3, order s = l1 ++ i :: l2 ++ l3 /\ Forall (fun j => rank_at s j <= rank_at s i) l2 /\
  match l3 with [] => True | j :: _ => rank_at s i < rank_at s j end.
Proof.
  intros Hs Hi%(order_in s i Hs). apply list_elem_of_split in Hi as (l1 & l & E). exists l1. rewrite E. clear E.
  enough (exists l2 l3, l = l2 ++ l3 /\ Forall (fun j => rank_at s j <= rank_at s i) l2 /\ match l3 with [] => True | j :: _ => rank_at s i < rank_at s j end) as (l2 & l3 & -> & ? & ?) by eauto.
  induction l as [|j l IH]; [by exists [], []|]. destruct (Z.lt_ge_cases (rank_at s i) (rank_at s j)); [by exists [], (j :: l)|].
  destruct IH as (l2 & l3 & -> & Hf & Hm). exists (j :: l2), l3. split; [done|]. split; [|done]. by constructor.
Qed.

Lemma moveWindowToLayerTop_ok s l1 i l2 l3 : ui_wf s -> order s = l1 ++ i :: l2 ++ l3 -> Forall (fun j => rank_at s j <= rank_at s i) l2 ->
  match l3 with [] => True | j :: _ => rank_at s i < rank_at s j end ->
  moveWindowToLayerTop i s = Some (tt, reordered s (l1 ++ l2 ++ i :: l3)).
Proof.
  intros Hs E Hle Hgt. unfold moveWindowToLayerTop. rewrite (bind_step _ _ _ _ _ (z_position_ok s l1 i _ Hs E)). destruct (Z.ltb_spec (Z.of_nat (length l1)) 0); [lia|].
  destruct (rank_win s i Hs) as (w & Ew & _ & Er). { rewrite E. apply elem_of_app. right. left. }
  rewrite (bind_step _ _ _ _ _ Ew), <-Er. pose proof (order_length s Hs) as Hl. pose proof (wf_count _ Hs) as Hc. pose proof Hl as Hl'. rewrite E, length_app in Hl'. cbn [length] in Hl'. rewrite length_app in Hl'.
  pose proof (climb_ok s (rank_at s i) l2 Hs 17 (l1 ++ [i]) l3) as Hcl. rewrite length_app, <-app_assoc in Hcl. cbn [length] in Hcl.
  replace (Z.of_nat (length l1 + 1) - 1) with (Z.of_nat (length l1)) in Hcl by lia. rewrite (bind_step _ _ _ _ _ (Hcl E ltac:(by destruct l1) Hle Hgt ltac:(lia))).
  pose proof (zorder_split s) as Ez. rewrite E in Ez. set (t := drop (Z.to_nat (g_count s)) (g_zorder s)) in *.
  destruct (Z.eqb_spec (Z.of_nat (length l1) + Z.of_nat (length l2)) (Z.of_nat (length l1))) as [E0|].
  { assert (l2 = []) as -> by (apply nil_length_inv; lia). unfold reordered, ret. fold t. cbn [app] in *. rewrite <-Ez. by destruct s. }
  assert (Hi : order s !! length l1 = Some i) by (rewrite E; by apply list_lookup_middle). rewrite (bind_step _ _ _ _ _ (zat_order s _ _ Hi)).
  rewrite Z.add_simpl_l, Nat2Z.id.
  destruct (shift_ok g_zorder set_zorder zat put_z zat_ok put_z_ok ltac:(done) ltac:(done) ltac:(by intros []) l2 s l1 i (l3 ++ t)) as [y Hy].
  { rewrite Ez, <-app_assoc. cbn. by rewrite <-app_assoc. }
  rewrite (bind_step _ _ _ _ _ Hy), put_z_ok by (cbn; rewrite !length_app; cbn; lia). unfold reordered. fold t. cbn.
  match goal with |- context [set_zorder ?a (set_zorder _ s)] => change (set_zorder a (set_zorder _ s)) with (set_zorder a s) end. do 3 f_equal.
  replace (Z.to_nat _) with (length (l1 ++ l2) + 0)%nat by (rewrite length_app; lia). rewrite !app_assoc, insert_app_r, <-!app_assoc. done.
Qed.

Lemma raise_perm {A} (l1 l2 l3 : list A) x : l1 ++ l2 ++ x :: l3 ≡ₚ l1 ++ x :: l2 ++ l3.
Proof. f_equiv. by rewrite Permutation_middle. Qed.

Lemma raise_ok s i : ui_wf s -> 0 <= i < g_count s -> exists l1 l2 l3, order s = l1 ++ i :: l2 ++ l3 /\ Forall (fun j => rank_at s j <= rank_at s i) l2 /\
  match l3 with [] => True | j :: _ => rank_at s i < rank_at s j end /\
  moveWindowToLayerTop i s = Some (tt, reordered s (l1 ++ l2 ++ i :: l3)) /\ ui_wf (reordered s (l1 ++ l2 ++ i :: l3)) /\ order (reordered s (l1 ++ l2 ++ i :: l3)) = l1 ++ l2 ++ i :: l3.
Proof.
  intros Hs Hi. destruct (raise_split s i Hs Hi) as (l1 & l2 & l3 & E & Hle & Hgt). exists l1, l2, l3. assert (Hp : l1 ++ l2 ++ i :: l3 ≡ₚ order s) by (rewrite E; apply raise_perm).
  split_and!; try done; [by apply moveWindowToLayerTop_ok|by apply reordered_wf|by apply reordered_order].
Qed.
End Raising.

(** ** Placement *)

(** The window lies in the area, at least 100 by 60 where the area allows it. *)
Definition within (a : Rect) (d : WindowDesc) : Prop := r_x a <= w_x d /\ r_y a <= w_y d /\ w_x d + w_w d <= r_x a + r_w a /\ w_y d + w_h d <= r_y a + r_h a.

Section Clamping.
Context (a : Rect) (d : WindowDesc) (Ha : area_ok a) (Hd : desc_ok d).

Lemma clamp_ok : desc_ok (clampWindowToArea a d).
Proof.
  destruct Ha as (? & ? & ? & ? & ? & ?). unfold desc_ok, word, clampWindowToArea in *. destruct (_ || _) eqn:E0; [done|]. cbn [w_x w_y w_w w_h w_bg].
  pose proof (u32_range (u32 (r_x a + r_w a) - (if r_w a <? (if w_w d <? 100 then 100 else w_w d) then r_w a else if w_w d <? 100 then 100 else w_w d))).
  pose proof (u32_range (u32 (r_y a + r_h a) - (if r_h a <? (if w_h d <? 60 then 60 else w_h d) then r_h a else if w_h d <? 60 then 60 else w_h d))).
  split_and!; repeat case_match; try lia.
Qed.

(** A window that does not reach past 2^32 is moved into the work area and made
    no larger than it. *)
Lemma clamp_within : 0 < r_w a -> 0 < r_h a -> w_x d + Z.max 100 (w_w d) < 2 ^ 32 -> w_y d + Z.max 60 (w_h d) < 2 ^ 32 ->
  let d' := clampWindowToArea a d in
  within a d' /\ w_w d' = Z.min (r_w a) (Z.max 100 (w_w d)) /\ w_h d' = Z.min (r_h a) (Z.max 60 (w_h d)).
Proof.
  intros Hw Hh Hx Hy. destruct Ha as (? & ? & ? & ? & ? & ?). destruct Hd as (? & ? & ? & ? & ?). unfold word in *. unfold within, clampWindowToArea.
  destruct (Z.eqb_spec (r_w a) 0), (Z.eqb_spec (r_h a) 0); try lia. cbn [orb w_x w_y w_w w_h].
  set (w := if r_w a <? _ then _ else _). set (h := if r_h a <? _ then _ else _). set (x := if w_x d <? _ then _ else _). set (y := if w_y d <? _ then _ else _).
  assert (w = Z.min (r_w a) (Z.max 100 (w_w d))) as -> by (subst w; repeat case_match; lia). assert (h = Z.min (r_h a) (Z.max 60 (w_h d))) as -> by (subst h; repeat case_match; lia).
  assert (x = Z.max (r_x a) (w_x d)) as -> by (subst x; case_match; lia). assert (y = Z.max (r_y a) (w_y d)) as -> by (subst y; case_match; lia).
  rewrite (u32_small (r_x a + r_w a)), (u32_small (r_y a + r_h a)) by lia. rewrite (u32_small (Z.max (r_x a) _ + _)), (u32_small (Z.max (r_y a) _ + _)) by lia.
  rewrite (u32_small (_ - Z.min (r_w a) _)), (u32_small (_ - Z.min (r_h a) _)) by lia.
  split_and!; repeat match goal with |- context [?p <? ?q] => destruct (Z.ltb_spec p q) end; try reflexivity; lia.
Qed.
End Clamping.

Section Search.
Context (ws : list UIWindow) (d : WindowDesc) (prefX prefY : Z).

(** What the search minimises: the overlap, then the distance. *)
Definition cost (p : Z * Z) : Z * Z := (totalOverlapAreaForCandidate ws (with_pos p.1 p.2 d), u32 (absDiffU32 p.1 prefX + absDiffU32 p.2 prefY)).
Definition lex_lt (c c' : Z * Z) : Prop := c.1 < c'.1 \/ (c.1 = c'.1 /\ c.2 < c'.2).
Definition lex_le (c c' : Z * Z) : Prop := ~ lex_lt c' c.
Definition best_cost (b : best) : Z * Z := (bestOverlap b, bestDist b).
Definition best_at (p : Z * Z) : best := mk_best p.1 p.2 (cost p).1 (cost p).2.

Lemma lex_le_trans c1 c2 c3 : lex_le c1 c2 -> lex_le c2 c3 -> lex_le c1 c3.
Proof. unfold lex_le, lex_lt. lia. Qed.

(** The candidates one after another. *)
Fixpoint scan (l : list (Z * Z)) (b : best) : Z * Z + best :=
  match l with
  | [] => inr b
  | p :: l' => match try_at ws d prefX prefY p.1 p.2 b with inl q => inl q | inr b' => scan l' b' end
  end.
Lemma scan_app l l' b : scan (l ++ l') b = match scan l b with inl q => inl q | inr b' => scan l' b' end.
Proof. revert b. induction l as [|p l IH]; intros b; [done|]. cbn. destruct (try_at _ _ _ _ _ _ _); [done|apply IH]. Qed.

Lemma overlap_range l c : 0 <= totalOverlapAreaForCandidate l c < 2 ^ 64.
Proof.
  unfold totalOverlapAreaForCandidate. induction l as [|w l IH] using rev_ind; [done|]. rewrite foldl_app. cbn [foldl]. case_decide; [done|]. apply u64_range.
Qed.
Lemma cost_nonneg p : 0 <= (cost p).1 /\ 0 <= (cost p).2.
Proof. split; [apply overlap_range|apply u32_range]. Qed.

Lemma try_at_spec p b :
  match try_at ws d prefX prefY p.1 p.2 b with
  | inl q => q = p /\ cost p = (0, 0)
  | inr b' => (b' = b \/ b' = best_at p) /\ lex_le (best_cost b') (best_cost b) /\ lex_le (best_cost b') (cost p)
  end.
Proof.
  unfold try_at. change (totalOverlapAreaForCandidate ws (with_pos p.1 p.2 d)) with (cost p).1. change (u32 (absDiffU32 p.1 prefX + absDiffU32 p.2 prefY)) with (cost p).2.
  change (mk_best p.1 p.2 (cost p).1 (cost p).2) with (best_at p). unfold best_cost, lex_le, lex_lt. destruct (cost p) as [o e] eqn:E. cbn [fst snd].
  assert (Eo : bestOverlap (best_at p) = o) by (unfold best_at; by rewrite E). assert (Ee : bestDist (best_at p) = e) by (unfold best_at; by rewrite E).
  destruct (Z.ltb_spec o (bestOverlap b)), (Z.eqb_spec o (bestOverlap b)), (Z.ltb_spec e (bestDist b)), (Z.eqb_spec o 0), (Z.eqb_spec e 0); cbn [orb andb]; try (split; [by destruct p|congruence]);
    (split; [by auto|]); rewrite ?Eo, ?Ee; cbn; lia.
Qed.

Lemma scan_spec l b :
  match scan l b with
  | inl q => q ∈ l /\ cost q = (0, 0)
  | inr b' => (b' = b \/ exists p, p ∈ l /\ b' = best_at p) /\ lex_le (best_cost b') (best_cost b) /\ forall p, p ∈ l -> lex_le (best_cost b') (cost p)
  end.
Proof.
  revert b. induction l as [|p l IH]; intros b; cbn [scan]; [split; [by left|]; split; [unfold lex_le, lex_lt; lia|]; intros p Hp; by apply not_elem_of_nil in Hp|].
  pose proof (try_at_spec p b) as Ht. destruct (try_at _ _ _ _ _ _ _) as [q|b1]; [destruct Ht as [-> Ht]; split; [left|done]|].
  destruct Ht as (Hb & Hle & Hp). specialize (IH b1). destruct (scan l b1) as [q|b2]; [destruct IH; split; [by right|done]|]. destruct IH as (Hb2 & Hle2 & Hall). split; [|split].
  - destruct Hb2 as [->|(p' & Hp' & ->)]; [destruct Hb as [-> | ->]; [by left|right; exists p; split; [left|done]]|right; exists p'; split; [by right|done]].
  - by eapply lex_le_trans.
  - intros p' [->|Hp']%elem_of_cons; [by eapply lex_le_trans|by apply Hall].
Qed.

(** The points of the grid from [lo] to [max]. *)
Definition grid (lo max : Z) : list Z := (fun k => lo + 24 * k) <$> seqZ 0 ((max - lo) / 24 + 1).
Lemma grid_nil lo max : max < lo -> grid lo max = [].
Proof. intros H. unfold grid. rewrite seqZ_nil; [done|]. zdiv. Qed.
Lemma grid_cons lo max : lo <= max -> grid lo max = lo :: grid (lo + 24) max.
Proof.
  intros H. unfold grid. rewrite seqZ_cons by zdiv. cbn [fmap list_fmap]. f_equal; [lia|].
  replace ((max - (lo + 24)) / 24 + 1) with (Z.pred ((max - lo) / 24 + 1)) by zdiv. change (Z.succ 0) with (0 + 1). rewrite <-(fmap_add_seqZ 1 0), <-list_fmap_compose. apply list_fmap_ext. intros; cbn; lia.
Qed.
Lemma grid_in x lo max : x ∈ grid lo max <-> exists k, 0 <= k /\ x = lo + 24 * k /\ x <= max.
Proof.
  unfold grid. rewrite list_elem_of_fmap. split.
  - intros (k & -> & Hk%elem_of_seqZ). exists k. split_and!; [lia|done|zdiv].
  - intros (k & Hk & -> & Hle). exists k. split; [done|]. apply elem_of_seqZ. zdiv.
Qed.

Lemma advance_ok x max : 0 <= x <= max -> max < 2 ^ 32 - 24 -> grid (advance x max) max = grid (x + 24) max /\ 0 <= advance x max /\ (x + 24 <= max -> advance x max = x + 24) /\ (max < x + 24 -> max < advance x max).
Proof. intros Hx Hm. unfold advance. rewrite !u32_small by lia. destruct (Z.leb_spec (x + 24) max); [split_and!; [done|lia..]|]. split_and!; [by rewrite !grid_nil by lia|lia..]. Qed.

Lemma search_row_ok fuel x y maxX b : 0 <= x -> maxX < 2 ^ 32 - 24 -> (length (grid x maxX) < fuel)%nat ->
  search_row fuel ws d prefX prefY x y maxX b = Some (scan ((fun x => (x, y)) <$> grid x maxX) b).
Proof.
  revert x b. induction fuel as [|fuel IH]; intros x b Hx Hm Hf; [lia|]. cbn [search_row]. destruct (Z.leb_spec x maxX); [|by rewrite grid_nil by lia].
  rewrite grid_cons in * by lia. cbn [length fmap list_fmap scan fst snd] in *. destruct (try_at _ _ _ _ _ _ _); [done|]. destruct (advance_ok x maxX) as (E & ? & _); [lia..|]. rewrite IH, E; [done..|rewrite E; lia].
Qed.

(** Row by row. *)
Definition points (ax ay maxX maxY : Z) : list (Z * Z) := y ← grid ay maxY; (fun x => (x, y)) <$> grid ax maxX.
Lemma search_ok fuel fx ax y maxX maxY b : 0 <= ax -> 0 <= y -> maxX < 2 ^ 32 - 24 -> maxY < 2 ^ 32 - 24 -> (length (grid y maxY) < fuel)%nat -> (length (grid ax maxX) < fx)%nat ->
  search fuel fx ws d prefX prefY ax y maxX maxY b = Some (scan (points ax y maxX maxY) b).
Proof.
  revert y b. induction fuel as [|fuel IH]; intros y b Hx Hy HmX HmY Hf Hfx; [lia|]. cbn [search]. unfold points. destruct (Z.leb_spec y maxY); [|by rewrite (grid_nil y) by lia].
  rewrite (grid_cons y) in * by lia. cbn [length mbind list_bind] in *. rewrite scan_app, search_row_ok by done. destruct (scan _ b); [done|].
  destruct (advance_ok y maxY) as (E & ? & _); [lia..|]. rewrite IH; try done; [unfold points; by rewrite E|rewrite E; lia].
Qed.
Lemma grid_length lo max : lo <= max -> (length (grid lo max) < grid_fuel lo max)%nat.
Proof. intros. unfold grid, grid_fuel. rewrite length_fmap, length_seqZ. zdiv. Qed.
End Search.

(** The search ends, on the grid or the preferred point, with the least overlap
    and among those the least distance. *)
Lemma placeWindowMinOverlap_ok a ws d prefX prefY : area_ok a -> 0 <= w_w d -> 0 <= w_h d -> 0 < r_w a -> 0 < r_h a -> w_w d <= r_w a -> w_h d <= r_h a ->
  let maxX := r_x a + r_w a - w_w d in let maxY := r_y a + r_h a - w_h d in
  let px := clamp_coord prefX (r_x a) maxX in let py := clamp_coord prefY (r_y a) maxY in
  let cands := (px, py) :: points (r_x a) (r_y a) maxX maxY in
  exists p, placeWindowMinOverlap a ws d prefX prefY = Some (with_pos p.1 p.2 d) /\ p ∈ cands /\ forall q, q ∈ cands -> lex_le (cost ws d px py p) (cost ws d px py q).
Proof.
  intros (? & ? & ? & ? & ? & ?) ? ? ? ? Hw Hh. cbv zeta. unfold placeWindowMinOverlap. destruct (Z.eqb_spec (r_w a) 0), (Z.eqb_spec (r_h a) 0); try lia. cbn [orb].
  destruct (Z.ltb_spec (r_w a) (w_w d)), (Z.ltb_spec (r_h a) (w_h d)); try lia. cbn [orb]. rewrite !(u32_small (_ - _)) by lia.
  set (maxX := r_x a + r_w a - w_w d). set (maxY := r_y a + r_h a - w_h d). set (px := clamp_coord prefX _ _). set (py := clamp_coord prefY _ _).
  rewrite search_ok by (try apply grid_length; lia). set (l := points _ _ _ _). set (b0 := mk_best _ _ _ _). pose proof (scan_spec ws d px py l b0) as Hs.
  assert (Hz : forall p q, cost ws d px py p = (0, 0) -> lex_le (cost ws d px py p) (cost ws d px py q)).
  { intros p q ->. pose proof (cost_nonneg ws d px py q). unfold lex_le, lex_lt. cbn [fst snd]. lia. }
  destruct (scan _ _ _ _ l b0) as [[x y]|b].
  { destruct Hs as [Hin E]. exists (x, y). split; [done|]. split; [by right|]. intros q _. by apply Hz. }
  destruct Hs as (Hb & Hle & Hall). assert (Ep : cost ws d px py (px, py) = (totalOverlapAreaForCandidate ws (with_pos px py d), 0)).
  { unfold cost, absDiffU32. cbn [fst snd]. rewrite !Z.ltb_irrefl, !Z.sub_diag. done. }
  pose proof (cost_nonneg ws d px py (px, py)) as Hn. rewrite Ep in Hn. destruct (_ || _) eqn:Ec.
  - exists (px, py). split; [done|]. split; [left|]. intros q [->|Hq]%elem_of_cons; [unfold lex_le, lex_lt; lia|]. eapply lex_le_trans; [|by apply Hall]. rewrite Ep. unfold lex_le, lex_lt, best_cost. cbn. lia.
  - destruct Hb as [->|(p & Hp & ->)]; [exfalso; cbn in Ec; revert Ec; pose proof (overlap_range ws (with_pos px py d)); lia|]. exists p. split; [done|]. split; [by right|]. unfold best_cost, best_at in Hall, Ec. cbn in Hall, Ec.
    intros q [->|Hq]%elem_of_cons; [|by apply (Hall q Hq)]. rewrite Ep. unfold lex_le, lex_lt. cbn. lia.
Qed.

(** ** Creating windows *)

Lemma half_gap_range n m k : 0 <= m -> 0 <= n < 2 ^ 32 -> 1 <= k -> 0 <= half_gap n m k < 2 ^ 32.
Proof. intros. unfold half_gap. case_zb; [|lia]. pose proof (Z.div_le_upper_bound (n - m) k (n - m)). pose proof (Z.div_pos (n - m) k). nia. Qed.

Lemma with_pos_ok x y d : desc_ok d -> word x -> word y -> desc_ok (with_pos x y d).
Proof. intros (? & ? & ? & ? & ?) ? ?. by split_and!. Qed.

Lemma place_desc_ok a ws d px py : area_ok a -> 0 < r_w a -> 0 < r_h a -> desc_ok d -> exists d', placeWindowMinOverlap a ws d px py = Some d' /\ desc_ok d'.
Proof.
  intros Ha Hw Hh Hd. destruct (decide (w_w d <= r_w a /\ w_h d <= r_h a)) as [[Hdw Hdh]|Hbig].
  - destruct (placeWindowMinOverlap_ok a ws d px py Ha) as (p & -> & Hin & _); try done; [apply Hd..|]. destruct Ha as (? & ? & ? & ? & ? & ?). pose proof Hd as (? & ? & Hdw' & Hdh' & ?). unfold word in *.
    eexists. split; [done|]. apply with_pos_ok; [done|..]; (apply elem_of_cons in Hin as [->|Hin]; cbn [fst snd]; [unfold clamp_coord, word; repeat case_match; lia|]);
      unfold points in Hin; apply list_elem_of_bind in Hin as (y & Hin & Hy); apply list_elem_of_fmap in Hin as (x & -> & Hx); cbn [fst snd]; apply grid_in in Hx as (? & ? & ? & ?), Hy as (? & ? & ? & ?); unfold word; lia.
  - exists d. split; [|done]. unfold placeWindowMinOverlap. destruct (_ || _); [done|]. destruct (Z.ltb_spec (r_w a) (w_w d)), (Z.ltb_spec (r_h a) (w_h d)); done || lia.
Qed.

Lemma set_counter_wf c s : ui_wf s -> ui_wf (set_counter c s).
Proof. intros Hs. eapply same_core_wf; [done|by split|apply (wf_focus _ Hs)|apply (wf_ring _ Hs)]. Qed.

Lemma autoPlaceWindow_ok d r parent s : ui_wf s -> desc_ok d ->
  exists d' c, autoPlaceWindow d r parent s = Some (d', set_counter c s) /\ desc_ok d'.
Proof.
  intros Hs Hd. pose proof (wf_area _ Hs) as Ha. unfold autoPlaceWindow. rewrite gets_step. set (a := effectiveWorkArea s) in *.
  destruct (_ || _) eqn:E0. { exists d, (g_auto_place_counter s). split; [by destruct s|done]. }
  apply orb_false_iff in E0 as [E1%Z.eqb_neq E2%Z.eqb_neq]. rewrite !gets_step. pose proof Ha as (? & ? & ? & ? & ? & ?).
  match goal with |- context [bind ?m _ s] => assert (Hm : exists d', m s = Some (d', s) /\ desc_ok d') end.
  { assert (Hw : forall z, word (u32 z)) by apply u32_range. assert (word (r_x a) /\ word (r_y a) /\ word (r_w a) /\ word (r_h a)) as (? & ? & ? & ?) by (unfold word; lia).
    destruct r; unfold ret.
    - match goal with |- context [placeWindowMinOverlap a ?l ?e ?x ?y] => destruct (place_desc_ok a l e x y) as (d' & -> & Hd') end; [done|lia|lia|apply with_pos_ok; [done|case_match; apply Hw..]|eauto].
    - assert (Hp : (if parent =? 0 then ret (-1) else findIndexById parent) s = Some (if parent =? 0 then -1 else index_of s parent, s)) by (destruct (parent =? 0); [done|by apply findIndexById_ok]).
      rewrite (bind_step _ _ _ _ _ Hp). destruct (Z.leb_spec 0 (if parent =? 0 then -1 else index_of s parent)) as [Hi|]; [|eexists; split; [reflexivity|by apply with_pos_ok]].
      destruct (parent =? 0); [lia|]. destruct (index_of_spec s parent Hs) as [[? _]|(w & _ & _ & Ew & _)]; [lia|]. rewrite (bind_step _ _ _ _ _ Ew). eexists. split; [reflexivity|by apply with_pos_ok].
    - eexists. split; [reflexivity|]. apply with_pos_ok; [done|case_match; done..].
    - eexists. split; [reflexivity|]. destruct Hd as (? & ? & ? & ? & ?). unfold desc_ok. cbn. split_and!; try done. by case_match. }
  destruct Hm as (d' & Em & Hd'). rewrite (bind_step _ _ _ _ _ Em), modify_step. eexists _, _. split; [reflexivity|]. by apply clamp_ok.
Qed.

(** The state with one more window, in front of all. *)
Definition extended (s : ui) (w : UIWindow) : ui :=
  set_zorder (<[Z.to_nat (g_count s) := g_count s]> (g_zorder s)) (set_windows (<[Z.to_nat (g_count s) := w]> (g_windows s)) (set_next (g_nextId s + 1) (set_count (g_count s + 1) s))).

Lemma take_insert_end {A} (n : nat) (x : A) l : (n < length l)%nat -> take (S n) (<[n := x]> l) = take n l ++ [x].
Proof. intros Hn. rewrite (take_S_r _ _ x) by (by apply list_lookup_insert_eq). by rewrite take_insert_ge by lia. Qed.

Section Creating.
Context (s : ui) (Hs : ui_wf s) (Hroom : g_count s < 16) (w : UIWindow).
Local Lemma count_succ : Z.to_nat (g_count s + 1) = S (Z.to_nat (g_count s)).
Proof. pose proof (wf_count _ Hs). lia. Qed.
Lemma extended_live : live (extended s w) = live s ++ [w].
Proof. unfold live, extended. cbn. rewrite count_succ. apply take_insert_end. rewrite (wf_len _ Hs). pose proof (wf_count _ Hs). lia. Qed.
Lemma extended_order : order (extended s w) = order s ++ [g_count s].
Proof. unfold order, extended. cbn. rewrite count_succ. apply take_insert_end. rewrite (wf_zlen _ Hs). pose proof (wf_count _ Hs). lia. Qed.

Lemma extended_wf : id w = g_nextId s -> parentId w = 0 \/ parentId w ∈ ids s -> window_ok w -> g_nextId s + 1 < 2 ^ 32 -> ui_wf (extended s w).
Proof.
  intros Hid Hpar Hok Hnext. pose proof extended_live as El. pose proof extended_order as Eo. assert (Ei : ids (extended s w) = ids s ++ [g_nextId s]) by (unfold ids; rewrite El, fmap_app, <-Hid; done).
  assert (Hfresh : forall j, j ∈ ids s -> 0 < j < g_nextId s) by (intros j (v & -> & Hv)%list_elem_of_fmap; by apply (wf_range _ Hs)).
  assert (Hin : forall v, v ∈ live (extended s w) -> v ∈ live s \/ v = w) by (intros v; rewrite El, elem_of_app, list_elem_of_singleton; done).
  destruct Hs as [H1 H2 H3 H4 H5 H6 H7 H8 H9 H10 H11 H12]. split; rewrite ?Ei; try done.
  - cbn. by rewrite length_insert.
  - cbn. by rewrite length_insert.
  - cbn. lia.
  - change (order (extended s w) ≡ₚ seqZ 0 (g_count s + 1)). rewrite Eo. rewrite seqZ_app by lia. by rewrite <-H4, Z.add_0_l.
  - apply NoDup_app. split; [done|]. split; [|apply NoDup_singleton]. intros j Hj ->%list_elem_of_singleton. specialize (Hfresh _ Hj). lia.
  - cbn. intros v [Hv| ->]%Hin; [specialize (H6 _ Hv); lia|lia].
  - cbn. lia.
  - intros v [Hv| ->]%Hin.
    + destruct (H8 _ Hv) as [|[]]; [by left|right; split; [done|apply elem_of_app; by left]].
    + destruct Hpar as [|Hp]; [by left|right]. split; [rewrite Hid; by apply Hfresh|apply elem_of_app; by left].
  - cbn. destruct H9; [by left|right; apply elem_of_app; by left].
  - intros v [Hv| ->]%Hin; [by apply H11|done].
Qed.
End Creating.

(** The window a creation adds. *)
Definition created (s : ui) (d : WindowDesc) (r : WindowRole) (fl parent : Z) : UIWindow :=
  mk_window (g_nextId s) d Normal r (if decide (parent ∈ ids s) then parent else 0) fl (rect_of d) true 0.

Lemma parent_ok s parent : ui_wf s -> (if negb (parent =? 0) && (index_of s parent <? 0) then 0 else parent) = if decide (parent ∈ ids s) then parent else 0.
Proof.
  intros Hs. destruct (index_of_spec s parent Hs) as [[-> Hn]|(w & Hi & Hw & _ & <-)].
  - destruct (decide _); [done|]. by destruct (Z.eqb_spec parent 0).
  - rewrite decide_True by (apply list_elem_of_fmap_2, list_elem_of_lookup; eauto). destruct (Z.ltb_spec (index_of s (id w)) 0); [lia|]. by rewrite andb_false_r.
Qed.

(** A new window gets a fresh id, goes in front of all windows and keeps a
    parent that exists; without room nothing changes. *)
Lemma CreateWindowEx_ok x y w h bg title r fl parent s : ui_wf s -> word x -> word y -> word w -> word h -> word bg -> g_nextId s + 1 < 2 ^ 32 ->
  if 16 <=? g_count s then CreateWindowEx x y w h bg title r fl parent s = Some (0, s)
  else exists d s', CreateWindowEx x y w h bg title r fl parent s = Some (g_nextId s, s') /\ ui_wf s' /\ desc_ok d /\
    live s' = live s ++ [created s d r fl parent] /\ order s' = order s ++ [g_count s] /\
    (x <> kAutoCoord -> y <> kAutoCoord -> d = clampWindowToArea (effectiveWorkArea s) (mk_desc x y w h bg title)) /\ g_inter s' = g_inter s.
Proof.
  intros Hs Hx Hy Hw Hh Hbg Hnext. unfold CreateWindowEx. rewrite gets_step. destruct (Z.leb_spec 16 (g_count s)) as [|Hroom]; [done|].
  rewrite (bind_step _ _ _ _ _ (findIndexById_ok s parent Hs)). rewrite parent_ok by done. set (d0 := mk_desc x y w h bg title). assert (Hd0 : desc_ok d0) by (by split_and!).
  match goal with |- context [bind ?m _ s] => assert (Hm : exists d c, m s = Some (d, set_counter c s) /\ desc_ok d /\ (x <> kAutoCoord -> y <> kAutoCoord -> d = clampWindowToArea (effectiveWorkArea s) d0)) end.
  { destruct (Z.eqb_spec x kAutoCoord), (Z.eqb_spec y kAutoCoord); cbn [orb].
    1-3: destruct (autoPlaceWindow_ok d0 r (if decide (parent ∈ ids s) then parent else 0) s Hs Hd0) as (d & c & E & Hd); exists d, c; by split_and!.
    rewrite gets_step. eexists _, (g_auto_place_counter s). split; [by destruct s|]. split; [apply clamp_ok; [apply (wf_area _ Hs)|done]|done]. }
  destruct Hm as (d & c & Em & Hd & Hexp). rewrite (bind_step _ _ _ _ _ Em). clear Em. set (s1 := set_counter c s). pose proof (set_counter_wf c s Hs) as Hs1. fold s1 in Hs1. pose proof (wf_count _ Hs1) as Hc.
  set (v := created s d r fl parent). assert (Hv : ui_wf (extended s1 v)).
  { apply extended_wf; try done; [|by destruct Hd as (? & ? & ? & ? & ?); split; [by split_and!|by split_and!]]. unfold v, created. cbn. destruct (decide _); [by right|by left]. }
  change (g_count s) with (g_count s1) in *. rewrite modify_step, gets_step, modify_step. change (g_nextId (set_count _ s1)) with (g_nextId s). rewrite u32_small by (pose proof (wf_next _ Hs); lia).
  erewrite (bind_step (put_win _ _)) by (apply put_win_raw; cbn; rewrite (wf_len _ Hs); cbn in Hc, Hroom; lia). erewrite (bind_step (put_z _ _)) by (apply put_z_ok; cbn; rewrite (wf_zlen _ Hs); cbn in Hc, Hroom; lia).
  match goal with |- context [bind (moveWindowToLayerTop _) _ ?t] => change t with (extended s1 v) end.
  pose proof (extended_order s1 Hs1 Hroom v) as Eo. pose proof (moveWindowToLayerTop_ok (extended s1 v) (order s1) (g_count s1) [] [] Hv Eo ltac:(constructor) I) as Em. rewrite (bind_step _ _ _ _ _ Em).
  assert (Hp : order s1 ++ [] ++ [g_count s1] ≡ₚ order (extended s1 v)) by (by rewrite Eo). eexists d, _. split; [reflexivity|]. split_and!; try done.
  - by apply reordered_wf.
  - change (live (reordered _ _)) with (live (extended s1 v)). rewrite extended_live by done. done.
  - rewrite reordered_order by done. done.
Qed.

(** ** Removing a window *)

Definition renumber (i v : Z) : Z := if i <? v then v - 1 else v.
(** The windows back to front. *)
Definition zlist (s : ui) : list UIWindow := omap (fun i => live s !! Z.to_nat i) (order s).
Definition without (wid : Z) (l : list UIWindow) : list UIWindow := filter (fun w => id w <> wid) l.

Lemma renumber_loop i b : forall s a t, g_zorder s = a ++ b ++ t ->
  for_loop (length b) (Z.of_nat (length a)) (fun k => let! v := zat k in if i <? v then put_z k (v - 1) else ret tt) s = Some (tt, set_zorder (a ++ (renumber i <$> b) ++ t) s).
Proof.
  induction b as [|v b IH]; intros s a t E; cbn [length for_loop].
  - cbn in *. rewrite <-E. by destruct s.
  - assert (Hv : g_zorder s !! Z.to_nat (Z.of_nat (length a)) = Some v) by (rewrite E, Nat2Z.id; by apply list_lookup_middle). rewrite bind_assoc, (bind_step _ _ _ _ _ (zat_ok s (Z.of_nat (length a)) v ltac:(lia) Hv)).
    assert (Hp : (if i <? v then put_z (Z.of_nat (length a)) (v - 1) else ret tt) s = Some (tt, set_zorder ((a ++ [renumber i v]) ++ b ++ t) s)).
    { unfold renumber. destruct (Z.ltb_spec i v).
      - rewrite put_z_ok by (rewrite E, length_app; cbn; lia). rewrite E, Nat2Z.id, insert_app_r_alt by lia. rewrite Nat.sub_diag, <-app_assoc. done.
      - unfold ret. rewrite <-app_assoc. cbn in *. rewrite <-E. by destruct s. }
    rewrite (bind_step _ _ _ _ _ Hp). pose proof (IH (set_zorder ((a ++ [renumber i v]) ++ b ++ t) s) (a ++ [renumber i v]) t eq_refl) as H. rewrite length_app, Nat2Z.inj_add in H.
    change (Z.of_nat (length [renumber i v])) with 1 in H. rewrite H. do 2 f_equal. cbn [fmap list_fmap]. by rewrite <-!app_assoc.
Qed.

Lemma renumber_perm l1 l2 i n : 0 <= i < n -> l1 ++ i :: l2 ≡ₚ seqZ 0 n -> renumber i <$> l1 ++ l2 ≡ₚ seqZ 0 (n - 1).
Proof.
  intros Hi Hp. replace n with (i + (1 + (n - 1 - i))) in Hp by lia. rewrite !seqZ_app, Z.add_0_l in Hp by lia. change (seqZ i 1) with [i] in Hp. cbn [app] in Hp.
  rewrite <-!Permutation_middle in Hp. apply Permutation_cons_inv in Hp. rewrite Hp, fmap_app. replace (seqZ 0 (n - 1)) with (seqZ 0 (i + (n - 1 - i))) by (f_equal; lia).
  rewrite seqZ_app, Z.add_0_l by lia. match goal with |- ?a ≡ₚ ?b => enough (a = b) as -> by done end. f_equal.
  - rewrite <-(list_fmap_id (seqZ 0 i)) at 2. apply list_fmap_ext. intros k x Hx%list_elem_of_lookup_2%elem_of_seqZ. unfold renumber. case_zb; cbn; lia.
  - replace (seqZ i (n - 1 - i)) with (Z.add (-1) <$> seqZ (i + 1) (n - 1 - i)) by (rewrite fmap_add_seqZ; f_equal; lia).
    apply list_fmap_ext. intros k x Hx%list_elem_of_lookup_2%elem_of_seqZ. unfold renumber. case_zb; cbn; lia.
Qed.

Lemma filter_all {A} (P : A -> Prop) `{!forall x, Decision (P x)} (l : list A) : (forall x, x ∈ l -> P x) -> filter P l = l.
Proof.
  induction l as [|x l IH]; intros HP; [done|]. rewrite filter_cons_True by (apply HP; left). f_equal. apply IH. intros y Hy. apply HP. by right.
Qed.
Lemma without_ids wid l : id <$> without wid l = filter (fun j => j <> wid) (id <$> l).
Proof. unfold without. induction l as [|v l IH]; [done|]. rewrite fmap_cons, !filter_cons. repeat case_decide; cbn; try done. by rewrite IH. Qed.

Section Removing.
Context (s : ui) (Hs : ui_wf s) (i : nat) (w : UIWindow) (Hi : live s !! i = Some w).

Lemma live_around : live s = take i (live s) ++ w :: drop (S i) (live s).
Proof. by rewrite take_drop_middle. Qed.
Lemma without_split : without (id w) (live s) = take i (live s) ++ drop (S i) (live s).
Proof.
  pose proof (wf_ids _ Hs) as Hn. unfold ids in Hn. rewrite live_around in Hn. unfold without. rewrite live_around at 1.
  rewrite fmap_app, fmap_cons in Hn. apply NoDup_app in Hn as (_ & Hd & Hn). apply NoDup_cons in Hn as [Hn _].
  rewrite filter_app, filter_cons_False by (intros H; by apply H). f_equal; apply filter_all; intros v Hv E.
  - apply (Hd (id v)); [by apply list_elem_of_fmap_2|]. rewrite E. left.
  - apply Hn. rewrite <-E. by apply list_elem_of_fmap_2.
Qed.

(** The arrays after the removal. *)
Definition removed (l1 l2 : list Z) (ws : list UIWindow) (zs : list Z) : ui :=
  let s1 := set_count (g_count s - 1) (set_windows (without (id w) (live s) ++ ws) (set_zorder ((renumber (Z.of_nat i) <$> l1 ++ l2) ++ zs) s)) in
  if g_focused_window s =? id w then set_focus 0 s1 else s1.

Lemma remove_run l1 l2 : order s = l1 ++ Z.of_nat i :: l2 -> exists ws zs, length ws = (17 - Z.to_nat (g_count s))%nat /\ length zs = (17 - Z.to_nat (g_count s))%nat /\
  remove_window (Z.of_nat i) (id w) s = pushEvent WindowClosed (id w) 0 0 (removed l1 l2 ws zs).
Proof.
  intros Eo. pose proof (wf_count _ Hs) as Hc. pose proof (lookup_lt_Some _ _ _ Hi) as Hlt. rewrite live_length in Hlt by done. pose proof (order_length s Hs) as Hl. rewrite Eo, length_app in Hl. cbn [length] in Hl.
  unfold remove_window. rewrite (bind_step _ _ _ _ _ (z_position_ok s l1 _ l2 Hs Eo)), gets_step. destruct (Z.leb_spec 0 (Z.of_nat (length l1))); [|lia].
  pose proof (zorder_split s) as Ez. rewrite Eo, <-app_assoc in Ez. cbn [app] in Ez. pose proof (windows_split s) as Ew. rewrite live_around, <-app_assoc in Ew. cbn [app] in Ew.
  set (t := drop (Z.to_nat (g_count s)) (g_zorder s)) in *. set (t' := drop (Z.to_nat (g_count s)) (g_windows s)) in *.
  destruct (shift_ok g_zorder set_zorder zat put_z zat_ok put_z_ok ltac:(done) ltac:(done) ltac:(by intros []) l2 s l1 _ t Ez) as [y Hy].
  replace (Z.to_nat (g_count s - 1 - Z.of_nat (length l1))) with (length l2) by lia. rewrite (bind_step _ _ _ _ _ Hy). set (s1 := set_zorder _ s).
  destruct (shift_ok g_windows set_windows win put_win win_ok put_win_raw ltac:(done) ltac:(done) ltac:(by intros []) (drop (S i) (live s)) s1 (take i (live s)) w t' Ew) as [y' Hy'].
  rewrite length_take, length_drop, live_length, Nat.min_l in Hy' by (done || lia). replace (Z.to_nat (g_count s - 1 - Z.of_nat i)) with (Z.to_nat (g_count s) - S i)%nat by lia.
  rewrite (bind_step _ _ _ _ _ Hy'), modify_step, app_assoc, <-without_split, u32_small by lia. clear Hy Hy'.
  match goal with |- context [bind _ _ ?s2] => pose proof (renumber_loop (Z.of_nat i) (l1 ++ l2) s2 [] (y :: t)) as Hr end. cbn [app length Z.of_nat] in Hr. rewrite <-app_assoc in Hr. specialize (Hr eq_refl).
  rewrite length_app in Hr. replace (length l1 + length l2)%nat with (Z.to_nat (g_count s - 1)) in Hr by lia. rewrite (bind_step _ _ _ _ _ Hr), gets_step. clear Hr.
  exists (y' :: t'), (y :: t). split_and!.
  - subst t'. cbn. rewrite length_drop, (wf_len _ Hs). lia.
  - subst t. cbn. rewrite length_drop, (wf_zlen _ Hs). lia.
  - unfold removed. cbn [g_focused_window set_zorder set_count set_windows]. change (g_focused_window s1) with (g_focused_window s). by destruct (g_focused_window s =? id w).
Qed.

Context (l1 l2 : list Z) (Eo : order s = l1 ++ Z.of_nat i :: l2) (ws : list UIWindow) (zs : list Z).
Context (Hws : length ws = (17 - Z.to_nat (g_count s))%nat) (Hzs : length zs = (17 - Z.to_nat (g_count s))%nat).
Let s' := removed l1 l2 ws zs.

Local Lemma removed_fields : g_count s' = g_count s - 1 /\ g_windows s' = without (id w) (live s) ++ ws /\ g_zorder s' = (renumber (Z.of_nat i) <$> l1 ++ l2) ++ zs /\
  g_nextId s' = g_nextId s /\ g_ring s' = g_ring s /\ effectiveWorkArea s' = effectiveWorkArea s /\ g_focused_window s' = (if g_focused_window s =? id w then 0 else g_focused_window s) /\ g_inter s' = g_inter s.
Proof. subst s'. unfold removed. by destruct (g_focused_window s =? id w). Qed.
Local Lemma without_length : S (length (without (id w) (live s))) = Z.to_nat (g_count s).
Proof. pose proof (lookup_lt_Some _ _ _ Hi). rewrite without_split, <-(live_length s Hs) at 1. rewrite length_app, length_take, length_drop. lia. Qed.
Local Lemma rest_length : S (length (l1 ++ l2)) = Z.to_nat (g_count s).
Proof. rewrite <-(order_length s Hs), Eo, !length_app. cbn. lia. Qed.
Lemma removed_live : live s' = without (id w) (live s).
Proof. destruct removed_fields as (Ec & Ew & _). unfold live at 1. rewrite Ec, Ew. apply take_app_length'. pose proof without_length. lia. Qed.
Lemma removed_order : order s' = renumber (Z.of_nat i) <$> l1 ++ l2.
Proof. destruct removed_fields as (Ec & _ & Ez & _). unfold order. rewrite Ec, Ez. apply take_app_length'. rewrite length_fmap. pose proof rest_length. lia. Qed.
Lemma removed_ids : ids s' = filter (fun j => j <> id w) (ids s).
Proof. unfold ids. rewrite removed_live. apply without_ids. Qed.

Lemma removed_wf : (forall v, v ∈ live s -> parentId v <> id w) -> ui_wf s'.
Proof.
  intros Hpar. pose proof removed_live as El. pose proof removed_ids as Ei. pose proof removed_order as Eo'. destruct removed_fields as (Ec & Ew & Ez & En & Er & Ea & Ef & _).
  pose proof without_length as Hwl. pose proof rest_length as Hrl. pose proof (wf_count _ Hs) as Hc. pose proof (lookup_lt_Some _ _ _ Hi) as Hlt. rewrite live_length in Hlt by done. assert (Hsub : forall v, v ∈ live s' -> v ∈ live s) by (rewrite El; unfold without; intros v [_ Hv]%list_elem_of_filter; done).
  assert (Hz : 0 < id w) by (apply (wf_range _ Hs), list_elem_of_lookup; eauto). pose proof (wf_perm _ Hs) as Hp. change (order s ≡ₚ seqZ 0 (g_count s)) in Hp. destruct Hs as [H1 H2 H3 H4 H5 H6 H7 H8 H9 H10 H11 H12].
  split; rewrite ?Ec, ?En, ?Er, ?Ea; try done.
  - rewrite Ew, length_app. lia.
  - rewrite Ez, length_app, length_fmap. lia.
  - lia.
  - rewrite <-Ec. change (order s' ≡ₚ seqZ 0 (g_count s')). rewrite Eo', Ec. apply renumber_perm; [lia|by rewrite <-Eo].
  - rewrite Ei. by apply NoDup_filter.
  - intros v Hv. by apply H6, Hsub.
  - intros v Hv. destruct (H8 v (Hsub v Hv)) as [|[Hlt2 Hin]]; [by left|right]. split; [done|]. rewrite Ei. apply list_elem_of_filter. split; [by apply Hpar, Hsub|done].
  - rewrite Ef, Ei. destruct (Z.eqb_spec (g_focused_window s) (id w)); [by left|]. destruct H9; [by left|right; by apply list_elem_of_filter].
  - intros v Hv. by apply H11, Hsub.
Qed.

Lemma removed_zlist : zlist s' = without (id w) (zlist s).
Proof.
  unfold zlist. rewrite removed_live, removed_order, Eo. pose proof (order_nodup s Hs) as Hn. rewrite Eo in Hn. assert (Hin : forall v, v ∈ l1 ++ l2 -> 0 <= v < g_count s /\ v <> Z.of_nat i).
  { intros v Hv. rewrite <-Permutation_middle in Hn. apply NoDup_cons in Hn as [Hn _]. split; [apply (order_in s v Hs); rewrite Eo; set_solver|]. intros ->. done. }
  assert (Hget : forall v, v ∈ l1 ++ l2 -> exists u, live s !! Z.to_nat v = Some u /\ id u <> id w /\ without (id w) (live s) !! Z.to_nat (renumber (Z.of_nat i) v) = Some u).
  { intros v Hv. destruct (Hin v Hv) as [Hr Hne]. destruct (live_lookup s v Hs Hr) as (u & Hu & _). exists u. split; [done|]. split.
    - intros E. apply Hne. pose proof (index_of_in s u _ Hs Hu) as E1. pose proof (index_of_in s w _ Hs Hi) as E2. rewrite E in E1. lia.
    - pose proof (lookup_lt_Some _ _ _ Hi). rewrite without_split. unfold renumber. destruct (Z.ltb_spec (Z.of_nat i) v).
      + rewrite lookup_app_r, lookup_drop, <-Hu; rewrite length_take; [f_equal|]; lia.
      + rewrite lookup_app_l, lookup_take_lt; [done|lia|rewrite length_take; lia]. }
  unfold without at 2. rewrite !omap_app. cbn [omap list_omap]. rewrite Nat2Z.id, Hi, filter_app, filter_cons_False by (intros H; by apply H). rewrite fmap_app, omap_app.
  assert (Hl : forall l : list Z, (forall v, v ∈ l -> v ∈ l1 ++ l2) -> omap (fun j => without (id w) (live s) !! Z.to_nat j) (renumber (Z.of_nat i) <$> l) = filter (fun u => id u <> id w) (omap (fun j => live s !! Z.to_nat j) l)).
  { induction l as [|v l IH]; intros Hl; [done|]. cbn [fmap list_fmap omap list_omap]. destruct (Hget v (Hl v ltac:(left))) as (u & -> & Hne & ->). rewrite filter_cons_True by done. f_equal. apply IH. intros; apply Hl; by right. }
  f_equal; apply Hl; set_solver.
Qed.
End Removing.

(** ** Closing windows *)

(** [s'] has some of the windows of [s], in the same order. *)
Record shrunk (s s' : ui) : Prop := {
  sh_wf : ui_wf s';
  sh_live : live s' `sublist_of` live s;
  sh_zlist : zlist s' `sublist_of` zlist s;
  sh_focus : g_focused_window s' = if decide (g_focused_window s ∈ ids s') then g_focused_window s else 0;
  sh_inter : g_inter s' = g_inter s;
  sh_next : g_nextId s' = g_nextId s;
}.

(** [wid] and the windows whose chain of parents leads to it. *)
Inductive below (ws : list UIWindow) (wid : Z) : Z -> Prop :=
| below_self : below ws wid wid
| below_child w : w ∈ ws -> below ws wid (parentId w) -> below ws wid (id w).

Section Closing.
Implicit Types (s : ui).

Lemma shrunk_refl s : ui_wf s -> shrunk s s.
Proof.
  intros Hs. split; try done. destruct (decide _); [done|]. by destruct (wf_focus _ Hs).
Qed.
Lemma shrunk_in s s' w : shrunk s s' -> w ∈ live s' -> w ∈ live s.
Proof. intros Hsh Hw. eapply elem_of_sublist; [exact Hw|apply (sh_live _ _ Hsh)]. Qed.
Lemma shrunk_ids s s' j : shrunk s s' -> j ∈ ids s' -> j ∈ ids s.
Proof. intros Hsh (w & -> & Hw)%list_elem_of_fmap. apply list_elem_of_fmap_2. by eapply shrunk_in. Qed.
Lemma shrunk_trans s1 s2 s3 : shrunk s1 s2 -> shrunk s2 s3 -> shrunk s1 s3.
Proof.
  intros H1 H2. pose proof (shrunk_ids s2 s3) as Hi. split; [apply H2|etrans; [apply H2|apply H1]..| | |].
  - rewrite (sh_focus _ _ H2), (sh_focus _ _ H1). destruct (decide (g_focused_window s1 ∈ ids s2)) as [|Hn]; [done|].
    rewrite (decide_False (P := g_focused_window s1 ∈ ids s3)) by eauto. by destruct (decide _).
  - etrans; [apply H2|apply H1].
  - etrans; [apply H2|apply H1].
Qed.
Lemma ids_inj s v w : ui_wf s -> v ∈ live s -> w ∈ live s -> id v = id w -> v = w.
Proof.
  intros Hs (i & Hi)%list_elem_of_lookup (j & Hj)%list_elem_of_lookup E. pose proof (index_of_in s v i Hs Hi) as E1. pose proof (index_of_in s w j Hs Hj) as E2. rewrite E in E1. assert (i = j) as -> by lia. congruence.
Qed.
Lemma ids_pos s j : ui_wf s -> j ∈ ids s -> 0 < j.
Proof. intros Hs (w & -> & Hw)%list_elem_of_fmap. by apply (wf_range _ Hs). Qed.

Lemma remove_ok s i w : ui_wf s -> live s !! i = Some w -> (forall v, v ∈ live s -> parentId v <> id w) ->
  exists s', remove_window (Z.of_nat i) (id w) s = Some (tt, s') /\ shrunk s s' /\ live s' = without (id w) (live s) /\ zlist s' = without (id w) (zlist s).
Proof.
  intros Hs Hi Hpar. assert (Hin : Z.of_nat i ∈ order s) by (apply (order_in s _ Hs); pose proof (lookup_lt_Some _ _ _ Hi) as Hl; rewrite live_length in Hl by done; lia).
  apply list_elem_of_split in Hin as (l1 & l2 & Eo). destruct (remove_run s Hs i w Hi l1 l2 Eo) as (ws & zs & Hws & Hzs & E). rewrite E. set (s1 := removed _ _ _ _ _ _ _) in *.
  assert (H1 : ui_wf s1) by (by apply removed_wf). destruct (pushEvent_wf WindowClosed (id w) 0 0 s1 H1) as (s' & -> & Hwf & Hc & Hf & Hin). exists s'. split; [done|].
  assert (El : live s' = without (id w) (live s)) by (rewrite (same_core_live _ _ Hc); by apply removed_live).
  assert (Ez : zlist s' = without (id w) (zlist s)). { rewrite <-(removed_zlist s Hs i w Hi l1 l2 Eo ws zs) by done. unfold zlist, order. rewrite (same_core_live _ _ Hc), (sc_zorder _ _ Hc), (sc_count _ _ Hc); done. }
  split; [|done]. pose proof (removed_fields s i w l1 l2 ws zs) as (_ & _ & _ & En & _ & _ & Efo & Ein). fold s1 in En, Efo, Ein. assert (Ei : ids s' = filter (fun j => j <> id w) (ids s)) by (unfold ids; rewrite El; apply without_ids).
  split; [done|rewrite El; apply sublist_filter|rewrite Ez; apply sublist_filter| |congruence|by rewrite (sc_next _ _ Hc)].
  rewrite Hf, Efo, Ei. destruct (Z.eqb_spec (g_focused_window s) (id w)) as [E1|Hne]; [rewrite decide_False; [done|]; intros [H _]%list_elem_of_filter; done|].
  destruct (wf_focus _ Hs) as [->|Hfo]; [by destruct (decide _)|]. rewrite decide_True; [done|]. by apply list_elem_of_filter.
Qed.

Lemma below_ge s wid j : ui_wf s -> 0 < wid -> below (live s) wid j -> wid <= j.
Proof.
  intros Hs Hp. induction 1 as [|w Hw Hb IH]; [lia|]. destruct (wf_parent _ Hs w Hw) as [E|[E _]]; [rewrite E in IH; lia|lia].
Qed.
Lemma below_mono ws ws' wid j : (forall w, w ∈ ws' -> w ∈ ws) -> below ws' wid j -> below ws wid j.
Proof. intros Hsub. induction 1; [constructor|by apply below_child; [apply Hsub|]]. Qed.
Lemma below_trans ws a b c : below ws a b -> below ws b c -> below ws a c.
Proof. intros Hab. induction 1; [done|by apply below_child]. Qed.

(** Without a child left nothing below the window is left. *)
Lemma below_gone s s' wid j : ui_wf s -> ui_wf s' -> (forall w, w ∈ live s' -> w ∈ live s) -> 0 < wid -> (forall w, w ∈ live s' -> parentId w <> wid) ->
  below (live s) wid j -> j <> wid -> j ∉ ids s'.
Proof.
  intros Hs Hs' Hsub Hpos Hno. induction 1 as [|w Hw Hb IH]; [done|]. intros Hne (w' & E & Hw')%list_elem_of_fmap. assert (w' = w) as -> by (eapply (ids_inj s); eauto).
  destruct (wf_parent _ Hs' w Hw') as [E0|[_ Hp]].
  - pose proof (below_ge s wid _ Hs Hpos Hb). lia.
  - by apply (IH (Hno w Hw')).
Qed.
End Closing.

#[export] Instance WindowDesc_eq_dec : EqDecision WindowDesc.
Proof. solve_decision. Defined.
#[export] Instance Rect_eq_dec : EqDecision Rect.
Proof. solve_decision. Defined.
#[export] Instance WindowRole_eq_dec : EqDecision WindowRole.
Proof. solve_decision. Defined.
#[export] Instance UIWindow_eq_dec : EqDecision UIWindow.
Proof. solve_decision. Defined.

(** What closing [wid] leaves. *)
Definition closed (s : ui) (wid : Z) (s' : ui) : Prop :=
  shrunk s s' /\ forall w, w ∈ live s -> (w ∉ live s' <-> below (live s) wid (id w)).


Lemma sublist_length_lt {A} (l' l : list A) x : l' `sublist_of` l -> x ∈ l -> x ∉ l' -> (length l' < length l)%nat.
Proof.
  induction 1 as [|y l1 l2 Hsub IH|y l1 l2 Hsub _]; intros Hin Hn; [by apply not_elem_of_nil in Hin|..]; cbn.
  - apply not_elem_of_cons in Hn as [Hne Hn]. apply elem_of_cons in Hin as [|Hin]; [done|]. specialize (IH Hin Hn). lia.
  - apply sublist_length in Hsub. lia.
Qed.

Section CloseWindow.
Implicit Types (s : ui).

(** Windows newer than [wid]. *)
Definition newer (l : list UIWindow) (wid : Z) : nat := length (filter (fun w => wid < id w) l).
Lemma newer_sublist l l' wid : l' `sublist_of` l -> (newer l' wid <= newer l wid)%nat.
Proof. unfold newer. induction 1 as [|x l1 l2 _ IH|x l1 l2 _ IH]; [done|..]; rewrite ?filter_cons; case_decide; cbn; lia. Qed.
Lemma newer_child l w wid : w ∈ l -> wid < id w -> (newer l (id w) < newer l wid)%nat.
Proof.
  intros Hw Hlt. unfold newer. induction l as [|v l IH]; [by apply not_elem_of_nil in Hw|]. assert (Hle : (newer l (id w) <= newer l wid)%nat).
  { clear -Hlt. unfold newer. induction l as [|u l IH]; [done|]. rewrite !filter_cons. repeat case_decide; cbn; lia. }
  unfold newer in Hle. rewrite !filter_cons. apply elem_of_cons in Hw as [->|Hw]; [|specialize (IH Hw)]; repeat case_decide; cbn; lia.
Qed.

Lemma first_child_ok s wid : ui_wf s -> 
  (first_child wid s = Some (0, s) /\ forall w, w ∈ live s -> parentId w <> wid) \/ (exists w, first_child wid s = Some (id w, s) /\ w ∈ live s /\ parentId w = wid).
Proof.
  intros Hs. unfold first_child. rewrite gets_step. pose proof (wf_count _ Hs).
  set (p := fun i => match live s !! Z.to_nat i with Some w => parentId w =? wid | None => false end). erewrite (bind_step (first_index _ _ _)).
  2: { apply (first_index_ok _ _ _ p). intros i Hi. subst p. cbv beta. destruct (live_lookup s i Hs) as (w & Hw & E); [lia|]. rewrite (bind_step _ _ _ _ _ E), Hw. done. }
  destruct (find_from_spec (Z.to_nat (g_count s)) 0 p) as [[-> Hf]|(Hr & Ht & _)]; [lia| |].
  - left. split; [done|]. intros w (i & Hi)%list_elem_of_lookup. pose proof (lookup_lt_Some _ _ _ Hi) as Hl. rewrite live_length in Hl by done. specialize (Hf (Z.of_nat i) ltac:(lia)). subst p. cbv beta in Hf. rewrite Nat2Z.id, Hi in Hf. by apply Z.eqb_neq in Hf.
  - right. destruct (live_lookup s (find_from (Z.to_nat (g_count s)) 0 p) Hs) as (w & Hw & E); [lia|]. exists w. destruct (Z.ltb_spec (find_from (Z.to_nat (g_count s)) 0 p) 0); [lia|]. rewrite (bind_step _ _ _ _ _ E).
    split; [done|]. split; [apply list_elem_of_lookup; eauto|]. revert Ht. unfold p at 1. rewrite Hw. apply Z.eqb_eq.
Qed.

Section Children.
Context (s0 : ui) (wid : Z) (close : Z -> ST ui bool) (m : nat).
Context (Hm : (newer (live s0) wid <= m)%nat).
Context (IHclose : forall s c, ui_wf s -> c ∈ ids s -> (newer (live s) c < m)%nat -> exists s', close c s = Some (true, s') /\ closed s c s').

Lemma close_children_ok n : forall s, shrunk s0 s -> (forall w, w ∈ live s0 -> w ∉ live s -> below (live s0) wid (id w)) -> wid ∈ ids s -> (length (live s) < n)%nat ->
  exists s', close_children n close wid s = Some (true, s') /\ shrunk s0 s' /\ (forall w, w ∈ live s0 -> w ∉ live s' -> below (live s0) wid (id w)) /\ wid ∈ ids s' /\ (forall w, w ∈ live s' -> parentId w <> wid).
Proof.
  induction n as [|n IH]; intros s Hsh Hgone Hwid Hn; [lia|]. pose proof (sh_wf _ _ Hsh) as Hs. pose proof (ids_pos s wid Hs Hwid) as Hpos. cbn [close_children].
  destruct (first_child_ok s wid Hs) as [[E Hno]|(w & E & Hw & Hpar)]; rewrite (bind_step _ _ _ _ _ E). { exists s. by split_and!. }
  pose proof (wf_range _ Hs w Hw) as Hr. destruct (wf_parent _ Hs w Hw) as [?|[Hlt _]]; [lia|]. rewrite Hpar in Hlt. destruct (Z.eqb_spec (id w) 0); [lia|]. destruct (Z.eqb_spec (id w) wid); [lia|].
  destruct (IHclose s (id w) Hs) as (s1 & Ec & Hsh1 & Hin1). { by apply list_elem_of_fmap_2. } { pose proof (newer_child _ _ _ Hw Hlt). pose proof (newer_sublist _ _ wid (sh_live _ _ Hsh)). lia. }
  rewrite (bind_step _ _ _ _ _ Ec). pose proof (sh_wf _ _ Hsh1) as Hs1. rewrite (bind_step _ _ _ _ _ (findIndexById_ok s1 wid Hs1)).
  assert (Hwid1 : wid ∈ ids s1). { apply list_elem_of_fmap in Hwid as (v & -> & Hv). apply list_elem_of_fmap_2. destruct (decide (v ∈ live s1)) as [|Hnv]; [done|]. apply (Hin1 v Hv) in Hnv. pose proof (below_ge s (id w) (id v) Hs ltac:(lia) Hnv). lia. }
  destruct (index_of_spec s1 wid Hs1) as [[_ ?]|(? & ? & _)]; [done|]. destruct (Z.ltb_spec (index_of s1 wid) 0); [lia|]. apply IH; [by eapply shrunk_trans| |done|].
  - intros v Hv Hnv. destruct (decide (v ∈ live s)) as [Hvs|]; [|by apply Hgone]. assert (Hb : below (live s) (id w) (id v)) by (by apply Hin1).
    apply (below_mono (live s0)) in Hb; [|intros u; by apply shrunk_in]. eapply below_trans; [|exact Hb]. apply below_child; [by eapply shrunk_in|]. rewrite Hpar. constructor.
  - pose proof (sublist_length_lt _ _ w (sh_live _ _ Hsh1) Hw (proj2 (Hin1 w Hw) ltac:(constructor))). lia.
Qed.
End Children.

Lemma CloseWindow_run fuel : forall s wid, ui_wf s -> wid ∈ ids s -> (newer (live s) wid < fuel)%nat -> exists s', CloseWindow fuel wid s = Some (true, s') /\ closed s wid s'.
Proof.
  induction fuel as [|fuel IH]; intros s wid Hs Hwid Hf; [lia|]. cbn [CloseWindow]. pose proof (ids_pos s wid Hs Hwid) as Hpos.
  match goal with |- context [on_window wid false ?k] => destruct (on_window_run s wid false k Hs) as [[Hn _]|(i & w & _ & _ & _ & ->)] end; [done|].
  destruct (close_children_ok s wid (CloseWindow fuel) fuel ltac:(lia) (fun s c => IH s c) 17 s) as (s1 & E & Hsh & Hgone & Hwid1 & Hno).
  { by apply shrunk_refl. } { done. } { done. } { rewrite live_length by done. pose proof (wf_count _ Hs). lia. }
  rewrite (bind_step _ _ _ _ _ E). cbn [negb]. pose proof (sh_wf _ _ Hsh) as Hs1. rewrite (bind_step _ _ _ _ _ (findIndexById_ok s1 wid Hs1)).
  destruct (index_of_spec s1 wid Hs1) as [[_ ?]|(v & Hr & Hv & _ & Hid)]; [done|]. rewrite <-(Z2Nat.id (index_of s1 wid)) by lia.
  destruct (remove_ok s1 _ v Hs1 Hv) as (s2 & Er & Hsh2 & El & _). { by rewrite Hid. } rewrite Hid in Er, El. rewrite (bind_step _ _ _ _ _ Er). exists s2. split; [done|].
  split; [by eapply shrunk_trans|]. intros u Hu. rewrite El. unfold without. rewrite list_elem_of_filter. split.
  - intros Hn. destruct (decide (u ∈ live s1)) as [Hu1|]; [|by apply Hgone]. assert (id u = wid) as -> by (destruct (decide (id u = wid)); [done|]; destruct Hn; done). constructor.
  - intros Hb [Hne Hu1]. apply (below_gone s s1 wid (id u)) in Hb; try done; [|intros ?; by apply shrunk_in]. destruct Hb. by apply list_elem_of_fmap_2.
Qed.
End CloseWindow.

(** ** Operations that leave the set of windows alone *)

Record steady (s s' : ui) : Prop := {
  st_wf : ui_wf s'; st_ids : ids s' = ids s; st_inter : g_inter s' = g_inter s; st_next : g_nextId s' = g_nextId s;
}.
(** From a well-formed state whose ids satisfy [P] the operation returns, and
    keeps the state well-formed. *)
Definition keeps {A} (P : list Z -> Prop) (m : ST ui A) : Prop := forall s, ui_wf s -> P (ids s) -> exists a s', m s = Some (a, s') /\ steady s s'.
(** The window [wid] is at index [i]. *)
Definition at_index (i : nat) (wid : Z) (l : list Z) : Prop := l !! i = Some wid.

Section Keeping.
Context (P : list Z -> Prop).

Lemma steady_core s s' : ui_wf s' -> same_core s s' -> g_inter s' = g_inter s -> steady s s'.
Proof. intros Hs Hc Hi. split; try done; [unfold ids; by rewrite (same_core_live _ _ Hc)|apply (sc_next _ _ Hc)]. Qed.
Lemma steady_trans s1 s2 s3 : steady s1 s2 -> steady s2 s3 -> steady s1 s3.
Proof. intros [] []. split; congruence. Qed.
Lemma steady_changed s i w0 w : ui_wf s -> live s !! i = Some w0 -> id w = id w0 -> parentId w = parentId w0 -> window_ok w -> steady s (changed s i w).
Proof. intros Hs Hi Eid Epar Hok. split; try done; [by eapply changed_wf|by eapply changed_ids]. Qed.

Lemma keeps_ret {A} (a : A) : keeps P (ret a).
Proof. intros s Hs _. exists a, s. by split. Qed.
Lemma keeps_bind {A B} (m : ST ui A) (f : A -> ST ui B) : keeps P m -> (forall a, keeps P (f a)) -> keeps P (bind m f).
Proof.
  intros Hm Hf s Hs HP. destruct (Hm s Hs HP) as (a & s1 & E & H1). destruct (Hf a s1) as (b & s2 & E2 & H2); [apply H1|by rewrite (st_ids _ _ H1)|].
  exists b, s2. rewrite (bind_step _ _ _ _ _ E). split; [done|]. by eapply steady_trans.
Qed.
Lemma keeps_gets {A} (g : ui -> A) : keeps P (gets g).
Proof. intros s Hs _. exists (g s), s. by split. Qed.
Lemma keeps_area {A} (f : Rect -> ST ui A) : (forall a, area_ok a -> keeps P (f a)) -> keeps P (bind (gets effectiveWorkArea) f).
Proof. intros Hf s Hs HP. rewrite gets_step. apply Hf; [apply (wf_area _ Hs)|done..]. Qed.
Lemma keeps_core f : (forall s, same_core s (f s) /\ g_inter (f s) = g_inter s /\ g_ring (f s) = g_ring s /\ (g_focused_window (f s) = 0 \/ g_focused_window (f s) = g_focused_window s \/ (P (ids s) -> g_focused_window (f s) ∈ ids s))) -> keeps P (modify f).
Proof.
  intros Hf s Hs HP. destruct (Hf s) as (Hc & Hi & Hr & Hfo). exists tt, (f s). split; [done|]. apply steady_core; [|done..]. eapply same_core_wf; [done..| |rewrite Hr; apply (wf_ring _ Hs)].
  destruct Hfo as [|[->|Hfo]]; [by left|apply (wf_focus _ Hs)|right; by apply Hfo].
Qed.
Lemma keeps_notify c n : keeps P (notify c n).
Proof. intros s Hs _. destruct (notify_wf c n s Hs) as (s' & E & Hs' & Hc & _ & Hi & _). exists tt, s'. split; [done|]. by apply steady_core. Qed.
Lemma keeps_push t wid x y : keeps P (pushEvent t wid x y).
Proof. intros s Hs _. destruct (pushEvent_wf t wid x y s Hs) as (s' & E & Hs' & Hc & _ & Hi). exists tt, s'. split; [done|]. by apply steady_core. Qed.
Lemma keeps_blur : keeps P (modify (set_focus 0)).
Proof. apply keeps_core. intros s. by split_and!; [|..|left]. Qed.
Lemma keeps_user b : keeps P (modify (set_user b)).
Proof. apply keeps_core. intros s. split_and!; [done..|right; by left]. Qed.
Lemma keeps_on_window {A} wid (dflt : A) k : (forall i, keeps (fun l => P l /\ at_index i wid l) (k (Z.of_nat i))) -> keeps P (on_window wid dflt k).
Proof.
  intros Hk s Hs HP. destruct (on_window_run s wid dflt k Hs) as [[_ ->]|(i & w & Hi & <- & _ & ->)]; [by apply keeps_ret|].
  apply Hk; [done|]. split; [done|]. unfold at_index, ids. by rewrite list_lookup_fmap, Hi.
Qed.
End Keeping.

Lemma keeps_weaken {A} (P Q : list Z -> Prop) (m : ST ui A) : (forall l, Q l -> P l) -> keeps P m -> keeps Q m.
Proof. intros HPQ Hm s Hs HQ. apply Hm; auto. Qed.

(** At the index of a window. *)
Section Indexed.
Context (P : list Z -> Prop) (i : nat) (wid : Z) (HP : forall l, P l -> at_index i wid l).

Lemma at_index_live s : P (ids s) -> exists w, live s !! i = Some w /\ id w = wid.
Proof. intros H%HP. unfold at_index, ids in H. rewrite list_lookup_fmap in H. destruct (live s !! i); [|done]. injection H as <-. eauto. Qed.
Lemma keeps_win : keeps P (win (Z.of_nat i)).
Proof. intros s Hs H. destruct (at_index_live s H) as (w & Hw & _). exists w, s. split; [by apply win_live|by split]. Qed.
Lemma keeps_upd f : (forall w, window_ok w -> id (f w) = id w /\ parentId (f w) = parentId w /\ window_ok (f w)) -> keeps P (upd_win (Z.of_nat i) f).
Proof.
  intros Hf s Hs H. destruct (at_index_live s H) as (w & Hw & _). exists tt, (changed s i (f w)). split; [by apply upd_win_ok|].
  destruct (Hf w) as (? & ? & ?); [apply (wf_windows _ Hs), list_elem_of_lookup; eauto|]. by eapply steady_changed.
Qed.
(** Read, then written. *)
Lemma keeps_rw {A} (m : UIWindow -> ST ui A) :
  (forall s w, ui_wf s -> live s !! i = Some w -> P (ids s) -> exists a s', m w s = Some (a, s') /\ steady s s') -> keeps P (let! w := win (Z.of_nat i) in m w).
Proof. intros Hm s Hs H. destruct (at_index_live s H) as (w & Hw & _). rewrite (bind_step _ _ _ _ _ (win_live s i w Hw)). by apply Hm. Qed.
Lemma keeps_focus : keeps P (modify (set_focus wid)).
Proof. apply keeps_core. intros s. split_and!; [done..|]. right. right. intros H%HP. apply list_elem_of_lookup. eauto. Qed.
End Indexed.

Create HintDb ui.
#[export] Hint Resolve keeps_ret keeps_gets keeps_notify keeps_push keeps_blur keeps_user clamp_ok : ui.

(** Walk through an operation. *)
Ltac keep :=
  repeat first
    [ progress cbv beta
    | solve [eauto with ui]
    | apply keeps_on_window; intros ?
    | apply keeps_area; intros ? ?
    | eapply keeps_win; intros ? [_ ?]; eassumption
    | eapply keeps_focus; intros ? [_ ?]; eassumption
    | eapply keeps_upd; [intros ? [_ ?]; eassumption|let Hd := fresh "Hd" in let Hr := fresh "Hr" in intros ? [Hd Hr]; split; [reflexivity|split; [reflexivity|]]]
    | apply keeps_bind; [|intros ?]
    | match goal with |- keeps _ (if ?b then _ else _) => destruct b end ].

Lemma keeps_SetWindowPos P wid nx ny : word nx -> word ny -> keeps P (SetWindowPos wid nx ny).
Proof. intros Hx Hy. unfold SetWindowPos. keep. split; [|done]. apply clamp_ok; [done|]. by apply with_pos_ok. Qed.
Lemma keeps_SetWindowSize P wid nw nh : word nw -> word nh -> keeps P (SetWindowSize wid nw nh).
Proof. intros Hw Hh. unfold SetWindowSize. keep. split; [|done]. apply clamp_ok; [done|]. destruct Hd as (? & ? & ? & ? & ?). by split_and!. Qed.
Lemma keeps_BringToFront P wid : keeps P (BringToFront wid).
Proof.
  unfold BringToFront. apply keeps_on_window. intros i. apply keeps_bind; [|intros _; keep].
  - intros s Hs [_ Hi]. destruct (raise_ok s (Z.of_nat i) Hs) as (l1 & l2 & l3 & _ & _ & _ & E & Hwf & _).
    { apply lookup_lt_Some in Hi. unfold ids in Hi. rewrite length_fmap, live_length in Hi by done. lia. }
    exists tt, (reordered s (l1 ++ l2 ++ Z.of_nat i :: l3)). split; [done|]. by split.
  - by split.
Qed.

Lemma keeps_MinimizeWindow P wid : keeps P (MinimizeWindow wid).
Proof. unfold MinimizeWindow. keep. by split. Qed.
Lemma keeps_RestoreWindow P wid : keeps P (RestoreWindow wid).
Proof. unfold RestoreWindow. keep. by split. Qed.
Lemma keeps_InvalidateWindow P wid : keeps P (InvalidateWindow wid).
Proof. unfold InvalidateWindow. keep. by split. Qed.
Lemma keeps_ConsumeWindowNeedsRedraw P wid : keeps P (ConsumeWindowNeedsRedraw wid).
Proof. unfold ConsumeWindowNeedsRedraw. keep. by split. Qed.
Lemma keeps_SetWindowComponent P wid c : keeps P (SetWindowComponent wid c).
Proof. unfold SetWindowComponent. keep. by split. Qed.
Lemma keeps_SetFocusedWindow P wid : keeps P (SetFocusedWindow wid).
Proof. unfold SetFocusedWindow. keep. Qed.
Lemma keeps_PollEvent P : keeps P PollEvent.
Proof.
  intros s Hs _. destruct (wf_ring _ Hs) as [l Hl]. pose proof (PollEvent_ok s l Hl) as H. destruct l as [|e l]; [exists None, s; by split|]. destruct H as (r & E & Hr). exists (Some e), (set_ring r s). split; [done|].
  apply steady_core; [|done..]. eapply same_core_wf; [done|apply set_ring_core|apply (wf_focus _ Hs)|eauto].
Qed.

Lemma area_rect_ok a : area_ok a -> rect_ok a.
Proof. intros (? & ? & ? & ? & ? & ?). unfold rect_ok, word. lia. Qed.
Lemma with_rect_ok r d : desc_ok d -> rect_ok r -> desc_ok (with_rect r d).
Proof. intros (? & ? & ? & ? & ?) (? & ? & ? & ?). by split_and!. Qed.
Lemma rect_of_ok d : desc_ok d -> rect_ok (rect_of d).
Proof. intros (? & ? & ? & ? & ?). by split_and!. Qed.

Lemma keeps_toggle_shown P i wid : keeps (fun l => P l /\ at_index i wid l) (toggle_shown (Z.of_nat i) wid).
Proof.
  unfold toggle_shown. apply (keeps_rw _ i wid); [by intros ? [_ ?]|]. intros s w Hs Hw HP. rewrite gets_step. pose proof (wf_area _ Hs) as Ha. destruct (wf_windows _ Hs w) as [Hd Hr]; [apply list_elem_of_lookup; eauto|].
  assert (Hput : forall w' t, id w' = id w -> parentId w' = parentId w -> window_ok w' -> exists a s', (put_win (Z.of_nat i) w';;; pushEvent t wid 0 0;;; ret true) s = Some (a, s') /\ steady s s').
  { intros w' t Eid Epar Hok. rewrite (bind_step _ _ _ _ _ (put_win_ok s i w w' Hs Hw)). pose proof (steady_changed s i w w' Hs Hw Eid Epar Hok) as Hst.
    destruct (keeps_bind _ _ _ (keeps_push (fun _ => True) t wid 0 0) (fun _ => keeps_ret (fun _ => True) true) (changed s i w') (st_wf _ _ Hst) I) as (b & s' & E & Hst2). exists b, s'. split; [done|by eapply steady_trans]. }
  destruct (state w); [apply Hput; try done|exists true, s; by split|apply Hput; try done].
  - split; [apply with_rect_ok; [done|by apply area_rect_ok]|by apply rect_of_ok].
  - split; [apply clamp_ok; [done|by apply with_rect_ok]|done].
Qed.
Lemma keeps_ToggleMaximize P wid : keeps P (ToggleMaximize wid).
Proof.
  unfold ToggleMaximize. apply keeps_on_window. intros i. apply (keeps_rw _ i wid); [by intros ? [_ ?]|]. intros s w Hs Hw HP. destruct (negb _); [by apply (keeps_ret (fun _ => True))|]. destruct (decide _).
  - assert (Hst : steady s (changed s i (with_state Normal w))) by (apply (steady_changed s i w); try done; apply (wf_windows _ Hs w), list_elem_of_lookup; eauto). rewrite (bind_step _ _ _ _ _ (put_win_ok s i w _ Hs Hw)).
    destruct (keeps_on_window (fun _ => True) wid false (fun i => toggle_shown i wid) (fun i => keeps_toggle_shown _ i wid) _ (st_wf _ _ Hst) I) as (b & s' & E & Hst2). exists b, s'. split; [done|by eapply steady_trans].
  - by apply (keeps_toggle_shown P).
Qed.

(** ** Hit testing *)

(** The point is on the window, which is shown. *)
Definition covers (x y : Z) (w : UIWindow) : bool := negb (bool_decide (state w = Minimized)) && inside x y (desc w).
Definition on_title (y : Z) (w : UIWindow) : bool :=
  negb (has_flag (flags w) WF_Frameless) && (u32 y <? u32 (w_y (desc w) + Z.min (w_h (desc w)) TitleBarHeight)).

Lemma zlist_lookup s k i : ui_wf s -> order s !! k = Some i -> exists w, zlist s !! k = Some w /\ live s !! Z.to_nat i = Some w.
Proof.
  intros Hs. unfold zlist. assert (Hin : forall j, j ∈ order s -> exists w, live s !! Z.to_nat j = Some w) by (intros j Hj%(order_in s j Hs); destruct (live_lookup s j Hs Hj) as (w & ? & _); eauto).
  revert k Hin. induction (order s) as [|j l IH]; intros k Hin Hk; [done|]. cbn [omap list_omap]. destruct (Hin j ltac:(left)) as [v Hv]. rewrite Hv. destruct k as [|k]; [injection Hk as ->; by exists v|].
  apply (IH k); [|done]. intros j' Hj'. apply Hin. by right.
Qed.
Lemma zlist_length s : ui_wf s -> length (zlist s) = Z.to_nat (g_count s).
Proof.
  intros Hs. rewrite <-(order_length s Hs). unfold zlist. assert (Hin : forall j, j ∈ order s -> exists w, live s !! Z.to_nat j = Some w) by (intros j Hj%(order_in s j Hs); destruct (live_lookup s j Hs Hj) as (w & ? & _); eauto).
  induction (order s) as [|j l IH]; [done|]. cbn [omap list_omap length]. destruct (Hin j ltac:(left)) as [v ->]. cbn. rewrite IH; [done|]. intros j' Hj'. apply Hin. by right.
Qed.

Lemma hit_loop_ok s x y n : ui_wf s -> (n <= Z.to_nat (g_count s))%nat ->
  match hit_loop n x y s with
  | Some (r, s') => s' = s /\ match r with
    | None => forall w, w ∈ take n (zlist s) -> covers x y w = false
    | Some (wid, t) => exists l1 w l2, take n (zlist s) = l1 ++ w :: l2 /\ id w = wid /\ t = on_title y w /\ covers x y w = true /\ forall v, v ∈ l2 -> covers x y v = false
    end
  | None => False
  end.
Proof.
  intros Hs. induction n as [|k IH]; intros Hn; [split; [done|]; intros w Hw; by apply not_elem_of_nil in Hw|]. cbn [hit_loop].
  destruct (lookup_lt_is_Some_2 (order s) k) as [i Hi]; [rewrite order_length by done; lia|]. destruct (zlist_lookup s k i Hs Hi) as (w & Hz & Hw). rewrite (bind_step _ _ _ _ _ (zat_order s k i Hi)).
  assert (Hr : 0 <= i < g_count s) by (apply (order_in s i Hs), list_elem_of_lookup; eauto). assert (Ew : win i s = Some (w, s)) by (rewrite <-(Z2Nat.id i) by lia; by apply win_live).
  rewrite (bind_step _ _ _ _ _ Ew), (take_S_r _ _ _ Hz). specialize (IH ltac:(lia)). assert (Hskip : covers x y w = false -> match hit_loop k x y s with
    | Some (r, s') => s' = s /\ match r with
      | None => forall v, v ∈ take k (zlist s) ++ [w] -> covers x y v = false
      | Some (wid, t) => exists l1 v l2, take k (zlist s) ++ [w] = l1 ++ v :: l2 /\ id v = wid /\ t = on_title y v /\ covers x y v = true /\ forall u, u ∈ l2 -> covers x y u = false
      end
    | None => False end).
  { intros Hc. destruct (hit_loop k x y s) as [[[[wid t]|] s']|]; [..|done]; destruct IH as [-> IH]; (split; [done|]).
    - destruct IH as (l1 & v & l2 & -> & ? & ? & ? & ?). exists l1, v, (l2 ++ [w]). split; [by rewrite <-app_assoc|]. split_and!; try done. intros u [Hu| ->%list_elem_of_singleton]%elem_of_app; auto.
    - intros v [Hv| ->%list_elem_of_singleton]%elem_of_app; auto. }
  unfold covers in Hskip at 1. destruct (decide (state w = Minimized)) as [Hm|Hm]; [apply Hskip; by rewrite bool_decide_eq_true_2|]. rewrite bool_decide_eq_false_2 in Hskip by done. cbn [negb andb] in Hskip.
  destruct (inside x y (desc w)) eqn:Ein; [|by apply Hskip]. cbn [ret]. unfold ret. split; [done|]. exists (take k (zlist s)), w, []. split_and!; [done..| | |by intros v Hv%not_elem_of_nil].
  - unfold on_title. destruct (has_flag (flags w) WF_Frameless); cbn; [done|]. f_equal. do 2 f_equal. destruct (Z.ltb_spec (w_h (desc w)) TitleBarHeight); lia.
  - unfold covers. by rewrite bool_decide_eq_false_2, Ein.
Qed.

(** ** The mouse *)

(** What is dragged or resized exists. *)
Definition inter_ok (s : ui) : Prop :=
  (g_dragging (g_inter s) = true -> g_dragWin (g_inter s) ∈ ids s) /\ (g_resizing (g_inter s) = true -> g_resizeWin (g_inter s) ∈ ids s).

Lemma HitTestDetailed_ok s x y : ui_wf s -> exists r, HitTestDetailed x y s = Some (r, s) /\ match r with Some (wid, _) => wid ∈ ids s | None => True end.
Proof.
  intros Hs. pose proof (hit_loop_ok s x y (Z.to_nat (g_count s)) Hs ltac:(lia)) as Hh. unfold HitTestDetailed, HitTest. rewrite bind_assoc, gets_step. destruct (hit_loop _ x y s) as [[r s']|] eqn:E; [|done].
  rewrite (bind_step _ _ _ _ _ E). destruct Hh as [-> Hh]. destruct r as [[wid t]|]; [|by exists None]. destruct (on_window_run s wid None (fun idx => let! w := win idx in ret (Some (wid, hit_region x y w t))) Hs) as [[_ ->]|(i & w & Hi & <- & Ew & ->)]; [by exists None|].
  rewrite (bind_step _ _ _ _ _ Ew). eexists. split; [reflexivity|]. apply list_elem_of_fmap_2, list_elem_of_lookup. eauto.
Qed.

Lemma keeps_desc_of wid : keeps (fun l => wid ∈ l) (desc_of wid).
Proof.
  intros s Hs Hin. unfold desc_of, GetWindowDesc. destruct (on_window_run s wid None (fun idx => let! w := win idx in ret (Some (desc w))) Hs) as [[? _]|(i & w & Hi & <- & Ew & E)]; [done|].
  rewrite (bind_step _ _ _ (Some (desc w)) s) by (rewrite E, (bind_step _ _ _ _ _ Ew); done). exists (desc w), s. by split.
Qed.

Lemma word_u32 z : word (u32 z).
Proof. apply u32_range. Qed.
#[local] Hint Resolve keeps_SetWindowPos keeps_SetWindowSize keeps_BringToFront keeps_MinimizeWindow keeps_RestoreWindow keeps_ToggleMaximize keeps_desc_of word_u32 : ui.

Lemma keeps_drag_step s mx my : ui_wf s -> g_dragWin (g_inter s) ∈ ids s -> exists s', drag_step mx my s = Some (tt, s') /\ steady s s'.
Proof.
  intros Hs Hin. unfold drag_step. rewrite gets_step. set (i := g_inter s) in *. match goal with |- context [bind (desc_of ?w) ?f s] => assert (Hk : keeps (fun l => w ∈ l) (bind (desc_of w) f)) end.
  { keep. }
  destruct (Hk s Hs Hin) as ([] & s' & E & Hst). eauto.
Qed.
Lemma keeps_apply_rect P wid nx ny nw nh : keeps P (apply_rect wid nx ny nw nh).
Proof. unfold apply_rect. keep. Qed.
Lemma keeps_apply_size P wid nw nh : keeps P (apply_size wid nw nh).
Proof. unfold apply_size. keep. Qed.
#[local] Hint Resolve keeps_apply_rect keeps_apply_size : ui.
Lemma keeps_resize_step s mx my : ui_wf s -> g_resizeWin (g_inter s) ∈ ids s -> exists s', resize_step mx my s = Some (tt, s') /\ steady s s'.
Proof.
  intros Hs Hin. unfold resize_step. rewrite gets_step. set (i := g_inter s) in *. match goal with |- context [bind (desc_of ?w) ?f s] => assert (Hk : keeps (fun l => w ∈ l) (bind (desc_of w) f)) end.
  { apply keeps_bind; [apply keeps_desc_of|intros d]. apply keeps_area. intros a Ha. destruct (near_edge mx _ _ _ _) as [lx lw], (near_edge my _ _ _ _) as [ty th]. destruct (g_resizeRegion i); auto with ui. }
  destruct (Hk s Hs Hin) as ([] & s' & E & Hst). eauto.
Qed.

Lemma steady_inter s s' : steady s s' -> inter_ok s -> inter_ok s'.
Proof. intros [_ Ei En _] H. unfold inter_ok. by rewrite Ei, En. Qed.
Lemma set_inter_wf i s : ui_wf s -> ui_wf (set_inter i s).
Proof. intros Hs. eapply same_core_wf; [done|by split|apply (wf_focus _ Hs)|apply (wf_ring _ Hs)]. Qed.

Lemma bind_seq3 {A} (m1 : ST ui unit) (m2 : ST ui bool) (m3 : ST ui unit) (k : ST ui A) s : (m1;;; m2;;; m3;;; k) s = ((m1;;; m2;;; m3);;; k) s.
Proof. unfold bind. destruct (m1 s) as [[? s1]|]; [|done]. destruct (m2 s1) as [[? s2]|]; done. Qed.
Lemma bind_let3 {A B C D} (m1 : ST ui A) (m2 : A -> ST ui B) (m3 : ST ui C) (k : C -> ST ui D) s :
  (let! a := m1 in m2 a;;; let! c := m3 in k c) s = (let! c := (let! a := m1 in m2 a;;; m3) in k c) s.
Proof. unfold bind. destruct (m1 s) as [[a s1]|]; [|done]. destruct (m2 a s1) as [[? s2]|]; done. Qed.

Lemma newer_fuel s wid : ui_wf s -> (newer (live s) wid < CLOSE_FUEL)%nat.
Proof.
  intros Hs. unfold newer, CLOSE_FUEL. pose proof (sublist_length _ _ (sublist_filter (fun w => wid < id w) (live s))) as Hl. rewrite (live_length s Hs) in Hl. pose proof (wf_count _ Hs). lia.
Qed.

Lemma begin_interaction_ok s mx my : ui_wf s -> g_dragging (g_inter s) = false -> g_resizing (g_inter s) = false ->
  exists s', begin_interaction mx my s = Some (tt, s') /\ ui_wf s' /\ inter_ok s' /\ g_nextId s' = g_nextId s.
Proof.
  intros Hs Hd Hr. unfold begin_interaction. destruct (HitTestDetailed_ok s mx my Hs) as (r & E & Hin). rewrite (bind_step _ _ _ _ _ E). assert (Hio : forall t, steady s t -> inter_ok t) by (intros t [_ _ Ei _]; unfold inter_ok; by rewrite Ei, Hd, Hr).
  destruct r as [[wid hr]|]; [|exists s; split_and!; try done; by apply Hio]. assert (Hk : keeps (fun l => wid ∈ l) (modify (set_user true);;; BringToFront wid;;; modify (set_user false))) by keep.
  destruct (Hk s Hs Hin) as ([] & s1 & E1 & Hst). rewrite bind_seq3, (bind_step _ _ _ _ _ E1).
  assert (Hin1 : wid ∈ ids s1) by (by rewrite (st_ids _ _ Hst)). pose proof (st_wf _ _ Hst) as Hs1. pose proof (Hio s1 Hst) as Hio1.
  assert (Hrun : forall A (m : ST ui A), keeps (fun l => wid ∈ l) m -> exists s', (m;;; ret tt) s1 = Some (tt, s') /\ ui_wf s' /\ inter_ok s' /\ g_nextId s' = g_nextId s).
  { intros A m Hm. destruct (Hm s1 Hs1 Hin1) as (a & s2 & E2 & Hst2). exists s2. rewrite (bind_step _ _ _ _ _ E2). split; [done|]. pose proof (steady_trans _ _ _ Hst Hst2). split_and!; [apply Hst2|by apply Hio|by apply st_next]. }
  assert (Hset : forall f t, steady s t -> inter_ok (set_inter (f (g_inter t)) t) -> exists s', upd_inter f t = Some (tt, s') /\ ui_wf s' /\ inter_ok s' /\ g_nextId s' = g_nextId s).
  { intros f t Ht Hf. exists (set_inter (f (g_inter t)) t). split_and!; [done|apply set_inter_wf, Ht|done|apply (st_next _ _ Ht)]. }
  destruct hr; try (apply Hset; [done|]; split; [intros Hx; cbn in Hx; rewrite (st_inter _ _ Hst), Hd in Hx; done|done]); try (exists s1; split_and!; try done; apply (st_next _ _ Hst)); try (apply Hrun; eauto with ui; fail).
  - assert (Hk2 : keeps (fun l => wid ∈ l) (let! st := GetWindowState wid in (if decide (st = Minimized) then RestoreWindow wid;;; ret tt else ret tt);;; desc_of wid)) by (unfold GetWindowState; keep).
    destruct (Hk2 s1 Hs1 Hin1) as (d & s2 & E2 & Hst2). rewrite bind_let3, (bind_step _ _ _ _ _ E2). pose proof (steady_trans _ _ _ Hst Hst2) as Ht. apply Hset; [done|].
    split; [intros _; cbn; change (wid ∈ ids s2); by rewrite (st_ids _ _ Hst2)|]. cbn. rewrite (st_inter _ _ Ht), Hr. done.
  - destruct (CloseWindow_run CLOSE_FUEL s1 wid Hs1 Hin1) as (s2 & E2 & Hsh & _); [by apply newer_fuel|]. rewrite (bind_step _ _ _ _ _ E2). exists s2. pose proof (sh_inter _ _ Hsh) as Ei. rewrite (st_inter _ _ Hst) in Ei.
    split_and!; [done|apply Hsh|unfold inter_ok; by rewrite Ei, Hd, Hr|]. etrans; [apply (sh_next _ _ Hsh)|apply (st_next _ _ Hst)].
Qed.

Lemma UpdateInteractions_ok s mx my mb : ui_wf s -> inter_ok s -> exists s', UpdateInteractions mx my mb s = Some (tt, s') /\ ui_wf s' /\ inter_ok s' /\ g_nextId s' = g_nextId s.
Proof.
  intros Hs [Hd Hr]. unfold UpdateInteractions. rewrite gets_step. set (left := negb (Z.land mb 1 =? 0)). assert (Hst : forall t, steady s t -> ui_wf t /\ inter_ok t /\ g_nextId t = g_nextId s).
  { intros t Ht. split_and!; [apply Ht|by eapply steady_inter|apply Ht]. }
  destruct (g_dragging (g_inter s)) eqn:Ed; [|destruct (g_resizing (g_inter s)) eqn:Er]; cbn [negb andb orb].
  - destruct left; cbn [negb andb]; [destruct (keeps_drag_step s mx my Hs (Hd eq_refl)) as (s' & -> & Ht); eauto|].
    rewrite andb_false_r. eexists. split; [reflexivity|]. split_and!; [by apply set_inter_wf|by split|done].
  - destruct left; cbn [negb andb]; [destruct (keeps_resize_step s mx my Hs (Hr eq_refl)) as (s' & -> & Ht); eauto|].
    eexists. split; [reflexivity|]. split_and!; [by apply set_inter_wf|by split|done].
  - destruct left; [by apply begin_interaction_ok|]. exists s. unfold inter_ok. rewrite Ed, Er. by split_and!.
Qed.

(** * The framework as a whole *)

(** After [Init] there is no window. *)
Lemma empty_wf s : length (g_windows s) = 16%nat -> length (g_zorder s) = 16%nat -> g_count s = 0 -> g_nextId s = 1 -> g_focused_window s = 0 -> (exists l, ring_is (g_ring s) l) -> area_ok (effectiveWorkArea s) -> ui_wf s.
Proof.
  intros H1 H2 H3 H4 H5 H6 H7. assert (El : live s = []) by (unfold live; by rewrite H3). split; unfold ids; rewrite ?El, ?H3, ?H4; try done; try lia; try (by left); try (by intros w Hw%not_elem_of_nil).
Qed.
Lemma Init_ok s : length (g_windows s) = 16%nat -> length (g_zorder s) = 16%nat -> (exists l, ring_is (g_ring s) l) -> area_ok (mk_rect 0 0 (fb_width (u_fb s)) (fb_height (u_fb s))) ->
  exists s', Init s = Some (true, s') /\ ui_wf s' /\ live s' = [] /\ g_inter s' = g_inter s.
Proof.
  intros H1 H2 H3 H4. unfold Init. rewrite modify_step. set (s1 := set_area _ _ _).
  destruct (hoare_for 16 0 (fun i => put_z i i) (fun _ t => length (g_zorder t) = 16%nat /\ t = set_zorder (g_zorder t) s1)) with (s := s1) as ([] & s' & E & Hl & Es).
  - intros i Hi t [Hl Et]. exists tt, (set_zorder (<[Z.to_nat i := i]> (g_zorder t)) t). split; [apply put_z_ok; lia|]. cbn. rewrite length_insert. split; [done|]. rewrite Et. done.
  - split; [done|]. by destruct s.
  - rewrite (bind_step _ _ _ _ _ E). exists s'. split; [done|]. rewrite Es. split; [|done]. by apply empty_wf.
Qed.

(** The calls that change the state. *)
Inductive op :=
| OpInit
| OpCreate (x y w h bg : Z) (title : option (list Z)) (r : WindowRole) (fl parent : Z)
| OpClose (wid : Z) | OpFront (wid : Z) | OpPos (wid x y : Z) | OpSize (wid w h : Z) | OpMinimize (wid : Z) | OpMaximize (wid : Z) | OpRestore (wid : Z)
| OpFocus (wid : Z) | OpInvalidate (wid : Z) | OpConsume (wid : Z) | OpComponent (wid c : Z) | OpPoll | OpArea (x y w h : Z) | OpMouse (mx my mb : Z).

Definition run_op (o : op) : ST ui unit :=
  match o with
  | OpInit => Init;;; ret tt
  | OpCreate x y w h bg title r fl parent => CreateWindowEx x y w h bg title r fl parent;;; ret tt
  | OpClose wid => CloseWindow CLOSE_FUEL wid;;; ret tt
  | OpFront wid => BringToFront wid;;; ret tt
  | OpPos wid x y => SetWindowPos wid x y;;; ret tt
  | OpSize wid w h => SetWindowSize wid w h;;; ret tt
  | OpMinimize wid => MinimizeWindow wid;;; ret tt
  | OpMaximize wid => ToggleMaximize wid;;; ret tt
  | OpRestore wid => RestoreWindow wid;;; ret tt
  | OpFocus wid => SetFocusedWindow wid
  | OpInvalidate wid => InvalidateWindow wid;;; ret tt
  | OpConsume wid => ConsumeWindowNeedsRedraw wid;;; ret tt
  | OpComponent wid c => SetWindowComponent wid c;;; ret tt
  | OpPoll => PollEvent;;; ret tt
  | OpArea x y w h => SetWorkArea x y w h
  | OpMouse mx my mb => UpdateInteractions mx my mb
  end.

(** Arguments are 32-bit words, ids are not used up, a work area and the screen
    end before the coordinates wrap around, and the mouse is not given to the
    framework while it moves a window that is gone. *)
Definition op_ok (s : ui) (o : op) : Prop :=
  match o with
  | OpInit => area_ok (mk_rect 0 0 (fb_width (u_fb s)) (fb_height (u_fb s)))
  | OpCreate x y w h bg _ _ _ _ => word x /\ word y /\ word w /\ word h /\ word bg /\ g_nextId s + 1 < 2 ^ 32
  | OpPos _ x y => word x /\ word y
  | OpSize _ w h => word w /\ word h
  | OpArea x y w h => area_ok (mk_rect x y w h) /\ area_ok (mk_rect 0 0 (fb_width (u_fb s)) (fb_height (u_fb s)))
  | OpMouse _ _ _ => inter_ok s
  | _ => True
  end.

(** The windows a call removes, and whether one that is dragged or resized is
    among them. *)
Definition removes (s : ui) (o : op) (j : Z) : Prop :=
  match o with OpInit => True | OpClose wid => below (live s) wid j | _ => False end.
Definition removes_moved (s : ui) (o : op) : Prop :=
  (g_dragging (g_inter s) = true /\ removes s o (g_dragWin (g_inter s))) \/ (g_resizing (g_inter s) = true /\ removes s o (g_resizeWin (g_inter s))).

Section Session.
Implicit Types (s : ui).

Lemma run_keeps {A} (m : ST ui A) s (P : Prop) : ui_wf s -> keeps (fun _ => True) m -> exists s', (m;;; ret tt) s = Some (tt, s') /\ ui_wf s' /\ (inter_ok s -> P -> inter_ok s').
Proof.
  intros Hs Hm. destruct (Hm s Hs I) as (a & s' & E & Hst). exists s'. rewrite (bind_step _ _ _ _ _ E). split; [done|]. split; [apply Hst|]. intros Hi _. by eapply steady_inter.
Qed.
Lemma inter_ok_mono s s' : g_inter s' = g_inter s -> (forall j, j ∈ ids s -> j ∈ ids s') -> inter_ok s -> inter_ok s'.
Proof. intros E Hsub [Hd Hr]. unfold inter_ok. rewrite E. split; auto. Qed.

Lemma CloseWindow_any s wid : ui_wf s -> exists b s', CloseWindow CLOSE_FUEL wid s = Some (b, s') /\ if decide (wid ∈ ids s) then b = true /\ closed s wid s' else b = false /\ s' = s.
Proof.
  intros Hs. destruct (decide (wid ∈ ids s)) as [Hin|Hn].
  - destruct (CloseWindow_run CLOSE_FUEL s wid Hs Hin (newer_fuel s wid Hs)) as (s' & E & Hc). eauto.
  - exists false, s. split; [|done]. unfold CLOSE_FUEL. cbn [CloseWindow].  match goal with |- context [on_window wid false ?k] => destruct (on_window_run s wid false k Hs) as [[_ ->]|(i & w & Hi & <- & _)] end; [done|]. destruct Hn. apply list_elem_of_fmap_2, list_elem_of_lookup. eauto.
Qed.
End Session.

(** C27: Every call that changes the state, [Init] included, returns from a
    well-formed state and keeps the tables, the depth order, the ids, the
    parents, the focus and the ring of events well-formed, for arguments that
    are 32-bit words, as long as ids are not used up and the work area ends
    before the coordinates wrap around.  A window that is dragged or resized
    stays in the table, unless the call itself removes it: after such a close
    the next call with the mouse works on a window that is gone
    ([UpdateInteractions_closed_window]), so that [UpdateInteractions] is
    covered only while what it moves exists. *)
Theorem ui_invariant s o : ui_wf s -> op_ok s o -> exists s', run_op o s = Some (tt, s') /\ ui_wf s' /\ (inter_ok s -> ~ removes_moved s o -> inter_ok s').
Proof.
  intros Hs Hok. destruct o; cbn [run_op op_ok] in *; try (apply run_keeps; [done|eauto with ui; fail]).
  - destruct (Init_ok s (wf_len _ Hs) (wf_zlen _ Hs) (wf_ring _ Hs) Hok) as (s' & E & Hs' & _ & Ei). exists s'. rewrite (bind_step _ _ _ _ _ E). split; [done|]. split; [done|]. intros _ Hn.
    unfold inter_ok. rewrite Ei. split; intros Hm; destruct Hn; [by left|by right].
  - destruct Hok as (Hx & Hy & Hw & Hh & Hbg & Hnext). pose proof (CreateWindowEx_ok x y w h bg title r fl parent s Hs Hx Hy Hw Hh Hbg Hnext) as Hc. destruct (16 <=? g_count s).
    + exists s. by rewrite (bind_step _ _ _ _ _ Hc).
    + destruct Hc as (d & s' & E & Hwf & _ & El & _ & _ & Ein). exists s'. rewrite (bind_step _ _ _ _ _ E). split; [done|]. split; [done|]. intros Hi _. eapply inter_ok_mono; [done| |done].
      intros j Hj. unfold ids. rewrite El, fmap_app. apply elem_of_app. by left.
  - destruct (CloseWindow_any s wid Hs) as (b & s' & E & Hc). exists s'. rewrite (bind_step _ _ _ _ _ E). split; [done|]. destruct (decide (wid ∈ ids s)); [|by destruct Hc as [_ ->]]. destruct Hc as (_ & Hsh & Hin). split; [apply Hsh|].
    assert (Hkeep : forall j, j ∈ ids s -> ~ below (live s) wid j -> j ∈ ids s').
    { intros j (w & -> & Hw)%list_elem_of_fmap Hnb. apply list_elem_of_fmap_2. destruct (decide (w ∈ live s')) as [|Hn]; [done|]. by apply (Hin w Hw) in Hn. }
    intros [Hid Hir] Hn. unfold inter_ok. rewrite (sh_inter _ _ Hsh). split; intros Hm; (apply Hkeep; [by auto|]); intros Hb; apply Hn; [by left|by right].
  - destruct Hok. apply run_keeps; auto using keeps_SetWindowPos.
  - destruct Hok. apply run_keeps; auto using keeps_SetWindowSize.
  - destruct (keeps_SetFocusedWindow (fun _ => True) wid s Hs I) as ([] & s' & E & Hst). exists s'. split; [done|]. split; [apply Hst|]. intros Hi _. by eapply steady_inter.
  - apply run_keeps; auto using keeps_InvalidateWindow.
  - apply run_keeps; auto using keeps_ConsumeWindowNeedsRedraw.
  - apply run_keeps; auto using keeps_SetWindowComponent.
  - apply run_keeps; auto using keeps_PollEvent.
  - destruct Hok as [Ha Hfb]. unfold SetWorkArea, ResetWorkArea. destruct (_ || _) eqn:E0; (eexists; split; [reflexivity|]; split; [|done]); destruct Hs as [? ? ? ? ? ? ? ? ? ? ? ?]; split; try done.
    unfold effectiveWorkArea. cbn. apply orb_false_iff in E0 as [?%Z.eqb_neq ?%Z.eqb_neq]. destruct Ha as (? & ? & ? & ? & ? & ?). cbn in *. destruct (Z.ltb_spec 0 w), (Z.ltb_spec 0 h); try lia. by split_and!.
  - destruct (UpdateInteractions_ok s mx my mb Hs Hok) as (s' & E & Hs' & Hi' & _). exists s'. by split.
Qed.

(** C28: Closing a window ends; it closes the window and every window below it in
    the tree of parents, and no other.  The other windows keep their order, in
    the table and in depth, and the focus stays unless its window is closed. *)
Theorem CloseWindow_spec s wid : ui_wf s -> exists s', CloseWindow CLOSE_FUEL wid s = Some (bool_decide (wid ∈ ids s), s') /\ ui_wf s' /\
  live s' `sublist_of` live s /\ zlist s' `sublist_of` zlist s /\
  (forall w, w ∈ live s' <-> w ∈ live s /\ ~ (wid ∈ ids s /\ below (live s) wid (id w))) /\
  g_focused_window s' = if decide (g_focused_window s ∈ ids s') then g_focused_window s else 0.
Proof.
  intros Hs. destruct (CloseWindow_any s wid Hs) as (b & s' & E & Hc). exists s'. rewrite E. destruct (decide (wid ∈ ids s)) as [Hin|Hn].
  - destruct Hc as (-> & Hsh & Hgone). rewrite bool_decide_eq_true_2 by done. split; [done|]. split; [apply Hsh|]. split; [apply Hsh|]. split; [apply Hsh|]. split; [|apply Hsh].
    intros w. split.
    + intros Hw. pose proof (shrunk_in _ _ _ Hsh Hw) as Hw0. split; [done|]. intros [_ Hb]. by apply (Hgone w Hw0) in Hb.
    + intros [Hw Hnb]. destruct (decide (w ∈ live s')) as [|Hnw]; [done|]. destruct Hnb. split; [done|]. by apply (Hgone w Hw).
  - destruct Hc as (-> & ->). rewrite bool_decide_eq_false_2 by done. pose proof (shrunk_refl s Hs) as Hsh. split_and!; try done; [|apply Hsh]. intros w. split; [intros Hw; split; [done|by intros [? _]]|by intros [? _]].
Qed.

(** A point hits the frontmost window that is shown there. *)
Theorem HitTest_spec s x y : ui_wf s -> exists r, HitTest x y s = Some (r, s) /\
  match r with
  | None => forall w, w ∈ zlist s -> covers x y w = false
  | Some (wid, onTitle) => exists behind w front, zlist s = behind ++ w :: front /\ id w = wid /\ onTitle = on_title y w /\ covers x y w = true /\ forall v, v ∈ front -> covers x y v = false
  end.
Proof.
  intros Hs. pose proof (hit_loop_ok s x y (Z.to_nat (g_count s)) Hs ltac:(lia)) as Hh. rewrite <-(zlist_length s Hs), firstn_all in Hh. unfold HitTest. rewrite gets_step, <-(zlist_length s Hs).
  destruct (hit_loop _ x y s) as [[r s']|]; [|done]. destruct Hh as [-> Hh]. eauto.
Qed.

(** ** Depth *)

(** Windows of a higher rank are in front of those of a lower rank. *)
Definition layered (s : ui) : Prop := StronglySorted (fun i j => rank_at s i <= rank_at s j) (order s).

Lemma raise_sorted s l1 i l2 l3 : StronglySorted (fun i j => rank_at s i <= rank_at s j) (l1 ++ i :: l2 ++ l3) -> Forall (fun j => rank_at s j <= rank_at s i) l2 ->
  match l3 with [] => True | j :: _ => rank_at s i < rank_at s j end -> StronglySorted (fun i j => rank_at s i <= rank_at s j) (l1 ++ l2 ++ i :: l3).
Proof.
  rewrite !StronglySorted_app, !StronglySorted_cons, !StronglySorted_app, !Forall_forall. intros (H1 & Hs1 & Hi & H2 & Hs2 & Hs3) Hle Hgt. split_and!; try done.
  - intros x y Hx Hy. apply H1; [done|]. set_solver.
  - intros x y Hx [->|Hy]%elem_of_cons; [by apply Hle|by apply H2].
  - intros x Hx. apply Hi. set_solver.
Qed.

(** The state differs in the flags for redrawing, the focus, events and notices. *)
Record refocused (s s' : ui) : Prop := {
  rf_order : order s' = order s; rf_rank : forall j, rank_at s' j = rank_at s j; rf_ids : ids s' = ids s;
}.
Lemma refocused_core s s' : same_core s s' -> refocused s s'.
Proof. intros Hc. pose proof (same_core_live _ _ Hc) as El. split; [unfold order; by rewrite (sc_count _ _ Hc), (sc_zorder _ _ Hc)|intros j; unfold rank_at; by rewrite El|unfold ids; by rewrite El]. Qed.
Lemma refocused_trans s1 s2 s3 : refocused s1 s2 -> refocused s2 s3 -> refocused s1 s3.
Proof. intros [H1 H2 H3] [K1 K2 K3]. split; [congruence|intros j; by rewrite K2, H2|congruence]. Qed.
Lemma refocused_changed s i w0 w : live s !! i = Some w0 -> role w = role w0 -> id w = id w0 -> refocused s (changed s i w).
Proof.
  intros Hi Hr Hid. split; [done| |by eapply changed_ids]. intros j. unfold rank_at. rewrite (changed_live s i w0 w Hi). destruct (decide (Z.to_nat j = i)) as [->|Hne]; [|by rewrite list_lookup_insert_ne].
  rewrite list_lookup_insert_eq, Hi by (by eapply lookup_lt_Some). by rewrite Hr.
Qed.

Lemma focus_tail_ok s i w user : ui_wf s -> live s !! i = Some w ->
  exists s', (if user : bool then modify (set_focus (id w));;; upd_win (Z.of_nat i) (with_redraw true);;; (let! w := win (Z.of_nat i) in notify (component w) (OnFocusChanged (component w) true));;; pushEvent WindowFocused (id w) 0 0 else ret tt) s = Some (tt, s') /\
    ui_wf s' /\ refocused s s' /\ g_focused_window s' = if user then id w else g_focused_window s.
Proof.
  intros Hs Hi. destruct user; [|exists s; split_and!; try done; by apply refocused_core]. rewrite modify_step. set (s1 := set_focus (id w) s). assert (Hs1 : ui_wf s1).
  { eapply same_core_wf; [done|apply set_focus_core|right; change (id w ∈ ids s); apply list_elem_of_fmap_2, list_elem_of_lookup; eauto|apply (wf_ring _ Hs)]. }
  assert (Hi1 : live s1 !! i = Some w) by done. rewrite (bind_step _ _ _ _ _ (upd_win_ok s1 i w _ Hs1 Hi1)). set (s2 := changed _ _ _). assert (Hs2 : ui_wf s2) by (apply (changed_wf s1 i w); try done; apply (wf_windows _ Hs w), list_elem_of_lookup; eauto).
  assert (Hi2 : live s2 !! i = Some (with_redraw true w)) by (by eapply changed_lookup). rewrite bind_assoc, (bind_step _ _ _ _ _ (win_live s2 i _ Hi2)).
  destruct (notify_wf (component w) (OnFocusChanged (component w) true) s2 Hs2) as (s3 & E3 & Hs3 & Hc3 & Hf3 & _). change (component (with_redraw true w)) with (component w). rewrite (bind_step _ _ _ _ _ E3).
  destruct (pushEvent_wf WindowFocused (id w) 0 0 s3 Hs3) as (s4 & -> & Hs4 & Hc4 & Hf4 & _). exists s4. split; [done|]. split; [done|]. split; [|by rewrite Hf4, Hf3].
  eapply refocused_trans; [|by apply refocused_core]. eapply refocused_trans; [|by apply refocused_core]. eapply refocused_trans; [apply refocused_core, (set_focus_core (id w))|]. by eapply (refocused_changed s1 i w).
Qed.

(** [BringToFront] puts the window above all windows of its rank and of lower
    ranks that were in front of it, below the first window of a higher rank;
    the other windows keep their order.  A layered order stays layered. *)
Theorem BringToFront_spec s i w : ui_wf s -> live s !! i = Some w -> exists l1 l2 l3 s', order s = l1 ++ Z.of_nat i :: l2 ++ l3 /\
  BringToFront (id w) s = Some (true, s') /\ ui_wf s' /\ ids s' = ids s /\ order s' = l1 ++ l2 ++ Z.of_nat i :: l3 /\
  Forall (fun j => rank_at s j <= rank_at s (Z.of_nat i)) l2 /\ (match l3 with [] => True | j :: _ => rank_at s (Z.of_nat i) < rank_at s j end) /\
  g_focused_window s' = (if g_user_focus_interaction s || (g_focused_window s =? 0) then id w else g_focused_window s) /\ (layered s -> layered s').
Proof.
  intros Hs Hi. pose proof (lookup_lt_Some _ _ _ Hi) as Hl. rewrite live_length in Hl by done. destruct (raise_ok s (Z.of_nat i) Hs) as (l1 & l2 & l3 & Eo & Hle & Hgt & Em & Hwf & Eo'); [pose proof (wf_count _ Hs); lia|].
  set (s1 := reordered s _) in *. destruct (focus_tail_ok s1 i w (g_user_focus_interaction s || (g_focused_window s =? 0) || (g_focused_window s =? id w)) Hwf Hi) as (s' & E & Hs' & [Er1 Er2 Er3] & Hf). exists l1, l2, l3, s'.
  split; [done|]. split. { unfold BringToFront, on_window. rewrite (bind_step _ _ _ _ _ (findIndexById_ok s (id w) Hs)), (index_of_in s w i Hs Hi). destruct (Z.ltb_spec (Z.of_nat i) 0); [lia|]. rewrite (bind_step _ _ _ _ _ Em), !gets_step.
    change (g_user_focus_interaction s1) with (g_user_focus_interaction s). change (g_focused_window s1) with (g_focused_window s). by rewrite (bind_step _ _ _ _ _ E). }
  split_and!; try done; [congruence|..].
  - rewrite Hf. change (g_focused_window s1) with (g_focused_window s). destruct (g_user_focus_interaction s), (Z.eqb_spec (g_focused_window s) 0), (Z.eqb_spec (g_focused_window s) (id w)); done.
  - unfold layered. rewrite Er1, Eo', Eo. intros Hss. pose proof (raise_sorted s l1 (Z.of_nat i) l2 l3 Hss Hle Hgt) as H. assert (Hr : forall j, rank_at s' j = rank_at s j) by (intros j; by rewrite Er2). clear -H Hr. revert H. generalize (l1 ++ l2 ++ Z.of_nat i :: l3). intros l0 H. induction H as [|a l _ IH Hf]; constructor; [done|]. eapply Forall_impl; [exact Hf|]. intros b. by rewrite !Hr.
Qed.

(** ** Finding a free place *)

(** No pixel belongs to both. *)
Definition disjoint (d e : WindowDesc) : Prop := forall x y, ~ ((w_x d <= x < w_x d + w_w d /\ w_y d <= y < w_y d + w_h d) /\ (w_x e <= x < w_x e + w_w e /\ w_y e <= y < w_y e + w_h e)).
Definition no_wrap (d : WindowDesc) : Prop := desc_ok d /\ w_x d + w_w d < 2 ^ 32 /\ w_y d + w_h d < 2 ^ 32.

Lemma rectOverlapArea_ok d e : no_wrap d -> no_wrap e -> w_w d * w_h d < 2 ^ 32 -> 0 <= rectOverlapArea d e < 2 ^ 32 /\ (rectOverlapArea d e = 0 <-> disjoint d e).
Proof.
  intros [(? & ? & ? & ? & _) [? ?]] [(? & ? & ? & ? & _) [? ?]] Hsz. unfold rectOverlapArea, word in *. rewrite !u32_small by lia. set (x1 := Z.max _ _). set (y1 := Z.max _ _). set (x2 := Z.min _ _). set (y2 := Z.min _ _).
  destruct (Z.leb_spec x2 x1) as [Hx|Hx], (Z.leb_spec y2 y1) as [Hy|Hy]; cbn [orb]. 1-3: split; [lia|]; split; [intros _ x y; lia|done].
  assert (0 < (x2 - x1) * (y2 - y1) < 2 ^ 32) by (split; [apply Z.mul_pos_pos; lia|]; apply (Z.le_lt_trans _ (w_w d * w_h d)); [apply Z.mul_le_mono_nonneg; lia|done]). rewrite u32_small by lia. split; [lia|]. split; [lia|].
  intros Hd. exfalso. apply (Hd x1 y1). lia.
Qed.

Lemma totalOverlap_zero ws d : no_wrap d -> w_w d * w_h d < 2 ^ 32 -> (forall w, w ∈ ws -> no_wrap (desc w)) -> Z.of_nat (length ws) <= 2 ^ 31 ->
  totalOverlapAreaForCandidate ws d = 0 <-> forall w, w ∈ ws -> state w <> Minimized -> disjoint d (desc w).
Proof.
  intros Hd Hsz. enough (H : (forall w, w ∈ ws -> no_wrap (desc w)) -> Z.of_nat (length ws) <= 2 ^ 31 -> 0 <= totalOverlapAreaForCandidate ws d <= 2 ^ 32 * Z.of_nat (length ws) /\
    (totalOverlapAreaForCandidate ws d = 0 <-> forall w, w ∈ ws -> state w <> Minimized -> disjoint d (desc w))) by (intros; by apply H).
  unfold totalOverlapAreaForCandidate. induction ws as [|w ws IH] using rev_ind; intros Hws Hn; [split; [cbn; lia|]; split; [by intros _ w ?%not_elem_of_nil|done]|].
  rewrite foldl_app, length_app in *. cbn [foldl length] in *. destruct IH as [Hr Hz]; [intros v Hv; apply Hws; set_solver|lia|]. set (t := foldl _ 0 ws) in *.
  destruct (rectOverlapArea_ok d (desc w) Hd (Hws w ltac:(set_solver)) Hsz) as [Ho Hoz]. destruct (decide (state w = Minimized)) as [Hm|Hm].
  - split; [lia|]. rewrite Hz. split; intros H v Hv; [apply elem_of_app in Hv as [Hv| ->%list_elem_of_singleton]; [by apply H|done]|apply H; set_solver].
  - rewrite u64_small by lia. split; [lia|]. split.
    + intros E v Hv. apply elem_of_app in Hv as [Hv| ->%list_elem_of_singleton]; [apply Hz; [lia|done]|intros _; apply Hoz; lia].
    + intros H. rewrite (proj2 Hz), (proj2 Hoz); [done|apply H; [set_solver|done]|]. intros v Hv. apply H. set_solver.
Qed.

(** When the window has room somewhere on the grid, or at the preferred place,
    without covering a shown window, it is placed so. *)
Theorem placeWindowMinOverlap_free a ws d prefX prefY q : area_ok a -> desc_ok d -> 0 < r_w a -> 0 < r_h a -> w_w d <= r_w a -> w_h d <= r_h a -> r_w a * r_h a < 2 ^ 32 ->
  (forall w, w ∈ ws -> no_wrap (desc w)) -> Z.of_nat (length ws) <= 16 ->
  let maxX := r_x a + r_w a - w_w d in let maxY := r_y a + r_h a - w_h d in
  q ∈ (clamp_coord prefX (r_x a) maxX, clamp_coord prefY (r_y a) maxY) :: points (r_x a) (r_y a) maxX maxY ->
  (forall w, w ∈ ws -> state w <> Minimized -> disjoint (with_pos q.1 q.2 d) (desc w)) ->
  exists x y, placeWindowMinOverlap a ws d prefX prefY = Some (with_pos x y d) /\ within a (with_pos x y d) /\ forall w, w ∈ ws -> state w <> Minimized -> disjoint (with_pos x y d) (desc w).
Proof.
  intros Ha Hd Hw Hh Hdw Hdh Hsz Hws Hn maxX maxY Hq Hfree. pose proof Hd as (? & ? & Hdw' & Hdh' & ?). unfold word in Hdw', Hdh'. destruct (placeWindowMinOverlap_ok a ws d prefX prefY Ha) as (p & E & Hp & Hmin); [lia..|]. exists p.1, p.2. split; [done|].
  fold maxX maxY in Hp, Hmin. set (cands := _ :: _) in *. pose proof Ha as (? & ? & ? & ? & ? & ?).
  assert (Hin : forall r, r ∈ cands -> r_x a <= r.1 <= maxX /\ r_y a <= r.2 <= maxY).
  { intros r [->|Hr]%elem_of_cons; [cbn; unfold clamp_coord; subst maxX maxY; repeat case_match; lia|]. unfold points in Hr. apply list_elem_of_bind in Hr as (y & Hr & Hy). apply list_elem_of_fmap in Hr as (x & -> & Hx). apply grid_in in Hx as (? & ? & ? & ?), Hy as (? & ? & ? & ?). cbn. lia. }
  assert (Hnw : forall r, r ∈ cands -> no_wrap (with_pos r.1 r.2 d)) by (intros r Hr%Hin; subst maxX maxY; split; [apply with_pos_ok; unfold word; [done|lia..]|cbn; lia]).
  assert (Hprod : forall x y, w_w (with_pos x y d) * w_h (with_pos x y d) < 2 ^ 32) by (intros; cbn; apply (Z.le_lt_trans _ (r_w a * r_h a)); [apply Z.mul_le_mono_nonneg; lia|done]).
  split; [specialize (Hin p Hp); subst maxX maxY; unfold within; cbn; lia|]. apply totalOverlap_zero; [by apply Hnw|done|done|lia|].
  specialize (Hmin q Hq). apply (totalOverlap_zero ws (with_pos q.1 q.2 d)) in Hfree; [|by apply Hnw|done|done|lia]. unfold lex_le, lex_lt, cost in Hmin. cbn [fst snd] in Hmin. rewrite Hfree in Hmin.
  pose proof (overlap_range ws (with_pos p.1 p.2 d)). lia.
Qed.

(** ** Maximising *)

Definition maximised (a : Rect) (w : UIWindow) : UIWindow := with_redraw true (with_state Maximized (with_desc (with_rect a (desc w)) (with_restore (rect_of (desc w)) w))).
Definition unmaximised (a : Rect) (w : UIWindow) : UIWindow := with_redraw true (with_state Normal (with_desc (clampWindowToArea a (with_rect (restore w) (desc w))) w)).

Lemma on_window_at {A} s i w (dflt : A) k : ui_wf s -> live s !! i = Some w -> on_window (id w) dflt k s = k (Z.of_nat i) s.
Proof.
  intros Hs Hi. unfold on_window. rewrite (bind_step _ _ _ _ _ (findIndexById_ok s (id w) Hs)), (index_of_in s w i Hs Hi). by destruct (Z.ltb_spec (Z.of_nat i) 0); [lia|].
Qed.

Lemma toggle_shown_ok s i w : ui_wf s -> live s !! i = Some w -> state w <> Minimized ->
  let w' := if decide (state w = Maximized) then unmaximised (effectiveWorkArea s) w else maximised (effectiveWorkArea s) w in
  exists s', toggle_shown (Z.of_nat i) (id w) s = Some (true, s') /\ ui_wf s' /\ live s' = <[i := w']> (live s) /\ effectiveWorkArea s' = effectiveWorkArea s.
Proof.
  intros Hs Hi Hm w'. pose proof (wf_area _ Hs) as Ha. destruct (wf_windows _ Hs w) as [Hd Hr]; [apply list_elem_of_lookup; eauto|]. assert (Hok : window_ok w').
  { subst w'. destruct (decide _); split; try done; [apply clamp_ok; [done|by apply with_rect_ok]|apply with_rect_ok; [done|by apply area_rect_ok]|change (rect_ok (rect_of (desc w))); by apply rect_of_ok]. }
  assert (Hw' : id w' = id w /\ parentId w' = parentId w) by (subst w'; by destruct (decide _)). destruct Hw' as [Eid Epar]. pose proof (changed_wf s i w w' Hs Hi Eid Epar Hok) as Hc. unfold toggle_shown. rewrite (bind_step _ _ _ _ _ (win_live s i w Hi)), gets_step.
  assert (Hrun : forall t, exists s', (put_win (Z.of_nat i) w';;; pushEvent t (id w) 0 0;;; ret true) s = Some (true, s') /\ ui_wf s' /\ live s' = <[i := w']> (live s) /\ effectiveWorkArea s' = effectiveWorkArea s).
  { intros t. rewrite (bind_step _ _ _ _ _ (put_win_ok s i w w' Hs Hi)). destruct (pushEvent_wf t (id w) 0 0 _ Hc) as (s' & E & Hs' & Hco & _). rewrite (bind_step _ _ _ _ _ E). exists s'. split_and!; [done..| |apply (sc_area _ _ Hco)].
    rewrite (same_core_live _ _ Hco). by eapply changed_live. }
  destruct (state w) eqn:Es; [|done|]; subst w'; rewrite ?decide_False, ?decide_True in * by done; apply Hrun.
Qed.

Lemma ToggleMaximize_ok s i w : ui_wf s -> live s !! i = Some w -> state w <> Minimized -> has_flag (flags w) WF_Maximizable = true ->
  let w' := if decide (state w = Maximized) then unmaximised (effectiveWorkArea s) w else maximised (effectiveWorkArea s) w in
  exists s', ToggleMaximize (id w) s = Some (true, s') /\ ui_wf s' /\ live s' = <[i := w']> (live s) /\ effectiveWorkArea s' = effectiveWorkArea s.
Proof.
  intros Hs Hi Hm Hf. unfold ToggleMaximize. rewrite (on_window_at s i w) by done. rewrite (bind_step _ _ _ _ _ (win_live s i w Hi)), Hf, decide_False by done. by apply toggle_shown_ok.
Qed.

(** Maximising fills the work area; a second toggle gives a window that lay in
    the work area its place back, and no other window changes. *)
Theorem ToggleMaximize_roundtrip s i w : ui_wf s -> live s !! i = Some w -> state w = Normal -> has_flag (flags w) WF_Maximizable = true ->
  clampWindowToArea (effectiveWorkArea s) (desc w) = desc w ->
  exists s1 s2 w1 w2, ToggleMaximize (id w) s = Some (true, s1) /\ ToggleMaximize (id w) s1 = Some (true, s2) /\ ui_wf s2 /\
    live s1 = <[i := w1]> (live s) /\ rect_of (desc w1) = effectiveWorkArea s /\ state w1 = Maximized /\
    live s2 = <[i := w2]> (live s) /\ desc w2 = desc w /\ state w2 = Normal.
Proof.
  intros Hs Hi Hn Hf Hcl. destruct (ToggleMaximize_ok s i w Hs Hi ltac:(congruence) Hf) as (s1 & E1 & Hs1 & El1 & Ea1). rewrite decide_False in El1 by congruence. set (w1 := maximised _ w) in *.
  assert (Hi1 : live s1 !! i = Some w1) by (rewrite El1; apply list_lookup_insert_eq; by eapply lookup_lt_Some).
  destruct (ToggleMaximize_ok s1 i w1 Hs1 Hi1 ltac:(done) Hf) as (s2 & E2 & Hs2 & El2 & _). rewrite decide_True in El2 by done. exists s1, s2, w1, (unmaximised (effectiveWorkArea s1) w1).
  split_and!; try done; [by destruct (effectiveWorkArea s)|by rewrite El2, El1, list_insert_insert_eq|]. rewrite Ea1. etrans; [|exact Hcl]. cbn. f_equal. by destruct (desc w).
Qed.

(** A maximised window that is minimised and toggled is maximised again, and
    the place to restore is overwritten by the maximised one. *)
Theorem ToggleMaximize_forgets s i w : ui_wf s -> live s !! i = Some w -> state w = Minimized -> has_flag (flags w) WF_Maximizable = true ->
  exists s' w', ToggleMaximize (id w) s = Some (true, s') /\ live s' !! i = Some w' /\ state w' = Maximized /\ restore w' = rect_of (desc w).
Proof.
  intros Hs Hi Hm Hf. unfold ToggleMaximize. rewrite (on_window_at s i w) by done. rewrite (bind_step _ _ _ _ _ (win_live s i w Hi)), Hf, decide_True by done. cbn [negb].
  rewrite (bind_step _ _ _ _ _ (put_win_ok s i w _ Hs Hi)). set (w1 := with_state Normal w). set (s1 := changed s i w1). assert (Hok : window_ok w1) by (apply (wf_windows _ Hs w), list_elem_of_lookup; eauto).
  assert (Hs1 : ui_wf s1) by (by apply (changed_wf s i w)). assert (Hi1 : live s1 !! i = Some w1) by (by eapply changed_lookup). change (id w) with (id w1). rewrite (on_window_at s1 i w1) by done.
  destruct (toggle_shown_ok s1 i w1 Hs1 Hi1) as (s' & E & _ & El & _); [done|]. exists s', (maximised (effectiveWorkArea s1) w1). split_and!; try done. rewrite El. apply list_lookup_insert_eq. by eapply lookup_lt_Some.
Qed.

(** ** Rendering *)

Lemma zoom_run {S T A} (get : S -> T) put (m : ST T A) s a t : m (get s) = Some (a, t) -> zoom get put m s = Some (a, put t s).
Proof. intros E. unfold zoom. by rewrite E. Qed.
Lemma draws_render_window focused w : desc_ok (desc w) -> draws (render_window focused w).
Proof.
  intros (Hx & Hy & Hw & Hh & _). unfold word in *. unfold render_window. destruct (decide _); [apply draws_ret|]. apply draws_bind.
  - destruct (has_flag _ _); [|apply draws_DrawWindow; lia]. repeat apply draws_bind; apply draws_FillRect; auto using u32_nonneg; lia.
  - destruct (_ && _); [apply draws_FillRect; auto using u32_nonneg; lia|apply draws_ret].
Qed.

(** C33: Rendering the windows of a well-formed state returns, changes no window and
    writes no byte outside the back buffer, wherever the windows are. *)
Theorem RenderAll_bounds u g : ui_wf u -> surface g -> exists g', RenderAll (u, g) = Some (tt, (u, g')) /\ drawn g g'.
Proof.
  intros Hu Hg. unfold RenderAll. rewrite !gets_step. cbn [fst snd].
  match goal with |- context [for_loop ?n 0 ?body] => destruct (hoare_for n 0 body (fun _ s => fst s = u /\ drawn g (snd s))) with (s := (u, g)) as ([] & [u' g'] & E & Eu & D) end.
  - intros k Hk [u1 g1] [E D]. cbn in E, D. subst u1. pose proof (wf_count _ Hu). destruct (lookup_lt_is_Some_2 (order u) (Z.to_nat k)) as [i Hi]; [rewrite order_length by done; lia|].
    pose proof (zat_order u _ i Hi) as Ez. rewrite Z2Nat.id in Ez by lia. destruct (rank_win u i Hu) as (w & Ew & Hw & _); [apply list_elem_of_lookup; eauto|].
    destruct (draws_render_window (g_focused_window u) w) with (s := g1) as (g2 & Er & D2); [apply (wf_windows _ Hu), list_elem_of_lookup; eauto|by eapply drawn_surface|].
    exists tt, (u, g2). split; [|split; [done|by etransitivity]]. rewrite (bind_step _ _ _ _ _ (zoom_run fst (fun v s => (v, snd s)) (zat k) (u, g1) i u Ez)). cbn [snd].
    rewrite (bind_step _ _ _ _ _ (zoom_run fst (fun v s => (v, snd s)) (win i) (u, g1) w u Ew)). exact (zoom_run snd (fun v s => (fst s, v)) _ (u, g1) tt g2 Er).
  - by split.
  - cbn in Eu, D. subst u'. eauto.
Qed.

(** * Starting, and examples *)

Definition no_window : UIWindow := mk_window 0 (mk_desc 0 0 0 0 0 None) Normal RoleNormal 0 0 (mk_rect 0 0 0 0) false 0.
Definition fresh_ui : ui :=
  mk_ui (replicate 16 no_window) 0 1 (seqZ 0 16) 0 (mk_inter false 0 0 0 false 0 HitNone) (mk_ring (replicate 64 (mk_event EventNone 0 0 0)) 0 0 0) (mk_rect 0 0 0 0) false 0 false
    demo_fb [].
Lemma fresh_wf : ui_wf fresh_ui.
Proof. apply empty_wf; try reflexivity; [exists []; split; try done; cbn; lia|]. change (area_ok (mk_rect 0 0 800 600)). unfold area_ok. cbn. lia. Qed.

(** A window, a dialog that belongs to it, and a dock, which is below them. *)
Definition with_window x y w h r parent (s : ui) : ui := match CreateWindowEx x y w h 0xFF202020 (Some [65; 66]) r 15 parent s with Some (_, s') => s' | None => s end.
Definition demo_ui : ui := with_window 100 80 300 200 RoleNormal 0 (with_window kAutoCoord kAutoCoord 200 100 Dialog 1 (with_window 10 10 400 300 RoleNormal 0 fresh_ui)).

Lemma with_window_wf x y w h r parent s : ui_wf s -> word x -> word y -> word w -> word h -> g_nextId s + 1 < 2 ^ 32 -> ui_wf (with_window x y w h r parent s).
Proof.
  intros Hs Hx Hy Hw Hh Hn. unfold with_window. pose proof (CreateWindowEx_ok x y w h 0xFF202020 (Some [65; 66]) r 15 parent s Hs Hx Hy Hw Hh ltac:(done) Hn) as Hc.
  destruct (16 <=? g_count s); [by rewrite Hc|]. by destruct Hc as (d & s' & -> & Hwf & _).
Qed.
Lemma demo_wf : ui_wf demo_ui.
Proof. repeat (apply with_window_wf; [|done..|reflexivity]). apply fresh_wf. Qed.

Lemma ui_invariant_witness : exists s', run_op (OpMouse 120 85 1) demo_ui = Some (tt, s') /\ ui_wf s' /\ inter_ok s'.
Proof.
  assert (Hi : inter_ok demo_ui) by (split; discriminate). destruct (ui_invariant demo_ui (OpMouse 120 85 1) demo_wf Hi) as (s' & E & Hs & Hk). exists s'. split; [exact E|]. split; [exact Hs|]. apply Hk; [exact Hi|].
  intros [[_ H]|[_ H]]; exact H.
Defined.

Lemma CloseWindow_spec_witness : exists s', CloseWindow CLOSE_FUEL 1 demo_ui = Some (bool_decide (1 ∈ ids demo_ui), s') /\ ui_wf s' /\ ids s' = [3].
Proof.
  destruct (CloseWindow_spec demo_ui 1 demo_wf) as (s' & E & Hs' & _). exists s'. split; [exact E|]. split; [exact Hs'|].
  assert (Hc : (fun r : option (bool * ui) => (fun p => ids p.2) <$> r) (CloseWindow CLOSE_FUEL 1 demo_ui) = Some [3]) by (vm_compute; reflexivity). rewrite E in Hc. cbn in Hc. congruence.
Defined.

Lemma HitTest_spec_witness : exists r, HitTest 120 85 demo_ui = Some (r, demo_ui) /\ r = Some (3, true).
Proof.
  destruct (HitTest_spec demo_ui 120 85 demo_wf) as (r & E & _). exists r. split; [exact E|]. assert (Hc : fst <$> HitTest 120 85 demo_ui = Some (Some (3, true))) by (vm_compute; reflexivity). rewrite E in Hc. cbn in Hc. congruence.
Defined.

Lemma BringToFront_spec_witness : exists w l1 l2 l3 s', live demo_ui !! 0%nat = Some w /\ order demo_ui = l1 ++ 0 :: l2 ++ l3 /\ BringToFront (id w) demo_ui = Some (true, s') /\ order s' = l1 ++ l2 ++ 0 :: l3.
Proof.
  destruct (live demo_ui !! 0%nat) as [w|] eqn:Hw; [|vm_compute in Hw; discriminate]. destruct (BringToFront_spec demo_ui 0 w demo_wf Hw) as (l1 & l2 & l3 & s' & Eo & E & _ & _ & Eo' & _).
  exists w, l1, l2, l3, s'. split; [reflexivity|]. split; [exact Eo|]. split; [exact E|exact Eo'].
Defined.

Lemma RenderAll_bounds_witness : exists g', RenderAll (demo_ui, demo_surface) = Some (tt, (demo_ui, g')) /\ drawn demo_surface g'.
Proof. apply (RenderAll_bounds demo_ui demo_surface); [apply demo_wf|apply demo_surface_ok]. Defined.

(** The descriptor of a closed window that is still dragged is read without a
    value: press on the title bar, close the window, move the mouse. *)
Theorem UpdateInteractions_closed_window : exists s1 s2, UpdateInteractions 120 85 1 demo_ui = Some (tt, s1) /\ CloseWindow CLOSE_FUEL 3 s1 = Some (true, s2) /\ UpdateInteractions 130 95 1 s2 = None.
Proof.
  destruct (UpdateInteractions 120 85 1 demo_ui) as [[[] s1]|] eqn:E1; [|vm_compute in E1; discriminate].
  assert (H : match CloseWindow CLOSE_FUEL 3 s1 with Some (true, s2) => match UpdateInteractions 130 95 1 s2 with None => true | _ => false end | _ => false end = true).
  { replace s1 with (match UpdateInteractions 120 85 1 demo_ui with Some (_, s) => s | None => demo_ui end) by (by rewrite E1). vm_compute. reflexivity. }
  destruct (CloseWindow CLOSE_FUEL 3 s1) as [[[] s2]|] eqn:E2; [|discriminate..]. exists s1, s2. split; [done|]. split; [done|]. by destruct (UpdateInteractions 130 95 1 s2).
Qed.

(** A new normal window goes in front of a dock that is there. *)
Theorem CreateWindowEx_not_layered : let s := with_window 0 0 200 60 Dock 0 fresh_ui in
  layered s /\ ~ layered (with_window 0 0 200 100 RoleNormal 0 s).
Proof.
  split; [repeat constructor|]. intros H. unfold layered in H. set (s := with_window 0 0 200 100 RoleNormal 0 _) in H. assert (Eo : order s = [0; 1]) by (vm_compute; reflexivity). rewrite Eo in H.
  apply StronglySorted_cons in H as [H _]. apply Forall_cons in H as [H _]. assert (Er : rank_at s 0 = 3 /\ rank_at s 1 = 0) by (split; vm_compute; reflexivity). lia.
Qed.

Lemma ToggleMaximize_roundtrip_witness : exists s1 s2 w1 w2, ToggleMaximize 1 demo_ui = Some (true, s1) /\ ToggleMaximize 1 s1 = Some (true, s2) /\ live s1 = <[0%nat := w1]> (live demo_ui) /\ rect_of (desc w1) = mk_rect 0 0 800 600 /\
  live s2 = <[0%nat := w2]> (live demo_ui) /\ rect_of (desc w2) = mk_rect 10 10 400 300.
Proof.
  destruct (live demo_ui !! 0%nat) as [w|] eqn:Hw; [|vm_compute in Hw; discriminate]. assert (Ew : w = mk_window 1 (mk_desc 10 10 400 300 0xFF202020 (Some [65; 66])) Normal RoleNormal 0 15 (mk_rect 10 10 400 300) true 0) by (vm_compute in Hw; congruence).
  destruct (ToggleMaximize_roundtrip demo_ui 0 w demo_wf Hw) as (s1 & s2 & w1 & w2 & E1 & E2 & _ & El1 & Er & _ & El2 & Ed & _); [by rewrite Ew|by rewrite Ew|rewrite Ew; vm_compute; reflexivity|].
  rewrite Ew in E1, E2, Ed. cbn [id desc] in E1, E2, Ed. exists s1, s2, w1, w2. split; [exact E1|]. split; [exact E2|]. split; [exact El1|]. split; [rewrite Er; vm_compute; reflexivity|]. split; [exact El2|]. rewrite Ed. reflexivity.
Defined.

Lemma placeWindowMinOverlap_free_witness : exists x y, placeWindowMinOverlap (mk_rect 0 0 800 600) (live demo_ui) (mk_desc 0 0 200 100 0 None) 100 100 = Some (with_pos x y (mk_desc 0 0 200 100 0 None)) /\
  forall w, w ∈ live demo_ui -> state w <> Minimized -> disjoint (with_pos x y (mk_desc 0 0 200 100 0 None)) (desc w).
Proof.
  assert (El : rect_of <$> (desc <$> live demo_ui) = [mk_rect 10 10 400 300; mk_rect 110 110 200 100; mk_rect 100 80 300 200]) by (vm_compute; reflexivity).
  assert (Hin : forall w, w ∈ live demo_ui -> rect_of (desc w) ∈ [mk_rect 10 10 400 300; mk_rect 110 110 200 100; mk_rect 100 80 300 200]) by (intros w Hw; rewrite <-El; apply list_elem_of_fmap_2, list_elem_of_fmap_2, Hw).
  destruct (placeWindowMinOverlap_free (mk_rect 0 0 800 600) (live demo_ui) (mk_desc 0 0 200 100 0 None) 100 100 (432, 0)) as (x & y & E & _ & Hd); try (cbn; lia).
  - unfold area_ok. cbn. lia.
  - unfold desc_ok, word. cbn. lia.
  - intros w Hw. split; [apply (wf_windows _ demo_wf w Hw)|]. specialize (Hin w Hw). set_unfold in Hin. unfold rect_of in Hin. destruct Hin as [E|[E|[E|[]]]]; injection E as -> -> -> ->; lia.
  - vm_compute. discriminate.
  - right. unfold points. apply list_elem_of_bind. exists 0. split; [apply list_elem_of_fmap; exists 432; split; [reflexivity|]|]; apply grid_in; [exists 18|exists 0]; cbn; lia.
  - intros w Hw _ px py. specialize (Hin w Hw). set_unfold in Hin. unfold rect_of in Hin. cbn. destruct Hin as [E|[E|[E|[]]]]; injection E as -> -> -> ->; lia.
  - exists x, y. split; [exact E|exact Hd].
Defined.
