(* ===== verification/Users.v ===== *)
(** User accounts: [src/kernel/src/services/user_service.cpp] and
    [src/kernel/include/services/user_service.hpp].

    A name or a password is the list of the bytes of a C string.  [m_users]
    holds the [m_user_count] entries of the array that are in use; entries past
    them are never read.  The 1024 byte buffer a save fills is the list of the
    bytes written so far, and a byte written past its end is stuck.  The file
    system is used through the [Filesystem] interface. *)
From S2P Require Import Prelude NetPacket Disk Fat16 Services.

(** * Data *)

Record User := mk_user { uid : Z; name : list Z; pass_hash : Z; salt : Z; gid : Z; locked : bool }.

Record users (F : Type) := mk_users { m_users : list User; m_current_index : Z; u_fs : option F }.
Arguments mk_users {F}. Arguments m_users {F}. Arguments m_current_index {F}. Arguments u_fs {F}.

Definition kMaxUsers : Z := 16.
Definition NAME_SIZE : Z := 32.
Definition OUT_SIZE : nat := 1024.
(** ["/ETC/USERS.CFG"] and ["/etc/users.cfg"]. *)
Definition users_path : list Z := [47; 69; 84; 67; 47; 85; 83; 69; 82; 83; 46; 67; 70; 71].
Definition users_path_lower : list Z := [47; 101; 116; 99; 47; 117; 115; 101; 114; 115; 46; 99; 102; 103].
(** ["root"] and ["user"]. *)
Definition s_root : list Z := [114; 111; 111; 116].
Definition s_user : list Z := [117; 115; 101; 114].
Definition COLON : Z := 58.
Definition NL : Z := 10.

(** * Hashing *)

Definition FNV_PRIME : Z := 0x100000001b3.
Definition GOLDEN : Z := 0x9e3779b97f4a7c15.

(** [h ^= c; h *= FNV_PRIME]. *)
Definition fnv_step (h c : Z) : Z := u64 (Z.lxor h (u8 c) * FNV_PRIME).
Definition salt_bytes (t : Z) : list Z := (fun i => Z.land (Z.shiftr t (8 * i)) 0xFF) <$> seqZ 0 8.

Definition HashPassword (s : option (list Z)) (salt : Z) : Z :=
  let h := Z.lxor 0xcbf29ce484222325 (u64 (salt * GOLDEN)) in
  let h := foldl fnv_step h (default [] s) in
  let h := foldl fnv_step h (salt_bytes salt) in
  Z.lxor h (u64 (Z.shiftl salt 1)).

(** The salt of a new user. *)
Definition salt_step (s c : Z) : Z :=
  let s := Z.lxor s (u8 c) in
  let s := Z.lor (u64 (Z.shiftl s 13)) (Z.shiftr s 51) in
  u64 (s * FNV_PRIME).
Definition derive_salt (name : list Z) (count : Z) : Z := Z.lxor (foldl salt_step GOLDEN name) (u64 (count * 0x5851f42d4c957f2d)).

(** * The file of users *)

(** The digits of [v], built from the last one. *)
Fixpoint decimal_loop (n : nat) (v : Z) (acc : list Z) : list Z :=
  match n with
  | O => acc
  | S n' => if 0 <? v then decimal_loop n' (v / 10) ((48 + v mod 10) :: acc) else acc
  end.
Definition decimal (v : Z) : list Z := if v =? 0 then [48] else decimal_loop 10 v [].
Definition nibble_char (n : Z) : Z := if n <? 10 then 48 + n else 97 + (n - 10).
Definition hex16 (v : Z) : list Z := (fun i => nibble_char (Z.land (Z.shiftr v (60 - 4 * i)) 0xF)) <$> seqZ 0 16.

(** [out[pos++] = c], without and with the test of [pos]. *)
Definition put (c : Z) (out : list Z) : option (list Z) := if (length out <? OUT_SIZE)%nat then Some (out ++ [c]) else None.
Definition puts (s out : list Z) : list Z := out ++ take (OUT_SIZE - 1 - length out) s.

Definition save_user (with_salt : bool) (u : User) (out : list Z) : option (list Z) :=
  out ← put COLON (puts (name u) out);
  out ← put COLON (puts (decimal (uid u)) out);
  out ← put COLON (puts (decimal (gid u)) out);
  out ← put 48 out; out ← put 120 out;
  out ← put COLON (puts (hex16 (pass_hash u)) out);
  out ← (if with_salt then out ← put 48 out; out ← put 120 out; put COLON (puts (hex16 (salt u)) out) else Some out);
  out ← put (if locked u then 49 else 48) out;
  put NL out.
Fixpoint save_users (with_salt : bool) (us : list User) (out : list Z) : option (list Z) :=
  match us with
  | [] => Some out
  | u :: us' => out ← save_user with_salt u out; save_users with_salt us' out
  end.

(** ** Reading it *)

(** Other characters than digits are skipped. *)
Definition parse_decimal (l : list Z) : Z := foldl (fun v c => if is_digit c then u32 (v * 10 + (c - 48)) else v) 0 l.
Definition hex_value (c : Z) : option Z :=
  if is_digit c then Some (c - 48) else if (97 <=? c) && (c <=? 102) then Some (10 + (c - 97)) else if (65 <=? c) && (c <=? 70) then Some (10 + (c - 65)) else None.
Fixpoint hex_loop (l : list Z) (v : Z) : Z :=
  match l with
  | [] => v
  | c :: l' => match hex_value c with Some d => hex_loop l' (Z.lor (u64 (Z.shiftl v 4)) d) | None => v end
  end.
Definition skip_0x (l : list Z) : list Z :=
  match l with
  | a :: b :: l' => if (a =? 48) && ((b =? 120) || (b =? 88)) then l' else l
  | _ => l
  end.
Definition parse_hex (l : list Z) : Z := hex_loop (skip_0x l) 0.
Definition parse_locked (l : list Z) : bool := match l with c :: _ => (c =? 49) || (c =? 116) || (c =? 84) || (c =? 121) || (c =? 89) | [] => false end.
Definition copy_user_name (n : list Z) : list Z := take (Z.to_nat (NAME_SIZE - 1)) n.

(** The fields of a line; [None] for a line that is skipped. *)
Definition parse_fields (line : list Z) : option User :=
  '(n, l) ← cut COLON line;
  '(suid, l) ← cut COLON l;
  '(sgid, l) ← cut COLON l;
  '(shash, l) ← cut COLON l;
  '(ssalt, slock) ← cut COLON l;
  Some (mk_user (parse_decimal suid) (copy_user_name n) (parse_hex shash) (parse_hex ssalt) (parse_decimal sgid) (parse_locked slock)).
Definition parse_user_line (line : list Z) : option User :=
  match line with
  | [] => None
  | c :: _ => if c =? 35 then None else parse_fields line
  end.

Definition add_parsed (u : User) (us : list User) : list User := if Z.of_nat (length us) <? kMaxUsers then us ++ [u] else us.
(** The loop over the lines, up to a zero byte; [n] bounds their number. *)
Fixpoint parse_lines (n : nat) (cur : list Z) (us : list User) : list User :=
  match n with
  | O => us
  | S n' =>
      match cur with
      | [] => us
      | c :: _ =>
          if c =? 0 then us
          else
            let '(line, rest) := next_line cur in
            let us' := match parse_user_line line with Some u => add_parsed u us | None => us end in
            parse_lines n' rest us'
      end
  end.
Definition parse_users (text : list Z) : list User := parse_lines (length text) text [].

(** * The service *)

Section Service.
Context {F : Type} `{Filesystem F}.

Definition set_users (us : list User) (s : users F) : users F := mk_users us (m_current_index s) (u_fs s).
Definition set_current (i : Z) (s : users F) : users F := mk_users (m_users s) i (u_fs s).
Definition m_user_count (s : users F) : Z := Z.of_nat (length (m_users s)).

(** [None]: the buffer overflows, or the file system is stuck. *)
Definition persist (with_salt : bool) : ST (users F) unit :=
  fun s => match u_fs s with
           | None => Some (tt, s)
           | Some f =>
               match save_users with_salt (m_users s) [] with
               | None => None
               | Some out => match fs_WriteFile users_path out f with Some (_, f') => Some (tt, mk_users (m_users s) (m_current_index s) (Some f')) | None => None end
               end
           end.

Fixpoint index_from (i : Z) (n : list Z) (us : list User) : Z :=
  match us with
  | [] => -1
  | u :: us' => if decide (name u = n) then i else index_from (i + 1) n us'
  end.
(** [None] for a null pointer. *)
Definition IndexOf (n : option (list Z)) (s : users F) : Z := match n with None => -1 | Some n => index_from 0 n (m_users s) end.
Definition user_at (i : Z) (s : users F) : option User := if i <? 0 then None else m_users s !! Z.to_nat i.

Definition AddUser (n password : option (list Z)) (superuser : bool) : ST (users F) bool :=
  match n with
  | None | Some [] => ret false
  | Some nm =>
      let! s := gets (fun s => s) in
      if kMaxUsers <=? m_user_count s then ret false
      else if 0 <=? IndexOf n s then ret false
      else
        let id := if superuser then 0 else u32 (1000 + m_user_count s) in
        let sl := derive_salt nm (m_user_count s) in
        let u := mk_user id (copy_user_name nm) (HashPassword password sl) sl id false in
        modify (set_users (m_users s ++ [u]));;;
        persist false;;;
        ret true
  end.

Definition DelUser (n : option (list Z)) : ST (users F) bool :=
  let! s := gets (fun s => s) in
  let idx := IndexOf n s in
  match user_at idx s with
  | None => ret false
  | Some u =>
      if uid u =? 0 then ret false
      else
        (if idx =? m_current_index s then modify (set_current (-1)) else ret tt);;;
        modify (fun s => set_users (take (Z.to_nat idx) (m_users s) ++ drop (Z.to_nat idx + 1) (m_users s)) s);;;
        persist false;;;
        ret true
  end.

Definition with_hash (h : Z) (u : User) : User := mk_user (uid u) (name u) h (salt u) (gid u) (locked u).
Definition SetPassword (n newPassword : option (list Z)) : ST (users F) bool :=
  let! s := gets (fun s => s) in
  let idx := IndexOf n s in
  match user_at idx s with
  | None => ret false
  | Some u =>
      if locked u then ret false
      else
        modify (set_users (<[Z.to_nat idx := with_hash (HashPassword newPassword (salt u)) u]> (m_users s)));;;
        persist false;;;
        ret true
  end.

Definition Authenticate (n password : option (list Z)) (s : users F) : bool :=
  match user_at (IndexOf n s) s with
  | None => false
  | Some u => if locked u then false else HashPassword password (salt u) =? pass_hash u
  end.

Definition CurrentUser (s : users F) : option User := user_at (m_current_index s) s.
(** ["(none)"] without a current user. *)
Definition CurrentUserName (s : users F) : list Z := match CurrentUser s with Some u => name u | None => [40; 110; 111; 110; 101; 41] end.
Definition IsSuperuser (s : users F) : bool := match CurrentUser s with Some u => uid u =? 0 | None => false end.
Definition UserCount (s : users F) : Z := m_user_count s.
Definition Find (n : option (list Z)) (s : users F) : option User := user_at (IndexOf n s) s.
Definition UserAt (i : Z) (s : users F) : option User := user_at i s.

(** [ReadFile] into the 4096 byte buffer: the bytes, none on failure. *)
Definition read_users (path : list Z) : ST (users F) (list Z) :=
  fun s => match u_fs s with
           | None => Some ([], s)
           | Some f => match fs_ReadFile path 4095 f with Some (r, f') => Some (default [] r, mk_users (m_users s) (m_current_index s) (Some f')) | None => None end
           end.

Definition Start : ST (users F) bool :=
  modify (fun s => mk_users [] (-1) (u_fs s));;;
  let! text := read_users users_path in
  let! text := (if decide (text = []) then read_users users_path_lower else ret text) in
  modify (set_users (parse_users text));;;
  let! s := gets (fun s => s) in
  (if decide (m_users s = []) then
     AddUser (Some s_root) (Some s_root) true;;;
     AddUser (Some s_user) (Some s_user) false;;;
     persist true
   else ret tt);;;
  ret true.
End Service.

(** * Hashes *)

Lemma lxor_range64 a b : 0 <= a < 2 ^ 64 -> 0 <= b < 2 ^ 64 -> 0 <= Z.lxor a b < 2 ^ 64.
Proof.
  intros Ha Hb. assert (0 <= Z.lxor a b) by (apply Z.lxor_nonneg; lia). split; [done|]. destruct (Z.eq_dec (Z.lxor a b) 0) as [->|]; [lia|]. apply Z.log2_lt_pow2; [lia|].
  pose proof (Z.log2_lxor a b ltac:(lia) ltac:(lia)). destruct (Z.eq_dec a 0) as [->|], (Z.eq_dec b 0) as [->|]; rewrite ?Z.lxor_0_l, ?Z.lxor_0_r in *; try (apply Z.log2_lt_pow2; lia).
  assert (Z.log2 a < 64) by (apply Z.log2_lt_pow2; lia). assert (Z.log2 b < 64) by (apply Z.log2_lt_pow2; lia). lia.
Qed.
Lemma lxor_inj_l a b c : Z.lxor a c = Z.lxor b c -> a = b.
Proof. intros E. rewrite <-(Z.lxor_0_r a), <-(Z.lxor_nilpotent c), <-Z.lxor_assoc, E, Z.lxor_assoc, Z.lxor_nilpotent. apply Z.lxor_0_r. Qed.
Lemma lxor_inj_r a b c : Z.lxor c a = Z.lxor c b -> a = b.
Proof. rewrite !(Z.lxor_comm c). apply lxor_inj_l. Qed.

(** Multiplying by the odd prime loses nothing modulo 2^64. *)
Lemma prime_mul_inj a b : 0 <= a < 2 ^ 64 -> 0 <= b < 2 ^ 64 -> u64 (a * FNV_PRIME) = u64 (b * FNV_PRIME) -> a = b.
Proof.
  intros Ha Hb E. unfold u64 in E. apply Z.cong_iff_0 in E. replace (a * FNV_PRIME - b * FNV_PRIME) with (FNV_PRIME * (a - b)) in E by lia.
  apply Z.mod_divide in E; [|done]. apply Z.gauss in E; [|vm_compute; reflexivity]. destruct E as [k E]. change (2 ^ 64) with 18446744073709551616 in *. nia.
Qed.
Lemma fnv_step_range h c : 0 <= fnv_step h c < 2 ^ 64.
Proof. apply u64_range. Qed.
Lemma fnv_step_inj h h' c : 0 <= h < 2 ^ 64 -> 0 <= h' < 2 ^ 64 -> fnv_step h c = fnv_step h' c -> h = h'.
Proof.
  intros Hh Hh' E. pose proof (u8_range c). apply prime_mul_inj in E; [|apply lxor_range64; lia..]. by apply lxor_inj_l in E.
Qed.
Lemma fnv_step_inj_byte h c c' : 0 <= h < 2 ^ 64 -> 0 <= c < 256 -> 0 <= c' < 256 -> fnv_step h c = fnv_step h c' -> c = c'.
Proof.
  intros Hh Hc Hc' E. apply prime_mul_inj in E; [|apply lxor_range64; pose proof (u8_range c); pose proof (u8_range c'); lia..]. apply lxor_inj_r in E. by rewrite !u8_small in E by lia.
Qed.
Lemma fnv_range l : forall h, 0 <= h < 2 ^ 64 -> 0 <= foldl fnv_step h l < 2 ^ 64.
Proof. induction l as [|c l IH]; intros h Hh; [done|]. apply IH, fnv_step_range. Qed.
Lemma fnv_inj l : forall h h', 0 <= h < 2 ^ 64 -> 0 <= h' < 2 ^ 64 -> foldl fnv_step h l = foldl fnv_step h' l -> h = h'.
Proof.
  induction l as [|c l IH]; intros h h' Hh Hh' E; [done|]. cbn [foldl] in E. apply IH in E; [|apply fnv_step_range..]. by apply fnv_step_inj in E.
Qed.

Lemma HashPassword_range s sl : 0 <= HashPassword s sl < 2 ^ 64.
Proof. unfold HashPassword. apply lxor_range64; [|apply u64_range]. apply fnv_range, fnv_range, lxor_range64; [lia|apply u64_range]. Qed.

Lemma hash_parts sl : exists h0 k, 0 <= h0 < 2 ^ 64 /\ forall s, HashPassword (Some s) sl = Z.lxor (foldl fnv_step (foldl fnv_step h0 s) (salt_bytes sl)) k.
Proof. eexists _, _. split; [|intros s; unfold HashPassword; reflexivity]. apply lxor_range64; [lia|apply u64_range]. Qed.

(** Two passwords that differ in one character have different hashes, with any
    salt: a password with a typing error is never accepted. *)
Lemma HashPassword_one_change p c c' q sl : 0 <= c < 256 -> 0 <= c' < 256 -> c <> c' -> HashPassword (Some (p ++ c :: q)) sl <> HashPassword (Some (p ++ c' :: q)) sl.
Proof.
  intros Hc Hc' Hne E. apply Hne. destruct (hash_parts sl) as (h0 & k & H0 & Hh). rewrite !Hh in E. apply lxor_inj_l in E. rewrite !foldl_app in E. cbn [foldl] in E. pose proof (fnv_range p h0 H0) as Hp.
  apply fnv_inj in E; [|apply fnv_range, fnv_step_range..]. apply fnv_inj in E; [|apply fnv_step_range..]. by apply (fnv_step_inj_byte (foldl fnv_step h0 p)).
Qed.

(** * Printing and parsing numbers *)

Lemma decimal_loop_parse n : forall v acc, 0 <= v < 10 ^ Z.of_nat n -> v < 2 ^ 32 ->
  parse_decimal (decimal_loop n v acc) = foldl (fun v c => if is_digit c then u32 (v * 10 + (c - 48)) else v) v acc.
Proof.
  induction n as [|n IH]; intros v acc Hv Hlt; cbn [decimal_loop]; [replace v with 0 by lia; done|]. destruct (Z.ltb_spec 0 v); [|replace v with 0 by lia; done].
  rewrite Nat2Z.inj_succ, Z.pow_succ_r in Hv by lia. rewrite IH by zdiv. cbn [foldl]. assert (Ed : is_digit (48 + v mod 10) = true) by (unfold is_digit; rewrite andb_true_iff, !Z.leb_le; zdiv). rewrite Ed. f_equal. rewrite u32_small; zdiv.
Qed.
Lemma parse_decimal_ok v : 0 <= v < 2 ^ 32 -> parse_decimal (decimal v) = v.
Proof. intros Hv. unfold decimal. destruct (Z.eqb_spec v 0) as [->|]; [done|]. rewrite decimal_loop_parse by lia. done. Qed.
Lemma decimal_loop_digits n : forall v acc, 0 <= v -> Forall (fun c => is_digit c = true) acc -> Forall (fun c => is_digit c = true) (decimal_loop n v acc).
Proof.
  induction n as [|n IH]; intros v acc Hv Ha; cbn [decimal_loop]; [done|]. destruct (0 <? v); [|done]. apply IH; [zdiv|]. constructor; [|done]. unfold is_digit. rewrite andb_true_iff, !Z.leb_le. zdiv.
Qed.
Lemma decimal_digits v : 0 <= v -> Forall (fun c => is_digit c = true) (decimal v).
Proof. intros Hv. unfold decimal. destruct (v =? 0); [by repeat constructor|]. by apply decimal_loop_digits. Qed.
Lemma decimal_loop_small n : forall k v acc, 0 <= v < 10 ^ Z.of_nat k -> (length (decimal_loop n v acc) <= k + length acc)%nat.
Proof.
  induction n as [|n IH]; intros k v acc Hv; cbn [decimal_loop]; [lia|]. destruct (Z.ltb_spec 0 v); [|lia]. destruct k as [|k]; [cbn in Hv; lia|]. rewrite Nat2Z.inj_succ, Z.pow_succ_r in Hv by lia.
  etrans; [apply (IH k); zdiv|]. cbn. lia.
Qed.
(** Ids of users stay below 10000. *)
Lemma decimal_length v : 0 <= v < 10000 -> (length (decimal v) <= 4)%nat.
Proof. intros Hv. unfold decimal. destruct (v =? 0); [cbn; lia|]. etrans; [apply (decimal_loop_small 10 4); cbn; lia|]. cbn. lia. Qed.

Lemma nibble_value n : 0 <= n < 16 -> hex_value (nibble_char n) = Some n.
Proof.
  intros Hn. unfold nibble_char, hex_value, is_digit. destruct (Z.ltb_spec n 10); repeat match goal with |- context [?a <=? ?b] => destruct (Z.leb_spec a b); try lia end; cbn [andb]; f_equal; lia.
Qed.

(** Reading the digits of [v] from the [j]-th on. *)
Lemma hex_loop_ok v k : forall j, 0 <= v < 2 ^ 64 -> 0 <= j -> j + Z.of_nat k = 16 ->
  hex_loop ((fun i => nibble_char (Z.land (Z.shiftr v (60 - 4 * i)) 0xF)) <$> seqZ j (Z.of_nat k)) (v / 2 ^ (64 - 4 * j)) = v.
Proof.
  induction k as [|k IH]; intros j Hv Hj Hk.
  - replace j with 16 by lia. rewrite Z.div_1_r. done.
  - rewrite seqZ_cons by lia. cbn [fmap list_fmap hex_loop]. change 0xF with (Z.ones 4). rewrite Z.land_ones, Z.shiftr_div_pow2 by lia. rewrite nibble_value by (apply Z.mod_pos_bound; lia).
    rewrite Z.shiftl_mul_pow2 by lia. assert (E64 : 2 ^ (64 - 4 * j) = 2 ^ (60 - 4 * j) * 16) by (replace (64 - 4 * j) with (60 - 4 * j + 4) by lia; rewrite Z.pow_add_r by lia; done). set (p := 2 ^ (60 - 4 * j)) in *.
    assert (0 < p) by (apply Z.pow_pos_nonneg; lia). rewrite E64, <-Z.div_div by lia. set (q := v / p). assert (0 <= q < 2 ^ 64) by (subst q; split; [apply Z.div_pos; lia|apply (Z.le_lt_trans _ v); [apply Z.div_le_upper_bound; nia|lia]]).
    rewrite u64_small by (change (2 ^ 4) with 16; zdiv). replace (Z.lor (q / 16 * 2 ^ 4) (q mod 2 ^ 4)) with q.
    + replace (Z.pred (Z.of_nat (S k))) with (Z.of_nat k) by lia. specialize (IH (Z.succ j) Hv ltac:(lia) ltac:(lia)). replace (64 - 4 * Z.succ j) with (60 - 4 * j) in IH by lia. fold p q in IH. exact IH.
    + change (2 ^ 4) with 16. rewrite <-(Z.shiftl_mul_pow2 _ 4), Z.lor_comm by lia.
      apply Z.bits_inj'. intros i Hi. rewrite Z.lor_spec, Z.shiftl_spec by lia. change 16 with (2 ^ 4). rewrite <-Z.land_ones, Z.land_spec by lia. destruct (Z.ltb_spec i 4).
      * rewrite Z.ones_spec_low, andb_true_r, (Z.testbit_neg_r _ (i - 4)), orb_false_r by lia. done.
      * rewrite Z.ones_spec_high, andb_false_r by lia. rewrite Z.div_pow2_bits by lia. cbn. f_equal. lia.
Qed.
Lemma parse_hex_ok v : 0 <= v < 2 ^ 64 -> parse_hex (48 :: 120 :: hex16 v) = v.
Proof. intros Hv. unfold parse_hex. cbn [skip_0x Z.eqb Pos.eqb andb orb]. pose proof (hex_loop_ok v 16 0 Hv ltac:(lia) ltac:(lia)) as H. rewrite Z.div_small in H by (change (64 - 4 * 0) with 64; lia). exact H. Qed.
Lemma hex16_length v : length (hex16 v) = 16%nat.
Proof. done. Qed.
Lemma hex16_chars v : Forall (fun c => 48 <= c <= 57 \/ 97 <= c <= 102) (hex16 v).
Proof.
  unfold hex16. apply Forall_fmap, Forall_forall. intros i _. cbn. change 15 with (Z.ones 4). rewrite Z.land_ones by lia. pose proof (Z.mod_pos_bound (Z.shiftr v (60 - 4 * i)) (2 ^ 4) ltac:(lia)) as Hb. change (2 ^ 4) with 16 in *.
  unfold nibble_char. case_zb; lia.
Qed.

(** * The file *)

(** What a save writes for one user, when there is room. *)
Definition fields (with_salt : bool) (u : User) : list (list Z) :=
  [name u; decimal (uid u); decimal (gid u); 48 :: 120 :: hex16 (pass_hash u)] ++ (if with_salt then [48 :: 120 :: hex16 (salt u)] else []) ++ [[if locked u then 49 else 48]].
(** Fields with colons between them. *)
Fixpoint join (l : list (list Z)) : list Z :=
  match l with
  | [] => []
  | [f] => f
  | f :: l' => f ++ COLON :: join l'
  end.
Definition line_of (with_salt : bool) (u : User) : list Z := join (fields with_salt u).
Definition text_of (with_salt : bool) (us : list User) : list Z := concat ((fun u => line_of with_salt u ++ [NL]) <$> us).

(** A name that the file can hold. *)
Definition name_ok (n : list Z) : Prop := n <> [] /\ (length n <= 31)%nat /\ head n <> Some 35 /\ Forall (fun c => c <> 0 /\ c <> NL /\ c <> COLON) n.
Definition user_ok (u : User) : Prop := name_ok (name u) /\ 0 <= uid u < 2 ^ 32 /\ 0 <= gid u < 2 ^ 32 /\ 0 <= pass_hash u < 2 ^ 64 /\ 0 <= salt u < 2 ^ 64.

Section Saving.
Lemma put_ok c out : (length out < 1024)%nat -> put c out = Some (out ++ [c]).
Proof. intros Hl. unfold put, OUT_SIZE. by destruct (Nat.ltb_spec (length out) 1024); [|lia]. Qed.
Lemma puts_ok l out : (length out + length l <= 1023)%nat -> puts l out = out ++ l.
Proof. intros Hl. unfold puts, OUT_SIZE. rewrite take_ge; [done|]. lia. Qed.

Lemma save_user_fits ws u out : (length out + length (line_of ws u) < 1024)%nat -> save_user ws u out = Some (out ++ line_of ws u ++ [NL]).
Proof.
  unfold save_user, line_of, fields. intros Hl. destruct ws; cbn [join app] in *; repeat (rewrite length_app in Hl || cbn [length] in Hl); rewrite ?hex16_length in Hl;
    repeat first [rewrite puts_ok by (rewrite ?length_app, ?hex16_length; cbn [length]; lia) | rewrite put_ok by (rewrite ?length_app, ?hex16_length; cbn [length]; lia); cbn [mbind option_bind]];
    f_equal; repeat (rewrite <-app_assoc; cbn [app]); done.
Qed.
Lemma save_users_fits ws us : forall out, (length out + length (text_of ws us) <= 1024)%nat -> save_users ws us out = Some (out ++ text_of ws us).
Proof.
  induction us as [|u us IH]; intros out Hl; cbn [save_users]; [unfold text_of; cbn; by rewrite app_nil_r|]. unfold text_of in *. cbn [fmap list_fmap concat] in *. rewrite !length_app in Hl. cbn [length] in Hl.
  rewrite save_user_fits by lia. cbn [mbind option_bind]. rewrite IH by (rewrite !length_app; cbn [length]; lia). by rewrite <-!app_assoc.
Qed.

Definition short_user (u : User) : Prop := (length (name u) <= 31)%nat /\ 0 <= uid u < 10000 /\ 0 <= gid u < 10000.
Lemma line_length u : short_user u -> (length (line_of false u) <= 62)%nat.
Proof.
  intros (Hn & Hu & Hg). unfold line_of, fields. cbn [join app]. pose proof (decimal_length (uid u) Hu). pose proof (decimal_length (gid u) Hg). repeat (rewrite length_app || cbn [length]). rewrite hex16_length. lia.
Qed.
Lemma text_length us : Forall short_user us -> (length (text_of false us) <= 63 * length us)%nat.
Proof.
  induction 1 as [|u us Hu _ IH]; [done|]. unfold text_of in *. cbn [fmap list_fmap concat length]. rewrite !length_app. cbn [length]. pose proof (line_length u Hu). lia.
Qed.

(** The buffer has room for a full table. *)
Lemma save_users_room us : Forall short_user us -> (length us <= 16)%nat -> save_users false us [] = Some (text_of false us).
Proof. intros Hu Hl. apply (save_users_fits false us []). pose proof (text_length us Hu). cbn. lia. Qed.
End Saving.

(** ** Reading back *)

Section Reading.
Definition plain (l : list Z) : Prop := Forall (fun c => c <> 0 /\ c <> NL /\ c <> COLON) l.
Lemma digits_plain l : Forall (fun c => is_digit c = true) l -> plain l.
Proof. intros H. eapply Forall_impl; [exact H|]. intros c Hc. unfold is_digit, NL, COLON in *. apply andb_true_iff in Hc as [?%Z.leb_le ?%Z.leb_le]. lia. Qed.
Lemma hex_plain v : plain (48 :: 120 :: hex16 v).
Proof. constructor; [done|]. constructor; [done|]. eapply Forall_impl; [apply hex16_chars|]. unfold NL, COLON. lia. Qed.
Lemma fields_plain ws u : user_ok u -> Forall plain (fields ws u).
Proof.
  intros ((_ & _ & _ & Hn) & Hu & Hg & _). unfold fields. apply Forall_app. split; [|apply Forall_app; split].
  - apply Forall_cons; split; [done|]. apply Forall_cons; split; [apply digits_plain, decimal_digits, Hu|]. apply Forall_cons; split; [apply digits_plain, decimal_digits, Hg|]. apply Forall_cons; split; [apply hex_plain|constructor].
  - destruct ws; [|constructor]. apply Forall_cons; split; [apply hex_plain|constructor].
  - apply Forall_cons; split; [|constructor]. constructor; [by destruct (locked u)|constructor].
Qed.
Lemma cut_field f l : plain f -> cut COLON (f ++ COLON :: l) = Some (f, l).
Proof. intros Hf. apply cut_app. eapply Forall_impl; [exact Hf|]. by intros c (_ & _ & ?). Qed.
Lemma join_plain l : Forall plain l -> Forall (fun c => c <> 0 /\ c <> NL) (join l).
Proof.
  assert (Hw : forall f, plain f -> Forall (fun c => c <> 0 /\ c <> NL) f) by (intros f Hf; eapply Forall_impl; [exact Hf|]; naive_solver).
  induction 1 as [|f l Hf Hl IH]; [constructor|]. destruct l as [|g l]; [by apply Hw|]. cbn [join]. apply Forall_app. split; [by apply Hw|]. constructor; [done|apply IH].
Qed.

Lemma parse_line_named u l : name_ok (name u) -> parse_user_line (name u ++ l) = parse_fields (name u ++ l).
Proof. intros (Hne & _ & Hhd & _). unfold parse_user_line. destruct (name u) as [|c n]; [done|]. cbn [app]. destruct (Z.eqb_spec c 35) as [->|]; done. Qed.
Lemma line_salted u : line_of true u = name u ++ COLON :: decimal (uid u) ++ COLON :: decimal (gid u) ++ COLON :: (48 :: 120 :: hex16 (pass_hash u)) ++ COLON :: (48 :: 120 :: hex16 (salt u)) ++ COLON :: [if locked u then 49 else 48].
Proof. done. Qed.
Lemma line_unsalted u : line_of false u = name u ++ COLON :: decimal (uid u) ++ COLON :: decimal (gid u) ++ COLON :: (48 :: 120 :: hex16 (pass_hash u)) ++ COLON :: [if locked u then 49 else 48].
Proof. done. Qed.

Lemma parse_line_ok u : user_ok u -> parse_user_line (line_of true u) = Some u.
Proof.
  intros Hok. pose proof Hok as (Hn & Hu & Hg & Hh & Hs). rewrite line_salted, parse_line_named by done. unfold parse_fields. rewrite cut_field by apply Hn. cbn [mbind option_bind].
  rewrite cut_field by apply digits_plain, decimal_digits, Hu. cbn [mbind option_bind]. rewrite cut_field by apply digits_plain, decimal_digits, Hg. cbn [mbind option_bind].
  rewrite cut_field by apply hex_plain. cbn [mbind option_bind]. rewrite cut_field by apply hex_plain. cbn [mbind option_bind]. f_equal. unfold copy_user_name. change (Z.to_nat (NAME_SIZE - 1)) with 31%nat. rewrite take_ge by apply Hn.
  rewrite !parse_decimal_ok, !parse_hex_ok by done. destruct u as [? ? ? ? ? []]; done.
Qed.
(** A line without a salt has one field too few. *)
Lemma parse_line_unsalted u : user_ok u -> parse_user_line (line_of false u) = None.
Proof.
  intros Hok. pose proof Hok as (Hn & Hu & Hg & Hh & Hs). rewrite line_unsalted, parse_line_named by done. unfold parse_fields. rewrite cut_field by apply Hn. cbn [mbind option_bind].
  rewrite cut_field by apply digits_plain, decimal_digits, Hu. cbn [mbind option_bind]. rewrite cut_field by apply digits_plain, decimal_digits, Hg. cbn [mbind option_bind].
  rewrite cut_field by apply hex_plain. cbn [mbind option_bind]. by destruct (locked u).
Qed.

Lemma parse_lines_cons n ws u rest us : user_ok u ->
  parse_lines (S n) (line_of ws u ++ [NL] ++ rest) us = parse_lines n rest (match parse_user_line (line_of ws u) with Some u => add_parsed u us | None => us end).
Proof.
  intros Hok. pose proof (join_plain _ (fields_plain ws u Hok)) as Hp. fold (line_of ws u) in Hp. cbn [parse_lines]. assert (Hnl : next_line (line_of ws u ++ [NL] ++ rest) = (line_of ws u, rest)).
  { unfold next_line. cbn [app]. rewrite cut_app by (eapply Forall_impl; [exact Hp|]; by intros c [_ ?]). by rewrite until_all by (eapply Forall_impl; [exact Hp|]; by intros c [? _]). }
  destruct Hok as ((Hne & _ & _ & Hn) & _). unfold line_of, fields in *. cbn [join app] in *. destruct (name u) as [|c nm]; [done|]. cbn [app] in *. apply Forall_cons in Hn as [(Hc & _) _]. by rewrite (proj2 (Z.eqb_neq c 0) Hc), Hnl.
Qed.
Lemma text_cons ws u us : text_of ws (u :: us) = line_of ws u ++ [NL] ++ text_of ws us.
Proof. unfold text_of. cbn [fmap list_fmap concat]. by rewrite <-app_assoc. Qed.

Lemma parse_lines_salted us : forall n rest us0, Forall user_ok us -> (length us <= n)%nat -> (length us0 + length us <= 16)%nat ->
  parse_lines n (text_of true us ++ rest) us0 = parse_lines (n - length us) rest (us0 ++ us).
Proof.
  induction us as [|u us IH]; intros n rest us0 Hok Hn Hl; [cbn; by rewrite Nat.sub_0_r, app_nil_r|]. apply Forall_cons in Hok as [Hu Hus]. destruct n as [|n]; [cbn in Hn; lia|]. cbn [length] in *.
  rewrite text_cons, <-!app_assoc, parse_lines_cons, parse_line_ok by done. unfold add_parsed, kMaxUsers. destruct (Z.ltb_spec (Z.of_nat (length us0)) 16); [|lia]. rewrite IH; [|done|lia|rewrite length_app; cbn; lia]. by rewrite <-app_assoc.
Qed.
Lemma parse_lines_unsalted us : forall n us0, Forall user_ok us -> parse_lines n (text_of false us) us0 = us0.
Proof.
  induction us as [|u us IH]; intros n us0 Hok; [by destruct n|]. apply Forall_cons in Hok as [Hu Hus]. destruct n as [|n]; [done|].
  rewrite text_cons, parse_lines_cons, parse_line_unsalted by done. by apply IH.
Qed.
Lemma text_lines ws us : Forall user_ok us -> (length us <= length (text_of ws us))%nat.
Proof. induction us as [|u us IH]; intros Hok; [cbn; lia|]. apply Forall_cons in Hok as [_ Hus]. rewrite text_cons, !length_app. cbn [length]. specialize (IH Hus). lia. Qed.
End Reading.

(** * Properties of the service *)

Section Properties.
Context {F : Type} `{Filesystem F}.
Implicit Types (s : users F).

Lemma index_from_spec n us : forall i, 0 <= i ->
  (index_from i n us = -1 /\ Forall (fun u => name u <> n) us) \/
  (exists k u, us !! k = Some u /\ name u = n /\ index_from i n us = i + Z.of_nat k /\ forall j v, us !! j = Some v -> (j < k)%nat -> name v <> n).
Proof.
  induction us as [|u us IH]; intros i Hi; cbn [index_from]; [by left|]. destruct (decide (name u = n)) as [E|Hne].
  - right. exists 0%nat, u. split_and!; [done..|lia|]. intros j v _ Hj. lia.
  - destruct (IH (i + 1)) as [[-> Hf]|(k & v & Hk & En & -> & Hmin)]; [lia|left; split; [done|by constructor]|]. right. exists (S k), v. split_and!; [done..|lia|].
    intros [|j] w Hw Hj; [by injection Hw as <-|]. apply (Hmin j w Hw). lia.
Qed.
(** The user found is the first with the name. *)
Lemma user_at_index s n : match user_at (IndexOf (Some n) s) s with
  | None => Forall (fun u => name u <> n) (m_users s) /\ IndexOf (Some n) s = -1
  | Some u => exists k, m_users s !! k = Some u /\ name u = n /\ IndexOf (Some n) s = Z.of_nat k
  end.
Proof.
  unfold user_at, IndexOf. destruct (index_from_spec n (m_users s) 0 ltac:(lia)) as [[-> Hf]|(k & u & Hk & En & -> & _)]; [done|]. rewrite Z.add_0_l. destruct (Z.ltb_spec (Z.of_nat k) 0); [lia|]. rewrite Nat2Z.id, Hk. eauto.
Qed.

(** The fields have the ranges of their types and the ids those that the
    service gives, at most four digits (a file can hold longer ones, see
    [save_users_overflow]); at most sixteen users are in use, the index of the
    session is -1 or one of the array, which after a deletion need not be that
    of a user in use, and there is a superuser. *)
Definition typed_user (u : User) : Prop := short_user u /\ 0 <= pass_hash u < 2 ^ 64 /\ 0 <= salt u < 2 ^ 64.
Record accounts_ok (s : users F) : Prop := {
  ac_count : (length (m_users s) <= 16)%nat;
  ac_types : Forall typed_user (m_users s);
  ac_current : -1 <= m_current_index s < 16;
  ac_root : exists u, u ∈ m_users s /\ uid u = 0;
}.

(** What the service relies on: writing the file returns. *)
Context (Hwrite : forall f out, exists n f', fs_WriteFile users_path out f = Some (n, f')).

Lemma persist_ok s : Forall typed_user (m_users s) -> (length (m_users s) <= 16)%nat -> exists s', persist false s = Some (tt, s') /\ m_users s' = m_users s /\ m_current_index s' = m_current_index s.
Proof.
  intros Ht Hl. unfold persist. destruct (u_fs s) as [f|]; [|by exists s]. rewrite save_users_room; [|eapply Forall_impl; [exact Ht|]; by intros u [? _]|done].
  destruct (Hwrite f (text_of false (m_users s))) as (n & f' & ->). eexists. by split.
Qed.

Lemma derive_salt_range n c : 0 <= derive_salt n c < 2 ^ 64.
Proof.
  apply lxor_range64; [|apply u64_range]. assert (Hl : forall l h, 0 <= h < 2 ^ 64 -> 0 <= foldl salt_step h l < 2 ^ 64) by (induction l as [|x l IH]; intros h Hh; [done|]; apply IH, u64_range). apply Hl. done.
Qed.
Lemma typed_new n p (su : bool) c k : 0 <= c < 10000 -> typed_user (mk_user (if su then 0 else u32 c) (copy_user_name n) (HashPassword p (derive_salt n k)) (derive_salt n k) (if su then 0 else u32 c) false).
Proof.
  intros Hc. unfold typed_user, short_user. cbn [name uid gid pass_hash salt]. rewrite u32_small by lia. split; [|split; [apply HashPassword_range|apply derive_salt_range]]. split; [|destruct su; lia].
  unfold copy_user_name. rewrite length_take. change (Z.to_nat (NAME_SIZE - 1)) with 31%nat. lia.
Qed.


Lemma DelUser_ok n s : Forall typed_user (m_users s) -> (length (m_users s) <= 16)%nat ->
  exists b s', DelUser n s = Some (b, s') /\
    if b : bool then exists a u c, m_users s = a ++ u :: c /\ m_users s' = a ++ c /\ Some (name u) = n /\ uid u <> 0 /\ IndexOf n s = Z.of_nat (length a) /\
      m_current_index s' = (if m_current_index s =? Z.of_nat (length a) then -1 else m_current_index s) else s' = s.
Proof.
  intros Hok Hl. unfold DelUser. rewrite gets_step. cbv beta. destruct n as [n|]; [|by exists false, s]. pose proof (user_at_index s n) as Hi. destruct (user_at (IndexOf (Some n) s) s) as [u|]; [|by exists false, s].
  destruct Hi as (k & Hk & En & Ek). rewrite Ek. destruct (Z.eqb_spec (uid u) 0); [by exists false, s|]. rewrite Nat2Z.id. set (a := take k (m_users s)). set (c := drop (k + 1) (m_users s)).
  assert (Esp : m_users s = a ++ u :: c) by (subst a c; rewrite Nat.add_1_r; by rewrite take_drop_middle). assert (Ela : length a = k) by (subst a; rewrite length_take; apply lookup_lt_Some in Hk; lia).
  set (i := if m_current_index s =? Z.of_nat (length a) then -1 else m_current_index s).
  assert (Hcur : (if Z.of_nat k =? m_current_index s then modify (set_current (-1)) else ret tt) s = Some (tt, set_current i s)).
  { subst i. rewrite Ela, (Z.eqb_sym (Z.of_nat k)). destruct (m_current_index s =? Z.of_nat k); [done|]. by destruct s. }
  rewrite (bind_step _ _ _ _ _ Hcur), modify_step. cbn [m_users set_current]. fold a c. rewrite Esp in Hok, Hl. rewrite length_app in Hl. cbn in Hl. apply Forall_app in Hok as [Ha Hc]. apply Forall_cons in Hc as [_ Hc].
  destruct (persist_ok (set_users (a ++ c) (set_current i s))) as (s' & E & Eu & Ec); [by apply Forall_app|cbn; rewrite length_app; lia|]. rewrite (bind_step _ _ _ _ _ E). exists true, s'. split; [done|]. exists a, u, c. split_and!; try done; [by rewrite En|by rewrite Ela].
Qed.

Lemma SetPassword_ok n p s : Forall typed_user (m_users s) -> (length (m_users s) <= 16)%nat ->
  exists b s', SetPassword n p s = Some (b, s') /\ m_current_index s' = m_current_index s /\
    if b : bool then exists k u, n = Some (name u) /\ m_users s !! k = Some u /\ IndexOf n s = Z.of_nat k /\ locked u = false /\ m_users s' = <[k := with_hash (HashPassword p (salt u)) u]> (m_users s) else s' = s.
Proof.
  intros Hok Hl. unfold SetPassword. rewrite gets_step. cbv beta. destruct n as [n|]; [|by exists false, s]. pose proof (user_at_index s n) as Hi. destruct (user_at (IndexOf (Some n) s) s) as [u|]; [|by exists false, s].
  destruct Hi as (k & Hk & En & Ei). destruct (locked u) eqn:El; [by exists false, s|]. rewrite modify_step, Ei, Nat2Z.id. set (u' := with_hash _ u).
  destruct (persist_ok (set_users (<[k := u']> (m_users s)) s)) as (s' & E & Eu & Ec).
  - cbn. apply Forall_insert; [done|]. rewrite Forall_lookup in Hok. destruct (Hok _ _ Hk) as (? & _ & ?). split; [done|]. split; [apply HashPassword_range|done].
  - cbn. by rewrite length_insert.
  - rewrite (bind_step _ _ _ _ _ E). exists true, s'. split; [done|]. split; [done|]. exists k, u. split_and!; try done. by rewrite En.
Qed.






(** ** Passwords *)

Lemma index_from_names n us us' : name <$> us = name <$> us' -> forall i, index_from i n us = index_from i n us'.
Proof. revert us'. induction us as [|u us IH]; intros [|u' us'] E i; try done. injection E as E1 E2. cbn [index_from]. rewrite E1. destruct (decide _); [done|by apply IH]. Qed.
Lemma hashed_names (k : nat) h u (us : list User) : us !! k = Some u -> name <$> <[k := with_hash h u]> us = name <$> us.
Proof. intros Hk. rewrite list_fmap_insert. apply list_insert_id. by rewrite list_lookup_fmap, Hk. Qed.

(** C30: After a password is set it is accepted, a password with one character
    changed is not, and nobody else's password is affected. *)
Theorem SetPassword_authenticates n p s : Forall typed_user (m_users s) -> (length (m_users s) <= 16)%nat -> Find (Some n) s <> None -> (forall u, Find (Some n) s = Some u -> locked u = false) ->
  exists s', SetPassword (Some n) (Some p) s = Some (true, s') /\ Authenticate (Some n) (Some p) s' = true /\
    (forall a c c' b, p = a ++ c :: b -> c <> c' -> 0 <= c < 256 -> 0 <= c' < 256 -> Authenticate (Some n) (Some (a ++ c' :: b)) s' = false) /\
    (forall n' q, n' <> n -> Authenticate (Some n') q s' = Authenticate (Some n') q s).
Proof.
  intros Ht Hl Hf Hun. pose proof (user_at_index s n) as Hi. unfold Find in Hf, Hun. destruct (user_at (IndexOf (Some n) s) s) as [u|] eqn:Eu; [|done]. specialize (Hun u eq_refl). destruct Hi as (k & Hk & En & Ek).
  destruct (SetPassword_ok (Some n) (Some p) s Ht Hl) as (b & s' & E & _ & Hb). assert (b = true) as ->.
  { unfold SetPassword in E. rewrite gets_step in E. cbv beta in E. rewrite Eu, Hun, modify_step in E. unfold bind in E. destruct (persist false _) as [[? ?]|]; [|done]. by injection E as <- _. }
  destruct Hb as (k' & u' & E1 & Hk' & Ei' & _ & Es'). assert (k' = k) as -> by lia. rewrite Hk in Hk'. injection Hk' as <-. exists s'. split; [done|].
  assert (Hidx : forall n', IndexOf (Some n') s' = IndexOf (Some n') s) by (intros n'; apply index_from_names; rewrite Es'; by apply hashed_names).
  assert (Hme : user_at (IndexOf (Some n) s') s' = Some (with_hash (HashPassword (Some p) (salt u)) u)).
  { rewrite Hidx, Ek. unfold user_at. destruct (Z.ltb_spec (Z.of_nat k) 0); [lia|]. rewrite Nat2Z.id, Es'. apply list_lookup_insert_eq. by eapply lookup_lt_Some. }
  unfold Authenticate at 1 2. rewrite Hme. cbn [locked with_hash salt pass_hash]. rewrite Hun. split; [apply Z.eqb_refl|]. split.
  - intros a c c' b -> Hne Hc Hc'. apply Z.eqb_neq. by apply HashPassword_one_change.
  - intros n' q Hne. unfold Authenticate. rewrite Hidx. pose proof (user_at_index s n') as Hi'. unfold user_at in *. destruct (Z.ltb_spec (IndexOf (Some n') s) 0); [done|]. rewrite Es'. destruct (decide (Z.to_nat (IndexOf (Some n') s) = k)) as [E2|]; [|by rewrite list_lookup_insert_ne].
    rewrite E2, Hk in Hi'. destruct Hi' as (? & _ & ? & _). congruence.
Qed.

(** ** The session *)

(** Deleting a user before the current one in the table moves the session to
    the next user. *)
Theorem DelUser_switches_session a u b me next c s : m_users s = a ++ u :: b ++ me :: next :: c -> m_current_index s = Z.of_nat (length (a ++ u :: b)) ->
  Forall typed_user (m_users s) -> (length (m_users s) <= 16)%nat -> Forall (fun v => name v <> name u) a -> uid u <> 0 ->
  exists s', CurrentUser s = Some me /\ DelUser (Some (name u)) s = Some (true, s') /\ CurrentUser s' = Some next.
Proof.
  intros Es Ec Ht Hl Hne Hu. assert (Hcur : CurrentUser s = Some me).
  { unfold CurrentUser, user_at. rewrite Ec. destruct (Z.ltb_spec (Z.of_nat (length (a ++ u :: b))) 0); [lia|]. rewrite Nat2Z.id, Es. change (u :: b ++ me :: next :: c) with ((u :: b) ++ me :: next :: c). rewrite app_assoc. by apply list_lookup_middle. }
  assert (Hidx : IndexOf (Some (name u)) s = Z.of_nat (length a)).
  { unfold IndexOf. destruct (index_from_spec (name u) (m_users s) 0 ltac:(lia)) as [[_ Hf]|(k & v & Hk & Ev & -> & Hmin)].
    - rewrite Es in Hf. apply Forall_app in Hf as [_ Hf]. by apply Forall_cons in Hf as [? _].
    - rewrite Z.add_0_l. f_equal. assert (Ha : m_users s !! length a = Some u) by (rewrite Es; by apply list_lookup_middle). destruct (Nat.lt_trichotomy k (length a)) as [Hlt|[->|Hgt]]; [|done|by destruct (Hmin _ _ Ha Hgt)].
      rewrite Es, lookup_app_l in Hk by done. rewrite Forall_lookup in Hne. by destruct (Hne _ _ Hk). }
  destruct (DelUser_ok (Some (name u)) s Ht Hl) as (r & s' & E & Hb). assert (r = true) as ->.
  { unfold DelUser in E. rewrite gets_step in E. cbv beta in E. unfold user_at in E. rewrite Hidx in E. destruct (Z.ltb_spec (Z.of_nat (length a)) 0); [lia|]. rewrite Nat2Z.id, Es, list_lookup_middle in E by done.
    rewrite (proj2 (Z.eqb_neq (uid u) 0) Hu) in E. destruct r; [done|]. destruct (Z.of_nat (length a) =? m_current_index s); unfold bind, modify in E; cbn in E; destruct (persist false _) as [[? ?]|]; done. }
  exists s'. split; [done|]. split; [done|]. destruct Hb as (a' & u' & c' & Es' & Eu' & _ & _ & Ela & Ei). rewrite Es in Es'. apply app_inj_1 in Es' as [<- Es']; [|lia]. injection Es' as <- <-.
  rewrite Ec in Ei. destruct (Z.eqb_spec (Z.of_nat (length (a ++ u :: b))) (Z.of_nat (length a))) as [E0|_]; [rewrite length_app in E0; cbn in E0; lia|].
  unfold CurrentUser, user_at. rewrite Ei. destruct (Z.ltb_spec (Z.of_nat (length (a ++ u :: b))) 0); [lia|]. rewrite Nat2Z.id, Eu', app_assoc. rewrite lookup_app_r by (rewrite !length_app; cbn; lia). rewrite !length_app. cbn [length]. by replace (length a + S (length b) - (length a + length b))%nat with 1%nat by lia.
Qed.
End Properties.

(** ** Restarting *)

Definition default_root : User := let sl := derive_salt s_root 0 in mk_user 0 s_root (HashPassword (Some s_root) sl) sl 0 false.
Definition default_user : User := let sl := derive_salt s_user 1 in mk_user 1001 s_user (HashPassword (Some s_user) sl) sl 1001 false.
Definition default_users : list User := [default_root; default_user].

Lemma parse_users_ok us vs : Forall user_ok us -> Forall user_ok vs -> (length us <= 16)%nat -> parse_users (text_of true us ++ text_of false vs) = us.
Proof.
  intros Hu Hv Hl. unfold parse_users. rewrite parse_lines_salted; [|done| |done]; [by rewrite parse_lines_unsalted|]. rewrite length_app. pose proof (text_lines true us Hu). lia.
Qed.

Section Restart.
Context {F : Type} `{Filesystem F}.
Implicit Types (s : users F).

(** Start with what the file holds. *)
Lemma Start_read s f f1 text : u_fs s = Some f -> fs_ReadFile users_path 4095 f = Some (Some text, f1) -> text <> [] ->
  Start s = ((if decide (parse_users text = []) then AddUser (Some s_root) (Some s_root) true;;; AddUser (Some s_user) (Some s_user) false;;; persist true else ret tt);;; ret true) (mk_users (parse_users text) (-1) (Some f1)).
Proof.
  intros Hf Hr Hne. unfold Start. rewrite modify_step. rewrite (bind_step _ _ _ text (mk_users [] (-1) (Some f1))) by (unfold read_users; cbn; by rewrite Hf, Hr). rewrite (decide_False (P := text = [])) by done. done.
Qed.

(** What a save with salts wrote, [Start] reads back, whatever saves without
    salts follow it in the file. *)
Theorem Start_roundtrip s f f1 us vs out : u_fs s = Some f -> us <> [] -> (length us <= 16)%nat -> Forall user_ok us -> Forall user_ok vs ->
  (length (text_of true us) <= 1024)%nat -> save_users true us [] = Some out -> fs_ReadFile users_path 4095 f = Some (Some (out ++ text_of false vs), f1) ->
  Start s = Some (true, mk_users us (-1) (Some f1)).
Proof.
  intros Hf Hne Hl Hu Hv Hfit Hsave Hr. rewrite (save_users_fits true us []) in Hsave by (cbn; lia). injection Hsave as <-. cbn [app] in Hr.
  rewrite (Start_read s f f1 (text_of true us ++ text_of false vs)); [|done|done|destruct us as [|u us]; [done|]; rewrite text_cons; by destruct (line_of true u)].
  rewrite parse_users_ok by done. by rewrite decide_False.
Qed.

(** After a start without users, those of the system. *)
Lemma default_ok : Forall user_ok default_users.
Proof.
  assert (Hp : forall l, Forall (fun c => 97 <= c <= 122) l -> Forall (fun c => c <> 0 /\ c <> NL /\ c <> COLON) l) by (intros l Hl; eapply Forall_impl; [exact Hl|]; unfold NL, COLON; lia).
  assert (Hn : name_ok s_root /\ name_ok s_user) by (split; (split; [done|]; split; [cbn; lia|]; split; [done|]; apply Hp; unfold s_root, s_user; repeat (apply Forall_cons; split; [lia|]); apply Forall_nil; exact I)). destruct Hn.
  assert (Hu : forall i n p sl, name_ok n -> 0 <= i < 2 ^ 32 -> 0 <= sl < 2 ^ 64 -> user_ok (mk_user i n (HashPassword p sl) sl i false)) by (intros; split_and!; cbn [name uid gid pass_hash salt]; try done; try lia; apply HashPassword_range).
  unfold default_users, default_root, default_user. cbv zeta. apply Forall_cons. split; [apply Hu; [done|lia|apply derive_salt_range]|]. apply Forall_singleton. apply Hu; [done|lia|apply derive_salt_range].
Qed.
Context (Hwrite : forall f out, exists n f', fs_WriteFile users_path out f = Some (n, f')).

Lemma Start_defaults (s : users F) : m_users s = [] -> exists s', ((AddUser (Some s_root) (Some s_root) true;;; AddUser (Some s_user) (Some s_user) false;;; persist true);;; ret true) s = Some (true, s') /\ m_users s' = default_users.
Proof.
  intros Hs. assert (Hadd : forall n p su t u, m_users t = u -> (length u <= 1)%nat -> Forall typed_user u -> n <> [] -> index_from 0 n u = -1 ->
    exists t', AddUser (Some n) p su t = Some (true, t') /\ m_users t' = u ++ [let sl := derive_salt n (Z.of_nat (length u)) in let i := if su : bool then 0 else u32 (1000 + Z.of_nat (length u)) in mk_user i (copy_user_name n) (HashPassword p sl) sl i false]).
  { intros [|c n] p su t u <- Hl Ht Hn Hi; [done|]. unfold AddUser. rewrite gets_step. cbv beta. unfold kMaxUsers, m_user_count. destruct (Z.leb_spec 16 (Z.of_nat (length (m_users t)))); [lia|]. unfold IndexOf. rewrite Hi. cbn [Z.leb Z.compare].
    rewrite modify_step. set (v := mk_user _ _ _ _ _ _). destruct (persist_ok Hwrite (set_users (m_users t ++ [v]) t)) as (t' & E & Eu & _).
    - cbn. apply Forall_app. split; [done|]. apply Forall_singleton, typed_new. lia.
    - cbn. rewrite length_app. cbn. lia.
    - rewrite (bind_step _ _ _ _ _ E). exists t'. by split. }
  rewrite bind_assoc. destruct (Hadd s_root (Some s_root) true s [] Hs) as (s1 & E1 & Eu1); [cbn; lia|done..|]. rewrite (bind_step _ _ _ _ _ E1), bind_assoc.
  assert (Et : Forall typed_user [default_root]) by (apply Forall_singleton, (typed_new s_root (Some s_root) true 0 0); lia).
  destruct (Hadd s_user (Some s_user) false s1 [default_root] Eu1) as (s2 & E2 & Eu2); [cbn; lia|done|done|vm_compute; reflexivity|]. rewrite (bind_step _ _ _ _ _ E2). change (m_users s2 = default_users) in Eu2.
  assert (Hp : exists s3, persist true s2 = Some (tt, s3) /\ m_users s3 = m_users s2).
  { unfold persist. destruct (u_fs s2) as [f|]; [|by exists s2]. rewrite Eu2, (save_users_fits true default_users []) by (vm_compute; lia). destruct (Hwrite f ([] ++ text_of true default_users)) as (n & f' & ->). eexists. by split. }
  destruct Hp as (s3 & Ep & Eu3). rewrite (bind_step _ _ _ _ _ Ep). exists s3. split; [done|]. by rewrite Eu3.
Qed.

(** A new password of root is gone after a restart, and "root" is accepted
    again: the file then holds lines without salts, which [Start] skips, after
    the lines of the first start if writing appends. *)
Theorem SetPassword_forgotten s f p old : u_fs s = Some f -> Forall user_ok (m_users s) -> Forall typed_user (m_users s) -> (length (m_users s) <= 16)%nat -> Find (Some s_root) s <> None -> (forall u, Find (Some s_root) s = Some u -> locked u = false) ->
  old = [] \/ old = text_of true default_users ->
  (forall out, out <> [] -> (length (old ++ out) <= 4095)%nat -> exists n f1 f2, fs_WriteFile users_path out f = Some (n, f1) /\ fs_ReadFile users_path 4095 f1 = Some (Some (old ++ out), f2)) ->
  exists s1 s2, SetPassword (Some s_root) (Some p) s = Some (true, s1) /\ Start s1 = Some (true, s2) /\ Authenticate (Some s_root) (Some s_root) s2 = true.
Proof.
  intros Hf Hok Ht Hl Hr Hun Hold Hfs. pose proof (user_at_index s s_root) as Hi. unfold Find in Hr, Hun. destruct (user_at (IndexOf (Some s_root) s) s) as [u|] eqn:Eu; [|done]. specialize (Hun u eq_refl). destruct Hi as (k & Hk & En & Ek).
  set (us := <[k := with_hash (HashPassword (Some p) (salt u)) u]> (m_users s)). assert (Hus : Forall user_ok us).
  { apply Forall_insert; [done|]. rewrite Forall_lookup in Hok. destruct (Hok _ _ Hk) as (? & ? & ? & _ & ?). unfold user_ok, with_hash. cbn. split_and!; try done; apply HashPassword_range || lia. }
  assert (Hsv : save_users false us [] = Some (text_of false us)). { apply save_users_room; [|subst us; by rewrite length_insert]. apply Forall_insert; [eapply Forall_impl; [exact Ht|]; by intros v [? _]|]. rewrite Forall_lookup in Ht. apply (Ht _ _ Hk). }
  assert (Hsh : Forall short_user us) by (apply Forall_insert; [eapply Forall_impl; [exact Ht|]; by intros v [? _]|]; rewrite Forall_lookup in Ht; apply (Ht _ _ Hk)).
  assert (Hnil : text_of false us <> []).
  { destruct us as [|v us'] eqn:E0; [|rewrite text_cons; intros E; apply app_eq_nil in E as [_ E]; done]. apply lookup_lt_Some in Hk. assert (Hl0 : length us = 0%nat) by (by rewrite E0). subst us. rewrite length_insert in Hl0. lia. }
  destruct (Hfs (text_of false us) Hnil) as (n & f1 & f2 & Ew & Er).
  { rewrite length_app. pose proof (text_length us Hsh) as Hlen. assert (length us <= 16)%nat by (subst us; by rewrite length_insert). assert (length old <= 300)%nat by (destruct Hold as [-> | ->]; vm_compute; lia). lia. }
  set (s1 := mk_users us (m_current_index s) (Some f1)). assert (E1 : SetPassword (Some s_root) (Some p) s = Some (true, s1)).
  { unfold SetPassword. rewrite gets_step. cbv beta. rewrite Eu, Hun, modify_step, Ek, Nat2Z.id. fold us. rewrite (bind_step _ _ _ tt s1); [done|]. unfold persist. cbn [u_fs set_users m_users m_current_index]. by rewrite Hf, Hsv, Ew. }
  exists s1. assert (Hne : old ++ text_of false us <> []) by (intros E; by apply app_eq_nil in E as [_ E]).
  pose proof (Start_read s1 f1 f2 _ eq_refl Er Hne) as Es. destruct Hold as [-> | ->].
  - assert (Ep : parse_users ([] ++ text_of false us) = []) by (unfold parse_users; cbn [app]; by apply parse_lines_unsalted). rewrite Ep in Es. rewrite decide_True in Es by done.
    destruct (Start_defaults (mk_users [] (-1) (Some f2)) eq_refl) as (s2 & E2 & Eu2). exists s2. rewrite Es. split; [done|]. split; [done|]. unfold Authenticate, IndexOf, user_at. rewrite Eu2. vm_compute. reflexivity.
  - rewrite parse_users_ok in Es; [|apply default_ok|done|cbn; lia]. rewrite decide_False in Es by done. eexists. rewrite Es. split; [done|]. split; [reflexivity|]. vm_compute. reflexivity.
Qed.
End Restart.

(** * Examples *)

(** A volume of one file, replaced by a write. *)
Record ram_file := mk_file { content : list Z }.
#[export] Instance ram_file_fs : Filesystem ram_file := {
  fs_ReadFile path maxLen := fun f => Some (if decide (path = users_path /\ content f <> []) then Some (take (Z.to_nat maxLen) (content f)) else None, f);
  fs_WriteFile path data := fun f => Some (Some (Z.of_nat (length data)), mk_file data);
}.
Lemma ram_file_writes : forall f out, exists n (f' : ram_file), fs_WriteFile users_path out f = Some (n, f').
Proof. intros f out. eexists _, _. reflexivity. Qed.

Definition demo_accounts : users ram_file := mk_users default_users (-1) (Some (mk_file [])).
Lemma demo_accounts_ok : accounts_ok demo_accounts.
Proof.
  split; [cbn; lia| |cbn; lia|exists default_root; split; [left|reflexivity]]. apply Forall_cons. split; [apply (typed_new s_root (Some s_root) true 0 0); lia|]. apply Forall_singleton. apply (typed_new s_user (Some s_user) false 1001 1). lia.
Qed.


Lemma SetPassword_authenticates_witness : exists s', SetPassword (Some s_root) (Some [97; 98; 99]) demo_accounts = Some (true, s') /\
  Authenticate (Some s_root) (Some [97; 98; 99]) s' = true /\ Authenticate (Some s_root) (Some [97; 98; 100]) s' = false.
Proof.
  destruct (SetPassword_authenticates ram_file_writes s_root [97; 98; 99] demo_accounts (ac_types _ demo_accounts_ok) (ac_count _ demo_accounts_ok)) as (s' & E & Ha & Hb & _); [discriminate|intros u Hu; injection Hu as <-; reflexivity|].
  exists s'. split; [exact E|]. split; [exact Ha|]. apply (Hb [97; 98] 99 100 []); [reflexivity|lia|lia|lia].
Defined.

(** Users [root], [user], [alice] and a second superuser [admin]. *)
Definition s_alice : list Z := [97; 108; 105; 99; 101].
Definition s_admin : list Z := [97; 100; 109; 105; 110].
Definition demo_alice : User := let sl := derive_salt s_alice 2 in mk_user 1002 s_alice (HashPassword (Some s_alice) sl) sl 1002 false.
Definition demo_admin : User := let sl := derive_salt s_admin 3 in mk_user 0 s_admin (HashPassword (Some s_admin) sl) sl 0 false.
Definition demo_session : users ram_file := mk_users [default_root; default_user; demo_alice; demo_admin] 2 (Some (mk_file [])).

(** With [alice] logged in, deleting [user] makes the session one of [admin]. *)
Lemma DelUser_switches_session_witness : exists s', CurrentUser demo_session = Some demo_alice /\ IsSuperuser demo_session = false /\
  DelUser (Some s_user) demo_session = Some (true, s') /\ CurrentUser s' = Some demo_admin /\ IsSuperuser s' = true.
Proof.
  destruct (DelUser_switches_session ram_file_writes [default_root] default_user [] demo_alice demo_admin [] demo_session) as (s' & Ec & E & Ec'); [reflexivity|reflexivity| |cbn; lia|apply Forall_singleton; discriminate|discriminate|].
  - pose proof (ac_types _ demo_accounts_ok) as Ht. cbn [m_users demo_accounts] in Ht. apply (Forall_app_2 _ default_users [demo_alice; demo_admin]); [exact Ht|]. apply Forall_cons. split; [apply (typed_new s_alice (Some s_alice) false 1002 2); lia|].
    apply Forall_singleton. apply (typed_new s_admin (Some s_admin) true 0 3). lia.
  - exists s'. split; [exact Ec|]. split; [unfold IsSuperuser; rewrite Ec; reflexivity|]. split; [exact E|]. split; [exact Ec'|]. unfold IsSuperuser. rewrite Ec'. reflexivity.
Defined.

Lemma Start_roundtrip_witness : exists out, save_users true default_users [] = Some out /\ Start (mk_users [] (-1) (Some (mk_file out))) = Some (true, mk_users default_users (-1) (Some (mk_file out))).
Proof.
  exists (text_of true default_users). assert (Hfit : (length (text_of true default_users) <= 1024)%nat) by (vm_compute; lia).
  assert (Hs : save_users true default_users [] = Some (text_of true default_users)) by (apply (save_users_fits true default_users []); cbn [length]; exact Hfit). split; [exact Hs|].
  apply (Start_roundtrip (mk_users [] (-1) (Some (mk_file (text_of true default_users)))) (mk_file (text_of true default_users)) (mk_file (text_of true default_users)) default_users [] (text_of true default_users));
    [reflexivity|discriminate|cbn; lia|apply default_ok|constructor|exact Hfit|exact Hs|vm_compute; reflexivity].
Defined.

Lemma SetPassword_forgotten_witness : exists s1 s2, SetPassword (Some s_root) (Some [120]) demo_accounts = Some (true, s1) /\ Start s1 = Some (true, s2) /\ Authenticate (Some s_root) (Some s_root) s2 = true.
Proof.
  apply (SetPassword_forgotten ram_file_writes demo_accounts (mk_file []) [120] []); [reflexivity|apply default_ok|apply (ac_types _ demo_accounts_ok)|cbn; lia|discriminate|intros u Hu; injection Hu as <-; reflexivity|by left|].
  intros out Hne Hl. eexists _, _, _. split; [reflexivity|]. cbn. rewrite decide_True by done. rewrite take_ge; [reflexivity|]. cbn [app length] in Hl. lia.
Defined.

(** Ids are counted from the size of the table: after a deletion two users
    share one. *)
Theorem AddUser_shares_uid : exists s (u v : User), (AddUser (Some s_alice) (Some s_alice) false;;; DelUser (Some s_user);;; AddUser (Some [98]) (Some [98]) false) (mk_users (F := ram_file) default_users (-1) None) = Some (true, s) /\
  m_users s = [default_root; u; v] /\ uid u = uid v.
Proof. eexists _, _, _. split; [vm_compute; reflexivity|]. split; reflexivity. Qed.

(** Sixteen users with ids of ten digits, which a file may hold, overflow the
    buffer of the next save. *)
Theorem save_users_overflow : save_users false (replicate 16 (mk_user 4000000000 (replicate 31 97) 0 0 4000000000 false)) [] = None.
Proof. vm_compute. reflexivity. Qed.
