(* ===== verification/Elf.v ===== *)
(** The ELF loader: [src/kernel/src/lib/elfloader.cpp].

    The loader reads the image and writes the segments through virtual
    addresses, which it maps while it runs.  Its state is that of
    [Paging.v]: a byte is reached through the page tables in force at the time
    of the access.  An access to a page that is not present, or a failed
    [KASSERT], does not return.  The kernel writes with the bit WP of CR0
    clear, as [Paging::Init] leaves it, so that the flag RW does not matter to
    it; with WP set a write is not modelled.  Printing and the branches of the
    debug mode of the logger are left out.  The run of the program itself
    starts where [LoadAndExecute] ends with [Executed]. *)
From S2P Require Import Prelude Memory Paging.
From S2P Require Pmm.

Import Pmm (PAGE_SIZE, g_frameCap).

(** * Memory by virtual address *)

Definition vload8 (va : Z) : ST paging Z :=
  let! s := gets (fun s => s) in
  if is_present (pte_of s va) then ret (read8 (pg_mem s) (phys s va)) else stuck.

Definition vstore8 (va v : Z) : ST paging unit :=
  let! s := gets (fun s => s) in
  if is_present (pte_of s va) && negb (Z.testbit (pg_cr0 s) 16)
  then modify (set_mem (write8 (pg_mem s) (phys s va) v)) else stuck.

Definition vload16 (va : Z) : ST paging Z :=
  let! lo := vload8 va in
  let! hi := vload8 (u32 (va + 1)) in
  ret (lo + 256 * hi).

Definition vload32 (va : Z) : ST paging Z :=
  let! lo := vload16 va in
  let! hi := vload16 (u32 (va + 2)) in
  ret (lo + 65536 * hi).

(** [String::memmove] and [String::memset] on virtual addresses. *)
Definition vcopy (dest src i : Z) : ST paging unit :=
  let! b := vload8 (u32 (src + i)) in vstore8 (u32 (dest + i)) b.

Definition vmemmove (dest src n : Z) : ST paging unit :=
  if (dest =? src) || (n =? 0) then ret tt
  else if dest <? src then for_loop (Z.to_nat n) 0 (vcopy dest src)
  else for_loop (Z.to_nat n) 0 (fun k => let i := n - k in vcopy dest src (i - 1)).

Definition vmemset (p c n : Z) : ST paging unit :=
  for_loop (Z.to_nat n) 0 (fun i => vstore8 (u32 (p + i)) (Z.land c 0xFF)).

(** * The headers *)

Definition EHDR_SIZE : Z := 52.
Definition PHDR_SIZE : Z := 32.
Definition PT_LOAD : Z := 1.
Definition EM_386 : Z := 3.
Definition PF_W : Z := 2.

(** Offsets of the fields of [Elf32_Ehdr] and [Elf32_Phdr]. *)
Definition e_machine : Z := 18.
Definition e_entry : Z := 24.
Definition e_phoff : Z := 28.
Definition e_phentsize : Z := 42.
Definition e_phnum : Z := 44.
Definition p_type : Z := 0.
Definition p_offset : Z := 4.
Definition p_vaddr : Z := 8.
Definition p_filesz : Z := 16.
Definition p_memsz : Z := 20.
Definition p_flags : Z := 24.

(** [ph[i].field]. *)
Definition phdr (ph i field : Z) : ST paging Z := vload32 (u32 (ph + PHDR_SIZE * i + field)).

(** The messages the loader refuses an image with. *)
Inductive elf_error :=
  | TooSmall | BadMagic | NotElf32 | NotLittleEndian | BadIdentVersion | NotI386
  | PhdrTableOutOfRange | PhentsizeMismatch | SegmentExceedsImage | OOMFrames
  | EntryNotLoaded | NullEntry.

(** [return false] after a message, or the call of the entry point. *)
Inductive elf_result := Refused (e : elf_error) | Executed (entry : Z).

(** * Loading *)

(** The pages of a segment: the first one and the size of all. *)
Definition vpage (vaddr : Z) : Z := Z.land vaddr 0xFFFFF000.
Definition mapSize (vaddr memsz : Z) : Z :=
  let pageOffset := Z.land vaddr 0xFFF in
  let total := u32 (pageOffset + memsz) in
  Z.land (u32 (total + PAGE_SIZE - 1)) 0xFFFFF000.

(** One round of the mapping loop. *)
Definition map_page (va : Z) : ST paging (option elf_error) :=
  UnmapPage va;;;
  let! pa := on_pmm Pmm.AllocFrame in
  if pa =? 0 then ret (Some OOMFrames)
  else
    kassert (Z.land pa (PAGE_SIZE - 1) =? 0);;;
    MapPage va pa (Z.lor (Z.lor Present RW) User);;;
    for_loop 4096 0 (fun j => vstore8 (u32 (va + j)) 0);;;
    ret None.

(** [for (off = 0; off < mapSize; off += PAGE_SIZE)]: [mapSize] is a multiple
    of [PAGE_SIZE], so that [off] does not wrap around; [n] rounds are left. *)
Fixpoint map_pages (n : nat) (vp off : Z) : ST paging (option elf_error) :=
  match n with
  | O => ret None
  | S n' =>
      let! e := map_page (u32 (vp + off)) in
      match e with
      | Some _ => ret e
      | None => map_pages n' vp (off + PAGE_SIZE)
      end
  end.

(** The loop that drops [RW]. *)
Definition protect_pages (n : nat) (vp : Z) : ST paging unit :=
  for_loop n 0 (fun k => RemapPageFlags (u32 (vp + PAGE_SIZE * k)) (Z.lor Present User)).

(** The body of the loop for a segment of type [PT_LOAD]. *)
Definition load_segment (image size ph i : Z) : ST paging (option elf_error) :=
  let! offset := phdr ph i p_offset in
  let! filesz := phdr ph i p_filesz in
  if size <? u32 (offset + filesz) then ret (Some SegmentExceedsImage)
  else
    let! dst := phdr ph i p_vaddr in
    let src := u32 (image + offset) in
    let! segSize := phdr ph i p_memsz in
    let! e := map_pages (Z.to_nat (mapSize dst segSize / PAGE_SIZE)) (vpage dst) 0 in
    match e with
    | Some _ => ret e
    | None =>
        let! pa := GetPhys dst in
        kassert (negb (pa =? 0));;;
        let! filesz := phdr ph i p_filesz in
        vmemmove dst src filesz;;;
        let! memsz := phdr ph i p_memsz in
        let! filesz := phdr ph i p_filesz in
        (if filesz <? memsz then vmemset (u32 (dst + filesz)) 0 (memsz - filesz) else ret tt);;;
        let! flags := phdr ph i p_flags in
        (if Z.land flags PF_W =? 0 then
           let! vaddr := phdr ph i p_vaddr in
           let! memsz := phdr ph i p_memsz in
           protect_pages (Z.to_nat (mapSize vaddr memsz / PAGE_SIZE)) (vpage vaddr)
         else ret tt);;;
        ret None
    end.

(** [for (uint16_t i = 0; i < eh->e_phnum; ++i)] over the program headers. *)
Fixpoint load_loop (fuel : nat) (image size ph i : Z) : ST paging (option elf_error) :=
  match fuel with
  | O => stuck
  | S fuel' =>
      let! phnum := vload16 (u32 (image + e_phnum)) in
      if i <? phnum then
        let! type := phdr ph i p_type in
        if negb (type =? PT_LOAD) then load_loop fuel' image size ph (i + 1)
        else
          let! e := load_segment image size ph i in
          match e with
          | Some _ => ret e
          | None => load_loop fuel' image size ph (i + 1)
          end
      else ret None
  end.

(** The loop that sets [entryOK]. *)
Fixpoint entry_loop (fuel : nat) (image ph entryVA i : Z) : ST paging bool :=
  match fuel with
  | O => stuck
  | S fuel' =>
      let! phnum := vload16 (u32 (image + e_phnum)) in
      if i <? phnum then
        let! type := phdr ph i p_type in
        if negb (type =? PT_LOAD) then entry_loop fuel' image ph entryVA (i + 1)
        else
          let! start := phdr ph i p_vaddr in
          let! memsz := phdr ph i p_memsz in
          let! filesz := phdr ph i p_filesz in
          let end_ := u32 (start + (if memsz =? 0 then filesz else memsz)) in
          if (start <=? entryVA) && (entryVA <? end_) then ret true
          else entry_loop fuel' image ph entryVA (i + 1)
      else ret false
  end.

(** [i] is below [e_phnum], a 16-bit number. *)
Definition PHNUM_FUEL : nat := Z.to_nat 65536.

(** The checks of the ELF header, in order; [Some ph] with the address of the
    program headers when all pass. *)
Definition check_header (image size : Z) : ST paging (elf_error + Z) :=
  if (image =? 0) || (size <? EHDR_SIZE) then ret (inl TooSmall)
  else
    let! i0 := vload8 image in
    let! i1 := vload8 (u32 (image + 1)) in
    let! i2 := vload8 (u32 (image + 2)) in
    let! i3 := vload8 (u32 (image + 3)) in
    if negb ((i0 =? 0x7F) && (i1 =? 69) && (i2 =? 76) && (i3 =? 70)) then ret (inl BadMagic)
    else
      let! class := vload8 (u32 (image + 4)) in
      if negb (class =? 1) then ret (inl NotElf32)
      else
        let! data := vload8 (u32 (image + 5)) in
        if negb (data =? 1) then ret (inl NotLittleEndian)
        else
          let! version := vload8 (u32 (image + 6)) in
          if negb (version =? 1) then ret (inl BadIdentVersion)
          else
            let! machine := vload16 (u32 (image + e_machine)) in
            if negb (machine =? EM_386) then ret (inl NotI386)
            else
              let! phoff := vload32 (u32 (image + e_phoff)) in
              let! phnum := vload16 (u32 (image + e_phnum)) in
              let need := u32 (phoff + phnum * PHDR_SIZE) in
              if (need <? phoff) || (size <? need) then ret (inl PhdrTableOutOfRange)
              else
                let! phentsize := vload16 (u32 (image + e_phentsize)) in
                if negb (phentsize =? PHDR_SIZE) then ret (inl PhentsizeMismatch)
                else ret (inr (u32 (image + phoff))).

Definition LoadAndExecute (image size : Z) : ST paging elf_result :=
  let! h := check_header image size in
  match h with
  | inl e => ret (Refused e)
  | inr ph =>
      let! e := load_loop PHNUM_FUEL image size ph 0 in
      match e with
      | Some e => ret (Refused e)
      | None =>
          let! entryVA := vload32 (u32 (image + e_entry)) in
          let! entryOK := entry_loop PHNUM_FUEL image ph entryVA 0 in
          if negb entryOK then ret (Refused EntryNotLoaded)
          else if entryVA =? 0 then ret (Refused NullEntry)
          else ret (Executed entryVA)
      end
  end.

(** * What the paging operations write

    A frame is a table when the directory or a page table is in it.  The
    operations of [Paging.v] write to tables only, and new tables come from
    free frames; with a free frame below [B] they are below [B]. *)

Definition is_table (s : paging) (f : Z) : Prop :=
  g_pageDirectory s = 4096 * f \/
  exists i, 0 <= i < 1024 /\ is_present (pde s i) = true /\ table s i = 4096 * f.

Record grows (B : Z) (s s' : paging) : Prop := {
  gr_ext : extends s s';
  gr_data : forall f o, 0 <= f -> 0 <= o < 4096 -> ~ is_table s' f ->
    read8 (pg_mem s') (4096 * f + o) = read8 (pg_mem s) (4096 * f + o);
  gr_new : forall f, 0 <= f -> is_table s' f ->
    is_table s f \/ Pmm.bit (pg_pmm s) f = false /\ f < B;
  gr_old : forall f, is_table s f -> is_table s' f;
}.

#[export] Instance grows_preorder B : PreOrder (grows B).
Proof.
  split.
  - intros s. split; [done|done|by left|done].
  - intros s1 s2 s3 [X1 D1 N1 O1] [X2 D2 N2 O2]. split; [by etrans|..].
    + intros f o Hf Ho Ht. rewrite D2 by done. apply D1; [done|done|]. intros H. by apply Ht, O2.
    + intros f Hf H3. destruct (N2 f Hf H3) as [H2|[Hb HB]]; [by apply N1|]. right. split; [|done].
      destruct (Pmm.bit (pg_pmm s1) f) eqn:Hb1; [|done]. rewrite (ext_used _ _ X1 f) in Hb by done. done.
    + eauto.
Qed.

(** Equal directories have equal tables. *)
Lemma is_table_ext s s' f :
  g_pageDirectory s' = g_pageDirectory s -> (forall i, 0 <= i < 1024 -> pde s' i = pde s i) ->
  is_table s' f <-> is_table s f.
Proof.
  intros Hd Hp. unfold is_table. rewrite Hd. split; intros [H|(i & Hi & H)]; try (by left);
    right; exists i; (split; [done|]); unfold table in *; [rewrite <- !Hp by done|rewrite !Hp by done]; done.
Qed.

Lemma table_aligned s i : exists f, table s i = 4096 * f.
Proof. unfold table. eauto. Qed.

Lemma grows_store_pte B s va v :
  wf s -> 0 <= va < 2 ^ 32 -> 0 <= v < 2 ^ 32 -> is_present (pde s (pde_index va)) = true ->
  grows B s (set_mem (write32 (pg_mem s) (table s (pde_index va) + 4 * pte_index va) v) s).
Proof.
  intros Hwf Hva Hv Hp. destruct (index_range va Hva) as [Hk Ht]. set (s' := set_mem _ s).
  destruct (store_pte_ok s va v Hwf Hva Hv Hp) as (_ & X & _). fold s' in X.
  destruct (wf_table _ Hwf _ Hk Hp) as [(g & Eg & _) Hne].
  assert (Hpde : forall i, 0 <= i < 1024 -> pde s' i = pde s i).
  { intros i Hi. unfold pde. cbn. apply read32_write32_ne. destruct (wf_pd _ Hwf) as (h & Eh & _).
    rewrite Eg, Eh in *. destruct (words_apart g h (pte_index va) i); lia. }
  assert (Ht' : forall f, is_table s' f <-> is_table s f) by (intros f; by apply is_table_ext).
  split; [done| | |intros f; apply Ht'].
  - intros f o Hf Ho Hn. cbn. apply read8_write32_ne. rewrite Eg. assert (f <> g); [|lia].
    intros ->. apply Hn, Ht'. right. eauto.
  - intros f Hf H. left. by apply Ht'.
Qed.

Lemma user_bit_grows B s k user :
  wf s -> 0 <= k < 1024 -> is_present (pde s k) = true ->
  exists s', user_bit k user s = Some (tt, s') /\ grows B s s' /\ pg_pmm s' = pg_pmm s.
Proof.
  intros Hwf Hk Hp. destruct (user_bit_ok s k user Hwf Hk Hp) as (s' & E & _ & X & _ & Htab & Hp' & _).
  exists s'. split; [done|]. unfold user_bit in E. destruct user; [|injection E as <-; by split].
  rewrite (bind_step (pde_addr k) _ s (g_pageDirectory s + 4 * k) s) in E by done.
  rewrite (bind_step (load32 _) _ s (pde s k) s) in E by done. rewrite store32_step in E. injection E as E.
  destruct (wf_pd _ Hwf) as (h & Eh & _).
  assert (Hpde : forall i, 0 <= i < 1024 -> i <> k -> pde s' i = pde s i).
  { intros i Hi Hne. rewrite <- E. unfold pde. cbn. apply read32_write32_ne. lia. }
  assert (Ht : forall f, is_table s' f <-> is_table s f).
  { intros f. unfold is_table. rewrite <- E at 1. cbn [g_pageDirectory set_mem].
    split; (intros [?|(i & Hi & Hpi & Hti)]; [by left|right; exists i]); (split; [done|]);
      (destruct (decide (i = k)) as [->|]; [split; congruence|]); unfold table in *;
      [rewrite <- !Hpde by done|rewrite !Hpde by done]; done. }
  split; [|by rewrite <- E]. split; [done| | |intros f; apply Ht].
  - intros f o Hf Ho Hn. rewrite <- E. cbn. apply read8_write32_ne. rewrite Eh. assert (f <> h); [|lia].
    intros ->. apply Hn, Ht. by left.
  - intros f Hf H. left. by apply Ht.
Qed.

(** A table installed in the free frame [f]. *)
Lemma install_grows B s k f p m v s' :
  wf s -> 0 <= k < 1024 -> is_present (pde s k) = false -> 0 <= f < B -> Pmm.bit (pg_pmm s) f = false ->
  (forall a, a < 4096 * f \/ 4096 * f + 4096 <= a -> read8 m a = read8 (pg_mem s) a) ->
  s' = set_mem (write32 m (g_pageDirectory s + 4 * k) v) (set_pmm p s) ->
  extends s s' -> is_present (pde s' k) = true -> table s' k = 4096 * f -> grows B s s'.
Proof.
  intros Hwf Hk Hab Hf Hb Hout Es X Hp Htab. destruct (wf_pd _ Hwf) as (h & Eh & _ & _ & Hh).
  assert (h <> f) by congruence.
  assert (Hpde : forall i, 0 <= i < 1024 -> i <> k -> pde s' i = pde s i).
  { intros i Hi Hne. rewrite Es. unfold pde. cbn. rewrite read32_write32_ne by lia.
    apply read32_ext. intros j Hj. apply Hout. lia. }
  split; [done|..].
  - intros f0 o Hf0 Ho Hn. assert (f0 <> f) by (intros ->; apply Hn; right; eauto).
    assert (f0 <> h) by (intros ->; apply Hn; left; rewrite Es; done).
    rewrite Es. cbn. rewrite read8_write32_ne by lia. apply Hout. lia.
  - intros f0 Hf0 [H1|(i & Hi & Hpi & Hti)]; [left; left; by rewrite Es in H1|].
    destruct (decide (i = k)) as [->|]; [right; assert (f0 = f) as -> by lia; split; [done|lia]|].
    left. right. exists i. unfold table in *. by rewrite Hpde in Hpi, Hti.
  - intros f0 [H1|(i & Hi & Hpi & Hti)]; [left; by rewrite Es|]. right. exists i.
    assert (i <> k) by congruence. unfold table in *. by rewrite Hpde.
Qed.

(** The table of a page, created in the lowest free frame if needed. *)
Lemma ensureTable_grows B s va user :
  wf s -> 0 <= va < 2 ^ 32 -> B <= Z.min (g_frameCap (pg_pmm s)) 16384 -> 0 < free_below B s ->
  exists s', ensureTable va true user s = Some (table s' (pde_index va), s') /\ wf s' /\ grows B s s' /\
    is_present (pde s' (pde_index va)) = true /\ table s' (pde_index va) <> 0 /\
    free_below B s - 1 <= free_below B s' /\ forall va', 0 <= va' < 2 ^ 32 -> pte_of s' va' = pte_of s va'.
Proof.
  intros Hwf Hva HB Hfree. destruct (free_below_pos B s Hfree) as (g & Hg & Hbg).
  assert (Hav : avail s) by (exists g; split; [lia|done]). destruct (index_range va Hva) as [Hk _].
  destruct (ensureTable_ok s va true user Hwf Hva)
    as (t & s' & E & Hwf' & X & Hpte & [(-> & _ & Hna & _)|(-> & Hnz & Hp' & _)]); [by destruct Hna|].
  exists s'. enough (grows B s s' /\ free_below B s - 1 <= free_below B s') by (split_and!; tauto).
  pose proof E as E0. unfold ensureTable in E0. set (k := pde_index va) in *.
  rewrite (bind_step (pde_addr k) _ s (g_pageDirectory s + 4 * k) s) in E0 by done.
  rewrite (bind_step (load32 _) _ s (pde s k) s) in E0 by done. rewrite is_present_land in E0.
  destruct (is_present (pde s k)) eqn:Hp; cbn [negb] in E0.
  { assert (s' = s) as -> by (by destruct (IDENTITY_END <=? _); injection E0 as _ <-). split; [done|lia]. }
  destruct (table_frame_some 99 s) as (f & p & Ef & Hf & Hb & Hlow & _ & Hfl); [apply Hwf|apply Hwf|done|].
  assert (f <= g) by (destruct (decide (g < f)); [rewrite Hlow in Hbg by lia; done|lia]).
  rewrite (bind_step _ _ _ _ _ Ef) in E0. destruct (Z.eqb_spec (4096 * f) 0); [lia|].
  destruct (zero_loop_ok 1024 0 (4096 * f) (set_pmm p s)) as (m & Em & Hout & _).
  rewrite (bind_step _ _ _ _ _ Em), (bind_step _ _ _ _ _ (store32_step _ _ _)) in E0. injection E0 as Et Es.
  split.
  { apply (install_grows B s k f p m _ s' Hwf Hk Hp ltac:(lia) Hb) with (2 := eq_sym Es); try done. intros a Ha. apply Hout. lia. }
  rewrite <- Es. change (free_below B s - 1 <= free_below B (set_pmm p s)).
  rewrite (free_below_flips B s p f) by (done || lia). lia.
Qed.

Lemma MapPage_grows B s va pa flags :
  wf s -> 0 <= va < 2 ^ 32 -> 0 <= pa < 2 ^ 32 -> pa mod 4096 = 0 ->
  B <= Z.min (g_frameCap (pg_pmm s)) 16384 -> 0 < free_below B s ->
  exists s', MapPage va pa flags s = Some (tt, s') /\ wf s' /\ grows B s s' /\
    free_below B s - 1 <= free_below B s' /\
    forall va', 0 <= va' < 2 ^ 32 ->
      pte_of s' va' = if decide (va' / 4096 = va / 4096) then pa + entry_flags flags else pte_of s va'.
Proof.
  intros Hwf Hva Hpa Hal HB Hfree. destruct (index_range va Hva) as [Hk _].
  destruct (MapPage_ok s va pa flags Hwf Hva Hpa Hal) as (s' & E & Hwf' & X & Hcase).
  destruct (ensureTable_grows B s va (negb (Z.land flags User =? 0)) Hwf Hva HB Hfree)
    as (s1 & E1 & Hwf1 & G1 & Hp1 & Hnz & Hfb & Hpte1).
  destruct (user_bit_grows B s1 (pde_index va) (negb (Z.land flags User =? 0)) Hwf1 Hk Hp1) as (s2 & E2 & G2 & Hpm2).
  destruct (user_bit_ok s1 (pde_index va) (negb (Z.land flags User =? 0)) Hwf1 Hk Hp1) as (s2' & E2' & Hwf2 & _ & _ & Ht2 & Hp2 & _).
  rewrite E2 in E2'. injection E2' as <-. pose proof E as E0. unfold MapPage in E0. rewrite (u32_small pa) in E0 by lia.
  rewrite bind_kassert in E0 by (change (PAGE_SIZE - 1) with 4095; by rewrite land_fff).
  rewrite (bind_step _ _ _ _ _ E1) in E0. destruct (Z.eqb_spec (table s1 (pde_index va)) 0); [done|].
  rewrite (bind_step _ _ _ _ _ E2), store32_step, <- Ht2 in E0. injection E0 as Es.
  assert (G3 : grows B s2 s').
  { rewrite <- Es. apply grows_store_pte; [done|done| |done].
    apply lor_lt; [lia| |unfold Present; lia]. apply lor_lt; [lia| |].
    - rewrite land_hi20 by done. zdiv.
    - rewrite land_fff. zdiv. }
  assert (Hpm : pg_pmm s' = pg_pmm s1) by (rewrite <- Es, <- Hpm2; done).
  exists s'. split_and!; [done|done|by etrans; [exact G1|]; etrans; [exact G2|]| |].
  - unfold free_below in *. by rewrite Hpm.
  - destruct Hcase as [(Hna & _)|(_ & _ & Hpte)]; [|done]. destruct Hna.
    destruct (free_below_pos B s Hfree) as (g & Hg & Hb). exists g. split; [lia|done].
Qed.

Lemma UnmapPage_grows B s va :
  wf s -> 0 <= va < 2 ^ 32 ->
  exists s', UnmapPage va s = Some (tt, s') /\ wf s' /\ grows B s s' /\ pg_pmm s' = pg_pmm s /\
    forall va', 0 <= va' < 2 ^ 32 ->
      pte_of s' va' = if decide (va' / 4096 = va / 4096) then 0 else pte_of s va'.
Proof.
  intros Hwf Hva. destruct (UnmapPage_ok s va Hwf Hva) as (s' & E & Hwf' & _ & _ & Hpte).
  exists s'. destruct (lookup_table_ok s va Hwf Hva) as [El Hnz]. pose proof E as E0. unfold UnmapPage in E0.
  rewrite (bind_step _ _ _ _ _ El) in E0. destruct (is_present (pde s (pde_index va))) eqn:Hp.
  - destruct (Z.eqb_spec (table s (pde_index va)) 0); [by destruct Hnz|]. rewrite store32_step in E0.
    injection E0 as <-. split_and!; try done. by apply grows_store_pte.
  - injection E0 as <-. by split_and!.
Qed.

Lemma ensureTable_found s va create user :
  wf s -> 0 <= va < 2 ^ 32 -> is_present (pde s (pde_index va)) = true ->
  ensureTable va create user s = Some (table s (pde_index va), s) /\ table s (pde_index va) <> 0.
Proof.
  intros Hwf Hva Hp. destruct (index_range va Hva) as [Hk _].
  destruct (wf_table _ Hwf _ Hk Hp) as [(f & Ef & Hf1 & Hf2 & _) _]. split; [|lia].
  unfold ensureTable.
  rewrite (bind_step (pde_addr _) _ s (g_pageDirectory s + 4 * pde_index va) s) by done.
  rewrite (bind_step (load32 _) _ s (pde s (pde_index va)) s) by done.
  rewrite is_present_land, table_land, Hp. cbn [negb].
  unfold IDENTITY_END. by destruct (Z.leb_spec (64 * 1024 * 1024) (table s (pde_index va))); [lia|].
Qed.

(** [RemapPageFlags] of a page that is mapped, with any flags. *)
Lemma RemapPageFlags_grows B s va flags :
  wf s -> 0 <= va < 2 ^ 32 -> is_present (pte_of s va) = true ->
  exists s', RemapPageFlags va flags s = Some (tt, s') /\ wf s' /\ grows B s s' /\ pg_pmm s' = pg_pmm s /\
    forall va', 0 <= va' < 2 ^ 32 ->
      pte_of s' va' = if decide (va' / 4096 = va / 4096)
                      then 4096 * (pte_of s va / 4096) + entry_flags flags else pte_of s va'.
Proof.
  intros Hwf Hva Hpr. unfold RemapPageFlags. destruct (index_range va Hva) as [Hk _].
  assert (Hp : is_present (pde s (pde_index va)) = true) by (unfold pte_of in Hpr; by destruct (is_present (pde s _))).
  assert (Hv : read32 (pg_mem s) (table s (pde_index va) + 4 * pte_index va) = pte_of s va) by (unfold pte_of; by rewrite Hp).
  assert (0 <= pte_of s va < 2 ^ 32) by (rewrite <- Hv; apply read32_range). pose proof (entry_flags_range flags).
  destruct (ensureTable_found s va (negb (Z.land flags User =? 0)) (negb (Z.land flags User =? 0)) Hwf Hva Hp) as [E Hnz].
  rewrite (bind_step _ _ _ _ _ E). destruct (Z.eqb_spec (table s (pde_index va)) 0); [done|].
  rewrite (bind_step (load32 _) _ s (pte_of s va) s) by (unfold load32, gets; by rewrite Hv).
  unfold Present at 1. rewrite is_present_land, Hpr. cbn [negb].
  rewrite <- Z.lor_assoc, land_hi20, lor_flags by (try apply entry_flags_range; try done; zdiv).
  rewrite store32_step. change (Z.lor (Z.land flags 4095) Present) with (entry_flags flags).
  destruct (store_pte_ok s va (4096 * (pte_of s va / 4096) + entry_flags flags)) as (W & X & P); [done|done|zdiv|done|].
  eexists. split; [reflexivity|]. split_and!; [done|apply grows_store_pte; try done; zdiv|done|done].
Qed.

(** * The address space while a program is loaded

    Below page [B] virtual and physical addresses agree, which is how the
    kernel reaches its tables; programs are loaded above.  [K] are pages of
    the kernel that keep their bytes, the image among them; [W] are the pages
    loaded so far, each in a frame of its own. *)

Lemma pte_of_page s va : 0 <= va < 2 ^ 32 -> pte_of s va = pte_of s (4096 * (va / 4096)).
Proof.
  intros Hva. unfold pte_of. rewrite !pde_index_spec, !pte_index_spec by zdiv.
  replace (4096 * (va / 4096) / 4194304) with (va / 4194304) by zdiv.
  by replace (4096 * (va / 4096) / 4096) with (va / 4096) by zdiv.
Qed.

(** The frame of a page. *)
Definition frame (s : paging) (p : Z) : Z := pte_of s (4096 * p) / 4096.
Definition mapped (s : paging) (p : Z) : Prop := is_present (pte_of s (4096 * p)) = true.

Lemma phys_frame s va :
  0 <= va < 2 ^ 32 -> mapped s (va / 4096) -> phys s va = 4096 * frame s (va / 4096) + va mod 4096.
Proof. intros Hva Hm. unfold phys, frame. rewrite (pte_of_page s va) by done. by rewrite Hm. Qed.

(** The byte at a virtual address. *)
Definition vbyte (s : paging) (va : Z) : Z := read8 (pg_mem s) (phys s va).

Record loading (B : Z) (K W : Z -> Prop) (s : paging) : Prop := {
  ld_wf : wf s;
  ld_B : 0 < B <= Z.min (g_frameCap (pg_pmm s)) 16384;
  ld_wp : Z.testbit (pg_cr0 s) 16 = false;
  ld_ident : forall p, 0 <= p < B -> mapped s p /\ frame s p = p;
  ld_tables : forall f, is_table s f -> f < B;
  ld_K : forall p, K p -> 0 <= p < B /\ Pmm.bit (pg_pmm s) p = true /\ ~ is_table s p;
  ld_W : forall p, W p -> B <= p < 2 ^ 20 /\ mapped s p /\ 0 < frame s p < B /\
    Pmm.bit (pg_pmm s) (frame s p) = true /\ ~ is_table s (frame s p) /\ ~ K (frame s p);
  ld_inj : forall p q, W p -> W q -> frame s p = frame s q -> p = q;
}.

(** What of the address space is the same after a step. *)
Record same_view (K W : Z -> Prop) (s s' : paging) : Prop := {
  sv_bytes : forall va, 0 <= va < 2 ^ 32 -> K (va / 4096) \/ W (va / 4096) -> vbyte s' va = vbyte s va;
}.

Section Loading.
Context {B : Z} {K W : Z -> Prop}.
Implicit Types s : paging.

Lemma view_mapped s p : loading B K W s -> K p \/ W p -> mapped s p /\ 0 <= p < 2 ^ 20.
Proof.
  intros L [H|H].
  - destruct (ld_K _ _ _ _ L p H) as [Hp _]. pose proof (ld_B _ _ _ _ L). split; [by apply (ld_ident _ _ _ _ L)|lia].
  - destruct (ld_W _ _ _ _ L p H) as (Hp & Hm & _). pose proof (ld_B _ _ _ _ L). split; [done|lia].
Qed.

(** A loaded page shares its frame with no other page in view. *)
Lemma view_apart s p q : loading B K W s -> W p -> K q \/ W q -> frame s p = frame s q -> p = q.
Proof.
  intros L Hp [Hq|Hq] E; [|by apply (ld_inj _ _ _ _ L)].
  destruct (ld_W _ _ _ _ L p Hp) as (_ & _ & _ & _ & _ & Hn). destruct (ld_K _ _ _ _ L q Hq) as [Hr _].
  destruct (ld_ident _ _ _ _ L q Hr) as [_ Ef]. by rewrite E, Ef in Hn.
Qed.

Lemma vload8_ok s va :
  loading B K W s -> 0 <= va < 2 ^ 32 -> K (va / 4096) \/ W (va / 4096) -> vload8 va s = Some (vbyte s va, s).
Proof.
  intros L Hva Hv. destruct (view_mapped _ _ L Hv) as [Hm _]. unfold vload8. rewrite gets_step.
  rewrite pte_of_page by done. by rewrite Hm.
Qed.

(** Writing to a frame that is not a table changes no mapping. *)
Lemma write_data s f o v :
  wf s -> 0 <= f -> 0 <= o < 4096 -> ~ is_table s f ->
  let s' := set_mem (write8 (pg_mem s) (4096 * f + o) v) s in
  wf s' /\ (forall g, is_table s' g <-> is_table s g) /\ forall va, 0 <= va < 2 ^ 32 -> pte_of s' va = pte_of s va.
Proof.
  intros Hwf Hf Ho Hn s'. pose proof Hwf as [H1 H2 H3 H4 H5]. pose proof H3 as (h & Eh & _).
  assert (f <> h) by (intros ->; apply Hn; by left).
  assert (Hpde : forall i, 0 <= i < 1024 -> pde s' i = pde s i).
  { intros i Hi. unfold pde. cbn. apply read32_write8_ne. lia. }
  split_and!.
  - split; [done|done|done| |].
    + intros i Hi. unfold table. rewrite Hpde by done. exact (H4 i Hi).
    + intros i j Hi Hj. unfold table. rewrite !Hpde by done. exact (H5 i j Hi Hj).
  - intros g. by apply is_table_ext.
  - intros va Hva. destruct (index_range va Hva) as [Hk Ht]. unfold pte_of, table. rewrite Hpde by done.
    destruct (is_present (pde s (pde_index va))) eqn:Hp; [|done]. cbn. apply read32_write8_ne.
    destruct (table_aligned s (pde_index va)) as [g Eg]. unfold table in Eg. rewrite Eg.
    assert (f <> g); [|lia]. intros ->. apply Hn. right. exists (pde_index va). split; [done|]. split; [done|exact Eg].
Qed.

(** Storing a byte to a loaded page changes that byte of the view. *)
Lemma vstore8_ok s va v :
  loading B K W s -> 0 <= va < 2 ^ 32 -> W (va / 4096) ->
  exists s', vstore8 va v s = Some (tt, s') /\ loading B K W s' /\ pg_pmm s' = pg_pmm s /\
    (forall va', 0 <= va' < 2 ^ 32 -> pte_of s' va' = pte_of s va') /\
    forall x, 0 <= x < 2 ^ 32 -> K (x / 4096) \/ W (x / 4096) -> vbyte s' x = if decide (x = va) then u8 v else vbyte s x.
Proof.
  intros L Hva Hw. destruct (view_mapped s _ L (or_intror Hw)) as [Hm _].
  destruct (ld_W _ _ _ _ L _ Hw) as (_ & _ & Hfr & _ & Hnt & _).
  unfold vstore8. rewrite gets_step, pte_of_page, Hm, (ld_wp _ _ _ _ L) by done. cbn [andb negb].
  rewrite phys_frame by done.
  destruct (write_data s (frame s (va / 4096)) (va mod 4096) v (ld_wf _ _ _ _ L)) as (Hwf & Ht & Hpte); [lia|zdiv|done|].
  set (s' := set_mem _ s) in *. exists s'. split; [done|].
  assert (Hf : forall p, 0 <= p < 2 ^ 20 -> pte_of s' (4096 * p) = pte_of s (4096 * p)) by (intros p Hp; apply Hpte; lia).
  assert (HK : forall p, K p \/ W p -> 0 <= p < 2 ^ 20) by (intros p Hp; by apply (view_mapped s)).
  split_and!; [|done|done|].
  - pose proof L as [L1 L2 L3 L4 L5 L6 L7 L8]. split; try done.
    + intros p Hp. unfold mapped, frame. rewrite Hf by lia. by apply L4.
    + intros f. rewrite Ht. apply L5.
    + intros p Hp. rewrite Ht. by apply L6.
    + intros p Hp. unfold mapped, frame. rewrite Hf by auto. rewrite Ht. by apply L7.
    + intros p q Hp Hq. unfold frame. rewrite !Hf by auto. by apply L8.
  - intros x Hx Hv. unfold vbyte. destruct (view_mapped s _ L Hv) as [Hmx _].
    rewrite (phys_ext s s') by auto. rewrite phys_frame by done. cbn [pg_mem set_mem s'].
    case_decide as Hc; [subst x; apply read8_write8_eq|]. apply read8_write8_ne.
    intros E. apply Hc. assert (frame s (va / 4096) = frame s (x / 4096)) as Ef by zdiv.
    pose proof (view_apart s _ _ L Hw Hv Ef). rewrite Ef in E. zdiv.
Qed.

(** The bytes in view after stores: those that [P] gives, the others as before. *)
Record wrote (P : Z -> option Z) (s s' : paging) : Prop := {
  wr_loading : loading B K W s';
  wr_pmm : pg_pmm s' = pg_pmm s;
  wr_pte : forall va, 0 <= va < 2 ^ 32 -> pte_of s' va = pte_of s va;
  wr_bytes : forall x, 0 <= x < 2 ^ 32 -> K (x / 4096) \/ W (x / 4096) -> vbyte s' x = default (vbyte s x) (P x);
}.

(** A loop that stores the bytes [c k] at [dst + k], in the order of [idx]. *)
Lemma fill_ok s dst (n : nat) (body : Z -> ST paging unit) (idx c : Z -> Z) :
  loading B K W s -> 0 <= dst -> dst + Z.of_nat n <= 2 ^ 32 ->
  (forall k, 0 <= k < Z.of_nat n -> W ((dst + k) / 4096)) ->
  (forall k, 0 <= k < Z.of_nat n -> 0 <= idx k < Z.of_nat n /\ 0 <= c (idx k) < 256) ->
  (forall k s1, 0 <= k < Z.of_nat n -> loading B K W s1 ->
    (forall x, 0 <= x < 2 ^ 32 -> K (x / 4096) -> vbyte s1 x = vbyte s x) ->
    body k s1 = vstore8 (dst + idx k) (c (idx k)) s1) ->
  (forall j, 0 <= j < Z.of_nat n -> exists k, 0 <= k < Z.of_nat n /\ idx k = j) ->
  exists s', for_loop n 0 body s = Some (tt, s') /\
    wrote (fun x => if decide (dst <= x < dst + Z.of_nat n) then Some (c (x - dst)) else None) s s'.
Proof.
  intros L H0 Hn HW Hidx Hbody Honto.
  assert (HKW : forall x y, K (x / 4096) -> W (y / 4096) -> x <> y).
  { intros x y HK HWy ->. pose proof (ld_K _ _ _ _ L _ HK). pose proof (ld_W _ _ _ _ L _ HWy). lia. }
  destruct (hoare_for n 0 body (fun k s' => loading B K W s' /\ pg_pmm s' = pg_pmm s /\
    (forall va, 0 <= va < 2 ^ 32 -> pte_of s' va = pte_of s va) /\
    forall x, 0 <= x < 2 ^ 32 -> K (x / 4096) \/ W (x / 4096) ->
      ((exists j, 0 <= j < k /\ x = dst + idx j) -> vbyte s' x = c (x - dst)) /\
      (x < dst \/ dst + Z.of_nat n <= x -> vbyte s' x = vbyte s x) /\
      (K (x / 4096) -> vbyte s' x = vbyte s x))) with (s := s) as ([] & s' & E & L' & Hp & Hpte & Hb).
  - intros k Hk s1 (L1 & Hp1 & Hpte1 & Hb1).
    assert (HK1 : forall x, 0 <= x < 2 ^ 32 -> K (x / 4096) -> vbyte s1 x = vbyte s x) by (intros x Hx HK; apply Hb1; auto).
    rewrite Hbody by (done || lia). destruct (Hidx k ltac:(lia)) as [Hi Hc].
    destruct (vstore8_ok s1 (dst + idx k) (c (idx k)) L1) as (s2 & E2 & L2 & Hp2 & Hpte2 & Hb2); [lia|by apply HW|].
    exists tt, s2. split; [done|]. split_and!; [done|congruence|intros; rewrite Hpte2 by done; auto|].
    intros x Hx Hv. rewrite Hb2 by done. destruct (Hb1 x Hx Hv) as (Ha & Hb & Hc'). case_decide as Hd.
    + subst x. rewrite u8_small by lia. replace (dst + idx k - dst) with (idx k) by lia.
      split_and!; [done|lia|]. intros HK. by destruct (HKW _ (dst + idx k) HK (HW (idx k) ltac:(lia))).
    + split_and!; [|done|done]. intros (j & Hj & Ex). apply Ha. exists j. split; [|done].
      destruct (decide (j = k)); [subst; done|lia].
  - split_and!; [done|done|done|]. intros x Hx Hv. split_and!; [intros (j & Hj & _); lia|done|done].
  - exists s'. split; [done|]. split; [done..|]. intros x Hx Hv. destruct (Hb x Hx Hv) as (Ha & Hb' & _).
    case_decide as Hd; cbn [default from_option id]; [|apply Hb'; lia]. apply Ha.
    destruct (Honto (x - dst) ltac:(lia)) as (k & Hk & Ek). exists k. lia.
Qed.

Lemma vmemset_ok s dst c n :
  loading B K W s -> 0 <= dst -> 0 <= n -> dst + n <= 2 ^ 32 -> (forall k, 0 <= k < n -> W ((dst + k) / 4096)) -> 0 <= c < 256 ->
  exists s', vmemset dst c n s = Some (tt, s') /\ wrote (fun x => if decide (dst <= x < dst + n) then Some c else None) s s'.
Proof.
  intros L H0 Hn Hd HW Hc. unfold vmemset.
  destruct (fill_ok s dst (Z.to_nat n) (fun i => vstore8 (u32 (dst + i)) (Z.land c 0xFF)) (fun k => k) (fun _ => c)) as (s' & E & Hw);
    rewrite ?Z2Nat.id in * by lia; try done; try (intros; lia).
  - intros k s1 Hk _ _. rewrite u32_small by lia. do 2 f_equal. change 0xFF with (Z.ones 8).
    rewrite Z.land_ones by lia. by apply Z.mod_small.
  - eauto.
  - eauto.
Qed.

(** The bytes of [src] are in pages of the kernel, those of [dest] in loaded
    pages; they do not overlap. *)
Lemma vmemmove_ok s dst src n :
  loading B K W s -> 0 <= dst -> 0 <= n -> dst + n <= 2 ^ 32 -> (forall k, 0 <= k < n -> W ((dst + k) / 4096)) ->
  0 <= src -> src + n <= 2 ^ 32 -> (forall k, 0 <= k < n -> K ((src + k) / 4096)) ->
  exists s', vmemmove dst src n s = Some (tt, s') /\
    wrote (fun x => if decide (dst <= x < dst + n) then Some (vbyte s (src + (x - dst))) else None) s s'.
Proof.
  intros L H0 Hn Hd HW Hs0 Hs HK. unfold vmemmove.
  destruct (Z.eqb_spec n 0) as [->|Hn0].
  { rewrite orb_true_r. exists s. split; [done|]. split; [done..|]. intros x Hx Hv. by rewrite decide_False by lia. }
  destruct (Z.eqb_spec dst src) as [->|Hne].
  { pose proof (HW 0 ltac:(lia)) as H1. pose proof (HK 0 ltac:(lia)) as H2.
    pose proof (ld_K _ _ _ _ L _ H2). pose proof (ld_W _ _ _ _ L _ H1). lia. }
  cbn [orb].
  assert (Hcopy : forall k s1, 0 <= k < n -> loading B K W s1 ->
    (forall x, 0 <= x < 2 ^ 32 -> K (x / 4096) -> vbyte s1 x = vbyte s x) ->
    vcopy dst src k s1 = vstore8 (dst + k) (vbyte s (src + k)) s1).
  { intros k s1 Hk L1 Hb. unfold vcopy. rewrite !u32_small by lia.
    rewrite (bind_step _ _ _ _ _ (vload8_ok s1 (src + k) L1 ltac:(lia) (or_introl (HK k Hk)))). by rewrite Hb by (lia || auto). }
  destruct (dst <? src).
  - destruct (fill_ok s dst (Z.to_nat n) (vcopy dst src) (fun k => k) (fun k => vbyte s (src + k))) as (s' & E & Hw);
      rewrite ?Z2Nat.id in * by lia; try done; eauto.
    intros k Hk. split; [done|apply read8_range].
  - destruct (fill_ok s dst (Z.to_nat n) (fun k => vcopy dst src (n - k - 1)) (fun k => n - k - 1) (fun k => vbyte s (src + k))) as (s' & E & Hw);
      rewrite ?Z2Nat.id in * by lia; try done; eauto.
    + intros k Hk. split; [lia|apply read8_range].
    + intros k s1 Hk L1 Hb. apply Hcopy; [lia|done|done].
    + intros j Hj. exists (n - 1 - j). lia.
Qed.
End Loading.

Arguments wrote : clear implicits.

(** * Mapping the pages of a segment *)

Lemma table_used s f : wf s -> is_table s f -> Pmm.bit (pg_pmm s) f = true.
Proof.
  intros Hwf [H|(i & Hi & Hp & Ht)].
  - destruct (wf_pd _ Hwf) as (g & Eg & _ & _ & Hb). by replace f with g by lia.
  - destruct (wf_table _ Hwf i Hi Hp) as [(g & Eg & _ & _ & Hb) _]. by replace f with g by lia.
Qed.

(** Taking a frame from the allocator. *)
Lemma grows_set_pmm B s p f : Pmm.flips (pg_pmm s) p f true -> grows B s (set_pmm p s).
Proof.
  intros [Hc Hb]. split; [|done|by left|done]. split; [done|done| |done].
  intros g Hg Hbg. cbn. rewrite Hb by done. by case_decide.
Qed.

Lemma AllocFrame_below B s :
  wf s -> B <= g_frameCap (pg_pmm s) -> 0 < free_below B s ->
  exists f p, on_pmm Pmm.AllocFrame s = Some (4096 * f, set_pmm p s) /\ 0 < f < B /\
    Pmm.bit (pg_pmm s) f = false /\ wf (set_pmm p s) /\ Pmm.flips (pg_pmm s) p f true.
Proof.
  intros Hwf HB (g & Hg & Hbg)%free_below_pos.
  destruct (alloc_step s) as [(f & p & E & Hf & Hb & Hlow & Hwfp & Hfl)|[_ Hall]]; [apply Hwf|apply Hwf| |].
  - assert (f <= g) by (destruct (decide (g < f)); [rewrite Hlow in Hbg by lia; done|lia]).
    exists f, p. split_and!; try done; try lia. pose proof Hfl as [Hc Hbits]. apply wf_set_pmm; try done.
    intros h Hh Hbh. rewrite Hbits by done. by case_decide.
  - by rewrite Hall in Hbg by lia.
Qed.

(** [W] with the [n] pages from [p] on. *)
Definition span (p n : Z) (W : Z -> Prop) : Z -> Prop := fun q => p <= q < p + n \/ W q.

(** A page mapped to a frame [f] that was free. *)
Lemma loading_add B K W s s' p f :
  loading B K W s -> wf s' -> grows B s s' -> B <= p < 2 ^ 20 -> ~ W p ->
  0 < f < B -> Pmm.bit (pg_pmm s) f = false -> Pmm.bit (pg_pmm s') f = true -> ~ is_table s' f ->
  mapped s' p -> frame s' p = f ->
  (forall q, 0 <= q < 2 ^ 20 -> q <> p -> pte_of s' (4096 * q) = pte_of s (4096 * q)) ->
  loading B K (span p 1 W) s' /\ same_view K W s s'.
Proof.
  intros L Hwf' G Hp Hnw Hf Hb Hb' Hnt Hm Hfr Hpte. pose proof L as [L1 L2 L3 L4 L5 L6 L7 L8].
  pose proof (gr_ext _ _ _ G) as [X1 X2 X3 _]. injection X1 as _ _ Xc.
  assert (Hdata : forall g, 0 <= g -> Pmm.bit (pg_pmm s) g = true -> ~ is_table s g -> ~ is_table s' g).
  { intros g Hg Hbg Hn Ht. destruct (gr_new _ _ _ G g Hg Ht) as [?|[? _]]; [done|congruence]. }
  assert (Hq : forall q, K q \/ W q -> 0 <= q < 2 ^ 20 /\ q <> p).
  { intros q Hv. split; [by apply (view_mapped s q L)|]. intros ->. destruct Hv as [Hv|Hv]; [|done]. pose proof (L6 _ Hv). lia. }
  split.
  - split; try done.
    + by rewrite X2.
    + by rewrite Xc.
    + intros q Hqr. unfold mapped, frame. rewrite Hpte by lia. by apply L4.
    + intros g Ht. destruct (decide (0 <= g)); [|lia]. destruct (gr_new _ _ _ G g) as [?|[_ ?]]; auto.
    + intros q HK. destruct (L6 q HK) as (Hr & Hbq & Hn). split_and!; [lia|lia|apply X3; [lia|done]|apply Hdata; [lia|done|done]].
    + intros q [Eq|HW]; [assert (q = p) as -> by lia; rewrite Hfr; split_and!; try done; try lia; intros HK; destruct (L6 f HK) as (_ & ? & _); congruence|].
      unfold mapped, frame. rewrite Hpte by (apply Hq; auto). destruct (L7 q HW) as (Hr & Hmq & Hfq & Hbq & Hn & HnK).
      split_and!; try done; try lia; try (unfold frame in *; lia); [apply X3; [unfold frame in *; lia|done]|apply Hdata; [unfold frame in *; lia|done|done]].
    + assert (Hnew : forall q, W q -> frame s' q <> f).
      { intros q HW. unfold frame. rewrite Hpte by (apply Hq; auto). destruct (L7 q HW) as (_ & _ & _ & Hbq & _). unfold frame in Hbq. congruence. }
      intros q1 q2 [E1|H1] [E2|H2] E; try (assert (q1 = p) as -> by lia); try (assert (q2 = p) as -> by lia); try done; [by destruct (Hnew q2 H2); congruence|by destruct (Hnew q1 H1); congruence|].
      unfold frame in E. rewrite !Hpte in E by (apply Hq; auto). by apply L8.
  - split. intros va Hva Hv. unfold vbyte. destruct (view_mapped s _ L Hv) as [Hmv _]. destruct (Hq _ Hv) as [Hr Hne].
    rewrite (phys_ext s s') by (rewrite (pte_of_page s' va), (pte_of_page s va) by done; by apply Hpte).
    rewrite phys_frame by done. apply (gr_data _ _ _ G); [|zdiv|].
    + destruct Hv as [HK|HW]; [destruct (L6 _ HK) as (Hr' & _); rewrite (proj2 (L4 _ Hr')); lia|destruct (L7 _ HW) as (_ & _ & ? & _); lia].
    + destruct Hv as [HK|HW]; [destruct (L6 _ HK) as (Hr' & ? & ?); rewrite (proj2 (L4 _ Hr')); apply Hdata; [lia|done|done]|].
      destruct (L7 _ HW) as (_ & _ & ? & ? & ? & _). apply Hdata; [lia|done|done].
Qed.

Lemma loading_ext B K W W' s : (forall p, W p <-> W' p) -> loading B K W s -> loading B K W' s.
Proof.
  intros H [L1 L2 L3 L4 L5 L6 L7 L8]. split; try done.
  - intros p Hp. by apply L7, H.
  - intros p q Hp Hq. apply L8; by apply H.
Qed.

(** The entry of a loaded page before the flags are reduced. *)
Definition LOADED : Z := 7.

(** What mapping the pages from [p] on leaves: zeroed pages, the others as before. *)
Record fresh (B : Z) (K W : Z -> Prop) (p n : Z) (s s' : paging) : Prop := {
  fr_loading : loading B K (span p n W) s';
  fr_free : free_below B s - 2 * n <= free_below B s';
  fr_view : same_view K W s s';
  fr_zero : forall va, p * 4096 <= va < (p + n) * 4096 -> vbyte s' va = 0;
  fr_flags : forall va, p * 4096 <= va < (p + n) * 4096 -> pte_of s' va mod 4096 = LOADED;
  fr_other : forall va, 0 <= va < 2 ^ 32 -> va < p * 4096 \/ (p + n) * 4096 <= va -> pte_of s' va = pte_of s va;
}.

Lemma page_iff va p : va / 4096 = p <-> p * 4096 <= va < (p + 1) * 4096.
Proof. split; zdiv. Qed.

Lemma map_page_ok B K W s p :
  loading B K W s -> B <= p < 2 ^ 20 -> ~ W p -> 2 <= free_below B s ->
  exists s', map_page (4096 * p) s = Some (None, s') /\ fresh B K W p 1 s s'.
Proof.
  intros L Hp Hnw Hfree. pose proof L as [L1 L2 L3 L4 L5 L6 L7 L8]. assert (Hva : 0 <= 4096 * p < 2 ^ 32) by lia.
  assert (Hd : 4096 * p / 4096 = p) by (apply page_iff; lia).
  unfold map_page. destruct (UnmapPage_grows B s (4096 * p) L1 Hva) as (s1 & E1 & Hwf1 & G1 & Hpm1 & Hpte1).
  rewrite (bind_step _ _ _ _ _ E1).
  assert (Hfb1 : free_below B s1 = free_below B s) by (unfold free_below; by rewrite Hpm1).
  destruct (AllocFrame_below B s1 Hwf1) as (f & q & E2 & Hf & Hb & Hwf2 & Hfl); [rewrite Hpm1; lia|lia|].
  rewrite (bind_step _ _ _ _ _ E2). destruct (Z.eqb_spec (4096 * f) 0); [lia|].
  rewrite bind_kassert by (rewrite Z.mul_comm; apply Pmm.page_aligned).
  pose proof (grows_set_pmm B s1 q f Hfl) as G2. set (s2 := set_pmm q s1) in *. pose proof Hfl as [Hcap Hbits].
  assert (Hfb2 : free_below B s2 = free_below B s - 1) by (unfold s2; rewrite (free_below_flips B s1 q f) by (done || lia); lia).
  assert (Hb2 : Pmm.bit (pg_pmm s2) f = true) by (cbn; rewrite Hbits by lia; by rewrite decide_True).
  destruct (MapPage_grows B s2 (4096 * p) (4096 * f) (Z.lor (Z.lor Present RW) User)) as (s3 & E3 & Hwf3 & G3 & Hfb3 & Hpte3);
    [done|done|lia|rewrite Z.mul_comm; apply Z.mod_mul; lia|cbn [pg_pmm set_pmm s2]; rewrite Hcap, Hpm1; lia|lia|].
  rewrite (bind_step _ _ _ _ _ E3). change (entry_flags (Z.lor (Z.lor Present RW) User)) with 7 in Hpte3.
  assert (G : grows B s s3) by (etrans; [exact G1|]; by etrans).
  assert (Hpage : forall va, p * 4096 <= va < (p + 1) * 4096 -> pte_of s3 va = 4096 * f + 7).
  { intros va Hr. rewrite Hpte3 by lia. rewrite Hd, decide_True; [done|by apply page_iff]. }
  assert (Hother : forall va, 0 <= va < 2 ^ 32 -> va / 4096 <> p -> pte_of s3 va = pte_of s va).
  { intros va Hr Hne. rewrite Hpte3, Hd, decide_False by done.
    change (pte_of s2 va) with (pte_of s1 va). by rewrite Hpte1, Hd, decide_False by done. }
  assert (Hnt : ~ is_table s3 f).
  { intros Ht. destruct (gr_new _ _ _ G3 f ltac:(lia) Ht) as [Ht2|[Hc _]]; [|congruence].
    rewrite (table_used s1 f Hwf1 Ht2) in Hb. done. }
  destruct (loading_add B K W s s3 p f) as [L' V]; try done; try lia.
  { congruence. } { apply (ext_used _ _ (gr_ext _ _ _ G3)); [lia|done]. }
  { unfold mapped. rewrite Hpage by lia. unfold is_present. apply Z.eqb_eq. clear. zdiv. }
  { unfold frame. rewrite Hpage by lia. clear. zdiv. }
  { intros r Hr Hne. apply Hother; [lia|]. replace (4096 * r / 4096) with r; [done|]. symmetry. apply page_iff. lia. }
  destruct (fill_ok s3 (4096 * p) 4096 (fun j => vstore8 (u32 (4096 * p + j)) 0) (fun k => k) (fun _ => 0) L') as (s' & E4 & [R1 R2 R3 R4]);
    [lia|lia|intros k Hk; left; assert ((4096 * p + k) / 4096 = p) as -> by (apply page_iff; lia); lia|intros; lia|intros k s4 Hk _ _; by rewrite u32_small by lia|eauto|].
  rewrite (bind_step _ _ _ _ _ E4). exists s'. split; [done|]. split; [done| | | | |].
  - unfold free_below in *. rewrite R2. lia.
  - split. intros va Hr Hv. rewrite R4; [|done|destruct Hv; [by left|right; by right]].
    rewrite decide_False; [by apply V|]. intros Hc. assert (va / 4096 = p) as E by (apply page_iff; lia). rewrite E in Hv.
    destruct Hv as [HK|]; [|done]. pose proof (L6 _ HK). lia.
  - intros va Hr. pose proof (proj2 (page_iff va p) Hr) as Hq. rewrite R4; [|lia|right; left; lia]. by rewrite decide_True by lia.
  - intros va Hr. rewrite R3, Hpage by lia. unfold LOADED. clear. zdiv.
  - intros va Hr Hne. rewrite R3 by done. apply Hother; [done|]. rewrite page_iff. lia.
Qed.

Lemma fresh_step B K W p n s s1 s2 :
  0 <= n -> 0 <= p -> p + 1 + n <= 2 ^ 20 -> fresh B K W p 1 s s1 -> fresh B K (span p 1 W) (p + 1) n s1 s2 -> fresh B K W p (1 + n) s s2.
Proof.
  intros Hn Hp Hr [A1 A2 [A3] A4 A5 A6] [B1 B2 [B3] B4 B5 B6].
  assert (Hzero : forall va, p * 4096 <= va < (p + 1) * 4096 -> vbyte s2 va = 0).
  { intros va Hva. rewrite B3 by (lia || (right; left; zdiv)). by apply A4. }
  split.
  - eapply loading_ext; [|exact B1]. intros q. unfold span. split; [intros [|[|]]|intros [|]]; try (left; lia); try (by right; right); try (by right).
    destruct (decide (q = p)); [right; left; lia|left; lia].
  - lia.
  - split. intros va Hva Hv. rewrite B3, A3; try done. destruct Hv; [by left|right; by right].
  - intros va Hva. destruct (decide (va < (p + 1) * 4096)); [apply Hzero; lia|apply B4; lia].
  - intros va Hva. destruct (decide (va < (p + 1) * 4096)); [rewrite B6 by lia; apply A5; lia|apply B5; lia].
  - intros va Hva Ho. rewrite B6, A6 by lia. done.
Qed.

Lemma map_pages_ok B K n : forall W s vp off p,
  vp + off = 4096 * p -> loading B K W s -> B <= p -> p + Z.of_nat n <= 2 ^ 20 ->
  (forall q, p <= q < p + Z.of_nat n -> ~ W q) -> 2 * Z.of_nat n <= free_below B s ->
  exists s', map_pages n vp off s = Some (None, s') /\ fresh B K W p (Z.of_nat n) s s'.
Proof.
  induction n as [|n IH]; intros W s vp off p Evp L Hp Hr Hnw Hfree; pose proof (ld_B _ _ _ _ L).
  { exists s. split; [done|]. split; try done; try lia; try (intros; lia).
    eapply loading_ext; [|exact L]. intros q. unfold span. split; [by right|intros [|]; [lia|done]]. }
  cbn [map_pages]. rewrite Evp, u32_small by lia.
  destruct (map_page_ok B K W s p L) as (s1 & E1 & F1); [lia|apply Hnw; lia|lia|]. rewrite (bind_step _ _ _ _ _ E1).
  destruct (IH (span p 1 W) s1 vp (off + PAGE_SIZE) (p + 1)) as (s2 & E2 & F2); [unfold PAGE_SIZE; lia|apply F1|lia|lia| | |].
  - intros q Hq [|HW]; [lia|]. by apply (Hnw q); [lia|].
  - pose proof (fr_free _ _ _ _ _ _ _ F1). lia.
  - exists s2. split; [done|]. replace (Z.of_nat (S n)) with (1 + Z.of_nat n) by lia. apply (fresh_step B K W p _ s s1 s2); try done; lia.
Qed.

(** The size of the mapping, in pages. *)
Definition pages (vaddr memsz : Z) : Z := (vaddr + memsz + 4095) / 4096 - vaddr / 4096.

Lemma mapSize_pages vaddr memsz :
  4096 <= vaddr -> 0 <= memsz -> vaddr + memsz <= 2 ^ 32 -> mapSize vaddr memsz = 4096 * pages vaddr memsz.
Proof.
  intros Hv Hm Hs. unfold mapSize, PAGE_SIZE, pages. rewrite land_fff.
  rewrite (u32_small (vaddr mod 4096 + memsz)) by zdiv. rewrite u32_small by zdiv. rewrite land_hi20 by zdiv. zdiv.
Qed.

Lemma vpage_spec vaddr : 0 <= vaddr < 2 ^ 32 -> vpage vaddr = 4096 * (vaddr / 4096).
Proof. apply land_hi20. Qed.

(** Reducing the flags of loaded pages changes nothing else. *)
Lemma loading_remap B K W s s' p :
  loading B K W s -> W p -> wf s' -> grows B s s' -> pg_pmm s' = pg_pmm s ->
  (forall va, 0 <= va < 2 ^ 32 -> pte_of s' va = if decide (va / 4096 = p) then 4096 * frame s p + 5 else pte_of s va) ->
  loading B K W s' /\ same_view K W s s'.
Proof.
  intros L HW Hwf G Hpm Hpte. pose proof L as [L1 L2 L3 L4 L5 L6 L7 L8]. pose proof (gr_ext _ _ _ G) as [X1 _ _ _]. injection X1 as _ _ Xc.
  assert (Hf : forall q, 0 <= q < 2 ^ 20 -> mapped s q -> mapped s' q /\ frame s' q = frame s q).
  { intros q Hq Hm. unfold mapped, frame in *. rewrite Hpte by lia. replace (4096 * q / 4096) with q by zdiv.
    case_decide as Hd; [|done]. subst q. unfold is_present. split; [apply Z.eqb_eq|]; zdiv. }
  assert (Hn : forall f, 0 <= f -> Pmm.bit (pg_pmm s) f = true -> ~ is_table s f -> ~ is_table s' f).
  { intros f Hf0 Hb Hn Ht. destruct (gr_new _ _ _ G f Hf0 Ht) as [?|[? _]]; [done|congruence]. }
  split.
  - split; rewrite ?Hpm; try done.
    + by rewrite Xc.
    + intros q Hq. destruct (L4 q Hq) as [Hm Ef]. rewrite <- Ef at 3. apply Hf; [lia|done].
    + intros f Ht. destruct (decide (0 <= f)); [|lia]. destruct (gr_new _ _ _ G f) as [?|[_ ?]]; auto.
    + intros q HK. destruct (L6 q HK) as (Hr & Hb & Ht). split_and!; try done; try lia. apply Hn; [lia|done|done].
    + intros q HWq. destruct (L7 q HWq) as (Hr & Hm & Hfr & Hb & Ht & HnK). destruct (Hf q) as [Hm' Ef]; [lia|done|].
      rewrite Ef. split_and!; try done; try lia. apply Hn; [lia|done|done].
    + intros q1 q2 H1 H2. destruct (L7 q1 H1) as (R1 & M1 & _). destruct (L7 q2 H2) as (R2 & M2 & _).
      rewrite (proj2 (Hf q1 ltac:(lia) M1)), (proj2 (Hf q2 ltac:(lia) M2)). by apply L8.
  - split. intros va Hva Hv. destruct (view_mapped s _ L Hv) as [Hm Hr]. destruct (Hf _ Hr Hm) as [Hm' Ef].
    unfold vbyte. rewrite !phys_frame by done. rewrite Ef. apply (gr_data _ _ _ G); [|zdiv|].
    all: destruct Hv as [HK|HWv]; [destruct (L6 _ HK) as (Hr' & ? & ?); rewrite (proj2 (L4 _ Hr'))|destruct (L7 _ HWv) as (_ & _ & ? & ? & ? & _)]; try lia; apply Hn; try done; lia.
Qed.

Definition kept (K : Z -> Prop) (s s' : paging) : Prop :=
  forall va, 0 <= va < 2 ^ 32 -> K (va / 4096) -> vbyte s' va = vbyte s va.

#[export] Instance kept_preorder K : PreOrder (kept K).
Proof. split; [by intros s va|]. intros s1 s2 s3 H1 H2 va Hva HK. by rewrite H2, H1. Qed.

Lemma protect_pages_ok B K W n s p :
  loading B K W s -> (forall q, p <= q < p + Z.of_nat n -> W q) ->
  exists s', protect_pages n (4096 * p) s = Some (tt, s') /\ loading B K W s' /\ same_view K W s s' /\
    free_below B s' = free_below B s /\
    forall va, 0 <= va < 2 ^ 32 -> if decide (p <= va / 4096 < p + Z.of_nat n) then pte_of s' va mod 4096 = 5 else pte_of s' va = pte_of s va.
Proof.
  intros L HW. unfold protect_pages.
  destruct (hoare_for n 0 (fun k => RemapPageFlags (u32 (4096 * p + PAGE_SIZE * k)) (Z.lor Present User)) (fun k s' =>
    loading B K W s' /\ same_view K W s s' /\ free_below B s' = free_below B s /\
    forall va, 0 <= va < 2 ^ 32 -> if decide (p <= va / 4096 < p + k) then pte_of s' va mod 4096 = 5 else pte_of s' va = pte_of s va))
    with (s := s) as ([] & s' & E & H).
  - intros k Hk s1 (L1 & [V1] & Hfb & Hpte). pose proof (HW (p + k) ltac:(lia)) as HWk.
    destruct (view_mapped s1 (p + k) L1 (or_intror HWk)) as [Hm Hr].
    replace (4096 * p + PAGE_SIZE * k) with (4096 * (p + k)) by (unfold PAGE_SIZE; lia). rewrite u32_small by lia.
    destruct (RemapPageFlags_grows B s1 (4096 * (p + k)) (Z.lor Present User)) as (s2 & E2 & Hwf2 & G2 & Hpm2 & Hpte2); [apply L1|lia|done|].
    exists tt, s2. split; [done|]. change (entry_flags (Z.lor Present User)) with 5 in Hpte2.
    assert (Hd : 4096 * (p + k) / 4096 = p + k) by zdiv. rewrite Hd in Hpte2.
    destruct (loading_remap B K W s1 s2 (p + k)) as [L2 [V2]]; try done. split_and!; [done|split|unfold free_below in *; by rewrite Hpm2|].
    + intros va Hva Hv. rewrite V2, V1 by done. done.
    + intros va Hva. rewrite Hpte2 by done. specialize (Hpte va Hva). destruct (decide (va / 4096 = p + k)) as [Hv|Hv].
      * rewrite decide_True by lia. zdiv.
      * destruct (decide (p <= va / 4096 < p + k)); [rewrite decide_True by lia|rewrite decide_False by lia]; done.
  - split_and!; [done|by split|done|]. intros va Hva. by rewrite decide_False by lia.
  - exists s'. rewrite Z.add_0_l in H. by split.
Qed.

(** ** Words of the image *)

Definition vhalf (s : paging) (a : Z) : Z := vbyte s a + 256 * vbyte s (a + 1).
Definition vword (s : paging) (a : Z) : Z := vhalf s a + 65536 * vhalf s (a + 2).

(** The program header at [a]. *)
Record Elf32_Phdr := mk_phdr { ph_type : Z; ph_offset : Z; ph_vaddr : Z; ph_filesz : Z; ph_memsz : Z; ph_flags : Z }.
Definition read_phdr (s : paging) (a : Z) : Elf32_Phdr :=
  mk_phdr (vword s (a + p_type)) (vword s (a + p_offset)) (vword s (a + p_vaddr))
    (vword s (a + p_filesz)) (vword s (a + p_memsz)) (vword s (a + p_flags)).

Section Words.
Context (B : Z) (K W : Z -> Prop) (lo hi : Z).
Hypothesis Hlo : 0 <= lo.
Hypothesis Hhi : hi < 2 ^ 32.
Hypothesis HK : forall va, lo <= va < hi -> K (va / 4096).

Lemma vload8_image s a : loading B K W s -> lo <= a < hi -> vload8 a s = Some (vbyte s a, s).
Proof. intros L Ha. apply (vload8_ok s a L); [lia|left; auto]. Qed.

Lemma vload16_image s a : loading B K W s -> lo <= a -> a + 2 <= hi -> vload16 a s = Some (vhalf s a, s).
Proof.
  intros L H1 H2. unfold vload16. rewrite u32_small by lia. by rewrite (bind_step _ _ _ _ _ (vload8_image s a L ltac:(lia))), (bind_step _ _ _ _ _ (vload8_image s (a + 1) L ltac:(lia))).
Qed.

Lemma vload32_image s a : loading B K W s -> lo <= a -> a + 4 <= hi -> vload32 a s = Some (vword s a, s).
Proof.
  intros L H1 H2. unfold vload32. rewrite u32_small by lia.
  by rewrite (bind_step _ _ _ _ _ (vload16_image s a L ltac:(lia) ltac:(lia))), (bind_step _ _ _ _ _ (vload16_image s (a + 2) L ltac:(lia) ltac:(lia))).
Qed.

Lemma vhalf_kept s s' a : kept K s s' -> lo <= a -> a + 2 <= hi -> vhalf s' a = vhalf s a.
Proof. intros Hk H1 H2. unfold vhalf. rewrite !Hk; try lia; apply HK; lia. Qed.

Lemma vword_kept s s' a : kept K s s' -> lo <= a -> a + 4 <= hi -> vword s' a = vword s a.
Proof. intros Hk H1 H2. unfold vword. rewrite !(vhalf_kept s s') by (done || lia). done. Qed.

Lemma read_phdr_kept s s' a : kept K s s' -> lo <= a -> a + 32 <= hi -> read_phdr s' a = read_phdr s a.
Proof.
  intros Hk H1 H2. unfold read_phdr, p_type, p_offset, p_vaddr, p_filesz, p_memsz, p_flags.
  rewrite !(vword_kept s s') by (done || lia). done.
Qed.

Lemma phdr_image s ph i field : loading B K W s -> lo <= ph + 32 * i -> ph + 32 * i + 32 <= hi -> 0 <= field <= 28 ->
  phdr ph i field s = Some (vword s (ph + 32 * i + field), s).
Proof. intros L H1 H2 H3. unfold phdr, PHDR_SIZE. rewrite u32_small by lia. apply vload32_image; [done|lia|lia]. Qed.
End Words.

Lemma vhalf_range s a : 0 <= vhalf s a < 65536.
Proof. unfold vhalf, vbyte. pose proof (read8_range (pg_mem s) (phys s a)). pose proof (read8_range (pg_mem s) (phys s (a + 1))). lia. Qed.

Lemma vword_range s a : 0 <= vword s a < 2 ^ 32.
Proof. unfold vword. pose proof (vhalf_range s a). pose proof (vhalf_range s (a + 2)). lia. Qed.

(** * Loading a segment *)

(** A segment whose file part is in the image and whose pages are above [B]. *)
Record phdr_ok (B size : Z) (g : Elf32_Phdr) : Prop := {
  po_file : ph_offset g + ph_filesz g <= size;
  po_mem : ph_filesz g <= ph_memsz g;
  po_pos : 0 < ph_memsz g;
  po_low : 4096 * B <= ph_vaddr g;
  po_high : ph_vaddr g + ph_memsz g < 2 ^ 32;
}.

Definition first_page (g : Elf32_Phdr) : Z := ph_vaddr g / 4096.
Definition npages (g : Elf32_Phdr) : Z := pages (ph_vaddr g) (ph_memsz g).
Definition in_pages (g : Elf32_Phdr) (p : Z) : Prop := first_page g <= p < first_page g + npages g.

(** What the pages of a segment hold once it is loaded: the bytes of the file,
    and zeros before and after them; they can be written when the flags say so. *)
Record placed (image : Z) (g : Elf32_Phdr) (s s' : paging) : Prop := {
  pl_bytes : forall va, in_pages g (va / 4096) -> vbyte s' va =
    if decide (ph_vaddr g <= va < ph_vaddr g + ph_filesz g) then vbyte s (image + ph_offset g + (va - ph_vaddr g)) else 0;
  pl_flags : forall va, in_pages g (va / 4096) -> pte_of s' va mod 4096 = if Z.land (ph_flags g) PF_W =? 0 then 5 else 7;
}.

Lemma wrote_kept B K W P s s' :
  wrote B K W P s s' -> (forall x, K (x / 4096) -> P x = None) -> kept K s s'.
Proof. intros Hw HP va Hva HK. rewrite (wr_bytes _ _ _ Hw) by auto. by rewrite HP. Qed.

Lemma same_view_kept K W s s' : same_view K W s s' -> kept K s s'.
Proof. intros [V] va Hva HK. auto. Qed.

Lemma wrote_free B K W P s s' : wrote B K W P s s' -> free_below B s' = free_below B s.
Proof. intros Hw. unfold free_below. by rewrite (wr_pmm _ _ _ Hw). Qed.

Section Segment.
Context (B : Z) (K W : Z -> Prop) (image size : Z).
Hypothesis Himage : 0 <= image.
Hypothesis Hend : image + size < 2 ^ 32.
Hypothesis HK : forall va, image <= va < image + size -> K (va / 4096).

(** The copy of the file part and the zeros after it. *)
Lemma fill_segment_ok s g :
  loading B K W s -> phdr_ok B size g -> 0 <= ph_offset g -> 0 <= ph_filesz g -> (forall p, in_pages g p -> W p) ->
  exists s1 s2, vmemmove (ph_vaddr g) (u32 (image + ph_offset g)) (ph_filesz g) s = Some (tt, s1) /\ kept K s s1 /\ loading B K W s1 /\
    (if ph_filesz g <? ph_memsz g then vmemset (u32 (ph_vaddr g + ph_filesz g)) 0 (ph_memsz g - ph_filesz g) else ret tt) s1 = Some (tt, s2) /\
    wrote B K W (fun va => if decide (ph_vaddr g <= va < ph_vaddr g + ph_filesz g) then Some (vbyte s (image + ph_offset g + (va - ph_vaddr g)))
      else if decide (ph_vaddr g + ph_filesz g <= va < ph_vaddr g + ph_memsz g) then Some 0 else None) s s2.
Proof.
  intros L [F1 F2 F3 F4 F5] H0 H1 HW. pose proof (ld_B _ _ _ _ L).
  assert (Hpg : forall k, 0 <= k < ph_memsz g -> W ((ph_vaddr g + k) / 4096)).
  { intros k Hk. apply HW. unfold in_pages, first_page, npages, pages. zdiv. }
  assert (HnK : forall x, K (x / 4096) -> ph_vaddr g <= x -> False).
  { intros x Hx Hle. pose proof (ld_K _ _ _ _ L _ Hx). zdiv. }
  rewrite (u32_small (image + ph_offset g)) by lia.
  destruct (vmemmove_ok s (ph_vaddr g) (image + ph_offset g) (ph_filesz g) L) as (s1 & E1 & W1);
    [lia|lia|lia|intros; apply Hpg; lia|lia|lia|intros; apply HK; lia|].
  assert (Hk1 : kept K s s1) by (eapply wrote_kept; [exact W1|]; intros x Hx; cbv beta; rewrite decide_False; [done|]; intros [? _]; eauto).
  pose proof W1 as [A1 A2 A3 A4]. exists s1. destruct (Z.ltb_spec (ph_filesz g) (ph_memsz g)).
  - rewrite u32_small by lia.
    destruct (vmemset_ok s1 (ph_vaddr g + ph_filesz g) 0 (ph_memsz g - ph_filesz g) A1) as (s2 & E2 & [B1 B2 B3 B4]);
      [lia|lia|lia|intros k Hk; rewrite <- Z.add_assoc; apply Hpg; lia|lia|].
    exists s2. split_and!; try done. split; [done|congruence|intros; rewrite B3, A3 by done; done|].
    intros x Hx Hv. rewrite B4, A4 by done. repeat case_decide; cbn; try done; lia.
  - exists s1. split_and!; try done. split; try done. intros x Hx Hv. rewrite A4 by done. repeat case_decide; cbn; try done; lia.
Qed.
End Segment.

Section Header.
Context (B : Z) (K W : Z -> Prop) (image size : Z).
Hypothesis Himage : 0 <= image.
Hypothesis Hend : image + size < 2 ^ 32.
Hypothesis HK : forall va, image <= va < image + size -> K (va / 4096).
Context (ph i : Z).
Hypothesis Hph : image <= ph + 32 * i.
Hypothesis Hphe : ph + 32 * i + 32 <= image + size.

Lemma field_step {A} W' s s0 field (k : Z -> ST paging A) :
  loading B K W' s -> kept K s0 s -> 0 <= field <= 28 -> bind (phdr ph i field) k s = k (vword s0 (ph + 32 * i + field)) s.
Proof.
  intros L Hk Hf. rewrite (bind_step _ _ _ _ _ (phdr_image B K W' image (image + size) Himage Hend HK s ph i field L Hph Hphe Hf)).
  by rewrite (vword_kept K image (image + size) Himage Hend HK s0 s) by (done || lia).
Qed.

Lemma fields_of s g : g = read_phdr s (ph + 32 * i) ->
  vword s (ph + 32 * i + p_type) = ph_type g /\ vword s (ph + 32 * i + p_offset) = ph_offset g /\ vword s (ph + 32 * i + p_vaddr) = ph_vaddr g /\
  vword s (ph + 32 * i + p_filesz) = ph_filesz g /\ vword s (ph + 32 * i + p_memsz) = ph_memsz g /\ vword s (ph + 32 * i + p_flags) = ph_flags g.
Proof. by intros ->. Qed.

(** The loop that drops [RW], when the segment is not writable. *)
Lemma protect_segment_ok W' s s0 g :
  loading B K W' s -> kept K s0 s -> g = read_phdr s0 (ph + 32 * i) -> phdr_ok B size g -> (forall p, in_pages g p -> W' p) ->
  (forall va, 0 <= va < 2 ^ 32 -> in_pages g (va / 4096) -> pte_of s va mod 4096 = LOADED) ->
  exists s', (if Z.land (ph_flags g) PF_W =? 0 then
      let! vaddr := phdr ph i p_vaddr in
      let! memsz := phdr ph i p_memsz in
      protect_pages (Z.to_nat (mapSize vaddr memsz / PAGE_SIZE)) (vpage vaddr)
    else ret tt) s = Some (tt, s') /\ loading B K W' s' /\ same_view K W' s s' /\ free_below B s' = free_below B s /\
    forall va, 0 <= va < 2 ^ 32 -> if decide (in_pages g (va / 4096)) then pte_of s' va mod 4096 = (if Z.land (ph_flags g) PF_W =? 0 then 5 else 7) else pte_of s' va = pte_of s va.
Proof.
  intros L Hk Eg [F1 F2 F3 F4 F5] HW Hfl. destruct (fields_of s0 g Eg) as (_ & _ & Ev & _ & Em & _). pose proof (ld_B _ _ _ _ L).
  destruct (Z.land (ph_flags g) PF_W =? 0).
  - rewrite (field_step W' s s0), Ev by done. rewrite (field_step W' s s0), Em by done.
    rewrite mapSize_pages, vpage_spec by lia. fold (first_page g). unfold PAGE_SIZE.
    replace (4096 * pages (ph_vaddr g) (ph_memsz g) / 4096) with (npages g) by (unfold npages; zdiv).
    assert (0 <= npages g) by (unfold npages, pages; zdiv).
    destruct (protect_pages_ok B K W' (Z.to_nat (npages g)) s (first_page g) L) as (s' & E & L' & V & Hf & Hpte).
    { intros q Hq. apply HW. unfold in_pages. lia. }
    exists s'. split_and!; try done. intros va Hva. specialize (Hpte va Hva). rewrite Z2Nat.id in Hpte by done. exact Hpte.
  - exists s. split_and!; try done. intros va Hva. case_decide; [by apply Hfl|done].
Qed.

Lemma load_segment_ok s g :
  loading B K W s -> g = read_phdr s (ph + 32 * i) -> phdr_ok B size g -> (forall p, in_pages g p -> ~ W p) -> 2 * npages g <= free_below B s ->
  exists s', load_segment image size ph i s = Some (None, s') /\ loading B K (span (first_page g) (npages g) W) s' /\
    free_below B s - 2 * npages g <= free_below B s' /\ same_view K W s s' /\ placed image g s s' /\
    forall va, 0 <= va < 2 ^ 32 -> ~ in_pages g (va / 4096) -> pte_of s' va = pte_of s va.
Proof.
  intros L Eg Hok Hnw Hfree. pose proof Hok as [F1 F2 F3 F4 F5]. pose proof (ld_B _ _ _ _ L) as HB. unfold load_segment.
  assert (Hr : 0 <= ph_offset g /\ 0 <= ph_filesz g) by (rewrite Eg; split; apply vword_range).
  assert (Hn : 0 < npages g /\ first_page g + npages g <= 2 ^ 20 /\ B <= first_page g) by (unfold npages, first_page, pages; zdiv).
  destruct (fields_of s g Eg) as (_ & Eo & Ev & Ef & Em & Efl).
  rewrite (field_step W s s), Eo by done. rewrite (field_step W s s), Ef by done.
  rewrite u32_small by lia. destruct (Z.ltb_spec size (ph_offset g + ph_filesz g)); [lia|].
  rewrite (field_step W s s), Ev by done. rewrite (field_step W s s), Em by done.
  rewrite mapSize_pages, vpage_spec by lia. fold (first_page g). unfold PAGE_SIZE at 1.
  replace (4096 * pages (ph_vaddr g) (ph_memsz g) / 4096) with (npages g) by (unfold npages; zdiv).
  destruct (map_pages_ok B K (Z.to_nat (npages g)) W s (4096 * first_page g) 0 (first_page g)) as (s1 & E1 & Hf1);
    rewrite ?Z2Nat.id in * by lia; [lia|done|lia|lia|by intros q Hq; apply Hnw|lia|].
  rewrite (bind_step _ _ _ _ _ E1). destruct Hf1 as [L1 G1 V1 Z1 P1 O1]. set (W1 := span (first_page g) (npages g) W) in *.
  assert (HW1 : forall p, in_pages g p -> W1 p) by (intros p Hp; by left). pose proof (same_view_kept _ _ _ _ V1) as K1.
  assert (Hdst : mapped s1 (ph_vaddr g / 4096) /\ 0 < frame s1 (ph_vaddr g / 4096)).
  { destruct (ld_W _ _ _ _ L1 (ph_vaddr g / 4096)) as (_ & ? & ? & _); [apply HW1; unfold in_pages, first_page in *; lia|]. split; [done|lia]. }
  destruct Hdst as [Hm Hfr]. rewrite (bind_step _ _ _ _ _ (GetPhys_ok s1 (ph_vaddr g) (ld_wf _ _ _ _ L1) ltac:(lia))).
  fold (phys s1 (ph_vaddr g)). rewrite (phys_frame s1) by (done || lia).
  destruct (Z.eqb_spec (4096 * frame s1 (ph_vaddr g / 4096) + ph_vaddr g mod 4096) 0); [zdiv|]. cbn [negb]. rewrite (bind_step (kassert true) _ s1 tt s1) by done.
  rewrite (field_step W1 s1 s), Ef by done.
  destruct (fill_segment_ok B K W1 image size Himage Hend HK s1 g L1 Hok) as (s2 & s3 & E2 & K2 & L2 & E3 & W3); [lia|lia|done|].
  rewrite (bind_step _ _ _ _ _ E2). assert (Ks2 : kept K s s2) by (by etrans).
  rewrite (field_step W1 s2 s), Em by done. rewrite (field_step W1 s2 s), Ef by done. rewrite (bind_step _ _ _ _ _ E3).
  pose proof W3 as [L3 _ A3 A4]. pose proof (wrote_free _ _ _ _ _ _ W3) as Fr3.
  assert (Hin : forall va, 0 <= va < 2 ^ 32 -> in_pages g (va / 4096) -> first_page g * 4096 <= va < (first_page g + npages g) * 4096)
    by (intros va _; unfold in_pages; zdiv).
  assert (K3 : kept K s s3).
  { etrans; [exact K1|]. eapply wrote_kept; [exact W3|]. intros x Hx. pose proof (ld_K _ _ _ _ L _ Hx). cbv beta. rewrite !decide_False by zdiv. done. }
  rewrite (field_step W1 s3 s), Efl by done.
  destruct (protect_segment_ok W1 s3 s g) as (s4 & E4 & L4 & [V4] & Fr4 & P4); try done.
  { intros va Hva Hp. rewrite A3 by done. by apply P1, Hin. }
  rewrite (bind_step _ _ _ _ _ E4). exists s4. split; [done|]. split_and!; [done|lia| | |].
  - split. intros va Hva Hv. assert (Hv1 : K (va / 4096) \/ W1 (va / 4096)) by (destruct Hv; [by left|right; by right]).
    rewrite V4, A4 by done. rewrite !decide_False; [by apply V1|..].
    all: intros Hc; destruct Hv as [HKv|HWv]; [pose proof (ld_K _ _ _ _ L _ HKv); zdiv|].
    all: apply (Hnw (va / 4096)); [|done]; unfold in_pages, first_page, npages, pages in *; zdiv.
  - assert (H32 : forall va, in_pages g (va / 4096) -> 0 <= va < 2 ^ 32) by (intros va; unfold in_pages; zdiv).
    split; intros va Hp; pose proof (H32 va Hp) as Hva.
    + rewrite V4, A4 by (done || (right; by apply HW1)). repeat case_decide; cbn; try done.
      * apply K1; [lia|]. apply HK. lia.
      * by apply Z1, Hin.
    + specialize (P4 va Hva). by rewrite decide_True in P4.
  - intros va Hva Hnp. specialize (P4 va Hva). rewrite decide_False in P4 by done. rewrite P4, A3 by done. apply O1; [done|]. unfold in_pages in Hnp. zdiv.
Qed.
End Header.

(** * Loading a program *)

Section Program.
Context (B : Z) (K : Z -> Prop) (image size : Z) (s0 : paging).
Hypothesis Himage : 0 < image.
Hypothesis Hend : image + size < 2 ^ 32.
Hypothesis HK : forall va, image <= va < image + size -> K (va / 4096).

Definition phnum : Z := vhalf s0 (image + e_phnum).
Definition ph_table : Z := image + vword s0 (image + e_phoff).
Definition header (i : Z) : Elf32_Phdr := read_phdr s0 (ph_table + 32 * i).
Definition loads (i : Z) : Prop := 0 <= i < phnum /\ ph_type (header i) = PT_LOAD.

(** The pages of the segments with a number below [i]. *)
Definition loaded_below (i p : Z) : Prop := exists j, j < i /\ loads j /\ in_pages (header j) p.

(** The pages of [k] segments from [i] on. *)
Fixpoint total_pages (k : nat) (i : Z) : Z :=
  match k with
  | O => 0
  | S k' => (if ph_type (header i) =? PT_LOAD then npages (header i) else 0) + total_pages k' (i + 1)
  end.

(** An image that can be loaded: proper headers, segments of whole pages apart
    from each other, and the entry point in one of them. *)
Record loadable : Prop := {
  lb_size : EHDR_SIZE <= size;
  lb_ident : vbyte s0 image = 0x7F /\ vbyte s0 (image + 1) = 69 /\ vbyte s0 (image + 2) = 76 /\ vbyte s0 (image + 3) = 70 /\
    vbyte s0 (image + 4) = 1 /\ vbyte s0 (image + 5) = 1 /\ vbyte s0 (image + 6) = 1;
  lb_machine : vhalf s0 (image + e_machine) = EM_386;
  lb_table : vword s0 (image + e_phoff) + 32 * phnum <= size;
  lb_entsize : vhalf s0 (image + e_phentsize) = PHDR_SIZE;
  lb_segments : forall i, loads i -> phdr_ok B size (header i);
  lb_apart : forall i j p, loads i -> loads j -> i < j -> in_pages (header i) p -> ~ in_pages (header j) p;
  lb_entry : exists i, loads i /\ ph_vaddr (header i) <= vword s0 (image + e_entry) < ph_vaddr (header i) + ph_memsz (header i);
}.

(** The state after the segments below [i]. *)
Record loaded_upto (i : Z) (s : paging) : Prop := {
  lu_loading : loading B K (loaded_below i) s;
  lu_kept : kept K s0 s;
  lu_placed : forall j, j < i -> loads j -> placed image (header j) s0 s;
  lu_other : forall va, 0 <= va < 2 ^ 32 -> ~ loaded_below i (va / 4096) -> pte_of s va = pte_of s0 va;
}.

Hypothesis Hlb : loadable.

Lemma loaded_below_step i p : loads i -> loaded_below (i + 1) p <-> span (first_page (header i)) (npages (header i)) (loaded_below i) p.
Proof.
  intros Hi. split.
  - intros (j & Hj & Hl & Hp). destruct (decide (j = i)) as [->|]; [by left|right]. exists j. split_and!; [lia|done|done].
  - intros [Hp|(j & Hj & Hl & Hp)]; [exists i|exists j]; (split; [lia|done]).
Qed.

Lemma loaded_below_skip i p : ~ loads i -> loaded_below (i + 1) p <-> loaded_below i p.
Proof.
  intros Hi. split; intros (j & Hj & Hl & Hp); exists j; (split; [|done]); [|lia]. destruct (decide (j = i)) as [->|]; [done|lia].
Qed.

(** A segment loaded after others leaves them as they are. *)
Lemma placed_after i s s' j :
  j < i -> loads i -> loads j -> same_view K (loaded_below i) s s' ->
  (forall va, 0 <= va < 2 ^ 32 -> ~ in_pages (header i) (va / 4096) -> pte_of s' va = pte_of s va) ->
  placed image (header j) s0 s -> placed image (header j) s0 s'.
Proof.
  intros Hij Hi Hj [V] Hpte [P1 P2]. pose proof (lb_segments Hlb j Hj) as [F1 F2 F3 F4 F5]. assert (0 <= ph_vaddr (header j)) by apply vword_range.
  assert (H32 : forall va, in_pages (header j) (va / 4096) -> 0 <= va < 2 ^ 32).
  { intros va. unfold in_pages, first_page, npages, pages. zdiv. }
  split; intros va Hp; pose proof (H32 va Hp) as Hva.
  - rewrite V by (try done; right; exists j; by split_and!). by apply P1.
  - rewrite Hpte by (try done; intros Hpi; by apply (lb_apart Hlb j i (va / 4096))). by apply P2.
Qed.

Lemma phnum_step {A} i s (k : Z -> ST paging A) : loaded_upto i s -> bind (vload16 (u32 (image + e_phnum))) k s = k phnum s.
Proof.
  intros [L Hk _ _]. pose proof (lb_size Hlb). unfold EHDR_SIZE, e_phnum, phnum in *. rewrite u32_small by lia.
  rewrite (bind_step _ _ _ _ _ (vload16_image B K (loaded_below i) image (image + size) ltac:(lia) Hend HK s (image + 44) L ltac:(lia) ltac:(lia))).
  by rewrite (vhalf_kept K image (image + size) ltac:(lia) Hend HK s0 s) by (done || lia).
Qed.

Lemma header_place i : 0 <= i < phnum -> image <= ph_table + 32 * i /\ ph_table + 32 * i + 32 <= image + size.
Proof. intros Hi. pose proof (lb_table Hlb). pose proof (vword_range s0 (image + e_phoff)). unfold ph_table. lia. Qed.

Lemma type_step {A} i j s (k : Z -> ST paging A) : loaded_upto i s -> 0 <= j < phnum -> bind (phdr ph_table j p_type) k s = k (ph_type (header j)) s.
Proof.
  intros [L Hk _ _] Hj. destruct (header_place j Hj) as [H1 H2].
  by rewrite (field_step B K image size ltac:(lia) Hend HK ph_table j H1 H2 (loaded_below i) s s0).
Qed.

Lemma load_step_ok i s :
  loaded_upto i s -> loads i -> 2 * npages (header i) <= free_below B s ->
  exists s', load_segment image size ph_table i s = Some (None, s') /\ loaded_upto (i + 1) s' /\ free_below B s - 2 * npages (header i) <= free_below B s'.
Proof.
  intros [L Hk Hp Ho] Hi Hfree. destruct (header_place i (proj1 Hi)) as [H1 H2].
  destruct (load_segment_ok B K (loaded_below i) image size ltac:(lia) Hend HK ph_table i H1 H2 s (header i) L) as (s' & E & L' & Hf & V & Hpl & Hot); try done.
  { symmetry. by apply (read_phdr_kept K image (image + size) ltac:(lia) Hend HK). }
  { by apply lb_segments. }
  { intros p Hpi (j & Hj & Hl & Hpj). by apply (lb_apart Hlb j i p). }
  pose proof (same_view_kept _ _ _ _ V) as Hk'. exists s'. split; [done|]. split; [|done]. split.
  - eapply loading_ext; [|exact L']. intros p. symmetry. by apply loaded_below_step.
  - by etrans.
  - intros j Hj Hl. destruct (decide (j = i)) as [->|].
    + destruct Hpl as [P1 P2]. split; [|done]. intros va Hva. rewrite P1 by done. case_decide as Hd; [|done].
      pose proof (lb_segments Hlb i Hi) as [F1 _ _ _ _]. assert (0 <= ph_offset (header i)) by apply vword_range.
      apply Hk; [lia|apply HK; lia].
    + apply (placed_after i s s'); try done; [lia|]. apply Hp; [lia|done].
  - intros va Hva Hn. rewrite Hot, Ho; try done.
    + intros Hc. apply Hn, loaded_below_step; [done|by right].
    + intros Hc. apply Hn, loaded_below_step; [done|by left].
Qed.

Lemma total_pages_nonneg n : forall j, 0 <= j -> j + Z.of_nat n <= phnum -> 0 <= total_pages n j.
Proof.
  induction n as [|n IH]; intros j Hj Hjn; cbn [total_pages]; [lia|]. specialize (IH (j + 1) ltac:(lia) ltac:(lia)).
  destruct (Z.eqb_spec (ph_type (header j)) PT_LOAD) as [Ej|]; [|lia]. assert (Hl : loads j) by (split; [lia|done]).
  pose proof (lb_segments Hlb j Hl) as [_ _ ? _ _]. unfold npages, pages. zdiv.
Qed.

Lemma load_loop_ok k : forall fuel i s, 0 <= i -> i + Z.of_nat k = phnum -> (k < fuel)%nat -> loaded_upto i s -> 2 * total_pages k i <= free_below B s ->
  exists s', load_loop fuel image size ph_table i s = Some (None, s') /\ loaded_upto phnum s'.
Proof.
  induction k as [|k IH]; intros [|fuel] i s H0 Hi Hf Hl Hfree; try lia; cbn [load_loop]; rewrite (phnum_step i) by done.
  - destruct (Z.ltb_spec i phnum); [lia|]. exists s. split; [done|]. by replace phnum with i by lia.
  - destruct (Z.ltb_spec i phnum); [|lia]. rewrite (type_step i i) by (done || lia). cbn [total_pages] in Hfree.
    destruct (Z.eqb_spec (ph_type (header i)) PT_LOAD) as [Et|Et]; cbn [negb].
    + assert (Hli : loads i) by (split; [lia|done]).
      pose proof (total_pages_nonneg k (i + 1) ltac:(lia) ltac:(lia)).
      destruct (load_step_ok i s Hl Hli) as (s1 & E1 & Hl1 & Hf1); [lia|]. rewrite (bind_step _ _ _ _ _ E1). apply IH; try done; lia.
    + apply IH; try done; try lia. destruct Hl as [L Hk Hp Ho]. assert (Hn : ~ loads i) by (by intros [_ ?]). split.
      * eapply loading_ext; [|exact L]. intros p. symmetry. by apply loaded_below_skip.
      * done.
      * intros j Hj Hlj. apply Hp; [|done]. destruct (decide (j = i)) as [->|]; [done|lia].
      * intros va Hva Hv. apply Ho; [done|]. by rewrite <- loaded_below_skip.
Qed.

Lemma entry_loop_ok k : forall fuel i e s, 0 <= i -> i + Z.of_nat k = phnum -> (k < fuel)%nat -> loaded_upto phnum s ->
  (exists j, i <= j /\ loads j /\ ph_vaddr (header j) <= e < ph_vaddr (header j) + ph_memsz (header j)) ->
  entry_loop fuel image ph_table e i s = Some (true, s).
Proof.
  induction k as [|k IH]; intros [|fuel] i e s H0 Hi Hf Hl (j & Hij & Hlj & Hej); try lia; [destruct Hlj; lia|].
  cbn [entry_loop]. rewrite (phnum_step phnum) by done. destruct (Z.ltb_spec i phnum); [|lia].
  rewrite (type_step phnum i) by (done || lia).
  destruct (Z.eqb_spec (ph_type (header i)) PT_LOAD) as [Et|Et]; cbn [negb].
  - pose proof Hl as [L Hk _ _]. destruct (header_place i ltac:(lia)) as [H1 H2].
    destruct (fields_of ph_table i s0 (header i) eq_refl) as (_ & _ & Ev & Ef & Em & _).
    pose proof (field_step (A := bool) B K image size ltac:(lia) Hend HK ph_table i H1 H2 (loaded_below phnum) s s0) as Hfs.
    rewrite (Hfs p_vaddr), Ev by done. rewrite (Hfs p_memsz), Em by done. rewrite (Hfs p_filesz), Ef by done.
    assert (Hli : loads i) by (split; [lia|done]). pose proof (lb_segments Hlb i Hli) as [_ _ F3 F4 F5].
    destruct (Z.eqb_spec (ph_memsz (header i)) 0); [lia|]. assert (0 <= ph_vaddr (header i)) by apply vword_range. rewrite u32_small by lia.
    destruct (_ && _) eqn:Eb; [done|]. apply IH; try done; try lia. exists j. split; [|done].
    destruct (decide (j = i)) as [->|]; [|lia]. apply andb_false_iff in Eb as [Eb%Z.leb_gt|Eb%Z.ltb_ge]; lia.
  - apply IH; try done; try lia. exists j. split; [|done]. destruct (decide (j = i)) as [->|]; [by destruct Hlj|lia].
Qed.

Lemma check_header_ok : loading B K (fun _ => False) s0 -> check_header image size s0 = Some (inr ph_table, s0).
Proof.
  intros L. unfold check_header. pose proof (lb_size Hlb) as Hs. unfold EHDR_SIZE in *.
  destruct (Z.eqb_spec image 0); [lia|]. destruct (Z.ltb_spec size 52); [lia|]. cbn [orb].
  pose proof (vload8_image B K (fun _ => False) image (image + size) ltac:(lia) Hend HK s0) as H8.
  pose proof (vload16_image B K (fun _ => False) image (image + size) ltac:(lia) Hend HK s0) as H16.
  pose proof (vload32_image B K (fun _ => False) image (image + size) ltac:(lia) Hend HK s0) as H32.
  unfold e_machine, e_phoff, e_phnum, e_phentsize. rewrite !u32_small by lia.
  destruct (lb_ident Hlb) as (I0 & I1 & I2 & I3 & I4 & I5 & I6).
  rewrite (bind_step _ _ _ _ _ (H8 image L ltac:(lia))), (bind_step _ _ _ _ _ (H8 (image + 1) L ltac:(lia))).
  rewrite (bind_step _ _ _ _ _ (H8 (image + 2) L ltac:(lia))), (bind_step _ _ _ _ _ (H8 (image + 3) L ltac:(lia))), I0, I1, I2, I3. cbn [Z.eqb Pos.eqb andb negb].
  rewrite (bind_step _ _ _ _ _ (H8 (image + 4) L ltac:(lia))), I4. cbn [Z.eqb Pos.eqb negb].
  rewrite (bind_step _ _ _ _ _ (H8 (image + 5) L ltac:(lia))), I5. cbn [Z.eqb Pos.eqb negb].
  rewrite (bind_step _ _ _ _ _ (H8 (image + 6) L ltac:(lia))), I6. cbn [Z.eqb Pos.eqb negb].
  rewrite (bind_step _ _ _ _ _ (H16 (image + 18) L ltac:(lia) ltac:(lia))). pose proof (lb_machine Hlb) as Em. unfold e_machine in Em. rewrite Em, Z.eqb_refl. cbn [negb].
  rewrite (bind_step _ _ _ _ _ (H32 (image + 28) L ltac:(lia) ltac:(lia))), (bind_step _ _ _ _ _ (H16 (image + 44) L ltac:(lia) ltac:(lia))).
  pose proof (lb_table Hlb) as Ht. unfold phnum, e_phoff, e_phnum in Ht. pose proof (vword_range s0 (image + 28)). pose proof (vhalf_range s0 (image + 44)).
  unfold PHDR_SIZE. rewrite (u32_small (vword s0 (image + 28) + _)) by lia.
  destruct (Z.ltb_spec (vword s0 (image + 28) + vhalf s0 (image + 44) * 32) (vword s0 (image + 28))); [lia|].
  destruct (Z.ltb_spec size (vword s0 (image + 28) + vhalf s0 (image + 44) * 32)); [lia|]. cbn [orb].
  rewrite (bind_step _ _ _ _ _ (H16 (image + 42) L ltac:(lia) ltac:(lia))). pose proof (lb_entsize Hlb) as Ee. unfold e_phentsize in Ee. rewrite Ee. cbn [Z.eqb Pos.eqb negb PHDR_SIZE].
  unfold ph_table, e_phoff. by rewrite u32_small by lia.
Qed.
End Program.

(** C4: Loading a program whose headers are proper ends in the call of its entry
    point, with every segment in place: its pages hold the bytes of the file
    followed by zeros, in frames of their own, writable when the flags say so.
    All other mappings are as before, the memory of the kernel keeps its bytes
    and the page tables are still reached at their physical addresses. *)
Theorem LoadAndExecute_spec B K image size s :
  loading B K (fun _ => False) s -> 0 < image -> image + size < 2 ^ 32 ->
  (forall va, image <= va < image + size -> K (va / 4096)) -> loadable B image size s ->
  2 * total_pages image s (Z.to_nat (phnum image s)) 0 <= free_below B s ->
  exists s', LoadAndExecute image size s = Some (Executed (vword s (image + e_entry)), s') /\
    loading B K (loaded_below image s (phnum image s)) s' /\
    (forall i, loads image s i -> placed image (header image s i) s s') /\
    (forall va, 0 <= va < 2 ^ 32 -> ~ loaded_below image s (phnum image s) (va / 4096) -> pte_of s' va = pte_of s va) /\
    forall va, 0 <= va < 2 ^ 32 -> K (va / 4096) -> vbyte s' va = vbyte s va.
Proof.
  intros L H0 Hend HK Hlb Hfree. unfold LoadAndExecute.
  rewrite (bind_step _ _ _ _ _ (check_header_ok B K image size s H0 Hend HK Hlb L)).
  pose proof (vhalf_range s (image + e_phnum)) as Hn. fold (phnum image s) in Hn.
  assert (Hfuel : (Z.to_nat (phnum image s) < PHNUM_FUEL)%nat) by (unfold PHNUM_FUEL; lia).
  destruct (load_loop_ok B K image size s H0 Hend HK Hlb (Z.to_nat (phnum image s)) PHNUM_FUEL 0 s) as (s' & E & Hl); [lia|lia|done| |done|].
  { split; [|done| |done]; [eapply loading_ext; [|exact L]|]; intros j; [|intros ? [? _]; lia].
    split; [done|]. intros (i & Hi & [? _] & _). lia. }
  rewrite (bind_step _ _ _ _ _ E). pose proof (lb_size _ _ _ _ Hlb) as Hs. unfold EHDR_SIZE in Hs. pose proof Hl as [L' Hk Hp Ho].
  unfold e_entry. rewrite u32_small by lia.
  rewrite (bind_step _ _ _ _ _ (vload32_image B K _ image (image + size) ltac:(lia) Hend HK s' (image + 24) L' ltac:(lia) ltac:(lia))).
  rewrite (vword_kept K image (image + size) ltac:(lia) Hend HK s s') by (done || lia).
  destruct (lb_entry _ _ _ _ Hlb) as (i & Hi & He). pose proof (lb_segments _ _ _ _ Hlb i Hi) as [_ _ _ F4 _]. unfold e_entry in He. pose proof (ld_B _ _ _ _ L).
  rewrite (bind_step _ _ _ _ _ (entry_loop_ok B K image size s H0 Hend HK Hlb (Z.to_nat (phnum image s)) PHNUM_FUEL 0 (vword s (image + 24)) s'
    ltac:(lia) ltac:(lia) Hfuel Hl (ex_intro _ i (conj (proj1 (proj1 Hi)) (conj Hi He))))).
  cbn [negb]. destruct (Z.eqb_spec (vword s (image + 24)) 0); [lia|]. exists s'. split_and!; try done.
  intros j Hj. apply Hp; [apply Hj|done].
Qed.

(** * Concrete runs *)

(** The first 2 MiB mapped to themselves, and an image at the end of the
    kernel, at 0x10E000. *)
Definition demo_identity : paging :=
  match identity_map 512 demo_paging with Some (_, s) => s | None => demo_paging end.

Definition demo_image : Z := 0x10E000.
Definition with_image (bytes : list Z) : paging :=
  set_mem (fst (foldl (fun '(m, a) b => (write8 m a b, a + 1)) (pg_mem demo_identity, demo_image) bytes)) demo_identity.

Definition le32 (v : Z) : list Z := [v mod 256; v / 256 mod 256; v / 65536 mod 256; v / 16777216 mod 256].

(** An image with one program header. *)
Definition demo_elf (entry offset vaddr filesz memsz flags : Z) (rest : list Z) : list Z :=
  [0x7F; 69; 76; 70; 1; 1; 1; 0; 0; 0; 0; 0; 0; 0; 0; 0; 2; 0; 3; 0] ++ le32 1 ++ le32 entry ++ le32 52 ++ le32 0 ++ le32 0 ++
  [52; 0; 32; 0; 1; 0; 0; 0; 0; 0; 0; 0] ++
  le32 PT_LOAD ++ le32 offset ++ le32 vaddr ++ le32 vaddr ++ le32 filesz ++ le32 memsz ++ le32 flags ++ le32 4096 ++ rest.

Definition demo_loader : paging := with_image (demo_elf 0x400054 84 0x400054 4 8 5 [0xB8; 1; 0; 0xC3]).
Definition demo_kernel (p : Z) : Prop := p = 270 \/ p = 271.

Lemma demo_loader_pde i : 0 <= i < 1024 -> pde demo_loader i = if decide (i = 0) then 0x112003 else 0.
Proof.
  intros Hi. apply Z.eqb_eq. revert i Hi. apply (below_ind 1024 (fun i => pde demo_loader i =? if decide (i = 0) then 0x112003 else 0)).
  vm_compute. reflexivity.
Qed.

Lemma demo_loader_table f : is_table demo_loader f <-> f = 273 \/ f = 274.
Proof.
  unfold is_table, table. assert (g_pageDirectory demo_loader = 4096 * 273) as -> by (vm_compute; reflexivity). split.
  - intros [H|(i & Hi & Hp & Ht)]; [left; lia|right]. rewrite demo_loader_pde in Hp, Ht by done.
    case_decide; [|done]. change (4096 * (0x112003 / 4096)) with (4096 * 274) in Ht. lia.
  - intros [-> | ->]; [by left|right]. exists 0. rewrite demo_loader_pde by lia. by split_and!.
Qed.

Lemma demo_loader_wf : wf demo_loader.
Proof.
  assert (Hf : frame_ok demo_loader (4096 * 273) /\ frame_ok demo_loader (4096 * 274)).
  { split; [exists 273|exists 274]; split_and!; vm_compute; reflexivity. }
  assert (Hd : g_pageDirectory demo_loader = 4096 * 273) by (vm_compute; reflexivity).
  split.
  - split; [vm_compute; split; discriminate|vm_compute; reflexivity].
  - vm_compute; reflexivity.
  - rewrite Hd. apply Hf.
  - intros i Hi Hp. unfold table. rewrite Hd. rewrite demo_loader_pde in * by done. case_decide; [|done]. split; [apply Hf|done].
  - intros i j Hi Hj Hpi Hpj _. rewrite demo_loader_pde in Hpi, Hpj by done.
    destruct (decide (i = 0)) as [->|], (decide (j = 0)) as [->|]; [reflexivity|discriminate..].
Qed.

Lemma demo_loading : loading 512 demo_kernel (fun _ => False) demo_loader.
Proof.
  split; [apply demo_loader_wf|vm_compute; split; [reflexivity|discriminate]|vm_compute; reflexivity| | | |intros p []|intros p q []].
  - intros p Hp. unfold mapped, frame.
    assert (H : is_present (pte_of demo_loader (4096 * p)) && (pte_of demo_loader (4096 * p) / 4096 =? p) = true).
    { revert p Hp. apply (below_ind 512 (fun p => is_present (pte_of demo_loader (4096 * p)) && (pte_of demo_loader (4096 * p) / 4096 =? p))).
      vm_compute. reflexivity. }
    apply andb_prop in H as [H1 H2%Z.eqb_eq]. exact (conj H1 H2).
  - intros f Hf%demo_loader_table. lia.
  - intros p Hp. rewrite demo_loader_table. unfold demo_kernel in Hp. split; [lia|]. split; [|lia]. destruct Hp as [-> | ->]; vm_compute; reflexivity.
Qed.

Lemma demo_loads i : loads demo_image demo_loader i -> i = 0.
Proof. unfold loads. assert (phnum demo_image demo_loader = 1) as -> by (vm_compute; reflexivity). lia. Qed.

Lemma demo_loadable : loadable 512 demo_image 88 demo_loader.
Proof.
  split; [vm_compute; discriminate| |vm_compute; reflexivity|vm_compute; discriminate|vm_compute; reflexivity| | |].
  - split_and!; vm_compute; reflexivity.
  - intros i Hi. rewrite (demo_loads i Hi). split; vm_compute; (reflexivity || discriminate).
  - intros i j p Hi Hj Hij. apply demo_loads in Hi, Hj. lia.
  - exists 0. split; [split; vm_compute; [split; [discriminate|reflexivity]|reflexivity]|]. vm_compute. split; [discriminate|reflexivity].
Qed.

Lemma LoadAndExecute_spec_witness :
  exists s', LoadAndExecute demo_image 88 demo_loader = Some (Executed 0x400054, s') /\
    vbyte s' 0x400054 = 0xB8 /\ vbyte s' 0x400058 = 0 /\ pte_of s' 0x400054 mod 4096 = 5.
Proof.
  destruct (LoadAndExecute_spec 512 demo_kernel demo_image 88 demo_loader) as (s' & E & _ & Hp & _).
  - exact demo_loading.
  - vm_compute. reflexivity.
  - vm_compute. reflexivity.
  - intros va Hva. unfold demo_kernel, demo_image in *. zdiv.
  - exact demo_loadable.
  - vm_compute. discriminate.
  - assert (Hl : loads demo_image demo_loader 0) by (split; vm_compute; [split; [discriminate|reflexivity]|reflexivity]).
    destruct (Hp 0 Hl) as [P1 P2].
    assert (Hin : forall va, 0x400000 <= va < 0x401000 -> in_pages (header demo_image demo_loader 0) (va / 4096)).
    { intros va Hva. assert (va / 4096 = 1024) as -> by (apply page_iff; lia). split; vm_compute; [discriminate|reflexivity]. }
    exists s'. split; [exact E|]. split; [|split].
    + rewrite P1 by (apply Hin; lia). vm_compute. reflexivity.
    + rewrite P1 by (apply Hin; lia). vm_compute. reflexivity.
    + rewrite P2 by (apply Hin; lia). vm_compute. reflexivity.
Defined.

Definition demo_outside : paging :=
  let s := with_image (demo_elf 0x400000 0xFFFFFFF0 0x400000 16 16 5 [0; 0; 0; 0]) in
  set_mem (write32 (pg_mem s) (demo_image - 16) 0x2A2A2A2A) s.

(** The check of a segment against the image adds in 32 bits: an offset near
    2^32 passes, and the program receives the bytes before the image. *)
Theorem LoadAndExecute_reads_outside : exists s', LoadAndExecute demo_image 88 demo_outside = Some (Executed 0x400000, s') /\
  forall k, 0 <= k < 16 -> vbyte s' (0x400000 + k) = vbyte demo_outside (demo_image - 16 + k).
Proof.
  assert (H : match LoadAndExecute demo_image 88 demo_outside with
    | Some (Executed e, s') => (e =? 0x400000) && forallb (fun k => vbyte s' (0x400000 + k) =? vbyte demo_outside (demo_image - 16 + k)) (seqZ 0 (Z.of_nat 16))
    | _ => false end = true) by (vm_compute; reflexivity).
  destruct (LoadAndExecute demo_image 88 demo_outside) as [[[e|e] s']|]; [discriminate| |discriminate].
  apply andb_prop in H as [->%Z.eqb_eq H]. exists s'. split; [reflexivity|]. intros k Hk. apply Z.eqb_eq.
  exact (below_ind 16 (fun k => vbyte s' (0x400000 + k) =? vbyte demo_outside (demo_image - 16 + k)) H k Hk).
Qed.

(** The size of a segment in the file is not compared with its size in memory:
    the copy runs past the mapped pages, and the kernel faults. *)
Theorem LoadAndExecute_overruns : LoadAndExecute demo_image 4200 (with_image (demo_elf 0x400000 0 0x400000 4097 16 5 [])) = None.
Proof. vm_compute. reflexivity. Qed.
