(* ===== verification/Ata.v ===== *)
(** The ATA disk driver: [src/kernel/src/drivers/ata/ata.cpp], in PIO mode with
    28-bit block addresses.

    The controller is hardware: its ports are the class [AtaPorts], and what
    the driver relies on of the ATA protocol is the class [AtaController], with
    laws about a view of the controller (its registers, the transfer in
    progress, how long it stays busy, and the sectors of the drive).
    The driver writes FLUSH CACHE right behind the last word of a write; that
    the drive is ready then is the class [PromptDrive].
    [ata_sim] is a controller that has these laws.  With them the driver
    implements the interface of [Disk.v], on which the file system is built. *)
From S2P Require Import Prelude NetPacket Disk.
From S2P Require Fat16.

(** * Ports *)

Class AtaPorts (C : Type) := {
  in8 : Z -> C -> Z * C;
  out8 : Z -> Z -> C -> C;
  in16 : Z -> C -> Z * C;
  out16 : Z -> Z -> C -> C;
}.

Definition ATA_PRIMARY : Z := 0x1F0.
Definition ATA_PRIMARY_CONTROL_PORT : Z := 0x3F6.
Definition ATA_SECONDARY_CONTROL_PORT : Z := 0x376.
Definition ATA_CTRL_nIEN : Z := 0x02.
Definition ATA_STATUS_BSY : Z := 0x80.
Definition ATA_STATUS_DRQ : Z := 0x08.
Definition ATA_STATUS_ERR : Z := 0x01.
Definition ATA_STATUS_DF : Z := 0x20.
Definition ATA_CMD_READ_SECTORS : Z := 0x20.
Definition ATA_CMD_WRITE_SECTORS : Z := 0x30.
Definition ATA_DRIVE_LBA : Z := 0xE0.
Definition ATA_DRIVE_SLAVE : Z := 0x10.
Definition ATA_WORDS_PER_SECTOR : nat := 256.
Definition ATA_DELAY_400NS_READS : nat := 4.
Definition ATA_IDENTIFY_TIMEOUT : nat := Z.to_nat 10000.
Definition ATA_READY_TIMEOUT : nat := Z.to_nat 100000.
Definition ATA_NO_DEVICE_FF_STREAK_LIMIT : Z := 1000.
Definition ATA_NO_DEVICE_CHECK_LIMIT : nat := Z.to_nat 1000.
Definition ATA_NO_DEVICE_THRESHOLD : Z := 900.

(** The members [ioBase], [controlPort] and [driveSel]; the other ports follow
    [ioBase]. *)
Record ATADriver := mk_ata { ioBase : Z; controlPort : Z; slave : bool }.

Definition ATADriver_new (bus : Z) (slave : bool) : ATADriver :=
  mk_ata bus (if bus =? ATA_PRIMARY then ATA_PRIMARY_CONTROL_PORT else ATA_SECONDARY_CONTROL_PORT) slave.

Definition dataPort (d : ATADriver) : Z := ioBase d.
Definition sectorCountPort (d : ATADriver) : Z := ioBase d + 2.
Definition lbaLowPort (d : ATADriver) : Z := ioBase d + 3.
Definition lbaMidPort (d : ATADriver) : Z := ioBase d + 4.
Definition lbaHighPort (d : ATADriver) : Z := ioBase d + 5.
Definition driveHeadPort (d : ATADriver) : Z := ioBase d + 6.
Definition commandPort (d : ATADriver) : Z := ioBase d + 7.

(** * The driver *)

Section Driver.
Context {C : Type} `{AtaPorts C} (d : ATADriver).

Definition readb (p : Z) : ST C Z := fun c => Some (in8 p c).
Definition readw (p : Z) : ST C Z := fun c => Some (in16 p c).
Definition writeb (p v : Z) : ST C unit := modify (out8 p v).
Definition writew (p v : Z) : ST C unit := modify (out16 p v).

Definition Activate : ST C unit := writeb (controlPort d) ATA_CTRL_nIEN.

(** The 400 ns delay: four reads of the alternate status. *)
Definition delay400 : ST C unit :=
  for_loop ATA_DELAY_400NS_READS 0 (fun _ => readb (controlPort d);;; ret tt).

Definition SelectDrive : ST C unit :=
  let driveSelValue := ATA_DRIVE_LBA in
  let driveSelValue := if slave d then Z.lor driveSelValue ATA_DRIVE_SLAVE else driveSelValue in
  writeb (driveHeadPort d) driveSelValue;;;
  delay400.

(** The polling loop of [Identify], [n] polls left. *)
Fixpoint identify_poll (n : nat) : ST C bool :=
  match n with
  | O => ret false
  | S n' =>
      let! s := readb (commandPort d) in
      if s =? 0 then ret false
      else if negb (Z.land s ATA_STATUS_ERR =? 0) then ret false
      else if (Z.land s ATA_STATUS_BSY =? 0) && negb (Z.land s ATA_STATUS_DRQ =? 0) then
        for_loop ATA_WORDS_PER_SECTOR 0 (fun _ => readw (dataPort d);;; ret tt);;;
        ret true
      else identify_poll n'
  end.

Definition Identify : ST C bool :=
  SelectDrive;;;
  writeb (sectorCountPort d) 0;;;
  writeb (lbaLowPort d) 0;;;
  writeb (lbaMidPort d) 0;;;
  writeb (lbaHighPort d) 0;;;
  writeb (commandPort d) 0xEC;;;
  identify_poll ATA_IDENTIFY_TIMEOUT.

(** The loop of [WaitForReady] with [timeout] = [n]. *)
Fixpoint ready_loop (n : nat) (ffStreak : Z) : ST C bool :=
  match n with
  | O => ret false
  | S n' =>
      let! status := readb (commandPort d) in
      let ffStreak := if status =? 0xFF then ffStreak + 1 else 0 in
      if (status =? 0xFF) && (ATA_NO_DEVICE_FF_STREAK_LIMIT <? ffStreak) then ret false
      else if negb (Z.land status ATA_STATUS_ERR =? 0) then ret false
      else if negb (Z.land status ATA_STATUS_DF =? 0) then ret false
      else if (Z.land status ATA_STATUS_BSY =? 0) && negb (Z.land status ATA_STATUS_DRQ =? 0) then ret true
      else ready_loop n' ffStreak
  end.
Definition WaitForReady : ST C bool := ready_loop ATA_READY_TIMEOUT 0.

(** The presence check: [false] when the bus floats or no drive answers. *)
Fixpoint presence (tries : nat) (ffCount zCount : Z) : ST C bool :=
  match tries with
  | O => ret (negb ((ATA_NO_DEVICE_THRESHOLD <? ffCount) || (ATA_NO_DEVICE_THRESHOLD <? zCount)))
  | S tries' =>
      let! s := readb (commandPort d) in
      if s =? 0xFF then presence tries' (ffCount + 1) zCount
      else if s =? 0 then presence tries' ffCount (zCount + 1)
      else ret true
  end.

(** What [ReadSectors] and [WriteSectors] do before the first transfer;
    [false] when no device is found. *)
Definition start_command (lba sectorCount cmd : Z) : ST C bool :=
  SelectDrive;;;
  let driveHead := Z.lor (Z.lor 0xE0 (if slave d then 0x10 else 0)) (Z.land (Z.shiftr lba 24) 0x0F) in
  writeb (driveHeadPort d) driveHead;;;
  delay400;;;
  let! present := presence ATA_NO_DEVICE_CHECK_LIMIT 0 0 in
  if negb present then ret false
  else
    writeb (sectorCountPort d) sectorCount;;;
    writeb (lbaLowPort d) (Z.land lba 0xFF);;;
    writeb (lbaMidPort d) (Z.land (Z.shiftr lba 8) 0xFF);;;
    writeb (lbaHighPort d) (Z.land (Z.shiftr lba 16) 0xFF);;;
    writeb (commandPort d) cmd;;;
    ret true.

(** [buffer[i] = v]; the caller's buffer ends where the list ends. *)
Definition put (i : nat) (v : Z) (buf : list Z) : ST C (list Z) :=
  if decide (i < length buf)%nat then ret (<[i := v]> buf) else stuck.

(** One sector, [n] words left, from index [off] of the buffer on. *)
Fixpoint read_words (n off : nat) (buf : list Z) : ST C (list Z) :=
  match n with
  | O => ret buf
  | S n' =>
      let! word := readw (dataPort d) in
      let! buf := put off (Z.land word 0xFF) buf in
      let! buf := put (off + 1) (Z.land (Z.shiftr word 8) 0xFF) buf in
      read_words n' (off + 2) buf
  end.

Fixpoint read_sectors_loop (n off : nat) (buf : list Z) : ST C (bool * list Z) :=
  match n with
  | O => ret (true, buf)
  | S n' =>
      let! ready := WaitForReady in
      if negb ready then ret (false, buf)
      else
        let! buf := read_words ATA_WORDS_PER_SECTOR off buf in
        read_sectors_loop n' (off + 512) buf
  end.

Definition ReadSectors (lba sectorCount : Z) (buf : list Z) : ST C (bool * list Z) :=
  if sectorCount =? 0 then ret (true, buf)
  else
    let! ok := start_command lba sectorCount ATA_CMD_READ_SECTORS in
    if negb ok then ret (false, buf)
    else read_sectors_loop (Z.to_nat sectorCount) 0 buf.

Fixpoint write_words (n off : nat) (buf : list Z) : ST C unit :=
  match n with
  | O => ret tt
  | S n' =>
      match buf !! off, buf !! (off + 1)%nat with
      | Some lo, Some hi => writew (dataPort d) (Z.lor lo (u16 (Z.shiftl hi 8)));;; write_words n' (off + 2) buf
      | _, _ => stuck
      end
  end.

(** [true] when all sectors were transferred. *)
Fixpoint write_sectors_loop (n off : nat) (buf : list Z) : ST C bool :=
  match n with
  | O => ret true
  | S n' =>
      let! ready := WaitForReady in
      if negb ready then ret false
      else
        write_words ATA_WORDS_PER_SECTOR off buf;;;
        write_sectors_loop n' (off + 512) buf
  end.

(** The wait after FLUSH CACHE with [timeout] = [n]: when the loop is left by
    [break] in its last round, [timeout] is 0 and the result is failure. *)
Fixpoint flush_wait (n : nat) : ST C bool :=
  match n with
  | O => ret false
  | S n' =>
      let! s := readb (commandPort d) in
      if Z.land s ATA_STATUS_BSY =? 0 then
        if negb (Z.land s (Z.lor ATA_STATUS_ERR ATA_STATUS_DF) =? 0) then ret false
        else ret (negb (n' =? 0)%nat)
      else flush_wait n'
  end.

Definition WriteSectors (lba sectorCount : Z) (buf : list Z) : ST C bool :=
  if sectorCount =? 0 then ret true
  else
    let! ok := start_command lba sectorCount ATA_CMD_WRITE_SECTORS in
    if negb ok then ret false
    else
      let! ok := write_sectors_loop (Z.to_nat sectorCount) 0 buf in
      if negb ok then ret false
      else
        writeb (commandPort d) 0xE7;;;
        flush_wait ATA_READY_TIMEOUT.
End Driver.

(** * The protocol *)

Record ata_regs := mk_regs { r_count : Z; r_low : Z; r_mid : Z; r_high : Z; r_head : Z }.

(** A transfer to the host with [n] sectors left, [i] words of the first one
    read; a transfer from the host with the words [ws] of the first one. *)
Inductive ata_phase := Idle | DataIn (lba : Z) (n i : nat) | DataOut (lba : Z) (n : nat) (ws : list Z).

#[export] Instance ata_phase_eq : EqDecision ata_phase.
Proof. solve_decision. Defined.

(** [v_lag]: how many reads of the status still find the controller busy. *)
Record ata_view := mk_view { v_regs : ata_regs; v_phase : ata_phase; v_lag : nat; v_disk : Z -> list Z }.

Definition set_lag (k : nat) (v : ata_view) : ata_view := mk_view (v_regs v) (v_phase v) k (v_disk v).
Definition set_regs (r : ata_regs) (v : ata_view) : ata_view := mk_view r (v_phase v) (v_lag v) (v_disk v).

(** The register an address between 2 and 6 names. *)
Definition put_reg (k v : Z) (r : ata_regs) : ata_regs :=
  if k =? 2 then mk_regs v (r_low r) (r_mid r) (r_high r) (r_head r)
  else if k =? 3 then mk_regs (r_count r) v (r_mid r) (r_high r) (r_head r)
  else if k =? 4 then mk_regs (r_count r) (r_low r) v (r_high r) (r_head r)
  else if k =? 5 then mk_regs (r_count r) (r_low r) (r_mid r) v (r_head r)
  else mk_regs (r_count r) (r_low r) (r_mid r) (r_high r) v.

(** The block address in the registers. *)
Definition regs_lba (r : ata_regs) : Z := r_low r + 256 * r_mid r + 65536 * r_high r + 16777216 * (r_head r mod 16).

Definition word_bytes (w : Z) : list Z := [w mod 256; w / 256 mod 256].
Definition word_of (sec : list Z) (i : nat) : Z := byte_at sec (2 * i) + 256 * byte_at sec (2 * i + 1).
Definition set_sector (disk : Z -> list Z) (lba : Z) (ws : list Z) : Z -> list Z :=
  fun l => if decide (l = lba) then ws ≫= word_bytes else disk l.

Definition busy_status (s : Z) : Prop :=
  Z.land s ATA_STATUS_BSY <> 0 /\ Z.land s ATA_STATUS_ERR = 0 /\ Z.land s ATA_STATUS_DF = 0.
Definition ready_status (data : bool) (s : Z) : Prop :=
  Z.land s ATA_STATUS_BSY = 0 /\ Z.land s ATA_STATUS_ERR = 0 /\ Z.land s ATA_STATUS_DF = 0 /\
  (if data then Z.land s ATA_STATUS_DRQ <> 0 else Z.land s ATA_STATUS_DRQ = 0) /\ s <> 0.

(** What the driver [d] relies on: the ATA protocol as far as it uses it, with
    a drive of [blocks] sectors that is present, reports no error and is never
    busy for longer than the driver waits ([at_lag]).  Commands are accepted
    only by a controller that is not busy. *)
Class AtaController (C : Type) `{AtaPorts C} (d : ATADriver) := {
  view : C -> ata_view;
  blocks : Z;
  at_blocks : 0 < blocks <= 2 ^ 28;
  at_disk : forall c l, length (v_disk (view c) l) = 512%nat /\ Forall byte (v_disk (view c) l);
  at_lag : forall c, (v_lag (view c) + 1 < ATA_READY_TIMEOUT)%nat;
  at_control : forall c, view (in8 (controlPort d) c).2 = view c;
  at_busy : forall c, v_lag (view c) <> 0%nat -> busy_status (in8 (commandPort d) c).1 /\
    view (in8 (commandPort d) c).2 = set_lag (v_lag (view c) - 1) (view c);
  at_ready : forall c, v_lag (view c) = 0%nat ->
    ready_status (negb (bool_decide (v_phase (view c) = Idle))) (in8 (commandPort d) c).1 /\ view (in8 (commandPort d) c).2 = view c;
  at_regs : forall c k v, 2 <= k <= 6 -> v_phase (view c) = Idle -> v_lag (view c) = 0%nat ->
    view (out8 (ioBase d + k) v c) = set_regs (put_reg k v (v_regs (view c))) (view c);
  at_command : forall c cmd, v_phase (view c) = Idle -> v_lag (view c) = 0%nat -> 1 <= r_count (v_regs (view c)) <= 255 ->
    r_head (v_regs (view c)) / 16 = (if slave d then 0xF else 0xE) -> cmd = ATA_CMD_READ_SECTORS \/ cmd = ATA_CMD_WRITE_SECTORS ->
    regs_lba (v_regs (view c)) + r_count (v_regs (view c)) <= blocks ->
    let r := v_regs (view c) in let v' := view (out8 (commandPort d) cmd c) in
    v_regs v' = r /\ v_disk v' = v_disk (view c) /\
    v_phase v' = if cmd =? ATA_CMD_READ_SECTORS then DataIn (regs_lba r) (Z.to_nat (r_count r)) 0 else DataOut (regs_lba r) (Z.to_nat (r_count r)) [];
  at_data_in : forall c lba n i, v_phase (view c) = DataIn lba (S n) i -> v_lag (view c) = 0%nat -> (i < 256)%nat ->
    let v' := view (in16 (dataPort d) c).2 in
    (in16 (dataPort d) c).1 = word_of (v_disk (view c) lba) i /\ v_disk v' = v_disk (view c) /\
    if decide (i = 255)%nat then v_phase v' = (match n with O => Idle | S _ => DataIn (lba + 1) n 0 end) /\ (n = 0%nat -> v_lag v' = 0%nat)
    else v_phase v' = DataIn lba (S n) (i + 1) /\ v_lag v' = 0%nat;
  at_data_out : forall c lba n ws w, v_phase (view c) = DataOut lba (S n) ws -> v_lag (view c) = 0%nat -> (length ws < 256)%nat -> 0 <= w < 65536 ->
    let v' := view (out16 (dataPort d) w c) in
    if decide (length ws = 255)%nat then v_phase v' = (match n with O => Idle | S _ => DataOut (lba + 1) n [] end) /\ forall l, v_disk v' l = set_sector (v_disk (view c)) lba (ws ++ [w]) l
    else v_phase v' = DataOut lba (S n) (ws ++ [w]) /\ v_disk v' = v_disk (view c) /\ v_lag v' = 0%nat;
  at_flush : forall c, v_phase (view c) = Idle -> v_lag (view c) = 0%nat ->
    let v' := view (out8 (commandPort d) 0xE7 c) in v_phase v' = Idle /\ v_disk v' = v_disk (view c);
}.

(** The busy time after the last word of a transfer from the host.  The driver
    writes FLUSH CACHE at that point without a look at the status. *)
Definition after_last_word {C} `{AtaController C d} (L : nat -> Prop) : Prop := forall c lba ws w,
  v_phase (view c) = DataOut lba 1 ws -> v_lag (view c) = 0%nat -> length ws = 255%nat -> 0 <= w < 65536 -> L (v_lag (view (out16 (dataPort d) w c))).
(** A drive that has taken the last sector over when its last word arrives. *)
Class PromptDrive (C : Type) (d : ATADriver) `{AtaController C d} := at_prompt : after_last_word (C := C) (d := d) (eq 0%nat).

Section Protocol.
Context {C : Type} `{AtaController C d}.
Implicit Types c : C.

(** A controller between commands. *)
Definition idle c : Prop := v_phase (view c) = Idle /\ v_lag (view c) = 0%nat.

Lemma readb_step {A} p (k : Z -> ST C A) c : bind (readb p) k c = k (in8 p c).1 (in8 p c).2.
Proof. unfold readb, bind. by destruct (in8 p c). Qed.
Lemma readw_step {A} p (k : Z -> ST C A) c : bind (readw p) k c = k (in16 p c).1 (in16 p c).2.
Proof. unfold readw, bind. by destruct (in16 p c). Qed.

Lemma delay400_ok c : exists c', delay400 d c = Some (tt, c') /\ view c' = view c.
Proof.
  unfold delay400. destruct (hoare_for ATA_DELAY_400NS_READS 0 (fun _ => readb (controlPort d);;; ret tt) (fun _ c' => view c' = view c)) with (s := c) as ([] & c' & E & Hv); [|done|eauto].
  intros k _ c1 Hc. rewrite readb_step. eexists tt, _. split; [reflexivity|]. by rewrite at_control.
Qed.

(** After a transfer phase has begun the driver waits for the data request. *)
Lemma WaitForReady_ok c : v_phase (view c) <> Idle -> exists c', WaitForReady d c = Some (true, c') /\ view c' = set_lag 0 (view c).
Proof.
  intros Hp. unfold WaitForReady. pose proof (at_lag c) as Hlag.
  assert (Hgen : forall n ff c, v_phase (view c) <> Idle -> (v_lag (view c) < n)%nat -> exists c', ready_loop d n ff c = Some (true, c') /\ view c' = set_lag 0 (view c)); [|apply Hgen; [done|lia]].
  clear c Hp Hlag. induction n as [|n IH]; intros ff c Hp Hn; [lia|]. cbn [ready_loop]. rewrite readb_step. destruct (in8 (commandPort d) c) as [s c1] eqn:Ei. cbn [fst snd].
  destruct (decide (v_lag (view c) = 0%nat)) as [E0|E0].
  - destruct (at_ready c E0) as [Hs Hv]. rewrite Ei in Hs, Hv. cbn in Hs, Hv. rewrite bool_decide_eq_false_2 in Hs by done. destruct Hs as (H1 & H2 & H3 & H4 & _). cbn [negb] in H4.
    destruct (Z.eqb_spec s 0xFF) as [->|]; [done|]. cbn [andb]. rewrite H1, H2, H3. cbn [Z.eqb negb andb]. destruct (Z.eqb_spec (Z.land s ATA_STATUS_DRQ) 0); [done|].
    exists c1. split; [done|]. rewrite Hv. destruct (view c) eqn:Ev. cbn in *. by rewrite E0.
  - destruct (at_busy c E0) as [(H1 & H2 & H3) Hv]. rewrite Ei in H1, H2, H3, Hv. cbn in H1, H2, H3, Hv.
    destruct (Z.eqb_spec s 0xFF) as [->|]; [done|]. cbn [andb]. rewrite H2, H3. cbn [Z.eqb negb]. destruct (Z.eqb_spec (Z.land s ATA_STATUS_BSY) 0); [done|]. cbn [andb].
    destruct (IH 0 c1) as (c2 & E2 & Hv2); [by rewrite Hv|rewrite Hv; cbn; lia|]. exists c2. split; [done|]. by rewrite Hv2, Hv.
Qed.

Lemma presence_ok c n ff z : idle c -> exists c', presence d (S n) ff z c = Some (true, c') /\ view c' = view c.
Proof.
  intros [Hp Hl]. cbn [presence]. rewrite readb_step. destruct (at_ready c Hl) as [(H1 & _ & _ & _ & H5) Hv].
  destruct (Z.eqb_spec (in8 (commandPort d) c).1 0xFF) as [E|]; [by rewrite E in H1|].
  destruct (Z.eqb_spec (in8 (commandPort d) c).1 0); [done|]. eauto.
Qed.

(** A register written between commands. *)
Lemma reg_ok k v c : idle c -> 2 <= k <= 6 -> let c' := out8 (ioBase d + k) v c in
  idle c' /\ v_disk (view c') = v_disk (view c) /\ v_regs (view c') = put_reg k v (v_regs (view c)).
Proof. intros [Hp Hl] Hk c'. unfold idle, c'. rewrite at_regs by done. by split_and!. Qed.

Lemma writeb_step {A} p v (k : unit -> ST C A) c : bind (writeb p v) k c = k tt (out8 p v c).
Proof. done. Qed.

Lemma drive_head lba : 0 <= lba ->
  let h := Z.lor (Z.lor 0xE0 (if slave d then 0x10 else 0)) (Z.land (Z.shiftr lba 24) 0x0F) in
  h mod 16 = lba / 16777216 mod 16 /\ h / 16 = if slave d then 0xF else 0xE.
Proof.
  intros Hl h. change 0x0F with (Z.ones 4) in h. assert (Hs : Z.land (Z.shiftr lba 24) (Z.ones 4) = lba / 16777216 mod 16).
  { rewrite Z.land_ones, Z.shiftr_div_pow2 by lia. done. }
  subst h. rewrite Hs. assert (Hr : 0 <= lba / 16777216 mod 16 < 16) by zdiv. clear Hs. set (x := lba / 16777216 mod 16) in *.
  assert (Hi := below_ind 16 (fun x => ((Z.lor 0xE0 x =? 0xE0 + x) && (Z.lor 0xF0 x =? 0xF0 + x)))).
  specialize (Hi eq_refl _ Hr). apply andb_prop in Hi as [H1%Z.eqb_eq H2%Z.eqb_eq].
  destruct (slave d); [change (Z.lor 0xE0 0x10) with 0xF0; rewrite H2|rewrite Z.lor_0_r, H1]; split; zdiv.
Qed.

(** The registers name the block, by its low 28 bits, and the command starts the transfer. *)
Lemma start_command_ok c lba n cmd : idle c -> 0 <= lba -> 1 <= n <= 255 -> lba mod 2 ^ 28 + n <= blocks -> cmd = ATA_CMD_READ_SECTORS \/ cmd = ATA_CMD_WRITE_SECTORS ->
  exists c', start_command d lba n cmd c = Some (true, c') /\ v_disk (view c') = v_disk (view c) /\
    v_phase (view c') = if cmd =? ATA_CMD_READ_SECTORS then DataIn (lba mod 2 ^ 28) (Z.to_nat n) 0 else DataOut (lba mod 2 ^ 28) (Z.to_nat n) [].
Proof.
  intros Hi Hlba Hn Hcap Hcmd. unfold start_command, SelectDrive, driveHeadPort, sectorCountPort, lbaLowPort, lbaMidPort, lbaHighPort. rewrite bind_assoc.
  rewrite writeb_step. match goal with |- context [out8 (ioBase d + 6) ?v c] => destruct (reg_ok 6 v c Hi ltac:(lia)) as (I1 & D1 & _); set (c1 := out8 (ioBase d + 6) v c) in * end.
  destruct (delay400_ok c1) as (c2 & E2 & V2). rewrite (bind_step _ _ _ _ _ E2). assert (I2 : idle c2) by (unfold idle; by rewrite V2).
  destruct (drive_head lba Hlba) as [Hh1 Hh2]. set (h := Z.lor _ (Z.land _ 0x0F)) in *. cbv zeta.
  rewrite writeb_step. match goal with |- context [out8 (ioBase d + 6) ?v c2] => destruct (reg_ok 6 v c2 I2 ltac:(lia)) as (I3 & D3 & R3); set (c3 := out8 (ioBase d + 6) v c2) in * end.
  destruct (delay400_ok c3) as (c4 & E4 & V4). rewrite (bind_step _ _ _ _ _ E4). assert (I4 : idle c4) by (unfold idle; by rewrite V4).
  destruct (presence_ok c4 999 0 0 I4) as (c5 & E5 & V5). rewrite (bind_step (presence d ATA_NO_DEVICE_CHECK_LIMIT 0 0) _ _ _ _ E5). cbn [negb].
  assert (I5 : idle c5) by (unfold idle; by rewrite V5).
  rewrite writeb_step. match goal with |- context [out8 (ioBase d + 2) ?v c5] => destruct (reg_ok 2 v c5 I5 ltac:(lia)) as (I6 & D6 & R6); set (c6 := out8 (ioBase d + 2) v c5) in * end.
  rewrite writeb_step. match goal with |- context [out8 (ioBase d + 3) ?v c6] => destruct (reg_ok 3 v c6 I6 ltac:(lia)) as (I7 & D7 & R7); set (c7 := out8 (ioBase d + 3) v c6) in * end.
  rewrite writeb_step. match goal with |- context [out8 (ioBase d + 4) ?v c7] => destruct (reg_ok 4 v c7 I7 ltac:(lia)) as (I8 & D8 & R8); set (c8 := out8 (ioBase d + 4) v c7) in * end.
  rewrite writeb_step. match goal with |- context [out8 (ioBase d + 5) ?v c8] => destruct (reg_ok 5 v c8 I8 ltac:(lia)) as (I9 & D9 & R9); set (c9 := out8 (ioBase d + 5) v c8) in * end.
  assert (HR : v_regs (view c9) = mk_regs n (Z.land lba 0xFF) (Z.land (Z.shiftr lba 8) 0xFF) (Z.land (Z.shiftr lba 16) 0xFF) h).
  { rewrite R9, R8, R7, R6, V5, V4, R3. reflexivity. }
  assert (HL : regs_lba (v_regs (view c9)) = lba mod 2 ^ 28).
  { rewrite HR. unfold regs_lba. cbn [r_low r_mid r_high r_head]. rewrite Hh1. change 0xFF with (Z.ones 8). rewrite !Z.land_ones, !Z.shiftr_div_pow2 by lia.
    change (2 ^ 8) with 256. change (2 ^ 16) with 65536. change (2 ^ 28) with 268435456. zdiv. }
  destruct (at_command c9 cmd) as (_ & Hd & Hp); [apply I9|apply I9|by rewrite HR|by rewrite HR|done|rewrite HL, HR; exact Hcap|].
  eexists. split; [reflexivity|]. split; [by rewrite Hd, D9, D8, D7, D6, V5, V4, D3, V2, D1|]. rewrite Hp, HL, HR. done.
Qed.

(** ** Reading *)

Lemma word_split sec i : Forall byte sec -> let w := word_of sec i in
  Z.land w 0xFF = byte_at sec (2 * i) /\ Z.land (Z.shiftr w 8) 0xFF = byte_at sec (2 * i + 1).
Proof.
  intros Hb w. pose proof (byte_at_range sec (2 * i) Hb). pose proof (byte_at_range sec (2 * i + 1) Hb). subst w. unfold word_of.
  change 0xFF with (Z.ones 8). rewrite !Z.land_ones, Z.shiftr_div_pow2 by lia. change (2 ^ 8) with 256. zdiv.
Qed.

Lemma drop_two (sec : list Z) i : (i + 1 < length sec)%nat -> drop i sec = byte_at sec i :: byte_at sec (i + 1) :: drop (i + 2) sec.
Proof.
  intros Hi. unfold byte_at. destruct (lookup_lt_is_Some_2 sec i ltac:(lia)) as [x Hx]. destruct (lookup_lt_is_Some_2 sec (i + 1) ltac:(lia)) as [y Hy].
  rewrite Hx, Hy. cbn [default from_option]. rewrite (drop_S _ _ _ Hx). replace (S i) with (i + 1)%nat by lia. rewrite (drop_S _ _ _ Hy). by replace (S (i + 1)) with (i + 2)%nat by lia.
Qed.

Lemma put_byte_ok (pre : list Z) x post v c : put (C := C) (length pre) v (pre ++ x :: post) c = Some (pre ++ v :: post, c).
Proof. unfold put. rewrite decide_True by (rewrite length_app; cbn; lia). unfold ret. do 2 f_equal. rewrite insert_app_r_alt by lia. by rewrite Nat.sub_diag. Qed.

(** The words of a sector that are left go to the buffer. *)
Lemma read_words_ok k : forall c lba n i pre mid post, v_phase (view c) = DataIn lba (S n) i -> v_lag (view c) = 0%nat -> (i + S k = 256)%nat -> length mid = (2 * S k)%nat ->
  exists c', read_words d (S k) (length pre) (pre ++ mid ++ post) c = Some (pre ++ drop (2 * i) (v_disk (view c) lba) ++ post, c') /\ v_disk (view c') = v_disk (view c) /\
    v_phase (view c') = (match n with O => Idle | S _ => DataIn (lba + 1) n 0 end) /\ (n = 0%nat -> v_lag (view c') = 0%nat).
Proof.
  induction k as [|k IH]; intros c lba n i pre mid post Hp Hl Hi Hm; cbn [read_words]; rewrite readw_step.
  all: destruct (at_data_in c lba n i Hp Hl ltac:(lia)) as (Hw & Hd & Hn); rewrite Hw; destruct (at_disk c lba) as [Hlen Hb]; destruct (word_split _ i Hb) as [-> ->].
  all: set (c1 := (in16 (dataPort d) c).2) in *; rewrite (drop_two _ (2 * i)) by lia; destruct mid as [|x [|y mid]]; try done.
  all: cbn [app]; rewrite (bind_step _ _ _ _ _ (put_byte_ok pre x (y :: mid ++ post) _ c1)).
  all: pose proof (put_byte_ok (pre ++ [byte_at (v_disk (view c) lba) (2 * i)]) y (mid ++ post) (byte_at (v_disk (view c) lba) (2 * i + 1)) c1) as Ep; rewrite length_app, <-!app_assoc in Ep; cbn [length app] in Ep; rewrite (bind_step _ _ _ _ _ Ep).
  - rewrite decide_True in Hn by lia. destruct mid; [|done]. exists c1. split; [|done]. by rewrite drop_ge by lia.
  - rewrite decide_False in Hn by lia. destruct Hn as [Hp1 Hl1].
    destruct (IH c1 lba n (i + 1)%nat (pre ++ [byte_at (v_disk (view c) lba) (2 * i); byte_at (v_disk (view c) lba) (2 * i + 1)]) mid post) as (c2 & E2 & Hd2 & Hp2 & Hl2); [done|done|lia|cbn in Hm; lia|].
    exists c2. split; [|by rewrite Hd2]. rewrite Hd, length_app, <-!app_assoc in E2. cbn [length app] in E2. replace (2 * (i + 1))%nat with (2 * i + 2)%nat in E2 by lia. exact E2.
Qed.

Lemma read_sectors_ok n : forall c lba pre mid post, v_phase (view c) = (match n with O => Idle | S _ => DataIn lba n 0 end) -> (n = 0%nat -> v_lag (view c) = 0%nat) -> length mid = (512 * n)%nat ->
  exists c', read_sectors_loop d n (length pre) (pre ++ mid ++ post) c = Some ((true, pre ++ sectors (v_disk (view c)) lba n ++ post), c') /\ v_disk (view c') = v_disk (view c) /\ idle c'.
Proof.
  induction n as [|n IH]; intros c lba pre mid post Hp Hl Hm; cbn [read_sectors_loop].
  { exists c. destruct mid; [|done]. split; [done|]. split; [done|]. split; auto. }
  destruct (WaitForReady_ok c) as (c1 & E1 & V1); [by rewrite Hp|]. rewrite (bind_step _ _ _ _ _ E1). cbn [negb].
  rewrite <-(take_drop 512 mid), <-app_assoc. change ATA_WORDS_PER_SECTOR with (S 255).
  destruct (read_words_ok 255 c1 lba n 0 pre (take 512 mid) (drop 512 mid ++ post)) as (c2 & E2 & D2 & P2 & L2); [by rewrite V1|by rewrite V1|lia|rewrite length_take; lia|].
  rewrite (bind_step _ _ _ _ _ E2). assert (Ed : v_disk (view c1) = v_disk (view c)) by (by rewrite V1). rewrite Ed in *. cbn [Nat.mul drop].
  destruct (at_disk c lba) as [Hlen _]. destruct (IH c2 (lba + 1) (pre ++ v_disk (view c) lba) (drop 512 mid) post P2 L2) as (c3 & E3 & D3 & I3); [rewrite length_drop; lia|].
  exists c3. rewrite length_app, Hlen, D2, <-!app_assoc in E3. cbn [sectors]. rewrite <-app_assoc. split; [exact E3|]. by rewrite D3.
Qed.

(** [ReadSectors] from a controller between commands succeeds: the buffer
    starts with the sectors, the rest of it and the disk are unchanged, and the
    controller is between commands again. *)
Lemma ReadSectors_ok c lba n buf : idle c -> 0 <= lba -> 1 <= n <= 255 -> lba mod 2 ^ 28 + n <= blocks -> 512 * n <= Z.of_nat (length buf) ->
  exists c', ReadSectors d lba n buf c = Some ((true, sectors (v_disk (view c)) (lba mod 2 ^ 28) (Z.to_nat n) ++ drop (Z.to_nat (512 * n)) buf), c') /\ v_disk (view c') = v_disk (view c) /\ idle c'.
Proof.
  intros Hi Hlba Hn Hcap Hb. unfold ReadSectors. destruct (Z.eqb_spec n 0); [lia|].
  destruct (start_command_ok c lba n ATA_CMD_READ_SECTORS Hi Hlba Hn Hcap) as (c1 & E1 & D1 & P1); [by left|]. rewrite (bind_step _ _ _ _ _ E1). cbn [negb].
  destruct (read_sectors_ok (Z.to_nat n) c1 (lba mod 2 ^ 28) [] (take (Z.to_nat (512 * n)) buf) (drop (Z.to_nat (512 * n)) buf)) as (c2 & E2 & D2 & I2).
  { rewrite P1. cbn [Z.eqb]. rewrite Z.eqb_refl. destruct (Z.to_nat n) eqn:En; [lia|done]. }
  { lia. } { rewrite length_take. lia. }
  cbn [length app] in E2. rewrite take_drop, D1 in E2. exists c2. split; [exact E2|]. by rewrite D2, D1.
Qed.

(** ** Writing *)

Lemma pair_word lo hi : 0 <= lo < 256 -> 0 <= hi < 256 -> Z.lor lo (u16 (Z.shiftl hi 8)) = lo + 256 * hi.
Proof.
  intros Hl Hh. rewrite Z.shiftl_mul_pow2 by lia. change (2 ^ 8) with 256. rewrite u16_small by lia.
  replace (hi * 256) with (Z.shiftl hi 8) by (rewrite Z.shiftl_mul_pow2 by lia; lia). rewrite <-Z.lxor_lor, <-Z.add_nocarry_lxor; [rewrite Z.shiftl_mul_pow2 by lia; lia| |].
  all: apply Z.bits_inj'; intros n Hn; rewrite Z.land_spec, Z.bits_0, Z.shiftl_spec by lia; destruct (Z.ltb_spec n 8); [rewrite (Z.testbit_neg_r _ (n - 8)) by lia; apply andb_false_r|].
  all: rewrite (Z.bits_above_log2 lo n); [done|lia|]; destruct (decide (lo = 0)) as [->|]; [cbn; lia|]; apply Z.log2_lt_pow2; [lia|]; apply Z.lt_le_trans with (2 ^ 8); [lia|]; apply Z.pow_le_mono_r; lia.
Qed.

Lemma take_two (l : list Z) k lo hi : l !! k = Some lo -> l !! (k + 1)%nat = Some hi -> take (k + 2) l = take k l ++ [lo; hi].
Proof.
  intros Hlo Hhi. replace (k + 2)%nat with (S (S k)) by lia. rewrite Nat.add_1_r in Hhi. by rewrite (take_S_r _ _ _ Hhi), (take_S_r _ _ _ Hlo), <-app_assoc.
Qed.

(** The words still to be sent complete the sector at [base] of the buffer. *)
Section Last.
Context (L : nat -> Prop) (Hlast : after_last_word (C := C) (d := d) L).
Lemma write_words_ok k : forall c lba n ws base buf, v_phase (view c) = DataOut lba (S n) ws -> v_lag (view c) = 0%nat -> (length ws + S k = 256)%nat ->
  (base + 512 <= length buf)%nat -> Forall byte buf -> ws ≫= word_bytes = take (2 * length ws) (drop base buf) ->
  exists c', write_words d (S k) (base + 2 * length ws) buf c = Some (tt, c') /\ v_phase (view c') = (match n with O => Idle | S _ => DataOut (lba + 1) n [] end) /\ (n = 0%nat -> L (v_lag (view c'))) /\
    forall l, v_disk (view c') l = if decide (l = lba) then take 512 (drop base buf) else v_disk (view c) l.
Proof.
  induction k as [|k IH]; intros c lba n ws base buf Hp Hl Hk Hb Hby Hws; cbn [write_words].
  all: destruct (lookup_lt_is_Some_2 buf (base + 2 * length ws) ltac:(lia)) as [lo Hlo]; destruct (lookup_lt_is_Some_2 buf (base + 2 * length ws + 1) ltac:(lia)) as [hi Hhi]; rewrite Hlo, Hhi.
  all: pose proof (Forall_lookup_1 _ _ _ _ Hby Hlo) as B1; pose proof (Forall_lookup_1 _ _ _ _ Hby Hhi) as B2; cbv beta in B1, B2; rewrite pair_word by done.
  all: pose proof (at_data_out c lba n ws (lo + 256 * hi) Hp Hl ltac:(lia) ltac:(lia)) as Hn; cbv zeta in Hn; unfold writew; rewrite modify_step; set (c1 := out16 _ _ c) in *.
  all: assert (Hws1 : (ws ++ [lo + 256 * hi]) ≫= word_bytes = take (2 * length ws + 2) (drop base buf)) by
    (rewrite bind_app, Hws, (take_two _ _ lo hi) by (rewrite lookup_drop; rewrite <-?Hlo, <-?Hhi; f_equal; lia); cbn; unfold word_bytes; do 3 f_equal; [zdiv|f_equal; zdiv]).
  - rewrite decide_True in Hn by lia. destruct Hn as [Hp1 Hd1]. exists c1. split; [done|]. split; [done|]. split; [intros ->; apply (Hlast c lba ws); [done|done|lia|lia]|]. intros l. rewrite Hd1. unfold set_sector. case_decide; [|done]. rewrite Hws1. f_equal. lia.
  - rewrite decide_False in Hn by lia. destruct Hn as (Hp1 & Hd1 & Hl1).
    destruct (IH c1 lba n (ws ++ [lo + 256 * hi]) base buf) as (c2 & E2 & P2 & L2 & D2); [done|done|rewrite length_app; cbn; lia|done|done|rewrite length_app, Hws1; f_equal; cbn; lia|].
    rewrite length_app in E2. cbn [length] in E2. replace (base + 2 * (length ws + 1))%nat with (base + 2 * length ws + 2)%nat in E2 by lia. exists c2. split; [exact E2|]. split; [done|]. split; [done|]. intros l. by rewrite D2, Hd1.
Qed.

Lemma write_sectors_ok n : forall c lba base buf, v_phase (view c) = (match n with O => Idle | S _ => DataOut lba n [] end) -> (n = 0%nat -> L (v_lag (view c))) -> (base + 512 * n <= length buf)%nat -> Forall byte buf ->
  exists c', write_sectors_loop d n base buf c = Some (true, c') /\ v_phase (view c') = Idle /\ L (v_lag (view c')) /\
    forall l, v_disk (view c') l = if decide (lba <= l < lba + Z.of_nat n) then take 512 (drop (base + Z.to_nat (512 * (l - lba))) buf) else v_disk (view c) l.
Proof.
  induction n as [|n IH]; intros c lba base buf Hp Hl Hb Hby; cbn [write_sectors_loop].
  { exists c. split; [done|]. split; [done|]. split; [by apply Hl|]. intros l. by rewrite decide_False by lia. }
  destruct (WaitForReady_ok c) as (c1 & E1 & V1); [by rewrite Hp|]. rewrite (bind_step _ _ _ _ _ E1). cbn [negb]. change ATA_WORDS_PER_SECTOR with (S 255).
  destruct (write_words_ok 255 c1 lba n [] base buf) as (c2 & E2 & P2 & L2 & D2); [by rewrite V1|by rewrite V1|done|lia|done|done|].
  cbn [length Nat.mul] in E2. rewrite Nat.add_0_r in E2. rewrite (bind_step _ _ _ _ _ E2).
  destruct (IH c2 (lba + 1) (base + 512)%nat buf P2 L2 ltac:(lia) Hby) as (c3 & E3 & P3 & L3 & D3). exists c3. split; [done|]. split; [done|]. split; [done|].
  intros l. rewrite D3, D2, V1. cbn [v_disk set_lag]. repeat case_decide; try lia; try done; [do 2 f_equal; lia|subst; do 2 f_equal; lia].
Qed.


(** A write up to the FLUSH CACHE command. *)
Lemma write_until_flush c lba n buf : idle c -> 0 <= lba -> 1 <= n <= 255 -> lba mod 2 ^ 28 + n <= blocks -> 512 * n <= Z.of_nat (length buf) -> Forall byte buf ->
  exists c1, WriteSectors d lba n buf c = flush_wait d ATA_READY_TIMEOUT (out8 (commandPort d) 0xE7 c1) /\ v_phase (view c1) = Idle /\ L (v_lag (view c1)) /\ let first := lba mod 2 ^ 28 in
    forall l, v_disk (view c1) l = if decide (first <= l < first + n) then take 512 (drop (Z.to_nat (512 * (l - first))) buf) else v_disk (view c) l.
Proof.
  intros Hi Hlba Hn Hcap Hb Hby. unfold WriteSectors. destruct (Z.eqb_spec n 0); [lia|].
  destruct (start_command_ok c lba n ATA_CMD_WRITE_SECTORS Hi Hlba Hn Hcap) as (c1 & E1 & D1 & P1); [by right|]. rewrite (bind_step _ _ _ _ _ E1). cbn [negb].
  destruct (write_sectors_ok (Z.to_nat n) c1 (lba mod 2 ^ 28) 0 buf) as (c2 & E2 & P2 & L2 & D2); [rewrite P1; change (ATA_CMD_WRITE_SECTORS =? ATA_CMD_READ_SECTORS) with false; destruct (Z.to_nat n) eqn:En; [lia|done]|lia|lia|done|].
  rewrite (bind_step _ _ _ _ _ E2). cbn [negb]. rewrite writeb_step. exists c2. split_and!; try done. cbv zeta. intros l. rewrite D2, D1, Z2Nat.id by lia. done.
Qed.
End Last.

(** On a drive that is busy after the last word of a transfer, the driver
    writes FLUSH CACHE to a busy controller. *)
Theorem flush_while_busy c lba n buf : after_last_word (C := C) (d := d) (fun k => k <> 0%nat) ->
  idle c -> 0 <= lba -> 1 <= n <= 255 -> lba mod 2 ^ 28 + n <= blocks -> 512 * n <= Z.of_nat (length buf) -> Forall byte buf ->
  exists c1, WriteSectors d lba n buf c = flush_wait d ATA_READY_TIMEOUT (out8 (commandPort d) 0xE7 c1) /\ v_lag (view c1) <> 0%nat /\ Z.land (in8 (commandPort d) c1).1 ATA_STATUS_BSY <> 0.
Proof.
  intros Hslow Hi Hlba Hn Hcap Hb Hby. destruct (write_until_flush _ Hslow c lba n buf Hi Hlba Hn Hcap Hb Hby) as (c1 & E & _ & Hl & _). exists c1. split; [done|]. split; [done|]. by apply (at_busy c1 Hl).
Qed.

Context {Hprompt : PromptDrive C d}.

Lemma flush_wait_ok n : forall c, v_phase (view c) = Idle -> (v_lag (view c) + 1 < n)%nat ->
  exists c', flush_wait d n c = Some (true, c') /\ view c' = set_lag 0 (view c).
Proof.
  induction n as [|n IH]; intros c Hp Hn; [lia|]. cbn [flush_wait]. rewrite readb_step. destruct (decide (v_lag (view c) = 0%nat)) as [E0|E0].
  - destruct (at_ready c E0) as [(H1 & H2 & H3 & _) Hv]. rewrite H1. cbn [Z.eqb]. rewrite Z.land_lor_distr_r, H2, H3. cbn [Z.lor Z.eqb negb].
    destruct (Nat.eqb_spec n 0); [lia|]. eexists. split; [reflexivity|]. rewrite Hv. destruct (view c) eqn:Ev. cbn in *. by rewrite E0.
  - destruct (at_busy c E0) as [(H1 & _) Hv]. destruct (Z.eqb_spec (Z.land (in8 (commandPort d) c).1 ATA_STATUS_BSY) 0); [done|].
    destruct (IH (in8 (commandPort d) c).2) as (c2 & E2 & V2); [by rewrite Hv|rewrite Hv; cbn; lia|]. exists c2. split; [done|]. by rewrite V2, Hv.
Qed.

(** [WriteSectors] from a controller between commands succeeds: the sectors
    then hold the bytes of the buffer, the others are unchanged, and the
    controller is between commands again. *)
Lemma WriteSectors_ok c lba n buf : idle c -> 0 <= lba -> 1 <= n <= 255 -> lba mod 2 ^ 28 + n <= blocks -> 512 * n <= Z.of_nat (length buf) -> Forall byte buf ->
  exists c', WriteSectors d lba n buf c = Some (true, c') /\ idle c' /\ let first := lba mod 2 ^ 28 in
    forall l, v_disk (view c') l = if decide (first <= l < first + n) then take 512 (drop (Z.to_nat (512 * (l - first))) buf) else v_disk (view c) l.
Proof.
  intros Hi Hlba Hn Hcap Hb Hby. destruct (write_until_flush _ Hprompt c lba n buf Hi Hlba Hn Hcap Hb Hby) as (c2 & E & P2 & L2 & D2). rewrite E. destruct (at_flush c2 P2 (eq_sym L2)) as [P3 D3]. set (c3 := out8 _ _ c2) in *.
  destruct (flush_wait_ok ATA_READY_TIMEOUT c3 P3 (at_lag c3)) as (c4 & E4 & V4). exists c4. split; [done|]. unfold idle. rewrite V4. split; [done|]. cbv zeta. intros l. cbn [v_disk set_lag]. by rewrite D3, D2.
Qed.


(** ** The driver as a block device

    A device is a controller between commands.  A read leaves another
    controller between commands with the same disk, on which all results
    depend, so that the device can be taken as unchanged. *)
#[export] Instance idle_dec c : Decision (idle c).
Proof. unfold idle. apply _. Defined.

Definition ata_disk : Type := { c : C | idle c }.

#[export] Instance ata_block : BlockDevice ata_disk := {|
  dev_read x lba n :=
    match ReadSectors d lba n (replicate (Z.to_nat (512 * n)) 0) (proj1_sig x) with
    | Some ((true, buf), _) => Some buf
    | _ => None
    end;
  dev_write x lba n buf :=
    match WriteSectors d lba n buf (proj1_sig x) with
    | Some (ok, c') => match decide (idle c') with left Hi => (ok, exist _ c' Hi) | right _ => (false, x) end
    | None => (false, x)
    end;
|}.

#[export] Instance ata_working : WorkingDevice ata_disk.
Proof.
  pose proof (at_blocks (C := C)) as Hbl. change (2 ^ 28) with 268435456 in Hbl.
  refine {| capacity := blocks; sector x := v_disk (view (proj1_sig x)) |}.
  - intros x lba. apply at_disk.
  - intros x lba. apply at_disk.
  - intros [c Hi] lba n Hlba Hcap Hn. cbn. assert (Em : lba mod 2 ^ 28 = lba) by (apply Z.mod_small; lia).
    destruct (ReadSectors_ok c lba n (replicate (Z.to_nat (512 * n)) 0) Hi Hlba Hn) as (c' & E & _); [lia|rewrite length_replicate; lia|].
    rewrite E, Em, drop_ge by (rewrite length_replicate; lia). by rewrite app_nil_r.
  - intros [c Hi] lba n buf Hlba Hcap Hn Hl Hb. cbn. assert (Em : lba mod 2 ^ 28 = lba) by (apply Z.mod_small; lia).
    destruct (WriteSectors_ok c lba n buf Hi Hlba Hn) as (c' & E & Hi' & Hd); [lia|lia|done|]. rewrite E. destruct (decide (idle c')) as [Hi2|]; [|done].
    eexists. split; [reflexivity|]. intros l. cbn. rewrite Em in Hd. apply Hd.
Defined.
End Protocol.

(** * No drive *)

(** On a bus where no drive answers, every status read is 0xFF, or 0: reads and
    writes fail, and the buffer is as before. *)
Theorem no_device {C} `{AtaPorts C} d lba n buf c : (forall c, (in8 (commandPort d) c).1 = 0xFF) \/ (forall c, (in8 (commandPort d) c).1 = 0) -> n <> 0 ->
  (exists c', ReadSectors d lba n buf c = Some ((false, buf), c')) /\ exists c', WriteSectors d lba n buf c = Some (false, c').
Proof.
  intros Hs Hn. unfold ReadSectors, WriteSectors. destruct (Z.eqb_spec n 0); [done|].
  assert (Hp : forall k ff z c, (forall c, (in8 (commandPort d) c).1 = 0xFF) /\ 900 < ff + Z.of_nat k \/ (forall c, (in8 (commandPort d) c).1 = 0) /\ 900 < z + Z.of_nat k ->
    exists c', presence d k ff z c = Some (false, c')).
  { clear Hs. induction k as [|k IH]; intros ff z c0 Hs; cbn [presence].
    - exists c0. unfold ATA_NO_DEVICE_THRESHOLD. destruct (Z.ltb_spec 900 ff), (Z.ltb_spec 900 z); try done. lia.
    - rewrite readb_step. destruct Hs as [[Hs Hk]|[Hs Hk]]; rewrite Hs; cbn [Z.eqb]; apply IH; [left|right]; (split; [done|lia]). }
  assert (Hd : forall c, exists c', delay400 d c = Some (tt, c')).
  { intros c0. unfold delay400. destruct (hoare_for ATA_DELAY_400NS_READS 0 (fun _ => readb (controlPort d);;; ret tt) (fun _ _ => True)) with (s := c0) as ([] & c' & E & _); [|done|eauto].
    intros k _ c1 _. rewrite readb_step. eauto. }
  assert (Hstart : forall cmd, exists c', start_command d lba n cmd c = Some (false, c')).
  { intros cmd. unfold start_command, SelectDrive. rewrite bind_assoc, writeb_step. edestruct Hd as [c1 E1]. rewrite (bind_step _ _ _ _ _ E1). cbv zeta. rewrite writeb_step.
    edestruct Hd as [c2 E2]. rewrite (bind_step _ _ _ _ _ E2). destruct (Hp ATA_NO_DEVICE_CHECK_LIMIT 0 0 c2) as [c3 E3]; [unfold ATA_NO_DEVICE_CHECK_LIMIT; destruct Hs; [left|right]; (split; [done|lia])|].
    rewrite (bind_step _ _ _ _ _ E3). eauto. }
  split; [destruct (Hstart ATA_CMD_READ_SECTORS) as [c' E]|destruct (Hstart ATA_CMD_WRITE_SECTORS) as [c' E]]; rewrite (bind_step _ _ _ _ _ E); eauto.
Qed.

(** * A controller *)

(** The master drive of the primary bus, with [sm_disk] as its sectors; with
    [late] it is busy after the last word of a write. *)
Definition sim_driver : ATADriver := ATADriver_new ATA_PRIMARY false.

Record ata_sim (late : bool) := mk_sim { sm_regs : ata_regs; sm_phase : ata_phase; sm_lag : nat; sm_disk : ramdisk }.
Arguments mk_sim {late}.
Arguments sm_regs {late}.
Arguments sm_phase {late}.
Arguments sm_lag {late}.
Arguments sm_disk {late}.
Section Sim.
Context {late : bool}.

Definition SIM_LAG : nat := 3.
Definition sim_lag (s : ata_sim late) : nat := Nat.min (sm_lag s) SIM_LAG.

Definition sim_in8 (p : Z) (s : ata_sim late) : Z * ata_sim late :=
  if p =? commandPort sim_driver then
    match sim_lag s with
    | O => (if decide (sm_phase s = Idle) then 0x50 else 0x58, s)
    | S k => (0x80, mk_sim (sm_regs s) (sm_phase s) k (sm_disk s))
    end
  else (0, s).

Definition sim_out8 (p v : Z) (s : ata_sim late) : ata_sim late :=
  if p =? commandPort sim_driver then
    let start ph := mk_sim (sm_regs s) ph 2 (sm_disk s) in
    if v =? ATA_CMD_READ_SECTORS then start (DataIn (regs_lba (sm_regs s)) (Z.to_nat (r_count (sm_regs s))) 0)
    else if v =? ATA_CMD_WRITE_SECTORS then start (DataOut (regs_lba (sm_regs s)) (Z.to_nat (r_count (sm_regs s))) [])
    else if v =? 0xE7 then start (sm_phase s)
    else s
  else if (ATA_PRIMARY + 2 <=? p) && (p <=? ATA_PRIMARY + 6)
  then mk_sim (put_reg (p - ATA_PRIMARY) v (sm_regs s)) (sm_phase s) (sm_lag s) (sm_disk s)
  else s.

Definition sim_in16 (p : Z) (s : ata_sim late) : Z * ata_sim late :=
  match sm_phase s with
  | DataIn lba (S n) i =>
      (word_of (ram_sector (sm_disk s) lba) i,
       if decide (i = 255%nat) then mk_sim (sm_regs s) (match n with O => Idle | S _ => DataIn (lba + 1) n 0 end) (match n with O => 0 | S _ => 2 end) (sm_disk s)
       else mk_sim (sm_regs s) (DataIn lba (S n) (i + 1)) 0 (sm_disk s))
  | _ => (0, s)
  end.

Definition sim_out16 (p w : Z) (s : ata_sim late) : ata_sim late :=
  match sm_phase s with
  | DataOut lba (S n) ws =>
      if decide (length ws = 255%nat)
      then mk_sim (sm_regs s) (match n with O => Idle | S _ => DataOut (lba + 1) n [] end) (match n with O => if late then 2 else 0 | S _ => 2 end) (<[lba := (ws ++ [w]) ≫= word_bytes]> (sm_disk s))
      else mk_sim (sm_regs s) (DataOut lba (S n) (ws ++ [w])) 0 (sm_disk s)
  | _ => s
  end.

#[export] Instance sim_ports : AtaPorts (ata_sim late) := {| in8 := sim_in8; out8 := sim_out8; in16 := sim_in16; out16 := sim_out16 |}.

Definition sim_view (s : ata_sim late) : ata_view := mk_view (sm_regs s) (sm_phase s) (sim_lag s) (ram_sector (sm_disk s)).

Lemma words_clean ws : length ws = 256%nat -> clean (ws ≫= word_bytes) = ws ≫= word_bytes.
Proof.
  intros Hl. apply clean_id.
  - assert (E : forall vs, length (vs ≫= word_bytes) = (2 * length vs)%nat) by (induction vs as [|v vs IH]; [done|]; cbn in *; lia). by rewrite E, Hl.
  - clear Hl. induction ws as [|w ws IH]; [constructor|]. cbn. repeat constructor; try zdiv. exact IH.
Qed.

#[export] Instance sim_controller : AtaController (ata_sim late) sim_driver.
Proof.
  refine {| view := sim_view; blocks := 2 ^ 16 |}.
  - lia.
  - intros c l. split; [apply clean_length|apply clean_bytes].
  - intros c. unfold ATA_READY_TIMEOUT. cbn [v_lag sim_view]. unfold sim_lag, SIM_LAG. lia.
  - done.
  - intros c Hl. change (sim_lag c <> 0%nat) in Hl. cbn [in8 sim_ports]. unfold sim_in8. rewrite Z.eqb_refl. destruct (sim_lag c) as [|k] eqn:E; [done|]. split; [done|].
    unfold sim_view, set_lag. cbn [v_regs v_phase v_disk v_lag sm_regs sm_phase sm_disk snd]. rewrite E. f_equal. unfold sim_lag, SIM_LAG in *. cbn [sm_lag]. lia.
  - intros c Hl. change (sim_lag c = 0%nat) in Hl. cbn [in8 sim_ports]. unfold sim_in8. rewrite Z.eqb_refl, Hl. cbn [fst snd]. split; [|done]. cbn [v_phase sim_view].
    destruct (decide (sm_phase c = Idle)) as [E|E]; [rewrite bool_decide_eq_true_2 by done|rewrite bool_decide_eq_false_2 by done]; by split_and!.
  - intros c k v Hk Hp Hl. cbn [out8 sim_ports]. unfold sim_out8. change (ioBase sim_driver) with 0x1F0. change (commandPort sim_driver) with 0x1F7. unfold ATA_PRIMARY.
    destruct (Z.eqb_spec (0x1F0 + k) 0x1F7); [lia|]. destruct (Z.leb_spec (0x1F0 + 2) (0x1F0 + k)); [|lia]. destruct (Z.leb_spec (0x1F0 + k) (0x1F0 + 6)); [|lia]. cbn [andb].
    replace (0x1F0 + k - 0x1F0) with k by lia. done.
  - intros c cmd _ _ _ _ Hcmd _. destruct Hcmd as [-> | ->]; done.
  - intros c lba n i Hp Hl Hi. cbn in Hp. cbn [in16 sim_ports]. unfold sim_in16. rewrite Hp. cbn [fst snd]. split; [done|]. case_decide; [subst; rewrite ?decide_True by done|]; destruct n; try done; cbn; try done.
  - intros c lba n ws w Hp Hl Hlen Hw. cbn in Hp. cbn [out16 sim_ports]. unfold sim_out16. rewrite Hp. case_decide; [|done]. split; [by destruct n|]. intros l. cbn. unfold ram_sector, set_sector. cbn. case_decide.
    + subst. rewrite lookup_insert_eq. cbn [default from_option id]. apply words_clean. rewrite length_app. cbn. lia.
    + by rewrite lookup_insert_ne.
  - intros c Hp _. by split.
Defined.

(** The simulated drive after the last word. *)
Lemma sim_last c lba ws w : v_phase (sim_view c) = DataOut lba 1 ws -> length ws = 255%nat -> v_lag (sim_view (sim_out16 (dataPort sim_driver) w c)) = if late then 2%nat else 0%nat.
Proof. intros Hp Hl. cbn in Hp. unfold sim_out16. rewrite Hp, decide_True by done. change (Nat.min (if late then 2 else 0) SIM_LAG = if late then 2 else 0)%nat. clear. by destruct late. Qed.

Definition sim_idle (disk : ramdisk) : ata_sim late := mk_sim (mk_regs 0 0 0 0 0xE0) Idle 0 disk.

End Sim.

#[export] Instance sim_prompt : PromptDrive (ata_sim false) sim_driver.
Proof. intros c lba ws w Hp _ Hl _. symmetry. by apply (sim_last c lba ws w). Qed.

Lemma flush_while_busy_witness : exists c1, WriteSectors sim_driver 5 1 (replicate 512 7) (sim_idle (late := true) ∅) = flush_wait sim_driver ATA_READY_TIMEOUT (out8 (commandPort sim_driver) 0xE7 c1) /\ (in8 (commandPort sim_driver) c1).1 = 0x80.
Proof.
  destruct (flush_while_busy (C := ata_sim true) (d := sim_driver) (sim_idle ∅) 5 1 (replicate 512 7)) as (c1 & E & Hl & _).
  - intros c lba ws w Hp _ Hw _. change (v_lag (sim_view (sim_out16 (dataPort sim_driver) w c)) <> 0%nat). rewrite (sim_last c lba ws w Hp Hw). discriminate.
  - split; reflexivity.
  - lia.
  - lia.
  - vm_compute. discriminate.
  - vm_compute. discriminate.
  - apply Forall_replicate. lia.
  - exists c1. split; [exact E|]. change (sim_lag c1 <> 0%nat) in Hl. cbn [in8 sim_ports]. unfold sim_in8. rewrite Z.eqb_refl. destruct (sim_lag c1); [destruct Hl; reflexivity|reflexivity].
Defined.


(** A bus without a drive. *)
Definition floating : AtaPorts unit := {| in8 _ c := (0xFF, c); out8 _ _ c := c; in16 _ c := (0xFFFF, c); out16 _ _ c := c |}.

Lemma no_device_witness : exists c', @ReadSectors unit floating sim_driver 5 1 [1; 2] tt = Some ((false, [1; 2]), c').
Proof. destruct (@no_device unit floating sim_driver 5 1 [1; 2] tt) as [Hr _]; [left; reflexivity|discriminate|exact Hr]. Defined.

(** The file system on the driver: a file written to a disk behind the
    controller reads back. *)
Definition sim_disk : ata_disk (d := sim_driver) (C := ata_sim false) := exist _ (sim_idle Fat16.demo_disk) (conj eq_refl eq_refl).
Definition fat16_on_ata : option (option (list Z)) :=
  match (Fat16.Mount;;; Fat16.Mkdir Fat16.chain_fuel (Some [47; 68]) 0;;; Fat16.WriteFile Fat16.chain_fuel (Some (path_of [68] [97])) (Some [1; 2; 3]);;;
         Fat16.ReadFile Fat16.chain_fuel (Some (path_of [68] [97])) 10) (Fat16.FAT16_new sim_disk 0) with
  | Some (r, _) => Some r
  | None => None
  end.

Example fat16_on_ata_reads : fat16_on_ata = Some (Some [1; 2; 3]).
Proof. vm_compute. reflexivity. Qed.
