(* ===== verification/Cursor.v ===== *)
(** * The mouse cursor

    [ui/input.cpp]: the position of the cursor, kept in fixed point in a
    logical desktop space and projected to the screen, the buttons, and the
    configuration file with the size of the desktop space.  The globals of the
    file are the record [cursor]; the screen is an argument ([Graphics.v]), the
    file system is used through the class [Filesystem].  An [int] that leaves
    its range is [None]. *)
From Stdlib Require Import Ascii.
From S2P Require Import Prelude Graphics Services Stdio.

Record cursor := mk_cursor {
  g_mx : Z; g_my : Z; g_mb : Z; g_sens_num : Z; g_sens_den : Z;
  g_space_w : Z; g_space_h : Z; g_lx_fp : Z; g_ly_fp : Z }.
Definition set_mouse (x y : Z) (s : cursor) : cursor := mk_cursor x y (g_mb s) (g_sens_num s) (g_sens_den s) (g_space_w s) (g_space_h s) (g_lx_fp s) (g_ly_fp s).
Definition set_buttons (b : Z) (s : cursor) : cursor := mk_cursor (g_mx s) (g_my s) b (g_sens_num s) (g_sens_den s) (g_space_w s) (g_space_h s) (g_lx_fp s) (g_ly_fp s).
Definition set_sens (n d : Z) (s : cursor) : cursor := mk_cursor (g_mx s) (g_my s) (g_mb s) n d (g_space_w s) (g_space_h s) (g_lx_fp s) (g_ly_fp s).
Definition set_space (w h : Z) (s : cursor) : cursor := mk_cursor (g_mx s) (g_my s) (g_mb s) (g_sens_num s) (g_sens_den s) w h (g_lx_fp s) (g_ly_fp s).
Definition set_logical (x y : Z) (s : cursor) : cursor := mk_cursor (g_mx s) (g_my s) (g_mb s) (g_sens_num s) (g_sens_den s) (g_space_w s) (g_space_h s) x y.

(** The value of an [int] expression, if the type holds it. *)
Definition int32 {S} (z : Z) : ST S Z := if (- 2 ^ 31 <=? z) && (z <? 2 ^ 31) then ret z else stuck.
Definition Clamp32 (v lo hi : Z) : Z := if v <? lo then lo else if hi <? v then hi else v.
(** [(uint32_t)a * (uint32_t)b / (uint32_t)c]. *)
Definition scale (a b c : Z) : Z := u32 (u32 a * u32 b) / u32 c.

Definition AspectNear {S} (w h num den : Z) : ST S bool :=
  if (w <=? 0) || (h <=? 0) || (num <=? 0) || (den <=? 0) then ret false
  else
    let! lhs := int32 (w * den) in
    let! rhs := int32 (h * num) in
    let! d := int32 (lhs - rhs) in
    let! diff := int32 (Z.abs d) in
    let! m := int32 (diff * 20) in
    ret (m <=? rhs).

(** ** The configuration file *)

Definition is_blank (c : Z) : bool := (c =? 32) || (c =? 9) || (c =? 13) || (c =? 10).
Fixpoint skip_blanks (l : list Z) : list Z := match l with c :: l' => if is_blank c then skip_blanks l' else l | [] => [] end.
Fixpoint skip_line (l : list Z) : list Z := match l with c :: l' => if c =? 10 then l else skip_line l' | [] => [] end.
(** A run of digits: its value, whether there is any digit, what follows. *)
Fixpoint read_dec (v : Z) (any : bool) (l : list Z) : option (Z * bool * list Z) :=
  match l with
  | c :: l' => if is_digit c then let w := v * 10 + (c - 48) in if 2 ^ 31 <=? w then None else read_dec w true l' else Some (v, any, l)
  | [] => Some (v, any, [])
  end.
Fixpoint cfg_loop (n : nat) (l : list Z) : option (option (Z * Z)) :=
  match n with
  | O => None
  | S n' =>
      match skip_blanks l with
      | [] => Some None
      | c :: r =>
          if c =? 35 then cfg_loop n' (skip_line (c :: r))
          else
            match read_dec 0 false (c :: r) with
            | None => None
            | Some (w, hasW, x :: r1) =>
                if negb hasW || negb ((x =? 120) || (x =? 88)) then cfg_loop n' (skip_line (x :: r1))
                else
                  match read_dec 0 false r1 with
                  | None => None
                  | Some (h, hasH, r2) => if hasH && (0 <? w) && (0 <? h) then Some (Some (w, h)) else cfg_loop n' (skip_line r2)
                  end
            | Some (_, _, []) => cfg_loop n' []
            end
      end
  end.
Definition ParseMouseCfg (buf : list Z) : option (option (Z * Z)) :=
  match buf with [] => Some None | _ => cfg_loop (S (length buf)) buf end.

(** The bytes [SaveMouseDesktopSpaceConfig] writes. *)
Definition putDec (v : Z) : list Z := if v <=? 0 then [48] else rev (digit_loop 12 v 10 false).
Definition config_line (w h : Z) : list Z := take 63 (putDec w ++ [120] ++ putDec h ++ [10]).

Definition profile : Type := Z * Z.
Definition kProfiles16x9 : list profile := [(1280, 720); (1366, 768); (1600, 900); (1920, 1080); (2560, 1440); (3840, 2160)].
Definition kProfiles16x10 : list profile := [(1280, 800); (1440, 900); (1680, 1050); (1920, 1200); (2560, 1600)].
Definition kProfiles4x3 : list profile := [(1024, 768); (1280, 960); (1400, 1050); (1600, 1200); (2048, 1536)].
Fixpoint PickProfileAtLeast (profiles : list profile) (fbw fbh : Z) : Z * Z :=
  match profiles with
  | [] => (fbw, fbh)
  | (w, h) :: l => if (fbw <=? w) && (fbh <=? h) then (w, h) else PickProfileAtLeast l fbw fbh
  end.

(** ** The cursor *)

Section Screen.
Context (scr : screen).
Definition fbw : Z := fb_width (g_fb scr).
Definition fbh : Z := fb_height (g_fb scr).
Definition no_screen : bool := negb (IsAvailable scr) || (fbw =? 0) || (fbh =? 0).

Definition EnsureDesktopSpace : ST cursor unit :=
  if no_screen then ret tt
  else modify (fun s => set_space (if g_space_w s <=? 0 then s32 fbw else g_space_w s) (if g_space_h s <=? 0 then s32 fbh else g_space_h s) s).
Definition project (l space fb : Z) : Z := if (1 <? space) && (1 <? fb) then s32 (scale l (fb - 1) (space - 1)) else 0.
Definition ProjectLogicalToScreen : ST cursor unit :=
  if no_screen then ret tt
  else
    EnsureDesktopSpace;;;
    modify (fun s =>
      let max_fp space := s32 (Z.shiftl (if 1 <? space then space - 1 else 0) 8) in
      let low v := if v <? 0 then 0 else v in
      let cap v m := if m <? v then m else v in
      set_logical (cap (low (g_lx_fp s)) (max_fp (g_space_w s))) (cap (low (g_ly_fp s)) (max_fp (g_space_h s))) s);;;
    modify (fun s =>
      set_mouse (Clamp32 (project (Z.shiftr (g_lx_fp s) 8) (g_space_w s) fbw) 0 (s32 fbw - 1))
                (Clamp32 (project (Z.shiftr (g_ly_fp s) 8) (g_space_h s) fbh) 0 (s32 fbh - 1)) s).
Definition ProjectScreenToLogical (x y : Z) : ST cursor unit :=
  if no_screen then ret tt
  else
    EnsureDesktopSpace;;;
    modify (fun s =>
      let back v fb space := if (1 <? fb) && (1 <? space) then s32 (scale (Clamp32 v 0 (s32 fb - 1)) (space - 1) (fb - 1)) else 0 in
      set_logical (s32 (Z.shiftl (back x fbw (g_space_w s)) 8)) (s32 (Z.shiftl (back y fbh (g_space_h s)) 8)) s).

Definition InitInput : ST cursor unit :=
  modify (fun _ => if IsAvailable scr then mk_cursor 10 10 0 1 1 (s32 fbw) (s32 fbh) (Z.shiftl 10 8) (Z.shiftl 10 8) else mk_cursor 10 10 0 1 1 0 0 0 0).
Definition MouseMove (dx dy : Z) : ST cursor unit :=
  if negb (IsAvailable scr) then ret tt
  else
    EnsureDesktopSpace;;;
    modify (fun s => if g_sens_den s <=? 0 then set_sens (g_sens_num s) 1 s else s);;;
    let! s := gets id in
    let! ax := int32 (dx * g_sens_num s) in let! bx := int32 (ax * 256) in
    let! lx := int32 (g_lx_fp s + Z.quot bx (g_sens_den s)) in
    let! ay := int32 (dy * g_sens_num s) in let! by' := int32 (ay * 256) in
    let! ly := int32 (g_ly_fp s + Z.quot by' (g_sens_den s)) in
    modify (set_logical lx ly);;;
    ProjectLogicalToScreen.
Definition MouseButtonDown (button : Z) : ST cursor unit :=
  if (button <? 1) || (3 <? button) then ret tt else modify (fun s => set_buttons (u8 (Z.lor (g_mb s) (Z.shiftl 1 (button - 1)))) s).
Definition MouseButtonUp (button : Z) : ST cursor unit :=
  if (button <? 1) || (3 <? button) then ret tt else modify (fun s => set_buttons (Z.ldiff (g_mb s) (Z.shiftl 1 (button - 1))) s).
Definition GetMouseState : ST cursor (Z * Z * Z) := gets (fun s => (g_mx s, g_my s, g_mb s)).
Definition SetCursorPos (x y : Z) : ST cursor unit :=
  if negb (IsAvailable scr) then ret tt
  else
    let x := if x <? 0 then 0 else x in
    let y := if y <? 0 then 0 else y in
    let x := if s32 fbw <=? x then s32 fbw - 1 else x in
    let y := if s32 fbh <=? y then s32 fbh - 1 else y in
    modify (set_mouse x y);;; ProjectScreenToLogical x y.
Definition SetMouseSensitivity (num den : Z) : ST cursor unit :=
  modify (set_sens (if num <=? 0 then 1 else num) (if den <=? 0 then 1 else den)).
Definition SetMouseDesktopSpace (width height : Z) : ST cursor unit :=
  if no_screen then ret tt
  else
    modify (set_space (if width <=? 0 then s32 fbw else width) (if height <=? 0 then s32 fbh else height));;;
    let! s := gets id in
    ProjectScreenToLogical (g_mx s) (g_my s);;; ProjectLogicalToScreen.
Definition GetMouseDesktopSpace : ST cursor (Z * Z) :=
  EnsureDesktopSpace;;; gets (fun s => (g_space_w s, g_space_h s)).
Definition AutoCalibrateMouseDesktopSpace : ST cursor unit :=
  if no_screen then ret tt
  else
    let w := s32 fbw in
    let h := s32 fbh in
    let! wide := AspectNear w h 16 9 in
    let! target :=
      (if wide : bool then ret (PickProfileAtLeast kProfiles16x9 w h)
       else let! medium := AspectNear w h 16 10 in
       if medium : bool then ret (PickProfileAtLeast kProfiles16x10 w h)
       else let! narrow := AspectNear w h 4 3 in
       ret (if narrow : bool then PickProfileAtLeast kProfiles4x3 w h else (w, h))) in
    SetMouseDesktopSpace target.1 target.2.

(** ** Loading and saving *)

Context {F : Type} `{Filesystem F}.
Definition desk : Type := cursor * option F.
Definition on_cursor {A} (m : ST cursor A) : ST desk A := zoom fst (fun c s => (c, snd s)) m.
Definition on_fs {A} (m : ST F A) : ST desk A :=
  fun s => match s with (c, Some f) => match m f with Some (a, f') => Some (a, (c, Some f')) | None => None end | (_, None) => None end.
Definition kMouseCfgPathUpper : list Z := text "/ETC/MOUSE.CFG".
Definition kMouseCfgPathLower : list Z := text "/etc/mouse.cfg".
Definition filled (r : option (list Z)) : option (list Z) := match r with Some (c :: l) => Some (c :: l) | _ => None end.

Definition LoadMouseDesktopSpaceConfig : ST desk bool :=
  let! fs := gets snd in
  if negb (IsAvailable scr) || bool_decide (fs = None :> option F) then ret false
  else
    let! r := on_fs (fs_ReadFile kMouseCfgPathUpper 128) in
    let! r := (match filled r with Some l => ret (Some l) | None => let! r' := on_fs (fs_ReadFile kMouseCfgPathLower 128) in ret (filled r') end) in
    match r with
    | None => ret false
    | Some buf =>
        match ParseMouseCfg buf with
        | None => stuck
        | Some None => ret false
        | Some (Some (w, h)) => on_cursor (SetMouseDesktopSpace w h);;; ret true
        end
    end.
(** [WriteFile] returns the number of bytes or -1, and both but 0 are [true]. *)
Definition truth (r : option Z) : bool := match r with Some n => negb (n =? 0) | None => true end.
Definition SaveMouseDesktopSpaceConfig : ST desk bool :=
  let! fs := gets snd in
  if negb (IsAvailable scr) || bool_decide (fs = None :> option F) then ret false
  else
    let! '(w, h) := on_cursor GetMouseDesktopSpace in
    if (w <=? 0) || (h <=? 0) then ret false
    else
      let! r := on_fs (fs_WriteFile kMouseCfgPathUpper (config_line w h)) in
      if truth r then ret true
      else let! r' := on_fs (fs_WriteFile kMouseCfgPathLower (config_line w h)) in ret (truth r').
End Screen.

(** ** The cursor stays on the screen *)

Lemma s32_small z : - 2 ^ 31 <= z < 2 ^ 31 -> s32 z = z.
Proof. intros Hz. unfold s32. rewrite Z.mod_small; lia. Qed.
Lemma int32_step {S B} z (k : Z -> ST S B) s : - 2 ^ 31 <= z < 2 ^ 31 -> bind (int32 z) k s = k z s.
Proof. intros Hz. unfold int32. rewrite (proj2 (Z.leb_le _ _)), (proj2 (Z.ltb_lt _ _)) by lia. done. Qed.
Lemma scale_eq a b c : 0 <= a -> 0 <= b -> a * b < 2 ^ 32 -> a < 2 ^ 32 -> b < 2 ^ 32 -> 0 <= c < 2 ^ 32 -> scale a b c = a * b / c.
Proof. intros. unfold scale. rewrite (u32_small a), (u32_small b), (u32_small c) by lia. by rewrite u32_small by nia. Qed.
Lemma Clamp32_range v lo hi : lo <= hi -> lo <= Clamp32 v lo hi <= hi.
Proof. intros. unfold Clamp32. repeat case_zb; lia. Qed.
Lemma Clamp32_id v lo hi : lo <= v <= hi -> Clamp32 v lo hi = v.
Proof. intros. unfold Clamp32. repeat case_zb; lia. Qed.

Section Facts.
Context (scr : screen).
#[local] Abbreviation fbw := (fbw scr).
#[local] Abbreviation fbh := (fbh scr).

(** A screen of up to 32768 pixels in each direction. *)
Definition screen_ok : Prop := IsAvailable scr = true /\ 11 <= fbw <= 2 ^ 15 /\ 11 <= fbh <= 2 ^ 15.
Record cursor_ok (s : cursor) : Prop := {
  ok_mx : 0 <= g_mx s < fbw; ok_my : 0 <= g_my s < fbh; ok_mb : 0 <= g_mb s < 8;
  ok_num : 1 <= g_sens_num s <= 2 ^ 10; ok_den : 1 <= g_sens_den s;
  ok_w : 1 <= g_space_w s <= 2 ^ 15; ok_h : 1 <= g_space_h s <= 2 ^ 15;
  ok_lx : 0 <= g_lx_fp s <= (g_space_w s - 1) * 256; ok_ly : 0 <= g_ly_fp s <= (g_space_h s - 1) * 256 }.
Hypothesis Hscr : screen_ok.

Lemma screen_there : no_screen scr = false.
Proof. destruct Hscr as (Ha & Hw & Hh). unfold no_screen. rewrite Ha, (proj2 (Z.eqb_neq fbw 0)), (proj2 (Z.eqb_neq fbh 0)) by lia. done. Qed.
Lemma ensure_ok s : 1 <= g_space_w s -> 1 <= g_space_h s -> EnsureDesktopSpace scr s = Some (tt, s).
Proof.
  intros Hw Hh. unfold EnsureDesktopSpace. rewrite screen_there. unfold modify. rewrite (proj2 (Z.leb_gt (g_space_w s) 0)), (proj2 (Z.leb_gt (g_space_h s) 0)) by lia. by destruct s.
Qed.
(** From a logical position to a pixel, and back. *)
Lemma project_eq l space fb : 0 <= l <= space - 1 -> 1 <= space <= 2 ^ 15 -> 11 <= fb <= 2 ^ 15 ->
  project l space fb = (if 1 <? space then l * (fb - 1) / (space - 1) else 0) /\ 0 <= project l space fb < fb.
Proof.
  intros Hl Hs Hf. unfold project. destruct (Z.ltb_spec 1 space); cbn [andb]; [|lia]. rewrite (proj2 (Z.ltb_lt 1 fb)) by lia. rewrite scale_eq by nia.
  assert (0 <= l * (fb - 1) / (space - 1) < fb) by (split; [apply Z.div_pos; nia|apply Z.div_lt_upper_bound; nia]). rewrite s32_small by lia. lia.
Qed.
Definition low_cap (v m : Z) : Z := Z.min (Z.max v 0) m.
Lemma logical_to_screen s : 1 <= g_space_w s <= 2 ^ 15 -> 1 <= g_space_h s <= 2 ^ 15 ->
  let lx := low_cap (g_lx_fp s) ((g_space_w s - 1) * 256) in
  let ly := low_cap (g_ly_fp s) ((g_space_h s - 1) * 256) in
  ProjectLogicalToScreen scr s = Some (tt, set_mouse (project (lx / 256) (g_space_w s) fbw) (project (ly / 256) (g_space_h s) fbh) (set_logical lx ly s)).
Proof.
  intros Hw Hh lx ly. destruct Hscr as (_ & Hfw & Hfh). unfold ProjectLogicalToScreen. rewrite screen_there, (bind_step _ _ _ _ _ (ensure_ok s ltac:(lia) ltac:(lia))), modify_step. cbv zeta.
  assert (Hcap : forall v sp, 1 <= sp <= 2 ^ 15 -> (if s32 (Z.shiftl (if 1 <? sp then sp - 1 else 0) 8) <? (if v <? 0 then 0 else v) then s32 (Z.shiftl (if 1 <? sp then sp - 1 else 0) 8) else (if v <? 0 then 0 else v)) = low_cap v ((sp - 1) * 256)).
  { intros v sp Hsp. replace (if 1 <? sp then sp - 1 else 0) with (sp - 1) by (case_zb; lia). rewrite Z.shiftl_mul_pow2 by lia. rewrite s32_small by lia. unfold low_cap. destruct (Z.ltb_spec v 0); case_zb; lia. }
  rewrite !Hcap by done. fold lx ly. unfold modify. cbn [g_lx_fp g_ly_fp g_space_w g_space_h set_logical]. rewrite !Z.shiftr_div_pow2 by lia. change (2 ^ 8) with 256. repeat f_equal.
  all: rewrite Clamp32_id; [done|]; rewrite s32_small by lia.
  - assert (0 <= lx / 256 <= g_space_w s - 1) by (unfold lx, low_cap; zdiv). destruct (project_eq (lx / 256) (g_space_w s) fbw) as [_ Hp]; lia.
  - assert (0 <= ly / 256 <= g_space_h s - 1) by (unfold ly, low_cap; zdiv). destruct (project_eq (ly / 256) (g_space_h s) fbh) as [_ Hp]; lia.
Qed.
Lemma logical_to_screen_ok s : 0 <= g_mb s < 8 -> 1 <= g_sens_num s <= 2 ^ 10 -> 1 <= g_sens_den s -> 1 <= g_space_w s <= 2 ^ 15 -> 1 <= g_space_h s <= 2 ^ 15 ->
  exists s', ProjectLogicalToScreen scr s = Some (tt, s') /\ cursor_ok s'.
Proof.
  intros Hb Hn Hd Hw Hh. destruct Hscr as (_ & Hfw & Hfh). eexists. split; [by apply logical_to_screen|]. set (lx := low_cap _ _). set (ly := low_cap (g_ly_fp s) _).
  assert (0 <= lx <= (g_space_w s - 1) * 256 /\ 0 <= lx / 256 <= g_space_w s - 1) by (unfold lx, low_cap; zdiv). assert (0 <= ly <= (g_space_h s - 1) * 256 /\ 0 <= ly / 256 <= g_space_h s - 1) by (unfold ly, low_cap; zdiv).
  split; cbn [g_mx g_my g_mb g_sens_num g_sens_den g_space_w g_space_h g_lx_fp g_ly_fp set_mouse set_logical]; try lia.
  - destruct (project_eq (lx / 256) (g_space_w s) fbw) as [_ Hp]; lia.
  - destruct (project_eq (ly / 256) (g_space_h s) fbh) as [_ Hp]; lia.
Qed.
Definition back (v fb space : Z) : Z := if 1 <? space then v * (space - 1) / (fb - 1) else 0.
Lemma back_range v fb space : 0 <= v < fb -> 11 <= fb -> 1 <= space -> 0 <= back v fb space <= space - 1.
Proof. intros. unfold back. case_zb; [|lia]. split; [apply Z.div_pos; nia|]. apply Z.lt_succ_r, Z.div_lt_upper_bound; nia. Qed.
Lemma screen_to_logical s x y : 0 <= x < fbw -> 0 <= y < fbh -> 1 <= g_space_w s <= 2 ^ 15 -> 1 <= g_space_h s <= 2 ^ 15 ->
  ProjectScreenToLogical scr x y s = Some (tt, set_logical (back x fbw (g_space_w s) * 256) (back y fbh (g_space_h s) * 256) s).
Proof.
  intros Hx Hy Hw Hh. destruct Hscr as (_ & Hfw & Hfh). unfold ProjectScreenToLogical. rewrite screen_there, (bind_step _ _ _ _ _ (ensure_ok s ltac:(lia) ltac:(lia))). unfold modify. cbv zeta.
  assert (Hback : forall v fb sp, 0 <= v < fb -> 11 <= fb <= 2 ^ 15 -> 1 <= sp <= 2 ^ 15 -> s32 (Z.shiftl (if (1 <? fb) && (1 <? sp) then s32 (scale (Clamp32 v 0 (s32 fb - 1)) (sp - 1) (fb - 1)) else 0) 8) = back v fb sp * 256).
  { intros v fb sp Hv Hf Hs. pose proof (back_range v fb sp Hv ltac:(lia) ltac:(lia)) as Hr. rewrite (s32_small fb), Clamp32_id, scale_eq, (proj2 (Z.ltb_lt 1 fb)) by nia. cbn [andb]. fold (back v fb sp) in Hr.
    replace (if 1 <? sp then s32 (v * (sp - 1) / (fb - 1)) else 0) with (back v fb sp) by (unfold back in *; case_zb; [rewrite s32_small; lia|done]). rewrite Z.shiftl_mul_pow2, s32_small; lia. }
  by rewrite !Hback by done.
Qed.

Lemma SetMouseDesktopSpace_ok s w h : cursor_ok s -> w <= 2 ^ 15 -> h <= 2 ^ 15 ->
  let w' := if w <=? 0 then fbw else w in
  let h' := if h <=? 0 then fbh else h in
  exists s', SetMouseDesktopSpace scr w h s = Some (tt, s') /\ cursor_ok s' /\ g_space_w s' = w' /\ g_space_h s' = h' /\
    g_mx s' = project (back (g_mx s) fbw w') w' fbw /\ g_my s' = project (back (g_my s) fbh h') h' fbh.
Proof.
  intros [Hx Hy Hb Hn Hd Hw Hh Hlx Hly] Hw0 Hh0 w' h'. destruct Hscr as (_ & Hfw & Hfh). unfold SetMouseDesktopSpace. rewrite screen_there, modify_step, (s32_small fbw), (s32_small fbh) by lia. fold w' h'.
  assert (Hw1 : 1 <= w' <= 2 ^ 15) by (unfold w'; case_zb; lia). assert (Hh1 : 1 <= h' <= 2 ^ 15) by (unfold h'; case_zb; lia).
  rewrite gets_step. cbn [id g_mx g_my set_space]. rewrite (bind_step _ _ _ _ _ (screen_to_logical (set_space w' h' s) _ _ Hx Hy Hw1 Hh1)). cbn [g_space_w g_space_h set_space].
  pose proof (back_range (g_mx s) fbw w' Hx ltac:(lia) ltac:(lia)) as Bx. pose proof (back_range (g_my s) fbh h' Hy ltac:(lia) ltac:(lia)) as By. set (s1 := set_logical _ _ _).
  pose proof (logical_to_screen s1 Hw1 Hh1) as E. destruct (logical_to_screen_ok s1 Hb Hn Hd Hw1 Hh1) as (s' & E' & Hok). rewrite E' in E. injection E as ->. eexists. split; [exact E'|]. split; [done|].
  unfold s1. cbn [g_mx g_my g_space_w g_space_h g_lx_fp g_ly_fp set_mouse set_logical set_space]. unfold low_cap. rewrite !Z.max_l, !Z.min_l by lia. by rewrite !Z.div_mul by lia.
Qed.
Lemma SetCursorPos_ok s x y : cursor_ok s -> exists s', SetCursorPos scr x y s = Some (tt, s') /\ cursor_ok s' /\ g_mx s' = Clamp32 x 0 (fbw - 1) /\ g_my s' = Clamp32 y 0 (fbh - 1).
Proof.
  intros [Hx Hy Hb Hn Hd Hw Hh Hlx Hly]. destruct Hscr as (Ha & Hfw & Hfh). unfold SetCursorPos. rewrite Ha, (s32_small fbw), (s32_small fbh) by lia. cbn [negb].
  assert (Hcl : forall v fb, 11 <= fb -> (if fb <=? (if v <? 0 then 0 else v) then fb - 1 else (if v <? 0 then 0 else v)) = Clamp32 v 0 (fb - 1)) by (intros; unfold Clamp32; destruct (Z.ltb_spec v 0); repeat case_zb; lia).
  rewrite !Hcl by lia. pose proof (Clamp32_range x 0 (fbw - 1) ltac:(lia)) as Rx. pose proof (Clamp32_range y 0 (fbh - 1) ltac:(lia)) as Ry.
  rewrite modify_step. rewrite (screen_to_logical (set_mouse _ _ s)) by (done || lia). eexists. split; [done|]. cbn [g_space_w g_space_h set_mouse].
  pose proof (back_range (Clamp32 x 0 (fbw - 1)) fbw (g_space_w s) ltac:(lia) ltac:(lia) ltac:(lia)). pose proof (back_range (Clamp32 y 0 (fbh - 1)) fbh (g_space_h s) ltac:(lia) ltac:(lia) ltac:(lia)).
  split; [|done]. split; cbn [g_mx g_my g_mb g_sens_num g_sens_den g_space_w g_space_h g_lx_fp g_ly_fp set_mouse set_logical]; lia.
Qed.
Lemma quot_bound a d b : 1 <= d -> - b <= a <= b -> - b <= Z.quot a d <= b.
Proof. intros Hd Ha. destruct (Z.quot_rem' a d). pose proof (Z.quot_rem a d ltac:(lia)). pose proof (Z.rem_bound_abs a d ltac:(lia)). nia. Qed.
Lemma MouseMove_run s dx dy : cursor_ok s -> - 512 <= dx <= 512 -> - 512 <= dy <= 512 ->
  let s1 := set_logical (g_lx_fp s + Z.quot (dx * g_sens_num s * 256) (g_sens_den s)) (g_ly_fp s + Z.quot (dy * g_sens_num s * 256) (g_sens_den s)) s in
  MouseMove scr dx dy s = ProjectLogicalToScreen scr s1.
Proof.
  intros [Hx Hy Hb Hn Hd Hw Hh Hlx Hly] Hdx Hdy s1. destruct Hscr as (Ha & Hfw & Hfh). unfold MouseMove. rewrite Ha. cbn [negb]. rewrite (bind_step _ _ _ _ _ (ensure_ok s ltac:(lia) ltac:(lia))), modify_step.
  rewrite (proj2 (Z.leb_gt (g_sens_den s) 0)) by lia. rewrite gets_step. cbn [id].
  pose proof (quot_bound (dx * g_sens_num s * 256) (g_sens_den s) (2 ^ 28) ltac:(lia) ltac:(nia)). pose proof (quot_bound (dy * g_sens_num s * 256) (g_sens_den s) (2 ^ 28) ltac:(lia) ltac:(nia)).
  rewrite !int32_step by nia. by rewrite modify_step.
Qed.
Lemma MouseMove_ok s dx dy : cursor_ok s -> - 512 <= dx <= 512 -> - 512 <= dy <= 512 -> exists s', MouseMove scr dx dy s = Some (tt, s') /\ cursor_ok s'.
Proof. intros Hok Hdx Hdy. rewrite (MouseMove_run s dx dy Hok Hdx Hdy). destruct Hok. by apply logical_to_screen_ok. Qed.
Lemma buttons_ok b k : 0 <= b < 8 -> 1 <= k <= 3 -> 0 <= u8 (Z.lor b (Z.shiftl 1 (k - 1))) < 8 /\ 0 <= Z.ldiff b (Z.shiftl 1 (k - 1)) < 8.
Proof.
  intros Hb Hk. assert (Hc : forallb (fun b => forallb (fun k => (u8 (Z.lor b (Z.shiftl 1 (k - 1))) <? 8) && (Z.ldiff b (Z.shiftl 1 (k - 1)) <? 8) && (0 <=? Z.ldiff b (Z.shiftl 1 (k - 1)))) [1; 2; 3]) (seqZ 0 8) = true) by (vm_compute; reflexivity).
  pose proof (below_ind 8 _ Hc b Hb) as Hb'. rewrite forallb_forall in Hb'. specialize (Hb' k). rewrite !andb_true_iff, !Z.ltb_lt, Z.leb_le in Hb'. destruct Hb' as [[H1 H2] H3]; [assert (k = 1 \/ k = 2 \/ k = 3) as [-> | [-> | ->]] by lia; cbn; auto|].
  pose proof (u8_range (Z.lor b (Z.shiftl 1 (k - 1)))). lia.
Qed.

(** What may happen to the cursor. *)
Inductive cursor_op := OpMove (dx dy : Z) | OpDown (b : Z) | OpUp (b : Z) | OpPos (x y : Z) | OpSens (num den : Z) | OpSpace (w h : Z).
Definition cursor_step (o : cursor_op) : ST cursor unit :=
  match o with
  | OpMove dx dy => MouseMove scr dx dy | OpDown b => MouseButtonDown b | OpUp b => MouseButtonUp b
  | OpPos x y => SetCursorPos scr x y | OpSens num den => SetMouseSensitivity num den | OpSpace w h => SetMouseDesktopSpace scr w h
  end.
Definition op_ok (o : cursor_op) : Prop :=
  match o with
  | OpMove dx dy => - 512 <= dx <= 512 /\ - 512 <= dy <= 512 | OpSens num _ => num <= 2 ^ 10 | OpSpace w h => w <= 2 ^ 15 /\ h <= 2 ^ 15 | _ => True
  end.
Fixpoint cursor_steps (l : list cursor_op) : ST cursor unit := match l with [] => ret tt | o :: l' => cursor_step o;;; cursor_steps l' end.
Lemma cursor_step_ok o s : op_ok o -> cursor_ok s -> exists s', cursor_step o s = Some (tt, s') /\ cursor_ok s'.
Proof.
  intros Ho Hok. destruct o as [dx dy|b|b|x y|num den|w h]; cbn [cursor_step op_ok] in *.
  - destruct Ho. by apply MouseMove_ok.
  - unfold MouseButtonDown. destruct ((b <? 1) || (3 <? b)) eqn:E; [by exists s|]. eexists. split; [done|]. destruct Hok. apply orb_false_iff in E as [E1%Z.ltb_ge E2%Z.ltb_ge]. destruct (buttons_ok (g_mb s) b) as [B1 B2]; [done|lia|]. split; try done.
  - unfold MouseButtonUp. destruct ((b <? 1) || (3 <? b)) eqn:E; [by exists s|]. eexists. split; [done|]. destruct Hok. apply orb_false_iff in E as [E1%Z.ltb_ge E2%Z.ltb_ge]. destruct (buttons_ok (g_mb s) b) as [B1 B2]; [done|lia|]. split; try done.
  - destruct (SetCursorPos_ok s x y Hok) as (s' & E & Hok' & _). by exists s'.
  - eexists. split; [done|]. destruct Hok. split; try done; cbn [set_sens g_sens_num g_sens_den]; repeat case_zb; lia.
  - destruct Ho. destruct (SetMouseDesktopSpace_ok s w h Hok) as (s' & E & Hok' & _); [done|done|]. by exists s'.
Qed.
Lemma cursor_steps_ok l s : Forall op_ok l -> cursor_ok s -> exists s', cursor_steps l s = Some (tt, s') /\ cursor_ok s'.
Proof.
  intros Hl. revert s. induction Hl as [|o l Ho Hl IH]; intros s Hok; [by exists s|]. destruct (cursor_step_ok o s Ho Hok) as (s1 & E & Hok1). cbn [cursor_steps]. rewrite (bind_step _ _ _ _ _ E). by apply IH.
Qed.
Lemma InitInput_ok s : exists s', InitInput scr s = Some (tt, s') /\ cursor_ok s' /\ g_space_w s' = fbw /\ g_space_h s' = fbh /\ g_lx_fp s' = g_mx s' * 256 /\ g_ly_fp s' = g_my s' * 256.
Proof.
  destruct Hscr as (Ha & Hfw & Hfh). unfold InitInput, modify. rewrite Ha, (s32_small fbw), (s32_small fbh) by lia. change (Z.shiftl 10 8) with 2560. eexists. split; [done|]. split; [|done].
  split; cbn [g_mx g_my g_mb g_sens_num g_sens_den g_space_w g_space_h g_lx_fp g_ly_fp]; lia.
Qed.
End Facts.

(** C26: On a screen of 11 to 2^15 pixels each way, after [InitInput], any
    sequence of movements by at most 512 (a packet of the mouse moves by no
    more), button changes, positions, sensitivities with a numerator of at most
    2^10 and desktop spaces of at most 2^15 each way returns, without leaving
    the type [int], and leaves the cursor on the screen and its logical
    position inside the desktop space.  Beyond these bounds the arithmetic can
    overflow ([MouseMove_overflows]). *)
Theorem cursor_on_screen scr l s : screen_ok scr -> Forall op_ok l ->
  exists s1 s', InitInput scr s = Some (tt, s1) /\ cursor_steps scr l s1 = Some (tt, s') /\ cursor_ok scr s'.
Proof.
  intros Hs Hl. destruct (InitInput_ok scr Hs s) as (s1 & E & Hok & _). destruct (cursor_steps_ok scr Hs l s1 Hl Hok) as (s' & E' & Hok'). by exists s1, s'.
Qed.

(** The sensitivity has no upper bound: a movement whose product with it is
    2^31 or more leaves the type [int]. *)
Theorem MouseMove_overflows scr s num den dx dy : screen_ok scr -> cursor_ok scr s -> 0 < num -> 2 ^ 31 <= dx * num ->
  exists s1, SetMouseSensitivity num den s = Some (tt, s1) /\ MouseMove scr dx dy s1 = None.
Proof.
  intros Hs [Hx Hy Hb Hn Hd Hw Hh Hlx Hly] Hnum Hov. eexists. split; [reflexivity|]. set (s1 := set_sens _ _ s). assert (En : g_sens_num s1 = num) by (cbn; by destruct (Z.leb_spec num 0); [lia|]).
  unfold MouseMove. rewrite (proj1 Hs). cbn [negb]. rewrite (bind_step _ _ _ _ _ (ensure_ok scr Hs s1 ltac:(exact (proj1 Hw)) ltac:(exact (proj1 Hh)))), modify_step, gets_step. cbn [id].
  set (s2 := if g_sens_den s1 <=? 0 then _ else _). assert (En2 : g_sens_num s2 = num) by (subst s2; destruct (g_sens_den s1 <=? 0); exact En). rewrite En2. unfold int32 at 1. rewrite (proj2 (Z.ltb_ge (dx * num) (2 ^ 31))) by lia. by rewrite andb_false_r.
Qed.

(** With the desktop space of the size of the screen and sensitivity one, a
    movement moves the cursor by exactly its distance, up to the edge. *)
Theorem MouseMove_exact scr s dx dy : screen_ok scr -> cursor_ok scr s -> g_space_w s = fbw scr -> g_space_h s = fbh scr -> g_sens_num s = g_sens_den s ->
  g_lx_fp s = g_mx s * 256 -> g_ly_fp s = g_my s * 256 -> - 512 <= dx <= 512 -> - 512 <= dy <= 512 ->
  exists s', MouseMove scr dx dy s = Some (tt, s') /\ g_mx s' = Clamp32 (g_mx s + dx) 0 (fbw scr - 1) /\ g_my s' = Clamp32 (g_my s + dy) 0 (fbh scr - 1) /\
    g_lx_fp s' = g_mx s' * 256 /\ g_ly_fp s' = g_my s' * 256.
Proof.
  intros Hs Hok Ew Eh En Elx Ely Hdx Hdy. rewrite (MouseMove_run scr Hs s dx dy Hok Hdx Hdy). pose proof Hs as (_ & Hfw & Hfh). destruct Hok as [Hx Hy Hb Hn Hd Hw Hh Hlx Hly].
  assert (Hq : forall d, Z.quot (d * g_sens_num s * 256) (g_sens_den s) = d * 256) by (intros d; rewrite En; replace (d * g_sens_den s * 256) with (d * 256 * g_sens_den s) by lia; apply Z.quot_mul; lia).
  rewrite !Hq. set (s1 := set_logical _ _ s). rewrite (logical_to_screen scr Hs s1) by done. eexists. split; [done|]. cbn [g_mx g_my g_lx_fp g_ly_fp set_mouse set_logical s1 g_space_w g_space_h]. unfold s1. cbn [g_space_w g_space_h g_lx_fp g_ly_fp set_logical].
  rewrite Ew, Eh, Elx, Ely. assert (Hp : forall m d fb, 11 <= fb <= 2 ^ 15 -> low_cap (m * 256 + d * 256) ((fb - 1) * 256) = Clamp32 (m + d) 0 (fb - 1) * 256 /\ project (low_cap (m * 256 + d * 256) ((fb - 1) * 256) / 256) fb fb = Clamp32 (m + d) 0 (fb - 1)).
  { intros m d fb Hf. pose proof (Clamp32_range (m + d) 0 (fb - 1) ltac:(lia)). assert (E : low_cap (m * 256 + d * 256) ((fb - 1) * 256) = Clamp32 (m + d) 0 (fb - 1) * 256) by (unfold low_cap, Clamp32; repeat case_zb; lia). split; [done|].
    rewrite E, Z.div_mul by lia. destruct (project_eq (Clamp32 (m + d) 0 (fb - 1)) fb fb) as [-> _]; [lia..|]. rewrite (proj2 (Z.ltb_lt 1 fb)) by lia. apply Z.div_mul. lia. }
  destruct (Hp (g_mx s) dx (fbw scr) Hfw) as [E1 E2], (Hp (g_my s) dy (fbh scr) Hfh) as [E3 E4]. rewrite E2, E4, E1, E3. done.
Qed.

(** Another desktop space, at least as large as the screen, moves the cursor by
    at most one pixel. *)
Lemma SetMouseDesktopSpace_moves scr s w h : screen_ok scr -> cursor_ok scr s -> fbw scr <= w <= 2 ^ 15 -> fbh scr <= h <= 2 ^ 15 ->
  exists s', SetMouseDesktopSpace scr w h s = Some (tt, s') /\ cursor_ok scr s' /\ g_space_w s' = w /\ g_space_h s' = h /\ g_mx s - 1 <= g_mx s' <= g_mx s /\ g_my s - 1 <= g_my s' <= g_my s.
Proof.
  intros Hs Hok Hw Hh. pose proof Hs as (_ & Hfw & Hfh). destruct (SetMouseDesktopSpace_ok scr Hs s w h Hok) as (s' & E & Hok' & Ew & Eh & Ex & Ey); [lia..|].
  rewrite (proj2 (Z.leb_gt w 0)) in Ew, Ex by lia. rewrite (proj2 (Z.leb_gt h 0)) in Eh, Ey by lia. exists s'. split; [done|]. split; [done|]. split; [done|]. split; [done|]. rewrite Ex, Ey.
  assert (Hp : forall v fb sp, 0 <= v < fb -> 11 <= fb <= sp -> sp <= 2 ^ 15 -> v - 1 <= project (back v fb sp) sp fb <= v).
  { intros v fb sp Hv Hf Hsp. pose proof (back_range v fb sp Hv ltac:(lia) ltac:(lia)) as Hr. destruct (project_eq (back v fb sp) sp fb) as [-> _]; [lia..|]. rewrite (proj2 (Z.ltb_lt 1 sp)) by lia. revert Hr. unfold back. rewrite (proj2 (Z.ltb_lt 1 sp)) by lia. intros Hr.
    pose proof (Z.mul_div_le (v * (sp - 1)) (fb - 1) ltac:(lia)). pose proof (Z.mul_succ_div_gt (v * (sp - 1)) (fb - 1) ltac:(lia)). set (l := v * (sp - 1) / (fb - 1)) in *. split; [apply Z.div_le_lower_bound; nia|apply Z.div_le_upper_bound; nia]. }
  destruct Hok. split; apply Hp; lia.
Qed.

(** ** The desktop space that fits *)

Lemma AspectNear_ok {S} (s : S) w h num den : 1 <= w <= 2 ^ 15 -> 1 <= h <= 2 ^ 15 -> 1 <= num <= 16 -> 1 <= den <= 16 -> exists b, AspectNear w h num den s = Some (b, s).
Proof.
  intros Hw Hh Hn Hd. unfold AspectNear. rewrite (proj2 (Z.leb_gt w 0)), (proj2 (Z.leb_gt h 0)), (proj2 (Z.leb_gt num 0)), (proj2 (Z.leb_gt den 0)) by lia. cbn [orb]. rewrite !int32_step by nia. by eexists.
Qed.
Lemma PickProfile_ok l w h : Forall (fun p : profile => p.1 <= 2 ^ 15 /\ p.2 <= 2 ^ 15) l -> w <= 2 ^ 15 -> h <= 2 ^ 15 ->
  w <= (PickProfileAtLeast l w h).1 <= 2 ^ 15 /\ h <= (PickProfileAtLeast l w h).2 <= 2 ^ 15.
Proof.
  intros Hl Hw Hh. induction Hl as [|[pw ph] l Hp Hl IH]; cbn [PickProfileAtLeast]; [cbn; lia|]. destruct (Z.leb_spec w pw), (Z.leb_spec h ph); cbn [andb fst snd] in *; [lia|done..].
Qed.
(** Calibration chooses a desktop space at least as large as the screen, and
    moves the cursor by at most one pixel. *)
Theorem AutoCalibrate_covers scr s : screen_ok scr -> cursor_ok scr s ->
  exists s', AutoCalibrateMouseDesktopSpace scr s = Some (tt, s') /\ fbw scr <= g_space_w s' /\ fbh scr <= g_space_h s' /\ cursor_ok scr s' /\
    g_mx s - 1 <= g_mx s' <= g_mx s /\ g_my s - 1 <= g_my s' <= g_my s.
Proof.
  intros Hs Hok. pose proof Hs as (_ & Hw & Hh). unfold AutoCalibrateMouseDesktopSpace. rewrite (screen_there scr Hs), (s32_small (fbw scr)), (s32_small (fbh scr)) by lia.
  assert (Hset : forall p : profile, fbw scr <= p.1 <= 2 ^ 15 -> fbh scr <= p.2 <= 2 ^ 15 -> exists s', SetMouseDesktopSpace scr p.1 p.2 s = Some (tt, s') /\ fbw scr <= g_space_w s' /\ fbh scr <= g_space_h s' /\ cursor_ok scr s' /\ g_mx s - 1 <= g_mx s' <= g_mx s /\ g_my s - 1 <= g_my s' <= g_my s).
  { intros p Hpw Hph. destruct (SetMouseDesktopSpace_moves scr s p.1 p.2 Hs Hok Hpw Hph) as (s' & E & Hok' & E1 & E2 & Hx & Hy). exists s'. split_and!; done || lia. }
  assert (Hpick : forall l, Forall (fun p : profile => p.1 <= 2 ^ 15 /\ p.2 <= 2 ^ 15) l -> exists s', SetMouseDesktopSpace scr (PickProfileAtLeast l (fbw scr) (fbh scr)).1 (PickProfileAtLeast l (fbw scr) (fbh scr)).2 s = Some (tt, s') /\ fbw scr <= g_space_w s' /\ fbh scr <= g_space_h s' /\ cursor_ok scr s' /\ g_mx s - 1 <= g_mx s' <= g_mx s /\ g_my s - 1 <= g_my s' <= g_my s).
  { intros l Hl. destruct (PickProfile_ok l (fbw scr) (fbh scr) Hl) as [H1 H2]; [lia..|]. by apply Hset. }
  destruct (AspectNear_ok s (fbw scr) (fbh scr) 16 9) as (b1 & E1); [lia..|]. destruct (AspectNear_ok s (fbw scr) (fbh scr) 16 10) as (b2 & E2); [lia..|]. destruct (AspectNear_ok s (fbw scr) (fbh scr) 4 3) as (b3 & E3); [lia..|].
  rewrite (bind_step _ _ _ _ _ E1). destruct b1; [rewrite ret_step; apply Hpick; repeat constructor; cbn; lia|]. rewrite bind_assoc, (bind_step _ _ _ _ _ E2). destruct b2; [rewrite ret_step; apply Hpick; repeat constructor; cbn; lia|].
  rewrite bind_assoc, (bind_step _ _ _ _ _ E3), ret_step. destruct b3; [apply Hpick; repeat constructor; cbn; lia|]. apply (Hset (fbw scr, fbh scr)); cbn [fst snd]; lia.
Qed.

(** ** The configuration file *)

Lemma digs_digit d : 0 <= d < 10 -> is_digit (digs false d) = true /\ digs false d - 48 = d /\ is_blank (digs false d) = false /\ digs false d <> 35.
Proof. intros Hd. unfold is_digit, is_blank, digs. change (ch "0") with 48. change (ch "9") with 57. rewrite (proj2 (Z.ltb_lt d 10)) by lia. split_and!; try lia. Qed.
Lemma read_dec_ok vs rest : Forall (fun d => 0 <= d < 10) vs -> match rest with x :: _ => is_digit x = false | [] => True end ->
  forall v any, 0 <= v -> foldl (fun a d => a * 10 + d) v vs < 2 ^ 31 ->
  v <= foldl (fun a d => a * 10 + d) v vs /\ read_dec v any ((digs false <$> vs) ++ rest) = Some (foldl (fun a d => a * 10 + d) v vs, any || negb (bool_decide (vs = [])), rest).
Proof.
  intros Hvs Hrest. induction Hvs as [|d vs Hd Hvs IH]; intros v any Hv Hlt; cbn [foldl fmap list_fmap app read_dec] in *.
  - split; [lia|]. rewrite orb_false_r. destruct rest as [|x rest]; cbn [read_dec]; [done|]. by rewrite Hrest.
  - destruct (digs_digit d Hd) as (-> & -> & _). destruct (IH (v * 10 + d) true ltac:(lia) Hlt) as [Hle E]. cbn zeta. rewrite (proj2 (Z.leb_gt (2 ^ 31) _)) by lia. rewrite E, orb_true_r. split; [lia|done].
Qed.
Lemma putDec_ok v : 0 < v < 2 ^ 31 -> exists vs, putDec v = digs false <$> vs /\ Forall (fun d => 0 <= d < 10) vs /\ value 10 vs = v /\ vs <> [] /\ (length vs <= 10)%nat.
Proof.
  intros Hv. destruct (numeral_exists 10 false v ltac:(lia) ltac:(lia)) as (ds & Hds). pose proof (numeral_digits 10 false v ds 12 ltac:(lia) ltac:(lia) ltac:(lia) Hds) as E. rewrite (proj2 (Z.eqb_neq v 0)) in E by lia.
  destruct Hds as (vs & -> & Hvs & Ev & Hz). destruct Hz as [->|[Hne Hh]]; [cbn in Ev; lia|]. exists vs. unfold putDec. rewrite (proj2 (Z.leb_gt v 0)), E, rev_involutive by lia. split_and!; try done.
  apply (value_length 10); try done. rewrite Ev. lia.
Qed.
(** The first line decides, whatever follows it. *)
Lemma ParseMouseCfg_line w h tail : 0 < w < 2 ^ 31 -> 0 < h < 2 ^ 31 -> ParseMouseCfg (config_line w h ++ tail) = Some (Some (w, h)) /\ (length (config_line w h) <= 22)%nat.
Proof.
  intros Hw Hh. destruct (putDec_ok w Hw) as (ws & Ew & Hws & Vw & Nw & Lw), (putDec_ok h Hh) as (hs & Eh & Hhs & Vh & Nh & Lh). unfold config_line.
  assert (Hl : (length (putDec w ++ [120%Z] ++ putDec h ++ [10%Z]) <= 22)%nat) by (rewrite Ew, Eh, !length_app, !length_fmap; cbn; lia). rewrite take_ge by lia. split; [|done]. rewrite Ew, Eh.
  set (rest := [120] ++ (digs false <$> hs) ++ [10]). destruct ws as [|d ws]; [done|]. pose proof Hws as Hws'. apply Forall_cons in Hws' as [Hd _]. destruct (digs_digit d Hd) as (_ & _ & Hb & H35).
  destruct (read_dec_ok (d :: ws) (rest ++ tail) Hws eq_refl 0 false ltac:(lia)) as [_ R1]; [unfold value in Vw; lia|]. destruct (read_dec_ok hs ([10] ++ tail) Hhs eq_refl 0 false ltac:(lia)) as [_ R2]; [unfold value in Vh; lia|].
  unfold value in Vw, Vh. rewrite Vw in R1. rewrite Vh in R2. rewrite <-app_assoc. cbn [fmap list_fmap app] in R1 |- *. cbn [ParseMouseCfg]. cbn [cfg_loop skip_blanks]. rewrite Hb, (proj2 (Z.eqb_neq _ _) H35), R1.
  unfold rest. cbn [app]. rewrite <-!app_assoc. cbn [orb negb bool_decide]. rewrite bool_decide_eq_false_2 by done. change ((120 =? 120) || (120 =? 88)) with true. cbn [negb orb]. rewrite R2, bool_decide_eq_false_2 by done. cbn [negb orb andb].
  by rewrite (proj2 (Z.ltb_lt 0 w)), (proj2 (Z.ltb_lt 0 h)) by lia.
Qed.

Section Config.
Context (scr : screen) {F : Type} `{Filesystem F}.
Hypothesis (Hs : screen_ok scr).
Lemma Save_run c f r f' : cursor_ok scr c -> fs_WriteFile kMouseCfgPathUpper (config_line (g_space_w c) (g_space_h c)) f = Some (r, f') -> truth r = true ->
  SaveMouseDesktopSpaceConfig scr (c, Some f) = Some (true, (c, Some f')).
Proof.
  intros Hok E Ht. destruct Hs as (Ha & _). destruct Hok as [_ _ _ _ _ Hw Hh _ _]. unfold SaveMouseDesktopSpaceConfig. rewrite gets_step, Ha. cbn [snd negb orb]. rewrite bool_decide_eq_false_2 by done.
  assert (Eg : on_cursor (GetMouseDesktopSpace scr) (c, Some f) = Some (g_space_w c, g_space_h c, (c, Some f))) by (unfold on_cursor, zoom; cbn [fst]; unfold GetMouseDesktopSpace; by rewrite (bind_step _ _ _ _ _ (ensure_ok scr Hs c ltac:(lia) ltac:(lia)))).
  rewrite (bind_step _ _ _ _ _ Eg), (proj2 (Z.leb_gt (g_space_w c) 0)), (proj2 (Z.leb_gt (g_space_h c) 0)) by lia. cbn [orb].
  assert (Ew : on_fs (fs_WriteFile kMouseCfgPathUpper (config_line (g_space_w c) (g_space_h c))) (c, Some f) = Some (r, (c, Some f'))) by (unfold on_fs; by rewrite E). rewrite (bind_step _ _ _ _ _ Ew). by rewrite Ht.
Qed.
Lemma Load_run c f w h tail f' : cursor_ok scr c -> 0 < w <= 2 ^ 15 -> 0 < h <= 2 ^ 15 -> fs_ReadFile kMouseCfgPathUpper 128 f = Some (Some (config_line w h ++ tail), f') ->
  exists c', LoadMouseDesktopSpaceConfig scr (c, Some f) = Some (true, (c', Some f')) /\ cursor_ok scr c' /\ g_space_w c' = w /\ g_space_h c' = h.
Proof.
  intros Hok Hw Hh E. destruct (ParseMouseCfg_line w h tail ltac:(lia) ltac:(lia)) as [Ep _]. destruct (SetMouseDesktopSpace_ok scr Hs c w h Hok) as (c' & Es & Hok' & Ew & Eh & _); [lia..|].
  rewrite (proj2 (Z.leb_gt w 0)) in Ew by lia. rewrite (proj2 (Z.leb_gt h 0)) in Eh by lia. exists c'. split; [|done]. destruct Hs as (Ha & _). unfold LoadMouseDesktopSpaceConfig. rewrite gets_step, Ha. cbn [snd negb orb]. rewrite bool_decide_eq_false_2 by done.
  assert (Er : on_fs (fs_ReadFile kMouseCfgPathUpper 128) (c, Some f) = Some (Some (config_line w h ++ tail), (c, Some f'))) by (unfold on_fs; by rewrite E). rewrite (bind_step _ _ _ _ _ Er).
  destruct (config_line w h ++ tail) as [|x l] eqn:El; [by rewrite ?El in Ep|]. cbn [filled]. rewrite ret_step, Ep.
  assert (Ec : on_cursor (SetMouseDesktopSpace scr w h) (c, Some f') = Some (tt, (c', Some f'))) by (unfold on_cursor, zoom; cbn [fst]; by rewrite Es). by rewrite (bind_step _ _ _ _ _ Ec).
Qed.

(** The desktop space that is saved is the one loaded at the next start, when
    the file system returns what was written. *)
Theorem config_roundtrip c f n f' c0 : cursor_ok scr c -> cursor_ok scr c0 -> n <> 0 ->
  fs_WriteFile kMouseCfgPathUpper (config_line (g_space_w c) (g_space_h c)) f = Some (Some n, f') ->
  fs_ReadFile kMouseCfgPathUpper 128 f' = Some (Some (config_line (g_space_w c) (g_space_h c)), f') ->
  SaveMouseDesktopSpaceConfig scr (c, Some f) = Some (true, (c, Some f')) /\
  exists c', LoadMouseDesktopSpaceConfig scr (c0, Some f') = Some (true, (c', Some f')) /\ g_space_w c' = g_space_w c /\ g_space_h c' = g_space_h c.
Proof.
  intros Hok Hok0 Hn Ew Er. split; [apply (Save_run c f (Some n) f' Hok Ew); cbn; by rewrite (proj2 (Z.eqb_neq n 0))|]. destruct Hok as [_ _ _ _ _ Hw Hh _ _].
  rewrite <-(app_nil_r (config_line _ _)) in Er. destruct (Load_run c0 f' (g_space_w c) (g_space_h c) [] f' Hok0 ltac:(lia) ltac:(lia) Er) as (c' & E & _ & E1 & E2). by exists c'.
Qed.

(** Saving again has no effect on what is loaded: the file systems of the
    kernel append, so the first line stays the one saved first. *)
Theorem config_stale c f w0 h0 n f' c0 : cursor_ok scr c -> cursor_ok scr c0 -> 0 < w0 <= 2 ^ 15 -> 0 < h0 <= 2 ^ 15 -> n <> 0 ->
  fs_WriteFile kMouseCfgPathUpper (config_line (g_space_w c) (g_space_h c)) f = Some (Some n, f') ->
  fs_ReadFile kMouseCfgPathUpper 128 f' = Some (Some (config_line w0 h0 ++ config_line (g_space_w c) (g_space_h c)), f') ->
  SaveMouseDesktopSpaceConfig scr (c, Some f) = Some (true, (c, Some f')) /\
  exists c', LoadMouseDesktopSpaceConfig scr (c0, Some f') = Some (true, (c', Some f')) /\ g_space_w c' = w0 /\ g_space_h c' = h0.
Proof.
  intros Hok Hok0 Hw0 Hh0 Hn Ew Er. split; [apply (Save_run c f (Some n) f' Hok Ew); cbn; by rewrite (proj2 (Z.eqb_neq n 0))|].
  destruct (Load_run c0 f' _ _ _ f' Hok0 Hw0 Hh0 Er) as (c' & E & _ & E1 & E2). by exists c'.
Qed.

(** A failed write is reported as a success: the result -1 of [WriteFile] is
    taken for a truth value. *)
Theorem Save_ignores_failure c f f' : cursor_ok scr c -> fs_WriteFile kMouseCfgPathUpper (config_line (g_space_w c) (g_space_h c)) f = Some (None, f') ->
  SaveMouseDesktopSpaceConfig scr (c, Some f) = Some (true, (c, Some f')).
Proof. intros Hok E. by apply (Save_run c f None f' Hok E). Qed.
End Config.

(** ** Examples *)

(** A volume of one file; a write appends. *)
Record log_file := mk_log { lines : list Z }.
#[export] Instance log_file_fs : Filesystem log_file := {
  fs_ReadFile path maxLen := fun f => Some (Some (take (Z.to_nat maxLen) (lines f)), f);
  fs_WriteFile path data := fun f => Some (Some (Z.of_nat (length data)), mk_log (lines f ++ data));
}.
Definition demo_screen : screen := mk_screen (mk_fb 0xE0000000 4096 1024 768 32 1 16 8 8 8 0 8) true false 0 0.
Lemma demo_screen_ok : screen_ok demo_screen.
Proof. split_and!; [done|vm_compute; discriminate..]. Qed.
Definition demo_cursor : cursor := mk_cursor 10 10 0 1 1 1024 768 2560 2560.
Lemma demo_cursor_ok : cursor_ok demo_screen demo_cursor.
Proof. split; vm_compute; done || (split; done || discriminate). Qed.

Lemma cursor_on_screen_witness : exists s1 s', InitInput demo_screen demo_cursor = Some (tt, s1) /\ cursor_steps demo_screen [OpMove 300 (-200); OpSpace 2048 1536; OpDown 1; OpPos 5000 5] s1 = Some (tt, s') /\ cursor_ok demo_screen s'.
Proof. apply (cursor_on_screen demo_screen [OpMove 300 (-200); OpSpace 2048 1536; OpDown 1; OpPos 5000 5] demo_cursor demo_screen_ok). repeat constructor; lia. Defined.
Lemma MouseMove_overflows_witness : exists s1, SetMouseSensitivity (2 ^ 30) 1 demo_cursor = Some (tt, s1) /\ MouseMove demo_screen 2 0 s1 = None.
Proof. apply (MouseMove_overflows demo_screen demo_cursor (2 ^ 30) 1 2 0 demo_screen_ok demo_cursor_ok); lia. Defined.
Lemma MouseMove_exact_witness : exists s', MouseMove demo_screen 7 (-3) demo_cursor = Some (tt, s') /\ g_mx s' = 17 /\ g_my s' = 7.
Proof.
  destruct (MouseMove_exact demo_screen demo_cursor 7 (-3) demo_screen_ok demo_cursor_ok) as (s' & E & Hx & Hy & _); [vm_compute; reflexivity..|lia|lia|]. exists s'. split; [exact E|]. rewrite Hx, Hy. done.
Defined.
Lemma AutoCalibrate_covers_witness : exists s', AutoCalibrateMouseDesktopSpace demo_screen demo_cursor = Some (tt, s') /\ 1024 <= g_space_w s' /\ 768 <= g_space_h s'.
Proof. destruct (AutoCalibrate_covers demo_screen demo_cursor demo_screen_ok demo_cursor_ok) as (s' & E & Hw & Hh & _). by exists s'. Defined.
Lemma config_roundtrip_witness : exists f c', SaveMouseDesktopSpaceConfig demo_screen (demo_cursor, Some (mk_log [])) = Some (true, (demo_cursor, Some f)) /\
  LoadMouseDesktopSpaceConfig demo_screen (demo_cursor, Some f) = Some (true, (c', Some f)) /\ g_space_w c' = 1024 /\ g_space_h c' = 768.
Proof.
  destruct (config_roundtrip demo_screen demo_screen_ok demo_cursor (mk_log []) 9 (mk_log (config_line 1024 768)) demo_cursor demo_cursor_ok demo_cursor_ok) as (E & c' & E' & Hw & Hh); [done|vm_compute; reflexivity..|].
  exists (mk_log (config_line 1024 768)), c'. done.
Defined.
Lemma config_stale_witness : exists f c', SaveMouseDesktopSpaceConfig demo_screen (demo_cursor, Some (mk_log (config_line 640 480))) = Some (true, (demo_cursor, Some f)) /\
  LoadMouseDesktopSpaceConfig demo_screen (demo_cursor, Some f) = Some (true, (c', Some f)) /\ g_space_w c' = 640 /\ g_space_h c' = 480.
Proof.
  destruct (config_stale demo_screen demo_screen_ok demo_cursor (mk_log (config_line 640 480)) 640 480 9 (mk_log (config_line 640 480 ++ config_line 1024 768)) demo_cursor demo_cursor_ok demo_cursor_ok) as (E & c' & E' & Hw & Hh); [lia|lia|done|vm_compute; reflexivity..|].
  exists (mk_log (config_line 640 480 ++ config_line 1024 768)), c'. done.
Defined.
