(* ===== verification/Ps2.v ===== *)
(** * The PS/2 controller

    [drivers/ps2/ps2.cpp]: the controller behind the ports 0x60 and 0x64 that
    the keyboard and the mouse share.  The chip is a parameter, the class
    [PS2Ports]; [PS2Device] is what the drivers rely on: a queue of bytes, each
    of the keyboard or of the mouse, whose first byte the status register
    announces and a read of the data port removes.  [fifo] is such a device. *)
From S2P Require Import Prelude.

Class PS2Ports (P : Type) := {
  inb : Z -> P -> Z * P;
  outb : Z -> Z -> P -> P;
}.
Definition PS2_DATA_PORT : Z := 0x60.
Definition PS2_CMD_PORT : Z := 0x64.
Definition PS2_STATUS_OBF : Z := 0x01.
Definition PS2_STATUS_IBF : Z := 0x02.
Definition PS2_STATUS_AUX : Z := 0x20.
Definition PS2_CMD_READ_CFG : Z := 0x20.
Definition PS2_CMD_WRITE_TO_MOUSE : Z := 0xD4.

(** [PS2Controller]: the two port objects exist after [Init]. *)
Record controller (P : Type) := mk_controller { m_ready : bool; port : P }.
Arguments mk_controller {P}. Arguments m_ready {P}. Arguments port {P}.

Section Controller.
Context {P : Type} `{PS2Ports P}.
Definition Init : ST (controller P) unit := modify (fun c => mk_controller true (port c)).
Definition in_port (p : Z) : ST (controller P) Z :=
  fun c => if m_ready c then let '(v, d) := inb p (port c) in Some (v, mk_controller true d) else None.
Definition out_port (p v : Z) : ST (controller P) unit :=
  fun c => if m_ready c then Some (tt, mk_controller true (outb p v (port c))) else None.
Definition ReadStatus : ST (controller P) Z := in_port PS2_CMD_PORT.
Definition ReadData : ST (controller P) Z := in_port PS2_DATA_PORT.
Definition WriteData (v : Z) : ST (controller P) unit := out_port PS2_DATA_PORT v.
Definition WriteCommand (v : Z) : ST (controller P) unit := out_port PS2_CMD_PORT v.

(** [for (i = 0; i < n; ++i) if (done(ReadStatus())) break;] *)
Fixpoint wait_status (n : nat) (done : Z -> bool) : ST (controller P) unit :=
  match n with
  | O => ret tt
  | S n' => let! st := ReadStatus in if done st then ret tt else wait_status n' done
  end.
Definition WAIT_PASSES : nat := Z.to_nat 100000.
Definition WaitWrite : ST (controller P) unit := wait_status WAIT_PASSES (fun st => Z.land st PS2_STATUS_IBF =? 0).
Definition WaitRead : ST (controller P) unit := wait_status WAIT_PASSES (fun st => negb (Z.land st PS2_STATUS_OBF =? 0)).
Definition send_command (v : Z) : ST (controller P) unit := WaitWrite;;; WriteCommand v.
Definition send_data (v : Z) : ST (controller P) unit := WaitWrite;;; WriteData v.
Definition WriteToMouse (v : Z) : ST (controller P) unit := send_command PS2_CMD_WRITE_TO_MOUSE;;; send_data v.
Definition ReadConfig : ST (controller P) Z := send_command PS2_CMD_READ_CFG;;; WaitRead;;; ReadData.

(** [while (ReadStatus() & 1) (void)ReadData();] *)
Fixpoint flush (fuel : nat) : ST (controller P) unit :=
  match fuel with
  | O => stuck
  | S n => let! st := ReadStatus in if Z.land st PS2_STATUS_OBF =? 0 then ret tt else ReadData;;; flush n
  end.
End Controller.

(** The documented behaviour: [pending] are the bytes to be read, with a flag
    for those of the mouse. *)
Class PS2Device (P : Type) `{PS2Ports P} := {
  pending : P -> list (bool * Z);
  status_empty p : pending p = [] -> Z.land (inb PS2_CMD_PORT p).1 PS2_STATUS_OBF = 0;
  status_full p aux b l : pending p = (aux, b) :: l ->
    Z.land (inb PS2_CMD_PORT p).1 PS2_STATUS_OBF = 1 /\ Z.land (inb PS2_CMD_PORT p).1 PS2_STATUS_AUX = (if aux then 0x20 else 0);
  status_keeps p : pending (inb PS2_CMD_PORT p).2 = pending p;
  data_first p aux b l : pending p = (aux, b) :: l -> (inb PS2_DATA_PORT p).1 = b /\ pending (inb PS2_DATA_PORT p).2 = l;
  data_byte p : 0 <= (inb PS2_DATA_PORT p).1 < 256;
}.

Section Facts.
Context {P : Type} `{PS2Device P}.
Definition waiting (c : controller P) (l : list (bool * Z)) : Prop := m_ready c = true /\ pending (port c) = l.

Lemma ReadStatus_empty c : waiting c [] -> exists st c', ReadStatus c = Some (st, c') /\ waiting c' [] /\ Z.land st PS2_STATUS_OBF = 0.
Proof.
  intros [Hr Hp]. unfold ReadStatus, in_port. rewrite Hr. pose proof (status_empty (port c) Hp) as Hs. pose proof (status_keeps (port c)) as Hk. destruct (inb PS2_CMD_PORT (port c)) as [st d].
  eexists _, _. split; [done|]. split; [|done]. split; [done|]. cbn in *. by rewrite Hk.
Qed.
Lemma ReadStatus_full c aux b l : waiting c ((aux, b) :: l) -> exists st c', ReadStatus c = Some (st, c') /\ waiting c' ((aux, b) :: l) /\
  Z.land st PS2_STATUS_OBF = 1 /\ Z.land st PS2_STATUS_AUX = (if aux then 0x20 else 0).
Proof.
  intros [Hr Hp]. unfold ReadStatus, in_port. rewrite Hr. pose proof (status_full (port c) aux b l Hp) as Hs. pose proof (status_keeps (port c)) as Hk. destruct (inb PS2_CMD_PORT (port c)) as [st d].
  eexists _, _. split; [done|]. split; [|done]. split; [done|]. cbn in *. by rewrite Hk.
Qed.
Lemma ReadData_first c aux b l : waiting c ((aux, b) :: l) -> exists c', ReadData c = Some (b, c') /\ waiting c' l /\ 0 <= b < 256.
Proof.
  intros [Hr Hp]. unfold ReadData, in_port. rewrite Hr. pose proof (data_first (port c) aux b l Hp) as [Hb Hk]. pose proof (data_byte (port c)) as Hy. destruct (inb PS2_DATA_PORT (port c)) as [v d]. cbn in *. subst v.
  eexists. by split.
Qed.
(** The driver's waits are bounded: whatever the chip answers, its calls return. *)
Definition returns {A} (m : ST (controller P) A) : Prop := forall c, m_ready c = true -> exists a c', m c = Some (a, c') /\ m_ready c' = true.
Lemma returns_bind {A B} (m : ST (controller P) A) (k : A -> ST (controller P) B) : returns m -> (forall a, returns (k a)) -> returns (bind m k).
Proof. intros Hm Hk c Hc. destruct (Hm c Hc) as (a & c1 & E & Hc1). rewrite (bind_step _ _ _ _ _ E). by apply Hk. Qed.
Lemma returns_in p : returns (in_port p).
Proof. intros c Hc. unfold in_port. rewrite Hc. destruct (inb p (port c)) as [v d]. by eexists _, _. Qed.
Lemma returns_out p v : returns (out_port p v).
Proof. intros c Hc. unfold out_port. rewrite Hc. by eexists _, _. Qed.
Lemma returns_wait n done_ : returns (wait_status n done_).
Proof. induction n as [|n IH]; [intros c Hc; by exists tt, c|]. cbn [wait_status]. apply returns_bind; [apply returns_in|]. intros st. destruct (done_ st); [intros c Hc; by exists tt, c|done]. Qed.
Lemma controller_returns : returns WaitWrite /\ returns WaitRead /\ (forall v, returns (send_command v)) /\ (forall v, returns (send_data v)) /\ (forall v, returns (WriteToMouse v)) /\ returns ReadConfig.
Proof.
  assert (Hc : forall v, returns (send_command v)) by (intros v; apply returns_bind; [apply returns_wait|intros _; apply returns_out]).
  assert (Hd : forall v, returns (send_data v)) by (intros v; apply returns_bind; [apply returns_wait|intros _; apply returns_out]).
  split_and!; try done; [apply returns_wait..| |].
  - intros v. by apply returns_bind.
  - apply returns_bind; [done|]. intros _. apply returns_bind; [apply returns_wait|]. intros _. apply returns_in.
Qed.
(** Flushing ends when the bytes that wait are read. *)
Lemma flush_ok c l fuel : waiting c l -> (length l < fuel)%nat -> exists c', flush fuel c = Some (tt, c') /\ waiting c' [].
Proof.
  revert c l. induction fuel as [|n IH]; intros c l Hw Hn; [lia|]. cbn [flush]. destruct l as [|[aux b] l].
  - destruct (ReadStatus_empty c Hw) as (st & c' & E & Hw' & Hs). rewrite (bind_step _ _ _ _ _ E), Hs. by exists c'.
  - destruct (ReadStatus_full c aux b l Hw) as (st & c1 & E & Hw1 & Hs & _). rewrite (bind_step _ _ _ _ _ E), Hs. destruct (ReadData_first c1 aux b l Hw1) as (c2 & E2 & Hw2 & _).
    change (1 =? 0) with false. cbn iota. rewrite (bind_step _ _ _ _ _ E2). cbn in Hn. apply (IH c2 l); [done|lia].
Qed.
End Facts.

(** A device that is a queue; commands have no effect on it. *)
Record fifo := mk_fifo { bytes_of : list (bool * Z) }.
#[export] Instance fifo_ports : PS2Ports fifo := {
  inb p f :=
    if p =? PS2_CMD_PORT then (match bytes_of f with [] => 0 | (aux, _) :: _ => if aux : bool then 0x21 else 0x01 end, f)
    else match bytes_of f with [] => (0, f) | (_, b) :: l => (u8 b, mk_fifo l) end;
  outb p v f := f;
}.
#[local] Obligation Tactic := idtac.
#[export] Program Instance fifo_device : PS2Device fifo := { pending f := map (fun x => (x.1, u8 x.2)) (bytes_of f) }.
Next Obligation. intros f E. cbn in *. by destruct (bytes_of f). Qed.
Next Obligation. intros f aux b l E. cbn in *. destruct (bytes_of f) as [|[a v] r]; [done|]. injection E as -> _ _. by destruct aux. Qed.
Next Obligation. done. Qed.
Next Obligation. intros f aux b l E. cbn in *. destruct (bytes_of f) as [|[a v] r]; [done|]. by injection E. Qed.
Next Obligation. intros f. cbn. destruct (bytes_of f) as [|[a v] r]; [done|]. apply u8_range. Qed.
