(* ===== verification/Mouse.v ===== *)
(** * The mouse driver

    [drivers/mouse/mouse_driver.cpp] with the handler of kernel_globals.cpp that
    passes movements and buttons on to the cursor of [Cursor.v]: packets of
    three bytes, put together by the interrupt handler or by polling, and the
    two calibrations that choose how the bytes are decoded and how the axes
    lie.  The two are alike and share their definitions: [calib] is the state
    of either, [candidate] one of the possibilities it compares.  The dump of
    raw bytes to the log is left out. *)
From S2P Require Import Prelude Graphics Cursor Input Ps2.

Record candidate := mk_cand {
  c_x : Z; c_y : Z; edgeHits : Z; travel : Z; edgeHitsWindow : Z; travelWindow : Z;
  edgeHitsWindowSlow : Z; travelWindowSlow : Z; edgeHitsWindowFast : Z; travelWindowFast : Z }.
(** The mode is 0 for [Auto] and one more than the index of a candidate otherwise. *)
Record calib := mk_calib {
  k_mode : Z; cands : list candidate; k_packets : Z; window_packets : Z; window_slow_packets : Z; window_fast_packets : Z;
  pending_idx : Z; pending_windows : Z }.
Definition set_mode (m : Z) (k : calib) : calib := mk_calib m (cands k) (k_packets k) (window_packets k) (window_slow_packets k) (window_fast_packets k) (pending_idx k) (pending_windows k).
Definition set_cands (l : list candidate) (k : calib) : calib := mk_calib (k_mode k) l (k_packets k) (window_packets k) (window_slow_packets k) (window_fast_packets k) (pending_idx k) (pending_windows k).
Definition set_packets (n : Z) (k : calib) : calib := mk_calib (k_mode k) (cands k) n (window_packets k) (window_slow_packets k) (window_fast_packets k) (pending_idx k) (pending_windows k).
Definition set_window (n slow fast : Z) (k : calib) : calib := mk_calib (k_mode k) (cands k) (k_packets k) n slow fast (pending_idx k) (pending_windows k).
Definition set_pending (i n : Z) (k : calib) : calib := mk_calib (k_mode k) (cands k) (k_packets k) (window_packets k) (window_slow_packets k) (window_fast_packets k) i n.

Definition kOrientStartupPackets : Z := 96.
Definition kOrientWindowPackets : Z := 96.
Definition kOrientSwitchEdgeMargin : Z := 6.
Definition kDecodeStartupPackets : Z := 64.
Definition kDecodeWindowPackets : Z := 96.
Definition kDecodeSwitchEdgeMargin : Z := 5.
Definition kSpeedFastThreshold : Z := 6.
Definition kSpeedBucketMinPackets : Z := 12.
Definition kSwitchConfirmWindows : Z := 2.

Definition IsFastPacket (dx dy : Z) : bool := kSpeedFastThreshold <=? u32 (Z.abs dx + Z.abs dy).
(** [MouseOrientMode] by its number. *)
Definition ApplyOrient (mode inDx inDy : Z) : Z * Z :=
  if mode =? 2 then (- inDx, inDy) else if mode =? 3 then (inDx, - inDy) else if mode =? 4 then (- inDx, - inDy)
  else if mode =? 5 then (inDy, inDx) else if mode =? 6 then (- inDy, inDx) else if mode =? 7 then (inDy, - inDx)
  else if mode =? 8 then (- inDy, - inDx) else (inDx, inDy).
(** [MouseDecodeMode]: 1 is [HeaderSign], 2 [SignedByte]. *)
Definition HeaderSign : Z := 1.
Definition SignedByte : Z := 2.
Definition int8 (b : Z) : Z := if b <? 128 then b else b - 256.
Definition DecodeDeltasForMode (mode b0 b1 b2 : Z) : Z * Z :=
  if mode =? SignedByte then (int8 b1, int8 b2)
  else (b1 - (if Z.land b0 0x10 =? 0 then 0 else 256), b2 - (if Z.land b0 0x20 =? 0 then 0 else 256)).
Definition DecodeIndexToMode (idx : Z) : Z := if idx =? 0 then HeaderSign else SignedByte.
Definition DecodeModeToIndex (mode : Z) : Z := if mode =? SignedByte then 1 else 0.

(** The counters of a candidate for a packet of movement [(tdx, tdy)]. *)
Definition count_packet (maxX maxY : Z) (fast : bool) (tdx tdy : Z) (c : candidate) : candidate :=
  let nx := c_x c + tdx in
  let ny := c_y c + tdy in
  let clamped := (nx <? 0) || (ny <? 0) || (maxX <? (if nx <? 0 then 0 else nx)) || (maxY <? (if ny <? 0 then 0 else ny)) in
  let clip v m := let v := if v <? 0 then 0 else v in if m <? v then m else v in
  let hit n := if clamped then u32 (n + 1) else n in
  let far n := u32 (n + u32 (Z.abs tdx + Z.abs tdy)) in
  mk_cand (clip nx maxX) (clip ny maxY) (hit (edgeHits c)) (far (travel c)) (hit (edgeHitsWindow c)) (far (travelWindow c))
    (if fast then edgeHitsWindowSlow c else hit (edgeHitsWindowSlow c)) (if fast then travelWindowSlow c else far (travelWindowSlow c))
    (if fast then hit (edgeHitsWindowFast c) else edgeHitsWindowFast c) (if fast then far (travelWindowFast c) else travelWindowFast c).
Definition clear_window (c : candidate) : candidate := mk_cand (c_x c) (c_y c) (edgeHits c) (travel c) 0 0 0 0 0 0.
Definition seed (x y : Z) (c : candidate) : candidate :=
  mk_cand x y (edgeHits c) (travel c) (edgeHitsWindow c) (travelWindow c) (edgeHitsWindowSlow c) (travelWindowSlow c) (edgeHitsWindowFast c) (travelWindowFast c).
Definition zero_cand : candidate := mk_cand 0 0 0 0 0 0 0 0 0 0.

(** The first candidate with the fewest hits and, among those, most travel:
    [PickBestOrientationByTotals], [ByWindow] and [BySpeedWindow]. *)
Definition better (e t : candidate -> Z) (a b : candidate) : bool := (e a <? e b) || ((e a =? e b) && (t b <? t a)).
Fixpoint pick_from (e t : candidate -> Z) (i : Z) (l : list candidate) (best : Z) (bc : candidate) : Z :=
  match l with
  | [] => best
  | c :: l' => if better e t c bc then pick_from e t (i + 1) l' i c else pick_from e t (i + 1) l' best bc
  end.
Definition pick_best (e t : candidate -> Z) (l : list candidate) : Z := match l with [] => 0 | c :: l' => pick_from e t 1 l' 0 c end.
Definition PickBestOrientationByTotals : list candidate -> Z := pick_best edgeHits travel.
Definition PickBestOrientationByWindow : list candidate -> Z := pick_best edgeHitsWindow travelWindow.
Definition PickBestOrientationBySpeedWindow (fast : bool) : list candidate -> Z :=
  if fast then pick_best edgeHitsWindowFast travelWindowFast else pick_best edgeHitsWindowSlow travelWindowSlow.
Definition cand_at (l : list candidate) (i : Z) : candidate := default zero_cand (l !! Z.to_nat i).
(** [e(candidate) + margin < e(current)]. *)
Definition clearly_better (e : candidate -> Z) (l : list candidate) (cand current margin : Z) : bool :=
  u32 (e (cand_at l cand) + margin) <? e (cand_at l current).
Definition OrientationBucketClearlyBetter (l : list candidate) (cand current : Z) (fast : bool) (margin : Z) : bool :=
  clearly_better (if fast then edgeHitsWindowFast else edgeHitsWindowSlow) l cand current margin.

(** The switch to [candidate] needs two windows in a row. *)
Definition confirm (has : bool) (cand mode : Z) (k : calib) : calib :=
  if has then
    let k := if pending_idx k =? u32 (cand + 1) then set_pending (pending_idx k) (u32 (pending_windows k + 1)) k else set_pending (u32 (cand + 1)) 1 k in
    if kSwitchConfirmWindows <=? pending_windows k then set_pending 0 0 (set_mode mode k) else k
  else set_pending 0 0 k.
Definition reset_window (x y : Z) (k : calib) : calib := set_cands (map (fun c => seed x y (clear_window c)) (cands k)) (set_window 0 0 0 k).
Definition count_window (fast : bool) (k : calib) : calib :=
  set_window (u32 (window_packets k + 1)) (if fast then window_slow_packets k else u32 (window_slow_packets k + 1)) (if fast then u32 (window_fast_packets k + 1) else window_fast_packets k) k.

Section Calibration.
Context (scr : screen).
Definition maxX : Z := if IsAvailable scr then (if 0 <? fbw scr then s32 (fbw scr - 1) else 0) else 1023.
Definition maxY : Z := if IsAvailable scr then (if 0 <? fbh scr then s32 (fbh scr - 1) else 0) else 767.

(** [mx], [my]: where the cursor is, for the windows that start. *)
Definition UpdateOrientationCalibration (baseDx baseDy mx my : Z) (k : calib) : calib :=
  let fast := IsFastPacket baseDx baseDy in
  let k := set_cands (imap (fun i c => let '(tdx, tdy) := ApplyOrient (Z.of_nat i + 1) baseDx baseDy in count_packet maxX maxY fast tdx tdy c) (cands k)) k in
  let k := count_window fast k in
  if k_mode k =? 0 then
    let k := set_packets (u32 (k_packets k + 1)) k in
    if k_packets k <? kOrientStartupPackets then k
    else reset_window mx my (set_pending 0 0 (set_mode (PickBestOrientationByTotals (cands k) + 1) k))
  else if window_packets k <? kOrientWindowPackets then k
  else
    let current := k_mode k - 1 in
    let validSlow := kSpeedBucketMinPackets <=? window_slow_packets k in
    let validFast := kSpeedBucketMinPackets <=? window_fast_packets k in
    let clear cand f := OrientationBucketClearlyBetter (cands k) cand current f kOrientSwitchEdgeMargin in
    let bestSlow := PickBestOrientationBySpeedWindow false (cands k) in
    let bestFast := PickBestOrientationBySpeedWindow true (cands k) in
    let best := PickBestOrientationByWindow (cands k) in
    let '(has, cand) :=
      (if validSlow && validFast then ((bestSlow =? bestFast) && negb (bestSlow =? current) && clear bestSlow false && clear bestFast true, bestSlow)
       else if validSlow then (negb (bestSlow =? current) && clear bestSlow false, bestSlow)
       else if validFast then (negb (bestFast =? current) && clear bestFast true, bestFast)
       else (negb (best =? current) && clearly_better edgeHitsWindow (cands k) best current kOrientSwitchEdgeMargin, best)) in
    reset_window mx my (confirm has cand (cand + 1) k).

Definition UpdateDecodeCalibration (b0 b1 b2 mx my : Z) (k : calib) : calib :=
  let '(speedDx, speedDy) := DecodeDeltasForMode HeaderSign b0 b1 b2 in
  let fast := IsFastPacket speedDx (- speedDy) in
  let k := set_cands (imap (fun i c => let '(dx, dy) := DecodeDeltasForMode (DecodeIndexToMode (Z.of_nat i)) b0 b1 b2 in count_packet maxX maxY fast dx (- dy) c) (cands k)) k in
  let k := count_window fast k in
  if k_mode k =? 0 then
    let k := set_packets (u32 (k_packets k + 1)) k in
    if k_packets k <? kDecodeStartupPackets then k
    else
      let best := if better edgeHits travel (cand_at (cands k) 1) (cand_at (cands k) 0) then 1 else 0 in
      reset_window mx my (set_pending 0 0 (set_mode (DecodeIndexToMode best) k))
  else if window_packets k <? kDecodeWindowPackets then k
  else
    let current := DecodeModeToIndex (k_mode k) in
    let other := if current =? 0 then 1 else 0 in
    let validSlow := kSpeedBucketMinPackets <=? window_slow_packets k in
    let validFast := kSpeedBucketMinPackets <=? window_fast_packets k in
    let betterSlow := clearly_better edgeHitsWindowSlow (cands k) other current kDecodeSwitchEdgeMargin in
    let betterFast := clearly_better edgeHitsWindowFast (cands k) other current kDecodeSwitchEdgeMargin in
    let shouldSwitch :=
      if validSlow && validFast then betterSlow && betterFast else if validSlow then betterSlow else if validFast then betterFast
      else clearly_better edgeHitsWindow (cands k) other current kDecodeSwitchEdgeMargin in
    reset_window mx my (confirm shouldSwitch other (DecodeIndexToMode other) k).
Definition ApplyFinalOrientation (k : calib) (baseDx baseDy : Z) : Z * Z :=
  if k_mode k =? 0 then (baseDx, baseDy) else ApplyOrient (k_mode k) baseDx baseDy.
Definition DecodeDeltasSelected (k : calib) (b0 b1 b2 : Z) : Z * Z :=
  DecodeDeltasForMode (if k_mode k =? 0 then HeaderSign else k_mode k) b0 b1 b2.
Definition ResetCalibration (n : nat) (mx my : Z) : calib := mk_calib 0 (replicate n (seed mx my zero_cand)) 0 0 0 0 0 0.
End Calibration.

(** ** The driver *)

Record mouse (P : Type) := mk_mouse {
  m_ctl : controller P; m_cur : cursor; m_events : InputEventQueue; has_handler : bool;
  buffer : list Z; offset : Z; pbuf : list Z; poff : Z; buttons : Z; decode : calib; orient : calib;
  g_mouse_packets : Z; g_mouse_input_source : Z; g_mouse_ui_moves : Z; g_mouse_ui_button_events : Z }.
Arguments mk_mouse {P}. Arguments m_ctl {P}. Arguments m_cur {P}. Arguments m_events {P}. Arguments has_handler {P}. Arguments buffer {P}. Arguments offset {P}.
Arguments pbuf {P}. Arguments poff {P}. Arguments buttons {P}. Arguments decode {P}. Arguments orient {P}. Arguments g_mouse_packets {P}.
Arguments g_mouse_input_source {P}. Arguments g_mouse_ui_moves {P}. Arguments g_mouse_ui_button_events {P}.

Section Driver.
Context (scr : screen) {P : Type} `{PS2Ports P}.
#[local] Abbreviation st := (mouse P).
Definition set_ctl (c : controller P) (s : st) : st := mk_mouse c (m_cur s) (m_events s) (has_handler s) (buffer s) (offset s) (pbuf s) (poff s) (buttons s) (decode s) (orient s) (g_mouse_packets s) (g_mouse_input_source s) (g_mouse_ui_moves s) (g_mouse_ui_button_events s).
Definition set_cur (c : cursor) (s : st) : st := mk_mouse (m_ctl s) c (m_events s) (has_handler s) (buffer s) (offset s) (pbuf s) (poff s) (buttons s) (decode s) (orient s) (g_mouse_packets s) (g_mouse_input_source s) (g_mouse_ui_moves s) (g_mouse_ui_button_events s).
Definition set_queue (q : InputEventQueue) (s : st) : st := mk_mouse (m_ctl s) (m_cur s) q (has_handler s) (buffer s) (offset s) (pbuf s) (poff s) (buttons s) (decode s) (orient s) (g_mouse_packets s) (g_mouse_input_source s) (g_mouse_ui_moves s) (g_mouse_ui_button_events s).
Definition set_irq (b : list Z) (o : Z) (s : st) : st := mk_mouse (m_ctl s) (m_cur s) (m_events s) (has_handler s) b o (pbuf s) (poff s) (buttons s) (decode s) (orient s) (g_mouse_packets s) (g_mouse_input_source s) (g_mouse_ui_moves s) (g_mouse_ui_button_events s).
Definition set_poll (b : list Z) (o : Z) (s : st) : st := mk_mouse (m_ctl s) (m_cur s) (m_events s) (has_handler s) (buffer s) (offset s) b o (buttons s) (decode s) (orient s) (g_mouse_packets s) (g_mouse_input_source s) (g_mouse_ui_moves s) (g_mouse_ui_button_events s).
Definition set_calib (d o : calib) (s : st) : st := mk_mouse (m_ctl s) (m_cur s) (m_events s) (has_handler s) (buffer s) (offset s) (pbuf s) (poff s) (buttons s) d o (g_mouse_packets s) (g_mouse_input_source s) (g_mouse_ui_moves s) (g_mouse_ui_button_events s).
Definition set_pressed (b : Z) (s : st) : st := mk_mouse (m_ctl s) (m_cur s) (m_events s) (has_handler s) (buffer s) (offset s) (pbuf s) (poff s) b (decode s) (orient s) (g_mouse_packets s) (g_mouse_input_source s) (g_mouse_ui_moves s) (g_mouse_ui_button_events s).
Definition set_stats (n src mv be : Z) (s : st) : st := mk_mouse (m_ctl s) (m_cur s) (m_events s) (has_handler s) (buffer s) (offset s) (pbuf s) (poff s) (buttons s) (decode s) (orient s) n src mv be.

Definition on_ctl {A} (m : ST (controller P) A) : ST st A := zoom m_ctl set_ctl m.
Definition on_cur {A} (m : ST cursor A) : ST st A := zoom m_cur set_cur m.
Definition on_queue {A} (m : ST InputEventQueue A) : ST st A := zoom m_events set_queue m.

(** The handler [MouseToUI]. *)
Definition OnMouseMove (dx dy : Z) : ST st unit :=
  if negb (IsAvailable scr) then ret tt
  else on_cur (Cursor.MouseMove scr dx dy);;; modify (fun s => set_stats (g_mouse_packets s) (g_mouse_input_source s) (u32 (g_mouse_ui_moves s + 1)) (g_mouse_ui_button_events s) s).
Definition count_button : ST st unit := modify (fun s => set_stats (g_mouse_packets s) (g_mouse_input_source s) (g_mouse_ui_moves s) (u32 (g_mouse_ui_button_events s + 1)) s).
Definition OnMouseDown (button : Z) : ST st unit := if negb (IsAvailable scr) then ret tt else on_cur (MouseButtonDown button);;; count_button.
Definition OnMouseUp (button : Z) : ST st unit := if negb (IsAvailable scr) then ret tt else on_cur (MouseButtonUp button);;; count_button.

Definition enqueue_mouse_event (ty : EventType) : ST st unit :=
  let! '(mx, my, b) := on_cur GetMouseState in
  on_queue (Enqueue (mk_event ty 0 0 (mouse_data mx my b)));;; ret tt.

Definition MOUSE_SYNC_BIT : Z := 0x08.
Definition is_control (b : Z) : bool := (b =? 0xFA) || (b =? 0xFE) || (b =? 0xAA).
Definition bit_set (b m : Z) : bool := negb (Z.land b m =? 0).
Definition button_step (b0 i : Z) : ST st unit :=
  let! s := gets id in
  let mask := Z.shiftl 1 i in
  let wasDown := bit_set (buttons s) mask in
  let isDown := bit_set b0 mask in
  if negb (eqb wasDown isDown) && has_handler s then
    if isDown then OnMouseDown (i + 1);;; enqueue_mouse_event MousePress
    else OnMouseUp (i + 1);;; enqueue_mouse_event MouseRelease
  else ret tt.
(** What both paths do with a complete packet; [src] is the path. *)
Definition packet (src b0 b1 b2 : Z) : ST st unit :=
  modify (fun s => set_calib (UpdateDecodeCalibration scr b0 b1 b2 (g_mx (m_cur s)) (g_my (m_cur s)) (decode s)) (orient s) s);;;
  let! s := gets id in
  let '(dx, dy) := DecodeDeltasSelected (decode s) b0 b1 b2 in
  let baseDx := dx in
  let baseDy := - dy in
  modify (fun s => set_calib (decode s) (UpdateOrientationCalibration scr baseDx baseDy (g_mx (m_cur s)) (g_my (m_cur s)) (orient s)) s);;;
  let! s := gets id in
  let '(outDx, outDy) := ApplyFinalOrientation (orient s) baseDx baseDy in
  (if has_handler s && (negb (outDx =? 0) || negb (outDy =? 0)) then OnMouseMove outDx outDy;;; enqueue_mouse_event Input.MouseMove else ret tt);;;
  for_loop 3 0 (button_step b0);;;
  modify (set_pressed b0);;;
  modify (fun s => set_stats (u32 (g_mouse_packets s + 1)) src (g_mouse_ui_moves s) (g_mouse_ui_button_events s) s).

(** The byte read from the controller, if it is one of the mouse. *)
Definition mouse_data_byte : ST st (option Z) :=
  let! status := on_ctl ReadStatus in
  if Z.land status PS2_STATUS_OBF =? 0 then ret None
  else if Z.land status PS2_STATUS_AUX =? 0 then ret None
  else let! b := on_ctl ReadData in ret (Some b).
Definition irq_byte (b : Z) : ST st unit :=
  if is_control b then modify (fun s => set_irq (buffer s) 0 s)
  else
    let! s := gets id in
    if (offset s =? 0) && negb (bit_set b MOUSE_SYNC_BIT) then ret tt
    else if 3 <=? offset s then stuck
    else
      modify (set_irq (<[Z.to_nat (offset s) := b]> (buffer s)) (offset s));;;
      if negb (has_handler s) then ret tt
      else
        modify (fun s => set_irq (buffer s) ((offset s + 1) mod 3) s);;;
        let! s := gets id in
        match buffer s with
        | [b0; b1; b2] =>
            if negb (offset s =? 0) then ret tt
            else if negb (bit_set b0 MOUSE_SYNC_BIT) then modify (set_irq (buffer s) 0)
            else if bit_set b0 0xC0 then ret tt
            else packet 1 b0 b1 b2
        | _ => stuck
        end.
Definition HandleInterrupt : ST st unit :=
  let! b := mouse_data_byte in match b with None => ret tt | Some b => irq_byte b end.
Definition poll_byte (b : Z) : ST st unit :=
  if is_control b then modify (fun s => set_poll (pbuf s) 0 s)
  else
    let! s := gets id in
    if (poff s =? 0) && negb (bit_set b MOUSE_SYNC_BIT) then ret tt
    else if 3 <=? poff s then stuck
    else
      modify (set_poll (<[Z.to_nat (poff s) := b]> (pbuf s)) ((poff s + 1) mod 3));;;
      let! s := gets id in
      match pbuf s with
      | [b0; b1; b2] =>
          if negb (poff s =? 0) then ret tt
          else if negb (bit_set b0 MOUSE_SYNC_BIT) then modify (set_poll (pbuf s) 0)
          else if bit_set b0 0xC0 then modify (set_poll (pbuf s) 0)
          else packet 2 b0 b1 b2
      | _ => stuck
      end.
Definition PollOnce : ST st unit :=
  let! b := mouse_data_byte in match b with None => ret tt | Some b => poll_byte b end.

Definition Activate (fuel : nat) : ST st unit :=
  modify (fun s => set_pressed 0 (set_poll (pbuf s) 0 (set_irq (buffer s) 0 s)));;;
  modify (fun s => set_calib (ResetCalibration 2 (g_mx (m_cur s)) (g_my (m_cur s))) (ResetCalibration 8 (g_mx (m_cur s)) (g_my (m_cur s))) s);;;
  on_ctl (flush fuel);;;
  on_ctl (send_command 0xA8);;;
  let! cfg := on_ctl ReadConfig in
  on_ctl (send_command 0x60);;;
  on_ctl (send_data (Z.ldiff (Z.lor cfg 0x02) 0x20));;;
  on_ctl (WriteToMouse 0xF6);;; on_ctl WaitRead;;; on_ctl ReadData;;;
  on_ctl (WriteToMouse 0xF4);;; on_ctl WaitRead;;; on_ctl ReadData;;;
  ret tt.
End Driver.

(** ** The calibrations choose among their candidates *)

Definition calib_ok (n : nat) (k : calib) : Prop := length (cands k) = n /\ 0 <= k_mode k <= Z.of_nat n.
Lemma pick_from_range e t l : forall i best bc, 0 <= best < i -> 0 <= pick_from e t i l best bc < i + Z.of_nat (length l).
Proof.
  induction l as [|c l IH]; intros i best bc Hb; cbn [pick_from length]; [lia|]. destruct (better e t c bc); [specialize (IH (i + 1) i c ltac:(lia))|specialize (IH (i + 1) best bc ltac:(lia))]; lia.
Qed.
Lemma pick_best_range e t l : l <> [] -> 0 <= pick_best e t l < Z.of_nat (length l).
Proof. intros Hl. destruct l as [|c l]; [done|]. pose proof (pick_from_range e t l 1 0 c ltac:(lia)). cbn [pick_best length]. lia. Qed.
Lemma reset_window_ok n x y k : calib_ok n k -> calib_ok n (reset_window x y k).
Proof. intros [Hl Hm]. split; [|done]. unfold reset_window. cbn [cands set_cands set_window]. by rewrite length_map. Qed.
Lemma confirm_ok n has cand mode k : calib_ok n k -> 0 <= mode <= Z.of_nat n -> calib_ok n (confirm has cand mode k).
Proof. intros Hk Hm. unfold confirm. destruct has; [|done]. destruct (_ =? _); destruct (_ <=? _); try done; by destruct Hk. Qed.
Lemma UpdateOrientation_ok scr dx dy mx my k : calib_ok 8 k -> calib_ok 8 (UpdateOrientationCalibration scr dx dy mx my k).
Proof.
  intros Hk. unfold UpdateOrientationCalibration. set (k1 := count_window _ _). assert (Hk1 : calib_ok 8 k1) by (destruct Hk; split; [cbn; by rewrite length_imap|done]). pose proof Hk1 as [Hl Hm].
  assert (Hp : forall e t, 0 <= pick_best e t (cands k1) < 8) by (intros e t; pose proof (pick_best_range e t (cands k1)) as Hr; rewrite Hl in Hr; apply Hr; intros E; by rewrite E in Hl).
  destruct (k_mode k1 =? 0); [|destruct (window_packets k1 <? _)]; [destruct (_ <? _); [done|]|done|].
  - apply reset_window_ok. destruct Hk1. split; [done|]. cbn [k_mode set_mode set_pending set_packets cands]. pose proof (Hp edgeHits travel). unfold PickBestOrientationByTotals. lia.
  - cbv zeta. match goal with |- context [let '(has, cand) := ?X in _] => destruct X as [has cand] eqn:E end. apply reset_window_ok, confirm_ok; [done|].
    assert (0 <= cand < 8); [|lia].
    revert E. unfold PickBestOrientationByWindow, PickBestOrientationBySpeedWindow. cbn iota. repeat destruct (kSpeedBucketMinPackets <=? _); cbn [andb]; intros [= _ <-]; apply Hp.
Qed.
Lemma UpdateDecode_ok scr b0 b1 b2 mx my k : calib_ok 2 k -> calib_ok 2 (UpdateDecodeCalibration scr b0 b1 b2 mx my k).
Proof.
  intros Hk. unfold UpdateDecodeCalibration. destruct (DecodeDeltasForMode HeaderSign b0 b1 b2) as [sx sy]. set (k1 := count_window _ _). assert (Hk1 : calib_ok 2 k1) by (destruct Hk; split; [cbn; by rewrite length_imap|done]).
  assert (Hmode : forall i, 0 <= DecodeIndexToMode i <= 2) by (intros i; unfold DecodeIndexToMode, HeaderSign, SignedByte; case_zb; lia).
  destruct (k_mode k1 =? 0); [|destruct (window_packets k1 <? _)]; [destruct (_ <? _); [done|]|done|].
  - apply reset_window_ok. destruct Hk1. split; [done|]. apply Hmode.
  - apply reset_window_ok, confirm_ok; [done|]. apply Hmode.
Qed.
Lemma DecodeDeltas_range mode b0 b1 b2 : 0 <= b1 < 256 -> 0 <= b2 < 256 -> let d := DecodeDeltasForMode mode b0 b1 b2 in -256 <= d.1 <= 255 /\ -256 <= d.2 <= 255.
Proof. intros H1 H2. unfold DecodeDeltasForMode, int8. repeat case_zb; cbn [fst snd]; lia. Qed.
Lemma ApplyOrient_range mode dx dy : -256 <= dx <= 256 -> -256 <= dy <= 256 -> let d := ApplyOrient mode dx dy in -512 <= d.1 <= 512 /\ -512 <= d.2 <= 512.
Proof. intros H1 H2. unfold ApplyOrient. repeat case_zb; cbn [fst snd]; lia. Qed.

(** ** Bits of the buttons *)

Definition bits_table (n : nat) (f : Z -> Z -> Z -> bool) : bool := forallb (fun b => forallb (fun i => forallb (f b i) [0; 1; 2]) [0; 1; 2]) (seqZ 0 (Z.of_nat n)).
Lemma bits_table_ok n f b i j : bits_table n f = true -> 0 <= b < Z.of_nat n -> 0 <= i < 3 -> 0 <= j < 3 -> f b i j = true.
Proof.
  intros Ht Hb Hi Hj. pose proof (below_ind n _ Ht b Hb) as H1. cbn beta in H1. rewrite forallb_forall in H1. specialize (H1 i). rewrite forallb_forall in H1.
  apply H1; [assert (i = 0 \/ i = 1 \/ i = 2) as [-> | [-> | ->]] by lia; cbn; auto|assert (j = 0 \/ j = 1 \/ j = 2) as [-> | [-> | ->]] by lia; cbn; auto].
Qed.
Definition bit (b i : Z) : bool := bit_set b (Z.shiftl 1 i).
Lemma bit_down b i j : 0 <= b < 8 -> 0 <= i < 3 -> 0 <= j < 3 -> bit (u8 (Z.lor b (Z.shiftl 1 (i + 1 - 1)))) j = if j =? i then true else bit b j.
Proof. intros. apply eqb_prop. apply (bits_table_ok 8 (fun b i j => eqb (bit (u8 (Z.lor b (Z.shiftl 1 (i + 1 - 1)))) j) (if j =? i then true else bit b j))); [vm_compute; reflexivity|lia..]. Qed.
Lemma bit_up b i j : 0 <= b < 8 -> 0 <= i < 3 -> 0 <= j < 3 -> bit (Z.ldiff b (Z.shiftl 1 (i + 1 - 1))) j = if j =? i then false else bit b j.
Proof. intros. apply eqb_prop. apply (bits_table_ok 8 (fun b i j => eqb (bit (Z.ldiff b (Z.shiftl 1 (i + 1 - 1))) j) (if j =? i then false else bit b j))); [vm_compute; reflexivity|lia..]. Qed.
Lemma bit_low b j : 0 <= b < 256 -> 0 <= j < 3 -> bit (Z.land b 7) j = bit b j.
Proof. intros. apply eqb_prop. apply (bits_table_ok 256 (fun b i j => eqb (bit (Z.land b 7) j) (bit b j)) b 0); [vm_compute; reflexivity|lia..]. Qed.
Lemma bits_eq a b : 0 <= a < 8 -> 0 <= b < 256 -> (forall j, 0 <= j < 3 -> bit a j = bit b j) -> a = Z.land b 7.
Proof.
  intros Ha Hb Hj. assert (Ht : forallb (fun a => forallb (fun b => implb (eqb (bit a 0) (bit b 0) && eqb (bit a 1) (bit b 1) && eqb (bit a 2) (bit b 2)) (a =? Z.land b 7)) (seqZ 0 256)) (seqZ 0 8) = true) by (vm_compute; reflexivity).
  pose proof (below_ind 8 _ Ht a Ha) as H1. cbn beta in H1. pose proof (below_ind 256 _ H1 b Hb) as H2. cbn beta in H2. rewrite !Hj, !eqb_reflx in H2 by lia. by apply Z.eqb_eq in H2.
Qed.

(** ** The driver keeps its state well-formed *)

Section Facts.
Context (scr : screen) {P : Type} `{PS2Device P}.
#[local] Abbreviation st := (mouse P).
Record mouse_ok (s : st) : Prop := {
  mo_cursor : cursor_ok scr (m_cur s);
  mo_queue : exists l, queue_is (m_events s) l;
  mo_buffer : length (buffer s) = 3%nat; mo_offset : 0 <= offset s < 3;
  mo_pbuf : length (pbuf s) = 3%nat; mo_poff : 0 <= poff s < 3;
  mo_decode : calib_ok 2 (decode s); mo_orient : calib_ok 8 (orient s);
  mo_pressed : 0 <= buttons s < 256;
  mo_agree : has_handler s = true -> g_mb (m_cur s) = Z.land (buttons s) 7 }.
Hypothesis Hscr : screen_ok scr.

(** What a call on the cursor and the queue leaves alone. *)
Definition same_io (s s' : st) : Prop :=
  m_ctl s' = m_ctl s /\ has_handler s' = has_handler s /\ buffer s' = buffer s /\ offset s' = offset s /\ pbuf s' = pbuf s /\ poff s' = poff s /\ buttons s' = buttons s /\ decode s' = decode s /\ orient s' = orient s /\
  ((exists l, queue_is (m_events s) l) -> exists l, queue_is (m_events s') l).
Lemma same_trans s1 s2 s3 : same_io s1 s2 -> same_io s2 s3 -> same_io s1 s3.
Proof. intros (A1 & A2 & A3 & A4 & A5 & A6 & A7 & A8 & A9 & A10) (B1 & B2 & B3 & B4 & B5 & B6 & B7 & B8 & B9 & B10). split_and!; try (by etransitivity); auto. Qed.
Lemma enqueue_event_ok ty (s : st) : (exists l, queue_is (m_events s) l) -> exists s', enqueue_mouse_event ty s = Some (tt, s') /\ same_io s s' /\ m_cur s' = m_cur s.
Proof.
  intros [l Hq]. set (e := mk_event ty 0 0 (mouse_data (g_mx (m_cur s)) (g_my (m_cur s)) (g_mb (m_cur s)))). assert (HE : exists b q l', Enqueue e (m_events s) = Some (b, q) /\ queue_is q l').
  { destruct (decide (length l < 256)%nat) as [Hl|Hl]; [destruct (Enqueue_room _ l e Hq Hl) as (q & E & Hq' & _); by exists true, q, (l ++ [e])|].
    exists false, (m_events s), l. split; [|done]. apply (Enqueue_full _ l); [done|]. destruct Hq. lia. }
  destruct HE as (b & q & l' & E & Hq'). exists (set_queue q s). split; [|split; [split_and!; try done; by exists l'|done]].
  assert (Es : enqueue_mouse_event ty s = match Enqueue e (m_events s) with Some (_, q) => Some (tt, set_queue q s) | None => None end).
  { unfold enqueue_mouse_event, on_cur, on_queue, zoom, bind, e. destruct s. cbn -[Enqueue]. by destruct (Enqueue _ _) as [[? ?]|]. }
  by rewrite Es, E.
Qed.
Lemma on_cur_step {A} (m : ST cursor A) a c (s : st) : m (m_cur s) = Some (a, c) -> on_cur m s = Some (a, set_cur c s) /\ same_io s (set_cur c s).
Proof. intros E. unfold on_cur, zoom. rewrite E. split; [done|]. by split_and!. Qed.
Lemma OnMouseMove_ok dx dy (s : st) : cursor_ok scr (m_cur s) -> - 512 <= dx <= 512 -> - 512 <= dy <= 512 ->
  exists c s', Cursor.MouseMove scr dx dy (m_cur s) = Some (tt, c) /\ OnMouseMove scr dx dy s = Some (tt, s') /\ same_io s s' /\ m_cur s' = c /\ cursor_ok scr c.
Proof.
  intros Hc Hx Hy. destruct (MouseMove_ok scr Hscr (m_cur s) dx dy Hc Hx Hy) as (c & E & Hc'). destruct (on_cur_step _ _ _ s E) as [E' Hs]. destruct Hscr as (Ha & _). unfold OnMouseMove. rewrite Ha. cbn [negb]. rewrite (bind_step _ _ _ _ _ E').
  eexists c, _. split; [done|]. split; [done|]. by split.
Qed.

(** During the loop over the buttons those before [i] are those of the packet. *)
Definition half (b0 i : Z) (s : st) : Prop := forall j, 0 <= j < 3 -> bit (g_mb (m_cur s)) j = if j <? i then bit b0 j else bit (buttons s) j.
Lemma button_step_ok b0 i (s : st) : 0 <= i < 3 -> cursor_ok scr (m_cur s) -> (exists l, queue_is (m_events s) l) -> (has_handler s = true -> half b0 i s) ->
  exists s', button_step scr b0 i s = Some (tt, s') /\ same_io s s' /\ cursor_ok scr (m_cur s') /\ (has_handler s = true -> half b0 (i + 1) s') /\ g_mx (m_cur s') = g_mx (m_cur s) /\ g_my (m_cur s') = g_my (m_cur s).
Proof.
  intros Hi Hc Hq Hh. unfold button_step. rewrite gets_step. cbn [id]. fold (bit (buttons s) i) (bit b0 i). destruct (eqb (bit (buttons s) i) (bit b0 i)) eqn:Ee; cbn [negb andb].
  { exists s. split_and!; try done. intros Hs j Hj. rewrite (Hh Hs j Hj). apply eqb_prop in Ee. destruct (Z.eq_dec j i) as [->|]; [rewrite Ee; repeat case_zb; done || lia|repeat case_zb; done || lia]. }
  destruct (has_handler s) eqn:Hs; [|by exists s; split_and!]. specialize (Hh eq_refl). destruct Hscr as (Ha & _). set (op := if bit b0 i then MouseButtonDown (i + 1) else MouseButtonUp (i + 1)).
  assert (Hop : exists c, op (m_cur s) = Some (tt, c) /\ cursor_ok scr c /\ g_mx c = g_mx (m_cur s) /\ g_my c = g_my (m_cur s) /\ forall j, 0 <= j < 3 -> bit (g_mb c) j = if j =? i then bit b0 i else bit (g_mb (m_cur s)) j).
  { pose proof (ok_mb _ _ Hc) as Hb. unfold op. destruct (bit b0 i); [destruct (cursor_step_ok scr Hscr (OpDown (i + 1)) (m_cur s) I Hc) as (c & E & Hc')|destruct (cursor_step_ok scr Hscr (OpUp (i + 1)) (m_cur s) I Hc) as (c & E & Hc')]; exists c; cbn [cursor_step] in E; unfold MouseButtonDown, MouseButtonUp in *;
    rewrite (proj2 (Z.ltb_ge (i + 1) 1)), (proj2 (Z.ltb_ge 3 (i + 1))) in * by lia; cbn [orb] in *; injection E as <-; split_and!; try done; intros j Hj; cbn [g_mb set_buttons]; [by apply bit_down|by apply bit_up]. }
  destruct Hop as (c & E & Hc' & Hx & Hy & Hbits). destruct (on_cur_step op tt c s E) as [E1 Hs1]. set (s1 := set_stats (g_mouse_packets (set_cur c s)) (g_mouse_input_source (set_cur c s)) (g_mouse_ui_moves (set_cur c s)) (u32 (g_mouse_ui_button_events (set_cur c s) + 1)) (set_cur c s)).
  assert (Hs1' : same_io s s1) by exact Hs1. assert (Hq1 : exists l, queue_is (m_events s1) l) by exact Hq.
  destruct (enqueue_event_ok (if bit b0 i then MousePress else MouseRelease) s1 Hq1) as (s2 & E2 & Hs2 & Hc2). exists s2.
  assert (Erun : (if bit b0 i then OnMouseDown scr (i + 1);;; enqueue_mouse_event MousePress else OnMouseUp scr (i + 1);;; enqueue_mouse_event MouseRelease) s = Some (tt, s2)).
  { rewrite <-E2. unfold op in E1. destruct (bit b0 i); unfold OnMouseDown, OnMouseUp; rewrite Ha; cbn [negb]; rewrite bind_assoc, (bind_step _ _ _ _ _ E1); done. }
  split; [exact Erun|]. split; [by eapply same_trans|]. rewrite Hc2. split; [exact Hc'|]. split; [|done]. intros _ j Hj. rewrite Hc2. destruct Hs1' as (_ & _ & _ & _ & _ & _ & Hb1 & _), Hs2 as (_ & _ & _ & _ & _ & _ & Hb2 & _). rewrite Hb2, Hb1.
  change (m_cur s1) with c. rewrite (Hbits j Hj). destruct (Z.eqb_spec j i) as [->|]; [rewrite (proj2 (Z.ltb_lt _ _)) by lia; done|]. rewrite (Hh j Hj). repeat case_zb; done || lia.
Qed.
Lemma buttons_loop_ok b0 (s : st) : cursor_ok scr (m_cur s) -> (exists l, queue_is (m_events s) l) -> 0 <= b0 < 256 -> 0 <= buttons s < 256 -> (has_handler s = true -> g_mb (m_cur s) = Z.land (buttons s) 7) ->
  exists s', for_loop 3 0 (button_step scr b0) s = Some (tt, s') /\ same_io s s' /\ cursor_ok scr (m_cur s') /\ (has_handler s = true -> g_mb (m_cur s') = Z.land b0 7) /\ g_mx (m_cur s') = g_mx (m_cur s) /\ g_my (m_cur s') = g_my (m_cur s).
Proof.
  intros Hc Hq Hb Hbs Ha. assert (H0h : has_handler s = true -> half b0 0 s) by (intros Hs j Hj; rewrite (Ha Hs), bit_low by done; rewrite (proj2 (Z.ltb_ge j 0)) by lia; done).
  cbn [for_loop]. destruct (button_step_ok b0 0 s ltac:(lia) Hc Hq H0h) as (s1 & E1 & S1 & C1 & H1 & X1 & Y1). pose proof S1 as (_ & Hh1 & _ & _ & _ & _ & _ & _ & _ & Q1).
  destruct (button_step_ok b0 1 s1 ltac:(lia) C1 (Q1 Hq)) as (s2 & E2 & S2 & C2 & H2 & X2 & Y2); [by rewrite Hh1|]. pose proof S2 as (_ & Hh2 & _ & _ & _ & _ & _ & _ & _ & Q2).
  destruct (button_step_ok b0 2 s2 ltac:(lia) C2 (Q2 (Q1 Hq))) as (s3 & E3 & S3 & C3 & H3 & X3 & Y3); [by rewrite Hh2|].
  rewrite (bind_step _ _ _ _ _ E1), (bind_step _ _ _ _ _ E2), (bind_step _ _ _ _ _ E3). exists s3. split_and!; [done|by eapply same_trans; [|eapply same_trans]|done| |congruence|congruence].
  intros Hs. apply bits_eq; [apply C3|done|]. intros j Hj. rewrite (H3 ltac:(by rewrite Hh2, Hh1) j Hj). by rewrite (proj2 (Z.ltb_lt _ _)) by lia.
Qed.

Definition byte_ok (b : Z) : Prop := 0 <= b < 256.
(** The movement of a packet, with the calibrations as they are after it. *)
Definition movement (d o : calib) (b0 b1 b2 : Z) : Z * Z :=
  let '(dx, dy) := DecodeDeltasSelected d b0 b1 b2 in ApplyFinalOrientation o dx (- dy).
Definition decode_after (s : st) (b0 b1 b2 : Z) : calib := UpdateDecodeCalibration scr b0 b1 b2 (g_mx (m_cur s)) (g_my (m_cur s)) (decode s).
Definition orient_after (s : st) (b0 b1 b2 : Z) : calib :=
  let '(dx, dy) := DecodeDeltasSelected (decode_after s b0 b1 b2) b0 b1 b2 in UpdateOrientationCalibration scr dx (- dy) (g_mx (m_cur s)) (g_my (m_cur s)) (orient s).
Definition moved (s s' : st) (d : Z * Z) : Prop :=
  if has_handler s && (negb (d.1 =? 0) || negb (d.2 =? 0)) then exists c, Cursor.MouseMove scr d.1 d.2 (m_cur s) = Some (tt, c) /\ g_mx (m_cur s') = g_mx c /\ g_my (m_cur s') = g_my c
  else g_mx (m_cur s') = g_mx (m_cur s) /\ g_my (m_cur s') = g_my (m_cur s).
Lemma MouseMove_buttons dx dy (s : cursor) c : cursor_ok scr s -> - 512 <= dx <= 512 -> - 512 <= dy <= 512 -> Cursor.MouseMove scr dx dy s = Some (tt, c) -> g_mb c = g_mb s.
Proof. intros Hc Hx Hy E. rewrite (MouseMove_run scr Hscr s dx dy Hc Hx Hy) in E. destruct Hc. rewrite (logical_to_screen scr Hscr) in E by done. by injection E as <-. Qed.

Lemma packet_ok src b0 b1 b2 (s : st) : mouse_ok s -> byte_ok b0 -> byte_ok b1 -> byte_ok b2 ->
  exists s', packet scr src b0 b1 b2 s = Some (tt, s') /\ mouse_ok s' /\ m_ctl s' = m_ctl s /\ has_handler s' = has_handler s /\ buffer s' = buffer s /\ offset s' = offset s /\ pbuf s' = pbuf s /\ poff s' = poff s /\
    buttons s' = b0 /\ decode s' = decode_after s b0 b1 b2 /\ orient s' = orient_after s b0 b1 b2 /\ moved s s' (movement (decode s') (orient s') b0 b1 b2).
Proof.
  intros [Hc Hq Hbu Hof Hpb Hpo Hd Ho Hpr Ha] B0 B1 B2. unfold packet. rewrite modify_step, gets_step. cbn [id decode set_calib]. fold (decode_after s b0 b1 b2). set (d1 := decode_after s b0 b1 b2).
  assert (Hd1 : calib_ok 2 d1) by (by apply UpdateDecode_ok). destruct (DecodeDeltasSelected d1 b0 b1 b2) as [dx dy] eqn:Edd. assert (Hdr : -256 <= dx <= 255 /\ -256 <= dy <= 255) by (pose proof (DecodeDeltas_range (if k_mode d1 =? 0 then HeaderSign else k_mode d1) b0 b1 b2 B1 B2) as Hr; unfold DecodeDeltasSelected in Edd; rewrite Edd in Hr; exact Hr).
  rewrite modify_step, gets_step. cbn [id orient decode m_cur set_calib has_handler]. set (o1 := UpdateOrientationCalibration scr dx (- dy) _ _ _). assert (Ho1 : calib_ok 8 o1) by (by apply UpdateOrientation_ok).
  assert (Eo : orient_after s b0 b1 b2 = o1) by (unfold orient_after; fold d1; by rewrite Edd). set (s1 := set_calib d1 o1 s). destruct (ApplyFinalOrientation o1 dx (- dy)) as [ox oy] eqn:Efo.
  assert (Emv : movement d1 o1 b0 b1 b2 = (ox, oy)) by (unfold movement; by rewrite Edd). assert (Hor : -512 <= ox <= 512 /\ -512 <= oy <= 512).
  { unfold ApplyFinalOrientation in Efo. destruct (k_mode o1 =? 0); [injection Efo as <- <-; lia|]. pose proof (ApplyOrient_range (k_mode o1) dx (- dy) ltac:(lia) ltac:(lia)) as Hr. rewrite Efo in Hr. exact Hr. }
  assert (Hmove : exists s2, (if has_handler s && (negb (ox =? 0) || negb (oy =? 0)) then OnMouseMove scr ox oy;;; enqueue_mouse_event Input.MouseMove else ret tt) s1 = Some (tt, s2) /\ same_io s1 s2 /\ cursor_ok scr (m_cur s2) /\ g_mb (m_cur s2) = g_mb (m_cur s) /\ moved s s2 (ox, oy)).
  { unfold moved. cbn [fst snd]. destruct (has_handler s && _); [|by exists s1; split_and!]. destruct (OnMouseMove_ok ox oy s1 Hc (proj1 Hor) (proj2 Hor)) as (c & s2 & Ec & E2 & S2 & Hc2 & Hok2).
    destruct S2 as (A1 & A2 & A3 & A4 & A5 & A6 & A7 & A8 & A9 & A10). destruct (enqueue_event_ok Input.MouseMove s2 (A10 Hq)) as (s3 & E3 & S3 & Hc3). exists s3. rewrite (bind_step _ _ _ _ _ E2). split; [done|]. split; [eapply same_trans; [|exact S3]; by split_and!|].
    rewrite Hc3, Hc2. split; [done|]. split; [by apply (MouseMove_buttons ox oy (m_cur s) c); try apply Hor|]. by exists c. }
  destruct Hmove as (s2 & E2 & S2 & C2 & M2 & V2). rewrite (bind_step _ _ _ _ _ E2). pose proof S2 as (A1 & A2 & A3 & A4 & A5 & A6 & A7 & A8 & A9 & A10). cbn [m_ctl has_handler buffer offset pbuf poff buttons decode orient s1 set_calib] in *.
  destruct (buttons_loop_ok b0 s2 C2 (A10 Hq) B0) as (s3 & E3 & S3 & C3 & G3 & X3 & Y3); [by rewrite A7|by intros Hs; rewrite M2, A7; apply Ha; rewrite <-Hs, A2|].
  rewrite (bind_step _ _ _ _ _ E3), !modify_step. unfold modify. pose proof S3 as (D1 & D2 & D3 & D4 & D5 & D6 & D7 & D8 & D9 & D10). eexists. split; [done|].
  assert (Hhh : has_handler s3 = has_handler s) by (by rewrite D2, A2). split.
  { split; cbn [m_cur m_events buffer offset pbuf poff decode orient buttons has_handler set_stats set_pressed]; rewrite ?D3, ?D4, ?D5, ?D6, ?D8, ?D9, ?A3, ?A4, ?A5, ?A6, ?A8, ?A9; try done; [by apply D10, A10|]. intros Hs. apply G3. by rewrite A2, <-Hhh. }
  cbn [m_ctl m_cur has_handler buffer offset pbuf poff buttons decode orient set_stats set_pressed]. rewrite D1, D3, D4, D5, D6, D8, D9, Hhh, A1, A3, A4, A5, A6, A8, A9. rewrite Eo, Emv. split_and!; try done.
  revert V2. unfold moved. cbn [fst snd m_cur set_stats set_pressed]. rewrite X3, Y3. done.
Qed.

Lemma three (l : list Z) : length l = 3%nat -> exists b0 b1 b2, l = [b0; b1; b2].
Proof. destruct l as [|b0 [|b1 [|b2 [|]]]]; try done. by exists b0, b1, b2. Qed.
Definition bytes_ok (s : st) : Prop := Forall byte_ok (buffer s) /\ Forall byte_ok (pbuf s).
Lemma set_irq_ok buf off (s : st) : mouse_ok s -> length buf = 3%nat -> 0 <= off < 3 -> mouse_ok (set_irq buf off s).
Proof. intros [] Hb Ho. by split. Qed.
Lemma set_poll_ok buf off (s : st) : mouse_ok s -> length buf = 3%nat -> 0 <= off < 3 -> mouse_ok (set_poll buf off s).
Proof. intros [] Hb Ho. by split. Qed.
Lemma irq_byte_ok b (s : st) : mouse_ok s -> bytes_ok s -> byte_ok b -> exists s', irq_byte scr b s = Some (tt, s') /\ mouse_ok s' /\ bytes_ok s' /\ m_ctl s' = m_ctl s.
Proof.
  intros Hok [By By'] Hb. pose proof (mo_offset _ Hok) as Hof. pose proof (mo_buffer _ Hok) as Hlen. unfold irq_byte. destruct (is_control b); [eexists; split; [done|]; split; [apply set_irq_ok; done || lia|done]|].
  rewrite gets_step. cbn [id]. destruct (_ && _); [by exists s|]. rewrite (proj2 (Z.leb_gt 3 _)) by lia. rewrite modify_step. set (buf := <[Z.to_nat (offset s) := b]> (buffer s)).
  assert (Hbuf : length buf = 3%nat) by (unfold buf; by rewrite length_insert). assert (Fb : Forall byte_ok buf) by (by apply Forall_insert). set (s1 := set_irq buf (offset s) s).
  assert (Hok1 : mouse_ok s1) by (by apply set_irq_ok). destruct (has_handler s); cbn [negb]; [|by exists s1]. rewrite modify_step, gets_step. set (s2 := set_irq (buffer s1) _ s1). cbn [id buffer s2 set_irq offset s1].
  assert (Hok2 : mouse_ok s2) by (apply set_irq_ok; [done|done|zdiv]). destruct (three buf Hbuf) as (b0 & b1 & b2 & Eb). rewrite Eb. assert (By2 : bytes_ok s2) by by split.
  destruct (negb (_ =? 0)); [by exists s2|]. destruct (negb (bit_set b0 MOUSE_SYNC_BIT)); [eexists; split; [done|]; rewrite <-Eb; split; [apply (set_irq_ok buf 0 s2); done || lia|done]|]. destruct (bit_set b0 0xC0); [by exists s2|].
  rewrite Eb in Fb. apply Forall_cons in Fb as [F0 Fb]. apply Forall_cons in Fb as [F1 Fb]. apply Forall_cons in Fb as [F2 _].
  destruct (packet_ok 1 b0 b1 b2 s2 Hok2 F0 F1 F2) as (s' & E & Hok' & Hctl & _ & Hbf & _ & Hpf & _). exists s'. split_and!; try done. destruct By2; split; [rewrite Hbf|rewrite Hpf]; assumption.
Qed.
Lemma poll_byte_ok b (s : st) : mouse_ok s -> bytes_ok s -> byte_ok b -> exists s', poll_byte scr b s = Some (tt, s') /\ mouse_ok s' /\ bytes_ok s' /\ m_ctl s' = m_ctl s.
Proof.
  intros Hok [By By'] Hb. pose proof (mo_poff _ Hok) as Hof. pose proof (mo_pbuf _ Hok) as Hlen. unfold poll_byte. destruct (is_control b); [eexists; split; [done|]; split; [apply set_poll_ok; done || lia|done]|].
  rewrite gets_step. cbn [id]. destruct (_ && _); [by exists s|]. rewrite (proj2 (Z.leb_gt 3 _)) by lia. rewrite modify_step, gets_step. set (buf := <[Z.to_nat (poff s) := b]> (pbuf s)).
  assert (Hbuf : length buf = 3%nat) by (unfold buf; by rewrite length_insert). assert (Fb : Forall byte_ok buf) by (by apply Forall_insert). set (s2 := set_poll buf _ s). cbn [id pbuf s2 set_poll poff].
  assert (Hok2 : mouse_ok s2) by (apply set_poll_ok; [done|done|zdiv]). destruct (three buf Hbuf) as (b0 & b1 & b2 & Eb). rewrite Eb. assert (By2 : bytes_ok s2) by by split.
  destruct (negb (_ =? 0)); [by exists s2|]. destruct (negb (bit_set b0 MOUSE_SYNC_BIT)); [eexists; split; [done|]; rewrite <-Eb; split; [apply (set_poll_ok buf 0 s2); done || lia|done]|].
  destruct (bit_set b0 0xC0); [eexists; split; [done|]; rewrite <-Eb; split; [apply (set_poll_ok buf 0 s2); done || lia|done]|].
  rewrite Eb in Fb. apply Forall_cons in Fb as [F0 Fb]. apply Forall_cons in Fb as [F1 Fb]. apply Forall_cons in Fb as [F2 _].
  destruct (packet_ok 2 b0 b1 b2 s2 Hok2 F0 F1 F2) as (s' & E & Hok' & Hctl & _ & Hbf & _ & Hpf & _). exists s'. split_and!; try done. destruct By2; split; [rewrite Hbf|rewrite Hpf]; assumption.
Qed.
(** Which byte a call takes from the controller. *)
Definition taken (l : list (bool * Z)) : option Z := match l with (true, b) :: _ => Some b | _ => None end.
Definition left_over (l : list (bool * Z)) : list (bool * Z) := match l with (true, _) :: l' => l' | _ => l end.
Lemma set_ctl_ok c (s : st) : mouse_ok s -> mouse_ok (set_ctl c s).
Proof. intros []. by split. Qed.
Lemma data_byte_ok (s : st) l : waiting (m_ctl s) l -> exists c, mouse_data_byte s = Some (taken l, set_ctl c s) /\ waiting c (left_over l) /\ match taken l with Some b => byte_ok b | None => True end.
Proof.
  intros Hw. unfold mouse_data_byte, on_ctl. destruct l as [|[aux b] l].
  - destruct (ReadStatus_empty (m_ctl s) Hw) as (v & c & E & Hw' & Hs). exists c. unfold bind at 1. unfold zoom at 1. rewrite E, Hs. by destruct s.
  - destruct (ReadStatus_full (m_ctl s) aux b l Hw) as (v & c & E & Hw' & Hs & Hx). unfold bind at 1. unfold zoom at 1. rewrite E, Hs, Hx. change (1 =? 0) with false. cbn iota. destruct aux; [|exists c; by destruct s].
    change (0x20 =? 0) with false. cbn iota. destruct (ReadData_first c true b l Hw') as (c2 & E2 & Hw2 & Hb). exists c2. split; [|done]. unfold bind, zoom. cbn [m_ctl set_ctl]. rewrite E2. by destruct s.
Qed.

(** The driver at work: interrupts, polls, and bytes that arrive meanwhile. *)
Inductive mouse_step : st -> st -> Prop :=
| step_irq s s' : HandleInterrupt scr s = Some (tt, s') -> mouse_step s s'
| step_poll s s' : PollOnce scr s = Some (tt, s') -> mouse_step s s'
| step_device s c : m_ready c = true -> mouse_step s (set_ctl c s).
Lemma mouse_calls_ok (s : st) : mouse_ok s -> bytes_ok s -> m_ready (m_ctl s) = true ->
  (exists s', HandleInterrupt scr s = Some (tt, s') /\ mouse_ok s' /\ bytes_ok s' /\ m_ready (m_ctl s') = true) /\
  (exists s', PollOnce scr s = Some (tt, s') /\ mouse_ok s' /\ bytes_ok s' /\ m_ready (m_ctl s') = true).
Proof.
  intros Hok By Hr. destruct (data_byte_ok s (pending (port (m_ctl s)))) as (c & E & [Hr' _] & Hb); [done|]. unfold HandleInterrupt, PollOnce. rewrite !(bind_step _ _ _ _ _ E). assert (Hok' : mouse_ok (set_ctl c s)) by (by apply set_ctl_ok).
  destruct (taken _) as [b|]; [|split; by exists (set_ctl c s)]. split.
  - destruct (irq_byte_ok b (set_ctl c s) Hok' By Hb) as (s' & E' & H1 & H2 & H3). exists s'. split_and!; try done. by rewrite H3.
  - destruct (poll_byte_ok b (set_ctl c s) Hok' By Hb) as (s' & E' & H1 & H2 & H3). exists s'. split_and!; try done. by rewrite H3.
Qed.
Lemma mouse_step_ok (s s' : st) : mouse_step s s' -> mouse_ok s -> bytes_ok s -> m_ready (m_ctl s) = true -> mouse_ok s' /\ bytes_ok s' /\ m_ready (m_ctl s') = true.
Proof.
  intros Hst Hok By Hr. destruct (mouse_calls_ok s Hok By Hr) as [(s1 & E1 & H1) (s2 & E2 & H2)]. destruct Hst as [s s' E|s s' E|s c Hc].
  - rewrite E1 in E. by injection E as <-.
  - rewrite E2 in E. by injection E as <-.
  - split_and!; try done. by apply set_ctl_ok.
Qed.
End Facts.

(** C22: Whatever bytes arrive, and however interrupts and polls mix, the driver's
    calls return and keep its state well-formed: the cursor is on the screen,
    the calibrations select one of their candidates, and the buttons that the
    cursor shows are those of the last packet. *)
Theorem mouse_invariant (scr : screen) {P} `{PS2Device P} (s s' : mouse P) : screen_ok scr -> mouse_ok scr s -> bytes_ok s -> m_ready (m_ctl s) = true -> rtc (mouse_step scr) s s' ->
  mouse_ok scr s' /\ (exists s1, HandleInterrupt scr s' = Some (tt, s1)) /\ (exists s2, PollOnce scr s' = Some (tt, s2)).
Proof.
  intros Hs Hok By Hr Hrun. assert (Hend : mouse_ok scr s' /\ bytes_ok s' /\ m_ready (m_ctl s') = true).
  { induction Hrun as [|s s1 s' Hst Hrun IH]; [done|]. destruct (mouse_step_ok scr Hs s s1 Hst Hok By Hr) as (H1 & H2 & H3). by apply IH. }
  destruct Hend as (H1 & H2 & H3). split; [done|]. destruct (mouse_calls_ok scr Hs s' H1 H2 H3) as [(s1 & E1 & _) (s2 & E2 & _)]. eauto.
Qed.

(** ** A stream of packets *)

Section Stream.
Context (scr : screen) {P : Type} `{PS2Device P}.
#[local] Abbreviation st := (mouse P).
(** What the packets' bytes are kept in while they arrive. *)
Definition receiving (c : controller P) (bf : list Z) (o : Z) (pb : list Z) (po : Z) (s : st) : st := set_ctl c (set_irq bf o (set_poll pb po s)).
Definition frames {A} (f : st -> st) (m : ST st A) : Prop := forall s, m (f s) = match m s with Some (a, s') => Some (a, f s') | None => None end.
Lemma frames_bind {A B} f (m : ST st A) (k : A -> ST st B) : frames f m -> (forall a, frames f (k a)) -> frames f (bind m k).
Proof. intros Hm Hk s. unfold bind. rewrite Hm. destruct (m s) as [[a s']|]; [apply Hk|done]. Qed.
Lemma frames_gets {A B} f (g : st -> A) (k : A -> ST st B) : (forall s, k (g (f s)) (f s) = match k (g s) s with Some (a, s') => Some (a, f s') | None => None end) -> frames f (bind (gets g) k).
Proof. intros Hk s. rewrite !gets_step. apply Hk. Qed.
Context (c : controller P) (bf : list Z) (o : Z) (pb : list Z) (po : Z).
#[local] Abbreviation f := (receiving c bf o pb po).
Lemma frames_modify (g : st -> st) : (forall s, g (f s) = f (g s)) -> frames f (modify g).
Proof. intros Hg s. unfold modify. by rewrite Hg. Qed.
Lemma frames_ret {A} (a : A) : frames f (ret a).
Proof. done. Qed.
Lemma frames_cur {A} (m : ST cursor A) : frames f (on_cur m).
Proof. intros s. unfold on_cur, zoom. cbn [m_cur receiving set_ctl set_irq set_poll]. by destruct (m (m_cur s)) as [[a c']|]. Qed.
Lemma frames_queue {A} (m : ST InputEventQueue A) : frames f (on_queue m).
Proof. intros s. unfold on_queue, zoom. cbn [m_events receiving set_ctl set_irq set_poll]. by destruct (m (m_events s)) as [[a c']|]. Qed.
Lemma frames_enqueue ty : frames f (enqueue_mouse_event ty).
Proof. apply frames_bind; [apply frames_cur|]. intros [[mx my] b]. apply frames_bind; [apply frames_queue|done]. Qed.
Lemma frames_handler : (forall dx dy, frames f (OnMouseMove scr dx dy)) /\ (forall b, frames f (OnMouseDown scr b)) /\ (forall b, frames f (OnMouseUp scr b)).
Proof. unfold OnMouseMove, OnMouseDown, OnMouseUp. destruct (negb (IsAvailable scr)); split_and!; intros; try done; (apply frames_bind; [apply frames_cur|done]). Qed.
Lemma frames_button b0 i : frames f (button_step scr b0 i).
Proof.
  destruct frames_handler as (_ & Hd & Hu). apply frames_gets. intros s. cbn [id buttons has_handler receiving set_ctl set_irq set_poll]. destruct (_ && _); [|done].
  destruct (bit_set b0 _); (apply frames_bind; [done|]); intros _; apply frames_enqueue.
Qed.
Lemma frames_packet src b0 b1 b2 : frames f (packet scr src b0 b1 b2).
Proof.
  destruct frames_handler as (Hm & _). unfold packet. apply frames_bind; [by apply frames_modify|]. intros _. apply frames_gets. intros s. cbn [id decode receiving set_ctl set_irq set_poll].
  destruct (DecodeDeltasSelected (decode s) b0 b1 b2) as [dx dy]. revert s. apply frames_bind; [by apply frames_modify|]. intros _. apply frames_gets. intros s. cbn [id orient has_handler receiving set_ctl set_irq set_poll].
  destruct (ApplyFinalOrientation (orient s) dx (- dy)) as [ox oy]. generalize (has_handler s && (negb (ox =? 0) || negb (oy =? 0))). intros mv. revert s. apply frames_bind.
  - destruct mv; [|apply frames_ret]. apply frames_bind; [apply Hm|]. intros _. apply frames_enqueue.
  - intros _. apply frames_bind; [|done]. cbn [for_loop]. repeat (apply frames_bind; [apply frames_button|intros _]). apply frames_ret.
Qed.
End Stream.

(** How a stream of bytes falls into packets: [part] is what has arrived of a
    packet.  An answer of the device restarts it, a first byte needs the sync
    bit, and a complete packet without it or with an overflow is dropped. *)
Definition overflows (b0 : Z) : bool := bit_set b0 0xC0.
Definition frame_byte (part : list Z) (b : Z) : option (Z * Z * Z) * list Z :=
  if is_control b then (None, [])
  else match part with
  | [] => (None, if bit_set b MOUSE_SYNC_BIT then [b] else [])
  | [b0] => (None, [b0; b])
  | b0 :: b1 :: _ => (if bit_set b0 MOUSE_SYNC_BIT && negb (overflows b0) then Some (b0, b1, b) else None, [])
  end.
Fixpoint framed (part bs : list Z) : list (Z * Z * Z) * list Z :=
  match bs with
  | [] => ([], part)
  | b :: bs =>
      let '(p, part) := frame_byte part b in
      let '(ps, rest) := framed part bs in
      (match p with Some p => p :: ps | None => ps end, rest)
  end.
(** A packet in step with no byte that looks like an answer. *)
Definition plain (p : Z * Z * Z) : Prop :=
  let '(b0, b1, b2) := p in bit_set b0 MOUSE_SYNC_BIT = true /\ is_control b0 = false /\ is_control b1 = false /\ is_control b2 = false.
Definition bytes_of (ps : list (Z * Z * Z)) : list Z := flat_map (fun '(b0, b1, b2) => [b0; b1; b2]) ps.
Lemma framed_plain ps : Forall plain ps -> framed [] (bytes_of ps) = (filter (fun p => overflows p.1.1 = false) ps, []).
Proof.
  induction 1 as [|[[b0 b1] b2] ps (Hs & C0 & C1 & C2) _ IH]; [done|]. cbn [bytes_of flat_map app]. fold (bytes_of ps). cbn [framed]. unfold frame_byte at 1. rewrite C0, Hs. unfold frame_byte at 1. rewrite C1. unfold frame_byte at 1. rewrite C2, Hs, IH. cbn [andb].
  rewrite filter_cons. cbn [fst]. by destruct (overflows b0).
Qed.
Definition sent (ps : list (Z * Z * Z)) : list (bool * Z) := flat_map (fun '(b0, b1, b2) => [(true, b0); (true, b1); (true, b2)]) ps.
Fixpoint repeat_call {S} (n : nat) (m : ST S unit) : ST S unit := match n with O => ret tt | S n => m;;; repeat_call n m end.
Fixpoint handle_all {P} `{PS2Ports P} (scr : screen) (src : Z) (ps : list (Z * Z * Z)) : ST (mouse P) unit :=
  match ps with [] => ret tt | (b0, b1, b2) :: ps => packet scr src b0 b1 b2;;; handle_all scr src ps end.

Section Streams.
Context (scr : screen) {P : Type} `{PS2Device P}.
#[local] Abbreviation st := (mouse P).
Hypothesis Hscr : screen_ok scr.
Lemma irq_take b l (s : st) : waiting (m_ctl s) ((true, b) :: l) -> exists c, HandleInterrupt scr s = irq_byte scr b (set_ctl c s) /\ waiting c l.
Proof. intros Hw. destruct (data_byte_ok s _ Hw) as (c & E & Hw' & _). exists c. split; [|done]. unfold HandleInterrupt. by rewrite (bind_step _ _ _ _ _ E). Qed.
Lemma poll_take b l (s : st) : waiting (m_ctl s) ((true, b) :: l) -> exists c, PollOnce scr s = poll_byte scr b (set_ctl c s) /\ waiting c l.
Proof. intros Hw. destruct (data_byte_ok s _ Hw) as (c & E & Hw' & _). exists c. split; [|done]. unfold PollOnce. by rewrite (bind_step _ _ _ _ _ E). Qed.
#[local] Abbreviation effect src p := (match p with Some (b0, b1, b2) => packet scr src b0 b1 b2 | None => ret tt end).
Lemma irq_step b (s : st) : length (buffer s) = 3%nat -> 0 <= offset s < 3 -> has_handler s = true -> let r := frame_byte (take (Z.to_nat (offset s)) (buffer s)) b in
  exists bf o, take (Z.to_nat o) bf = r.2 /\ length bf = 3%nat /\ 0 <= o < 3 /\ (forall x, x ∈ bf -> x ∈ b :: buffer s) /\ irq_byte scr b s = effect 1 r.1 (set_irq bf o s).
Proof.
  intros Hb Ho Hh r. destruct (three _ Hb) as (x0 & x1 & x2 & Eb). subst r. destruct s. cbn in Eb, Ho, Hh. subst. unfold irq_byte, frame_byte. cbn [buffer offset]. destruct (is_control b).
  { exists [x0; x1; x2], 0. split_and!; try done; try lia. set_solver. }
  assert (offset0 = 0 \/ offset0 = 1 \/ offset0 = 2) as [->|[->| ->]] by lia; unfold bind, gets, modify, ret; cbn -[packet bit_set].
  - destruct (bit_set b MOUSE_SYNC_BIT); [exists [b; x1; x2], 1|exists [x0; x1; x2], 0]; split_and!; try done; try lia; set_solver.
  - exists [x0; b; x2], 2. split_and!; try done; try lia; set_solver.
  - exists [x0; x1; b], 0. change (Z.to_nat 2) with 2%nat. change ((2 + 1) mod 3) with 0. cbn -[packet bit_set]. split_and!; try done; try lia; [set_solver|]. fold (overflows x0). destruct (bit_set x0 MOUSE_SYNC_BIT), (overflows x0); done.
Qed.
Lemma poll_step b (s : st) : length (pbuf s) = 3%nat -> 0 <= poff s < 3 -> let r := frame_byte (take (Z.to_nat (poff s)) (pbuf s)) b in
  exists bf o, take (Z.to_nat o) bf = r.2 /\ length bf = 3%nat /\ 0 <= o < 3 /\ (forall x, x ∈ bf -> x ∈ b :: pbuf s) /\ poll_byte scr b s = effect 2 r.1 (set_poll bf o s).
Proof.
  intros Hb Ho r. destruct (three _ Hb) as (x0 & x1 & x2 & Eb). subst r. destruct s. cbn in Eb, Ho. subst. unfold poll_byte, frame_byte. cbn [pbuf poff]. destruct (is_control b).
  { exists [x0; x1; x2], 0. split_and!; try done; try lia. set_solver. }
  assert (poff0 = 0 \/ poff0 = 1 \/ poff0 = 2) as [->|[->| ->]] by lia; unfold bind, gets, modify, ret; cbn -[packet bit_set].
  - destruct (bit_set b MOUSE_SYNC_BIT); [exists [b; x1; x2], 1|exists [x0; x1; x2], 0]; split_and!; try done; try lia; set_solver.
  - exists [x0; b; x2], 2. split_and!; try done; try lia; set_solver.
  - exists [x0; x1; b], 0. change (Z.to_nat 2) with 2%nat. change ((2 + 1) mod 3) with 0. cbn -[packet bit_set]. split_and!; try done; try lia; [set_solver|]. fold (overflows x0). destruct (bit_set x0 MOUSE_SYNC_BIT), (overflows x0); done.
Qed.
Lemma frames_all src ps c bf o pb po : frames (receiving c bf o pb po) (handle_all (P:=P) scr src ps).
Proof. induction ps as [|[[b0 b1] b2] ps IH]; [done|]. cbn [handle_all]. apply frames_bind; [apply frames_packet|done]. Qed.
Lemma frames_back {A} f (m : ST st A) s a s2 : frames f m -> m (f s) = Some (a, s2) -> exists s', m s = Some (a, s') /\ s2 = f s'.
Proof. intros Hf E. rewrite Hf in E. destruct (m s) as [[a' s']|]; [|done]. injection E as <- <-. eauto. Qed.
Lemma receiving_ok c bf o pb po (s : st) : mouse_ok scr s -> length bf = 3%nat -> 0 <= o < 3 -> length pb = 3%nat -> 0 <= po < 3 -> mouse_ok scr (receiving c bf o pb po s).
Proof. intros Hok Hb Ho Hp Hq. apply set_ctl_ok, set_irq_ok; [apply set_poll_ok|done|done]; done. Qed.
(** The packet that a byte completes, if any, on the state before it. *)
Lemma effect_ok src p (s : st) : mouse_ok scr s -> match p with Some (b0, b1, b2) => byte_ok b0 /\ byte_ok b1 /\ byte_ok b2 | None => True end ->
  exists s', effect src p s = Some (tt, s') /\ mouse_ok scr s' /\ has_handler s' = has_handler s /\ buffer s' = buffer s /\ offset s' = offset s /\ pbuf s' = pbuf s /\ poff s' = poff s.
Proof.
  intros Hok Hp. destruct p as [[[b0 b1] b2]|]; [|by exists s]. destruct Hp as (B0 & B1 & B2). destruct (packet_ok scr Hscr src b0 b1 b2 s Hok B0 B1 B2) as (s1 & E1 & Hok1 & _ & Hh & Hb & Ho & Hp & Hq & _). by exists s1.
Qed.
Lemma frames_effect src p c bf o pb po : frames (receiving (P:=P) c bf o pb po) (effect src p).
Proof. destruct p as [[[b0 b1] b2]|]; [apply frames_packet|done]. Qed.
Lemma frame_bytes part b : Forall byte_ok part -> byte_ok b -> match (frame_byte part b).1 with Some (b0, b1, b2) => byte_ok b0 /\ byte_ok b1 /\ byte_ok b2 | None => True end.
Proof.
  intros Hf Hb. unfold frame_byte. destruct (is_control b); [done|]. destruct part as [|b0 [|b1 part]]; cbn [fst]; [done..|]. apply Forall_cons in Hf as [B0 Hf]. apply Forall_cons in Hf as [B1 _]. by destruct (_ && _).
Qed.
Lemma handle_effect src p ps (s s1 s' : st) : effect src p s = Some (tt, s1) -> handle_all scr src ps s1 = Some (tt, s') -> handle_all scr src (match p with Some p => p :: ps | None => ps end) s = Some (tt, s').
Proof. intros E1 E2. destruct p as [[[b0 b1] b2]|]; [cbn [handle_all]; by rewrite (bind_step _ _ _ _ _ E1)|]. by injection E1 as <-. Qed.

Lemma irq_stream bs l : forall s : st, mouse_ok scr s -> bytes_ok s -> has_handler s = true -> waiting (m_ctl s) (map (pair true) bs ++ l) -> let r := framed (take (Z.to_nat (offset s)) (buffer s)) bs in
  exists s' c bf o, handle_all scr 1 r.1 s = Some (tt, s') /\ repeat_call (length bs) (HandleInterrupt scr) s = Some (tt, receiving c bf o (pbuf s) (poff s) s') /\ take (Z.to_nat o) bf = r.2 /\ waiting c l.
Proof.
  induction bs as [|b bs IH]; intros s Hok Hby Hh Hw r; [exists s, (m_ctl s), (buffer s), (offset s); split_and!; try done; by destruct s|].
  destruct (irq_take b _ s Hw) as (c & E & Hw'). assert (Bb : byte_ok b) by (destruct (data_byte_ok s _ Hw) as (_ & _ & _ & Hb); exact Hb).
  destruct (irq_step b (set_ctl c s) (mo_buffer _ _ Hok) (mo_offset _ _ Hok) Hh) as (bf & o & Et & Hlb & Hob & Hin & Eb). rewrite Eb in E. clear Eb. subst r. cbn [framed]. cbn [buffer offset set_ctl] in *.
  pose proof (frame_bytes (take (Z.to_nat (offset s)) (buffer s)) b (Forall_take _ _ _ (proj1 Hby)) Bb) as Hp. destruct (frame_byte _ b) as [p part]. cbn [fst snd] in *.
  destruct (effect_ok 1 p s Hok Hp) as (s1 & E1 & Hok1 & Hh1 & _ & _ & Hp1 & Hq1). set (f := receiving c bf o (pbuf s) (poff s)).
  assert (E2 : HandleInterrupt scr s = Some (tt, f s1)) by (rewrite E; replace (set_irq bf o (set_ctl c s)) with (f s) by (by destruct s); subst f; rewrite (frames_effect 1 p _ _ _ _ _ s); by rewrite E1).
  assert (Hbf : Forall byte_ok bf) by (apply Forall_forall; intros x Hx; apply Hin, elem_of_cons in Hx as [->|Hx]; [done|]; destruct Hby as [Hby _]; rewrite Forall_forall in Hby; by apply Hby).
  destruct (IH (f s1)) as (s2 & c' & bf' & o' & E3 & E4 & Et' & Hw2); [apply receiving_ok; try done; apply Hok|split; [done|apply Hby]|cbn; congruence|exact Hw'|]. cbn [f receiving set_ctl set_irq set_poll offset buffer] in E3, Et'.
  rewrite Et in E3, Et'. destruct (framed part bs) as [ps rest]. cbn [fst snd] in *. destruct (frames_back f _ s1 _ _ (frames_all 1 ps _ _ _ _ _) E3) as (s' & E5 & ->).
  exists s', c', bf', o'. split; [by apply (handle_effect 1 p ps s s1)|]. split; [|done]. cbn [length repeat_call]. rewrite (bind_step _ _ _ _ _ E2). exact E4.
Qed.
Lemma poll_stream bs l : forall s : st, mouse_ok scr s -> bytes_ok s -> waiting (m_ctl s) (map (pair true) bs ++ l) -> let r := framed (take (Z.to_nat (poff s)) (pbuf s)) bs in
  exists s' c pb o, handle_all scr 2 r.1 s = Some (tt, s') /\ repeat_call (length bs) (PollOnce scr) s = Some (tt, receiving c (buffer s) (offset s) pb o s') /\ take (Z.to_nat o) pb = r.2 /\ waiting c l.
Proof.
  induction bs as [|b bs IH]; intros s Hok Hby Hw r; [exists s, (m_ctl s), (pbuf s), (poff s); split_and!; try done; by destruct s|].
  destruct (poll_take b _ s Hw) as (c & E & Hw'). assert (Bb : byte_ok b) by (destruct (data_byte_ok s _ Hw) as (_ & _ & _ & Hb); exact Hb).
  destruct (poll_step b (set_ctl c s) (mo_pbuf _ _ Hok) (mo_poff _ _ Hok)) as (bf & o & Et & Hlb & Hob & Hin & Eb). rewrite Eb in E. clear Eb. subst r. cbn [framed]. cbn [pbuf poff set_ctl] in *.
  pose proof (frame_bytes (take (Z.to_nat (poff s)) (pbuf s)) b (Forall_take _ _ _ (proj2 Hby)) Bb) as Hp. destruct (frame_byte _ b) as [p part]. cbn [fst snd] in *.
  destruct (effect_ok 2 p s Hok Hp) as (s1 & E1 & Hok1 & Hh1 & Hp1 & Hq1 & _). set (f := receiving c (buffer s) (offset s) bf o).
  assert (E2 : PollOnce scr s = Some (tt, f s1)) by (rewrite E; replace (set_poll bf o (set_ctl c s)) with (f s) by (by destruct s); subst f; rewrite (frames_effect 2 p _ _ _ _ _ s); by rewrite E1).
  assert (Hbf : Forall byte_ok bf) by (apply Forall_forall; intros x Hx; apply Hin, elem_of_cons in Hx as [->|Hx]; [done|]; destruct Hby as [_ Hby]; rewrite Forall_forall in Hby; by apply Hby).
  destruct (IH (f s1)) as (s2 & c' & bf' & o' & E3 & E4 & Et' & Hw2); [apply receiving_ok; try done; apply Hok|split; [apply Hby|done]|exact Hw'|]. cbn [f receiving set_ctl set_irq set_poll poff pbuf] in E3, Et'.
  rewrite Et in E3, Et'. destruct (framed part bs) as [ps rest]. cbn [fst snd] in *. destruct (frames_back f _ s1 _ _ (frames_all 2 ps _ _ _ _ _) E3) as (s' & E5 & ->).
  exists s', c', bf', o'. split; [by apply (handle_effect 2 p ps s s1)|]. split; [|done]. cbn [length repeat_call]. rewrite (bind_step _ _ _ _ _ E2). exact E4.
Qed.
End Streams.

(** C15: Whatever bytes of the mouse wait in the controller, taken one per interrupt
    or one per poll they have the effect of the packets into which the stream
    falls ([framed]), in order; the packet begun last is kept and the bytes
    behind them still wait.  A stream of whole packets falls into these
    packets, without those that report an overflow, if none of their bytes is
    0xFA, 0xFE or 0xAA, which the driver takes for answers of the device
    ([answer_in_packet]). *)
Theorem packets_arrive (scr : screen) {P} `{PS2Device P} bs l (s : mouse P) : screen_ok scr -> mouse_ok scr s -> bytes_ok s -> waiting (m_ctl s) (map (pair true) bs ++ l) ->
  (has_handler s = true -> let r := framed (take (Z.to_nat (offset s)) (buffer s)) bs in
    exists s' c bf o, handle_all scr 1 r.1 s = Some (tt, s') /\ repeat_call (length bs) (HandleInterrupt scr) s = Some (tt, receiving c bf o (pbuf s) (poff s) s') /\ take (Z.to_nat o) bf = r.2 /\ waiting c l) /\
  (let r := framed (take (Z.to_nat (poff s)) (pbuf s)) bs in
    exists s' c pb o, handle_all scr 2 r.1 s = Some (tt, s') /\ repeat_call (length bs) (PollOnce scr) s = Some (tt, receiving c (buffer s) (offset s) pb o s') /\ take (Z.to_nat o) pb = r.2 /\ waiting c l) /\
  (forall ps, Forall plain ps -> framed [] (bytes_of ps) = (filter (fun p => overflows p.1.1 = false) ps, [])).
Proof. intros Hs Hok Hby Hw. split_and!; [intros Hh; by apply irq_stream|by apply poll_stream|apply framed_plain]. Qed.

(** ** Activation *)

Definition fresh {P} (c : controller P) (s : mouse P) : mouse P :=
  set_calib (ResetCalibration 2 (g_mx (m_cur s)) (g_my (m_cur s))) (ResetCalibration 8 (g_mx (m_cur s)) (g_my (m_cur s))) (set_pressed 0 (receiving c (buffer s) 0 (pbuf s) 0 s)).
Lemma on_ctl_returns {P} `{PS2Ports P} {A} (m : ST (controller P) A) (s : mouse P) : returns m -> m_ready (m_ctl s) = true -> exists a c, on_ctl m s = Some (a, set_ctl c s) /\ m_ready c = true.
Proof. intros Hm Hr. destruct (Hm _ Hr) as (a & c & E & Hc). exists a, c. split; [|done]. unfold on_ctl, zoom. by rewrite E. Qed.

(** Activation ends whatever the controller answers to its commands, given
    that the bytes that wait can be read; the driver then starts with no
    button pressed, at the start of a packet, and with calibrations that have
    counted nothing. *)
Theorem Activate_spec {P} `{PS2Device P} l fuel (s : mouse P) : waiting (m_ctl s) l -> (length l < fuel)%nat ->
  exists c, Activate fuel s = Some (tt, fresh c s) /\ m_ready c = true.
Proof.
  intros Hw Hf. unfold Activate. rewrite !modify_step. set (s1 := set_calib _ _ _). destruct (flush_ok (m_ctl s) l fuel Hw Hf) as (c1 & E1 & [Hr1 _]).
  assert (E1' : on_ctl (flush fuel) s1 = Some (tt, set_ctl c1 s1)) by (unfold on_ctl, zoom; cbn [m_ctl s1 set_calib set_pressed set_poll set_irq]; by rewrite E1). rewrite (bind_step _ _ _ _ _ E1').
  destruct controller_returns as (_ & Hwr & Hcmd & Hdat & Hmou & Hcfg). pose proof (returns_in PS2_DATA_PORT) as Hrd.
  assert (Hgo : forall (m : controller P) A (x : ST (controller P) A) B (k : A -> ST (mouse P) B) (Q : option (B * mouse P) -> Prop), m_ready m = true -> returns x -> (forall a m', m_ready m' = true -> Q (k a (set_ctl m' s1))) -> Q ((let! a := on_ctl x in k a) (set_ctl m s1))).
  { intros m A x B k Q Hm Hx Hk. destruct (on_ctl_returns x (set_ctl m s1) Hx Hm) as (a & c & E & Hc). rewrite (bind_step _ _ _ _ _ E). by apply (Hk a c). }
  apply (Hgo c1 _ _ _ _ (fun r => exists c, r = Some (tt, fresh c s) /\ m_ready c = true)); [done..|]. intros _ c2 R2. cbn beta.
  repeat match goal with R : m_ready ?c = true |- exists _, (bind _ _) (set_ctl ?c s1) = _ /\ _ => apply (Hgo c _ _ _ _ (fun r => exists c, r = Some (tt, fresh c s) /\ m_ready c = true)); [exact R|by auto|]; clear R; intros ? ? R end.
  match goal with R : m_ready ?c = true |- _ => exists c; split; [|exact R] end. by destruct s.
Qed.

(** ** Where the driver goes wrong *)

Lemma irq_first (scr : screen) {P} `{PS2Ports P} b (s : mouse P) x0 x1 x2 : buffer s = [x0; x1; x2] -> has_handler s = true -> offset s = 0 -> is_control b = false ->
  irq_byte scr b s = Some (tt, if bit_set b MOUSE_SYNC_BIT then set_irq [b; x1; x2] 1 s else s).
Proof. intros Hb Hh Ho Hc. destruct s. cbn in Hb, Hh, Ho. subst. unfold irq_byte, bind, gets, modify, ret. rewrite Hc. cbn -[packet bit_set]. by destruct (bit_set b MOUSE_SYNC_BIT). Qed.

(** Movements of which a byte happens to be 0xFA, 0xFE or 0xAA - such as -6
    or -2 - are lost: the byte is taken for an answer of the device, and a last
    byte with bit 3 set then starts a packet of its own. *)
Theorem answer_in_packet (scr : screen) {P} `{PS2Device P} b0 b1 b2 l (s : mouse P) : length (buffer s) = 3%nat -> has_handler s = true -> offset s = 0 ->
  bit_set b0 MOUSE_SYNC_BIT = true -> is_control b0 = false -> is_control b1 = true -> is_control b2 = false -> waiting (m_ctl s) (sent [(b0, b1, b2)] ++ l) ->
  exists c bf, repeat_call 3 (HandleInterrupt scr) s = Some (tt, receiving c bf (if bit_set b2 MOUSE_SYNC_BIT then 1 else 0) (pbuf s) (poff s) s) /\ waiting c l.
Proof.
  intros Hb Hh Ho S0 C0 C1 C2 Hw. destruct (three _ Hb) as (x0 & x1 & x2 & Eb). cbn [sent flat_map app] in Hw. destruct (irq_take scr _ _ s Hw) as (c1 & E1 & W1). rewrite (irq_first scr b0 (set_ctl c1 s) x0 x1 x2 Eb Hh Ho C0), S0 in E1.
  destruct (irq_take scr b1 ((true, b2) :: l) (set_irq [b0; x1; x2] 1 (set_ctl c1 s)) W1) as (c2 & E2 & W2). unfold irq_byte in E2. rewrite C1 in E2. unfold modify in E2. set (s2 := set_irq [b0; x1; x2] 0 (set_ctl c2 (set_ctl c1 s))).
  destruct (irq_take scr b2 l s2 W2) as (c3 & E3 & W3). rewrite (irq_first scr b2 (set_ctl c3 s2) b0 x1 x2 eq_refl Hh eq_refl C2) in E3. cbn [repeat_call]. rewrite (bind_step _ _ _ _ _ E1), (bind_step _ _ _ _ _ E2), (bind_step _ _ _ _ _ E3).
  exists c3, (if bit_set b2 MOUSE_SYNC_BIT then [b2; x1; x2] else [b0; x1; x2]). split; [|done]. destruct s. by destruct (bit_set b2 MOUSE_SYNC_BIT).
Qed.

Definition demo_mouse (l : list (bool * Z)) : mouse fifo :=
  mk_mouse (mk_controller true (mk_fifo l)) demo_cursor Queue_new true [0; 0; 0] 0 [0; 0; 0] 0 0 (ResetCalibration 2 10 10) (ResetCalibration 8 10 10) 0 0 0 0.
Lemma demo_mouse_ok l : mouse_ok demo_screen (demo_mouse l).
Proof. split; try done; try apply demo_cursor_ok. eexists; apply Queue_new_is. Qed.

(** Ninety-six movements to the left from the cursor's first position - most
    of them against the edge of the screen - make the calibration choose the
    mirrored orientation: before them a packet that says ten to the left moves
    the cursor left, after them the same packet moves it right. *)
Theorem calibration_mirrors : let left := (0x18, 0xF6, 0) in
  (exists s, handle_all demo_screen 1 [left] (demo_mouse []) = Some (tt, s) /\ g_mx (m_cur s) = 0) /\
  (exists s s', handle_all demo_screen 1 (replicate 96 left) (demo_mouse []) = Some (tt, s) /\ g_mx (m_cur s) = 10 /\
    handle_all demo_screen 1 [left] s = Some (tt, s') /\ g_mx (m_cur s') = 20).
Proof.
  split; [eexists; split; [vm_compute; reflexivity|vm_compute; reflexivity]|]. eexists. eexists. split; [vm_compute; reflexivity|]. split; [vm_compute; reflexivity|]. split; vm_compute; reflexivity.
Qed.

Lemma mouse_invariant_witness : exists s', rtc (mouse_step demo_screen) (demo_mouse [(true, 0x09)]) s' /\ mouse_ok demo_screen s' /\ offset s' = 1.
Proof.
  eexists (set_ctl _ (set_irq [9; 0; 0] 1 (demo_mouse []))). assert (Hrun : rtc (mouse_step demo_screen) (demo_mouse [(true, 0x09)]) (set_ctl (mk_controller true (mk_fifo [])) (set_irq [9; 0; 0] 1 (demo_mouse [])))) by (apply rtc_once, step_irq; vm_compute; reflexivity).
  split; [exact Hrun|]. split; [|done]. apply (mouse_invariant demo_screen (demo_mouse [(true, 0x09)])); [apply demo_screen_ok|apply demo_mouse_ok|by split; repeat constructor|done|exact Hrun].
Defined.
Lemma packets_arrive_witness : exists s' c bf o, handle_all demo_screen 1 [(0x09, 5, 0)] (demo_mouse (sent [(0x09, 5, 0)])) = Some (tt, s') /\
  repeat_call 3 (HandleInterrupt demo_screen) (demo_mouse (sent [(0x09, 5, 0)])) = Some (tt, receiving c bf o [0; 0; 0] 0 s').
Proof.
  assert (Hb : bytes_ok (demo_mouse (sent [(0x09, 5, 0)]))) by (split; repeat constructor; done). assert (Hw : waiting (m_ctl (demo_mouse (sent [(0x09, 5, 0)]))) (map (pair true) [0x09; 5; 0] ++ [])) by (split; reflexivity).
  destruct (packets_arrive demo_screen [0x09; 5; 0] [] (demo_mouse (sent [(0x09, 5, 0)])) demo_screen_ok (demo_mouse_ok _) Hb Hw) as [Hi _]. destruct (Hi eq_refl) as (s' & c & bf & o & E1 & E2 & _).
  exact (ex_intro _ s' (ex_intro _ c (ex_intro _ bf (ex_intro _ o (conj E1 E2))))).
Defined.
Lemma Activate_spec_witness : exists c, Activate 2 (demo_mouse [(false, 0x1E)]) = Some (tt, fresh c (demo_mouse [(false, 0x1E)])).
Proof. destruct (Activate_spec [(false, 0x1E)] 2 (demo_mouse [(false, 0x1E)])) as (c & E & _); [by split|exact (Nat.lt_succ_diag_r 1)|]. exact (ex_intro _ c E). Defined.
Lemma answer_in_packet_witness : exists c bf, repeat_call 3 (HandleInterrupt demo_screen) (demo_mouse (sent [(0x18, 0xFA, 0)])) = Some (tt, receiving c bf 0 [0; 0; 0] 0 (demo_mouse (sent [(0x18, 0xFA, 0)]))).
Proof. destruct (answer_in_packet demo_screen 0x18 0xFA 0 [] (demo_mouse (sent [(0x18, 0xFA, 0)]))) as (c & bf & E & _); [reflexivity..|by split|]. exact (ex_intro _ c (ex_intro _ bf E)). Defined.
