(* ===== verification/Keyboard.v ===== *)
(** * The keyboard driver

    [drivers/keyboard/keyboard_drive.cpp]: the bytes of the keyboard, taken by
    the interrupt handler or by polling, are decoded by scancode set 1 and the
    characters handed to an event handler and to the queue of [Input.v].  The
    controller and the queue are those of the mouse driver, to which polling
    passes the bytes that are the mouse's.  [KeyboardEventHandler] is the
    interface of the handlers; [ShellKeyboardHandler] of
    console/shellKeyboardHandler.cpp, with the ring of keys of lib/sysapi.cpp
    and the input of [Stdio.v], is one of them.  Messages for the log are left
    out, and so is [map_set2_make], which nothing calls. *)
From Stdlib Require Import Ascii.
From S2P Require Import Prelude Graphics Cursor Input Ps2 Stdio Mouse.

(** Handlers by their address. *)
Class KeyboardEventHandler (W : Type) := OnKeyDown : Z -> Z -> ST W unit.

Record keys := mk_keys {
  e0Prefix : bool; ctrlLeft : bool; ctrlRight : bool; s_set2_break : bool; s_set2_break_poll : bool; g_kbd_input_source : Z; g_kbd_events : Z }.
Definition set_e0 (b : bool) (k : keys) : keys := mk_keys b (ctrlLeft k) (ctrlRight k) (s_set2_break k) (s_set2_break_poll k) (g_kbd_input_source k) (g_kbd_events k).
Definition set_left (b : bool) (k : keys) : keys := mk_keys (e0Prefix k) b (ctrlRight k) (s_set2_break k) (s_set2_break_poll k) (g_kbd_input_source k) (g_kbd_events k).
Definition set_right (b : bool) (k : keys) : keys := mk_keys (e0Prefix k) (ctrlLeft k) b (s_set2_break k) (s_set2_break_poll k) (g_kbd_input_source k) (g_kbd_events k).
Definition set_break (b : bool) (k : keys) : keys := mk_keys (e0Prefix k) (ctrlLeft k) (ctrlRight k) b (s_set2_break_poll k) (g_kbd_input_source k) (g_kbd_events k).
Definition set_break_poll (b : bool) (k : keys) : keys := mk_keys (e0Prefix k) (ctrlLeft k) (ctrlRight k) (s_set2_break k) b (g_kbd_input_source k) (g_kbd_events k).
Definition set_source (n : Z) (k : keys) : keys := mk_keys (e0Prefix k) (ctrlLeft k) (ctrlRight k) (s_set2_break k) (s_set2_break_poll k) n (g_kbd_events k).
Definition count_event (k : keys) : keys := mk_keys (e0Prefix k) (ctrlLeft k) (ctrlRight k) (s_set2_break k) (s_set2_break_poll k) (g_kbd_input_source k) (u32 (g_kbd_events k + 1)).

Definition kbd_modifiers (l r : bool) : Z := if l || r then 1 else 0.
Fixpoint assoc (k : Z) (l : list (Z * Z)) : Z := match l with [] => 0 | (a, b) :: l' => if k =? a then b else assoc k l' end.
(** The characters of scancode set 1. *)
Definition set1_table : list (Z * Z) := [
  (0x0E, 8); (0x0F, 9);
  (0x02, ch "1"); (0x03, ch "2"); (0x04, ch "3"); (0x05, ch "4"); (0x06, ch "5"); (0x07, ch "6"); (0x08, ch "7"); (0x09, ch "8"); (0x0A, ch "9"); (0x0B, ch "0"); (0x0C, ch "-");
  (0x10, ch "q"); (0x11, ch "w"); (0x12, ch "e"); (0x13, ch "r"); (0x14, ch "t"); (0x15, ch "y"); (0x16, ch "u"); (0x17, ch "i"); (0x18, ch "o"); (0x19, ch "p");
  (0x1E, ch "a"); (0x1F, ch "s"); (0x20, ch "d"); (0x21, ch "f"); (0x22, ch "g"); (0x23, ch "h"); (0x24, ch "j"); (0x25, ch "k"); (0x26, ch "l");
  (0x2C, ch "z"); (0x2D, ch "x"); (0x2E, ch "c"); (0x2F, ch "v"); (0x30, ch "b"); (0x31, ch "n"); (0x32, ch "m"); (0x33, ch ","); (0x34, ch "."); (0x35, ch "-"); (0x4A, ch "-");
  (0x1C, 10); (0x39, ch " ")].
Definition set1_char (key : Z) : Z := assoc key set1_table.
(** The character and the key code of an extended key. *)
Definition extended_key (key : Z) : option (Z * Z) :=
  if key =? 0x1C then Some (10, 10) else if key =? 0x49 then Some (int8 0xF1, 0xF1) else if key =? 0x51 then Some (int8 0xF2, 0xF2)
  else if key =? 0x35 then Some (ch "/", ch "/") else if key =? 0x4A then Some (ch "-", ch "-") else None.
Definition is_lower (c : Z) : bool := (ch "a" <=? c) && (c <=? ch "z").
Definition is_upper (c : Z) : bool := (ch "A" <=? c) && (c <=? ch "Z").
Definition control_irq (ctrl : bool) (c : Z) : Z :=
  if ctrl then if is_lower c then int8 (u8 (c - ch "a" + 1)) else if is_upper c then int8 (u8 (c - ch "A" + 1)) else c else c.
Definition control_poll (ctrl : bool) (c : Z) : Z := if ctrl && is_lower c then int8 (u8 (c - ch "a" + 1)) else c.

Record keyboard (P W : Type) := mk_keyboard {
  k_mouse : mouse P; g_mouse_driver : bool; k_world : W; k_handler : option Z; g_override : option Z; k_keys : keys; g_kbd_poll_enabled : bool }.
Arguments mk_keyboard {P W}. Arguments k_mouse {P W}. Arguments g_mouse_driver {P W}. Arguments k_world {P W}. Arguments k_handler {P W}.
Arguments g_override {P W}. Arguments k_keys {P W}. Arguments g_kbd_poll_enabled {P W}.

Section Keyboard.
Context (scr : screen) {P W : Type} `{PS2Ports P} `{KeyboardEventHandler W}.
#[local] Abbreviation st := (keyboard P W).
Definition set_mouse (m : mouse P) (s : st) : st := mk_keyboard m (g_mouse_driver s) (k_world s) (k_handler s) (g_override s) (k_keys s) (g_kbd_poll_enabled s).
Definition set_world (w : W) (s : st) : st := mk_keyboard (k_mouse s) (g_mouse_driver s) w (k_handler s) (g_override s) (k_keys s) (g_kbd_poll_enabled s).
Definition set_keys (k : keys) (s : st) : st := mk_keyboard (k_mouse s) (g_mouse_driver s) (k_world s) (k_handler s) (g_override s) k (g_kbd_poll_enabled s).
Definition SetHandler (h : option Z) : ST st unit := modify (fun s => mk_keyboard (k_mouse s) (g_mouse_driver s) (k_world s) h (g_override s) (k_keys s) (g_kbd_poll_enabled s)).
Definition on_mouse {A} (m : ST (mouse P) A) : ST st A := zoom k_mouse set_mouse m.
Definition on_world {A} (m : ST W A) : ST st A := zoom k_world set_world m.
Definition edit (f : keys -> keys) : ST st unit := modify (fun s => set_keys (f (k_keys s)) s).

Definition enqueue_key_event (ty : EventType) (code mods : Z) : ST st unit :=
  on_mouse (on_queue (Enqueue (mk_event ty 0 0 (key_data (u8 code) mods))));;; ret tt.
(** [activeHandler->OnKeyDown] and the event that goes with it. *)
Definition press (h c code : Z) : ST st unit :=
  on_world (OnKeyDown h c);;;
  let! k := gets k_keys in
  enqueue_key_event KeyPress code (kbd_modifiers (ctrlLeft k) (ctrlRight k)).
(** A byte with bit 7 set; the same on both paths. *)
Definition release (key : Z) : ST st unit :=
  let code := Z.land key 0x7F in
  let! k := gets k_keys in
  if e0Prefix k then (if code =? 0x1D then edit (set_right false) else ret tt);;; edit (set_e0 false)
  else if code =? 0x1D then edit (set_left false) else ret tt.
(** The key after 0xE0; the same on both paths. *)
Definition extended (h key : Z) : ST st unit :=
  edit (set_e0 false);;;
  if key =? 0x1D then edit (set_right true)
  else match extended_key key with Some (c, code) => press h c code | None => ret tt end.
Definition plain (h key : Z) (control : bool -> Z -> Z) (done : ST st unit) : ST st unit :=
  (if key =? 0x1D then edit (set_left true) else ret tt);;;
  let c := set1_char key in
  if c =? 0 then ret tt
  else
    let! k := gets k_keys in
    let c := control (ctrlLeft k || ctrlRight k) c in
    press h c c;;; done.

Definition irq_key (h key : Z) : ST st unit :=
  let! k := gets k_keys in
  if key =? 0xF0 then edit (set_break true)
  else if s_set2_break k then edit (set_break false)
  else if key =? 0xE0 then edit (set_e0 true)
  else if bit_set key 0x80 then release key
  else if e0Prefix k then extended h key
  else plain h key control_irq (edit (set_source 1)).
Definition active_handler (s : st) : option Z := match g_override s with Some h => Some h | None => k_handler s end.
Definition key_interrupt (key : Z) : ST st unit :=
  if is_control key then ret tt
  else
    edit (fun k => count_event (set_source 1 k));;;
    let! h := gets active_handler in
    match h with None => ret tt | Some h => irq_key h key end.
Definition HandleInterrupt : ST st unit := let! key := on_mouse (on_ctl ReadData) in key_interrupt key.

Definition poll_key (h key : Z) : ST st unit :=
  let! k := gets k_keys in
  if key =? 0xF0 then edit (set_break_poll true)
  else if s_set2_break_poll k then edit (set_break_poll false)
  else if key =? 0xE0 then edit (set_e0 true)
  else if bit_set key 0x80 then release key
  else if e0Prefix k then extended h key;;; edit (set_source 2)
  else plain h key control_poll (edit (fun k => count_event (set_source 2 k))).
Definition key_polled (key : Z) : ST st bool :=
  if is_control key then ret true
  else
    edit (fun k => count_event (set_source 2 k));;;
    let! h := gets active_handler in
    match h with None => ret false | Some h => poll_key h key;;; ret true end.
Definition PollOnce : ST st bool :=
  let! s := gets id in
  if negb (g_kbd_poll_enabled s) then ret false
  else
    let! status := on_mouse (on_ctl ReadStatus) in
    if Z.land status 0x01 =? 0 then ret false
    else if bit_set status 0x20 then
      if g_mouse_driver s then on_mouse (Mouse.PollOnce scr);;; ret true else ret false
    else let! key := on_mouse (on_ctl ReadData) in key_polled key.
(** The loop of [SchedulerTimerHandler::HandleInterrupt] in text mode. *)
Fixpoint poll_loop (n : nat) : ST st unit :=
  match n with O => ret tt | S n' => let! more := PollOnce in if more then poll_loop n' else ret tt end.
Definition poll_tick : ST st unit := let! on := gets g_kbd_poll_enabled in if on then poll_loop 4 else ret tt.

(** [while ((ReadStatus() & 0x02) && timeout-- > 0);] and
    [while (timeout-- > 0 && !(ReadStatus() & 0x01));] *)
Fixpoint wait_input (n : nat) : ST (controller P) unit :=
  let! v := ReadStatus in
  if Z.land v 0x02 =? 0 then ret tt else match n with O => ret tt | S n' => wait_input n' end.
Fixpoint wait_answer (n : nat) : ST (controller P) unit :=
  match n with O => ret tt | S n' => let! v := ReadStatus in if Z.land v 0x01 =? 0 then wait_answer n' else ret tt end.
Definition enable_bits (config : Z) : Z := Z.ldiff (Z.ldiff (Z.lor (Z.lor config 0x01) 0x02) 0x10) 0x20.
Definition activation (fuel : nat) : ST (controller P) unit :=
  flush fuel;;; wait_input 1000;;;
  send_command 0xAD;;; send_command 0xA7;;;
  flush fuel;;;
  let! config := ReadConfig in
  send_command 0x60;;; send_data (enable_bits config);;;
  send_command 0xAE;;; send_data 0xF4;;;
  wait_answer 1000;;;
  let! v := ReadStatus in
  if Z.land v 0x01 =? 0 then ret tt else ReadData;;; ret tt.
Definition Activate (fuel : nat) : ST st unit := on_mouse (on_ctl (activation fuel)).
End Keyboard.

(** ** The decoder as a function *)

Record dec := mk_dec { d_e0 : bool; d_left : bool; d_right : bool; d_break : bool }.
(** What a byte does to the state of the decoder, and the character and key
    code that it delivers. *)
Definition decode_byte (d : dec) (key : Z) : dec * option (Z * Z) :=
  if is_control key then (d, None)
  else if key =? 0xF0 then (mk_dec (d_e0 d) (d_left d) (d_right d) true, None)
  else if d_break d then (mk_dec (d_e0 d) (d_left d) (d_right d) false, None)
  else if key =? 0xE0 then (mk_dec true (d_left d) (d_right d) false, None)
  else if 128 <=? key then
    if d_e0 d then (mk_dec false (d_left d) (negb (key =? 0x9D) && d_right d) false, None)
    else (mk_dec false (negb (key =? 0x9D) && d_left d) (d_right d) false, None)
  else if d_e0 d then (mk_dec false (d_left d) ((key =? 0x1D) || d_right d) false, extended_key key)
  else
    let c := set1_char key in
    (mk_dec false ((key =? 0x1D) || d_left d) (d_right d) false,
     if c =? 0 then None else let c := (if (d_left d || d_right d) && is_lower c then c - 0x60 else c) in Some (c, c)).
Definition key_event (d : dec) (o : option (Z * Z)) : list InputEvent :=
  match o with None => [] | Some (_, code) => [mk_event KeyPress 0 0 (key_data code (kbd_modifiers (d_left d) (d_right d)))] end.
Definition dec_irq (k : keys) : dec := mk_dec (e0Prefix k) (ctrlLeft k) (ctrlRight k) (s_set2_break k).
Definition dec_poll (k : keys) : dec := mk_dec (e0Prefix k) (ctrlLeft k) (ctrlRight k) (s_set2_break_poll k).

Definition below128 (f : Z -> bool) : bool := forallb f (seqZ 0 128).
Lemma set1_facts key c : 0 <= key < 128 -> set1_char key = c -> c <> 0 -> key <> 0x1D /\ 0 < c < 128 /\ is_upper c = false.
Proof.
  intros Hk <- Hc. assert (Ht : below128 (fun key => (set1_char key =? 0) || (negb (key =? 0x1D) && (0 <? set1_char key) && (set1_char key <? 128) && negb (is_upper (set1_char key)))) = true) by (vm_compute; reflexivity).
  pose proof (below_ind 128 _ Ht key Hk) as H1. cbn beta in H1. rewrite (proj2 (Z.eqb_neq _ _) Hc) in H1. cbn [orb] in H1. rewrite !andb_true_iff, !negb_true_iff, Z.eqb_neq, !Z.ltb_lt in H1. intuition lia.
Qed.
Lemma control_same ctrl key : 0 <= key < 128 -> set1_char key <> 0 -> let c := set1_char key in
  let c' := if ctrl && is_lower c then c - 0x60 else c in control_irq ctrl c = c' /\ control_poll ctrl c = c' /\ u8 c' = c'.
Proof.
  intros Hk Hc. cbv zeta. destruct (set1_facts key _ Hk eq_refl Hc) as (_ & Hr & Hu). unfold control_irq, control_poll. rewrite Hu. destruct ctrl; cbn [andb]; [|split_and!; try done; apply Z.mod_small; lia].
  destruct (is_lower (set1_char key)) eqn:El; [|split_and!; try done; apply Z.mod_small; lia]. unfold is_lower in El. change (ch "a") with 97 in *. change (ch "z") with 122 in *. rewrite andb_true_iff, !Z.leb_le in El.
  assert (Eu : u8 (set1_char key - 97 + 1) = set1_char key - 96) by (unfold u8; rewrite Z.mod_small; lia). rewrite Eu. unfold int8. rewrite (proj2 (Z.ltb_lt _ _)) by lia. split_and!; try done. apply Z.mod_small. lia.
Qed.
Lemma extended_u8 key c code : extended_key key = Some (c, code) -> u8 code = code /\ key <> 0x1D.
Proof. unfold extended_key. repeat case_zb; intros [= <- <-]; split; try done; lia. Qed.
Lemma high_bit key : 0 <= key < 256 -> bit_set key 0x80 = (128 <=? key) /\ (128 <= key -> (Z.land key 0x7F =? 0x1D) = (key =? 0x9D)).
Proof.
  intros Hk. assert (Ht : forallb (fun key => eqb (bit_set key 0x80) (128 <=? key) && (negb (128 <=? key) || eqb (Z.land key 0x7F =? 0x1D) (key =? 0x9D))) (seqZ 0 256) = true) by (vm_compute; reflexivity).
  pose proof (below_ind 256 _ Ht key Hk) as H1. cbn beta in H1. apply andb_true_iff in H1 as [H1 H2]. apply eqb_prop in H1. split; [done|]. intros Hle. rewrite (proj2 (Z.leb_le _ _) Hle) in H2. by apply eqb_prop in H2.
Qed.

Section Decoding.
Context {P W : Type} `{PS2Ports P} `{KeyboardEventHandler W}.
#[local] Abbreviation st := (keyboard P W).
Definition handler_returns : Prop := forall h c w, exists w', OnKeyDown h c w = Some (tt, w').
(** What a delivery leaves alone, and what it does to the handler and the queue. *)
Definition delivered (h : Z) (o : option (Z * Z)) (evs : list InputEvent) (s s' : st) : Prop :=
  match o with None => k_world s' = k_world s | Some (c, _) => OnKeyDown h c (k_world s) = Some (tt, k_world s') end /\
  (forall l, queue_is (m_events (k_mouse s)) l -> exists q, k_mouse s' = set_queue q (k_mouse s) /\ queue_is q (take 256 (l ++ evs))) /\
  active_handler s' = active_handler s /\ g_mouse_driver s' = g_mouse_driver s /\ g_kbd_poll_enabled s' = g_kbd_poll_enabled s.
Lemma Enqueue_take e q l : queue_is q l -> exists b q', Enqueue e q = Some (b, q') /\ queue_is q' (take 256 (l ++ [e])).
Proof.
  intros Hq. pose proof (q_max _ _ Hq) as Hm. destruct (decide (length l < 256)%nat) as [Hl|Hl].
  - destruct (Enqueue_room q l e Hq Hl) as (q' & E & Hq' & _). exists true, q'. split; [done|]. rewrite take_ge; [done|]. rewrite length_app. cbn. lia.
  - exists false, q. split; [apply (Enqueue_full q l); [done|lia]|]. rewrite take_app_le, take_ge by lia. done.
Qed.
Lemma press_ok h c code (s : st) : handler_returns -> (exists l, queue_is (m_events (k_mouse s)) l) -> u8 code = code ->
  exists s', press h c code s = Some (tt, s') /\ k_keys s' = k_keys s /\ delivered h (Some (c, code)) (key_event (dec_irq (k_keys s)) (Some (c, code))) s s'.
Proof.
  intros Hret [l Hq] Hu. destruct (Hret h c (k_world s)) as (w & Ew). set (e := mk_event KeyPress 0 0 (key_data code (kbd_modifiers (ctrlLeft (k_keys s)) (ctrlRight (k_keys s))))). destruct (Enqueue_take e _ l Hq) as (b & q & Eq & Hq').
  exists (set_mouse (set_queue q (k_mouse s)) (set_world w s)). split.
  - unfold press, bind at 1, on_world, zoom at 1. rewrite Ew. rewrite gets_step. unfold enqueue_key_event. rewrite Hu. cbn [k_keys set_world]. fold e. unfold bind, on_mouse, on_queue, zoom. cbn [k_mouse set_world]. by rewrite Eq.
  - split; [done|]. split; [exact Ew|]. split; [|done]. intros l2 Hq2. destruct (Enqueue_take e _ l2 Hq2) as (b2 & q2 & E2 & Hq2'). rewrite Eq in E2. injection E2 as <- <-. by exists q.
Qed.
Lemma delivered_none h (s : st) f : delivered h None [] s (set_keys f s).
Proof.
  split; [done|]. split; [|done]. intros l Hq. exists (m_events (k_mouse s)). split; [cbn; by destruct (k_mouse s)|]. pose proof (q_max _ _ Hq). rewrite app_nil_r, take_ge by lia. done.
Qed.
Lemma delivered_keys h o evs (s s' : st) f g : delivered h o evs (set_keys f s) s' -> delivered h o evs s (set_keys g s').
Proof. done. Qed.
Lemma release_run key (s : st) : 128 <= key < 256 -> let k := k_keys s in
  release key s = Some (tt, set_keys (if e0Prefix k then set_e0 false (if key =? 0x9D then set_right false k else k) else if key =? 0x9D then set_left false k else k) s).
Proof.
  intros Hk. cbv zeta. unfold release. rewrite gets_step. rewrite (proj2 (high_bit key ltac:(lia)) ltac:(lia)). unfold edit.
  destruct (e0Prefix (k_keys s)), (key =? 0x9D); rewrite ?modify_step; unfold modify, bind, ret; destruct s; done.
Qed.
Lemma extended_run h key (s : st) : handler_returns -> (exists l, queue_is (m_events (k_mouse s)) l) -> let k := set_e0 false (k_keys s) in let k' := if key =? 0x1D then set_right true k else k in
  exists s', extended h key s = Some (tt, s') /\ k_keys s' = k' /\ delivered h (extended_key key) (key_event (dec_irq k') (extended_key key)) s s'.
Proof.
  intros Hret Hq. cbv zeta. unfold extended, edit. rewrite modify_step. destruct (Z.eqb_spec key 0x1D) as [->|Hne]; [eexists; split; [done|]; split; [done|]; apply (delivered_none h s)|].
  destruct (extended_key key) as [[c code]|] eqn:Ee; [|eexists; split; [done|]; split; [done|]; apply (delivered_none h s)].
  destruct (press_ok h c code (set_keys (set_e0 false (k_keys s)) s) Hret Hq (proj1 (extended_u8 _ _ _ Ee))) as (s' & E & Hk & Hd). exists s'. split; [done|]. by split.
Qed.
Lemma plain_run h key control f (s : st) : handler_returns -> (exists l, queue_is (m_events (k_mouse s)) l) -> 0 <= key < 128 ->
  (forall ctrl, set1_char key <> 0 -> control ctrl (set1_char key) = if ctrl && is_lower (set1_char key) then set1_char key - 0x60 else set1_char key) -> let k := k_keys s in let c := set1_char key in
  let o := if c =? 0 then None else let c := (if (ctrlLeft k || ctrlRight k) && is_lower c then c - 0x60 else c) in Some (c, c) in let k' := if key =? 0x1D then set_left true k else k in
  exists s', plain h key control (edit f) s = Some (tt, s') /\ k_keys s' = (if c =? 0 then k' else f k') /\ delivered h o (key_event (dec_irq k') o) s s'.
Proof.
  intros Hret Hq Hk Hc. cbv zeta. unfold plain, edit at 1. destruct (Z.eqb_spec key 0x1D) as [->|Hne]; [rewrite modify_step; eexists; split; [done|]; split; [done|]; apply (delivered_none h s)|].
  rewrite ret_step. destruct (Z.eqb_spec (set1_char key) 0) as [E0|E0]; [exists s; split; [done|]; split; [done|]; destruct s; apply (delivered_none h (mk_keyboard _ _ _ _ _ _ _))|].
  rewrite gets_step, (Hc _ E0). destruct (control_same (ctrlLeft (k_keys s) || ctrlRight (k_keys s)) key Hk E0) as (_ & _ & Hu). set (c' := if _ && _ then _ else _) in *.
  destruct (press_ok h c' c' s Hret Hq Hu) as (s' & E & Ek & Hd). rewrite (bind_step _ _ _ _ _ E). eexists. split; [done|]. cbn [k_keys set_keys]. rewrite Ek. split; [done|exact Hd].
Qed.

(** One byte on either path: the decoder's step, and the delivery of what it decodes. *)
Definition byte_effect (h key : Z) (d d' : dec) (s s' : st) : Prop :=
  let '(d1, o) := decode_byte d key in d' = d1 /\ delivered h o (key_event d1 o) s s'.
Lemma irq_key_ok h key (s : st) : handler_returns -> (exists l, queue_is (m_events (k_mouse s)) l) -> byte_ok key -> is_control key = false ->
  exists s', irq_key h key s = Some (tt, s') /\ byte_effect h key (dec_irq (k_keys s)) (dec_irq (k_keys s')) s s' /\ s_set2_break_poll (k_keys s') = s_set2_break_poll (k_keys s).
Proof.
  intros Hret Hq Hb Hc. unfold irq_key, byte_effect, decode_byte. rewrite gets_step, Hc, (proj1 (high_bit key Hb)). unfold byte_ok in Hb. cbn [d_e0 d_left d_right d_break dec_irq].
  destruct (Z.eqb_spec key 0xF0) as [->|N1]; [eexists; split; [done|]; split; [split; [done|apply (delivered_none h s)]|done]|].
  destruct (s_set2_break (k_keys s)) eqn:Eb; [eexists; split; [done|]; split; [split; [done|apply (delivered_none h s)]|done]|].
  destruct (Z.eqb_spec key 0xE0) as [->|N2]; [eexists; split; [done|]; split; [split; [unfold dec_irq; cbn; by rewrite Eb|apply (delivered_none h s)]|done]|].
  destruct (Z.leb_spec 128 key) as [Hge|Hlt].
  - rewrite (release_run key s) by lia. destruct (e0Prefix (k_keys s)) eqn:Ee; (eexists; split; [done|]); (split; [split; [|apply (delivered_none h s)]|]); unfold dec_irq; destruct (k_keys s); cbn in *; subst; by destruct (key =? 0x9D).
  - destruct (e0Prefix (k_keys s)) eqn:Ee.
    + destruct (extended_run h key s Hret Hq) as (s' & E & Ek & Hd). exists s'. split; [done|]. rewrite Ek. destruct (k_keys s). cbn in *. subst. by destruct (key =? 0x1D).
    + destruct (plain_run h key control_irq (set_source 1) s Hret Hq ltac:(lia)) as (s' & E & Ek & Hd); [intros ctrl Hn; apply (control_same ctrl key); [lia|done]|]. exists s'. split; [done|]. rewrite Ek.
      destruct (k_keys s). cbn in *. subst. destruct (_ =? 0), (key =? 0x1D); done.
Qed.
Lemma poll_key_ok h key (s : st) : handler_returns -> (exists l, queue_is (m_events (k_mouse s)) l) -> byte_ok key -> is_control key = false ->
  exists s', poll_key h key s = Some (tt, s') /\ byte_effect h key (dec_poll (k_keys s)) (dec_poll (k_keys s')) s s' /\ s_set2_break (k_keys s') = s_set2_break (k_keys s).
Proof.
  intros Hret Hq Hb Hc. unfold poll_key, byte_effect, decode_byte. rewrite gets_step, Hc, (proj1 (high_bit key Hb)). unfold byte_ok in Hb. cbn [d_e0 d_left d_right d_break dec_poll].
  destruct (Z.eqb_spec key 0xF0) as [->|N1]; [eexists; split; [done|]; split; [split; [done|apply (delivered_none h s)]|done]|].
  destruct (s_set2_break_poll (k_keys s)) eqn:Eb; [eexists; split; [done|]; split; [split; [done|apply (delivered_none h s)]|done]|].
  destruct (Z.eqb_spec key 0xE0) as [->|N2]; [eexists; split; [done|]; split; [split; [unfold dec_poll; cbn; by rewrite Eb|apply (delivered_none h s)]|done]|].
  destruct (Z.leb_spec 128 key) as [Hge|Hlt].
  - rewrite (release_run key s) by lia. destruct (e0Prefix (k_keys s)) eqn:Ee; (eexists; split; [done|]); (split; [split; [|apply (delivered_none h s)]|]); unfold dec_poll; destruct (k_keys s); cbn in *; subst; by destruct (key =? 0x9D).
  - destruct (e0Prefix (k_keys s)) eqn:Ee.
    + destruct (extended_run h key s Hret Hq) as (s' & E & Ek & Hd). rewrite (bind_step _ _ _ _ _ E). eexists. split; [done|]. cbn [k_keys set_keys]. rewrite Ek. split; [|destruct (k_keys s); by destruct (key =? 0x1D)].
      split; [|apply (delivered_keys h _ _ s s' (k_keys s)); destruct s; destruct k_keys0; cbn in *; subst; by destruct (key =? 0x1D)]. destruct (k_keys s). cbn in *. subst. by destruct (key =? 0x1D).
    + destruct (plain_run h key control_poll (fun k => count_event (set_source 2 k)) s Hret Hq ltac:(lia)) as (s' & E & Ek & Hd); [intros ctrl Hn; apply (control_same ctrl key); [lia|done]|]. exists s'. split; [done|]. rewrite Ek.
      destruct (k_keys s). cbn in *. subst. destruct (_ =? 0), (key =? 0x1D); done.
Qed.
Lemma keys_counted h o evs (s s' : st) f : delivered h o evs (set_keys f s) s' -> delivered h o evs s s'.
Proof. done. Qed.
Lemma key_interrupt_ok h key (s : st) : handler_returns -> (exists l, queue_is (m_events (k_mouse s)) l) -> byte_ok key -> active_handler s = Some h ->
  exists s', key_interrupt key s = Some (tt, s') /\ byte_effect h key (dec_irq (k_keys s)) (dec_irq (k_keys s')) s s' /\ s_set2_break_poll (k_keys s') = s_set2_break_poll (k_keys s).
Proof.
  intros Hret Hq Hb Ha. unfold key_interrupt. destruct (is_control key) eqn:Ec; [exists s; split; [done|]; unfold byte_effect, decode_byte; rewrite Ec; split; [|done]; split; [done|]; destruct s; apply (delivered_none h (mk_keyboard _ _ _ _ _ _ _))|].
  unfold edit. rewrite modify_step, gets_step. change (active_handler (set_keys _ s)) with (active_handler s). rewrite Ha.
  destruct (irq_key_ok h key (set_keys (count_event (set_source 1 (k_keys s))) s) Hret Hq Hb Ec) as (s' & E & Hd & Hp). by exists s'.
Qed.
Lemma key_polled_ok h key (s : st) : handler_returns -> (exists l, queue_is (m_events (k_mouse s)) l) -> byte_ok key -> active_handler s = Some h ->
  exists s', key_polled key s = Some (true, s') /\ byte_effect h key (dec_poll (k_keys s)) (dec_poll (k_keys s')) s s' /\ s_set2_break (k_keys s') = s_set2_break (k_keys s).
Proof.
  intros Hret Hq Hb Ha. unfold key_polled. destruct (is_control key) eqn:Ec; [exists s; split; [done|]; unfold byte_effect, decode_byte; rewrite Ec; split; [|done]; split; [done|]; destruct s; apply (delivered_none h (mk_keyboard _ _ _ _ _ _ _))|].
  unfold edit. rewrite modify_step, gets_step. change (active_handler (set_keys _ s)) with (active_handler s). rewrite Ha.
  destruct (poll_key_ok h key (set_keys (count_event (set_source 2 (k_keys s))) s) Hret Hq Hb Ec) as (s' & E & Hd & Hp). rewrite (bind_step _ _ _ _ _ E). by exists s'.
Qed.
End Decoding.

(** ** Streams of bytes *)

Fixpoint decode_all (d : dec) (bs : list Z) : dec * list Z * list InputEvent :=
  match bs with
  | [] => (d, [], [])
  | b :: bs => let '(d1, o) := decode_byte d b in let '(d2, cs, evs) := decode_all d1 bs in
      (d2, match o with Some (c, _) => c :: cs | None => cs end, key_event d1 o ++ evs)
  end.
Fixpoint offer_all {W} `{KeyboardEventHandler W} (h : Z) (cs : list Z) : ST W unit :=
  match cs with [] => ret tt | c :: cs => OnKeyDown h c;;; offer_all h cs end.
Lemma take_take_app {A} n (a b c : list A) : take n (take n (a ++ b) ++ c) = take n (a ++ b ++ c).
Proof.
  destruct (decide (length (a ++ b) <= n)%nat) as [Hl|Hl]; [rewrite (take_ge (a ++ b)) by done; by rewrite <-app_assoc|].
  rewrite (app_assoc a b c), (take_app_le (a ++ b)) by lia. rewrite take_app_le by (rewrite length_take; lia). rewrite take_take. f_equal. lia.
Qed.

Section Streams.
Context (scr : screen) {P W : Type} `{PS2Device P} `{KeyboardEventHandler W}.
#[local] Abbreviation st := (keyboard P W).
(** The state after the characters [cs] and the events [evs]. *)
Record typing (h : Z) (cs : list Z) (evs l : list InputEvent) (rest : list (bool * Z)) (s s' : st) : Prop := {
  ty_world : offer_all h cs (k_world s) = Some (tt, k_world s');
  ty_mouse : exists c q, k_mouse s' = set_ctl c (set_queue q (k_mouse s)) /\ waiting c rest /\ queue_is q (take 256 (l ++ evs));
  ty_handler : active_handler s' = active_handler s;
  ty_driver : g_mouse_driver s' = g_mouse_driver s;
  ty_enabled : g_kbd_poll_enabled s' = g_kbd_poll_enabled s }.
Lemma typing_refl h l rest (s : st) : queue_is (m_events (k_mouse s)) l -> waiting (m_ctl (k_mouse s)) rest -> typing h [] [] l rest s s.
Proof.
  intros Hq Hw. split; try done. exists (m_ctl (k_mouse s)), (m_events (k_mouse s)). split; [by destruct (k_mouse s)|]. split; [done|]. pose proof (q_max _ _ Hq). rewrite app_nil_r, take_ge by lia. done.
Qed.
Lemma typing_step h o d1 cs evs l rest (s s1 s2 : st) c : queue_is (m_events (k_mouse s)) l -> delivered h o (key_event d1 o) (set_mouse (set_ctl c (k_mouse s)) s) s1 ->
  (forall l1, queue_is (m_events (k_mouse s1)) l1 -> typing h cs evs l1 rest s1 s2) ->
  typing h (match o with Some (c, _) => c :: cs | None => cs end) (key_event d1 o ++ evs) l rest s s2.
Proof.
  intros Hq (Hw & Hqs & Ha & Hm & Hp) Hrest. destruct (Hqs l Hq) as (q1 & Em & Hq1). destruct (Hrest (take 256 (l ++ key_event d1 o))) as [Tw Tm Th Td Te]; [by rewrite Em|]. split.
  - change (k_world (set_mouse _ s)) with (k_world s) in Hw. destruct o as [[x code]|]; [cbn [offer_all]; rewrite (bind_step _ _ _ _ _ Hw)|rewrite <-Hw]; done.
  - destruct Tm as (c2 & q2 & E2 & W2 & Q2). exists c2, q2. rewrite E2, Em. split; [done|]. split; [done|]. by rewrite <-take_take_app.
  - by rewrite Th, Ha.
  - by rewrite Td, Hm.
  - by rewrite Te, Hp.
Qed.
Lemma read_byte aux b l (s : st) : waiting (m_ctl (k_mouse s)) ((aux, b) :: l) -> exists c, on_mouse (on_ctl ReadData) s = Some (b, set_mouse (set_ctl c (k_mouse s)) s) /\ waiting c l /\ byte_ok b.
Proof. intros Hw. destruct (ReadData_first _ _ _ _ Hw) as (c & E & Hw' & Hb). exists c. split; [|done]. unfold on_mouse, on_ctl, zoom. by rewrite E. Qed.
(** Either path takes the bytes one by one. *)
Definition takes_bytes (call : ST st unit) (view : keys -> dec) (h : Z) (en : bool) : Prop := forall s b rest l, active_handler s = Some h -> g_kbd_poll_enabled s = en -> queue_is (m_events (k_mouse s)) l ->
  waiting (m_ctl (k_mouse s)) ((false, b) :: rest) ->
  exists c s1, call s = Some (tt, s1) /\ waiting c rest /\ byte_effect h b (view (k_keys s)) (view (k_keys s1)) (set_mouse (set_ctl c (k_mouse s)) s) s1.
Lemma irq_takes h en : handler_returns (W:=W) -> takes_bytes HandleInterrupt dec_irq h en.
Proof.
  intros Hret s b rest l Ha _ Hq Hw. destruct (read_byte _ _ _ s Hw) as (c & E & Hw' & Hb). destruct (key_interrupt_ok h b (set_mouse (set_ctl c (k_mouse s)) s) Hret ltac:(by exists l) Hb Ha) as (s1 & E1 & He & _).
  exists c, s1. split; [|done]. unfold HandleInterrupt. by rewrite (bind_step _ _ _ _ _ E).
Qed.
Lemma poll_takes h : handler_returns (W:=W) -> takes_bytes (PollOnce scr;;; ret tt) dec_poll h true.
Proof.
  intros Hret s b rest l Ha Hen Hq Hw. destruct (ReadStatus_full _ _ _ _ Hw) as (v & c0 & E0 & Hw0 & Hobf & Haux). set (s0 := set_mouse (set_ctl c0 (k_mouse s)) s). assert (E0' : on_mouse (on_ctl ReadStatus) s = Some (v, s0)) by (unfold on_mouse, on_ctl, zoom; by rewrite E0).
  destruct (read_byte false b rest s0 Hw0) as (c & E & Hw' & Hb). destruct (key_polled_ok h b (set_mouse (set_ctl c (k_mouse s0)) s0) Hret ltac:(by exists l) Hb Ha) as (s1 & E1 & He & _).
  exists c, s1. split; [|done]. unfold PollOnce. rewrite !bind_assoc, gets_step. cbn [id]. rewrite Hen. cbn [negb]. rewrite bind_assoc, (bind_step _ _ _ _ _ E0'). change 0x01 with PS2_STATUS_OBF. rewrite Hobf. cbn [Z.eqb]. unfold bit_set. change 0x20 with PS2_STATUS_AUX. rewrite Haux. cbn [negb].
  change (0 =? 0) with true. cbn [negb]. rewrite bind_assoc, (bind_step _ _ _ _ _ E). by rewrite (bind_step _ _ _ _ _ E1).
Qed.
Lemma stream_types call view h en bs rest : takes_bytes call view h en -> forall (s : st) l, active_handler s = Some h -> g_kbd_poll_enabled s = en -> queue_is (m_events (k_mouse s)) l -> waiting (m_ctl (k_mouse s)) (map (pair false) bs ++ rest) ->
  let '(d, cs, evs) := decode_all (view (k_keys s)) bs in exists s', repeat_call (length bs) call s = Some (tt, s') /\ view (k_keys s') = d /\ typing h cs evs l rest s s'.
Proof.
  intros Htake. induction bs as [|b bs IH]; intros s l Ha Hen Hq Hw; [exists s; split; [done|]; split; [done|]; by apply typing_refl|]. cbn [map app] in Hw. destruct (Htake s b _ l Ha Hen Hq Hw) as (c & s1 & E1 & Hw' & He).
  unfold byte_effect in He. cbn [decode_all]. destruct (decode_byte (view (k_keys s)) b) as [d1 o]. destruct He as [Ed Hd]. pose proof Hd as (_ & Hqs & Ha1 & _ & Hen1). destruct (Hqs l Hq) as (q1 & Em & Hq1).
  assert (IH1 : forall l1, queue_is (m_events (k_mouse s1)) l1 -> let '(d, cs, evs) := decode_all d1 bs in exists s', repeat_call (length bs) call s1 = Some (tt, s') /\ view (k_keys s') = d /\ typing h cs evs l1 rest s1 s').
  { intros l1 Hl1. rewrite <-Ed. apply IH; [by rewrite Ha1|by rewrite Hen1|done|by rewrite Em]. }
  cbn [length repeat_call]. rewrite (bind_step _ _ _ _ _ E1). destruct (decode_all d1 bs) as [[d2 cs] evs]. destruct (IH1 (take 256 (l ++ key_event d1 o))) as (s2 & E2 & Ed2 & _); [by rewrite Em|]. exists s2. split; [done|]. split; [done|].
  apply (typing_step h o d1 cs evs l rest s s1 s2 c Hq Hd). intros l1 Hl1. destruct (IH1 l1 Hl1) as (s3 & E3 & _ & Ht3). rewrite E2 in E3. by injection E3 as <-.
Qed.
End Streams.

(** ** Keys *)

(** Keys by their scancodes, the extended ones after 0xE0. *)
Inductive key := Plain (code : Z) | Ext (code : Z).
Inductive action := Press (k : key) | Release (k : key).
Definition prefix (k : key) : list Z := match k with Plain _ => [] | Ext _ => [0xE0] end.
Definition code_of (k : key) : Z := match k with Plain c => c | Ext c => c end.
Definition encode (a : action) : list Z := match a with Press k => prefix k ++ [code_of k] | Release k => prefix k ++ [code_of k + 128] end.
(** Keys whose releases are not taken for a prefix nor, behind 0xE0, for an
    answer of the device. *)
Definition fine (k : key) : Prop :=
  1 <= code_of k < 128 /\ code_of k <> 0x60 /\ code_of k <> 0x70 /\
  match k with Plain _ => True | Ext c => c <> 0x2A /\ c <> 0x7A /\ c <> 0x7E end.
Definition key_of (a : action) : key := match a with Press k => k | Release k => k end.
(** The character and key code of a key, given whether a control key is held. *)
Definition symbol (ctrl : bool) (k : key) : option (Z * Z) :=
  match k with
  | Plain c => let x := set1_char c in if x =? 0 then None else let x := (if ctrl && is_lower x then x - 0x60 else x) in Some (x, x)
  | Ext c => extended_key c
  end.
Definition hold (a : action) (lr : bool * bool) : bool * bool :=
  match a with
  | Press (Plain c) => ((c =? 0x1D) || lr.1, lr.2) | Press (Ext c) => (lr.1, (c =? 0x1D) || lr.2)
  | Release (Plain c) => (negb (c =? 0x1D) && lr.1, lr.2) | Release (Ext c) => (lr.1, negb (c =? 0x1D) && lr.2)
  end.
Fixpoint typed (lr : bool * bool) (acts : list action) : list (Z * Z * bool) :=
  match acts with
  | [] => []
  | a :: acts' =>
      let ctrl := (lr.1 || lr.2)%bool in
      match a with Press k => match symbol ctrl k with Some x => [(x, ctrl)] | None => [] end | Release _ => [] end ++ typed (hold a lr) acts'
  end.
Definition chars (l : list (Z * Z * bool)) : list Z := map (fun x => x.1.1) l.
Definition events (l : list (Z * Z * bool)) : list InputEvent := map (fun x => mk_event KeyPress 0 0 (key_data x.1.2 (if x.2 : bool then 1 else 0))) l.
Definition idle (lr : bool * bool) : dec := mk_dec false lr.1 lr.2 false.

Lemma decode_app d bs bs' : decode_all d (bs ++ bs') = let '(d1, cs, evs) := decode_all d bs in let '(d2, cs', evs') := decode_all d1 bs' in (d2, cs ++ cs', evs ++ evs').
Proof.
  revert d. induction bs as [|b bs IH]; intros d; cbn [app decode_all]; [by destruct (decode_all d bs') as [[? ?] ?]|]. destruct (decode_byte d b) as [d1 o]. rewrite IH. destruct (decode_all d1 bs) as [[d2 cs] evs]. destruct (decode_all d2 bs') as [[d3 cs'] evs'].
  rewrite app_assoc. by destruct o as [[c code]|].
Qed.
Lemma low_byte c : 1 <= c < 128 -> is_control c = false /\ (c =? 0xF0) = false /\ (c =? 0xE0) = false /\ (128 <=? c) = false.
Proof. intros Hc. unfold is_control. repeat case_zb; done || lia. Qed.
Lemma high_byte c : 1 <= c < 128 -> c <> 0x60 -> c <> 0x70 -> (c + 128 =? 0xF0) = false /\ (c + 128 =? 0xE0) = false /\ (128 <=? c + 128) = true /\ (c + 128 =? 0x9D) = (c =? 0x1D) /\
  is_control (c + 128) = (c =? 0x7A) || (c =? 0x7E) || (c =? 0x2A).
Proof. intros Hc H1 H2. unfold is_control. split_and!; repeat case_zb; done || lia. Qed.
Lemma decode_e0 lr : decode_byte (idle lr) 0xE0 = (mk_dec true lr.1 lr.2 false, None).
Proof. done. Qed.
Lemma ctrl_char_none ctrl k : code_of k = 0x1D -> symbol ctrl k = None.
Proof. destruct k; cbn [code_of]; intros ->; done. Qed.
Lemma decode_action lr a : fine (key_of a) -> decode_all (idle lr) (encode a) = (idle (hold a lr), chars (typed lr [a]), events (typed lr [a])).
Proof.
  destruct lr as [l r]. destruct a as [k|k]; cbn [key_of]; intros (Hc & H60 & H70 & Hx); unfold typed; cbn [fst snd].
  - rewrite app_nil_r. destruct (low_byte _ Hc) as (B1 & B2 & B3 & B4). destruct (decide (code_of k = 0x1D)) as [Ek|Ek]; [rewrite (ctrl_char_none _ _ Ek); destruct k as [c|c]; cbn [code_of] in Ek; subst c; done|].
    destruct k as [c|c]; cbn [encode prefix code_of app] in *; cbn [decode_all]; rewrite ?decode_e0; unfold decode_byte; rewrite B1, B2, B3, B4; cbn [idle d_e0 d_left d_right d_break fst snd hold symbol]; rewrite (proj2 (Z.eqb_neq c 0x1D) Ek); cbn [orb].
    + destruct (set1_char c =? 0); done.
    + by destruct (extended_key c) as [[x code]|].
  - rewrite app_nil_r. destruct (high_byte _ Hc H60 H70) as (B1 & B2 & B3 & B4 & B5). destruct k as [c|c]; cbn [encode prefix code_of app] in *; cbn [decode_all]; rewrite ?decode_e0; unfold decode_byte; rewrite B5, B1, B2, B3, B4; cbn [idle d_e0 d_left d_right d_break fst snd hold].
    + destruct (Z.eqb_spec c 0x1D) as [->|]; [done|]. cbn [negb andb]. by destruct (_ || _ || _).
    + destruct Hx as (X1 & X2 & X3). rewrite (proj2 (Z.eqb_neq c 0x7A)), (proj2 (Z.eqb_neq c 0x7E)), (proj2 (Z.eqb_neq c 0x2A)) by done. cbn [orb]. done.
Qed.
Lemma typed_cons lr a acts : typed lr (a :: acts) = typed lr [a] ++ typed (hold a lr) acts.
Proof. cbn [typed]. by rewrite app_nil_r. Qed.
Lemma decode_keys acts : forall lr, Forall (fun a => fine (key_of a)) acts -> decode_all (idle lr) (flat_map encode acts) = (idle (fold_left (fun lr a => hold a lr) acts lr), chars (typed lr acts), events (typed lr acts)).
Proof.
  induction acts as [|a acts IH]; intros lr Hf; [done|]. apply Forall_cons in Hf as [Ha Hf]. cbn [flat_map fold_left]. rewrite decode_app, (decode_action lr a Ha), (IH _ Hf), (typed_cons lr a acts). unfold chars, events. by rewrite !map_app.
Qed.

(** C14: The keys that are pressed and released reach the handler as the
    characters that they stand for, in order and with the control keys that
    are held applied, and go into the queue of events as long as it has room -
    whether the interrupt handler takes the bytes from the controller or, where
    it is enabled, polling does. *)
Theorem keys_typed (scr : screen) {P W} `{PS2Device P} `{KeyboardEventHandler W} h acts lr rest l (s : keyboard P W) : handler_returns (W:=W) -> Forall (fun a => fine (key_of a)) acts ->
  active_handler s = Some h -> queue_is (m_events (k_mouse s)) l -> waiting (m_ctl (k_mouse s)) (map (pair false) (flat_map encode acts) ++ rest) ->
  let n := length (flat_map encode acts) in let out := typed lr acts in let lr' := fold_left (fun lr a => hold a lr) acts lr in
  (dec_irq (k_keys s) = idle lr -> exists s', repeat_call n HandleInterrupt s = Some (tt, s') /\ dec_irq (k_keys s') = idle lr' /\ typing h (chars out) (events out) l rest s s') /\
  (dec_poll (k_keys s) = idle lr -> g_kbd_poll_enabled s = true -> exists s', repeat_call n (PollOnce scr;;; ret tt) s = Some (tt, s') /\ dec_poll (k_keys s') = idle lr' /\ typing h (chars out) (events out) l rest s s').
Proof.
  intros Hret Hf Ha Hq Hw. cbv zeta. split.
  - intros Hd. pose proof (stream_types _ _ h _ _ rest (irq_takes h (g_kbd_poll_enabled s) Hret) s l Ha eq_refl Hq Hw) as Hs. by rewrite Hd, (decode_keys acts lr Hf) in Hs.
  - intros Hd Hen. pose proof (stream_types _ _ h _ _ rest (poll_takes scr h Hret) s l Ha Hen Hq Hw) as Hs. by rewrite Hd, (decode_keys acts lr Hf) in Hs.
Qed.

(** ** The shell's handler *)

(** What the handler asks of the terminal, the windows and the shells. *)
Class Desktop (T : Type) := {
  gfx_available : T -> bool; terminal_active : T -> bool; focused_window : T -> Z; terminal_window : T -> Z;
  ScrollPageUp : ST T unit; ScrollPageDown : ST T unit;
  threaded_shell : T -> bool; OnKeyPressed : Z -> ST T unit;
  has_shell : T -> bool; InputChar : Z -> ST T unit;
}.
(** [g_app_key_head], [g_app_key_tail] and [g_app_key_buf]. *)
Record app_keys := mk_app { app_head : Z; app_tail : Z; app_buf : list Z }.
Definition sys_offer_key (c : Z) : ST app_keys unit :=
  let! a := gets id in
  let next_tail := Z.land (app_tail a + 1) 0xFF in
  if next_tail =? app_head a then ret tt
  else modify (fun a => mk_app (app_head a) next_tail (<[Z.to_nat (app_tail a) := c]> (app_buf a))).
Definition sys_key_poll : ST app_keys (option Z) :=
  let! a := gets id in
  if app_head a =? app_tail a then ret None
  else modify (fun a => mk_app (Z.land (app_head a + 1) 0xFF) (app_tail a) (app_buf a));;; ret (Some (ring_at (app_buf a) (app_head a))).
Record console (T : Type) := mk_console { c_app : app_keys; c_stdio : stdio; c_desk : T }.
Arguments mk_console {T}. Arguments c_app {T}. Arguments c_stdio {T}. Arguments c_desk {T}.

Section Shell.
Context {T : Type} `{Desktop T}.
Definition on_app {A} (m : ST app_keys A) : ST (console T) A := zoom c_app (fun a s => mk_console a (c_stdio s) (c_desk s)) m.
Definition on_stdio {A} (m : ST stdio A) : ST (console T) A := zoom c_stdio (fun x s => mk_console (c_app s) x (c_desk s)) m.
Definition on_desk {A} (m : ST T A) : ST (console T) A := zoom c_desk (fun x s => mk_console (c_app s) (c_stdio s) x) m.
Definition to_shell (c : Z) : ST (console T) unit :=
  let! d := gets c_desk in
  if threaded_shell d then on_desk (OnKeyPressed c) else if has_shell d then on_desk (InputChar c) else ret tt.
Definition ShellKeyboardHandler (c : Z) : ST (console T) unit :=
  on_app (sys_offer_key c);;;
  let! d := gets c_desk in
  let! consumed := (if gfx_available d then ret false else on_stdio (TryDeliverKey c)) in
  let in_terminal := (focused_window d =? 0) || (focused_window d =? terminal_window d) in
  if terminal_active d && in_terminal && (c =? int8 0xF1) then on_desk ScrollPageUp
  else if terminal_active d && in_terminal && (c =? int8 0xF2) then on_desk ScrollPageDown
  else if (if terminal_active d then in_terminal else negb consumed) then to_shell c
  else ret tt.
#[export] Instance shell_handler : KeyboardEventHandler (console T) := fun _ c => ShellKeyboardHandler c.
End Shell.

(** The ring of keys as a list. *)
Definition pending_keys (a : app_keys) : list Z := map (fun i => ring_at (app_buf a) ((app_head a + Z.of_nat i) mod 256)) (seq 0 (Z.to_nat ((app_tail a - app_head a) mod 256))).
Record app_ok (a : app_keys) : Prop := { app_size : length (app_buf a) = 256%nat; app_head_range : 0 <= app_head a < 256; app_tail_range : 0 <= app_tail a < 256 }.
Lemma pending_length a : Z.of_nat (length (pending_keys a)) = (app_tail a - app_head a) mod 256.
Proof. unfold pending_keys. rewrite length_map, length_seq, Z2Nat.id; [done|]. zdiv. Qed.
(** The ring of keys for applications is a queue of at most 255 keys:
    offering appends unless it is full, polling takes the oldest. *)
Theorem app_keys_refine a c : app_ok a ->
  (exists a', sys_offer_key c a = Some (tt, a') /\ app_ok a' /\ pending_keys a' = if decide (length (pending_keys a) = 255%nat) then pending_keys a else pending_keys a ++ [c]) /\
  (exists a', sys_key_poll a = Some (head (pending_keys a), a') /\ app_ok a' /\ pending_keys a' = tail (pending_keys a)).
Proof.
  intros [Hs Hh Ht]. pose proof (pending_length a) as Hlen. split.
  - unfold sys_offer_key. rewrite gets_step. cbn [id]. rewrite land_ff. set (n := (app_tail a + 1) mod 256). destruct (Z.eqb_spec n (app_head a)) as [En|En].
    + exists a. split; [done|]. split; [done|]. rewrite decide_True; [done|]. unfold n in *. zdiv.
    + eexists. split; [done|]. split; [split; cbn; [by rewrite length_insert|done|unfold n; zdiv]|]. rewrite decide_False by (unfold n in *; zdiv). unfold pending_keys at 1. cbn [app_head app_tail app_buf].
      replace (Z.to_nat ((n - app_head a) mod 256)) with (S (Z.to_nat ((app_tail a - app_head a) mod 256))) by (unfold n in *; zdiv). rewrite seq_S, map_app. cbn [map Nat.add]. f_equal.
      * unfold pending_keys. apply map_ext_in. intros i Hi. apply in_seq in Hi. unfold ring_at. rewrite list_lookup_insert_ne; [done|]. zdiv.
      * f_equal. unfold ring_at. replace (Z.to_nat ((app_head a + Z.of_nat (Z.to_nat ((app_tail a - app_head a) mod 256))) mod 256)) with (Z.to_nat (app_tail a)) by zdiv. rewrite list_lookup_insert_eq; [done|]. lia.
  - unfold sys_key_poll. rewrite gets_step. cbn [id]. destruct (Z.eqb_spec (app_head a) (app_tail a)) as [En|En].
    + exists a. unfold pending_keys. rewrite En, Z.sub_diag. done.
    + rewrite modify_step, land_ff. eexists. assert (En' : Z.to_nat ((app_tail a - app_head a) mod 256) = S (Z.to_nat ((app_tail a - (app_head a + 1) mod 256) mod 256))) by zdiv. unfold pending_keys at 1. rewrite En'. cbn [seq map head].
      split; [unfold ret; rewrite Z.add_0_r, (Z.mod_small (app_head a)) by lia; done|]. split; [split; cbn; [done|zdiv|done]|]. unfold pending_keys. rewrite En'. cbn [seq map tail app_head app_tail app_buf]. rewrite <-seq_shift, map_map. apply map_ext_in. intros i Hi. unfold ring_at. do 2 f_equal. zdiv.
Qed.

Section Reader.
Context {T : Type} `{Desktop T}.
Definition desktop_returns : Prop := forall t : T, (exists t', ScrollPageUp t = Some (tt, t')) /\ (exists t', ScrollPageDown t = Some (tt, t')) /\
  forall c, (exists t', OnKeyPressed c t = Some (tt, t')) /\ exists t', InputChar c t = Some (tt, t').
Lemma offer_returns c a : exists a', sys_offer_key c a = Some (tt, a').
Proof. unfold sys_offer_key. rewrite gets_step. destruct (_ =? _); by eexists. Qed.
Lemma TryDeliverKey_returns c s : exists b s', TryDeliverKey c s = Some (b, s').
Proof.
  unfold TryDeliverKey. rewrite !gets_step. destruct (negb _); [by eexists _, _|]. rewrite !gets_step. unfold puts, putc, modify, bind, ret.
  destruct (_ || _); [destruct (g_buf_head s =? _)|destruct (Z.land _ _ =? _)]; try (by eexists _, _). destruct (_ || _); by eexists _, _.
Qed.
Lemma on_desk_returns (m : ST T unit) (w : console T) : (exists t', m (c_desk w) = Some (tt, t')) -> exists w', on_desk m w = Some (tt, w').
Proof. intros [t' E]. unfold on_desk, zoom. rewrite E. by eexists. Qed.
Lemma shell_returns : desktop_returns -> handler_returns (W:=console T).
Proof.
  intros Hd h c w. change (OnKeyDown h c w) with (ShellKeyboardHandler c w). unfold ShellKeyboardHandler. destruct (offer_returns c (c_app w)) as (a & Ea). unfold bind at 1, on_app, zoom at 1. rewrite Ea. rewrite gets_step.
  set (w1 := mk_console a _ _). assert (Hc : exists b w2, (if gfx_available (c_desk w1) then ret false else on_stdio (TryDeliverKey c)) w1 = Some (b, w2)).
  { destruct (gfx_available _); [by eexists _, _|]. destruct (TryDeliverKey_returns c (c_stdio w1)) as (b & s' & E). unfold on_stdio, zoom. rewrite E. by eexists _, _. }
  destruct Hc as (b & w2 & E2). rewrite (bind_step _ _ _ _ _ E2). destruct (Hd (c_desk w2)) as (H1 & H2 & H3). destruct (H3 c) as [H4 H5]. destruct (_ && _ && _); [by apply on_desk_returns|]. destruct (_ && _ && _); [by apply on_desk_returns|].
  destruct (if terminal_active _ then _ else _); [|by eexists]. unfold to_shell. rewrite gets_step. destruct (threaded_shell _); [by apply on_desk_returns|]. destruct (has_shell _); [by apply on_desk_returns|by eexists].
Qed.
(** Any key but backspace and carriage return. *)
Definition ordinary (c : Z) : Prop := c <> 8 /\ c <> 127 /\ c <> 13.
(** A key in text mode, while [scanf] reads. *)
Definition text_mode (w : console T) : Prop := gfx_available (c_desk w) = false /\ terminal_active (c_desk w) = false /\ live (c_stdio w).
Lemma text_key h c (w : console T) : text_mode w -> ordinary c -> (length (queue (c_stdio w)) < 255)%nat ->
  exists w', OnKeyDown h c w = Some (tt, w') /\ text_mode w' /\ c_desk w' = c_desk w /\ queue (c_stdio w') = queue (c_stdio w) ++ [c].
Proof.
  intros (Hg & Ht & [Hr Ha]) (Hc & Hc' & Hc'') Hn. change (OnKeyDown h c w) with (ShellKeyboardHandler c w). unfold ShellKeyboardHandler. destruct (offer_returns c (c_app w)) as (a & Ea). unfold bind at 1, on_app, zoom at 1. rewrite Ea. rewrite gets_step. cbn [c_desk]. rewrite Hg, Ht.
  destruct (TryDeliverKey_spec c (c_stdio w) Hr) as (b & x & E & Hr1 & _ & Ha1 & Hq). rewrite Ha in Hq, Ha1. rewrite !decide_False in Hq by lia. rewrite (proj2 (Z.eqb_neq c 13)) in Hq by lia. destruct Hq as [-> Hq].
  unfold bind, on_stdio, zoom. cbn [c_stdio]. rewrite E. eexists. split; [done|]. by split.
Qed.
Lemma text_keys h cs : forall w : console T, text_mode w -> Forall ordinary cs -> (length (queue (c_stdio w)) + length cs <= 255)%nat ->
  exists w', offer_all h cs w = Some (tt, w') /\ text_mode w' /\ c_desk w' = c_desk w /\ queue (c_stdio w') = queue (c_stdio w) ++ cs.
Proof.
  induction cs as [|c cs IH]; intros w Ht Hp Hn; [exists w; by rewrite app_nil_r|]. apply Forall_cons in Hp as [Hc Hp]. cbn [length] in Hn. destruct (text_key h c w Ht Hc ltac:(lia)) as (w1 & E1 & Ht1 & Hd1 & Hq1).
  destruct (IH w1 Ht1 Hp) as (w' & E & Ht' & Hd' & Hq'); [rewrite Hq1, length_app; cbn; lia|]. exists w'. cbn [offer_all]. rewrite (bind_step _ _ _ _ _ E1). split_and!; try done; [by rewrite Hd'|]. by rewrite Hq', Hq1, <-app_assoc.
Qed.
End Reader.

(** C25: From the keyboard to the reader: in text mode, while input is being
    read, the keys pressed and released - their bytes taken one per interrupt -
    end up as their characters, in order, in the buffer that [scanf] reads, and
    nothing goes to the shell. *)
Theorem keys_reach_reader {P T} `{PS2Device P} `{Desktop T} h acts lr rest l (s : keyboard P (console T)) : desktop_returns -> Forall (fun a => fine (key_of a)) acts ->
  active_handler s = Some h -> queue_is (m_events (k_mouse s)) l -> waiting (m_ctl (k_mouse s)) (map (pair false) (flat_map encode acts) ++ rest) -> dec_irq (k_keys s) = idle lr ->
  text_mode (k_world s) -> let cs := chars (typed lr acts) in Forall ordinary cs -> (length (queue (c_stdio (k_world s))) + length cs <= 255)%nat ->
  exists s', repeat_call (length (flat_map encode acts)) HandleInterrupt s = Some (tt, s') /\ queue (c_stdio (k_world s')) = queue (c_stdio (k_world s)) ++ cs /\ c_desk (k_world s') = c_desk (k_world s).
Proof.
  intros Hdr Hf Ha Hq Hw Hd Ht cs Hp Hn. pose proof (stream_types _ _ h _ _ rest (irq_takes h (g_kbd_poll_enabled s) (shell_returns Hdr)) s l Ha eq_refl Hq Hw) as Hs. rewrite Hd, (decode_keys acts lr Hf) in Hs.
  destruct Hs as (s' & E & _ & [Tw _ _ _ _]). exists s'. split; [done|]. destruct (text_keys h cs (k_world s) Ht Hp Hn) as (w & Ew & _ & Hdw & Hqw). unfold cs in Ew. rewrite Ew in Tw. by injection Tw as <-.
Qed.

(** ** Keyboard and mouse together *)

Section Together.
Context (scr : screen) {P W : Type} `{PS2Device P} `{KeyboardEventHandler W}.
#[local] Abbreviation st := (keyboard P W).
Record keyboard_ok (s : st) : Prop := { kb_mouse : mouse_ok scr (k_mouse s); kb_bytes : bytes_ok (k_mouse s); kb_ready : m_ready (m_ctl (k_mouse s)) = true }.
Lemma set_queue_ok q l (m : mouse P) : mouse_ok scr m -> queue_is q l -> mouse_ok scr (set_queue q m).
Proof. intros [] Hq. split; try done. by exists l. Qed.
Lemma delivered_ok h o evs (s s' : st) : keyboard_ok s -> delivered h o evs s s' -> keyboard_ok s'.
Proof. intros [Hm Hb Hr] (_ & Hq & _). destruct (mo_queue _ _ Hm) as [l Hl]. destruct (Hq l Hl) as (q & E & Hq'). split; rewrite E; try done. by apply (set_queue_ok q _ _ Hm Hq'). Qed.
Lemma set_controller_ok c (s : st) : keyboard_ok s -> m_ready c = true -> keyboard_ok (set_mouse (set_ctl c (k_mouse s)) s).
Proof. intros [Hm Hb Hr] Hc. split; try done. by apply set_ctl_ok. Qed.
Lemma read_any (s : st) : keyboard_ok s -> exists b c, on_mouse (on_ctl ReadData) s = Some (b, set_mouse (set_ctl c (k_mouse s)) s) /\ m_ready c = true /\ byte_ok b.
Proof.
  intros [_ _ Hr]. unfold on_mouse, on_ctl, zoom, ReadData, in_port. rewrite Hr. pose proof (data_byte (port (m_ctl (k_mouse s)))) as Hb. destruct (inb PS2_DATA_PORT _) as [v d]. by eexists _, _.
Qed.
Lemma key_bytes_ok b (s : st) : handler_returns (W:=W) -> keyboard_ok s -> byte_ok b -> (exists s', key_interrupt b s = Some (tt, s') /\ keyboard_ok s') /\ (exists r s', key_polled b s = Some (r, s') /\ keyboard_ok s').
Proof.
  intros Hret Hok Hb. pose proof (mo_queue _ _ (kb_mouse _ Hok)) as Hq. destruct (active_handler s) as [h|] eqn:Ea.
  - destruct (key_interrupt_ok h b s Hret Hq Hb Ea) as (s1 & E1 & He1 & _). destruct (key_polled_ok h b s Hret Hq Hb Ea) as (s2 & E2 & He2 & _). unfold byte_effect in *.
    split; [exists s1|exists true, s2]; (split; [done|]); [destruct (decode_byte (dec_irq _) b) as [d o]; destruct He1 as [_ Hd]|destruct (decode_byte (dec_poll _) b) as [d o]; destruct He2 as [_ Hd]]; by apply (delivered_ok h o (key_event d o) s).
  - unfold key_interrupt, key_polled, edit. destruct (is_control b); [split; [by exists s|by exists true, s]|]. rewrite !modify_step, !gets_step. change (active_handler (set_keys _ s)) with (active_handler s). rewrite Ea. destruct Hok.
    split; [eexists; split; [done|]|eexists _, _; split; [done|]]; by split.
Qed.
Lemma poll_once_ok (s : st) : screen_ok scr -> handler_returns (W:=W) -> keyboard_ok s -> exists r s', PollOnce scr s = Some (r, s') /\ keyboard_ok s'.
Proof.
  intros Hs Hret Hok. unfold PollOnce. rewrite gets_step. cbn [id]. destruct (negb _); [by exists false, s|]. destruct (returns_in PS2_CMD_PORT _ (kb_ready _ Hok)) as (v & c & E & Hc).
  assert (E' : on_mouse (on_ctl ReadStatus) s = Some (v, set_mouse (set_ctl c (k_mouse s)) s)) by (unfold on_mouse, on_ctl, zoom, ReadStatus; by rewrite E). rewrite (bind_step _ _ _ _ _ E'). pose proof (set_controller_ok c s Hok Hc) as Hok1. set (s1 := set_mouse _ s) in *.
  destruct (_ =? 0); [by exists false, s1|]. destruct (bit_set v 0x20).
  - destruct (g_mouse_driver s); [|by exists false, s1]. destruct (mouse_calls_ok scr Hs (k_mouse s1) (kb_mouse _ Hok1) (kb_bytes _ Hok1) (kb_ready _ Hok1)) as [_ (m & Em & M1 & M2 & M3)].
    unfold bind, on_mouse, zoom. rewrite Em. eexists _, _. split; [done|]. by split.
  - destruct (read_any s1 Hok1) as (b & c2 & E2 & Hc2 & Hb). rewrite (bind_step _ _ _ _ _ E2). apply (key_bytes_ok b _ Hret); [by apply set_controller_ok|done].
Qed.
Lemma poll_loop_ok n : screen_ok scr -> handler_returns (W:=W) -> forall s : st, keyboard_ok s -> exists s', poll_loop scr n s = Some (tt, s') /\ keyboard_ok s'.
Proof.
  intros Hs Hret. induction n as [|n IH]; intros s Hok; [by exists s|]. cbn [poll_loop]. destruct (poll_once_ok s Hs Hret Hok) as (r & s1 & E & Hok1). rewrite (bind_step _ _ _ _ _ E). destruct r; [by apply IH|by exists s1].
Qed.
End Together.

(** Whatever bytes of either device wait, the interrupt handler of the
    keyboard and its polling - which passes the mouse's bytes to the mouse
    driver - return and keep the state of both drivers well-formed. *)
Theorem keyboard_invariant (scr : screen) {P W} `{PS2Device P} `{KeyboardEventHandler W} (s : keyboard P W) : screen_ok scr -> handler_returns (W:=W) -> keyboard_ok scr s ->
  (exists s', HandleInterrupt s = Some (tt, s') /\ keyboard_ok scr s') /\ (exists s', poll_tick scr s = Some (tt, s') /\ keyboard_ok scr s').
Proof.
  intros Hs Hret Hok. split.
  - destruct (read_any scr s Hok) as (b & c & E & Hc & Hb). unfold HandleInterrupt. rewrite (bind_step _ _ _ _ _ E). apply (key_bytes_ok scr b _ Hret); [by apply set_controller_ok|done].
  - unfold poll_tick. rewrite gets_step. destruct (g_kbd_poll_enabled s); [by apply poll_loop_ok|by exists s].
Qed.

(** ** Where the driver goes wrong *)

(** The release of an extended key whose second byte is 0xAA - keyboards
    send it around the keys of the cursor block - is filtered as an answer of
    the device, but its prefix is not: the next key is read as an extended
    one, and a letter or a digit is lost. *)
Theorem shift_release_loses_key {P W} `{PS2Device P} `{KeyboardEventHandler W} h c lr rest l (s : keyboard P W) : handler_returns (W:=W) -> 1 <= c < 128 -> set1_char c <> 0 -> extended_key c = None ->
  active_handler s = Some h -> queue_is (m_events (k_mouse s)) l -> let acts := [Release (Ext 0x2A); Press (Plain c)] in waiting (m_ctl (k_mouse s)) (map (pair false) (flat_map encode acts) ++ rest) -> dec_irq (k_keys s) = idle lr ->
  length (typed lr acts) = 1%nat /\ exists s', repeat_call 3 HandleInterrupt s = Some (tt, s') /\ typing h [] [] l rest s s'.
Proof.
  intros Hret Hc Hn1 Hn2 Ha Hq acts Hw Hd. split; [cbn [acts typed symbol app hold]; rewrite (proj2 (Z.eqb_neq _ _) Hn1); done|].
  pose proof (stream_types _ _ h _ _ rest (irq_takes h (g_kbd_poll_enabled s) Hret) s l Ha eq_refl Hq Hw) as Hs. rewrite Hd in Hs. cbn [acts flat_map encode prefix code_of app] in Hs. change (0x2A + 128) with 0xAA in Hs. cbn [decode_all] in Hs. rewrite decode_e0 in Hs.
  change (decode_byte (mk_dec true lr.1 lr.2 false) 0xAA) with (mk_dec true lr.1 lr.2 false, @None (Z * Z)) in Hs. cbn iota beta in Hs. destruct (low_byte c Hc) as (B1 & B2 & B3 & B4). unfold decode_byte in Hs. rewrite B1, B2, B3, B4 in Hs. cbn [d_e0 d_break] in Hs. rewrite Hn2 in Hs.
  destruct Hs as (s' & E & _ & Ht). by exists s'.
Qed.
(** Polling is not the same as the interrupt: each path keeps a flag of its
    own for the prefix 0xF0, so that a release whose prefix arrives by
    interrupt and whose code is polled types a character, while the same two
    bytes type nothing on one path. *)
Theorem break_split_types (scr : screen) {P W} `{PS2Device P} `{KeyboardEventHandler W} h c lr rest l (s : keyboard P W) : handler_returns (W:=W) -> 1 <= c < 128 -> set1_char c <> 0 -> active_handler s = Some h ->
  g_kbd_poll_enabled s = true -> queue_is (m_events (k_mouse s)) l -> waiting (m_ctl (k_mouse s)) (map (pair false) [0xF0; c] ++ rest) -> dec_irq (k_keys s) = idle lr -> dec_poll (k_keys s) = idle lr ->
  (exists s', repeat_call 2 HandleInterrupt s = Some (tt, s') /\ k_world s' = k_world s) /\
  (exists s' x, (HandleInterrupt;;; PollOnce scr;;; ret tt) s = Some (tt, s') /\ OnKeyDown h x (k_world s) = Some (tt, k_world s')).
Proof.
  intros Hret Hc Hn1 Ha Hen Hq Hw Hd Hdp. assert (Hbrk : decode_byte (mk_dec false lr.1 lr.2 true) c = (idle lr, None)) by (destruct (low_byte c Hc) as (B1 & B2 & _); unfold decode_byte; by rewrite B1, B2). split.
  - pose proof (stream_types _ _ h _ [0xF0; c] rest (irq_takes h (g_kbd_poll_enabled s) Hret) s l Ha eq_refl Hq Hw) as Hs. rewrite Hd in Hs. cbn [decode_all] in Hs. change (decode_byte (idle lr) 0xF0) with (mk_dec false lr.1 lr.2 true, @None (Z * Z)) in Hs. cbn iota in Hs. rewrite Hbrk in Hs.
    destruct Hs as (s' & E & _ & [Tw _ _ _ _]). exists s'. split; [done|]. cbn [offer_all] in Tw. by injection Tw as <-.
  - cbn [map app] in Hw. destruct (read_byte _ _ _ s Hw) as (c1 & E1 & Hw1 & _). set (s0 := set_mouse (set_ctl c1 (k_mouse s)) s) in *. set (s1 := set_keys (set_break true (count_event (set_source 1 (k_keys s)))) s0).
    assert (E1' : HandleInterrupt s = Some (tt, s1)) by (unfold HandleInterrupt; rewrite (bind_step _ _ _ _ _ E1); fold s0; unfold key_interrupt, edit; change (is_control 0xF0) with false; cbn iota; rewrite modify_step, gets_step; change (active_handler (set_keys _ s0)) with (active_handler s); by rewrite Ha).
    destruct (poll_takes scr h Hret s1 c rest l Ha Hen Hq Hw1) as (c2 & s' & E2 & _ & He). unfold byte_effect in He. change (dec_poll (k_keys s1)) with (dec_poll (k_keys s)) in He. rewrite Hdp in He. destruct (low_byte c Hc) as (B1 & B2 & B3 & B4). unfold decode_byte in He. rewrite B1, B2, B3, B4 in He. cbn [idle d_e0 d_break] in He. rewrite (proj2 (Z.eqb_neq _ _) Hn1) in He.
    destruct He as [_ (Hdel & _)]. eexists s', _. split; [|exact Hdel]. by rewrite (bind_step _ _ _ _ _ E1').
Qed.

(** ** Activation *)

Section Activation.
Context {P : Type} `{PS2Device P}.
(** The controller answers a command with at most [k] bytes. *)
Definition answers_within (k : nat) : Prop := forall p v (d : P), (length (pending (outb p v d)) <= length (pending d) + k)%nat.
Definition adds (k : nat) (m : ST (controller P) unit) : Prop := forall c l, waiting c l -> exists c' l', m c = Some (tt, c') /\ waiting c' l' /\ (length l' <= length l + k)%nat.
Lemma status_read c l : waiting c l -> exists v c', ReadStatus c = Some (v, c') /\ waiting c' l.
Proof. intros [Hr Hp]. unfold ReadStatus, in_port. rewrite Hr. pose proof (status_keeps (port c)) as Hk. destruct (inb PS2_CMD_PORT (port c)) as [v d]. eexists _, _. split; [done|]. split; [done|]. cbn in *. congruence. Qed.
Lemma adds_wait n f : adds 0 (wait_status n f).
Proof.
  induction n as [|n IH]; intros c l Hw; [exists c, l; split; [done|]; split; [done|lia]|]. cbn [wait_status]. destruct (status_read c l Hw) as (v & c' & E & Hw'). rewrite (bind_step _ _ _ _ _ E). destruct (f v); [exists c', l; split; [done|]; split; [done|lia]|by apply IH].
Qed.
Lemma adds_input n : adds 0 (wait_input n).
Proof.
  induction n as [|n IH]; intros c l Hw; cbn [wait_input]; destruct (status_read c l Hw) as (v & c' & E & Hw'); rewrite (bind_step _ _ _ _ _ E); (destruct (_ =? 0); [exists c', l; split; [done|]; split; [done|lia]|]); [exists c', l; split; [done|]; split; [done|lia]|by apply IH].
Qed.
Lemma adds_command k v : answers_within k -> adds k (send_command v).
Proof.
  intros Hk c l Hw. destruct (adds_wait WAIT_PASSES (fun st => Z.land st PS2_STATUS_IBF =? 0) c l Hw) as (c1 & l1 & E & [Hr Hp] & Hle). unfold send_command, WaitWrite. rewrite (bind_step _ _ _ _ _ E). unfold WriteCommand, out_port. rewrite Hr.
  eexists _, _. split; [done|]. split; [done|]. cbn. pose proof (Hk PS2_CMD_PORT v (port c1)) as Hb. rewrite Hp in Hb. lia.
Qed.
Lemma returns_answer n : returns (wait_answer (P:=P) n).
Proof. induction n as [|n IH]; [intros c Hc; by exists tt, c|]. cbn [wait_answer]. apply returns_bind; [apply returns_in|]. intros v. destruct (_ =? 0); [done|]. intros c Hc. by exists tt, c. Qed.
Lemma returns_finish : returns (P:=P) (let! config := ReadConfig in send_command 0x60;;; send_data (enable_bits config);;; send_command 0xAE;;; send_data 0xF4;;; wait_answer 1000;;;
  let! v := ReadStatus in if Z.land v 0x01 =? 0 then ret tt else ReadData;;; ret tt).
Proof.
  destruct (controller_returns (P:=P)) as (_ & _ & Hc & Hd & _ & Hcfg). apply returns_bind; [done|]. intros config. do 4 (apply returns_bind; [done|]; intros _). apply returns_bind; [apply returns_answer|]. intros _.
  apply returns_bind; [apply returns_in|]. intros v. destruct (_ =? 0); [intros c Hr; by exists tt, c|]. apply returns_bind; [apply returns_in|]. intros _ c Hr. by exists tt, c.
Qed.
End Activation.

(** The keyboard's activation ends, given that the bytes that wait can be
    read and that the controller answers a command with few bytes; of the
    state only the controller changes. *)
Theorem keyboard_Activate {P W} `{PS2Device P} l k fuel (s : keyboard P W) : answers_within (P:=P) k -> waiting (m_ctl (k_mouse s)) l -> (length l < fuel)%nat -> (2 * k < fuel)%nat ->
  exists c, Activate fuel s = Some (tt, set_mouse (set_ctl c (k_mouse s)) s) /\ m_ready c = true.
Proof.
  intros Hk Hw Hl Hf. assert (Hrun : exists c, activation fuel (m_ctl (k_mouse s)) = Some (tt, c) /\ m_ready c = true).
  { unfold activation. destruct (flush_ok _ l fuel Hw Hl) as (c1 & E1 & W1). rewrite (bind_step _ _ _ _ _ E1). destruct (adds_input 1000 c1 [] W1) as (c2 & l2 & E2 & W2 & L2). rewrite (bind_step _ _ _ _ _ E2).
    destruct (adds_command k 0xAD Hk c2 l2 W2) as (c3 & l3 & E3 & W3 & L3). rewrite (bind_step _ _ _ _ _ E3). destruct (adds_command k 0xA7 Hk c3 l3 W3) as (c4 & l4 & E4 & W4 & L4). rewrite (bind_step _ _ _ _ _ E4).
    cbn [length] in L2. destruct (flush_ok c4 l4 fuel W4 ltac:(lia)) as (c5 & E5 & [R5 _]). rewrite (bind_step _ _ _ _ _ E5). destruct (returns_finish c5 R5) as ([] & c & E & Hr). by exists c. }
  destruct Hrun as (c & E & Hr). exists c. split; [|done]. unfold Activate, on_mouse, on_ctl, zoom. by rewrite E.
Qed.

(** ** Examples *)

Record desk := mk_desk { shell_got : list Z }.
#[export] Instance demo_desktop : Desktop desk := {
  gfx_available _ := false; terminal_active _ := false; focused_window _ := 0; terminal_window _ := 0; ScrollPageUp := ret tt; ScrollPageDown := ret tt;
  threaded_shell _ := true; OnKeyPressed c := modify (fun d => mk_desk (shell_got d ++ [c])); has_shell _ := false; InputChar _ := ret tt }.
Lemma demo_desktop_returns : desktop_returns (T:=desk).
Proof. intros t. split_and!; try (by eexists). intros c. split; by eexists. Qed.
Definition demo_console : console desk := mk_console (mk_app 0 0 (replicate 256 0)) (mk_stdio true true [] true 0 0 (replicate 256 0) []) (mk_desk []).
Definition demo_keyboard (l : list Z) : keyboard fifo (console desk) :=
  mk_keyboard (demo_mouse (map (pair false) l)) true demo_console (Some 1) None (mk_keys false false false false false 0 0) true.
Lemma demo_queue l : queue_is (m_events (k_mouse (demo_keyboard l))) [].
Proof. apply Queue_new_is. Qed.
(** Control held with "c", then "a". *)
Definition demo_actions : list action := [Press (Plain 0x1D); Press (Plain 0x2E); Release (Plain 0x2E); Release (Plain 0x1D); Press (Plain 0x1E)].
Lemma demo_fine : Forall (fun a => fine (key_of a)) demo_actions.
Proof. unfold demo_actions. repeat (apply Forall_cons; split; [unfold fine; cbn; lia|]). apply Forall_nil. done. Qed.
Definition demo_bytes : list Z := flat_map encode demo_actions.
Lemma demo_waits : waiting (m_ctl (k_mouse (demo_keyboard demo_bytes))) (map (pair false) demo_bytes ++ []).
Proof. split; vm_compute; reflexivity. Qed.

Lemma keys_typed_witness : chars (typed (false, false) demo_actions) = [3; ch "a"] /\ exists s', repeat_call (length demo_bytes) HandleInterrupt (demo_keyboard demo_bytes) = Some (tt, s') /\ typing 1 [3; ch "a"] (events (typed (false, false) demo_actions)) [] [] (demo_keyboard demo_bytes) s'.
Proof.
  split; [vm_compute; reflexivity|]. destruct (keys_typed demo_screen 1 demo_actions (false, false) [] [] (demo_keyboard demo_bytes) (shell_returns demo_desktop_returns) demo_fine eq_refl (demo_queue _) demo_waits) as [Hirq _].
  destruct (Hirq eq_refl) as (s' & E & _ & Ht). exact (ex_intro _ s' (conj E Ht)).
Defined.
Lemma keys_reach_reader_witness : exists s', repeat_call (length demo_bytes) HandleInterrupt (demo_keyboard demo_bytes) = Some (tt, s') /\ queue (c_stdio (k_world s')) = [3; ch "a"].
Proof.
  assert (Ht : text_mode (k_world (demo_keyboard demo_bytes))) by (split_and!; done || (split; [split_and!|]; done)). assert (Hp : Forall ordinary (chars (typed (false, false) demo_actions))) by (change (chars _) with [3; ch "a"]; apply Forall_cons; split; [|apply Forall_singleton]; unfold ordinary; vm_compute; split_and!; discriminate).
  assert (Hn : (length (queue (c_stdio (k_world (demo_keyboard demo_bytes)))) + length (chars (typed (false, false) demo_actions)) <= 255)%nat) by (vm_compute; lia).
  destruct (keys_reach_reader 1 demo_actions (false, false) [] [] (demo_keyboard demo_bytes) demo_desktop_returns demo_fine eq_refl (demo_queue _) demo_waits eq_refl Ht Hp Hn) as (s' & E & Hq & _). exact (ex_intro _ s' (conj E Hq)).
Defined.
Lemma app_keys_refine_witness : exists a', sys_offer_key 97 (mk_app 255 255 (replicate 256 0)) = Some (tt, a') /\ pending_keys a' = [97].
Proof. destruct (app_keys_refine (mk_app 255 255 (replicate 256 0)) 97) as [(a' & E & _ & Hp) _]; [split; done|]. exact (ex_intro _ a' (conj E Hp)). Defined.
Lemma demo_keyboard_ok l : keyboard_ok demo_screen (demo_keyboard l).
Proof. split; [apply demo_mouse_ok|by split; repeat constructor|done]. Qed.
Lemma keyboard_invariant_witness : exists s', HandleInterrupt (demo_keyboard [0x1E]) = Some (tt, s') /\ keyboard_ok demo_screen s'.
Proof. destruct (keyboard_invariant demo_screen (demo_keyboard [0x1E]) demo_screen_ok (shell_returns demo_desktop_returns) (demo_keyboard_ok _)) as [Hi _]. exact Hi. Defined.
Lemma shift_release_witness : exists s', repeat_call 3 HandleInterrupt (demo_keyboard [0xE0; 0xAA; 0x1E]) = Some (tt, s') /\ typing 1 [] [] [] [] (demo_keyboard [0xE0; 0xAA; 0x1E]) s'.
Proof.
  assert (Hw : waiting (m_ctl (k_mouse (demo_keyboard [0xE0; 0xAA; 0x1E]))) (map (pair false) (flat_map encode [Release (Ext 0x2A); Press (Plain 0x1E)]) ++ [])) by (split; vm_compute; reflexivity).
  destruct (shift_release_loses_key 1 0x1E (false, false) [] [] (demo_keyboard [0xE0; 0xAA; 0x1E]) (shell_returns demo_desktop_returns) ltac:(lia) ltac:(vm_compute; discriminate) eq_refl eq_refl (demo_queue _) Hw eq_refl) as [_ Hs]. exact Hs.
Defined.
Lemma break_split_witness : exists s' x, (HandleInterrupt;;; PollOnce demo_screen;;; ret tt) (demo_keyboard [0xF0; 0x1E]) = Some (tt, s') /\ OnKeyDown 1 x demo_console = Some (tt, k_world s').
Proof.
  assert (Hw : waiting (m_ctl (k_mouse (demo_keyboard [0xF0; 0x1E]))) (map (pair false) [0xF0; 0x1E] ++ [])) by (split; vm_compute; reflexivity).
  destruct (break_split_types demo_screen 1 0x1E (false, false) [] [] (demo_keyboard [0xF0; 0x1E]) (shell_returns demo_desktop_returns) ltac:(lia) ltac:(vm_compute; discriminate) eq_refl eq_refl (demo_queue _) Hw eq_refl eq_refl) as [_ Hs]. exact Hs.
Defined.
Lemma keyboard_Activate_witness : exists c, Activate 2 (demo_keyboard [0x1E]) = Some (tt, set_mouse (set_ctl c (k_mouse (demo_keyboard [0x1E]))) (demo_keyboard [0x1E])).
Proof.
  assert (Hk : answers_within (P:=fifo) 0) by (intros p v d; cbn; lia). assert (Hw : waiting (m_ctl (k_mouse (demo_keyboard [0x1E]))) [(false, 0x1E)]) by (split; reflexivity).
  destruct (keyboard_Activate [(false, 0x1E)] 0 2 (demo_keyboard [0x1E]) Hk Hw ltac:(cbn; lia) ltac:(lia)) as (c & E & _). exact (ex_intro _ c E).
Defined.
